(* ===== verification/_CoqProject ===== *)
-Q . S2P
Prelude.v
Crc32.v
Dhrystone.v
Nsieve.v
Memtester.v
MersenneTwister.v
Postmark.v
PostmarkRun.v
PostmarkLocations.v
PostmarkCli.v
MemtesterMain.v
HttpReply.v
HttpReplyProofs.v
HttpReplyTotal.v
HttpReplyTheorems.v
Ports.v
AddrTable.v
Doubles.v
Rounding.v
ExactDoubles.v
TimerWheel.v
TimerCells.v
TimerWheelProofs.v
TimerWheelSteps.v
TimerTrace.v
TimerWheelTheorems.v
LmStats.v
LmTiming.v
LmTimingProofs.v
LmHarness.v
LmHarnessProofs.v
LmHarnessTheorems.v
BasicStats.v
BasicStatsTheorems.v
HttperfState.v
Httperf.v
HttperfRequest.v
HttperfInv.v
HttperfFrame.v
HttperfSteps.v
HttperfIssue.v
HttperfClose.v
HttperfDone.v
HttperfReply.v
HttperfSend.v
HttperfConnect.v
HttperfLife.v
HttperfRounds.v
HttperfLoop.v
HttperfSafety.v
HttperfTheorems.v
LmMem.v
LmMemWords.v
LmMemProofs.v
LmMemRings.v
LmMemFull.v
LmMemTest.v
LmMemTheorems.v
DoubleSign.v
IperfReporter.v
IperfRing.v
IperfRingProofs.v
IperfStats.v
IperfLoss.v
IperfSums.v
IperfSystem.v
IperfExamples.v
IperfSystemProofs.v
IperfSystemInv.v
IperfSystemSweep.v
IperfTheorems.v
IperfThreads.v
NetMessage.v
NetMessageTheorems.v
NetHist.v
NetHistProofs.v
NetHistPercentile.v
NetHistTheorems.v
