(* ===== verification/Prelude.v ===== *)
(** * A verification development for the Open Benchmarks collection

    The repository (src/) collects benchmark programs that are built and run
    independently of each other.  The development takes the programs whose own logic
    decides whether their measurements can be believed, one file (or a few) for each; a
    file has one Module of its name, and where it has two, its first comment names them:

    - Prelude: the outcomes of C code ([cres]: returned, exited, undefined behaviour,
      out of fuel) with the monad they form, machine integers at their width, and the
      lemmas and tactics the other files share.  Doubles: the type [double] as the
      [spec_float]s of precision 53, computed.  Rounding: the rounding error of a binary
      format; ExactDoubles: doubles that hold integers, on which arithmetic is exact.
    - Crc32: tiobench/crc32.c.  Dhrystone: dhrystone/dhry_1.c and dhry_2.c.  Nsieve:
      nsieve/nsieve.c.  Memtester: memtester/tests.c and the test loops of
      memtester.c; MemtesterMain: the size and the allocation of the buffer.
    - postmark/postmark-1_5.c in five parts: MersenneTwister (its generator), Postmark
      (file table, transactions, [cli_run]), PostmarkRun (what a run guarantees),
      PostmarkLocations (the linked list of directories), PostmarkCli (commands,
      configuration file, main loop).  A line of the command line changes the
      configuration and the locations, and [run] hands both to a benchmark run: the
      theorems of PostmarkCli establish what those of PostmarkRun assume.
    - httperf/src: HttpReply, HttpReplyProofs, HttpReplyTheorems are the reply parser
      of http.c, HttpReplyTotal shows that it returns on every input; TimerWheel,
      TimerCells, TimerWheelProofs, TimerWheelSteps, TimerTrace (records of what timers
      do) and TimerWheelTheorems are timer.c; Ports and AddrTable are the map of local ports and
      the table of addresses in core.c; BasicStats and BasicStatsTheorems are
      stat/basic.c.  HttperfState has the objects (object.h, conn.h, call.h), their
      reference counts and the table of event handlers; Httperf has the rest of core.c,
      conn.c, call.c, the generators gen/call_seq.c, conn_rate.c, rate.c, uri_fixed.c and
      misc.c, and [main] behind the options, over a record [system] of the system calls.
      The proof that a test is safe is in HttperfRequest (requests and partial writes),
      HttperfInv (the invariant, the laws of the system calls), HttperfFrame
      and HttperfSteps (lemmas for single changes of state), HttperfIssue, HttperfClose,
      HttperfDone, HttperfReply, HttperfSend, HttperfConnect and HttperfLife
      (one file for each operation of core.c and what it sets off), HttperfRounds,
      HttperfLoop and HttperfSafety (timers, rounds, the loop), HttperfTheorems (the
      theorems, and a system they are applied to).
    - lmbench/src: LmStats is lib_stats.c; LmTiming and LmTimingProofs the clock, the
      results and the calibration of lib_timing.c; LmHarness, LmHarnessProofs and
      LmHarnessTheorems the protocol between [benchmp] and the processes it forks.
    - lmbench/src/lib_mem.c: LmMem (the memory and the seven ways of threading it),
      LmMemWords and LmMemProofs (the words of a line, permutations, circular chains, what
      is built), LmMemRings and LmMemFull (which chains are one ring), LmMemTest (the
      test of cache lines), LmMemTheorems.
    - iperf: IperfReporter (Reporter.c: statistics, sums, what each type of report
      does with a packet), IperfRing and IperfRingProofs (the ring of packets between a
      traffic thread and the reporter thread), IperfStats, IperfLoss and IperfSums (what
      one thread reports, lost datagrams, several threads together), IperfSystem (the
      list of reports with all the threads as a step relation), IperfSystemProofs,
      IperfSystemInv and IperfSystemSweep (its invariant and when memory is freed),
      IperfExamples, IperfTheorems, IperfThreads.  DoubleSign has the sign of sums of
      doubles, for these and for NetHist.
    - netperf/src: NetMessage and NetMessageTheorems are the control
      messages of netlib.c, between machines of either byte order; NetHist,
      NetHistProofs, NetHistPercentile and NetHistTheorems the histogram of
      latencies and the ring of time stamps (hist.h, netlib.c, nettest_omni.c).

    ** How code is modelled

    A function of C is a definition of the same name.  State that the function changes
    is a record passed through; linked structures live in a heap (a finite map from
    addresses), so that aliasing, use after free and dangling pointers are visible.  An
    access outside an object, a signed overflow or a division by zero is [Undef];
    unsigned arithmetic wraps at the width of its type, and [unsigned long] and [size_t]
    have 64 bits.  Three places differ and say so: the signed counters of IperfReporter
    wrap, as the compiled program does; the element behind the array of fragments, which
    httperf reads after every request, is a parameter ([past_end], where [None] makes
    the read undefined), and so is the byte in front of the line buffer ([before]).
    [malloc] may fail where the result is looked at and the failure matters (TimerWheel,
    LmMem, MemtesterMain, Nsieve); the nodes of PostmarkLocations and the objects of
    httperf are given.  What is not in the repository is an argument of the definitions: the
    answers of system calls (an [env] over an abstract world in Postmark, a memory
    behind faulty hardware in Memtester), the clock readings (LmTiming), which process
    runs next and how many bytes a read delivers (LmHarness), which thread runs next
    (IperfSystem), how much a call of recv delivers and the bytes that double values
    have (NetMessage), what a callback does
    (TimerWheel), what the callee of an event does (HttpReply).  Where theorems need the
    callee to behave, the hypothesis is named and its witness gives an instance.

    A loop whose bound the code computes is a fixpoint on fuel that starts with that
    bound; that the fuel is enough is a theorem in each case ([NoFuel] is excluded by
    every theorem that says a function returns): the number of bytes left for the reply
    parser, the number of timers for a tick, 1024 probes for the table of addresses,
    the number of elements for the loops over arrays, the entries of the ring for
    iperf's reporter, the bytes of a message that are left for recv.  Two bounds of the client are
    parameters: the rounds of the event loop, which ends only when the servers let it,
    and the depth to which events call each other, for which the number of connections
    plus four is proved enough.

    ** The groups of theorems

    - Refinement of a specification: the reply parser and a byte-at-a-time automaton;
      the timing wheel and the list of pending timers, in the runs that keep the rules the
      specification sets; the port map and a set of ports, up to the 33rd port where
      SIZEOF_LONG is not defined; the address table and the list of entered addresses, up
      to the 1025th; the locations and a list of names, as long as names and weights fit;
      the generator and the recurrence of MT19937.  Where a bound is passed, the
      theorems say what the code does then.
      The ring of packets of iperf is a queue, its packets arrive once and in order; the
      ring of time stamps of netperf too.
    - Equivalence with a reference definition: the CRC by table and by polynomial
      division; the address test and injectivity of the address lines; any cutting of a
      reply into buffers; the wrapped and the exact variance.
    - Round trips: replies printed with a length or in chunks are read back; the outputs
      of the generator give back its state; the stop watch; requests, strings and doubles
      of netperf between machines of different byte order.
    - Safety whatever the environment answers: benchmark runs of postmark, sessions of
      its command line, the interleavings of the harness, tests of httperf, whose
      invariant ties the objects, their reference counts, the descriptors, the timers
      and the statistics together; the threads of iperf never use a report that has
      been freed, and every report is freed in the end.
    - Measurements: the seven ways of threading memory visit every place once in a lap;
      the intervals of iperf partition what was transferred, lost and reordered datagrams
      are counted, sums add up within a stated rounding error; a percentile of the
      histogram of netperf lies in the bucket of the latency of that rank.
    - Statistics: median, mean, least, greatest, variance, standard error and moments of
      lmbench are those of the values; the counters of httperf count their calls; the
      sieve counts the odd primes of its range.
    - Liveness and termination: every timer fires at its tick unless it is cancelled; a run of the harness can
      always be brought to its end; the loops over random indices and over memory sizes.
    - Errors of the code, proved on the code as it is: the division by zero with few
      transactions, the timers that are lost, the ports that are not found, the full
      table, the name of a location that is too long, the pages that malloc refused, the stale buffer after a failed lock, the count that BENCH_INNER saves.

    ** Not modelled

    The socket and file drivers (the threads of iperf that send and receive, the tests
    of netperf, netpipe, nuttcp, ttcp, bonnie, iozone, the tests of lmbench themselves)
    are sequences of system calls whose behaviour is the operating system's.  Of iperf,
    the printing of reports, the settings and the server's report to a UDP client are
    left out; of netperf, the confidence intervals, the measurement of CPU load and the
    options.  Whetstone's floating point results are not checked by the
    program.  Of httperf, SSL, the session generators (wsess, wsesslog, wsesspage,
    uri_wlog, uri_wset, their statistics), idleconn and the parsing of the options are left
    out, and so is everything that core.c does for them; timers are taken as a map
    there, with the wheel modelled on its own.  Printing is modelled only where it decides something (the values
    that Dhrystone compares, the events of the command line). *)
From Stdlib Require Export ZArith Lia Bool.
From stdpp Require Export base list gmap strings.

#[global] Open Scope Z_scope.

(** ** Outcomes of C code

    [Ret a]: the function returned [a].  [Exit c]: the process called
    [exit (c)].  [Undef]: the execution reached undefined behaviour (an
    access outside an object, a division by zero, a null dereference).
    [NoFuel]: the bound given to a loop of the model was too small. *)
Inductive cres (A : Type) : Type :=
| Ret (a : A)
| Exit (code : Z)
| Undef
| NoFuel.
Arguments Ret {A} a.
Arguments Exit {A} code.
Arguments Undef {A}.
Arguments NoFuel {A}.

#[export] Instance cres_ret : MRet cres := fun A a => Ret a.
#[export] Instance cres_bind : MBind cres := fun A B f m =>
  match m with
  | Ret a => f a
  | Exit c => Exit c
  | Undef => Undef
  | NoFuel => NoFuel
  end.

(** Reading an option as an access that is undefined when it fails. *)
Definition deref {A} (o : option A) : cres A :=
  match o with Some a => Ret a | None => Undef end.

Lemma bind_Ret {A B} (f : A -> cres B) (a : A) : (Ret a ≫= f) = f a.
Proof. reflexivity. Qed.

Lemma bind_Ret_inv {A B} (m : cres A) (f : A -> cres B) (b : B) :
  (m ≫= f) = Ret b -> exists a, m = Ret a /\ f a = Ret b.
Proof. destruct m; simpl; intros H; try discriminate. eauto. Qed.

Lemma bind_assoc_cres {A B C} (m : cres A) (f : A -> cres B) (g : B -> cres C) :
  ((m ≫= f) ≫= g) = (m ≫= (fun a => f a ≫= g)).
Proof. by destruct m. Qed.

Lemma bind_ext {A B} (m : cres A) (f g : A -> cres B) :
  (forall a, f a = g a) -> (m ≫= f) = (m ≫= g).
Proof. intros. destruct m; simpl; auto. Qed.

(** [r] reaches no undefined behaviour and does not exit; when it returns, what
    it returns satisfies [Q]. *)
Definition safe {A} (Q : A -> Prop) (r : cres A) : Prop :=
  match r with Ret a => Q a | NoFuel => True | Exit _ | Undef => False end.
(** [r] returns, and what it returns satisfies [Q]. *)
Definition returns {A} (Q : A -> Prop) (r : cres A) : Prop := exists a, r = Ret a /\ Q a.

Lemma safe_bind {A B} (Q : A -> Prop) (P : B -> Prop) (m : cres A) (f : A -> cres B) :
  safe Q m -> (forall a, Q a -> safe P (f a)) -> safe P (m ≫= f).
Proof. destruct m; cbn; auto. Qed.

Lemma safe_mono {A} (Q P : A -> Prop) (m : cres A) :
  safe Q m -> (forall a, Q a -> P a) -> safe P m.
Proof. destruct m; cbn; auto. Qed.

Lemma returns_bind {A B} (Q : A -> Prop) (P : B -> Prop) (m : cres A) (f : A -> cres B) :
  returns Q m -> (forall a, Q a -> returns P (f a)) -> returns P (m ≫= f).
Proof. intros (a & -> & Ha) H. rewrite bind_Ret. auto. Qed.

Lemma returns_Ret {A} (Q : A -> Prop) (a : A) : Q a -> returns Q (Ret a).
Proof. unfold returns. eauto. Qed.

Lemma returns_safe {A} (Q : A -> Prop) (m : cres A) : returns Q m -> safe Q m.
Proof. by intros (a & -> & Ha). Qed.

Lemma returns_mono {A} (Q P : A -> Prop) (m : cres A) :
  returns Q m -> (forall a, Q a -> P a) -> returns P m.
Proof. intros (a & -> & Ha) H. unfold returns. eauto. Qed.

#[export] Hint Resolve returns_Ret returns_safe : core.

(** ** Machine integers *)
Definition wrap_u (w z : Z) : Z := z mod 2 ^ w.
Definition wrap_s (w z : Z) : Z :=
  let m := z mod 2 ^ w in if m <? 2 ^ (w - 1) then m else m - 2 ^ w.

Abbreviation u8 := (wrap_u 8).
Abbreviation u32 := (wrap_u 32).
Abbreviation u64 := (wrap_u 64).
Abbreviation i32 := (wrap_s 32).
Abbreviation i64 := (wrap_s 64).

Definition INT_MAX : Z := 2147483647.
Definition INT_MIN : Z := -2147483648.

(** [z] fits an [int]. *)
Definition is_int (z : Z) : Prop := INT_MIN <= z <= INT_MAX.

Lemma wrap_u_range w z : 0 <= w -> 0 <= wrap_u w z < 2 ^ w.
Proof. intros. apply Z.mod_pos_bound. lia. Qed.

Lemma wrap_u_small w z : 0 <= z < 2 ^ w -> wrap_u w z = z.
Proof. intros. by apply Z.mod_small. Qed.

Lemma wrap_u_idem w z : wrap_u w (wrap_u w z) = wrap_u w z.
Proof. apply Z.mod_mod_divide, Z.divide_refl. Qed.

Lemma wrap_s_range w z : 0 < w -> - 2 ^ (w - 1) <= wrap_s w z < 2 ^ (w - 1).
Proof.
  intros Hw. unfold wrap_s.
  assert (E : 2 ^ w = 2 * 2 ^ (w - 1)).
  { rewrite <- Z.pow_succ_r by lia. f_equal. lia. }
  pose proof (Z.mod_pos_bound z (2 ^ w) ltac:(lia)).
  destruct (Z.ltb_spec (z mod 2 ^ w) (2 ^ (w - 1))); lia.
Qed.

Lemma i32_small z : is_int z -> i32 z = z.
Proof.
  unfold is_int, INT_MIN, INT_MAX, wrap_s. intros H. change (2 ^ 32) with 4294967296.
  change (2 ^ (32 - 1)) with 2147483648.
  destruct (Z.ltb_spec (z mod 4294967296) 2147483648) as [L | L];
    pose proof (Z.div_mod z 4294967296 ltac:(lia));
    pose proof (Z.mod_pos_bound z 4294967296 ltac:(lia)); lia.
Qed.

Lemma i32_is_int z : is_int (i32 z).
Proof.
  pose proof (wrap_s_range 32 z ltac:(lia)). unfold is_int, INT_MIN, INT_MAX.
  change (2 ^ (32 - 1)) with 2147483648 in *. lia.
Qed.

(** A signed result of [w] bits: overflow is undefined. *)
Definition sint (w z : Z) : cres Z := if (- 2 ^ (w - 1) <=? z) && (z <? 2 ^ (w - 1)) then Ret z else Undef.
Abbreviation int32 := (sint 32).
Abbreviation int64 := (sint 64).

Lemma sint_Ret w z : - 2 ^ (w - 1) <= z < 2 ^ (w - 1) -> sint w z = Ret z.
Proof. intros H. unfold sint. by rewrite (proj2 (Z.leb_le _ _)), (proj2 (Z.ltb_lt _ _)) by lia. Qed.
Lemma sint_inv w z v : sint w z = Ret v -> v = z /\ - 2 ^ (w - 1) <= z < 2 ^ (w - 1).
Proof.
  unfold sint. destruct (Z.leb_spec (- 2 ^ (w - 1)) z), (Z.ltb_spec z (2 ^ (w - 1))); intros E; try done.
  by injection E as <-.
Qed.
Lemma sint_Undef w z : 2 ^ (w - 1) <= z -> sint w z = Undef.
Proof. intros H. unfold sint. by rewrite (proj2 (Z.ltb_ge _ _)), andb_false_r by lia. Qed.

(** ** Bitwise reasoning *)
Lemma testbit_wrap_u w z i :
  0 <= w -> 0 <= i -> Z.testbit (wrap_u w z) i = (i <? w) && Z.testbit z i.
Proof.
  intros. unfold wrap_u. destruct (Z.ltb_spec i w).
  - by rewrite Z.mod_pow2_bits_low by lia.
  - by rewrite Z.mod_pow2_bits_high by lia.
Qed.

Lemma testbit_above w z i : 0 <= z < 2 ^ w -> w <= i -> Z.testbit z i = false.
Proof.
  intros Hz Hi. destruct (Z.eq_dec z 0) as [-> | ?]; [apply Z.bits_0 |].
  apply Z.bits_above_log2; [lia |].
  apply Z.lt_le_trans with w; [apply Z.log2_lt_pow2; lia | lia].
Qed.

Lemma bits_bound w z :
  0 <= w -> 0 <= z -> (forall i, w <= i -> Z.testbit z i = false) -> z < 2 ^ w.
Proof.
  intros Hw Hz H. destruct (Z_lt_le_dec z (2 ^ w)) as [|G]; [done |].
  assert (L : w <= Z.log2 z) by (by apply Z.log2_le_pow2; lia).
  specialize (H _ L). rewrite Z.bit_log2 in H by lia. done.
Qed.

Lemma lxor_range w a b :
  0 <= w -> 0 <= a < 2 ^ w -> 0 <= b < 2 ^ w -> 0 <= Z.lxor a b < 2 ^ w.
Proof.
  intros Hw Ha Hb. assert (0 <= Z.lxor a b) by (apply Z.lxor_nonneg; lia).
  split; [done |]. apply bits_bound; try done. intros i Hi.
  by rewrite Z.lxor_spec, !(testbit_above w) by lia.
Qed.

Lemma lor_range w a b :
  0 <= w -> 0 <= a < 2 ^ w -> 0 <= b < 2 ^ w -> 0 <= Z.lor a b < 2 ^ w.
Proof.
  intros Hw Ha Hb. assert (0 <= Z.lor a b) by (apply Z.lor_nonneg; lia).
  split; [done |]. apply bits_bound; try done. intros i Hi.
  by rewrite Z.lor_spec, !(testbit_above w) by lia.
Qed.

Lemma land_range w a b : 0 <= w -> 0 <= b < 2 ^ w -> 0 <= Z.land a b < 2 ^ w.
Proof.
  intros Hw Hb. assert (0 <= Z.land a b) by (apply Z.land_nonneg; lia).
  split; [done |]. apply bits_bound; try done. intros i Hi.
  rewrite Z.land_spec, (testbit_above w b) by lia. apply andb_false_r.
Qed.

Lemma shiftr_range w a n : 0 <= n -> 0 <= a < 2 ^ w -> 0 <= Z.shiftr a n < 2 ^ w.
Proof.
  intros Hn Ha. rewrite Z.shiftr_div_pow2 by lia.
  assert (0 < 2 ^ n) by lia. split; [apply Z.div_pos; lia |].
  apply Z.le_lt_trans with a; [apply Z.div_le_upper_bound; nia | lia].
Qed.

Lemma wrap_u_lxor w a b :
  0 <= w -> wrap_u w (Z.lxor a b) = Z.lxor (wrap_u w a) (wrap_u w b).
Proof.
  intros. apply Z.bits_inj'; intros i ?.
  rewrite Z.lxor_spec, !testbit_wrap_u, Z.lxor_spec by lia. by destruct (i <? w).
Qed.

Lemma land_ones_wrap w a : 0 <= w -> Z.land a (2 ^ w - 1) = wrap_u w a.
Proof. intros. unfold wrap_u. rewrite <- Z.land_ones, Z.ones_equiv by lia. f_equal; lia. Qed.

Lemma lxor_cancel_l a b c : Z.lxor a b = Z.lxor a c -> b = c.
Proof.
  intros E%(f_equal (Z.lxor a)). by rewrite <- !Z.lxor_assoc, Z.lxor_nilpotent, !Z.lxor_0_l in E.
Qed.

Create HintDb cint.
#[export] Hint Resolve lxor_range lor_range land_range shiftr_range wrap_u_range : cint.
#[export] Hint Extern 1 (0 <= _ < _) => lia : cint.
#[export] Hint Extern 1 (0 <= _) => lia : cint.

(** Decide an equation between bit expressions bit by bit. *)
Ltac bits_ext i :=
  apply Z.bits_inj'; intros i ?;
  repeat first
    [ rewrite Z.lxor_spec | rewrite Z.lor_spec | rewrite Z.land_spec
    | rewrite testbit_wrap_u by lia
    | rewrite Z.shiftr_spec by lia | rewrite Z.shiftl_spec by lia ].

(** [lia] with division and remainder by constants. *)
Ltac zdiv := Z.to_euclidean_division_equations; lia.

(** Turn boolean comparisons into propositions, case by case. *)
Ltac bcase :=
  repeat match goal with
  | |- context [ ?a <? ?b ] => destruct (Z.ltb_spec a b)
  | |- context [ ?a <=? ?b ] => destruct (Z.leb_spec a b)
  | |- context [ ?a =? ?b ] => destruct (Z.eqb_spec a b)
  end.

(** Compute the closed integer operations of the goal ([Z.add] and the like do
    not simplify by themselves). *)
Ltac is_pos p :=
  lazymatch p with xH => idtac | xO ?q => is_pos q | xI ?q => is_pos q end.
Ltac is_Zconst z :=
  lazymatch z with Z0 => idtac | Zpos ?p => is_pos p | Zneg ?p => is_pos p end.
Ltac zconst_binop op a b :=
  is_Zconst a; is_Zconst b;
  let v := eval vm_compute in (op a b) in change (op a b) with v.
Ltac zconst :=
  repeat match goal with
  | |- context [ Z.add ?a ?b ] => zconst_binop Z.add a b
  | |- context [ Z.sub ?a ?b ] => zconst_binop Z.sub a b
  | |- context [ Z.mul ?a ?b ] => zconst_binop Z.mul a b
  | |- context [ Z.to_nat ?a ] =>
      is_Zconst a; let v := eval vm_compute in (Z.to_nat a) in change (Z.to_nat a) with v
  end.

(** ** Counting loops: [for (i = lo; i < hi; i++) s = body (i, s)] *)
Section Loops.
Context {S : Type}.

Fixpoint loop_pure (n : nat) (i : Z) (body : Z -> S -> S) (s : S) : S :=
  match n with
  | O => s
  | Datatypes.S n' => loop_pure n' (i + 1) body (body i s)
  end.

Fixpoint loop_c (n : nat) (i : Z) (body : Z -> S -> cres S) (s : S) : cres S :=
  match n with
  | O => Ret s
  | Datatypes.S n' => body i s ≫= loop_c n' (i + 1) body
  end.

Definition for_pure (lo hi : Z) (body : Z -> S -> S) (s : S) : S :=
  loop_pure (Z.to_nat (hi - lo)) lo body s.
Definition for_c (lo hi : Z) (body : Z -> S -> cres S) (s : S) : cres S :=
  loop_c (Z.to_nat (hi - lo)) lo body s.

(** The invariant rule of the pure loop. *)
Lemma loop_pure_inv (P : Z -> S -> Prop) n i body s :
  P i s ->
  (forall k t, i <= k < i + Z.of_nat n -> P k t -> P (k + 1) (body k t)) ->
  P (i + Z.of_nat n) (loop_pure n i body s).
Proof.
  revert i s. induction n as [| n IH]; intros i s Hs Hb; simpl loop_pure.
  - by replace (i + Z.of_nat 0) with i by lia.
  - replace (i + Z.of_nat (Datatypes.S n)) with (i + 1 + Z.of_nat n) by lia.
    apply IH; [apply Hb; [lia | done] |]. intros k t Hk. apply Hb. lia.
Qed.

Lemma for_pure_inv (P : Z -> S -> Prop) lo hi body s :
  lo <= hi -> P lo s ->
  (forall k t, lo <= k < hi -> P k t -> P (k + 1) (body k t)) ->
  P hi (for_pure lo hi body s).
Proof.
  intros Hle Hs Hb. unfold for_pure.
  replace hi with (lo + Z.of_nat (Z.to_nat (hi - lo))) at 1 by lia.
  apply loop_pure_inv; [done |]. intros k t Hk. apply Hb. lia.
Qed.

(** The invariant rule of the loop that may fail: every round succeeds. *)
Lemma loop_c_inv (P : Z -> S -> Prop) n i body s :
  P i s ->
  (forall k t, i <= k < i + Z.of_nat n -> P k t ->
     exists t', body k t = Ret t' /\ P (k + 1) t') ->
  exists s', loop_c n i body s = Ret s' /\ P (i + Z.of_nat n) s'.
Proof.
  revert i s. induction n as [| n IH]; intros i s Hs Hb; simpl loop_c.
  - exists s. replace (i + Z.of_nat 0) with i by lia. done.
  - destruct (Hb i s ltac:(lia) Hs) as (t & -> & Ht). simpl.
    replace (i + Z.of_nat (Datatypes.S n)) with (i + 1 + Z.of_nat n) by lia.
    apply IH; [done |]. intros k u Hk. apply Hb. lia.
Qed.

Lemma for_c_inv (P : Z -> S -> Prop) lo hi body s :
  lo <= hi -> P lo s ->
  (forall k t, lo <= k < hi -> P k t ->
     exists t', body k t = Ret t' /\ P (k + 1) t') ->
  exists s', for_c lo hi body s = Ret s' /\ P hi s'.
Proof.
  intros Hle Hs Hb. unfold for_c.
  pose proof (loop_c_inv P (Z.to_nat (hi - lo)) lo body s Hs) as L.
  replace (lo + Z.of_nat (Z.to_nat (hi - lo))) with hi in L by lia.
  apply L. intros k t Hk. apply Hb. lia.
Qed.
End Loops.

(** ** Arrays indexed by [Z] *)
Definition aget {A} (l : list A) (i : Z) : option A :=
  if 0 <=? i then l !! Z.to_nat i else None.
Definition aset {A} (l : list A) (i : Z) (x : A) : option (list A) :=
  if (0 <=? i) && (i <? Z.of_nat (length l)) then Some (<[Z.to_nat i := x]> l) else None.

Lemma aget_Some {A} (l : list A) i :
  0 <= i < Z.of_nat (length l) -> exists x, aget l i = Some x.
Proof.
  intros H. unfold aget. destruct (Z.leb_spec 0 i); [| lia].
  destruct (lookup_lt_is_Some_2 l (Z.to_nat i)) as [x Hx]; [lia |]. eauto.
Qed.

Lemma aget_range {A} (l : list A) i x :
  aget l i = Some x -> 0 <= i < Z.of_nat (length l).
Proof.
  unfold aget. destruct (Z.leb_spec 0 i); [| done].
  intros L%lookup_lt_Some. lia.
Qed.

Lemma aset_Some {A} (l : list A) i x :
  0 <= i < Z.of_nat (length l) -> aset l i x = Some (<[Z.to_nat i := x]> l).
Proof.
  intros H. unfold aset. destruct (Z.leb_spec 0 i), (Z.ltb_spec i (Z.of_nat (length l)));
    simpl; (done || lia).
Qed.

Lemma aget_aset_eq {A} (l l' : list A) i x : aset l i x = Some l' -> aget l' i = Some x.
Proof.
  unfold aset, aget. destruct (Z.leb_spec 0 i), (Z.ltb_spec i (Z.of_nat (length l)));
    simpl; intros E; inversion E; subst. apply list_lookup_insert_eq. lia.
Qed.

Lemma aget_aset_ne {A} (l l' : list A) i j x :
  aset l i x = Some l' -> i <> j -> aget l' j = aget l j.
Proof.
  unfold aset, aget. destruct (Z.leb_spec 0 i), (Z.ltb_spec i (Z.of_nat (length l)));
    simpl; intros E Hne; inversion E; subst.
  destruct (Z.leb_spec 0 j); [| done]. apply list_lookup_insert_ne. lia.
Qed.

Lemma length_aset {A} (l l' : list A) i x : aset l i x = Some l' -> length l' = length l.
Proof.
  unfold aset. destruct (_ && _); intros E; inversion E; subst. apply length_insert.
Qed.

(** ** Strings as byte lists *)
Definition bytes_of_string (s : string) : list Z :=
  (fun a => Z.of_nat (Ascii.nat_of_ascii a)) <$> String.list_ascii_of_string s.
