(* ===== verification/Crc32.v ===== *)
(** * tiobench/crc32.c: the POSIX.2 table driven checksum

    [crctab] is the table of the source and [crc32] the loop over a buffer,
    with [unsigned long] as a 64-bit word: the shifts do not discard the bits
    above bit 31, so the running value carries garbage there.  The reference
    definition [crc_byte_ref] divides bit by bit by the generator polynomial. *)
From S2P Require Import Prelude.

Module Crc32.

Definition crctab : list Z := [
  0x0;
  0x04C11DB7; 0x09823B6E; 0x0D4326D9; 0x130476DC; 0x17C56B6B;
  0x1A864DB2; 0x1E475005; 0x2608EDB8; 0x22C9F00F; 0x2F8AD6D6;
  0x2B4BCB61; 0x350C9B64; 0x31CD86D3; 0x3C8EA00A; 0x384FBDBD;
  0x4C11DB70; 0x48D0C6C7; 0x4593E01E; 0x4152FDA9; 0x5F15ADAC;
  0x5BD4B01B; 0x569796C2; 0x52568B75; 0x6A1936C8; 0x6ED82B7F;
  0x639B0DA6; 0x675A1011; 0x791D4014; 0x7DDC5DA3; 0x709F7B7A;
  0x745E66CD; 0x9823B6E0; 0x9CE2AB57; 0x91A18D8E; 0x95609039;
  0x8B27C03C; 0x8FE6DD8B; 0x82A5FB52; 0x8664E6E5; 0xBE2B5B58;
  0xBAEA46EF; 0xB7A96036; 0xB3687D81; 0xAD2F2D84; 0xA9EE3033;
  0xA4AD16EA; 0xA06C0B5D; 0xD4326D90; 0xD0F37027; 0xDDB056FE;
  0xD9714B49; 0xC7361B4C; 0xC3F706FB; 0xCEB42022; 0xCA753D95;
  0xF23A8028; 0xF6FB9D9F; 0xFBB8BB46; 0xFF79A6F1; 0xE13EF6F4;
  0xE5FFEB43; 0xE8BCCD9A; 0xEC7DD02D; 0x34867077; 0x30476DC0;
  0x3D044B19; 0x39C556AE; 0x278206AB; 0x23431B1C; 0x2E003DC5;
  0x2AC12072; 0x128E9DCF; 0x164F8078; 0x1B0CA6A1; 0x1FCDBB16;
  0x018AEB13; 0x054BF6A4; 0x0808D07D; 0x0CC9CDCA; 0x7897AB07;
  0x7C56B6B0; 0x71159069; 0x75D48DDE; 0x6B93DDDB; 0x6F52C06C;
  0x6211E6B5; 0x66D0FB02; 0x5E9F46BF; 0x5A5E5B08; 0x571D7DD1;
  0x53DC6066; 0x4D9B3063; 0x495A2DD4; 0x44190B0D; 0x40D816BA;
  0xACA5C697; 0xA864DB20; 0xA527FDF9; 0xA1E6E04E; 0xBFA1B04B;
  0xBB60ADFC; 0xB6238B25; 0xB2E29692; 0x8AAD2B2F; 0x8E6C3698;
  0x832F1041; 0x87EE0DF6; 0x99A95DF3; 0x9D684044; 0x902B669D;
  0x94EA7B2A; 0xE0B41DE7; 0xE4750050; 0xE9362689; 0xEDF73B3E;
  0xF3B06B3B; 0xF771768C; 0xFA325055; 0xFEF34DE2; 0xC6BCF05F;
  0xC27DEDE8; 0xCF3ECB31; 0xCBFFD686; 0xD5B88683; 0xD1799B34;
  0xDC3ABDED; 0xD8FBA05A; 0x690CE0EE; 0x6DCDFD59; 0x608EDB80;
  0x644FC637; 0x7A089632; 0x7EC98B85; 0x738AAD5C; 0x774BB0EB;
  0x4F040D56; 0x4BC510E1; 0x46863638; 0x42472B8F; 0x5C007B8A;
  0x58C1663D; 0x558240E4; 0x51435D53; 0x251D3B9E; 0x21DC2629;
  0x2C9F00F0; 0x285E1D47; 0x36194D42; 0x32D850F5; 0x3F9B762C;
  0x3B5A6B9B; 0x0315D626; 0x07D4CB91; 0x0A97ED48; 0x0E56F0FF;
  0x1011A0FA; 0x14D0BD4D; 0x19939B94; 0x1D528623; 0xF12F560E;
  0xF5EE4BB9; 0xF8AD6D60; 0xFC6C70D7; 0xE22B20D2; 0xE6EA3D65;
  0xEBA91BBC; 0xEF68060B; 0xD727BBB6; 0xD3E6A601; 0xDEA580D8;
  0xDA649D6F; 0xC423CD6A; 0xC0E2D0DD; 0xCDA1F604; 0xC960EBB3;
  0xBD3E8D7E; 0xB9FF90C9; 0xB4BCB610; 0xB07DABA7; 0xAE3AFBA2;
  0xAAFBE615; 0xA7B8C0CC; 0xA379DD7B; 0x9B3660C6; 0x9FF77D71;
  0x92B45BA8; 0x9675461F; 0x8832161A; 0x8CF30BAD; 0x81B02D74;
  0x857130C3; 0x5D8A9099; 0x594B8D2E; 0x5408ABF7; 0x50C9B640;
  0x4E8EE645; 0x4A4FFBF2; 0x470CDD2B; 0x43CDC09C; 0x7B827D21;
  0x7F436096; 0x7200464F; 0x76C15BF8; 0x68860BFD; 0x6C47164A;
  0x61043093; 0x65C52D24; 0x119B4BE9; 0x155A565E; 0x18197087;
  0x1CD86D30; 0x029F3D35; 0x065E2082; 0x0B1D065B; 0x0FDC1BEC;
  0x3793A651; 0x3352BBE6; 0x3E119D3F; 0x3AD08088; 0x2497D08D;
  0x2056CD3A; 0x2D15EBE3; 0x29D4F654; 0xC5A92679; 0xC1683BCE;
  0xCC2B1D17; 0xC8EA00A0; 0xD6AD50A5; 0xD26C4D12; 0xDF2F6BCB;
  0xDBEE767C; 0xE3A1CBC1; 0xE760D676; 0xEA23F0AF; 0xEEE2ED18;
  0xF0A5BD1D; 0xF464A0AA; 0xF9278673; 0xFDE69BC4; 0x89B8FD09;
  0x8D79E0BE; 0x803AC667; 0x84FBDBD0; 0x9ABC8BD5; 0x9E7D9662;
  0x933EB0BB; 0x97FFAD0C; 0xAFB010B1; 0xAB710D06; 0xA6322BDF;
  0xA2F33668; 0xBCB4666D; 0xB8757BDA; 0xB5365D03; 0xB1F740B4
].

(** One round of the loop body: [crc] is a 64-bit [unsigned long]. *)
Definition crc32_step (crc b : Z) : cres Z :=
  t ← deref (aget crctab (Z.land (Z.lxor (Z.shiftr crc 24) b) 0xFF));
  Ret (Z.lxor (u64 (Z.shiftl crc 8)) t).

(** [while (length--) crc = ...]; reading past [buffer] is undefined. *)
Fixpoint crc32 (buffer : list Z) (length : nat) (crc : Z) : cres Z :=
  match length with
  | O => Ret crc
  | S length' =>
      match buffer with
      | [] => Undef
      | b :: cp => crc32_step crc b ≫= crc32 cp length'
      end
  end.

(** The reference: long division by 0x04C11DB7, one bit at a time. *)
Definition crc_bit (c : Z) : Z :=
  if Z.testbit c 31 then Z.lxor (u32 (Z.shiftl c 1)) 0x04C11DB7 else u32 (Z.shiftl c 1).
Definition crc_byte_ref (c b : Z) : Z :=
  Nat.iter 8 crc_bit (Z.lxor c (Z.shiftl b 24)).
Definition crc_ref (buffer : list Z) (c : Z) : Z := foldl crc_byte_ref c buffer.

Arguments crc32_step : simpl never.
Arguments crc_byte_ref : simpl never.

Definition is_byte (b : Z) : Prop := 0 <= b < 256.

(** ** Lemmas *)
Example crctab_length : length crctab = 256%nat.
Proof. reflexivity. Qed.

Lemma crc_bit_lxor a b : crc_bit (Z.lxor a b) = Z.lxor (crc_bit a) (crc_bit b).
Proof.
  unfold crc_bit. rewrite Z.shiftl_lxor, wrap_u_lxor, Z.lxor_spec by lia.
  set (x := u32 (Z.shiftl a 1)). set (y := u32 (Z.shiftl b 1)).
  set (p := 0x04C11DB7).
  destruct (Z.testbit a 31), (Z.testbit b 31); simpl xorb; cbn iota.
  - rewrite (Z.lxor_comm y p), Z.lxor_assoc, <- (Z.lxor_assoc p p y).
    by rewrite Z.lxor_nilpotent, Z.lxor_0_l.
  - by rewrite !Z.lxor_assoc, (Z.lxor_comm y p).
  - by rewrite Z.lxor_assoc.
  - done.
Qed.

Lemma iter_crc_bit_lxor n a b :
  Nat.iter n crc_bit (Z.lxor a b) = Z.lxor (Nat.iter n crc_bit a) (Nat.iter n crc_bit b).
Proof.
  induction n as [| n IH]; [done |].
  change (crc_bit (Nat.iter n crc_bit (Z.lxor a b)) =
    Z.lxor (crc_bit (Nat.iter n crc_bit a)) (crc_bit (Nat.iter n crc_bit b))).
  by rewrite IH, crc_bit_lxor.
Qed.

Lemma crc_bit_small x : 0 <= x < 2 ^ 31 -> crc_bit x = 2 * x.
Proof.
  intros. unfold crc_bit. rewrite (testbit_above 31) by lia.
  rewrite Z.shiftl_mul_pow2, wrap_u_small by lia. lia.
Qed.

Lemma iter_crc_bit_small x : 0 <= x < 2 ^ 24 -> Nat.iter 8 crc_bit x = Z.shiftl x 8.
Proof.
  intros. simpl Nat.iter. rewrite Z.shiftl_mul_pow2 by lia.
  repeat match goal with
  | |- context [crc_bit ?e] =>
      lazymatch e with
      | context [crc_bit _] => fail
      | _ => rewrite (crc_bit_small e) by lia
      end
  end. lia.
Qed.

(** The table holds the remainders of the 256 one-byte messages. *)
Definition table_entry_ok (k : nat) : bool :=
  match crctab !! k with
  | Some t => t =? Nat.iter 8 crc_bit (Z.shiftl (Z.of_nat k) 24)
  | None => false
  end.

Lemma crctab_entries : forallb table_entry_ok (seq 0 256) = true.
Proof. by vm_compute. Qed.

Lemma crctab_spec k :
  0 <= k < 256 -> aget crctab k = Some (Nat.iter 8 crc_bit (Z.shiftl k 24)).
Proof.
  intros Hk. pose proof crctab_entries as F. rewrite forallb_forall in F.
  specialize (F (Z.to_nat k)). unfold table_entry_ok in F.
  unfold aget. destruct (Z.leb_spec 0 k); [| lia].
  destruct (crctab !! Z.to_nat k) as [t |].
  - rewrite Z2Nat.id in F by lia. f_equal. apply Z.eqb_eq, F, in_seq. lia.
  - discriminate F. apply in_seq. lia.
Qed.

(** The low bytes of the table entries are pairwise different. *)
Lemma crctab_low_NoDup : NoDup ((fun t => Z.land t 255) <$> crctab).
Proof. by apply (bool_decide_unpack _); vm_compute. Qed.

Lemma crctab_low_inj i j t u :
  aget crctab i = Some t -> aget crctab j = Some u ->
  Z.land t 255 = Z.land u 255 -> i = j.
Proof.
  intros Hi Hj E. pose proof (aget_range _ _ _ Hi). pose proof (aget_range _ _ _ Hj).
  unfold aget in *. destruct (Z.leb_spec 0 i), (Z.leb_spec 0 j); try done.
  enough (Z.to_nat i = Z.to_nat j) by lia.
  eapply (NoDup_lookup _ _ _ (Z.land t 255)); [apply crctab_low_NoDup | |].
  - by rewrite list_lookup_fmap, Hi.
  - by rewrite list_lookup_fmap, Hj, E.
Qed.

Lemma split_top c b :
  0 <= c < 2 ^ 32 ->
  Z.lxor c (Z.shiftl b 24) =
  Z.lxor (Z.shiftl (Z.lxor (Z.shiftr c 24) b) 24) (Z.land c (2 ^ 24 - 1)).
Proof.
  intros. rewrite land_ones_wrap by lia. bits_ext i.
  destruct (Z.ltb_spec i 24).
  - rewrite !(Z.testbit_neg_r _ (i - 24)) by lia. by rewrite xorb_false_l, xorb_false_r.
  - rewrite Z.shiftr_spec by lia. replace (i - 24 + 24) with i by lia.
    by rewrite xorb_false_r.
Qed.

(** One byte of the reference is one table lookup. *)
Lemma crc_byte_ref_table c b :
  0 <= c < 2 ^ 32 -> is_byte b ->
  exists t, aget crctab (Z.lxor (Z.shiftr c 24) b) = Some t /\
    crc_byte_ref c b = Z.lxor t (Z.shiftl (Z.land c (2 ^ 24 - 1)) 8).
Proof.
  intros Hc Hb. unfold is_byte in Hb.
  assert (0 <= Z.shiftr c 24 < 2 ^ 8).
  { rewrite Z.shiftr_div_pow2 by lia. split; [apply Z.div_pos; lia |].
    apply Z.div_lt_upper_bound; lia. }
  rewrite crctab_spec by (apply (lxor_range 8); lia). eexists; split; [done |].
  unfold crc_byte_ref. rewrite split_top, iter_crc_bit_lxor by lia. f_equal.
  apply iter_crc_bit_small. rewrite land_ones_wrap by lia. by apply wrap_u_range.
Qed.

Lemma iter_crc_bit_range n x : 0 <= x < 2 ^ 32 -> 0 <= Nat.iter n crc_bit x < 2 ^ 32.
Proof.
  intros. induction n as [| n IH]; [done |].
  change (0 <= crc_bit (Nat.iter n crc_bit x) < 2 ^ 32).
  unfold crc_bit. destruct (Z.testbit _ _); auto with cint.
Qed.

Lemma crctab_range k t : aget crctab k = Some t -> 0 <= t < 2 ^ 32.
Proof.
  intros E. pose proof (aget_range _ _ _ E) as R.
  change (Z.of_nat (length crctab)) with 256 in R. rewrite crctab_spec in E by lia.
  injection E as <-. apply (iter_crc_bit_range 8). rewrite Z.shiftl_mul_pow2 by lia. lia.
Qed.

Lemma crc_byte_ref_range c b : 0 <= c < 2 ^ 32 -> is_byte b -> 0 <= crc_byte_ref c b < 2 ^ 32.
Proof.
  intros Hc Hb. unfold is_byte in Hb. apply iter_crc_bit_range.
  apply lxor_range; try lia. rewrite Z.shiftl_mul_pow2 by lia. lia.
Qed.

Lemma crc32_index crc b :
  is_byte b ->
  Z.land (Z.lxor (Z.shiftr crc 24) b) 0xFF = Z.lxor (Z.shiftr (u32 crc) 24) b.
Proof.
  intros Hb. unfold is_byte in Hb. change 0xFF with (2 ^ 8 - 1).
  rewrite land_ones_wrap by lia. bits_ext i.
  destruct (Z.ltb_spec i 8), (Z.ltb_spec (i + 24) 32); try lia.
  - done.
  - by rewrite (testbit_above 8 b).
Qed.

Lemma crc32_shift crc :
  u32 (u64 (Z.shiftl crc 8)) = Z.shiftl (Z.land (u32 crc) (2 ^ 24 - 1)) 8.
Proof.
  rewrite land_ones_wrap by lia. bits_ext i.
  destruct (Z.leb_spec 8 i).
  - rewrite !testbit_wrap_u by lia. destruct (Z.ltb_spec i 32), (Z.ltb_spec i 64),
      (Z.ltb_spec (i - 8) 24), (Z.ltb_spec (i - 8) 32); simpl; (done || lia).
  - rewrite !(Z.testbit_neg_r _ (i - 8)) by lia. by rewrite !andb_false_r.
Qed.

(** One round of the source computes one byte of the reference in the low
    32 bits, and stays inside the 64-bit word. *)
Lemma crc32_step_ref crc b :
  0 <= crc < 2 ^ 64 -> is_byte b ->
  exists r, crc32_step crc b = Ret r /\ 0 <= r < 2 ^ 64 /\ u32 r = crc_byte_ref (u32 crc) b.
Proof.
  intros Hc Hb. unfold crc32_step. rewrite crc32_index by done.
  destruct (crc_byte_ref_table (u32 crc) b) as (t & Et & ->); [by apply wrap_u_range | done |].
  pose proof (crctab_range _ _ Et) as Ht. rewrite Et. simpl.
  eexists; split; [done |]. split.
  - apply lxor_range; [lia | by apply wrap_u_range | lia].
  - rewrite wrap_u_lxor, crc32_shift, (wrap_u_small 32 t) by lia. apply Z.lxor_comm.
Qed.

Lemma crc_ref_inj_step c1 b1 c2 b2 :
  0 <= c1 < 2 ^ 32 -> 0 <= c2 < 2 ^ 32 -> is_byte b1 -> is_byte b2 ->
  crc_byte_ref c1 b1 = crc_byte_ref c2 b2 ->
  Z.lxor (Z.shiftr c1 24) b1 = Z.lxor (Z.shiftr c2 24) b2 /\
  Z.land c1 (2 ^ 24 - 1) = Z.land c2 (2 ^ 24 - 1).
Proof.
  intros H1 H2 B1 B2.
  destruct (crc_byte_ref_table c1 b1) as (t & Ht & ->); [done.. |].
  destruct (crc_byte_ref_table c2 b2) as (u & Hu & ->); [done.. |].
  intros E. assert (I : Z.lxor (Z.shiftr c1 24) b1 = Z.lxor (Z.shiftr c2 24) b2).
  { eapply crctab_low_inj; [done.. |].
    apply (f_equal (fun z => Z.land z (2 ^ 8 - 1))) in E. change 255 with (2 ^ 8 - 1).
    rewrite !land_ones_wrap, !wrap_u_lxor in E by lia.
    assert (Z0 : forall x, wrap_u 8 (Z.shiftl x 8) = 0).
    { intros x. unfold wrap_u. rewrite Z.shiftl_mul_pow2 by lia. apply Z_mod_mult. }
    rewrite !land_ones_wrap by lia. by rewrite !Z0, !Z.lxor_0_r in E. }
  split; [done |]. rewrite I in Ht. rewrite Hu in Ht. inversion Ht; subst.
  apply lxor_cancel_l in E. rewrite !Z.shiftl_mul_pow2 in E by lia. lia.
Qed.

(** ** Properties *)

(** C32: for a buffer of bytes the table driven loop with 64-bit words returns,
    and the low 32 bits of its result (the [const unsigned] the caller keeps)
    are the bit-serial checksum of the low 32 bits of the start value. *)
Theorem crc32_is_crc_ref buffer crc :
  Forall is_byte buffer -> 0 <= crc < 2 ^ 64 ->
  exists r, crc32 buffer (length buffer) crc = Ret r /\
    0 <= r < 2 ^ 64 /\ u32 r = crc_ref buffer (u32 crc).
Proof.
  intros Hb. revert crc. induction Hb as [| b buffer Hb _ IH]; intros crc Hc; cbn [crc32 length].
  - eauto.
  - destruct (crc32_step_ref crc b) as (r & -> & Hr & E); [done.. |]. rewrite bind_Ret.
    destruct (IH r Hr) as (r' & ? & ? & E'). exists r'. by rewrite E', E.
Qed.

Lemma crc32_is_crc_ref_witness :
  exists r, crc32 [0x31; 0x32; 0x33] 3 0 = Ret r /\ 0 <= r < 2 ^ 64 /\
    u32 r = crc_ref [0x31; 0x32; 0x33] 0.
Proof.
  apply (crc32_is_crc_ref [0x31; 0x32; 0x33] 0).
  - repeat constructor; vm_compute; intuition discriminate.
  - vm_compute; intuition discriminate.
Defined.

Lemma crc32_app b1 b2 crc :
  crc32 (b1 ++ b2) (length (b1 ++ b2)) crc =
  (crc32 b1 (length b1) crc ≫= crc32 b2 (length b2)).
Proof.
  revert crc. induction b1 as [| b b1 IH]; intros crc; cbn [app length crc32].
  - by rewrite bind_Ret.
  - rewrite bind_assoc_cres. apply bind_ext. exact IH.
Qed.

Lemma crc_ref_range buffer c :
  Forall is_byte buffer -> 0 <= c < 2 ^ 32 -> 0 <= crc_ref buffer c < 2 ^ 32.
Proof.
  intros Hb. revert c. induction Hb as [| b buffer Hb _ IH]; intros c Hc; [exact Hc |].
  apply IH. by apply crc_byte_ref_range.
Qed.

Lemma crc_ref_inj_state buffer c1 c2 :
  Forall is_byte buffer -> 0 <= c1 < 2 ^ 32 -> 0 <= c2 < 2 ^ 32 ->
  crc_ref buffer c1 = crc_ref buffer c2 -> c1 = c2.
Proof.
  intros Hb. revert c1 c2. induction Hb as [| b buffer Hb _ IH]; intros c1 c2 H1 H2 E; [exact E |].
  unfold crc_ref in E. cbn [foldl] in E. apply IH in E; [| by apply crc_byte_ref_range..].
  apply crc_ref_inj_step in E as [E1 E2]; [| done..].
  rewrite (Z.lxor_comm _ b), (Z.lxor_comm _ b) in E1. apply lxor_cancel_l in E1.
  rewrite !land_ones_wrap in E2 by lia. unfold wrap_u in E2.
  rewrite !Z.shiftr_div_pow2 in E1 by lia.
  rewrite (Z.div_mod c1 (2 ^ 24)), (Z.div_mod c2 (2 ^ 24)) by lia. by rewrite E1, E2.
Qed.

(** The consistency check of tiotest cannot be fooled by one corrupted
    byte: two blocks that differ in exactly one byte have different checksums. *)
Theorem crc32_detects_corrupt_byte pre b b' post r r' :
  Forall is_byte (pre ++ b :: post) -> is_byte b' -> b <> b' ->
  crc32 (pre ++ b :: post) (length (pre ++ b :: post)) 0 = Ret r ->
  crc32 (pre ++ b' :: post) (length (pre ++ b' :: post)) 0 = Ret r' ->
  u32 r <> u32 r'.
Proof.
  intros F Hb' Hne E E' Heq.
  apply Forall_app in F as [Fp F]. apply Forall_cons in F as [Hb Fq].
  destruct (crc32_is_crc_ref (pre ++ b :: post) 0) as (x & X & _ & Ex);
    [by apply Forall_app; auto | lia |].
  destruct (crc32_is_crc_ref (pre ++ b' :: post) 0) as (y & Y & _ & Ey);
    [by apply Forall_app; auto | lia |].
  rewrite E in X. rewrite E' in Y. inversion X; inversion Y; subst x y.
  rewrite Heq, Ey in Ex. unfold crc_ref in Ex. rewrite !foldl_app in Ex. cbn [foldl] in Ex.
  assert (Hp : 0 <= foldl crc_byte_ref (u32 0) pre < 2 ^ 32) by (by apply crc_ref_range).
  apply crc_ref_inj_state in Ex; [| done | by apply crc_byte_ref_range..].
  apply crc_ref_inj_step in Ex as [Ex _]; [| done..].
  apply lxor_cancel_l in Ex. congruence.
Qed.

Lemma crc32_detects_corrupt_byte_witness :
  exists r r', crc32 [1; 2; 3] 3 0 = Ret r /\ crc32 [1; 7; 3] 3 0 = Ret r' /\ u32 r <> u32 r'.
Proof.
  eexists _, _. split; [vm_compute; reflexivity |]. split; [vm_compute; reflexivity |].
  eapply (crc32_detects_corrupt_byte [1] 2 7 [3]).
  - repeat constructor; vm_compute; intuition discriminate.
  - vm_compute; intuition discriminate.
  - discriminate.
  - vm_compute; reflexivity.
  - vm_compute; reflexivity.
Defined.

End Crc32.
