(* ===== verification/Dhrystone.v ===== *)
(** * dhrystone/dhry_1.c and dhry_2.c: the Dhrystone 2.1 program

    The globals and the locals of [main] are one state record; a local that C
    leaves uninitialised is [None] and reading it is undefined.  Records live
    in a heap indexed by allocation order, so the aliasing of [Ptr_Glob] and
    [Next_Ptr_Glob] is explicit, and a reference parameter is an l-value of
    type [ptr_ref], [enum_ref] or [int_ref].  [int] arithmetic is checked:
    signed overflow is undefined.  The loops whose bound the code computes take
    fuel; the theorems show that it suffices. *)
From S2P Require Import Prelude.

Module Dhrystone.

(** ** Data *)
Inductive Enumeration := Ident_1 | Ident_2 | Ident_3 | Ident_4 | Ident_5.
#[export] Instance Enumeration_eq_dec : EqDecision Enumeration.
Proof. solve_decision. Defined.

(** The numbering C gives to the enumerators. *)
Definition enum_to_int (e : Enumeration) : Z :=
  match e with Ident_1 => 0 | Ident_2 => 1 | Ident_3 => 2 | Ident_4 => 3 | Ident_5 => 4 end.

Definition Rec_Pointer := option nat.

(** [struct record]; the program only uses the member [var_1] of the union. *)
Record Rec_Type := mkRec {
  Ptr_Comp : Rec_Pointer;
  Discr : Enumeration;
  Enum_Comp : Enumeration;
  Int_Comp : Z;
  Str_Comp : string
}.

Definition set_Ptr_Comp v r := mkRec v (Discr r) (Enum_Comp r) (Int_Comp r) (Str_Comp r).
Definition set_Discr v r := mkRec (Ptr_Comp r) v (Enum_Comp r) (Int_Comp r) (Str_Comp r).
Definition set_Enum_Comp v r := mkRec (Ptr_Comp r) (Discr r) v (Int_Comp r) (Str_Comp r).
Definition set_Int_Comp v r := mkRec (Ptr_Comp r) (Discr r) (Enum_Comp r) v (Str_Comp r).
Definition set_Str_Comp v r := mkRec (Ptr_Comp r) (Discr r) (Enum_Comp r) (Int_Comp r) v.

Record Globals := mkGlobals {
  Ptr_Glob : Rec_Pointer;
  Next_Ptr_Glob : Rec_Pointer;
  Int_Glob : Z;
  Bool_Glob : Z;
  Ch_1_Glob : Z;
  Ch_2_Glob : Z;
  Arr_1_Glob : list Z;
  Arr_2_Glob : list (list Z)
}.

(** The locals of [main] whose address is taken or that survive a run. *)
Record Locals := mkLocals {
  Int_1_Loc : option Z;
  Int_2_Loc : option Z;
  Int_3_Loc : option Z;
  Enum_Loc : option Enumeration;
  Str_1_Loc : string;
  Str_2_Loc : option string
}.

Record St := mkSt { glob : Globals; loc : Locals; heap : list Rec_Type }.

(** ** The state monad *)
Definition M (A : Type) : Type := St -> cres (A * St).
#[export] Instance M_ret : MRet M := fun A a s => Ret (a, s).
#[export] Instance M_bind : MBind M := fun A B f m s =>
  match m s with
  | Ret (a, s') => f a s'
  | Exit c => Exit c
  | Undef => Undef
  | NoFuel => NoFuel
  end.
Definition lift {A} (c : cres A) : M A := fun s => a ← c; Ret (a, s).
Definition gets {A} (f : St -> A) : M A := fun s => Ret (f s, s).
Definition modify (f : St -> St) : M unit := fun s => Ret (tt, f s).
Definition getg {A} (f : Globals -> A) : M A := gets (fun s => f (glob s)).
Definition getl {A} (f : Locals -> option A) : M A := fun s =>
  a ← deref (f (loc s)); Ret (a, s).
Definition modg (f : Globals -> Globals) : M unit :=
  modify (fun s => mkSt (f (glob s)) (loc s) (heap s)).
Definition modl (f : Locals -> Locals) : M unit :=
  modify (fun s => mkSt (glob s) (f (loc s)) (heap s)).

Definition set_Int_Glob v g := mkGlobals (Ptr_Glob g) (Next_Ptr_Glob g) v (Bool_Glob g)
  (Ch_1_Glob g) (Ch_2_Glob g) (Arr_1_Glob g) (Arr_2_Glob g).
Definition set_Bool_Glob v g := mkGlobals (Ptr_Glob g) (Next_Ptr_Glob g) (Int_Glob g) v
  (Ch_1_Glob g) (Ch_2_Glob g) (Arr_1_Glob g) (Arr_2_Glob g).
Definition set_Ch_1_Glob v g := mkGlobals (Ptr_Glob g) (Next_Ptr_Glob g) (Int_Glob g)
  (Bool_Glob g) v (Ch_2_Glob g) (Arr_1_Glob g) (Arr_2_Glob g).
Definition set_Ch_2_Glob v g := mkGlobals (Ptr_Glob g) (Next_Ptr_Glob g) (Int_Glob g)
  (Bool_Glob g) (Ch_1_Glob g) v (Arr_1_Glob g) (Arr_2_Glob g).
Definition set_Arr_1_Glob v g := mkGlobals (Ptr_Glob g) (Next_Ptr_Glob g) (Int_Glob g)
  (Bool_Glob g) (Ch_1_Glob g) (Ch_2_Glob g) v (Arr_2_Glob g).
Definition set_Arr_2_Glob v g := mkGlobals (Ptr_Glob g) (Next_Ptr_Glob g) (Int_Glob g)
  (Bool_Glob g) (Ch_1_Glob g) (Ch_2_Glob g) (Arr_1_Glob g) v.
Definition set_Int_1_Loc v l := mkLocals (Some v) (Int_2_Loc l) (Int_3_Loc l) (Enum_Loc l)
  (Str_1_Loc l) (Str_2_Loc l).
Definition set_Int_2_Loc v l := mkLocals (Int_1_Loc l) (Some v) (Int_3_Loc l) (Enum_Loc l)
  (Str_1_Loc l) (Str_2_Loc l).
Definition set_Int_3_Loc v l := mkLocals (Int_1_Loc l) (Int_2_Loc l) (Some v) (Enum_Loc l)
  (Str_1_Loc l) (Str_2_Loc l).
Definition set_Enum_Loc v l := mkLocals (Int_1_Loc l) (Int_2_Loc l) (Int_3_Loc l) (Some v)
  (Str_1_Loc l) (Str_2_Loc l).
Definition set_Str_2_Loc v l := mkLocals (Int_1_Loc l) (Int_2_Loc l) (Int_3_Loc l) (Enum_Loc l)
  (Str_1_Loc l) (Some v).

(** A signed [int] result; overflow is undefined. *)
Definition cint (z : Z) : cres Z :=
  if (INT_MIN <=? z) && (z <=? INT_MAX) then Ret z else Undef.
Definition intM (z : Z) : M Z := lift (cint z).

(** Loads and stores through pointers. *)
Definition load (p : Rec_Pointer) : M Rec_Type := fun s =>
  l ← deref p; r ← deref (heap s !! l); Ret (r, s).
Definition update (p : Rec_Pointer) (f : Rec_Type -> Rec_Type) : M unit := fun s =>
  l ← deref p; r ← deref (heap s !! l);
  Ret (tt, mkSt (glob s) (loc s) (<[l := f r]> (heap s))).

Inductive ptr_ref := RPtr_Comp (p : Rec_Pointer).
Inductive enum_ref := REnum_Loc | REnum_Comp (p : Rec_Pointer).
Inductive int_ref := RInt_1_Loc | RInt_3_Loc | RInt_Comp (p : Rec_Pointer).

Definition store_ptr (r : ptr_ref) (v : Rec_Pointer) : M unit :=
  match r with RPtr_Comp p => update p (set_Ptr_Comp v) end.
Definition store_enum (r : enum_ref) (v : Enumeration) : M unit :=
  match r with
  | REnum_Loc => modl (set_Enum_Loc v)
  | REnum_Comp p => update p (set_Enum_Comp v)
  end.
Definition store_int (r : int_ref) (v : Z) : M unit :=
  match r with
  | RInt_1_Loc => modl (set_Int_1_Loc v)
  | RInt_3_Loc => modl (set_Int_3_Loc v)
  | RInt_Comp p => update p (set_Int_Comp v)
  end.
Definition load_int (r : int_ref) : M Z :=
  match r with
  | RInt_1_Loc => getl Int_1_Loc
  | RInt_3_Loc => getl Int_3_Loc
  | RInt_Comp p => rec ← load p; mret (Int_Comp rec)
  end.

(** Two-dimensional array access. *)
Definition get2 (a : list (list Z)) (i j : Z) : option Z := row ← aget a i; aget row j.
Definition set2 (a : list (list Z)) (i j v : Z) : option (list (list Z)) :=
  row ← aget a i; row' ← aset row j v; aset a i row'.

(** Characters. *)
Definition char (a : Ascii.ascii) : Z := Z.of_nat (Ascii.nat_of_ascii a).
Definition cA : Z := 65.
Definition cB : Z := 66.
Definition cC : Z := 67.
Definition cR : Z := 82.
Definition cW : Z := 87.
Definition cZ : Z := 90.

(** [strcmp]: the difference of the first bytes that differ. *)
Fixpoint strcmp (s t : string) : Z :=
  match s, t with
  | EmptyString, EmptyString => 0
  | EmptyString, String b _ => - char b
  | String a _, EmptyString => char a
  | String a s', String b t' => if char a =? char b then strcmp s' t' else char a - char b
  end.

(** [s[i]] for a string in a [char[31]]; the terminator is readable. *)
Definition str_at (s : string) (i : Z) : M Z :=
  match String.get (Z.to_nat i) s with
  | Some a => mret (char a)
  | None => if i =? Z.of_nat (String.length s) then mret 0 else lift Undef
  end.

(** ** dhry_2.c *)
Definition Func_3 (Enum_Par_Val : Enumeration) : Z :=
  if decide (Enum_Par_Val = Ident_3) then 1 else 0.

Definition Func_1 (Ch_1_Par_Val Ch_2_Par_Val : Z) : M Enumeration :=
  let Ch_1_Loc := Ch_1_Par_Val in
  let Ch_2_Loc := Ch_1_Loc in
  if negb (Ch_2_Loc =? Ch_2_Par_Val) then mret Ident_1
  else modg (set_Ch_1_Glob Ch_1_Loc);; mret Ident_2.

(** The loop of [Func_2]: [Ch_Loc] is [None] until it is assigned. *)
Fixpoint Func_2_loop (fuel : nat) (s1 s2 : string) (Int_Loc : Z) (Ch_Loc : option Z)
    : M (Z * option Z) :=
  if negb (Int_Loc <=? 2) then mret (Int_Loc, Ch_Loc) else
  match fuel with
  | O => lift NoFuel
  | S fuel =>
      a ← str_at s1 Int_Loc;
      b ← str_at s2 (Int_Loc + 1);
      e ← Func_1 a b;
      if decide (e = Ident_1) then Func_2_loop fuel s1 s2 (Int_Loc + 1) (Some cA)
      else Func_2_loop fuel s1 s2 Int_Loc Ch_Loc
  end.

Definition Func_2 (Str_1_Par_Ref Str_2_Par_Ref : string) : M Z :=
  '(Int_Loc, Ch) ← Func_2_loop 8 Str_1_Par_Ref Str_2_Par_Ref 2 None;
  Ch_Loc ← lift (deref Ch);
  let Int_Loc := if (cW <=? Ch_Loc) && (Ch_Loc <? cZ) then 7 else Int_Loc in
  if Ch_Loc =? cR then mret 1
  else if 0 <? strcmp Str_1_Par_Ref Str_2_Par_Ref then
    (let Int_Loc := Int_Loc + 7 in modg (set_Int_Glob Int_Loc);; mret 1)
  else mret 0.

Definition Proc_6 (Enum_Val_Par : Enumeration) (Enum_Ref_Par : enum_ref) : M unit :=
  store_enum Enum_Ref_Par Enum_Val_Par;;
  (if Func_3 Enum_Val_Par =? 0 then store_enum Enum_Ref_Par Ident_4 else mret tt);;
  match Enum_Val_Par with
  | Ident_1 => store_enum Enum_Ref_Par Ident_1
  | Ident_2 =>
      i ← getg Int_Glob;
      if 100 <? i then store_enum Enum_Ref_Par Ident_1 else store_enum Enum_Ref_Par Ident_4
  | Ident_3 => store_enum Enum_Ref_Par Ident_2
  | Ident_4 => mret tt
  | Ident_5 => store_enum Enum_Ref_Par Ident_3
  end.

Definition Proc_7 (Int_1_Par_Val Int_2_Par_Val : Z) (Int_Par_Ref : int_ref) : M unit :=
  Int_Loc ← intM (Int_1_Par_Val + 2);
  v ← intM (Int_2_Par_Val + Int_Loc);
  store_int Int_Par_Ref v.

(** [Proc_8] is only called with the two global arrays. *)
Definition Proc_8 (Int_1_Par_Val Int_2_Par_Val : Z) : M unit :=
  Int_Loc ← intM (Int_1_Par_Val + 5);
  a1 ← getg Arr_1_Glob;
  a1 ← lift (deref (aset a1 Int_Loc Int_2_Par_Val));
  x ← lift (deref (aget a1 Int_Loc));
  a1 ← lift (deref (aset a1 (Int_Loc + 1) x));
  a1 ← lift (deref (aset a1 (Int_Loc + 30) Int_Loc));
  modg (set_Arr_1_Glob a1);;
  a2 ← getg Arr_2_Glob;
  a2 ← lift (for_c Int_Loc (Int_Loc + 2)
         (fun Int_Index a => deref (set2 a Int_Loc Int_Index Int_Loc)) a2);
  old ← lift (deref (get2 a2 Int_Loc (Int_Loc - 1)));
  new ← intM (old + 1);
  a2 ← lift (deref (set2 a2 Int_Loc (Int_Loc - 1) new));
  y ← lift (deref (aget a1 Int_Loc));
  a2 ← lift (deref (set2 a2 (Int_Loc + 20) Int_Loc y));
  modg (set_Arr_2_Glob a2);;
  modg (set_Int_Glob 5).

(** ** dhry_1.c *)
Definition Proc_5 : M unit := modg (set_Ch_1_Glob cA);; modg (set_Bool_Glob 0).

Definition Proc_4 : M unit :=
  c ← getg Ch_1_Glob;
  let Bool_Loc := if c =? cA then 1 else 0 in
  b ← getg Bool_Glob;
  modg (set_Bool_Glob (Z.lor Bool_Loc b));;
  modg (set_Ch_2_Glob cB).

Definition Proc_3 (Ptr_Ref_Par : ptr_ref) : M unit :=
  p ← getg Ptr_Glob;
  (match p with
   | Some _ => r ← load p; store_ptr Ptr_Ref_Par (Ptr_Comp r)
   | None => mret tt
   end);;
  i ← getg Int_Glob;
  p ← getg Ptr_Glob;
  Proc_7 10 i (RInt_Comp p).

(** The [do ... while (Enum_Loc != Ident_1)] loop; [e] is [Enum_Loc]. *)
Fixpoint Proc_2_loop (fuel : nat) (ref : int_ref) (Int_Loc : Z) (e : option Enumeration)
    : M unit :=
  match fuel with
  | O => lift NoFuel
  | S fuel =>
      c ← getg Ch_1_Glob;
      '(Int_Loc, e) ←
        (if c =? cA then
           Int_Loc ← intM (Int_Loc - 1);
           i ← getg Int_Glob;
           v ← intM (Int_Loc - i);
           store_int ref v;;
           mret (Int_Loc, Some Ident_1)
         else mret (Int_Loc, e));
      e' ← lift (deref e);
      if decide (e' = Ident_1) then mret tt else Proc_2_loop fuel ref Int_Loc e
  end.

Definition Proc_2 (Int_Par_Ref : int_ref) : M unit :=
  x ← load_int Int_Par_Ref;
  Int_Loc ← intM (x + 10);
  Proc_2_loop 8 Int_Par_Ref Int_Loc None.

Definition Proc_1 (Ptr_Val_Par : Rec_Pointer) : M unit :=
  r ← load Ptr_Val_Par;
  let Next_Record := Ptr_Comp r in
  g ← getg Ptr_Glob;
  rg ← load g;
  update Next_Record (fun _ => rg);;                      (* structassign *)
  update Ptr_Val_Par (set_Int_Comp 5);;
  r ← load Ptr_Val_Par;
  update Next_Record (set_Int_Comp (Int_Comp r));;
  r ← load Ptr_Val_Par;
  update Next_Record (set_Ptr_Comp (Ptr_Comp r));;
  Proc_3 (RPtr_Comp Next_Record);;
  n ← load Next_Record;
  if decide (Discr n = Ident_1) then
    update Next_Record (set_Int_Comp 6);;
    r ← load Ptr_Val_Par;
    Proc_6 (Enum_Comp r) (REnum_Comp Next_Record);;
    g ← getg Ptr_Glob;
    rg ← load g;
    update Next_Record (set_Ptr_Comp (Ptr_Comp rg));;
    n ← load Next_Record;
    Proc_7 (Int_Comp n) 10 (RInt_Comp Next_Record)
  else
    r ← load Ptr_Val_Par;
    c ← load (Ptr_Comp r);
    update Ptr_Val_Par (fun _ => c).

(** [while (Int_1_Loc < Int_2_Loc)] of [main]. *)
Fixpoint main_while (fuel : nat) : M unit :=
  i1 ← getl Int_1_Loc;
  i2 ← getl Int_2_Loc;
  if negb (i1 <? i2) then mret tt else
  match fuel with
  | O => lift NoFuel
  | S fuel =>
      m ← intM (5 * i1);
      i3 ← intM (m - i2);
      modl (set_Int_3_Loc i3);;
      Proc_7 i1 i2 RInt_3_Loc;;
      i1 ← getl Int_1_Loc;
      i1 ← intM (i1 + 1);
      modl (set_Int_1_Loc i1);;
      main_while fuel
  end.

(** [for (Ch_Index = 'A'; Ch_Index <= Ch_2_Glob; ++Ch_Index)] of [main]. *)
Fixpoint main_for (fuel : nat) (Ch_Index Run_Index : Z) : M unit :=
  c2 ← getg Ch_2_Glob;
  if negb (Ch_Index <=? c2) then mret tt else
  match fuel with
  | O => lift NoFuel
  | S fuel =>
      e ← getl Enum_Loc;
      f ← Func_1 Ch_Index cC;
      (if decide (e = f) then
         Proc_6 Ident_1 REnum_Loc;;
         modl (set_Str_2_Loc "DHRYSTONE PROGRAM, 3'RD STRING");;
         modl (set_Int_2_Loc Run_Index);;
         modg (set_Int_Glob Run_Index)
       else mret tt);;
      main_for fuel (wrap_s 8 (Ch_Index + 1)) Run_Index
  end.

(** The body of the measured loop: up to the call of [Proc_8], ... *)
Definition main_body_1 : M unit :=
  Proc_5;;
  Proc_4;;
  modl (set_Int_1_Loc 2);;
  modl (set_Int_2_Loc 3);;
  modl (set_Str_2_Loc "DHRYSTONE PROGRAM, 2'ND STRING");;
  modl (set_Enum_Loc Ident_2);;
  s1 ← gets (fun s => Str_1_Loc (loc s));
  s2 ← getl Str_2_Loc;
  f ← Func_2 s1 s2;
  modg (set_Bool_Glob (if f =? 0 then 1 else 0));;
  main_while 8.

(** ... after it, ... *)
Definition main_body_2 (Run_Index : Z) : M unit :=
  p ← getg Ptr_Glob;
  Proc_1 p;;
  main_for 256 cA Run_Index;;
  i2 ← getl Int_2_Loc;
  i1 ← getl Int_1_Loc;
  v ← intM (i2 * i1);
  modl (set_Int_2_Loc v);;
  i2 ← getl Int_2_Loc;
  i3 ← getl Int_3_Loc;
  v ← (if i3 =? 0 then lift Undef else intM (Z.quot i2 i3));
  modl (set_Int_1_Loc v);;
  i1 ← getl Int_1_Loc;
  d ← intM (i2 - i3);
  m ← intM (7 * d);
  v ← intM (m - i1);
  modl (set_Int_2_Loc v);;
  Proc_2 RInt_1_Loc.

(** ... and the whole body. *)
Definition main_body (Run_Index : Z) : M unit :=
  main_body_1;;
  i1 ← getl Int_1_Loc;
  i3 ← getl Int_3_Loc;
  Proc_8 i1 i3;;
  main_body_2 Run_Index.

(** [for (Run_Index = 1; Run_Index <= Number_Of_Runs; ++Run_Index)]. *)
Fixpoint main_runs (n : nat) (Run_Index : Z) : M unit :=
  match n with
  | O => mret tt
  | S n => main_body Run_Index;; main_runs n (Run_Index + 1)
  end.

(** The initialisations of [main]: two [malloc]ed records whose contents
    [g0] (behind [Next_Ptr_Glob]) and [g1] (behind [Ptr_Glob]) are arbitrary,
    and static storage that starts as zero. *)
Definition main_init (g0 g1 : Rec_Type) : St :=
  mkSt
    (mkGlobals (Some 1%nat) (Some 0%nat) 0 0 0 0 (replicate 50 0)
       (<[8%nat := <[7%nat := 10]> (replicate 50 0)]> (replicate 50 (replicate 50 0))))
    (mkLocals None None None None "DHRYSTONE PROGRAM, 1'ST STRING" None)
    [g0;
     set_Str_Comp "DHRYSTONE PROGRAM, SOME STRING" (set_Int_Comp 40
       (set_Enum_Comp Ident_3 (set_Discr Ident_1 (set_Ptr_Comp (Some 0%nat) g1))))].

Definition main (g0 g1 : Rec_Type) (Number_Of_Runs : Z) : cres St :=
  '(_, s) ← main_runs (Z.to_nat Number_Of_Runs) 1 (main_init g0 g1);
  Ret s.

(** The values [main] prints at the end, each with the one it says it
    "should be"; the printed pointers are implementation dependent. *)
Inductive printed := PInt (z : Z) | PStr (s : string) | PPtr (p : Rec_Pointer).

Definition main_report (Number_Of_Runs : Z) (s : St) : cres (list (printed * printed)) :=
  '(r, _) ← load (Ptr_Glob (glob s)) s;
  '(n, _) ← load (Next_Ptr_Glob (glob s)) s;
  a1 ← deref (aget (Arr_1_Glob (glob s)) 8);
  a2 ← deref (get2 (Arr_2_Glob (glob s)) 8 7);
  i1 ← deref (Int_1_Loc (loc s));
  i2 ← deref (Int_2_Loc (loc s));
  i3 ← deref (Int_3_Loc (loc s));
  e ← deref (Enum_Loc (loc s));
  s2 ← deref (Str_2_Loc (loc s));
  Ret [ (PInt (Int_Glob (glob s)), PInt 5);
        (PInt (Bool_Glob (glob s)), PInt 1);
        (PInt (Ch_1_Glob (glob s)), PInt cA);
        (PInt (Ch_2_Glob (glob s)), PInt cB);
        (PInt a1, PInt 7);
        (PInt a2, PInt (Number_Of_Runs + 10));
        (PPtr (Ptr_Comp r), PPtr (Ptr_Comp r));
        (PInt (enum_to_int (Discr r)), PInt 0);
        (PInt (enum_to_int (Enum_Comp r)), PInt 2);
        (PInt (Int_Comp r), PInt 17);
        (PStr (Str_Comp r), PStr "DHRYSTONE PROGRAM, SOME STRING");
        (PPtr (Ptr_Comp n), PPtr (Ptr_Comp r));             (* same as above *)
        (PInt (enum_to_int (Discr n)), PInt 0);
        (PInt (enum_to_int (Enum_Comp n)), PInt 1);
        (PInt (Int_Comp n), PInt 18);
        (PStr (Str_Comp n), PStr "DHRYSTONE PROGRAM, SOME STRING");
        (PInt i1, PInt 5);
        (PInt i2, PInt 13);
        (PInt i3, PInt 7);
        (PInt (enum_to_int e), PInt 1);
        (PStr (Str_1_Loc (loc s)), PStr "DHRYSTONE PROGRAM, 1'ST STRING");
        (PStr s2, PStr "DHRYSTONE PROGRAM, 2'ND STRING") ].

(** ** Lemmas *)
Definition garbage : Rec_Type := mkRec None Ident_5 Ident_5 99 "xx".
Example main_3 :
  (s ← main garbage garbage 3; main_report 3 s ≫= fun l => Ret (forallb (fun '(a, b) =>
     match a, b with PInt x, PInt y => x =? y | PStr x, PStr y => String.eqb x y
     | _, _ => true end) l)) = Ret true.
Proof. by vm_compute. Qed.

(** Arrays of the declared size. *)
Definition wf2 (a : list (list Z)) : Prop :=
  length a = 50%nat /\ Forall (fun r : list Z => length r = 50%nat) a.

Lemma wf2_row a i : wf2 a -> 0 <= i < 50 -> exists r, aget a i = Some r /\ length r = 50%nat.
Proof.
  intros [L F] Hi. destruct (aget_Some a i) as [r Hr]; [lia |]. exists r. split; [done |].
  unfold aget in Hr. destruct (Z.leb_spec 0 i); [| done].
  by eapply Forall_lookup_1 in F; [| exact Hr].
Qed.

Lemma set2_ok a i j v :
  wf2 a -> 0 <= i < 50 -> 0 <= j < 50 ->
  exists a', set2 a i j v = Some a' /\ wf2 a' /\ get2 a' i j = Some v /\
    forall i' j', i' <> i \/ j' <> j -> get2 a' i' j' = get2 a i' j'.
Proof.
  intros W Hi Hj. destruct (wf2_row a i W Hi) as (r & Hr & Lr). destruct W as [L F].
  assert (Ej : aset r j v = Some (<[Z.to_nat j := v]> r)) by (apply aset_Some; lia).
  assert (Ei : aset a i (<[Z.to_nat j := v]> r) = Some (<[Z.to_nat i := <[Z.to_nat j := v]> r]> a))
    by (apply aset_Some; lia).
  exists (<[Z.to_nat i := <[Z.to_nat j := v]> r]> a). unfold set2, get2. rewrite Hr. simpl.
  rewrite Ej. simpl. split; [exact Ei |].
  pose proof (aget_aset_eq _ _ _ _ Ei) as Gi. pose proof (aget_aset_eq _ _ _ _ Ej) as Gj.
  split; [split | split].
  - by rewrite length_insert.
  - apply Forall_insert; [done |]. by rewrite length_insert.
  - rewrite Gi. simpl. exact Gj.
  - intros i' j' Hne. destruct (Z.eq_dec i i') as [<- | N].
    + rewrite Gi, Hr. simpl. eapply aget_aset_ne; [exact Ej | lia].
    + by rewrite (aget_aset_ne _ _ _ i' _ Ei N).
Qed.

Lemma cint_ok z : is_int z -> cint z = Ret z.
Proof.
  intros [A B]. unfold cint.
  by rewrite (proj2 (Z.leb_le _ _) A), (proj2 (Z.leb_le _ _) B).
Qed.

Lemma cint_overflow z : INT_MAX < z -> cint z = Undef.
Proof.
  intros A. unfold cint. destruct (Z.leb_spec z INT_MAX); [lia |]. by rewrite andb_false_r.
Qed.

(** Run the monadic code of the goal up to the next symbolic step. *)
Ltac run :=
  repeat (zconst; change (cint 8) with (@Ret Z 8); cbn -[aset aget set2 get2 cint]).

(** [Proc_8] on arrays of the right size, up to the increment of
    [Arr_2_Par_Ref [8] [7]]. *)
Lemma Proc_8_steps s old :
  length (Arr_1_Glob (glob s)) = 50%nat -> wf2 (Arr_2_Glob (glob s)) ->
  get2 (Arr_2_Glob (glob s)) 8 7 = Some old ->
  exists a1 a2, length a1 = 50%nat /\ wf2 a2 /\ aget a1 8 = Some 7 /\
    (cint (old + 1) = Undef -> Proc_8 3 7 s = Undef) /\
    (cint (old + 1) = Ret (old + 1) ->
       get2 a2 8 7 = Some (old + 1) /\
       Proc_8 3 7 s = Ret (tt, mkSt (set_Int_Glob 5 (set_Arr_2_Glob a2
         (set_Arr_1_Glob a1 (glob s)))) (loc s) (heap s))).
Proof.
  destruct s as [[pg ng ig bg c1 c2 b1 b2] l h]; simpl. intros L1 W Hold.
  pose proof (aset_Some b1 8 7 ltac:(lia)) as E1. set (b1' := <[Z.to_nat 8 := 7]> b1) in *.
  pose proof (aget_aset_eq _ _ _ _ E1) as G1.
  assert (L1' : length b1' = 50%nat) by (unfold b1'; by rewrite length_insert).
  pose proof (aset_Some b1' 9 7 ltac:(lia)) as E2. set (b1'' := <[Z.to_nat 9 := 7]> b1') in *.
  assert (L1'' : length b1'' = 50%nat) by (unfold b1''; by rewrite length_insert).
  pose proof (aset_Some b1'' 38 8 ltac:(lia)) as E3. set (a1 := <[Z.to_nat 38 := 8]> b1'') in *.
  assert (La : length a1 = 50%nat) by (unfold a1; by rewrite length_insert).
  assert (Ga : aget a1 8 = Some 7).
  { rewrite (aget_aset_ne _ _ _ 8 _ E3), (aget_aset_ne _ _ _ 8 _ E2) by lia. done. }
  destruct (set2_ok b2 8 8 8 W) as (x1 & X1 & W1 & _ & N1); [lia.. |].
  destruct (set2_ok x1 8 9 8 W1) as (x2 & X2 & W2 & _ & N2); [lia.. |].
  destruct (set2_ok x2 8 7 (old + 1) W2) as (x3 & X3 & W3 & V3 & N3); [lia.. |].
  destruct (set2_ok x3 28 8 7 W3) as (x4 & X4 & W4 & _ & N4); [lia.. |].
  exists a1, x4. do 3 (split; [done |]).
  unfold Proc_8, intM, lift, getg, gets, modg, modify, for_c. unfold mbind, M_bind.
  run. rewrite E1. run. rewrite G1. run. rewrite E2. run. rewrite E3. run.
  rewrite X1. run. rewrite X2. run. rewrite N2, N1, Hold by lia. run. split.
  - intros ->. done.
  - intros ->. split; [rewrite N4 by lia; exact V3 |].
    run. rewrite X3. run. rewrite Ga. run. rewrite X4. done.
Qed.

(** The state in which a run starts and ends.  [k] runs are done. *)
Definition S1 : string := "DHRYSTONE PROGRAM, 1'ST STRING".
Definition S2 : string := "DHRYSTONE PROGRAM, 2'ND STRING".
Definition SS : string := "DHRYSTONE PROGRAM, SOME STRING".

Definition start_state ig bg c1 c2 a1 a2 i1 i2 i3 e s2 n x : St :=
  mkSt (mkGlobals (Some 1%nat) (Some 0%nat) ig bg c1 c2 a1 a2)
    (mkLocals i1 i2 i3 e S1 s2) [n; mkRec (Some 0%nat) Ident_1 Ident_3 x SS].

(** What a run has done when it reaches [Proc_8]: [Bool_Glob] is 1, the
    locals are 3, 3 and 7. *)
Definition mid_state ig a1 a2 n x : St :=
  mkSt (mkGlobals (Some 1%nat) (Some 0%nat) ig 1 cA cB a1 a2)
    (mkLocals (Some 3) (Some 3) (Some 7) (Some Ident_2) S1 (Some S2))
    [n; mkRec (Some 0%nat) Ident_1 Ident_3 x SS].

Definition end_state a1 a2 : St :=
  mkSt (mkGlobals (Some 1%nat) (Some 0%nat) 5 1 cA cB a1 a2)
    (mkLocals (Some 5) (Some 13) (Some 7) (Some Ident_2) S1 (Some S2))
    [mkRec (Some 0%nat) Ident_1 Ident_2 18 SS; mkRec (Some 0%nat) Ident_1 Ident_3 17 SS].

Lemma main_body_1_run ig bg c1 c2 a1 a2 i1 i2 i3 e s2 n x :
  main_body_1 (start_state ig bg c1 c2 a1 a2 i1 i2 i3 e s2 n x) =
    Ret (tt, mid_state ig a1 a2 n x).
Proof. vm_compute. reflexivity. Qed.

Lemma main_body_2_run i a1 a2 n x :
  main_body_2 i (mid_state 5 a1 a2 n x) = Ret (tt, end_state a1 a2).
Proof. vm_compute. reflexivity. Qed.

Lemma main_body_unfold i ig bg c1 c2 a1 a2 i1 i2 i3 e s2 n x :
  main_body i (start_state ig bg c1 c2 a1 a2 i1 i2 i3 e s2 n x) =
  match Proc_8 3 7 (mid_state ig a1 a2 n x) with
  | Ret (_, s') => main_body_2 i s' | Exit c => Exit c | Undef => Undef | NoFuel => NoFuel
  end.
Proof.
  unfold main_body, mbind, M_bind. rewrite main_body_1_run. reflexivity.
Qed.

(** The invariant of the measured loop. *)
Definition Start (k : Z) (s : St) : Prop :=
  exists ig bg c1 c2 a1 a2 i1 i2 i3 e s2 n x,
    s = start_state ig bg c1 c2 a1 a2 i1 i2 i3 e s2 n x /\
    length a1 = 50%nat /\ wf2 a2 /\ get2 a2 8 7 = Some (10 + k).
Definition Done (k : Z) (s : St) : Prop :=
  exists a1 a2, s = end_state a1 a2 /\
    length a1 = 50%nat /\ wf2 a2 /\ aget a1 8 = Some 7 /\ get2 a2 8 7 = Some (10 + k).

Lemma Done_Start k s : Done k s -> Start k s.
Proof.
  intros (a1 & a2 & -> & L & W & _ & G). unfold Start.
  exists 5, 1, cA, cB, a1, a2. do 7 eexists. repeat split; try done; apply W.
Qed.

Lemma main_body_step i k s :
  Start k s ->
  (is_int (10 + k + 1) -> exists s', main_body i s = Ret (tt, s') /\ Done (k + 1) s') /\
  (INT_MAX < 10 + k + 1 -> main_body i s = Undef).
Proof.
  intros (ig & bg & c1 & c2 & a1 & a2 & i1 & i2 & i3 & e & s2 & n & x & -> & L & W & G).
  destruct (Proc_8_steps (mid_state ig a1 a2 n x) (10 + k) L W G)
    as (b1 & b2 & L1 & W2 & G1 & HU & HR).
  split; intros H.
  - destruct HR as [G2 E]; [by apply cint_ok |]. exists (end_state b1 b2). split.
    + rewrite main_body_unfold, E. apply main_body_2_run.
    + exists b1, b2. repeat split; try done; try apply W2. by rewrite Z.add_assoc.
  - rewrite main_body_unfold, HU; [done |]. apply cint_overflow. lia.
Qed.

Lemma main_runs_S n i s :
  main_runs (S n) i s = match main_body i s with
    | Ret (_, s') => main_runs n (i + 1) s' | Exit c => Exit c
    | Undef => Undef | NoFuel => NoFuel end.
Proof. reflexivity. Qed.

Lemma main_runs_ok n i k s :
  0 <= k -> Start k s -> is_int (10 + k + Z.of_nat n) -> (0 < n)%nat ->
  exists s', main_runs n i s = Ret (tt, s') /\ Done (k + Z.of_nat n) s'.
Proof.
  revert i k s. induction n as [| n IH]; intros i k s Hk Hs Hn Hpos; [lia |].
  unfold is_int in Hn. rewrite main_runs_S.
  destruct (proj1 (main_body_step i k s Hs)) as (s1 & -> & D); [unfold is_int, INT_MIN in *; lia |].
  destruct n as [| n].
  - exists s1. split; [done |]. replace (k + Z.of_nat 1) with (k + 1) by lia. done.
  - destruct (IH (i + 1) (k + 1) s1) as (s2 & E2 & D2);
      [lia | by apply Done_Start | unfold is_int, INT_MIN in *; lia | lia |].
    exists s2. split; [exact E2 |].
    replace (k + Z.of_nat (S (S n))) with (k + 1 + Z.of_nat (S n)) by lia. done.
Qed.

Lemma main_runs_overflow n i k s :
  0 <= k -> Start k s -> 10 + k <= INT_MAX -> INT_MAX < 10 + k + Z.of_nat n ->
  main_runs n i s = Undef.
Proof.
  revert i k s. induction n as [| n IH]; intros i k s Hk Hs Hle Hn; [lia |].
  rewrite main_runs_S. destruct (main_body_step i k s Hs) as [Hok Hbad].
  destruct (Z_le_gt_dec (10 + k + 1) INT_MAX) as [Le | Gt].
  - destruct Hok as (s1 & -> & D); [unfold is_int, INT_MIN in *; lia |].
    apply (IH _ (k + 1)); [lia | by apply Done_Start | lia | lia].
  - rewrite Hbad by lia. done.
Qed.

Lemma Start_init g0 g1 : Start 0 (main_init g0 g1).
Proof.
  do 13 eexists. split; [reflexivity |]. split; [reflexivity |]. split; [| reflexivity].
  split; [reflexivity |]. apply (bool_decide_unpack _). by vm_compute.
Qed.

(** ** Properties *)
Definition as_it_should_be (l : list (printed * printed)) : Prop :=
  Forall (fun '(value, should_be) => value = should_be) l.

(** C33: for every number of runs that does not overflow [Arr_2_Glob [8] [7]],
    and whatever the two [malloc]ed records contained, the program terminates
    and every value it prints is the one it says it should be. *)
Theorem main_prints_expected_values g0 g1 Number_Of_Runs :
  1 <= Number_Of_Runs -> Number_Of_Runs + 10 <= INT_MAX ->
  exists s l, main g0 g1 Number_Of_Runs = Ret s /\
    main_report Number_Of_Runs s = Ret l /\ length l = 22%nat /\ as_it_should_be l.
Proof.
  intros H1 H2. unfold main.
  destruct (main_runs_ok (Z.to_nat Number_Of_Runs) 1 0 (main_init g0 g1))
    as (s & E & a1 & a2 & -> & L & W & G1 & G2);
    [lia | apply Start_init | unfold is_int, INT_MIN; lia | lia |].
  rewrite E. eexists _, _. split; [reflexivity |].
  unfold main_report. cbn -[aget get2]. rewrite G1. cbn -[get2]. rewrite G2. cbn.
  split; [reflexivity |]. split; [reflexivity |].
  repeat (apply Forall_cons; split; [try reflexivity |]); [| apply Forall_nil].
  all: f_equal; lia.
Qed.

Lemma main_prints_expected_values_witness :
  exists s l, main garbage garbage 2 = Ret s /\
    main_report 2 s = Ret l /\ length l = 22%nat /\ as_it_should_be l.
Proof. apply main_prints_expected_values; vm_compute; discriminate. Defined.

(** One run more than that overflows the [int] [Arr_2_Glob [8] [7]]: the
    warning of the source about large [Number_Of_Runs] is exact. *)
Theorem main_overflows g0 g1 Number_Of_Runs :
  INT_MAX < Number_Of_Runs + 10 -> main g0 g1 Number_Of_Runs = Undef.
Proof.
  intros H. unfold main.
  rewrite (main_runs_overflow _ _ 0); try apply Start_init; unfold INT_MAX in *; try lia.
  done.
Qed.

Lemma main_overflows_witness : main garbage garbage 2147483647 = Undef.
Proof. apply (main_overflows garbage garbage 2147483647). reflexivity. Defined.

End Dhrystone.
