(* ===== verification/Nsieve.v ===== *)
(** * nsieve/nsieve.c: the sieve of Eratosthenes benchmark

    [SIEVE] and the part of [main] that drives it and checks its results.
    The [malloc]ed byte array is a finite map: a write outside [0, m) and a
    read of a byte that was never written are undefined.  The time
    measurements ([dtime], [runtime], [emips], the MIPS statistics) are
    floating point output that no decision depends on, except the test
    [runtime > 0.125] of [main], which is the parameter [slow].  A [long] has 64
    bits; one that overflows is undefined. *)
From Stdlib Require Import Znumtheory.
From S2P Require Import Prelude.

Module Nsieve.

(** ** The program *)
Definition poke (m k v : Z) (flags : gmap Z Z) : cres (gmap Z Z) :=
  if (0 <=? k) && (k <? m) then Ret (<[k := v]> flags) else Undef.

(** [for (k = i + prime; k <= size; k += prime) { ci++; flags[k] = FALSE; }] *)
Fixpoint strike (fuel : nat) (size prime k ci : Z) (flags : gmap Z Z) : cres (Z * gmap Z Z) :=
  if negb (k <=? size) then Ret (ci, flags) else
  match fuel with
  | O => NoFuel
  | S fuel =>
      ci ← int64 (ci + 1);
      flags ← poke (size + 1) k 0 flags;
      k ← int64 (k + prime);
      strike fuel size prime k ci flags
  end.

(** The locals of [SIEVE] that the loops carry. *)
Record sieve_st := mkSieve { flags : gmap Z Z; count : Z; prime_ : Z; ci : Z }.

(** The body of [for (i = 0; i <= size; i++)]. *)
Definition sieve_body (size i : Z) (s : sieve_st) : cres sieve_st :=
  f ← deref (flags s !! i);
  if f =? 0 then Ret s else
  count ← int64 (count s + 1);
  two ← int64 (i + i);
  prime ← int64 (two + 3);
  k ← int64 (i + prime);
  '(c, fl) ← strike (Z.to_nat (size / prime + 1)) size prime k (ci s) (flags s);
  Ret (mkSieve fl count prime c).

Definition sieve_init (size : Z) (fl : gmap Z Z) : cres (gmap Z Z) :=
  for_c 0 (size + 1) (fun i => poke (size + 1) i 1) fl.

(** One round of [for (iter = 1; iter <= n; iter++)]; [j] sums the counts. *)
Definition sieve_iter (size : Z) (s : sieve_st * Z) : cres (sieve_st * Z) :=
  fl ← sieve_init size (flags s.1);
  s' ← for_c 0 (size + 1) (sieve_body size) (mkSieve fl 0 (prime_ s.1) 0);
  j ← int64 (s.2 + count s');
  Ret (s', j).

Record result := mkResult { ErrorFlag : Z; N_Prime : Z; L_Prime : Z }.

(** [SIEVE (m, n, p)]; [alloc] tells whether [malloc (m)] succeeds.  The loops count
    their variables to [size + 1] and [n + 1]. *)
Definition SIEVE (alloc : bool) (m n : Z) : cres result :=
  size ← int64 (m - 1);
  if negb alloc then Ret (mkResult 2 0 0) else
  _ ← int64 (size + 1);
  _ ← int64 (n + 1);
  '(s, j) ← for_c 1 (n + 1) (fun _ => sieve_iter size) (mkSieve ∅ 0 0 0, 0);
  if n =? 0 then Undef else Ret (mkResult 0 (Z.quot j n) (prime_ s)).

Definition Number_Of_Primes : list Z :=
  [1899; 2261; 4202; 7836; 14683; 27607; 52073; 98609; 187133; 356243; 679460;
   1299068; 2488465; 4774994; 0; 0; 0; 0; 0; 0; 0].

Definition NLoops (p : Z) : list Z :=
  [256 * p; 256 * p; 128 * p; 64 * p; 32 * p; 16 * p; 8 * p; 4 * p; 2 * p; p;
   if p =? 1 then 1 else Z.quot p 2; if p =? 1 then 1 else Z.quot p 4;
   1; 1; 1; 1; 1; 1; 1; 1; 1].

(** The loop [for (i = 1; i <= LIMIT; i++)] of [main]: the [ErrorFlag] it
    leaves.  [alloc m] tells whether [malloc (m)] succeeds. *)
Fixpoint main_loop (fuel : nat) (alloc : Z -> bool) (nloops : list Z) (i j : Z) : cres Z :=
  match fuel with
  | O => Ret 0
  | S fuel =>
      j ← int64 (2 * j);
      k ← deref (aget nloops i);
      r ← SIEVE (alloc j) j k;
      np ← deref (aget Number_Of_Primes i);
      let ErrorFlag :=
        if ErrorFlag r =? 0 then (if N_Prime r =? np then 0 else 1) else ErrorFlag r in
      if 0 <? ErrorFlag then Ret ErrorFlag else main_loop fuel alloc nloops (i + 1) j
  end.

Definition main (alloc : Z -> bool) (slow : bool) (LIMIT : nat) : cres Z :=
  _ ← SIEVE (alloc 8191) 8191 256;
  let p := if slow then 1 else 8 in
  let nloops := NLoops p in
  k ← deref (aget nloops 0);
  _ ← SIEVE (alloc 8191) 8191 k;
  main_loop LIMIT alloc nloops 1 5000.

(** ** The specification *)
#[export] Instance prime_decision (z : Z) : Decision (Z.prime z).
Proof.
  destruct (prime_dec z) as [P | P]; [left | right]; by rewrite prime_alt.
Defined.
#[export] Instance divide_decision (a b : Z) : Decision (a | b).
Proof.
  destruct (Z.eq_dec a 0) as [-> | N].
  - destruct (Z.eq_dec b 0) as [-> |]; [left; apply Z.divide_refl | right].
    by intros D%Z.divide_0_l.
  - destruct (Z.eq_dec (b mod a) 0); [left | right]; by rewrite <- Z.mod_divide.
Defined.

(** The indices of a flag array whose number is prime. *)
Definition prime_indices (size : Z) : list Z :=
  filter (fun i => Z.prime (2 * i + 3)) (seqZ 0 (size + 1)).
Definition last_prime (size : Z) : Z :=
  match last (prime_indices size) with Some i => 2 * i + 3 | None => 0 end.

(** ** Lemmas *)
Example SIEVE_100 : SIEVE true 100 3 = Ret (mkResult 0 45 199).
Proof. by vm_compute. Qed.

Lemma not_prime_factor n : 1 < n -> ~ Z.prime n -> exists d, 1 < d < n /\ (d | n).
Proof. intros Hn NP. apply not_prime_divide; [done |]. by rewrite <- prime_alt. Qed.

Lemma prime_divisor_of n : 1 < n -> exists q, Z.prime q /\ (q | n).
Proof.
  intros Hn. assert (Hn0 : 0 <= n) by lia. revert Hn.
  pattern n. apply Zlt_0_ind; [| exact Hn0]. clear n Hn0. intros n IH _ Hn.
  destruct (decide (Z.prime n)) as [P | NP]; [exists n; split; [done | apply Z.divide_refl] |].
  destruct (not_prime_factor n Hn NP) as (q & Hq & D).
  destruct (IH q) as (r & R & Dr); [lia.. |].
  exists r. split; [done |]. by apply Z.divide_trans with q.
Qed.

(** An odd number above 2 is prime when no smaller odd prime divides it. *)
Lemma odd_prime_iff i :
  0 <= i -> Z.prime (2 * i + 3) <->
  forall i', 0 <= i' < i -> Z.prime (2 * i' + 3) -> ~ (2 * i' + 3 | 2 * i + 3).
Proof.
  intros Hi. split.
  - intros P i' Hi' P' D. destruct P as [_ P], P' as [P' _]. by apply (P (2 * i' + 3)); [lia |].
  - intros H. destruct (decide (Z.prime (2 * i + 3))) as [| NP]; [done | exfalso].
    destruct (not_prime_factor (2 * i + 3) ltac:(lia) NP) as (d & Hd & D).
    destruct (prime_divisor_of d ltac:(lia)) as (q & Q & Dq).
    assert (Dn : (q | 2 * i + 3)) by (by apply Z.divide_trans with d).
    pose proof (Z.divide_pos_le q d ltac:(lia) Dq). pose proof (Z.prime_ge_2 _ Q).
    assert (Odd : exists t, q = 2 * t + 3).
    { destruct (Z.Even_or_Odd q) as [[t ->] | [t ->]].
      - destruct Dn as [x Hx]. lia.
      - exists (t - 1). lia. }
    destruct Odd as [t ->]. by apply (H t); [lia | ..].
Qed.

Lemma long_Ret z : - 2 ^ 63 <= z < 2 ^ 63 -> int64 z = Ret z.
Proof. apply (sint_Ret 64). Qed.

Lemma strike_spec fuel size p k c fl :
  0 < p -> 0 <= k -> size - k < p * Z.of_nat fuel -> size + p < 2 ^ 63 -> 0 <= c -> c + Z.of_nat fuel < 2 ^ 63 ->
  exists c' fl', strike fuel size p k c fl = Ret (c', fl') /\ c <= c' <= c + Z.of_nat fuel /\
    forall j, fl' !! j =
      if decide (k <= j <= size /\ (p | j - k)) then Some 0 else fl !! j.
Proof.
  revert k c fl. induction fuel as [| fuel IH]; intros k c fl Hp Hk Hf Hs Hc Hcf; simpl.
  - destruct (Z.leb_spec k size); [lia |]. simpl. exists c, fl. split; [done |]. split; [lia |].
    intros j. rewrite decide_False; [done | lia].
  - destruct (Z.leb_spec k size) as [Le | Gt]; simpl.
    + rewrite Nat2Z.inj_succ in Hcf, Hf. rewrite Z.mul_succ_r in Hf.
      rewrite (long_Ret (c + 1)), bind_Ret by lia. unfold poke. destruct (Z.leb_spec 0 k), (Z.ltb_spec k (size + 1)); try lia.
      cbn [andb]. cbv iota. rewrite bind_Ret, (long_Ret (k + p)), bind_Ret by lia.
      destruct (IH (k + p) (c + 1) (<[k := 0]> fl)) as (c' & fl' & -> & Hc' & Hfl); [lia.. |].
      exists c', fl'. split; [done |]. split; [lia |]. intros j. rewrite Hfl.
      destruct (Z.eq_dec j k) as [-> | Ne].
      * rewrite decide_False by lia. rewrite lookup_insert_eq, decide_True; [done |].
        split; [lia |]. exists 0. lia.
      * rewrite lookup_insert_ne by done. apply decide_ext. split.
        -- intros [? [t Ht]]. split; [lia |]. exists (t + 1). lia.
        -- intros [? [t Ht]]. assert (t <> 0) by lia. assert (0 < t) by nia.
           split; [nia |]. exists (t - 1). lia.
    + exists c, fl. split; [done |]. split; [lia |]. intros j. rewrite decide_False; [done | lia].
Qed.

(** [i] is struck when a smaller sieving prime divides its number. *)
Definition struck (upto j : Z) : Prop :=
  exists i', 0 <= i' < upto /\ i' < j /\ Z.prime (2 * i' + 3) /\ (2 * i' + 3 | 2 * j + 3).

(** The invariant of the outer loop before round [i]. *)
Record sieve_inv (size i : Z) (s : sieve_st) (p0 : Z) : Prop := {
  inv_flags : forall j, 0 <= j <= size ->
    exists f, flags s !! j = Some f /\ (f = 0 <-> struck i j) /\ (f = 0 \/ f = 1);
  inv_count : count s =
    Z.of_nat (length (filter (fun i => Z.prime (2 * i + 3)) (seqZ 0 i)));
  inv_last : prime_ s =
    match last (filter (fun i => Z.prime (2 * i + 3)) (seqZ 0 i)) with
    | Some i => 2 * i + 3 | None => p0 end;
  inv_ci : 0 <= ci s <= i * (size + 1)
}.

Lemma seqZ_snoc i : 0 <= i -> seqZ 0 (i + 1) = seqZ 0 i ++ [i].
Proof. intros. by rewrite seqZ_app by lia. Qed.

(** Not struck when its turn comes means prime. *)
Lemma not_struck_prime i : 0 <= i -> ~ struck i i <-> Z.prime (2 * i + 3).
Proof.
  intros Hi. rewrite odd_prime_iff by done. unfold struck. split.
  - intros H i' Hi' P D. apply H. exists i'. split; [lia |]. split; [lia |]. done.
  - intros H (i' & ? & _ & P & D). by apply (H i').
Qed.

(** The stride [prime] from [i + prime] reaches the multiples of [2 i + 3]. *)
Lemma stride_multiples i j :
  0 <= i ->
  i + (i + i + 3) <= j /\ (i + i + 3 | j - (i + (i + i + 3))) <->
  i < j /\ (2 * i + 3 | 2 * j + 3).
Proof.
  intros Hi. split.
  - intros [H [t Ht]]. split; [lia |]. exists (2 * t + 3). lia.
  - intros [H [t Ht]]. assert (Odd : Z.Odd t).
    { destruct (Z.Even_or_Odd t) as [[u ->] | O]; [lia | done]. }
    destruct Odd as [u ->]. assert (1 <= u) by nia. split; [nia |]. exists (u - 1). lia.
Qed.

Lemma struck_succ i j :
  0 <= i -> struck (i + 1) j <->
  struck i j \/ (Z.prime (2 * i + 3) /\ i < j /\ (2 * i + 3 | 2 * j + 3)).
Proof.
  intros Hi. unfold struck. split.
  - intros (i' & H1 & H2 & P & D). destruct (Z.eq_dec i' i) as [-> |]; [by right |].
    left. exists i'. split; [lia |]. done.
  - intros [(i' & H1 & H2 & P & D) | (P & H & D)].
    + exists i'. split; [lia |]. done.
    + exists i. split; [lia |]. done.
Qed.

Lemma sieve_body_inv size i s p0 :
  0 <= i <= size -> size < 2 ^ 31 -> sieve_inv size i s p0 ->
  exists s', sieve_body size i s = Ret s' /\ sieve_inv size (i + 1) s' p0.
Proof.
  intros Hi Hsz [Hf Hc Hl Hci]. destruct (Hf i ltac:(lia)) as (f & Ef & Hz & Hv).
  unfold sieve_body. rewrite Ef. simpl.
  assert (Filter : filter (fun i => Z.prime (2 * i + 3)) (seqZ 0 (i + 1)) =
    filter (fun i => Z.prime (2 * i + 3)) (seqZ 0 i) ++ filter (fun i => Z.prime (2 * i + 3)) [i]).
  { by rewrite seqZ_snoc, filter_app by lia. }
  destruct (Z.eqb_spec f 0) as [F0 | F1].
  - assert (NP : ~ Z.prime (2 * i + 3)).
    { rewrite <- not_struck_prime by lia. tauto. }
    rewrite (filter_cons_False _ i []), filter_nil, app_nil_r in Filter by done.
    exists s. split; [done |]. split; rewrite ?Filter; try done; [| lia].
    intros j Hj. destruct (Hf j Hj) as (g & Eg & Hg & Hv'). exists g. split; [done |].
    split; [| done]. rewrite Hg, struck_succ by lia. tauto.
  - assert (P : Z.prime (2 * i + 3)).
    { rewrite <- not_struck_prime by lia. tauto. }
    rewrite (filter_cons_True _ i []), filter_nil in Filter by done.
    assert (Hcount : 0 <= count s <= i).
    { rewrite Hc. split; [lia |]. pose proof (length_filter (fun i => Z.prime (2 * i + 3)) (seqZ 0 i)) as L.
      rewrite length_seqZ in L. lia. }
    rewrite !(long_Ret (count s + 1)), !bind_Ret, (long_Ret (i + i)), !bind_Ret, (long_Ret (i + i + 3)), !bind_Ret,
      (long_Ret (i + (i + i + 3))), !bind_Ret by lia.
    pose proof (Z.div_pos size (i + i + 3) ltac:(lia) ltac:(lia)) as Hq.
    assert (Hq2 : size / (i + i + 3) <= size) by (apply Z.div_le_upper_bound; nia).
    assert (Hci2 : ci s + (size + 1) < 2 ^ 63) by nia.
    destruct (strike_spec (Z.to_nat (size / (i + i + 3) + 1)) size (i + i + 3) (i + (i + i + 3)) (ci s) (flags s))
      as (c' & fl' & -> & Hc' & Hfl); [lia | lia | | lia | lia | lia |].
    { pose proof (Z.mul_succ_div_gt size (i + i + 3) ltac:(lia)). rewrite Z2Nat.id by lia. lia. }
    simpl. eexists. split; [reflexivity |]. split; simpl.
    + intros j Hj. destruct (Hf j Hj) as (g & Eg & Hg & Hv'). rewrite Hfl.
      pose proof (stride_multiples i j ltac:(lia)) as SM.
      case_decide as D.
      * exists 0. split; [done |]. split; [| tauto]. rewrite struck_succ by lia. tauto.
      * exists g. split; [done |]. split; [| done]. rewrite Hg, struck_succ by lia.
        assert (~ (i + (i + i + 3) <= j /\ (i + i + 3 | j - (i + (i + i + 3)))))
          by (intros [A B]; apply D; split; [lia | done]). tauto.
    + rewrite Filter, length_app, Hc. simpl. lia.
    + rewrite Filter, last_snoc. lia.
    + nia.
Qed.

Lemma sieve_init_spec size fl :
  0 <= size + 1 -> exists fl', sieve_init size fl = Ret fl' /\
    forall j, 0 <= j <= size -> fl' !! j = Some 1.
Proof.
  intros Hs. unfold sieve_init.
  destruct (for_c_inv (fun k f => forall j, 0 <= j < k -> (f : gmap Z Z) !! j = Some 1)
    0 (size + 1) (fun i => poke (size + 1) i 1) fl) as (fl' & E & H); [done | lia | | ].
  - intros k t Hk Ht. unfold poke.
    destruct (Z.leb_spec 0 k), (Z.ltb_spec k (size + 1)); try lia. simpl.
    eexists. split; [reflexivity |]. intros j Hj. destruct (Z.eq_dec j k) as [-> |].
    + apply lookup_insert_eq.
    + rewrite lookup_insert_ne by done. apply Ht. lia.
  - exists fl'. split; [done |]. intros j Hj. apply H. lia.
Qed.

(** One whole iteration: the flags are the primality table. *)
Lemma sieve_iter_spec size s j :
  0 <= size < 2 ^ 31 -> 0 <= j -> j + Z.of_nat (length (prime_indices size)) < 2 ^ 63 ->
  exists s', sieve_iter size (s, j) = Ret (s', j + Z.of_nat (length (prime_indices size))) /\
    sieve_inv size (size + 1) s' (prime_ s).
Proof.
  intros Hs Hj0 Hj1. unfold sieve_iter. simpl.
  destruct (sieve_init_spec size (flags s) ltac:(lia)) as (fl & -> & Hfl). simpl.
  destruct (for_c_inv (fun i t => sieve_inv size i t (prime_ s)) 0 (size + 1)
    (sieve_body size) (mkSieve fl 0 (prime_ s) 0)) as (s' & -> & I).
  - lia.
  - split; simpl; try done. intros k Hk. exists 1. split; [by apply Hfl |].
    split; [| tauto]. split; [done |]. intros (i' & H & _). lia.
  - intros k t Hk. apply sieve_body_inv; lia.
  - simpl. exists s'. split; [| done]. rewrite (inv_count _ _ _ _ I). fold (prime_indices size).
    by rewrite long_Ret, bind_Ret by lia.
Qed.

Definition last_or (size p0 : Z) : Z :=
  match last (prime_indices size) with Some k => 2 * k + 3 | None => p0 end.

Lemma sieve_iters_spec n i size s j :
  0 <= size < 2 ^ 31 -> 0 <= j -> j + Z.of_nat n * Z.of_nat (length (prime_indices size)) < 2 ^ 63 ->
  exists s', loop_c n i (fun _ => sieve_iter size) (s, j) =
      Ret (s', j + Z.of_nat n * Z.of_nat (length (prime_indices size))) /\
    prime_ s' = match n with O => prime_ s | S _ => last_or size (prime_ s) end.
Proof.
  intros Hs. revert i s j. induction n as [| n IH]; intros i s j Hj0 Hj; cbn [loop_c].
  - exists s. split; [f_equal; f_equal; lia | done].
  - rewrite Nat2Z.inj_succ, Z.mul_succ_l in Hj.
    destruct (sieve_iter_spec size s j Hs Hj0) as (s1 & -> & I); [lia |]. cbn [mbind cres_bind].
    destruct (IH (i + 1) s1 (j + Z.of_nat (length (prime_indices size)))) as (s2 & -> & L); [lia.. |].
    exists s2. split; [rewrite Nat2Z.inj_succ, Z.mul_succ_l; do 2 f_equal; lia |].
    pose proof (inv_last _ _ _ _ I) as L1. fold (prime_indices size) in L1.
    fold (last_or size (prime_ s)) in L1. rewrite L. destruct n; [done |].
    rewrite L1. unfold last_or. by destruct (last _).
Qed.

(** ** Properties *)

Lemma prime_indices_length size : 0 <= size -> Z.of_nat (length (prime_indices size)) <= size + 1.
Proof.
  intros Hs. pose proof (length_filter (fun i => Z.prime (2 * i + 3)) (seqZ 0 (size + 1))) as L.
  rewrite length_seqZ in L. unfold prime_indices. lia.
Qed.

(** C31: for an array of [m] bytes, at most [2 ^ 31], and [n] iterations, as long as the
    [m * n] numbers looked at fit a [long]: when [malloc] succeeds the sieve terminates
    without an access outside the array and without overflow, and reports exactly the
    number of primes among the odd numbers 3, 5, ..., 2 (m - 1) + 3 and the largest of
    them. *)
Theorem SIEVE_correct m n :
  1 <= m <= 2 ^ 31 -> 1 <= n -> m * n < 2 ^ 63 - 1 ->
  SIEVE true m n = Ret (mkResult 0 (Z.of_nat (length (prime_indices (m - 1)))) (last_prime (m - 1))).
Proof.
  intros Hm Hn Hmn. unfold SIEVE. rewrite (long_Ret (m - 1)), bind_Ret by lia. cbn [negb].
  assert (n <= m * n) by nia. rewrite (long_Ret (m - 1 + 1)), (long_Ret (n + 1)), !bind_Ret by lia. unfold for_c.
  pose proof (prime_indices_length (m - 1) ltac:(lia)) as Hl.
  destruct (sieve_iters_spec (Z.to_nat (n + 1 - 1)) 1 (m - 1) (mkSieve ∅ 0 0 0) 0)
    as (s & -> & L); [lia | lia | |].
  { rewrite Z2Nat.id by lia. replace (n + 1 - 1) with n by lia. nia. }
  rewrite bind_Ret. destruct (Z.eqb_spec n 0); [lia |]. do 2 f_equal.
  - rewrite Z2Nat.id by lia. replace (n + 1 - 1) with n by lia.
    rewrite Z.add_0_l, Z.mul_comm. apply Z.quot_mul. lia.
  - rewrite L. destruct (Z.to_nat (n + 1 - 1)) eqn:E; [lia |]. done.
Qed.

Lemma SIEVE_correct_witness :
  SIEVE true 30 2 = Ret (mkResult 0 (Z.of_nat (length (prime_indices (30 - 1)))) (last_prime (30 - 1))).
Proof. apply SIEVE_correct; lia. Defined.

(** The list of indices really enumerates the odd primes. *)
Lemma elem_of_prime_indices size i :
  i ∈ prime_indices size <-> 0 <= i <= size /\ Z.prime (2 * i + 3).
Proof. unfold prime_indices. rewrite list_elem_of_filter, elem_of_seqZ. intuition lia. Qed.

(** ** The table of results in the source *)
Lemma table_8191 : SIEVE true 8191 1 = Ret (mkResult 0 1899 16381).
Proof. by vm_compute. Qed.
Lemma table_10000 : SIEVE true 10000 1 = Ret (mkResult 0 2261 19997).
Proof. by vm_compute. Qed.
Lemma table_20000 : SIEVE true 20000 1 = Ret (mkResult 0 4202 39989).
Proof. by vm_compute. Qed.
Lemma table_40000 : SIEVE true 40000 1 = Ret (mkResult 0 7836 79999).
Proof. by vm_compute. Qed.

Definition sizes_ok (m n : Z) : Prop := 1 <= m <= 2 ^ 31 /\ 1 <= n /\ m * n < 2 ^ 63 - 1.
Lemma SIEVE_n m n r : sizes_ok m n -> SIEVE true m 1 = Ret r -> SIEVE true m n = Ret r.
Proof. intros (Hm & Hn & Hmn). rewrite !SIEVE_correct by nia. done. Qed.

Lemma SIEVE_alloc b m n r :
  sizes_ok m n -> SIEVE true m 1 = Ret r ->
  SIEVE b m n = Ret (if b then r else mkResult 2 0 0).
Proof.
  intros Hm E. destruct b; [by apply SIEVE_n |]. destruct Hm as (? & ? & ?). unfold SIEVE.
  by rewrite (long_Ret (m - 1)), bind_Ret by lia.
Qed.

(** One round of [main_loop] whose table entry is right. *)
Lemma main_loop_round fuel alloc nloops i j k np lp :
  aget nloops i = Some k -> aget Number_Of_Primes i = Some np -> sizes_ok (2 * j) k ->
  SIEVE true (2 * j) 1 = Ret (mkResult 0 np lp) ->
  main_loop (S fuel) alloc nloops i j =
    if alloc (2 * j) then main_loop fuel alloc nloops (i + 1) (2 * j) else Ret 2.
Proof.
  intros Ek En Hk E. pose proof Hk as (? & ? & ?). cbn [main_loop]. rewrite (long_Ret (2 * j)), bind_Ret, Ek by lia. cbn [deref]. rewrite bind_Ret.
  rewrite (SIEVE_alloc (alloc (2 * j)) (2 * j) k _ Hk E), bind_Ret, En.
  cbn [deref]. rewrite bind_Ret.
  destruct (alloc (2 * j)); cbn -[main_loop Z.add Z.mul]; [by rewrite Z.eqb_refl | done].
Qed.

(** The self-check of [main], for every array size up to 40,000 bytes
    ([LIMIT] up to 3, the sizes the source recommends for small machines) and on
    a fast or a slow machine, reports no error when every [malloc] of its rounds
    succeeds, since the entries of [Number_Of_Primes] are the numbers the sieve
    finds, and error 2 as soon as one of them fails. *)
Theorem main_self_check alloc slow LIMIT :
  (LIMIT <= 3)%nat ->
  main alloc slow LIMIT =
    Ret (if forallb alloc (take LIMIT [10000; 20000; 40000]) then 0 else 2).
Proof.
  intros HL. unfold main.
  rewrite (SIEVE_alloc (alloc 8191) 8191 256 _ ltac:(unfold sizes_ok; lia) table_8191), bind_Ret.
  assert (Hp : 1 <= (if slow then 1 else 8) <= 8) by (destruct slow; lia).
  set (p := if slow then 1 else 8) in *.
  change (aget (NLoops p) 0) with (Some (256 * p)). cbn [deref]. rewrite bind_Ret.
  rewrite (SIEVE_alloc (alloc 8191) 8191 (256 * p) _ ltac:(unfold sizes_ok; lia) table_8191), bind_Ret.
  destruct LIMIT as [| LIMIT]; [done |].
  rewrite (main_loop_round LIMIT alloc (NLoops p) 1 5000 (256 * p) 2261 19997 eq_refl eq_refl)
     by ((unfold sizes_ok; lia) || exact table_10000).
  zconst. cbn [take forallb]. destruct (alloc 10000); [| done].
  destruct LIMIT as [| LIMIT]; [done |].
  rewrite (main_loop_round LIMIT alloc (NLoops p) 2 10000 (128 * p) 4202 39989 eq_refl eq_refl)
     by ((unfold sizes_ok; lia) || exact table_20000).
  zconst. cbn [take forallb]. destruct (alloc 20000); [| done].
  destruct LIMIT as [| LIMIT]; [done |].
  rewrite (main_loop_round LIMIT alloc (NLoops p) 3 20000 (64 * p) 7836 79999 eq_refl eq_refl)
     by ((unfold sizes_ok; lia) || exact table_40000).
  zconst. cbn [take forallb]. destruct (alloc 40000); [| done].
  destruct LIMIT as [| LIMIT]; [done | lia].
Qed.

Lemma main_self_check_witness :
  main (fun m => m <? 30000) false 3 = Ret 2 /\ main (fun _ => true) false 2 = Ret 0.
Proof.
  split.
  - apply (main_self_check (fun m => m <? 30000) false 3). lia.
  - apply (main_self_check (fun _ => true) false 2). lia.
Defined.

End Nsieve.
