(* ===== verification/Memtester.v ===== *)
(** * memtester/tests.c: the memory tests

    The memory under test is a finite map from byte addresses of machine words
    to their contents, behind a piece of hardware [hw]: [phys] is the cell an
    address selects and [keep] what a cell holds after a write.  Fault-free
    hardware selects and keeps what it is told; a stuck bit is a [keep] that
    forces it, a stuck address line a [phys] that identifies two addresses.
    An access outside [lo, hi) is undefined.

    The model is the 64-bit configuration of sizes.h ([UL_LEN] 64).  The
    progress output is left out, and so are the two tests under
    [TEST_NARROW_WRITES].  [rand] is the C library's generator: a parameter
    that steps a state of any type.  [shl_wide n] is what the compiler makes of
    [ONE << n] for a count [n] that is not below 64, which C leaves undefined. *)
From S2P Require Import Prelude.

Module Memtester.

(** ** sizes.h *)
Definition UL_ONEBITS : Z := 0xffffffffffffffff.
Definition UL_LEN : Z := 64.
Definition CHECKERBOARD1 : Z := 0x5555555555555555.
Definition CHECKERBOARD2 : Z := 0xaaaaaaaaaaaaaaaa.
Definition UL_BYTE (x : Z) : Z :=
  let s n := u64 (Z.shiftl x n) in
  Z.lor (Z.lor (Z.lor (Z.lor (Z.lor (Z.lor (Z.lor (u64 x) (s 8)) (s 16)) (s 24)) (s 32))
    (s 40)) (s 48)) (s 56).
Definition ul_not (x : Z) : Z := u64 (Z.lnot x).
Definition sizeof_ul : Z := 8.

Record hw := mkHw { phys : Z -> Z; keep : Z -> Z -> Z; lo : Z; hi : Z }.
Definition good_hw (l h : Z) : hw := mkHw (fun p => p) (fun _ v => v) l h.

Section Tests.
Context {R : Type} (rand : R -> Z * R) (shl_wide : Z -> Z) (h : hw).

(** [rand32 ()] and [rand64 ()], the four calls from left to right. *)
Definition rand32 (g : R) : Z * R :=
  let '(x, g) := rand g in let '(y, g) := rand g in
  (Z.lor (u32 x) (u32 (Z.shiftl y 16)), g).
Definition rand_ul (g : R) : Z * R :=
  let '(x, g) := rand32 g in let '(y, g) := rand32 g in
  (Z.lor (u64 (Z.shiftl x 32)) y, g).

(** [ONE << n] converted to [ul]; gcc defines the signed shift below 64. *)
Definition ONE_shl (n : Z) : Z := if n <? 64 then 2 ^ n else u64 (shl_wide n).

Abbreviation mem := (gmap Z Z).

Definition mapped (p : Z) : bool := (lo h <=? p) && (p + sizeof_ul <=? hi h).
Definition rd (m : mem) (p : Z) : cres Z :=
  if mapped p then deref (m !! phys h p) else Undef.
Definition wr (m : mem) (p v : Z) : cres mem :=
  if mapped p then Ret (<[phys h p := keep h (phys h p) v]> m) else Undef.

Definition at_ (buf i : Z) : Z := buf + i * sizeof_ul.

Definition compare_regions (bufa bufb count : Z) (m : mem) : cres Z :=
  for_c 0 count (fun i r =>
    x ← rd m (at_ bufa i);
    y ← rd m (at_ bufb i);
    Ret (if x =? y then r else -1)) 0.

(** What [test_stuck_address] writes at an address in round [j]. *)
Definition stuck_pattern (j i p : Z) : Z :=
  if (j + i) mod 2 =? 0 then u64 p else ul_not (u64 p).

(** The second loop of a round: stop at the first word that differs. *)
Fixpoint stuck_check (n : nat) (bufa i j : Z) (m : mem) : cres Z :=
  match n with
  | O => Ret 0
  | S n =>
      x ← rd m (at_ bufa i);
      if x =? stuck_pattern j i (at_ bufa i) then stuck_check n bufa (i + 1) j m
      else Ret (-1)
  end.

Definition stuck_fill (bufa count j : Z) (m : mem) : cres mem :=
  for_c 0 count (fun i m => wr m (at_ bufa i) (stuck_pattern j i (at_ bufa i))) m.

(** [for (j = ...; n rounds) { fill; if (check) return -1; }] *)
Fixpoint rounds (n : nat) (j : Z) (fill : Z -> mem -> cres mem) (check : Z -> mem -> cres Z)
    (m : mem) : cres (Z * mem) :=
  match n with
  | O => Ret (0, m)
  | S n =>
      m ← fill j m;
      r ← check j m;
      if r =? 0 then rounds n (j + 1) fill check m else Ret (-1, m)
  end.

Definition test_stuck_address (bufa count : Z) (m : mem) : cres (Z * mem) :=
  rounds 16 0 (stuck_fill bufa count)
    (fun j m => stuck_check (Z.to_nat count) bufa 0 j m) m.

(** [*p1++ = *p2++ = v], [n] times, the value [f i] at index [i]. *)
Definition fill2 (bufa bufb count : Z) (f : Z -> Z) (m : mem) : cres mem :=
  for_c 0 count (fun i m =>
    m ← wr m (at_ bufb i) (f i);
    wr m (at_ bufa i) (f i)) m.

Definition test_random_value (bufa bufb count : Z) (s : mem * R) : cres (Z * (mem * R)) :=
  '(m, g) ← for_c 0 count (fun i '(m, g) =>
    let '(v, g) := rand_ul g in
    m ← wr m (at_ bufb i) v;
    m ← wr m (at_ bufa i) v;
    Ret (m, g)) s;
  r ← compare_regions bufa bufb count m;
  Ret (r, (m, g)).

(** [*p1++ op= q; *p2++ op= q;] *)
Definition rmw2 (bufa bufb count : Z) (op : Z -> Z) (m : mem) : cres mem :=
  for_c 0 count (fun i m =>
    x ← rd m (at_ bufa i);
    m ← wr m (at_ bufa i) (op x);
    y ← rd m (at_ bufb i);
    wr m (at_ bufb i) (op y)) m.

(** The tests that draw [q] and combine every word with it. *)
Definition op_test (op : Z -> Z -> Z) (bufa bufb count : Z) (s : mem * R)
    : cres (Z * (mem * R)) :=
  let '(m, g) := s in
  let '(q, g) := rand_ul g in
  m ← rmw2 bufa bufb count (fun x => op x q) m;
  r ← compare_regions bufa bufb count m;
  Ret (r, (m, g)).

Definition test_xor_comparison := op_test (fun x q => Z.lxor x q).
Definition test_sub_comparison := op_test (fun x q => u64 (x - q)).
Definition test_mul_comparison := op_test (fun x q => u64 (x * q)).
(** [if (!q) q++] precedes the division. *)
Definition test_div_comparison := op_test (fun x q => x / (if q =? 0 then q + 1 else q)).
Definition test_or_comparison := op_test (fun x q => Z.lor x q).
Definition test_and_comparison := op_test (fun x q => Z.land x q).

Definition test_seqinc_comparison (bufa bufb count : Z) (s : mem * R)
    : cres (Z * (mem * R)) :=
  let '(m, g) := s in
  let '(q, g) := rand_ul g in
  m ← fill2 bufa bufb count (fun i => u64 (i + q)) m;
  r ← compare_regions bufa bufb count m;
  Ret (r, (m, g)).

(** The tests that write [n] patterns, [pat j i] at index [i] in round [j]. *)
Definition pattern_test (n : nat) (pat : Z -> Z -> Z) (bufa bufb count : Z) (s : mem * R)
    : cres (Z * (mem * R)) :=
  let '(m, g) := s in
  '(r, m) ← rounds n 0 (fun j => fill2 bufa bufb count (pat j))
              (fun _ m => compare_regions bufa bufb count m) m;
  Ret (r, (m, g)).

Definition even (i : Z) : bool := i mod 2 =? 0.

Definition solidbits_pat (j i : Z) : Z :=
  let q := if even j then UL_ONEBITS else 0 in if even i then q else ul_not q.
Definition checkerboard_pat (j i : Z) : Z :=
  let q := if even j then CHECKERBOARD1 else CHECKERBOARD2 in
  if even i then q else ul_not q.
Definition blockseq_pat (j i : Z) : Z := UL_BYTE j.
Definition walkbits0_pat (j i : Z) : Z :=
  if j <? UL_LEN then ONE_shl j else ONE_shl (UL_LEN * 2 - j - 1).
Definition walkbits1_pat (j i : Z) : Z :=
  if j <? UL_LEN then Z.lxor UL_ONEBITS (ONE_shl j)
  else Z.lxor UL_ONEBITS (ONE_shl (UL_LEN * 2 - j - 1)).
Definition bitspread_pat (j i : Z) : Z :=
  if j <? UL_LEN then
    (if even i then Z.lor (ONE_shl j) (ONE_shl (j + 2))
     else Z.lxor UL_ONEBITS (Z.lor (ONE_shl j) (ONE_shl (j + 2))))
  else
    (if even i then Z.lor (ONE_shl (UL_LEN * 2 - 1 - j)) (ONE_shl (UL_LEN * 2 + 1 - j))
     else Z.lxor UL_ONEBITS
            (Z.lor (ONE_shl (UL_LEN * 2 - 1 - j)) (ONE_shl (UL_LEN * 2 + 1 - j)))).

Definition test_solidbits_comparison := pattern_test 64 solidbits_pat.
Definition test_checkerboard_comparison := pattern_test 64 checkerboard_pat.
Definition test_blockseq_comparison := pattern_test 256 blockseq_pat.
Definition test_walkbits0_comparison := pattern_test 128 walkbits0_pat.
Definition test_walkbits1_comparison := pattern_test 128 walkbits1_pat.
Definition test_bitspread_comparison := pattern_test 128 bitspread_pat.

(** [test_bitflip_comparison]: the inner loop complements [q] in each of its
    8 rounds, the outer one runs [k] over the bits. *)
Fixpoint bitflip_inner (n : nat) (bufa bufb count q : Z) (m : mem) : cres (Z * mem) :=
  match n with
  | O => Ret (0, m)
  | S n =>
      let q := ul_not q in
      m ← fill2 bufa bufb count (fun i => if even i then q else ul_not q) m;
      r ← compare_regions bufa bufb count m;
      if r =? 0 then bitflip_inner n bufa bufb count q m else Ret (-1, m)
  end.
Fixpoint bitflip_outer (n : nat) (bufa bufb count k : Z) (m : mem) : cres (Z * mem) :=
  match n with
  | O => Ret (0, m)
  | S n =>
      '(r, m) ← bitflip_inner 8 bufa bufb count (ONE_shl k) m;
      if r =? 0 then bitflip_outer n bufa bufb count (k + 1) m else Ret (-1, m)
  end.
Definition test_bitflip_comparison (bufa bufb count : Z) (s : mem * R)
    : cres (Z * (mem * R)) :=
  let '(m, g) := s in
  '(r, m) ← bitflip_outer 64 bufa bufb count 0 m;
  Ret (r, (m, g)).

(** ** memtester.c: the table of tests and the test loop of [main] *)
Definition tests : list (string * (Z -> Z -> Z -> mem * R -> cres (Z * (mem * R)))) :=
  [ ("Random Value", test_random_value);
    ("Compare XOR", test_xor_comparison);
    ("Compare SUB", test_sub_comparison);
    ("Compare MUL", test_mul_comparison);
    ("Compare DIV", test_div_comparison);
    ("Compare OR", test_or_comparison);
    ("Compare AND", test_and_comparison);
    ("Sequential Increment", test_seqinc_comparison);
    ("Solid Bits", test_solidbits_comparison);
    ("Block Sequential", test_blockseq_comparison);
    ("Checkerboard", test_checkerboard_comparison);
    ("Bit Spread", test_bitspread_comparison);
    ("Bit Flip", test_bitflip_comparison);
    ("Walking Ones", test_walkbits1_comparison);
    ("Walking Zeroes", test_walkbits0_comparison) ]%string.

Definition EXIT_FAIL_NONSTARTER : Z := 0x01.
Definition EXIT_FAIL_ADDRESSLINES : Z := 0x02.
Definition EXIT_FAIL_OTHERTEST : Z := 0x04.

(** [for (i = 0;; i++) { if (!tests[i].name) break; ... }] *)
Fixpoint run_tests
    (ts : list (string * (Z -> Z -> Z -> mem * R -> cres (Z * (mem * R)))))
    (bufa bufb count : Z) (exit_code : Z) (s : mem * R) : cres (Z * (mem * R)) :=
  match ts with
  | [] => Ret (exit_code, s)
  | (_, fp) :: ts =>
      '(r, s) ← fp bufa bufb count s;
      run_tests ts bufa bufb count
        (if r =? 0 then exit_code else Z.lor exit_code EXIT_FAIL_OTHERTEST) s
  end.

(** One iteration of [for (loop = 1; ...)]. *)
Definition run_loop (aligned bufsize : Z) (exit_code : Z) (s : mem * R)
    : cres (Z * (mem * R)) :=
  let halflen := bufsize / 2 in
  let count := halflen / sizeof_ul in
  let bufa := aligned in
  let bufb := aligned + halflen in
  let '(m, g) := s in
  '(r, m) ← test_stuck_address aligned (bufsize / sizeof_ul) m;
  run_tests tests bufa bufb count
    (if r =? 0 then exit_code else Z.lor exit_code EXIT_FAIL_ADDRESSLINES) (m, g).
End Tests.

(** ** Lemmas *)
Lemma at_inj buf i j : at_ buf i = at_ buf j -> i = j.
Proof. unfold at_, sizeof_ul. lia. Qed.

Lemma ul_not_spec x : 0 <= x < 2 ^ 64 -> ul_not x = 2 ^ 64 - 1 - x.
Proof.
  intros. unfold ul_not. rewrite <- Z.lnot_eq_pred_opp || unfold Z.lnot.
  unfold wrap_u. symmetry. apply Z.mod_unique with (-1); lia.
Qed.

Section Layout.
Context {R : Type} (rand : R -> Z * R) (shl_wide : Z -> Z) (h : hw).
Context (bufa bufb count : Z).
(** Two disjoint regions of [count] words inside the mapped range, and an
    address decoder that works. *)
Hypothesis Hphys : forall p, phys h p = p.
Hypothesis Hcount : 0 <= count.
Hypothesis Hlo : lo h <= bufa.
Hypothesis Hdisj : at_ bufa count <= bufb.
Hypothesis Hhi : at_ bufb count <= hi h.

Lemma mapped_a i : 0 <= i < count -> mapped h (at_ bufa i) = true.
Proof.
  intros. unfold mapped, at_, sizeof_ul in *.
  rewrite andb_true_iff, !Z.leb_le. lia.
Qed.
Lemma mapped_b i : 0 <= i < count -> mapped h (at_ bufb i) = true.
Proof.
  intros. unfold mapped, at_, sizeof_ul in *.
  rewrite andb_true_iff, !Z.leb_le. lia.
Qed.
Lemma a_ne_b i j : 0 <= i < count -> 0 <= j < count -> at_ bufa i <> at_ bufb j.
Proof. intros. unfold at_, sizeof_ul in *. lia. Qed.

Lemma rd_a m i v : 0 <= i < count -> m !! at_ bufa i = Some v -> rd h m (at_ bufa i) = Ret v.
Proof. intros Hi E. unfold rd. by rewrite mapped_a, Hphys, E. Qed.
Lemma rd_b m i v : 0 <= i < count -> m !! at_ bufb i = Some v -> rd h m (at_ bufb i) = Ret v.
Proof. intros Hi E. unfold rd. by rewrite mapped_b, Hphys, E. Qed.
Lemma wr_a m i v : 0 <= i < count ->
  wr h m (at_ bufa i) v = Ret (<[at_ bufa i := keep h (at_ bufa i) v]> m).
Proof. intros Hi. unfold wr. by rewrite mapped_a, Hphys. Qed.
Lemma wr_b m i v : 0 <= i < count ->
  wr h m (at_ bufb i) v = Ret (<[at_ bufb i := keep h (at_ bufb i) v]> m).
Proof. intros Hi. unfold wr. by rewrite mapped_b, Hphys. Qed.

(** The two regions hold [x i] and [y i]. *)
Definition holds (x y : Z -> Z) (n : Z) (m : gmap Z Z) : Prop :=
  forall i, 0 <= i < n -> m !! at_ bufa i = Some (x i) /\ m !! at_ bufb i = Some (y i).

(** [compare_regions] tells whether the regions agree. *)
Lemma compare_spec x y m :
  holds x y count m ->
  exists r, compare_regions h bufa bufb count m = Ret r /\ (r = 0 \/ r = -1) /\
    (r = 0 <-> forall i, 0 <= i < count -> x i = y i).
Proof.
  intros H. unfold compare_regions.
  apply (for_c_inv (fun k r => (r = 0 \/ r = -1) /\
    (r = 0 <-> forall i, 0 <= i < k -> x i = y i))); [done | |].
  - split; [by left |]. split; [intros _ i; lia | done].
  - intros k r Hk [Hv Hr]. destruct (H k Hk) as [Ha Hb].
    rewrite (rd_a _ _ _ Hk Ha), bind_Ret, (rd_b _ _ _ Hk Hb), bind_Ret.
    eexists. split; [reflexivity |]. destruct (Z.eqb_spec (x k) (y k)) as [E | N].
    + split; [done |]. rewrite Hr. split; intros F i Hi; [| apply F; lia].
      destruct (Z.eq_dec i k) as [-> |]; [done | apply F; lia].
    + split; [by right |]. split; [done |]. intros F. exfalso. apply N, F. lia.
Qed.

Lemma compare_same x y m :
  holds x y count m -> (forall i, 0 <= i < count -> x i = y i) ->
  compare_regions h bufa bufb count m = Ret 0.
Proof.
  intros H E. destruct (compare_spec x y m H) as (r & -> & _ & Hr). by apply Hr in E as ->.
Qed.

Lemma compare_differ x y m k :
  holds x y count m -> 0 <= k < count -> x k <> y k ->
  compare_regions h bufa bufb count m = Ret (-1).
Proof.
  intros H Hk Hne. destruct (compare_spec x y m H) as (r & -> & [-> | ->] & Hr); [| done].
  exfalso. apply Hne. by apply Hr.
Qed.

(** Writing the same value to both regions leaves what the cells keep. *)
Lemma write_pair m i v x y :
  0 <= i < count -> holds x y i m ->
  x i = keep h (at_ bufa i) v -> y i = keep h (at_ bufb i) v ->
  exists m', (m1 ← wr h m (at_ bufb i) v; wr h m1 (at_ bufa i) v) = Ret m' /\
    holds x y (i + 1) m'.
Proof.
  intros Hi H Ex Ey. rewrite wr_b, bind_Ret, wr_a by done. eexists. split; [reflexivity |].
  intros j Hj. destruct (Z.eq_dec j i) as [-> |].
  - rewrite lookup_insert_eq, lookup_insert_ne by (by apply a_ne_b).
    by rewrite lookup_insert_eq, Ex, Ey.
  - pose proof (a_ne_b i j ltac:(lia) ltac:(lia)). pose proof (a_ne_b j i ltac:(lia) ltac:(lia)).
    assert (at_ bufa i <> at_ bufa j /\ at_ bufb i <> at_ bufb j) as [? ?]
      by (split; intros ?%at_inj; lia).
    rewrite !lookup_insert_ne by congruence. apply H. lia.
Qed.

Lemma fill2_spec f m :
  exists m', fill2 h bufa bufb count f m = Ret m' /\
    holds (fun i => keep h (at_ bufa i) (f i)) (fun i => keep h (at_ bufb i) (f i)) count m'.
Proof.
  unfold fill2. apply for_c_inv; [done | intros i; lia |].
  intros k t Hk Ht. by apply write_pair.
Qed.

(** A pattern test fails as soon as one cell keeps something else than its
    partner does in some round. *)
Lemma rounds_detect n pat j0 m j k :
  j0 <= j < j0 + Z.of_nat n -> 0 <= k < count ->
  keep h (at_ bufa k) (pat j k) <> keep h (at_ bufb k) (pat j k) ->
  exists m', rounds n j0 (fun j => fill2 h bufa bufb count (pat j))
    (fun _ m => compare_regions h bufa bufb count m) m = Ret (-1, m').
Proof.
  revert j0 m. induction n as [| n IH]; intros j0 m Hj Hk Hne; [lia |]. cbn [rounds].
  destruct (fill2_spec (pat j0) m) as (m1 & -> & H1). rewrite bind_Ret.
  destruct (Z.eq_dec j0 j) as [-> | Ne].
  - rewrite (compare_differ _ _ _ k H1 Hk Hne), bind_Ret. eauto.
  - destruct (compare_spec _ _ _ H1) as (r & -> & _). rewrite bind_Ret.
    destruct (r =? 0); [apply IH; (lia || done) | eauto].
Qed.

Lemma pattern_test_detect n pat m (g : R) j k :
  0 <= j < Z.of_nat n -> 0 <= k < count ->
  keep h (at_ bufa k) (pat j k) <> keep h (at_ bufb k) (pat j k) ->
  exists m', pattern_test h n pat bufa bufb count (m, g) = Ret (-1, (m', g)).
Proof.
  intros Hj Hk Hne. unfold pattern_test.
  destruct (rounds_detect n pat 0 m j k) as (m' & ->); [lia | done | done |].
  rewrite bind_Ret. eauto.
Qed.

(** *** Fault-free cells *)
Hypothesis Hkeep : forall p v, keep h p v = v.

Definition same (m : gmap Z Z) : Prop := exists x, holds x x count m.

Lemma fill2_good f m : exists m', fill2 h bufa bufb count f m = Ret m' /\ holds f f count m'.
Proof.
  destruct (fill2_spec f m) as (m' & E & H). exists m'. split; [done |].
  intros i Hi. destruct (H i Hi) as [A B]. by rewrite Hkeep in A, B.
Qed.

Lemma compare_good m : same m -> compare_regions h bufa bufb count m = Ret 0.
Proof. intros [x H]. by apply (compare_same x x). Qed.

Lemma rounds_good n pat j0 m :
  same m -> exists m', rounds n j0 (fun j => fill2 h bufa bufb count (pat j))
    (fun _ m => compare_regions h bufa bufb count m) m = Ret (0, m') /\ same m'.
Proof.
  revert j0 m. induction n as [| n IH]; intros j0 m Hs; cbn [rounds]; [eauto |].
  destruct (fill2_good (pat j0) m) as (m1 & -> & H1). rewrite bind_Ret.
  assert (same m1) by (by exists (pat j0)).
  rewrite compare_good, bind_Ret by done. by apply IH.
Qed.

Lemma bitflip_inner_good n q m :
  same m -> exists m', bitflip_inner h n bufa bufb count q m = Ret (0, m') /\ same m'.
Proof.
  revert q m. induction n as [| n IH]; intros q m Hs; cbn [bitflip_inner]; [eauto |].
  destruct (fill2_good (fun i => if even i then ul_not q else ul_not (ul_not q)) m)
    as (m1 & -> & H1). rewrite bind_Ret.
  assert (same m1) by (eexists; exact H1).
  rewrite compare_good, bind_Ret by done. by apply IH.
Qed.

Lemma bitflip_outer_good n k m :
  same m -> exists m', bitflip_outer shl_wide h n bufa bufb count k m = Ret (0, m') /\ same m'.
Proof.
  revert k m. induction n as [| n IH]; intros k m Hs; cbn [bitflip_outer]; [eauto |].
  destruct (bitflip_inner_good 8 (ONE_shl shl_wide k) m Hs) as (m1 & -> & H1).
  rewrite bind_Ret. by apply IH.
Qed.

Lemma rmw2_good op m : same m -> exists m', rmw2 h bufa bufb count op m = Ret m' /\ same m'.
Proof.
  intros Hs. unfold rmw2. apply (for_c_inv (fun _ => same)); [done | done |].
  intros k t Hk [x Hx]. destruct (Hx k Hk) as [Ha Hb].
  rewrite (rd_a _ _ _ Hk Ha), bind_Ret, wr_a, bind_Ret, Hkeep by done.
  rewrite (rd_b _ _ (x k)), bind_Ret, wr_b, Hkeep; try done.
  2: { rewrite lookup_insert_ne by (by apply a_ne_b). done. }
  eexists. split; [reflexivity |]. exists (fun i => if i =? k then op (x k) else x i).
  intros i Hi. destruct (Z.eqb_spec i k) as [-> |].
  - rewrite lookup_insert_ne by (intros E; symmetry in E; by eapply a_ne_b in E).
    by rewrite !lookup_insert_eq.
  - pose proof (a_ne_b i k Hi Hk). pose proof (a_ne_b k i Hk Hi).
    assert (at_ bufa k <> at_ bufa i /\ at_ bufb k <> at_ bufb i) as [? ?]
      by (split; intros ?%at_inj; lia).
    rewrite !lookup_insert_ne by congruence. by apply Hx.
Qed.

(** A test is quiet when, on regions that agree, it reports no error and
    leaves regions that agree. *)
Definition quiet (fp : Z -> Z -> Z -> gmap Z Z * R -> cres (Z * (gmap Z Z * R))) : Prop :=
  forall m g, same m -> exists m' g', fp bufa bufb count (m, g) = Ret (0, (m', g')) /\ same m'.

Lemma op_test_quiet op : quiet (op_test rand h op).
Proof.
  intros m g Hs. unfold op_test. destruct (rand_ul rand g) as [q g'].
  destruct (rmw2_good (fun x => op x q) m Hs) as (m' & -> & H').
  rewrite bind_Ret, compare_good, bind_Ret by done. eauto.
Qed.

Lemma pattern_test_quiet n pat : quiet (pattern_test h n pat).
Proof.
  intros m g Hs. unfold pattern_test.
  destruct (rounds_good n pat 0 m Hs) as (m' & -> & H'). rewrite bind_Ret. eauto.
Qed.

Lemma seqinc_quiet : quiet (test_seqinc_comparison rand h).
Proof.
  intros m g Hs. unfold test_seqinc_comparison. destruct (rand_ul rand g) as [q g'].
  destruct (fill2_good (fun i => u64 (i + q)) m) as (m' & -> & H').
  assert (same m') by (eexists; exact H').
  rewrite bind_Ret, compare_good, bind_Ret by done. eauto.
Qed.

Lemma bitflip_quiet : quiet (test_bitflip_comparison shl_wide h).
Proof.
  intros m g Hs. unfold test_bitflip_comparison.
  destruct (bitflip_outer_good 64 0 m Hs) as (m' & -> & H'). rewrite bind_Ret. eauto.
Qed.

(** The random fill makes the regions agree, whatever they held. *)
Lemma random_good m g : exists m' g',
  test_random_value rand h bufa bufb count (m, g) = Ret (0, (m', g')) /\ same m'.
Proof.
  unfold test_random_value.
  match goal with |- context [for_c 0 count ?f ?t0] =>
    destruct (for_c_inv (fun k (s : gmap Z Z * R) => exists x, holds x x k s.1) 0 count f t0)
      as ([m' g'] & -> & x & Hx) end.
  - done.
  - exists (fun _ => 0). intros i; lia.
  - intros k [t g1] Hk [x Hx]. cbn. destruct (rand_ul rand g1) as [v g2].
    destruct (write_pair t k v (fun i => if i =? k then v else x i)
      (fun i => if i =? k then v else x i) Hk) as (t' & E & Ht').
    + intros i Hi. destruct (Z.eqb_spec i k); [lia | by apply Hx].
    + by rewrite Z.eqb_refl, Hkeep.
    + by rewrite Z.eqb_refl, Hkeep.
    + rewrite <- bind_assoc_cres, E, bind_Ret. eauto.
  - rewrite bind_Ret, compare_good, bind_Ret by (by exists x).
    exists m', g'. split; [done | by exists x].
Qed.

Lemma run_tests_cons name fp ts code s :
  run_tests ((name, fp) :: ts) bufa bufb count code s =
  ('(r, s) ← fp bufa bufb count s;
   run_tests ts bufa bufb count
     (if r =? 0 then code else Z.lor code EXIT_FAIL_OTHERTEST) s) :> cres (Z * (gmap Z Z * R)).
Proof. reflexivity. Qed.

Lemma run_tests_quiet ts code m g :
  Forall (fun t => quiet t.2) ts -> same m ->
  exists s', run_tests ts bufa bufb count code (m, g) = Ret (code, s').
Proof.
  intros F. revert m g. induction F as [| [name fp] ts Hq F IH]; intros m g Hs; cbn [run_tests].
  - eauto.
  - destruct (Hq m g Hs) as (m' & g' & E & Hs'). cbn in E. rewrite E, bind_Ret. by apply IH.
Qed.

Lemma tests_good code m g :
  exists s', run_tests (tests rand shl_wide h) bufa bufb count code (m, g) = Ret (code, s').
Proof.
  unfold tests. rewrite run_tests_cons.
  destruct (random_good m g) as (m1 & g1 & -> & H1).
  rewrite bind_Ret. apply run_tests_quiet; [| done].
  repeat first
    [ apply op_test_quiet | apply pattern_test_quiet | apply seqinc_quiet
    | apply bitflip_quiet | apply List.Forall_cons | apply List.Forall_nil ].
Qed.
End Layout.


(** *** The address test *)
Section Address.
Context (h : hw) (buf count : Z).
Hypothesis Hkeep : forall p v, keep h p v = v.
Hypothesis Hcount : 0 <= count.
Hypothesis Hlo : lo h <= buf.
Hypothesis Hhi : at_ buf count <= hi h.

Abbreviation cell i := (phys h (at_ buf i)).
Abbreviation pat j i := (stuck_pattern j i (at_ buf i)).

Lemma mapped_word i : 0 <= i < count -> mapped h (at_ buf i) = true.
Proof.
  intros. unfold mapped, at_, sizeof_ul in *. rewrite andb_true_iff, !Z.leb_le. lia.
Qed.

(** After [n] writes every cell holds the pattern of the last word on it. *)
Definition last_write (j n : Z) (m : gmap Z Z) : Prop :=
  forall i, 0 <= i < n -> exists l, i <= l < n /\ cell l = cell i /\
    m !! cell i = Some (pat j l) /\ forall i', l < i' < n -> cell i' <> cell i.

Lemma stuck_fill_spec j m :
  exists m', stuck_fill h buf count j m = Ret m' /\ last_write j count m'.
Proof.
  unfold stuck_fill. apply (for_c_inv (last_write j)); [done | intros i ?; lia |]. intros k t Hk Ht.
  unfold wr. rewrite mapped_word, Hkeep by done. eexists. split; [reflexivity |].
  intros i Hi. destruct (Z.eq_dec (cell k) (cell i)) as [E | N].
  - exists k. rewrite <- E, lookup_insert_eq.
    repeat split; lia.
  - assert (i <> k) by congruence. destruct (Ht i ltac:(lia)) as (l & Hl & Ec & Em & Hx).
    exists l. rewrite lookup_insert_ne by done. repeat split; try (lia || done).
    intros i' Hi'. destruct (Z.eq_dec i' k) as [-> |]; [done | apply Hx; lia].
Qed.

Lemma stuck_check_spec n i j m :
  0 <= i -> i + Z.of_nat n <= count -> last_write j count m ->
  exists r, stuck_check h n buf i j m = Ret r /\ (r = 0 \/ r = -1) /\
    (r = 0 <-> forall k, i <= k < i + Z.of_nat n -> m !! cell k = Some (pat j k)).
Proof.
  intros Hi Hn Hm. revert i Hi Hn. induction n as [| n IH]; intros i Hi Hn; cbn [stuck_check].
  - exists 0. split; [done |]. split; [by left |]. split; [intros _ k; lia | done].
  - unfold rd. rewrite mapped_word by lia.
    destruct (Hm i ltac:(lia)) as (l & Hl & Ec & Em & _).
    cbn [deref]. rewrite Em. cbn [deref]. rewrite bind_Ret.
    destruct (Z.eqb_spec (pat j l) (pat j i)) as [E | N].
    + destruct (IH (i + 1) ltac:(lia) ltac:(lia)) as (r & -> & Hv & Hr).
      exists r. split; [done |]. split; [done |]. rewrite Hr. split; intros F k Hk.
      * destruct (Z.eq_dec k i) as [-> |]; [by rewrite Em, E | apply F; lia].
      * apply F; lia.
    + exists (-1). split; [done |]. split; [by right |]. split; [done |].
      intros F. exfalso. specialize (F i ltac:(lia)). congruence.
Qed.

(** The buffer lies in the 64-bit address space. *)
Hypothesis Hbuf : 0 <= buf.
Hypothesis Hspace : at_ buf count <= 2 ^ 64.

Lemma pat_inj j i k :
  0 <= i < count -> 0 <= k < count -> pat j i = pat j k -> i = k.
Proof.
  intros Hi Hk. unfold stuck_pattern.
  assert (0 <= at_ buf i < 2 ^ 64) by (unfold at_, sizeof_ul in *; lia).
  assert (0 <= at_ buf k < 2 ^ 64) by (unfold at_, sizeof_ul in *; lia).
  rewrite !(wrap_u_small 64), !ul_not_spec by lia. unfold at_, sizeof_ul in *.
  change (2 ^ 64) with 18446744073709551616 in *.
  destruct ((j + i) mod 2 =? 0), ((j + k) mod 2 =? 0); lia.
Qed.

Lemma stuck_rounds_good n j m :
  (forall i k, 0 <= i < count -> 0 <= k < count -> cell i = cell k -> i = k) ->
  exists m', rounds n j (stuck_fill h buf count)
    (fun j m => stuck_check h (Z.to_nat count) buf 0 j m) m = Ret (0, m').
Proof.
  intros Hinj. revert j m. induction n as [| n IH]; intros j m; cbn [rounds]; [eauto |].
  destruct (stuck_fill_spec j m) as (m1 & -> & H1). rewrite bind_Ret.
  destruct (stuck_check_spec (Z.to_nat count) 0 j m1 ltac:(lia) ltac:(lia) H1)
    as (r & -> & _ & Hr). rewrite bind_Ret.
  assert (r = 0) as ->.
  { apply Hr. intros k Hk. destruct (H1 k ltac:(lia)) as (l & Hl & Ec & Em & _).
    rewrite Em. do 2 f_equal; apply Hinj in Ec; try lia; by subst. }
  apply IH.
Qed.

Lemma stuck_rounds_bad n j m i k :
  0 <= i < k -> k < count -> cell i = cell k ->
  exists m', rounds (S n) j (stuck_fill h buf count)
    (fun j m => stuck_check h (Z.to_nat count) buf 0 j m) m = Ret (-1, m').
Proof.
  intros Hi Hk E. cbn [rounds]. destruct (stuck_fill_spec j m) as (m1 & -> & H1).
  rewrite bind_Ret.
  destruct (stuck_check_spec (Z.to_nat count) 0 j m1 ltac:(lia) ltac:(lia) H1)
    as (r & -> & Hv & Hr). rewrite bind_Ret.
  destruct Hv as [-> | ->]; [exfalso | cbn; eauto].
  destruct Hr as [Hr _]. specialize (Hr eq_refl i ltac:(lia)).
  destruct (H1 i ltac:(lia)) as (l & Hl & Ec & Em & Hx).
  assert (l = i) as ->. { apply (pat_inj j); [lia | lia |]. congruence. }
  apply (Hx k); [lia | done].
Qed.
End Address.

(** ** Theorems *)

Lemma good_memory_aux {R} (rand : R -> Z * R) (shl_wide : Z -> Z) (l u aligned bufsize : Z)
    (m : gmap Z Z) (g : R) :
  0 <= bufsize -> 0 <= l -> l <= aligned -> aligned + bufsize <= u -> u <= 2 ^ 64 ->
  exists s, run_loop rand shl_wide (good_hw l u) aligned bufsize 0 (m, g) = Ret (0, s).
Proof.
  intros Hs H0 Hl Hu H64. unfold run_loop, test_stuck_address.
  assert (Hw : at_ aligned (bufsize / sizeof_ul) <= aligned + bufsize).
  { unfold at_, sizeof_ul. zdiv. }
  destruct (stuck_rounds_good (good_hw l u) aligned (bufsize / sizeof_ul)) with (n := 16%nat)
    (j := 0) (m := m) as (m1 & ->).
  - done.
  - unfold sizeof_ul. zdiv.
  - done.
  - cbn [hi good_hw]. lia.
  - intros i k _ _ E. cbn in E. by apply at_inj in E.
  - rewrite bind_Ret. cbn [Z.eqb].
    apply tests_good; unfold at_, sizeof_ul in *; cbn [lo hi good_hw]; try done; zdiv.
Qed.

(** On working memory the whole battery passes: whatever the memory held,
    whatever the generator draws and whatever the compiler makes of the
    oversized shifts, one test loop over a mapped buffer returns exit code 0. *)
Theorem good_memory_passes {R} (rand : R -> Z * R) (shl_wide : Z -> Z) (l u aligned bufsize : Z)
    (m : gmap Z Z) (g : R) :
  0 <= bufsize -> 0 <= l -> l <= aligned -> aligned + bufsize <= u -> u <= 2 ^ 64 ->
  exists s, run_loop rand shl_wide (good_hw l u) aligned bufsize 0 (m, g) = Ret (0, s).
Proof. apply good_memory_aux. Qed.

Lemma good_memory_passes_witness :
  exists s, run_loop (fun g : Z => (g, g + 1)) (fun _ => 0) (good_hw 4096 8192) 4096 4096 0 (∅, 1)
    = Ret (0, s).
Proof. apply good_memory_passes; (lia || done). Defined.

(** C30: the address test is exact: on cells that keep what they are given it
    returns 0 when no two words of the buffer select the same cell and -1 when
    two do. *)
Theorem stuck_address_exact (h : hw) (buf count : Z) (m : gmap Z Z) :
  (forall p v, keep h p v = v) ->
  0 <= count -> lo h <= buf -> at_ buf count <= hi h -> 0 <= buf -> at_ buf count <= 2 ^ 64 ->
  exists r m', test_stuck_address h buf count m = Ret (r, m') /\
    (r = 0 \/ r = -1) /\
    (r = 0 <-> forall i k, 0 <= i < count -> 0 <= k < count ->
                 phys h (at_ buf i) = phys h (at_ buf k) -> i = k).
Proof.
  intros Hk Hc Hl Hh Hb Hs.
  destruct (stuck_fill_spec h buf count Hk Hc Hl Hh 0 m) as (m1 & Ef & H1).
  destruct (stuck_check_spec h buf count Hl Hh (Z.to_nat count) 0 0 m1
    ltac:(lia) ltac:(lia) H1) as (r & Ec & Hv & Hr).
  assert (Hinj : r = 0 -> forall i k, 0 <= i < count -> 0 <= k < count ->
                 phys h (at_ buf i) = phys h (at_ buf k) -> i = k).
  { intros -> i k Hi Hk' E.
    destruct Hr as [Hr _]. specialize (Hr eq_refl).
    pose proof (Hr i ltac:(lia)) as E1. pose proof (Hr k ltac:(lia)) as E2.
    rewrite E in E1. apply (pat_inj buf count Hb Hs 0); try done. congruence. }
  destruct Hv as [-> | ->].
  - destruct (stuck_rounds_good h buf count Hk Hc Hl Hh 16 0 m (Hinj eq_refl)) as (m' & E).
    exists 0, m'. split; [exact E |]. split; [by left |]. split; [intros _; by apply Hinj | done].
  - exists (-1), m1. unfold test_stuck_address. cbn [rounds]. rewrite Ef, bind_Ret, Ec, bind_Ret.
    split; [done |]. split; [by right |]. split; [done |]. intros Hall. exfalso.
    assert (-1 = 0); [| done]. apply Hr. intros k Hk'.
    destruct (H1 k ltac:(lia)) as (l & Hl' & Ecell & Em & _).
    apply Hall in Ecell; [| lia | lia]. by subst.
Qed.

Lemma stuck_address_exact_witness :
  exists r m', test_stuck_address (mkHw (fun p => p mod 64) (fun _ v => v) 0 4096) 0 16 ∅
                 = Ret (r, m') /\ (r = 0 \/ r = -1) /\
    (r = 0 <-> forall i k, 0 <= i < 16 -> 0 <= k < 16 ->
                 at_ 0 i mod 64 = at_ 0 k mod 64 -> i = k).
Proof.
  apply (stuck_address_exact (mkHw (fun p => p mod 64) (fun _ v => v) 0 4096) 0 16 ∅);
    (done || vm_compute; done).
Defined.

(** Hardware with one cell whose bit [b] is stuck at [v]. *)
Definition force_bit (b : Z) (v : bool) (x : Z) : Z :=
  if v then Z.lor x (2 ^ b) else Z.land x (Z.lnot (2 ^ b)).
Definition stuck_bit_hw (l u p b : Z) (v : bool) : hw :=
  mkHw (fun a => a) (fun a x => if a =? p then force_bit b v x else x) l u.

Lemma force_bit_spec b v x : 0 <= b -> Z.testbit (force_bit b v x) b = v.
Proof.
  intros. unfold force_bit. destruct v.
  - rewrite Z.lor_spec, Z.pow2_bits_true by lia. apply orb_true_r.
  - rewrite Z.land_spec, Z.lnot_spec, Z.pow2_bits_true by lia. apply andb_false_r.
Qed.

Lemma force_bit_detect b v x y : 0 <= b -> Z.testbit x b <> v -> y = x -> force_bit b v x <> y.
Proof. intros Hb Hx -> E. apply Hx. by rewrite <- E, force_bit_spec. Qed.

(** Two rounds with complementary bits expose a stuck bit in either region. *)
Lemma pattern_test_stuck {R} n pat l u bufa bufb count p b v j k m (g : R) :
  0 <= count -> l <= bufa -> at_ bufa count <= bufb -> at_ bufb count <= u ->
  0 <= k < count -> 0 <= b -> (p = at_ bufa k \/ p = at_ bufb k) ->
  0 <= j < Z.of_nat n -> Z.testbit (pat j k) b <> v ->
  exists m', pattern_test (stuck_bit_hw l u p b v) n pat bufa bufb count (m, g)
    = Ret (-1, (m', g)).
Proof.
  intros Hc Hl Hd Hu Hk Hb Hp Hj Hbit.
  apply (pattern_test_detect (stuck_bit_hw l u p b v) bufa bufb count) with (j := j) (k := k);
    try done.
  assert (at_ bufa k <> at_ bufb k) by (unfold at_, sizeof_ul in *; lia).
  cbn [keep stuck_bit_hw]. destruct Hp as [-> | ->].
  - rewrite Z.eqb_refl. destruct (Z.eqb_spec (at_ bufb k) (at_ bufa k)); [congruence |].
    by apply force_bit_detect.
  - rewrite Z.eqb_refl. destruct (Z.eqb_spec (at_ bufa k) (at_ bufb k)); [congruence |].
    intros E. symmetry in E. revert E. by apply force_bit_detect.
Qed.

Lemma ones_bit b : 0 <= b < 64 -> Z.testbit UL_ONEBITS b = true.
Proof. intros. change UL_ONEBITS with (Z.ones 64). apply Z.ones_spec_low. lia. Qed.

Lemma ul_not_bit x b : 0 <= b < 64 -> Z.testbit (ul_not x) b = negb (Z.testbit x b).
Proof.
  intros. unfold ul_not. rewrite testbit_wrap_u, Z.lnot_spec by lia.
  destruct (Z.ltb_spec b 64); [done | lia].
Qed.

Lemma checker_bit b :
  0 <= b < 64 -> Z.testbit CHECKERBOARD2 b = negb (Z.testbit CHECKERBOARD1 b).
Proof. intros. change CHECKERBOARD2 with (ul_not CHECKERBOARD1). by apply ul_not_bit. Qed.

(** The solid and checkerboard patterns take both values at every bit within
    the first two rounds. *)
Lemma solid_both k b v : 0 <= b < 64 ->
  exists j, 0 <= j < 2 /\ Z.testbit (solidbits_pat j k) b <> v.
Proof.
  intros Hb. unfold solidbits_pat.
  assert (E0 : Z.testbit (ul_not 0) b = true) by (by rewrite ul_not_bit, Z.bits_0).
  assert (E1 : Z.testbit (ul_not UL_ONEBITS) b = false) by (by rewrite ul_not_bit, ones_bit).
  pose proof (ones_bit b Hb). pose proof (Z.bits_0 b).
  destruct (even k), v; [exists 1 | exists 0 | exists 0 | exists 1];
    (split; [lia |]); change (even 1) with false; change (even 0) with true; cbn iota;
    congruence.
Qed.

Lemma checker_both k b v : 0 <= b < 64 ->
  exists j, 0 <= j < 2 /\ Z.testbit (checkerboard_pat j k) b <> v.
Proof.
  intros Hb. pose proof (checker_bit b Hb) as E. unfold checkerboard_pat.
  assert (D : Z.testbit CHECKERBOARD1 b <> v \/ Z.testbit CHECKERBOARD2 b <> v).
  { rewrite E. destruct (Z.testbit CHECKERBOARD1 b), v; auto. }
  destruct D as [D | D]; destruct (even k); [exists 0 | exists 1 | exists 1 | exists 0];
    (split; [lia |]); try exact D; rewrite ul_not_bit by done; revert D;
    change (even 1) with false; change (even 0) with true; cbn iota;
    rewrite ?E, ?negb_involutive; done.
Qed.

(** The solid-bits and the checkerboard test detect a bit stuck at either
    value in any word of either half. *)
Theorem stuck_bit_detected {R} (l u bufa bufb count k b : Z) (v second : bool)
    (m : gmap Z Z) (g : R) :
  0 <= count -> l <= bufa -> at_ bufa count <= bufb -> at_ bufb count <= u ->
  0 <= k < count -> 0 <= b < 64 ->
  let h := stuck_bit_hw l u (at_ (if second then bufb else bufa) k) b v in
  (exists m', test_solidbits_comparison h bufa bufb count (m, g) = Ret (-1, (m', g))) /\
  (exists m', test_checkerboard_comparison h bufa bufb count (m, g) = Ret (-1, (m', g))).
Proof.
  intros Hc Hl Hd Hu Hk Hb h.
  assert (Hp : at_ (if second then bufb else bufa) k = at_ bufa k \/
               at_ (if second then bufb else bufa) k = at_ bufb k) by (destruct second; auto).
  destruct (solid_both k b v Hb) as (j1 & ? & ?), (checker_both k b v Hb) as (j2 & ? & ?).
  split.
  - by apply (pattern_test_stuck 64 solidbits_pat) with (j := j1) (k := k); try lia.
  - by apply (pattern_test_stuck 64 checkerboard_pat) with (j := j2) (k := k); try lia.
Qed.

Lemma stuck_bit_detected_witness :
  let h := stuck_bit_hw 0 64 (at_ 32 1) 5 true in
  (exists m', test_solidbits_comparison h 0 32 4 (∅, tt) = Ret (-1, (m', tt))) /\
  (exists m', test_checkerboard_comparison h 0 32 4 (∅, tt) = Ret (-1, (m', tt))).
Proof. apply (stuck_bit_detected 0 64 0 32 4 1 5 true true); (done || vm_compute; done). Defined.

End Memtester.
