(* ===== verification/MersenneTwister.v ===== *)
(** * postmark/postmark-1_5.c: the MT19937 generator

    The generator appended to postmark: [sgenrand], [lsgenrand] and [genrand]
    over the static state vector [mt] and the index [mti].  [unsigned long] has
    64 bits, so every 32-bit bound is a theorem here and not a typing fact.
    The reference is the recurrence of the paper, [extend], whose words the
    in-place block update of [genrand] computes 624 at a time. *)
From S2P Require Import Prelude.

Module MersenneTwister.

Definition N : Z := 624.
Definition M : Z := 397.
Definition MATRIX_A : Z := 0x9908b0df.
Definition UPPER_MASK : Z := 0x80000000.
Definition LOWER_MASK : Z := 0x7fffffff.
Definition TEMPERING_MASK_B : Z := 0x9d2c5680.
Definition TEMPERING_MASK_C : Z := 0xefc60000.
Definition TEMPERING_SHIFT_U (y : Z) : Z := Z.shiftr y 11.
Definition TEMPERING_SHIFT_S (y : Z) : Z := u64 (Z.shiftl y 7).
Definition TEMPERING_SHIFT_T (y : Z) : Z := u64 (Z.shiftl y 15).
Definition TEMPERING_SHIFT_L (y : Z) : Z := Z.shiftr y 18.

(** The two statics. *)
Record state := mkState { mt : list Z; mti : Z }.

(** The state at program start: a zeroed vector, marked as not initialised. *)
Definition initial : state := mkState (replicate (Z.to_nat N) 0) (N + 1).

Definition seed_body (i : Z) (s : list Z * Z) : cres (list Z * Z) :=
  let '(mt, seed) := s in
  mt ← deref (aset mt i (Z.land seed 0xffff0000));
  let seed := u64 (69069 * seed + 1) in
  w ← deref (aget mt i);
  mt ← deref (aset mt i (Z.lor w (Z.shiftr (Z.land seed 0xffff0000) 16)));
  let seed := u64 (69069 * seed + 1) in
  Ret (mt, seed).

Definition sgenrand (seed : Z) (s : state) : cres state :=
  '(mt, _) ← for_c 0 N seed_body (mt s, seed);
  Ret (mkState mt N).

Definition lsgenrand (seed_array : list Z) (s : state) : cres state :=
  mt ← for_c 0 N (fun i mt => w ← deref (aget seed_array i); deref (aset mt i w)) (mt s);
  Ret (mkState mt N).

Definition mag01 : list Z := [0x0; MATRIX_A].

(** [y = (a&UPPER_MASK)|(b&LOWER_MASK); c ^ (y >> 1) ^ mag01[y & 0x1]] *)
Definition twist (a b c : Z) : cres Z :=
  let y := Z.lor (Z.land a UPPER_MASK) (Z.land b LOWER_MASK) in
  g ← deref (aget mag01 (Z.land y 0x1));
  Ret (Z.lxor (Z.lxor c (Z.shiftr y 1)) g).

(** [mt[k] = twist (mt[k], mt[k1], mt[km])] *)
Definition twist_at (k k1 km : Z) (mt : list Z) : cres (list Z) :=
  a ← deref (aget mt k);
  b ← deref (aget mt k1);
  c ← deref (aget mt km);
  w ← twist a b c;
  deref (aset mt k w).

Definition generate (mt : list Z) : cres (list Z) :=
  mt ← for_c 0 (N - M) (fun kk mt => twist_at kk (kk + 1) (kk + M) mt) mt;
  mt ← for_c (N - M) (N - 1) (fun kk mt => twist_at kk (kk + 1) (kk + (M - N)) mt) mt;
  twist_at (N - 1) 0 (M - 1) mt.

Definition temper (y : Z) : Z :=
  let y := Z.lxor y (TEMPERING_SHIFT_U y) in
  let y := Z.lxor y (Z.land (TEMPERING_SHIFT_S y) TEMPERING_MASK_B) in
  let y := Z.lxor y (Z.land (TEMPERING_SHIFT_T y) TEMPERING_MASK_C) in
  Z.lxor y (TEMPERING_SHIFT_L y).

Definition genrand (s : state) : cres (Z * state) :=
  s ← (if N <=? mti s then
         s ← (if mti s =? N + 1 then sgenrand 4357 s else Ret s);
         mt ← generate (mt s);
         Ret (mkState mt 0)
       else Ret s);
  y ← deref (aget (mt s) (mti s));
  Ret (temper y, mkState (mt s) (mti s + 1)).

(** [n] calls in a row and what they return. *)
Fixpoint genrands (n : nat) (s : state) : cres (list Z * state) :=
  match n with
  | O => Ret ([], s)
  | S n => '(y, s) ← genrand s; '(ys, s) ← genrands n s; Ret (y :: ys, s)
  end.

(** ** The reference: the linear recurrence over the whole history *)
Definition twist_ref (a b c : Z) : Z :=
  let y := Z.lor (Z.land a UPPER_MASK) (Z.land b LOWER_MASK) in
  Z.lxor (Z.lxor c (Z.shiftr y 1)) (if Z.odd y then MATRIX_A else 0).

(** The word that follows the history [l]. *)
Definition next_word (l : list Z) : Z :=
  let n := Z.of_nat (length l) in
  twist_ref (default 0 (aget l (n - N))) (default 0 (aget l (n - N + 1)))
            (default 0 (aget l (n - N + M))).

Fixpoint extend (n : nat) (l : list Z) : list Z :=
  match n with
  | O => l
  | S n => let l := extend n l in l ++ [next_word l]
  end.

(** The value of the tempered output that [untemper] undoes. *)
Definition undo_right (n y : Z) : Z :=
  Z.lxor y (Z.lxor (Z.shiftr y n) (Z.shiftr y (2 * n))).
Definition untemper (y : Z) : Z :=
  let y := Z.lxor y (Z.shiftr y 18) in
  let y := Z.lxor y (Z.land (Z.shiftl y 15) TEMPERING_MASK_C) in
  let s x := Z.land (Z.shiftl x 7) TEMPERING_MASK_B in
  let y := Z.lxor y (s (Z.lxor y (s (Z.lxor y (s (Z.lxor y (s y))))))) in
  undo_right 11 y.

(** ** The twist *)
Definition word_ok (z : Z) : Prop := 0 <= z < 2 ^ 32.

Lemma twist_is_ref a b c : twist a b c = Ret (twist_ref a b c).
Proof.
  unfold twist, twist_ref. set (y := Z.lor _ _).
  assert (E : Z.land y 0x1 = if Z.odd y then 1 else 0).
  { rewrite Zodd_mod. change 1 with (Z.ones 1) at 1. rewrite Z.land_ones by lia.
    change (2 ^ 1) with 2. destruct (Z.eqb_spec (y mod 2) 1); [done |]. zdiv. }
  rewrite E. by destruct (Z.odd y).
Qed.

Lemma twist_ref_ok a b c : word_ok c -> word_ok (twist_ref a b c).
Proof.
  intros Hc. unfold twist_ref. repeat apply lxor_range; try lia; [exact Hc | |].
  - apply shiftr_range; [lia |]. apply lor_range; [lia | |]; apply land_range; (lia || done).
  - destruct (Z.odd _); done.
Qed.

(** ** The recurrence *)
Lemma length_extend n l : Z.of_nat (length (extend n l)) = Z.of_nat (length l) + Z.of_nat n.
Proof. induction n; cbn [extend]; [lia |]. rewrite length_app. cbn [length]. lia. Qed.

Lemma aget_app_l {A} (l k : list A) i x : aget l i = Some x -> aget (l ++ k) i = Some x.
Proof.
  unfold aget. destruct (0 <=? i); [| done]. apply lookup_app_l_Some.
Qed.

Lemma aget_snoc {A} (l : list A) x : aget (l ++ [x]) (Z.of_nat (length l)) = Some x.
Proof.
  unfold aget. destruct (Z.leb_spec 0 (Z.of_nat (length l))); [| lia].
  by rewrite Nat2Z.id, list_lookup_middle.
Qed.

Lemma extend_prefix n n' l i x :
  (n <= n')%nat -> aget (extend n l) i = Some x -> aget (extend n' l) i = Some x.
Proof. induction 1; [done |]. intros H1. cbn [extend]. by apply aget_app_l, IHle. Qed.

(** The [k]-th word of the history that starts with [l]. *)
Definition word (l : list Z) (k : Z) : Z :=
  default 0 (aget (extend (Z.to_nat (k + 1 - N)) l) k).

Section Words.
Context (l : list Z).
Hypothesis Hl : Z.of_nat (length l) = N.

Lemma extend_word n k :
  0 <= k < N + Z.of_nat n -> aget (extend n l) k = Some (word l k).
Proof.
  intros Hk. unfold word.
  destruct (aget_Some (extend (Z.to_nat (k + 1 - N)) l) k) as [x E].
  { rewrite length_extend. lia. }
  rewrite E. cbn. apply (extend_prefix (Z.to_nat (k + 1 - N))); [lia | done].
Qed.

Lemma word_init k : 0 <= k < N -> aget l k = Some (word l k).
Proof. intros. apply (extend_word 0). lia. Qed.

Lemma word_rec k :
  0 <= k -> word l (k + N) = twist_ref (word l k) (word l (k + 1)) (word l (k + M)).
Proof.
  intros Hk. pose proof (extend_word (S (Z.to_nat k)) (k + N) ltac:(lia)) as E.
  cbn [extend] in E. set (h := extend (Z.to_nat k) l) in *.
  assert (Hh : Z.of_nat (length h) = k + N) by (unfold h; rewrite length_extend; lia).
  rewrite <- Hh, aget_snoc in E. rewrite <- Hh. injection E as <-. unfold next_word.
  rewrite Hh. replace (k + N - N) with k by lia.
  unfold h. rewrite !extend_word by (unfold M, N in *; lia). done.
Qed.

Lemma word_bound k :
  Forall word_ok l -> 0 <= k -> word_ok (word l k).
Proof.
  intros F. revert k. apply (Zlt_0_ind (fun k => word_ok (word l k))).
  intros k IH Hk. destruct (Z_lt_le_dec k N) as [L | G].
  - pose proof (word_init k ltac:(lia)) as E. unfold aget in E.
    destruct (0 <=? k); [| done]. rewrite Forall_lookup in F. eauto.
  - replace k with (k - N + N) by lia. rewrite word_rec by lia.
    apply twist_ref_ok, IH; unfold N, M in *; lia.
Qed.
End Words.

(** ** The block update computes the next 624 words of the recurrence *)
Section Generate.
Context (x : Z -> Z).
Hypothesis Hrec : forall k, 0 <= k -> x (k + N) = twist_ref (x k) (x (k + 1)) (x (k + M)).

(** After [k] steps the first [k] entries are one period ahead. *)
Definition ahead (base k : Z) (mt : list Z) : Prop :=
  Z.of_nat (length mt) = N /\
  forall i, 0 <= i < N -> aget mt i = Some (x (base + if i <? k then i + N else i)).

Lemma twist_at_spec base k k1 km mt :
  0 <= base -> 0 <= k < N -> k1 = (if k =? N - 1 then 0 else k + 1) ->
  km = (if k <? N - M then k + M else k + (M - N)) ->
  ahead base k mt ->
  exists mt', twist_at k k1 km mt = Ret mt' /\ ahead base (k + 1) mt'.
Proof.
  intros Hb Hk -> -> [Hlen H]. unfold twist_at.
  rewrite (H k Hk). cbn [deref]. rewrite bind_Ret, Z.ltb_irrefl.
  assert (E1 : aget mt (if k =? N - 1 then 0 else k + 1) = Some (x (base + k + 1))).
  { unfold N in *. destruct (Z.eqb_spec k (624 - 1)) as [-> |].
    - rewrite H by lia. do 2 f_equal. bcase; lia.
    - rewrite H by lia. do 2 f_equal. bcase; lia. }
  assert (E2 : aget mt (if k <? N - M then k + M else k + (M - N)) = Some (x (base + k + M))).
  { unfold N, M in *. destruct (Z.ltb_spec k (624 - 397)).
    - rewrite H by lia. do 2 f_equal. bcase; lia.
    - rewrite H by lia. do 2 f_equal. bcase; lia. }
  rewrite E1, E2. cbn [deref]. rewrite !bind_Ret, twist_is_ref, bind_Ret, <- Hrec by lia.
  rewrite aset_Some by lia. cbn [deref]. eexists. split; [reflexivity |].
  assert (Es := aset_Some mt k (x (base + k + N)) ltac:(lia)). split.
  { by rewrite (length_aset _ _ _ _ Es). }
  intros i Hi. destruct (Z.eq_dec i k) as [-> | Hne].
  - rewrite (aget_aset_eq _ _ _ _ Es). do 2 f_equal. bcase; lia.
  - rewrite (aget_aset_ne _ _ _ _ _ Es) by congruence. rewrite H by done.
    do 2 f_equal. bcase; lia.
Qed.

Lemma generate_spec base mt :
  0 <= base -> ahead base 0 mt -> exists mt', generate mt = Ret mt' /\ ahead base N mt'.
Proof.
  intros Hb H0. unfold generate.
  destruct (for_c_inv (ahead base) 0 (N - M)
    (fun kk mt => twist_at kk (kk + 1) (kk + M) mt) mt) as (m1 & -> & H1); [done | done | |].
  { intros k t Hk. apply twist_at_spec; unfold N, M in *; bcase; lia. }
  rewrite bind_Ret.
  destruct (for_c_inv (ahead base) (N - M) (N - 1)
    (fun kk mt => twist_at kk (kk + 1) (kk + (M - N)) mt) m1) as (m2 & -> & H2);
    [done | done | |].
  { intros k t Hk. apply twist_at_spec; unfold N, M in *; bcase; lia. }
  rewrite bind_Ret. apply (twist_at_spec base (N - 1)); done.
Qed.

(** [mti] points at the next word to hand out, number [N + m]. *)
Definition produced (m : Z) (s : state) : Prop :=
  exists base, 0 <= base /\ ahead base 0 (mt s) /\ 0 <= mti s <= N /\
    base + mti s = N + m.

Lemma genrand_spec m s :
  0 <= m -> produced m s ->
  exists s', genrand s = Ret (temper (x (N + m)), s') /\ produced (m + 1) s'.
Proof.
  intros Hm (base & Hb & Ha & Hi & E). unfold genrand.
  destruct (Z.leb_spec N (mti s)) as [L | L].
  - destruct (Z.eqb_spec (mti s) (N + 1)); [lia |]. rewrite bind_Ret.
    destruct (generate_spec base (mt s) Hb Ha) as (m1 & -> & Hlen & H1).
    rewrite !bind_Ret. cbn [mt mti]. rewrite H1 by (unfold N; lia). cbn [deref].
    rewrite bind_Ret. eexists. split.
    + do 4 f_equal. unfold N in *. bcase; lia.
    + exists (base + N). cbn [mt mti]. unfold ahead, N in *. repeat split; try lia.
      intros i Hi'. rewrite H1 by done. do 2 f_equal. bcase; lia.
  - rewrite bind_Ret. destruct Ha as [Hlen Ha]. rewrite Ha by lia. cbn [deref].
    rewrite bind_Ret. eexists. split.
    + do 4 f_equal. bcase; lia.
    + exists base. cbn [mt mti]. repeat split; try lia; done.
Qed.

Lemma genrands_spec n m s :
  0 <= m -> produced m s ->
  exists s', genrands n s
    = Ret ((fun i => temper (x (N + m + Z.of_nat i))) <$> seq 0 n, s') /\
    produced (m + Z.of_nat n) s'.
Proof.
  revert m s. induction n as [| n IH]; intros m s Hm Hp; cbn [genrands].
  - exists s. split; [done |]. by replace (m + Z.of_nat 0) with m by lia.
  - destruct (genrand_spec m s Hm Hp) as (s1 & -> & H1). rewrite bind_Ret.
    destruct (IH (m + 1) s1 ltac:(lia) H1) as (s2 & -> & H2). rewrite bind_Ret.
    exists s2. split.
    + cbn [seq fmap list_fmap]. do 3 f_equal; [do 2 f_equal; lia |].
      rewrite <- fmap_S_seq, <- list_fmap_compose. apply list_fmap_ext.
      intros i k _. cbn [compose]. f_equal. f_equal. lia.
    + by replace (m + Z.of_nat (S n)) with (m + 1 + Z.of_nat n) by lia.
Qed.
End Generate.

(** ** Seeding *)
Definition seeded (s : state) : Prop :=
  Z.of_nat (length (mt s)) = N /\ mti s = N /\ Forall word_ok (mt s).

Lemma land_word z : word_ok (Z.land z 0xffff0000).
Proof. apply land_range; (lia || done). Qed.

Lemma aset_ok (mt l : list Z) i w :
  aset mt i w = Some l -> word_ok w ->
  (forall j, 0 <= j < i -> exists z, aget mt j = Some z /\ word_ok z) ->
  forall j, 0 <= j < i + 1 -> exists z, aget l j = Some z /\ word_ok z.
Proof.
  intros E Hw Hp j Hj. destruct (Z.eq_dec j i) as [-> | Ne].
  - rewrite (aget_aset_eq _ _ _ _ E). eauto.
  - rewrite (aget_aset_ne _ _ _ _ _ E) by congruence. apply Hp. lia.
Qed.

Lemma Forall_aget (P : Z -> Prop) (l : list Z) :
  (forall j, 0 <= j < Z.of_nat (length l) -> exists z, aget l j = Some z /\ P z) -> Forall P l.
Proof.
  intros H. apply Forall_lookup. intros i z E.
  destruct (H (Z.of_nat i)) as (z' & E' & Hz); [apply lookup_lt_Some in E; lia |].
  unfold aget in E'. destruct (Z.leb_spec 0 (Z.of_nat i)); [| lia].
  rewrite Nat2Z.id in E'. congruence.
Qed.

Lemma sgenrand_seeded seed s :
  Z.of_nat (length (mt s)) = N -> exists s', sgenrand seed s = Ret s' /\ seeded s'.
Proof.
  intros Hl. unfold sgenrand.
  destruct (for_c_inv (fun i (t : list Z * Z) => Z.of_nat (length t.1) = N /\
    forall j, 0 <= j < i -> exists z, aget t.1 j = Some z /\ word_ok z)
    0 N seed_body (mt s, seed)) as ([l sd] & -> & Hlen & Hok).
  - done.
  - split; [done |]. intros j; lia.
  - intros i [l sd] Hi [Hlen Hok]. cbn [fst] in *. unfold seed_body.
    pose proof (aset_Some l i (Z.land sd 0xffff0000) ltac:(lia)) as E1.
    rewrite E1. cbn [deref]. rewrite bind_Ret, (aget_aset_eq _ _ _ _ E1).
    cbn [deref]. rewrite bind_Ret.
    set (l1 := <[_ := _]> l) in *. set (w := Z.lor _ _).
    assert (L1 : Z.of_nat (length l1) = N) by (by rewrite (length_aset _ _ _ _ E1)).
    pose proof (aset_Some l1 i w ltac:(lia)) as E2. rewrite E2. cbn [deref].
    rewrite bind_Ret. eexists. split; [reflexivity |]. cbn [fst]. split.
    + by rewrite (length_aset _ _ _ _ E2).
    + apply (aset_ok l1 _ _ _ E2).
      * apply lor_range; [lia | apply land_word |]. apply shiftr_range; [lia | apply land_word].
      * intros j Hj. rewrite (aget_aset_ne _ _ _ _ _ E1) by lia. by apply Hok.
  - rewrite bind_Ret. eexists. split; [reflexivity |]. split; [done |]. split; [done |].
    apply Forall_aget. cbn [mt fst] in *. rewrite Hlen. exact Hok.
Qed.

Lemma lsgenrand_copies a s :
  Z.of_nat (length (mt s)) = N -> N <= Z.of_nat (length a) ->
  exists l, lsgenrand a s = Ret (mkState l N) /\ Z.of_nat (length l) = N /\
    forall i, 0 <= i < N -> aget l i = aget a i.
Proof.
  intros Hl Ha. unfold lsgenrand.
  destruct (for_c_inv (fun i t => Z.of_nat (length t) = N /\
    forall j, 0 <= j < i -> aget t j = aget a j) 0 N
    (fun i mt => w ← deref (aget a i); deref (aset mt i w)) (mt s)) as (l & -> & Hlen & Hok).
  - done.
  - split; [done |]. intros j; lia.
  - intros i t Hi [Hlen Hok]. destruct (aget_Some a i ltac:(lia)) as [w E]. rewrite E.
    cbn [deref]. rewrite bind_Ret. pose proof (aset_Some t i w ltac:(lia)) as Es. rewrite Es.
    eexists. split; [reflexivity |]. split; [by rewrite (length_aset _ _ _ _ Es) |].
    intros j Hj. destruct (Z.eq_dec j i) as [-> | Ne].
    + by rewrite (aget_aset_eq _ _ _ _ Es).
    + rewrite (aget_aset_ne _ _ _ _ _ Es) by congruence. apply Hok. lia.
  - rewrite bind_Ret. eauto.
Qed.

Lemma seeded_produced s :
  seeded s -> produced (word (mt s)) 0 s.
Proof.
  intros (Hl & Hi & _). exists 0. unfold ahead. repeat split; try (unfold N in *; lia).
  intros i Hi'. rewrite (word_init _ Hl) by done. do 2 f_equal. bcase; lia.
Qed.

(** ** Tempering is a linear bijection of 32-bit words *)
Lemma linear_id w (f : Z -> Z) :
  (forall a b, f (Z.lxor a b) = Z.lxor (f a) (f b)) ->
  (forall i, (i < w)%nat -> f (2 ^ Z.of_nat i) = 2 ^ Z.of_nat i) ->
  forall y, 0 <= y < 2 ^ Z.of_nat w -> f y = y.
Proof.
  intros Hlin Hb. induction w as [| w IH]; intros y Hy.
  - assert (y = 0) as -> by (change (2 ^ Z.of_nat 0) with 1 in Hy; lia).
    specialize (Hlin 0 0). rewrite Z.lxor_0_l in Hlin.
    by rewrite Z.lxor_nilpotent in Hlin.
  - rewrite Nat2Z.inj_succ, Z.pow_succ_r in Hy by lia.
    destruct (Z_lt_le_dec y (2 ^ Z.of_nat w)) as [L | G].
    + apply IH; [intros i Hi; apply Hb; lia | lia].
    + assert (E : y = Z.lxor (y - 2 ^ Z.of_nat w) (2 ^ Z.of_nat w)).
      { rewrite <- Z.add_nocarry_lxor; [lia |].
        apply Z.bits_inj'; intros i ?. rewrite Z.land_spec, Z.bits_0.
        rewrite Z.pow2_bits_eqb by lia. destruct (Z.eqb_spec (Z.of_nat w) i) as [<- |];
          [| apply andb_false_r].
        rewrite (testbit_above (Z.of_nat w)); [done | lia | lia]. }
      rewrite E at 1. rewrite Hlin, IH, (Hb w), <- E; [done | lia | | lia].
      intros i Hi; apply Hb; lia.
Qed.

Lemma land_lxor_l a b c : Z.land (Z.lxor a b) c = Z.lxor (Z.land a c) (Z.land b c).
Proof. bits_ext i. by destruct (Z.testbit a i), (Z.testbit b i), (Z.testbit c i). Qed.

Lemma lxor_swap a b c d : Z.lxor (Z.lxor a b) (Z.lxor c d) = Z.lxor (Z.lxor a c) (Z.lxor b d).
Proof. bits_ext i. by destruct (Z.testbit a i), (Z.testbit b i), (Z.testbit c i), (Z.testbit d i). Qed.

Section Linear.
Context (f g : Z -> Z).
Definition linear (f : Z -> Z) : Prop := forall a b, f (Z.lxor a b) = Z.lxor (f a) (f b).
Lemma linear_lxor : linear f -> linear g -> linear (fun y => Z.lxor (f y) (g y)).
Proof. intros Hf Hg a b. rewrite Hf, Hg. apply lxor_swap. Qed.
Lemma linear_shiftr n : linear f -> linear (fun y => Z.shiftr (f y) n).
Proof. intros Hf a b. by rewrite Hf, Z.shiftr_lxor. Qed.
Lemma linear_shiftl n : linear f -> linear (fun y => Z.shiftl (f y) n).
Proof. intros Hf a b. by rewrite Hf, Z.shiftl_lxor. Qed.
Lemma linear_wrap w : 0 <= w -> linear f -> linear (fun y => wrap_u w (f y)).
Proof. intros Hw Hf a b. by rewrite Hf, wrap_u_lxor. Qed.
Lemma linear_land c : linear f -> linear (fun y => Z.land (f y) c).
Proof. intros Hf a b. by rewrite Hf, land_lxor_l. Qed.
Lemma linear_comp : linear f -> linear g -> linear (fun y => f (g y)).
Proof. intros Hf Hg a b. by rewrite Hg, Hf. Qed.
End Linear.
Lemma linear_self : linear (fun y => y).
Proof. done. Qed.

Ltac linear :=
  repeat first [ apply linear_self | apply linear_lxor | apply linear_shiftr
               | apply linear_shiftl | apply linear_land | apply linear_wrap; [lia |] ].

Lemma temper_linear : linear temper.
Proof.
  unfold temper, TEMPERING_SHIFT_U, TEMPERING_SHIFT_S, TEMPERING_SHIFT_T, TEMPERING_SHIFT_L.
  cbn zeta. linear.
Qed.

Lemma untemper_linear : linear untemper.
Proof. unfold untemper, undo_right. cbn zeta. linear. Qed.

Lemma untemper_temper y : word_ok y -> untemper (temper y) = y.
Proof.
  intros Hy. apply (linear_id 32 (fun y => untemper (temper y))); [| | exact Hy].
  - apply linear_comp; [apply untemper_linear | apply temper_linear].
  - intros i Hi. do 32 (destruct i as [| i]; [vm_compute; reflexivity |]). lia.
Qed.

Lemma temper_range y : word_ok y -> word_ok (temper y).
Proof.
  intros Hy. unfold temper, word_ok. cbn zeta.
  repeat apply lxor_range; try lia; try exact Hy; try (apply land_range; (lia || done));
    unfold TEMPERING_SHIFT_U, TEMPERING_SHIFT_L; apply shiftr_range; try lia; try exact Hy;
    repeat apply lxor_range; try lia; try exact Hy; try (apply land_range; (lia || done));
    unfold TEMPERING_SHIFT_U; apply shiftr_range; (lia || exact Hy).
Qed.

(** ** The interface to the rest of the program

    A generator that has been seeded keeps working: [genrand] returns a 32-bit
    word and a generator of the same kind. *)
Definition gen_ok (s : state) : Prop :=
  exists x m, (forall k, 0 <= k -> x (k + N) = twist_ref (x k) (x (k + 1)) (x (k + M))) /\
    (forall k, 0 <= k -> word_ok (x k)) /\ 0 <= m /\ produced x m s.

Lemma seeded_ok s : seeded s -> gen_ok s.
Proof.
  intros Hs. pose proof (seeded_produced s Hs). destruct Hs as (Hl & _ & Hok).
  exists (word (mt s)), 0. split; [by apply word_rec |]. split; [| done].
  intros k Hk. by apply word_bound.
Qed.

Lemma genrand_ok s :
  gen_ok s -> exists y s', genrand s = Ret (y, s') /\ word_ok y /\ gen_ok s'.
Proof.
  intros (x & m & Hrec & Hb & Hm & Hp).
  destruct (genrand_spec x Hrec m s Hm Hp) as (s' & -> & Hp').
  exists (temper (x (N + m))), s'. split; [done |].
  split; [apply temper_range, Hb; unfold N; lia |].
  exists x, (m + 1). split; [done |]. split; [done |]. split; [lia | done].
Qed.

(** ** Theorems *)

(** C29: from any seed, the first [n] calls of [genrand] return the tempered
    words of the MT19937 recurrence that starts from the seeded vector, and
    every one of them fits 32 bits although the code computes with 64. *)
Theorem genrand_stream (seed : Z) (s : state) (n : nat) :
  Z.of_nat (length (mt s)) = N ->
  exists s0 s' ys, sgenrand seed s = Ret s0 /\ genrands n s0 = Ret (ys, s') /\
    ys = (fun i => temper (word (mt s0) (N + Z.of_nat i))) <$> seq 0 n /\
    Forall (fun y => 0 <= y < 2 ^ 32) ys.
Proof.
  intros Hl. destruct (sgenrand_seeded seed s Hl) as (s0 & E0 & Hs).
  pose proof (seeded_produced s0 Hs) as Hp. destruct Hs as (Hlen & Hi & Hok).
  destruct (genrands_spec (word (mt s0)) (word_rec _ Hlen) n 0 s0 ltac:(lia) Hp)
    as (s' & E & _).
  eexists s0, s', _. split; [done |]. split; [exact E |]. split.
  - apply list_fmap_ext. intros i k _. do 2 f_equal; lia.
  - apply Forall_fmap, Forall_true. intros i. cbn [compose].
    apply temper_range, word_bound; [done | done | unfold N; lia].
Qed.

Lemma genrand_stream_witness :
  exists s0 s' ys, sgenrand 42 initial = Ret s0 /\ genrands 700 s0 = Ret (ys, s') /\
    ys = (fun i => temper (word (mt s0) (N + Z.of_nat i))) <$> seq 0 700 /\
    Forall (fun y => 0 <= y < 2 ^ 32) ys.
Proof. apply (genrand_stream 42 initial 700). reflexivity. Defined.

(** An uninitialised generator behaves as one seeded with 4357, so a
    program that forgets [sgenrand] still gets a full stream. *)
Theorem unseeded_is_4357 (s : state) (n : nat) :
  Z.of_nat (length (mt s)) = N -> mti s = N + 1 ->
  exists s0, sgenrand 4357 s = Ret s0 /\ genrands (S n) s = genrands (S n) s0.
Proof.
  intros Hl Hi. destruct (sgenrand_seeded 4357 s Hl) as (s0 & E & _ & Hi0 & _).
  exists s0. split; [done |]. cbn [genrands].
  assert (Eg : genrand s = genrand s0); [| by rewrite Eg].
  unfold genrand. rewrite Hi, Hi0, E. unfold N. reflexivity.
Qed.

Lemma unseeded_is_4357_witness :
  exists s0, sgenrand 4357 initial = Ret s0 /\ genrands 3 initial = genrands 3 s0.
Proof. apply (unseeded_is_4357 initial 2); reflexivity. Defined.

(** 624 consecutive outputs determine the generator: undoing the tempering
    and loading the words with [lsgenrand] gives a generator that continues
    with exactly the outputs the original goes on to produce. *)
Theorem lsgenrand_resumes (seed : Z) (s t : state) (n : nat) :
  Z.of_nat (length (mt s)) = N -> Z.of_nat (length (mt t)) = N ->
  exists s0 s1 s2 ys zs t0 t1,
    sgenrand seed s = Ret s0 /\
    genrands (Z.to_nat N) s0 = Ret (ys, s1) /\ genrands n s1 = Ret (zs, s2) /\
    lsgenrand (untemper <$> ys) t = Ret t0 /\ genrands n t0 = Ret (zs, t1).
Proof.
  intros Hl Ht. destruct (sgenrand_seeded seed s Hl) as (s0 & E0 & Hs).
  pose proof (seeded_produced s0 Hs) as Hp. destruct Hs as (Hlen & Hi & Hok).
  set (x := word (mt s0)) in *.
  pose proof (word_rec _ Hlen : forall k, 0 <= k -> x (k + N) = _) as Hrec.
  destruct (genrands_spec x Hrec (Z.to_nat N) 0 s0 ltac:(lia) Hp) as (s1 & E1 & Hp1).
  destruct (genrands_spec x Hrec n (0 + Z.of_nat (Z.to_nat N)) s1 ltac:(lia) Hp1) as (s2 & E2 & _).
  set (ys := _ <$> seq 0 (Z.to_nat N)) in E1.
  destruct (lsgenrand_copies (untemper <$> ys) t Ht) as (l & E3 & Hll & Hcp).
  { unfold ys. rewrite !length_fmap, length_seq. done. }
  assert (Hw : produced (fun k => x (k + N)) 0 (mkState l N)).
  { exists 0. unfold ahead. cbn [mt mti]. repeat split; try (unfold N in *; lia).
    intros i Hi'. rewrite Hcp by done. unfold aget. destruct (Z.leb_spec 0 i); [| lia].
    unfold ys. rewrite !list_lookup_fmap, lookup_seq_lt by lia. cbn [fmap option_fmap option_map].
    f_equal. rewrite untemper_temper.
    - f_equal. bcase; lia.
    - apply word_bound; [done | done | unfold N; lia]. }
  destruct (genrands_spec (fun k => x (k + N))) with (n := n) (m := 0) (s := mkState l N)
    as (t1 & E4 & _); [| lia | done |].
  { intros k Hk. rewrite Hrec by lia. cbv beta. f_equal; f_equal; lia. }
  eexists s0, s1, s2, ys, _, (mkState l N), t1. split; [done |]. split; [done |].
  split; [exact E2 |]. split; [exact E3 |]. rewrite E4. do 2 f_equal.
  apply list_fmap_ext. intros i k _. do 2 f_equal; unfold N; lia.
Qed.

Lemma lsgenrand_resumes_witness :
  exists s0 s1 s2 ys zs t0 t1,
    sgenrand 7 initial = Ret s0 /\
    genrands (Z.to_nat N) s0 = Ret (ys, s1) /\ genrands 10 s1 = Ret (zs, s2) /\
    lsgenrand (untemper <$> ys) initial = Ret t0 /\ genrands 10 t0 = Ret (zs, t1).
Proof. apply (lsgenrand_resumes 7 initial initial 10); reflexivity. Defined.

End MersenneTwister.
