(* ===== verification/Postmark.v ===== *)
(** * postmark/postmark-1_5.c: the file table and a benchmark run

    The work of one [run] command: the table of files in use, the block-wise
    writes and reads, the creation, deletion, reading and appending of files,
    the transaction loop and [cli_run].

    The operating system's calls are the operations of an environment [env]
    over a world [W]: any of them may fail in any way.  The configuration is a
    [config], the globals that a run changes are the [run] record; the counters
    [bytes_written] and [bytes_read] are single-precision floats.  Every access
    to [file_source], [read_buffer], [file_table], [location_index] and to a
    name buffer is checked: outside the object it is [Undef].  [find_used_file]
    draws until it hits a file, so it takes fuel.  The allocations succeed, and
    what the run prints is left out. *)
From Stdlib Require Import Ascii Floats.SpecFloat.
From stdpp Require Import pretty.
From S2P Require Import Prelude MersenneTwister.

Module Postmark.

(** ** Single-precision counters *)
Definition float_of_int (z : Z) : spec_float := binary_normalize 24 128 z 0 false.
Definition float_add (a b : spec_float) : spec_float := SFadd 24 128 a b.

(** ** Data *)
Definition MAX_FILENAME : Z := 80.
Definition SEPARATOR : string := "/".

Record config := mkConfig {
  file_size_low : Z;
  file_size_high : Z;
  simultaneous : Z;
  seed : Z;
  transactions : Z;
  subdirectories : Z;
  read_block_size : Z;
  write_block_size : Z;
  bias_read : Z;
  bias_create : Z;
  buffered_io : bool;
  report : Z
}.

Definition default_config : config :=
  mkConfig 500 10000 500 42 500 0 512 512 5 5 true 0.

(** The globals that [set location] maintains, as a run sees them: the names
    and weights of the list from its head, their number and their sum. *)
Record locations := mkLocations {
  file_systems : list (string * Z);
  file_system_count : Z;
  file_system_weight : Z
}.

Record file_entry := mkFile { name : string; size : Z }.

(** The calls a run makes, in a world [W] with file handles [H]. *)
Inductive open_mode := ForWrite | ForRead | ForAppend.
Record env (W H : Type) := mkEnv {
  env_open : bool -> open_mode -> string -> W -> option H * W;
  env_write : H -> list Z -> W -> W;
  env_read : H -> Z -> W -> W;
  env_close : H -> W -> W;
  env_remove : string -> W -> bool * W;  (* [true]: removed *)
  env_mkdir : string -> W -> W;
  env_rmdir : string -> W -> W
}.
Arguments env_open {W H}. Arguments env_write {W H}. Arguments env_read {W H}.
Arguments env_close {W H}. Arguments env_remove {W H}. Arguments env_mkdir {W H}.
Arguments env_rmdir {W H}.

(** The globals a run changes. *)
Record run (W : Type) := mkRun {
  files_created : Z;
  files_deleted : Z;
  files_read : Z;
  files_appended : Z;
  bytes_written : spec_float;
  bytes_read : spec_float;
  file_source : list Z;
  file_table : list file_entry;
  file_allocated : Z;
  location_index : list string;
  gen : MersenneTwister.state;
  world : W
}.
Arguments mkRun {W}.
Arguments files_created {W}. Arguments files_deleted {W}. Arguments files_read {W}.
Arguments files_appended {W}. Arguments bytes_written {W}. Arguments bytes_read {W}.
Arguments file_source {W}. Arguments file_table {W}. Arguments file_allocated {W}.
Arguments location_index {W}. Arguments gen {W}. Arguments world {W}.

(** Assignments to the globals. *)
Section Setters.
Context {W : Type}.
Definition set_created (v : Z) (s : run W) : run W :=
  mkRun v (files_deleted s) (files_read s) (files_appended s) (bytes_written s) (bytes_read s)
    (file_source s) (file_table s) (file_allocated s) (location_index s) (gen s) (world s).
Definition set_deleted (v : Z) (s : run W) : run W :=
  mkRun (files_created s) v (files_read s) (files_appended s) (bytes_written s) (bytes_read s)
    (file_source s) (file_table s) (file_allocated s) (location_index s) (gen s) (world s).
Definition set_read (v : Z) (s : run W) : run W :=
  mkRun (files_created s) (files_deleted s) v (files_appended s) (bytes_written s) (bytes_read s)
    (file_source s) (file_table s) (file_allocated s) (location_index s) (gen s) (world s).
Definition set_appended (v : Z) (s : run W) : run W :=
  mkRun (files_created s) (files_deleted s) (files_read s) v (bytes_written s) (bytes_read s)
    (file_source s) (file_table s) (file_allocated s) (location_index s) (gen s) (world s).
Definition set_bytes_written (v : spec_float) (s : run W) : run W :=
  mkRun (files_created s) (files_deleted s) (files_read s) (files_appended s) v (bytes_read s)
    (file_source s) (file_table s) (file_allocated s) (location_index s) (gen s) (world s).
Definition set_bytes_read (v : spec_float) (s : run W) : run W :=
  mkRun (files_created s) (files_deleted s) (files_read s) (files_appended s) (bytes_written s) v
    (file_source s) (file_table s) (file_allocated s) (location_index s) (gen s) (world s).
Definition set_source (v : list Z) (s : run W) : run W :=
  mkRun (files_created s) (files_deleted s) (files_read s) (files_appended s) (bytes_written s)
    (bytes_read s) v (file_table s) (file_allocated s) (location_index s) (gen s) (world s).
Definition set_table (v : list file_entry) (s : run W) : run W :=
  mkRun (files_created s) (files_deleted s) (files_read s) (files_appended s) (bytes_written s)
    (bytes_read s) (file_source s) v (file_allocated s) (location_index s) (gen s) (world s).
Definition set_allocated (v : Z) (s : run W) : run W :=
  mkRun (files_created s) (files_deleted s) (files_read s) (files_appended s) (bytes_written s)
    (bytes_read s) (file_source s) (file_table s) v (location_index s) (gen s) (world s).
Definition set_index (v : list string) (s : run W) : run W :=
  mkRun (files_created s) (files_deleted s) (files_read s) (files_appended s) (bytes_written s)
    (bytes_read s) (file_source s) (file_table s) (file_allocated s) v (gen s) (world s).
Definition set_gen (v : MersenneTwister.state) (s : run W) : run W :=
  mkRun (files_created s) (files_deleted s) (files_read s) (files_appended s) (bytes_written s)
    (bytes_read s) (file_source s) (file_table s) (file_allocated s) (location_index s) v (world s).
Definition set_world (v : W) (s : run W) : run W :=
  mkRun (files_created s) (files_deleted s) (files_read s) (files_appended s) (bytes_written s)
    (bytes_read s) (file_source s) (file_table s) (file_allocated s) (location_index s) (gen s) v.
End Setters.

Section Run.
Context {W H : Type} (E : env W H) (cfg : config) (locs : locations).
Abbreviation st := (run W).

(** [RND(x)] *)
Definition RND (x : Z) (s : st) : cres (Z * st) :=
  if x >? 0 then '(y, g) ← MersenneTwister.genrand (gen s); Ret (y mod x, set_gen g s)
  else Ret (0, s).

(** [file_table[number]] and the assignment of its two fields. *)
Definition entry (number : Z) (s : st) : cres file_entry := deref (aget (file_table s) number).
Definition set_entry (number : Z) (e : file_entry) (s : st) : cres st :=
  t ← deref (aset (file_table s) number e); Ret (set_table t s).
Definition set_name (number : Z) (n : string) (s : st) : cres st :=
  e ← entry number s; set_entry number (mkFile n (size e)) s.
Definition set_size (number : Z) (z : Z) (s : st) : cres st :=
  e ← entry number s; set_entry number (mkFile (name e) z) s.

(** The bytes of the source buffer at [offset]. *)
Definition source_slice (offset len : Z) (s : st) : cres (list Z) :=
  if (0 <=? offset) && (0 <=? len) && (offset + len <=? Z.of_nat (length (file_source s)))
  then Ret (take (Z.to_nat len) (drop (Z.to_nat offset) (file_source s)))
  else Undef.

Fixpoint fill_source (n : nat) (s : st) : cres (list Z * st) :=
  match n with
  | O => Ret ([], s)
  | S n =>
      '(r, s) ← RND 95 s;
      '(l, s) ← fill_source n s;
      Ret (32 + r :: l, s)
  end.
Definition initialize_file_source (size : Z) (s : st) : cres (list Z * st) :=
  fill_source (Z.to_nat size) s.

(** *** find_free_file *)
Fixpoint find_hole (n : nat) (i : Z) (s : st) : cres (Z * st) :=
  match n with
  | O => Ret (-1, s)
  | S n =>
      e ← entry i s;
      if size e =? 0 then Ret (i, set_allocated (i + 1) s) else find_hole n (i + 1) s
  end.

Definition find_free_file (s : st) : cres (Z * st) :=
  let table_size := 2 * simultaneous cfg in
  let fa := file_allocated s in
  is_free ← (if fa <? table_size then e ← entry fa s; Ret (size e =? 0) else Ret false);
  if (is_free : bool) then Ret (fa, set_allocated (fa + 1) s)
  else find_hole (Z.to_nat table_size) 0 s.

(** *** write_blocks and fwrite_blocks: the even blocks, then the remainder *)
Fixpoint write_even (fuel : nat) (fd : H) (i offset : Z) (s : st) : cres (Z * Z * st) :=
  match fuel with
  | O => NoFuel
  | S fuel =>
      if write_block_size cfg <=? i then
        b ← source_slice offset (write_block_size cfg) s;
        write_even fuel fd (i - write_block_size cfg) (offset + write_block_size cfg)
          (set_world (env_write E fd b (world s)) s)
      else Ret (i, offset, s)
  end.

Definition write_blocks (fd : H) (size : Z) (s : st) : cres st :=
  '(i, offset, s) ← write_even (S (Z.to_nat size)) fd size 0 s;
  b ← source_slice offset i s;
  let s := set_world (env_write E fd b (world s)) s in
  Ret (set_bytes_written (float_add (bytes_written s) (float_of_int size)) s).

(** [create_file_name]: the name must fit the entry's buffer. *)
Definition create_file_name (s : st) : cres (string * st) :=
  '(dest, s) ←
    (if file_system_count locs =? 0 then Ret (""%string, s)
     else
       '(k, s) ← (if file_system_count locs =? 1 then Ret (0, s)
                  else RND (file_system_weight locs) s);
       loc ← deref (aget (location_index s) k);
       Ret (String.append loc SEPARATOR, s));
  '(dest, s) ←
    (if subdirectories cfg >? 1 then
       '(k, s) ← RND (subdirectories cfg) s;
       Ret (String.append dest (String.append "s" (String.append (pretty k) SEPARATOR)), s)
     else Ret (dest, s));
  let s := set_created (files_created s + 1) s in
  let dest := String.append dest (pretty (files_created s)) in
  if Z.of_nat (String.length dest) <=? MAX_FILENAME then Ret (dest, s) else Undef.

Definition create_file (buffered : bool) (s : st) : cres st :=
  '(free_file, s) ← find_free_file s;
  if free_file =? -1 then Ret s
  else
    '(n, s) ← create_file_name s;
    s ← set_name free_file n s;
    '(r, s) ← RND (file_size_high cfg - file_size_low cfg) s;
    s ← set_size free_file (file_size_low cfg + r) s;
    e ← entry free_file s;
    let '(fd, w) := env_open E buffered ForWrite (name e) (world s) in
    let s := set_world w s in
    match fd with
    | Some fd =>
        e ← entry free_file s;
        s ← write_blocks fd (size e) s;
        Ret (set_world (env_close E fd (world s)) s)
    | None => Ret s
    end.

Definition delete_file (number : Z) (s : st) : cres st :=
  e ← entry number s;
  if size e =? 0 then Ret s
  else
    let '(removed, w) := env_remove E (name e) (world s) in
    let s := set_world w s in
    if removed then
      s ← set_size number 0 s;
      Ret (set_deleted (files_deleted s + 1) s)
    else Ret s.

(** The reads of [read_file], into a buffer of [read_block_size] bytes. *)
Fixpoint read_even (fuel : nat) (fd : H) (i : Z) (s : st) : cres (Z * st) :=
  match fuel with
  | O => NoFuel
  | S fuel =>
      if read_block_size cfg <=? i then
        read_even fuel fd (i - read_block_size cfg)
          (set_world (env_read E fd (read_block_size cfg) (world s)) s)
      else Ret (i, s)
  end.

Definition read_file (number : Z) (buffered : bool) (s : st) : cres st :=
  e ← entry number s;
  let '(fd, w) := env_open E buffered ForRead (name e) (world s) in
  let s := set_world w s in
  match fd with
  | Some fd =>
      '(i, s) ← read_even (S (Z.to_nat (size e))) fd (size e) s;
      s ← (if (0 <=? i) && (i <=? read_block_size cfg)
           then Ret (set_world (env_read E fd i (world s)) s) else Undef);
      let s := set_world (env_close E fd (world s)) s in
      let s := set_bytes_read (float_add (bytes_read s) (float_of_int (size e))) s in
      Ret (set_read (files_read s + 1) s)
  | None => Ret s
  end.

Definition append_file (number : Z) (buffered : bool) (s : st) : cres st :=
  e ← entry number s;
  if size e <? file_size_high cfg then
    let '(fd, w) := env_open E buffered ForAppend (name e) (world s) in
    let s := set_world w s in
    match fd with
    | Some fd =>
        '(r, s) ← RND (file_size_high cfg - size e) s;
        let block := r + 1 in
        s ← write_blocks fd block s;
        let s := set_world (env_close E fd (world s)) s in
        s ← set_size number (size e + block) s;
        Ret (set_appended (files_appended s + 1) s)
    | None => Ret s
    end
  else Ret s.

Fixpoint find_used_file (fuel : nat) (s : st) : cres (Z * st) :=
  match fuel with
  | O => NoFuel
  | S fuel =>
      '(used_file, s) ← RND (2 * simultaneous cfg) s;
      e ← entry used_file s;
      if size e =? 0 then find_used_file fuel s else Ret (used_file, s)
  end.

Definition reset_counters (s : st) : st :=
  set_bytes_read (S754_zero false) (set_bytes_written (S754_zero false)
    (set_appended 0 (set_read 0 (set_deleted 0 (set_created 0 s))))).

(** One transaction: a read or an append, then a creation or a deletion. *)
Definition transaction_work (fuel : nat) (buffered : bool) (s : st) : cres st :=
  s ← (if bias_read cfg =? -1 then Ret s
       else
         '(r, s) ← RND 10 s;
         if r <? bias_read cfg then
           '(n, s) ← find_used_file fuel s; read_file n buffered s
         else '(n, s) ← find_used_file fuel s; append_file n buffered s);
  if bias_create cfg =? -1 then Ret s
  else
    '(r, s) ← RND 10 s;
    if r <? bias_create cfg then create_file buffered s
    else '(n, s) ← find_used_file fuel s; delete_file n s.

(** One iteration of the transaction loop after its exit test; [i % percent]
    divides by zero when there are fewer than ten transactions. *)
Definition transaction (fuel : nat) (buffered : bool) (i : Z) (s : st) : cres st :=
  s ← transaction_work fuel buffered s;
  let percent := transactions cfg / 10 in
  if percent =? 0 then Undef else Ret s.

(** [n] transactions are left; the result is how many were not run. *)
Fixpoint run_transactions (n : nat) (fuel : nat) (buffered : bool) (i : Z) (s : st)
    : cres (Z * st) :=
  match n with
  | O => Ret (0, s)
  | S n =>
      if files_created s =? files_deleted s then Ret (transactions cfg - i, s)
      else s ← transaction fuel buffered i s; run_transactions n fuel buffered (i + 1) s
  end.

Definition build_location_index : list string :=
  concat ((fun l => replicate (Z.to_nat (snd l)) (fst l)) <$> file_systems locs).

(** [create_subdirectories] and [delete_subdirectories]: the directory [i] of
    a base directory, and the two loops. *)
Definition subdirectory (base : option string) (i : Z) : string :=
  String.append (match base with Some b => String.append b SEPARATOR | None => "" end)
    (String.append "s" (pretty i)).
Definition each_subdirectory (f : string -> W -> W) (s : st) : st :=
  let bases := match file_systems locs with
               | [] => [None]
               | l => (fun x => Some (fst x)) <$> l
               end in
  fold_left (fun s base =>
    for_pure 0 (subdirectories cfg)
      (fun i s => set_world (f (subdirectory base i) (world s)) s) s) bases s.

(** [for (i = 0; i < n; i++) op (i)] *)
Definition each (n : Z) (op : Z -> st -> cres st) (s : st) : cres st := for_c 0 n op s.

(** [cli_run] without its printing, in two parts: everything up to the first
    transaction, then the transactions and the deletions.  The result tells
    how many transactions were left when the files ran out. *)
Definition cli_setup (s : st) : cres st :=
  let s := reset_counters s in
  g ← MersenneTwister.sgenrand (seed cfg) (gen s);
  let s := set_gen g s in
  '(src, s) ← initialize_file_source (2 * file_size_high cfg) s;
  let s := set_source src s in
  let s := set_allocated 0 s in
  let s := set_table (replicate (Z.to_nat (2 * simultaneous cfg)) (mkFile "" 0)) s in
  let s := if file_system_count locs >? 0 then set_index build_location_index s else s in
  let s := if subdirectories cfg >? 1 then each_subdirectory (env_mkdir E) s else s in
  each (simultaneous cfg) (fun _ => create_file (buffered_io cfg)) s.

Definition cli_run (fuel : nat) (s : st) : cres (Z * st) :=
  s ← cli_setup s;
  '(incomplete, s) ← run_transactions (Z.to_nat (transactions cfg)) fuel (buffered_io cfg) 0 s;
  s ← each (2 * simultaneous cfg) delete_file s;
  let s := if subdirectories cfg >? 1 then each_subdirectory (env_rmdir E) s else s in
  Ret (incomplete, set_index [] s).
End Run.

(** ** An in-memory file system

    Names to contents; every call succeeds on a file that is there. *)
Definition mem_fs : env (gmap string (list Z)) string :=
  {| env_open := fun _ mode n w =>
       match mode with
       | ForWrite => (Some n, <[n := []]> w)
       | ForRead | ForAppend => match w !! n with Some _ => (Some n, w) | None => (None, w) end
       end;
     env_write := fun n b w =>
       match w !! n with Some c => <[n := c ++ b]> w | None => w end;
     env_read := fun _ _ w => w;
     env_close := fun _ w => w;
     env_remove := fun n w =>
       match w !! n with Some _ => (true, delete n w) | None => (false, w) end;
     env_mkdir := fun _ w => w;
     env_rmdir := fun _ w => w |}.

(** The globals at program start. *)
Definition initial_run {W} (w : W) : run W :=
  mkRun 0 0 0 0 (S754_zero false) (S754_zero false) [] [] 0 [] MersenneTwister.initial w.

(** ** The file an entry names *)

(** [n] ends in the decimal number [c], after nothing or a separator. *)
Definition numbered (n : string) (c : Z) : Prop :=
  exists p, n = String.append p (pretty c) /\
    (p = ""%string \/ exists q, p = String.append q SEPARATOR).

(** The used entries of the table are the files [m], name to size. *)
Definition table_map (t : list file_entry) (m : gmap string Z) : Prop :=
  forall n z, m !! n = Some z <->
    exists i e, t !! i = Some e /\ name e = n /\ size e = z /\ z <> 0.

Definition distinct (t : list file_entry) : Prop :=
  forall i j e f, t !! i = Some e -> t !! j = Some f -> size e <> 0 -> size f <> 0 ->
    name e = name f -> i = j.

Definition used_one (e : file_entry) : Z := if size e =? 0 then 0 else 1.
Definition used (t : list file_entry) : Z := foldr (fun e n => used_one e + n) 0 t.

Lemma used_cons e t : used (e :: t) = used_one e + used t.
Proof. done. Qed.

Lemma used_insert t i e e' :
  t !! i = Some e -> used (<[i := e']> t) = used t - used_one e + used_one e'.
Proof.
  revert i. induction t as [| f t IH]; intros [| i] E; try done.
  - injection E as ->. change (<[0%nat:=e']> (e :: t)) with (e' :: t). rewrite !used_cons. lia.
  - change (<[S i:=e']> (f :: t)) with (f :: <[i:=e']> t). rewrite !used_cons, (IH i E). lia.
Qed.

Lemma used_nonneg t : 0 <= used t.
Proof. induction t as [| e t IH]; [done |]. rewrite used_cons. unfold used_one. bcase; lia. Qed.

Lemma used_pos t : 0 < used t <-> exists i e, t !! i = Some e /\ size e <> 0.
Proof.
  induction t as [| e t IH].
  - split; [cbn; lia |]. intros (i & e & E & _). destruct i; done.
  - pose proof (used_nonneg t). rewrite used_cons. unfold used_one. destruct (Z.eqb_spec (size e) 0) as [Z | N].
    + split.
      * intros H1. destruct IH as [IH _]. destruct (IH ltac:(lia)) as (i & f & ? & ?).
        exists (S i), f. done.
      * intros ([| i] & f & Ef & Hf); cbn in Ef; [congruence |].
        assert (0 < used t); [apply IH; eauto | lia].
    + split; [intros _; exists 0%nat, e; done | lia].
Qed.

Lemma used_replicate n s : used (replicate n (mkFile s 0)) = 0.
Proof. induction n as [| n IH]; [done |]. cbn [replicate]. by rewrite used_cons, IH. Qed.

(** *** Decimal numbers in names *)
Lemma pretty_go_len k x s :
  (x < 10 ^ N.of_nat k)%N -> (String.length (pretty_N_go x s) <= k + String.length s)%nat.
Proof.
  revert x s. induction k as [| k IH]; intros x s Hx.
  - assert (x = 0%N) as -> by (change (10 ^ N.of_nat 0)%N with 1%N in Hx; lia).
    by rewrite pretty_N_go_0.
  - destruct (N.eq_dec x 0%N) as [-> |]; [rewrite pretty_N_go_0; lia |].
    rewrite pretty_N_go_step by lia.
    rewrite Nat2N.inj_succ, N.pow_succ_r in Hx by lia.
    specialize (IH (x `div` 10)%N (String (pretty_N_char (x `mod` 10)%N) s)).
    cbn [String.length] in IH. etrans; [apply IH | lia].
    apply N.Div0.div_lt_upper_bound. lia.
Qed.

Lemma pretty_len (c : Z) : 0 <= c <= INT_MAX -> (String.length (pretty c) <= 10)%nat.
Proof.
  intros Hc. destruct c as [| c | c]; [cbn; lia | | lia].
  unfold pretty, pretty_Z, pretty, pretty_positive, pretty, pretty_N.
  destruct (decide (N.pos c = 0)%N); [done |].
  etrans; [apply (pretty_go_len 10) | cbn; lia].
  unfold INT_MAX in Hc. change (10 ^ N.of_nat 10)%N with 10000000000%N. lia.
Qed.

Definition no_sep (s : string) : Prop := Forall (fun a => a <> "/"%char) (String.list_ascii_of_string s).

Lemma pretty_char_sep x : pretty_N_char x <> "/"%char.
Proof. unfold pretty_N_char. by repeat case_match. Qed.

Lemma pretty_go_sep x s : no_sep s -> no_sep (pretty_N_go x s).
Proof.
  revert s. induction (N.lt_wf_0 x) as [x _ IH]; intros s Hs.
  destruct (N.eq_dec x 0%N) as [-> |]; [by rewrite pretty_N_go_0 |].
  rewrite pretty_N_go_step by lia. apply IH; [apply N.div_lt; lia |].
  unfold no_sep. cbn. constructor; [apply pretty_char_sep | exact Hs].
Qed.

Lemma pretty_sep (c : Z) : no_sep (pretty c).
Proof.
  assert (HN : forall n : N, no_sep (pretty n)).
  { intros n. unfold pretty, pretty_N. destruct (decide _).
    - unfold no_sep. cbn. by repeat constructor.
    - apply pretty_go_sep. constructor. }
  destruct c as [| c | c]; [| apply (HN (N.pos c)) |].
  - unfold no_sep. cbn. by repeat constructor.
  - specialize (HN (N.pos c)). unfold no_sep in *. unfold pretty, pretty_Z. cbn.
    constructor; [done | exact HN].
Qed.

Abbreviation chars := String.list_ascii_of_string.

Lemma chars_app a b : chars (String.append a b) = chars a ++ chars b.
Proof. 
  induction a as [| x a IH]; [done |].
  change (x :: chars (String.append a b) = x :: chars a ++ chars b). by rewrite IH.
Qed.

Lemma chars_inj a b : chars a = chars b -> a = b.
Proof.
  intros E. rewrite <- (String.string_of_list_ascii_of_string a), E.
  apply String.string_of_list_ascii_of_string.
Qed.

(** The part after the last separator is determined by the name. *)
Lemma suffix_unique (x y u v : list Ascii.ascii) :
  Forall (fun a => a <> "/"%char) u -> Forall (fun a => a <> "/"%char) v ->
  x ++ ["/"%char] ++ u = y ++ ["/"%char] ++ v -> u = v.
Proof.
  revert y. induction x as [| a x IH]; intros [| b y] Hu Hv E; cbn in E.
  - by injection E.
  - injection E as <- E. subst u. apply Forall_app in Hu as [_ Hu]. by inversion Hu.
  - injection E as -> E. subst v. apply Forall_app in Hv as [_ Hv]. by inversion Hv.
  - injection E as _ E. by apply (IH y).
Qed.

Lemma suffix_none (x u v : list Ascii.ascii) :
  Forall (fun a => a <> "/"%char) u -> u <> x ++ ["/"%char] ++ v.
Proof. intros Hu ->. apply Forall_app in Hu as [_ Hu]. by inversion Hu. Qed.

Lemma numbered_inj n c d : numbered n c -> numbered n d -> c = d.
Proof.
  intros (p & -> & Hp) (q & E & Hq). apply (f_equal chars) in E. rewrite !chars_app in E.
  assert (Ecd : chars (pretty c) = chars (pretty d)).
  { pose proof (pretty_sep c) as Sc. pose proof (pretty_sep d) as Sd. unfold no_sep in *.
    destruct Hp as [-> | [p' ->]], Hq as [-> | [q' ->]];
      rewrite ?chars_app in E; unfold SEPARATOR in E; cbn [chars app] in E.
    - exact E.
    - rewrite <- !app_assoc in E. by apply suffix_none in E.
    - rewrite <- !app_assoc in E. symmetry in E. by apply suffix_none in E.
    - rewrite <- !app_assoc in E. by apply suffix_unique in E. }
  apply chars_inj in Ecd. by apply (inj pretty) in Ecd.
Qed.

End Postmark.
