(* ===== verification/PostmarkRun.v ===== *)
(** * postmark/postmark-1_5.c: what a benchmark run guarantees

    [FileSystem] is the interface the run is verified against: what the table
    of files says ([fs_agrees], names to sizes) is true of the world and stays
    true across each call.  Any environment implements it with [fs_agrees]
    trivially true, which gives the safety of the run whatever the calls
    answer; the in-memory file system implements it with the real relation. *)
From Stdlib Require Import Floats.SpecFloat.
From stdpp Require Import pretty.
From S2P Require Import Prelude MersenneTwister Postmark.

Module PostmarkRun.
Import Postmark.

Class FileSystem {W H} (E : env W H) := {
  fs_agrees : gmap string Z -> W -> Prop;
  fs_handle : string -> H -> W -> Prop;
  fs_create : forall b n m w h w', fs_agrees m w -> m !! n = None ->
    env_open E b ForWrite n w = (Some h, w') ->
    fs_agrees (<[n := 0]> m) w' /\ fs_handle n h w';
  fs_create_fail : forall b n z m w w', fs_agrees m w -> m !! n = None ->
    env_open E b ForWrite n w = (None, w') -> fs_agrees (<[n := z]> m) w';
  fs_open : forall b mode n z m w h w', fs_agrees m w -> m !! n = Some z -> mode <> ForWrite ->
    env_open E b mode n w = (Some h, w') -> fs_agrees m w' /\ fs_handle n h w';
  fs_open_fail : forall b mode n z m w w', fs_agrees m w -> m !! n = Some z ->
    mode <> ForWrite -> env_open E b mode n w = (None, w') -> fs_agrees m w';
  fs_write : forall n h m w z b, fs_agrees m w -> fs_handle n h w -> m !! n = Some z ->
    let w' := env_write E h b w in
    fs_agrees (<[n := z + Z.of_nat (length b)]> m) w' /\ fs_handle n h w';
  fs_read : forall n h m w k, fs_agrees m w -> fs_handle n h w ->
    let w' := env_read E h k w in fs_agrees m w' /\ fs_handle n h w';
  fs_close : forall n h m w, fs_agrees m w -> fs_handle n h w -> fs_agrees m (env_close E h w);
  fs_remove : forall n z m w w', fs_agrees m w -> m !! n = Some z ->
    env_remove E n w = (true, w') -> fs_agrees (delete n m) w';
  fs_remove_fail : forall n z m w w', fs_agrees m w -> m !! n = Some z ->
    env_remove E n w = (false, w') -> fs_agrees m w';
  fs_mkdir : forall n m w, fs_agrees m w -> fs_agrees m (env_mkdir E n w);
  fs_rmdir : forall n m w, fs_agrees m w -> fs_agrees m (env_rmdir E n w)
}.

(** Removing a file that is there succeeds. *)
Class Removes {W H} (E : env W H) `{!FileSystem E} := {
  fs_remove_ok : forall n z m w, fs_agrees m w -> m !! n = Some z ->
    exists w', env_remove E n w = (true, w')
}.

(** Any environment at all. *)
Definition AnyFs {W H} (E : env W H) : FileSystem E.
Proof. by refine {| fs_agrees := fun _ _ => True; fs_handle := fun _ _ _ => True |}. Defined.

Lemma AnyFs_agrees {W H} (E : env W H) m w : fs_agrees (FileSystem := AnyFs E) m w.
Proof. done. Qed.

(** The in-memory file system: the sizes are the lengths of the contents. *)
#[export] Program Instance MemFs : FileSystem mem_fs := {|
  fs_agrees := fun m w => forall n, m !! n = (fun c => Z.of_nat (length c)) <$> w !! n;
  fs_handle := fun n h _ => h = n |}.
Next Obligation.
  intros b n m w h w' Ha _ [= <- <-]. split; [| done]. intros k.
  destruct (decide (k = n)) as [-> |]; [by rewrite !lookup_insert_eq |].
  by rewrite !lookup_insert_ne by congruence.
Qed.
Next Obligation. intros b n z m w w' _ _ [=]. Qed.
Next Obligation.
  intros b mode n z m w h w' Ha _ Hm E. destruct mode; cbn in E; try done;
    destruct (w !! n); inversion E; subst; auto.
Qed.
Next Obligation.
  intros b mode n z m w w' Ha _ Hm E. destruct mode; cbn in E; try done;
    destruct (w !! n); inversion E; subst; auto.
Qed.
Next Obligation.
  intros n h m w z b Ha -> Hz. cbn. pose proof (Ha n) as En. rewrite Hz in En.
  destruct (w !! n) as [c |] eqn:Ec; [| done]. injection En as ->. split; [| done]. intros k.
  destruct (decide (k = n)) as [-> |].
  - rewrite !lookup_insert_eq. cbn. rewrite length_app. f_equal. lia.
  - by rewrite !lookup_insert_ne by congruence.
Qed.
Next Obligation. done. Qed.
Next Obligation. done. Qed.
Next Obligation.
  intros n z m w w' Ha Hz E. cbn in E. pose proof (Ha n) as En. rewrite Hz in En.
  destruct (w !! n); [| done]. injection E as <-. intros k.
  destruct (decide (k = n)) as [-> |]; [by rewrite !lookup_delete_eq |].
  by rewrite !lookup_delete_ne by congruence.
Qed.
Next Obligation.
  intros n z m w w' Ha Hz E. cbn in E. pose proof (Ha n) as En. rewrite Hz in En.
  by destruct (w !! n).
Qed.
Next Obligation. done. Qed.
Next Obligation. done. Qed.

#[export] Instance MemFs_removes : Removes mem_fs.
Proof.
  constructor. intros n z m w Ha Hz. cbn in *. pose proof (Ha n) as En. rewrite Hz in En.
  destruct (w !! n); [eauto | done].
Qed.

(** The configurations a run supports: what the [set] commands establish, no
    [int] overflow in the table sizes, and location names that leave room for
    the rest of a file name. *)
Record config_ok (cfg : config) (locs : locations) : Prop := {
  ok_low : 1 <= file_size_low cfg <= file_size_high cfg;
  ok_high : 2 * file_size_high cfg <= INT_MAX;
  ok_sim : 1 <= simultaneous cfg /\ 2 * simultaneous cfg <= INT_MAX;
  ok_trans : 1 <= transactions cfg;
  ok_total : simultaneous cfg + transactions cfg <= INT_MAX;
  ok_blocks : 1 <= read_block_size cfg /\ 1 <= write_block_size cfg;
  ok_subdirs : 0 <= subdirectories cfg <= INT_MAX;
  ok_count : file_system_count locs = Z.of_nat (length (file_systems locs));
  ok_weight : file_system_weight locs
    = Z.of_nat (length (build_location_index locs));
  ok_weights : Forall (fun l => 1 <= snd l) (file_systems locs);
  ok_names : Forall (fun l => Z.of_nat (String.length (fst l)) <= 57) (file_systems locs)
}.

Section Run.
Context {W H : Type} (E : env W H) {FS : FileSystem E} (cfg : config) (locs : locations).
Hypothesis Hok : config_ok cfg locs.
Abbreviation st := (run W).
Implicit Types (s : run W) (m : gmap string Z).

(** The invariant of the globals, for the files [m] of the table. *)
Record wf (m : gmap string Z) (s : st) : Prop := {
  wf_len : Z.of_nat (length (file_table s)) = 2 * simultaneous cfg;
  wf_alloc : 0 <= file_allocated s <= 2 * simultaneous cfg;
  wf_src : Z.of_nat (length (file_source s)) = 2 * file_size_high cfg;
  wf_gen : MersenneTwister.gen_ok (gen s);
  wf_index : file_system_count locs <> 0 -> location_index s = build_location_index locs;
  wf_size : forall i e, file_table s !! i = Some e ->
    size e = 0 \/ file_size_low cfg <= size e <= file_size_high cfg;
  wf_map : table_map (file_table s) m;
  wf_distinct : distinct (file_table s);
  wf_names : forall i e, file_table s !! i = Some e -> size e <> 0 ->
    exists c, 1 <= c <= files_created s /\ numbered (name e) c;
  wf_created : 0 <= files_created s <= INT_MAX;
  wf_deleted : 0 <= files_deleted s;
  wf_used : files_created s - files_deleted s = used (file_table s)
}.

(** The fields that a generator step or a call leaves alone. *)
Lemma wf_set_gen m g s : MersenneTwister.gen_ok g -> wf m s -> wf m (set_gen g s).
Proof. intros Hg []. by constructor. Qed.
Lemma wf_set_world m w s : wf m s -> wf m (set_world w s).
Proof. intros []. by constructor. Qed.
Lemma wf_set_bytes_written m v s : wf m s -> wf m (set_bytes_written v s).
Proof. intros []. by constructor. Qed.
Lemma wf_set_bytes_read m v s : wf m s -> wf m (set_bytes_read v s).
Proof. intros []. by constructor. Qed.
Lemma wf_set_read m v s : wf m s -> wf m (set_read v s).
Proof. intros []. by constructor. Qed.
Lemma wf_set_appended m v s : wf m s -> wf m (set_appended v s).
Proof. intros []. by constructor. Qed.
Lemma wf_set_allocated m v s :
  0 <= v <= 2 * simultaneous cfg -> wf m s -> wf m (set_allocated v s).
Proof. intros Hv []. by constructor. Qed.
Hint Resolve wf_set_gen wf_set_world wf_set_bytes_written wf_set_bytes_read wf_set_read
  wf_set_appended : core.

Definition keeps_gen (s s' : st) : Prop :=
  exists g, s' = set_gen g s /\ MersenneTwister.gen_ok g.

Lemma RND_spec x s :
  MersenneTwister.gen_ok (gen s) ->
  returns (fun '(r, s') => 0 <= r /\ (0 < x -> r < x) /\ (x <= 0 -> r = 0) /\
             exists g, s' = set_gen g s /\ MersenneTwister.gen_ok g) (RND x s).
Proof.
  intros Hg. unfold RND. rewrite Z.gtb_ltb. destruct (Z.ltb_spec 0 x).
  - destruct (MersenneTwister.genrand_ok _ Hg) as (y & g & -> & Hy & Hg').
    apply returns_Ret. pose proof (Z.mod_pos_bound y x ltac:(lia)).
    split; [lia |]. split; [lia |]. split; [lia |]. eauto.
  - apply returns_Ret. split; [done |]. split; [lia |]. split; [done |].
    exists (gen s). split; [by destruct s | done].
Qed.

(** [RND] under the invariant, for continuations that only need the bounds. *)
Lemma RND_wf x m s w :
  wf m s -> world s = w ->
  returns (fun '(r, s') => 0 <= r /\ (0 < x -> r < x) /\ (x <= 0 -> r = 0) /\ wf m s' /\
    world s' = w /\ file_table s' = file_table s /\ files_created s' = files_created s)
    (RND x s).
Proof.
  intros Hs Hw. eapply returns_mono; [apply RND_spec, Hs |].
  intros [r s'] (? & ? & ? & g & -> & Hg). eauto 10.
Qed.

Lemma entry_Some m s i :
  wf m s -> 0 <= i < 2 * simultaneous cfg ->
  exists e, entry i s = Ret e /\ file_table s !! Z.to_nat i = Some e.
Proof.
  intros Hs Hi. destruct (aget_Some (file_table s) i) as [e Ee].
  { rewrite (wf_len _ _ Hs). lia. }
  exists e. unfold entry. rewrite Ee. split; [done |]. unfold aget in Ee.
  by destruct (0 <=? i).
Qed.

Lemma set_entry_eq m s i e :
  wf m s -> 0 <= i < 2 * simultaneous cfg ->
  set_entry i e s = Ret (set_table (<[Z.to_nat i := e]> (file_table s)) s).
Proof.
  intros Hs Hi. unfold set_entry. rewrite aset_Some; [done |].
  rewrite (wf_len _ _ Hs). lia.
Qed.

(** *** find_free_file *)
Definition free_slot (i : Z) (s : st) : Prop :=
  0 <= i < 2 * simultaneous cfg /\
  exists e, file_table s !! Z.to_nat i = Some e /\ size e = 0.

Lemma find_hole_spec m n i s :
  wf m s -> 0 <= i -> i + Z.of_nat n = 2 * simultaneous cfg ->
  returns (fun '(k, s') => wf m s' /\ world s' = world s /\ file_table s' = file_table s /\
    files_created s' = files_created s /\ files_deleted s' = files_deleted s /\
    (k = -1 /\ (forall j e, i <= j < 2 * simultaneous cfg ->
                 file_table s !! Z.to_nat j = Some e -> size e <> 0) \/ free_slot k s'))
    (find_hole n i s).
Proof.
  intros Hs. revert i. induction n as [| n IH]; intros i Hi Hn; cbn [find_hole].
  - apply returns_Ret. repeat (split; [done |]). left. split; [done |]. intros; lia.
  - destruct (entry_Some m s i Hs ltac:(lia)) as (e & -> & Ee). rewrite bind_Ret.
    destruct (Z.eqb_spec (size e) 0) as [Z | N].
    + apply returns_Ret. split; [apply wf_set_allocated; [lia | done] |].
      repeat (split; [done |]). right. split; [lia | eauto].
    + eapply returns_mono; [apply IH; lia |].
      intros [k s'] (? & ? & ? & ? & ? & [[-> F] | ?]); repeat (split; [done |]); [left | by right].
      split; [done |]. intros j f Hj Ef. destruct (Z.eq_dec j i) as [-> |].
      * congruence.
      * apply (F j); [lia | done].
Qed.

Lemma find_free_file_spec m s :
  wf m s ->
  returns (fun '(k, s') => wf m s' /\ world s' = world s /\ file_table s' = file_table s /\
    files_created s' = files_created s /\ files_deleted s' = files_deleted s /\
    (k = -1 /\ (forall j e, 0 <= j < 2 * simultaneous cfg ->
                 file_table s !! Z.to_nat j = Some e -> size e <> 0) \/ free_slot k s'))
    (find_free_file cfg s).
Proof.
  intros Hs. unfold find_free_file. pose proof (wf_alloc _ _ Hs).
  pose proof (ok_sim _ _ Hok). destruct (Z.ltb_spec (file_allocated s) (2 * simultaneous cfg)).
  - destruct (entry_Some m s (file_allocated s) Hs ltac:(lia)) as (e & -> & Ee).
    rewrite !bind_Ret. destruct (Z.eqb_spec (size e) 0).
    + apply returns_Ret. split; [apply wf_set_allocated; [lia | done] |].
      repeat (split; [done |]). right. split; [lia | eauto].
    + apply find_hole_spec; (done || lia).
  - rewrite bind_Ret. apply find_hole_spec; (done || lia).
Qed.
(** *** write_blocks *)

(** What a call on an open file leaves alone. *)
Definition same_table (m : gmap string Z) (s s' : st) : Prop :=
  wf m s' /\ file_table s' = file_table s /\ files_created s' = files_created s /\
  files_deleted s' = files_deleted s.

Lemma same_table_trans m s s1 s2 :
  same_table m s s1 -> same_table m s1 s2 -> same_table m s s2.
Proof. intros (_ & E1 & E2 & E3) (? & F1 & F2 & F3). split; [done |]. by rewrite F1, F2, F3. Qed.

(** The file [n] is open with [k] bytes in it, the others are as in [M]. *)
Definition writing (n : string) (h : H) (M : gmap string Z) (k : Z) (s : st) : Prop :=
  fs_agrees (<[n := k]> M) (world s) /\ fs_handle n h (world s).

Lemma source_slice_ok m offset len s :
  wf m s -> 0 <= offset -> 0 <= len -> offset + len <= 2 * file_size_high cfg ->
  exists b, source_slice offset len s = Ret b /\ Z.of_nat (length b) = len.
Proof.
  intros Hs Ho Hl Hb. unfold source_slice. pose proof (wf_src _ _ Hs) as Hsrc.
  destruct (Z.leb_spec 0 offset), (Z.leb_spec 0 len),
    (Z.leb_spec (offset + len) (Z.of_nat (length (file_source s)))); try lia.
  eexists. split; [reflexivity |]. rewrite length_take, length_drop. lia.
Qed.

Lemma write_call m n h M k b s :
  wf m s -> writing n h M k s ->
  let s' := set_world (env_write E h b (world s)) s in
  same_table m s s' /\ writing n h M (k + Z.of_nat (length b)) s'.
Proof.
  intros Hs [Ha Hh] s'. split; [by split; [apply wf_set_world |] |].
  destruct (fs_write n h _ _ k b Ha Hh (lookup_insert_eq _ _ _)) as [Ha' Hh'].
  rewrite insert_insert_eq in Ha'. by split.
Qed.

Lemma write_even_spec m n h M fuel k i offset s :
  wf m s -> writing n h M k s -> 0 <= i -> 0 <= offset ->
  offset + i <= 2 * file_size_high cfg -> (Z.to_nat i < fuel)%nat ->
  returns (fun '(i', o', s') => same_table m s s' /\ 0 <= i' /\ offset <= o' /\
    o' + i' = offset + i /\ writing n h M (k + (o' - offset)) s')
    (write_even E cfg fuel h i offset s).
Proof.
  pose proof (ok_blocks _ _ Hok) as [_ Hb]. revert k i offset s.
  induction fuel as [| fuel IH]; intros k i offset s Hs Hw Hi Ho Hbound Hf; [lia |].
  cbn [write_even]. destruct (Z.leb_spec (write_block_size cfg) i).
  - destruct (source_slice_ok m offset (write_block_size cfg) s Hs ltac:(lia) ltac:(lia) ltac:(lia))
      as (b & -> & Hlen). rewrite bind_Ret.
    destruct (write_call m n h M k b s Hs Hw) as [Hsame Hw'].
    eapply returns_mono; [apply (IH _ _ _ _ (proj1 Hsame) Hw'); lia |].
    intros [[i' o'] s'] (H1 & ? & ? & ? & Hw2). cbn beta iota.
    split; [exact (same_table_trans _ _ _ _ Hsame H1) |]. repeat (split; [lia |]).
    by replace (k + (o' - offset))
      with (k + Z.of_nat (length b) + (o' - (offset + write_block_size cfg))) by lia.
  - apply returns_Ret. split; [done |]. repeat (split; [lia |]).
    by replace (k + (offset - offset)) with k by lia.
Qed.

Lemma write_blocks_spec m n h M k size s :
  wf m s -> writing n h M k s -> 0 <= size <= 2 * file_size_high cfg ->
  returns (fun s' => same_table m s s' /\ writing n h M (k + size) s')
    (write_blocks E cfg h size s).
Proof.
  intros Hs Hw Hsize. unfold write_blocks.
  eapply returns_bind; [apply (write_even_spec m n h M); (done || lia) |].
  intros [[i o] s1] (H1 & Hi & Ho & Hio & Hw1). cbn beta iota.
  destruct (source_slice_ok m o i s1 (proj1 H1) ltac:(lia) ltac:(lia) ltac:(lia))
    as (b & -> & Hlen). rewrite bind_Ret.
  destruct (write_call m n h M _ b s1 (proj1 H1) Hw1) as [H2 Hw2]. apply returns_Ret.
  replace (k + (o - 0) + Z.of_nat (length b)) with (k + size) in Hw2 by lia.
  split; [| exact Hw2]. destruct (same_table_trans _ _ _ _ H1 H2) as (? & ? & ? & ?).
  split; [by apply wf_set_bytes_written | done].
Qed.

(** *** create_file *)
Lemma build_index_name n : n ∈ build_location_index locs -> Z.of_nat (String.length n) <= 57.
Proof.
  unfold build_location_index. rewrite list_elem_of_In, in_concat.
  intros (l & Hl & Hn). apply list_elem_of_In, list_elem_of_fmap in Hl as (x & -> & Hx).
  apply list_elem_of_In, elem_of_replicate in Hn as [-> _].
  pose proof (ok_names _ _ Hok) as F. rewrite Forall_forall in F. by apply F.
Qed.

Lemma index_length :
  file_system_count locs <> 0 -> 1 <= Z.of_nat (length (build_location_index locs)).
Proof.
  rewrite (ok_count _ _ Hok). pose proof (ok_weights _ _ Hok) as F.
  unfold build_location_index. destruct (file_systems locs) as [| [n w] l]; cbn; [done |].
  intros _. inversion F as [| ? ? Hw _]; subst. cbn in Hw.
  rewrite length_app, length_replicate. lia.
Qed.

Lemma append_len a b :
  String.length (String.append a b) = (String.length a + String.length b)%nat.
Proof.
  induction a as [| x a IH]; [done |].
  change (S (String.length (String.append a b)) = S (String.length a + String.length b)).
  by rewrite IH.
Qed.

Lemma append_assoc a b c :
  String.append (String.append a b) c = String.append a (String.append b c).
Proof. apply chars_inj. by rewrite !chars_app, app_assoc. Qed.

(** A prefix that [create_file_name] can have built, of at most [k] bytes. *)
Definition name_prefix (k : Z) (p : string) : Prop :=
  (p = ""%string \/ exists q, p = String.append q SEPARATOR) /\
  Z.of_nat (String.length p) <= k.

Lemma location_prefix m s :
  wf m s ->
  returns (fun '(p, s') => name_prefix 58 p /\ same_table m s s' /\ world s' = world s)
    (if file_system_count locs =? 0 then Ret (""%string, s)
     else
       '(k, s) ← (if file_system_count locs =? 1 then Ret (0, s)
                  else RND (file_system_weight locs) s);
       loc ← deref (aget (location_index s) k);
       Ret (String.append loc SEPARATOR, s)).
Proof.
  intros Hs. destruct (Z.eqb_spec (file_system_count locs) 0) as [Z0 | N0].
  { apply returns_Ret. split; [split; [by left | cbn; lia] | done]. }
  pose proof (index_length N0) as Hlen. pose proof (wf_index _ _ Hs N0) as Hidx.
  pose proof (ok_weight _ _ Hok) as Hwt.
  apply (returns_bind (fun '(k, s') => 0 <= k < Z.of_nat (length (build_location_index locs)) /\
    same_table m s s' /\ world s' = world s /\ location_index s' = location_index s)).
  - destruct (Z.eqb_spec (file_system_count locs) 1).
    + apply returns_Ret. split; [lia |]. done.
    + eapply returns_mono; [apply RND_spec, Hs |].
      intros [k s'] (? & Hk & _ & g & -> & Hg). split; [rewrite Hwt in Hk; lia |].
      split; [| done]. split; [by apply wf_set_gen | done].
  - intros [k s'] (Hk & Hsame & Hw & Hi). rewrite Hi, Hidx.
    destruct (aget_Some (build_location_index locs) k Hk) as [loc El]. rewrite El.
    cbn [deref]. rewrite bind_Ret. apply returns_Ret. split; [| done].
    unfold aget in El. destruct (0 <=? k); [| done].
    apply list_elem_of_lookup_2, build_index_name in El. split; [by right; exists loc |].
    rewrite append_len. cbn [String.length SEPARATOR]. lia.
Qed.

Lemma create_file_name_spec m s :
  wf m s -> files_created s < INT_MAX ->
  returns (fun '(n, s') => numbered n (files_created s + 1) /\
    wf m (set_created (files_created s) s') /\ file_table s' = file_table s /\
    files_created s' = files_created s + 1 /\ files_deleted s' = files_deleted s /\
    world s' = world s)
    (create_file_name cfg locs s).
Proof.
  intros Hs Hc. pose proof (wf_created _ _ Hs). unfold create_file_name.
  eapply returns_bind; [apply (location_prefix m); exact Hs |].
  intros [p s1] (Hp & H1 & Hw1). cbn beta iota.
  apply (returns_bind (fun '(p, s') => name_prefix 70 p /\ same_table m s1 s' /\
    world s' = world s1)).
  - rewrite Z.gtb_ltb. destruct (Z.ltb_spec 1 (subdirectories cfg)).
    + eapply returns_bind; [apply (RND_spec (subdirectories cfg) s1), H1 |].
      intros [k s2] (? & Hk & _ & g & -> & Hg). apply returns_Ret.
      split; [| split; [| done]; split; [apply wf_set_gen; [done | apply H1] | done]].
      pose proof (ok_subdirs _ _ Hok). pose proof (pretty_len k ltac:(lia)).
      destruct Hp as [_ Hlen]. split.
      * right. exists (String.append p (String.append "s" (pretty k))).
        by rewrite !append_assoc.
      * rewrite !append_len. cbn [String.length SEPARATOR]. lia.
    + apply returns_Ret. destruct Hp as [? ?]. split; [split; [done | lia] |].
      split; [| done]. split; [apply H1 | done].
  - intros [q s2] ([Hq Hlen] & H2 & Hw2). cbn zeta.
    destruct (same_table_trans _ _ _ _ H1 H2) as (Hwf & Et & Ec & Ed).
    cbn [files_created set_created]. rewrite Ec.
    pose proof (pretty_len (files_created s + 1) ltac:(lia)).
    rewrite append_len. unfold MAX_FILENAME.
    destruct (Z.leb_spec (Z.of_nat (String.length q + String.length (pretty (files_created s + 1)))) 80);
      [| lia].
    apply returns_Ret. split; [by exists q |]. split.
    { rewrite <- Ec. destruct s2, Hwf; by constructor. }
    cbn. split; [done |]. split; [done |]. split; [done |]. congruence.
Qed.
(** *** Updates of the table *)
Lemma table_map_used t m i e :
  table_map t m -> t !! i = Some e -> size e <> 0 -> m !! name e = Some (size e).
Proof. intros Ht Ei Hz. apply Ht. by exists i, e. Qed.

Lemma table_map_set t m i e n z :
  table_map t m -> distinct t -> t !! i = Some e -> z <> 0 ->
  (size e = 0 /\ m !! n = None \/ size e <> 0 /\ name e = n) ->
  table_map (<[i := mkFile n z]> t) (<[n := z]> m) /\ distinct (<[i := mkFile n z]> t).
Proof.
  intros Ht Hd Ei Hz Hcase.
  assert (Hother : forall j f, t !! j = Some f -> size f <> 0 -> j <> i -> name f <> n).
  { intros j f Ej Hf Hji En. destruct Hcase as [[_ Hn] | [He Hn]].
    - pose proof (table_map_used t m j f Ht Ej Hf). congruence.
    - apply Hji, (Hd j i f e); congruence. }
  assert (Hi : (i < length t)%nat) by (by eapply lookup_lt_Some).
  split.
  - intros k y. destruct (decide (k = n)) as [-> | Hk].
    + rewrite lookup_insert_eq. split.
      * intros [= <-]. exists i, (mkFile n z). by rewrite list_lookup_insert_eq.
      * intros (j & f & Ej & En & Es & Hy). destruct (decide (j = i)) as [-> | Hji].
        -- rewrite list_lookup_insert_eq in Ej by done. by injection Ej as <-; subst.
        -- rewrite list_lookup_insert_ne in Ej by done.
           exfalso. apply (Hother j f); congruence.
    + rewrite lookup_insert_ne by done. rewrite (Ht k y). split.
      * intros (j & f & Ej & En & Es & Hy). exists j, f.
        destruct (decide (j = i)) as [-> | Hji]; [| by rewrite list_lookup_insert_ne].
        exfalso. assert (f = e) as -> by congruence. destruct Hcase as [[? _] | [_ ?]]; congruence.
      * intros (j & f & Ej & En & Es & Hy). exists j, f.
        destruct (decide (j = i)) as [-> | Hji].
        -- rewrite list_lookup_insert_eq in Ej by done. by injection Ej as <-; subst.
        -- by rewrite list_lookup_insert_ne in Ej.
  - intros j k f f' Ej Ek Hf Hf' En.
    destruct (decide (j = i)) as [-> | Hj], (decide (k = i)) as [-> | Hk]; [done | | |].
    + rewrite list_lookup_insert_eq in Ej by done. rewrite list_lookup_insert_ne in Ek by done.
      injection Ej as <-. exfalso. by apply (Hother k f').
    + rewrite list_lookup_insert_eq in Ek by done. rewrite list_lookup_insert_ne in Ej by done.
      injection Ek as <-. exfalso. by apply (Hother j f).
    + rewrite list_lookup_insert_ne in Ej by done. rewrite list_lookup_insert_ne in Ek by done.
      by apply (Hd j k f f').
Qed.

Lemma table_map_clear t m i e :
  table_map t m -> distinct t -> t !! i = Some e -> size e <> 0 ->
  table_map (<[i := mkFile (name e) 0]> t) (delete (name e) m) /\
  distinct (<[i := mkFile (name e) 0]> t).
Proof.
  intros Ht Hd Ei He. assert (Hi : (i < length t)%nat) by (by eapply lookup_lt_Some). split.
  - intros k y. destruct (decide (k = name e)) as [-> | Hk].
    + rewrite lookup_delete_eq. split; [done |]. intros (j & f & Ej & En & Es & Hy).
      destruct (decide (j = i)) as [-> | Hji].
      * rewrite list_lookup_insert_eq in Ej by done. by injection Ej as <-; subst.
      * rewrite list_lookup_insert_ne in Ej by done.
        exfalso. apply Hji, (Hd j i f e); congruence.
    + rewrite lookup_delete_ne by done. rewrite (Ht k y). split.
      * intros (j & f & Ej & En & Es & Hy). exists j, f.
        rewrite list_lookup_insert_ne; [done |]. intros ->. congruence.
      * intros (j & f & Ej & En & Es & Hy). exists j, f.
        destruct (decide (j = i)) as [-> | Hji].
        -- rewrite list_lookup_insert_eq in Ej by done. injection Ej as <-. by subst.
        -- by rewrite list_lookup_insert_ne in Ej.
  - intros j k f f' Ej Ek Hf Hf' En.
    destruct (decide (j = i)) as [-> | Hj].
    { rewrite list_lookup_insert_eq in Ej by done. by injection Ej as <-. }
    destruct (decide (k = i)) as [-> | Hk].
    { rewrite list_lookup_insert_eq in Ek by done. by injection Ek as <-. }
    rewrite list_lookup_insert_ne in Ej by done. rewrite list_lookup_insert_ne in Ek by done.
    by apply (Hd j k f f').
Qed.

Lemma fresh_name m s n :
  wf m s -> numbered n (files_created s + 1) -> m !! n = None.
Proof.
  intros Hs Hn. destruct (m !! n) as [z |] eqn:Em; [| done]. exfalso.
  apply (wf_map _ _ Hs) in Em as (i & e & Ei & En & Ez & Hz).
  destruct (wf_names _ _ Hs i e Ei ltac:(lia)) as (c & Hc & Hnc).
  rewrite En in Hnc. pose proof (numbered_inj n c _ Hnc Hn). lia.
Qed.

(** A table entry receives the size [z]: the other fields of the invariant. *)
Lemma wf_set_size m m' s s' i e n z :
  wf m s -> file_table s !! i = Some e ->
  file_table s' = <[i := mkFile n z]> (file_table s) ->
  z = 0 \/ file_size_low cfg <= z <= file_size_high cfg ->
  0 <= files_deleted s' ->
  table_map (file_table s') m' -> distinct (file_table s') ->
  (z <> 0 -> exists c, 1 <= c <= files_created s' /\ numbered n c) ->
  files_created s <= files_created s' <= INT_MAX ->
  files_created s' - files_deleted s' = files_created s - files_deleted s
    - used_one e + used_one (mkFile n z) ->
  0 <= file_allocated s' <= 2 * simultaneous cfg ->
  Z.of_nat (length (file_source s')) = 2 * file_size_high cfg ->
  MersenneTwister.gen_ok (gen s') ->
  (file_system_count locs <> 0 -> location_index s' = build_location_index locs) ->
  wf m' s'.
Proof.
  intros Hs Ei Et Hz Hdel Hm Hd Hn Hc Hu Ha Hsrc Hg Hidx.
  assert (Hi : (i < length (file_table s))%nat) by (by eapply lookup_lt_Some).
  destruct Hs as [Hlen _ Hsrc' _ Hidx' Hsz _ _ Hnm Hcr _ Hus].
  constructor; try done.
  - by rewrite Et, length_insert.
  - intros j f Ej. rewrite Et in Ej. destruct (decide (j = i)) as [-> | Hj].
    + rewrite list_lookup_insert_eq in Ej by done. by injection Ej as <-.
    + rewrite list_lookup_insert_ne in Ej by done. eauto.
  - intros j f Ej Hf. rewrite Et in Ej. destruct (decide (j = i)) as [-> | Hj].
    + rewrite list_lookup_insert_eq in Ej by done. injection Ej as <-. by apply Hn.
    + rewrite list_lookup_insert_ne in Ej by done.
      destruct (Hnm j f Ej Hf) as (c & ? & ?). exists c. split; [lia | done].
  - lia.
  - rewrite Et, (used_insert _ _ _ _ Ei). lia.
Qed.
(** *** create_file *)
Definition good (s : st) : Prop := exists m, wf m s /\ fs_agrees m (world s).

Lemma used_full (t : list file_entry) :
  (forall i e, t !! i = Some e -> size e <> 0) -> used t = Z.of_nat (length t).
Proof.
  induction t as [| e t IH]; intros F; [done |]. rewrite used_cons, IH.
  - pose proof (F 0%nat e eq_refl). unfold used_one. cbn [length]. bcase; lia.
  - intros j f Ef. apply (F (S j) f Ef).
Qed.

Lemma entry_at i e s :
  0 <= i -> file_table s !! Z.to_nat i = Some e -> entry i s = Ret e.
Proof. intros Hi Ee. unfold entry, aget. destruct (Z.leb_spec 0 i); [by rewrite Ee | lia]. Qed.

Lemma set_entry_at i e f s :
  0 <= i -> file_table s !! Z.to_nat i = Some e ->
  set_entry i f s = Ret (set_table (<[Z.to_nat i := f]> (file_table s)) s).
Proof.
  intros Hi Ee. unfold set_entry. rewrite aset_Some; [done |].
  apply lookup_lt_Some in Ee. lia.
Qed.

Lemma set_name_at i e n s :
  0 <= i -> file_table s !! Z.to_nat i = Some e ->
  set_name i n s = Ret (set_table (<[Z.to_nat i := mkFile n (size e)]> (file_table s)) s).
Proof.
  intros Hi Ee. unfold set_name. rewrite (entry_at i e) by done.
  rewrite bind_Ret. by apply set_entry_at with e.
Qed.

Lemma set_size_at i e z s :
  0 <= i -> file_table s !! Z.to_nat i = Some e ->
  set_size i z s = Ret (set_table (<[Z.to_nat i := mkFile (name e) z]> (file_table s)) s).
Proof.
  intros Hi Ee. unfold set_size. rewrite (entry_at i e) by done.
  rewrite bind_Ret. by apply set_entry_at with e.
Qed.

(** The part of [create_file] that opens and fills the file. *)
Lemma fill_new_file m n z b s :
  wf (<[n := z]> m) s -> fs_agrees m (world s) -> m !! n = None ->
  0 <= z <= file_size_high cfg ->
  returns (fun s' => good s' /\ files_created s' = files_created s /\
    files_deleted s' = files_deleted s)
    (let '(fd, w) := env_open E b ForWrite n (world s) in
     let s := set_world w s in
     match fd with
     | Some fd =>
         s ← write_blocks E cfg fd z s;
         Ret (set_world (env_close E fd (world s)) s)
     | None => Ret s
     end).
Proof.
  intros Hs Ha Hn Hz. pose proof (ok_low _ _ Hok).
  destruct (env_open E b ForWrite n (world s)) as [[h |] w] eqn:Eo.
  - destruct (fs_create b n m (world s) h w Ha Hn Eo) as [Ha' Hh'].
    eapply returns_bind.
    { apply (write_blocks_spec (<[n := z]> m) n h m 0 z (set_world w s));
        [by apply wf_set_world | by split | lia]. }
    intros s1 [(Hwf & Et & Ec & Ed) [Ha1 Hh1]]. apply returns_Ret. split; [| by split].
    exists (<[n := z]> m). split; [by apply wf_set_world |].
    rewrite Z.add_0_l in Ha1. by apply (fs_close n).
  - apply returns_Ret. split; [| done]. exists (<[n := z]> m).
    split; [by apply wf_set_world |]. by eapply fs_create_fail.
Qed.

Lemma create_file_spec b s :
  good s -> files_created s < INT_MAX ->
  returns (fun s' => good s' /\ files_created s <= files_created s' <= files_created s + 1 /\
    files_deleted s' = files_deleted s /\
    (used (file_table s) < 2 * simultaneous cfg -> files_created s' = files_created s + 1))
    (create_file E cfg locs b s).
Proof.
  intros (m & Hs & Ha) Hc. unfold create_file.
  eapply returns_bind; [apply (find_free_file_spec m), Hs |].
  intros [k s1] (Hs1 & Hw1 & Et1 & Ec1 & Ed1 & Hk). cbn beta iota.
  destruct Hk as [[-> Hfull] | [Hk (e & Ee & Hsz)]].
  { apply returns_Ret. split; [exists m; by rewrite Hw1 |]. split; [lia |]. split; [done |]. intros Hu.
    rewrite used_full in Hu; [rewrite (wf_len _ _ Hs) in Hu; lia |].
    intros i f Ef. apply (Hfull (Z.of_nat i) f); [| by rewrite Nat2Z.id].
    apply lookup_lt_Some in Ef. pose proof (wf_len _ _ Hs). lia. }
  destruct (Z.eqb_spec k (-1)) as [? | _]; [lia |].
  eapply returns_bind; [apply (create_file_name_spec m); [exact Hs1 | lia] |].
  intros [n s2] (Hn & Hs2 & Et2 & Ec2 & Ed2 & Hw2). cbn beta iota.
  rewrite <- Et2 in Ee. rewrite (set_name_at k e) by (lia || done). rewrite bind_Ret, Hsz.
  set (s3 := set_table _ s2).
  assert (Ee3 : file_table s3 !! Z.to_nat k = Some (mkFile n 0)).
  { cbn. apply list_lookup_insert_eq. by eapply lookup_lt_Some. }
  eapply returns_bind; [apply (RND_spec _ s3); apply (wf_gen _ _ Hs2) |].
  intros [r s4] (Hr0 & Hr1 & Hr2 & g & -> & Hg). cbn beta iota.
  rewrite (set_size_at k (mkFile n 0)) by (lia || done). rewrite bind_Ret. cbn [name].
  set (z := file_size_low cfg + r). set (s5 := set_table _ (set_gen g s3)).
  pose proof (ok_low _ _ Hok) as Hlow.
  assert (Hz : 1 <= z <= file_size_high cfg) by lia.
  assert (Et5 : file_table s5 = <[Z.to_nat k := mkFile n z]> (file_table s1)).
  { cbn. by rewrite list_insert_insert_eq, Et2. }
  assert (Hfresh : m !! n = None) by (by apply (fresh_name m s1)).
  rewrite Et2 in Ee.
  destruct (table_map_set _ _ _ _ n z (wf_map _ _ Hs1) (wf_distinct _ _ Hs1) Ee ltac:(lia)
    (or_introl (conj Hsz Hfresh))) as [Hm5 Hd5].
  assert (Hs5 : wf (<[n := z]> m) s5).
  { apply (wf_set_size m _ s1 s5 (Z.to_nat k) e n z Hs1 Ee Et5); try (rewrite Et5; done).
    - right. lia.
    - cbn. rewrite Ed2. exact (wf_deleted _ _ Hs1).
    - intros _. exists (files_created s1 + 1). cbn. rewrite Ec2.
      pose proof (wf_created _ _ Hs1). split; [lia | done].
    - cbn. rewrite Ec2. lia.
    - cbn. unfold used_one. rewrite Hsz. cbn [size]. rewrite Ec2, Ed2. bcase; lia.
    - exact (wf_alloc _ _ Hs2).
    - exact (wf_src _ _ Hs2).
    - exact Hg.
    - exact (wf_index _ _ Hs2). }
  assert (Ee5 : file_table s5 !! Z.to_nat k = Some (mkFile n z)).
  { rewrite Et5. apply list_lookup_insert_eq. by eapply lookup_lt_Some. }
  rewrite (entry_at k (mkFile n z)) by (lia || done). rewrite bind_Ret. cbn [name].
  assert (Ew : world s5 = world s) by (cbn; congruence).
  pose proof (fill_new_file m n z b s5 Hs5) as Hfill. rewrite Ew in Hfill.
  specialize (Hfill Ha Hfresh ltac:(lia)). rewrite Ew.
  assert (Ec5 : files_created s5 = files_created s + 1) by (cbn; congruence).
  destruct (env_open E b ForWrite n (world s)) as [[h |] w].
  - rewrite (entry_at k (mkFile n z)) by (lia || done). rewrite bind_Ret. cbn [size].
    eapply returns_mono; [exact Hfill |]. intros s' (? & ? & Ed'). split; [done |]. split; [lia |].
    split; [cbn in Ed'; congruence | lia].
  - eapply returns_mono; [exact Hfill |]. intros s' (? & ? & Ed'). split; [done |]. split; [lia |].
    split; [cbn in Ed'; congruence | lia].
Qed.

(** *** delete_file *)
Lemma delete_file_spec i s :
  good s -> 0 <= i < 2 * simultaneous cfg ->
  returns (fun s' => good s' /\ files_created s' = files_created s /\
    (forall j e', file_table s' !! j = Some e' ->
       file_table s !! j = Some e' \/ j = Z.to_nat i /\ size e' = 0) /\
    (Removes E -> forall e', file_table s' !! Z.to_nat i = Some e' -> size e' = 0))
    (delete_file E i s).
Proof.
  intros (m & Hs & Ha) Hi. unfold delete_file.
  destruct (entry_Some m s i Hs Hi) as (e & -> & Ee). rewrite bind_Ret.
  destruct (Z.eqb_spec (size e) 0) as [Z0 | N0].
  { apply returns_Ret. split; [by exists m |]. split; [done |]. split; [by left |].
    intros _ e' Ee'. congruence. }
  pose proof (table_map_used _ _ _ _ (wf_map _ _ Hs) Ee N0) as Em.
  destruct (env_remove E (name e) (world s)) as [[] w] eqn:Er.
  - rewrite (set_size_at i e) by (lia || done). rewrite bind_Ret. apply returns_Ret.
    assert (Hlt : (Z.to_nat i < length (file_table s))%nat) by (by eapply lookup_lt_Some).
    split; [| split; [done |]; split]; cbn.
    2: { intros j e'. destruct (decide (j = Z.to_nat i)) as [-> | Hj].
         - rewrite list_lookup_insert_eq by done. intros [= <-]. by right.
         - rewrite list_lookup_insert_ne by done. by left. }
    2: { intros _ e'. rewrite list_lookup_insert_eq by done. by intros [= <-]. }
    exists (delete (name e) m). split; [| by eapply fs_remove].
    destruct (table_map_clear _ _ _ _ (wf_map _ _ Hs) (wf_distinct _ _ Hs) Ee N0) as [Hm Hd].
    pose proof (ok_low _ _ Hok). pose proof (wf_created _ _ Hs).
    pose proof (wf_deleted _ _ Hs).
    eapply (wf_set_size m _ s _ (Z.to_nat i) e (name e) 0 Hs Ee); try done; cbn.
    + by left.
    + lia.
    + lia.
    + unfold used_one. cbn [size]. bcase; lia.
    + exact (wf_alloc _ _ Hs).
    + exact (wf_src _ _ Hs).
    + exact (wf_gen _ _ Hs).
    + exact (wf_index _ _ Hs).
  - apply returns_Ret. split; [| split; [done |]; split; [by left |]].
    + exists m. split; [by apply wf_set_world |]. by eapply fs_remove_fail.
    + intros Hr. destruct (fs_remove_ok _ _ _ _ Ha Em) as [w' Er']. congruence.
Qed.

(** *** read_file *)
Definition reading (n : string) (h : H) (m : gmap string Z) (s : st) : Prop :=
  fs_agrees m (world s) /\ fs_handle n h (world s).

Lemma read_even_spec m n h fuel i s :
  wf m s -> reading n h m s -> 0 <= i -> (Z.to_nat i < fuel)%nat ->
  returns (fun '(i', s') => same_table m s s' /\ 0 <= i' < read_block_size cfg /\
    reading n h m s') (read_even E cfg fuel h i s).
Proof.
  pose proof (ok_blocks _ _ Hok) as [Hb _]. revert i s.
  induction fuel as [| fuel IH]; intros i s Hs [Ha Hh] Hi Hf; [lia |]. cbn [read_even].
  destruct (Z.leb_spec (read_block_size cfg) i).
  - destruct (fs_read n h m (world s) (read_block_size cfg) Ha Hh) as [Ha' Hh'].
    eapply returns_mono; [apply IH; [by apply wf_set_world | by split | lia | lia] |].
    intros [i' s'] (H1 & ? & Hr). cbn beta iota. split; [| by split].
    exact (same_table_trans _ s _ s' (conj (wf_set_world _ _ _ Hs) (conj eq_refl (conj eq_refl eq_refl))) H1).
  - apply returns_Ret. split; [done |]. split; [lia | by split].
Qed.

Lemma read_file_spec i b s :
  good s -> 0 <= i < 2 * simultaneous cfg ->
  (forall e, file_table s !! Z.to_nat i = Some e -> size e <> 0) ->
  returns (fun s' => good s' /\ files_created s' = files_created s /\
                     file_table s' = file_table s) (read_file E cfg i b s).
Proof.
  intros (m & Hs & Ha) Hi Hu. unfold read_file.
  destruct (entry_Some m s i Hs Hi) as (e & -> & Ee). rewrite bind_Ret.
  pose proof (table_map_used _ _ _ _ (wf_map _ _ Hs) Ee (Hu _ Ee)) as Em.
  pose proof (wf_size _ _ Hs _ _ Ee). pose proof (ok_low _ _ Hok).
  destruct (env_open E b ForRead (name e) (world s)) as [[h |] w] eqn:Eo.
  - destruct (fs_open b ForRead _ _ _ _ _ _ Ha Em ltac:(done) Eo) as [Ha' Hh'].
    eapply returns_bind; [apply (read_even_spec m (name e)); [by apply wf_set_world | by split | lia | lia] |].
    intros [k s1] (Hst & Hk & Ha1 & Hh1). cbn beta iota.
    destruct (Z.leb_spec 0 k), (Z.leb_spec k (read_block_size cfg)); try lia.
    cbn [andb]. rewrite bind_Ret. apply returns_Ret.
    destruct Hst as (Hwf & Et & Ec & Ed). split; [| by split].
    destruct (fs_read (name e) h m (world s1) k Ha1 Hh1) as [Ha2 Hh2].
    exists m. split; [by apply wf_set_read, wf_set_bytes_read, wf_set_world, wf_set_world |].
    by eapply (fs_close (name e)).
  - apply returns_Ret. split; [| done]. exists m. split; [by apply wf_set_world |].
    exact (fs_open_fail b ForRead _ _ _ _ _ Ha Em ltac:(done) Eo).
Qed.

(** *** append_file *)
Lemma append_file_spec i b s :
  good s -> 0 <= i < 2 * simultaneous cfg ->
  (forall e, file_table s !! Z.to_nat i = Some e -> size e <> 0) ->
  returns (fun s' => good s' /\ files_created s' = files_created s /\
                     files_deleted s' = files_deleted s) (append_file E cfg i b s).
Proof.
  intros (m & Hs & Ha) Hi Hu. unfold append_file.
  destruct (entry_Some m s i Hs Hi) as (e & -> & Ee). rewrite bind_Ret.
  pose proof (Hu _ Ee) as Hsz.
  pose proof (wf_size _ _ Hs _ _ Ee). pose proof (ok_low _ _ Hok).
  pose proof (table_map_used _ _ _ _ (wf_map _ _ Hs) Ee Hsz) as Em.
  destruct (Z.ltb_spec (size e) (file_size_high cfg)); [| by apply returns_Ret; split; [exists m |]].
  destruct (env_open E b ForAppend (name e) (world s)) as [[h |] w] eqn:Eo.
  2: { apply returns_Ret. split; [| done]. exists m. split; [by apply wf_set_world |].
       exact (fs_open_fail b ForAppend _ _ _ _ _ Ha Em ltac:(done) Eo). }
  destruct (fs_open b ForAppend _ _ _ _ _ _ Ha Em ltac:(done) Eo) as [Ha' Hh'].
  eapply returns_bind; [apply (RND_spec _ (set_world w s)), (wf_gen _ _ Hs) |].
  intros [r s1] (Hr0 & Hr1 & _ & g & -> & Hg). cbn beta iota.
  eapply returns_bind.
  { apply (write_blocks_spec m (name e) h m (size e) (r + 1)).
    - apply wf_set_gen; [done | by apply wf_set_world].
    - split; [by rewrite (insert_id m) | done].
    - lia. }
  intros s2 [(Hwf & Et & Ec & Ed) [Ha2 Hh2]].
  assert (Ee2 : file_table s2 !! Z.to_nat i = Some e) by (rewrite Et; exact Ee).
  rewrite (set_size_at i e) by (lia || done). rewrite bind_Ret. apply returns_Ret.
  split; [| by split].
  destruct (table_map_set _ _ _ _ (name e) (size e + (r + 1)) (wf_map _ _ Hwf)
    (wf_distinct _ _ Hwf) Ee2 ltac:(lia) (or_intror (conj Hsz eq_refl))) as [Hm Hd].
  exists (<[name e := size e + (r + 1)]> m). split; [| by apply (fs_close (name e))].
  eapply (wf_set_size m _ s2 _ (Z.to_nat i) e (name e) (size e + (r + 1)) Hwf Ee2); try done; cbn.
  - right. lia.
  - exact (wf_deleted _ _ Hwf).
  - intros _. by apply (wf_names _ _ Hwf _ _ Ee2).
  - pose proof (wf_created _ _ Hwf). lia.
  - unfold used_one. cbn [size]. bcase; lia.
  - exact (wf_alloc _ _ Hwf).
  - exact (wf_src _ _ Hwf).
  - exact (wf_gen _ _ Hwf).
  - exact (wf_index _ _ Hwf).
Qed.
(** *** find_used_file *)
Definition in_use (s : st) (i : Z) : Prop :=
  0 <= i < 2 * simultaneous cfg /\
  forall e, file_table s !! Z.to_nat i = Some e -> size e <> 0.

Lemma find_used_file_spec m fuel s :
  wf m s ->
  safe (fun '(i, s') => in_use s' i /\ same_table m s s' /\ world s' = world s)
    (find_used_file cfg fuel s).
Proof.
  pose proof (ok_sim _ _ Hok). revert s. induction fuel as [| fuel IH]; intros s Hs; [done |].
  cbn [find_used_file]. eapply safe_bind; [apply returns_safe, RND_spec, Hs |].
  intros [i s1] (Hi0 & Hi1 & _ & g & -> & Hg). cbn beta iota.
  assert (Hs1 : wf m (set_gen g s)) by (by apply wf_set_gen).
  destruct (entry_Some m _ i Hs1 ltac:(lia)) as (e & -> & Ee). rewrite bind_Ret.
  destruct (Z.eqb_spec (size e) 0) as [Z0 | N0].
  - eapply safe_mono; [by apply IH |]. intros [k s2] (? & Hst & ?). split; [done |].
    split; [| done]. exact Hst.
  - cbn. split; [split; [lia |] |].
    + intros f Ef. congruence.
    + split; [| done]. by split.
Qed.

(** *** Transactions *)
Lemma transaction_work_spec fuel b s :
  good s -> files_created s < INT_MAX ->
  safe (fun s' => good s' /\ files_created s <= files_created s' <= files_created s + 1)
    (transaction_work E cfg locs fuel b s).
Proof.
  intros Hg Hc. unfold transaction_work.
  apply (safe_bind (fun s' => good s' /\ files_created s' = files_created s)).
  { destruct (bias_read cfg =? -1); [done |]. destruct Hg as (m & Hs & Ha).
    eapply safe_bind; [apply returns_safe, (RND_wf 10 m s _ Hs eq_refl) |].
    intros [r s1] (_ & _ & _ & Hs1 & Hw1 & _ & Ec1). cbn beta iota.
    destruct (r <? bias_read cfg).
    - eapply safe_bind; [apply (find_used_file_spec m), Hs1 |].
      intros [k s2] ([Hk Hu] & (Hs2 & _ & Ec2 & _) & Hw2). cbn beta iota.
      apply returns_safe. eapply returns_mono; [apply read_file_spec |];
        [exists m; split; [done | congruence] | done | done |].
      intros s3 (? & ? & ?). split; [done | congruence].
    - eapply safe_bind; [apply (find_used_file_spec m), Hs1 |].
      intros [k s2] ([Hk Hu] & (Hs2 & _ & Ec2 & _) & Hw2). cbn beta iota.
      apply returns_safe. eapply returns_mono; [apply append_file_spec |];
        [exists m; split; [done | congruence] | done | done |].
      intros s3 (? & ? & ?). split; [done | congruence]. }
  intros s1 [Hg1 Ec1].
  destruct (bias_create cfg =? -1); [cbn; split; [done | lia] |].
  destruct Hg1 as (m & Hs & Ha).
  eapply safe_bind; [apply returns_safe, (RND_wf 10 m s1 _ Hs eq_refl) |].
  intros [r s2] (_ & _ & _ & Hs2 & Hw2 & _ & Ec2). cbn beta iota.
  destruct (r <? bias_create cfg).
  - apply returns_safe. eapply returns_mono; [apply create_file_spec |];
      [exists m; split; [done | congruence] | lia |].
    intros s3 (? & ? & _ & _). split; [done | lia].
  - eapply safe_bind; [apply (find_used_file_spec m), Hs2 |].
    intros [k s3] ([Hk Hu] & (Hs3 & _ & Ec3 & _) & Hw3). cbn beta iota.
    apply returns_safe. eapply returns_mono; [apply delete_file_spec |];
      [exists m; split; [done | congruence] | done |].
    intros s4 (? & ? & _). split; [done | lia].
Qed.

Lemma transaction_spec fuel b i s :
  10 <= transactions cfg -> good s -> files_created s < INT_MAX ->
  safe (fun s' => good s' /\ files_created s <= files_created s' <= files_created s + 1)
    (transaction E cfg locs fuel b i s).
Proof.
  intros Hten Hg Hc. eapply safe_bind; [by apply transaction_work_spec |].
  intros s2 Hs2. cbn zeta.
  destruct (Z.eqb_spec (transactions cfg / 10) 0); [zdiv | done].
Qed.

(** With fewer than ten transactions the first one that runs is the last. *)
Lemma transaction_divides_by_zero fuel b i s :
  transactions cfg < 10 -> good s -> files_created s < INT_MAX ->
  forall s', transaction E cfg locs fuel b i s <> Ret s'.
Proof.
  intros Hten Hg Hc s' Eq. unfold transaction in Eq.
  apply bind_Ret_inv in Eq as (s1 & _ & Eq). pose proof (ok_trans _ _ Hok).
  cbn zeta in Eq. destruct (Z.eqb_spec (transactions cfg / 10) 0); [done | zdiv].
Qed.

Lemma run_transactions_spec n fuel b i s :
  10 <= transactions cfg -> good s -> 0 <= i -> i + Z.of_nat n = transactions cfg ->
  files_created s <= simultaneous cfg + i ->
  safe (fun '(inc, s') => good s' /\ 0 <= inc <= transactions cfg /\
    files_created s <= files_created s' <= simultaneous cfg + transactions cfg /\
    (inc <> 0 -> files_created s' = files_deleted s'))
    (run_transactions E cfg locs n fuel b i s).
Proof.
  intros Hten. pose proof (ok_total _ _ Hok). revert i s.
  induction n as [| n IH]; intros i s Hg Hi Hn Hc; cbn [run_transactions].
  { cbn. split; [done |]. lia. }
  destruct (Z.eqb_spec (files_created s) (files_deleted s)) as [E0 | N0].
  { cbn. split; [done |]. split; [lia |]. split; [lia | done]. }
  eapply safe_bind; [apply transaction_spec; [done | done | lia] |].
  intros s1 [Hg1 Ec1].
  eapply safe_mono; [apply IH; (done || lia) |].
  intros [inc s2] (? & ? & ? & ?). split; [done |]. split; [done |]. split; [lia | done].
Qed.

(** *** The phases of cli_run *)
Lemma fill_source_spec n s :
  MersenneTwister.gen_ok (gen s) ->
  returns (fun '(l, s') => length l = n /\ Forall (fun c => 32 <= c < 127) l /\
    exists g, s' = set_gen g s /\ MersenneTwister.gen_ok g) (fill_source n s).
Proof.
  revert s. induction n as [| n IH]; intros s Hg; cbn [fill_source].
  - apply returns_Ret. split; [done |]. split; [constructor |]. exists (gen s).
    by destruct s.
  - eapply returns_bind; [by apply RND_spec |].
    intros [r s1] (? & ? & _ & g & -> & Hg1). cbn beta iota.
    eapply returns_bind; [by apply IH |].
    intros [l s2] (Hl & Hf & g2 & -> & Hg2). apply returns_Ret. split; [cbn; by rewrite Hl |].
    split; [constructor; [lia | done] |]. by exists g2.
Qed.

Lemma create_phase b s :
  good s -> files_created s = 0 -> files_deleted s = 0 ->
  returns (fun s' => good s' /\ files_created s' = simultaneous cfg /\ files_deleted s' = 0)
    (each (simultaneous cfg) (fun _ => create_file E cfg locs b) s).
Proof.
  intros Hg Hc Hd. pose proof (ok_sim _ _ Hok).
  apply (for_c_inv (fun k s => good s /\ files_created s = k /\ files_deleted s = 0));
    [lia | done |].
  intros k t Hk (Hg' & Hc' & Hd').
  assert (Hu : used (file_table t) < 2 * simultaneous cfg).
  { destruct Hg' as (m & Hs & _). pose proof (wf_used _ _ Hs). pose proof (wf_deleted _ _ Hs). lia. }
  pose proof (create_file_spec b t Hg') as HC. pose proof (ok_total _ _ Hok).
  pose proof (ok_trans _ _ Hok).
  destruct HC as (t' & -> & ? & _ & Hd2 & Ht'); [lia |]. exists t'. split; [done |].
  split; [done |]. split; [rewrite Ht'; lia | congruence].
Qed.

Lemma delete_phase s :
  good s ->
  returns (fun s' => good s' /\ files_created s' = files_created s /\
    (Removes E -> forall i e, file_table s' !! i = Some e -> size e = 0))
    (each (2 * simultaneous cfg) (delete_file E) s).
Proof.
  intros Hg. pose proof (ok_sim _ _ Hok).
  eapply returns_mono.
  - apply (for_c_inv (fun k s' => good s' /\ files_created s' = files_created s /\
      (Removes E -> forall i e, Z.of_nat i < k -> file_table s' !! i = Some e -> size e = 0)));
      [lia | |].
    { split; [done |]. split; [done |]. intros; lia. }
    intros k t Hk (Hg' & Hc' & Hz).
    destruct (delete_file_spec k t Hg' Hk) as (t' & -> & Hg2 & Hc2 & Hold & Hclear).
    exists t'. split; [done |]. split; [done |]. split; [congruence |].
    intros Hr j e Hj Ee. destruct (Hold j e Ee) as [Ej | [_ ?]]; [| done].
    destruct (Z.eq_dec (Z.of_nat j) k) as [<- | Hne].
    + apply (Hclear Hr). by rewrite Nat2Z.id.
    + apply (Hz Hr j); [lia | done].
  - intros s' (Hg' & Hc' & Hz). split; [done |]. split; [done |]. intros Hr i e Ee.
    apply (Hz Hr i e); [| done]. destruct Hg' as (m & Hs & _).
    rewrite <- (wf_len _ _ Hs). apply lookup_lt_Some in Ee. lia.
Qed.

Lemma each_subdirectory_spec m (f : string -> W -> W) s :
  (forall n w, fs_agrees m w -> fs_agrees m (f n w)) ->
  fs_agrees m (world s) ->
  exists w, each_subdirectory cfg locs f s = set_world w s /\ fs_agrees m w.
Proof.
  intros Hf Ha. unfold each_subdirectory. cbn zeta.
  set (bases := match file_systems locs with [] => _ | _ => _ end). clearbody bases.
  revert s Ha. induction bases as [| base bases IH]; intros s Ha; cbn [fold_left].
  - exists (world s). by destruct s.
  - pose proof (ok_subdirs _ _ Hok).
    pose proof (for_pure_inv (fun _ t => exists w, t = set_world w s /\ fs_agrees m w)
      0 (subdirectories cfg)
      (fun i s => set_world (f (subdirectory base i) (world s)) s) s ltac:(lia)) as (w & -> & Hw).
    { exists (world s). by destruct s. }
    { intros k t _ (w & -> & Hw). eexists. split; [reflexivity |]. by apply Hf. }
    destruct (IH (set_world w s) Hw) as (w' & -> & Hw'). by exists w'.
Qed.
(** *** cli_run *)
Definition run_result (inc : Z) (s : st) : Prop :=
  files_created s - files_deleted s = used (file_table s) /\
  (forall i e, file_table s !! i = Some e ->
     size e = 0 \/ file_size_low cfg <= size e <= file_size_high cfg) /\
  simultaneous cfg <= files_created s <= simultaneous cfg + transactions cfg /\
  0 <= inc <= transactions cfg /\
  (Removes E -> fs_agrees ∅ (world s) /\ used (file_table s) = 0).

Lemma no_files_map (t : list file_entry) m :
  table_map t m -> (forall i e, t !! i = Some e -> size e = 0) -> m = ∅.
Proof.
  intros Hm Hz. apply map_eq. intros n. rewrite lookup_empty.
  destruct (m !! n) as [z |] eqn:En; [| done]. exfalso.
  apply Hm in En as (i & e & Ei & _ & Es & Hne). apply Hne. rewrite <- Es. by apply (Hz i).
Qed.

Lemma wf_initial src g (w : W) idx :
  Z.of_nat (length src) = 2 * file_size_high cfg -> MersenneTwister.gen_ok g ->
  (file_system_count locs <> 0 -> idx = build_location_index locs) ->
  wf ∅ (mkRun 0 0 0 0 (S754_zero false) (S754_zero false) src
          (replicate (Z.to_nat (2 * simultaneous cfg)) (mkFile "" 0)) 0 idx g w).
Proof.
  intros Hsrc Hg Hidx. pose proof (ok_sim _ _ Hok).
  assert (Hrep : forall i e, replicate (Z.to_nat (2 * simultaneous cfg)) (mkFile "" 0) !! i = Some e ->
    size e = 0) by (intros i e [-> _]%lookup_replicate; done).
  constructor; cbn; try (done || lia).
  - rewrite length_replicate. lia.
  - intros i e Ee. left. by apply (Hrep i).
  - intros n z. rewrite lookup_empty. split; [done |].
    intros (i & e & Ee & _ & Es & Hz). exfalso. apply Hz. rewrite <- Es. by apply (Hrep i).
  - intros i j e f Ee _ He. exfalso. by apply He, (Hrep i).
  - intros i e Ee He. exfalso. by apply He, (Hrep i).
  - by rewrite used_replicate.
Qed.

(** The phases before the transactions. *)
Lemma setup_spec s :
  Z.of_nat (length (MersenneTwister.mt (gen s))) = MersenneTwister.N ->
  fs_agrees ∅ (world s) ->
  returns (fun s' => good s' /\ files_created s' = simultaneous cfg /\ files_deleted s' = 0)
    (cli_setup E cfg locs s).
Proof.
  intros Hmt Ha. unfold cli_setup. cbn zeta.
  pose proof (ok_low _ _ Hok).
  destruct (MersenneTwister.sgenrand_seeded (seed cfg) (gen s) Hmt) as (g & Eg & Hg).
  apply MersenneTwister.seeded_ok in Hg.
  change (gen (reset_counters s)) with (gen s). rewrite Eg, bind_Ret.
  eapply returns_bind; [apply (fill_source_spec (Z.to_nat (2 * file_size_high cfg)));
    exact Hg |].
  intros [src s1] (Hsrc & _ & g1 & -> & Hg1). cbn beta iota.
  set (s2 := set_table _ _). set (s3 := if file_system_count locs >? 0 then _ else _).
  assert (Hs3 : wf ∅ s3 /\ fs_agrees ∅ (world s3) /\ files_created s3 = 0 /\ files_deleted s3 = 0).
  { unfold s3, s2. rewrite Z.gtb_ltb. pose proof (ok_count _ _ Hok).
    destruct (Z.ltb_spec 0 (file_system_count locs)); (split; [| done]);
      (apply wf_initial; [cbn; lia | done |]; (done || lia)). }
  clearbody s3. clear s2. destruct Hs3 as (Hwf3 & Ha3 & Hc3 & Hd3).
  set (s4 := if subdirectories cfg >? 1 then _ else s3).
  assert (Hs4 : good s4 /\ files_created s4 = 0 /\ files_deleted s4 = 0).
  { unfold s4. destruct (subdirectories cfg >? 1); [| by split; [exists ∅ |]].
    destruct (each_subdirectory_spec ∅ (env_mkdir E) s3) as (w & -> & Hw); [| done |].
    - intros n w. apply fs_mkdir.
    - split; [| done]. exists ∅. by split; [apply wf_set_world |]. }
  clearbody s4. destruct Hs4 as (Hg4 & Hc4 & Hd4). by apply create_phase.
Qed.

Lemma cli_run_spec fuel s :
  10 <= transactions cfg ->
  Z.of_nat (length (MersenneTwister.mt (gen s))) = MersenneTwister.N ->
  fs_agrees ∅ (world s) ->
  safe (fun '(inc, s') => run_result inc s') (cli_run E cfg locs fuel s).
Proof.
  intros Hten Hmt Ha. unfold cli_run. cbn zeta.
  eapply safe_bind; [by apply returns_safe, setup_spec |]. intros s5 (Hg5 & Hc5 & _).
  eapply safe_bind; [apply run_transactions_spec; (done || lia) |].
  intros [inc s6] (Hg6 & Hinc & Hc6 & _). cbn beta iota.
  eapply safe_bind; [by apply returns_safe, delete_phase |]. intros s7 (Hg7 & Hc7 & Hz).
  destruct Hg7 as (m & Hwf7 & Ha7).
  assert (Hrun : forall w, (Removes E -> fs_agrees ∅ w) -> run_result inc (set_index [] (set_world w s7))).
  { intros w Hw. split; [exact (wf_used _ _ Hwf7) |]. split; [exact (wf_size _ _ Hwf7) |].
    split; [cbn; lia |]. split; [done |]. intros Hr. split; [by apply Hw |]. cbn.
    destruct (Z.eq_dec (used (file_table s7)) 0) as [| Hne]; [done | exfalso].
    pose proof (used_nonneg (file_table s7)).
    destruct (used_pos (file_table s7)) as [(i & e & Ee & He) _]; [lia |].
    by apply He, (Hz Hr i). }
  assert (Hm : Removes E -> m = ∅).
  { intros Hr. exact (no_files_map _ _ (wf_map _ _ Hwf7) (Hz Hr)). }
  destruct (subdirectories cfg >? 1).
  - destruct (each_subdirectory_spec m (env_rmdir E) s7) as (w & -> & Hw); [| done |].
    + intros n w. apply fs_rmdir.
    + apply Hrun. intros Hr. by rewrite <- (Hm Hr).
  - replace s7 with (set_world (world s7) s7) by (by destruct s7). apply Hrun.
    intros Hr. by rewrite <- (Hm Hr).
Qed.
End Run.

(** ** Theorems *)


Definition small_config : config := mkConfig 3 20 6 42 12 2 4 8 5 5 true 0.
Definition small_locations : locations :=
  mkLocations [("/tmp/a"%string, 1); ("/tmp/b"%string, 2)] 2 3.
Lemma small_ok : config_ok small_config small_locations.
Proof.
  constructor; try (cbn; unfold INT_MAX; lia); try reflexivity; repeat constructor; cbn; lia.
Qed.



Definition small_result : cres (Z * run (gmap string (list Z))) :=
  cli_run mem_fs small_config small_locations 100 (initial_run ∅).


(** With one to nine transactions the progress indicator divides by zero:
    no run of any configuration that asks for them returns. *)
Theorem few_transactions_crash {W H} (E : env W H) (cfg : config) (locs : locations)
    (fuel : nat) (s : run W) :
  config_ok cfg locs -> transactions cfg < 10 ->
  Z.of_nat (length (MersenneTwister.mt (gen s))) = MersenneTwister.N ->
  cli_run E cfg locs fuel s = Undef \/ cli_run E cfg locs fuel s = NoFuel.
Proof.
  intros Hok Hten Hmt. pose (FS := AnyFs E). unfold cli_run.
  destruct (setup_spec E cfg locs Hok s Hmt (AnyFs_agrees E _ _)) as (s1 & -> & Hg & Hc & Hd).
  rewrite bind_Ret. pose proof (ok_trans _ _ Hok). pose proof (ok_sim _ _ Hok).
  pose proof (ok_total _ _ Hok).
  destruct (Z.to_nat (transactions cfg)) as [| n] eqn:En; [lia |]. cbn [run_transactions].
  destruct (Z.eqb_spec (files_created s1) (files_deleted s1)); [lia |].
  pose proof (transaction_work_spec E cfg locs Hok fuel (buffered_io cfg) s1 Hg ltac:(lia)) as Hw.
  unfold transaction. destruct (transaction_work _ _ _ _ _ _) as [s2 | | |]; try done.
  - rewrite bind_Ret. cbn zeta. destruct (Z.eqb_spec (transactions cfg / 10) 0); [by left | zdiv].
  - by right.
Qed.

Definition nine_transactions : config := mkConfig 3 20 2 42 9 0 4 8 5 5 true 0.
Lemma few_transactions_crash_witness :
  cli_run mem_fs nine_transactions small_locations 100 (initial_run ∅) = Undef \/
  cli_run mem_fs nine_transactions small_locations 100 (initial_run ∅) = NoFuel.
Proof.
  apply (few_transactions_crash mem_fs nine_transactions small_locations);
    [| cbn; lia | reflexivity].
  constructor; try (cbn; unfold INT_MAX; lia); try reflexivity; repeat constructor; cbn; lia.
Defined.

Lemma genrands_S n t :
  MersenneTwister.genrands (S n) t =
    ('(y, t) ← MersenneTwister.genrand t;
     '(ys, t) ← MersenneTwister.genrands n t; Ret (y :: ys, t)).
Proof. done. Qed.

(** C27: [find_used_file] ends as soon as the generator draws the index of an
    entry in use, with that index, and leaves the generator just after it. *)
Theorem find_used_file_first_hit {W} (cfg : config) (s : run W) (fuel : nat)
    (ys : list Z) (y : Z) (g : MersenneTwister.state) :
  0 < simultaneous cfg -> (length ys < fuel)%nat ->
  MersenneTwister.genrands (S (length ys)) (gen s) = Ret (ys ++ [y], g) ->
  let slot y := aget (file_table s) (y mod (2 * simultaneous cfg)) in
  Forall (fun y => exists e, slot y = Some e /\ size e = 0) ys ->
  (exists e, slot y = Some e /\ size e <> 0) ->
  find_used_file cfg fuel s = Ret (y mod (2 * simultaneous cfg), set_gen g s).
Proof.
  intros Hsim Hf Hg slot Hmiss Hhit.
  assert (HR : forall t, RND (2 * simultaneous cfg) t =
    ('(y, g) ← MersenneTwister.genrand (gen t);
     Ret (y mod (2 * simultaneous cfg), set_gen g t)) :> cres (Z * run W)).
  { intros t. unfold RND. rewrite Z.gtb_ltb. destruct (Z.ltb_spec 0 (2 * simultaneous cfg)); [done | lia]. }
  revert s fuel Hf Hg slot Hmiss Hhit.
  induction ys as [| x ys IH]; intros s fuel Hf Hg slot Hmiss Hhit;
    destruct fuel as [| fuel]; cbn [length] in Hf; try lia; cbn [find_used_file];
    cbn [length app] in Hg; rewrite genrands_S in Hg; rewrite HR;
    destruct (MersenneTwister.genrand (gen s)) as [[y1 g1] | | |]; try done;
    rewrite !bind_Ret; rewrite bind_Ret in Hg.
  - injection Hg as -> ->. destruct Hhit as (e & Ee & He).
    unfold slot in Ee. unfold entry. cbn [file_table set_gen]. rewrite Ee. cbn [deref].
    rewrite bind_Ret. by destruct (Z.eqb_spec (size e) 0).
  - destruct (MersenneTwister.genrands (S (length ys)) g1) as [[l g2] | | |] eqn:Eg; try done.
    rewrite bind_Ret in Hg. injection Hg as -> -> ->.
    apply Forall_cons in Hmiss as [(e & Ee & He) Hm]. unfold slot in Ee.
    unfold entry. cbn [file_table set_gen]. rewrite Ee. cbn [deref]. rewrite bind_Ret, He.
    cbn [Z.eqb]. rewrite (IH (set_gen g1 s) fuel); (done || lia).
Qed.

Definition one_file : run unit :=
  set_table [mkFile "" 0; mkFile "1" 7] (initial_run tt).
Lemma find_used_file_first_hit_witness :
  exists g, find_used_file (mkConfig 1 9 1 42 10 0 1 1 5 5 true 0) 3 one_file
    = Ret (2867219139 mod (2 * 1), set_gen g one_file).
Proof.
  eexists.
  apply (find_used_file_first_hit (mkConfig 1 9 1 42 10 0 1 1 5 5 true 0) one_file 3 [] 2867219139).
  - reflexivity.
  - cbn. lia.
  - vm_compute. reflexivity.
  - constructor.
  - exists (mkFile "1" 7). split; [vm_compute; reflexivity | cbn; lia].
Defined.

(** Writing in blocks is writing once: on the in-memory file system
    [write_blocks] appends exactly the first [size] bytes of the source buffer
    to the file, for any block size, and adds [size] to the counter. *)
Theorem write_blocks_is_one_write (cfg : config) (n : string) (size : Z) (c : list Z)
    (s : run (gmap string (list Z))) :
  1 <= write_block_size cfg -> 0 <= size <= Z.of_nat (length (file_source s)) ->
  world s !! n = Some c ->
  write_blocks mem_fs cfg n size s =
    Ret (set_bytes_written (float_add (bytes_written s) (float_of_int size))
           (set_world (<[n := c ++ take (Z.to_nat size) (file_source s)]> (world s)) s)).
Proof.
  intros Hb Hsize Hc. unfold write_blocks.
  assert (Hslice : forall o l w, 0 <= o -> 0 <= l -> o + l <= Z.of_nat (length (file_source s)) ->
    source_slice o l (set_world w s) = Ret (take (Z.to_nat l) (drop (Z.to_nat o) (file_source s)))).
  { intros o l w Ho Hl Hol. unfold source_slice. cbn [file_source set_world].
    destruct (Z.leb_spec 0 o), (Z.leb_spec 0 l),
      (Z.leb_spec (o + l) (Z.of_nat (length (file_source s)))); (done || lia). }
  assert (Htake : forall o l, 0 <= o -> 0 <= l ->
    take (Z.to_nat o) (file_source s) ++ take (Z.to_nat l) (drop (Z.to_nat o) (file_source s))
      = take (Z.to_nat (o + l)) (file_source s)).
  { intros o l Ho Hl.
    rewrite Z2Nat.inj_add by done. by rewrite take_take_drop. }
  set (file o := <[n := c ++ take (Z.to_nat o) (file_source s)]> (world s)).
  assert (Hwrite : forall o l, 0 <= o -> 0 <= l ->
    env_write mem_fs n (take (Z.to_nat l) (drop (Z.to_nat o) (file_source s))) (file o)
      = file (o + l)).
  { intros o l Ho Hl. unfold file. cbn [env_write mem_fs]. rewrite lookup_insert_eq.
    by rewrite insert_insert_eq, <- app_assoc, Htake. }
  assert (Heven : forall fuel i o, 0 <= i -> 0 <= o -> o + i = size -> (Z.to_nat i < fuel)%nat ->
    exists i' o', write_even mem_fs cfg fuel n i o (set_world (file o) s)
      = Ret (i', o', set_world (file o') s) /\ 0 <= i' /\ 0 <= o' /\ o' + i' = size).
  { induction fuel as [| fuel IH]; intros i o Hi Ho Hio Hf; [lia |]. cbn [write_even].
    destruct (Z.leb_spec (write_block_size cfg) i); [| eauto 10].
    rewrite Hslice, bind_Ret by lia. cbn [world set_world]. rewrite Hwrite by lia.
    destruct (IH (i - write_block_size cfg) (o + write_block_size cfg)) as (i' & o' & E & ?);
      try lia. exists i', o'. by split. }
  assert (E0 : s = set_world (file 0) s).
  { unfold file. change (Z.to_nat 0) with 0%nat. rewrite take_0, app_nil_r, insert_id by done.
    by destruct s. }
  destruct (Heven (S (Z.to_nat size)) size 0) as (i & o & E & Hi & Ho & Hio); try lia.
  rewrite <- E0 in E. rewrite E, bind_Ret, Hslice, bind_Ret by lia. cbn [world set_world].
  rewrite Hwrite by lia. unfold file. by rewrite Hio.
Qed.

Lemma write_blocks_is_one_write_witness :
  let s := set_source [65; 66; 67; 68; 69] (initial_run {["f"%string := [1]]}) in
  write_blocks mem_fs (mkConfig 1 9 1 42 10 0 1 2 5 5 true 0) "f" 5 s =
    Ret (set_bytes_written (float_add (bytes_written s) (float_of_int 5))
           (set_world (<["f"%string := [1] ++ take (Z.to_nat 5) (file_source s)]> (world s)) s)).
Proof. apply write_blocks_is_one_write; [cbn; lia | cbn; lia | reflexivity]. Defined.

End PostmarkRun.
