(* ===== verification/PostmarkLocations.v ===== *)
(** * postmark/postmark-1_5.c: the list of locations

    [set location] keeps its directories in a list linked through [next] and
    [prev], where the head's [prev] is the last element.  The model is the heap
    of its nodes: [calloc] returns a fresh address, [free] removes the node, so
    a use after free is [Undef]; that [calloc] finds memory is taken for granted.
    A name longer than its array and a counter past [INT_MAX] are [Undef] too.
    The specification is a list of names and
    weights; [dll] relates the two, and every operation is shown to implement
    its counterpart on lists. *)
From S2P Require Import Prelude.

Module PostmarkLocations.

(** [file_system]: the name and weight of its [system], and the links. *)
Record node := mkNode {
  sname : string;
  weight : Z;
  next : option nat;
  prev : option nat
}.

Record state := mkState {
  heap : gmap nat node;
  file_systems : option nat;
  file_system_weight : Z;
  file_system_count : Z
}.

Definition initial : state := mkState ∅ None 0 0.

Definition deref_node (h : gmap nat node) (p : option nat) : cres node :=
  a ← deref p; deref (h !! a).

Definition set_next (v p : option nat) (h : gmap nat node) : cres (gmap nat node) :=
  a ← deref p; n ← deref (h !! a);
  Ret (<[a := mkNode (sname n) (weight n) v (prev n)]> h).
Definition set_prev (v p : option nat) (h : gmap nat node) : cres (gmap nat node) :=
  a ← deref p; n ← deref (h !! a);
  Ret (<[a := mkNode (sname n) (weight n) (next n) v]> h).
Definition free (p : option nat) (h : gmap nat node) : cres (gmap nat node) :=
  a ← deref p; _ ← deref (h !! a); Ret (delete a h).

Definition calloc (h : gmap nat node) : nat := fresh (dom h).

Definition MAX_FILENAME : Z := 80.

(** [strcpy (new_file_system->system.name, params)] into the [MAX_FILENAME+1]
    bytes of [name]. *)
Definition strcpy_name (params : string) : cres string :=
  if Z.of_nat (String.length params) + 1 <=? MAX_FILENAME + 1 then Ret params else Undef.

(** The new node [a] is put at the end of the list: the new heap and head. *)
Definition link (a : nat) (fs : option nat) (h : gmap nat node)
    : cres (gmap nat node * option nat) :=
  match fs with
  | Some f =>
      head ← deref_node h (Some f);
      h ← set_prev (prev head) (Some a) h;
      head ← deref_node h (Some f);
      h ← set_next (Some a) (prev head) h;
      h ← set_prev (Some a) (Some f) h;
      Ret (h, Some f)
  | None =>
      h ← set_prev (Some a) (Some a) h;
      Ret (h, Some a)
  end.

Definition add_location (params : string) (w : Z) (s : state) : cres state :=
  let a := calloc (heap s) in
  name ← strcpy_name params;
  let h := <[a := mkNode name w None None]> (heap s) in
  '(h, fs) ← link a (file_systems s) h;
  wgt ← int32 (file_system_weight s + w);
  cnt ← int32 (file_system_count s + 1);
  Ret (mkState h fs wgt cnt).

(** The relinking in [delete_location] when [t] is not the only node: the new
    heap and the new head. *)
Definition relink (t : nat) (fs : option nat) (h : gmap nat node)
    : cres (gmap nat node * option nat) :=
  n ← deref_node h (Some t);
  head ← deref_node h fs;
  h ← (if decide (prev head = Some t) then set_prev (prev n) fs h else Ret h);
  n ← deref_node h (Some t);
  '(h, fs) ←
    (if decide (Some t = fs) then
       head ← deref_node h fs; Ret (h, next head)
     else h ← set_next (next n) (prev n) h; Ret (h, fs));
  n ← deref_node h (Some t);
  h ← match next n with
      | Some _ => set_prev (prev n) (next n) h
      | None => Ret h
      end;
  h ← free (Some t) h;
  Ret (h, fs).

(** The body of [delete_location] for the node [t] that it found. *)
Definition unlink (t : nat) (s : state) : cres state :=
  n ← deref_node (heap s) (Some t);
  wgt ← int32 (file_system_weight s - weight n);
  cnt ← int32 (file_system_count s - 1);
  head ← deref_node (heap s) (file_systems s);
  '(h, fs) ←
    (if decide (prev head = file_systems s) then
       h ← free (file_systems s) (heap s); Ret (h, None)
     else relink t (file_systems s) (heap s));
  Ret (mkState h fs wgt cnt).

(** [for (traverse = file_systems; traverse; traverse = traverse->next)]: the
    first node of that name; the fuel is the number of nodes. *)
Fixpoint find_location (fuel : nat) (h : gmap nat node) (p : option nat) (loc_name : string)
    : cres (option nat) :=
  match p with
  | None => Ret None
  | Some a =>
      match fuel with
      | O => NoFuel
      | S fuel =>
          n ← deref_node h (Some a);
          if decide (sname n = loc_name) then Ret (Some a)
          else find_location fuel h (next n) loc_name
      end
  end.

(** The boolean tells whether the location was found. *)
Definition delete_location (loc_name : string) (s : state) : cres (bool * state) :=
  t ← find_location (S (size (heap s))) (heap s) (file_systems s) loc_name;
  match t with
  | Some t => s ← unlink t s; Ret (true, s)
  | None => Ret (false, s)
  end.

Fixpoint free_all (fuel : nat) (p : option nat) (h : gmap nat node) : cres (gmap nat node) :=
  match p with
  | None => Ret h
  | Some a =>
      match fuel with
      | O => NoFuel
      | S fuel =>
          n ← deref_node h (Some a);
          h ← free (Some a) h;
          free_all fuel (next n) h
      end
  end.

Definition delete_locations (s : state) : cres state :=
  h ← free_all (S (size (heap s))) (file_systems s) (heap s);
  Ret (mkState h None 0 0).

(** The walk over the list that [cli_show] and [build_location_index] make. *)
Fixpoint walk (fuel : nat) (h : gmap nat node) (p : option nat) : cres (list (string * Z)) :=
  match p with
  | None => Ret []
  | Some a =>
      match fuel with
      | O => NoFuel
      | S fuel =>
          n ← deref_node h (Some a);
          l ← walk fuel h (next n);
          Ret ((sname n, weight n) :: l)
      end
  end.
Definition locations (s : state) : cres (list (string * Z)) :=
  walk (S (size (heap s))) (heap s) (file_systems s).

(** ** The specification *)
Fixpoint spec_delete (n : string) (l : list (string * Z)) : list (string * Z) :=
  match l with
  | [] => []
  | x :: l => if decide (x.1 = n) then l else x :: spec_delete n l
  end.

Definition sum_weights (l : list (string * Z)) : Z := foldr (fun x n => x.2 + n) 0 l.

(** ** The representation *)

(** The cells of a list segment from [p] to [q], with the addresses [as_]: the
    first cell's [prev] is [b]. *)
Fixpoint seg (b p : option nat) (as_ : list nat) (l : list (string * Z)) (q : option nat)
    (h : gmap nat node) : Prop :=
  match as_, l with
  | [], [] => p = q
  | a :: as_, (n, w) :: l =>
      p = Some a /\
      exists nx, h !! a = Some (mkNode n w nx b) /\ seg (Some a) nx as_ l q h
  | _, _ => False
  end.

(** [s] holds the list [l] in the nodes [as_]. *)
Definition dll (as_ : list nat) (l : list (string * Z)) (s : state) : Prop :=
  NoDup as_ /\ dom (heap s) = list_to_set as_ /\
  seg (last as_) (file_systems s) as_ l None (heap s) /\
  file_system_weight s = sum_weights l /\
  file_system_count s = Z.of_nat (length l).

Definition holds (l : list (string * Z)) (s : state) : Prop := exists as_, dll as_ l s.

(** ** Lemmas on segments *)
Definition last_or (as_ : list nat) (b : option nat) : option nat :=
  match last as_ with Some a => Some a | None => b end.

Lemma last_or_cons a as_ b : last_or (a :: as_) b = last_or as_ (Some a).
Proof. unfold last_or. rewrite last_cons. by destruct (last as_). Qed.

Lemma last_or_nonempty as_ b c : as_ <> [] -> last_or as_ b = last_or as_ c.
Proof. destruct as_ as [| a as_]; [done |]. by rewrite !last_or_cons. Qed.

Lemma seg_length b p as_ l q h : seg b p as_ l q h -> length as_ = length l.
Proof.
  revert b p l. induction as_ as [| a as_ IH]; intros b p [| [n w] l]; cbn; try done.
  intros (_ & nx & _ & H). f_equal. by eapply IH.
Qed.

Lemma seg_frame b p as_ l q h h' :
  (forall a, a ∈ as_ -> h' !! a = h !! a) -> seg b p as_ l q h -> seg b p as_ l q h'.
Proof.
  revert b p l. induction as_ as [| a as_ IH]; intros b p [| [n w] l] F; cbn; try done.
  intros (-> & nx & Ea & H). split; [done |]. exists nx. rewrite F by (left; done).
  split; [done |]. apply IH; [| done]. intros x Hx. apply F. by right.
Qed.

Lemma seg_app b p as1 as2 l1 l2 q h :
  length as1 = length l1 ->
  seg b p (as1 ++ as2) (l1 ++ l2) q h <->
  exists m, seg b p as1 l1 m h /\ seg (last_or as1 b) m as2 l2 q h.
Proof.
  revert b p l1. induction as1 as [| a as1 IH]; intros b p [| [n w] l1] Hlen; try done.
  - cbn. split; [intros H; by exists p | by intros (m & -> & H)].
  - cbn [app seg]. injection Hlen as Hlen. split.
    + intros (-> & nx & Ea & H). apply IH in H as (m & H1 & H2); [| done].
      exists m. rewrite last_or_cons. split; [| done]. split; [done |]. eauto.
    + intros (m & (-> & nx & Ea & H1) & H2). rewrite last_or_cons in H2.
      split; [done |]. exists nx. split; [done |]. apply IH; [done | eauto].
Qed.

Lemma seg_split b p as1 a as2 l q h :
  seg b p (as1 ++ a :: as2) l q h ->
  exists l1 n w nx l2, l = l1 ++ (n, w) :: l2 /\ length as1 = length l1 /\
    seg b p as1 l1 (Some a) h /\ h !! a = Some (mkNode n w nx (last_or as1 b)) /\
    seg (Some a) nx as2 l2 q h.
Proof.
  intros H. pose proof (seg_length _ _ _ _ _ _ H) as Hlen. rewrite length_app in Hlen.
  rewrite <- (take_drop (length as1) l) in H.
  assert (Ht : length as1 = length (take (length as1) l)) by (rewrite length_take; lia).
  apply seg_app in H as (m & H1 & H2); [| done].
  destruct (drop (length as1) l) as [| [n w] l2] eqn:Ed; [done |].
  cbn in H2. destruct H2 as (-> & nx & Ea & H2).
  exists (take (length as1) l), n, w, nx, l2. split; [by rewrite <- Ed, take_drop |]. done.
Qed.

(** ** Assignments to links *)
Lemma set_prev_eq v a n h :
  h !! a = Some n -> set_prev v (Some a) h = Ret (<[a := mkNode (sname n) (weight n) (next n) v]> h).
Proof. intros E. unfold set_prev. cbn [deref]. by rewrite bind_Ret, E. Qed.

Lemma set_next_eq v a n h :
  h !! a = Some n -> set_next v (Some a) h = Ret (<[a := mkNode (sname n) (weight n) v (prev n)]> h).
Proof. intros E. unfold set_next. cbn [deref]. by rewrite bind_Ret, E. Qed.

Lemma deref_node_eq h a n : h !! a = Some n -> deref_node h (Some a) = Ret n.
Proof. intros E. unfold deref_node. cbn [deref]. by rewrite bind_Ret, E. Qed.

Lemma free_eq h a n : h !! a = Some n -> free (Some a) h = Ret (delete a h).
Proof. intros E. unfold free. cbn [deref]. by rewrite bind_Ret, E. Qed.

Lemma dom_update (h : gmap nat node) a n m : h !! a = Some m -> dom (<[a := n]> h) = dom h.
Proof. intros E. apply dom_insert_lookup_L. by rewrite E. Qed.

(** The first cell's [prev] and the last cell's [next] can be changed. *)
Lemma seg_head_prev v b a as_ l q h :
  NoDup (a :: as_) -> seg b (Some a) (a :: as_) l q h ->
  exists h', set_prev v (Some a) h = Ret h' /\ seg v (Some a) (a :: as_) l q h' /\
    dom h' = dom h /\ (forall x, x <> a -> h' !! x = h !! x).
Proof.
  intros Hnd. destruct l as [| [n w] l]; [done |]. intros (_ & nx & Ea & H).
  rewrite (set_prev_eq v _ _ _ Ea). cbn [sname weight next]. eexists. split; [done |].
  apply NoDup_cons in Hnd as [Hna _]. split.
  - split; [done |]. exists nx. rewrite lookup_insert_eq. split; [done |].
    eapply seg_frame; [| exact H]. intros x Hx. rewrite lookup_insert_ne; [done |].
    by intros ->.
  - split; [by eapply dom_update |]. intros x Hx. by rewrite lookup_insert_ne.
Qed.

Lemma seg_last_next v b p as_ z l q h :
  NoDup (as_ ++ [z]) -> seg b p (as_ ++ [z]) l q h ->
  exists h', set_next v (Some z) h = Ret h' /\ seg b p (as_ ++ [z]) l v h' /\
    dom h' = dom h /\ (forall x, x <> z -> h' !! x = h !! x).
Proof.
  intros Hnd H. apply seg_split in H as (l1 & n & w & nx & l2 & -> & Hlen & H1 & Ez & H2).
  destruct l2; [| done]. rewrite (set_next_eq v _ _ _ Ez). cbn [sname weight prev].
  eexists. split; [done |]. split.
  - apply seg_app; [done |]. exists (Some z). split.
    + eapply seg_frame; [| exact H1]. intros x Hx. rewrite lookup_insert_ne; [done |].
      intros ->. apply NoDup_app in Hnd as (_ & Hd & _). by apply (Hd x Hx); left.
    + split; [done |]. exists v. by rewrite lookup_insert_eq.
  - split; [by eapply dom_update |]. intros x Hx. by rewrite lookup_insert_ne.
Qed.

Lemma last_snoc_or (as_ : list nat) z b : last_or (as_ ++ [z]) b = Some z.
Proof. unfold last_or. by rewrite last_snoc. Qed.

Lemma sum_weights_cons x l : sum_weights (x :: l) = x.2 + sum_weights l.
Proof. done. Qed.

Lemma sum_weights_app l k : sum_weights (l ++ k) = sum_weights l + sum_weights k.
Proof. unfold sum_weights. induction l as [| x l IH]; cbn; [done |]. rewrite IH. lia. Qed.

Lemma dom_snoc (as_ : list nat) a :
  list_to_set (as_ ++ [a]) = {[a]} ∪ list_to_set as_ :> gset nat.
Proof.
  rewrite list_to_set_app_L. cbn [list_to_set foldr].
  by rewrite (right_id_L ∅ (∪)), (comm_L (∪)).
Qed.

(** ** Refinement *)
(** What [int] can count: positive weights with a sum that is an [int]. *)
Definition bounded (l : list (string * Z)) : Prop :=
  Forall (fun x => 1 <= x.2) l /\ sum_weights l <= INT_MAX.

Lemma sum_bounds l : Forall (fun x => 1 <= x.2) l -> 0 <= Z.of_nat (length l) <= sum_weights l.
Proof.
  induction 1 as [| x l Hx F IH]; [done |]. rewrite sum_weights_cons. cbn [length]. lia.
Qed.

Lemma bounded_app l1 l2 : bounded (l1 ++ l2) -> bounded l1 /\ bounded l2.
Proof.
  intros [F Hs]. apply Forall_app in F as [F1 F2]. rewrite sum_weights_app in Hs.
  pose proof (sum_bounds _ F1). pose proof (sum_bounds _ F2). split; (split; [done | lia]).
Qed.

(** The node list and the heap, without the counters. *)
Definition shape (as_ : list nat) (l : list (string * Z)) (fs : option nat) (h : gmap nat node) : Prop :=
  NoDup as_ /\ dom h = list_to_set as_ /\ seg (last as_) fs as_ l None h.

Lemma link_refines n w as_ l fs h :
  shape as_ l fs h ->
  returns (fun '(h', fs') => exists as', shape as' (l ++ [(n, w)]) fs' h')
    (link (calloc h) fs (<[calloc h := mkNode n w None None]> h)).
Proof.
  intros (Hnd & Hdom & Hseg).
  set (a := calloc h). set (h1 := <[a := _]> h).
  assert (Hfresh : a ∉ as_).
  { intros Ha. pose proof (is_fresh (dom h)) as F. apply F. rewrite Hdom at 2.
    by apply elem_of_list_to_set. }
  assert (Hseg1 : seg (last as_) fs as_ l None h1).
  { eapply seg_frame; [| exact Hseg]. intros x Hx. unfold h1.
    rewrite lookup_insert_ne; [done |]. by intros ->. }
  assert (Hd1 : dom h1 = {[a]} ∪ dom h) by (unfold h1; by rewrite dom_insert_L).
  assert (Ea : h1 !! a = Some (mkNode n w None None)) by (unfold h1; by rewrite lookup_insert_eq).
  clearbody h1. destruct as_ as [| a0 as0].
  - destruct l; [| done]. cbn in Hseg. rewrite Hseg.
    cbn [link]. rewrite (set_prev_eq _ _ _ _ Ea), !bind_Ret. cbn [sname weight next]. apply returns_Ret.
    exists [a]. split; [apply NoDup_singleton |]. split.
    { rewrite (dom_update _ _ _ _ Ea), Hd1, Hdom. exact (eq_sym (dom_snoc [] a)). }
    cbn. split; [done |]. exists None. by rewrite lookup_insert_eq.
  - destruct (fs) as [f |] eqn:Ef; [| by destruct l as [| [] ?]; [done | destruct Hseg1 as [[=] _]]].
    assert (f = a0) as ->.
    { destruct l as [| [] ?]; cbn in Hseg1; [done | destruct Hseg1 as [[=] _]; done]. }
    destruct (last (a0 :: as0)) as [z |] eqn:Ez; [| by apply last_None in Ez].
    apply last_Some in Ez as [as1 Ez].
    assert (Hz : z ∈ a0 :: as0) by (rewrite Ez; apply elem_of_app; right; by left).
    assert (Hhead : exists nd, h1 !! a0 = Some nd /\ prev nd = Some z).
    { destruct l as [| [] ?]; cbn in Hseg1; [done |].
      destruct Hseg1 as (_ & nx & E0 & _). by eexists. }
    destruct Hhead as (nd & E0 & Hp). cbn [link]. rewrite (deref_node_eq _ _ _ E0), bind_Ret, Hp.
    rewrite (set_prev_eq _ _ _ _ Ea), bind_Ret. cbn [sname weight next].
    set (h2 := <[a := _]> h1).
    assert (Hseg2 : seg (Some z) (Some a0) (a0 :: as0) l None h2).
    { eapply seg_frame; [| exact Hseg1]. intros x Hx. unfold h2.
      rewrite lookup_insert_ne; [done |]. by intros ->. }
    assert (E2 : h2 !! a0 = Some nd).
    { unfold h2. rewrite lookup_insert_ne; [done |]. intros ->. apply Hfresh. by left. }
    assert (Ea2 : h2 !! a = Some (mkNode n w None (Some z))) by (unfold h2; by rewrite lookup_insert_eq).
    assert (Hd2 : dom h2 = dom h1) by (unfold h2; by eapply dom_update). clearbody h2.
    rewrite (deref_node_eq _ _ _ E2), bind_Ret, Hp.
    assert (Hza : z <> a) by (by intros ->).
    rewrite Ez in Hseg2, Hnd.
    destruct (seg_last_next (Some a) _ _ _ _ _ _ _ Hnd Hseg2) as (h3 & -> & Hseg3 & Hd3 & Hf3).
    rewrite bind_Ret. rewrite <- Ez in Hseg3, Hnd.
    destruct (seg_head_prev (Some a) _ _ _ _ _ _ Hnd Hseg3) as (h4 & -> & Hseg4 & Hd4 & Hf4).
    rewrite !bind_Ret. apply returns_Ret. exists ((a0 :: as0) ++ [a]). split.
    { apply NoDup_app. split; [done |]. split; [| apply NoDup_singleton].
      intros x Hx Hxa. apply list_elem_of_singleton in Hxa as ->. done. }
    split; [by rewrite Hd4, Hd3, Hd2, Hd1, Hdom, dom_snoc |].
    rewrite last_snoc.
    apply seg_app; [by eapply seg_length |]. exists (Some a). split; [exact Hseg4 |].
    rewrite Ez, last_snoc_or. cbn. split; [done |]. exists None. split; [| done].
    assert (a <> a0) by (intros ->; apply Hfresh; by left).
    rewrite Hf4, Hf3 by congruence. exact Ea2.
Qed.

Lemma strcpy_name_fits n :
  strcpy_name n = if Z.of_nat (String.length n) <=? MAX_FILENAME then Ret n else Undef.
Proof.
  unfold strcpy_name. destruct (Z.leb_spec (Z.of_nat (String.length n)) MAX_FILENAME);
    [rewrite (proj2 (Z.leb_le _ _)) | rewrite (proj2 (Z.leb_gt _ _))]; (done || lia).
Qed.

(** What [add_location] has room for: the name in its array, the sum of the
    weights in an [int]. *)
Definition add_fits (n : string) (w : Z) (l : list (string * Z)) : bool :=
  (Z.of_nat (String.length n) <=? MAX_FILENAME) && (sum_weights l + w <=? INT_MAX).

Lemma bounded_snoc n w l : bounded l -> 1 <= w -> add_fits n w l = true -> bounded (l ++ [(n, w)]).
Proof.
  intros [F _] Hw Hfit. unfold add_fits in Hfit. rewrite andb_true_iff, !Z.leb_le in Hfit.
  split; [apply Forall_app; split; [done | by repeat constructor] |].
  rewrite sum_weights_app. cbn. lia.
Qed.

Lemma add_location_refines n w l s :
  holds l s -> bounded l -> 1 <= w ->
  if add_fits n w l then returns (holds (l ++ [(n, w)])) (add_location n w s)
  else add_location n w s = Undef.
Proof.
  intros (as_ & Hnd & Hdom & Hseg & Hw & Hc) [Hpos Hmax] Hw1. pose proof (sum_bounds l Hpos) as Hs.
  unfold add_location, add_fits. cbn zeta. rewrite strcpy_name_fits.
  destruct (_ <=? MAX_FILENAME); cbn [andb]; [| done]. rewrite bind_Ret.
  destruct (link_refines n w as_ l (file_systems s) (heap s)) as ([h fs] & -> & as' & Hnd' & Hd' & Hs');
    [by repeat split |].
  rewrite bind_Ret. rewrite Hw, Hc. unfold INT_MAX in *.
  destruct (Z.leb_spec (sum_weights l + w) 2147483647) as [Hle | Hgt].
  2: { by rewrite (sint_Undef 32 (sum_weights l + w)) by lia. }
  rewrite (sint_Ret 32 (sum_weights l + w)), bind_Ret by lia.
  rewrite (sint_Ret 32 (Z.of_nat (length l) + 1)), bind_Ret by lia.
  apply returns_Ret. exists as'. split; [done |]. split; [done |].
  split; [done |]. cbn [file_system_weight file_system_count].
  rewrite sum_weights_app, length_app. cbn. split; lia.
Qed.

(** The search finds the first cell of that name. *)
Lemma find_location_spec fuel b p as_ l h n :
  (length as_ < fuel)%nat -> seg b p as_ l None h ->
  (find_location fuel h p n = Ret None /\ Forall (fun x => x.1 <> n) l) \/
  exists as1 t as2 l1 w l2,
    find_location fuel h p n = Ret (Some t) /\ as_ = as1 ++ t :: as2 /\
    l = l1 ++ (n, w) :: l2 /\ length as1 = length l1 /\ Forall (fun x => x.1 <> n) l1.
Proof.
  revert b p as_ l. induction fuel as [| fuel IH]; intros b p as_ l Hf H; [lia |].
  destruct as_ as [| a as_], l as [| [m w] l]; try done.
  - cbn in H. subst. left. by split; [| constructor].
  - destruct H as (-> & nx & Ea & H). cbn [find_location length] in *.
    rewrite (deref_node_eq _ _ _ Ea), bind_Ret. cbn [sname next].
    destruct (decide (m = n)) as [-> | Hmn].
    + right. exists [], a, as_, [], w, l. repeat (split; [done |]). constructor.
    + destruct (IH (Some a) nx as_ l ltac:(lia) H)
        as [[E F] | (as1 & t & as2 & l1 & w' & l2 & E & -> & -> & Hlen & F)].
      * left. split; [done |]. by constructor.
      * right. exists (a :: as1), t, as2, ((m, w) :: l1), w', l2. split; [done |].
        split; [done |]. split; [done |]. split; [cbn; by rewrite Hlen |]. by constructor.
Qed.

Lemma spec_delete_none n l : Forall (fun x => x.1 <> n) l -> spec_delete n l = l.
Proof. induction 1 as [| x l Hx _ IH]; cbn; [done |]. rewrite decide_False by done. by rewrite IH. Qed.

Lemma spec_delete_first n w l1 l2 :
  Forall (fun x => x.1 <> n) l1 -> spec_delete n (l1 ++ (n, w) :: l2) = l1 ++ l2.
Proof.
  induction 1 as [| x l Hx _ IH]; cbn; [by rewrite decide_True |].
  rewrite decide_False by done. by rewrite IH.
Qed.

Lemma holds_size l s as_ : dll as_ l s -> size (heap s) = length as_.
Proof.
  intros (Hnd & Hdom & _). rewrite <- size_dom, Hdom.
  by apply size_list_to_set.
Qed.

Lemma dom_remove (as1 as2 : list nat) t :
  NoDup (as1 ++ t :: as2) ->
  list_to_set (as1 ++ t :: as2) ∖ {[t]} = list_to_set (as1 ++ as2) :> gset nat.
Proof.
  intros Hnd. apply NoDup_app in Hnd as (H1 & Hd & H2). apply NoDup_cons in H2 as [Ht _].
  assert (t ∉ as1) by (intros Hx; apply (Hd t Hx); by left).
  apply set_eq. intros x. rewrite elem_of_difference, !elem_of_list_to_set, elem_of_singleton.
  rewrite !elem_of_app, elem_of_cons. clear H1 Hd.
  split; [tauto |]. intros [Hx | Hx]; (split; [auto |]); by intros ->.
Qed.

Lemma NoDup_remove_mid (as1 as2 : list nat) t :
  NoDup (as1 ++ t :: as2) -> NoDup (as1 ++ as2) /\ t ∉ as1 ++ as2.
Proof.
  intros H. rewrite <- Permutation_middle in H. apply NoDup_cons in H. tauto.
Qed.

(** Freeing a node that is not in the list. *)
Lemma free_outside b p as_ l q h t n :
  h !! t = Some n -> t ∉ as_ -> seg b p as_ l q h ->
  free (Some t) h = Ret (delete t h) /\ seg b p as_ l q (delete t h).
Proof.
  intros Et Ht H. split; [by eapply free_eq |]. eapply seg_frame; [| exact H].
  intros a Ha. rewrite lookup_delete_ne; [done |]. by intros ->.
Qed.

Lemma last_mid (as1 as2 : list nat) t : last (as1 ++ t :: as2) = last_or as2 (Some t).
Proof. rewrite last_app_cons. unfold last_or. rewrite last_cons. by destruct (last as2). Qed.

Lemma last_or_not (as2 : list nat) t b :
  as2 <> [] -> t ∉ as2 -> last_or as2 b <> Some t.
Proof.
  intros Hne Ht. unfold last_or. destruct (last as2) as [z |] eqn:Ez.
  - intros [= ->]. apply Ht. apply last_Some in Ez as [k ->]. apply elem_of_app. right. by left.
  - by apply last_None in Ez.
Qed.

(** The node is the head of a longer list. *)
Lemma relink_head t as2 n w l2 h :
  NoDup (t :: as2) -> as2 <> [] -> h !! t = Some (mkNode n w (head as2) (last as2)) ->
  seg (Some t) (head as2) as2 l2 None h ->
  exists h' fs, relink t (Some t) h = Ret (h', fs) /\
    dom h' = dom h ∖ {[t]} /\ seg (last as2) fs as2 l2 None h'.
Proof.
  intros Hnd Hne Et Hseg. apply NoDup_cons in Hnd as [Ht Hnd]. unfold relink.
  rewrite (deref_node_eq _ _ _ Et), !bind_Ret. cbn [prev].
  rewrite decide_False.
  2: { pose proof (last_or_not as2 t None Hne Ht) as Hl. unfold last_or in Hl.
       by destruct (last as2). }
  rewrite bind_Ret, (deref_node_eq _ _ _ Et), bind_Ret, decide_True by done.
  rewrite !bind_Ret. rewrite (deref_node_eq _ _ _ Et), bind_Ret. cbn [next prev].
  destruct as2 as [| a2 as2]; [done |]. cbn [head] in *.
  destruct (seg_head_prev (last (a2 :: as2)) _ _ _ _ _ _ Hnd Hseg) as (h1 & -> & H1 & Hd & Hf).
  rewrite bind_Ret. rewrite <- Hf in Et by (intros ->; apply Ht; by left).
  destruct (free_outside _ _ _ _ _ _ _ _ Et Ht H1) as [-> H2]. rewrite bind_Ret.
  exists (delete t h1), (Some a2). split; [done |]. split; [by rewrite dom_delete_L, Hd | done].
Qed.

(** The node is the last of a longer list. *)
Lemma relink_last f as1 t n w l1 h :
  NoDup ((f :: as1) ++ [t]) -> h !! t = Some (mkNode n w None (last (f :: as1))) ->
  seg (Some t) (Some f) (f :: as1) l1 (Some t) h ->
  exists h' fs, relink t (Some f) h = Ret (h', fs) /\
    dom h' = dom h ∖ {[t]} /\ seg (last (f :: as1)) fs (f :: as1) l1 None h'.
Proof.
  intros Hnd Et Hseg. apply NoDup_app in Hnd as (Hnd & Hdis & _).
  assert (Ht : t ∉ f :: as1) by (intros Hx; apply (Hdis t Hx); by left).
  assert (Htf : Some t <> Some f) by (intros [= ->]; apply Ht; by left).
  unfold relink. rewrite (deref_node_eq _ _ _ Et), bind_Ret.
  destruct (seg_head_prev (last (f :: as1)) _ _ _ _ _ _ Hnd Hseg) as (h1 & E1 & H1 & Hd1 & Hf1).
  destruct l1 as [| [m v] l1]; [done |]. destruct Hseg as (_ & nx & Ef & _).
  rewrite (deref_node_eq _ _ _ Ef), bind_Ret. cbn [prev]. rewrite decide_True by done.
  rewrite E1, bind_Ret. rewrite <- (Hf1 t) in Et by congruence.
  rewrite (deref_node_eq _ _ _ Et), bind_Ret, decide_False by done. cbn [next prev].
  destruct (last (f :: as1)) as [z |] eqn:Ez; [| by apply last_None in Ez].
  pose proof Ez as Ez'. apply last_Some in Ez' as [as0 Eas]. rewrite Eas in Hnd, H1, Ht.
  destruct (seg_last_next None _ _ _ _ _ _ _ Hnd H1) as (h2 & -> & H2 & Hd2 & Hf2).
  rewrite !bind_Ret. rewrite <- (Hf2 t) in Et
    by (intros ->; apply Ht, elem_of_app; right; by left).
  rewrite (deref_node_eq _ _ _ Et), !bind_Ret. cbn [next]. rewrite bind_Ret.
  destruct (free_outside _ _ _ _ _ _ _ _ Et Ht H2) as [-> H3]. rewrite bind_Ret.
  exists (delete t h2), (Some f). split; [done |].
  split; [by rewrite dom_delete_L, Hd2, Hd1 | by rewrite Eas].
Qed.

(** The node has neighbours on both sides. *)
Lemma relink_middle b f as1 t a2 as2 n w l1 l2 h :
  NoDup ((f :: as1) ++ t :: a2 :: as2) -> b <> Some t -> length (f :: as1) = length l1 ->
  h !! t = Some (mkNode n w (Some a2) (last_or (f :: as1) b)) ->
  seg b (Some f) (f :: as1) l1 (Some t) h -> seg (Some t) (Some a2) (a2 :: as2) l2 None h ->
  exists h' fs, relink t (Some f) h = Ret (h', fs) /\
    dom h' = dom h ∖ {[t]} /\ seg b fs ((f :: as1) ++ a2 :: as2) (l1 ++ l2) None h'.
Proof.
  intros Hnd Hb Hlen Et H1 H2.
  destruct (NoDup_remove_mid _ _ _ Hnd) as [Hnd' Ht].
  apply NoDup_app in Hnd' as (Hnd1 & Hdis & Hnd2).
  assert (Htf : Some t <> Some f) by (intros [= ->]; apply Ht; by left).
  unfold relink. rewrite (deref_node_eq _ _ _ Et), bind_Ret.
  assert (Ef : exists nd, h !! f = Some nd /\ prev nd = b).
  { destruct l1 as [| [m v] l1]; [done |]. destruct H1 as (_ & nx & Ef & _). by eexists. }
  destruct Ef as (nd & Ef & Hp). rewrite (deref_node_eq _ _ _ Ef), bind_Ret, Hp.
  rewrite decide_False, bind_Ret, (deref_node_eq _ _ _ Et), bind_Ret, decide_False by done.
  cbn [next prev].
  destruct (last (f :: as1)) as [z |] eqn:Ez; [| by apply last_None in Ez].
  pose proof Ez as Ez'. apply last_Some in Ez' as [as0 Eas].
  rewrite Eas in *. rewrite last_snoc_or in *.
  assert (Hz : z ∈ as0 ++ [z]) by (apply elem_of_app; right; by left).
  destruct (seg_last_next (Some a2) _ _ _ _ _ _ _ Hnd1 H1) as (h1 & -> & H1' & Hd1 & Hf1).
  rewrite !bind_Ret.
  rewrite <- (Hf1 t) in Et by (intros ->; apply Ht, elem_of_app; by left).
  rewrite (deref_node_eq _ _ _ Et), bind_Ret. cbn [next prev].
  assert (H2' : seg (Some t) (Some a2) (a2 :: as2) l2 None h1).
  { eapply seg_frame; [| exact H2]. intros x Hx. apply Hf1. intros ->. by apply (Hdis z Hz). }
  destruct (seg_head_prev (Some z) _ _ _ _ _ _ Hnd2 H2') as (h2 & -> & H2'' & Hd2 & Hf2).
  rewrite bind_Ret.
  rewrite <- (Hf2 t) in Et by (intros ->; apply Ht, elem_of_app; right; by left).
  assert (H1'' : seg b (Some f) (as0 ++ [z]) l1 (Some a2) h2).
  { eapply seg_frame; [| exact H1']. intros x Hx. apply Hf2. intros ->.
    apply (Hdis a2 Hx). by left. }
  assert (Hall : seg b (Some f) ((as0 ++ [z]) ++ a2 :: as2) (l1 ++ l2) None h2).
  { apply seg_app; [done |]. exists (Some a2). rewrite last_snoc_or. done. }
  destruct (free_outside _ _ _ _ _ _ _ _ Et Ht Hall) as [-> H3]. rewrite bind_Ret.
  exists (delete t h2), (Some f). split; [done |].
  split; [by rewrite dom_delete_L, Hd2, Hd1 | done].
Qed.

Lemma seg_start b p as_ l h : seg b p as_ l None h -> p = head as_.
Proof. destruct as_, l as [| [] ?]; cbn; try done. by intros (-> & _). Qed.

Lemma unlink_refines as1 t as2 l1 n w l2 s :
  length as1 = length l1 ->
  dll (as1 ++ t :: as2) (l1 ++ (n, w) :: l2) s -> bounded (l1 ++ (n, w) :: l2) ->
  returns (holds (l1 ++ l2)) (unlink t s).
Proof.
  intros Hlen (Hnd & Hdom & Hseg & Hw & Hc) [Hpos Hmax]. unfold unlink.
  assert (Hsum : file_system_weight s - w = sum_weights (l1 ++ l2)).
  { rewrite Hw, !sum_weights_app, sum_weights_cons. cbn [snd]. lia. }
  assert (Hcnt : file_system_count s - 1 = Z.of_nat (length (l1 ++ l2))).
  { rewrite Hc, !length_app. cbn. lia. }
  assert (Hrest : Forall (fun x => 1 <= x.2) (l1 ++ l2) /\ 1 <= w).
  { apply Forall_app in Hpos as [H1 H2]. apply Forall_cons in H2 as [Hw1 H2].
    split; [by apply Forall_app | exact Hw1]. }
  destruct Hrest as [Hrest Hw1].
  apply sum_bounds in Hrest. apply sum_bounds in Hpos. unfold INT_MAX in Hmax.
  set (b := last (as1 ++ t :: as2)) in *.
  apply seg_app in Hseg as (m & H1 & H2); [| done].
  destruct H2 as (-> & nx & Et & H2). pose proof (seg_start _ _ _ _ _ H2) as ->.
  rewrite (deref_node_eq _ _ _ Et), bind_Ret. cbn [weight].
  rewrite (sint_Ret 32 (file_system_weight s - w)), bind_Ret by lia.
  rewrite (sint_Ret 32 (file_system_count s - 1)), bind_Ret by lia.
  assert (Hdone : forall h' fs, dom h' = dom (heap s) ∖ {[t]} ->
    seg (last (as1 ++ as2)) fs (as1 ++ as2) (l1 ++ l2) None h' ->
    holds (l1 ++ l2) (mkState h' fs (file_system_weight s - w) (file_system_count s - 1))).
  { intros h' fs Hd' Hs'. exists (as1 ++ as2). split; [by apply (NoDup_remove_mid _ _ t) |].
    split; [| by split]. cbn [heap]. by rewrite Hd', Hdom, dom_remove. }
  destruct as1 as [| f as1].
  - destruct l1; [| done]. cbn in H1. rewrite H1. cbn [app] in *.
    rewrite (deref_node_eq _ _ _ Et), bind_Ret. cbn [prev last_or last].
    unfold last_or in Et. cbn [last] in Et. destruct as2 as [| a2 as2].
    + rewrite decide_True by done. rewrite (free_eq _ _ _ Et), !bind_Ret. apply returns_Ret.
      destruct l2; [| done]. apply Hdone; [by rewrite dom_delete_L | done].
    + unfold last_or; cbn [last]. rewrite decide_False.
      2: { unfold b. rewrite last_cons. destruct (last (a2 :: as2)) as [z |] eqn:Ez;
             [| by apply last_None in Ez]. intros [= ->]. apply NoDup_cons in Hnd as [Hnt _].
           apply Hnt. apply last_Some in Ez as [k ->]. apply elem_of_app. right. by left. }
      assert (Hb : b = last (a2 :: as2)).
      { unfold b. rewrite last_cons. by destruct (last (a2 :: as2)) eqn:Ez; [| apply last_None in Ez]. }
      rewrite Hb in Et.
      destruct (relink_head t (a2 :: as2) n w l2 (heap s) Hnd ltac:(done) Et H2)
        as (h' & fs & -> & Hd' & Hs'). rewrite bind_Ret. apply returns_Ret. by apply Hdone.
  - assert (file_systems s = Some f) as Ef
      by (destruct l1 as [| [] ?]; [done | by destruct H1 as (-> & _)]).
    rewrite Ef in *.
    assert (Ehead : exists nd, heap s !! f = Some nd /\ prev nd = b).
    { destruct l1 as [| [m v] l1]; [done |]. destruct H1 as (_ & nx & E & _). by eexists. }
    destruct Ehead as (nd & End & Hp). rewrite (deref_node_eq _ _ _ End), bind_Ret, Hp.
    destruct (NoDup_remove_mid _ _ _ Hnd) as [Hnd' Ht].
    assert (Hb : b = last_or as2 (Some t)) by apply last_mid.
    assert (Hbf : b <> Some f).
    { rewrite Hb. unfold last_or. apply NoDup_app in Hnd as (_ & Hdis & _).
      assert (Hf : f ∉ t :: as2) by (apply Hdis; by left).
      destruct (last as2) as [z |] eqn:Ez; intros [= ->]; apply Hf; [| by left].
      right. apply last_Some in Ez as [k ->]. apply elem_of_app. right. by left. }
    rewrite decide_False by done.
    destruct as2 as [| a2 as2].
    + destruct l2; [| done]. rewrite Hb in H1, Et. cbn [last_or last] in H1.
      assert (Et' : heap s !! t = Some (mkNode n w None (last (f :: as1)))).
      { rewrite Et. f_equal. f_equal. unfold last_or.
        by destruct (last (f :: as1)) eqn:Ez; [| apply last_None in Ez]. }
      destruct (relink_last f as1 t n w l1 (heap s) Hnd Et' H1) as (h' & fs & -> & Hd' & Hs').
      rewrite bind_Ret. apply returns_Ret. apply Hdone; [done |]. by rewrite !app_nil_r.
    + assert (Hbt : b <> Some t).
      { rewrite Hb. apply last_or_not; [done |]. intros Hx. apply Ht, elem_of_app. by right. }
      destruct (relink_middle b f as1 t a2 as2 n w l1 l2 (heap s) Hnd Hbt Hlen Et H1 H2)
        as (h' & fs & -> & Hd' & Hs').
      rewrite bind_Ret. apply returns_Ret. apply Hdone; [done |].
      rewrite last_app_cons. replace (last (a2 :: as2)) with b; [done |].
      rewrite Hb. unfold last_or. by destruct (last (a2 :: as2)) eqn:Ez; [| apply last_None in Ez].
Qed.

Definition found (n : string) (l : list (string * Z)) : bool :=
  bool_decide (Exists (fun x => x.1 = n) l).

Lemma not_found n l : Forall (fun x => x.1 <> n) l -> found n l = false.
Proof.
  intros F. apply bool_decide_eq_false. intros Ex. apply Exists_exists in Ex as (x & Hx & E).
  rewrite Forall_forall in F. by apply (F x).
Qed.

Lemma delete_location_refines n l s :
  holds l s -> bounded l ->
  returns (fun '(b, s') => b = found n l /\ holds (spec_delete n l) s') (delete_location n s).
Proof.
  intros (as_ & Hs) Hb. pose proof (holds_size _ _ _ Hs) as Hsize.
  pose proof Hs as (Hnd & Hdom & Hseg & _). unfold delete_location.
  destruct (find_location_spec (S (size (heap s))) _ _ as_ l _ n ltac:(lia) Hseg)
    as [[-> F] | (as1 & t & as2 & l1 & w & l2 & -> & -> & -> & Hlen & F)]; rewrite bind_Ret.
  - apply returns_Ret. rewrite spec_delete_none by done. split; [by rewrite not_found |].
    by exists as_.
  - destruct (unlink_refines as1 t as2 l1 n w l2 s Hlen Hs Hb) as (s' & -> & H').
    rewrite bind_Ret. apply returns_Ret. rewrite spec_delete_first by done. split; [| done].
    symmetry. apply bool_decide_eq_true, Exists_exists. exists (n, w).
    split; [apply elem_of_app; right; by left | done].
Qed.

Lemma free_all_spec fuel b p as_ l h :
  (length as_ < fuel)%nat -> NoDup as_ -> dom h = list_to_set as_ -> seg b p as_ l None h ->
  free_all fuel p h = Ret ∅.
Proof.
  revert b p as_ l h. induction fuel as [| fuel IH]; intros b p as_ l h Hf Hnd Hd H; [lia |].
  destruct as_ as [| a as_], l as [| [m w] l]; try done.
  - cbn in H. subst. cbn. f_equal. by apply dom_empty_inv_L.
  - destruct H as (-> & nx & Ea & H). cbn [free_all length] in *.
    rewrite (deref_node_eq _ _ _ Ea), bind_Ret. cbn [next].
    pose proof Hnd as Hnd'. apply NoDup_cons in Hnd as [Ha Hnd].
    destruct (free_outside _ _ _ _ _ _ _ _ Ea Ha H) as [-> H']. rewrite bind_Ret.
    apply (IH (Some a) nx as_ l); [lia | done | | done].
    rewrite dom_delete_L, Hd. exact (dom_remove [] as_ a Hnd').
Qed.

Lemma delete_locations_refines l s : holds l s -> returns (holds []) (delete_locations s).
Proof.
  intros (as_ & Hs). pose proof (holds_size _ _ _ Hs) as Hsize.
  destruct Hs as (Hnd & Hdom & Hseg & _). unfold delete_locations.
  rewrite (free_all_spec (S (size (heap s))) _ _ as_ l) by (done || lia).
  rewrite bind_Ret. apply returns_Ret. exists []. split; [constructor |].
  split; [apply dom_empty_L | done].
Qed.

Lemma walk_spec fuel b p as_ l h :
  (length as_ < fuel)%nat -> seg b p as_ l None h -> walk fuel h p = Ret l.
Proof.
  revert b p as_ l. induction fuel as [| fuel IH]; intros b p as_ l Hf H; [lia |].
  destruct as_ as [| a as_], l as [| [m w] l]; try done.
  - cbn in H. by subst.
  - destruct H as (-> & nx & Ea & H). cbn [walk length] in *.
    rewrite (deref_node_eq _ _ _ Ea), bind_Ret. cbn [next sname weight].
    by rewrite (IH (Some a) nx as_ l), bind_Ret by (done || lia).
Qed.

Lemma locations_refines l s : holds l s -> locations s = Ret l.
Proof.
  intros (as_ & Hs). pose proof (holds_size _ _ _ Hs). destruct Hs as (_ & _ & Hseg & _).
  apply (walk_spec (S (size (heap s))) _ _ as_ l _ ltac:(lia) Hseg).
Qed.

Lemma initial_holds : holds [] initial.
Proof. exists []. split; [constructor |]. split; [apply dom_empty_L | done]. Qed.

(** ** Theorems *)
Inductive op := Add (n : string) (w : Z) | Delete (n : string) | Clear.

Definition run_op (o : op) (s : state) : cres state :=
  match o with
  | Add n w => add_location n w s
  | Delete n => '(_, s) ← delete_location n s; Ret s
  | Clear => delete_locations s
  end.
Fixpoint run_ops (os : list op) (s : state) : cres state :=
  match os with [] => Ret s | o :: os => s ← run_op o s; run_ops os s end.

Definition spec_op (o : op) (l : list (string * Z)) : list (string * Z) :=
  match o with Add n w => l ++ [(n, w)] | Delete n => spec_delete n l | Clear => [] end.

(** The additions have positive weights, as [parse_weight] makes them. *)
Definition positive_op (o : op) : Prop := match o with Add _ w => 1 <= w | _ => True end.

(** The operations have room, from the list [l] on. *)
Definition op_fits (o : op) (l : list (string * Z)) : bool :=
  match o with Add n w => add_fits n w l | _ => true end.
Fixpoint fits (os : list op) (l : list (string * Z)) : bool :=
  match os with [] => true | o :: os => op_fits o l && fits os (spec_op o l) end.

Definition spec_ops (os : list op) (l : list (string * Z)) : list (string * Z) :=
  fold_left (fun l o => spec_op o l) os l.

Lemma fits_app os os' l : fits (os ++ os') l = fits os l && fits os' (spec_ops os l).
Proof.
  revert l. induction os as [| o os IH]; intros l; [done |]. cbn [app fits spec_ops fold_left].
  by rewrite IH, andb_assoc.
Qed.

Lemma bounded_delete n l : bounded l -> bounded (spec_delete n l).
Proof.
  intros [F Hs]. assert (H : Forall (fun x => 1 <= x.2) (spec_delete n l) /\
    sum_weights (spec_delete n l) <= sum_weights l); [| split; [apply H | lia]].
  clear Hs. induction F as [| x l Hx F IH]; [done |]. cbn [spec_delete]. rewrite sum_weights_cons.
  destruct (decide (x.1 = n)); [split; [done | lia] |].
  destruct IH as [H1 H2]. split; [by constructor |]. rewrite sum_weights_cons. lia.
Qed.

Lemma bounded_op o l : bounded l -> positive_op o -> op_fits o l = true -> bounded (spec_op o l).
Proof.
  intros Hb Hp Hf. destruct o as [n w | n |]; cbn [spec_op].
  - by apply bounded_snoc.
  - by apply bounded_delete.
  - split; [constructor | unfold INT_MAX; cbn; lia].
Qed.

Lemma run_op_refines o l s :
  holds l s -> bounded l -> positive_op o ->
  if op_fits o l then returns (holds (spec_op o l)) (run_op o s) else run_op o s = Undef.
Proof.
  intros Hl Hb Hp. destruct o; cbn [run_op spec_op op_fits].
  - by apply add_location_refines.
  - eapply returns_bind; [by apply (delete_location_refines n l) |].
    intros [b s'] [_ H']. by apply returns_Ret.
  - by apply (delete_locations_refines l).
Qed.

Lemma run_ops_refines os l s :
  holds l s -> bounded l -> Forall positive_op os ->
  if fits os l then returns (holds (spec_ops os l)) (run_ops os s) else run_ops os s = Undef.
Proof.
  intros Hl Hb F. revert l s Hl Hb. induction F as [| o os Hp F IH]; intros l s Hl Hb;
    cbn [run_ops fits spec_ops fold_left]; [by apply returns_Ret |].
  pose proof (run_op_refines o l s Hl Hb Hp) as H. destruct (op_fits o l) eqn:Ef; cbn [andb].
  - destruct H as (s1 & E1 & Hl1). rewrite E1, bind_Ret. apply IH; [done |]. by apply bounded_op.
  - by rewrite H.
Qed.

Lemma initial_bounded : bounded [].
Proof. split; [constructor | unfold INT_MAX; cbn; lia]. Qed.

(** C34: the linked list of locations implements a list, through any additions
    of positive weights, deletions and clearings, in any order, when memory for
    the nodes is given.  As long as every name has at most 80 bytes and the
    weights in the list never add up to more than [INT_MAX], no freed node is
    touched and none leaks, the list read from the head is the one the
    operations describe, and the two counters are its total weight and its
    length.  Otherwise the program reaches undefined behaviour: a longer name
    overflows its array, and a larger sum overflows its [int]. *)
Theorem locations_refine_list (os : list op) (Hpos : Forall positive_op os) :
  if fits os [] then
    returns (fun s =>
      let l := spec_ops os [] in
      locations s = Ret l /\ size (heap s) = length l /\
      file_system_weight s = sum_weights l /\ file_system_count s = Z.of_nat (length l))
      (run_ops os initial)
  else run_ops os initial = Undef.
Proof.
  pose proof (run_ops_refines os [] initial initial_holds initial_bounded Hpos) as H.
  destruct (fits os []); [| done]. eapply returns_mono; [exact H |].
  intros s Hs. cbn zeta. split; [by apply locations_refines |].
  destruct Hs as (as_ & Hs). rewrite (holds_size _ _ _ Hs).
  destruct Hs as (_ & _ & Hseg & Hw & Hc). split; [by eapply seg_length | done].
Qed.

Lemma locations_refine_list_witness :
  returns (fun s => locations s = Ret [("/a"%string, 3)] /\ size (heap s) = 1%nat /\
      file_system_weight s = 3 /\ file_system_count s = 1)
    (run_ops [Add "/a" 3; Add "/b" 1; Delete "/b"] initial) /\
  run_ops [Add "/a" 2147483647; Add "/b" 1] initial = Undef.
Proof.
  split.
  - apply (locations_refine_list [Add "/a" 3; Add "/b" 1; Delete "/b"]). repeat constructor; cbn; lia.
  - apply (locations_refine_list [Add "/a" 2147483647; Add "/b" 1]). repeat constructor; cbn; lia.
Defined.

End PostmarkLocations.
