(* ===== verification/PostmarkCli.v ===== *)
(** * postmark/postmark-1_5.c: the command line

    The table of commands, their callbacks, the parsing of a line, the reading
    of the configuration file and the loop of [main].  The state is the
    configuration and the list of locations; what a command does outside it (a
    benchmark run, an answer on the terminal, a shell escape) is an [event].
    A line is a [string] without its final newline unless said otherwise.

    [atoi] reads a decimal integer as the C library does; a value outside [int]
    is [Undef], as in the C standard.  The text that [cli_show] prints is not
    modelled. *)
From Stdlib Require Import Ascii String.
From S2P Require Import Prelude MersenneTwister Postmark PostmarkRun PostmarkLocations.

Module PostmarkCli.

#[local] Open Scope string_scope.
#[local] Open Scope Z_scope.

Module Loc := PostmarkLocations.

Record cli := mkCli { cfg : Postmark.config; locs : Loc.state }.

Inductive event :=
| Error                                     (* a message on stderr *)
| Run (c : Postmark.config) (l : list (string * Z)) (output : option string)
| Show (output : option string)
| Help (items : list (string * string))
| Shell (command : option string)           (* [None]: the user's shell *)
| Eh.

(** ** C strings *)
Fixpoint after (n : nat) (s : string) : string :=
  match n, s with
  | O, _ => s
  | S n, String _ s => after n s
  | S _, EmptyString => EmptyString
  end.

(** [strchr (s, c)]: the rest of the string from the first [c]. *)
Fixpoint strchr (s : string) (c : ascii) : option string :=
  match s with
  | EmptyString => None
  | String x t => if Ascii.eqb x c then Some s else strchr t c
  end.

(** [strrchr (s, c)]: what precedes and what follows the last [c]. *)
Fixpoint strrchr (s : string) (c : ascii) : option (string * string) :=
  match s with
  | EmptyString => None
  | String x t =>
      match strrchr t c with
      | Some (b, a) => Some (String x b, a)
      | None => if Ascii.eqb x c then Some (EmptyString, t) else None
      end
  end.

Definition code (a : ascii) : Z := Z.of_nat (nat_of_ascii a).
Definition isspace (a : ascii) : bool := (code a =? 32) || ((9 <=? code a) && (code a <=? 13)).
Definition isdigit (a : ascii) : bool := (48 <=? code a) && (code a <=? 57).

Fixpoint skip_space (s : string) : string :=
  match s with String a t => if isspace a then skip_space t else s | EmptyString => s end.
Fixpoint read_digits (acc : Z) (s : string) : Z :=
  match s with
  | String a t => if isdigit a then read_digits (acc * 10 + (code a - 48)) t else acc
  | EmptyString => acc
  end.
Definition atoi (s : string) : cres Z :=
  let v := match skip_space s with
           | String a t =>
               if Ascii.eqb a "-" then - read_digits 0 t
               else if Ascii.eqb a "+" then read_digits 0 t
               else read_digits 0 (String a t)
           | EmptyString => 0
           end in
  if (INT_MIN <=? v) && (v <=? INT_MAX) then Ret v else Undef.

(** ** The callbacks *)
Definition result : Type := cres (Z * cli * list event).
Definition callback : Type := option string -> cli -> result.

(** [param && (v = atoi (param)) ...]: the value when it passes the test. *)
Definition int_param (param : option string) (ok : Z -> bool) : cres (option Z) :=
  match param with
  | Some p => v ← atoi p; Ret (if ok v then Some v else None)
  | None => Ret None
  end.

(** The callbacks that store one integer. *)
Definition set_int (ok : Z -> bool) (store : Z -> Postmark.config -> Postmark.config) : callback :=
  fun param s =>
    v ← int_param param ok;
    match v with
    | Some v => Ret (1, mkCli (store v (cfg s)) (locs s), [])
    | None => Ret (1, s, [Error])
    end.

Section Stores.
Import Postmark.
Definition store_size (low high : Z) (c : config) : config :=
  mkConfig low high (simultaneous c) (seed c) (transactions c) (subdirectories c)
    (read_block_size c) (write_block_size c) (bias_read c) (bias_create c) (buffered_io c) (report c).
Definition store_simultaneous (v : Z) (c : config) : config :=
  mkConfig (file_size_low c) (file_size_high c) v (seed c) (transactions c) (subdirectories c)
    (read_block_size c) (write_block_size c) (bias_read c) (bias_create c) (buffered_io c) (report c).
Definition store_seed (v : Z) (c : config) : config :=
  mkConfig (file_size_low c) (file_size_high c) (simultaneous c) v (transactions c) (subdirectories c)
    (read_block_size c) (write_block_size c) (bias_read c) (bias_create c) (buffered_io c) (report c).
Definition store_transactions (v : Z) (c : config) : config :=
  mkConfig (file_size_low c) (file_size_high c) (simultaneous c) (seed c) v (subdirectories c)
    (read_block_size c) (write_block_size c) (bias_read c) (bias_create c) (buffered_io c) (report c).
Definition store_subdirs (v : Z) (c : config) : config :=
  mkConfig (file_size_low c) (file_size_high c) (simultaneous c) (seed c) (transactions c) v
    (read_block_size c) (write_block_size c) (bias_read c) (bias_create c) (buffered_io c) (report c).
Definition store_read (v : Z) (c : config) : config :=
  mkConfig (file_size_low c) (file_size_high c) (simultaneous c) (seed c) (transactions c)
    (subdirectories c) v (write_block_size c) (bias_read c) (bias_create c) (buffered_io c) (report c).
Definition store_write (v : Z) (c : config) : config :=
  mkConfig (file_size_low c) (file_size_high c) (simultaneous c) (seed c) (transactions c)
    (subdirectories c) (read_block_size c) v (bias_read c) (bias_create c) (buffered_io c) (report c).
Definition store_bias_read (v : Z) (c : config) : config :=
  mkConfig (file_size_low c) (file_size_high c) (simultaneous c) (seed c) (transactions c)
    (subdirectories c) (read_block_size c) (write_block_size c) v (bias_create c) (buffered_io c)
    (report c).
Definition store_bias_create (v : Z) (c : config) : config :=
  mkConfig (file_size_low c) (file_size_high c) (simultaneous c) (seed c) (transactions c)
    (subdirectories c) (read_block_size c) (write_block_size c) (bias_read c) v (buffered_io c)
    (report c).
Definition store_buffered (v : bool) (c : config) : config :=
  mkConfig (file_size_low c) (file_size_high c) (simultaneous c) (seed c) (transactions c)
    (subdirectories c) (read_block_size c) (write_block_size c) (bias_read c) (bias_create c) v
    (report c).
Definition store_report (v : Z) (c : config) : config :=
  mkConfig (file_size_low c) (file_size_high c) (simultaneous c) (seed c) (transactions c)
    (subdirectories c) (read_block_size c) (write_block_size c) (bias_read c) (bias_create c)
    (buffered_io c) v.
End Stores.

Definition positive (v : Z) : bool := 0 <? v.

Definition cli_set_size : callback := fun param s =>
  v ← int_param param positive;
  match v, param with
  | Some low, Some p =>
      high ← (match strchr p " " with
              | Some token =>
                  v ← atoi token;
                  Ret (if positive v && (low <=? v) then v else low)
              | None => Ret low
              end);
      Ret (1, mkCli (store_size low high (cfg s)) (locs s), [])
  | _, _ => Ret (1, s, [Error])
  end.
Definition cli_set_number : callback := set_int positive store_simultaneous.
Definition cli_set_seed : callback := set_int positive store_seed.
Definition cli_set_transactions : callback := set_int positive store_transactions.
Definition cli_set_subdirs : callback := set_int (fun v => 0 <=? v) store_subdirs.
Definition cli_set_read : callback := set_int positive store_read.
Definition cli_set_write : callback := set_int positive store_write.
Definition in_bias (v : Z) : bool := (-1 <=? v) && (v <=? 10).
Definition cli_set_bias_read : callback := set_int in_bias store_bias_read.
Definition cli_set_bias_create : callback := set_int in_bias store_bias_create.

Definition cli_set_buffering : callback := fun param s =>
  match param with
  | Some p =>
      if String.eqb p "true" || String.eqb p "false"
      then Ret (1, mkCli (store_buffered (String.eqb p "true") (cfg s)) (locs s), [])
      else Ret (1, s, [Error])
  | None => Ret (1, s, [Error])
  end.

Definition cli_set_report : callback := fun param s =>
  match param with
  | Some p =>
      if String.eqb p "verbose" then Ret (1, mkCli (store_report 0 (cfg s)) (locs s), [])
      else if String.eqb p "terse" then Ret (1, mkCli (store_report 1 (cfg s)) (locs s), [])
      else Ret (1, s, [Error])
  | None => Ret (1, s, [Error])
  end.

(** [parse_weight] cuts the weight off the string it is given: the name that is
    left, the weight, and whether it complained. *)
Definition parse_weight (params : string) : cres (string * Z * list event) :=
  match strrchr params " " with
  | Some (name, w) =>
      v ← atoi w;
      Ret (if v <=? 0 then (name, 1, [Error]) else (name, v, []))
  | None => Ret (params, 1, [])
  end.

Definition add_weighted (p : string) (s : cli) : result :=
  '(name, w, e) ← parse_weight p;
  l ← Loc.add_location name w (locs s);
  Ret (1, mkCli (cfg s) l, e).

Definition cli_set_location : callback := fun param s =>
  match param with
  | Some p =>
      match p with
      | String "+" q => add_weighted q s
      | String "-" q =>
          '(found, l) ← Loc.delete_location q (locs s);
          Ret (1, mkCli (cfg s) l, if (found : bool) then [] else [Error])
      | _ =>
          l ← Loc.delete_locations (locs s);
          add_weighted p (mkCli (cfg s) l)
      end
  | None => Ret (1, s, [Error])
  end.

Definition cli_run : callback := fun param s =>
  l ← Loc.locations (locs s); Ret (1, s, [Run (cfg s) l param]).
Definition cli_show : callback := fun param s => Ret (1, s, [Show param]).
Definition cli_quit : callback := fun _ s => Ret (0, s, []).

(** ** The table of commands *)
Inductive command :=
| SetSize | SetNumber | SetSeed | SetTransactions | SetLocation | SetSubdirs | SetRead
| SetWrite | SetBuffering | SetBiasRead | SetBiasCreate | SetReport | CRun | CShow | CHelp
| CQuit.

Definition command_list : list (string * command * string) :=
  [ ("set size", SetSize, "Sets low and high bounds of files");
    ("set number", SetNumber, "Sets number of simultaneous files");
    ("set seed", SetSeed, "Sets seed for random number generator");
    ("set transactions", SetTransactions, "Sets number of transactions");
    ("set location", SetLocation, "Sets location of working files");
    ("set subdirectories", SetSubdirs, "Sets number of subdirectories");
    ("set read", SetRead, "Sets read block size");
    ("set write", SetWrite, "Sets write block size");
    ("set buffering", SetBuffering, "Sets usage of buffered I/O");
    ("set bias read", SetBiasRead, "Sets the chance of choosing read over append");
    ("set bias create", SetBiasCreate, "Sets the chance of choosing create over delete");
    ("set report", SetReport, "Choose verbose or terse report format");
    ("run", CRun, "Runs one iteration of benchmark");
    ("show", CShow, "Displays current configuration");
    ("help", CHelp, "Prints out available commands");
    ("quit", CQuit, "Exit program") ].

Definition cname (c : string * command * string) : string := c.1.1.

Definition cli_help : callback := fun param s =>
  let item c := (cname c, c.2) in
  let matches :=
    match param with
    | Some p => if 0 <? Z.of_nat (String.length p)
                then filter (fun c => String.prefix p (cname c) = true) command_list else []
    | None => []
    end in
  Ret (1, s, [Help (item <$> match matches with [] => command_list | _ => matches end)]).

Definition func (c : command) : callback :=
  match c with
  | SetSize => cli_set_size | SetNumber => cli_set_number | SetSeed => cli_set_seed
  | SetTransactions => cli_set_transactions | SetLocation => cli_set_location
  | SetSubdirs => cli_set_subdirs | SetRead => cli_set_read | SetWrite => cli_set_write
  | SetBuffering => cli_set_buffering | SetBiasRead => cli_set_bias_read
  | SetBiasCreate => cli_set_bias_create | SetReport => cli_set_report
  | CRun => cli_run | CShow => cli_show | CHelp => cli_help | CQuit => cli_quit
  end.

(** The first command whose name starts the line. *)
Fixpoint find_command (l : list (string * command * string)) (buffer : string)
    : option (string * command) :=
  match l with
  | [] => None
  | (name, c, _) :: l =>
      if String.prefix name buffer then Some (name, c) else find_command l buffer
  end.

Definition cli_parse_line (buffer : string) (s : cli) : result :=
  match buffer with
  | String "!" rest =>
      Ret (1, s, [Shell (match rest with EmptyString => None | _ => Some rest end)])
  | _ =>
      match find_command command_list buffer with
      | Some (name, c) =>
          let len := String.length name in
          func c (if (len <? String.length buffer)%nat then Some (after (S len) buffer) else None) s
      | None => Ret (1, s, [Eh])
      end
  end.

(** [buffer[strlen (buffer) - 1] = 0] on a line as [fgets] returns it. *)
Fixpoint chop (s : string) : cres string :=
  match s with
  | EmptyString => Undef
  | String _ EmptyString => Ret EmptyString
  | String a t => t ← chop t; Ret (String a t)
  end.

(** The lines of the file, as [fgets] delivers them; a line is read even after
    the one that ended the loop. *)
Fixpoint read_config_lines (lines : list string) (r : Z) (s : cli) : result :=
  match lines with
  | [] => Ret (r, s, [])
  | l :: lines =>
      if r =? 0 then Ret (r, s, [])
      else
        buffer ← chop l;
        '(r, s, e) ← cli_parse_line buffer s;
        '(r, s, e') ← read_config_lines lines r s;
        Ret (r, s, e ++ e')%list
  end.
Definition read_config_file (file : option (list string)) (s : cli) : result :=
  match file with Some lines => read_config_lines lines 1 s | None => Ret (1, s, []) end.

Definition alias (buffer : string) : string :=
  let buffer := if String.eqb buffer "?" then "help" else buffer in
  if String.eqb buffer "exit" then "quit" else buffer.

(** [while (cli_read_line (...) && cli_parse_line (...));] on the lines the
    user types. *)
Fixpoint interact (lines : list string) (s : cli) : cres (cli * list event) :=
  match lines with
  | [] => Ret (s, [])
  | l :: lines =>
      buffer ← chop l;
      '(r, s, e) ← cli_parse_line (alias buffer) s;
      if r =? 0 then Ret (s, e)
      else '(s, e') ← interact lines s; Ret (s, e ++ e')%list
  end.

Definition initial : cli := mkCli Postmark.default_config Loc.initial.

Definition main (file : option (list string)) (lines : list string) : cres (cli * list event) :=
  '(r, s, e) ← read_config_file file initial;
  if r =? 0 then Ret (s, e)
  else '(s, e') ← interact lines s; Ret (s, e ++ e')%list.

(** ** The invariant of a session *)
Record config_wf (c : Postmark.config) : Prop := {
  wf_sizes : 1 <= Postmark.file_size_low c <= Postmark.file_size_high c;
  wf_sim : 1 <= Postmark.simultaneous c;
  wf_seed : 1 <= Postmark.seed c;
  wf_trans : 1 <= Postmark.transactions c;
  wf_subdirs : 0 <= Postmark.subdirectories c <= INT_MAX;
  wf_blocks : 1 <= Postmark.read_block_size c /\ 1 <= Postmark.write_block_size c;
  wf_biases : -1 <= Postmark.bias_read c <= 10 /\ -1 <= Postmark.bias_create c <= 10;
  wf_report : Postmark.report c = 0 \/ Postmark.report c = 1
}.

Definition weights_ok (l : list (string * Z)) : Prop := Forall (fun x => 1 <= x.2) l.

(** A session whose list of locations is [l]. *)
Definition session_at (l : list (string * Z)) (s : cli) : Prop :=
  config_wf (cfg s) /\ Loc.holds l (locs s) /\ Loc.bounded l.

Definition session_ok (s : cli) : Prop :=
  config_wf (cfg s) /\ exists l, Loc.holds l (locs s) /\ weights_ok l.

Lemma session_at_ok l s : session_at l s -> session_ok s.
Proof. intros (Hc & Hl & Hw & _). split; [done |]. by exists l. Qed.

(** What [set location] does to the list with its parameter. *)
Definition add_ops (p : string) : list Loc.op :=
  match parse_weight p with Ret (name, w, _) => [Loc.Add name w] | _ => [] end.
Definition location_ops (p : string) : list Loc.op :=
  match p with
  | String "+" q => add_ops q
  | String "-" q => [Loc.Delete q]
  | _ => Loc.Clear :: add_ops p
  end.
(** What a callback and a line do to it. *)
Definition callback_ops (c : command) (param : option string) : list Loc.op :=
  match c, param with SetLocation, Some p => location_ops p | _, _ => [] end.
Definition line_ops (buffer : string) : list Loc.op :=
  match buffer with
  | String "!" _ => []
  | _ =>
      match find_command command_list buffer with
      | Some (name, c) =>
          let len := String.length name in
          callback_ops c
            (if (len <? String.length buffer)%nat then Some (after (S len) buffer) else None)
      | None => []
      end
  end.
(** The changes of the list that the lines ask for, in order. *)
Fixpoint session_ops (lines : list string) : list Loc.op :=
  match lines with
  | [] => []
  | l :: lines => ((match chop l with Ret b => line_ops b | _ => [] end) ++ session_ops lines)%list
  end.

Definition event_ok (e : event) : Prop :=
  match e with Run c l _ => config_wf c /\ weights_ok l | _ => True end.

(** No number in the line overflows an [int], wherever the reading starts. *)
Definition tame (s : string) : Prop := forall k, exists v, atoi (after k s) = Ret v.

(** From the list [l], the operations [ops] are done and the session goes on. *)
Definition goes_on (l : list (string * Z)) (ops : list Loc.op) (r : result) : Prop :=
  Loc.fits ops l = true ->
  returns (fun '(_, s', e) => session_at (Loc.spec_ops ops l) s' /\ Forall event_ok e) r.

Definition callback_ok (ops : option string -> list Loc.op) (f : callback) : Prop :=
  forall param s l, session_at l s -> (forall p, param = Some p -> tame p) ->
    goes_on l (ops param) (f param s).

Lemma after_0 s : after 0 s = s.
Proof. by destruct s. Qed.

Lemma after_nil k : after k EmptyString = EmptyString.
Proof. by destruct k. Qed.

Lemma after_after j k s : after j (after k s) = after (k + j) s.
Proof.
  revert s. induction k as [| k IH]; intros s; [by rewrite after_0 |].
  destruct s as [| a s]; cbn [after Nat.add]; [by rewrite !after_nil | apply IH].
Qed.

Lemma tame_atoi s : tame s -> exists v, atoi s = Ret v.
Proof. intros H. destruct (H 0%nat) as [v E]. rewrite after_0 in E. eauto. Qed.

Lemma tame_after k s : tame s -> tame (after k s).
Proof. intros H j. rewrite after_after. apply H. Qed.

Lemma strchr_suffix s c t : strchr s c = Some t -> exists k, t = after k s.
Proof.
  revert t. induction s as [| a s IH]; cbn; intros t E; [done |].
  destruct (Ascii.eqb a c); [injection E as <-; by exists 0%nat |].
  destruct (IH t E) as [k ->]. by exists (S k).
Qed.

Lemma strrchr_suffix s c b t : strrchr s c = Some (b, t) -> exists k, t = after k s.
Proof.
  revert b. induction s as [| a s IH]; cbn; intros b E; [done |].
  destruct (strrchr s c) as [[b' t'] |] eqn:Es.
  - injection E as _ <-. destruct (IH _ eq_refl) as [k ->]. by exists (S k).
  - destruct (Ascii.eqb a c); [| done]. injection E as _ <-. by exists 1%nat.
Qed.

Lemma int_param_ok param ok :
  (forall p, param = Some p -> tame p) ->
  returns (fun v => (forall x, v = Some x -> ok x = true) /\
    (param = None -> v = None) /\
    (forall x, v = Some x -> is_int x)) (int_param param ok).
Proof.
  intros Ht. destruct param as [p |]; cbn [int_param].
  - destruct (tame_atoi p (Ht _ eq_refl)) as [v E]. rewrite E, bind_Ret. apply returns_Ret.
    split; [| split; [done |]].
    + intros x. by destruct (ok v) eqn:Eo; intros [= <-].
    + intros x. destruct (ok v); intros [= <-]. unfold atoi in E.
      match type of E with (if ?b then _ else _) = _ => destruct b eqn:Eb end; [| done].
      injection E as <-. rewrite andb_true_iff, !Z.leb_le in Eb. exact Eb.
  - by apply returns_Ret.
Qed.

Lemma set_int_ok ok store :
  (forall v c, ok v = true -> is_int v -> config_wf c -> config_wf (store v c)) ->
  callback_ok (fun _ => []) (set_int ok store).
Proof.
  intros Hstore param s l [Hc Hl] Ht _. unfold set_int.
  eapply returns_bind; [by apply int_param_ok |]. intros [v |] (Hv & _ & Hi).
  - apply returns_Ret. split; [split; [apply Hstore; auto | done] | constructor].
  - apply returns_Ret. split; [by split | by repeat constructor].
Qed.

Lemma set_size_ok : callback_ok (fun _ => []) cli_set_size.
Proof.
  intros param s l [Hc Hl] Ht _. unfold cli_set_size.
  eapply returns_bind; [by apply int_param_ok |]. intros [low |] (Hv & Hn & _).
  2: { apply returns_Ret. split; [by split | by repeat constructor]. }
  destruct param as [p |]; [| by specialize (Hn eq_refl)].
  specialize (Hv _ eq_refl). unfold positive in Hv. apply Z.ltb_lt in Hv.
  eapply (returns_bind (fun high => low <= high)).
  - destruct (strchr p " ") as [t |] eqn:Es; [| by apply returns_Ret].
    destruct (strchr_suffix _ _ _ Es) as [k ->]. specialize (Ht _ eq_refl).
    destruct (Ht k) as [v ->]. rewrite bind_Ret. apply returns_Ret.
    destruct (positive v && (low <=? v)) eqn:Eb; [| lia].
    rewrite andb_true_iff, Z.leb_le in Eb. lia.
  - intros high Hh. apply returns_Ret. split; [| constructor]. split; [| done].
    destruct Hc. constructor; cbn; try done. lia.
Qed.

Lemma add_weighted_ok p s l :
  session_at l s -> tame p -> goes_on l (add_ops p) (add_weighted p s).
Proof.
  intros (Hc & Hl & Hb) Ht Hf. unfold add_weighted, add_ops in *.
  assert (Hp : returns (fun '(n, w, e) => 1 <= w /\ Forall event_ok e) (parse_weight p)).
  { unfold parse_weight. destruct (strrchr p " ") as [[b t] |] eqn:Es.
    - destruct (strrchr_suffix _ _ _ _ Es) as [k ->]. destruct (Ht k) as [v ->].
      rewrite bind_Ret. apply returns_Ret.
      destruct (Z.leb_spec v 0); (split; [lia | by repeat constructor]).
    - apply returns_Ret. split; [lia | constructor]. }
  destruct Hp as ([[n w] e] & E & Hw1 & He). rewrite E in *. rewrite bind_Ret.
  pose proof (Loc.run_op_refines (Loc.Add n w) l (locs s) Hl Hb Hw1) as H.
  cbn [Loc.fits] in Hf. rewrite andb_true_r in Hf. rewrite Hf in H.
  destruct H as (s' & E' & Hs'). cbn [Loc.run_op] in E'. rewrite E', bind_Ret.
  apply returns_Ret. split; [| done]. split; [done |]. split; [exact Hs' |].
  by apply (Loc.bounded_op (Loc.Add n w) l).
Qed.

Lemma set_location_ok : callback_ok (callback_ops SetLocation) cli_set_location.
Proof.
  intros param s l (Hc & Hl & Hb) Ht.
  destruct param as [p |]; [| intros _; apply returns_Ret; split; [by split | by repeat constructor]].
  specialize (Ht _ eq_refl). cbn [cli_set_location callback_ops].
  assert (Hclear : goes_on l (Loc.Clear :: add_ops p)
    (l ← Loc.delete_locations (locs s); add_weighted p (mkCli (cfg s) l))).
  { intros Hf. cbn [Loc.fits Loc.op_fits Loc.spec_op andb] in Hf.
    eapply returns_bind; [by apply (Loc.delete_locations_refines l) |]. intros s' Hs'.
    apply (add_weighted_ok p (mkCli (cfg s) s') []); [| done | done].
    split; [done |]. split; [done |]. apply Loc.initial_bounded. }
  assert (Hadd : forall a q, p = String a q -> goes_on l (add_ops q) (add_weighted q s)).
  { intros a q ->. apply add_weighted_ok; [by split |]. exact (tame_after 1 _ Ht). }
  assert (Hdel : forall q, goes_on l [Loc.Delete q]
    ('(found, l) ← Loc.delete_location q (locs s);
     Ret (1, mkCli (cfg s) l, if (found : bool) then [] else [Error]))).
  { intros q _. eapply returns_bind; [by apply (Loc.delete_location_refines q l) |].
    intros [b s'] [_ Hs']. apply returns_Ret. split; [| destruct b; by repeat constructor].
    split; [done |]. split; [done |]. by apply Loc.bounded_delete. }
  destruct p as [| a q]; [exact Hclear |].
  destruct a as [b0 b1 b2 b3 b4 b5 b6 b7].
  destruct b0, b1, b2, b3, b4, b5, b6, b7;
    first [exact Hclear | exact (Hadd _ q eq_refl) | exact (Hdel q)].
Qed.

Ltac store_ok := intros v c Hv Hi Hc; destruct Hc; unfold positive, in_bias, is_int, INT_MIN, INT_MAX in *;
  rewrite ?andb_true_iff, ?Z.leb_le, ?Z.ltb_lt in Hv;
  constructor; cbn; unfold INT_MAX in *; (assumption || lia).

Lemma func_ok c : callback_ok (callback_ops c) (func c).
Proof.
  destruct c; cbn [func]; first
    [ apply set_size_ok | apply set_location_ok | apply set_int_ok; store_ok | idtac ].
  - intros [p |] s l [Hc Hl] Ht _; cbn [cli_set_buffering];
      [| apply returns_Ret; split; [by split | by repeat constructor]].
    destruct (_ || _); apply returns_Ret; (split; [split; [| done] | by repeat constructor]); [| done].
    destruct Hc; by constructor.
  - intros [p |] s l [Hc Hl] Ht _; cbn [cli_set_report];
      [| apply returns_Ret; split; [by split | by repeat constructor]].
    destruct (String.eqb p "verbose"); [| destruct (String.eqb p "terse")];
      apply returns_Ret; (split; [split; [| done] | by repeat constructor]); [| | done];
      destruct Hc; constructor; cbn; auto.
  - intros param s l (Hc & Hl & Hb) Ht _. unfold cli_run.
    rewrite (Loc.locations_refines l) by done. rewrite bind_Ret. apply returns_Ret.
    split; [by split |]. constructor; [split; [done | apply Hb] | constructor].
  - intros param s l Hs Ht _. apply returns_Ret. split; [done | by repeat constructor].
  - intros param s l Hs Ht _. apply returns_Ret. split; [done | by repeat constructor].
  - intros param s l Hs Ht _. apply returns_Ret. split; [done | constructor].
Qed.

Lemma parse_line_ok b s l :
  session_at l s -> tame b -> goes_on l (line_ops b) (cli_parse_line b s).
Proof.
  intros Hs Ht.
  assert (Hcmd : goes_on l
    (match find_command command_list b with
     | Some (name, c) =>
         let len := String.length name in
         callback_ops c (if (len <? String.length b)%nat then Some (after (S len) b) else None)
     | None => []
     end)
    (match find_command command_list b with
     | Some (name, c) =>
         let len := String.length name in
         func c (if (len <? String.length b)%nat then Some (after (S len) b) else None) s
     | None => Ret (1, s, [Eh])
     end)).
  { destruct (find_command command_list b) as [[name c] |].
    - apply func_ok; [done |]. intros p. destruct (_ <? _)%nat; intros [= <-].
      exact (tame_after (S (String.length name)) b Ht).
    - intros _. apply returns_Ret. split; [done | by repeat constructor]. }
  unfold cli_parse_line, line_ops. destruct b as [| a q]; [exact Hcmd |].
  destruct (Ascii.eqb_spec a "!") as [-> | Ha].
  - intros _. apply returns_Ret. split; [done | by repeat constructor].
  - destruct a as [b0 b1 b2 b3 b4 b5 b6 b7].
    destruct b0, b1, b2, b3, b4, b5, b6, b7; first [exact Hcmd | by destruct Ha].
Qed.

(** The lines that a session reads: each can be cut, and no number in it
    overflows. *)
Definition line_ok (l : string) : Prop := exists b, chop l = Ret b /\ tame b.

Lemma read_config_lines_ok lines r s l k :
  session_at l s -> Forall line_ok lines -> Loc.fits (session_ops lines ++ k) l = true ->
  returns (fun '(r, s', e) => Forall event_ok e /\ exists l', session_at l' s' /\
    (r <> 0 -> Loc.fits k l' = true)) (read_config_lines lines r s).
Proof.
  intros Hs F. revert r s l Hs. induction F as [| x lines (b & Eb & Ht) F IH]; intros r s l Hs Hf;
    cbn [read_config_lines].
  { apply returns_Ret. split; [constructor |]. by exists l. }
  destruct (Z.eqb_spec r 0) as [-> | Hr].
  { apply returns_Ret. split; [constructor |]. by exists l. }
  cbn [session_ops] in Hf. rewrite Eb in Hf |- *. rewrite <- (assoc_L (++)%list) in Hf.
  rewrite Loc.fits_app in Hf. apply andb_true_iff in Hf as [Hf1 Hf2]. rewrite bind_Ret.
  eapply returns_bind; [by apply (parse_line_ok b s l) |]. intros [[r1 s1] e1] [Hs1 He1].
  eapply returns_bind; [by apply (IH r1 s1 _ Hs1 Hf2) |]. intros [[r2 s2] e2] [He2 H2].
  apply returns_Ret. split; [by apply Forall_app | exact H2].
Qed.

Lemma tame_help : tame "help" /\ tame "quit".
Proof. split; intros k; do 5 (destruct k as [| k]; [by eexists |]); cbn; rewrite ?after_nil; by eexists. Qed.

Lemma tame_alias b : tame b -> tame (alias b).
Proof.
  intros Ht. unfold alias. destruct tame_help as [Hh Hq].
  destruct (String.eqb b "?"); [done |]. by destruct (String.eqb b "exit").
Qed.

(** The aliases are no commands for locations. *)
Lemma line_ops_alias b : line_ops (alias b) = line_ops b.
Proof.
  unfold alias. destruct (String.eqb_spec b "?") as [-> |]; [reflexivity |].
  by destruct (String.eqb_spec b "exit") as [-> |].
Qed.

Lemma interact_ok lines s l :
  session_at l s -> Forall line_ok lines -> Loc.fits (session_ops lines) l = true ->
  returns (fun '(s', e) => session_ok s' /\ Forall event_ok e) (interact lines s).
Proof.
  intros Hs F. revert s l Hs. induction F as [| x lines (b & Eb & Ht) F IH]; intros s l Hs Hf;
    cbn [interact].
  { apply returns_Ret. split; [by eapply session_at_ok | constructor]. }
  cbn [session_ops] in Hf. rewrite Eb in Hf |- *. rewrite Loc.fits_app in Hf.
  apply andb_true_iff in Hf as [Hf1 Hf2]. rewrite bind_Ret.
  pose proof (parse_line_ok (alias b) s l Hs (tame_alias b Ht)) as Hp. rewrite line_ops_alias in Hp.
  eapply returns_bind; [by apply Hp |]. intros [[r1 s1] e1] [Hs1 He1].
  destruct (r1 =? 0); [apply returns_Ret; split; [by eapply session_at_ok | done] |].
  eapply returns_bind; [by apply (IH s1 _ Hs1 Hf2) |]. intros [s2 e2] [Hs2 He2].
  apply returns_Ret. split; [done |]. by apply Forall_app.
Qed.

Lemma initial_ok : session_at [] initial.
Proof.
  split; [constructor; cbn; unfold INT_MAX; lia |].
  split; [apply Loc.initial_holds | apply Loc.initial_bounded].
Qed.

(** What a whole session needs: lines that can be read, and room for the
    locations they ask for. *)
Definition input_ok (file : option (list string)) (lines : list string) : Prop :=
  Forall line_ok (default [] file ++ lines)%list /\
  Loc.fits (session_ops (default [] file) ++ session_ops lines)%list [] = true.

Lemma main_ok file lines :
  input_ok file lines ->
  returns (fun '(s, e) => session_ok s /\ Forall event_ok e) (main file lines).
Proof.
  intros [F Hf]. apply Forall_app in F as [Ff Fl]. unfold main.
  eapply (returns_bind (fun '(r, s', e) => Forall event_ok e /\ exists l', session_at l' s' /\
    (r <> 0 -> Loc.fits (session_ops lines) l' = true))).
  - destruct file as [f |].
    + exact (read_config_lines_ok f 1 initial [] (session_ops lines) initial_ok Ff Hf).
    + apply returns_Ret. split; [constructor |]. exists []. split; [apply initial_ok | done].
  - intros [[r s] e] (He & l' & Hs & Hk). destruct (Z.eqb_spec r 0) as [-> | Hr].
    { apply returns_Ret. split; [by eapply session_at_ok | done]. }
    eapply returns_bind; [by apply (interact_ok lines s l' Hs Fl (Hk Hr)) |]. intros [s2 e2] [Hs2 He2].
    apply returns_Ret. split; [done |]. by apply Forall_app.
Qed.

(** The list of locations of a session as a run sees it. *)
Definition run_locations (l : list (string * Z)) : Postmark.locations :=
  Postmark.mkLocations l (Z.of_nat (List.length l)) (Loc.sum_weights l).

Lemma index_sum l :
  weights_ok l ->
  Z.of_nat (List.length (Postmark.build_location_index (run_locations l))) = Loc.sum_weights l.
Proof.
  unfold Postmark.build_location_index. cbn [Postmark.file_systems run_locations].
  induction 1 as [| [n w] l Hw Hl IH]; [done |]. cbn [fmap list_fmap concat].
  rewrite length_app, length_replicate, Loc.sum_weights_cons. cbn [snd] in *. lia.
Qed.

Lemma run_config_ok c l :
  config_wf c -> weights_ok l ->
  2 * Postmark.file_size_high c <= INT_MAX -> 2 * Postmark.simultaneous c <= INT_MAX ->
  Postmark.simultaneous c + Postmark.transactions c <= INT_MAX ->
  Forall (fun x => Z.of_nat (String.length x.1) <= 57) l ->
  PostmarkRun.config_ok c (run_locations l).
Proof.
  intros [] Hl Hh Hs Ht Hn. constructor; try done.
  exact (eq_sym (index_sum l Hl)).
Qed.

(** ** Theorems *)


Definition newline : string := String (ascii_of_nat 10) EmptyString.

(** A run that such a session starts is safe: if the sizes and counts it was
    configured with do not overflow an [int] when doubled or added and the
    names of its locations have at most 57 bytes, then it touches no memory
    outside its buffers, whatever the file calls answer. *)
Theorem session_runs_are_safe {W H} (E : Postmark.env W H) (file : option (list string))
    (lines : list string) (s' : cli) (e : list event) (c : Postmark.config)
    (l : list (string * Z)) (output : option string) (fuel : nat) (w : W) :
  input_ok file lines ->
  main file lines = Ret (s', e) -> Run c l output ∈ e ->
  10 <= Postmark.transactions c ->
  2 * Postmark.file_size_high c <= INT_MAX -> 2 * Postmark.simultaneous c <= INT_MAX ->
  Postmark.simultaneous c + Postmark.transactions c <= INT_MAX ->
  Forall (fun x => Z.of_nat (String.length x.1) <= 57) l ->
  safe (fun '(_, s) => Postmark.files_created s - Postmark.files_deleted s
                         = Postmark.used (Postmark.file_table s))
    (Postmark.cli_run E c (run_locations l) fuel (Postmark.initial_run w)).
Proof.
  intros Hin Em Hrun Hten Hh Hs Ht Hn.
  destruct (main_ok file lines Hin) as ([s2 e2] & E2 & _ & He). rewrite E2 in Em. injection Em as _ ->.
  rewrite Forall_forall in He. destruct (He _ Hrun) as [Hc Hl].
  pose (FS := PostmarkRun.AnyFs E).
  eapply safe_mono.
  - apply (PostmarkRun.cli_run_spec E c (run_locations l) (run_config_ok c l Hc Hl Hh Hs Ht Hn)
      fuel (Postmark.initial_run w) Hten eq_refl). apply PostmarkRun.AnyFs_agrees.
  - intros [inc s] (Hu & _). exact Hu.
Qed.

Lemma session_runs_are_safe_witness :
  safe (fun '(_, s) => Postmark.files_created s - Postmark.files_deleted s
                         = Postmark.used (Postmark.file_table s))
    (Postmark.cli_run Postmark.mem_fs Postmark.default_config
       (run_locations []) 50 (Postmark.initial_run ∅)).
Proof.
  apply (session_runs_are_safe Postmark.mem_fs None ["run" ++ newline]%string initial
    [Run Postmark.default_config [] None] Postmark.default_config [] None);
    try (cbn; unfold INT_MAX; lia).
  - split; [| vm_compute; reflexivity].
    repeat constructor; eexists; (split; [vm_compute; reflexivity |]); intros k;
      do 4 (destruct k as [| k]; [eexists; vm_compute; reflexivity |]);
      cbn [after]; rewrite ?after_nil; eexists; vm_compute; reflexivity.
  - vm_compute. reflexivity.
  - left.
  - constructor.
Defined.

(** No command hides another: a line that consists of the name of a command,
    alone or followed by a space and anything at all, calls that command with
    what follows the space. *)
Theorem dispatch_exact (name : string) (c : command) (help param : string) (s : cli) :
  (name, c, help) ∈ command_list ->
  cli_parse_line name s = func c None s /\
  cli_parse_line (name ++ String " " param)%string s = func c (Some param) s.
Proof.
  intros Hin. unfold command_list in Hin.
  repeat (apply elem_of_cons in Hin as [[= -> -> ->] | Hin]; [split; reflexivity |]).
  by apply elem_of_nil in Hin.
Qed.

Lemma dispatch_exact_witness :
  cli_parse_line "set bias read" initial = func SetBiasRead None initial /\
  cli_parse_line "set bias read 7" initial = func SetBiasRead (Some "7"%string) initial.
Proof.
  apply (dispatch_exact "set bias read" SetBiasRead "Sets the chance of choosing read over append" "7").
  vm_compute. repeat constructor.
Defined.

End PostmarkCli.
