(* ===== verification/MemtesterMain.v ===== *)
(** * memtester/memtester.c: how much memory is tested

    The part of [main] between the arguments and the test loop: the size that
    the memory argument asks for, and the loop that allocates the buffer, aligns
    it to a page and tries to lock it.  [size_t] has 64 bits and wraps.  The
    arguments are given as [strtoul] delivers them, a value and the rest of the
    string; the [-p] option (physical memory) is not modelled.

    The system is a pair of oracles: the [k]-th call of [malloc] for [n] bytes
    answers [malloc k n], the [k]-th call of [mlock] answers [mlock k p n].  The
    locals [buf], [aligned], [bufsize] and [wantbytes] are the state; [aligned]
    starts uninitialised. *)
From Stdlib Require Import Ascii.
From S2P Require Import Prelude Memtester.

Module MemtesterMain.

Inductive lock_result := Locked | ErrAgain | ErrNoMem | ErrPerm | ErrOther.

(** The shift of a memory suffix; [usage] exits with EXIT_FAIL_NONSTARTER. *)
Definition memshift (memsuffix : string) : cres Z :=
  match memsuffix with
  | String "G" _ | String "g" _ => Ret 30
  | String "M" _ | String "m" _ => Ret 20
  | String "K" _ | String "k" _ => Ret 10
  | String "B" _ | String "b" _ => Ret 0
  | EmptyString => Ret 20
  | _ => Exit Memtester.EXIT_FAIL_NONSTARTER
  end%char.

Definition maxbytes : Z := u64 (-1).
Definition maxmb : Z := Z.shiftr maxbytes 20 + 1.

(** The bytes asked for, after the sanity checks. *)
Definition parse_want (pagesize wantraw : Z) (memsuffix : string) : cres Z :=
  shift ← memshift memsuffix;
  let wantbytes := u64 (Z.shiftl wantraw shift) in
  let wantmb := Z.shiftr wantbytes 20 in
  if maxmb <? wantmb then Exit Memtester.EXIT_FAIL_NONSTARTER
  else if wantbytes <? pagesize then Exit Memtester.EXIT_FAIL_NONSTARTER
  else Ret wantbytes.

Section Allocate.
Context (pagesize : Z) (malloc : nat -> Z -> option Z) (mlock : nat -> Z -> Z -> lock_result).

(** The locals of the loop, and how often each oracle was asked. *)
Record st := mkSt {
  buf : option Z;
  aligned : option Z;
  bufsize : Z;
  wantbytes : Z;
  do_mlock : bool;
  done_mem : bool;
  nmalloc : nat;
  nmlock : nat
}.

Definition sub_page (want : Z) : Z := u64 (want - pagesize).

(** [while (!buf && wantbytes) { buf = malloc (wantbytes); ... }] *)
Fixpoint grab (fuel : nat) (s : st) : cres st :=
  match buf s with
  | Some _ => Ret s
  | None =>
      if wantbytes s =? 0 then Ret s
      else
        match fuel with
        | O => NoFuel
        | S fuel =>
            let r := malloc (nmalloc s) (wantbytes s) in
            grab fuel (mkSt r (aligned s) (bufsize s)
              (match r with Some _ => wantbytes s | None => sub_page (wantbytes s) end)
              (do_mlock s) (done_mem s) (S (nmalloc s)) (nmlock s))
        end
  end.

(** [(size_t) buf & pagesizemask) + pagesize], or [buf] itself. *)
Definition align (b : Z) : Z :=
  if b mod pagesize =? 0 then b
  else u64 (Z.land b (u64 (Z.lnot (pagesize - 1))) + pagesize).

(** One iteration of [while (!done_mem)]; [wantbytes_orig] is what was asked.
    A null [buf] is address 0. *)
Definition alloc_step (fuel : nat) (wantbytes_orig : Z) (s : st) : cres st :=
  s ← grab fuel s;
  let b := default 0 (buf s) in
  let size := wantbytes s in
  if do_mlock s then
    let al := align b in
    let size := if b mod pagesize =? 0 then size else u64 (size - (al - b)) in
    let k := nmlock s in
    Ret match mlock k al size with
        | Locked =>
            mkSt (buf s) (Some al) size (wantbytes s) true true (nmalloc s) (S k)
        | ErrAgain | ErrNoMem =>
            mkSt None (Some al) size (sub_page (wantbytes s)) true false (nmalloc s) (S k)
        | ErrPerm =>
            mkSt None (Some al) size wantbytes_orig false false (nmalloc s) (S k)
        | ErrOther =>
            mkSt (buf s) (Some al) size (wantbytes s) false true (nmalloc s) (S k)
        end
  else
    Ret (mkSt (buf s) (aligned s) size (wantbytes s) false true (nmalloc s) (nmlock s)).

Fixpoint alloc_loop (fuel grab_fuel : nat) (wantbytes_orig : Z) (s : st) : cres st :=
  if done_mem s then Ret s
  else
    match fuel with
    | O => NoFuel
    | S fuel =>
        s ← alloc_step grab_fuel wantbytes_orig s;
        alloc_loop fuel grab_fuel wantbytes_orig s
    end.

Definition start (want : Z) : st := mkSt None None 0 want true false 0 0.

(** The buffer that the test loop gets: [aligned] and [bufsize]. *)
Definition allocate (fuel : nat) (want : Z) : cres st :=
  alloc_loop fuel fuel want (start want).
End Allocate.

(** ** The rest of main *)

(** [for (loop = 1; loop <= loops; loop++)]; the program runs for ever when
    [loops] is 0, which is not modelled. *)
Section Run.
Context {R : Type} (rand : R -> Z * R) (shl_wide : Z -> Z) (h : Memtester.hw).

Fixpoint test_loops (loops : nat) (aligned bufsize exit_code : Z) (s : gmap Z Z * R)
    : cres (Z * (gmap Z Z * R)) :=
  match loops with
  | O => Ret (exit_code, s)
  | S loops =>
      '(exit_code, s) ← Memtester.run_loop rand shl_wide h aligned bufsize exit_code s;
      test_loops loops aligned bufsize exit_code s
  end.
End Run.

(** The block that [malloc] gave is what is mapped, and its memory works. *)
Definition block_hw (s : st) : Memtester.hw :=
  match buf s with
  | Some b => Memtester.good_hw b (b + wantbytes s)
  | None => Memtester.good_hw 0 0
  end.

Definition main {R} (rand : R -> Z * R) (shl_wide : Z -> Z) (pagesize : Z)
    (malloc : nat -> Z -> option Z) (mlock : nat -> Z -> Z -> lock_result) (fuel : nat)
    (wantraw : Z) (memsuffix : string) (loops : nat) (m : gmap Z Z) (g : R) : cres unit :=
  want ← parse_want pagesize wantraw memsuffix;
  s ← allocate pagesize malloc mlock fuel want;
  a ← deref (aligned s);
  '(exit_code, _) ← test_loops rand shl_wide (block_hw s) loops a (bufsize s) 0 (m, g);
  Exit exit_code.

(** ** The allocation loop *)
Section Proofs.
Context (p : Z) (malloc : nat -> Z -> option Z) (mlock : nat -> Z -> Z -> lock_result).
Abbreviation pagesize := (2 ^ p).
Hypothesis Hp : 3 <= p < 64.
(** A block lies in the address space, a page below its end. *)
Hypothesis Hmalloc : forall k n b, malloc k n = Some b -> 0 <= b /\ b + n + pagesize <= 2 ^ 64.
(** Locking nothing succeeds, and the process is allowed to lock. *)
Hypothesis Hlock0 : forall k a, mlock k a 0 = Locked.
Hypothesis Hperm : forall k a n, mlock k a n <> ErrPerm.

Lemma mask_spec b : 0 <= b < 2 ^ 64 -> Z.land b (u64 (Z.lnot (pagesize - 1))) = b - b mod pagesize.
Proof.
  intros Hb. transitivity (Z.shiftl (Z.shiftr b p) p).
  - apply Z.bits_inj'. intros i Hi.
    rewrite Z.land_spec, testbit_wrap_u, Z.lnot_spec by lia.
    replace (pagesize - 1) with (Z.ones p) by (rewrite Z.ones_equiv; lia).
    destruct (Z.ltb_spec i p).
    + rewrite Z.shiftl_spec_low, Z.ones_spec_low by lia. cbn [negb]. by rewrite !andb_false_r.
    + rewrite Z.shiftl_spec, Z.shiftr_spec, Z.ones_spec_high by lia.
      replace (i - p + p) with i by lia. cbn [negb]. rewrite andb_true_r.
      destruct (Z.ltb_spec i 64); [apply andb_true_r |].
      rewrite (testbit_above 64 b) by lia. done.
  - rewrite Z.shiftl_mul_pow2, Z.shiftr_div_pow2 by lia.
    pose proof (Z.div_mod b pagesize ltac:(lia)). lia.
Qed.

(** The aligned address is the next page boundary. *)
Lemma align_spec k n b :
  malloc k n = Some b -> 0 <= n ->
  b <= align pagesize b < b + pagesize /\ align pagesize b mod pagesize = 0.
Proof.
  intros E Hn. destruct (Hmalloc k n b E) as [Hb Hb']. unfold align.
  pose proof (Z.mod_pos_bound b pagesize ltac:(lia)).
  destruct (Z.eqb_spec (b mod pagesize) 0) as [E0 | N0]; [split; [lia | done] |].
  rewrite mask_spec by lia. rewrite wrap_u_small by lia. split; [lia |].
  replace (b - b mod pagesize + pagesize) with ((b / pagesize + 1) * pagesize).
  - by rewrite Z.mod_mul by lia.
  - pose proof (Z.div_mod b pagesize ltac:(lia)). lia.
Qed.

(** [n] pages are wanted. *)
Definition pages (n : nat) (s : st) : Prop :=
  wantbytes s = Z.of_nat n * pagesize /\ wantbytes s < 2 ^ 64.

Lemma sub_page_spec n w :
  w = Z.of_nat (S n) * pagesize -> w < 2 ^ 64 -> sub_page pagesize w = Z.of_nat n * pagesize.
Proof. intros -> Hw. unfold sub_page. rewrite wrap_u_small; nia. Qed.

Lemma grab_spec fuel n s :
  (n < fuel)%nat -> pages n s ->
  returns (fun s' => exists n', (n' <= n)%nat /\ pages n' s' /\ do_mlock s' = do_mlock s /\
    ((exists b, buf s' = Some b) \/ buf s' = None /\ n' = 0%nat) /\
    (buf s = None -> forall b, buf s' = Some b ->
       (0 < n')%nat /\ exists k, malloc k (wantbytes s') = Some b))
    (grab pagesize malloc fuel s).
Proof.
  revert n s. induction fuel as [| fuel IH]; intros n s Hf Hn; [lia |].
  cbn [grab]. destruct (buf s) as [b |] eqn:Eb.
  { apply returns_Ret. exists n. split; [lia |]. split; [done |]. split; [done |].
    split; [left; by exists b | done]. }
  destruct Hn as [Hn Hw]. destruct (Z.eqb_spec (wantbytes s) 0) as [E0 | N0].
  { apply returns_Ret. exists n. split; [lia |]. split; [done |]. split; [done |].
    split; [right; split; [done | nia] |]. intros _ b Eb'. congruence. }
  destruct n as [| n]; [lia |].
  destruct (malloc (nmalloc s) (wantbytes s)) as [b |] eqn:Em.
  - destruct fuel as [| fuel]; [lia |]. cbn [grab buf].
    apply returns_Ret. exists (S n). split; [lia |]. split; [by split |]. split; [done |].
    split; [left; by exists b |]. intros _ b' [= <-]. split; [lia |]. by exists (nmalloc s).
  - eapply returns_mono; [apply (IH n); [lia |] |].
    + split; cbn [wantbytes]; rewrite (sub_page_spec n) by done; nia.
    + intros s' (n' & Hle & Hp' & Hd & Hor & Hmal). exists n'. split; [lia |]. split; [done |].
      split; [done |]. split; [done |]. intros _. by apply Hmal.
Qed.

(** What the test loop may rely on. *)
Definition usable (want : Z) (s : st) : Prop :=
  (buf s = None /\ wantbytes s = 0 /\ bufsize s = 0 /\ aligned s = Some 0) \/
  exists b a, buf s = Some b /\ aligned s = Some a /\ a mod pagesize = 0 /\
    0 <= b /\ b <= a /\ 0 < bufsize s /\ a + bufsize s = b + wantbytes s /\
    wantbytes s <= want /\ b + wantbytes s <= 2 ^ 64.

Lemma alloc_step_spec fuel n want s :
  (n < fuel)%nat -> pages n s -> Z.of_nat n * pagesize <= want ->
  do_mlock s = true -> buf s = None ->
  returns (fun s' => (done_mem s' = true /\ usable want s') \/
    (done_mem s' = false /\ do_mlock s' = true /\ buf s' = None /\
     exists n', (n' < n)%nat /\ pages n' s'))
    (alloc_step pagesize malloc mlock fuel want s).
Proof.
  intros Hf Hn Hwant Hd Hb. unfold alloc_step.
  eapply returns_bind; [by apply (grab_spec fuel n) |].
  intros s1 (n' & Hle & [Hw1 Hw1'] & Hd1 & Hor & Hmal). specialize (Hmal Hb).
  rewrite Hd1, Hd. cbn zeta. apply returns_Ret.
  destruct Hor as [[b Eb] | [Eb ->]].
  - destruct (Hmal b Eb) as [Hn' (k & Ek)]. rewrite Eb. change (default 0 (Some b)) with b.
    destruct (Hmalloc _ _ _ Ek) as [Hb0 Hb1].
    destruct (align_spec k _ b Ek ltac:(nia)) as [Hal Hmod].
    set (a := align pagesize b) in *.
    set (size := if b mod pagesize =? 0 then _ else _).
    assert (Hsize : 0 < size /\ a + size = b + wantbytes s1).
    { unfold size. destruct (Z.eqb_spec (b mod pagesize) 0) as [E0 | N0].
      - assert (a = b) as -> by (unfold a, align; by rewrite E0). nia.
      - rewrite wrap_u_small by nia. nia. }
    clearbody size.
    assert (Huse : forall d e f g h, usable want (mkSt (Some b) (Some a) size (wantbytes s1) d e f g) /\ h = h :> nat).
    { intros. split; [| done]. right. exists b, a. cbn. repeat split; try (done || lia); nia. }
    destruct n' as [| n']; [lia |].
    assert (Hretry : forall e f, (exists m, (m < n)%nat /\
      pages m (mkSt None (Some a) size (sub_page pagesize (wantbytes s1)) true false e f))).
    { intros. exists n'. split; [lia |]. split; cbn [wantbytes];
        rewrite (sub_page_spec n') by done; nia. }
    destruct (mlock (nmlock s1) a size) eqn:El.
    + left. split; [done |]. apply (Huse _ _ _ _ 0%nat).
    + right. split; [done |]. split; [done |]. split; [done |]. apply Hretry.
    + right. split; [done |]. split; [done |]. split; [done |]. apply Hretry.
    + by apply Hperm in El.
    + left. split; [done |]. apply (Huse _ _ _ _ 0%nat).
  - assert (Ew : wantbytes s1 = 0) by lia. rewrite Eb, Ew. change (default 0 None) with 0.
    assert (Ea : align pagesize 0 = 0).
    { unfold align. by rewrite Z.mod_0_l by lia. }
    rewrite Ea, Z.mod_0_l by lia. cbn [Z.eqb]. rewrite Hlock0. left. split; [done |]. by left.
Qed.

Lemma alloc_loop_spec fuel grab_fuel n want s :
  (n < grab_fuel)%nat -> (S n < fuel)%nat -> pages n s -> Z.of_nat n * pagesize <= want ->
  do_mlock s = true -> buf s = None ->
  done_mem s = false ->
  returns (usable want) (alloc_loop pagesize malloc mlock fuel grab_fuel want s).
Proof.
  revert n s. induction fuel as [| fuel IH]; intros n s Hg Hf Hn Hw Hd Hb Hdone; [lia |].
  cbn [alloc_loop]. rewrite Hdone.
  eapply returns_bind; [by apply (alloc_step_spec grab_fuel n) |].
  intros s1 [[Hdone1 Huse] | (Hdone1 & Hd1 & Hb1 & n' & Hn' & Hp')].
  - destruct fuel; cbn [alloc_loop]; rewrite Hdone1; by apply returns_Ret.
  - apply (IH n'); try (done || lia). nia.
Qed.
End Proofs.

Lemma allocate_usable_aux (p : Z) (malloc : nat -> Z -> option Z)
    (mlock : nat -> Z -> Z -> lock_result) (n : nat) (fuel : nat) :
  3 <= p < 64 ->
  (forall k m b, malloc k m = Some b -> 0 <= b /\ b + m + 2 ^ p <= 2 ^ 64) ->
  (forall k a, mlock k a 0 = Locked) -> (forall k a m, mlock k a m <> ErrPerm) ->
  Z.of_nat n * 2 ^ p < 2 ^ 64 -> (S n < fuel)%nat ->
  returns (usable p (Z.of_nat n * 2 ^ p)) (allocate (2 ^ p) malloc mlock fuel (Z.of_nat n * 2 ^ p)).
Proof.
  intros Hp Hm Hl0 Hl Hn Hf. unfold allocate.
  apply (alloc_loop_spec p malloc mlock Hp Hm Hl0 Hl fuel fuel n); try (done || lia).
Qed.

Lemma alloc_loop_S pagesize malloc mlock fuel grab_fuel want s :
  done_mem s = false ->
  alloc_loop pagesize malloc mlock (S fuel) grab_fuel want s =
    (s ← alloc_step pagesize malloc mlock grab_fuel want s;
     alloc_loop pagesize malloc mlock fuel grab_fuel want s).
Proof. intros Hd. cbn [alloc_loop]. by rewrite Hd. Qed.

Lemma alloc_loop_done pagesize malloc mlock fuel grab_fuel want s :
  done_mem s = true -> alloc_loop pagesize malloc mlock fuel grab_fuel want s = Ret s.
Proof. intros Hd. destruct fuel; cbn [alloc_loop]; by rewrite Hd. Qed.

Lemma grab_first pagesize malloc fuel s b :
  buf s = None -> wantbytes s <> 0 -> malloc (nmalloc s) (wantbytes s) = Some b ->
  grab pagesize malloc (S (S fuel)) s =
    Ret (mkSt (Some b) (aligned s) (bufsize s) (wantbytes s) (do_mlock s) (done_mem s)
           (S (nmalloc s)) (nmlock s)).
Proof.
  intros Eb Hw Em. cbn [grab]. rewrite Eb. apply Z.eqb_neq in Hw. by rewrite Hw, Em.
Qed.

(** A try that is not allowed to lock, and the one after it. *)
Lemma alloc_step_perm pagesize malloc mlock fuel want s b :
  buf s = None -> wantbytes s <> 0 -> malloc (nmalloc s) (wantbytes s) = Some b ->
  do_mlock s = true -> (forall a n, mlock (nmlock s) a n = ErrPerm) ->
  exists size, alloc_step pagesize malloc mlock (S (S fuel)) want s =
    Ret (mkSt None (Some (align pagesize b)) size want false false (S (nmalloc s)) (S (nmlock s))).
Proof.
  intros Eb Hw Em Hd Hl. unfold alloc_step. rewrite (grab_first _ _ _ _ b) by done.
  rewrite bind_Ret. cbn [do_mlock]. rewrite Hd. cbn zeta. cbn [nmlock]. rewrite Hl. by eexists.
Qed.

Lemma alloc_step_unlocked pagesize malloc mlock fuel want s b :
  buf s = None -> wantbytes s <> 0 -> malloc (nmalloc s) (wantbytes s) = Some b ->
  do_mlock s = false ->
  alloc_step pagesize malloc mlock (S (S fuel)) want s =
    Ret (mkSt (Some b) (aligned s) (wantbytes s) (wantbytes s) false true (S (nmalloc s)) (nmlock s)).
Proof.
  intros Eb Hw Em Hd. unfold alloc_step. rewrite (grab_first _ _ _ _ b) by done.
  rewrite bind_Ret. cbn [do_mlock]. by rewrite Hd.
Qed.

(** ** Theorems *)

(** When the process may lock memory, the allocation loop ends, after at
    most one try per page asked for: either no page was to be had and the
    buffer is empty, or the buffer starts on a page boundary inside the block
    that [malloc] gave, is not empty, and ends exactly where the block ends. *)
Theorem allocate_usable (p : Z) (malloc : nat -> Z -> option Z)
    (mlock : nat -> Z -> Z -> lock_result) (n : nat) (fuel : nat) :
  3 <= p < 64 ->
  (forall k m b, malloc k m = Some b -> 0 <= b /\ b + m + 2 ^ p <= 2 ^ 64) ->
  (forall k a, mlock k a 0 = Locked) -> (forall k a m, mlock k a m <> ErrPerm) ->
  Z.of_nat n * 2 ^ p < 2 ^ 64 -> (S n < fuel)%nat ->
  returns (usable p (Z.of_nat n * 2 ^ p)) (allocate (2 ^ p) malloc mlock fuel (Z.of_nat n * 2 ^ p)).
Proof. apply allocate_usable_aux. Qed.

(** Gives a block at 4096 * 9 + 16 for at most 4 pages, locks at most 2. *)
Definition sample_malloc (k : nat) (m : Z) : option Z :=
  if (0 <=? m) && (m <=? 16384) then Some 36880 else None.
Definition sample_mlock (k : nat) (a m : Z) : lock_result :=
  if m <=? 8192 then Locked else ErrAgain.

Lemma sample_malloc_ok k m b :
  sample_malloc k m = Some b -> 0 <= b /\ b + m + 2 ^ 12 <= 2 ^ 64.
Proof.
  unfold sample_malloc. destruct (Z.leb_spec 0 m), (Z.leb_spec m 16384); cbn; intros [= <-].
  change (2 ^ 12) with 4096. change (2 ^ 64) with 18446744073709551616. lia.
Qed.

Lemma allocate_usable_witness :
  returns (usable 12 (Z.of_nat 6 * 2 ^ 12))
    (allocate (2 ^ 12) sample_malloc sample_mlock 10 (Z.of_nat 6 * 2 ^ 12)).
Proof.
  apply allocate_usable; [lia | apply sample_malloc_ok | reflexivity | | vm_compute; reflexivity | lia].
  intros k a m. unfold sample_mlock. destruct (m <=? 8192); discriminate.
Defined.

(** On a machine whose memory works and where the process may lock it, the
    program always ends with exit code 0, whatever the memory holds and however
    often [malloc] and [mlock] refuse first. *)
Theorem good_machine_passes {R} (rand : R -> Z * R) (shl_wide : Z -> Z) (p : Z)
    (malloc : nat -> Z -> option Z) (mlock : nat -> Z -> Z -> lock_result) (n fuel : nat)
    (wantraw : Z) (memsuffix : string) (loops : nat) (m : gmap Z Z) (g : R) :
  3 <= p < 64 ->
  (forall k m b, malloc k m = Some b -> 0 <= b /\ b + m + 2 ^ p <= 2 ^ 64) ->
  (forall k a, mlock k a 0 = Locked) -> (forall k a m, mlock k a m <> ErrPerm) ->
  parse_want (2 ^ p) wantraw memsuffix = Ret (Z.of_nat n * 2 ^ p) -> (S n < fuel)%nat ->
  Z.of_nat n * 2 ^ p < 2 ^ 64 ->
  main rand shl_wide (2 ^ p) malloc mlock fuel wantraw memsuffix loops m g = Exit 0.
Proof.
  intros Hp Hm Hl0 Hl Hw Hf Hn. unfold main. rewrite Hw, bind_Ret.
  destruct (allocate_usable_aux p malloc mlock n fuel Hp Hm Hl0 Hl Hn Hf) as (s & -> & Hs).
  rewrite bind_Ret.
  assert (Hrun : exists a, aligned s = Some a /\ forall m g, exists s',
    Memtester.run_loop rand shl_wide (block_hw s) a (bufsize s) 0 (m, g) = Ret (0, s')).
  { destruct Hs as [(Eb & Ew & Es & Ea) | (b & a & Eb & Ea & Hmod & Hb & Hba & Hsz & Heq & _ & Htop)].
    - exists 0. split; [done |]. intros m' g'. unfold block_hw. rewrite Eb, Es.
      by apply Memtester.good_memory_aux.
    - exists a. split; [done |]. intros m' g'. unfold block_hw. rewrite Eb.
      apply Memtester.good_memory_aux; lia. }
  destruct Hrun as (a & -> & Hrun). cbn [deref]. rewrite bind_Ret.
  assert (Hloops : forall l s0, exists s1,
    test_loops rand shl_wide (block_hw s) l a (bufsize s) 0 s0 = Ret (0, s1)).
  { induction l as [| l IH]; intros [m0 g0]; cbn [test_loops]; [eauto |].
    destruct (Hrun m0 g0) as (s1 & ->). rewrite bind_Ret. apply IH. }
  destruct (Hloops loops (m, g)) as (s1 & ->). by rewrite bind_Ret.
Qed.

Lemma good_machine_passes_witness :
  main (fun g : Z => (g, g + 1)) (fun _ => 0) (2 ^ 12) sample_malloc sample_mlock 10 24 "K" 3 ∅ 0
    = Exit 0.
Proof.
  apply (good_machine_passes (fun g : Z => (g, g + 1)) (fun _ => 0) 12 sample_malloc sample_mlock 6);
    [lia | apply sample_malloc_ok | reflexivity | | vm_compute; reflexivity | lia | vm_compute; reflexivity].
  intros k a m. unfold sample_mlock. destruct (m <=? 8192); discriminate.
Defined.

(** When the process may not lock memory, the program tests a stale region:
    it frees the first block, allocates again, keeps the address aligned in the
    freed block and the full size; if the new block is where the old one was and
    that was not on a page boundary, the test writes beyond its end. *)
Theorem unlocked_region_is_stale (pagesize : Z) (malloc : nat -> Z -> option Z)
    (mlock : nat -> Z -> Z -> lock_result) (fuel : nat) (want b0 b1 : Z) :
  0 < want -> (3 <= fuel)%nat ->
  malloc 0%nat want = Some b0 -> malloc 1%nat want = Some b1 ->
  (forall a n, mlock 0%nat a n = ErrPerm) ->
  returns (fun s => buf s = Some b1 /\ wantbytes s = want /\ bufsize s = want /\
      aligned s = Some (align pagesize b0) /\
      (b1 = b0 -> b0 < align pagesize b0 -> b1 + want < align pagesize b0 + bufsize s))
    (allocate pagesize malloc mlock fuel want).
Proof.
  intros Hw Hf E0 E1 Hl. unfold allocate, start.
  destruct fuel as [| [| [| fuel]]]; try lia.
  rewrite alloc_loop_S by done.
  destruct (alloc_step_perm pagesize malloc mlock (S fuel) want
    (mkSt None None 0 want true false 0 0) b0) as (size & ->); try done; [cbn; lia |].
  rewrite bind_Ret, alloc_loop_S by done.
  rewrite (alloc_step_unlocked _ _ _ _ _ _ b1) by (done || (cbn; lia)).
  rewrite bind_Ret, alloc_loop_done by done. apply returns_Ret. cbn.
  repeat split; try done. lia.
Qed.

Lemma unlocked_region_is_stale_witness :
  returns (fun s => buf s = Some 36880 /\ wantbytes s = 8192 /\ bufsize s = 8192 /\
      aligned s = Some (align 4096 36880) /\
      (36880 = 36880 -> 36880 < align 4096 36880 -> 36880 + 8192 < align 4096 36880 + bufsize s))
    (allocate 4096 sample_malloc (fun _ _ _ => ErrPerm) 3 8192).
Proof. apply unlocked_region_is_stale; (lia || reflexivity). Defined.

End MemtesterMain.
