(* ===== verification/HttpReply.v ===== *)
(** * httperf/src/http.c: the reply parser

    The functions of http.c in the order of the file, over the part of the
    [Conn] and the [Call] that a reply changes, the record [rs].  A buffer is the
    list of its bytes and every function returns the bytes it left, as the C
    code does through [bufp] and [buf_lenp].  The line buffer holds
    [MAX_HDR_LINE_LEN] bytes; [line] is the part in use.

    The events are logged: [log] has the starts, headers and footers in order,
    [data] the concatenation of what the EV_CALL_RECV_DATA events carried.  A
    handler of a logged event may close the connection: [closes] tells for which;
    the handlers of EV_CALL_RECV_RAW_DATA and EV_CALL_RECV_DATA only print.  [garbage]
    is the value of the local [status] of [parse_status_line] when [sscanf]
    fails, and [before] the byte in front of the line buffer, which [get_line]
    reads when a line is a bare newline. *)
From S2P Require Import Prelude.

Module HttpReply.

Definition MAX_HDR_LINE_LEN : Z := 1024.
Definition SIZE_MAX : Z := 2 ^ 64 - 1.

Inductive Conn_State :=
| S_INITIAL | S_CONNECTING | S_CONNECTED | S_REPLY_STATUS | S_REPLY_HEADER
| S_REPLY_CONTINUE | S_REPLY_DATA | S_REPLY_CHUNKED | S_REPLY_FOOTER | S_REPLY_DONE
| S_CLOSING | S_FREE.
#[export] Instance Conn_State_eq_dec : EqDecision Conn_State.
Proof. solve_decision. Defined.

(** [s->state >= S_CLOSING] *)
Definition closing (x : Conn_State) : bool :=
  match x with S_CLOSING | S_FREE => true | _ => false end.

Inductive ev :=
| RecvStart (status : Z)
| RecvHdr (line : list Z)
| RecvFooter (line : list Z).

Record rs := mkRs {
  state : Conn_State;
  line : list Z;
  content_length : Z;
  has_body : bool;
  is_chunked : bool;
  status : Z;
  version : Z;
  header_bytes : Z;
  content_bytes : Z;
  footer_bytes : Z;
  data : list Z;
  log : list ev
}.

Definition set_state v s := mkRs v (line s) (content_length s) (has_body s) (is_chunked s)
  (status s) (version s) (header_bytes s) (content_bytes s) (footer_bytes s) (data s) (log s).
Definition set_line v s := mkRs (state s) v (content_length s) (has_body s) (is_chunked s)
  (status s) (version s) (header_bytes s) (content_bytes s) (footer_bytes s) (data s) (log s).
Definition set_content_length v s := mkRs (state s) (line s) v (has_body s) (is_chunked s)
  (status s) (version s) (header_bytes s) (content_bytes s) (footer_bytes s) (data s) (log s).
Definition set_has_body v s := mkRs (state s) (line s) (content_length s) v (is_chunked s)
  (status s) (version s) (header_bytes s) (content_bytes s) (footer_bytes s) (data s) (log s).
Definition set_is_chunked v s := mkRs (state s) (line s) (content_length s) (has_body s) v
  (status s) (version s) (header_bytes s) (content_bytes s) (footer_bytes s) (data s) (log s).
Definition set_reply v st s := mkRs (state s) (line s) (content_length s) (has_body s)
  (is_chunked s) st v (header_bytes s) (content_bytes s) (footer_bytes s) (data s) (log s).
Definition add_header_bytes n s := mkRs (state s) (line s) (content_length s) (has_body s)
  (is_chunked s) (status s) (version s) (header_bytes s + n) (content_bytes s) (footer_bytes s)
  (data s) (log s).
Definition add_footer_bytes n s := mkRs (state s) (line s) (content_length s) (has_body s)
  (is_chunked s) (status s) (version s) (header_bytes s) (content_bytes s) (footer_bytes s + n)
  (data s) (log s).
Definition add_content b s := mkRs (state s) (line s) (content_length s) (has_body s)
  (is_chunked s) (status s) (version s) (header_bytes s)
  (content_bytes s + Z.of_nat (length b)) (footer_bytes s) (data s ++ b) (log s).
Definition add_log e s := mkRs (state s) (line s) (content_length s) (has_body s)
  (is_chunked s) (status s) (version s) (header_bytes s) (content_bytes s) (footer_bytes s)
  (data s) (log s ++ [e]).

(** ** C strings and numbers *)
Definition LF : Z := 10.
Definition CR : Z := 13.

(** The C string in a buffer: up to the first NUL. *)
Fixpoint cstr (l : list Z) : list Z :=
  match l with [] => [] | c :: l => if c =? 0 then [] else c :: cstr l end.

Definition isspace (c : Z) : bool := (c =? 32) || ((9 <=? c) && (c <=? 13)).
Definition isdigit (c : Z) : bool := (48 <=? c) && (c <=? 57).
Definition tolower (c : Z) : Z := if (65 <=? c) && (c <=? 90) then c + 32 else c.

Fixpoint skip_space (l : list Z) : list Z :=
  match l with [] => [] | c :: t => if isspace c then skip_space t else l end.

(** [strncasecmp (l, p, strlen (p)) == 0], the rest of [l] after the prefix. *)
Fixpoint prefix_nocase (p l : list Z) : option (list Z) :=
  match p, l with
  | [], _ => Some l
  | a :: p, c :: l => if tolower c =? tolower a then prefix_nocase p l else None
  | _ :: _, [] => None
  end.
Definition equal_nocase (p l : list Z) : bool :=
  match prefix_nocase p l with Some [] => true | _ => false end.

(** The value of a digit in base 10 or 16. *)
Definition digit_value (base c : Z) : option Z :=
  let v := if isdigit c then Some (c - 48)
           else if (97 <=? tolower c) && (tolower c <=? 122) then Some (tolower c - 87)
           else None in
  match v with Some d => if d <? base then Some d else None | None => None end.

Fixpoint read_digits (base acc : Z) (l : list Z) : Z * list Z :=
  match l with
  | c :: t =>
      match digit_value base c with
      | Some d => read_digits base (acc * base + d) t
      | None => (acc, l)
      end
  | [] => (acc, [])
  end.

(** [strtoul]: the value, what follows it ([None] when nothing was read), and
    whether it was out of range. *)
Definition strtoul (base : Z) (l : list Z) : Z * option (list Z) * bool :=
  let l := skip_space l in
  let '(neg, l) := match l with
                   | 45 :: t => (true, t) | 43 :: t => (false, t) | _ => (false, l) end in
  let l := match l with
           | 48 :: x :: ((d :: _) as t) =>
               if (base =? 16) && (tolower x =? 120)
               then match digit_value 16 d with Some _ => t | None => l end
               else l
           | _ => l
           end in
  match l with
  | c :: _ =>
      match digit_value base c with
      | Some _ =>
          let '(v, r) := read_digits base 0 l in
          if SIZE_MAX <? v then (SIZE_MAX, Some r, true)
          else (if (neg : bool) then u64 (- v) else v, Some r, false)
      | None => (0, None, false)
      end
  | [] => (0, None, false)
  end.

Example strtoul_hex_prefix : strtoul 16 (bytes_of_string "0x1F;") = (31, Some [59], false).
Proof. reflexivity. Qed.

(** One [%u] of [sscanf]. *)
Definition scan_uint (l : list Z) : option (Z * list Z) :=
  match strtoul 10 l with
  | (v, Some r, _) => Some (u32 v, r)
  | (_, None, _) => None
  end.

Definition lit (p l : list Z) : option (list Z) :=
  if decide (take (length p) l = p) then Some (drop (length p) l) else None.

(** [sscanf (buf, "HTTP/%u.%u %u ", &major, &minor, &status) == 3] *)
Definition scan_status_line (l : list Z) : option (Z * Z * Z) :=
  l ← lit (bytes_of_string "HTTP/") l;
  '(major, l) ← scan_uint l;
  l ← lit (bytes_of_string ".") l;
  '(minor, l) ← scan_uint l;
  '(st, _) ← scan_uint (skip_space l);
  Some (major, minor, st).

Section Reply.
Context (closes : ev -> bool) (is_head : bool) (garbage before : Z).

Definition event_signal (e : ev) (s : rs) : rs :=
  let s := add_log e s in if closes e then set_state S_CLOSING s else s.

(** ** get_line *)

(** [strchr (buf, '\n')] on the NUL-terminated buffer: the bytes up to and with
    the newline. *)
Fixpoint upto_lf (buf : list Z) : option (list Z) :=
  match buf with
  | [] => None
  | c :: t =>
      if c =? LF then Some [c]
      else if c =? 0 then None
      else match upto_lf t with Some l => Some (c :: l) | None => None end
  end.

(** [l[length l - 1]], the byte in front of the buffer when [l] is empty. *)
Definition last_byte (l : list Z) : Z := default before (last l).

(** Chop the newline and a carriage return in front of it; chopping in front of
    the buffer is undefined. *)
Definition chop_line (l : list Z) : cres (list Z) :=
  if last_byte l =? LF then
    let l := removelast l in
    if last_byte l =? CR then
      match l with [] => Undef | _ => Ret (removelast l) end
    else Ret l
  else Ret l.

Definition get_line (s : rs) (buf : list Z) : cres (bool * rs * list Z) :=
  match buf with
  | [] => Ret (false, s, [])
  | _ =>
      let copied := default buf (upto_lf buf) in
      let rest := drop (length copied) buf in
      let room := Z.to_nat (MAX_HDR_LINE_LEN - 1) in
      let l := line s ++
        (if (Z.to_nat MAX_HDR_LINE_LEN <=? length (line s) + length copied)%nat
         then take (room - length (line s)) copied else copied) in
      if (last_byte l =? LF) || (Z.of_nat (length l) =? MAX_HDR_LINE_LEN - 1) then
        l ← chop_line l; Ret (true, set_line l s, rest)
      else Ret (false, set_line l s, rest)
  end.

Definition consumed (buf rest : list Z) : Z := Z.of_nat (length buf) - Z.of_nat (length rest).

(** ** parse_status_line *)

(** What a complete status line does, up to the label [done]; [false] when the
    function returns in front of it. *)
Definition status_line (s : rs) : bool * rs :=
  let l := cstr (line s) in
  let '(st, s) := match scan_status_line l with
                  | Some (major, minor, st) => (st, set_reply (i32 (0x10000 * major + minor)) (i32 st) s)
                  | None => (garbage, set_reply 0x10000 599 s)
                  end in
  if negb is_head && (st =? 100) then
    (true, set_state S_REPLY_CONTINUE (event_signal (RecvStart (status s)) (set_has_body false s)))
  else
    let body := negb is_head && negb (st / 100 =? 1)
                && negb ((st =? 204) || (st =? 205) || (st =? 304)) in
    let s := event_signal (RecvStart (status s)) (set_has_body body s) in
    if closing (state s) then (false, s) else (true, set_state S_REPLY_HEADER s).

Definition parse_status_line (s : rs) (buf : list Z) : cres (rs * list Z) :=
  let s := set_content_length SIZE_MAX (set_is_chunked false s) in
  '(complete, s, rest) ← get_line s buf;
  if (complete : bool) then
    let '(to_done, s) := status_line s in
    if (to_done : bool) then Ret (set_line [] (add_header_bytes (consumed buf rest) s), rest)
    else Ret (s, rest)
  else Ret (s, rest).

(** ** parse_headers *)

(** The empty line at the end of the headers. *)
Definition end_of_headers (s : rs) : rs :=
  if has_body s then
    if is_chunked s then set_state S_REPLY_CHUNKED (set_content_length 0 s)
    else set_state S_REPLY_DATA s
  else if decide (state s = S_REPLY_CONTINUE) then set_state S_REPLY_HEADER s
  else set_state S_REPLY_DONE s.

(** The effect of one header line. *)
Definition header_line (s : rs) : rs :=
  let hdr := cstr (line s) in
  let s :=
    match prefix_nocase (bytes_of_string "content-length:") hdr with
    | Some v =>
        let n := (strtoul 10 v).1.1 in
        let s := set_content_length n s in
        if n =? 0 then set_has_body false s else s
    | None =>
        match prefix_nocase (bytes_of_string "transfer-encoding:") hdr with
        | Some v =>
            if equal_nocase (bytes_of_string "chunked") (skip_space v)
            then set_is_chunked true s else s
        | None => s
        end
    end in
  event_signal (RecvHdr (line s)) s.

(** The loop; the result tells whether the function returned early. *)
Fixpoint headers_loop (fuel : nat) (s : rs) (buf : list Z) : cres (bool * rs * list Z) :=
  match fuel with
  | O => NoFuel
  | S fuel =>
      '(complete, s, buf) ← get_line s buf;
      if (complete : bool) then
        match line s with
        | [] => Ret (false, end_of_headers s, buf)
        | _ =>
            let s := header_line s in
            if closing (state s) then Ret (true, s, buf)
            else headers_loop fuel (set_line [] s) buf
        end
      else Ret (false, s, buf)
  end.
Definition parse_headers (s : rs) (buf : list Z) : cres (rs * list Z) :=
  '(early, s, rest) ← headers_loop (S (length buf)) s buf;
  if (early : bool) then Ret (s, rest)
  else Ret (add_header_bytes (consumed buf rest) s, rest).

(** ** parse_footers *)
Fixpoint footers_loop (fuel : nat) (s : rs) (buf : list Z) : cres (bool * rs * list Z) :=
  match fuel with
  | O => NoFuel
  | S fuel =>
      '(complete, s, buf) ← get_line s buf;
      if (complete : bool) then
        match line s with
        | [] => Ret (false, set_state S_REPLY_DONE s, buf)
        | _ =>
            let s := event_signal (RecvFooter (line s)) s in
            if closing (state s) then Ret (true, s, buf)
            else footers_loop fuel (set_line [] s) buf
        end
      else Ret (false, s, buf)
  end.
Definition parse_footers (s : rs) (buf : list Z) : cres (rs * list Z) :=
  '(early, s, rest) ← footers_loop (S (length buf)) s buf;
  if (early : bool) then Ret (s, rest)
  else Ret (add_footer_bytes (consumed buf rest) s, rest).

(** ** parse_data *)
Definition parse_data (s : rs) (buf : list Z) : bool * rs * list Z :=
  let bytes_needed := u64 (content_length s - content_bytes s) in
  let n := Z.to_nat (Z.min (Z.of_nat (length buf)) bytes_needed) in
  (Z.of_nat n =? bytes_needed, add_content (take n buf) s, drop n buf).

(** ** xfer_chunked *)
Fixpoint xfer_chunked (fuel : nat) (s : rs) (buf : list Z) : cres (rs * list Z) :=
  match fuel with
  | O => NoFuel
  | S fuel =>
      match buf with
      | [] => Ret (s, buf)
      | _ =>
          if closing (state s) then Ret (s, buf)
          else if content_length s <=? content_bytes s then
            '(complete, s, buf) ← get_line s buf;
            if (complete : bool) then
              match line s with
              | [] => xfer_chunked fuel s buf
              | l =>
                  let '(chunk_length, end_, range) := strtoul 16 (cstr l) in
                  let s := set_line [] s in
                  match end_, range with
                  | None, _ | _, true => xfer_chunked fuel s buf
                  | Some _, false =>
                      if chunk_length =? 0 then Ret (set_state S_REPLY_FOOTER s, buf)
                      else
                        let s := set_content_length (u64 (content_length s + chunk_length)) s in
                        let '(_, s, buf) := parse_data s buf in
                        xfer_chunked fuel s buf
                  end
              end
            else Ret (s, buf)
          else
            let '(_, s, buf) := parse_data s buf in
            xfer_chunked fuel s buf
      end
  end.

(** ** http_process_reply_bytes *)
Definition process_state (s : rs) (buf : list Z) : cres (rs * list Z) :=
  match state s with
  | S_REPLY_STATUS => parse_status_line s buf
  | S_REPLY_HEADER => parse_headers s buf
  | S_REPLY_FOOTER => parse_footers s buf
  | S_REPLY_DATA =>
      let '(all, s, rest) := parse_data s buf in
      Ret (if (all : bool) && negb (closing (state s)) then set_state S_REPLY_DONE s else s, rest)
  | S_REPLY_CONTINUE => parse_headers s buf
  | S_REPLY_CHUNKED => xfer_chunked (S (length buf)) s buf
  | _ => Exit 1
  end.

(** The loop that ends when the buffer is empty or the connection closes. *)
Fixpoint process_loop (fuel : nat) (s : rs) (buf : list Z) : cres (rs * list Z) :=
  match fuel with
  | O => NoFuel
  | S fuel =>
      if decide (state s = S_REPLY_DONE) then Ret (s, buf)
      else
        '(s, buf) ← process_state s buf;
        match buf with
        | [] => Ret (s, buf)
        | _ => if closing (state s) then Ret (s, buf) else process_loop fuel s buf
        end
  end.
Definition http_process_reply_bytes (s : rs) (buf : list Z) : cres (rs * list Z) :=
  process_loop (S (S (length buf))) s buf.
End Reply.

(** The state in which a reply starts. *)
Definition start_reply : rs := mkRs S_REPLY_STATUS [] 0 false false 0 0 0 0 0 [] [].

(** The outcome on a concrete input, with no handler that closes. *)
Definition parse_text (is_head : bool) (garbage : Z) (chunks : list (list Z)) : cres (rs * list Z) :=
  fold_left (fun r b => '(s, rest) ← r;
      http_process_reply_bytes (fun _ => false) is_head garbage 0 s (rest ++ b))
    chunks (Ret (start_reply, [])).

Definition crlf : list Z := [CR; LF].
Definition text (s : string) : list Z := bytes_of_string s.

Example parse_simple :
  ('(s, rest) ← parse_text false 0
     [text "HTTP/1.1 200 OK" ++ crlf ++ text "Content-Length: 5" ++ crlf ++ crlf ++ text "helloX"];
   Ret (state s, status s, version s, content_bytes s, data s, rest))
  = Ret (S_REPLY_DONE, 200, 0x10001, 5, text "hello", text "X").
Proof. vm_compute. reflexivity. Qed.

(** ** A byte-at-a-time reference *)
Section Reference.
Context (is_head : bool) (garbage : Z).

Definition line_mode (s : rs) : bool :=
  match state s with
  | S_REPLY_STATUS | S_REPLY_HEADER | S_REPLY_CONTINUE | S_REPLY_FOOTER => true
  | S_REPLY_CHUNKED => content_length s <=? content_bytes s
  | _ => false
  end.

Definition chop (l : list Z) : list Z :=
  let l := removelast l in
  if decide (last l = Some CR) then removelast l else l.

(** What the end of a line does, in each state. *)
Definition end_line (s : rs) : rs :=
  match state s with
  | S_REPLY_STATUS => set_line [] (status_line (fun _ => false) is_head garbage s).2
  | S_REPLY_HEADER | S_REPLY_CONTINUE =>
      match line s with
      | [] => end_of_headers s
      | _ => set_line [] (header_line (fun _ => false) s)
      end
  | S_REPLY_FOOTER =>
      match line s with
      | [] => set_state S_REPLY_DONE s
      | _ => set_line [] (add_log (RecvFooter (line s)) s)
      end
  | S_REPLY_CHUNKED =>
      match line s with
      | [] => s
      | l =>
          let '(chunk_length, end_, range) := strtoul 16 (cstr l) in
          match end_, range with
          | None, _ | _, true => set_line [] s
          | Some _, false =>
              if chunk_length =? 0 then set_state S_REPLY_FOOTER (set_line [] s)
              else set_content_length (u64 (content_length s + chunk_length)) (set_line [] s)
          end
      end
  | _ => s
  end.

(** What the arrival of [k] bytes of a line does before the line is complete. *)
Definition prep (k : Z) (s : rs) : rs :=
  match state s with
  | S_REPLY_STATUS => set_content_length SIZE_MAX (set_is_chunked false s)
  | S_REPLY_FOOTER => add_footer_bytes k s
  | _ => s
  end.

Definition feed (s : rs) (c : Z) : rs :=
  if line_mode s then
    let s := prep 1 s in
    let l := line s ++ [c] in
    if c =? LF then end_line (set_line (chop l) s) else set_line l s
  else
    let s := add_content [c] s in
    if decide (state s = S_REPLY_DATA) then
      if content_bytes s =? content_length s then set_state S_REPLY_DONE s else s
    else s.

(** Feed bytes until the reply is complete. *)
Fixpoint run (s : rs) (buf : list Z) : rs * list Z :=
  match buf with
  | [] => (s, [])
  | c :: t => if decide (state s = S_REPLY_DONE) then (s, buf) else run (feed s c) t
  end.

(** The bytes of [buf] that are counted as header bytes: those of a status line that ends in
    [buf] ([n] of them are in front of this place), and those up to the end of the headers. *)
Fixpoint header_count (n : Z) (s : rs) (buf : list Z) : Z :=
  match buf with
  | [] => 0
  | c :: t =>
      match state s with
      | S_REPLY_STATUS =>
          if c =? LF then n + 1 + header_count 0 (feed s c) t else header_count (n + 1) (feed s c) t
      | S_REPLY_HEADER | S_REPLY_CONTINUE => 1 + header_count 0 (feed s c) t
      | _ => 0
      end
  end.

(** The lines fit the line buffer and contain no NUL, and the sizes of the
    chunks add up to less than 2^64 (when they wrap around, [content_length]
    falls behind [content_bytes]). *)
Fixpoint lines_ok (s : rs) (buf : list Z) : Prop :=
  match buf with
  | [] => True
  | c :: t =>
      state s = S_REPLY_DONE \/
      (line_mode s = true -> c <> 0 /\ (length (line s) < 1022)%nat /\
         (state s = S_REPLY_CHUNKED -> content_bytes s <= content_length s)) /\
      lines_ok (feed s c) t
  end.
End Reference.

(** Everything but the count of header bytes. *)
Definition forget (s : rs) : rs :=
  mkRs (state s) (line s) (content_length s) (has_body s) (is_chunked s) (status s) (version s)
    0 (content_bytes s) (footer_bytes s) (data s) (log s).

(** The invariant of a reply in progress. *)
Record wf (s : rs) : Prop := {
  wf_state : match state s with
             | S_REPLY_STATUS | S_REPLY_HEADER | S_REPLY_CONTINUE | S_REPLY_DATA
             | S_REPLY_CHUNKED | S_REPLY_FOOTER | S_REPLY_DONE => True
             | _ => False
             end;
  wf_bytes : 0 <= content_bytes s;
  wf_length : 0 <= content_length s <= SIZE_MAX;
  wf_line : (length (line s) <= 1022)%nat;
  wf_headers : state s = S_REPLY_STATUS \/ state s = S_REPLY_HEADER \/ state s = S_REPLY_CONTINUE ->
               content_bytes s = 0 /\
               (state s <> S_REPLY_STATUS -> has_body s = true -> 0 < content_length s);
  wf_data : state s = S_REPLY_DATA -> content_bytes s < content_length s
}.

End HttpReply.
