(* ===== verification/HttpReplyProofs.v ===== *)
(** * httperf/src/http.c: the reply parser is a byte-at-a-time automaton

    [HttpReply.feed] consumes one byte.  The theorems show that
    [http_process_reply_bytes] returns on every buffer that keeps to the bounds of
    [lines_ok], and that what it leaves is what feeding the bytes one by one leaves, so
    that the way the network cuts a reply into buffers does not matter, except to the
    count of header bytes, which is characterised by [header_count]. *)
From S2P Require Import Prelude HttpReply.

Module HttpReplyProofs.
Import HttpReply.

(** ** Lines in a buffer *)
Definition clean (l : list Z) : Prop := Forall (fun c => c <> LF /\ c <> 0) l.

Lemma split_lf (buf : list Z) :
  (exists pre rest, buf = pre ++ LF :: rest /\ Forall (fun c => c <> LF) pre) \/
  Forall (fun c => c <> LF) buf.
Proof.
  induction buf as [| c buf IH]; [by right |].
  destruct (Z.eq_dec c LF) as [-> | Hc]; [left; exists [], buf; split; [done | constructor] |].
  destruct IH as [(pre & rest & -> & F) | F].
  - left. exists (c :: pre), rest. split; [done | by constructor].
  - right. by constructor.
Qed.

Lemma upto_lf_line pre rest : clean pre -> upto_lf (pre ++ LF :: rest) = Some (pre ++ [LF]).
Proof.
  induction 1 as [| c pre [H1 H2] F IH]; [done |]. cbn [app upto_lf].
  destruct (Z.eqb_spec c LF); [done |]. destruct (Z.eqb_spec c 0); [done |]. by rewrite IH.
Qed.

Lemma upto_lf_none pre : clean pre -> upto_lf pre = None.
Proof.
  induction 1 as [| c pre [H1 H2] F IH]; [done |]. cbn [upto_lf].
  destruct (Z.eqb_spec c LF); [done |]. destruct (Z.eqb_spec c 0); [done |]. by rewrite IH.
Qed.

Lemma last_byte_snoc before l c : last_byte before (l ++ [c]) = c.
Proof. unfold last_byte. by rewrite last_snoc. Qed.

Section Lines.
Context (before : Z).
Hypothesis Hbefore : before <> CR.

Lemma chop_line_lf l : chop_line before (l ++ [LF]) = Ret (chop (l ++ [LF])).
Proof.
  unfold chop_line, chop. rewrite last_byte_snoc, Z.eqb_refl, removelast_last.
  unfold last_byte. destruct (last l) as [x |] eqn:El; cbn [default from_option id].
  - destruct (Z.eqb_spec x CR) as [-> | Hx].
    + rewrite decide_True by done. by destruct l.
    + rewrite decide_False by congruence. done.
  - rewrite decide_False by done. by destruct (Z.eqb_spec before CR).
Qed.

Lemma get_line_full s pre rest :
  clean pre -> (length (line s) + length pre < 1022)%nat ->
  get_line before s (pre ++ LF :: rest) =
    Ret (true, set_line (chop (line s ++ pre ++ [LF])) s, rest).
Proof.
  intros Hc Hlen. unfold get_line.
  destruct (pre ++ LF :: rest) as [| c buf] eqn:Eb; [by destruct pre |]. rewrite <- Eb.
  rewrite upto_lf_line by done. cbn [default from_option id].
  assert (Hl : (Z.to_nat MAX_HDR_LINE_LEN <=? length (line s) + length (pre ++ [LF]))%nat = false).
  { apply Nat.leb_gt. rewrite length_app. cbn [length]. unfold MAX_HDR_LINE_LEN. lia. }
  rewrite Hl. rewrite (app_assoc (line s)), last_byte_snoc, Z.eqb_refl. cbn [orb].
  assert (Ed : drop (length (pre ++ [LF])) (pre ++ LF :: rest) = rest).
  { change (pre ++ LF :: rest) with (pre ++ [LF] ++ rest). by rewrite app_assoc, drop_app_length. }
  by rewrite chop_line_lf, bind_Ret, <- app_assoc, Ed.
Qed.

Lemma get_line_part s pre :
  clean pre -> pre <> [] -> (length (line s) + length pre <= 1022)%nat ->
  get_line before s pre = Ret (false, set_line (line s ++ pre) s, []).
Proof.
  intros Hc Hne Hlen. unfold get_line. destruct pre as [| c buf] eqn:Eb; [done |].
  rewrite <- Eb in *. rewrite upto_lf_none by done. cbn [default from_option id].
  assert (Hl : (Z.to_nat MAX_HDR_LINE_LEN <=? length (line s) + length pre)%nat = false).
  { apply Nat.leb_gt. unfold MAX_HDR_LINE_LEN. lia. }
  rewrite Hl. destruct (exists_last Hne) as (l & x & Ex). rewrite Ex in *.
  rewrite (app_assoc (line s)), last_byte_snoc.
  apply Forall_app in Hc as [_ Hx]. inversion Hx as [| ? ? [Hx1 _]]; subst.
  destruct (Z.eqb_spec x LF); [done |]. cbn [orb].
  destruct (Z.eqb_spec (Z.of_nat (length ((line s ++ l) ++ [x]))) (MAX_HDR_LINE_LEN - 1)) as [E | _].
  { rewrite <- app_assoc, length_app in E. unfold MAX_HDR_LINE_LEN in E. lia. }
  rewrite drop_ge by lia. by rewrite <- ?app_assoc.
Qed.
End Lines.

(** ** Runs over a line *)
Section Runs.
Context (is_head : bool) (garbage : Z).
Abbreviation feed := (feed is_head garbage).
Abbreviation run := (run is_head garbage).
Abbreviation lines_ok := (lines_ok is_head garbage).
Abbreviation end_line := (end_line is_head garbage).

Lemma line_mode_not_done s : line_mode s = true -> state s <> S_REPLY_DONE.
Proof. unfold line_mode. by destruct (state s). Qed.

Lemma feed_char s c :
  line_mode s = true -> c <> LF -> feed s c = set_line (line s ++ [c]) (prep 1 s).
Proof.
  intros Hm Hc. unfold HttpReply.feed. rewrite Hm. destruct (Z.eqb_spec c LF); [done |].
  unfold prep. by destruct (state s).
Qed.

Lemma feed_lf s :
  line_mode s = true -> feed s LF = end_line (set_line (chop (line s ++ [LF])) (prep 1 s)).
Proof.
  intros Hm. unfold HttpReply.feed. rewrite Hm, Z.eqb_refl.
  unfold prep. by destruct (state s).
Qed.

Lemma prep_line k l s : prep k (set_line l (prep 1 s)) = set_line l (prep (1 + k) s).
Proof.
  destruct s as [st ? ? ? ? ? ? ? ? ? ? ?]; destruct st; unfold prep, add_footer_bytes, set_line; cbn; try done.
  f_equal. lia.
Qed.

Lemma line_prep k s : line (prep k s) = line s.
Proof. unfold prep. by destruct (state s). Qed.

Lemma line_mode_char l s : line_mode s = true -> line_mode (set_line l (prep 1 s)) = true.
Proof. destruct s as [st]; destruct st; by unfold line_mode. Qed.

Lemma set_line_twice l l' s : set_line l (set_line l' s) = set_line l s.
Proof. done. Qed.

(** Bytes of an incomplete line. *)
Lemma run_chars s pre t :
  line_mode s = true -> Forall (fun c => c <> LF) pre -> pre <> [] -> lines_ok s (pre ++ t) ->
  let s' := set_line (line s ++ pre) (prep (Z.of_nat (length pre)) s) in
  clean pre /\ (length (line s) + length pre <= 1022)%nat /\
  run s (pre ++ t) = run s' t /\ lines_ok s' t.
Proof.
  revert s. induction pre as [| c pre IH]; intros s Hm F Hne Hok; [done |].
  apply Forall_cons in F as [Hc F]. cbn [app HttpReply.run HttpReply.lines_ok] in *.
  destruct Hok as [Hd | [Hb Hok]]; [by apply line_mode_not_done in Hm |].
  specialize (Hb Hm) as [Hc0 [Hlen _]].
  rewrite decide_False by (by apply line_mode_not_done).
  rewrite (feed_char s c Hm Hc) in *.
  destruct pre as [| c' pre].
  - cbn [length app] in *. split; [by constructor; [| constructor] |]. split; [lia |].
    replace (Z.of_nat 1) with 1 by lia. by split.
  - destruct (IH _ (line_mode_char (line s ++ [c]) s Hm) F ltac:(done) Hok)
      as (Hcl & Hlen' & Er & Hok'). cbn [line set_line] in *.
    rewrite length_app in Hlen'. cbn [length] in *.
    split; [by constructor |]. split; [lia |].
    rewrite prep_line, set_line_twice, <- app_assoc in *. cbn [app] in *.
    replace (Z.of_nat (S (S (length pre)))) with (1 + Z.of_nat (S (length pre))) by lia.
    by split.
Qed.

(** Bytes up to the end of a line. *)
Lemma run_line s pre t :
  line_mode s = true -> Forall (fun c => c <> LF) pre -> lines_ok s (pre ++ LF :: t) ->
  let s' := end_line (set_line (chop (line s ++ pre ++ [LF])) (prep (Z.of_nat (length pre) + 1) s)) in
  clean pre /\ (length (line s) + length pre < 1022)%nat /\
  run s (pre ++ LF :: t) = run s' t /\ lines_ok s' t.
Proof.
  intros Hm F Hok. destruct pre as [| c pre].
  - cbn [app HttpReply.run HttpReply.lines_ok length] in *.
    destruct Hok as [Hd | [Hb Hok]]; [by apply line_mode_not_done in Hm |].
    specialize (Hb Hm) as [_ [Hlen _]]. rewrite decide_False by (by apply line_mode_not_done).
    rewrite (feed_lf s Hm) in *. replace (Z.of_nat 0 + 1) with 1 by lia.
    split; [constructor |]. split; [lia |]. by split.
  - destruct (run_chars s (c :: pre) (LF :: t) Hm F ltac:(done) Hok) as (Hcl & Hlen & Er & Hok').
    set (pre' := c :: pre) in *. set (k := Z.of_nat (length pre')) in *.
    assert (Hm' : line_mode (set_line (line s ++ pre') (prep k s)) = true).
    { revert Hm. destruct s as [st]; destruct st; by unfold line_mode. }
    cbn [HttpReply.run HttpReply.lines_ok] in Er, Hok'.
    destruct Hok' as [Hd | [Hb Hok']]; [by apply line_mode_not_done in Hm' |].
    specialize (Hb Hm') as [_ [Hlen' _]]. rewrite decide_False in Er by (by apply line_mode_not_done).
    rewrite (feed_lf _ Hm') in Er, Hok'. cbn [line set_line] in *.
    assert (Ep : prep 1 (set_line (line s ++ pre') (prep k s)) = set_line (line s ++ pre') (prep (k + 1) s)).
    { destruct s as [st ? ? ? ? ? ? ? ? ? ? ?]; destruct st; unfold prep, add_footer_bytes, set_line; cbn; try done.
      f_equal. lia. }
    rewrite Ep, set_line_twice, <- app_assoc in Er, Hok'.
    split; [done |]. split; [rewrite length_app in Hlen'; lia |]. by split.
Qed.

(** *** Runs forget the header count *)
Lemma status_line_forget s :
  (status_line (fun _ => false) is_head garbage (forget s)).2
    = forget (status_line (fun _ => false) is_head garbage s).2.
Proof.
  unfold status_line. cbn [line forget].
  destruct (scan_status_line (cstr (line s))) as [[[ma mi] st] |]; cbn.
  - by destruct (negb is_head && (st =? 100)); [| destruct (closing (state s))].
  - by destruct (negb is_head && (garbage =? 100)); [| destruct (closing (state s))].
Qed.

Lemma header_line_forget s :
  header_line (fun _ => false) (forget s) = forget (header_line (fun _ => false) s).
Proof.
  unfold header_line. cbn [line forget].
  destruct (prefix_nocase (bytes_of_string "content-length:") (cstr (line s))) as [v |].
  - by destruct ((strtoul 10 v).1.1 =? 0).
  - destruct (prefix_nocase (bytes_of_string "transfer-encoding:") (cstr (line s))) as [v |]; [| done].
    by destruct (equal_nocase (bytes_of_string "chunked") (skip_space v)).
Qed.

Lemma end_line_forget s : end_line (forget s) = forget (end_line s).
Proof.
  unfold HttpReply.end_line. destruct (state s) eqn:Es; cbn [state forget]; rewrite Es; try done.
  - by rewrite status_line_forget.
  - cbn [line forget]. destruct (line s) eqn:El; [| by rewrite header_line_forget].
    unfold end_of_headers. cbn [has_body is_chunked state forget]. rewrite Es.
    by destruct (has_body s), (is_chunked s).
  - cbn [line forget]. destruct (line s) eqn:El; [| by rewrite header_line_forget].
    unfold end_of_headers. cbn [has_body is_chunked state forget]. rewrite Es.
    by destruct (has_body s), (is_chunked s).
  - cbn [line forget]. destruct (line s) as [| c l] eqn:El; [done |].
    destruct (strtoul 16 (cstr (c :: l))) as [[v e] r]. destruct e, r; try done.
    by destruct (v =? 0).
  - cbn [line forget]. by destruct (line s) eqn:El.
Qed.

Lemma line_mode_forget s : line_mode (forget s) = line_mode s.
Proof. done. Qed.

Lemma prep_forget k s : prep k (forget s) = forget (prep k s).
Proof. unfold prep. cbn [state forget]. by destruct (state s). Qed.

Lemma feed_forget s c : feed (forget s) c = forget (feed s c).
Proof.
  unfold HttpReply.feed. rewrite line_mode_forget, prep_forget. destruct (line_mode s).
  - destruct (c =? LF); [| done]. cbn [line forget]. by rewrite <- end_line_forget.
  - cbn [state add_content forget content_bytes content_length].
    destruct (decide (state s = S_REPLY_DATA)); [| done].
    by destruct (content_bytes s + Z.of_nat (length [c]) =? content_length s).
Qed.

Lemma run_forget s buf : run (forget s) buf = (forget (run s buf).1, (run s buf).2).
Proof.
  revert s. induction buf as [| c buf IH]; intros s; cbn [HttpReply.run]; [done |].
  cbn [state forget]. destruct (decide (state s = S_REPLY_DONE)); [done |].
  by rewrite feed_forget, IH.
Qed.

Lemma lines_ok_forget s buf : lines_ok (forget s) buf <-> lines_ok s buf.
Proof.
  revert s. induction buf as [| c buf IH]; intros s; cbn [HttpReply.lines_ok]; [done |].
  rewrite feed_forget, IH. done.
Qed.

Lemma run_add_header n s buf :
  run (forget (add_header_bytes n s)) buf = run (forget s) buf.
Proof. done. Qed.
End Runs.

(** ** The header bytes of a buffer *)
Section Counts.
Context (is_head : bool) (garbage : Z).
Abbreviation feed := (feed is_head garbage).
Abbreviation end_line := (end_line is_head garbage).
Abbreviation header_count := (header_count is_head garbage).

Lemma header_count_forget n s buf : header_count n (forget s) buf = header_count n s buf.
Proof.
  revert n s. induction buf as [| c buf IH]; intros n s; cbn [HttpReply.header_count]; [done |].
  cbn [state forget]. rewrite feed_forget, !IH. done.
Qed.

Lemma header_count_same n s s' buf : forget s = forget s' -> header_count n s buf = header_count n s' buf.
Proof. intros E. by rewrite <- header_count_forget, E, header_count_forget. Qed.

(** Bytes of an incomplete line. *)
Lemma count_chars_status n s pre t :
  state s = S_REPLY_STATUS -> Forall (fun c => c <> LF) pre -> pre <> [] ->
  header_count n s (pre ++ t) = header_count (n + Z.of_nat (length pre)) (set_line (line s ++ pre) (prep 0 s)) t.
Proof.
  intros Es F. revert n s Es. induction F as [| c pre Hc F IH]; intros n s Es Hne; [done |].
  cbn [app HttpReply.header_count length]. rewrite Es, (proj2 (Z.eqb_neq c LF) Hc).
  rewrite feed_char by (done || by unfold line_mode; rewrite Es). unfold prep. rewrite Es.
  destruct pre as [| c' pre]; [done |]. rewrite IH by done. cbn [line set_line].
  unfold prep. cbn [state set_line set_content_length set_is_chunked]. rewrite Es, <- app_assoc.
  replace (n + 1 + Z.of_nat (length (c' :: pre))) with (n + Z.of_nat (S (length (c' :: pre)))) by (clear; lia). reflexivity.
Qed.

Lemma count_line_status n s pre t :
  state s = S_REPLY_STATUS -> Forall (fun c => c <> LF) pre ->
  header_count n s (pre ++ LF :: t) =
    n + Z.of_nat (length pre) + 1 + header_count 0 (end_line (set_line (chop (line s ++ pre ++ [LF])) (prep 0 s))) t.
Proof.
  intros Es F.
  assert (One : forall n s, state s = S_REPLY_STATUS -> header_count n s (LF :: t) =
    n + 1 + header_count 0 (end_line (set_line (chop (line s ++ [LF])) (prep 0 s))) t).
  { clear. intros n s Es. cbn [HttpReply.header_count]. rewrite Es, Z.eqb_refl.
    rewrite feed_lf by (by unfold line_mode; rewrite Es). unfold prep. by rewrite Es. }
  destruct pre as [| c pre]; [rewrite Z.add_0_r; by apply One |].
  rewrite count_chars_status, One by (done || by unfold prep; rewrite Es). cbn [line set_line].
  unfold prep. rewrite Es. cbn [state set_line set_content_length set_is_chunked]. rewrite Es, <- app_assoc. reflexivity.
Qed.

Lemma count_chars_header n s pre t :
  state s = S_REPLY_HEADER \/ state s = S_REPLY_CONTINUE -> Forall (fun c => c <> LF) pre -> pre <> [] ->
  header_count n s (pre ++ t) = Z.of_nat (length pre) + header_count 0 (set_line (line s ++ pre) s) t.
Proof.
  intros Es F. revert n s Es. induction F as [| c pre Hc F IH]; intros n s Es Hne; [done |].
  assert (Hm : line_mode s = true) by (unfold line_mode; by destruct Es as [-> | ->]).
  assert (Hp : prep 1 s = s) by (unfold prep; by destruct Es as [-> | ->]).
  assert (E : header_count n s ((c :: pre) ++ t) = 1 + header_count 0 (feed s c) (pre ++ t))
    by (cbn [app HttpReply.header_count]; by destruct Es as [-> | ->]).
  rewrite E, feed_char, Hp by done. destruct pre as [| c' pre]; [done |]. rewrite IH by done.
  cbn [line set_line length]. rewrite <- app_assoc. change (set_line ?l (set_line _ s)) with (set_line l s). cbn [app]. lia.
Qed.

Lemma count_line_header n s pre t :
  state s = S_REPLY_HEADER \/ state s = S_REPLY_CONTINUE -> Forall (fun c => c <> LF) pre ->
  header_count n s (pre ++ LF :: t) =
    Z.of_nat (length pre) + 1 + header_count 0 (end_line (set_line (chop (line s ++ pre ++ [LF])) s)) t.
Proof.
  intros Es F.
  assert (One : forall n s, state s = S_REPLY_HEADER \/ state s = S_REPLY_CONTINUE -> header_count n s (LF :: t) =
    1 + header_count 0 (end_line (set_line (chop (line s ++ [LF])) s)) t).
  { clear. intros n s Es.
    assert (Hm : line_mode s = true) by (unfold line_mode; by destruct Es as [-> | ->]).
    assert (Hp : prep 1 s = s) by (unfold prep; by destruct Es as [-> | ->]).
    assert (E : header_count n s (LF :: t) = 1 + header_count 0 (feed s LF) t)
      by (cbn [HttpReply.header_count]; by destruct Es as [-> | ->]).
    by rewrite E, feed_lf, Hp. }
  destruct pre as [| c pre]; [cbn [app length]; rewrite One by done; lia |].
  rewrite count_chars_header, One by done. cbn [line set_line]. rewrite <- app_assoc.
  change (set_line ?l (set_line _ s)) with (set_line l s). lia.
Qed.

(** Behind the headers nothing is counted. *)
Definition late (s : rs) : Prop :=
  match state s with S_REPLY_STATUS | S_REPLY_HEADER | S_REPLY_CONTINUE => False | _ => True end.
Lemma header_count_late n s buf : late s -> header_count n s buf = 0.
Proof. unfold late. destruct buf; [done |]. cbn [HttpReply.header_count]. by destruct (state s). Qed.

Definition stays_late (s s' : rs) : Prop := late s -> late s' /\ header_bytes s' = header_bytes s.

Lemma stays_late_counts s s' buf rest :
  late s -> stays_late s s' -> header_bytes s' + header_count 0 s' rest = header_bytes s + header_count 0 s buf.
Proof. intros H K. destruct (K H) as [H1 H2]. rewrite !header_count_late by done. lia. Qed.

Lemma get_line_sets before s buf c s' rest :
  get_line before s buf = Ret (c, s', rest) -> exists l, s' = set_line l s.
Proof.
  unfold get_line. destruct buf as [| b buf]; [intros [= _ <- _]; exists (line s); by destruct s |].
  destruct (_ || _); [intros (l & _ & [= _ <- _])%bind_Ret_inv | intros [= _ <- _]]; eauto.
Qed.

Lemma footers_loop_late before fuel s buf e s' rest :
  footers_loop (fun _ => false) before fuel s buf = Ret (e, s', rest) -> stays_late s s'.
Proof.
  revert s buf. induction fuel as [| fuel IH]; intros s buf; cbn [footers_loop]; [done |].
  intros ([[c s1] b1] & (l & ->)%get_line_sets & E)%bind_Ret_inv.
  destruct c; [| by injection E as _ <- _]. cbn [line set_line] in E.
  destruct l as [| x l]; [by injection E as _ <- _ |]. cbn [event_signal] in E.
  match type of E with (if ?b then _ else _) = _ => destruct b end; [by injection E as _ <- _ |].
  intros H. by apply (IH _ _ E).
Qed.

Lemma xfer_late before fuel s buf s' rest :
  xfer_chunked before fuel s buf = Ret (s', rest) -> stays_late s s'.
Proof.
  revert s buf. induction fuel as [| fuel IH]; intros s buf; cbn [xfer_chunked]; [done |].
  destruct buf as [| b buf]; [by intros [= <- _] |]. destruct (closing (state s)); [by intros [= <- _] |].
  destruct (content_length s <=? content_bytes s); [| intros E H; by apply (IH _ _ E)].
  intros ([[c s1] b1] & (l & ->)%get_line_sets & E)%bind_Ret_inv.
  destruct c; [| by injection E as <- _]. cbn [line set_line] in E.
  destruct l as [| x l]; [by intros H; apply (IH _ _ E) |].
  destruct (strtoul 16 (cstr (x :: l))) as [[n e] range]. destruct e; [destruct range; [| destruct (n =? 0)] |];
    try (by injection E as <- _); intros H; by apply (IH _ _ E).
Qed.
End Counts.

(** ** The invariant *)
Lemma read_digits_nonneg base acc l :
  0 <= base -> 0 <= acc -> 0 <= (read_digits base acc l).1.
Proof.
  intros Hb. revert acc. induction l as [| c l IH]; intros acc Ha; cbn [read_digits]; [done |].
  destruct (digit_value base c) as [d |] eqn:Ed; [| done]. apply IH.
  unfold digit_value in Ed. assert (0 <= d); [| nia].
  destruct (isdigit c) eqn:E1.
  - unfold isdigit in E1. rewrite andb_true_iff, !Z.leb_le in E1.
    destruct (c - 48 <? base); [injection Ed as <-; lia | done].
  - destruct ((97 <=? tolower c) && (tolower c <=? 122)) eqn:E2; [| done].
    rewrite andb_true_iff, !Z.leb_le in E2.
    destruct (tolower c - 87 <? base); [injection Ed as <-; lia | done].
Qed.

Lemma strtoul_range base l : 0 <= base -> 0 <= (strtoul base l).1.1 <= SIZE_MAX.
Proof.
  intros Hb. unfold strtoul.
  set (x := match skip_space l with 45 :: t => _ | 43 :: t => _ | _ => _ end). destruct x as [neg m].
  set (m' := match m with 48 :: _ :: (_ :: _) as t => _ | _ => _ end). clearbody m'.
  assert (HM : SIZE_MAX = 2 ^ 64 - 1) by reflexivity.
  assert (Hm : 0 < SIZE_MAX) by reflexivity.
  destruct m' as [| c t]; [cbn; lia |]. destruct (digit_value base c); [| cbn; lia].
  pose proof (read_digits_nonneg base 0 (c :: t) Hb ltac:(lia)) as Hr.
  destruct (read_digits base 0 (c :: t)) as [v r]. cbn [fst] in Hr.
  destruct (Z.ltb_spec SIZE_MAX v); [cbn [fst]; lia |].
  destruct neg; cbn [fst]; [| lia].
  pose proof (wrap_u_range 64 (- v) ltac:(lia)). lia.
Qed.

Lemma length_chop l : (length (chop l) <= length l - 1)%nat.
Proof.
  assert (Hr : forall k : list Z, length (removelast k) = (length k - 1)%nat).
  { induction k as [| x k IH]; [done |]. cbn. destruct k; [done |]. cbn in *. lia. }
  unfold chop. destruct (decide _); rewrite ?Hr; lia.
Qed.

Section Wf.
Context (is_head : bool) (garbage : Z).

Lemma wf_partial k l s :
  wf s -> line_mode s = true -> (length l <= 1022)%nat -> wf (set_line l (prep k s)).
Proof.
  assert (HM : 0 < SIZE_MAX) by reflexivity.
  intros [H1 H2 H3 H4 H5 H6] Hm Hl. unfold line_mode in Hm. unfold prep.
  destruct (state s) eqn:Es; try done; constructor; cbn; rewrite ?Es in *; try done; try lia;
    intuition congruence.
Qed.

Lemma wf_part k s pre :
  wf s -> line_mode s = true -> (length (line s) + length pre <= 1022)%nat ->
  wf (set_line (line s ++ pre) (prep k s)).
Proof. intros Hwf Hm Hl. apply wf_partial; [done | done |]. by rewrite length_app. Qed.

Lemma wf_full k s pre :
  wf s -> line_mode s = true -> (length (line s) + length pre < 1022)%nat ->
  wf (set_line (chop (line s ++ pre ++ [LF])) (prep k s)).
Proof.
  intros Hwf Hm Hl. apply wf_partial; [done | done |].
  pose proof (length_chop (line s ++ pre ++ [LF])) as Hch.
  rewrite !length_app in Hch. cbn [length] in Hch. lia.
Qed.

Lemma wf_header s :
  wf s -> state s = S_REPLY_HEADER \/ state s = S_REPLY_CONTINUE ->
  wf (set_line [] (header_line (fun _ => false) s)).
Proof.
  intros [H1 H2 H3 H4 H5 H6] Hst.
  destruct H5 as [H5 Hb]; [tauto |].
  assert (Hb' : has_body s = true -> 0 < content_length s) by (apply Hb; destruct Hst; congruence).
  unfold header_line.
  destruct (prefix_nocase (bytes_of_string "content-length:") (cstr (line s))) as [v |].
  - pose proof (strtoul_range 10 v ltac:(lia)) as Hr. set (n := (strtoul 10 v).1.1) in *.
    destruct (Z.eqb_spec n 0) as [-> | Hn];
      constructor; cbn; try done; try lia; try (intuition congruence); try (intuition lia).
  - destruct (prefix_nocase (bytes_of_string "transfer-encoding:") (cstr (line s))) as [v |];
      [destruct (equal_nocase (bytes_of_string "chunked") (skip_space v)) |];
      constructor; cbn; try done; try lia; intuition congruence.
Qed.

Lemma wf_end_line s :
  wf s -> line_mode s = true ->
  (state s = S_REPLY_STATUS -> content_length s = SIZE_MAX) ->
  wf (end_line is_head garbage s).
Proof.
  assert (HM : 0 < SIZE_MAX) by reflexivity.
  intros Hwf Hm Hlen. pose proof Hwf as [H1 H2 H3 H4 H5 H6]. unfold line_mode in Hm. unfold end_line.
  destruct (state s) eqn:Es; try done.
  - specialize (Hlen eq_refl). destruct H5 as [H5 _]; [by left |].
    assert (Hw : wf (set_line [] (status_line (fun _ => false) is_head garbage s).2)).
    { unfold status_line.
      destruct (scan_status_line (cstr (line s))) as [[[ma mi] st] |]; cbn [event_signal];
        match goal with |- context [if ?b then _ else _] => destruct b end;
        cbn; rewrite ?Es; cbn; constructor; cbn; rewrite ?H5, ?Hlen; try done; try lia;
        try (intuition congruence); intuition (try congruence; lia). }
    exact Hw.
  - destruct H5 as [H5 Hb]; [by right; left |]. specialize (Hb ltac:(done)).
    destruct (line s) eqn:El.
    + unfold end_of_headers. rewrite Es. destruct (has_body s) eqn:Eb, (is_chunked s);
        try (destruct (decide _) as [Ed | Ed]; try done);
        constructor; cbn; rewrite ?El, ?Eb; try done; try lia; try (intuition congruence);
        intros _; specialize (Hb eq_refl); lia.
    + apply wf_header; try done. by left.
  - destruct H5 as [H5 Hb]; [by right; right |]. specialize (Hb ltac:(done)).
    destruct (line s) eqn:El.
    + unfold end_of_headers. rewrite Es. destruct (has_body s) eqn:Eb, (is_chunked s);
        try (destruct (decide _) as [Ed | Ed]; try done);
        constructor; cbn; rewrite ?El, ?Eb; try done; try lia; try (intuition congruence);
        intros _; specialize (Hb eq_refl); lia.
    + apply wf_header; try done. by right.
  - destruct (line s) as [| c l] eqn:El.
    + constructor; rewrite ?Es, ?El; try done; try lia.
    + pose proof (strtoul_range 16 (cstr (c :: l)) ltac:(lia)) as Hr.
      destruct (strtoul 16 (cstr (c :: l))) as [[v e] r]. cbn [fst] in Hr.
      pose proof (wrap_u_range 64 (content_length s + v) ltac:(lia)) as Hu.
      assert (HE : SIZE_MAX = 2 ^ 64 - 1) by reflexivity.
      destruct e, r; try destruct (v =? 0); constructor; cbn; rewrite ?Es; try done; try lia;
        intuition (try congruence; lia).
  - destruct (line s) eqn:El; constructor; cbn; rewrite ?Es, ?El; try done; try lia;
      intuition congruence.
Qed.
End Wf.

(** ** The body *)
Section Steps.
Context (is_head : bool) (garbage before : Z).
Hypothesis Hbefore : before <> CR.
Abbreviation feed := (feed is_head garbage).
Abbreviation run := (run is_head garbage).
Abbreviation lines_ok := (lines_ok is_head garbage).
Abbreviation end_line := (end_line is_head garbage).
Abbreviation header_count := (header_count is_head garbage).
Abbreviation quiet := (fun _ : ev => false).

Lemma add_content_app b b' s : add_content b' (add_content b s) = add_content (b ++ b') s.
Proof.
  unfold add_content. cbn. f_equal; [rewrite length_app; lia | by rewrite app_assoc].
Qed.

(** The state after some bytes of the body. *)
Definition after_data (b : list Z) (s : rs) : rs :=
  let s' := add_content b s in
  if decide (state s = S_REPLY_DATA /\ content_bytes s' = content_length s')
  then set_state S_REPLY_DONE s' else s'.

Lemma feed_data s c :
  line_mode s = false -> feed s c = after_data [c] s.
Proof.
  intros Hm. unfold HttpReply.feed, after_data. rewrite Hm. cbn zeta.
  change (state (add_content [c] s)) with (state s).
  destruct (decide (state s = S_REPLY_DATA)) as [Ed | Ed].
  - destruct (Z.eqb_spec (content_bytes (add_content [c] s)) (content_length (add_content [c] s))).
    + by rewrite decide_True.
    + by rewrite decide_False by tauto.
  - by rewrite decide_False by tauto.
Qed.

Lemma run_data s b t :
  state s = S_REPLY_DATA \/ state s = S_REPLY_CHUNKED ->
  b <> [] -> content_bytes s + Z.of_nat (length b) <= content_length s ->
  lines_ok s (b ++ t) ->
  run s (b ++ t) = run (after_data b s) t /\ lines_ok (after_data b s) t.
Proof.
  revert s. induction b as [| c b IH]; intros s Hst Hne Hlen Hok; [done |].
  cbn [app length HttpReply.run HttpReply.lines_ok] in *.
  assert (Hm : line_mode s = false).
  { unfold line_mode. destruct Hst as [-> | ->]; [done |]. apply Z.leb_gt. lia. }
  destruct Hok as [Hd | [_ Hok]]; [destruct Hst; congruence |].
  rewrite decide_False by (destruct Hst; congruence).
  rewrite (feed_data s c Hm) in *. destruct b as [| c' b]; [done |].
  assert (E1 : after_data [c] s = add_content [c] s).
  { unfold after_data. cbn zeta. rewrite decide_False; [done |]. cbn in *. lia. }
  rewrite E1 in *.
  destruct (IH (add_content [c] s)) as [Er Hok']; try done.
  { cbn [content_bytes content_length add_content length] in *. lia. }
  assert (E2 : after_data (c' :: b) (add_content [c] s) = after_data (c :: c' :: b) s).
  { unfold after_data. by rewrite add_content_app. }
  by rewrite Er, E2 in *.
Qed.

Lemma wf_after_data b s :
  wf s -> state s = S_REPLY_DATA \/ state s = S_REPLY_CHUNKED ->
  content_bytes s + Z.of_nat (length b) <= content_length s -> wf (after_data b s).
Proof.
  intros [H1 H2 H3 H4 H5 H6] Hst Hlen. unfold after_data. cbn zeta.
  destruct (decide _) as [[Ed Ec] | Ed].
  - constructor; cbn; try done; try lia; intuition congruence.
  - constructor; cbn in *; try done; try lia.
    + intros Hs. destruct Hst; intuition congruence.
    + intros Hs. destruct (Z.eq_dec (content_bytes s + Z.of_nat (length b)) (content_length s)); [tauto | lia].
Qed.

(** [parse_data] on a body that is not complete. *)
Lemma parse_data_spec s buf :
  wf s -> state s = S_REPLY_DATA \/ state s = S_REPLY_CHUNKED ->
  content_bytes s < content_length s -> buf <> [] ->
  exists b rest, buf = b ++ rest /\ b <> [] /\
    content_bytes s + Z.of_nat (length b) <= content_length s /\
    parse_data s buf =
      (content_bytes s + Z.of_nat (length b) =? content_length s, add_content b s, rest).
Proof.
  intros Hwf Hst Hlt Hne. unfold parse_data. cbn zeta.
  pose proof (wf_bytes _ Hwf). pose proof (wf_length _ Hwf) as Hl. unfold SIZE_MAX in Hl.
  rewrite (wrap_u_small 64) by lia.
  set (n := Z.to_nat _). assert (Hn : (0 < n <= length buf)%nat /\
    Z.of_nat n <= content_length s - content_bytes s).
  { destruct buf; [done |]. unfold n. cbn [length] in *. lia. }
  exists (take n buf), (drop n buf). split; [by rewrite take_drop |].
  assert (Ht : length (take n buf) = n) by (rewrite length_take; lia).
  split; [intros E0; rewrite E0 in Ht; cbn in Ht; lia |]. rewrite Ht. split; [lia |].
  f_equal. f_equal. destruct (Z.eqb_spec (Z.of_nat n) (content_length s - content_bytes s)) as [E | E];
    destruct (Z.eqb_spec (content_bytes s + Z.of_nat n) (content_length s)) as [E' | E']; (done || lia).
Qed.

Lemma state_header_line s : state (set_line [] (header_line quiet s)) = state s.
Proof.
  unfold header_line. cbn [state set_line].
  destruct (prefix_nocase (bytes_of_string "content-length:") (cstr (line s))) as [v |].
  - by destruct ((strtoul 10 v).1.1 =? 0).
  - destruct (prefix_nocase (bytes_of_string "transfer-encoding:") (cstr (line s))) as [v |]; [| done].
    by destruct (equal_nocase (bytes_of_string "chunked") (skip_space v)).
Qed.

(** ** One call of a parsing function *)
Definition advances (s : rs) (buf : list Z) (r : cres (rs * list Z)) : Prop :=
  exists s' rest, r = Ret (s', rest) /\
    run (forget s) buf = run (forget s') rest /\ lines_ok s' rest /\ wf s' /\
    (length rest < length buf)%nat /\
    header_bytes s' + header_count 0 s' rest = header_bytes s + header_count 0 s buf.

Lemma not_closing s : wf s -> closing (state s) = false.
Proof. intros H. pose proof (wf_state _ H) as Hs. by destruct (state s). Qed.

Lemma run_forget_eq s s' buf rest :
  run s buf = run s' rest -> run (forget s) buf = run (forget s') rest.
Proof. intros E. by rewrite !run_forget, E. Qed.

Lemma status_line_quiet s :
  closing (state s) = false -> (status_line quiet is_head garbage s).1 = true.
Proof.
  intros Hcl. unfold status_line.
  destruct (scan_status_line (cstr (line s))) as [[[ma mi] st] |]; cbn;
    match goal with |- context [if ?b then _ else _] => destruct b end; try done;
    by rewrite Hcl.
Qed.

Lemma header_bytes_status s : header_bytes (status_line quiet is_head garbage s).2 = header_bytes s.
Proof.
  unfold status_line. destruct (scan_status_line (cstr (line s))) as [[[ma mi] st] |]; cbn;
    repeat match goal with |- context [if ?b then _ else _] => destruct b end; done.
Qed.

Lemma header_bytes_line s : header_bytes (header_line quiet s) = header_bytes s.
Proof.
  unfold header_line. destruct (prefix_nocase _ _) as [v |]; [by destruct (_ =? 0) |].
  destruct (prefix_nocase _ _) as [v |]; [| done]. by destruct (equal_nocase _ _).
Qed.

Lemma header_bytes_end s : header_bytes (end_of_headers s) = header_bytes s.
Proof. unfold end_of_headers. by repeat case_match. Qed.

Lemma parse_status_spec s buf :
  wf s -> state s = S_REPLY_STATUS -> buf <> [] -> lines_ok s buf ->
  advances s buf (parse_status_line quiet is_head garbage before s buf).
Proof.
  intros Hwf Es Hne Hok. unfold parse_status_line. cbn zeta.
  set (s1 := set_content_length SIZE_MAX (set_is_chunked false s)).
  assert (Hm : line_mode s = true) by (unfold line_mode; by rewrite Es).
  assert (Hp : forall k, prep k s = s1) by (intros k; unfold prep; by rewrite Es).
  destruct (split_lf buf) as [(pre & rest & -> & F) | F].
  - destruct (run_line is_head garbage s pre rest Hm F Hok) as (Hc & Hlen & Er & Hok').
    rewrite Hp in Er, Hok'. rewrite (get_line_full before Hbefore s1 pre rest Hc Hlen), bind_Ret.
    change (line s1) with (line s). set (s2 := set_line _ s1) in *.
    assert (Hwf2 : wf (end_line s2)).
    { apply wf_end_line; [| by unfold line_mode; change (state s2) with (state s); rewrite Es | done].
      pose proof (wf_full 0 s pre Hwf Hm Hlen) as W. by rewrite Hp in W. }
    unfold end_line, HttpReply.end_line in Er, Hok', Hwf2.
    change (state s2) with (state s) in *. rewrite Es in Er, Hok', Hwf2.
    destruct (status_line quiet is_head garbage s2) as [d s3] eqn:E3. cbn [snd] in *.
    assert (d = true) as ->.
    { change d with (d, s3).1. rewrite <- E3. apply status_line_quiet.
      change (state s2) with (state s). by rewrite Es. }
    eexists _, rest. split; [reflexivity |]. split.
    + apply run_forget_eq in Er. rewrite Er. reflexivity.
    + split; [| split; [| split; [rewrite length_app; cbn [length]; lia |]]].
      * apply lines_ok_forget. apply lines_ok_forget in Hok'. exact Hok'.
      * destruct Hwf2. constructor; assumption.
      * rewrite (count_line_status is_head garbage 0 s pre rest Es F), Hp. fold s2.
        unfold HttpReply.end_line. change (state s2) with (state s). rewrite Es, E3. cbn [snd].
        rewrite (header_count_same is_head garbage 0 (set_line [] (add_header_bytes _ s3)) (set_line [] s3)) by done.
        pose proof (header_bytes_status s2) as E4. rewrite E3 in E4. cbn [snd] in E4.
        cbn [header_bytes set_line add_header_bytes]. rewrite E4. unfold consumed. rewrite length_app.
        change (header_bytes s2) with (header_bytes s). cbn [length]. lia.
  - rewrite <- (app_nil_r buf) in Hok.
    destruct (run_chars is_head garbage s buf [] Hm F Hne Hok) as (Hc & Hlen & Er & Hok').
    rewrite app_nil_r in Er. rewrite Hp in Er, Hok'.
    rewrite (get_line_part before s1 buf Hc Hne Hlen), bind_Ret.
    eexists _, []. split; [reflexivity |]. split; [by apply run_forget_eq |]. split; [done |].
    split; [pose proof (wf_part 0 s buf Hwf Hm Hlen) as W; by rewrite Hp in W |]. split; [destruct buf; [done | cbn; lia] |].
    pose proof (count_chars_status is_head garbage 0 s buf [] Es F Hne) as C. rewrite app_nil_r in C. by rewrite C.
Qed.

Lemma consumed_line (pre rest rest' : list Z) :
  consumed (pre ++ LF :: rest) rest' = Z.of_nat (length pre) + 1 + consumed rest rest'.
Proof. unfold consumed. rewrite length_app. cbn [length]. lia. Qed.

Lemma headers_loop_spec fuel s buf :
  (length buf < fuel)%nat -> wf s -> state s = S_REPLY_HEADER \/ state s = S_REPLY_CONTINUE ->
  lines_ok s buf ->
  exists s' rest, headers_loop quiet before fuel s buf = Ret (false, s', rest) /\
    run s buf = run s' rest /\ lines_ok s' rest /\ wf s' /\
    (length rest <= length buf)%nat /\ (buf <> [] -> (length rest < length buf)%nat) /\
    header_bytes s' = header_bytes s /\ header_count 0 s buf = consumed buf rest + header_count 0 s' rest.
Proof.
  revert s buf. induction fuel as [| fuel IH]; intros s buf Hf Hwf Hst Hok; [lia |].
  cbn [headers_loop].
  assert (Hm : line_mode s = true) by (unfold line_mode; by destruct Hst as [-> | ->]).
  assert (Hp : forall k, prep k s = s) by (intros k; unfold prep; by destruct Hst as [-> | ->]).
  destruct buf as [| b0 buf0] eqn:Eb.
  { cbn [get_line]. rewrite bind_Ret. eexists s, []. split_and!; done || (cbn; lia). }
  rewrite <- Eb in *. assert (Hne : buf <> []) by (by rewrite Eb). clear Eb.
  destruct (split_lf buf) as [(pre & rest & -> & F) | F].
  - destruct (run_line is_head garbage s pre rest Hm F Hok) as (Hc & Hlen & Er & Hok').
    pose proof (count_line_header is_head garbage 0 s pre rest Hst F) as Hcount.
    rewrite Hp in Er, Hok'. rewrite (get_line_full before Hbefore s pre rest Hc Hlen), bind_Ret.
    set (s2 := set_line _ s) in *.
    assert (Hwf2 : wf s2).
    { pose proof (wf_full 0 s pre Hwf Hm Hlen) as W. by rewrite Hp in W. }
    assert (Hwf3 : wf (end_line s2)).
    { apply wf_end_line; [done | by unfold line_mode; change (state s2) with (state s); destruct Hst as [-> | ->] |].
      change (state s2) with (state s). intros E. destruct Hst; congruence. }
    assert (He : end_line s2 = match line s2 with
                               | [] => end_of_headers s2
                               | _ => set_line [] (header_line quiet s2)
                               end).
    { unfold HttpReply.end_line. change (state s2) with (state s). by destruct Hst as [-> | ->]. }
    rewrite He in *. rewrite length_app in *. cbn [length] in *.
    destruct (line s2) as [| c0 l0] eqn:El.
    + eexists _, rest. split; [reflexivity |]. split_and!; [exact Er | exact Hok' | exact Hwf3 | lia | lia | exact (header_bytes_end s2) |].
      rewrite Hcount, (consumed_line pre rest rest). unfold consumed. lia.
    + assert (Hcl : closing (state (header_line quiet s2)) = false) by exact (not_closing _ Hwf3).
      rewrite Hcl.
      destruct (IH (set_line [] (header_line quiet s2)) rest) as (s' & rest' & E' & Er' & Hok2 & Hwf' & Hl1 & Hl2 & Hb & Hcnt);
        [lia | done | | done |].
      { rewrite state_header_line. exact Hst. }
      exists s', rest'. split_and!; [exact E' | congruence | done | done | lia | lia | |].
      * rewrite Hb. exact (header_bytes_line s2).
      * rewrite Hcount, Hcnt, (consumed_line pre rest rest'). lia.
  - rewrite <- (app_nil_r buf) in Hok.
    destruct (run_chars is_head garbage s buf [] Hm F Hne Hok) as (Hc & Hlen & Er & Hok').
    rewrite app_nil_r in Er. rewrite Hp in Er, Hok'.
    rewrite (get_line_part before s buf Hc Hne Hlen), bind_Ret.
    eexists _, []. split; [reflexivity |]. split; [done |]. split; [done |].
    split; [pose proof (wf_part 0 s buf Hwf Hm Hlen) as W; by rewrite Hp in W |].
    pose proof (count_chars_header is_head garbage 0 s buf [] Hst F Hne) as C. rewrite app_nil_r in C. rewrite C.
    unfold consumed. split_and!; [cbn; lia | destruct buf; [done | cbn; lia] | done | cbn; lia].
Qed.
Lemma parse_headers_spec s buf :
  wf s -> state s = S_REPLY_HEADER \/ state s = S_REPLY_CONTINUE -> buf <> [] -> lines_ok s buf ->
  advances s buf (parse_headers quiet before s buf).
Proof.
  intros Hwf Hst Hne Hok. unfold parse_headers.
  destruct (headers_loop_spec (S (length buf)) s buf) as (s' & rest & E & Er & Hok' & Hwf' & _ & Hl & Hb & Hcnt);
    [lia | done | done | done |].
  rewrite E, bind_Ret. eexists _, rest. split; [reflexivity |]. split.
  - apply run_forget_eq in Er. rewrite Er. reflexivity.
  - split; [apply lines_ok_forget; by apply lines_ok_forget in Hok' |].
    split; [destruct Hwf'; constructor; assumption |]. split; [by apply Hl |].
    rewrite (header_count_same is_head garbage 0 (add_header_bytes _ s') s'), Hcnt by done. cbn [header_bytes add_header_bytes]. lia.
Qed.

Lemma footers_loop_spec fuel n s buf :
  (length buf < fuel)%nat -> wf s -> state s = S_REPLY_FOOTER ->
  lines_ok (add_footer_bytes n s) buf ->
  exists s' rest, footers_loop quiet before fuel s buf = Ret (false, s', rest) /\
    run (add_footer_bytes n s) buf = run (add_footer_bytes (n + consumed buf rest) s') rest /\
    lines_ok (add_footer_bytes (n + consumed buf rest) s') rest /\ wf s' /\
    (length rest <= length buf)%nat /\ (buf <> [] -> (length rest < length buf)%nat).
Proof.
  revert n s buf. induction fuel as [| fuel IH]; intros n s buf Hf Hwf Es Hok; [lia |].
  cbn [footers_loop].
  assert (Hm : line_mode s = true) by (unfold line_mode; by rewrite Es).
  assert (Hp : forall k, prep k (add_footer_bytes n s) = add_footer_bytes (n + k) s).
  { intros k. unfold prep. cbn [state add_footer_bytes]. rewrite Es.
    unfold add_footer_bytes. cbn. f_equal. lia. }
  destruct buf as [| b0 buf0] eqn:Eb.
  { cbn [get_line]. rewrite bind_Ret. eexists s, [].
    replace (n + consumed [] []) with n by (unfold consumed; cbn; lia). split; [done |]. split; [done |]. split; [done |]. split; [done |]. split; [cbn; lia | done]. }
  rewrite <- Eb in *. assert (Hne : buf <> []) by (by rewrite Eb). clear Eb.
  destruct (split_lf buf) as [(pre & rest & -> & F) | F].
  - destruct (run_line is_head garbage (add_footer_bytes n s) pre rest Hm F Hok)
      as (Hc & Hlen & Er & Hok').
    rewrite Hp in Er, Hok'. change (line (add_footer_bytes n s)) with (line s) in *.
    rewrite (get_line_full before Hbefore s pre rest Hc Hlen), bind_Ret.
    set (L := chop (line s ++ pre ++ [LF])) in *. set (k := n + (Z.of_nat (length pre) + 1)) in *.
    assert (Hk : forall rest', n + consumed (pre ++ LF :: rest) rest' = k + consumed rest rest').
    { intros rest'. unfold consumed, k. rewrite length_app. cbn [length]. lia. }
    assert (Hk0 : n + consumed (pre ++ LF :: rest) rest = k) by (rewrite Hk; unfold consumed; lia).
    assert (Hwf2 : wf (set_line L s)).
    { apply wf_partial with (k := 0) (l := L) in Hwf as W; [| done |].
      - unfold prep in W. rewrite Es in W. destruct W; constructor; assumption.
      - unfold L. pose proof (length_chop (line s ++ pre ++ [LF])) as Hch.
        rewrite !length_app in Hch. cbn [length] in Hch. lia. }
    pose proof (wf_end_line is_head garbage (set_line L s) Hwf2 Hm ltac:(cbn; congruence)) as Hwf3.
    unfold HttpReply.end_line in Er, Hok', Hwf3.
    cbn [state set_line add_footer_bytes line] in Er, Hok', Hwf3 |- *. rewrite Es in Er, Hok', Hwf3.
    rewrite length_app in *. cbn [length] in *.
    destruct L as [| c0 l0] eqn:El.
    + eexists _, rest. split; [reflexivity |]. rewrite Hk0. split; [exact Er |].
      split; [exact Hok' |]. split; [exact Hwf3 |]. split; [lia |]. lia.
    + cbn [event_signal add_log state set_line]. rewrite Es. cbn [closing].
      destruct (IH k (set_line [] (add_log (RecvFooter (c0 :: l0)) (set_line (c0 :: l0) s))) rest)
        as (s' & rest' & E' & Er' & Hok2 & Hwf' & Hl1 & Hl2); [lia | exact Hwf3 | exact Es | exact Hok' |].
      exists s', rest'. rewrite Hk. split; [exact E' |]. split; [rewrite <- Er'; exact Er |].
      split; [exact Hok2 |]. split; [exact Hwf' |]. split; [lia |]. lia.
  - rewrite <- (app_nil_r buf) in Hok.
    destruct (run_chars is_head garbage (add_footer_bytes n s) buf [] Hm F Hne Hok)
      as (Hc & Hlen & Er & Hok').
    rewrite app_nil_r in Er. rewrite Hp in Er, Hok'.
    change (line (add_footer_bytes n s)) with (line s) in *.
    rewrite (get_line_part before s buf Hc Hne Hlen), bind_Ret.
    replace (Z.of_nat (length buf)) with (consumed buf []) in * by (unfold consumed; cbn; lia).
    eexists _, []. split; [reflexivity |]. split; [exact Er |]. split; [exact Hok' |].
    split.
    + apply wf_partial with (k := 0) (l := line s ++ buf) in Hwf as W; [| done | by rewrite length_app].
      unfold prep in W. rewrite Es in W. destruct W; constructor; assumption.
    + destruct buf; [done | cbn; lia].
Qed.

Lemma parse_footers_spec s buf :
  wf s -> state s = S_REPLY_FOOTER -> buf <> [] -> lines_ok s buf ->
  advances s buf (parse_footers quiet before s buf).
Proof.
  intros Hwf Es Hne Hok. unfold parse_footers.
  assert (E0 : add_footer_bytes 0 s = s).
  { destruct s. unfold add_footer_bytes. cbn. f_equal. lia. }
  destruct (footers_loop_spec (S (length buf)) 0 s buf)
    as (s' & rest & E & Er & Hok' & Hwf' & _ & Hl); [lia | done | done | by rewrite E0 |].
  rewrite E0 in Er. rewrite E, bind_Ret. rewrite Z.add_0_l in *.
  eexists _, rest. split; [reflexivity |]. split; [by apply run_forget_eq |].
  split; [done |]. split; [destruct Hwf'; constructor; assumption |]. split; [by apply Hl |].
  apply stays_late_counts; [unfold late; by rewrite Es | exact (footers_loop_late _ _ _ _ _ _ _ E)].
Qed.

(** ** The chunked body *)
Lemma chunk_line s pre t :
  wf s -> state s = S_REPLY_CHUNKED -> line_mode s = true -> Forall (fun c => c <> LF) pre ->
  lines_ok s (pre ++ LF :: t) ->
  let s2 := set_line (chop (line s ++ pre ++ [LF])) s in
  get_line before s (pre ++ LF :: t) = Ret (true, s2, t) /\
  run s (pre ++ LF :: t) = run (end_line s2) t /\ lines_ok (end_line s2) t /\ wf (end_line s2).
Proof.
  intros Hwf Es Hm F Hok s2.
  assert (Hp : forall k, prep k s = s) by (intros k; unfold prep; by rewrite Es).
  destruct (run_line is_head garbage s pre t Hm F Hok) as (Hc & Hlen & Er & Hok').
  rewrite Hp in Er, Hok'. split; [by apply get_line_full |]. split; [exact Er |].
  split; [exact Hok' |].
  pose proof (wf_full 0 s pre Hwf Hm Hlen) as W. rewrite Hp in W.
  apply wf_end_line; [exact W | exact Hm |].
  change (state s2) with (state s). congruence.
Qed.
Lemma chunk_data s buf :
  wf s -> state s = S_REPLY_CHUNKED -> content_bytes s < content_length s -> buf <> [] ->
  lines_ok s buf ->
  exists d s' rest, parse_data s buf = (d, s', rest) /\
    run s buf = run s' rest /\ lines_ok s' rest /\ wf s' /\ state s' = S_REPLY_CHUNKED /\
    (length rest < length buf)%nat.
Proof.
  intros Hwf Es Hlt Hne Hok.
  destruct (parse_data_spec s buf Hwf ltac:(by right) Hlt Hne) as (b & rest & -> & Hb & Hlen & E).
  destruct (run_data s b rest ltac:(by right) Hb Hlen Hok) as [Er Hok'].
  pose proof (wf_after_data b s Hwf ltac:(by right) Hlen) as W.
  assert (Ea : after_data b s = add_content b s).
  { unfold after_data. cbn zeta. rewrite decide_False; [done |]. rewrite Es. intros [? _]. done. }
  rewrite Ea in *. eexists _, _, rest. split; [exact E |]. repeat (split; [done |]).
  rewrite length_app. destruct b; [done | cbn; lia].
Qed.

Lemma xfer_spec fuel s buf :
  (length buf < fuel)%nat -> wf s -> state s = S_REPLY_CHUNKED -> lines_ok s buf ->
  exists s' rest, xfer_chunked before fuel s buf = Ret (s', rest) /\
    run s buf = run s' rest /\ lines_ok s' rest /\ wf s' /\
    (length rest <= length buf)%nat /\ (buf <> [] -> (length rest < length buf)%nat).
Proof.
  revert s buf. induction fuel as [| fuel IH]; intros s buf Hf Hwf Es Hok; [lia |].
  cbn [xfer_chunked]. destruct buf as [| b0 buf0] eqn:Eb.
  { eexists s, []. split; [done |]. split; [done |]. split; [done |]. split; [done |]. split; [cbn; lia | done]. }
  rewrite <- Eb in *. assert (Hne : buf <> []) by (by rewrite Eb). 
  rewrite (not_closing s Hwf).
  assert (Hgo : forall s1 rest1, run s buf = run s1 rest1 -> lines_ok s1 rest1 -> wf s1 ->
    state s1 = S_REPLY_CHUNKED -> (length rest1 < length buf)%nat ->
    exists s' rest, xfer_chunked before fuel s1 rest1 = Ret (s', rest) /\
    run s buf = run s' rest /\ lines_ok s' rest /\ wf s' /\
    (length rest <= length buf)%nat /\ (buf <> [] -> (length rest < length buf)%nat)).
  { intros s1 rest1 Er1 Hok1 Hwf1 Es1 Hl1.
    destruct (IH s1 rest1 ltac:(lia) Hwf1 Es1 Hok1) as (s' & rest & E & Er & Ho & W & H1 & _).
    exists s', rest. split; [exact E |]. split; [congruence |]. split; [done |]. split; [done |].
    split; lia. }
  destruct (Z.leb_spec (content_length s) (content_bytes s)) as [Hle | Hlt].
  2:{ destruct (chunk_data s buf Hwf Es Hlt Hne Hok) as (d & s' & rest & E & Er & Ho & W & Es' & Hl).
      rewrite E. by apply Hgo. }
  assert (Hm : line_mode s = true) by (unfold line_mode; rewrite Es; by apply Z.leb_le).
  destruct (split_lf buf) as [(pre & rest & E & F) | F].
  - assert (Heq : content_bytes s = content_length s).
    { rewrite Eb in Hok. cbn [HttpReply.lines_ok] in Hok.
      destruct Hok as [? | [Hb _]]; [congruence |]. specialize (Hb Hm) as [_ [_ Hb]].
      specialize (Hb Es). lia. }
    rewrite E in Hok. destruct (chunk_line s pre rest Hwf Es Hm F Hok) as (Eg & Er & Ho & W).
    rewrite <- E in Er, Eg. rewrite Eg, bind_Ret.
    assert (Hl : (length rest < length buf)%nat) by (rewrite E, length_app; cbn; lia).
    set (s2 := set_line _ s) in *. unfold HttpReply.end_line in Er, Ho, W.
    change (state s2) with (state s) in *. rewrite Es in Er, Ho, W.
    destruct (line s2) as [| c0 l0] eqn:El; [by apply Hgo |].
    pose proof (strtoul_range 16 (cstr (c0 :: l0)) ltac:(lia)) as Hr.
    destruct (strtoul 16 (cstr (c0 :: l0))) as [[v e] r]. cbn [fst] in Hr.
    destruct e as [e |]; [| by apply Hgo]. destruct r; [by apply Hgo |].
    destruct (Z.eqb_spec v 0) as [-> | Hv].
    + eexists _, rest. split; [reflexivity |]. split; [exact Er |]. split; [exact Ho |].
      split; [exact W |]. split; lia.
    + set (s3 := set_content_length _ _) in *. change (set_content_length _ _) with s3.
      destruct rest as [| b1 rest'] eqn:Erest.
      { unfold parse_data. cbn zeta. rewrite take_nil, drop_nil.
        assert (Ec : add_content [] s3 = s3).
        { unfold add_content. rewrite app_nil_r. cbn [length]. rewrite Z.add_0_r. by destruct s3. }
        rewrite Ec. apply Hgo; try done. }
      rewrite <- Erest in *. assert (Hne' : rest <> []) by (by rewrite Erest).
      assert (Hlt : content_bytes s3 < content_length s3).
      { destruct (Z.lt_ge_cases (content_bytes s3) (content_length s3)) as [? | Hge]; [done | exfalso].
        rewrite Erest in Ho. cbn [HttpReply.lines_ok] in Ho.
        destruct Ho as [Hd | [Hb _]]; [change (state s3) with (state s) in Hd; congruence |].
        assert (Hm3 : line_mode s3 = true).
        { unfold line_mode. change (state s3) with (state s). rewrite Es. by apply Z.leb_le. }
        specialize (Hb Hm3) as [_ [_ Hb]]. specialize (Hb Es).
        assert (Hx : content_bytes s = u64 (content_length s + v)) by
          (change (content_bytes s = content_length s3); change (content_bytes s) with (content_bytes s3); lia).
        pose proof (wf_length _ Hwf) as Hwl.
        assert (HM : SIZE_MAX = 2 ^ 64 - 1) by reflexivity.
        rewrite Heq in Hx. unfold u64, wrap_u in Hx.
        destruct (Z.lt_ge_cases (content_length s + v) (2 ^ 64)).
        - rewrite Z.mod_small in Hx by lia. lia.
        - replace (content_length s + v) with (content_length s + v - 2 ^ 64 + 1 * 2 ^ 64) in Hx by lia.
          rewrite Z.mod_add, Z.mod_small in Hx by lia. lia. }
      destruct (chunk_data s3 rest W Es Hlt Hne' Ho) as (d & s' & r' & E' & Er' & Ho' & W' & Es' & Hl').
      rewrite E'. apply Hgo; try done; [congruence | lia].
  - rewrite <- (app_nil_r buf) in Hok.
    destruct (run_chars is_head garbage s buf [] Hm F Hne Hok) as (Hc & Hlen & Er & Hok').
    assert (Hp : forall k, prep k s = s) by (intros k; unfold prep; by rewrite Es).
    rewrite app_nil_r in Er. rewrite Hp in Er, Hok'.
    rewrite (get_line_part before s buf Hc Hne Hlen), bind_Ret.
    eexists _, []. split; [reflexivity |]. split; [exact Er |]. split; [exact Hok' |].
    split; [pose proof (wf_part 0 s buf Hwf Hm Hlen) as W; by rewrite Hp in W |].
    rewrite Eb. cbn. split; [lia | intros; lia].
Qed.
(** ** The whole call *)
Lemma process_state_spec s buf :
  wf s -> state s <> S_REPLY_DONE -> buf <> [] -> lines_ok s buf ->
  advances s buf (process_state quiet is_head garbage before s buf).
Proof.
  intros Hwf Hd Hne Hok. unfold process_state. destruct (state s) eqn:Es; try done;
    try (pose proof (wf_state _ Hwf) as Hs; rewrite Es in Hs; contradiction).
  - by apply parse_status_spec.
  - apply parse_headers_spec; [done | by left | done | done].
  - apply parse_headers_spec; [done | by right | done | done].
  - pose proof (wf_data _ Hwf Es) as Hlt.
    destruct (parse_data_spec s buf Hwf ltac:(by left) Hlt Hne) as (b & rest & -> & Hb & Hlen & E).
    rewrite E. destruct (run_data s b rest ltac:(by left) Hb Hlen Hok) as [Er Hok'].
    pose proof (wf_after_data b s Hwf ltac:(by left) Hlen) as W.
    eexists _, rest. split; [reflexivity |].
    assert (Ea : after_data b s =
      if (content_bytes s + Z.of_nat (length b) =? content_length s)
         && negb (closing (state (add_content b s)))
      then set_state S_REPLY_DONE (add_content b s) else add_content b s).
    { unfold after_data. cbn zeta. cbn [content_bytes content_length add_content state].
      rewrite Es. cbn [closing negb]. rewrite andb_true_r.
      destruct (Z.eqb_spec (content_bytes s + Z.of_nat (length b)) (content_length s)).
      - by rewrite decide_True.
      - by rewrite decide_False by tauto. }
    rewrite <- Ea. split; [by apply run_forget_eq |]. split; [done |]. split; [done |].
    split; [rewrite length_app; destruct b; [done | cbn; lia] |].
    apply stays_late_counts; [unfold late; by rewrite Es |]. intros H.
    unfold after_data. cbn zeta. by destruct (decide _).
  - destruct (xfer_spec (S (length buf)) s buf) as (s' & rest & E & Er & Hok' & W & _ & Hl);
      [lia | done | done | done |].
    exists s', rest. split; [exact E |]. split; [by apply run_forget_eq |]. split; [done |].
    split; [done |]. split; [by apply Hl |].
    apply stays_late_counts; [unfold late; by rewrite Es | exact (xfer_late _ _ _ _ _ _ E)].
  - by apply parse_footers_spec.
Qed.

Lemma run_done s buf : state s = S_REPLY_DONE -> run s buf = (s, buf).
Proof. intros Hd. destruct buf; cbn [HttpReply.run]; [done |]. by rewrite decide_True. Qed.

Lemma process_loop_spec fuel s buf :
  (length buf < fuel)%nat -> wf s -> buf <> [] -> lines_ok s buf ->
  exists s' rest, process_loop quiet is_head garbage before fuel s buf = Ret (s', rest) /\
    run (forget s) buf = (forget s', rest) /\ wf s' /\ header_bytes s' = header_bytes s + header_count 0 s buf.
Proof.
  revert s buf. induction fuel as [| fuel IH]; intros s buf Hf Hwf Hne Hok; [lia |].
  cbn [process_loop]. destruct (decide (state s = S_REPLY_DONE)) as [Hd | Hd].
  { exists s, buf. split; [done |]. split; [by apply run_done |]. split; [done |].
    rewrite header_count_late; [lia | unfold late; by rewrite Hd]. }
  destruct (process_state_spec s buf Hwf Hd Hne Hok) as (s1 & rest1 & E & Er & Hok1 & W & Hl & Hc).
  rewrite E, bind_Ret. destruct rest1 as [| c rest1].
  { exists s1, []. split; [done |]. split; [exact Er |]. split; [done |]. cbn [HttpReply.header_count] in Hc. lia. }
  rewrite (not_closing s1 W).
  destruct (IH s1 (c :: rest1)) as (s2 & rest2 & E2 & Er2 & W2 & Hc2); [lia | done | done | done |].
  exists s2, rest2. split; [exact E2 |]. split; [congruence |]. split; [done | lia].
Qed.

Lemma reply_bytes_aux s buf :
  wf s -> buf <> [] -> lines_ok s buf ->
  exists s' rest, http_process_reply_bytes quiet is_head garbage before s buf = Ret (s', rest) /\
    run (forget s) buf = (forget s', rest) /\ wf s' /\ header_bytes s' = header_bytes s + header_count 0 s buf.
Proof. intros Hwf Hne Hok. apply process_loop_spec; [lia | done | done | done]. Qed.

(** ** Runs over two buffers *)
Lemma run_app s a b :
  run s (a ++ b) = run (run s a).1 ((run s a).2 ++ b).
Proof.
  revert s. induction a as [| c a IH]; intros s; [done |]. cbn [app HttpReply.run].
  destruct (decide (state s = S_REPLY_DONE)) as [Hd | Hd].
  - cbn [fst snd]. by rewrite run_done.
  - apply IH.
Qed.

Lemma lines_ok_app s a b :
  lines_ok s (a ++ b) -> lines_ok s a /\ lines_ok (run s a).1 ((run s a).2 ++ b).
Proof.
  revert s. induction a as [| c a IH]; intros s Hok; [done |].
  cbn [app HttpReply.run HttpReply.lines_ok] in *. destruct Hok as [Hd | [Hb Hok]].
  - rewrite decide_True by done. split; [by left |]. cbn. by left.
  - destruct (IH _ Hok) as [H1 H2]. split; [by right |].
    destruct (decide (state s = S_REPLY_DONE)) as [Hd | Hd]; [| done]. cbn. by left.
Qed.
End Steps.

End HttpReplyProofs.
