(* ===== verification/HttpReplyTotal.v ===== *)
(** * httperf/src/http.c: the reply parser always returns

    Whatever the server sends, and in whatever state of a reply, the parser returns with a
    state of a reply; bytes are left only behind a complete reply. *)
From S2P Require Import Prelude HttpReply HttpReplyProofs.

Module HttpReplyTotal.
Import HttpReply.

Definition in_reply (x : Conn_State) : Prop :=
  match x with
  | S_REPLY_STATUS | S_REPLY_HEADER | S_REPLY_CONTINUE | S_REPLY_DATA | S_REPLY_CHUNKED | S_REPLY_FOOTER
  | S_REPLY_DONE => True
  | _ => False
  end.

Lemma in_reply_open x : in_reply x -> closing x = false.
Proof. by destruct x. Qed.

(** A reply in progress whose sizes and status are in range. *)
Definition fine (s : rs) : Prop :=
  in_reply (state s) /\ 0 <= content_bytes s /\ 0 <= content_length s <= SIZE_MAX /\ - 2 ^ 31 <= status s < 2 ^ 31.

Section Total.
Context (is_head : bool) (garbage before : Z) (Hbefore : before <> CR).
Abbreviation quiet := (fun _ : ev => false).

Lemma upto_lf_nonempty buf l : upto_lf buf = Some l -> l <> [].
Proof.
  destruct buf as [| c t]; cbn [upto_lf]; [done |]. destruct (c =? LF); [by intros [= <-] |].
  destruct (c =? 0); [done |]. destruct (upto_lf t); [by intros [= <-] | done].
Qed.

Lemma chop_line_returns l : exists l', chop_line before l = Ret l'.
Proof.
  unfold chop_line. destruct (last_byte before l =? LF); [| by eexists].
  destruct (Z.eqb_spec (last_byte before (removelast l)) CR) as [E |]; [| by eexists].
  destruct (removelast l) eqn:El; [| by eexists]. unfold last_byte in E. cbn in E. done.
Qed.

Lemma get_line_returns s buf :
  buf <> [] -> exists c l rest, get_line before s buf = Ret (c, set_line l s, rest) /\ (length rest < length buf)%nat.
Proof.
  intros Hb. destruct buf as [| b0 buf]; [done |]. unfold get_line.
  set (copied := default (b0 :: buf) (upto_lf (b0 :: buf))).
  assert (Hc : copied <> []).
  { unfold copied. destruct (upto_lf (b0 :: buf)) eqn:E; [by apply upto_lf_nonempty in E | done]. }
  assert (Hr : (length (drop (length copied) (b0 :: buf)) < length (b0 :: buf))%nat).
  { rewrite length_drop. destruct copied; [done |]. cbn. lia. }
  set (l := line s ++ _). destruct (_ || _).
  - destruct (chop_line_returns l) as [l' ->]. rewrite bind_Ret. by eexists true, l', _.
  - by eexists false, l, _.
Qed.

(** What a function that is given bytes leaves: less than it was given, unless the reply is
    complete. *)
Definition good (n : nat) (r : rs * list Z) : Prop := fine r.1 /\ (length r.2 < n)%nat.

Lemma status_line_fine s b s' : status_line quiet is_head garbage s = (b, s') -> fine s -> fine s'.
Proof.
  unfold status_line, event_signal. intros E Hs.
  assert (R : forall x, - 2 ^ 31 <= i32 x < 2 ^ 31) by (intros x; apply (wrap_s_range 32 x); lia).
  destruct (scan_status_line _) as [[[? ?] st] |]; [specialize (R st) |];
    repeat match type of E with context [if ?x then _ else _] => destruct x end; injection E as <- <-;
    unfold fine in *; cbn in *; intuition lia.
Qed.

Lemma parse_status_returns s buf :
  fine s -> buf <> [] -> returns (good (length buf)) (parse_status_line quiet is_head garbage before s buf).
Proof.
  intros (Hs & H1 & H2) Hb. unfold parse_status_line.
  destruct (get_line_returns (set_content_length SIZE_MAX (set_is_chunked false s)) buf Hb) as (c & l & rest & -> & Hr).
  rewrite bind_Ret. assert (F : fine (set_line l (set_content_length SIZE_MAX (set_is_chunked false s)))) by (unfold fine; cbn; split_and!; try done; tauto).
  destruct c; [| by apply returns_Ret].
  destruct (status_line _ _ _ _) as [d s'] eqn:E. apply status_line_fine in E; [| done].
  destruct d; apply returns_Ret; unfold good, fine in *; cbn in *; intuition.
Qed.

Lemma end_of_headers_fine s : fine s -> fine (end_of_headers s).
Proof.
  unfold fine, end_of_headers. intros H. destruct (has_body s); [destruct (is_chunked s) | destruct (decide _)]; cbn in *; try tauto.
  split_and!; [done | tauto | lia | unfold SIZE_MAX; lia | tauto | tauto].
Qed.

Lemma header_line_fine s : fine s -> fine (header_line quiet s).
Proof.
  intros H. unfold header_line, event_signal. destruct (prefix_nocase _ _) as [v |].
  - pose proof (HttpReplyProofs.strtoul_range 10 v ltac:(lia)). destruct (_ =? 0); unfold fine in *; cbn in *; tauto.
  - destruct (prefix_nocase _ _); [| exact H]. by destruct (equal_nocase _ _).
Qed.

Lemma fine_line l s : fine s -> fine (set_line l s).
Proof. done. Qed.
Lemma fine_closing s : fine s -> closing (state s) = false.
Proof. intros [H _]. by apply in_reply_open. Qed.

(** What the loops over lines leave. *)
Definition lines_left (buf : list Z) (r : bool * rs * list Z) : Prop :=
  fine r.1.2 /\ (length r.2 <= length buf)%nat /\ (buf <> [] -> length r.2 < length buf)%nat.

Lemma lines_left_less buf buf' r : (length buf < length buf')%nat -> lines_left buf r -> lines_left buf' r.
Proof. intros Hl (H1 & H2 & _). unfold lines_left. split_and!; [done | lia | lia]. Qed.

Lemma headers_loop_returns fuel : forall s buf,
  fine s -> (length buf < fuel)%nat -> returns (lines_left buf) (headers_loop quiet before fuel s buf).
Proof.
  induction fuel as [| fuel IH]; intros s buf Hs Hf; [lia |]. cbn [headers_loop].
  destruct (decide (buf = [])) as [-> | Hb]; [by apply returns_Ret |].
  destruct (get_line_returns s buf Hb) as (c & l & rest & -> & Hr). rewrite bind_Ret.
  destruct c; [| apply returns_Ret; unfold lines_left; cbn [fst snd]; split_and!; [done | lia | intros; lia]]. cbn [line set_line].
  destruct l as [| x l]; [apply returns_Ret; unfold lines_left; cbn [fst snd]; split_and!; [by apply end_of_headers_fine | lia | intros; lia] |].
  rewrite fine_closing by (by apply header_line_fine).
  eapply returns_mono; [apply IH; [by apply fine_line, header_line_fine | lia] |]. intros r. by apply lines_left_less.
Qed.

Lemma footers_loop_returns fuel : forall s buf,
  fine s -> (length buf < fuel)%nat -> returns (lines_left buf) (footers_loop quiet before fuel s buf).
Proof.
  induction fuel as [| fuel IH]; intros s buf Hs Hf; [lia |]. cbn [footers_loop].
  destruct (decide (buf = [])) as [-> | Hb]; [by apply returns_Ret |].
  destruct (get_line_returns s buf Hb) as (c & l & rest & -> & Hr). rewrite bind_Ret.
  assert (Hd : forall x, fine (set_state S_REPLY_DONE (set_line x s))) by (intros x; destruct Hs; done).
  destruct c; [| apply returns_Ret; unfold lines_left; cbn [fst snd]; split_and!; [done | lia | intros; lia]]. cbn [line set_line].
  destruct l as [| x l]; [apply returns_Ret; unfold lines_left; cbn [fst snd]; split_and!; [apply (Hd []) | lia | intros; lia] |].
  unfold event_signal. rewrite fine_closing by done.
  eapply returns_mono; [apply IH; [done | lia] |]. intros r. by apply lines_left_less.
Qed.

Lemma parse_headers_returns s buf :
  fine s -> buf <> [] -> returns (good (length buf)) (parse_headers quiet before s buf).
Proof.
  intros Hs Hb. unfold parse_headers. eapply returns_bind; [apply headers_loop_returns; [done | lia] |].
  intros [[e s'] rest] (H1 & _ & H2). specialize (H2 Hb). by destruct e; apply returns_Ret.
Qed.

Lemma parse_footers_returns s buf :
  fine s -> buf <> [] -> returns (good (length buf)) (parse_footers quiet before s buf).
Proof.
  intros Hs Hb. unfold parse_footers. eapply returns_bind; [apply footers_loop_returns; [done | lia] |].
  intros [[e s'] rest] (H1 & _ & H2). specialize (H2 Hb). by destruct e; apply returns_Ret.
Qed.

Lemma parse_data_fine s buf :
  fine s -> exists all n, parse_data s buf = (all, add_content (take n buf) s, drop n buf) /\
    fine (add_content (take n buf) s) /\
    (buf <> [] -> content_bytes s < content_length s -> (0 < n)%nat) /\ (all = false -> drop n buf = []).
Proof.
  intros (H1 & H2 & H3 & H4). unfold parse_data. set (need := u64 (content_length s - content_bytes s)).
  assert (0 <= need < 2 ^ 64) by (apply wrap_u_range; lia). eexists _, _. split; [reflexivity |]. split_and!; cbn.
  - unfold fine. cbn. split_and!; [done | lia | lia | lia | lia | lia].
  - intros Hb Hlt. assert (need = content_length s - content_bytes s) by (apply wrap_u_small; unfold SIZE_MAX in *; lia).
    destruct buf; [done |]. cbn [length]. lia.
  - intros E. apply drop_ge. destruct (Z.eqb_spec (Z.of_nat (Z.to_nat (Z.min (Z.of_nat (length buf)) need))) need); [done | lia].
Qed.

Lemma xfer_returns fuel : forall s buf, fine s -> (length buf < fuel)%nat ->
  returns (fun r => fine r.1 /\ (length r.2 <= length buf)%nat /\ (buf <> [] -> length r.2 < length buf)%nat)
    (xfer_chunked before fuel s buf).
Proof.
  induction fuel as [| fuel IH]; intros s buf Hs Hf; [lia |]. cbn [xfer_chunked].
  destruct buf as [| b0 buf]; [by apply returns_Ret |]. rewrite fine_closing by done.
  assert (Hne : b0 :: buf <> []) by done. remember (b0 :: buf) as b. clear Heqb.
  assert (Next : forall s' rest, fine s' -> (length rest < length b)%nat ->
    returns (fun r => fine r.1 /\ (length r.2 <= length b)%nat /\ (b <> [] -> length r.2 < length b)%nat)
      (xfer_chunked before fuel s' rest)).
  { intros s' rest Hs' Hr. eapply returns_mono; [apply IH; [done | lia] |]. cbn. intros r (G1 & G2 & _). split_and!; [done | lia | lia]. }
  assert (Data : forall s' rest, fine s' -> (length rest < length b)%nat ->
    returns (fun r => fine r.1 /\ (length r.2 <= length b)%nat /\ (b <> [] -> length r.2 < length b)%nat)
      (let '(_, s, buf) := parse_data s' rest in xfer_chunked before fuel s buf)).
  { intros s' rest Hs' Hr. destruct (parse_data_fine s' rest Hs') as (all & n & -> & F & _). apply Next; [done |].
    rewrite length_drop. lia. }
  destruct (Z.leb_spec (content_length s) (content_bytes s)) as [L | L].
  - destruct (get_line_returns s b Hne) as (c & l & rest & -> & Hr). rewrite bind_Ret.
    destruct c; [| apply returns_Ret; cbn; split_and!; [done | lia | done]]. cbn [line set_line].
    destruct l as [| x l]; [by apply Next |]. destruct (strtoul 16 (cstr (x :: l))) as [[n e] range].
    destruct e as [e |]; [| by apply Next]. destruct range; [by apply Next |]. destruct (n =? 0).
    + apply returns_Ret. cbn. destruct Hs as (G1 & G2 & G3). split; [done |]. split; [lia | done].
    + apply Data; [| done]. destruct Hs as (G1 & G2 & G3). unfold fine. cbn.
      pose proof (wrap_u_range 64 (content_length s + n)). unfold SIZE_MAX. split_and!; [done | done | lia | lia | lia | lia].
  - destruct (parse_data_fine s b Hs) as (all & n & -> & F & Hn & _). apply Next; [done |].
    rewrite length_drop. specialize (Hn Hne L). destruct b; [done |]. cbn [length]. lia.
Qed.

(** One round of [http_process_reply_bytes]; a round that consumes nothing completes the reply. *)
Lemma process_state_returns s buf : fine s -> state s <> S_REPLY_DONE -> buf <> [] ->
  returns (fun r => fine r.1 /\ (length r.2 <= length buf)%nat /\
             ((length r.2 < length buf)%nat \/ state r.1 = S_REPLY_DONE) /\
             (state s = S_REPLY_STATUS -> length r.2 < length buf)%nat)
    (process_state quiet is_head garbage before s buf).
Proof.
  intros Hs Hd Hb.
  assert (Good : forall m, returns (good (length buf)) m -> returns (fun r => fine r.1 /\ (length r.2 <= length buf)%nat /\
             ((length r.2 < length buf)%nat \/ state r.1 = S_REPLY_DONE) /\ (state s = S_REPLY_STATUS -> length r.2 < length buf)%nat) m).
  { intros m Hm. eapply returns_mono; [exact Hm |]. intros r [G1 G2]. split_and!; [done | lia | by left | done]. }
  unfold process_state. pose proof (proj1 Hs) as Hst. destruct (state s) eqn:E; try done.
  - by apply Good, parse_status_returns.
  - by apply Good, parse_headers_returns.
  - by apply Good, parse_headers_returns.
  - destruct (parse_data_fine s buf Hs) as (all & n & -> & F & Hn & Ha). rewrite (fine_closing _ F), andb_true_r.
    apply returns_Ret. cbn [fst snd]. destruct all.
    + destruct F as (G1 & G2 & G3). split_and!; [done | rewrite length_drop; lia | by right | done].
    + rewrite Ha by done. split_and!; [done | cbn; lia | | done]. left. destruct buf; [done |]. cbn. lia.
  - apply Good. eapply returns_mono; [apply xfer_returns; [done | lia] |]. intros r (G1 & _ & G2). split; [done | by apply G2].
  - by apply Good, parse_footers_returns.
Qed.

Lemma process_loop_returns fuel : forall s buf, fine s -> (S (length buf) < fuel)%nat \/
    (state s = S_REPLY_DONE /\ (0 < fuel)%nat) -> (buf <> [] \/ state s = S_REPLY_DONE) ->
  returns (fun r => fine r.1 /\ (length r.2 <= length buf)%nat /\ (r.2 = [] \/ state r.1 = S_REPLY_DONE) /\
             (state s = S_REPLY_STATUS -> length r.2 < length buf)%nat)
    (process_loop quiet is_head garbage before fuel s buf).
Proof.
  induction fuel as [| fuel IH]; intros s buf Hs Hf Hb; [lia |]. cbn [process_loop].
  destruct (decide (state s = S_REPLY_DONE)) as [D | D].
  { apply returns_Ret. cbn. split_and!; [done | lia | by right | congruence]. }
  destruct Hb as [Hb | ?]; [| done]. destruct Hf as [Hf | [? _]]; [| done].
  eapply returns_bind; [by apply process_state_returns |]. intros [s' rest] (H1 & H2 & H3 & H4). cbn [fst snd] in *.
  destruct rest as [| r0 rest]; [apply returns_Ret; cbn; split_and!; [done | lia | by left | done] |].
  rewrite fine_closing by done. eapply returns_mono; [apply IH; [done | | by left] |].
  - destruct H3 as [H3 | H3]; [left; lia | right; split; [done | lia]].
  - cbn. intros r (G1 & G2 & G3 & _). split_and!; [done | cbn in *; lia | done | intros E; specialize (H4 E); cbn in *; lia].
Qed.

End Total.

(** In whatever state of a reply, and whatever bytes the server sends, the parser returns; it leaves
    a state of a reply, bytes only behind a complete reply, and at the start of a reply it consumes
    something.  (The byte in front of the line buffer is not a carriage return.) *)
Lemma reply_bytes_returns is_head garbage before s buf :
  before <> CR -> fine s -> buf <> [] ->
  exists s' rest, http_process_reply_bytes (fun _ => false) is_head garbage before s buf = Ret (s', rest) /\
    fine s' /\ (length rest <= length buf)%nat /\ (rest = [] \/ state s' = S_REPLY_DONE) /\
    (state s = S_REPLY_STATUS -> length rest < length buf)%nat.
Proof.
  intros Hbefore Hs Hbuf. destruct (process_loop_returns is_head garbage before Hbefore (S (S (length buf))) s buf Hs)
    as ([s' rest] & E & H); [left; lia | by left |]. by exists s', rest.
Qed.

End HttpReplyTotal.
