(* ===== verification/HttpReplyTheorems.v ===== *)
(** * httperf/src/http.c: what the reply parser computes

    The contract of [http_process_reply_bytes], from the byte-at-a-time automaton
    of [HttpReply] and the refinement lemmas of [HttpReplyProofs]: it returns on every
    non-empty buffer, within the bounds of [lines_ok] the way a reply is cut into buffers
    does not matter, and a reply that is printed with a Content-Length or in chunks is
    read back. *)
From S2P Require Import Prelude HttpReply HttpReplyProofs HttpReplyTotal.

Module HttpReplyTheorems.
Import HttpReply HttpReplyProofs.

Definition quiet (_ : ev) : bool := false.

(** Deliver the buffers one after the other; what a call leaves is in front of
    the next buffer. *)
Fixpoint deliver (is_head : bool) (garbage before : Z) (s : rs) (rest : list Z)
    (bufs : list (list Z)) : cres (rs * list Z) :=
  match bufs with
  | [] => Ret (s, rest)
  | b :: bufs =>
      '(s, rest) ← http_process_reply_bytes quiet is_head garbage before s (rest ++ b);
      deliver is_head garbage before s rest bufs
  end.

(** ** Printing numbers *)
Definition digit_char (d : Z) : Z := if d <? 10 then 48 + d else 87 + d.

Fixpoint numeral (fuel : nat) (base n : Z) : list Z :=
  match fuel with
  | O => []
  | S fuel => (if n <? base then [] else numeral fuel base (n / base)) ++ [digit_char (n mod base)]
  end.

(** 64 digits are enough for a [size_t] in any base. *)
Definition dec (n : Z) : list Z := numeral 64 10 n.
Definition hex (n : Z) : list Z := numeral 64 16 n.

Definition is_digit_of (base c : Z) : Prop := exists d, 0 <= d < base /\ c = digit_char d.

Lemma digit_value_char base d :
  base <= 16 -> 0 <= d < base -> digit_value base (digit_char d) = Some d.
Proof.
  intros Hb Hd. unfold digit_value.
  assert (Hc : In d [0;1;2;3;4;5;6;7;8;9;10;11;12;13;14;15]) by (cbn; lia).
  assert (Hlt : (d <? base) = true) by (apply Z.ltb_lt; lia). clear Hd.
  cbn zeta. match goal with |- match ?x with _ => _ end = _ => assert (E : x = Some d) end;
    [| by rewrite E, Hlt].
  cbn [In] in Hc. repeat (destruct Hc as [<- | Hc]; [reflexivity |]). contradiction.
Qed.

(** The characters of digits in a base up to 16. *)
Lemma digit_char_cases base c :
  base <= 16 -> is_digit_of base c ->
  In c [48;49;50;51;52;53;54;55;56;57;97;98;99;100;101;102] /\
  exists d, digit_value base c = Some d.
Proof.
  intros Hb (d & Hd & ->). split; [| exists d; by apply digit_value_char].
  assert (Hc : In d [0;1;2;3;4;5;6;7;8;9;10;11;12;13;14;15]) by (cbn; lia). clear Hd.
  cbn [In] in Hc. repeat (destruct Hc as [<- | Hc]; [vm_compute; tauto |]). contradiction.
Qed.

Lemma numeral_digits fuel base n :
  0 < base -> Forall (is_digit_of base) (numeral fuel base n).
Proof.
  intros Hb. revert n. induction fuel as [| fuel IH]; intros n; cbn [numeral]; [constructor |].
  apply Forall_app. split.
  - destruct (n <? base); [constructor | apply IH].
  - constructor; [| constructor]. exists (n mod base). split; [apply Z.mod_pos_bound; lia | done].
Qed.

Lemma numeral_nonempty fuel base n : numeral (S fuel) base n <> [].
Proof. cbn [numeral]. by destruct (if n <? base then _ else _). Qed.

Lemma read_digits_numeral fuel base n t :
  2 <= base <= 16 -> 0 <= n < base ^ Z.of_nat fuel -> 0 < Z.of_nat fuel ->
  read_digits base 0 (numeral fuel base n ++ t) = read_digits base n t.
Proof.
  intros Hb. revert n t. induction fuel as [| fuel IH]; intros n t Hn Hf; [lia |].
  cbn [numeral]. destruct (Z.ltb_spec n base) as [Hlt | Hge].
  - cbn [app read_digits]. rewrite Z.mod_small by lia.
    rewrite digit_value_char by lia. f_equal; lia.
  - rewrite <- app_assoc. cbn [app].
    rewrite Nat2Z.inj_succ, Z.pow_succ_r in Hn by lia.
    destruct fuel as [| fuel]; [rewrite Z.pow_0_r in Hn; lia |].
    rewrite IH; [| split; [apply Z.div_pos; lia | apply Z.div_lt_upper_bound; lia] | lia].
    cbn [read_digits]. rewrite digit_value_char; [| lia | apply Z.mod_pos_bound; lia].
    f_equal. pose proof (Z.div_mod n base ltac:(lia)). lia.
Qed.

Lemma numeral_length fuel base n : (length (numeral fuel base n) <= fuel)%nat.
Proof.
  revert n. induction fuel as [| fuel IH]; intros n; cbn [numeral]; [done |].
  rewrite length_app. cbn [length]. destruct (n <? base); [cbn; lia |].
  pose proof (IH (n / base)). lia.
Qed.

Lemma digit_clean base c :
  base <= 16 -> is_digit_of base c -> c <> LF /\ c <> 0.
Proof.
  intros Hb Hc. apply digit_char_cases in Hc as [Hc _]; [| done].
  cbn [In] in Hc. repeat (destruct Hc as [<- | Hc]; [by split |]). contradiction.
Qed.

Lemma numeral_clean fuel base n : 0 < base <= 16 -> clean (numeral fuel base n).
Proof.
  intros Hb. eapply Forall_impl; [apply (numeral_digits fuel base n); lia |].
  intros c. apply digit_clean. lia.
Qed.

Lemma skip_space_digit base c l :
  base <= 16 -> is_digit_of base c -> skip_space (c :: l) = c :: l.
Proof.
  intros Hb Hc. apply digit_char_cases in Hc as [Hc _]; [| done].
  cbn [In] in Hc. repeat (destruct Hc as [<- | Hc]; [done |]). contradiction.
Qed.

(** [strtoul] on the digits it reads. *)
Lemma strtoul_digits base l t :
  base <= 16 -> Forall (is_digit_of base) l -> l <> [] -> t = [] \/ head t = Some 32 ->
  strtoul base (l ++ t) =
    (let '(v, r) := read_digits base 0 (l ++ t) in
     if SIZE_MAX <? v then (SIZE_MAX, Some r, true) else (v, Some r, false)).
Proof.
  intros Hb Hl Hne Ht. destruct l as [| c l]; [done |]. apply Forall_cons in Hl as [Hc Hl].
  assert (Hx : match l ++ t with
               | x :: _ => (tolower x =? 120) = false
               | [] => True
               end).
  { destruct l as [| x l]; cbn [app].
    - destruct Ht as [-> | Ht]; [done |]. destruct t; [done |]. by injection Ht as ->.
    - apply Forall_cons in Hl as [Hx _]. apply digit_char_cases in Hx as [Hx _]; [| done].
      cbn [In] in Hx. repeat (destruct Hx as [<- | Hx]; [done |]). contradiction. }
  unfold strtoul. cbn [app]. rewrite (skip_space_digit base c _ Hb Hc).
  apply digit_char_cases in Hc as [Hc [d Hv]]; [| done].
  set (m := l ++ t) in *. clearbody m.
  cbn [In] in Hc. repeat (destruct Hc as [<- | Hc]; [
    try (destruct m as [| x [| y m]]; cbn beta iota; try rewrite Hx, andb_false_r);
    rewrite Hv; done |]).
  contradiction.
Qed.

Lemma strtoul_dec n t :
  0 <= n <= SIZE_MAX -> t = [] \/ head t = Some 32 ->
  strtoul 10 (dec n ++ t) = (n, Some t, false).
Proof.
  intros Hn Ht. unfold SIZE_MAX in *. unfold dec. rewrite strtoul_digits; [| lia | apply numeral_digits; lia | apply numeral_nonempty | done].
  rewrite read_digits_numeral; [| lia | split; [lia |]; apply (Z.le_lt_trans _ (2 ^ 64)); [lia | reflexivity] | lia].
  assert (E : read_digits 10 n t = (n, t)).
  { destruct Ht as [-> | Ht]; [done |]. destruct t; [done |]. by injection Ht as ->. }
  rewrite E. unfold SIZE_MAX. by rewrite (proj2 (Z.ltb_ge _ _)) by lia.
Qed.

Lemma strtoul_hex n :
  0 <= n <= SIZE_MAX -> strtoul 16 (hex n) = (n, Some [], false).
Proof.
  intros Hn. unfold SIZE_MAX in *. rewrite <- (app_nil_r (hex n)). unfold hex.
  rewrite strtoul_digits; [| lia | apply numeral_digits; lia | apply numeral_nonempty | by left].
  rewrite read_digits_numeral; [| lia | split; [lia |]; apply (Z.le_lt_trans _ (2 ^ 64)); [lia | reflexivity] | lia].
  cbn [read_digits]. unfold SIZE_MAX. by rewrite (proj2 (Z.ltb_ge _ _)) by lia.
Qed.

Lemma cstr_clean l : clean l -> cstr l = l.
Proof.
  induction 1 as [| c l [_ Hc] F IH]; [done |]. cbn [cstr].
  destruct (Z.eqb_spec c 0); [done |]. by rewrite IH.
Qed.

(** ** Printed replies *)
Section Reaches.
Context (is_head : bool) (garbage : Z).
Abbreviation feed := (feed is_head garbage).
Abbreviation run := (run is_head garbage).
Abbreviation lines_ok := (lines_ok is_head garbage).
Abbreviation end_line := (end_line is_head garbage).

(** Feeding [buf] in state [s] gets to [t] in state [s']. *)
Definition reaches (s : rs) (buf : list Z) (s' : rs) (t : list Z) : Prop :=
  (lines_ok s' t -> lines_ok s buf) /\ run s buf = run s' t.

Lemma reaches_trans s1 b1 s2 b2 s3 b3 :
  reaches s1 b1 s2 b2 -> reaches s2 b2 s3 b3 -> reaches s1 b1 s3 b3.
Proof. intros [H1 E1] [H2 E2]. split; [tauto | congruence]. Qed.

Lemma reaches_one s c t :
  state s <> S_REPLY_DONE ->
  (line_mode s = true -> c <> 0 /\ (length (line s) < 1022)%nat /\
     (state s = S_REPLY_CHUNKED -> content_bytes s <= content_length s)) ->
  reaches s (c :: t) (feed s c) t.
Proof.
  intros Hd Hok. split; [intros H; cbn [HttpReply.lines_ok]; right; by split |].
  cbn [HttpReply.run]. by rewrite decide_False.
Qed.

Definition boundary (s : rs) : Prop := state s = S_REPLY_CHUNKED -> content_bytes s <= content_length s.

Lemma reaches_chars s pre t :
  line_mode s = true -> boundary s -> clean pre -> pre <> [] ->
  (length (line s) + length pre <= 1022)%nat ->
  reaches s (pre ++ t) (set_line (line s ++ pre) (prep (Z.of_nat (length pre)) s)) t.
Proof.
  revert s. induction pre as [| c pre IH]; intros s Hm Hb Hc Hne Hlen; [done |].
  apply Forall_cons in Hc as [[Hc1 Hc0] Hc]. cbn [app length] in *.
  assert (H1 : reaches s (c :: pre ++ t) (set_line (line s ++ [c]) (prep 1 s)) (pre ++ t)).
  { rewrite <- feed_char with (is_head := is_head) (garbage := garbage) by done.
    apply reaches_one; [by apply line_mode_not_done |]. intros _. split; [done |]. split; [lia | exact Hb]. }
  destruct pre as [| c' pre]; [exact H1 |]. refine (reaches_trans _ _ _ _ _ _ H1 _).
  assert (Hm' := line_mode_char (line s ++ [c]) s Hm).
  set (s1 := set_line (line s ++ [c]) (prep 1 s)) in *.
  assert (Hlen1 : (length (line s1) + length (c' :: pre) <= 1022)%nat).
  { unfold s1. cbn [line set_line]. rewrite length_app. cbn [length] in *. lia. }
  assert (Hb1 : boundary s1).
  { unfold boundary, s1, prep in *. destruct (state s) eqn:Es; cbn; rewrite ?Es; done. }
  pose proof (IH s1 Hm' Hb1 Hc ltac:(done) Hlen1) as H2.
  unfold s1 in H2 at 2 3. rewrite prep_line, set_line_twice in H2. cbn [line set_line] in H2.
  rewrite <- app_assoc in H2. cbn [app length] in *.
  replace (Z.of_nat (S (S (length pre)))) with (1 + Z.of_nat (S (length pre))) by lia.
  exact H2.
Qed.

Lemma chop_crlf l : chop (l ++ [CR; LF]) = l.
Proof.
  unfold chop. change [CR; LF] with ([CR] ++ [LF]). rewrite app_assoc, removelast_last, last_snoc.
  rewrite decide_True by done. by rewrite removelast_last.
Qed.

(** A line that ends in CRLF. *)
Lemma reaches_line s pre t :
  line_mode s = true -> line s = [] -> boundary s -> clean pre -> (length pre <= 1020)%nat ->
  reaches s (pre ++ crlf ++ t) (end_line (set_line pre (prep (Z.of_nat (length pre) + 2) s))) t.
Proof.
  intros Hm Hl Hb Hc Hlen.
  assert (Hc' : clean (pre ++ [CR])) by (apply Forall_app; split; [done | by repeat constructor]).
  assert (Hl' : (length (line s) + length (pre ++ [CR]) <= 1022)%nat).
  { rewrite Hl, length_app. cbn [length]. lia. }
  pose proof (reaches_chars s (pre ++ [CR]) (LF :: t) Hm Hb Hc' ltac:(by destruct pre) Hl') as H1.
  rewrite Hl, <- app_assoc in H1. cbn [app] in H1. unfold crlf. cbn [app].
  refine (reaches_trans _ _ _ _ _ _ H1 _). set (s1 := set_line _ _).
  assert (Hm1 : line_mode s1 = true).
  { unfold s1, line_mode, prep in *. by destruct s as [st]; destruct st. }
  assert (E : end_line (set_line pre (prep (Z.of_nat (length pre) + 2) s)) = feed s1 LF).
  { rewrite feed_lf by done. f_equal. unfold s1. cbn [line set_line].
    rewrite <- app_assoc. cbn [app]. rewrite chop_crlf.
    destruct s as [st ? ? ? ? ? ? ? ? ? ? ?]; destruct st; unfold prep, add_footer_bytes, set_line; cbn; try done.
    f_equal. rewrite length_app. cbn [length]. lia. }
  rewrite E. apply reaches_one; [by apply line_mode_not_done |]. intros _. split; [done |]. split.
  - unfold s1. cbn [line set_line]. rewrite length_app. cbn [length]. lia.
  - unfold s1, prep, boundary in *. destruct (state s) eqn:Es; cbn; rewrite ?Es; done.
Qed.

(** Bytes of the body. *)
Lemma reaches_data s b t :
  state s = S_REPLY_DATA \/ state s = S_REPLY_CHUNKED ->
  b <> [] -> content_bytes s + Z.of_nat (length b) <= content_length s ->
  reaches s (b ++ t) (after_data b s) t.
Proof.
  revert s. induction b as [| c b IH]; intros s Hst Hne Hlen; [done |].
  cbn [app length] in *.
  assert (Hm : line_mode s = false).
  { unfold line_mode. destruct Hst as [-> | ->]; [done |]. apply Z.leb_gt. lia. }
  assert (H1 : reaches s (c :: b ++ t) (after_data [c] s) (b ++ t)).
  { rewrite <- feed_data with (is_head := is_head) (garbage := garbage) by done.
    apply reaches_one; [destruct Hst; congruence |]. congruence. }
  destruct b as [| c' b]; [exact H1 |].
  assert (E1 : after_data [c] s = add_content [c] s).
  { unfold after_data. cbn zeta. rewrite decide_False; [done |].
    cbn [content_bytes content_length add_content length] in *. lia. }
  rewrite E1 in H1. refine (reaches_trans _ _ _ _ _ _ H1 _).
  assert (E2 : after_data (c' :: b) (add_content [c] s) = after_data (c :: c' :: b) s).
  { unfold after_data. by rewrite add_content_app. }
  rewrite <- E2. apply IH; [done | done |].
  cbn [content_bytes content_length add_content length] in *. lia.
Qed.
End Reaches.

(** ** Replies as a server prints them *)
Definition status_text (st : Z) (reason : list Z) : list Z :=
  text "HTTP/1.1 " ++ dec st ++ 32 :: reason ++ crlf.
Definition lines_text (ls : list (list Z)) : list Z := concat (map (fun l => l ++ crlf) ls).
Definition content_length_line (n : Z) : list Z := text "Content-Length: " ++ dec n.
Definition chunked_line : list Z := text "Transfer-Encoding: chunked".
Definition chunk_text (c : list Z) : list Z := hex (Z.of_nat (length c)) ++ crlf ++ c ++ crlf.

Definition length_reply st reason hs body : list Z :=
  status_text st reason ++ lines_text (hs ++ [content_length_line (Z.of_nat (length body))]) ++
  crlf ++ body.
Definition chunked_reply st reason hs chunks footers : list Z :=
  status_text st reason ++ lines_text (hs ++ [chunked_line]) ++ crlf ++
  concat (map chunk_text chunks) ++ text "0" ++ crlf ++ lines_text footers ++ crlf.

(** A line that fits the buffer. *)
Definition fits (l : list Z) : Prop := clean l /\ l <> [] /\ (length l <= 1020)%nat.
(** A header the parser does not interpret. *)
Definition plain (l : list Z) : Prop :=
  fits l /\ prefix_nocase (text "content-length:") l = None /\
  prefix_nocase (text "transfer-encoding:") l = None.
(** A final status whose reply has a body. *)
Definition with_body (st : Z) : Prop := 200 <= st <= 999 /\ st <> 204 /\ st <> 205 /\ st <> 304.

Section Printed.
Context (garbage : Z).
Abbreviation reaches := (reaches false garbage).
Abbreviation run := (run false garbage).

Definition in_headers cl hb ch st lg : rs :=
  mkRs S_REPLY_HEADER [] cl hb ch st 0x10001 0 0 0 [] lg.
Definition in_chunks n st d lg : rs :=
  mkRs S_REPLY_CHUNKED [] n true true st 0x10001 0 n 0 d lg.
Definition in_footers n st fb d lg : rs :=
  mkRs S_REPLY_FOOTER [] n true true st 0x10001 0 n fb d lg.

Lemma dec_clean n : clean (dec n).
Proof. apply numeral_clean. lia. Qed.

Lemma skip_space_dec n t : skip_space (dec n ++ t) = dec n ++ t.
Proof.
  pose proof (numeral_digits 64 10 n ltac:(lia)) as F. fold (dec n) in F.
  assert (Hne : dec n <> []) by apply numeral_nonempty.
  destruct (dec n) as [| c l]; [done |]. apply Forall_cons in F as [Hc _]. cbn [app].
  by apply (skip_space_digit 10).
Qed.

Lemma strtoul_space n t :
  0 <= n <= SIZE_MAX -> t = [] \/ head t = Some 32 ->
  strtoul 10 (32 :: dec n ++ t) = (n, Some t, false).
Proof.
  intros Hn Ht. rewrite <- (strtoul_dec n t Hn Ht). unfold strtoul.
  change (skip_space (32 :: dec n ++ t)) with (skip_space (dec n ++ t)). done.
Qed.

Lemma scan_printed st reason :
  0 <= st < 2 ^ 32 -> scan_status_line (text "HTTP/1.1 " ++ dec st ++ 32 :: reason) = Some (1, 1, st).
Proof.
  intros Hst. unfold scan_status_line.
  change (lit (bytes_of_string "HTTP/") (text "HTTP/1.1 " ++ dec st ++ 32 :: reason))
    with (Some (text "1.1 " ++ dec st ++ 32 :: reason)). cbn [mbind option_bind].
  change (scan_uint (text "1.1 " ++ dec st ++ 32 :: reason))
    with (Some (1, text ".1 " ++ dec st ++ 32 :: reason)). cbn [mbind option_bind].
  change (lit (bytes_of_string ".") (text ".1 " ++ dec st ++ 32 :: reason))
    with (Some (text "1 " ++ dec st ++ 32 :: reason)). cbn [mbind option_bind].
  change (scan_uint (text "1 " ++ dec st ++ 32 :: reason))
    with (Some (1, 32 :: dec st ++ 32 :: reason)). cbn [mbind option_bind].
  change (skip_space (32 :: dec st ++ 32 :: reason)) with (skip_space (dec st ++ 32 :: reason)).
  rewrite skip_space_dec. unfold scan_uint.
  rewrite strtoul_dec; [| unfold SIZE_MAX; lia | by right]. cbn [mbind option_bind].
  by rewrite (wrap_u_small 32) by lia.
Qed.

Lemma text_app_clean (p : string) l : clean (text p) -> clean l -> clean (text p ++ l).
Proof. intros H1 H2. apply Forall_app. by split. Qed.

Lemma dec_length n : (length (dec n) <= 64)%nat.
Proof. apply numeral_length. Qed.

Lemma status_step st reason t :
  with_body st -> clean reason -> (length reason <= 900)%nat ->
  reaches start_reply (status_text st reason ++ t)
    (in_headers SIZE_MAX true false st [RecvStart st]) t.
Proof.
  intros (Hst & H1 & H2 & H3) Hc Hlen. unfold status_text.
  replace ((text "HTTP/1.1 " ++ dec st ++ 32 :: reason ++ crlf) ++ t)
    with ((text "HTTP/1.1 " ++ dec st ++ 32 :: reason) ++ crlf ++ t)
    by (rewrite <- !app_assoc; do 2 f_equal; cbn [app]; by rewrite <- app_assoc).
  set (l := text "HTTP/1.1 " ++ dec st ++ 32 :: reason).
  assert (Hl : clean l).
  { apply text_app_clean; [repeat constructor; done |]. apply Forall_app. split; [apply dec_clean |].
    constructor; [done | exact Hc]. }
  assert (Hll : (length l <= 1020)%nat).
  { unfold l. rewrite !length_app. cbn [length]. pose proof (dec_length st).
    change (length (text "HTTP/1.1 ")) with 9%nat. lia. }
  pose proof (reaches_line false garbage start_reply l t eq_refl eq_refl ltac:(done) Hl Hll) as H.
  assert (E : end_line false garbage (set_line l (prep (Z.of_nat (length l) + 2) start_reply))
    = in_headers SIZE_MAX true false st [RecvStart st]).
  { unfold end_line, prep. cbn [state start_reply set_line set_content_length set_is_chunked].
    unfold status_line. cbn [line set_line]. rewrite cstr_clean by done. unfold l.
    rewrite scan_printed by lia. cbn [negb andb].
    rewrite (i32_small st) by (unfold is_int, INT_MIN, INT_MAX; lia).
    destruct (Z.eqb_spec st 100); [lia |]. destruct (Z.eqb_spec st 204); [lia |].
    destruct (Z.eqb_spec st 205); [lia |]. destruct (Z.eqb_spec st 304); [lia |].
    assert (Hd : (st / 100 =? 1) = false) by (apply Z.eqb_neq; zdiv).
    rewrite Hd. reflexivity. }
  rewrite E in H. exact H.
Qed.

Lemma plain_step cl hb ch st lg h t :
  plain h ->
  reaches (in_headers cl hb ch st lg) (h ++ crlf ++ t) (in_headers cl hb ch st (lg ++ [RecvHdr h])) t.
Proof.
  intros ((Hc & Hne & Hl) & H1 & H2).
  pose proof (reaches_line false garbage (in_headers cl hb ch st lg) h t eq_refl eq_refl
    ltac:(done) Hc Hl) as H.
  unfold end_line, prep in H. cbn [state in_headers set_line line] in H.
  destruct h as [| c h]; [done |]. unfold header_line in H. cbn [line set_line] in H.
  unfold text in *. rewrite (cstr_clean (c :: h) Hc), H1, H2 in H. exact H.
Qed.

Lemma lines_text_cons l ls t : lines_text (l :: ls) ++ t = l ++ crlf ++ lines_text ls ++ t.
Proof. unfold lines_text. cbn [map concat]. by rewrite <- !app_assoc. Qed.

Lemma plains_step cl hb ch st lg hs t :
  Forall plain hs ->
  reaches (in_headers cl hb ch st lg) (lines_text hs ++ t)
    (in_headers cl hb ch st (lg ++ map RecvHdr hs)) t.
Proof.
  intros F. revert lg. induction F as [| h hs Hh F IH]; intros lg.
  - cbn [map]. rewrite app_nil_r. by split.
  - rewrite lines_text_cons. cbn [map].
    refine (reaches_trans _ _ _ _ _ _ _ _ (plain_step _ _ _ _ _ _ _ Hh) _).
    change (RecvHdr h :: map RecvHdr hs) with ([RecvHdr h] ++ map RecvHdr hs).
    rewrite app_assoc. apply IH.
Qed.
Lemma length_step n st lg t :
  0 <= n <= SIZE_MAX ->
  reaches (in_headers SIZE_MAX true false st lg) (content_length_line n ++ crlf ++ t)
    (in_headers n (negb (n =? 0)) false st (lg ++ [RecvHdr (content_length_line n)])) t.
Proof.
  intros Hn. set (h := content_length_line n).
  assert (Hc : clean h).
  { apply text_app_clean; [repeat constructor; done | apply dec_clean]. }
  assert (Hl : (length h <= 1020)%nat).
  { unfold h, content_length_line. rewrite length_app. pose proof (dec_length n).
    change (length (text "Content-Length: ")) with 16%nat. lia. }
  pose proof (reaches_line false garbage (in_headers SIZE_MAX true false st lg) h t eq_refl eq_refl
    ltac:(done) Hc Hl) as H.
  assert (E : end_line false garbage (set_line h (in_headers SIZE_MAX true false st lg))
    = in_headers n (negb (n =? 0)) false st (lg ++ [RecvHdr h])).
  { change (end_line false garbage (set_line h (in_headers SIZE_MAX true false st lg)))
      with (set_line [] (header_line (fun _ => false) (set_line h (in_headers SIZE_MAX true false st lg)))).
    unfold header_line. cbn [line set_line]. rewrite cstr_clean by done.
    change (prefix_nocase (bytes_of_string "content-length:") h) with (Some (32 :: dec n)).
    cbn zeta iota. pose proof (strtoul_space n [] Hn ltac:(by left)) as Ev. rewrite app_nil_r in Ev.
    rewrite Ev. cbn [fst]. destruct (Z.eqb_spec n 0); reflexivity. }
  rewrite <- E. exact H.
Qed.

Lemma chunked_step st lg t :
  reaches (in_headers SIZE_MAX true false st lg) (chunked_line ++ crlf ++ t)
    (in_headers SIZE_MAX true true st (lg ++ [RecvHdr chunked_line])) t.
Proof.
  pose proof (reaches_line false garbage (in_headers SIZE_MAX true false st lg) chunked_line t
    eq_refl eq_refl ltac:(done) ltac:(repeat constructor; done) ltac:(vm_compute; lia)) as H.
  exact H.
Qed.

Lemma blank_step s t :
  line_mode s = true -> line s = [] -> boundary s ->
  reaches s (crlf ++ t) (end_line false garbage (set_line [] (prep 2 s))) t.
Proof.
  intros Hm Hl Hb.
  apply (reaches_line false garbage s [] t Hm Hl Hb ltac:(constructor) ltac:(cbn; lia)).
Qed.

Lemma chunk_step n c st d lg t :
  0 <= n -> c <> [] -> n + Z.of_nat (length c) <= SIZE_MAX ->
  reaches (in_chunks n st d lg) (chunk_text c ++ t)
    (in_chunks (n + Z.of_nat (length c)) st (d ++ c) lg) t.
Proof.
  intros Hn Hc Hmax. unfold chunk_text. rewrite <- !app_assoc.
  set (k := Z.of_nat (length c)) in *.
  assert (Hk : 0 < k) by (unfold k; destruct c; [done | cbn; lia]).
  assert (Hh : clean (hex k)) by (apply numeral_clean; lia).
  assert (Hlm : line_mode (in_chunks n st d lg) = true) by apply Z.leb_refl.
  pose proof (reaches_line false garbage (in_chunks n st d lg) (hex k) (c ++ crlf ++ t) Hlm eq_refl
    ltac:(unfold boundary; cbn; lia) Hh ltac:(pose proof (numeral_length 64 16 k); unfold hex; lia)) as H1.
  set (s1 := mkRs S_REPLY_CHUNKED [] (n + k) true true st 0x10001 0 n 0 d lg).
  assert (E1 : end_line false garbage
      (set_line (hex k) (prep (Z.of_nat (length (hex k)) + 2) (in_chunks n st d lg))) = s1).
  { unfold end_line, prep. cbn [state in_chunks set_line line].
    assert (Hne : hex k <> []) by apply numeral_nonempty.
    destruct (hex k) as [| c0 l] eqn:El; [done |]. rewrite (cstr_clean _ Hh), <- El, strtoul_hex by lia.
    destruct (Z.eqb_spec k 0); [lia |]. cbn [content_length set_line in_chunks].
    assert (HM : SIZE_MAX = 2 ^ 64 - 1) by reflexivity.
    rewrite (wrap_u_small 64) by lia. reflexivity. }
  rewrite E1 in H1. refine (reaches_trans _ _ _ _ _ _ _ _ H1 _).
  pose proof (reaches_data false garbage s1 c (crlf ++ t) ltac:(by right) Hc ltac:(cbn; lia)) as H2.
  set (s2 := in_chunks (n + k) st (d ++ c) lg).
  assert (E2 : after_data c s1 = s2).
  { unfold after_data. cbn zeta. rewrite decide_False; [reflexivity |]. by intros [? _]. }
  rewrite E2 in H2. refine (reaches_trans _ _ _ _ _ _ _ _ H2 _).
  apply (blank_step s2 t); [apply Z.leb_refl | done | unfold boundary; cbn; lia].
Qed.

Lemma chunks_step n chunks st d lg t :
  0 <= n -> Forall (fun c => c <> []) chunks ->
  n + Z.of_nat (length (concat chunks)) <= SIZE_MAX ->
  reaches (in_chunks n st d lg) (concat (map chunk_text chunks) ++ t)
    (in_chunks (n + Z.of_nat (length (concat chunks))) st (d ++ concat chunks) lg) t.
Proof.
  intros Hn F. revert n d Hn. induction F as [| c chunks Hc F IH]; intros n d Hn Hmax.
  - cbn. rewrite Z.add_0_r, app_nil_r. by split.
  - cbn [map concat] in *. rewrite length_app, Nat2Z.inj_add in *. rewrite <- app_assoc.
    refine (reaches_trans _ _ _ _ _ _ _ _ (chunk_step n c st d lg _ Hn Hc ltac:(lia)) _).
    rewrite Z.add_assoc, app_assoc. apply IH; lia.
Qed.

Lemma footers_step n st fb d lg fs t :
  Forall fits fs ->
  reaches (in_footers n st fb d lg) (lines_text fs ++ t)
    (in_footers n st (fb + Z.of_nat (length (lines_text fs))) d (lg ++ map RecvFooter fs)) t.
Proof.
  intros F. revert fb lg. induction F as [| f fs Hf F IH]; intros fb lg.
  - cbn [map]. rewrite app_nil_r. change (Z.of_nat (length (lines_text []))) with 0.
    rewrite Z.add_0_r. by split.
  - rewrite lines_text_cons. cbn [map]. destruct Hf as (Hc & Hne & Hl).
    pose proof (reaches_line false garbage (in_footers n st fb d lg) f (lines_text fs ++ t)
      eq_refl eq_refl ltac:(done) Hc Hl) as H.
    assert (E : end_line false garbage (set_line f
        (prep (Z.of_nat (length f) + 2) (in_footers n st fb d lg)))
      = in_footers n st (fb + (Z.of_nat (length f) + 2)) d (lg ++ [RecvFooter f])).
    { unfold end_line, prep. cbn [state in_footers set_line line add_footer_bytes].
      destruct f; [done | reflexivity]. }
    rewrite E in H. refine (reaches_trans _ _ _ _ _ _ _ _ H _).
    change (RecvFooter f :: map RecvFooter fs) with ([RecvFooter f] ++ map RecvFooter fs).
    rewrite app_assoc.
    replace (fb + Z.of_nat (length (lines_text (f :: fs))))
      with (fb + (Z.of_nat (length f) + 2) + Z.of_nat (length (lines_text fs))); [apply IH |].
    pose proof (lines_text_cons f fs []) as El. rewrite !app_nil_r in El. rewrite El, !length_app.
    change (length crlf) with 2%nat. lia.
Qed.

(** The reply with its length. *)
Lemma length_reply_reaches st reason hs body t :
  with_body st -> clean reason -> (length reason <= 900)%nat -> Forall plain hs ->
  Z.of_nat (length body) <= SIZE_MAX ->
  let n := Z.of_nat (length body) in
  reaches start_reply (length_reply st reason hs body ++ t)
    (mkRs S_REPLY_DONE [] n (negb (n =? 0)) false st 0x10001 0 n 0 body
       (RecvStart st :: map RecvHdr (hs ++ [content_length_line n]))) t.
Proof.
  intros Hst Hr Hrl Hhs Hn n. unfold length_reply. fold n.
  rewrite <- app_assoc.
  refine (reaches_trans _ _ _ _ _ _ _ _ (status_step st reason _ Hst Hr Hrl) _).
  rewrite map_app. cbn [map].
  replace ((lines_text (hs ++ [content_length_line n]) ++ crlf ++ body) ++ t)
    with (lines_text hs ++ content_length_line n ++ crlf ++ crlf ++ body ++ t).
  2:{ unfold lines_text. rewrite map_app, concat_app. cbn [map concat]. by rewrite app_nil_r, <- !app_assoc. }
  refine (reaches_trans _ _ _ _ _ _ _ _ (plains_step _ _ _ _ _ hs _ Hhs) _).
  refine (reaches_trans _ _ _ _ _ _ _ _ (length_step n st _ _ ltac:(lia)) _).
  eapply reaches_trans; [by apply blank_step |].
  destruct body as [| b0 body].
  - change n with 0. cbn [app]. unfold end_line, prep, end_of_headers, in_headers. cbn. by split.
  - set (body' := b0 :: body) in *. assert (Hne : body' <> []) by done.
    assert (Hn0 : n <> 0) by (unfold n, body'; cbn [length]; lia).
    destruct (Z.eqb_spec n 0) as [E0 | _]; [done |]. cbn [negb].
    set (lg := [RecvStart st] ++ _).
    set (s1 := mkRs S_REPLY_DATA [] n true false st 0x10001 0 0 0 [] (lg ++ [RecvHdr (content_length_line n)])).
    change (end_line false garbage _) with s1.
    pose proof (reaches_data false garbage s1 body' t ltac:(by left) Hne
      ltac:(cbn [content_bytes content_length s1]; unfold n; lia)) as H.
    assert (E : after_data body' s1 =
      mkRs S_REPLY_DONE [] n true false st 0x10001 0 n 0 body' (lg ++ [RecvHdr (content_length_line n)])).
    { unfold after_data. cbn zeta. rewrite decide_True by (split; [done | cbn [content_bytes content_length add_content s1]; unfold n; lia]).
      unfold set_state, add_content, s1. cbn. f_equal. }
    rewrite E in H. unfold lg in *. rewrite <- app_assoc in H. exact H.
Qed.
Lemma hex_zero : text "0" = hex 0.
Proof. reflexivity. Qed.

(** The reply in chunks. *)
Lemma chunked_reply_reaches st reason hs chunks footers t :
  with_body st -> clean reason -> (length reason <= 900)%nat -> Forall plain hs ->
  Forall (fun c => c <> []) chunks -> Z.of_nat (length (concat chunks)) <= SIZE_MAX ->
  Forall fits footers ->
  let n := Z.of_nat (length (concat chunks)) in
  reaches start_reply (chunked_reply st reason hs chunks footers ++ t)
    (mkRs S_REPLY_DONE [] n true true st 0x10001 0 n (Z.of_nat (length (lines_text footers)) + 2)
       (concat chunks)
       (RecvStart st :: map RecvHdr (hs ++ [chunked_line]) ++ map RecvFooter footers)) t.
Proof.
  intros Hst Hr Hrl Hhs Hcs Hn Hfs n. unfold chunked_reply.
  rewrite <- app_assoc.
  refine (reaches_trans _ _ _ _ _ _ _ _ (status_step st reason _ Hst Hr Hrl) _).
  replace ((lines_text (hs ++ [chunked_line]) ++ crlf ++ concat (map chunk_text chunks) ++
      text "0" ++ crlf ++ lines_text footers ++ crlf) ++ t)
    with (lines_text hs ++ chunked_line ++ crlf ++ crlf ++ concat (map chunk_text chunks) ++
      text "0" ++ crlf ++ lines_text footers ++ crlf ++ t).
  2:{ unfold lines_text. rewrite map_app, concat_app. cbn [map concat].
      rewrite app_nil_r, <- !app_assoc. reflexivity. }
  refine (reaches_trans _ _ _ _ _ _ _ _ (plains_step _ _ _ _ _ hs _ Hhs) _).
  refine (reaches_trans _ _ _ _ _ _ _ _ (chunked_step st _ _) _).
  eapply reaches_trans; [by apply blank_step |].
  set (lg := ([RecvStart st] ++ map RecvHdr hs) ++ [RecvHdr chunked_line]).
  change (end_line false garbage _) with (in_chunks 0 st [] lg).
  refine (reaches_trans _ _ _ _ _ _ _ _ (chunks_step 0 chunks st [] lg _ ltac:(lia) Hcs ltac:(lia)) _).
  cbn [app]. rewrite Z.add_0_l. fold n.
  pose proof (reaches_line false garbage (in_chunks n st (concat chunks) lg) (text "0")
    (lines_text footers ++ crlf ++ t) (Z.leb_refl n) eq_refl ltac:(unfold boundary; cbn; lia)
    ltac:(repeat constructor; done) ltac:(vm_compute; lia)) as H.
  refine (reaches_trans _ _ _ _ _ _ _ _ H _).
  change (end_line false garbage _) with (in_footers n st 0 (concat chunks) lg).
  refine (reaches_trans _ _ _ _ _ _ _ _ (footers_step n st 0 (concat chunks) lg footers _ Hfs) _).
  eapply reaches_trans; [by apply blank_step |].
  rewrite Z.add_0_l. unfold lg. rewrite map_app. cbn [map app].
  change (end_line false garbage _) with
    (mkRs S_REPLY_DONE [] n true true st 0x10001 0 n (Z.of_nat (length (lines_text footers)) + 2)
       (concat chunks)
       (RecvStart st :: ((map RecvHdr hs ++ [RecvHdr chunked_line]) ++ map RecvFooter footers))).
  by split.
Qed.
End Printed.

(** ** Deliveries *)
Section Deliveries.
Context (is_head : bool) (garbage before : Z).
Hypothesis Hbefore : before <> CR.
Abbreviation run := (run is_head garbage).
Abbreviation lines_ok := (lines_ok is_head garbage).

Lemma run_stops s buf : (run s buf).2 = [] \/ state (run s buf).1 = S_REPLY_DONE.
Proof.
  revert s. induction buf as [| c buf IH]; intros s; cbn [HttpReply.run]; [by left |].
  destruct (decide (state s = S_REPLY_DONE)); [by right | apply IH].
Qed.

Lemma deliver_spec s rest bufs :
  wf s -> rest = [] \/ state s = S_REPLY_DONE -> Forall (fun b => b <> []) bufs ->
  lines_ok s (rest ++ concat bufs) ->
  exists s' rest', deliver is_head garbage before s rest bufs = Ret (s', rest') /\
    run (forget s) (rest ++ concat bufs) = (forget s', rest') /\ wf s'.
Proof.
  intros Hwf Hr F. revert s rest Hwf Hr.
  induction F as [| b bufs Hb F IH]; intros s rest Hwf Hr Hok.
  - exists s, rest. split; [done |]. split; [| done]. cbn [concat]. rewrite app_nil_r.
    destruct Hr as [-> | Hd]; [done |]. by apply run_done.
  - cbn [deliver concat] in *. rewrite app_assoc in *.
    destruct (lines_ok_app is_head garbage s (rest ++ b) (concat bufs) Hok) as [Ha Hb'].
    destruct (reply_bytes_aux is_head garbage before Hbefore s (rest ++ b))
      as (s1 & r1 & E1 & Er1 & W1 & _); [done | by destruct rest, b | done |].
    change (fun _ : ev => false) with quiet in E1. rewrite E1, bind_Ret.
    rewrite run_app. rewrite Er1. cbn [fst snd].
    rewrite run_forget in Er1. apply pair_eq in Er1 as [Ef Er1].
    assert (Hstop := run_stops s (rest ++ b)). rewrite Er1 in Hstop, Hb'.
    assert (Es : state s1 = state (run s (rest ++ b)).1).
    { change (state (forget s1) = state (forget (run s (rest ++ b)).1)). by rewrite Ef. }
    apply IH; [done | by rewrite Es |].
    apply lines_ok_forget. rewrite <- Ef. by apply lines_ok_forget.
Qed.
End Deliveries.

Lemma start_wf : wf start_reply.
Proof. constructor; cbn; try done; lia. Qed.

(** ** The claims *)

(** C2: On every non-empty buffer, whatever its bytes, in every state of a reply whose numbers are in
    the range of their types, and with handlers that do not close the connection, the parser
    returns, its numbers in range, and leaves bytes only behind a complete reply.  (The byte in
    front of the line buffer, which it may read, is not a carriage return.)  When the state is
    one of a reply in progress and the bytes keep to the bounds of [lines_ok] (lines of less
    than 1022 bytes without NUL, sizes of chunks that add up below 2^64), it leaves the state
    and the bytes that the byte-at-a-time automaton leaves, and has counted as header bytes
    those of the headers and of a status line that ends in this buffer. *)
Theorem reply_bytes_is_bytewise is_head garbage before s buf
    (Hbefore : before <> CR) (Hfine : HttpReplyTotal.fine s) (Hne : buf <> []) :
  exists s' rest,
    http_process_reply_bytes (fun _ => false) is_head garbage before s buf = Ret (s', rest) /\
    HttpReplyTotal.fine s' /\ (rest = [] \/ state s' = S_REPLY_DONE) /\
    (wf s -> lines_ok is_head garbage s buf ->
       run is_head garbage (forget s) buf = (forget s', rest) /\ wf s' /\
       header_bytes s' = header_bytes s + header_count is_head garbage 0 s buf).
Proof.
  destruct (HttpReplyTotal.reply_bytes_returns is_head garbage before s buf Hbefore Hfine Hne)
    as (s' & rest & E & F & _ & D & _).
  exists s', rest. split_and!; [exact E | exact F | exact D |]. intros Hwf Hok.
  destruct (reply_bytes_aux is_head garbage before Hbefore s buf Hwf Hne Hok) as (s2 & r2 & E2 & H).
  rewrite E2 in E. by injection E as <- <-.
Qed.

(** However the network cuts a reply into buffers, the parser ends in the
    same state with the same bytes left. *)
Theorem fragmentation_irrelevant is_head garbage before s bufs bufs'
    (Hbefore : before <> CR) (Hwf : wf s)
    (Hne : Forall (fun b => b <> []) bufs) (Hne' : Forall (fun b => b <> []) bufs')
    (Hsame : concat bufs = concat bufs') (Hok : lines_ok is_head garbage s (concat bufs)) :
  exists s1 s2 rest,
    deliver is_head garbage before s [] bufs = Ret (s1, rest) /\
    deliver is_head garbage before s [] bufs' = Ret (s2, rest) /\ forget s1 = forget s2.
Proof.
  destruct (deliver_spec is_head garbage before Hbefore s [] bufs) as (s1 & r1 & E1 & Er1 & _);
    [done | by left | done | done |].
  destruct (deliver_spec is_head garbage before Hbefore s [] bufs') as (s2 & r2 & E2 & Er2 & _);
    [done | by left | done | by rewrite <- Hsame |].
  cbn [app] in Er1, Er2. rewrite Hsame, Er2 in Er1. apply pair_eq in Er1 as [Ef Er].
  exists s1, s2, r1. split; [done |]. split; [congruence |]. done.
Qed.

(** A reply printed with its Content-Length, delivered in any cut with
    more bytes behind it, is read back: status, version, headers and body, and
    the bytes behind it are left. *)
Theorem length_reply_read_back garbage before st reason hs body tail bufs
    (Hbefore : before <> CR) (Hst : with_body st) (Hr : clean reason)
    (Hrl : (length reason <= 900)%nat) (Hhs : Forall plain hs)
    (Hbody : Z.of_nat (length body) <= SIZE_MAX)
    (Hne : Forall (fun b => b <> []) bufs)
    (Hbufs : concat bufs = length_reply st reason hs body ++ tail) :
  exists s, deliver false garbage before start_reply [] bufs = Ret (s, tail) /\
    state s = S_REPLY_DONE /\ status s = st /\ version s = 0x10001 /\ data s = body /\
    content_bytes s = Z.of_nat (length body) /\
    log s = RecvStart st :: map RecvHdr (hs ++ [content_length_line (Z.of_nat (length body))]).
Proof.
  destruct (length_reply_reaches garbage st reason hs body tail Hst Hr Hrl Hhs Hbody) as [Hok Er].
  destruct (deliver_spec false garbage before Hbefore start_reply [] bufs) as (s & r & E & Ef & _).
  - apply start_wf.
  - by left.
  - done.
  - cbn [app]. rewrite Hbufs. apply Hok. destruct tail; [done | by left].
  - cbn [app] in Ef. rewrite Hbufs in Ef. change (forget start_reply) with start_reply in Ef.
    rewrite Er, run_done in Ef by done. injection Ef as E1 E2 E3 E4 E5 E6 E7 E8 E9 E10 E11 E12.
    subst r. exists s. by repeat split.
Qed.

(** C22: a reply printed in chunks with footers, delivered in any cut with more
    bytes behind it, is read back: the body is the chunks put together, the
    footer bytes are counted, and the bytes behind it are left. *)
Theorem chunked_reply_read_back garbage before st reason hs chunks footers tail bufs
    (Hbefore : before <> CR) (Hst : with_body st) (Hr : clean reason)
    (Hrl : (length reason <= 900)%nat) (Hhs : Forall plain hs)
    (Hcs : Forall (fun c => c <> []) chunks)
    (Hsize : Z.of_nat (length (concat chunks)) <= SIZE_MAX) (Hfs : Forall fits footers)
    (Hne : Forall (fun b => b <> []) bufs)
    (Hbufs : concat bufs = chunked_reply st reason hs chunks footers ++ tail) :
  exists s, deliver false garbage before start_reply [] bufs = Ret (s, tail) /\
    state s = S_REPLY_DONE /\ status s = st /\ version s = 0x10001 /\ data s = concat chunks /\
    content_bytes s = Z.of_nat (length (concat chunks)) /\
    footer_bytes s = Z.of_nat (length (lines_text footers)) + 2 /\
    log s = RecvStart st :: map RecvHdr (hs ++ [chunked_line]) ++ map RecvFooter footers.
Proof.
  destruct (chunked_reply_reaches garbage st reason hs chunks footers tail Hst Hr Hrl Hhs Hcs Hsize Hfs)
    as [Hok Er].
  destruct (deliver_spec false garbage before Hbefore start_reply [] bufs) as (s & r & E & Ef & _).
  - apply start_wf.
  - by left.
  - done.
  - cbn [app]. rewrite Hbufs. apply Hok. destruct tail; [done | by left].
  - cbn [app] in Ef. rewrite Hbufs in Ef. change (forget start_reply) with start_reply in Ef.
    rewrite Er, run_done in Ef by done. injection Ef as E1 E2 E3 E4 E5 E6 E7 E8 E9 E10 E11 E12.
    subst r. exists s. by repeat split.
Qed.

(** *** Witnesses *)
Definition page : list Z :=
  length_reply 200 (text "OK") [text "Server: test"] (text "hello").
Definition stream : list Z :=
  chunked_reply 200 (text "OK") [] [text "hello "; text "world"] [text "X-Sum: 1"].

Lemma clean_bool l : forallb (fun c => negb (c =? LF) && negb (c =? 0)) l = true -> clean l.
Proof.
  intros H. apply Forall_forall. intros c Hc. apply list_elem_of_In in Hc.
  rewrite forallb_forall in H. apply H in Hc. rewrite andb_true_iff, !negb_true_iff, !Z.eqb_neq in Hc.
  exact Hc.
Qed.

Lemma page_ok : lines_ok false 0 start_reply page.
Proof.
  destruct (length_reply_reaches 0 200 (text "OK") [text "Server: test"] (text "hello") [])
    as [Hok _].
  - repeat split; lia.
  - by apply clean_bool.
  - cbn. lia.
  - constructor; [| constructor]. split; [| by split].
    split; [by apply clean_bool |]. split; [done | cbn; lia].
  - vm_compute. congruence.
  - rewrite app_nil_r in Hok. by apply Hok.
Qed.

(** A page, and bytes that are no reply at all. *)
Lemma reply_bytes_is_bytewise_witness :
  (exists s' rest,
    http_process_reply_bytes (fun _ => false) false 0 0 start_reply page = Ret (s', rest) /\
    run false 0 (forget start_reply) page = (forget s', rest) /\ wf s' /\ header_bytes s' = 52) /\
  (exists s' rest,
    http_process_reply_bytes (fun _ => false) false 0 0 start_reply [0; 10; 13; 10; 7; 0; 10] = Ret (s', rest) /\
    (rest = [] \/ state s' = S_REPLY_DONE)).
Proof.
  assert (F : HttpReplyTotal.fine start_reply) by (unfold HttpReplyTotal.fine, SIZE_MAX; cbn; repeat split; lia).
  split.
  - destruct (reply_bytes_is_bytewise false 0 0 start_reply page) as (s' & rest & E & _ & _ & H);
      [done | exact F | done |].
    destruct (H start_wf page_ok) as (H1 & H2 & H3). exists s', rest. split; [exact E |]. split; [exact H1 |].
    split; [exact H2 |]. rewrite H3. vm_compute. reflexivity.
  - destruct (reply_bytes_is_bytewise false 0 0 start_reply [0; 10; 13; 10; 7; 0; 10]) as (s' & rest & E & _ & D & _);
      [done | exact F | done |]. exists s', rest. split; [exact E | exact D].
Defined.

Lemma fragmentation_irrelevant_witness :
  exists s1 s2 rest,
    deliver false 0 0 start_reply [] [take 7 page; drop 7 page] = Ret (s1, rest) /\
    deliver false 0 0 start_reply [] [page] = Ret (s2, rest) /\ forget s1 = forget s2.
Proof.
  apply (fragmentation_irrelevant false 0 0 start_reply [take 7 page; drop 7 page] [page]);
    [done | apply start_wf | by repeat constructor | by repeat constructor | reflexivity
    | apply page_ok].
Defined.

Lemma length_reply_read_back_witness :
  exists s, deliver false 0 0 start_reply [] [take 7 page; drop 7 page ++ text "next"] = Ret (s, text "next") /\
    state s = S_REPLY_DONE /\ status s = 200 /\ version s = 0x10001 /\ data s = text "hello" /\
    content_bytes s = 5 /\
    log s = RecvStart 200 :: map RecvHdr [text "Server: test"; text "Content-Length: 5"].
Proof.
  apply (length_reply_read_back 0 0 200 (text "OK") [text "Server: test"] (text "hello") (text "next")
    [take 7 page; drop 7 page ++ text "next"]).
  - done.
  - repeat split; lia.
  - by apply clean_bool.
  - cbn. lia.
  - constructor; [| constructor]. split; [| by split].
    split; [by apply clean_bool |]. split; [done | cbn; lia].
  - vm_compute. congruence.
  - by repeat constructor.
  - reflexivity.
Defined.

Lemma chunked_reply_read_back_witness :
  exists s, deliver false 0 0 start_reply [] [take 60 stream; drop 60 stream ++ text "next"]
      = Ret (s, text "next") /\
    state s = S_REPLY_DONE /\ status s = 200 /\ version s = 0x10001 /\
    data s = text "hello world" /\ content_bytes s = 11 /\ footer_bytes s = 12 /\
    log s = [RecvStart 200; RecvHdr chunked_line; RecvFooter (text "X-Sum: 1")].
Proof.
  apply (chunked_reply_read_back 0 0 200 (text "OK") [] [text "hello "; text "world"]
    [text "X-Sum: 1"] (text "next") [take 60 stream; drop 60 stream ++ text "next"]).
  - done.
  - repeat split; lia.
  - by apply clean_bool.
  - cbn. lia.
  - constructor.
  - by repeat constructor.
  - vm_compute. congruence.
  - constructor; [| constructor]. split; [by apply clean_bool |]. split; [done | cbn; lia].
  - by repeat constructor.
  - reflexivity.
Defined.

(** ** What the parser does not do *)

(** The bytes of a status line that comes in two buffers are not all counted:
    [parse_status_line] returns in front of the label [done] after the first. *)
Lemma split_status_line_undercounts :
  match deliver false 0 0 start_reply [] [page], deliver false 0 0 start_reply [] [take 7 page; drop 7 page] with
  | Ret (s1, _), Ret (s2, _) => header_bytes s1 = header_bytes s2 + 7
  | _, _ => False
  end.
Proof. vm_compute. reflexivity. Qed.

(** After "100 Continue" the parser goes to the headers, not to a status line:
    the final status line is a header, and the reply ends with the status 100. *)
Lemma continue_hides_final_status :
  match deliver false 0 0 start_reply []
    [text "HTTP/1.1 100 Continue" ++ crlf ++ crlf ++ text "HTTP/1.1 200 OK" ++ crlf ++ crlf] with
  | Ret (s, rest) =>
      state s = S_REPLY_DONE /\ status s = 100 /\ rest = [] /\
      log s = [RecvStart 100; RecvHdr (text "HTTP/1.1 200 OK")]
  | _ => False
  end.
Proof. vm_compute. by repeat split. Qed.

(** When the status line does not parse, what follows depends on the value an
    uninitialised variable had. *)
Lemma bad_status_line_depends_on_garbage :
  match deliver false 100 0 start_reply [] [text "ICY 200 OK" ++ crlf],
        deliver false 200 0 start_reply [] [text "ICY 200 OK" ++ crlf] with
  | Ret (s1, _), Ret (s2, _) => state s1 = S_REPLY_CONTINUE /\ state s2 = S_REPLY_HEADER
  | _, _ => False
  end.
Proof. vm_compute. by split. Qed.

End HttpReplyTheorems.
