(* ===== verification/Ports.v ===== *)
(** * httperf/src/core.c: the map of free local ports

    [port_put], [port_get] and [lffs] over the bit map of the ports from 1024 to
    65535, one bit for each, in words of 64 bits.  [lffs] looks at the upper half
    of a word only when the macro [SIZEOF_LONG] says that a [long] has more than
    four bytes; the macro is an argument, because configure.ac no longer defines
    it, and the preprocessor takes an undefined macro for 0.  The abstract
    specification is a set of free ports that is searched from the port after
    the last one handed out. *)
From S2P Require Import Prelude.

Module Ports.

Definition MIN_IP_PORT : Z := 1024.
Definition MAX_IP_PORT : Z := 65535.
Definition BITSPERLONG : Z := 64.
(** [NELEMS (port_free_map)] *)
Definition NELEMS : nat := Z.to_nat ((MAX_IP_PORT - MIN_IP_PORT + BITSPERLONG) / BITSPERLONG).

(** The map and the two statics of [port_get]. *)
Record st := mkSt { port_free_map : list Z; mask : Z; previous : nat }.

(** After [core_init]: [memset (&port_free_map, 0xff, ...)]. *)
Definition ones : Z := 2 ^ 64 - 1.
Definition core_init : st := mkSt (replicate NELEMS ones) ones 0.

(** [ffs] of the low 32 bits: the number of the lowest bit, from 1. *)
Fixpoint ffs_from (n : nat) (b w : Z) : Z :=
  match n with
  | O => 0
  | S n => if Z.testbit w b then b + 1 else ffs_from n (b + 1) w
  end.
Definition ffs (w : Z) : Z := ffs_from 32 0 w.

Section Code.
Context (SIZEOF_LONG : Z).

Definition lffs (w : Z) : Z :=
  let r := ffs w in
  if 4 <? SIZEOF_LONG then
    if r =? 0 then
      let r := ffs (Z.shiftr (i64 w) 32) in
      if 0 <? r then r + 32 else r
    else r
  else r.

(** [1UL << n] *)
Definition shift1 (n : Z) : cres Z :=
  if (0 <=? n) && (n <? 64) then Ret (Z.shiftl 1 n) else Undef.

Definition port_put (port : Z) (s : st) : cres st :=
  let port := u64 (port - MIN_IP_PORT) in
  w ← deref (aget (port_free_map s) (port / BITSPERLONG));
  b ← shift1 (port mod BITSPERLONG);
  Ret (mkSt (<[Z.to_nat (port / BITSPERLONG) := Z.lor w b]> (port_free_map s)) (mask s) (previous s)).

(** [do { ++i; ... } while (port_free_map[i] == 0)]; [None] when out of ports. *)
Fixpoint scan (fuel : nat) (map : list Z) (previous i : nat) : cres (option nat) :=
  match fuel with
  | O => NoFuel
  | S fuel =>
      let i := if (NELEMS <=? S i)%nat then O else S i in
      if (i =? previous)%nat then Ret None
      else
        w ← deref (map !! i);
        if w =? 0 then scan fuel map previous i else Ret (Some i)
  end.

Definition port_get (s : st) : cres (Z * st) :=
  w ← deref (port_free_map s !! previous s);
  found ← (if Z.land w (mask s) =? 0 then
             r ← scan NELEMS (port_free_map s) (previous s) (previous s);
             Ret (match r with Some i => Some (i, ones) | None => None end)
           else Ret (Some (previous s, mask s)));
  match found with
  | None => Ret (-1, s)
  | Some (i, m) =>
      w ← deref (port_free_map s !! i);
      let bit := lffs (Z.land w m) - 1 in
      m' ← (if BITSPERLONG - 1 <=? u64 bit then Ret 0
            else b ← shift1 (bit + 1); Ret (u64 (Z.lnot (b - 1))));
      b ← shift1 bit;
      Ret (i32 (bit + Z.of_nat i * BITSPERLONG + MIN_IP_PORT),
           mkSt (<[i := Z.land w (u64 (Z.lnot b))]> (port_free_map s)) m' i)
  end.
End Code.

(** ** The specification *)
(** The free ports and the last port handed out, 1023 at first. *)
Record spec := mkSpec { free : gset Z; last : Z }.
Definition spec_init : spec := mkSpec (list_to_set (seqZ 1024 64512)) 1023.

(** The ports [port_get] looks at, in order: those after the last one, and then
    those in front of the word of the last one. *)
Definition candidates (last : Z) : list Z :=
  seqZ (last + 1) (65535 - last) ++ seqZ 1024 (64 * Z.max 0 ((last - 1024) / 64)).

Definition spec_get (x : spec) : Z * spec :=
  match list_find (fun p => p ∈ free x) (candidates (last x)) with
  | Some (_, p) => (p, mkSpec (free x ∖ {[p]}) p)
  | None => (-1, x)
  end.
Definition spec_put (p : Z) (x : spec) : spec := mkSpec (free x ∪ {[p]}) (last x).

Inductive op := Get | Put (p : Z).
Definition valid (o : op) : Prop := match o with Get => True | Put p => 1024 <= p <= 65535 end.

Definition run_op (SIZEOF_LONG : Z) (o : op) (s : st) : cres (list Z * st) :=
  match o with
  | Get => '(p, s) ← port_get SIZEOF_LONG s; Ret ([p], s)
  | Put p => s ← port_put p s; Ret ([], s)
  end.
Fixpoint run_ops (SIZEOF_LONG : Z) (os : list op) (s : st) : cres (list Z * st) :=
  match os with
  | [] => Ret ([], s)
  | o :: os =>
      '(a, s) ← run_op SIZEOF_LONG o s;
      '(b, s) ← run_ops SIZEOF_LONG os s;
      Ret (a ++ b, s)
  end.

Definition spec_op (o : op) (x : spec) : list Z * spec :=
  match o with
  | Get => let '(p, x) := spec_get x in ([p], x)
  | Put p => ([], spec_put p x)
  end.
Fixpoint spec_ops (os : list op) (x : spec) : list Z * spec :=
  match os with
  | [] => ([], x)
  | o :: os => let '(a, x) := spec_op o x in let '(b, x) := spec_ops os x in (a ++ b, x)
  end.

Example first_ports :
  (fun r => match r with Ret (l, _) => l | _ => [] end)
    (run_ops 8 [Get; Get; Put 1024; Get; Get] core_init) = [1024; 1025; 1026; 1027].
Proof. vm_compute. reflexivity. Qed.

(** ** The lowest bit of a word *)
Lemma ffs_from_spec n b w :
  0 <= b ->
  (ffs_from n b w = 0 /\ forall c, b <= c < b + Z.of_nat n -> Z.testbit w c = false) \/
  exists k, ffs_from n b w = k + 1 /\ b <= k < b + Z.of_nat n /\ Z.testbit w k = true /\
    forall c, b <= c < k -> Z.testbit w c = false.
Proof.
  revert b. induction n as [| n IH]; intros b Hb; cbn [ffs_from]; [left; split; [done | lia] |].
  destruct (Z.testbit w b) eqn:E.
  - right. exists b. split; [done |]. split; [lia |]. split; [done | lia].
  - destruct (IH (b + 1) ltac:(lia)) as [[E0 H] | (k & E1 & Hk & Et & H)].
    + left. split; [done |]. intros c Hc. destruct (Z.eq_dec c b) as [-> |]; [done | apply H; lia].
    + right. exists k. split; [done |]. split; [lia |]. split; [done |]. intros c Hc.
      destruct (Z.eq_dec c b) as [-> |]; [done | apply H; lia].
Qed.

Lemma testbit_i64 w i : 0 <= w < 2 ^ 64 -> 0 <= i < 64 -> Z.testbit (i64 w) i = Z.testbit w i.
Proof.
  intros Hw Hi. rewrite <- (Z.mod_pow2_bits_low (i64 w) 64 i) by lia.
  unfold wrap_s. rewrite (Z.mod_small w) by lia. destruct (w <? 2 ^ (64 - 1)).
  - by rewrite Z.mod_small by lia.
  - replace (w - 2 ^ 64) with (w + (-1) * 2 ^ 64) by lia. by rewrite Z.mod_add, Z.mod_small by lia.
Qed.

Lemma word_zero w : 0 <= w < 2 ^ 64 -> (forall b, 0 <= b < 64 -> Z.testbit w b = false) -> w = 0.
Proof.
  intros Hw H. apply Z.bits_inj'. intros i Hi. rewrite Z.bits_0.
  destruct (Z.lt_ge_cases i 64); [apply H; lia | by apply (testbit_above 64)].
Qed.

Lemma lffs_spec w :
  0 < w < 2 ^ 64 ->
  exists b, lffs 8 w = b + 1 /\ 0 <= b < 64 /\ Z.testbit w b = true /\
    forall c, 0 <= c < b -> Z.testbit w c = false.
Proof.
  intros Hw. unfold lffs, ffs. change (4 <? 8) with true. cbn iota.
  destruct (ffs_from_spec 32 0 w ltac:(lia)) as [[E0 H] | (k & E1 & Hk & Et & H)].
  2:{ rewrite E1. destruct (Z.eqb_spec (k + 1) 0); [lia |].
      exists k. split; [done |]. split; [lia |]. by split. }
  rewrite E0. cbn [Z.eqb].
  destruct (ffs_from_spec 32 0 (Z.shiftr (i64 w) 32) ltac:(lia)) as [[E1 H1] | (k & E1 & Hk & Et & H1)].
  - exfalso. assert (w = 0); [| lia]. apply word_zero; [lia |]. intros b Hb.
    destruct (Z.lt_ge_cases b 32); [apply H; lia |].
    specialize (H1 (b - 32) ltac:(lia)). rewrite Z.shiftr_spec, testbit_i64 in H1 by lia.
    by replace (b - 32 + 32) with b in H1 by lia.
  - rewrite E1. destruct (Z.ltb_spec 0 (k + 1)); [| lia].
    rewrite Z.shiftr_spec, testbit_i64 in Et by lia.
    exists (k + 32). split; [lia |]. split; [lia |]. split; [done |]. intros c Hc.
    destruct (Z.lt_ge_cases c 32); [apply H; lia |].
    specialize (H1 (c - 32) ltac:(lia)). rewrite Z.shiftr_spec, testbit_i64 in H1 by lia.
    by replace (c - 32 + 32) with c in H1 by lia.
Qed.

Lemma shift1_Ret n : 0 <= n < 64 -> shift1 n = Ret (2 ^ n).
Proof.
  intros Hn. unfold shift1. destruct (Z.leb_spec 0 n), (Z.ltb_spec n 64); try lia.
  cbn [andb]. by rewrite Z.shiftl_mul_pow2, Z.mul_1_l by lia.
Qed.

Lemma testbit_pow2 n b : 0 <= n -> Z.testbit (2 ^ n) b = (b =? n).
Proof. intros Hn. rewrite Z.pow2_bits_eqb by done. apply Z.eqb_sym. Qed.

(** ** The relation between the map and the set *)
Definition word (map : list Z) (i : nat) : Z := default 0 (map !! i).
Definition port_of (i : nat) (b : Z) : Z := 1024 + 64 * Z.of_nat i + b.
Definition bit_of (map : list Z) (p : Z) : bool :=
  Z.testbit (word map (Z.to_nat ((p - 1024) / 64))) ((p - 1024) mod 64).

Record rel (s : st) (x : spec) : Prop := {
  r_len : length (port_free_map s) = NELEMS;
  r_words : forall i, 0 <= word (port_free_map s) i < 2 ^ 64;
  r_last : 1023 <= last x <= 65535;
  r_prev : Z.of_nat (previous s) = Z.max 0 ((last x - 1024) / 64);
  r_range : 0 <= mask s < 2 ^ 64;
  r_mask : forall b, 0 <= b < 64 -> Z.testbit (mask s) b = (last x <? port_of (previous s) b);
  r_free : forall p, p ∈ free x <-> 1024 <= p <= 65535 /\ bit_of (port_free_map s) p = true
}.

Lemma bit_of_port map i b : 0 <= b < 64 -> bit_of map (port_of i b) = Z.testbit (word map i) b.
Proof.
  intros Hb. unfold bit_of, port_of.
  replace (1024 + 64 * Z.of_nat i + b - 1024) with (b + Z.of_nat i * 64) by lia.
  rewrite Z.div_add, Z.mod_add, Z.div_small, Z.mod_small by lia.
  by replace (Z.to_nat (0 + Z.of_nat i)) with i by lia.
Qed.

(** Every port is the port of a bit of a word. *)
Lemma port_split p :
  1024 <= p <= 65535 -> exists i b, p = port_of i b /\ 0 <= b < 64 /\ (i < NELEMS)%nat.
Proof.
  intros Hp. exists (Z.to_nat ((p - 1024) / 64)), ((p - 1024) mod 64). unfold port_of.
  change NELEMS with 1008%nat. split; [zdiv |]. split; [zdiv | zdiv].
Qed.

Lemma lookup_word map i : (i < length map)%nat -> map !! i = Some (word map i).
Proof.
  intros Hi. unfold word. destruct (lookup_lt_is_Some_2 map i Hi) as [w E]. by rewrite E.
Qed.

Lemma word_insert map i j w :
  (i < length map)%nat -> word (<[i := w]> map) j = if decide (i = j) then w else word map j.
Proof.
  intros Hi. unfold word. destruct (decide (i = j)) as [<- | Hne].
  - by rewrite list_lookup_insert_eq.
  - by rewrite list_lookup_insert_ne.
Qed.

(** ** Handing out the lowest bit of a masked word *)
Definition take_bit (i : nat) (m : Z) (s : st) : cres (Z * st) :=
  w ← deref (port_free_map s !! i);
  let bit := lffs 8 (Z.land w m) - 1 in
  m' ← (if BITSPERLONG - 1 <=? u64 bit then Ret 0
        else b ← shift1 (bit + 1); Ret (u64 (Z.lnot (b - 1))));
  b ← shift1 bit;
  Ret (i32 (bit + Z.of_nat i * BITSPERLONG + MIN_IP_PORT),
       mkSt (<[i := Z.land w (u64 (Z.lnot b))]> (port_free_map s)) m' i).

Lemma mask_above bit b : 0 <= bit < 63 -> 0 <= b < 64 ->
  Z.testbit (u64 (Z.lnot (2 ^ (bit + 1) - 1))) b = (bit <? b).
Proof.
  intros Hbit Hb. rewrite testbit_wrap_u, Z.lnot_spec by lia.
  replace (2 ^ (bit + 1) - 1) with (Z.ones (bit + 1)) by (rewrite Z.ones_equiv; lia).
  destruct (Z.ltb_spec b 64); [| lia]. cbn [andb].
  destruct (Z.ltb_spec bit b); [rewrite Z.ones_spec_high | rewrite Z.ones_spec_low]; (done || lia).
Qed.

Lemma testbit_clear w bit b : 0 <= bit < 64 -> 0 <= b < 64 ->
  Z.testbit (Z.land w (u64 (Z.lnot (2 ^ bit)))) b = Z.testbit w b && negb (b =? bit).
Proof.
  intros Hbit Hb. rewrite Z.land_spec, testbit_wrap_u, Z.lnot_spec, testbit_pow2 by lia.
  destruct (Z.ltb_spec b 64); [done | lia].
Qed.

Lemma take_bit_spec i m s x :
  rel s x -> (i < NELEMS)%nat -> 0 <= m < 2 ^ 64 ->
  Z.land (word (port_free_map s) i) m <> 0 ->
  exists bit s', take_bit i m s = Ret (port_of i bit, s') /\ 0 <= bit < 64 /\
    Z.testbit (word (port_free_map s) i) bit = true /\ Z.testbit m bit = true /\
    (forall c, 0 <= c < bit -> Z.testbit (word (port_free_map s) i) c && Z.testbit m c = false) /\
    rel s' (mkSpec (free x ∖ {[port_of i bit]}) (port_of i bit)).
Proof.
  intros [Hl Hw Hla Hpr Hra Hma Hfr] Hi Hm Hne. set (w := word (port_free_map s) i) in *.
  pose proof (land_range 64 w m ltac:(lia) Hm) as Hwm.
  destruct (lffs_spec (Z.land w m) ltac:(lia)) as (bit & El & Hb & Et & Hlow).
  rewrite Z.land_spec, andb_true_iff in Et. destruct Et as [Etw Etm].
  assert (Hilt : (i < length (port_free_map s))%nat) by lia.
  assert (Hi' : Z.of_nat i <= 1007) by (change NELEMS with 1008%nat in Hi; lia).
  set (m' := if 63 <=? bit then 0 else u64 (Z.lnot (2 ^ (bit + 1) - 1))).
  exists bit, (mkSt (<[i := Z.land w (u64 (Z.lnot (2 ^ bit)))]> (port_free_map s)) m' i).
  assert (E : take_bit i m s = Ret (port_of i bit,
    mkSt (<[i := Z.land w (u64 (Z.lnot (2 ^ bit)))]> (port_free_map s)) m' i)).
  { unfold take_bit. rewrite (lookup_word _ i Hilt). cbn [deref]. rewrite bind_Ret. fold w.
    rewrite El. replace (bit + 1 - 1) with bit by lia.
    rewrite (wrap_u_small 64 bit), (shift1_Ret bit) by lia. unfold m', BITSPERLONG.
    change (64 - 1) with 63.
    assert (Ei : i32 (bit + Z.of_nat i * 64 + MIN_IP_PORT) = port_of i bit).
    { rewrite i32_small; unfold MIN_IP_PORT, port_of, is_int, INT_MIN, INT_MAX; lia. }
    destruct (Z.leb_spec 63 bit).
    - rewrite !bind_Ret. by rewrite Ei.
    - rewrite shift1_Ret by lia. rewrite !bind_Ret. by rewrite Ei. }
  split; [exact E |]. split; [done |]. split; [done |]. split; [done |].
  split; [intros c Hc; rewrite <- Z.land_spec; by apply Hlow |].
  assert (Hp : 1024 <= port_of i bit <= 65535) by (unfold port_of; lia).
  constructor; cbn [port_free_map mask previous free last].
  - by rewrite length_insert.
  - intros j. rewrite word_insert by done. destruct (decide (i = j)); [| apply Hw].
    rewrite Z.land_comm. apply land_range; [lia |]. apply Hw.
  - lia.
  - unfold port_of. zdiv.
  - unfold m'. destruct (63 <=? bit); [lia | apply wrap_u_range; lia].
  - intros b Hb'. unfold m', port_of. destruct (Z.leb_spec 63 bit).
    + rewrite Z.bits_0. symmetry. apply Z.ltb_ge. lia.
    + rewrite mask_above by lia. cbn [last]. destruct (Z.ltb_spec bit b); symmetry;
        [apply Z.ltb_lt | apply Z.ltb_ge]; lia.
  - intros p. rewrite elem_of_difference, elem_of_singleton, Hfr.
    split; [intros [[Hr Hbit] Hn] | intros [Hr Hbit]].
    + split; [done |]. destruct (port_split p Hr) as (j & b & -> & Hb' & Hj).
      rewrite bit_of_port, word_insert in * by done.
      destruct (decide (i = j)) as [<- |]; [| done]. rewrite testbit_clear by lia.
      fold w in Hbit. rewrite Hbit. destruct (Z.eqb_spec b bit) as [-> |]; done.
    + destruct (port_split p Hr) as (j & b & -> & Hb' & Hj).
      rewrite bit_of_port, word_insert in * by done.
      destruct (decide (i = j)) as [<- | Hij].
      * rewrite testbit_clear in Hbit by lia. apply andb_true_iff in Hbit as [Hbit Hn].
        split; [done |]. intros E'. apply negb_true_iff, Z.eqb_neq in Hn. unfold port_of in E'. lia.
      * split; [done |]. unfold port_of. lia.
Qed.

Lemma port_put_spec p s x :
  rel s x -> 1024 <= p <= 65535 ->
  exists s', port_put p s = Ret s' /\ rel s' (spec_put p x).
Proof.
  intros [Hl Hw Hla Hpr Hra Hma Hfr] Hp.
  destruct (port_split p Hp) as (i & b & -> & Hb & Hi). set (w := word (port_free_map s) i) in *.
  assert (Hilt : (i < length (port_free_map s))%nat) by lia.
  eexists. split.
  - unfold port_put, MIN_IP_PORT, BITSPERLONG. rewrite (wrap_u_small 64) by lia.
    replace (port_of i b - 1024) with (b + Z.of_nat i * 64) by (unfold port_of; lia).
    rewrite Z.div_add, Z.mod_add, Z.div_small, Z.mod_small by lia. rewrite Z.add_0_l.
    unfold aget. rewrite (proj2 (Z.leb_le _ _)) by lia. rewrite Nat2Z.id, (lookup_word _ i Hilt). fold w.
    cbn [deref]. rewrite bind_Ret, shift1_Ret, bind_Ret by lia. reflexivity.
  - constructor; cbn [port_free_map mask previous free last spec_put]; try done.
    + by rewrite length_insert.
    + intros j. rewrite word_insert by done. destruct (decide (i = j)); [| apply Hw].
      apply lor_range; [lia | apply Hw |]. split; [lia |]. apply Z.pow_lt_mono_r; lia.
    + intros q. rewrite elem_of_union, elem_of_singleton, Hfr.
      assert (Hbq : 1024 <= q <= 65535 -> bit_of (<[i := Z.lor w (2 ^ b)]> (port_free_map s)) q
        = bit_of (port_free_map s) q || (q =? port_of i b)).
      { intros Hq. destruct (port_split q Hq) as (j & c & -> & Hc & Hj).
        rewrite !bit_of_port, word_insert by done. destruct (decide (i = j)) as [<- | Hij].
        - rewrite Z.lor_spec, testbit_pow2 by lia. fold w. f_equal. unfold port_of.
          destruct (Z.eqb_spec c b), (Z.eqb_spec (1024 + 64 * Z.of_nat i + c) (1024 + 64 * Z.of_nat i + b));
            (done || lia).
        - destruct (Z.eqb_spec (port_of j c) (port_of i b)) as [E | _]; [unfold port_of in E; lia |].
          by rewrite orb_false_r. }
      split.
      * intros [[Hq Hbit] | ->]; (split; [done |]); rewrite Hbq by done.
        -- by rewrite Hbit.
        -- by rewrite Z.eqb_refl, orb_true_r.
      * intros [Hq Hbit]. rewrite Hbq in Hbit by done. apply orb_true_iff in Hbit as [? | E%Z.eqb_eq]; auto.
Qed.

(** ** The search *)
Lemma scan_low fuel map prev i :
  length map = NELEMS -> (i < prev)%nat -> (prev < NELEMS)%nat -> (prev - i <= fuel)%nat ->
  returns (fun r => match r with
    | Some j => (i < j < prev)%nat /\ word map j <> 0 /\ forall t, (i < t < j)%nat -> word map t = 0
    | None => forall t, (i < t < prev)%nat -> word map t = 0
    end) (scan fuel map prev i).
Proof.
  intros Hl. revert i. induction fuel as [| fuel IH]; intros i Hi Hp Hf; [lia |]. cbn [scan].
  rewrite (proj2 (Nat.leb_gt _ _)) by lia.
  destruct (Nat.eqb_spec (S i) prev) as [E | Hne]; [apply returns_Ret; lia |].
  rewrite (lookup_word map (S i)) by lia. cbn [deref]. rewrite bind_Ret.
  destruct (Z.eqb_spec (word map (S i)) 0) as [E0 | N0].
  - eapply returns_mono; [apply IH; lia |]. intros [j |]; cbn beta iota.
    + intros (Hj & Hw & Hz). split; [lia |]. split; [done |]. intros t Ht.
      destruct (Nat.eq_dec t (S i)) as [-> |]; [done | apply Hz; lia].
    + intros Hz t Ht. destruct (Nat.eq_dec t (S i)) as [-> |]; [done | apply Hz; lia].
  - apply returns_Ret. split; [lia |]. split; [done | lia].
Qed.

Lemma scan_high fuel map prev i :
  length map = NELEMS -> (prev <= i < NELEMS)%nat -> (NELEMS - i + prev <= fuel)%nat ->
  returns (fun r => match r with
    | Some j => word map j <> 0 /\
        ((i < j < NELEMS)%nat /\ (forall t, (i < t < j)%nat -> word map t = 0) \/
         (j < prev)%nat /\ (forall t, (i < t < NELEMS)%nat -> word map t = 0) /\
           (forall t, (t < j)%nat -> word map t = 0))
    | None => forall t, (i < t < NELEMS)%nat \/ (t < prev)%nat -> word map t = 0
    end) (scan fuel map prev i).
Proof.
  intros Hl. revert i. induction fuel as [| fuel IH]; intros i Hi Hf; [lia |]. cbn [scan].
  destruct (Nat.leb_spec NELEMS (S i)) as [Hwrap | Hin].
  - destruct (Nat.eqb_spec 0%nat prev) as [E | Hne]; [apply returns_Ret; lia |].
    rewrite (lookup_word map 0%nat) by lia. cbn [deref]. rewrite bind_Ret.
    destruct (Z.eqb_spec (word map 0) 0) as [E0 | N0].
    + eapply returns_mono; [apply (scan_low fuel map prev 0%nat); lia |]. intros [j |]; cbn beta iota.
      * intros (Hj & Hw & Hz). split; [done |]. right. split; [lia |]. split; [lia |].
        intros t Ht. destruct (Nat.eq_dec t 0%nat) as [-> |]; [done | apply Hz; lia].
      * intros Hz t Ht. destruct (Nat.eq_dec t 0%nat) as [-> |]; [done | apply Hz; lia].
    + apply returns_Ret. split; [done |]. right. split; [lia |]. split; lia.
  - destruct (Nat.eqb_spec (S i) prev) as [E | Hne]; [lia |].
    rewrite (lookup_word map (S i)) by lia. cbn [deref]. rewrite bind_Ret.
    destruct (Z.eqb_spec (word map (S i)) 0) as [E0 | N0].
    + eapply returns_mono; [apply IH; lia |]. intros [j |]; cbn beta iota.
      * intros (Hw & H). split; [done |].
        assert (Hs : forall u, (forall t, (S i < t < u)%nat -> word map t = 0) ->
          forall t, (i < t < u)%nat -> word map t = 0).
        { intros u Hz t Ht. destruct (Nat.eq_dec t (S i)) as [-> |]; [done | apply Hz; lia]. }
        destruct H as [(Hj & Hz) | (Hj & Hz & Hz')]; [left | right].
        -- split; [lia | by apply Hs].
        -- split; [done |]. split; [by apply Hs | done].
      * intros Hz t Ht. destruct (Nat.eq_dec t (S i)) as [-> |]; [done | apply Hz; lia].
    + apply returns_Ret. split; [done |]. left. split; [lia |]. intros t Ht. lia.
Qed.

(** ** One call of port_get *)
Lemma find_candidate x p :
  1023 <= last x <= 65535 -> p ∈ free x ->
  (last x < p <= 65535 /\ forall q, last x < q < p -> q ∉ free x) \/
  (1024 <= p < 1024 + 64 * Z.max 0 ((last x - 1024) / 64) /\
   (forall q, last x < q <= 65535 -> q ∉ free x) /\ (forall q, 1024 <= q < p -> q ∉ free x)) ->
  spec_get x = (p, mkSpec (free x ∖ {[p]}) p).
Proof.
  intros Hl Hp H. unfold spec_get, candidates.
  set (n := 64 * Z.max 0 ((last x - 1024) / 64)) in *.
  assert (E : exists k, list_find (fun p => p ∈ free x)
    (seqZ (last x + 1) (65535 - last x) ++ seqZ 1024 n) = Some (k, p)).
  { destruct H as [(Hr & Hn) | (Hr & Hn & Hn')].
    - exists (Z.to_nat (p - last x - 1)). apply list_find_Some. split; [| split; [done |]].
      + apply lookup_app_Some. left. apply lookup_seqZ. lia.
      + intros j y Hj Hlt. apply lookup_app_Some in Hj as [Hj | [Hge Hj]].
        * apply lookup_seqZ in Hj. apply Hn. lia.
        * rewrite length_seqZ in Hge. lia.
    - exists (Z.to_nat (65535 - last x) + Z.to_nat (p - 1024))%nat. apply list_find_Some.
      split; [| split; [done |]].
      + apply lookup_app_Some. right. rewrite length_seqZ. split; [lia |]. apply lookup_seqZ. lia.
      + intros j y Hj Hlt. apply lookup_app_Some in Hj as [Hj | [Hge Hj]].
        * apply lookup_seqZ in Hj. apply Hn. lia.
        * rewrite length_seqZ in Hge, Hj. apply lookup_seqZ in Hj. apply Hn'. lia. }
  destruct E as [k ->]. done.
Qed.

Lemma find_no_candidate x :
  1023 <= last x <= 65535 ->
  (forall q, last x < q <= 65535 -> q ∉ free x) ->
  (forall q, 1024 <= q < 1024 + 64 * Z.max 0 ((last x - 1024) / 64) -> q ∉ free x) ->
  spec_get x = (-1, x).
Proof.
  intros Hl H1 H2. unfold spec_get. rewrite (proj2 (list_find_None _ _)); [done |].
  apply Forall_app. split; apply Forall_seqZ; intros q Hq; [apply H1 | apply H2]; lia.
Qed.

(** A word without a bit in the map has no free port. *)
Lemma not_free s x i b :
  rel s x -> 0 <= b < 64 -> Z.testbit (word (port_free_map s) i) b = false ->
  port_of i b ∉ free x.
Proof.
  intros R Hb Ht Hin. apply (r_free _ _ R) in Hin as [_ Hin]. rewrite bit_of_port in Hin by lia.
  congruence.
Qed.

Lemma word_not_free s x i b :
  rel s x -> 0 <= b < 64 -> word (port_free_map s) i = 0 -> port_of i b ∉ free x.
Proof. intros R Hb Hw. apply (not_free s); [done | done |]. by rewrite Hw, Z.bits_0. Qed.

Lemma free_of_bit s x i b :
  rel s x -> 0 <= b < 64 -> (i < NELEMS)%nat -> Z.testbit (word (port_free_map s) i) b = true ->
  port_of i b ∈ free x.
Proof.
  intros R Hb Hi Ht. apply (r_free _ _ R). rewrite bit_of_port by lia. split; [| done].
  unfold port_of. change NELEMS with 1008%nat in Hi. lia.
Qed.

(** The masked word of the last port has no port after it when it is 0. *)
Lemma masked_word_empty s x b :
  rel s x -> Z.land (word (port_free_map s) (previous s)) (mask s) = 0 ->
  0 <= b < 64 -> last x < port_of (previous s) b -> port_of (previous s) b ∉ free x.
Proof.
  intros R E Hb Hl. apply (not_free s); [done | done |].
  assert (Ht := f_equal (fun z => Z.testbit z b) E). cbn beta in Ht.
  rewrite Z.land_spec, Z.bits_0, (r_mask _ _ R) in Ht by lia.
  rewrite (proj2 (Z.ltb_lt _ _)) in Ht by lia. by rewrite andb_true_r in Ht.
Qed.

Lemma testbit_ones b : 0 <= b < 64 -> Z.testbit ones b = true.
Proof.
  intros Hb. unfold ones. replace (2 ^ 64 - 1) with (Z.ones 64) by reflexivity.
  by apply Z.ones_spec_low.
Qed.

Lemma port_get_unfold s :
  length (port_free_map s) = NELEMS -> (previous s < NELEMS)%nat ->
  port_get 8 s =
    if Z.land (word (port_free_map s) (previous s)) (mask s) =? 0 then
      r ← scan NELEMS (port_free_map s) (previous s) (previous s);
      match r with Some i => take_bit i ones s | None => Ret (-1, s) end
    else take_bit (previous s) (mask s) s.
Proof.
  intros Hl Hp. unfold port_get. rewrite (lookup_word _ (previous s)) by lia.
  cbn [deref]. rewrite bind_Ret. destruct (_ =? 0).
  - rewrite bind_assoc_cres. apply bind_ext. intros [i |]; by rewrite bind_Ret.
  - by rewrite bind_Ret.
Qed.

Lemma port_get_spec s x :
  rel s x -> exists s', port_get 8 s = Ret ((spec_get x).1, s') /\ rel s' (spec_get x).2.
Proof.
  intros R. pose proof R as [Hl Hw Hla Hpr Hra Hma Hfr].
  assert (Hp : (previous s < NELEMS)%nat) by (change NELEMS with 1008%nat; zdiv).
  pose proof (Zdiv.Z_div_mod_eq_full (last x - 1024) 64) as Hdm.
  pose proof (Z.mod_pos_bound (last x - 1024) 64 ltac:(lia)) as Hmb.
  rewrite port_get_unfold by done.
  destruct (Z.eqb_spec (Z.land (word (port_free_map s) (previous s)) (mask s)) 0) as [E0 | N0].
  - pose proof (scan_high NELEMS (port_free_map s) (previous s) (previous s) Hl ltac:(lia) ltac:(lia))
      as (r & Es & Hr). rewrite Es, bind_Ret.
    assert (Hafter : forall i, (previous s <= i)%nat ->
      (forall t, (previous s < t < i)%nat -> word (port_free_map s) t = 0) ->
      forall q, last x < q < port_of i 0 -> 1024 <= q <= 65535 -> q ∉ free x).
    { intros i Hi Hz q Hq Hq'. destruct (port_split q Hq') as (j & b & -> & Hb & Hj).
      destruct (Nat.eq_dec j (previous s)) as [-> |]; [apply (masked_word_empty s); (done || lia) |].
      apply (word_not_free s); [done | done |]. apply Hz. unfold port_of in Hq. lia. }
    destruct r as [i |].
    + destruct Hr as [Hne Hr].
      assert (Hi : (i < NELEMS)%nat) by lia.
      assert (Hlo : Z.land (word (port_free_map s) i) ones = word (port_free_map s) i).
      { unfold ones. rewrite land_ones_wrap by lia. apply wrap_u_small, Hw. }
      destruct (take_bit_spec i ones s x R Hi ltac:(unfold ones; lia) ltac:(by rewrite Hlo))
        as (b & s' & E & Hb & Ht & _ & Hlow & R').
      exists s'. rewrite (find_candidate x (port_of i b)); [by split | done | by apply (free_of_bit s) |].
      assert (Hbelow : forall q, port_of i 0 <= q < port_of i b -> q ∉ free x).
      { intros q Hq. replace q with (port_of i (q - port_of i 0)) by (unfold port_of; lia).
        apply (not_free s); [done | unfold port_of in *; lia |].
        specialize (Hlow (q - port_of i 0) ltac:(unfold port_of in *; lia)).
        by rewrite testbit_ones, andb_true_r in Hlow by (unfold port_of in *; lia). }
      change NELEMS with 1008%nat in *.
      destruct Hr as [(Hj & Hz) | (Hj & Hz & Hz')]; [left | right].
      * split; [unfold port_of; lia |]. intros q Hq.
        destruct (Z.lt_ge_cases q (port_of i 0)); [| apply Hbelow; lia].
        apply (Hafter i); [lia | done | lia |]. unfold port_of in *. lia.
      * split; [unfold port_of; lia |]. split.
        -- intros q Hq. apply (Hafter 1008%nat); [lia | done | unfold port_of; lia | lia].
        -- intros q Hq. destruct (Z.lt_ge_cases q (port_of i 0)); [| apply Hbelow; lia].
           destruct (port_split q ltac:(unfold port_of in *; lia)) as (j & c & -> & Hc & Hj').
           apply (word_not_free s); [done | done |]. apply Hz'. unfold port_of in *. lia.
    + exists s. rewrite find_no_candidate; [by split | done | |].
      * intros q Hq. apply (Hafter NELEMS); [lia | intros t Ht; apply Hr; lia | | lia].
        unfold port_of. change NELEMS with 1008%nat. lia.
      * intros q Hq. destruct (port_split q ltac:(lia)) as (j & c & -> & Hc & Hj').
        apply (word_not_free s); [done | done |]. apply Hr. right. unfold port_of in *. lia.
  - destruct (take_bit_spec (previous s) (mask s) s x R Hp Hra N0)
      as (b & s' & E & Hb & Ht & Htm & Hlow & R').
    exists s'. rewrite Hma in Htm by done. apply Z.ltb_lt in Htm.
    rewrite (find_candidate x (port_of (previous s) b));
      [by split | done | by apply (free_of_bit s) |].
    left. change NELEMS with 1008%nat in *. split; [unfold port_of in *; lia |]. intros q Hq.
    replace q with (port_of (previous s) (q - port_of (previous s) 0)) by (unfold port_of; lia).
    apply (not_free s); [done | unfold port_of in *; lia |].
    specialize (Hlow (q - port_of (previous s) 0) ltac:(unfold port_of in *; lia)).
    rewrite Hma in Hlow by (unfold port_of in *; lia).
    rewrite (proj2 (Z.ltb_lt _ _)), andb_true_r in Hlow by (unfold port_of in *; lia). done.
Qed.

(** ** Sequences of calls *)
Lemma rel_init : rel core_init spec_init.
Proof.
  assert (Hword : forall i, word (replicate NELEMS ones) i = if decide (i < NELEMS)%nat then ones else 0).
  { intros i. unfold word. destruct (decide (i < NELEMS)%nat) as [Hi | Hi].
    - by rewrite (lookup_replicate_2 NELEMS ones i Hi).
    - rewrite lookup_ge_None_2; [done |]. rewrite length_replicate. lia. }
  constructor; cbn [port_free_map mask previous core_init spec_init free last].
  - by rewrite length_replicate.
  - intros i. rewrite Hword. unfold ones. destruct (decide _); lia.
  - lia.
  - reflexivity.
  - unfold ones. lia.
  - intros b Hb. rewrite testbit_ones by lia. symmetry. apply Z.ltb_lt. unfold port_of. lia.
  - intros p. rewrite elem_of_list_to_set, elem_of_seqZ. split; [intros Hp | intros [Hp _]; lia].
    split; [lia |]. destruct (port_split p ltac:(lia)) as (i & b & -> & Hb & Hi).
    rewrite bit_of_port, Hword, decide_True by done. by apply testbit_ones.
Qed.

Lemma run_ops_rel os s x :
  Forall valid os -> rel s x ->
  exists s', run_ops 8 os s = Ret ((spec_ops os x).1, s') /\ rel s' (spec_ops os x).2.
Proof.
  intros F. revert s x. induction F as [| o os Ho F IH]; intros s x R.
  { by exists s. }
  cbn [run_ops spec_ops].
  assert (H : exists s1, run_op 8 o s = Ret ((spec_op o x).1, s1) /\ rel s1 (spec_op o x).2).
  { destruct o as [| p]; cbn [run_op spec_op].
    - destruct (port_get_spec s x R) as (s1 & E & R1). exists s1. rewrite E, bind_Ret.
      destruct (spec_get x). split; [reflexivity | exact R1].
    - destruct (port_put_spec p s x R Ho) as (s1 & E & R1). exists s1. by rewrite E, bind_Ret. }
  destruct H as (s1 & E & R1). rewrite E, bind_Ret. destruct (spec_op o x) as [a x1].
  cbn [fst snd] in *. destruct (IH s1 x1 R1) as (s2 & E2 & R2). exists s2. rewrite E2, bind_Ret.
  destruct (spec_ops os x1). split; [reflexivity | exact R2].
Qed.

Lemma spec_ops_app os os' x :
  spec_ops (os ++ os') x =
    ((spec_ops os x).1 ++ (spec_ops os' (spec_ops os x).2).1, (spec_ops os' (spec_ops os x).2).2).
Proof.
  revert x. induction os as [| o os IH]; intros x; cbn [app spec_ops].
  - cbn [fst snd app]. by destruct (spec_ops os' x).
  - destruct (spec_op o x) as [a x1]. rewrite IH. destruct (spec_ops os x1) as [b x2].
    cbn [fst snd]. destruct (spec_ops os' x2). by rewrite app_assoc.
Qed.

Lemma spec_ops_app_fst os os' x :
  (spec_ops (os ++ os') x).1 = (spec_ops os x).1 ++ (spec_ops os' (spec_ops os x).2).1.
Proof. by rewrite spec_ops_app. Qed.

(** [n] calls from a state in which the ports after the last one are free. *)
Lemma spec_gets n x :
  1023 <= last x -> last x + Z.of_nat n <= 65535 ->
  (forall p, p ∈ free x <-> last x < p <= 65535) ->
  let y := (spec_ops (replicate n Get) x).2 in
  (spec_ops (replicate n Get) x).1 = seqZ (last x + 1) (Z.of_nat n) /\
  last y = last x + Z.of_nat n /\ (forall p, p ∈ free y <-> last y < p <= 65535).
Proof.
  revert x. induction n as [| n IH]; intros x Hl Hn Hf.
  { cbn. split; [done |]. split; [lia | done]. }
  cbn [replicate spec_ops spec_op].
  rewrite (find_candidate x (last x + 1)); [| lia | apply Hf; lia | left; split; lia].
  set (x1 := mkSpec _ _).
  destruct (IH x1) as (E & El & Ef); cbn [x1 last free]; [lia | lia | |].
  { intros p. rewrite elem_of_difference, elem_of_singleton, Hf. cbn [last x1]. lia. }
  destruct (spec_ops (replicate n Get) x1) as [b y]. cbn [fst snd last x1] in *. rewrite E.
  split; [| split; [lia | done]].
  rewrite Nat2Z.inj_succ, (seqZ_cons (last x + 1)) by lia. cbn [app]. do 2 f_equal; lia.
Qed.

Definition exhausted : list op := replicate (Z.to_nat 64512) Get.

Lemma spec_exhausted :
  let y := (spec_ops exhausted spec_init).2 in
  (spec_ops exhausted spec_init).1 = seqZ 1024 64512 /\ last y = 65535 /\ (forall p, p ∉ free y).
Proof.
  destruct (spec_gets (Z.to_nat 64512) spec_init) as (E & El & Ef);
    [cbn; lia | cbn [spec_init last]; lia | |].
  { intros p. cbn [spec_init free last]. rewrite elem_of_list_to_set, elem_of_seqZ. lia. }
  fold exhausted in *. cbn [last spec_init] in E, El. replace (Z.of_nat (Z.to_nat 64512)) with 64512 in * by lia.
  split; [exact E |]. split; [exact El |]. intros p Hp. apply Ef in Hp. lia.
Qed.

(** When no port is free and the last one handed out was 65535. *)
Lemma freed_port_aux os p :
  1024 <= p <= 65535 -> Forall valid os ->
  last (spec_ops os spec_init).2 = 65535 -> (forall q, q ∉ free (spec_ops os spec_init).2) ->
  exists s, run_ops 8 (os ++ [Put p; Get]) core_init
    = Ret ((spec_ops os spec_init).1 ++ [if p <? 65472 then p else -1], s).
Proof.
  intros Hp Hos El Ef.
  destruct (run_ops_rel (os ++ [Put p; Get]) core_init spec_init) as (s & E & _);
    [| apply rel_init |].
  { apply Forall_app. split; [done |]. constructor; [exact Hp |]. by repeat constructor. }
  exists s. rewrite E. clear E. rewrite spec_ops_app_fst.
  set (y := (spec_ops os spec_init).2) in *. clearbody y.
  enough (Ex : (spec_ops [Put p; Get] y).1 = [if p <? 65472 then p else -1]) by (rewrite Ex; reflexivity).
  cbn [spec_ops spec_op].
  assert (Hfree : forall q, q ∈ free (spec_put p y) <-> q = p).
  { intros q. cbn [spec_put free]. rewrite elem_of_union, elem_of_singleton.
    split; [intros [Hq | ->]; [by apply Ef in Hq | done] | by right]. }
  destruct (Z.ltb_spec p 65472).
  - rewrite (find_candidate (spec_put p y) p); [done | | by apply Hfree |].
    + cbn [spec_put last]. lia.
    + right. cbn [spec_put last]. rewrite El. split; [zdiv |]. split; intros q Hq Hin; apply Hfree in Hin; lia.
  - rewrite find_no_candidate; [done | cbn [spec_put last]; lia | |];
      intros q Hq Hin; apply Hfree in Hin; subst q; cbn [spec_put last] in Hq; rewrite El in Hq; [lia | zdiv].
Qed.

(** ** A [long] of four bytes *)
(** The number of [port_get] calls. *)
Fixpoint gets (os : list op) : nat :=
  match os with
  | [] => O
  | Get :: os => S (gets os)
  | Put _ :: os => gets os
  end.

Lemma lffs_long S w : 4 < S -> lffs S w = lffs 8 w.
Proof.
  intros HS. unfold lffs. rewrite (proj2 (Z.ltb_lt 4 S) HS). by change (4 <? 8) with true.
Qed.

Lemma run_op_lffs S o s : 4 < S -> run_op S o s = run_op 8 o s.
Proof.
  intros HS. destruct o as [| p]; cbn [run_op]; [| done]. f_equal. unfold port_get.
  apply bind_ext. intros w. apply bind_ext. intros [[i m] |]; [| done].
  apply bind_ext. intros w'. by rewrite lffs_long.
Qed.

Lemma run_ops_long S os s : 4 < S -> run_ops S os s = run_ops 8 os s.
Proof.
  intros HS. revert s. induction os as [| o os IH]; intros s; cbn [run_ops]; [done |].
  rewrite run_op_lffs by done. apply bind_ext. intros [a s1]. by rewrite IH.
Qed.

(** [g] ports have been handed out, all of the first word, and the rest of the
    word is free. *)
Definition in_first_word (g : Z) (x : spec) : Prop :=
  last x = 1023 + g /\ forall p, 1024 + g <= p <= 1087 -> p ∈ free x.

Lemma in_first_word_get g x :
  0 <= g < 64 -> in_first_word g x ->
  (spec_get x).1 = 1024 + g /\ in_first_word (g + 1) (spec_get x).2.
Proof.
  intros Hg [El Hf]. rewrite (find_candidate x (1024 + g)); [| lia | apply Hf; lia | left; split; lia].
  cbn [fst snd]. split; [done |]. split; [cbn [last]; lia |]. intros p Hp. cbn [free].
  rewrite elem_of_difference, elem_of_singleton. split; [apply Hf |]; lia.
Qed.

Lemma in_first_word_put g p x : in_first_word g x -> in_first_word g (spec_put p x).
Proof. intros [El Hf]. split; [done |]. intros q Hq. cbn. apply elem_of_union_l. by apply Hf. Qed.

(** The masked word that [port_get] hands to [lffs]. *)
Definition masked (s : st) : Z := Z.land (word (port_free_map s) (previous s)) (mask s).

Lemma masked_range s x : rel s x -> 0 <= masked s < 2 ^ 64.
Proof. intros R. apply land_range; [lia | apply (r_range _ _ R)]. Qed.

Lemma masked_bits s x g :
  rel s x -> 0 <= g < 64 -> in_first_word g x ->
  previous s = O /\ forall b, 0 <= b < 64 -> Z.testbit (masked s) b = (g <=? b).
Proof.
  intros R Hg [El Hf]. assert (Hp : previous s = O).
  { pose proof (r_prev _ _ R) as H. rewrite El in H.
    enough ((1023 + g - 1024) / 64 <= 0) by lia. zdiv. }
  split; [done |]. intros b Hb. unfold masked. rewrite Z.land_spec, (r_mask _ _ R) by done.
  rewrite Hp, El. unfold port_of. destruct (Z.leb_spec g b).
  - rewrite (proj2 (Z.ltb_lt _ _)) by lia. rewrite andb_true_r.
    rewrite <- (bit_of_port _ 0 b) by done. apply (r_free _ _ R). apply Hf. unfold port_of. lia.
  - rewrite (proj2 (Z.ltb_ge _ _)) by lia. apply andb_false_r.
Qed.

(** [ffs] of a word whose bits from [g] are set. *)
Lemma ffs_of_upper w g :
  0 <= g < 64 -> (forall b, 0 <= b < 64 -> Z.testbit w b = (g <=? b)) ->
  ffs w = if g <? 32 then g + 1 else 0.
Proof.
  intros Hg H. unfold ffs.
  destruct (ffs_from_spec 32 0 w ltac:(lia)) as [[E0 Hz] | (k & E1 & Hk & Et & Hz)].
  - destruct (Z.ltb_spec g 32); [| done]. specialize (Hz g ltac:(lia)). rewrite H in Hz by lia. lia.
  - rewrite H in Et by lia. rewrite E1. destruct (Z.ltb_spec g 32); [| lia].
    destruct (Z.eq_dec k g) as [-> | Hne]; [done |]. specialize (Hz g ltac:(lia)).
    rewrite H in Hz by lia. lia.
Qed.

Section Short.
Context (S : Z) (HS : S <= 4).

Lemma lffs_short w : lffs S w = ffs w.
Proof. unfold lffs. by rewrite (proj2 (Z.ltb_ge 4 S) HS). Qed.

(** [port_get] when the word of the last port has a free port after it. *)
Lemma port_get_masked T s :
  length (port_free_map s) = NELEMS -> (previous s < NELEMS)%nat -> masked s <> 0 ->
  port_get T s =
    (let bit := lffs T (masked s) - 1 in
     m' ← (if BITSPERLONG - 1 <=? u64 bit then Ret 0
           else b ← shift1 (bit + 1); Ret (u64 (Z.lnot (b - 1))));
     b ← shift1 bit;
     Ret (i32 (bit + Z.of_nat (previous s) * BITSPERLONG + MIN_IP_PORT),
          mkSt (<[previous s := Z.land (word (port_free_map s) (previous s)) (u64 (Z.lnot b))]>
                  (port_free_map s)) m' (previous s))).
Proof.
  intros Hl Hp Hne. unfold port_get. rewrite (lookup_word _ (previous s)) by lia.
  cbn [deref]. rewrite !bind_Ret. unfold masked in *. destruct (Z.eqb_spec (Z.land (word (port_free_map s) (previous s)) (mask s)) 0) as [E | _]; [by destruct Hne |].
  rewrite bind_Ret. rewrite (lookup_word _ (previous s)) by lia. cbn [deref]. by rewrite bind_Ret.
Qed.

Lemma short_get g s x :
  rel s x -> 0 <= g <= 32 -> in_first_word g x ->
  port_get S s = if g <? 32 then port_get 8 s else Undef.
Proof.
  intros R Hg F. destruct (masked_bits s x g R ltac:(lia) F) as [Hp Hb].
  assert (Hne : masked s <> 0).
  { intros E. pose proof (Hb 63 ltac:(lia)) as H. rewrite E, Z.bits_0 in H. lia. }
  assert (Hp' : (previous s < NELEMS)%nat) by (change NELEMS with 1008%nat; lia).
  pose proof (r_len _ _ R) as Hl.
  rewrite (port_get_masked S s Hl Hp' Hne), lffs_short, (ffs_of_upper _ g ltac:(lia) Hb).
  destruct (Z.ltb_spec g 32) as [Hlt | Hge]; [| reflexivity].
  rewrite (port_get_masked 8 s Hl Hp' Hne).
  assert (E8 : lffs 8 (masked s) = g + 1); [| by rewrite E8].
  unfold lffs. rewrite (ffs_of_upper _ g ltac:(lia) Hb), (proj2 (Z.ltb_lt g 32) Hlt).
  change (4 <? 8) with true. cbn iota. by destruct (Z.eqb_spec (g + 1) 0); [lia |].
Qed.

Lemma run_ops_short os g s x :
  Forall valid os -> rel s x -> 0 <= g <= 32 -> in_first_word g x ->
  if Z.of_nat (gets os) <=? 32 - g then
    exists s', run_ops S os s = Ret ((spec_ops os x).1, s') /\ rel s' (spec_ops os x).2
  else run_ops S os s = Undef.
Proof.
  intros F. revert g s x. induction F as [| o os Ho F IH]; intros g s x R Hg W.
  { cbn [gets]. rewrite (proj2 (Z.leb_le _ _)) by lia. by exists s. }
  destruct o as [| p]; cbn [gets run_ops run_op spec_ops spec_op].
  - rewrite (short_get g s x R Hg W). destruct (Z.ltb_spec g 32) as [Hlt | Hge].
    2:{ rewrite (proj2 (Z.leb_gt _ _)) by lia. done. }
    destruct (port_get_spec s x R) as (s1 & E & R1). rewrite E, !bind_Ret.
    destruct (in_first_word_get g x ltac:(lia) W) as [_ W1]. destruct (spec_get x) as [q x1].
    cbn [fst snd] in *. specialize (IH (g + 1) s1 x1 R1 ltac:(lia) W1).
    assert (Eg : (Z.of_nat (Datatypes.S (gets os)) <=? 32 - g)
      = (Z.of_nat (gets os) <=? 32 - (g + 1))).
    { apply eq_true_iff_eq. rewrite !Z.leb_le. lia. }
    rewrite Eg.
    destruct (_ <=? _); [| by rewrite IH].
    destruct IH as (s2 & E2 & R2). exists s2. rewrite E2, bind_Ret. by destruct (spec_ops os x1).
  - destruct (port_put_spec p s x R Ho) as (s1 & E & R1). rewrite E, !bind_Ret.
    specialize (IH g s1 (spec_put p x) R1 Hg (in_first_word_put g p x W)).
    destruct (_ <=? _); [| by rewrite IH].
    destruct IH as (s2 & E2 & R2). exists s2. rewrite E2, bind_Ret.
    by destruct (spec_ops os (spec_put p x)).
Qed.
End Short.

Lemma in_first_word_init : in_first_word 0 spec_init.
Proof.
  split; [done |]. intros p Hp. cbn [spec_init free]. rewrite elem_of_list_to_set, elem_of_seqZ. lia.
Qed.

(** ** The claims *)

(** C36: any sequence of [port_get] and [port_put] calls, in the build that
    configure.ac makes (where [SIZEOF_LONG] counts for 0) as in one that defines
    the macro.  When the macro is more than 4, or when [port_get] is called at
    most 32 times, the sequence returns, reaches no undefined behaviour, and
    answers what the set of free ports answers: the first free port after the
    last one, or else in front of the word of the last one.  Otherwise, in the
    configured build with a 33rd [port_get], it shifts by -1, which is
    undefined. *)
Theorem ports_refine_set (SIZEOF_LONG : Z) (os : list op) (Hos : Forall valid os) :
  if (4 <? SIZEOF_LONG) || (Z.of_nat (gets os) <=? 32) then
    exists s, run_ops SIZEOF_LONG os core_init = Ret ((spec_ops os spec_init).1, s) /\
      rel s (spec_ops os spec_init).2
  else run_ops SIZEOF_LONG os core_init = Undef.
Proof.
  destruct (Z.ltb_spec 4 SIZEOF_LONG) as [HS | HS]; cbn [orb].
  - rewrite run_ops_long by done. apply run_ops_rel; [done | apply rel_init].
  - apply (run_ops_short SIZEOF_LONG HS os 0 core_init spec_init Hos rel_init);
      [lia | apply in_first_word_init].
Qed.

Lemma ports_refine_set_witness :
  (exists s, run_ops 0 [Get; Put 2000; Get] core_init
      = Ret ((spec_ops [Get; Put 2000; Get] spec_init).1, s) /\
    rel s (spec_ops [Get; Put 2000; Get] spec_init).2) /\
  run_ops 0 (replicate 33 Get) core_init = Undef.
Proof.
  split.
  - apply (ports_refine_set 0 [Get; Put 2000; Get]). repeat constructor; cbn; lia.
  - apply (ports_refine_set 0 (replicate 33 Get)). apply Forall_replicate. exact I.
Defined.

(** A port given back when all are in use is found again exactly when it is
    not in the last word of the map: the search skips the word of the last port
    handed out, although the port is free. *)
Theorem freed_port_is_found p (Hp : 1024 <= p <= 65535) :
  exists s, run_ops 8 (exhausted ++ [Put p; Get]) core_init
    = Ret (seqZ 1024 64512 ++ [if p <? 65472 then p else -1], s).
Proof.
  destruct spec_exhausted as (<- & El & Ef).
  apply freed_port_aux; [exact Hp | by apply Forall_replicate | exact El | exact Ef].
Qed.

Lemma freed_port_is_found_witness :
  exists s, run_ops 8 (exhausted ++ [Put 65500; Get]) core_init = Ret (seqZ 1024 64512 ++ [-1], s).
Proof. apply (freed_port_is_found 65500). lia. Defined.

End Ports.
