(* ===== verification/AddrTable.v ===== *)
(** * httperf/src/core.c: the table of server addresses

    [hash_code], [hash_enter] and [hash_lookup]: a table of 1024 entries with
    linear probing, from which nothing is removed, and which nothing keeps from
    filling up.  A host name is the list of its bytes without the NUL; an empty entry, whose [hostname] is null, is [None].  The
    address that an entry holds is abstract.  [hash_code] computes in [u_long]
    of 64 bits and returns an [int], and the index is its remainder in C. *)
From S2P Require Import Prelude.

Module AddrTable.

Definition HASH_TABLE_SIZE : Z := 1024.

(** One character of the ELF hash. *)
Definition hash_char (h ch : Z) : Z :=
  let h := u64 (u64 (Z.shiftl h 4) + ch) in
  let g := Z.land h 0xf0000000 in
  if g =? 0 then h
  else Z.land (Z.lxor h (Z.shiftr g 24)) (u64 (Z.lnot g)).

Definition hash_code (server : list Z) (port : Z) : Z :=
  i32 (fold_left hash_char server (u64 port)).

Definition hash_index (server : list Z) (port : Z) : Z :=
  Z.rem (hash_code server port) HASH_TABLE_SIZE.

Record hash_entry (A : Type) := mkEntry { hostname : list Z; port : Z; sin : A }.
Arguments mkEntry {A}.
Arguments hostname {A}.
Arguments port {A}.
Arguments sin {A}.
Abbreviation table A := (list (option (hash_entry A))).

Section Table.
Context {A : Type}.
Implicit Types (t : table A).

(** [memset (&hash_table, 0, sizeof (hash_table))] *)
Definition empty : table A := replicate (Z.to_nat HASH_TABLE_SIZE) None.

Definition next_index (index : Z) : Z :=
  let index := index + 1 in if HASH_TABLE_SIZE <=? index then 0 else index.

(** [while (hash_table[index].hostname)]; the loop runs for ever on a full
    table. *)
Fixpoint enter_loop (fuel : nat) (t : table A) (index : Z) : cres Z :=
  match fuel with
  | O => NoFuel
  | S fuel =>
      e ← deref (aget t index);
      match e with
      | None => Ret index
      | Some _ => enter_loop fuel t (next_index index)
      end
  end.
Definition hash_enter (fuel : nat) (t : table A) (server : list Z) (p : Z) (a : A) : cres (table A) :=
  index ← enter_loop fuel t (hash_index server p);
  deref (aset t index (Some (mkEntry server p a))).

Fixpoint lookup_loop (fuel : nat) (t : table A) (server : list Z) (p start_index index : Z)
    : cres (option A) :=
  match fuel with
  | O => NoFuel
  | S fuel =>
      e ← deref (aget t index);
      match e with
      | None => Ret None
      | Some e =>
          if (port e =? p) && bool_decide (hostname e = server) then Ret (Some (sin e))
          else
            let index := next_index index in
            if index =? start_index then Ret None
            else lookup_loop fuel t server p start_index index
      end
  end.
Definition hash_lookup (fuel : nat) (t : table A) (server : list Z) (p : Z) : cres (option A) :=
  lookup_loop fuel t server p (hash_index server p) (hash_index server p).

(** The addresses that are entered, one after the other. *)
Fixpoint enter_all (fuel : nat) (es : list (hash_entry A)) (t : table A) : cres (table A) :=
  match es with
  | [] => Ret t
  | e :: es => t ← hash_enter fuel t (hostname e) (port e) (sin e); enter_all fuel es t
  end.

(** ** The specification: the first entry with the key *)
Fixpoint spec_lookup (es : list (hash_entry A)) (server : list Z) (p : Z) : option A :=
  match es with
  | [] => None
  | e :: es =>
      if (port e =? p) && bool_decide (hostname e = server) then Some (sin e)
      else spec_lookup es server p
  end.
End Table.

(** ** The hash is an index *)
Definition is_byte (c : Z) : Prop := 0 < c < 256.
(** Bits 28 to 31 are clear; bit 32 and those above need not be. *)
Definition clear_top (h : Z) : Prop := 0 <= h /\ forall i, 28 <= i < 32 -> Z.testbit h i = false.

Lemma hash_char_clear h ch : clear_top (hash_char h ch).
Proof.
  unfold hash_char. set (x := u64 (u64 (Z.shiftl h 4) + ch)).
  assert (Hx : 0 <= x) by (unfold x; pose proof (wrap_u_range 64 (u64 (Z.shiftl h 4) + ch)); lia).
  assert (Hg : forall i, 28 <= i < 32 -> Z.testbit 0xf0000000 i = true).
  { intros i Hi. assert (E : i = 28 \/ i = 29 \/ i = 30 \/ i = 31) by lia.
    by destruct E as [-> | [-> | [-> | ->]]]. }
  destruct (Z.eqb_spec (Z.land x 0xf0000000) 0) as [E | _].
  - split; [done |]. intros i Hi. assert (Hb := f_equal (fun z => Z.testbit z i) E). cbn beta in Hb.
    rewrite Z.land_spec, Hg, andb_true_r, Z.bits_0 in Hb by done. exact Hb.
  - set (g := Z.land x 0xf0000000).
    split; [apply Z.land_nonneg; right; pose proof (wrap_u_range 64 (Z.lnot g)); lia |].
    intros i Hi. rewrite Z.land_spec, Z.lxor_spec, testbit_wrap_u, Z.lnot_spec by lia.
    assert (Es : Z.testbit (Z.shiftr g 24) i = false).
    { rewrite Z.shiftr_spec by lia. unfold g. rewrite Z.land_spec.
      rewrite (testbit_above 32 0xf0000000) by lia. apply andb_false_r. }
    rewrite Es, xorb_false_r. unfold g. rewrite Z.land_spec, Hg, andb_true_r by done.
    destruct (Z.testbit x i); [| done]. cbn. by destruct (i <? 64).
Qed.

Lemma i32_clear h : clear_top h -> 0 <= i32 h < 2 ^ 28.
Proof.
  intros [Hh Hc]. assert (Hm : 0 <= h mod 2 ^ 32 < 2 ^ 28).
  { split; [apply Z.mod_pos_bound; lia |]. apply bits_bound; [lia | apply Z.mod_pos_bound; lia |].
    intros i Hi. destruct (Z.lt_ge_cases i 32).
    - rewrite Z.mod_pow2_bits_low by lia. apply Hc. lia.
    - by apply Z.mod_pow2_bits_high; lia. }
  unfold wrap_s. rewrite (proj2 (Z.ltb_lt _ _)); [done |]. lia.
Qed.

Lemma hash_code_nonneg server p :
  0 <= p < 2 ^ 31 -> 0 <= hash_code server p.
Proof.
  intros Hp. unfold hash_code. destruct server as [| c l] using rev_ind.
  - cbn [fold_left]. rewrite wrap_u_small by lia. rewrite i32_small; [lia |].
    unfold is_int, INT_MIN, INT_MAX. lia.
  - rewrite fold_left_app. cbn [fold_left]. apply i32_clear, hash_char_clear.
Qed.

Lemma hash_index_range server p : 0 <= p < 2 ^ 31 -> 0 <= hash_index server p < 1024.
Proof.
  intros Hp. pose proof (hash_code_nonneg server p Hp). unfold hash_index, HASH_TABLE_SIZE.
  apply Z.rem_bound_pos; lia.
Qed.

(** ** Linear probing *)
Section Probing.
Context {A : Type}.
Implicit Types (t : table A) (es : list (hash_entry A)).

Definition key (e : hash_entry A) : list Z * Z := (hostname e, port e).
Definition slot (h n : Z) : Z := (h + n) mod 1024.
Definition at_slot t (i : Z) : option (hash_entry A) := default None (aget t i).

Lemma slot_range h n : 0 <= slot h n < 1024.
Proof. apply Z.mod_pos_bound. lia. Qed.

Lemma slot_zero h : 0 <= h < 1024 -> slot h 0 = h.
Proof. intros. unfold slot. rewrite Z.add_0_r. by apply Z.mod_small. Qed.

Lemma next_slot h n : next_index (slot h n) = slot h (n + 1).
Proof.
  unfold next_index, slot, HASH_TABLE_SIZE.
  destruct (Z.leb_spec 1024 ((h + n) mod 1024 + 1)); zdiv.
Qed.

Lemma slot_full_circle h n : 0 <= h < 1024 -> 0 < n <= 1024 -> slot h n = h <-> n = 1024.
Proof. unfold slot. intros. zdiv. Qed.

(** Every slot is reached. *)
Lemma slot_covers h j : 0 <= h < 1024 -> 0 <= j < 1024 -> exists n, 0 <= n < 1024 /\ slot h n = j.
Proof. intros. exists ((j - h) mod 1024). unfold slot. split; zdiv. Qed.

Lemma slot_inj h n m : 0 <= n < 1024 -> 0 <= m < 1024 -> slot h n = slot h m -> n = m.
Proof. unfold slot. intros. zdiv. Qed.

Definition occupied t : nat := length (filter is_Some t).

Lemma aget_slot t h n : length t = 1024%nat -> deref (aget t (slot h n)) = Ret (at_slot t (slot h n)).
Proof.
  intros Hl. unfold at_slot. pose proof (slot_range h n).
  destruct (aget_Some t (slot h n) ltac:(lia)) as [x Ex]. by rewrite Ex.
Qed.

Lemma exists_free t : length t = 1024%nat -> (occupied t < 1024)%nat ->
  exists j, 0 <= j < 1024 /\ at_slot t j = None.
Proof.
  intros Hl Ho. destruct (decide (Forall is_Some t)) as [F | N].
  - exfalso. assert (E : occupied t = length t); [| lia]. clear Hl Ho. unfold occupied.
    induction F as [| x t Hx F IH]; [done |]. rewrite filter_cons_True by done. cbn. by rewrite IH.
  - apply not_Forall_Exists in N; [| apply _]. apply Exists_exists in N as (x & Hx & Hn).
    apply list_elem_of_lookup in Hx as (i & Hi). exists (Z.of_nat i).
    pose proof (lookup_lt_Some _ _ _ Hi). split; [lia |]. unfold at_slot, aget.
    destruct (Z.leb_spec 0 (Z.of_nat i)); [| lia]. rewrite Nat2Z.id, Hi. cbn.
    destruct x; [| done]. exfalso. by apply Hn.
Qed.

(** A free slot, the first that is probed. *)
Lemma first_free t h :
  length t = 1024%nat -> (occupied t < 1024)%nat -> 0 <= h < 1024 ->
  exists n, 0 <= n < 1024 /\ at_slot t (slot h n) = None /\
    forall m, 0 <= m < n -> is_Some (at_slot t (slot h m)).
Proof.
  intros Hl Ho Hh. destruct (exists_free t Hl Ho) as (j & Hj & Ej).
  destruct (slot_covers h j Hh Hj) as (n & Hn & <-). clear Hj.
  assert (Hmin : forall k : nat, forall n, 0 <= n < 1024 -> (Z.to_nat n <= k)%nat ->
    at_slot t (slot h n) = None -> exists n, 0 <= n < 1024 /\ at_slot t (slot h n) = None /\
      forall m, 0 <= m < n -> is_Some (at_slot t (slot h m))).
  { clear n Hn Ej. induction k as [| k IH]; intros n Hn Hk Ej.
    - exists n. split; [done |]. split; [done |]. intros m Hm. lia.
    - destruct (decide (Forall (fun m => is_Some (at_slot t (slot h m))) (seqZ 0 n))) as [F | N].
      + exists n. split; [done |]. split; [done |]. intros m Hm.
        rewrite Forall_seqZ in F. apply F. lia.
      + apply not_Forall_Exists in N; [| apply _]. apply Exists_exists in N as (m & Hm & Hn').
        apply elem_of_seqZ in Hm. apply (IH m); [lia | lia |].
        destruct (at_slot t (slot h m)) as [e |] eqn:E; [| done]. exfalso. apply Hn'.
        cbn beta. rewrite E. by exists e. }
  by apply (Hmin (Z.to_nat n) n).
Qed.

Lemma enter_loop_spec fuel t h n k :
  length t = 1024%nat -> at_slot t (slot h n) = None ->
  (forall m, k <= m < n -> is_Some (at_slot t (slot h m))) -> k <= n -> (Z.to_nat (n - k) < fuel)%nat ->
  enter_loop fuel t (slot h k) = Ret (slot h n).
Proof.
  intros Hl Hn. revert k. induction fuel as [| fuel IH]; intros k Hk Hle Hf; [lia |].
  cbn [enter_loop]. rewrite aget_slot, bind_Ret by done.
  destruct (Z.eq_dec k n) as [-> | Hne]; [by rewrite Hn |].
  destruct (Hk k ltac:(lia)) as [e ->]. rewrite next_slot. apply IH; [| lia | lia].
  intros m Hm. apply Hk. lia.
Qed.

(** With any fuel the loop stops at the same slot or does not stop. *)
Lemma enter_loop_any fuel t h n k :
  length t = 1024%nat -> at_slot t (slot h n) = None ->
  (forall m, k <= m < n -> is_Some (at_slot t (slot h m))) -> k <= n ->
  enter_loop fuel t (slot h k) = NoFuel \/ enter_loop fuel t (slot h k) = Ret (slot h n).
Proof.
  intros Hl Hn. revert k. induction fuel as [| fuel IH]; intros k Hk Hle; [by left |].
  cbn [enter_loop]. rewrite aget_slot, bind_Ret by done.
  destruct (Z.eq_dec k n) as [-> | Hne]; [rewrite Hn; by right |].
  destruct (Hk k ltac:(lia)) as [e ->]. rewrite next_slot. apply IH; [| lia].
  intros m Hm. apply Hk. lia.
Qed.

(** On a full table the loop never ends. *)
Lemma enter_loop_full fuel t h k :
  length t = 1024%nat -> (forall j, 0 <= j < 1024 -> is_Some (at_slot t j)) ->
  enter_loop fuel t (slot h k) = NoFuel.
Proof.
  intros Hl Hf. revert k. induction fuel as [| fuel IH]; intros k; [done |]. cbn [enter_loop].
  rewrite aget_slot, bind_Ret by done. destruct (Hf (slot h k) (slot_range h k)) as [e ->].
  rewrite next_slot. apply IH.
Qed.

Lemma full_slots t : length t = 1024%nat -> occupied t = 1024%nat ->
  forall j, 0 <= j < 1024 -> is_Some (at_slot t j).
Proof.
  intros Hl Ho j Hj. destruct (at_slot t j) eqn:E; [by eexists |]. exfalso.
  unfold at_slot, aget in E. destruct (Z.leb_spec 0 j); [| lia].
  destruct (lookup_lt_is_Some_2 t (Z.to_nat j)) as [x Hx]; [lia |]. rewrite Hx in E. cbn in E. subst x.
  rewrite <- (take_drop_middle t _ _ Hx) in Ho, Hl. unfold occupied in Ho.
  rewrite filter_app, length_app, filter_cons_False in Ho by (by intros [? ?]).
  rewrite length_app in Hl. cbn [length] in Hl.
  pose proof (length_filter is_Some (take (Z.to_nat j) t)).
  pose proof (length_filter is_Some (drop (S (Z.to_nat j)) t)). lia.
Qed.

(** ** The invariant *)
Definition home (e : hash_entry A) : Z := hash_index (hostname e) (port e).

Record inv t es : Prop := {
  i_len : length t = 1024%nat;
  i_count : occupied t = length es;
  i_found : forall server p a, 0 <= p < 2 ^ 31 -> spec_lookup es server p = Some a ->
    exists n, 0 <= n < 1024 /\
      at_slot t (slot (hash_index server p) n) = Some (mkEntry server p a) /\
      forall m, 0 <= m < n -> exists e,
        at_slot t (slot (hash_index server p) m) = Some e /\ key e <> (server, p);
  i_absent : forall server p, spec_lookup es server p = None ->
    forall j e, 0 <= j < 1024 -> at_slot t j = Some e -> key e <> (server, p)
}.

Lemma spec_lookup_app es e server p :
  spec_lookup (es ++ [e]) server p =
    match spec_lookup es server p with
    | Some a => Some a
    | None => if (port e =? p) && bool_decide (hostname e = server) then Some (sin e) else None
    end.
Proof.
  induction es as [| e' es IH]; cbn [app spec_lookup]; [done |].
  by destruct ((port e' =? p) && bool_decide (hostname e' = server)).
Qed.

Lemma key_match (e : hash_entry A) server p :
  (port e =? p) && bool_decide (hostname e = server) = true <-> key e = (server, p).
Proof.
  rewrite andb_true_iff, Z.eqb_eq, bool_decide_eq_true. unfold key.
  split; [by intros [-> ->] | by intros [= -> ->]].
Qed.

Lemma at_slot_insert t i j e :
  length t = 1024%nat -> 0 <= i < 1024 -> 0 <= j < 1024 ->
  at_slot (<[Z.to_nat i := Some e]> t) j = if decide (i = j) then Some e else at_slot t j.
Proof.
  intros Hl Hi Hj. unfold at_slot, aget. destruct (Z.leb_spec 0 j); [| lia].
  destruct (decide (i = j)) as [<- | Hne].
  - by rewrite list_lookup_insert_eq by lia.
  - by rewrite list_lookup_insert_ne by lia.
Qed.

Lemma occupied_insert t i e :
  length t = 1024%nat -> 0 <= i < 1024 -> at_slot t i = None ->
  occupied (<[Z.to_nat i := Some e]> t) = S (occupied t).
Proof.
  intros Hl Hi Hn. unfold at_slot, aget in Hn. destruct (Z.leb_spec 0 i); [| lia].
  destruct (lookup_lt_is_Some_2 t (Z.to_nat i)) as [x Hx]; [lia |]. rewrite Hx in Hn. cbn in Hn. subst x.
  rewrite <- (take_drop_middle t _ _ Hx) at 2. rewrite insert_take_drop by lia.
  unfold occupied. rewrite !filter_app, !length_app.
  rewrite filter_cons_True by done. rewrite filter_cons_False by (by intros [? ?]). cbn. lia.
Qed.

Lemma hash_enter_inv t es e :
  inv t es -> (length es < 1024)%nat -> 0 <= port e < 2 ^ 31 ->
  exists t', hash_enter 1024 t (hostname e) (port e) (sin e) = Ret t' /\ inv t' (es ++ [e]).
Proof.
  intros [Hl Hc Hf Ha] Hes Hp. pose proof (hash_index_range (hostname e) (port e) Hp) as Hh.
  destruct (first_free t _ Hl ltac:(lia) Hh) as (n & Hn & En & Hbefore).
  set (h := hash_index (hostname e) (port e)) in *. set (i := slot h n) in *.
  assert (Hi : 0 <= i < 1024) by apply slot_range.
  exists (<[Z.to_nat i := Some e]> t). split.
  - unfold hash_enter. fold h. rewrite <- (slot_zero h Hh) at 1.
    rewrite (enter_loop_spec 1024 t h n 0); [| done | done | done | lia | lia]. rewrite bind_Ret.
    fold i. rewrite aset_Some by lia. by destruct e.
  - constructor.
    + by rewrite length_insert.
    + rewrite occupied_insert, length_app, Hc by done. cbn. lia.
    + intros server p a Hp' Hs. rewrite spec_lookup_app in Hs.
      destruct (spec_lookup es server p) as [a' |] eqn:Eo.
      * injection Hs as ->. destruct (Hf server p a Hp' Eo) as (k & Hk & Ek & Hbk).
        assert (Hother : forall m e', at_slot t (slot (hash_index server p) m) = Some e' ->
          at_slot (<[Z.to_nat i := Some e]> t) (slot (hash_index server p) m) = Some e').
        { intros m e' Em. rewrite at_slot_insert; [| done | done | apply slot_range].
          destruct (decide _) as [E |]; [congruence | done]. }
        exists k. split; [done |]. split; [by apply Hother |]. intros m Hm.
        destruct (Hbk m Hm) as (e' & Em & Hne). exists e'. split; [by apply Hother | done].
      * destruct ((port e =? p) && bool_decide (hostname e = server)) eqn:Em; [| done].
        injection Hs as <-. apply key_match in Em. unfold key in Em. injection Em as <- <-.
        fold h. exists n. split; [done |]. fold i. split.
        { rewrite at_slot_insert, decide_True by done. by destruct e. }
        intros m Hm. destruct (Hbefore m Hm) as [e' Ee']. exists e'. split.
        -- rewrite at_slot_insert; [| done | done | apply slot_range].
           rewrite decide_False; [done |]. intros E. unfold i in E.
           apply slot_inj in E; lia.
        -- apply (Ha _ _ Eo (slot h m) e'); [apply slot_range | done].
    + intros server p Hs. rewrite spec_lookup_app in Hs.
      destruct (spec_lookup es server p) as [a' |] eqn:Eo; [done |].
      destruct ((port e =? p) && bool_decide (hostname e = server)) eqn:Em; [done |].
      intros j e' Hj Ee'. rewrite at_slot_insert in Ee' by done.
      destruct (decide (i = j)); [| by apply (Ha server p Eo j)].
      injection Ee' as <-. intros Ek. apply key_match in Ek. congruence.
Qed.

Lemma inv_empty : inv empty [].
Proof.
  assert (He : forall j e, at_slot empty j = Some e -> False).
  { intros j e. unfold at_slot, aget, empty. destruct (0 <=? j); [| done].
    destruct (replicate _ None !! Z.to_nat j) as [x |] eqn:E; [| done].
    apply lookup_replicate in E as [-> _]. done. }
  constructor; [done | vm_compute; reflexivity | done |].
  intros server p _ j e _ Hj. by apply He in Hj.
Qed.

Lemma enter_all_inv es t es0 :
  inv t es0 -> (length es0 + length es <= 1024)%nat -> Forall (fun e => 0 <= port e < 2 ^ 31) es ->
  exists t', enter_all 1024 es t = Ret t' /\ inv t' (es0 ++ es).
Proof.
  intros Hi Hl F. revert t es0 Hi Hl. induction F as [| e es Hp F IH]; intros t es0 Hi Hl.
  - exists t. by rewrite app_nil_r.
  - cbn [enter_all length] in *. destruct (hash_enter_inv t es0 e Hi ltac:(lia) Hp) as (t1 & E & Hi1).
    rewrite E, bind_Ret. destruct (IH t1 (es0 ++ [e]) Hi1) as (t2 & E2 & Hi2).
    { rewrite length_app. cbn. lia. }
    exists t2. split; [done |]. by rewrite <- app_assoc in Hi2.
Qed.

(** [hash_enter] with any fuel, on a table with room and on a full one. *)
Lemma hash_enter_any fuel t es e :
  inv t es -> 0 <= port e < 2 ^ 31 ->
  hash_enter fuel t (hostname e) (port e) (sin e) = NoFuel \/
  (length es < 1024)%nat /\ exists t',
    hash_enter fuel t (hostname e) (port e) (sin e) = Ret t' /\ inv t' (es ++ [e]).
Proof.
  intros Hi Hp. pose proof Hi as [Hl Hc _ _].
  pose proof (hash_index_range (hostname e) (port e) Hp) as Hh.
  destruct (decide (length es < 1024)%nat) as [Hr | Hr].
  - destruct (hash_enter_inv t es e Hi Hr Hp) as (t' & E & Hi').
    destruct (first_free t _ Hl ltac:(lia) Hh) as (n & Hn & En & Hbefore).
    unfold hash_enter in *. rewrite <- (slot_zero _ Hh) in E |- *.
    destruct (enter_loop_any fuel t _ n 0 Hl En Hbefore ltac:(lia)) as [-> | Ef]; [by left |].
    right. split; [done |]. exists t'. rewrite Ef.
    by rewrite (enter_loop_spec 1024 t _ n 0) in E by (done || lia).
  - left. assert (Hfull : occupied t = 1024%nat).
    { pose proof (length_filter is_Some t). unfold occupied in *. lia. }
    unfold hash_enter. rewrite <- (slot_zero _ Hh). rewrite enter_loop_full; [done | done |].
    by apply full_slots.
Qed.

Lemma enter_all_any fuel es t es0 :
  inv t es0 -> Forall (fun e => 0 <= port e < 2 ^ 31) es -> (1024 < length es0 + length es)%nat ->
  enter_all fuel es t = NoFuel.
Proof.
  intros Hi F. revert t es0 Hi. induction F as [| e es Hp F IH]; intros t es0 Hi Hl; cbn [length] in Hl.
  - exfalso. pose proof (length_filter is_Some t). destruct Hi as [H1 H2 _ _]. unfold occupied in H2. lia.
  - cbn [enter_all]. destruct (hash_enter_any fuel t es0 e Hi Hp) as [-> | (Hr & t1 & -> & Hi1)]; [done |].
    rewrite bind_Ret. apply (IH t1 (es0 ++ [e]) Hi1). rewrite length_app. cbn [length]. lia.
Qed.

(** ** Lookups *)
Lemma lookup_found fuel t server p a k n :
  length t = 1024%nat -> 0 <= p < 2 ^ 31 -> 0 <= k <= n -> n < 1024 ->
  at_slot t (slot (hash_index server p) n) = Some (mkEntry server p a) ->
  (forall m, k <= m < n -> exists e,
     at_slot t (slot (hash_index server p) m) = Some e /\ key e <> (server, p)) ->
  (Z.to_nat (n - k) < fuel)%nat ->
  lookup_loop fuel t server p (hash_index server p) (slot (hash_index server p) k) = Ret (Some a).
Proof.
  intros Hl Hp. pose proof (hash_index_range server p Hp) as Hh. revert k.
  induction fuel as [| fuel IH]; intros k Hk Hn En Hb Hf; [lia |].
  cbn [lookup_loop]. rewrite aget_slot, bind_Ret by done.
  destruct (Z.eq_dec k n) as [-> | Hne].
  - rewrite En. cbn [port hostname sin]. by rewrite Z.eqb_refl, bool_decide_true.
  - destruct (Hb k ltac:(lia)) as (e & -> & Hke).
    destruct ((port e =? p) && bool_decide (hostname e = server)) eqn:Em;
      [by apply key_match in Em |].
    rewrite next_slot. destruct (Z.eqb_spec (slot (hash_index server p) (k + 1)) (hash_index server p)) as [E | _].
    { apply slot_full_circle in E; lia. }
    apply IH; [lia | lia | done | | lia]. intros m Hm. apply Hb. lia.
Qed.

Lemma lookup_absent fuel t server p k :
  length t = 1024%nat -> 0 <= p < 2 ^ 31 -> 0 <= k < 1024 ->
  (forall j e, 0 <= j < 1024 -> at_slot t j = Some e -> key e <> (server, p)) ->
  (Z.to_nat (1024 - k) <= fuel)%nat ->
  lookup_loop fuel t server p (hash_index server p) (slot (hash_index server p) k) = Ret None.
Proof.
  intros Hl Hp. pose proof (hash_index_range server p Hp) as Hh. revert k.
  induction fuel as [| fuel IH]; intros k Hk Ha Hf; [lia |].
  cbn [lookup_loop]. rewrite aget_slot, bind_Ret by done.
  destruct (at_slot t (slot (hash_index server p) k)) as [e |] eqn:E; [| done].
  destruct ((port e =? p) && bool_decide (hostname e = server)) eqn:Em.
  { apply key_match in Em. by apply Ha in E; [| apply slot_range]. }
  rewrite next_slot. destruct (Z.eqb_spec (slot (hash_index server p) (k + 1)) (hash_index server p)) as [Es | Ns]; [done |].
  apply IH; [| done | lia]. split; [lia |].
  destruct (Z.eq_dec (k + 1) 1024) as [E' |]; [| lia]. exfalso. apply Ns. by apply slot_full_circle; lia.
Qed.

Lemma hash_lookup_inv t es server p :
  inv t es -> 0 <= p < 2 ^ 31 -> hash_lookup 1024 t server p = Ret (spec_lookup es server p).
Proof.
  intros [Hl Hc Hf Ha] Hp. pose proof (hash_index_range server p Hp) as Hh. unfold hash_lookup.
  rewrite <- (slot_zero (hash_index server p) Hh) at 2.
  destruct (spec_lookup es server p) as [a |] eqn:E.
  - destruct (Hf server p a Hp E) as (n & Hn & En & Hb). apply (lookup_found 1024 t server p a 0 n); (done || lia).
  - apply lookup_absent; [done | done | lia | by apply Ha | lia].
Qed.
End Probing.

Example two_hosts :
  (t ← enter_all 1024 [mkEntry [104; 49] 80 1; mkEntry [104; 50] 80 2; mkEntry [104; 49] 80 3] empty;
   a ← hash_lookup 1024 t [104; 50] 80; b ← hash_lookup 1024 t [104; 49] 80;
   c ← hash_lookup 1024 t [104; 49] 81; Ret (a, b, c)) = Ret (Some 2, Some 1, None).
Proof. vm_compute. reflexivity. Qed.

(** ** The claims *)

(** C37: a table that at most 1024 addresses were entered into answers, for every
    host and port, the first address entered for them, or none, and every call
    returns within 1024 steps of its loop.  When more than 1024 are entered,
    the call for the 1025th never returns: no bound on the steps is enough. *)
Theorem table_is_first_match {A} (es : list (hash_entry A)) server p
    (Hports : Forall (fun e => 0 <= port e < 2 ^ 31) es) (Hp : 0 <= p < 2 ^ 31) :
  if Z.of_nat (length es) <=? 1024 then
    exists t, enter_all 1024 es empty = Ret t /\
      hash_lookup 1024 t server p = Ret (spec_lookup es server p)
  else forall fuel, enter_all fuel es empty = NoFuel.
Proof.
  destruct (Z.leb_spec (Z.of_nat (length es)) 1024).
  - destruct (enter_all_inv es empty [] inv_empty) as (t & E & Hi); [cbn; lia | done |].
    exists t. split; [done |]. by apply (hash_lookup_inv t es).
  - intros fuel. apply (enter_all_any fuel es empty []); [apply inv_empty | done | cbn; lia].
Qed.

Definition many (n : nat) : list (hash_entry Z) := map (fun k => mkEntry [97] k k) (seqZ 1 (Z.of_nat n)).

Lemma table_is_first_match_witness :
  (exists t, enter_all 1024 [mkEntry [104] 80 1; mkEntry [104] 80 2] empty = Ret t /\
    hash_lookup 1024 t [104] 80 = Ret (Some 1)) /\
  forall fuel, enter_all fuel (many 1025) empty = NoFuel.
Proof.
  split.
  - apply (table_is_first_match [mkEntry [104] 80 1; mkEntry [104] 80 2] [104] 80);
      [repeat constructor; cbn; lia | lia].
  - pose proof (table_is_first_match (many 1025) [104] 80) as H.
    assert (E : (Z.of_nat (length (many 1025)) <=? 1024) = false) by (vm_compute; reflexivity).
    rewrite E in H. apply H; [| lia]. apply Forall_map, Forall_seqZ. intros k Hk. cbn. lia.
Defined.

End AddrTable.
