(* ===== verification/Doubles.v ===== *)
(** * Doubles

    The type [double] of C as the [spec_float]s of precision 53 and largest
    exponent 1024, with the operations and conversions the programs use, computed
    and not assumed. *)
From Stdlib Require Export Floats.SpecFloat.
From S2P Require Import Prelude.

Module Doubles.

Definition double (z : Z) : spec_float := binary_normalize 53 1024 z 0 false.
Definition fadd : spec_float -> spec_float -> spec_float := SFadd 53 1024.
Definition fsub : spec_float -> spec_float -> spec_float := SFsub 53 1024.
Definition fmul : spec_float -> spec_float -> spec_float := SFmul 53 1024.
Definition fdiv : spec_float -> spec_float -> spec_float := SFdiv 53 1024.
Definition fsqrt : spec_float -> spec_float := SFsqrt 53 1024.
Definition fltb : spec_float -> spec_float -> bool := SFltb.
Definition fleb : spec_float -> spec_float -> bool := SFleb.
Definition fzero : spec_float := S754_zero false.

(** The conversion of a double to [u_long]; undefined out of range. *)
Definition to_ulong (x : spec_float) : cres Z :=
  match x with
  | S754_zero _ => Ret 0
  | S754_finite sign m e =>
      let v := Z.shiftl (Zpos m) e in
      if v =? 0 then Ret 0
      else if sign then Undef else if v <? 2 ^ 64 then Ret v else Undef
  | _ => Undef
  end.

Lemma to_ulong_range x k : to_ulong x = Ret k -> 0 <= k < 2 ^ 64.
Proof.
  destruct x as [sg | sg | | sg m e]; cbn [to_ulong]; try done.
  - intros [= <-]. lia.
  - destruct (Z.eqb_spec (Z.shiftl (Z.pos m) e) 0); [intros [= <-]; lia |].
    destruct sg; [done |]. destruct (Z.ltb_spec (Z.shiftl (Z.pos m) e) (2 ^ 64)); [| done].
    intros [= <-]. split; [| done]. by apply Z.shiftl_nonneg.
Qed.

Lemma to_ulong_fuel x : to_ulong x <> NoFuel.
Proof.
  unfold to_ulong. repeat match goal with |- context [match ?y with _ => _ end] => destruct y end; done.
Qed.

Lemma compare_opp x y :
  SFcompare y x = match SFcompare x y with Some c => Some (CompOpp c) | None => None end.
Proof.
  assert (A : forall a b, Pcompare b a Eq = CompOpp (Pcompare a b Eq)) by apply Pos.compare_antisym.
  destruct x as [[] | [] | | [] mx ex], y as [[] | [] | | [] my ey]; cbn; try done;
    rewrite (Z.compare_antisym ex ey); destruct (ex ?= ey); cbn; try done;
    unfold Pos.compare in *; rewrite (A mx my); by destruct (Pos.compare_cont Eq mx my).
Qed.

Lemma fltb_asym x y : fltb x y = true -> fltb y x = false.
Proof.
  unfold fltb, SFltb. rewrite (compare_opp x y). by destruct (SFcompare x y) as [[] |].
Qed.

Lemma fltb_irrefl x : fltb x x = false.
Proof. destruct (fltb x x) eqn:E; [| done]. pose proof (fltb_asym _ _ E). congruence. Qed.

(** ** Integers and halves of integers as doubles *)
Lemma digits2_bounds p : 2 ^ (Zpos (digits2_pos p) - 1) <= Zpos p < 2 ^ Zpos (digits2_pos p).
Proof.
  induction p as [p IH | p IH |]; cbn [digits2_pos]; [| | done];
    rewrite Pos2Z.inj_succ; replace (Z.succ (Zpos (digits2_pos p)) - 1) with (Z.succ (Zpos (digits2_pos p) - 1)) by lia;
    rewrite !Z.pow_succ_r by lia; lia.
Qed.

Lemma digits2_unique p d : 2 ^ (d - 1) <= Zpos p < 2 ^ d -> Zpos (digits2_pos p) = d.
Proof.
  intros H. pose proof (digits2_bounds p) as B.
  assert (0 < d) by (destruct (Z.leb_spec d 0); [| lia]; destruct (Z.eq_dec d 0) as [-> | ?];
    [change (2 ^ 0) with 1 in H; lia | rewrite (Z.pow_neg_r 2 d) in H by lia; lia]).
  destruct (Z.lt_trichotomy (Zpos (digits2_pos p)) d) as [L | [? | L]]; [| done |].
  - pose proof (Z.pow_le_mono_r 2 (Zpos (digits2_pos p)) (d - 1)). lia.
  - pose proof (Z.pow_le_mono_r 2 d (Zpos (digits2_pos p) - 1)). lia.
Qed.

Lemma digits2_shift p q k : 0 <= k -> Zpos q = Zpos p * 2 ^ k -> Zpos (digits2_pos q) = Zpos (digits2_pos p) + k.
Proof.
  intros Hk E. apply digits2_unique. rewrite E. pose proof (digits2_bounds p).
  replace (Zpos (digits2_pos p) + k - 1) with (Zpos (digits2_pos p) - 1 + k) by lia.
  rewrite !Z.pow_add_r by lia. nia.
Qed.

Lemma iter_pos_iter {A} (f : A -> A) n x : SpecFloat.iter_pos f n x = Nat.iter (Pos.to_nat n) f x.
Proof.
  revert x. induction n as [n IH | n IH |]; intros x; cbn [SpecFloat.iter_pos]; [| | done].
  - rewrite !IH, Pos2Nat.inj_xI, <- Nat.iter_add. replace (Pos.to_nat n + Pos.to_nat n)%nat with (2 * Pos.to_nat n)%nat by lia.
    symmetry. apply Nat.iter_succ_r.
  - rewrite !IH, Pos2Nat.inj_xO, <- Nat.iter_add. f_equal. lia.
Qed.

Lemma shr_exact n m :
  Nat.iter n shr_1 (Build_shr_record (Zpos m * 2 ^ Z.of_nat n) false false) = Build_shr_record (Zpos m) false false.
Proof.
  induction n as [| n IH]; [by rewrite Z.mul_1_r |]. rewrite Nat.iter_succ_r, <- IH. f_equal.
  replace (Zpos m * 2 ^ Z.of_nat (S n)) with (2 * (Zpos m * 2 ^ Z.of_nat n))
    by (rewrite Nat2Z.inj_succ, Z.pow_succ_r by lia; lia).
  assert (0 < Zpos m * 2 ^ Z.of_nat n) by nia. by destruct (Zpos m * 2 ^ Z.of_nat n).
Qed.

(** Rounding does nothing to a number that 53 digits hold. *)
Lemma round_exact m q e k :
  0 <= k -> Zpos q = Zpos m * 2 ^ k -> Zpos (digits2_pos m) = 53 -> -1074 <= e + k <= 971 ->
  binary_round_aux 53 1024 false (Zpos q) e loc_Exact = S754_finite false m (e + k).
Proof.
  intros Hk Eq Hm He. pose proof (digits2_shift m q k Hk Eq) as Dq.
  assert (S1 : shr_fexp 53 1024 (Zpos q) e loc_Exact = (Build_shr_record (Zpos m) false false, e + k)).
  { unfold shr_fexp. cbn [shr_record_of_loc Zdigits2]. rewrite Dq, Hm. unfold fexp, emin.
    replace (Z.max (53 + k + e - 53) (3 - 1024 - 53) - e) with k by lia.
    destruct k as [| k | k]; [| | lia]; cbn [shr].
    - rewrite Eq, Z.mul_1_r. f_equal. lia.
    - rewrite iter_pos_iter, Eq. pose proof (shr_exact (Pos.to_nat k) m) as X.
      rewrite positive_nat_Z in X. by rewrite X. }
  assert (S2 : shr_fexp 53 1024 (Zpos m) (e + k) loc_Exact = (Build_shr_record (Zpos m) false false, e + k)).
  { unfold shr_fexp. cbn [shr_record_of_loc Zdigits2]. rewrite Hm. unfold fexp, emin.
    by replace (Z.max (53 + (e + k) - 53) (3 - 1024 - 53) - (e + k)) with 0 by lia. }
  unfold binary_round_aux. rewrite S1. cbn [shr_m loc_of_shr_record round_nearest_even]. rewrite S2. cbn [shr_m].
  destruct (Z.leb_spec (e + k) (1024 - 53)); [done | lia].
Qed.

(** What a positive integer below 2^53 is as a double. *)
Lemma double_pos p :
  Zpos p < 2 ^ 53 -> exists m,
  double (Zpos p) = S754_finite false m (Zpos (digits2_pos p) - 53) /\
  Zpos m = Zpos p * 2 ^ (53 - Zpos (digits2_pos p)) /\ Zpos (digits2_pos m) = 53.
Proof.
  intros Hp. pose proof (digits2_bounds p) as B. set (d := Zpos (digits2_pos p)) in *.
  assert (Hd : 1 <= d <= 53).
  { split; [lia |]. destruct (Z.leb_spec d 53); [done |]. pose proof (Z.pow_le_mono_r 2 53 (d - 1)). lia. }
  assert (A : shl_align p 0 (fexp 53 1024 (d + 0)) =
              (match 53 - d with Zpos k => Pos.iter xO p k | _ => p end, d - 53)).
  { unfold shl_align, fexp, emin. replace (Z.max (d + 0 - 53) (3 - 1024 - 53) - 0) with (- (53 - d)) by lia.
    replace (Z.max (d + 0 - 53) (3 - 1024 - 53)) with (d - 53) by lia.
    destruct (53 - d) as [| k | k] eqn:E; cbn [Z.opp]; [| done | lia]. f_equal. lia. }
  assert (P : forall k, Zpos (Pos.iter xO p k) = Zpos p * 2 ^ Zpos k).
  { intros k. rewrite <- (Pos2Z.inj_pow 2 k) by lia. rewrite <- Pos2Z.inj_mul. f_equal.
    induction k as [| k IH] using Pos.peano_ind; [by rewrite Pos.mul_comm |].
    rewrite Pos.iter_succ, IH, Pos.pow_succ_r. lia. }
  set (m := match 53 - d with Zpos k => Pos.iter xO p k | _ => p end) in *.
  assert (Em : Zpos m = Zpos p * 2 ^ (53 - d)).
  { subst m. destruct (53 - d) as [| k | k] eqn:E; [by rewrite Z.mul_1_r | apply P | lia]. }
  exists m. assert (Dm : Zpos (digits2_pos m) = 53) by (rewrite (digits2_shift p m (53 - d)); lia).
  split_and!; [| done | done]. unfold double, binary_normalize, binary_round. fold d. rewrite A.
  rewrite (round_exact m m (d - 53) 0); [by rewrite Z.add_0_r | lia | by rewrite Z.mul_1_r | done | lia].
Qed.

(** 0.5 *)
Definition half : spec_float := fdiv (double 1) (double 2).

(** [0.5 * (double) a <= (double) b] compares the integers. *)
Lemma half_le a b : 0 <= a < 2 ^ 53 -> 0 <= b < 2 ^ 53 -> fleb (fmul half (double a)) (double b) = (a <=? 2 * b).
Proof.
  intros Ha Hb. assert (H0 : double 0 = S754_zero false) by reflexivity.
  assert (Hh : half = S754_finite false 4503599627370496 (-53)) by reflexivity.
  destruct a as [| a | a]; [| | lia].
  { rewrite H0, Hh. cbn [fmul SFmul xorb]. destruct b as [| b | b]; [done | | lia].
    destruct (double_pos b ltac:(lia)) as (m & -> & _). done. }
  destruct (double_pos a ltac:(lia)) as (ma & Ea & Va & Da). rewrite Ea, Hh. cbn [fmul SFmul xorb]. unfold fmul, SFmul. cbn [xorb].
  rewrite (round_exact ma _ _ 52); [| lia | rewrite Pos2Z.inj_mul; change (2 ^ 52) with 4503599627370496; lia | done |].
  2: { pose proof (digits2_bounds a). destruct (Z.leb_spec (Zpos (digits2_pos a)) 53); [lia |].
       pose proof (Z.pow_le_mono_r 2 53 (Zpos (digits2_pos a) - 1)). lia. }
  destruct b as [| b | b]; [| | lia]; [rewrite H0; cbn; symmetry; apply Z.leb_gt; lia |].
  destruct (double_pos b ltac:(lia)) as (mb & Eb & Vb & Db). rewrite Eb. unfold fleb, SFleb. cbn [SFcompare].
  pose proof (digits2_bounds a) as Ba. pose proof (digits2_bounds b) as Bb.
  pose proof (digits2_bounds ma) as Bma. pose proof (digits2_bounds mb) as Bmb. rewrite Da in Bma. rewrite Db in Bmb.
  set (da := Zpos (digits2_pos a)) in *. set (db := Zpos (digits2_pos b)) in *.
  replace (-53 + (da - 53) + 52) with (da - 54) by lia.
  assert (K1 : da <= 53) by (destruct (Z.leb_spec da 53); [done | pose proof (Z.pow_le_mono_r 2 53 (da - 1)); lia]).
  assert (K2 : db <= 53) by (destruct (Z.leb_spec db 53); [done | pose proof (Z.pow_le_mono_r 2 53 (db - 1)); lia]).
  destruct (Z.compare_spec (da - 54) (db - 53)) as [E | L | L].
  - assert (Edb : db = da - 1) by lia. change (Pos.compare_cont Eq ma mb) with (Pos.compare ma mb).
    assert (V : Zpos mb = 2 * Zpos b * 2 ^ (53 - da)).
    { rewrite Vb, Edb. replace (53 - (da - 1)) with (Z.succ (53 - da)) by lia. rewrite Z.pow_succ_r by lia. lia. }
    assert (0 < 2 ^ (53 - da)) by lia.
    destruct (Pos.compare_spec ma mb) as [X | X | X]; symmetry; [apply Z.leb_le | apply Z.leb_le | apply Z.leb_gt]; nia.
  - symmetry. apply Z.leb_le. pose proof (Z.pow_le_mono_r 2 da db).
    assert (2 * 2 ^ (db - 1) = 2 ^ db) by (rewrite <- Z.pow_succ_r by lia; f_equal; lia). lia.
  - symmetry. apply Z.leb_gt. pose proof (Z.pow_le_mono_r 2 (db + 1) (da - 1)).
    rewrite (Z.pow_add_r 2 db 1) in * by lia. change (2 ^ 1) with 2 in *. lia.
Qed.

End Doubles.
