(* ===== verification/Rounding.v ===== *)
(** * Rounding

    What rounding to a number of digits does, for any precision and largest exponent: the
    sign stays, and the result is one of the two numbers of that precision beside the
    exact one.  The error of the operations on positive numbers follows: the result is
    [1 + d] times the exact one, [d] at most [2 ^ (1 - prec)]. *)
From Stdlib Require Import Floats.SpecFloat.
From S2P Require Import Prelude Doubles.

Module Rounding.
Import Doubles.

(** ** Shifts *)
Lemma shr_1_m r : 0 <= shr_m r -> shr_m (shr_1 r) = shr_m r / 2.
Proof. destruct r as [m rr s]. cbn [shr_m]. intros Hm. destruct m as [| [p | p |] |]; try done; try lia; cbn; zdiv. Qed.

Lemma shr_iter_m n r : 0 <= shr_m r -> shr_m (Nat.iter n shr_1 r) = shr_m r / 2 ^ Z.of_nat n.
Proof.
  intros Hr. induction n as [| n IH]; [by rewrite Z.div_1_r |]. change (Nat.iter (S n) shr_1 r) with (shr_1 (Nat.iter n shr_1 r)). rewrite shr_1_m, IH.
  - rewrite Nat2Z.inj_succ, Z.pow_succ_r, (Z.mul_comm 2) by lia. by rewrite Z.div_div by lia.
  - rewrite IH. apply Z.div_pos; lia.
Qed.

Lemma shr_record_m m l : shr_m (shr_record_of_loc m l) = m.
Proof. by destruct l as [| []]. Qed.

Lemma round_nearest_cases m l : round_nearest_even m l = m \/ round_nearest_even m l = m + 1.
Proof. destruct l as [| []]; cbn; auto. destruct (Z.even m); auto. Qed.

Lemma digits2_le p k : 0 <= k -> Zpos p < 2 ^ k -> Zpos (digits2_pos p) <= k.
Proof.
  intros Hk H. pose proof (digits2_bounds p). destruct (Z.le_gt_cases (Zpos (digits2_pos p)) k); [done |].
  pose proof (Z.pow_le_mono_r 2 k (Zpos (digits2_pos p) - 1)). lia.
Qed.

Lemma shl_align_fst m e e' : e' <= e -> Zpos (fst (shl_align m e e')) = Zpos m * 2 ^ (e - e').
Proof.
  intros H. unfold shl_align. destruct (e' - e) as [| d | d] eqn:E; cbn [fst]; [| lia |].
  - replace (e - e') with 0 by lia. by rewrite Z.mul_1_r.
  - replace (e - e') with (Zpos d) by lia. rewrite <- (Pos2Z.inj_pow 2 d) by lia. rewrite <- Pos2Z.inj_mul. f_equal.
    induction d as [| d IH] using Pos.peano_ind in |- * ; [by rewrite Pos.mul_comm |].
    rewrite Pos.iter_succ, IH, Pos.pow_succ_r. lia.
Qed.

Section Format.
Context (prec emax : Z) (Hprec : 1 < prec).
Local Abbreviation emin := (3 - emax - prec).

(** The shift to [prec] digits of a number whose exponent is not too small. *)
Lemma shr_fexp_value m e l :
  0 < m -> emin <= e -> let k := Z.max 0 (Zdigits2 m - prec) in
  shr_m (fst (shr_fexp prec emax m e l)) = m / 2 ^ k /\ snd (shr_fexp prec emax m e l) = e + k.
Proof.
  intros Hm He k. unfold shr_fexp, fexp, SpecFloat.emin.
  assert (E : Z.max (Zdigits2 m + e - prec) emin - e = k \/ (k = 0 /\ Z.max (Zdigits2 m + e - prec) emin - e <= 0))
    by (unfold k; lia).
  assert (Hz : m / 2 ^ 0 = m) by apply Z.div_1_r.
  destruct E as [E | [E E']].
  - rewrite E. destruct k as [| kp | kp] eqn:Ek; [| | lia]; cbn [shr fst snd].
    + rewrite shr_record_m, Hz. lia.
    + rewrite iter_pos_iter, shr_iter_m, shr_record_m, positive_nat_Z; [done |]. rewrite shr_record_m. lia.
  - rewrite E, Hz, Z.add_0_r. destruct (Z.max (Zdigits2 m + e - prec) emin - e) as [| k' |] eqn:Ek; [| lia |];
      cbn [shr fst snd]; by rewrite shr_record_m.
Qed.

(** Nothing is lost when the digits that are dropped are zeros. *)
Lemma shr_fexp_exact q e (k := Z.max 0 (Zpos (digits2_pos q) - prec)) :
  emin <= e -> Zpos q = Zpos q / 2 ^ k * 2 ^ k ->
  fst (shr_fexp prec emax (Zpos q) e loc_Exact) = Build_shr_record (Zpos q / 2 ^ k) false false.
Proof.
  intros He Eq. unfold shr_fexp, fexp, SpecFloat.emin. cbn [shr_record_of_loc Zdigits2].
  set (s := Z.max (Zpos (digits2_pos q) + e - prec) emin - e). assert (0 < Zpos q / 2 ^ k) by nia.
  destruct s as [| n | n] eqn:Es; cbn [shr fst].
  1, 3: assert (k = 0) as -> by (unfold s, k in *; lia); by rewrite Z.div_1_r.
  assert (k = Zpos n) as Ek by (unfold s, k in *; lia). rewrite Ek in *. rewrite iter_pos_iter.
  destruct (Zpos q / 2 ^ Zpos n) as [| f |]; [lia | | lia]. rewrite Eq. pose proof (shr_exact (Pos.to_nat n) f) as X.
  by rewrite positive_nat_Z in X.
Qed.

(** The digits that are kept. *)
Lemma kept_digits q (k := Z.max 0 (Zpos (digits2_pos q) - prec)) :
  0 < Zpos q / 2 ^ k < 2 ^ prec /\ (2 ^ (prec - 1) <= Zpos q -> 2 ^ (prec - 1) <= Zpos q / 2 ^ k).
Proof.
  pose proof (digits2_bounds q) as B. assert (Hk : 0 < 2 ^ k) by lia.
  assert (U : Zpos q / 2 ^ k < 2 ^ prec).
  { apply Z.div_lt_upper_bound; [done |]. rewrite <- Z.pow_add_r by lia.
    pose proof (Z.pow_le_mono_r 2 (Zpos (digits2_pos q)) (k + prec)). lia. }
  destruct (Z.max_spec 0 (Zpos (digits2_pos q) - prec)) as [[L E] | [L E]].
  - assert (2 ^ (prec - 1) <= Zpos q / 2 ^ k).
    { apply Z.div_le_lower_bound; [done |]. rewrite <- Z.pow_add_r by lia.
      pose proof (Z.pow_le_mono_r 2 (k + (prec - 1)) (Zpos (digits2_pos q) - 1)). lia. }
    pose proof (Z.pow_pos_nonneg 2 (prec - 1)). lia.
  - assert (k = 0) as -> by lia. rewrite Z.div_1_r in *. lia.
Qed.

(** The rounded number is [m1 * 2 ^ (e + k)]: [k] digits are dropped. *)
Lemma round_spec sx q e l (k := Z.max 0 (Zpos (digits2_pos q) - prec)) :
  emin <= e < emax - prec -> Zpos (digits2_pos q) + e < emax ->
  exists m e' m1, binary_round_aux prec emax sx (Zpos q) e l = S754_finite sx m e' /\ e <= e' <= e + k + 1 /\
    (m1 = Zpos q / 2 ^ k \/ m1 = Zpos q / 2 ^ k + 1) /\ (l = loc_Exact -> Zpos q = Zpos q / 2 ^ k * 2 ^ k -> m1 = Zpos q / 2 ^ k) /\
    Zpos m * 2 ^ (e' - e) = m1 * 2 ^ k /\ Zpos m < 2 ^ prec /\ (2 ^ (prec - 1) <= Zpos q -> 2 ^ (prec - 1) <= Zpos m).
Proof.
  intros He Hd. pose proof (shr_fexp_value (Zpos q) e l eq_refl (proj1 He)) as [M1 E1]. pose proof (shr_fexp_exact q e (proj1 He)) as X1. cbn [Zdigits2] in *.
  fold k in M1, E1, X1. unfold binary_round_aux. destruct (shr_fexp prec emax (Zpos q) e l) as [r1 e1] eqn:Er. cbn [fst snd] in *. subst e1.
  assert (Hk : 0 < 2 ^ k) by lia. destruct (kept_digits q) as [L1 N1]. fold k in L1, N1.
  set (m1 := round_nearest_even (shr_m r1) (loc_of_shr_record r1)).
  assert (Hm1 : m1 = Zpos q / 2 ^ k \/ m1 = Zpos q / 2 ^ k + 1).
  { unfold m1. rewrite M1. apply round_nearest_cases. }
  assert (Hx : l = loc_Exact -> Zpos q = Zpos q / 2 ^ k * 2 ^ k -> m1 = Zpos q / 2 ^ k).
  { intros -> Eq. unfold m1. specialize (X1 Eq). rewrite Er in X1. cbn [fst] in X1. by rewrite X1. }
  assert (Hp : 2 ^ prec = 2 * 2 ^ (prec - 1)) by (rewrite <- Z.pow_succ_r by lia; f_equal; lia).
  assert (0 < 2 ^ (prec - 1)) by (apply Z.pow_pos_nonneg; lia).
  pose proof (shr_fexp_value m1 (e + k) loc_Exact ltac:(lia) ltac:(lia)) as [M2 E2].
  destruct (shr_fexp prec emax m1 (e + k) loc_Exact) as [r2 e2]. cbn [fst snd] in *.
  set (k2 := Z.max 0 (Zdigits2 m1 - prec)) in *.
  assert (Hk2 : shr_m r2 * 2 ^ k2 = m1 /\ 0 <= k2 <= 1 /\ shr_m r2 < 2 ^ prec /\ (2 ^ (prec - 1) <= m1 -> 2 ^ (prec - 1) <= shr_m r2)).
  { rewrite M2. destruct (Z.eq_dec m1 (2 ^ prec)) as [Em | Em].
    - assert (Zdigits2 m1 = prec + 1) as D.
      { destruct m1 as [| p |] eqn:Ep; [lia | | lia]. cbn [Zdigits2]. apply digits2_unique. rewrite Em.
        replace (prec + 1 - 1) with prec by lia. rewrite Z.pow_add_r by lia. lia. }
      unfold k2. rewrite D. replace (prec + 1 - prec) with 1 by lia. change (Z.max 0 1) with 1. change (2 ^ 1) with 2.
      rewrite Em, Hp. rewrite (Z.mul_comm 2), Z.div_mul by lia. lia.
    - destruct m1 as [| p |] eqn:Ep; [lia | | lia]. pose proof (digits2_le p prec ltac:(lia) ltac:(lia)). unfold k2. cbn [Zdigits2].
      rewrite Z.max_l by lia. rewrite Z.div_1_r. lia. }
  destruct Hk2 as (V2 & Hk2 & U2 & N2). assert (0 < 2 ^ k2) by lia.
  destruct (shr_m r2) as [| m2 | m2] eqn:Em2; [lia | | lia].
  destruct (Z.leb_spec e2 (emax - prec)) as [_ | ?]; [| lia].
  exists m2, e2, m1. split_and!; [done | lia | lia | done | done | | done |].
  2: { intros Hq. apply N2. specialize (N1 Hq). lia. }
  replace (e2 - e) with (k2 + k) by lia. rewrite Z.pow_add_r by lia. by rewrite Z.mul_assoc, V2.
Qed.
End Format.

(** The sign goes through. *)
Lemma round_aux_sign prec emax m e l : binary_round_aux prec emax true m e l = SFopp (binary_round_aux prec emax false m e l).
Proof.
  unfold binary_round_aux. destruct (shr_fexp _ _ m e l) as [r e1]. destruct (shr_fexp _ _ _ e1 _) as [r2 e2].
  destruct (shr_m r2); try done. by case_match.
Qed.

(** ** Values *)
(** The value of a positive number with all its digits, in units of 2^-200. *)
Definition unit_of (e : Z) : Z := 2 ^ (e + 200).
Definition is_float (prec : Z) (x : spec_float) (w : Z) : Prop :=
  exists m e, x = S754_finite false m e /\ 2 ^ (prec - 1) <= Zpos m < 2 ^ prec /\ -190 <= e <= 100 /\ w = Zpos m * unit_of e.
(** [w] is [n / d] rounded: within its [2 ^ (1 - prec)]th part, and no float is between. *)
Record rounds (prec w d n : Z) : Prop := {
  near : Z.abs (w * d - n) * 2 ^ (prec - 1) <= n;
  not_below : forall y v, is_float prec y v -> v * d <= n -> v <= w;
  not_above : forall y v, is_float prec y v -> n <= v * d -> w <= v }.

Lemma unit_pos e : -200 <= e -> 0 < unit_of e.
Proof. intros. apply Z.pow_pos_nonneg; lia. Qed.
Lemma unit_add e k : -200 <= e -> 0 <= k -> unit_of (e + k) = unit_of e * 2 ^ k.
Proof. intros. unfold unit_of. rewrite <- Z.pow_add_r by lia. f_equal. lia. Qed.
Lemma unit_mul e1 e2 : -200 <= e1 -> -200 <= e2 -> -200 <= e1 + e2 -> unit_of e1 * unit_of e2 = unit_of (e1 + e2) * unit_of 0.
Proof. intros. unfold unit_of. rewrite <- !Z.pow_add_r by lia. f_equal. lia. Qed.

Section Error.
Context (prec emax lo : Z) (Hprec : 24 <= prec <= 53) (Hemax : 128 <= emax) (Hlo : 3 - emax - prec <= lo) (Hlo' : -190 <= lo <= -100).

(** The exponent, from the value. *)
Lemma exponent_bounds m e a b :
  2 ^ (prec - 1) <= Zpos m < 2 ^ prec -> -200 <= e -> 0 <= a -> 0 <= b -> 2 ^ a <= Zpos m * unit_of e < 2 ^ b -> a - prec - 200 < e <= b - prec - 200.
Proof.
  intros Hm He Ha Hb H. pose proof (unit_pos e He). unfold unit_of in *. split.
  - destruct (Z.lt_ge_cases (a - prec - 200) e); [done |]. pose proof (Z.pow_le_mono_r 2 (prec + (e + 200)) a ltac:(lia) ltac:(lia)) as L.
    rewrite Z.pow_add_r in L by lia. nia.
  - destruct (Z.le_gt_cases e (b - prec - 200)); [done |]. pose proof (Z.pow_le_mono_r 2 b (prec - 1 + (e + 200)) ltac:(lia) ltac:(lia)) as L.
    rewrite Z.pow_add_r in L by lia. nia.
Qed.

Lemma rounds_scale w d n c : 0 < c -> rounds prec w d n -> rounds prec w (d * c) (n * c).
Proof.
  intros Hc [N B A]. constructor.
  - replace (w * (d * c) - n * c) with ((w * d - n) * c) by lia. rewrite Z.abs_mul, (Z.abs_eq c) by lia. nia.
  - intros y v F H. apply (B y v F). nia.
  - intros y v F H. apply (A y v F). nia.
Qed.

(** Between a number of [prec] digits and the next there is no float. *)
Lemma float_grid y v f a : is_float prec y v -> -200 <= a -> 2 ^ (prec - 1) <= f -> f * unit_of a < v -> (f + 1) * unit_of a <= v.
Proof.
  intros (m & e & _ & Hm & He & ->) Ha Hf H. pose proof (unit_pos a Ha). pose proof (unit_pos e ltac:(lia)).
  destruct (Z.le_gt_cases a e) as [L | L].
  - replace e with (a + (e - a)) in * by lia. rewrite unit_add in * by lia. assert (0 < 2 ^ (e - a)) by (apply Z.pow_pos_nonneg; lia).
    assert (f < Zpos m * 2 ^ (e - a)) by nia. nia.
  - replace a with (e + (a - e)) in H by lia. rewrite unit_add in H by lia. pose proof (Z.pow_le_mono_r 2 1 (a - e) ltac:(lia) ltac:(lia)).
    change (2 ^ 1) with 2 in *. assert (2 ^ prec = 2 * 2 ^ (prec - 1)) by (rewrite <- Z.pow_succ_r by lia; f_equal; lia).
    assert (2 ^ prec <= f * 2 ^ (a - e)) by nia. nia.
Qed.

Lemma round_error q e l :
  lo <= e -> 2 ^ (prec - 1) <= Zpos q -> Zpos q * unit_of e < 2 ^ 260 ->
  exists w, is_float prec (binary_round_aux prec emax false (Zpos q) e l) w /\
    forall n d, 0 < d -> Zpos q * d <= n < (Zpos q + 1) * d -> (n = Zpos q * d -> l = loc_Exact) -> rounds prec w d (n * unit_of e).
Proof.
  intros He Hq Hv. set (k := Z.max 0 (Zpos (digits2_pos q) - prec)). pose proof (digits2_bounds q) as B.
  assert (Zpos (digits2_pos q) + e <= 60) as Hd.
  { destruct (Z.le_gt_cases (Zpos (digits2_pos q) + e) 60); [done |].
    pose proof (Z.pow_le_mono_r 2 260 (Zpos (digits2_pos q) - 1 + (e + 200)) ltac:(lia) ltac:(lia)) as L.
    rewrite Z.pow_add_r in L by lia. pose proof (unit_pos e ltac:(lia)). unfold unit_of in *. nia. }
  assert (prec <= Zpos (digits2_pos q)) as Hp.
  { destruct (Z.le_gt_cases prec (Zpos (digits2_pos q))); [done |]. pose proof (Z.pow_le_mono_r 2 (Zpos (digits2_pos q)) (prec - 1)). lia. }
  destruct (round_spec prec emax ltac:(lia) false q e l) as (m & e' & m1 & -> & He' & Hm1 & Hx & Hv' & Hu & Hl); [lia | lia |].
  destruct (kept_digits prec ltac:(lia) q) as [_ Hf]. specialize (Hf Hq).
  fold k in He', Hm1, Hx, Hv', Hf. exists (Zpos m * unit_of e'). split.
  { exists m, e'. split_and!; try done; [by apply Hl | lia | lia]. }
  assert (Zpos m * unit_of e' = m1 * unit_of (e + k)) as ->.
  { replace e' with (e + (e' - e)) at 1 by lia. rewrite !unit_add by lia. rewrite (Z.mul_comm (unit_of e)), Z.mul_assoc, Hv'. lia. }
  intros n d Hdpos Hn Hex. pose proof (unit_pos e ltac:(lia)) as Ue. pose proof (unit_pos (e + k) ltac:(lia)) as Uk. assert (0 < 2 ^ k) as Hk by lia.
  pose proof (Z.mul_div_le (Zpos q) (2 ^ k) Hk) as Hfl. pose proof (Z.mul_succ_div_gt (Zpos q) (2 ^ k) Hk) as Hce.
  pose proof (unit_add e k ltac:(lia) ltac:(lia)) as Eu. set (f := Zpos q / 2 ^ k) in *.
  assert (f * unit_of (e + k) * d <= n * unit_of e) as L by (rewrite Eu; assert (f * 2 ^ k * d <= n) by nia; nia).
  assert (n * unit_of e < (f + 1) * unit_of (e + k) * d) as U.
  { rewrite Eu. assert (n < (f + 1) * 2 ^ k * d) by (assert (Zpos q + 1 <= (f + 1) * 2 ^ k) by lia; nia). nia. }
  constructor.
  - assert (Z.abs (m1 * unit_of (e + k) * d - n * unit_of e) <= unit_of (e + k) * d) as Ha by (destruct Hm1 as [-> | ->]; lia).
    assert (unit_of (e + k) * d * 2 ^ (prec - 1) <= n * unit_of e) by nia. nia.
  - intros y v F H. destruct (Z.le_gt_cases v (f * unit_of (e + k))) as [? | G]; [destruct Hm1 as [-> | ->]; nia |].
    pose proof (float_grid y v f (e + k) F ltac:(lia) Hf G). nia.
  - intros y v F H. destruct Hm1 as [-> | Hm1]; [nia |]. destruct (Z.le_gt_cases v (f * unit_of (e + k))) as [G | G].
    + exfalso. assert (n = Zpos q * d /\ Zpos q = f * 2 ^ k) as [E1 E2].
      { rewrite Eu in *. assert (n * unit_of e <= f * 2 ^ k * d * unit_of e) by nia. assert (n <= f * 2 ^ k * d) by nia. nia. }
      specialize (Hx (Hex E1) E2). lia.
    + rewrite Hm1. exact (float_grid y v f (e + k) F ltac:(lia) Hf G).
Qed.

Lemma round_pos_error p e :
  lo <= Zpos (digits2_pos p) + e - prec -> lo <= e -> Zpos p * unit_of e < 2 ^ 260 ->
  exists w, is_float prec (binary_round prec emax false p e) w /\ rounds prec w 1 (Zpos p * unit_of e).
Proof.
  intros Hd He Hv. unfold binary_round, fexp, SpecFloat.emin. rewrite Z.max_l by lia. pose proof (digits2_bounds p) as B.
  set (e2 := Zpos (digits2_pos p) + e - prec). destruct (Z.le_gt_cases e2 e) as [L | L].
  - pose proof (shl_align_fst p e e2 L) as Eq. assert (snd (shl_align p e e2) = e2) as Es.
    { unfold shl_align. destruct (e2 - e) eqn:E; cbn [snd]; lia. }
    destruct (shl_align p e e2) as [q e'] eqn:E. cbn [fst snd] in *. subst e'.
    assert (Zpos q * unit_of e2 = Zpos p * unit_of e) as Ev.
    { rewrite Eq, <- Z.mul_assoc, (Z.mul_comm (2 ^ _)), <- unit_add by lia. do 2 f_equal. lia. }
    destruct (round_error q e2 loc_Exact) as (w & F & N); [lia | | lia |].
    { rewrite Eq. replace (prec - 1) with (Zpos (digits2_pos p) - 1 + (e - e2)) by lia. rewrite Z.pow_add_r by lia.
      assert (0 < 2 ^ (e - e2)) by (apply Z.pow_pos_nonneg; lia). nia. }
    exists w. split; [done |]. rewrite <- Ev. apply N; lia || done.
  - unfold shl_align. destruct (e2 - e) as [| d | d] eqn:E; [lia | | lia].
    destruct (round_error p e loc_Exact) as (w & F & N); [lia | | done |].
    { pose proof (Z.pow_le_mono_r 2 (prec - 1) (Zpos (digits2_pos p) - 1)). lia. }
    exists w. split; [done |]. apply N; lia || done.
Qed.

(** ** The operations *)
Lemma int_error z s :
  0 < z < 2 ^ 60 -> exists w, is_float prec (binary_normalize prec emax z 0 s) w /\ rounds prec w 1 (z * unit_of 0).
Proof.
  intros Hz. destruct z as [| p |]; [lia | | lia]. apply round_pos_error; [lia | lia |].
  change (unit_of 0) with (2 ^ 200). replace (2 ^ 260) with (2 ^ 60 * 2 ^ 200) by (by rewrite <- Z.pow_add_r). nia.
Qed.

Lemma mul_error c x y w v :
  0 <= c -> lo <= 2 * (c - prec - 199) ->
  is_float prec x w -> is_float prec y v -> 2 ^ c <= w < 2 ^ 240 -> 2 ^ c <= v < 2 ^ 240 -> w * v < 2 ^ 260 * unit_of 0 ->
  exists u, is_float prec (SFmul prec emax x y) u /\ rounds prec u (unit_of 0) (w * v).
Proof.
  intros Hc Hlc (m & e & -> & Hm & He & ->) (m' & e' & -> & Hm' & He' & ->) Hw Hv Ho.
  pose proof (exponent_bounds m e c 240 Hm ltac:(lia) ltac:(lia) ltac:(lia) Hw).
  pose proof (exponent_bounds m' e' c 240 Hm' ltac:(lia) ltac:(lia) ltac:(lia) Hv).
  pose proof (unit_mul e e' ltac:(lia) ltac:(lia) ltac:(lia)) as Eu. pose proof (unit_pos 0 ltac:(lia)) as U0.
  assert (Zpos m * unit_of e * (Zpos m' * unit_of e') = Zpos (m * m') * unit_of (e + e') * unit_of 0) as Ep.
  { rewrite Pos2Z.inj_mul. transitivity (Zpos m * Zpos m' * (unit_of e * unit_of e')); [lia | rewrite Eu; lia]. }
  assert (0 < 2 ^ (prec - 1)) by (apply Z.pow_pos_nonneg; lia).
  destruct (round_error (m * m') (e + e') loc_Exact) as (u & F & N); [lia | | |].
  - rewrite Pos2Z.inj_mul. nia.
  - rewrite Ep in Ho. nia.
  - exists u. split; [done |]. rewrite Ep. replace (unit_of 0) with (1 * unit_of 0) at 1 by lia.
    apply rounds_scale; [lia |]. apply N; lia || done.
Qed.

Lemma float_digits m : 2 ^ (prec - 1) <= Zpos m < 2 ^ prec -> Zpos (digits2_pos m) = prec.
Proof. apply digits2_unique. Qed.

Lemma div_error c x y w v :
  is_float prec x w -> is_float prec y v -> 0 <= c -> 2 ^ c <= w -> v < 2 ^ 240 -> lo <= c - 240 - prec ->
  w * unit_of 0 < 2 ^ 260 * v ->
  exists u, is_float prec (SFdiv prec emax x y) u /\ rounds prec u v (w * unit_of 0).
Proof.
  intros (m & e & -> & Hm & He & ->) (m' & e' & -> & Hm' & He' & ->) Hc Hw Hv Hlc Ho.
  assert (lo <= e - e' - prec) as Hee.
  { assert (c - prec - 200 < e).
    { pose proof (unit_pos e ltac:(lia)). unfold unit_of in *. destruct (Z.lt_ge_cases (c - prec - 200) e); [done |].
      pose proof (Z.pow_le_mono_r 2 (prec + (e + 200)) c ltac:(lia) ltac:(lia)) as L. rewrite Z.pow_add_r in L by lia. nia. }
    assert (e' <= 240 - prec - 200).
    { pose proof (unit_pos e' ltac:(lia)). unfold unit_of in *. destruct (Z.le_gt_cases e' (240 - prec - 200)); [done |].
      pose proof (Z.pow_le_mono_r 2 240 (prec - 1 + (e' + 200)) ltac:(lia) ltac:(lia)) as L. rewrite Z.pow_add_r in L by lia. nia. }
    lia. }
  unfold SFdiv, SFdiv_core_binary. cbn [Zdigits2 xorb]. rewrite !float_digits by done. unfold fexp, SpecFloat.emin.
  replace (Z.min (Z.max (prec + e - (prec + e') - prec) (3 - emax - prec)) (e - e')) with (e - e' - prec) by lia.
  replace (e - e' - (e - e' - prec)) with prec by lia. set (e2 := e - e' - prec) in *.
  assert (match prec with Z0 => Zpos m | Zpos _ => Z.shiftl (Zpos m) prec | Zneg _ => 0 end = Zpos m * 2 ^ prec) as ->.
  { rewrite <- Z.shiftl_mul_pow2 by lia. by destruct prec; [| |lia]. }
  pose proof (Z_div_mod (Zpos m * 2 ^ prec) (Zpos m') ltac:(lia)) as Dm. destruct (Z.div_eucl _ _) as [q r]. destruct Dm as [Eq Hr].
  assert (2 ^ prec = 2 * 2 ^ (prec - 1)) as Hp by (rewrite <- Z.pow_succ_r by lia; f_equal; lia).
  assert (0 < 2 ^ (prec - 1)) by (apply Z.pow_pos_nonneg; lia).
  assert (2 ^ (prec - 1) <= q) as Hq by nia. destruct q as [| q |]; [lia | | lia].
  assert (unit_of e2 * unit_of e' * 2 ^ prec = unit_of e * unit_of 0) as Eu.
  { unfold unit_of. rewrite <- !Z.pow_add_r by lia. f_equal. unfold e2. lia. }
  pose proof (unit_pos e2 ltac:(lia)) as U2. pose proof (unit_pos e' ltac:(lia)) as U'.
  assert (Zpos m * unit_of e * unit_of 0 = Zpos m * 2 ^ prec * unit_of e2 * unit_of e') as Ew.
  { transitivity (Zpos m * (unit_of e * unit_of 0)); [lia | rewrite <- Eu; lia]. }
  destruct (round_error q e2 (new_location (Zpos m') r)) as (u & F & N); [lia | done | |].
  - rewrite Ew in Ho. destruct (Z.lt_ge_cases (Zpos q * unit_of e2) (2 ^ 260)); [done |].
    assert (Zpos q * Zpos m' <= Zpos m * 2 ^ prec) by nia. assert (2 ^ 260 * (Zpos m' * unit_of e') <= Zpos q * unit_of e2 * (Zpos m' * unit_of e')) by nia.
    assert (Zpos q * Zpos m' * (unit_of e2 * unit_of e') <= Zpos m * 2 ^ prec * (unit_of e2 * unit_of e')) by nia. lia.
  - exists u. split; [done |]. rewrite Ew. apply rounds_scale; [lia |]. apply N; [lia | nia |].
    intros En. assert (r = 0) as -> by lia. unfold new_location, new_location_even, new_location_odd. by destruct (Z.even _).
Qed.

Lemma add_error c x y w v :
  is_float prec x w -> is_float prec y v -> 0 <= c -> 2 ^ c <= w -> 2 ^ c <= v -> lo <= c - prec - 199 -> w + v < 2 ^ 260 ->
  exists u, is_float prec (SFadd prec emax x y) u /\ rounds prec u 1 (w + v).
Proof.
  intros (m & e & -> & Hm & He & ->) (m' & e' & -> & Hm' & He' & ->) Hc Hw Hv Hlc Ho. unfold SFadd. cbn [cond_Zopp].
  assert (forall m e, 2 ^ (prec - 1) <= Zpos m < 2 ^ prec -> -190 <= e -> 2 ^ c <= Zpos m * unit_of e -> lo <= e) as Hl.
  { clear - Hprec Hc Hlc. intros m e Hm He H. pose proof (unit_pos e ltac:(lia)). unfold unit_of in *. destruct (Z.le_gt_cases lo e); [done |].
    pose proof (Z.pow_le_mono_r 2 (prec + (e + 200)) c ltac:(lia) ltac:(lia)) as L. rewrite Z.pow_add_r in L by lia. nia. }
  pose proof (Hl m e Hm (proj1 He) Hw). pose proof (Hl m' e' Hm' (proj1 He') Hv). set (ez := Z.min e e').
  pose proof (shl_align_fst m e ez ltac:(lia)) as E1. pose proof (shl_align_fst m' e' ez ltac:(lia)) as E2.
  set (a := fst (shl_align m e ez)) in *. set (b := fst (shl_align m' e' ez)) in *.
  assert (forall m e a, ez <= e -> Zpos a = Zpos m * 2 ^ (e - ez) -> Zpos a * unit_of ez = Zpos m * unit_of e) as Hu.
  { intros m0 e0 a0 L ->. rewrite <- Z.mul_assoc, (Z.mul_comm (2 ^ _)), <- unit_add by lia. do 2 f_equal. lia. }
  pose proof (Hu m e a ltac:(lia) E1) as V1. pose proof (Hu m' e' b ltac:(lia) E2) as V2.
  rewrite <- Pos2Z.inj_add. cbn [binary_normalize]. rewrite <- V1, <- V2, <- Z.mul_add_distr_r, <- Pos2Z.inj_add in *.
  apply round_pos_error; [| lia | done].
  assert (prec <= Zpos (digits2_pos (a + b))); [| lia]. pose proof (digits2_bounds (a + b)) as B.
  assert (0 < 2 ^ (e - ez)) by (apply Z.pow_pos_nonneg; lia).
  destruct (Z.le_gt_cases prec (Zpos (digits2_pos (a + b)))); [done |]. pose proof (Z.pow_le_mono_r 2 (Zpos (digits2_pos (a + b))) (prec - 1)).
  assert (2 ^ (prec - 1) <= Zpos a) by nia. lia.
Qed.

Lemma float_ltb x y w v : is_float prec x w -> is_float prec y v -> SFltb x y = (w <? v).
Proof.
  intros (m & e & -> & Hm & He & ->) (m' & e' & -> & Hm' & He' & ->). unfold SFltb, SFcompare.
  assert (2 ^ prec = 2 * 2 ^ (prec - 1)) as Hp by (rewrite <- Z.pow_succ_r by lia; f_equal; lia).
  assert (forall a b m m', -190 <= a -> a < b -> Zpos m < 2 ^ prec -> 2 ^ (prec - 1) <= Zpos m' -> Zpos m * unit_of a < Zpos m' * unit_of b) as Hlt.
  { intros a b p q Ha Hab Hp' Hq. replace b with (a + (b - a)) by lia. rewrite unit_add by lia. pose proof (unit_pos a ltac:(lia)).
    pose proof (Z.pow_le_mono_r 2 1 (b - a) ltac:(lia) ltac:(lia)). change (2 ^ 1) with 2 in *. assert (Zpos p < Zpos q * 2 ^ (b - a)) by nia. nia. }
  destruct (Z.compare_spec e e') as [-> | L | L].
  - fold (Pos.compare m m'). pose proof (unit_pos e' ltac:(lia)). destruct (Pos.compare_spec m m'); symmetry; [apply Z.ltb_ge | apply Z.ltb_lt | apply Z.ltb_ge]; nia.
  - symmetry. apply Z.ltb_lt, Hlt; lia.
  - symmetry. apply Z.ltb_ge, Z.lt_le_incl, Hlt; lia.
Qed.
End Error.

(** The integral part. *)
Lemma float_trunc prec x w : is_float prec x w -> exists m e, x = S754_finite false m e /\ Z.shiftl (Zpos m) e = w / unit_of 0.
Proof.
  intros (m & e & -> & Hm & He & ->). exists m, e. split; [done |]. destruct (Z.le_gt_cases 0 e).
  - rewrite Z.shiftl_mul_pow2 by done. replace e with (0 + e) at 2 by lia. rewrite unit_add by lia.
    rewrite (Z.mul_comm (unit_of 0)), Z.mul_assoc, Z.div_mul; [done |]. pose proof (unit_pos 0). lia.
  - replace e with (- (- e)) at 1 by lia. rewrite Z.shiftl_opp_r, Z.shiftr_div_pow2 by lia.
    replace 0 with (e + - e) at 1 by lia. rewrite unit_add by lia. rewrite (Z.mul_comm (Zpos m)), Z.div_mul_cancel_l; [done | lia |].
    pose proof (unit_pos e ltac:(lia)). lia.
Qed.
End Rounding.
