(* ===== verification/ExactDoubles.v ===== *)
(** * Integers as doubles

    An integer below 2^53 is a double, and sums, products and comparisons of such
    doubles are those of the integers, as long as the result is below 2^53 too. *)
From Stdlib Require Import Floats.SpecFloat.
From S2P Require Import Prelude Doubles Rounding.

Module ExactDoubles.
Import Doubles Rounding.

Definition small (z : Z) : Prop := Z.abs z < 2 ^ 53.

(** The mantissa and the exponent of a positive integer. *)
Definition exponent (p : positive) : Z := Zpos (digits2_pos p) - 53.
Definition mantissa (p : positive) : positive := Z.to_pos (Zpos p * 2 ^ (- exponent p)).
Definition canon (z : Z) : spec_float :=
  match z with
  | 0 => S754_zero false
  | Zpos p => S754_finite false (mantissa p) (exponent p)
  | Zneg p => S754_finite true (mantissa p) (exponent p)
  end.

Lemma exponent_range p : Zpos p < 2 ^ 53 -> -52 <= exponent p <= 0.
Proof.
  intros Hp. unfold exponent. pose proof (digits2_le p 53 ltac:(lia) Hp). lia.
Qed.

Lemma mantissa_value p : Zpos p < 2 ^ 53 -> Zpos (mantissa p) = Zpos p * 2 ^ (- exponent p).
Proof.
  intros Hp. pose proof (exponent_range p Hp). unfold mantissa. rewrite Z2Pos.id; [done |].
  apply Z.mul_pos_pos; [lia |]. apply Z.pow_pos_nonneg; lia.
Qed.

Lemma mantissa_digits p : Zpos p < 2 ^ 53 -> Zpos (digits2_pos (mantissa p)) = 53.
Proof.
  intros Hp. pose proof (exponent_range p Hp).
  rewrite (digits2_shift p (mantissa p) (- exponent p)); [unfold exponent; lia | lia |].
  by apply mantissa_value.
Qed.

Lemma round_exact_signed s m q e k :
  0 <= k -> Zpos q = Zpos m * 2 ^ k -> Zpos (digits2_pos m) = 53 -> -1074 <= e + k <= 971 ->
  binary_round_aux 53 1024 s (Zpos q) e loc_Exact = S754_finite s m (e + k).
Proof.
  intros Hk Hq Hm He. pose proof (round_exact m q e k Hk Hq Hm He) as E.
  destruct s; [by rewrite round_aux_sign, E | exact E].
Qed.

Lemma shl_align_down m e e' : e' <= e -> shl_align m e e' = (fst (shl_align m e e'), e').
Proof.
  intros H. unfold shl_align. destruct (e' - e) as [| d | d] eqn:E; cbn [fst]; [f_equal; lia | lia | done].
Qed.
Lemma shl_align_up m e e' : e <= e' -> shl_align m e e' = (m, e).
Proof. intros H. unfold shl_align. destruct (e' - e) as [| d | d] eqn:E; [done | done | lia]. Qed.

(** An integer in any scale is rounded to its canonical form. *)
Lemma binary_round_exact s q p k :
  0 <= k <= 1000 -> Zpos q = Zpos p * 2 ^ k -> Zpos p < 2 ^ 53 ->
  binary_round 53 1024 s q (- k) = S754_finite s (mantissa p) (exponent p).
Proof.
  intros Hk Eq Hp. pose proof (exponent_range p Hp) as He. pose proof (mantissa_value p Hp) as Hm.
  pose proof (mantissa_digits p Hp) as Hd. unfold binary_round.
  assert (Ef : fexp 53 1024 (Zpos (digits2_pos q) + - k) = exponent p).
  { rewrite (digits2_shift p q k) by (done || lia). unfold fexp, SpecFloat.emin, exponent in *. lia. }
  rewrite Ef. destruct (Z.le_ge_cases (exponent p) (- k)) as [L | L].
  - rewrite shl_align_down by done. set (mz := fst _).
    assert (Ez : Zpos mz = Zpos (mantissa p)).
    { unfold mz. rewrite shl_align_fst, Eq, Hm, <- Z.mul_assoc, <- Z.pow_add_r by lia. do 2 f_equal. lia. }
    rewrite (round_exact_signed s (mantissa p) mz (exponent p) 0); [by rewrite Z.add_0_r | lia | lia | done | lia].
  - rewrite shl_align_up by done.
    rewrite (round_exact_signed s (mantissa p) q (- k) (exponent p + k)); [f_equal; lia | lia | | done | lia].
    rewrite Eq, Hm, <- Z.mul_assoc, <- Z.pow_add_r by lia. do 2 f_equal. lia.
Qed.

Lemma normalize_exact z k :
  0 <= k <= 1000 -> small z -> binary_normalize 53 1024 (z * 2 ^ k) (- k) false = canon z.
Proof.
  intros Hk Hz. unfold small in Hz. assert (0 < 2 ^ k) by (apply Z.pow_pos_nonneg; lia).
  destruct z as [| p | p]; [done | |].
  - destruct (Zpos p * 2 ^ k) as [| q | q] eqn:E; [nia | | nia]. cbn [binary_normalize canon].
    apply binary_round_exact; (done || lia).
  - destruct (Zneg p * 2 ^ k) as [| q | q] eqn:E; [nia | nia |]. cbn [binary_normalize canon].
    apply binary_round_exact; [done | nia | lia].
Qed.

Lemma double_canon z : small z -> double z = canon z.
Proof.
  intros Hz. pose proof (normalize_exact z 0 ltac:(lia) Hz) as E. by rewrite Z.mul_1_r in E.
Qed.

(** The integer that an aligned mantissa stands for. *)
Lemma aligned s p e :
  Zpos p < 2 ^ 53 -> e <= exponent p ->
  cond_Zopp s (Zpos (fst (shl_align (mantissa p) (exponent p) e))) = cond_Zopp s (Zpos p) * 2 ^ (- e).
Proof.
  intros Hp He. pose proof (exponent_range p Hp).
  assert (E : Zpos (fst (shl_align (mantissa p) (exponent p) e)) = Zpos p * 2 ^ (- e)).
  { rewrite shl_align_fst, (mantissa_value p Hp), <- Z.mul_assoc, <- Z.pow_add_r by lia. do 2 f_equal. lia. }
  rewrite E. destruct s; cbn [cond_Zopp]; lia.
Qed.

Theorem fadd_exact a c : small a -> small c -> small (a + c) -> fadd (double a) (double c) = double (a + c).
Proof.
  intros Ha Hc Hs. rewrite !double_canon by done.
  assert (H : forall sa sc p q, a = cond_Zopp sa (Zpos p) -> c = cond_Zopp sc (Zpos q) ->
    fadd (S754_finite sa (mantissa p) (exponent p)) (S754_finite sc (mantissa q) (exponent q)) = canon (a + c)).
  { intros sa sc p q Ea Ec. assert (Hp : Zpos p < 2 ^ 53) by (unfold small in *; destruct sa; cbn in *; lia).
    assert (Hq : Zpos q < 2 ^ 53) by (unfold small in *; destruct sc; cbn in *; lia).
    pose proof (exponent_range p Hp). pose proof (exponent_range q Hq).
    unfold fadd, SFadd. cbv zeta. set (e := Z.min (exponent p) (exponent q)).
    rewrite (aligned sa p e), (aligned sc q e), <- Ea, <- Ec, <- Z.mul_add_distr_r by (done || lia).
    rewrite <- (normalize_exact (a + c) (- e)) by (done || lia). f_equal. lia. }
  destruct a as [| p | p], c as [| q | q]; try done; cbn [canon];
    first [apply H; reflexivity | rewrite ?Z.add_0_r, ?Z.add_0_l; reflexivity].
Qed.

Theorem fmul_exact a c :
  small a -> small c -> small (a * c) -> a * c <> 0 \/ 0 <= a /\ 0 <= c ->
  fmul (double a) (double c) = double (a * c).
Proof.
  intros Ha Hc Hs Hsign. rewrite !double_canon by done.
  assert (H : forall sa sc p q, a = cond_Zopp sa (Zpos p) -> c = cond_Zopp sc (Zpos q) ->
    fmul (S754_finite sa (mantissa p) (exponent p)) (S754_finite sc (mantissa q) (exponent q)) =
    S754_finite (xorb sa sc) (mantissa (p * q)) (exponent (p * q))).
  { intros sa sc p q Ea Ec.
    assert (Hpq : Zpos (p * q) < 2 ^ 53) by (unfold small in *; subst a c; destruct sa, sc; cbn in *; lia).
    assert (Hp : Zpos p < 2 ^ 53) by (unfold small in *; destruct sa; cbn in *; lia).
    assert (Hq : Zpos q < 2 ^ 53) by (unfold small in *; destruct sc; cbn in *; lia).
    pose proof (exponent_range p Hp) as Rp. pose proof (exponent_range q Hq) as Rq.
    pose proof (exponent_range _ Hpq) as Rpq.
    assert (Hd : Zpos (digits2_pos p) + Zpos (digits2_pos q) - 1 <= Zpos (digits2_pos (p * q))).
    { pose proof (digits2_bounds p) as Bp. pose proof (digits2_bounds q) as Bq. pose proof (digits2_bounds (p * q)) as B.
      rewrite Pos2Z.inj_mul in B.
      destruct (Z.le_gt_cases (Zpos (digits2_pos p) + Zpos (digits2_pos q) - 1) (Zpos (digits2_pos (p * q)))) as [| L]; [done |].
      pose proof (Z.pow_le_mono_r 2 (Zpos (digits2_pos (p * q))) (Zpos (digits2_pos p) - 1 + (Zpos (digits2_pos q) - 1)) ltac:(lia) ltac:(lia)) as M.
      rewrite (Z.pow_add_r 2 (Zpos (digits2_pos p) - 1)) in M by lia. nia. }
    unfold fmul, SFmul. set (k := exponent (p * q) - (exponent p + exponent q)).
    rewrite (round_exact_signed _ (mantissa (p * q)) _ _ k);
      [f_equal; unfold k; lia | unfold k, exponent in *; lia | | by apply mantissa_digits | unfold k; lia].
    rewrite Pos2Z.inj_mul, !mantissa_value, Pos2Z.inj_mul by done.
    assert (E : 2 ^ (- exponent p) * 2 ^ (- exponent q) = 2 ^ (- exponent (p * q)) * 2 ^ k).
    { rewrite <- !Z.pow_add_r by (unfold k, exponent in *; lia). f_equal. unfold k. lia. }
    rewrite <- (Z.mul_assoc _ (2 ^ (- exponent (p * q)))), <- E. lia. }
  destruct a as [| p | p], c as [| q | q]; try (destruct Hsign as [? | [? ?]]; done); cbn [canon];
    first [by apply H | done].
Qed.

Lemma canon_pos p : Zpos p < 2 ^ 53 -> is_float 53 (canon (Zpos p)) (Zpos p * unit_of 0).
Proof.
  intros Hp. pose proof (exponent_range p Hp). exists (mantissa p), (exponent p).
  pose proof (digits2_bounds (mantissa p)) as B. rewrite (mantissa_digits p Hp) in B.
  split_and!; [done | lia | lia | lia | lia |].
  rewrite (mantissa_value p Hp), <- Z.mul_assoc. unfold unit_of. rewrite <- Z.pow_add_r by lia. do 2 f_equal. lia.
Qed.

Lemma fltb_opp x y : fltb (SFopp x) (SFopp y) = fltb y x.
Proof.
  unfold fltb, SFltb. rewrite (compare_opp x y). 
  destruct x as [[] | [] | | [] mx ex], y as [[] | [] | | [] my ey]; cbn; try done;
    destruct (ex ?= ey); cbn; try done; by destruct (Pos.compare_cont Eq mx my).
Qed.

Theorem fltb_exact a c : small a -> small c -> fltb (double a) (double c) = (a <? c).
Proof.
  intros Ha Hc. rewrite !double_canon by done. unfold small in *.
  assert (H : forall p q, Zpos p < 2 ^ 53 -> Zpos q < 2 ^ 53 ->
    fltb (canon (Zpos p)) (canon (Zpos q)) = (Zpos p <? Zpos q)).
  { intros p q Hp Hq. unfold fltb.
    rewrite (float_ltb 53 ltac:(lia) _ _ _ _ (canon_pos p Hp) (canon_pos q Hq)).
    pose proof (unit_pos 0 ltac:(lia)). apply eq_true_iff_eq. rewrite !Z.ltb_lt. nia. }
  destruct a as [| p | p], c as [| q | q]; try done; try (by apply H; lia).
  change (canon (Zneg p)) with (SFopp (canon (Zpos p))). change (canon (Zneg q)) with (SFopp (canon (Zpos q))).
  rewrite fltb_opp, H by lia. apply eq_true_iff_eq. rewrite !Z.ltb_lt. lia.
Qed.

End ExactDoubles.
