(* ===== verification/TimerWheel.v ===== *)
(** * httperf/src/timer.c: the timing wheel

    The whole of timer.c over a heap of [Timer] structures: a wheel of 4096
    doubly linked lists, each list keeping its expiry times in rounds of the
    wheel as differences, and a list of freed timers.  [Time] is a double, that is
    a [spec_float] with the precision 53; the conversion of a delay to ticks is
    computed, not assumed.  A callback is a program over [timer_schedule] and
    [timer_cancel] that also changes a client state; what a timer calls is a
    closure of an abstract type.  [malloc] is an oracle that sees the addresses
    in use and may fail.

    The abstract specification, at the end of the file, keeps a list of pending
    timers with the number of the tick each expires at. *)
From S2P Require Import Prelude Doubles.

Module TimerWheel.
Import Doubles.

(** ** Doubles *)
Definition Time : Type := spec_float.
(** [(1.0/1000)] *)
Definition TIMER_INTERVAL : Time := fdiv (double 1) (double 1000).
Definition WHEEL_SIZE : Z := 4096.

(** The number of ticks of a delay, at least one. *)
Definition ticks_of (now next_tick delay : Time) : cres Z :=
  let behind := fsub now next_tick in
  let delay := if SFltb (double 0) behind then fadd delay behind else delay in
  if SFltb delay (double 0) then Ret 1
  else
    ticks ← to_ulong (fmul (fadd delay (fdiv TIMER_INTERVAL (double 2)))
                           (fdiv (double 1) TIMER_INTERVAL));
    Ret (if ticks =? 0 then 1 else ticks).

Example ticks_5s : ticks_of (double 0) (double 0) (double 5) = Ret 5000.
Proof. vm_compute. reflexivity. Qed.
Example ticks_now : ticks_of (double 0) TIMER_INTERVAL (double 0) = Ret 1.
Proof. vm_compute. reflexivity. Qed.

(** [assert] calls [abort]. *)
Definition SIGABRT : Z := 134.

(** ** Programs of callbacks *)
Inductive prog (C W : Type) :=
| Done (w : W)
| Schedule (c : C) (delay : Time) (k : option nat -> prog C W)
| Cancel (t : nat) (k : prog C W).
Arguments Done {C W}.
Arguments Schedule {C W}.
Arguments Cancel {C W}.

(** ** The wheel *)
(** What a [Timer *] may point at: the head of a list of the wheel, cast to a
    timer, or a timer. *)
Inductive ptr := Head (i : Z) | Node (a : nat).

Record timer (C : Type) := mkTimer {
  next : option nat;
  prev : option ptr;
  delta : Z;
  func : option C
}.
Arguments mkTimer {C}.
Arguments next {C}.
Arguments prev {C}.
Arguments delta {C}.
Arguments func {C}.

Record st (C : Type) := mkSt {
  heap : gmap nat (timer C);
  wheel : list (option nat);
  curr : Z;
  timer_free_list : option nat;
  t_curr : option nat;
  now : Time;
  next_tick : Time
}.
Arguments mkSt {C}.
Arguments heap {C}.
Arguments wheel {C}.
Arguments curr {C}.
Arguments timer_free_list {C}.
Arguments t_curr {C}.
Arguments now {C}.
Arguments next_tick {C}.

Section Code.
Context {C W : Type} (malloc : gset nat -> option nat) (handler : C -> nat -> W -> prog C W).
Implicit Types (s : st C) (a t : nat).

Definition set_heap h s : st C :=
  mkSt h (wheel s) (curr s) (timer_free_list s) (t_curr s) (now s) (next_tick s).
Definition set_wheel w s : st C :=
  mkSt (heap s) w (curr s) (timer_free_list s) (t_curr s) (now s) (next_tick s).
Definition set_free_list p s : st C :=
  mkSt (heap s) (wheel s) (curr s) p (t_curr s) (now s) (next_tick s).
Definition set_t_curr p s : st C :=
  mkSt (heap s) (wheel s) (curr s) (timer_free_list s) p (now s) (next_tick s).

(** [t->field]. *)
Definition timer_at t s : cres (timer C) := deref (heap s !! t).
Definition with_timer t (f : timer C -> timer C) s : cres (st C) :=
  n ← timer_at t s; Ret (set_heap (<[t := f n]> (heap s)) s).
Definition put_next v (n : timer C) : timer C := mkTimer v (prev n) (delta n) (func n).
Definition put_prev v (n : timer C) : timer C := mkTimer (next n) v (delta n) (func n).
Definition put_delta v (n : timer C) : timer C := mkTimer (next n) (prev n) v (func n).

(** [p->q.next], for a head or a timer. *)
Definition get_next (p : ptr) s : cres (option nat) :=
  match p with
  | Head i => deref (aget (wheel s) i)
  | Node a => n ← timer_at a s; Ret (next n)
  end.
Definition set_next (p : ptr) (v : option nat) s : cres (st C) :=
  match p with
  | Head i => w ← deref (aset (wheel s) i v); Ret (set_wheel w s)
  | Node a => with_timer a (put_next v) s
  end.

Definition done t s : cres (st C) :=
  s ← with_timer t (fun n => put_prev None (put_next (timer_free_list s) n)) s;
  Ret (set_free_list (Some t) s).

(** After [timer_init], when the clock showed [clock]. *)
Definition timer_init (clock : Time) : st C :=
  mkSt ∅ (replicate (Z.to_nat WHEEL_SIZE) None) 0 None None clock (fadd clock TIMER_INTERVAL).

(** [while (p->q.next && delta > p->q.next->delta)] *)
Fixpoint walk (fuel : nat) (p : ptr) (d : Z) s : cres (ptr * Z) :=
  match fuel with
  | O => NoFuel
  | S fuel =>
      nx ← get_next p s;
      match nx with
      | None => Ret (p, d)
      | Some b =>
          n ← timer_at b s;
          if delta n <? d then walk fuel (Node b) (d - delta n) s else Ret (p, d)
      end
  end.

(** A timer from the list of freed ones or from [malloc], cleared. *)
Definition new_timer (c : C) s : cres (option (nat * st C)) :=
  let clear t s := set_heap (<[t := mkTimer None None 0 (Some c)]> (heap s)) s in
  match timer_free_list s with
  | Some t => n ← timer_at t s; Ret (Some (t, clear t (set_free_list (next n) s)))
  | None =>
      match malloc (dom (heap s)) with
      | Some t => Ret (Some (t, clear t s))
      | None => Ret None
      end
  end.

(** The index of the list for a timer that is [ticks] ticks away. *)
Definition spoke_of (cur ticks : Z) : Z :=
  let spoke := cur + ticks mod WHEEL_SIZE in
  if WHEEL_SIZE <=? spoke then spoke - WHEEL_SIZE else spoke.

(** Link [t] behind [p]. *)
Definition link t (p : ptr) (d : Z) s : cres (st C) :=
  nx ← get_next p s;
  s ← with_timer t (put_next nx) s;
  s ← with_timer t (put_prev (Some p)) s;
  s ← set_next p (Some t) s;
  s ← with_timer t (put_delta d) s;
  n ← timer_at t s;
  match next n with
  | Some b =>
      s ← with_timer b (put_prev (Some (Node t))) s;
      with_timer b (fun m => put_delta (u64 (delta m - d)) m) s
  | None => Ret s
  end.

Definition timer_schedule (c : C) (delay : Time) s : cres (option nat * st C) :=
  r ← new_timer c s;
  match r with
  | None => Ret (None, s)
  | Some (t, s) =>
      ticks ← ticks_of (now s) (next_tick s) delay;
      '(p, d) ← walk (S (size (heap s))) (Head (spoke_of (curr s) ticks)) (ticks / WHEEL_SIZE) s;
      s ← link t p d s;
      Ret (Some t, s)
  end.

Definition timer_cancel t s : cres (st C) :=
  n ← timer_at t s;
  match prev n with
  | None => Exit SIGABRT
  | Some _ =>
      if decide (t_curr s = Some t) then Ret s
      else
        s ← match next n with
            | Some b =>
                s ← with_timer b (fun m => put_delta (u64 (delta m + delta n)) m) s;
                with_timer b (put_prev (prev n)) s
            | None => Ret s
            end;
        n ← timer_at t s;
        p ← deref (prev n);
        s ← set_next p (next n) s;
        done t s
  end.

Fixpoint run_prog (p : prog C W) s : cres (W * st C) :=
  match p with
  | Done w => Ret (w, s)
  | Schedule c delay k => '(t, s) ← timer_schedule c delay s; run_prog (k t) s
  | Cancel t k => s ← timer_cancel t s; run_prog k s
  end.

(** [for (t = curr->next; t && t->delta == 0; t = t_next)] *)
Fixpoint fire_loop (fuel : nat) (t : option nat) (w : W) s : cres (option nat * W * st C) :=
  match fuel with
  | O => NoFuel
  | S fuel =>
      match t with
      | None => Ret (None, w, s)
      | Some a =>
          n ← timer_at a s;
          if delta n =? 0 then
            let s := set_t_curr (Some a) s in
            c ← deref (func n);
            '(w, s) ← run_prog (handler c a w) s;
            n ← timer_at a s;
            s ← done a s;
            fire_loop fuel (next n) w s
          else Ret (Some a, w, s)
      end
  end.

(** The body of [while (timer_now () >= next_tick)]. *)
Definition one_tick (w : W) s : cres (W * st C) :=
  t ← get_next (Head (curr s)) s;
  '(t, w, s) ← fire_loop (S (size (heap s))) t w s;
  let s := set_t_curr None s in
  s ← set_next (Head (curr s)) t s;
  s ← match t with
      | Some a =>
          s ← with_timer a (put_prev (Some (Head (curr s)))) s;
          with_timer a (fun n => put_delta (u64 (delta n - 1)) n) s
      | None => Ret s
      end;
  let c := curr s + 1 in
  Ret (w, mkSt (heap s) (wheel s) (if WHEEL_SIZE <=? c then 0 else c) (timer_free_list s) (t_curr s)
            (now s) (fadd (next_tick s) TIMER_INTERVAL)).

Fixpoint tick_loop (fuel : nat) (w : W) s : cres (W * st C) :=
  if SFleb (next_tick s) (now s) then
    match fuel with
    | O => NoFuel
    | S fuel => '(w, s) ← one_tick w s; tick_loop fuel w s
    end
  else Ret (w, s).

(** [timer_tick] when the clock shows [clock]. *)
Definition timer_tick (fuel : nat) (clock : Time) (w : W) s : cres (W * st C) :=
  match t_curr s with
  | Some _ => Exit SIGABRT
  | None =>
      tick_loop fuel w
        (mkSt (heap s) (wheel s) (curr s) (timer_free_list s) (t_curr s) clock (next_tick s))
  end.
End Code.

(** ** The specification *)

(** The pending timers, the last scheduled in front, each with the tick it expires
    at; the freed ones, in the order in which they are used again; the timer
    whose callback runs.  [tick] counts the ticks since the start. *)
Record spec (C : Type) := mkSpec {
  tick : Z;
  pending : list (nat * Z * C);
  freed : list nat;
  current : option nat;
  clock : Time;
  next_at : Time
}.
Arguments mkSpec {C}.
Arguments tick {C}.
Arguments pending {C}.
Arguments freed {C}.
Arguments current {C}.
Arguments clock {C}.
Arguments next_at {C}.

Section Spec.
Context {C W : Type} (malloc : gset nat -> option nat) (handler : C -> nat -> W -> prog C W).
Implicit Types (x : spec C) (a : nat).

Definition id_of (y : nat * Z * C) : nat := y.1.1.
Definition ids (l : list (nat * Z * C)) : list nat := map id_of l.
(** The timers of a list with a given second component. *)
Definition at_exp (e : Z) (l : list (nat * Z * C)) : list (nat * C) :=
  omap (fun y => if y.1.2 =? e then Some (y.1.1, y.2) else None) l.
Definition without a (l : list (nat * Z * C)) : list (nat * Z * C) :=
  filter (fun y => id_of y <> a) l.

Definition in_use x : list nat := ids (pending x) ++ freed x ++ option_list (current x).

Definition spec_new x : option (nat * list nat) :=
  match freed x with
  | a :: l => Some (a, l)
  | [] => match malloc (list_to_set (in_use x)) with Some a => Some (a, []) | None => None end
  end.

(** [inside]: a callback schedules.  A callback must not schedule a whole number
    of rounds ahead; see [whole_round_timer_is_lost] of TimerWheelTheorems for what happens then. *)
Definition spec_schedule (inside : bool) (c : C) (delay : Time) x : cres (option nat * spec C) :=
  match spec_new x with
  | None => Ret (None, x)
  | Some (a, fr) =>
      ticks ← ticks_of (clock x) (next_at x) delay;
      if inside && (ticks mod WHEEL_SIZE =? 0) then Undef
      else Ret (Some a, mkSpec (tick x) ((a, tick x + ticks, c) :: pending x) fr (current x)
                          (clock x) (next_at x))
  end.

Definition spec_cancel a x : cres (spec C) :=
  if decide (current x = Some a) then Ret x
  else if decide (a ∈ ids (pending x)) then
    Ret (mkSpec (tick x) (without a (pending x)) (a :: freed x) (current x) (clock x) (next_at x))
  else if decide (a ∈ freed x) then Exit SIGABRT
  else Undef.

Fixpoint spec_prog (inside : bool) (p : prog C W) x : cres (W * spec C) :=
  match p with
  | Done w => Ret (w, x)
  | Schedule c delay k => '(t, x) ← spec_schedule inside c delay x; spec_prog inside (k t) x
  | Cancel t k => x ← spec_cancel t x; spec_prog inside k x
  end.

(** Run the callbacks of the timers that expire at this tick. *)
Fixpoint spec_fire (fuel : nat) (w : W) x : cres (W * spec C) :=
  match fuel with
  | O => NoFuel
  | S fuel =>
      match at_exp (tick x) (pending x) with
      | [] => Ret (w, x)
      | (a, c) :: _ =>
          '(w, x) ← spec_prog true (handler c a w)
             (mkSpec (tick x) (without a (pending x)) (freed x) (Some a) (clock x) (next_at x));
          spec_fire fuel w
            (mkSpec (tick x) (pending x) (a :: freed x) None (clock x) (next_at x))
      end
  end.

Definition spec_one_tick (w : W) x : cres (W * spec C) :=
  '(w, x) ← spec_fire (S (length (pending x))) w x;
  Ret (w, mkSpec (tick x + 1) (pending x) (freed x) None (clock x)
            (fadd (next_at x) TIMER_INTERVAL)).

Fixpoint spec_ticks (fuel : nat) (w : W) x : cres (W * spec C) :=
  if SFleb (next_at x) (clock x) then
    match fuel with
    | O => NoFuel
    | S fuel => '(w, x) ← spec_one_tick w x; spec_ticks fuel w x
    end
  else Ret (w, x).

Definition spec_timer_tick (fuel : nat) (t : Time) (w : W) x : cres (W * spec C) :=
  spec_ticks fuel w (mkSpec (tick x) (pending x) (freed x) (current x) t (next_at x)).
Definition spec_init (t : Time) : spec C := mkSpec 0 [] [] None t (fadd t TIMER_INTERVAL).
End Spec.

End TimerWheel.
