(* ===== verification/TimerCells.v ===== *)
(** * httperf/src/timer.c: the linked lists of the wheel

    The heap of timers seen as cells: [getn] is the next pointer of a cell (a head
    of the wheel or a timer) and [fld] the other fields of a timer.  Every write
    of the code is described by its effect on the two, and linking and
    cancelling a timer by their effect on the list they happen in. *)
From S2P Require Import Prelude Doubles TimerWheel.

Module TimerCells.
Import Doubles TimerWheel.

#[export] Instance ptr_eq_dec : EqDecision ptr.
Proof. solve_decision. Defined.

Section Cells.
Context {C : Type}.
Implicit Types (s : st C) (a : nat) (b p q : ptr) (l : list (nat * Z * C)).

Definition getn s p : option (option nat) :=
  match p with Head i => aget (wheel s) i | Node a => next <$> heap s !! a end.
Definition fld s a : option (option ptr * Z * option C) :=
  (fun n => (prev n, delta n, func n)) <$> heap s !! a.

(** Everything but the links, the fields and the free list. *)
Definition same s s' : Prop :=
  curr s' = curr s /\ timer_free_list s' = timer_free_list s /\ t_curr s' = t_curr s /\
  now s' = now s /\ next_tick s' = next_tick s /\ length (wheel s') = length (wheel s) /\
  dom (heap s') = dom (heap s).

Lemma same_refl s : same s s.
Proof. done. Qed.
Lemma same_trans s1 s2 s3 : same s1 s2 -> same s2 s3 -> same s1 s3.
Proof. unfold same. intuition congruence. Qed.

Lemma get_next_ok s p v : getn s p = Some v -> get_next p s = Ret v.
Proof.
  destruct p as [i | a]; cbn [getn get_next]; [by intros -> |].
  intros E. unfold timer_at. destruct (heap s !! a); [| done]. cbn in E. injection E as <-; done.
Qed.

Lemma fld_getn s a y : fld s a = Some y -> exists v, getn s (Node a) = Some v.
Proof. unfold fld. cbn [getn]. destruct (heap s !! a); [by eexists | done]. Qed.

Lemma timer_at_ok s a pr d f v :
  fld s a = Some (pr, d, f) -> getn s (Node a) = Some v -> timer_at a s = Ret (mkTimer v pr d f).
Proof.
  unfold fld, timer_at. cbn [getn]. destruct (heap s !! a) as [n |]; [| done].
  intros [= <- <- <-] [= <-]. by destruct n.
Qed.

(** The effect of a write of a field. *)
Lemma with_timer_ok s a f pr d fn v n' :
  fld s a = Some (pr, d, fn) -> getn s (Node a) = Some v -> f (mkTimer v pr d fn) = n' ->
  exists s', with_timer a f s = Ret s' /\ same s s' /\
    (forall q, getn s' q = if decide (q = Node a) then Some (next n') else getn s q) /\
    (forall e, fld s' e = if decide (e = a) then Some (prev n', delta n', func n') else fld s e).
Proof.
  intros Hf Hv <-. unfold with_timer. rewrite (timer_at_ok s a pr d fn v) by done. rewrite bind_Ret.
  eexists. split; [reflexivity |].
  assert (Ha : is_Some (heap s !! a)) by (unfold fld in Hf; destruct (heap s !! a); done).
  split; [| split].
  - repeat split. cbn [heap set_heap]. by apply dom_insert_lookup_L.
  - intros [i | b]; cbn [getn set_heap wheel heap]; [by rewrite decide_False |].
    destruct (decide (Node b = Node a)) as [[= ->] | Hne]; [by rewrite lookup_insert_eq |].
    rewrite lookup_insert_ne by congruence. done.
  - intros b. unfold fld. cbn [set_heap heap]. destruct (decide (b = a)) as [-> | Hne].
    + by rewrite lookup_insert_eq.
    + by rewrite lookup_insert_ne by congruence.
Qed.

Lemma set_next_ok s p u v :
  getn s p = Some u ->
  exists s', set_next p v s = Ret s' /\ same s s' /\
    (forall q, getn s' q = if decide (q = p) then Some v else getn s q) /\
    (forall a, fld s' a = fld s a).
Proof.
  intros Hp. destruct p as [i | a]; cbn [set_next].
  - cbn [getn] in Hp. pose proof (aget_range _ _ _ Hp) as Hi. rewrite (aset_Some (wheel s) i v Hi).
    cbn [deref]. rewrite bind_Ret. eexists. split; [reflexivity |].
    split; [repeat split; cbn [wheel set_wheel]; apply length_insert |]. split; [| done].
    intros [j | b]; cbn [getn set_wheel wheel heap]; [| by rewrite decide_False].
    destruct (decide (Head j = Head i)) as [[= ->] | Hne].
    + by apply (aget_aset_eq (wheel s)), aset_Some.
    + apply (aget_aset_ne (wheel s) _ i _ v); [by apply aset_Some | congruence].
  - destruct (fld s a) as [[[pr d] fn] |] eqn:Ef.
    2:{ exfalso. unfold fld in Ef. cbn [getn] in Hp. by destruct (heap s !! a). }
    destruct (with_timer_ok s a (put_next v) pr d fn u _ Ef Hp eq_refl) as (s' & E & Hs & Hg & Hf).
    exists s'. split; [done |]. split; [done |]. split; [done |]. intros b. rewrite Hf.
    destruct (decide (b = a)) as [-> |]; done.
Qed.

(** Writes that do not move a link. *)
Lemma put_prev_ok s a w pr d fn :
  fld s a = Some (pr, d, fn) ->
  exists s', with_timer a (put_prev w) s = Ret s' /\ same s s' /\
    (forall q, getn s' q = getn s q) /\
    (forall e, fld s' e = if decide (e = a) then Some (w, d, fn) else fld s e).
Proof.
  intros Hf. destruct (fld_getn s a _ Hf) as [v Hv].
  destruct (with_timer_ok s a (put_prev w) pr d fn v _ Hf Hv eq_refl) as (s' & E & Hs & Hg & Hf').
  exists s'. split; [done |]. split; [done |]. split; [| done]. intros q. rewrite Hg.
  destruct (decide (q = Node a)) as [-> |]; done.
Qed.

Lemma put_delta_ok s a g pr d fn :
  fld s a = Some (pr, d, fn) ->
  exists s', with_timer a (fun n => put_delta (g (delta n)) n) s = Ret s' /\ same s s' /\
    (forall q, getn s' q = getn s q) /\
    (forall e, fld s' e = if decide (e = a) then Some (pr, g d, fn) else fld s e).
Proof.
  intros Hf. destruct (fld_getn s a _ Hf) as [v Hv].
  destruct (with_timer_ok s a (fun n => put_delta (g (delta n)) n) pr d fn v _ Hf Hv eq_refl)
    as (s' & E & Hs & Hg & Hf').
  exists s'. split; [done |]. split; [done |]. split; [| done]. intros q. rewrite Hg.
  destruct (decide (q = Node a)) as [-> |]; done.
Qed.

(** ** Segments of a list *)
(** The timers [l] hang off the cell [b]; the rounds are relative to [r]; the
    pointer in the last cell is not said. *)
Fixpoint pseg s (b : ptr) (r : Z) l : Prop :=
  match l with
  | [] => True
  | (a, D, c) :: l =>
      getn s b = Some (Some a) /\ r <= D /\ fld s a = Some (Some b, D - r, Some c) /\
      pseg s (Node a) D l
  end.
Fixpoint lastb (b : ptr) l : ptr :=
  match l with [] => b | (a, _, _) :: l => lastb (Node a) l end.
Fixpoint lastr (r : Z) l : Z :=
  match l with [] => r | (_, D, _) :: l => lastr D l end.
(** The segment ends with the pointer [v]. *)
Definition cseg s b r l (v : option nat) : Prop := pseg s b r l /\ getn s (lastb b l) = Some v.

Lemma pseg_app s b r l1 l2 :
  pseg s b r (l1 ++ l2) <-> pseg s b r l1 /\ pseg s (lastb b l1) (lastr r l1) l2.
Proof.
  revert b r. induction l1 as [| [[a D] c] l1 IH]; intros b r; cbn [app pseg lastb lastr]; [tauto |].
  rewrite IH. tauto.
Qed.
Lemma lastb_app b l1 l2 : lastb b (l1 ++ l2) = lastb (lastb b l1) l2.
Proof. revert b. induction l1 as [| [[a D] c] l1 IH]; intros b; cbn [app lastb]; auto. Qed.
Lemma lastr_app r l1 l2 : lastr r (l1 ++ l2) = lastr (lastr r l1) l2.
Proof. revert r. induction l1 as [| [[a D] c] l1 IH]; intros r; cbn [app lastr]; auto. Qed.

Lemma lastb_cells b l : lastb b l = b \/ exists a, lastb b l = Node a /\ a ∈ ids l.
Proof.
  revert b. induction l as [| [[a D] c] l IH]; intros b; cbn [lastb]; [by left |]. right.
  destruct (IH (Node a)) as [-> | (a' & -> & Ha)]; [exists a | exists a'].
  - split; [done |]. apply list_elem_of_here.
  - split; [done |]. by apply list_elem_of_further.
Qed.

(** A segment does not see writes elsewhere. *)
Lemma pseg_frame s s' b r l :
  (forall q, q = b \/ (exists a, q = Node a /\ a ∈ ids l) -> q <> lastb b l -> getn s' q = getn s q) ->
  (forall a, a ∈ ids l -> fld s' a = fld s a) ->
  NoDup (ids l) -> (forall a, b = Node a -> a ∉ ids l) ->
  pseg s b r l -> pseg s' b r l.
Proof.
  revert b r. induction l as [| [[a D] c] l IH]; intros b r Hg Hf Hn Hb; [done |].
  cbn [pseg lastb ids map id_of fst] in *. fold (ids l) in *. intros (H1 & H2 & H3 & H4).
  apply NoDup_cons in Hn as [Ha Hn].
  assert (Hba : b <> Node a) by (intros ->; apply (Hb a eq_refl), list_elem_of_here).
  split.
  { rewrite Hg; [done | by left |]. intros ->.
    destruct (lastb_cells (Node a) l) as [E | (a' & E & Ha')]; [congruence |].
    apply (Hb a' E). by apply list_elem_of_further. }
  split; [done |]. split; [rewrite Hf; [done | apply list_elem_of_here] |].
  apply IH; [| | done | by intros ? [= <-] | done].
  - intros q [-> | (a' & -> & Ha')] Hq; apply Hg; try done; right.
    + exists a. split; [done | apply list_elem_of_here].
    + exists a'. split; [done | by apply list_elem_of_further].
  - intros a' Ha'. apply Hf. by apply list_elem_of_further.
Qed.

Lemma cseg_frame s s' b r l v :
  (forall p, p = b \/ (exists a, p = Node a /\ a ∈ ids l) -> getn s' p = getn s p) ->
  (forall a, a ∈ ids l -> fld s' a = fld s a) ->
  NoDup (ids l) -> (forall a, b = Node a -> a ∉ ids l) ->
  cseg s b r l v -> cseg s' b r l v.
Proof.
  intros Hg Hf Hn Hb [Hp Hq]. split; [apply (pseg_frame s); try done; intros p Hp' _; by apply Hg |]. rewrite Hg; [done |].
  apply lastb_cells.
Qed.

Lemma pseg_fld s b r l a D c :
  pseg s b r l -> (a, D, c) ∈ l -> exists pr r', fld s a = Some (Some pr, D - r', Some c) /\ r <= D.
Proof.
  revert b r. induction l as [| [[a' D'] c'] l IH]; intros b r; [by intros _ ?%elem_of_nil |].
  cbn [pseg]. intros (H1 & H2 & H3 & H4) [[= -> -> ->] | Hin]%elem_of_cons.
  - by exists b, r.
  - destruct (IH _ _ H4 Hin) as (pr & r' & E & Hle). exists pr, r'. split; [done | lia].
Qed.

Lemma lastr_ge s b r l : pseg s b r l -> r <= lastr r l.
Proof.
  revert b r. induction l as [| [[a D] c] l IH]; intros b r; cbn [pseg lastr]; [lia |].
  intros (_ & H2 & _ & H4). apply IH in H4. lia.
Qed.
Lemma pseg_lower s b r l : pseg s b r l -> Forall (fun y => r <= y.1.2) l.
Proof.
  revert b r. induction l as [| [[a D] c] l IH]; intros b r; cbn [pseg]; [done |].
  intros (_ & H2 & _ & H4). constructor; [done |]. apply IH in H4.
  eapply Forall_impl; [exact H4 |]. cbn. intros y Hy. lia.
Qed.

(** ** The walk to the place of a new timer *)
Lemma walk_ok fuel s b r l D :
  cseg s b r l None -> r <= D -> (length l < fuel)%nat ->
  exists l1 l2, l = l1 ++ l2 /\ walk fuel b (D - r) s = Ret (lastb b l1, D - lastr r l1) /\
    Forall (fun y => y.1.2 < D) l1 /\ lastr r l1 <= D /\ Forall (fun y => D <= y.1.2) l2.
Proof.
  revert b r l. induction fuel as [| fuel IH]; intros b r l [Hp Hq] Hr Hl; [lia |].
  cbn [walk]. destruct l as [| [[a D'] c] l].
  - cbn [lastb] in Hq. exists [], []. split; [done |].
    rewrite (get_next_ok s b None Hq), bind_Ret. cbn [lastb lastr].
    split; [done |]. split; [done |]. split; [lia | done].
  - pose proof Hp as (H1 & H2 & H3 & H4). cbn [lastb length] in *.
    rewrite (get_next_ok s b _ H1), bind_Ret.
    destruct (fld_getn s a _ H3) as [v Hv].
    rewrite (timer_at_ok s a _ _ _ _ H3 Hv), bind_Ret. cbn [delta].
    destruct (Z.ltb_spec (D' - r) (D - r)).
    + destruct (IH (Node a) D' l) as (l1 & l2 & -> & E & F1 & Hl1 & F2); [by split | lia | lia |].
      exists ((a, D', c) :: l1), l2. split; [done |]. cbn [lastb lastr].
      replace (D - r - (D' - r)) with (D - D') by lia. split; [exact E |].
      split; [constructor; [cbn; lia | done] |]. by split.
    + exists [], ((a, D', c) :: l). split; [done |]. cbn [lastb lastr]. split; [done |].
      split; [done |]. split; [lia |]. constructor; [cbn; lia |].
      apply pseg_lower in H4. eapply Forall_impl; [exact H4 |]. cbn. intros y Hy. lia.
Qed.

(** ** Linking a timer in *)
Lemma lastb_not t b l : b <> Node t -> t ∉ ids l -> lastb b l <> Node t.
Proof. intros Hb Ht E. destruct (lastb_cells b l) as [E' | (a & E' & Ha)]; congruence. Qed.

Lemma ids_app l1 l2 : ids (l1 ++ l2) = ids l1 ++ ids l2.
Proof. apply map_app. Qed.
Lemma ids_cons (y : nat * Z * C) l : ids (y :: l) = id_of y :: ids l.
Proof. done. Qed.

(** The writes of [link]. *)
Lemma link_effect s t b' nx d fn dn fa :
  getn s b' = Some nx -> b' <> Node t -> fld s t = Some (None, 0, Some fn) ->
  (forall a, nx = Some a -> a <> t /\ fld s a = Some (Some b', dn, fa)) ->
  exists s', link t b' d s = Ret s' /\ same s s' /\
    (forall q, getn s' q = if decide (q = Node t) then Some nx
                           else if decide (q = b') then Some (Some t) else getn s q) /\
    (forall e, fld s' e = if decide (e = t) then Some (Some b', d, Some fn)
                          else if decide (nx = Some e) then Some (Some (Node t), u64 (dn - d), fa)
                          else fld s e).
Proof.
  intros Hnx Hbt Hft Ha. unfold link. rewrite (get_next_ok s b' nx Hnx), bind_Ret.
  destruct (fld_getn s t _ Hft) as [vt Hvt].
  destruct (with_timer_ok s t (put_next nx) _ _ _ vt _ Hft Hvt eq_refl) as (s1 & E1 & S1 & G1 & F1).
  rewrite E1, bind_Ret. cbn [put_next next prev delta func] in G1, F1.
  destruct (put_prev_ok s1 t (Some b') None 0 (Some fn)) as (s2 & E2 & S2 & G2 & F2).
  { by rewrite F1, decide_True. }
  rewrite E2, bind_Ret.
  destruct (set_next_ok s2 b' nx (Some t)) as (s3 & E3 & S3 & G3 & F3).
  { by rewrite G2, G1, decide_False. }
  rewrite E3, bind_Ret.
  destruct (put_delta_ok s3 t (fun _ => d) (Some b') 0 (Some fn)) as (s4 & E4 & S4 & G4 & F4).
  { by rewrite F3, F2, decide_True. }
  change (with_timer t (put_delta d) s3 = Ret s4) in E4. rewrite E4, bind_Ret.
  assert (G04 : forall q, getn s4 q = if decide (q = Node t) then Some nx
    else if decide (q = b') then Some (Some t) else getn s q).
  { intros q. rewrite G4, G3, G2, G1. destruct (decide (q = b')), (decide (q = Node t)); congruence. }
  assert (F04 : forall e, fld s4 e = if decide (e = t) then Some (Some b', d, Some fn) else fld s e).
  { intros e. rewrite F4, F3, F2, F1. by destruct (decide (e = t)). }
  assert (S04 : same s s4) by eauto using same_trans.
  assert (Ft : fld s4 t = Some (Some b', d, Some fn)) by (by rewrite F04, decide_True).
  assert (Gt : getn s4 (Node t) = Some nx) by (by rewrite G04, decide_True).
  rewrite (timer_at_ok s4 t _ _ _ _ Ft Gt), bind_Ret. cbn [next].
  clear E1 E2 E3 E4 G1 G2 G3 G4 F1 F2 F3 F4 S1 S2 S3 S4 s1 s2 s3 Hvt vt.
  destruct nx as [a |].
  2:{ exists s4. split; [done |]. split; [done |]. split; [done |]. intros e. rewrite F04.
      by destruct (decide (e = t)). }
  destruct (Ha a eq_refl) as [Hat Hfa].
  destruct (put_prev_ok s4 a (Some (Node t)) (Some b') dn fa) as (s5 & E5 & S5 & G5 & F5).
  { by rewrite F04, decide_False. }
  rewrite E5, bind_Ret.
  destruct (put_delta_ok s5 a (fun x => u64 (x - d)) (Some (Node t)) dn fa) as (s6 & E6 & S6 & G6 & F6).
  { by rewrite F5, decide_True. }
  exists s6. split; [exact E6 |]. split; [eauto using same_trans |].
  split; [intros q; by rewrite G6, G5, G04 |]. intros e. rewrite F6, F5, F04.
  destruct (decide (e = a)) as [-> | Hea].
  - by rewrite (decide_False (P := a = t)), decide_True by done.
  - rewrite (decide_False (P := Some a = Some e)) by congruence. by destruct (decide (e = t)).
Qed.

(** A segment whose first timer was hung off another cell. *)
Lemma pseg_rehead s s' b0 r0 b r a D c l :
  pseg s b0 r0 ((a, D, c) :: l) -> NoDup (ids ((a, D, c) :: l)) ->
  getn s' b = Some (Some a) -> r <= D -> fld s' a = Some (Some b, D - r, Some c) ->
  (forall q, q = Node a \/ (exists e, q = Node e /\ e ∈ ids l) -> q <> lastb (Node a) l ->
     getn s' q = getn s q) ->
  (forall e, e ∈ ids l -> fld s' e = fld s e) ->
  pseg s' b r ((a, D, c) :: l).
Proof.
  cbn [pseg]. rewrite ids_cons. intros (_ & _ & _ & Hp) Hn Hg Hr Hf HG HF.
  apply NoDup_cons in Hn as [Ha Hn]. split; [done |]. split; [done |]. split; [done |].
  apply (pseg_frame s); [done | done | done | by intros e [= <-] | done].
Qed.

(** A list in two halves, seen from the cell between them. *)
Record split_at s b l1 l2 : Prop := {
  sp_front : pseg s b 0 l1;
  sp_back : pseg s (lastb b l1) (lastr 0 l1) l2;
  sp_end : getn s (lastb (lastb b l1) l2) = Some None;
  sp_nodup1 : NoDup (ids l1);
  sp_nodup2 : NoDup (ids l2);
  sp_disj : forall a, a ∈ ids l1 -> (a ∉ ids l2);
  sp_head : forall e, b = Node e -> (e ∉ ids l1) /\ (e ∉ ids l2)
}.

Lemma split_at_intro s b l1 l2 :
  cseg s b 0 (l1 ++ l2) None -> NoDup (ids (l1 ++ l2)) ->
  (forall e, b = Node e -> e ∉ ids (l1 ++ l2)) -> split_at s b l1 l2.
Proof.
  intros [Hp Hq] Hn Hb. apply pseg_app in Hp as [Hp1 Hp2]. rewrite lastb_app in Hq.
  rewrite ids_app in Hn, Hb. apply NoDup_app in Hn as (Hn1 & Hn2 & Hn3).
  constructor; try done. intros e He. specialize (Hb e He). rewrite elem_of_app in Hb. tauto.
Qed.

Lemma split_cell s b l1 l2 a : split_at s b l1 l2 -> a ∈ ids l2 -> lastb b l1 <> Node a.
Proof.
  intros [_ _ _ _ _ H1 H2] Ha E. destruct (lastb_cells b l1) as [E' | (e & E' & He)].
  - by apply (H2 a); [congruence |].
  - assert (e = a) as -> by congruence. by apply (H1 a).
Qed.

(** The front half does not see a write to the cell between the halves, to the back half
    or to another timer. *)
Lemma split_front s s' b l1 l2 :
  split_at s b l1 l2 ->
  (forall q, q = b \/ (exists e, q = Node e /\ e ∈ ids l1) -> q <> lastb b l1 -> getn s' q = getn s q) ->
  (forall e, e ∈ ids l1 -> fld s' e = fld s e) -> pseg s' b 0 l1.
Proof.
  intros H HG HF. apply (pseg_frame s); [done | done | apply (sp_nodup1 _ _ _ _ H) | | apply (sp_front _ _ _ _ H)].
  intros e He. apply (sp_head _ _ _ _ H e He).
Qed.

(** Where a cell of the back half is not. *)
Lemma back_cell s b l1 l2 q :
  split_at s b l1 l2 -> (exists e, q = Node e /\ e ∈ ids l2) -> q <> lastb b l1.
Proof. intros H (e & -> & He) E. by apply (split_cell s b l1 l2 e H He). Qed.

Lemma link_ok s t b l1 l2 D c :
  split_at s b l1 l2 -> b <> Node t -> t ∉ ids l1 -> t ∉ ids l2 ->
  fld s t = Some (None, 0, Some c) ->
  lastr 0 l1 <= D -> Forall (fun y => D <= y.1.2 < 2 ^ 64) l2 -> 0 <= D ->
  exists s', link t (lastb b l1) (D - lastr 0 l1) s = Ret s' /\ same s s' /\
    cseg s' b 0 (l1 ++ (t, D, c) :: l2) None /\
    (forall q, q <> b -> (forall e, q = Node e -> e <> t /\ (e ∉ ids l1)) -> getn s' q = getn s q) /\
    (forall e, e <> t -> e ∉ ids l2 -> fld s' e = fld s e).
Proof.
  intros H Hbt Ht1 Ht2 Hft Hr HD HD0. set (b' := lastb b l1). set (r' := lastr 0 l1) in *.
  assert (Hbt' : b' <> Node t) by (by apply lastb_not).
  pose proof (lastr_ge _ _ _ _ (sp_front _ _ _ _ H)) as Hr0. fold r' in Hr0.
  pose proof (sp_back _ _ _ _ H) as Hp2. pose proof (sp_end _ _ _ _ H) as Hq.
  fold b' r' in Hp2, Hq.
  set (nx := match l2 with [] => None | (a, _, _) :: _ => Some a end).
  set (dn := match l2 with [] => 0 | (_, D2, _) :: _ => D2 - r' end).
  set (fa := match l2 with [] => None | (_, _, c2) :: _ => Some c2 end).
  destruct (link_effect s t b' nx (D - r') c dn fa) as (s' & E & S' & G' & F'); [| done | done | |].
  { destruct l2 as [| [[a D2] c2] l2]; [exact Hq | by destruct Hp2]. }
  { intros a Ea. destruct l2 as [| [[a' D2] c2] l2]; [done |]. injection Ea as <-.
    destruct Hp2 as (_ & _ & K & _). split; [| exact K]. intros ->. apply Ht2, list_elem_of_here. }
  exists s'. split; [exact E |]. split; [exact S' |].
  assert (Hnx : forall e, nx = Some e -> e ∈ ids l2).
  { intros e. destruct l2 as [| [[a D2] c2] l2]; [done |]. intros [= <-]. apply list_elem_of_here. }
  assert (Hfront : pseg s' b 0 l1).
  { apply (split_front s s' b l1 l2 H).
    - intros q Hq1 Hne. rewrite G', !decide_False; [done | done |]. intros ->.
      destruct Hq1 as [E' | (e & [= <-] & He)]; [by apply Hbt | done].
    - intros e He. rewrite F', !decide_False; [done | | by intros ->].
      intros En. apply Hnx in En. by apply (sp_disj _ _ _ _ H e). }
  assert (Hcells : forall q, (exists e, q = Node e /\ e ∈ ids l2) -> getn s' q = getn s q).
  { intros q Hq2. rewrite G', !decide_False; [done | by apply (back_cell s b l1 l2) |].
    intros ->. destruct Hq2 as (e & [= <-] & He). done. }
  split; [| split].
  - split.
    + apply pseg_app. fold b' r'. split; [done |]. cbn [pseg].
      split; [by rewrite G', decide_False, decide_True |]. split; [done |].
      split; [by rewrite F', decide_True |].
      destruct l2 as [| [[a D2] c2] l2]; [done |]. apply Forall_cons in HD as [[HD2 HD2'] _].
      cbn [fst snd] in HD2, HD2'.
      assert (Hat : a <> t) by (intros ->; apply Ht2, list_elem_of_here).
      apply (pseg_rehead s s' b' r'); [done | apply (sp_nodup2 _ _ _ _ H) | | done | | |].
      * by rewrite G', decide_True.
      * rewrite F', decide_False, decide_True by done. unfold dn, fa.
        rewrite wrap_u_small by lia. do 3 f_equal. lia.
      * intros q Hq2 _. apply Hcells. destruct Hq2 as [-> | (e & -> & He)].
        -- exists a. split; [done | apply list_elem_of_here].
        -- exists e. split; [done | by apply list_elem_of_further].
      * intros e He. pose proof (sp_nodup2 _ _ _ _ H) as Hn. rewrite ids_cons in Hn.
        apply NoDup_cons in Hn as [Hn _]. rewrite F', !decide_False; [done | |].
        -- intros [= ->]. done.
        -- intros ->. apply Ht2. by apply list_elem_of_further.
    + rewrite lastb_app. cbn [lastb]. destruct l2 as [| [[a D2] c2] l2]; cbn [lastb].
      * by rewrite G', decide_True.
      * cbn [lastb] in Hq. rewrite Hcells; [done |]. destruct (lastb_cells (Node a) l2) as [-> | (e & -> & He)].
        -- exists a. split; [done | apply list_elem_of_here].
        -- exists e. split; [done | by apply list_elem_of_further].
  - intros q Hqb Hq'. rewrite G', !decide_False; [done | |].
    + intros ->. destruct (lastb_cells b l1) as [E' | (e & E' & He)]; [done |].
      by destruct (Hq' e E') as [_ Hx].
    + intros ->. by destruct (Hq' t eq_refl).
  - intros e He He2. rewrite F', !decide_False; [done | | done]. intros En. by apply He2, Hnx.
Qed.
(** ** Freeing and cancelling *)
(** The same but for the free list, which starts with [fl]. *)
Definition same_but (fl : option nat) s s' : Prop :=
  curr s' = curr s /\ timer_free_list s' = fl /\ t_curr s' = t_curr s /\
  now s' = now s /\ next_tick s' = next_tick s /\ length (wheel s') = length (wheel s) /\
  dom (heap s') = dom (heap s).

Lemma done_ok s t pr d fn :
  fld s t = Some (pr, d, fn) ->
  exists s', done t s = Ret s' /\ same_but (Some t) s s' /\
    (forall q, getn s' q = if decide (q = Node t) then Some (timer_free_list s) else getn s q) /\
    (forall e, fld s' e = if decide (e = t) then Some (None, d, fn) else fld s e).
Proof.
  intros Hf. destruct (fld_getn s t _ Hf) as [v Hv]. unfold done.
  destruct (with_timer_ok s t (fun n => put_prev None (put_next (timer_free_list s) n)) _ _ _ _ _
    Hf Hv eq_refl) as (s1 & E & S1 & G & F).
  rewrite E, bind_Ret. exists (set_free_list (Some t) s1). split; [done |].
  split; [| by split]. destruct S1 as (A1 & A2 & A3 & A4 & A5 & A6 & A7). by repeat split.
Qed.

Lemma cancel_effect s t b' nx d fn dn fa :
  t_curr s <> Some t -> b' <> Node t -> is_Some (getn s b') ->
  fld s t = Some (Some b', d, fn) -> getn s (Node t) = Some nx ->
  (forall a, nx = Some a -> a <> t /\ exists pr, fld s a = Some (pr, dn, fa)) ->
  exists s', timer_cancel t s = Ret s' /\ same_but (Some t) s s' /\
    (forall q, getn s' q = if decide (q = Node t) then Some (timer_free_list s)
                           else if decide (q = b') then Some nx else getn s q) /\
    (forall e, fld s' e = if decide (e = t) then Some (None, d, fn)
                          else if decide (nx = Some e) then Some (Some b', u64 (dn + d), fa)
                          else fld s e).
Proof.
  intros Hc Hbt [vb Hvb] Hft Hgt Ha. unfold timer_cancel.
  rewrite (timer_at_ok s t _ _ _ _ Hft Hgt), bind_Ret. cbn [prev next delta].
  rewrite decide_False by done.
  assert (H1 : exists s1, match nx with
      | Some a => s ← with_timer a (fun m => put_delta (u64 (delta m + d)) m) s;
                  with_timer a (put_prev (Some b')) s
      | None => Ret s
      end = Ret s1 /\ same s s1 /\ (forall q, getn s1 q = getn s q) /\
      forall e, fld s1 e = if decide (nx = Some e) then Some (Some b', u64 (dn + d), fa) else fld s e).
  { destruct nx as [a |]; [| by exists s]. destruct (Ha a eq_refl) as (Hat & pr & Hfa).
    destruct (put_delta_ok s a (fun x => u64 (x + d)) pr dn fa Hfa) as (s5 & E5 & S5 & G5 & F5).
    destruct (put_prev_ok s5 a (Some b') pr (u64 (dn + d)) fa) as (s6 & E6 & S6 & G6 & F6).
    { by rewrite F5, decide_True. }
    exists s6. split.
    { change (with_timer a (fun m => put_delta (u64 (delta m + d)) m) s = Ret s5) in E5.
      by rewrite E5, bind_Ret. }
    split; [eauto using same_trans |]. split; [intros q; by rewrite G6, G5 |].
    intros e. rewrite F6, F5. destruct (decide (e = a)) as [-> | Hea]; [by rewrite decide_True |].
    by rewrite decide_False by congruence. }
  destruct H1 as (s1 & E1 & S1 & G1 & F1). rewrite E1, bind_Ret. clear E1.
  assert (Ft : fld s1 t = Some (Some b', d, fn)).
  { rewrite F1, decide_False; [done |]. intros En. by destruct (Ha t En). }
  assert (Gt : getn s1 (Node t) = Some nx) by (by rewrite G1).
  rewrite (timer_at_ok s1 t _ _ _ _ Ft Gt), bind_Ret. cbn [prev next deref]. rewrite bind_Ret.
  destruct (set_next_ok s1 b' vb nx) as (s2 & E2 & S2 & G2 & F2); [by rewrite G1 |].
  rewrite E2, bind_Ret.
  destruct (done_ok s2 t (Some b') d fn) as (s3 & E3 & S3 & G3 & F3); [by rewrite F2 |].
  exists s3. split; [exact E3 |].
  destruct S1 as (A1 & A2 & A3 & A4 & A5 & A6 & A7), S2 as (B1 & B2 & B3 & B4 & B5 & B6 & B7),
    S3 as (C1 & C2 & C3 & C4 & C5 & C6 & C7).
  split; [unfold same_but; intuition congruence |]. split.
  - intros q. rewrite G3, B2, A2, G2, G1. done.
  - intros e. rewrite F3, F2, F1. done.
Qed.

Lemma cancel_ok s t b l1 l2 D c :
  split_at s b l1 ((t, D, c) :: l2) -> b <> Node t -> t_curr s <> Some t ->
  Forall (fun y => y.1.2 < 2 ^ 64) l2 ->
  exists s', timer_cancel t s = Ret s' /\ same_but (Some t) s s' /\
    cseg s' b 0 (l1 ++ l2) None /\
    getn s' (Node t) = Some (timer_free_list s) /\ (exists d f, fld s' t = Some (None, d, f)) /\
    (forall q, q <> b -> (forall e, q = Node e -> e <> t /\ (e ∉ ids l1)) -> getn s' q = getn s q) /\
    (forall e, e <> t -> e ∉ ids l2 -> fld s' e = fld s e).
Proof.
  intros H Hbt Hcur HD. set (b' := lastb b l1). set (r' := lastr 0 l1).
  pose proof (sp_nodup2 _ _ _ _ H) as Hn2. rewrite ids_cons in Hn2. apply NoDup_cons in Hn2 as [Ht2 Hn2].
  cbn [id_of fst] in Ht2.
  assert (Ht1 : t ∉ ids l1) by (intros Ht; apply (sp_disj _ _ _ _ H t Ht), list_elem_of_here).
  assert (Hbt' : b' <> Node t) by (by apply lastb_not).
  pose proof (lastr_ge _ _ _ _ (sp_front _ _ _ _ H)) as Hr0. fold r' in Hr0.
  pose proof (sp_back _ _ _ _ H) as (Hgb & HrD & Hft & Hp2). pose proof (sp_end _ _ _ _ H) as Hq.
  fold b' r' in Hgb, HrD, Hft, Hq. cbn [lastb] in Hq.
  set (nx := match l2 with [] => None | (a, _, _) :: _ => Some a end).
  set (dn := match l2 with [] => 0 | (_, D2, _) :: _ => D2 - D end).
  set (fa := match l2 with [] => None | (_, _, c2) :: _ => Some c2 end).
  destruct (cancel_effect s t b' nx (D - r') (Some c) dn fa) as (s' & E & S' & G' & F');
    [done | done | by eexists | done | | |].
  { destruct l2 as [| [[a D2] c2] l2]; [exact Hq | by destruct Hp2]. }
  { intros a Ea. destruct l2 as [| [[a' D2] c2] l2]; [done |]. injection Ea as <-.
    destruct Hp2 as (_ & _ & K & _). split; [| by eexists]. intros ->. apply Ht2, list_elem_of_here. }
  exists s'. split; [exact E |]. split; [exact S' |].
  assert (Hnx : forall e, nx = Some e -> e ∈ ids l2).
  { intros e. destruct l2 as [| [[a D2] c2] l2]; [done |]. intros [= <-]. apply list_elem_of_here. }
  assert (Hback : forall e, e ∈ ids l2 -> e ∈ ids ((t, D, c) :: l2)).
  { intros e He. by apply list_elem_of_further. }
  assert (Hfront : pseg s' b 0 l1).
  { apply (split_front s s' b l1 _ H).
    - intros q Hq1 Hne. rewrite G', !decide_False; [done | done |]. intros ->.
      destruct Hq1 as [E' | (e & [= <-] & He)]; [by apply Hbt | done].
    - intros e He. rewrite F', !decide_False; [done | | by intros ->].
      intros En. apply Hnx, Hback in En. by apply (sp_disj _ _ _ _ H e). }
  assert (Hcells : forall q, (exists e, q = Node e /\ e ∈ ids l2) -> getn s' q = getn s q).
  { intros q (e & -> & He). rewrite G', !decide_False; [done | |].
    - apply (back_cell s b l1 _ (Node e) H). exists e. split; [done | by apply Hback].
    - by intros [= ->]. }
  split; [| split; [by rewrite G', decide_True |]; split; [by rewrite F', decide_True; eauto |]; split].
  - split.
    + apply pseg_app. fold b' r'. split; [done |].
      destruct l2 as [| [[a D2] c2] l2]; [done |]. apply Forall_cons in HD as [HD2 _].
      cbn [fst snd] in HD2.
      assert (Hat : a <> t) by (intros ->; apply Ht2, list_elem_of_here).
      pose proof Hp2 as (_ & HDD & _ & _).
      apply (pseg_rehead s s' (Node t) D); [done | done | | lia | | |].
      * by rewrite G', decide_False, decide_True.
      * rewrite F', decide_False, decide_True by done. unfold dn, fa.
        rewrite wrap_u_small by lia. do 3 f_equal. lia.
      * intros q Hq2 _. apply Hcells. destruct Hq2 as [-> | (e & -> & He)].
        -- exists a. split; [done | apply list_elem_of_here].
        -- exists e. split; [done | by apply list_elem_of_further].
      * intros e He. rewrite ids_cons in Hn2. apply NoDup_cons in Hn2 as [Hn _].
        rewrite F', !decide_False; [done | |].
        -- intros [= ->]. done.
        -- intros ->. apply Ht2. by apply list_elem_of_further.
    + rewrite lastb_app. fold b'. destruct l2 as [| [[a D2] c2] l2]; cbn [lastb].
      * by rewrite G', decide_False, decide_True.
      * cbn [lastb] in Hq. rewrite Hcells; [done |]. destruct (lastb_cells (Node a) l2) as [-> | (e & -> & He)].
        -- exists a. split; [done | apply list_elem_of_here].
        -- exists e. split; [done | by apply list_elem_of_further].
  - intros q Hqb Hq'. rewrite G', !decide_False; [done | |].
    + intros ->. destruct (lastb_cells b l1) as [E' | (e & E' & He)]; [done |].
      by destruct (Hq' e E') as [_ Hx].
    + intros ->. by destruct (Hq' t eq_refl).
  - intros e He He2. rewrite F', !decide_False; [done | | done]. intros En. by apply He2, Hnx.
Qed.
End Cells.

(** ** Timers with a given expiry *)
Section Expiry.
Context {C : Type}.
Implicit Types (l : list (nat * Z * C)).

Lemma at_exp_cons e a D c l :
  at_exp e ((a, D, c) :: l) = (if D =? e then [(a, c)] else []) ++ at_exp e l.
Proof. unfold at_exp. cbn. by destruct (D =? e). Qed.

Lemma at_exp_app e l1 l2 : at_exp e (l1 ++ l2) = at_exp e l1 ++ at_exp e l2.
Proof. apply omap_app. Qed.

Lemma elem_at_exp e l a c : (a, c) ∈ at_exp e l <-> (a, e, c) ∈ l.
Proof.
  unfold at_exp. rewrite list_elem_of_omap. split.
  - intros ([[a' D] c'] & Hin & E). cbn in E. destruct (Z.eqb_spec D e) as [-> |]; [| done].
    by injection E as -> ->.
  - intros Hin. exists (a, e, c). split; [done |]. cbn. by rewrite Z.eqb_refl.
Qed.

Lemma at_exp_nil e l : Forall (fun y => y.1.2 <> e) l -> at_exp e l = [].
Proof.
  induction 1 as [| [[a D] c] l H F IH]; [done |]. rewrite at_exp_cons, IH. cbn in H.
  by destruct (Z.eqb_spec D e).
Qed.

Lemma at_exp_without e a l :
  at_exp e (without a l) = filter (fun y => y.1 <> a) (at_exp e l).
Proof.
  induction l as [| [[a' D] c] l IH]; [done |]. unfold without in *. rewrite filter_cons.
  rewrite (at_exp_cons e a'), filter_app, <- IH. unfold id_of. cbn [fst].
  destruct (decide (a' <> a)) as [Hne | He].
  - rewrite at_exp_cons. f_equal. destruct (D =? e); [| done].
    rewrite filter_cons, decide_True by done. done.
  - destruct (D =? e); [| done]. rewrite filter_cons, decide_False by done. done.
Qed.

Lemma elem_ids a l : a ∈ ids l <-> exists D c, (a, D, c) ∈ l.
Proof.
  unfold ids. rewrite list_elem_of_fmap. split.
  - intros ([[a' D] c] & -> & Hin). by exists D, c.
  - intros (D & c & Hin). by exists (a, D, c).
Qed.

Lemma ids_without a l : ids (without a l) = filter (fun e => e <> a) (ids l).
Proof.
  induction l as [| [[a' D] c] l IH]; [done |]. unfold without in *.
  rewrite ids_cons, !filter_cons. change (id_of (a', D, c)) with a'.
  destruct (decide (a' <> a)); [by rewrite ids_cons, IH | exact IH].
Qed.

Lemma without_notin a l : a ∉ ids l -> without a l = l.
Proof.
  induction l as [| [[a' D] c] l IH]; [done |]. rewrite ids_cons, not_elem_of_cons.
  intros [H1 H2]. unfold without in *. rewrite filter_cons_True by (by apply not_eq_sym).
  by rewrite IH.
Qed.

(** The same ids have the same entry. *)
Lemma nodup_entry l a D c D' c' :
  NoDup (ids l) -> (a, D, c) ∈ l -> (a, D', c') ∈ l -> D = D' /\ c = c'.
Proof.
  induction l as [| [[b E] f] l IH]; [by intros _ ?%elem_of_nil |].
  rewrite ids_cons, NoDup_cons. cbn [id_of fst]. intros [Hb Hn].
  assert (Hx : forall D c, (b, D, c) ∈ l -> False).
  { intros D0 c0 Hin. apply Hb, elem_ids. eauto. }
  rewrite !elem_of_cons. intros [E1 | H1] [E2 | H2]; simplify_eq.
  - done.
  - exfalso. by eapply Hx.
  - exfalso. by eapply Hx.
  - by apply IH.
Qed.

(** The ids of a list whose entries come from one without repetition. *)
Lemma nodup_from l (p : list (nat * Z * C)) (g : Z -> Z) :
  NoDup (ids p) -> (forall D D', g D = g D' -> D = D') ->
  (forall y, y ∈ l -> at_exp y.1.2 l = at_exp (g y.1.2) p) -> NoDup (ids l).
Proof.
  intros Hn Hg Hat.
  assert (Hin : forall a D c, (a, D, c) ∈ l -> (a, g D, c) ∈ p).
  { intros a D c Hy. apply elem_at_exp. pose proof (Hat _ Hy) as E. cbn [fst snd] in E.
    rewrite <- E. by apply elem_at_exp. }
  assert (Hone : forall a D c, (a, D, c) ∈ l -> NoDup (at_exp D l)).
  { intros a D c Hy. pose proof (Hat _ Hy) as E. cbn [fst snd] in E. rewrite E. clear - Hn.
    induction p as [| [[a' E] f] p IH]; [constructor |]. rewrite ids_cons, NoDup_cons in Hn.
    destruct Hn as [Ha Hn]. rewrite at_exp_cons. destruct (E =? g D) eqn:Eq; [| by apply IH].
    apply NoDup_cons. split; [| by apply IH]. intros Hc. apply elem_at_exp in Hc. apply Ha, elem_ids. eauto. }
  clear Hat. induction l as [| [[a D] c] l IH]; [constructor |].
  rewrite ids_cons. apply NoDup_cons. split.
  - intros Ha. apply elem_ids in Ha as (D' & c' & Hin').
    destruct (nodup_entry p a (g D) c (g D') c' Hn) as [E ->].
    + apply Hin, list_elem_of_here.
    + apply Hin. by apply list_elem_of_further.
    + apply Hg in E as <-. pose proof (Hone a D c' (list_elem_of_here _ _)) as H1.
      rewrite at_exp_cons, Z.eqb_refl in H1. apply NoDup_cons in H1 as [H1 _].
      apply H1, elem_at_exp, Hin'.
  - apply IH.
    + intros a' D' c' Hy. apply Hin. by apply list_elem_of_further.
    + intros a' D' c' Hy. specialize (Hone a' D' c' (list_elem_of_further _ _ _ Hy)).
      rewrite at_exp_cons in Hone. by apply NoDup_app in Hone as (_ & _ & ?).
Qed.
End Expiry.

End TimerCells.
