(* ===== verification/TimerWheelProofs.v ===== *)
(** * httperf/src/timer.c: the wheel implements the list of pending timers

    The representation relation between the heap of timers and the specification
    of [TimerWheel], its preservation by every operation, and the refinement of
    [timer_tick], callbacks included. *)
From S2P Require Import Prelude Doubles TimerWheel TimerCells.

Module TimerWheelProofs.
Import Doubles TimerWheel TimerCells.

(** ** The conversion of delays *)
Lemma ticks_range now next d k : ticks_of now next d = Ret k -> 1 <= k < 2 ^ 64.
Proof.
  unfold ticks_of. cbn zeta.
  match goal with |- (if ?b then _ else _) = _ -> _ => destruct b end; [intros [= <-]; lia |].
  destruct (to_ulong _) as [v | | |] eqn:E; cbn; try done. apply to_ulong_range in E.
  intros [= <-]. destruct (Z.eqb_spec v 0); lia.
Qed.

(** ** The representation *)
Section Rel.
Context {C : Type} (malloc : gset nat -> option nat).
Implicit Types (s : st C) (x : spec C) (a t : nat) (l : list (nat * Z * C)).
(** [malloc] gives an address that is not in use. *)
Hypothesis Hmalloc : forall u a, malloc u = Some a -> a ∉ u.

(** The tick at which a list of the wheel is visited next. *)
Definition visit s x (i : Z) : Z := tick x + (i - curr s) mod 4096.

(** The free list. *)
Fixpoint fseg s (p : option nat) (l : list nat) : Prop :=
  match l with
  | [] => p = None
  | a :: l =>
      p = Some a /\ (exists d f, fld s a = Some (None, d, f)) /\
      exists p', getn s (Node a) = Some p' /\ fseg s p' l
  end.

(** Everything but the list that is being processed. *)
Record base s x (L : Z -> list (nat * Z * C)) : Prop := {
  b_curr : 0 <= curr s < 4096;
  b_wheel : length (wheel s) = 4096%nat;
  b_now : now s = clock x;
  b_next : next_tick s = next_at x;
  b_chain : forall i, 0 <= i < 4096 -> i <> curr s -> cseg s (Head i) 0 (L i) None;
  b_free : fseg s (timer_free_list s) (freed x);
  b_dom : forall a, a ∈ dom (heap s) <-> a ∈ in_use x;
  b_nodup : NoDup (in_use x);
  b_at : forall i D, 0 <= i < 4096 -> 0 <= D ->
         at_exp D (L i) = at_exp (visit s x i + 4096 * D) (pending x);
  b_future : Forall (fun y => tick x <= y.1.2 < tick x + 2 ^ 64) (pending x);
  b_nonneg : forall i, 0 <= i < 4096 -> Forall (fun y => 0 <= y.1.2) (L i)
}.

(** The list at [curr], hanging off the timer whose callback runs. *)
Definition cur_list s x l : Prop :=
  match current x with
  | None => cseg s (Head (curr s)) 0 l None
  | Some a => cseg s (Node a) 0 l None /\ exists pr d f, fld s a = Some (Some pr, d, f)
  end.
Definition rel s x L : Prop := base s x L /\ cur_list s x (L (curr s)) /\ t_curr s = current x.

(** The list at [curr] between two callbacks: it starts with the pointer [p]. *)
Definition loose s (p : option nat) l : Prop :=
  match l with
  | [] => p = None
  | (a, D, c) :: l' =>
      p = Some a /\ (exists pr, fld s a = Some (Some pr, D, Some c)) /\ cseg s (Node a) D l' None
  end.
Definition between s x L (p : option nat) : Prop :=
  base s x L /\ loose s p (L (curr s)) /\ current x = None.

(** ** What the relation says about the lists *)
Lemma in_L s x L i a D c : base s x L -> 0 <= i < 4096 ->
  (a, D, c) ∈ L i -> 0 <= D /\ (a, visit s x i + 4096 * D, c) ∈ pending x.
Proof.
  intros B Hi Hin. pose proof (b_nonneg _ _ _ B i Hi) as F. rewrite Forall_forall in F.
  specialize (F _ Hin). cbn in F. split; [done |].
  apply elem_at_exp. rewrite <- (b_at _ _ _ B) by done. by apply elem_at_exp.
Qed.

Lemma pending_nodup s x L : base s x L -> NoDup (ids (pending x)).
Proof. intros B. pose proof (b_nodup _ _ _ B) as H. by apply NoDup_app in H as [? _]. Qed.

Lemma ids_L s x L i a : base s x L -> 0 <= i < 4096 -> a ∈ ids (L i) -> a ∈ ids (pending x).
Proof.
  intros B Hi Ha. apply elem_ids in Ha as (D & c & Hin).
  destruct (in_L s x L i a D c B Hi Hin) as [_ Hp]. apply elem_ids. eauto.
Qed.

Lemma visit_inj s x i j D D' : 0 <= i < 4096 -> 0 <= j < 4096 -> 
  visit s x i + 4096 * D = visit s x j + 4096 * D' -> i = j /\ D = D'.
Proof. unfold visit. intros. assert (i = j) as -> by zdiv. split; [done | lia]. Qed.

Lemma L_nodup s x L i : base s x L -> 0 <= i < 4096 -> NoDup (ids (L i)).
Proof.
  intros B Hi. apply (nodup_from _ (pending x) (fun D => visit s x i + 4096 * D)).
  - by apply (pending_nodup s x L).
  - intros D D' E. lia.
  - intros y Hy. apply (b_at _ _ _ B); [done |].
    pose proof (b_nonneg _ _ _ B i Hi) as F. rewrite Forall_forall in F. by apply F.
Qed.

Lemma L_disjoint s x L i j a : base s x L -> 0 <= i < 4096 -> 0 <= j < 4096 ->
  a ∈ ids (L i) -> a ∈ ids (L j) -> i = j.
Proof.
  intros B Hi Hj (D & c & H1)%elem_ids (D' & c' & H2)%elem_ids.
  destruct (in_L s x L i a D c B Hi H1) as [_ P1]. destruct (in_L s x L j a D' c' B Hj H2) as [_ P2].
  destruct (nodup_entry _ _ _ _ _ _ (pending_nodup s x L B) P1 P2) as [E _].
  by apply visit_inj in E as [-> _].
Qed.

Lemma L_bound s x L i : base s x L -> 0 <= i < 4096 -> Forall (fun y => y.1.2 < 2 ^ 64) (L i).
Proof.
  intros B Hi. apply Forall_forall. intros [[a D] c] Hin. cbn.
  destruct (in_L s x L i a D c B Hi Hin) as [HD Hp]. pose proof (b_future _ _ _ B) as F.
  rewrite Forall_forall in F. specialize (F _ Hp). cbn in F. unfold visit in F.
  pose proof (Z.mod_pos_bound (i - curr s) 4096 ltac:(lia)). lia.
Qed.

(** Pending, freed and running timers are different. *)
Lemma pending_not s x L a : base s x L -> a ∈ ids (pending x) ->
  (a ∉ freed x) /\ current x <> Some a.
Proof.
  intros B Ha. pose proof (b_nodup _ _ _ B) as H. unfold in_use in H.
  apply NoDup_app in H as (_ & H & _). specialize (H a Ha). rewrite elem_of_app in H.
  split; [tauto |]. intros E. apply H. right. rewrite E. apply list_elem_of_here.
Qed.

Lemma freed_not_current s x L a : base s x L -> a ∈ freed x -> current x <> Some a.
Proof.
  intros B Ha E. pose proof (b_nodup _ _ _ B) as H. unfold in_use in H.
  apply NoDup_app in H as (_ & _ & H). apply NoDup_app in H as (_ & H & _).
  apply (H a Ha). rewrite E. apply list_elem_of_here.
Qed.

(** ** Writes in one list leave the others alone *)
(** All cells but [b] and the timers [X] are as before. *)
Definition untouched (b : ptr) (X : list nat) s s' : Prop :=
  (forall q, q <> b -> (forall e, q = Node e -> e ∉ X) -> getn s' q = getn s q) /\
  (forall e, e ∉ X -> fld s' e = fld s e).

Lemma untouched_trans b X s1 s2 s3 :
  untouched b X s1 s2 -> untouched b X s2 s3 -> untouched b X s1 s3.
Proof.
  intros [G1 F1] [G2 F2]. split.
  - intros q H1 H2. by rewrite G2, G1.
  - intros e He. by rewrite F2, F1.
Qed.

Lemma untouched_weaken b X Y s s' : X ⊆ Y -> untouched b X s s' -> untouched b Y s s'.
Proof.
  intros HXY [G F]. split.
  - intros q H1 H2. apply G; [done |]. intros e He Hin. by apply (H2 e He), HXY.
  - intros e He. apply F. intros Hin. by apply He, HXY.
Qed.

Lemma untouched_cseg b X s s' b0 l v :
  untouched b X s s' -> b0 <> b -> (forall e, b0 = Node e -> (e ∉ X) /\ (e ∉ ids l)) ->
  b ∉ map Node (ids l) -> (forall e, e ∈ ids l -> e ∉ X) -> NoDup (ids l) ->
  cseg s b0 0 l v -> cseg s' b0 0 l v.
Proof.
  intros [G F] Hb Hb0 Hbl Hl Hn. apply cseg_frame; [| | done |].
  - intros q [-> | (e & -> & He)].
    + apply G; [done |]. intros e He. by apply Hb0.
    + apply G; [| intros e' [= <-]; by apply Hl]. intros <-. apply Hbl, list_elem_of_fmap. by exists e.
  - intros e He. by apply F, Hl.
  - intros e He. by apply Hb0.
Qed.

Lemma untouched_fseg b X s s' p (fr : list nat) :
  untouched b X s s' -> (forall e, e ∈ fr -> (e ∉ X) /\ b <> Node e) -> fseg s p fr -> fseg s' p fr.
Proof.
  intros [G F]. revert p. induction fr as [| a fr IH]; intros p Hl; [done |]. cbn [fseg].
  intros (-> & (d & f & Hf) & p' & Hg & Hs). destruct (Hl a (list_elem_of_here _ _)) as [Ha Hb].
  split; [done |]. split; [exists d, f; by rewrite F |]. exists p'. split.
  - rewrite G; [done | by apply not_eq_sym |]. by intros e [= <-].
  - apply IH; [| done]. intros e He. apply Hl. by apply list_elem_of_further.
Qed.
(** ** Scheduling *)
Definition implements {A B} (R : A -> B -> Prop) (code : cres A) (sp : cres B) : Prop :=
  match sp with
  | Ret b => exists r, code = Ret r /\ R r b
  | Exit e => code = Exit e
  | Undef | NoFuel => True
  end.

Lemma implements_bind {A B A' B'} (R : A -> B -> Prop) (R' : A' -> B' -> Prop) m n f g :
  implements R m n -> (forall u v, R u v -> implements R' (f u) (g v)) ->
  implements R' (m ≫= f) (n ≫= g).
Proof.
  destruct n as [b | e | |]; cbn; try done.
  - intros (a & -> & H) Hf. rewrite bind_Ret. by apply Hf.
  - by intros ->.
Qed.

(** Everything in use but the freed ones that are taken. *)
Definition in_use_new x (t : nat) (fr : list nat) : list nat :=
  t :: ids (pending x) ++ fr ++ option_list (current x).

Lemma insert_timer s t n :
  let s1 := set_heap (<[t := n]> (heap s)) s in
  untouched (Node t) [t] s s1 /\ fld s1 t = Some (prev n, delta n, func n) /\
  getn s1 (Node t) = Some (next n).
Proof.
  split; [split | split].
  - intros [i | a] Hq Ha; [done |]. cbn [getn set_heap heap].
    rewrite lookup_insert_ne; [done |]. intros ->. by apply (Ha a eq_refl), list_elem_of_here.
  - intros e He. unfold fld. cbn [set_heap heap]. rewrite lookup_insert_ne; [done |].
    intros ->. apply He, list_elem_of_here.
  - unfold fld. cbn [set_heap heap]. by rewrite lookup_insert_eq.
  - cbn [getn set_heap heap]. by rewrite lookup_insert_eq.
Qed.

Lemma new_timer_ok s x L c t fr :
  base s x L -> spec_new malloc x = Some (t, fr) ->
  exists s1, new_timer malloc c s = Ret (Some (t, s1)) /\
    (curr s1 = curr s /\ wheel s1 = wheel s /\ t_curr s1 = t_curr s /\ now s1 = now s /\
     next_tick s1 = next_tick s) /\
    fld s1 t = Some (None, 0, Some c) /\ untouched (Node t) [t] s s1 /\
    fseg s1 (timer_free_list s1) fr /\
    (forall a, a ∈ dom (heap s1) <-> a ∈ in_use_new x t fr) /\ NoDup (in_use_new x t fr).
Proof.
  intros B. pose proof (b_dom _ _ _ B) as Hdom. pose proof (b_nodup _ _ _ B) as Hn.
  pose proof (b_free _ _ _ B) as Hfr. unfold spec_new, new_timer. unfold in_use in *.
  destruct (freed x) as [| a l].
  - cbn [fseg] in Hfr. rewrite Hfr.
    destruct (malloc (list_to_set _)) as [a |] eqn:Em; [| done]. intros [= <- <-].
    assert (Ed : dom (heap s) = list_to_set (ids (pending x) ++ [] ++ option_list (current x))).
    { apply leibniz_equiv. intros e. rewrite elem_of_list_to_set. apply Hdom. }
    assert (Hfresh : a ∉ ids (pending x) ++ [] ++ option_list (current x)).
    { apply Hmalloc in Em. by rewrite elem_of_list_to_set in Em. }
    replace (malloc (dom (heap s))) with (Some a) by (by rewrite Ed).
    destruct (insert_timer s a (mkTimer None None 0 (Some c))) as (U & F & G).
    eexists. split; [reflexivity |]. split; [done |]. split; [exact F |]. split; [exact U |].
    split; [done |]. unfold in_use_new. cbn [app] in *. split.
    + intros e. cbn [heap set_heap]. rewrite dom_insert_L, elem_of_union, elem_of_singleton, Hdom, elem_of_cons.
      done.
    + apply NoDup_cons. by split.
  - cbn [fseg] in Hfr. destruct Hfr as (Ep & (d & f & Hf) & p' & Hg & Hs). rewrite Ep.
    intros [= <- <-]. rewrite (timer_at_ok s a _ _ _ _ Hf Hg), bind_Ret. cbn [next].
    destruct (insert_timer (set_free_list p' s) a (mkTimer None None 0 (Some c))) as (U & F & G).
    assert (Hper : in_use_new x a l ≡ₚ ids (pending x) ++ (a :: l) ++ option_list (current x)).
    { unfold in_use_new. rewrite <- app_comm_cons. apply Permutation_middle. }
    eexists. split; [reflexivity |]. split; [done |]. split; [exact F |]. split; [exact U |].
    split; [| split].
    + apply (untouched_fseg (Node a) [a] s); [exact U | | exact Hs].
        intros e He. apply NoDup_app in Hn as (_ & _ & Hn). apply NoDup_app in Hn as (Hn & _ & _).
        apply NoDup_cons in Hn as [Hn _]. rewrite list_elem_of_singleton.
        split; [by intros -> | by intros [= <-]].
    + intros e. cbn [heap set_heap set_free_list]. rewrite dom_insert_L, elem_of_union, elem_of_singleton, Hdom, Hper.
      rewrite !elem_of_app, elem_of_cons. tauto.
    + by rewrite Hper.
Qed.

Lemma new_timer_none s x L c :
  base s x L -> spec_new malloc x = None -> new_timer malloc c s = Ret None.
Proof.
  intros B. pose proof (b_dom _ _ _ B) as Hdom. pose proof (b_free _ _ _ B) as Hfr.
  unfold spec_new, new_timer, in_use in *. destruct (freed x) as [| a l]; [| done].
  cbn [fseg] in Hfr. rewrite Hfr.
  assert (Ed : dom (heap s) = list_to_set (ids (pending x) ++ [] ++ option_list (current x))).
  { apply leibniz_equiv. intros e. rewrite elem_of_list_to_set. apply Hdom. }
  rewrite Ed. destruct (malloc _); [done |]. done.
Qed.

(** The list of a new timer. *)
Lemma spoke_visit s x ticks :
  0 <= curr s < 4096 -> 0 <= ticks ->
  let i := spoke_of (curr s) ticks in
  0 <= i < 4096 /\ visit s x i + 4096 * (ticks / 4096) = tick x + ticks /\
  (ticks mod 4096 = 0 <-> i = curr s).
Proof.
  intros Hc Ht. unfold spoke_of, visit, WHEEL_SIZE. cbn zeta.
  destruct (Z.leb_spec 4096 (curr s + ticks mod 4096)); zdiv.
Qed.

(** The list at a head, when no callback's own list is meant. *)
Lemma head_list s x L i :
  rel s x L -> 0 <= i < 4096 -> (current x = None \/ i <> curr s) -> cseg s (Head i) 0 (L i) None.
Proof.
  intros (B & Hc & _) Hi Hor. destruct (Z.eq_dec i (curr s)) as [-> | Hne].
  - destruct Hor as [E |]; [| done]. unfold cur_list in Hc. by rewrite E in Hc.
  - by apply (b_chain _ _ _ B).
Qed.

Lemma length_le_size (l : list nat) (h : gmap nat (timer C)) :
  NoDup l -> (forall a, a ∈ l -> a ∈ dom h) -> (length l <= size h)%nat.
Proof.
  intros Hn Hd. rewrite <- size_dom, <- (size_list_to_set (C := gset nat) l Hn).
  apply subseteq_size. intros a Ha. apply Hd. by apply elem_of_list_to_set in Ha.
Qed.
(** The cell that the list [i] hangs off. *)
Definition cell s x (i : Z) : ptr :=
  if decide (i = curr s) then match current x with Some a => Node a | None => Head i end else Head i.

Lemma cell_list s x L i : rel s x L -> 0 <= i < 4096 -> cseg s (cell s x i) 0 (L i) None.
Proof.
  intros R Hi. unfold cell. destruct (decide (i = curr s)) as [-> | Hne].
  - destruct R as (_ & Hc & _). unfold cur_list in Hc. destruct (current x); [by destruct Hc | done].
  - apply (head_list s x); [done | done | by right].
Qed.

Lemma cell_node s x i a : cell s x i = Node a -> i = curr s /\ current x = Some a.
Proof. unfold cell. destruct (decide (i = curr s)); [| done]. destruct (current x); [| done]. by intros [= ->]. Qed.

Lemma cell_inj s x i j : cell s x i = cell s x j -> i = j.
Proof.
  unfold cell. destruct (decide (i = curr s)) as [-> |], (decide (j = curr s)) as [-> |];
    destruct (current x); congruence.
Qed.

(** A step that changes the list [i] only. *)
Lemma rel_update s s' x x' L i l' X :
  rel s x L -> 0 <= i < 4096 -> untouched (cell s x i) X s s' ->
  (forall e, e ∈ X -> current x <> Some e /\ (e ∈ ids (pending x) -> e ∈ ids (L i))) ->
  cseg s' (cell s x i) 0 l' None ->
  (curr s' = curr s /\ length (wheel s') = length (wheel s) /\ now s' = now s /\
   next_tick s' = next_tick s /\ t_curr s' = t_curr s) ->
  (tick x' = tick x /\ clock x' = clock x /\ next_at x' = next_at x /\ current x' = current x) ->
  fseg s' (timer_free_list s') (freed x') ->
  (forall a, a ∈ dom (heap s') <-> a ∈ in_use x') -> NoDup (in_use x') ->
  Forall (fun y => tick x <= y.1.2 < tick x + 2 ^ 64) (pending x') ->
  Forall (fun y => 0 <= y.1.2) l' ->
  (forall j D, 0 <= j < 4096 -> 0 <= D ->
     at_exp D (if decide (j = i) then l' else L j) = at_exp (visit s x j + 4096 * D) (pending x')) ->
  rel s' x' (fun j => if decide (j = i) then l' else L j).
Proof.
  intros R Hi U HX Hl' (Ec & Ew & En & Ent & Etc) (Ex & Exc & Exn & Exu) Hfree Hdom Hnd Hfut Hnn Hat.
  pose proof R as (B & Hcur & Ht).
  assert (Hother : forall j, 0 <= j < 4096 -> j <> i -> cseg s' (cell s x j) 0 (L j) None).
  { intros j Hj Hne. apply (untouched_cseg (cell s x i) X s); [done | | | | | | by apply cell_list].
    - intros E. by apply cell_inj in E.
    - intros e Ee. apply cell_node in Ee as [-> Ee]. split; [intros He; by apply HX in He as [? _] |].
      intros He. by apply (ids_L s x L) in He; [| done | done]; apply (pending_not s x L) in He as [_ ?].
    - intros Hin. apply list_elem_of_fmap in Hin as (e & Ee & He). apply cell_node in Ee as [-> Ee].
      apply (ids_L s x L) in He; [| done | done]. by apply (pending_not s x L) in He as [_ ?].
    - intros e He HeX. destruct (HX e HeX) as [_ Hin].
      apply Hne. apply (L_disjoint s x L j i e); try done. apply Hin. by apply (ids_L s x L j).
    - by apply (L_nodup s x L). }
  assert (Hall : forall j, 0 <= j < 4096 -> cseg s' (cell s x j) 0 (if decide (j = i) then l' else L j) None).
  { intros j Hj. destruct (decide (j = i)) as [-> |]; [done | by apply Hother]. }
  split; [| split].
  - constructor.
    + rewrite Ec. apply B.
    + rewrite Ew. apply B.
    + rewrite En, Exc. apply B.
    + rewrite Ent, Exn. apply B.
    + intros j Hj Hne. rewrite Ec in Hne. specialize (Hall j Hj). unfold cell in Hall.
      by rewrite decide_False in Hall.
    + done.
    + done.
    + done.
    + intros j D Hj HD. unfold visit. rewrite Ec, Ex. by apply Hat.
    + by rewrite Ex.
    + intros j Hj. destruct (decide (j = i)); [done | by apply B].
  - unfold cur_list in *. rewrite Exu, Ec. specialize (Hall (curr s) (b_curr _ _ _ B)).
    unfold cell in Hall. rewrite decide_True in Hall by done. destruct (current x) as [a |] eqn:Ea; [| done].
    destruct Hcur as (_ & pr & d & f & Hf). split; [done |]. exists pr, d, f.
    destruct U as [_ UF]. rewrite UF; [done |]. intros HaX. by destruct (HX a HaX).
  - congruence.
Qed.

Lemma untouched_node t b X s s' : t ∈ X -> untouched (Node t) X s s' -> untouched b X s s'.
Proof.
  intros Ht [G F]. split; [| done]. intros q _ Hq. apply G; [| done]. intros ->. by apply (Hq t).
Qed.

Lemma schedule_ok inside c delay s x L :
  rel s x L -> (inside = false -> current x = None) ->
  implements (fun r q => r.1 = q.1 /\ curr r.2 = curr s /\ exists L', rel r.2 q.2 L')
    (timer_schedule malloc c delay s) (spec_schedule malloc inside c delay x).
Proof.
  intros R Hin. pose proof R as (B & _ & _). unfold spec_schedule, timer_schedule.
  destruct (spec_new malloc x) as [[t fr] |] eqn:Enew.
  2:{ exists (None, s). rewrite (new_timer_none s x L c B Enew), bind_Ret. split; [done |].
      split; [done |]. split; [done |]. by exists L. }
  destruct (new_timer_ok s x L c t fr B Enew)
    as (s1 & E1 & (Ec & Ew & Etc & En & Ent) & Ft & U1 & Hfr & Hdom & Hnd).
  rewrite E1, bind_Ret. rewrite En, Ent, (b_now _ _ _ B), (b_next _ _ _ B).
  destruct (ticks_of (clock x) (next_at x) delay) as [ticks | e | |] eqn:Et; [| done | done | done].
  rewrite !bind_Ret. pose proof (ticks_range _ _ _ _ Et) as Hticks.
  destruct (inside && (ticks mod WHEEL_SIZE =? 0)) eqn:Eg; [done |]. unfold WHEEL_SIZE in *.
  pose proof (b_curr _ _ _ B) as Hcurr.
  destruct (spoke_visit s x ticks Hcurr ltac:(lia)) as (Hi & Hv & Hsame). rewrite Ec.
  set (i := spoke_of (curr s) ticks) in *. set (D := ticks / 4096) in *.
  assert (HD : 0 <= D) by (unfold D; zdiv).
  assert (Hor : current x = None \/ i <> curr s).
  { destruct inside; [right | left; by apply Hin]. cbn [andb] in Eg. apply Z.eqb_neq in Eg. tauto. }
  assert (Hcell : cell s x i = Head i).
  { unfold cell. destruct (decide (i = curr s)) as [-> |]; [| done]. by destruct Hor as [-> |]. }
  assert (Hnew : (t ∉ ids (pending x)) /\ (t ∉ fr) /\ current x <> Some t).
  { unfold in_use_new in Hnd. apply NoDup_cons in Hnd as [Hnd _]. rewrite !elem_of_app in Hnd.
    split; [tauto |]. split; [tauto |]. intros E. apply Hnd. right. right. rewrite E. apply list_elem_of_here. }
  destruct Hnew as (Hnp & Hnf & Hnc).
  assert (HnL : t ∉ ids (L i)) by (intros Hx; by apply Hnp, (ids_L s x L i)).
  assert (HNL : NoDup (ids (L i))) by (by apply (L_nodup s x L)).
  assert (Hc1 : cseg s1 (Head i) 0 (L i) None).
  { apply (untouched_cseg (Node t) [t] s); [done | done | done | | | done | by apply (head_list s x)].
    - intros Hx. apply list_elem_of_fmap in Hx as (e & [= <-] & He). done.
    - intros e He. rewrite list_elem_of_singleton. by intros ->. }
  assert (Hlen : (length (L i) < S (size (heap s1)))%nat).
  { assert (length (ids (L i)) <= size (heap s1))%nat; [| unfold ids in *; rewrite length_map in *; lia].
    apply length_le_size; [done |]. intros a Ha. apply Hdom. unfold in_use_new.
    apply list_elem_of_further, elem_of_app. left. by apply (ids_L s x L i). }
  destruct (walk_ok (S (size (heap s1))) s1 (Head i) 0 (L i) D Hc1 HD Hlen)
    as (l1 & l2 & EL & Ewalk & Hl1 & Hr1 & Hl2).
  rewrite !Z.sub_0_r in Ewalk. rewrite Ewalk, bind_Ret. rewrite EL in Hc1, HnL, HNL.
  pose proof (split_at_intro s1 (Head i) l1 l2 Hc1 HNL ltac:(done)) as Hsp.
  rewrite ids_app, elem_of_app in HnL.
  pose proof (L_bound s x L i B Hi) as Hbd. pose proof (b_nonneg _ _ _ B i Hi) as Hnn.
  rewrite EL in Hbd, Hnn. apply Forall_app in Hbd as [_ Hbd]. apply Forall_app in Hnn as [Hnn1 Hnn2].
  destruct (link_ok s1 t (Head i) l1 l2 D c Hsp ltac:(done) ltac:(tauto) ltac:(tauto) Ft Hr1)
    as (s2 & E2 & S2 & Hc2 & G2 & F2).
  { rewrite Forall_forall in *. intros y Hy. split; [by apply Hl2 | by apply Hbd]. }
  { done. }
  rewrite E2, bind_Ret. exists (Some t, s2). split; [done |]. cbn [fst snd]. split; [done |].
  destruct S2 as (A1 & A2 & A3 & A4 & A5 & A6 & A7). split; [congruence |].
  assert (U2 : untouched (Head i) (t :: ids (L i)) s1 s2).
  { split.
    - intros q H1 H2. apply G2; [done |]. intros e He. specialize (H2 e He).
      rewrite EL, ids_app, elem_of_cons, elem_of_app in H2. tauto.
    - intros e He. rewrite EL, ids_app, elem_of_cons, elem_of_app in He. apply F2; tauto. }
  eexists. apply (rel_update s s2 x _ L i (l1 ++ (t, D, c) :: l2) (t :: ids (L i))); try done.
  - rewrite Hcell. apply (untouched_trans _ _ s s1); [| done]. apply (untouched_node t); [apply list_elem_of_here |].
    apply (untouched_weaken _ [t]); [| done]. intros e. rewrite list_elem_of_singleton. intros ->. apply list_elem_of_here.
  - intros e He. apply elem_of_cons in He as [-> | He]; [done |]. split; [| done].
    by apply (pending_not s x L), (ids_L s x L i).
  - by rewrite Hcell.
  - split; [congruence |]. split; [congruence |]. split; [congruence |]. split; congruence.
  - rewrite A2. cbn [freed]. apply (untouched_fseg (Head i) (t :: ids (L i)) s1); [done | | done].
    intros e He. split; [| done]. rewrite elem_of_cons. intros [-> | He']; [done |].
    apply (ids_L s x L) in He'; [| done | done]. unfold in_use_new in Hnd.
    apply NoDup_cons in Hnd as [_ Hnd]. apply NoDup_app in Hnd as (_ & Hnd & _).
    apply (Hnd e He'). apply elem_of_app. by left.
  - intros a. rewrite A7. apply Hdom.
  - cbn [pending]. constructor; [cbn; lia | apply (b_future _ _ _ B)].
  - apply Forall_app. split; [done |]. by constructor.
  - intros j D' Hj HD'. cbn [pending]. rewrite at_exp_cons.
    destruct (decide (j = i)) as [-> | Hne].
    + rewrite <- (b_at _ _ _ B) by done. rewrite EL, !at_exp_app, at_exp_cons.
      destruct (Z.eqb_spec D D') as [<- | HneD].
      * rewrite <- Hv, Z.eqb_refl. rewrite (at_exp_nil D l1); [done |].
        eapply Forall_impl; [exact Hl1 |]. cbn. intros y Hy. lia.
      * destruct (Z.eqb_spec (tick x + ticks) (visit s x i + 4096 * D')); [lia | done].
    + rewrite (b_at _ _ _ B) by done.
      destruct (Z.eqb_spec (tick x + ticks) (visit s x j + 4096 * D')) as [E |]; [| done].
      exfalso. rewrite <- Hv in E. apply visit_inj in E as [E _]; [congruence | done | done].
Qed.
End Rel.

End TimerWheelProofs.
