(* ===== verification/TimerWheelSteps.v ===== *)
(** * httperf/src/timer.c: cancelling, callbacks and ticks

    The rest of the simulation: [timer_cancel], the programs of callbacks, the loop
    that fires the expired timers of a list, and the step to the next list. *)
From S2P Require Import Prelude Doubles TimerWheel TimerCells TimerWheelProofs.

Module TimerWheelSteps.
Import Doubles TimerWheel TimerCells TimerWheelProofs.

Section Steps.
Context {C : Type} (malloc : gset nat -> option nat).
Implicit Types (s : st C) (x : spec C) (a t : nat) (l : list (nat * Z * C)).
Hypothesis Hmalloc : forall u a, malloc u = Some a -> a ∉ u.

(** ** Cancelling *)
Lemma at_exp_without_same D e t l l' :
  at_exp D l = at_exp e l' -> at_exp D (without t l) = at_exp e (without t l').
Proof. intros E. by rewrite !at_exp_without, E. Qed.

Lemma without_split t D c l1 l2 :
  NoDup (ids (l1 ++ (t, D, c) :: l2)) -> without t (l1 ++ (t, D, c) :: l2) = l1 ++ l2.
Proof.
  rewrite ids_app, ids_cons. intros (_ & Hd & Hn)%NoDup_app. apply NoDup_cons in Hn as [Hn _].
  change (id_of (t, D, c)) with t in *.
  assert (H1 : t ∉ ids l1) by (intros Ht; by apply (Hd t Ht), list_elem_of_here).
  pose proof (without_notin t l1 H1) as E1. pose proof (without_notin t l2 Hn) as E2.
  unfold without in *. rewrite filter_app, E1, filter_cons, decide_False by (cbn; tauto). by rewrite E2.
Qed.

Lemma without_head t D c l : NoDup (ids ((t, D, c) :: l)) -> without t ((t, D, c) :: l) = l.
Proof. apply (without_split t D c []). Qed.

Lemma ids_perm t l : NoDup (ids l) -> t ∈ ids l -> ids l ≡ₚ t :: ids (without t l).
Proof.
  intros Hn Ht. apply elem_ids in Ht as (D & c & Hin). apply list_elem_of_split in Hin as (l1 & l2 & ->).
  rewrite without_split by done. rewrite !ids_app, ids_cons. symmetry. apply Permutation_middle.
Qed.

(** The list that a pending timer is in. *)
Lemma pending_in_L s x L t e c :
  base s x L -> (t, e, c) ∈ pending x ->
  exists i D, 0 <= i < 4096 /\ (t, D, c) ∈ L i.
Proof.
  intros B Hin. pose proof (b_future _ _ _ B) as F. rewrite Forall_forall in F.
  specialize (F _ Hin). cbn in F. pose proof (b_curr _ _ _ B) as Hc.
  set (i := (curr s + (e - tick x)) mod 4096). set (D := (e - tick x) / 4096).
  assert (Hi : 0 <= i < 4096) by (unfold i; zdiv).
  assert (HD : 0 <= D) by (unfold D; zdiv).
  assert (He : visit s x i + 4096 * D = e) by (unfold visit, i, D; zdiv).
  exists i, D. split; [done |]. apply elem_at_exp. rewrite (b_at _ _ _ B) by done.
  rewrite He. by apply elem_at_exp.
Qed.

Lemma elem_without t y l : y ∈ without t l -> y ∈ l.
Proof. unfold without. rewrite list_elem_of_filter. tauto. Qed.

Lemma in_use_cancel t x :
  NoDup (ids (pending x)) -> t ∈ ids (pending x) ->
  in_use (mkSpec (tick x) (without t (pending x)) (t :: freed x) (current x) (clock x) (next_at x))
  ≡ₚ in_use x.
Proof.
  intros Hn Ht. unfold in_use. cbn [pending freed current].
  rewrite (ids_perm t (pending x)) by done. rewrite <- app_comm_cons. symmetry. apply Permutation_middle.
Qed.
Lemma cancel_pending s x L t e c :
  rel s x L -> current x <> Some t -> (t, e, c) ∈ pending x ->
  exists s' L', timer_cancel t s = Ret s' /\ curr s' = curr s /\
    rel s' (mkSpec (tick x) (without t (pending x)) (t :: freed x) (current x) (clock x) (next_at x)) L'.
Proof.
  intros R Hc Hin. pose proof R as (B & _ & Ht).
  destruct (pending_in_L s x L t e c B Hin) as (i & D & Hi & HL).
  pose proof (cell_list s x L i R Hi) as Hcs. pose proof (L_nodup s x L i B Hi) as HN.
  assert (Hp : t ∈ ids (pending x)) by (apply elem_ids; eauto).
  pose proof (L_bound s x L i B Hi) as Hbd. pose proof (b_nonneg _ _ _ B i Hi) as Hnn.
  pose proof (pending_nodup s x L B) as HNp.
  apply list_elem_of_split in HL as (l1 & l2 & EL).
  assert (HX : forall a, a ∈ ids (L i) -> current x <> Some a).
  { intros a Ha. apply (ids_L s x L) in Ha; [| done | done]. by apply (pending_not s x L) in Ha as [_ ?]. }
  assert (Hsp : split_at s (cell s x i) l1 ((t, D, c) :: l2)).
  { rewrite EL in Hcs, HN, HX. apply split_at_intro; [done | done |].
    intros a Ha Hin'. apply cell_node in Ha as [_ Ha]. by apply (HX a Hin'). }
  destruct (cancel_ok s t (cell s x i) l1 l2 D c Hsp) as (s' & E & SB & Hcs' & Hg & Hf & G & F).
  { intros E. apply cell_node in E as [_ E]. done. }
  { by rewrite Ht. }
  { rewrite EL in Hbd. apply Forall_app in Hbd as [_ Hbd]. by apply Forall_cons in Hbd as [_ Hbd]. }
  assert (U : untouched (cell s x i) (ids (L i)) s s').
  { rewrite EL, ids_app, ids_cons. change (id_of (t, D, c)) with t. split.
    - intros q H1 H2. apply G; [done |]. intros a Ha. specialize (H2 a Ha).
      rewrite elem_of_app, elem_of_cons in H2. tauto.
    - intros a Ha. rewrite elem_of_app, elem_of_cons in Ha. apply F; tauto. }
  destruct SB as (A1 & A2 & A3 & A4 & A5 & A6 & A7).
  exists s'. eexists. split; [done |]. split; [done |].
  pose proof (in_use_cancel t x HNp Hp) as Hper.
  apply (rel_update s s' x _ L i (l1 ++ l2) (ids (L i))); try done.
  - intros a Ha. split; [by apply HX | done].
  - cbn [freed fseg]. rewrite A2. split; [done |]. split; [done |]. exists (timer_free_list s). split; [done |].
    apply (untouched_fseg (cell s x i) (ids (L i)) s); [done | | apply B].
    intros a Ha. split.
    + intros Hx. apply (ids_L s x L) in Hx; [| done | done]. by apply (pending_not s x L) in Hx as [? _].
    + intros Hx. apply cell_node in Hx as [_ Hx]. by apply (freed_not_current s x L) in Ha.
  - intros a. rewrite A7, Hper. apply B.
  - rewrite Hper. apply B.
  - cbn [pending tick]. apply Forall_forall. intros y Hy%elem_without. pose proof (b_future _ _ _ B) as Fu.
    rewrite Forall_forall in Fu. by apply Fu.
  - rewrite EL in Hnn. apply Forall_app in Hnn as [H1 H2]. apply Forall_cons in H2 as [_ H2].
    by apply Forall_app.
  - intros j D' Hj HD'. cbn [pending]. pose proof (b_at _ _ _ B j D' Hj HD') as Hat.
    apply (at_exp_without_same D' _ t) in Hat. rewrite <- Hat.
    destruct (decide (j = i)) as [-> | Hne].
    + rewrite EL in *. by rewrite without_split.
    + rewrite without_notin; [done |]. intros Hx. apply Hne. apply (L_disjoint s x L j i t); try done.
      rewrite EL. apply elem_ids. exists D, c. apply elem_of_app. right. apply list_elem_of_here.
Qed.

Lemma freed_prev s p (fr : list nat) t :
  fseg s p fr -> t ∈ fr -> exists n, timer_at t s = Ret n /\ prev n = None.
Proof.
  revert p. induction fr as [| a fr IH]; intros p; [by intros _ ?%elem_of_nil |]. cbn [fseg].
  intros (_ & (d & f & Hf) & p' & Hg & Hs) [-> | Hin]%elem_of_cons; [| by eapply IH].
  eexists. split; [by apply (timer_at_ok s a _ _ _ _ Hf Hg) | done].
Qed.

Lemma cancel_refines t s x L :
  rel s x L ->
  implements (fun s' x' => curr s' = curr s /\ exists L', rel s' x' L') (timer_cancel t s) (spec_cancel t x).
Proof.
  intros R. pose proof R as (B & Hcl & Ht). unfold spec_cancel.
  destruct (decide (current x = Some t)) as [Ec | Hc].
  { exists s. split; [| split; [done | by exists L]]. unfold cur_list in Hcl. rewrite Ec in Hcl.
    destruct Hcl as (_ & pr & d & f & Hf). destruct (fld_getn s t _ Hf) as [v Hv].
    unfold timer_cancel. rewrite (timer_at_ok s t _ _ _ _ Hf Hv), bind_Ret. cbn [prev].
    by rewrite decide_True by congruence. }
  destruct (decide (t ∈ ids (pending x))) as [Hp | _].
  { apply elem_ids in Hp as (e & c & Hin).
    destruct (cancel_pending s x L t e c R Hc Hin) as (s' & L' & E & Ecu & R').
    exists s'. split; [done |]. split; [done |]. by exists L'. }
  destruct (decide (t ∈ freed x)) as [Hf |]; [| done].
  destruct (freed_prev s _ _ t (b_free _ _ _ B) Hf) as (n & En & Ep).
  unfold timer_cancel. cbn [implements]. by rewrite En, bind_Ret, Ep.
Qed.

(** ** What the programs of callbacks keep *)
Definition keeps x x' : Prop :=
  tick x' = tick x /\ clock x' = clock x /\ next_at x' = next_at x /\ current x' = current x /\
  (length (at_exp (tick x) (pending x')) <= length (at_exp (tick x) (pending x)))%nat.

Lemma keeps_refl x : keeps x x.
Proof. by repeat split. Qed.
Lemma keeps_trans x y z : keeps x y -> keeps y z -> keeps x z.
Proof. intros (A1 & A2 & A3 & A4 & A5) (B1 & B2 & B3 & B4 & B5). rewrite A1 in B5. repeat split; try congruence. lia. Qed.

Lemma spec_schedule_keeps inside c d x r x' :
  spec_schedule malloc inside c d x = Ret (r, x') -> keeps x x'.
Proof.
  unfold spec_schedule. destruct (spec_new malloc x) as [[t fr] |].
  2:{ intros [= <- <-]. apply keeps_refl. }
  destruct (ticks_of (clock x) (next_at x) d) as [k | | |] eqn:Et; try done. rewrite bind_Ret.
  destruct (_ && _); [done |]. intros [= <- <-]. repeat split. cbn [pending]. rewrite at_exp_cons.
  apply ticks_range in Et. destruct (Z.eqb_spec (tick x + k) (tick x)); [lia | done].
Qed.

Lemma spec_cancel_keeps t x x' : spec_cancel t x = Ret x' -> keeps x x'.
Proof.
  unfold spec_cancel. destruct (decide _); [intros [= <-]; apply keeps_refl |].
  destruct (decide _); [| by destruct (decide _)]. intros [= <-]. repeat split. cbn [pending].
  rewrite at_exp_without. apply length_filter.
Qed.

Lemma spec_prog_keeps inside {W} (p : prog C W) x w x' :
  spec_prog malloc inside p x = Ret (w, x') -> keeps x x'.
Proof.
  revert x. induction p as [w' | c d k IH | t k IH]; intros x; cbn [spec_prog].
  - intros [= _ <-]. apply keeps_refl.
  - destruct (spec_schedule malloc inside c d x) as [[r x1] | | |] eqn:E; try done. rewrite bind_Ret.
    intros H. apply spec_schedule_keeps in E. apply (keeps_trans x x1); [done | by apply (IH r)].
  - destruct (spec_cancel t x) as [x1 | | |] eqn:E; try done. rewrite bind_Ret.
    intros H. apply spec_cancel_keeps in E. apply (keeps_trans x x1); [done | by apply IH].
Qed.

Lemma prog_refines inside {W} (p : prog C W) s x L :
  rel s x L -> (inside = false -> current x = None) ->
  implements (fun r q => r.1 = q.1 /\ curr r.2 = curr s /\ exists L', rel r.2 q.2 L')
    (run_prog malloc p s) (spec_prog malloc inside p x).
Proof.
  revert s x L. induction p as [w' | c d k IH | t k IH]; intros s x L R Hin; cbn [run_prog spec_prog].
  - exists (w', s). split; [done |]. split; [done |]. split; [done |]. by exists L.
  - pose proof (schedule_ok malloc Hmalloc inside c d s x L R Hin) as H.
    destruct (spec_schedule malloc inside c d x) as [[r x1] | e | |] eqn:E; cbn [implements] in H.
    + destruct H as ([r' s1] & -> & Er & Ec & L1 & R1). cbn [fst snd] in *. subst r'. rewrite !bind_Ret.
      rewrite <- Ec. apply (IH r s1 x1 L1 R1).
      apply spec_schedule_keeps in E as (_ & _ & _ & E & _). rewrite E. done.
    + rewrite H. done.
    + done.
    + done.
  - pose proof (cancel_refines t s x L R) as H.
    destruct (spec_cancel t x) as [x1 | e | |] eqn:E; cbn [implements] in H.
    + destruct H as (s1 & -> & Ec & L1 & R1). rewrite !bind_Ret.
      rewrite <- Ec. apply (IH s1 x1 L1 R1).
      apply spec_cancel_keeps in E as (_ & _ & _ & E & _). rewrite E. done.
    + rewrite H. done.
    + done.
    + done.
Qed.
(** ** Firing the timers of a list *)
Context {W : Type} (handler : C -> nat -> W -> prog C W).

Lemma visit_curr s x : visit s x (curr s) = tick x.
Proof. unfold visit. rewrite Z.sub_diag, Z.mod_0_l by lia. apply Z.add_0_r. Qed.

(** The expired timers are those of the list at [curr] with the round 0. *)
Lemma expired s x L : base s x L -> at_exp (tick x) (pending x) = at_exp 0 (L (curr s)).
Proof.
  intros B. rewrite (b_at _ _ _ B) by (pose proof (b_curr _ _ _ B); lia).
  by rewrite visit_curr, Z.mul_0_r, Z.add_0_r.
Qed.

(** Two states with the same links and fields. *)
Definition same_cells s s' : Prop :=
  (forall q, getn s' q = getn s q) /\ (forall e, fld s' e = fld s e).

Lemma cseg_cells s s' b r l v : same_cells s s' -> cseg s b r l v -> cseg s' b r l v.
Proof.
  intros [G F] [Hp Hq]. split; [| by rewrite G]. clear Hq. revert b r Hp.
  induction l as [| [[a D] c] l IH]; intros b r; cbn [pseg]; [done |].
  intros (H1 & H2 & H3 & H4). rewrite G, F. split; [done |]. split; [done |]. split; [done |]. by apply IH.
Qed.

Lemma fseg_cells s s' p (fr : list nat) : same_cells s s' -> fseg s p fr -> fseg s' p fr.
Proof.
  intros [G F]. revert p. induction fr as [| a fr IH]; intros p; cbn [fseg]; [done |].
  intros (-> & (d & f & Hf) & p' & Hg & Hs). split; [done |]. split; [exists d, f; by rewrite F |].
  exists p'. split; [by rewrite G | by apply IH].
Qed.

Definition hd_id l : option nat := match l with [] => None | y :: _ => Some (id_of y) end.

Lemma cseg_next s b r l : cseg s b r l None -> getn s b = Some (hd_id l).
Proof. intros [Hp Hq]. destruct l as [| [[a D] c] l]; [done |]. by destruct Hp as (H & _). Qed.

Lemma cseg_tail s b r a D c l v : cseg s b r ((a, D, c) :: l) v -> cseg s (Node a) D l v.
Proof. intros [Hp Hq]. by destruct Hp as (_ & _ & _ & Hp). Qed.

(** Taking the head of the list: its callback runs with the rest of the list behind it. *)
Lemma fire_enter s x L a c l :
  between s x L (Some a) -> L (curr s) = (a, 0, c) :: l ->
  rel (set_t_curr (Some a) s)
      (mkSpec (tick x) (without a (pending x)) (freed x) (Some a) (clock x) (next_at x))
      (fun j => if decide (j = curr s) then l else L j).
Proof.
  intros (B & Hl & Hc) EL. pose proof (b_curr _ _ _ B) as Hcu. unfold loose in Hl. rewrite EL in Hl.
  destruct Hl as (_ & (pr & Hf) & Hcs).
  pose proof (L_nodup s x L (curr s) B Hcu) as HN. rewrite EL in HN.
  assert (Ha : a ∈ ids (pending x)).
  { apply (ids_L s x L (curr s)); [done | done |]. rewrite EL. apply list_elem_of_here. }
  pose proof (pending_nodup s x L B) as HNp.
  assert (Hper : in_use (mkSpec (tick x) (without a (pending x)) (freed x) (Some a) (clock x) (next_at x))
                 ≡ₚ in_use x).
  { unfold in_use. cbn [pending freed current option_list]. rewrite Hc. cbn [option_list].
    rewrite (ids_perm a (pending x)) by done. rewrite !app_nil_r, app_assoc, <- app_comm_cons.
    symmetry. apply Permutation_cons_append. }
  assert (SC : same_cells s (set_t_curr (Some a) s)) by (by split; [intros [] |]).
  split; [| split].
  - constructor.
    + done.
    + apply B.
    + apply B.
    + apply B.
    + intros i Hi Hne. cbn [curr set_t_curr] in *. rewrite decide_False by done.
      by apply (cseg_cells s), (b_chain _ _ _ B).
    + by apply (fseg_cells s), B.
    + intros e. rewrite Hper. apply B.
    + rewrite Hper. apply B.
    + intros i D Hi HD. change (visit _ _ i) with (visit s x i). cbn [pending].
      pose proof (b_at _ _ _ B i D Hi HD) as Hat.
      apply (at_exp_without_same D _ a) in Hat. rewrite <- Hat. destruct (decide (i = curr s)) as [-> | Hne].
      * rewrite EL. by rewrite without_head.
      * rewrite without_notin; [done |]. intros Hx. apply Hne. apply (L_disjoint s x L i (curr s) a); try done.
        rewrite EL. apply list_elem_of_here.
    + cbn [pending tick]. apply Forall_forall. intros y Hy%elem_without. pose proof (b_future _ _ _ B) as Fu.
      rewrite Forall_forall in Fu. by apply Fu.
    + intros i Hi. pose proof (b_nonneg _ _ _ B i Hi) as Hnn. destruct (decide (i = curr s)) as [-> |]; [| done].
      rewrite EL in Hnn. by apply Forall_cons in Hnn as [_ Hnn].
  - cbn [curr set_t_curr]. rewrite decide_True by done. split; [by apply (cseg_cells s) |]. by exists pr, 0, (Some c).
  - done.
Qed.

(** Behind its callback, the timer is freed. *)
Lemma fire_leave s x L a :
  rel s x L -> current x = Some a ->
  exists n s', timer_at a s = Ret n /\ next n = hd_id (L (curr s)) /\ done a s = Ret s' /\
    curr s' = curr s /\ dom (heap s') = dom (heap s) /\
    between s' (mkSpec (tick x) (pending x) (a :: freed x) None (clock x) (next_at x)) L (next n).
Proof.
  intros (B & Hcl & Ht) Hc. pose proof (b_curr _ _ _ B) as Hcu. unfold cur_list in Hcl. rewrite Hc in Hcl.
  destruct Hcl as (Hcs & pr & d & f & Hf). pose proof (cseg_next _ _ _ _ Hcs) as Hn.
  destruct (done_ok s a _ _ _ Hf) as (s' & E & (A1 & A2 & A3 & A4 & A5 & A6 & A7) & G & F).
  eexists _, s'. split; [by apply (timer_at_ok s a _ _ _ _ Hf Hn) |]. cbn [next].
  split; [done |]. split; [done |]. split; [done |]. split; [done |].
  assert (Hnot : forall i, 0 <= i < 4096 -> a ∉ ids (L i)).
  { intros i Hi Hx. apply (ids_L s x L) in Hx; [| done | done]. apply (pending_not s x L) in Hx as [_ Hx]; done. }
  assert (U : untouched (Node a) [a] s s').
  { split.
    - intros q Hq _. by rewrite G, decide_False.
    - intros e He. rewrite list_elem_of_singleton in He. by rewrite F, decide_False. }
  assert (Hper : in_use (mkSpec (tick x) (pending x) (a :: freed x) None (clock x) (next_at x)) ≡ₚ in_use x).
  { unfold in_use. cbn [pending freed current option_list]. rewrite Hc. cbn [option_list]. rewrite app_nil_r.
    apply Permutation_app; [done |]. apply Permutation_cons_append. }
  split; [| split; [| done]].
  - constructor.
    + by rewrite A1.
    + rewrite A6. apply B.
    + rewrite A4. apply B.
    + rewrite A5. apply B.
    + intros i Hi Hne. rewrite A1 in Hne. apply (untouched_cseg (Node a) [a] s); [done | done | done | | | |].
      * intros Hx. apply list_elem_of_fmap in Hx as (e & [= <-] & He). by apply (Hnot i Hi).
      * intros e He. rewrite list_elem_of_singleton. intros ->. by apply (Hnot i Hi).
      * by apply (L_nodup s x L).
      * by apply (b_chain _ _ _ B).
    + cbn [freed fseg]. rewrite A2. split; [done |].
      split; [exists d, f; by rewrite F, decide_True |]. exists (timer_free_list s).
      split; [by rewrite G, decide_True |]. apply (untouched_fseg (Node a) [a] s); [done | | apply B].
      intros e He. rewrite list_elem_of_singleton.
      assert (e <> a) by (intros ->; by apply (freed_not_current s x L) in He). split; [done | congruence].
    + intros e. rewrite A7, Hper. apply B.
    + rewrite Hper. apply B.
    + intros i D Hi HD. unfold visit. rewrite A1. by apply (b_at _ _ _ B).
    + apply (b_future _ _ _ B).
    + apply (b_nonneg _ _ _ B).
  - rewrite A1. pose proof (Hnot (curr s) Hcu) as Hna. pose proof (L_nodup s x L (curr s) B Hcu) as HN.
    destruct (L (curr s)) as [| [[b D] c] l]; [done |]. rewrite ids_cons, not_elem_of_cons in Hna.
    change (id_of (b, D, c)) with b in Hna. destruct Hna as [Hab Hna].
    split; [done |]. pose proof Hcs as [(_ & _ & Hfb & _) _]. split.
    + exists (Node a). rewrite F, decide_False by congruence. by rewrite Hfb, Z.sub_0_r.
    + rewrite ids_cons in HN. apply NoDup_cons in HN as [HbN HN].
      apply cseg_tail in Hcs. apply (cseg_frame s); [| | done | | done].
      * intros q [-> | (e & -> & He)]; rewrite G, decide_False; [done | congruence | done |].
        intros [= ->]. done.
      * intros e He. rewrite F, decide_False; [done |]. by intros ->.
      * by intros e [= <-].
Qed.

Lemma expired_none D c a l :
  D <> 0 -> 0 <= D -> Forall (fun y => D <= y.1.2) l -> at_exp 0 ((a, D, c) :: l) = [].
Proof.
  intros Hne HD Hl. apply at_exp_nil. constructor; [done |].
  eapply Forall_impl; [exact Hl |]. cbn. intros y Hy. lia.
Qed.

Lemma fire_refines sfuel : forall fuel w s x L p,
  between s x L p -> (length (at_exp (tick x) (pending x)) < fuel)%nat ->
  implements (fun r q => r.1.2 = q.1 /\ curr r.2 = curr s /\
                at_exp (tick q.2) (pending q.2) = [] /\ exists L', between r.2 q.2 L' r.1.1)
    (fire_loop malloc handler fuel p w s) (spec_fire malloc handler sfuel w x).
Proof.
  induction sfuel as [| sfuel IH]; intros fuel w s x L p H Hfuel; [done |]. cbn [spec_fire].
  destruct fuel as [| fuel]; [lia |]. pose proof H as (B & Hl & Hc). cbn [fire_loop].
  pose proof (b_curr _ _ _ B) as Hcu. pose proof (expired s x L B) as Eexp.
  pose proof (b_nonneg _ _ _ B _ Hcu) as Hnn. rewrite Eexp.
  destruct (L (curr s)) as [| [[a D] c] l] eqn:EL; cbn [loose] in Hl.
  { subst p. exists (None, w, s). repeat split; [done |]. exists L. split; [done |]. cbn [fst snd]. by rewrite EL. }
  destruct Hl as (-> & (pr & Hf) & Hcs). pose proof (cseg_next _ _ _ _ Hcs) as Hn.
  rewrite (timer_at_ok s a _ _ _ _ Hf Hn), bind_Ret. cbn [delta func].
  destruct (Z.eqb_spec D 0) as [-> | HD].
  - rewrite at_exp_cons. cbn [Z.eqb app]. cbn [deref]. rewrite bind_Ret.
    assert (Hb : between s x L (Some a)).
    { split; [done |]. rewrite EL. split; [| done]. split; [done |]. split; [by exists pr | done]. }
    pose proof (fire_enter s x L a c l Hb EL) as R.
    set (x1 := mkSpec (tick x) _ _ _ _ _) in *.
    pose proof (prog_refines true (handler c a w) _ _ _ R ltac:(done)) as Hq.
    destruct (spec_prog malloc true (handler c a w) x1) as [[w2 x2] | e | |] eqn:Esp; cbn [implements] in Hq;
      [| by rewrite Hq | done | done].
    destruct Hq as ([w1 s1] & -> & Ew & Ec1 & L1 & R1). cbn [fst snd] in *. subst w1. rewrite !bind_Ret.
    apply spec_prog_keeps in Esp as (K1 & K2 & K3 & K4 & K5).
    destruct (fire_leave s1 x2 L1 a R1 K4) as (n & s2 & E1 & E2 & E3 & Ec2 & Ed & B2).
    rewrite E1, bind_Ret, E3, bind_Ret. change (curr s1 = curr s) in Ec1. rewrite <- Ec1, <- Ec2.
    eapply IH; [exact B2 |]. cbn [tick pending]. rewrite K1. cbn [tick x1] in *.
    eapply Nat.le_lt_trans; [exact K5 |]. subst x1. cbn [pending]. 
    apply (at_exp_without_same _ _ a) in Eexp. 
    rewrite Eexp, without_head by (rewrite <- EL; by apply (L_nodup s x L)).
    rewrite (expired s x L B), EL, at_exp_cons in Hfuel. cbn [Z.eqb app length] in *. lia.
  - apply Forall_cons in Hnn as [HD0 _]. cbn in HD0. pose proof (pseg_lower _ _ _ _ (proj1 Hcs)) as Hlow.
    rewrite (expired_none D c a l HD HD0 Hlow). exists (Some a, w, s). split; [done |].
    split; [done |]. split; [done |]. split.
    + cbn [fst snd]. rewrite Eexp. by apply expired_none.
    + exists L. split; [done |]. cbn [fst snd]. rewrite EL. split; [| done]. split; [done |]. split; [by exists pr | done].
Qed.
(** ** The step to the next list *)
Definition shift l : list (nat * Z * C) := map (fun y => (y.1.1, y.1.2 - 1, y.2)) l.

Lemma ids_shift l : ids (shift l) = ids l.
Proof. unfold ids, shift. by rewrite map_map. Qed.

Lemma at_exp_shift D l : at_exp D (shift l) = at_exp (D + 1) l.
Proof.
  induction l as [| [[a E] c] l IH]; [done |]. cbn [shift map fst snd]. fold (shift l).
  rewrite !at_exp_cons, IH. destruct (Z.eqb_spec (E - 1) D), (Z.eqb_spec E (D + 1)); (lia || done).
Qed.

Lemma lastb_shift b l : lastb b (shift l) = lastb b l.
Proof. revert b. induction l as [| [[a D] c] l IH]; intros b; [done |]. apply IH. Qed.

Lemma cseg_shift s b r l v : cseg s b r l v -> cseg s b (r - 1) (shift l) v.
Proof.
  intros [Hp Hq]. split; [| by rewrite lastb_shift]. clear Hq. revert b r Hp.
  induction l as [| [[a D] c] l IH]; intros b r; cbn [pseg shift map fst snd]; [done |].
  intros (H1 & H2 & H3 & H4). split; [done |]. split; [lia |]. split; [| by apply IH].
  rewrite H3. do 3 f_equal. lia.
Qed.

Lemma relink_ok s l p :
  loose s p l -> NoDup (ids l) -> Forall (fun y => 1 <= y.1.2 < 2 ^ 64) l ->
  is_Some (getn s (Head (curr s))) ->
  exists s1 s', set_next (Head (curr s)) p s = Ret s1 /\
    match p with
    | Some a =>
        s ← with_timer a (put_prev (Some (Head (curr s1)))) s1;
        with_timer a (fun n => put_delta (u64 (delta n - 1)) n) s
    | None => Ret s1
    end = Ret s' /\ same s s' /\ cseg s' (Head (curr s)) 0 (shift l) None /\
    untouched (Head (curr s)) (ids l) s s'.
Proof.
  intros Hl HN HD [u Hu]. destruct (set_next_ok s _ u p Hu) as (s1 & E1 & S1 & G1 & F1).
  exists s1. destruct l as [| [[a D] c] l]; cbn [loose] in Hl.
  { subst p. exists s1. split; [done |]. split; [done |]. split; [done |]. split.
    - split; [done |]. cbn [lastb shift map]. by rewrite G1, decide_True.
    - split; [| done]. intros q Hq _. by rewrite G1, decide_False. }
  destruct Hl as (-> & (pr & Hf) & Hcs). rewrite <- F1 in Hf.
  destruct (put_prev_ok s1 a (Some (Head (curr s1))) _ _ _ Hf) as (s2 & E2 & S2 & G2 & F2).
  assert (Hf2 : fld s2 a = Some (Some (Head (curr s1)), D, Some c)) by (by rewrite F2, decide_True).
  destruct (put_delta_ok s2 a (fun d => u64 (d - 1)) _ _ _ Hf2) as (s3 & E3 & S3 & G3 & F3).
  exists s3. split; [done |]. rewrite E2, bind_Ret. split; [done |].
  assert (Ec : curr s1 = curr s) by apply S1.
  split; [by apply (same_trans s s1), (same_trans s1 s2) |].
  apply Forall_cons in HD as [HD _]. cbn in HD.
  assert (U : untouched (Head (curr s)) [a] s s3).
  { split.
    - intros q Hq _. by rewrite G3, G2, G1, decide_False.
    - intros e He. rewrite list_elem_of_singleton in He. by rewrite F3, decide_False, F2, decide_False, F1. }
  rewrite ids_cons. change (id_of (a, D, c)) with a in *. split.
  - apply cseg_shift in Hcs. rewrite ids_cons in HN. apply NoDup_cons in HN as [Ha HN].
    assert (Hcs3 : cseg s3 (Node a) (D - 1) (shift l) None).
    { apply (cseg_frame s); [| | by rewrite ids_shift | | done].
      - intros q Hq. rewrite G3, G2, G1, decide_False; [done |]. by destruct Hq as [-> | (e & -> & _)].
      - intros e He. rewrite ids_shift in He. apply U. rewrite list_elem_of_singleton. by intros ->.
      - rewrite ids_shift. by intros e [= <-]. }
    destruct Hcs3 as [Hp3 Hq3]. split; [| exact Hq3]. cbn [pseg shift map fst snd].
    split; [by rewrite G3, G2, G1, decide_True |]. split; [lia |]. split; [| exact Hp3].
    rewrite F3, decide_True by done. rewrite Ec, Z.sub_0_r. unfold u64. by rewrite Z.mod_small by lia.
  - apply (untouched_weaken _ [a]); [| done]. intros e. rewrite list_elem_of_singleton. intros ->. apply list_elem_of_here.
Qed.

(** The step to the next list, when no timer of this one is left. *)
Definition next_list s : st C :=
  let c := curr s + 1 in
  mkSt (heap s) (wheel s) (if WHEEL_SIZE <=? c then 0 else c) (timer_free_list s) (t_curr s)
       (now s) (fadd (next_tick s) TIMER_INTERVAL).

Lemma next_visit s x j :
  0 <= curr s < 4096 -> 0 <= j < 4096 ->
  0 <= curr (next_list s) < 4096 /\
  tick x + 1 + (j - curr (next_list s)) mod 4096 =
    visit s x j + (if decide (j = curr s) then 4096 else 0).
Proof.
  intros Hc Hj. unfold next_list, visit, WHEEL_SIZE. cbn [curr].
  destruct (Z.leb_spec 4096 (curr s + 1)), (decide (j = curr s)); zdiv.
Qed.

Lemma no_expired_rounds s x L :
  base s x L -> at_exp (tick x) (pending x) = [] ->
  Forall (fun y => 1 <= y.1.2 < 2 ^ 64) (L (curr s)).
Proof.
  intros B Hexp. pose proof (b_curr _ _ _ B) as Hc. rewrite (expired s x L B) in Hexp.
  pose proof (b_nonneg _ _ _ B _ Hc) as Hnn. pose proof (L_bound s x L _ B Hc) as Hbd.
  rewrite !Forall_forall in *. intros [[a D] c] Hin. specialize (Hnn _ Hin). specialize (Hbd _ Hin). cbn in *.
  assert (D <> 0); [| lia]. intros ->. apply elem_at_exp in Hin. rewrite Hexp in Hin. by apply elem_of_nil in Hin.
Qed.

Lemma advance_rel s s3 x L :
  base s x L -> current x = None -> at_exp (tick x) (pending x) = [] ->
  same (set_t_curr None s) s3 -> cseg s3 (Head (curr s)) 0 (shift (L (curr s))) None ->
  untouched (Head (curr s)) (ids (L (curr s))) s s3 ->
  rel (next_list s3) (mkSpec (tick x + 1) (pending x) (freed x) None (clock x) (fadd (next_at x) TIMER_INTERVAL))
    (fun j => if decide (j = curr s) then shift (L j) else L j).
Proof.
  intros B Hc Hexp (A1 & A2 & Ht3 & A4 & A5 & A6 & A7) Hcs U.
  cbn [curr timer_free_list t_curr now next_tick wheel heap set_t_curr] in *.
  pose proof (b_curr _ _ _ B) as Hcu. pose proof (no_expired_rounds s x L B Hexp) as Hone.
  assert (SC : same_cells s3 (next_list s3)) by (by split; [intros [] |]).
  assert (Hin : in_use (mkSpec (tick x + 1) (pending x) (freed x) None (clock x) (fadd (next_at x) TIMER_INTERVAL))
                = in_use x) by (unfold in_use; cbn; by rewrite Hc).
  assert (Hall : forall j, 0 <= j < 4096 ->
            cseg (next_list s3) (Head j) 0 (if decide (j = curr s) then shift (L j) else L j) None).
  { intros j Hj. apply (cseg_cells s3); [done |]. destruct (decide (j = curr s)) as [-> | Hne]; [done |].
    apply (untouched_cseg (Head (curr s)) (ids (L (curr s))) s); [done | congruence | done | | | |].
    - by intros (e & ? & _)%list_elem_of_fmap.
    - intros e He Hx. apply Hne. by apply (L_disjoint s x L j (curr s) e).
    - by apply (L_nodup s x L).
    - by apply (b_chain _ _ _ B). }
  destruct (next_visit s x 0 Hcu ltac:(lia)) as [Hcn _].
  assert (Ecn : curr (next_list s3) = curr (next_list s)) by (unfold next_list; cbn [curr]; by rewrite A1).
  split; [| split; [| exact Ht3]].
  - constructor.
    + by rewrite Ecn.
    + cbn [wheel next_list]. rewrite A6. apply B.
    + cbn [now next_list]. rewrite A4. apply B.
    + cbn [next_tick next_list next_at]. rewrite A5. f_equal. apply B.
    + intros j Hj _. by apply Hall.
    + apply (fseg_cells s3); [done |]. cbn [timer_free_list next_list freed]. rewrite A2.
      apply (untouched_fseg (Head (curr s)) (ids (L (curr s))) s); [done | | apply B].
      intros e He. split; [| done]. intros Hx. apply (ids_L s x L) in Hx; [| done | done].
      by apply (pending_not s x L) in Hx as [? _].
    + intros e. cbn [heap next_list]. rewrite A7, Hin. apply B.
    + rewrite Hin. apply B.
    + intros j D Hj HD. unfold visit. rewrite Ecn. cbn [tick pending].
      destruct (next_visit s x j Hcu Hj) as [_ ->]. destruct (decide (j = curr s)) as [-> | Hne].
      * rewrite at_exp_shift, (b_at _ _ _ B) by lia. f_equal. lia.
      * rewrite (b_at _ _ _ B) by done. f_equal. lia.
    + cbn [tick pending]. pose proof (b_future _ _ _ B) as Fu. rewrite Forall_forall in *.
      intros [[a e] c] Hy. specialize (Fu _ Hy). cbn in *. assert (e <> tick x); [| lia]. intros ->.
      apply elem_at_exp in Hy. rewrite Hexp in Hy. by apply elem_of_nil in Hy.
    + intros j Hj. pose proof (b_nonneg _ _ _ B j Hj) as Hnn. destruct (decide (j = curr s)) as [-> |]; [| done].
      rewrite Forall_forall in Hone. apply Forall_forall. intros y (z & -> & Hz)%list_elem_of_fmap.
      specialize (Hone _ Hz). cbn. lia.
  - unfold cur_list. cbn [current]. apply Hall. by rewrite Ecn.
Qed.
Lemma loose_of_cseg s b l : cseg s b 0 l None -> loose s (hd_id l) l.
Proof.
  destruct l as [| [[a D] c] l]; [done |]. intros H. split; [done |]. split; [| by apply cseg_tail in H].
  destruct H as [(_ & _ & Hf & _) _]. exists b. by rewrite Hf, Z.sub_0_r.
Qed.

Lemma expired_length s x L :
  base s x L -> (length (at_exp (tick x) (pending x)) < S (size (heap s)))%nat.
Proof.
  intros B. assert (length (ids (pending x)) <= size (heap s))%nat.
  { apply length_le_size; [by apply (pending_nodup s x L) |]. intros a Ha. apply (b_dom _ _ _ B).
    apply elem_of_app. by left. }
  assert (length (at_exp (tick x) (pending x)) <= length (pending x))%nat; [| unfold ids in *; rewrite length_map in *; lia].
  generalize (pending x). intros l. induction l as [| [[a e] c] l IH]; [done |]. rewrite at_exp_cons.
  destruct (e =? tick x); cbn [app length]; lia.
Qed.

Lemma tick_refines w s x L :
  rel s x L -> current x = None ->
  implements (fun r q => r.1 = q.1 /\ current q.2 = None /\ exists L', rel r.2 q.2 L')
    (one_tick malloc handler w s) (spec_one_tick malloc handler w x).
Proof.
  intros R Hc. pose proof R as (B & Hcl & Ht). unfold cur_list in Hcl. rewrite Hc in Hcl.
  unfold one_tick, spec_one_tick. rewrite (get_next_ok s _ _ (cseg_next _ _ _ _ Hcl)), bind_Ret.
  assert (Hb : between s x L (hd_id (L (curr s)))) by (split; [done |]; split; [by apply (loose_of_cseg s (Head (curr s))) | done]).
  pose proof (fire_refines (S (length (pending x))) (S (size (heap s))) w s x L _ Hb (expired_length s x L B)) as Hf.
  destruct (spec_fire malloc handler (S (length (pending x))) w x) as [[w2 x2] | e | |];
    cbn [implements] in Hf; [| by rewrite Hf | done | done].
  destruct Hf as ([[p w1] s1] & -> & Ew & Ec & Hexp & L1 & B1 & Hl1 & Hc1). cbn [fst snd] in *. subst w1. rewrite !bind_Ret.
  pose proof (b_curr _ _ _ B1) as Hcu1.
  assert (SC : same_cells s1 (set_t_curr None s1)) by (by split; [intros [] |]).
  assert (Hl2 : loose (set_t_curr None s1) p (L1 (curr s1))).
  { destruct (L1 (curr s1)) as [| [[a D] c] l]; [done |]. destruct Hl1 as (-> & Hf & Hcs). split; [done |].
    split; [exact Hf | by apply (cseg_cells s1)]. }
  destruct (relink_ok (set_t_curr None s1) (L1 (curr s1)) p Hl2) as (s2 & s3 & E2 & E3 & S3 & Hcs & U).
  { by apply (L_nodup s1 x2). }
  { by apply (no_expired_rounds s1 x2). }
  { cbn [getn wheel set_t_curr curr]. destruct (aget_Some (wheel s1) (curr s1)) as [v ->]; [| done]. pose proof (b_wheel _ _ _ B1). lia. }
  rewrite E2, bind_Ret, E3, bind_Ret. eexists. split; [reflexivity |]. split; [done |]. split; [done |].
  eexists. apply (advance_rel s1 s3 x2 L1 B1 Hc1 Hexp S3 Hcs U).
Qed.

Lemma ticks_refine fuel : forall w s x L,
  rel s x L -> current x = None ->
  implements (fun r q => r.1 = q.1 /\ current q.2 = None /\ exists L', rel r.2 q.2 L')
    (tick_loop malloc handler fuel w s) (spec_ticks malloc handler fuel w x).
Proof.
  induction fuel as [| fuel IH]; intros w s x L R Hc; pose proof R as (B & _); cbn [tick_loop spec_ticks];
    rewrite (b_now _ _ _ B), (b_next _ _ _ B); destruct (SFleb (next_at x) (clock x)); try done;
    try (exists (w, s); by eauto 6).
  eapply implements_bind; [by apply (tick_refines w s x L) |].
  intros [w1 s1] [w2 x2] (E & Hc2 & L2 & R2). cbn [fst snd] in *. subst w2. by apply (IH _ _ _ L2).
Qed.

(** The clock is read. *)
Lemma set_clock_rel clk s x L :
  rel s x L -> current x = None ->
  rel (mkSt (heap s) (wheel s) (curr s) (timer_free_list s) None clk (next_tick s))
      (mkSpec (tick x) (pending x) (freed x) None clk (next_at x)) L.
Proof.
  intros (B & Hcl & Ht) Hc. unfold cur_list in Hcl. rewrite Hc in Hcl.
  set (s1 := mkSt _ _ _ _ _ _ _). set (x1 := mkSpec _ _ _ _ _ _).
  assert (SC : same_cells s s1) by (by split; [intros [] |]). split; [| split; [| done]].
  - destruct B as [B1 B2 B3 B4 B5 B6 B7 B8 B9 B10 B11]. constructor; try done.
    + intros i Hi Hne. by apply (cseg_cells s), B5.
    + by apply (fseg_cells s).
    + intros e. subst s1 x1. unfold in_use in *. cbn [heap pending freed current]. rewrite B7, Hc. done.
    + subst x1. unfold in_use in *. cbn [pending freed current]. by rewrite Hc in B8.
  - unfold cur_list. subst x1. cbn [current]. by apply (cseg_cells s).
Qed.

Lemma timer_tick_refines fuel clk w s x L :
  rel s x L -> current x = None ->
  implements (fun r q => r.1 = q.1 /\ current q.2 = None /\ exists L', rel r.2 q.2 L')
    (timer_tick malloc handler fuel clk w s) (spec_timer_tick malloc handler fuel clk w x).
Proof.
  intros R Hc. pose proof R as (_ & _ & Ht). unfold timer_tick, spec_timer_tick. rewrite Ht, Hc.
  apply (ticks_refine fuel w _ _ L); [by apply set_clock_rel | done].
Qed.
End Steps.

End TimerWheelSteps.
