(* ===== verification/TimerTrace.v ===== *)
(** * httperf/src/timer.c: what happens in a run, event by event

    Callbacks that record what they do, a predicate on such records that says that every
    timer fires at its own tick or is cancelled before, and the proof that the
    specification of the wheel produces only such records. *)
From S2P Require Import Prelude Doubles TimerWheel TimerCells TimerWheelProofs TimerWheelSteps.

Module TimerTrace.
Import Doubles TimerWheel TimerCells TimerWheelProofs TimerWheelSteps.

(** A callback is called; [timer_schedule] or [timer_cancel] has returned; a turn of the loop
    of [timer_tick] is over. *)
Inductive event (C : Type) :=
| Fired (a : nat) (c : C)
| Scheduled (r : option nat) (c : C) (delay : Time)
| Cancelled (a : nat)
| Turn.
Arguments Fired {C}.
Arguments Scheduled {C}.
Arguments Cancelled {C}.
Arguments Turn {C}.

Definition is_turn {C} (e : event C) : bool := match e with Turn => true | _ => false end.
Definition turns_in {C} (tr : list (event C)) : nat := length (List.filter is_turn tr).

Lemma turns_in_app {C} (l l' : list (event C)) : turns_in (l ++ l') = (turns_in l + turns_in l')%nat.
Proof. unfold turns_in. by rewrite List.filter_app, length_app. Qed.

(** ** Programs that record what they do *)
Fixpoint traced {C W} (p : prog C W) (tr : list (event C)) : prog C (W * list (event C)) :=
  match p with
  | Done w => Done (w, tr)
  | Schedule c d k => Schedule c d (fun r => traced (k r) (tr ++ [Scheduled r c d]))
  | Cancel a k => Cancel a (traced k (tr ++ [Cancelled a]))
  end.
Definition tracing {C W} (handler : C -> nat -> W -> prog C W) (c : C) (a : nat) (w : W * list (event C))
    : prog C (W * list (event C)) := traced (handler c a w.1) (w.2 ++ [Fired a c]).

(** ** On time *)
(** [p] are the pending timers, the last scheduled first, each with the tick at which it
    expires; [T] is the number of this tick, [nx] its time.  A timer that is scheduled is not a
    pending one.  A timer that fires expires at this tick, and of those that do it is the last
    scheduled.  No timer that expires at this tick is left when its turn is over. *)
Fixpoint on_time {C} (clk : Time) (tr : list (event C)) (T : Z) (nx : Time) (p : list (nat * Z * C)) : Prop :=
  match tr with
  | [] => True
  | Fired a c :: tr => (exists l, at_exp T p = (a, c) :: l) /\ on_time clk tr T nx (without a p)
  | Scheduled (Some a) c d :: tr =>
      (a ∉ ids p) /\ exists k, ticks_of clk nx d = Ret k /\ on_time clk tr T nx ((a, T + k, c) :: p)
  | Scheduled None _ _ :: tr => on_time clk tr T nx p
  | Cancelled a :: tr => on_time clk tr T nx (without a p)
  | Turn :: tr => at_exp T p = [] /\ on_time clk tr (T + 1) (fadd nx TIMER_INTERVAL) p
  end.

Lemma elem_without_ne {C} (a b : nat) e (c : C) p : (a, e, c) ∈ p -> a <> b -> (a, e, c) ∈ without b p.
Proof. intros H Hne. unfold without. by apply list_elem_of_filter. Qed.

Lemma without_nodup {C} a (p : list (nat * Z * C)) : NoDup (ids p) -> NoDup (ids (without a p)).
Proof. rewrite ids_without. by apply NoDup_filter. Qed.

(** The fate of a pending timer that expires before the record ends: it fires in its turn, unless
    it is cancelled before. *)
Lemma on_time_fate {C} clk (tr : list (event C)) : forall T nx p a e c,
  on_time clk tr T nx p -> NoDup (ids p) -> (a, e, c) ∈ p -> T <= e < T + Z.of_nat (turns_in tr) ->
  exists tr1 tr2, (tr = tr1 ++ Fired a c :: tr2 /\ Z.of_nat (turns_in tr1) = e - T) \/
                  (tr = tr1 ++ Cancelled a :: tr2 /\ Z.of_nat (turns_in tr1) <= e - T).
Proof.
  induction tr as [| ev tr IH]; intros T nx p a e c H HN Hin He; [cbn in He; lia |].
  assert (Step : forall T' nx' p', on_time clk tr T' nx' p' -> NoDup (ids p') -> (a, e, c) ∈ p' ->
    T' = T + (if is_turn ev then 1 else 0) -> T' <= e ->
    exists tr1 tr2, (ev :: tr = tr1 ++ Fired a c :: tr2 /\ Z.of_nat (turns_in tr1) = e - T) \/
                    (ev :: tr = tr1 ++ Cancelled a :: tr2 /\ Z.of_nat (turns_in tr1) <= e - T)).
  { intros T' nx' p' H' HN' Hin' ET Hle. unfold turns_in in He. cbn [List.filter] in He.
    destruct (IH T' nx' p' a e c H' HN' Hin') as (t1 & t2 & Ht).
    - unfold turns_in. destruct (is_turn ev); cbn [length] in He; lia.
    - exists (ev :: t1), t2. unfold turns_in in *. cbn [List.filter app].
      destruct Ht as [[-> Ht] | [-> Ht]]; [left | right]; (split; [done |]); destruct (is_turn ev); cbn [length]; lia. }
  destruct ev as [b d | [b |] d dl | b |]; cbn [on_time is_turn] in *.
  - destruct H as [(l & El) H]. destruct (decide (a = b)) as [<- | Hne].
    + assert (Hb : (a, T, d) ∈ p) by (apply elem_at_exp; rewrite El; apply list_elem_of_here).
      destruct (nodup_entry _ _ _ _ _ _ HN Hin Hb) as [-> ->].
      exists [], tr. left. split; [done | cbn; lia].
    + apply (Step T nx (without b p)); [done | by apply without_nodup | by apply elem_without_ne | lia | lia].
  - destruct H as (Hb & k & Ek & H). apply (Step T nx ((b, T + k, d) :: p)); [done | | by apply list_elem_of_further | lia | lia].
    rewrite ids_cons. by apply NoDup_cons.
  - by apply (Step T nx p); try lia.
  - destruct (decide (a = b)) as [<- | Hne].
    + exists [], tr. right. split; [done | cbn; lia].
    + apply (Step T nx (without b p)); [done | by apply without_nodup | by apply elem_without_ne | lia | lia].
  - destruct H as [En H]. apply (Step (T + 1) (fadd nx TIMER_INTERVAL) p); [done | done | done | lia |].
    assert (e <> T); [| lia]. intros ->. apply elem_at_exp in Hin. rewrite En in Hin. by apply elem_of_nil in Hin.
Qed.

(** ** What the specification records *)
Section Spec.
Context {C W : Type} (malloc : gset nat -> option nat) (handler : C -> nat -> W -> prog C W).
Hypothesis Hmalloc : forall u a, malloc u = Some a -> a ∉ u.
Implicit Types (x : spec C) (tr ev : list (event C)).
Abbreviation on_time x ev := (on_time (clock x) ev (tick x) (next_at x)).

Lemma spec_new_fresh x a fr : spec_new malloc x = Some (a, fr) -> NoDup (in_use x) -> NoDup (in_use_new x a fr).
Proof.
  unfold spec_new, in_use, in_use_new. destruct (freed x) as [| b l].
  - destruct (malloc _) as [b |] eqn:E; [| done]. intros [= <- <-] HN. apply NoDup_cons. split; [| done].
    apply Hmalloc in E. by rewrite elem_of_list_to_set in E.
  - intros [= <- <-] HN. revert HN. apply NoDup_Permutation_proper. apply Permutation_middle.
Qed.

(** The timers are still different ones, and [ev] is on time when what follows it is. *)
Definition records x x' ev : Prop :=
  NoDup (in_use x') /\ turns_in ev = 0%nat /\
  forall rest, on_time x rest (pending x') -> on_time x (ev ++ rest) (pending x).

Lemma records_refl x : NoDup (in_use x) -> records x x [].
Proof. by intros. Qed.

Definition same_time (x y : spec C) : Prop := tick y = tick x /\ clock y = clock x /\ next_at y = next_at x.
Lemma keeps_time x y : keeps x y -> same_time x y.
Proof. by intros (? & ? & ? & _). Qed.

Lemma records_trans x y z ev ev' :
  same_time x y -> records x y ev -> records y z ev' -> records x z (ev ++ ev').
Proof.
  intros (K1 & K2 & K3) (_ & T1 & H1) (N2 & T2 & H2). split; [done |]. split; [rewrite turns_in_app; lia |].
  intros rest H. rewrite <- app_assoc. apply H1. rewrite K1, K2, K3 in H2. by apply H2.
Qed.

Lemma schedule_records inside c d x r x' :
  spec_schedule malloc inside c d x = Ret (r, x') -> NoDup (in_use x) -> records x x' [Scheduled r c d].
Proof.
  unfold spec_schedule. destruct (spec_new malloc x) as [[a fr] |] eqn:En.
  2:{ intros [= <- <-] HN. by split. }
  intros (k & Ek & E)%bind_Ret_inv HN. destruct (_ && _); [done |]. injection E as <- <-.
  pose proof (spec_new_fresh x a fr En HN) as HN'. split; [exact HN' |]. split; [done |].
  intros rest H. cbn [app TimerTrace.on_time]. split; [| by exists k].
  unfold in_use_new in HN'. apply NoDup_cons in HN' as [Ha _]. rewrite elem_of_app in Ha. tauto.
Qed.

Lemma cancel_records a x x' :
  spec_cancel a x = Ret x' -> NoDup (in_use x) -> records x x' [Cancelled a].
Proof.
  unfold spec_cancel. intros E HN. pose proof HN as Hd. unfold in_use in Hd. apply NoDup_app in Hd as (Hp & Hd & _).
  destruct (decide (current x = Some a)) as [Ec | _].
  - injection E as <-. split; [done |]. split; [done |]. intros rest H. cbn [app TimerTrace.on_time].
    rewrite without_notin; [done |]. intros Ha. apply (Hd a Ha). rewrite Ec, elem_of_app. right. apply list_elem_of_here.
  - destruct (decide (a ∈ ids (pending x))) as [Ha | _]; [| by destruct (decide _)]. injection E as <-.
    split; [| by split]. by rewrite in_use_cancel.
Qed.

Lemma prog_records inside (p : prog C W) : forall tr x w tr' x',
  spec_prog malloc inside (traced p tr) x = Ret ((w, tr'), x') -> NoDup (in_use x) ->
  exists ev, tr' = tr ++ ev /\ records x x' ev.
Proof.
  induction p as [v | c d k IH | a k IH]; intros tr x w tr' x'; cbn [traced spec_prog].
  - intros [= <- <- <-] HN. exists []. rewrite app_nil_r. split; [done | by apply records_refl].
  - intros ([r x1] & E1 & E)%bind_Ret_inv HN. pose proof (schedule_records _ _ _ _ _ _ E1 HN) as R1.
    destruct (IH r _ _ _ _ _ E (proj1 R1)) as (ev & -> & R2). exists (Scheduled r c d :: ev).
    rewrite <- app_assoc. split; [done |]. apply spec_schedule_keeps, keeps_time in E1.
    by apply (records_trans x x1 x' [Scheduled r c d] ev).
  - intros (x1 & E1 & E)%bind_Ret_inv HN. pose proof (cancel_records _ _ _ E1 HN) as R1.
    destruct (IH _ _ _ _ _ E (proj1 R1)) as (ev & -> & R2). exists (Cancelled a :: ev).
    rewrite <- app_assoc. split; [done |]. apply spec_cancel_keeps, keeps_time in E1.
    by apply (records_trans x x1 x' [Cancelled a] ev).
Qed.

(** The timer at the head of those that expire goes to its callback, and is free behind it. *)
Lemma in_use_fire x a c l : NoDup (in_use x) -> at_exp (tick x) (pending x) = (a, c) :: l -> current x = None ->
  in_use (mkSpec (tick x) (without a (pending x)) (freed x) (Some a) (clock x) (next_at x)) ≡ₚ in_use x.
Proof.
  intros HN E Hc. unfold in_use in *. cbn [pending freed current]. rewrite Hc in *. cbn [option_list] in *. rewrite app_nil_r in *.
  apply NoDup_app in HN as [HN _]. assert (Ha : a ∈ ids (pending x)).
  { apply elem_ids. exists (tick x), c. apply elem_at_exp. rewrite E. apply list_elem_of_here. }
  rewrite (ids_perm a (pending x)) by done. rewrite app_assoc. symmetry. apply (Permutation_cons_append (ids (without a (pending x)) ++ freed x) a).
Qed.

Lemma in_use_done x a : current x = Some a ->
  in_use (mkSpec (tick x) (pending x) (a :: freed x) None (clock x) (next_at x)) ≡ₚ in_use x.
Proof. intros E. unfold in_use. cbn [pending freed current]. rewrite E. cbn [option_list]. rewrite app_nil_r. apply Permutation_app_head, Permutation_cons_append. Qed.

Lemma fire_records fuel : forall w tr x w' tr' x',
  spec_fire malloc (tracing handler) fuel (w, tr) x = Ret ((w', tr'), x') -> NoDup (in_use x) -> current x = None ->
  exists ev, tr' = tr ++ ev /\ records x x' ev /\ keeps x x' /\ at_exp (tick x) (pending x') = [].
Proof.
  induction fuel as [| fuel IH]; intros w tr x w' tr' x'; cbn [spec_fire]; [done |].
  destruct (at_exp (tick x) (pending x)) as [| [a c] l] eqn:E.
  { intros [= <- <- <-] HN Hc. exists []. rewrite app_nil_r. split; [done |]. split; [by apply records_refl |]. split; [apply keeps_refl | done]. }
  set (x1 := mkSpec (tick x) _ _ _ _ _). intros ([[w2 tr2] x2] & E2 & Er)%bind_Ret_inv HN Hc.
  assert (HN1 : NoDup (in_use x1)) by (unfold x1; by rewrite (in_use_fire x a c l)).
  unfold tracing in E2. cbn [fst snd] in E2. pose proof (spec_prog_keeps _ _ _ _ _ _ E2) as K2.
  destruct (prog_records _ _ _ _ _ _ _ E2 HN1) as (ev2 & -> & R2).
  set (x3 := mkSpec (tick x2) _ _ _ _ _) in Er.
  assert (R1 : records x x1 [Fired a c]).
  { split; [done |]. split; [done |]. intros rest H. cbn [app TimerTrace.on_time]. split; [by exists l | exact H]. }
  assert (R3 : records x2 x3 []).
  { destruct K2 as (_ & _ & _ & K & _). split; [unfold x3; rewrite (in_use_done x2 a) by exact K; apply R2 | by split]. }
  assert (K1 : keeps x x3).
  { apply (keeps_trans x (mkSpec (tick x1) (pending x1) (freed x1) None (clock x1) (next_at x1))).
    - repeat split; [by symmetry |]. subst x1. cbn [pending tick]. rewrite at_exp_without. apply length_filter.
    - destruct K2 as (K & K' & K'' & _ & Kl). by repeat split. }
  destruct (IH _ _ _ _ _ _ Er) as (ev3 & -> & R4 & K4 & Eend); [by apply R3 | done |].
  exists (Fired a c :: ev2 ++ ev3). split; [by rewrite <- !app_assoc |].
  split; [| split; [by apply (keeps_trans x x3) | by destruct K1 as (<- & _)]].
  apply (records_trans x x3 x' (Fired a c :: ev2) ev3); [by apply keeps_time | | done].
  apply keeps_time in K2. rewrite <- (app_nil_r (Fired a c :: ev2)). apply (records_trans x x2 x3); [done | | done].
  by apply (records_trans x x1 x2 [Fired a c] ev2).
Qed.

(** [n] turns of the loop of [timer_tick], each followed by its mark. *)
Fixpoint traced_turns (n : nat) (w : W * list (event C)) (s : st C) : cres ((W * list (event C)) * st C) :=
  match n with
  | O => Ret (w, s)
  | S n =>
      '(w, s) ← one_tick malloc (tracing handler) w s;
      traced_turns n (w.1, w.2 ++ [Turn]) s
  end.
Fixpoint spec_turns (n : nat) (w : W * list (event C)) x : cres ((W * list (event C)) * spec C) :=
  match n with
  | O => Ret (w, x)
  | S n =>
      '(w, x) ← spec_one_tick malloc (tracing handler) w x;
      spec_turns n (w.1, w.2 ++ [Turn]) x
  end.

Lemma turns_record n : forall w tr x w' tr' x',
  spec_turns n (w, tr) x = Ret ((w', tr'), x') -> NoDup (in_use x) -> current x = None ->
  exists ev, tr' = tr ++ ev /\ turns_in ev = n /\ on_time x ev (pending x).
Proof.
  induction n as [| n IH]; intros w tr x w' tr' x'; cbn [spec_turns].
  - intros [= <- <- <-] _ _. exists []. by rewrite app_nil_r.
  - intros ([[w1 tr1] x1] & E1 & E)%bind_Ret_inv HN Hc. unfold spec_one_tick in E1.
    apply bind_Ret_inv in E1 as ([[w2 tr2] x2] & E2 & [= <- <- <-]). cbn [fst snd] in E.
    destruct (fire_records _ _ _ _ _ _ _ E2 HN Hc) as (ev & -> & (HN2 & HT & HR) & (K1 & K2 & K3 & K4 & _) & Hend).
    destruct (IH _ _ _ _ _ _ E) as (ev' & -> & HT' & HR'); [unfold in_use in *; cbn [pending freed current] in *; by rewrite K4, Hc in HN2 | done |].
    exists (ev ++ Turn :: ev'). split; [by rewrite <- !app_assoc |]. split; [rewrite turns_in_app; unfold turns_in in *; cbn; lia |].
    apply HR. cbn [TimerTrace.on_time]. split; [done |]. cbn [clock tick next_at pending] in HR'. by rewrite K1, K2, K3 in HR'.
Qed.

End Spec.

(** ** Recording changes nothing *)
(** [m] does what [m'] does; of its result [g] forgets the record. *)
Definition erases {A A'} (g : A' -> A) (m' : cres A') (m : cres A) : Prop := (a ← m'; Ret (g a)) = m.

Lemma erases_bind {A A' B B'} (g : A' -> A) (h : B' -> B) m' m (f' : A' -> cres B') f :
  erases g m' m -> (forall a, erases h (f' a) (f (g a))) -> erases h (m' ≫= f') (m ≫= f).
Proof. intros <- Hf. destruct m' as [a | | |]; [exact (Hf a) | done ..]. Qed.

Lemma erases_read {A B B'} (h : B' -> B) (m : cres A) (f' : A -> cres B') f :
  (forall a, erases h (f' a) (f a)) -> erases h (m ≫= f') (m ≫= f).
Proof. intros Hf. destruct m; [exact (Hf a) | done ..]. Qed.

Section Erase.
Context {C W : Type} (malloc : gset nat -> option nat) (handler : C -> nat -> W -> prog C W).
Implicit Types (s : st C) (tr : list (event C)).

Definition untraced {S} (r : (W * list (event C)) * S) : W * S := (r.1.1, r.2).

Lemma run_prog_erases (p : prog C W) : forall tr s,
  erases untraced (run_prog malloc (traced p tr) s) (run_prog malloc p s).
Proof.
  induction p as [w | c d k IH | a k IH]; intros tr s; cbn [traced run_prog]; [done | |].
  - apply erases_read. intros [r s']. apply IH.
  - apply erases_read. intros s'. apply IH.
Qed.

Lemma fire_loop_erases fuel : forall t w tr s,
  erases (fun r => (r.1.1, r.1.2.1, r.2)) (fire_loop malloc (tracing handler) fuel t (w, tr) s) (fire_loop malloc handler fuel t w s).
Proof.
  induction fuel as [| fuel IH]; intros [a |] w tr s; cbn [fire_loop]; try done.
  apply erases_read. intros n. destruct (delta n =? 0); [| done].
  apply erases_read. intros c. eapply erases_bind; [apply run_prog_erases |]. intros [[w' tr'] s'].
  apply erases_read. intros n'. apply erases_read. intros s2. apply IH.
Qed.

Lemma one_tick_erases w tr s :
  erases untraced (one_tick malloc (tracing handler) (w, tr) s) (one_tick malloc handler w s).
Proof.
  unfold one_tick. apply erases_read. intros t. eapply erases_bind; [apply fire_loop_erases |].
  intros [[t' [w' tr']] s']. apply erases_read. intros s2. by apply erases_read.
Qed.
End Erase.

End TimerTrace.
