(* ===== verification/TimerWheelTheorems.v ===== *)
(** * httperf/src/timer.c: the theorems

    Runs of a client and of the clock from [timer_init]: in the runs that keep the rules of
    the specification the wheel behaves as the list of pending timers, every timer fires at its
    own tick unless it is cancelled before, and a tick ends; and what becomes of a timer that
    a callback schedules whole rounds ahead, which the rules forbid. *)
From S2P Require Import Prelude Doubles TimerWheel TimerCells TimerWheelProofs TimerWheelSteps TimerTrace.

Module TimerWheelTheorems.
Import Doubles TimerWheel TimerCells TimerWheelProofs TimerWheelSteps TimerTrace.

(** ** Runs *)
Lemma aget_replicate {A} n (v : A) i : 0 <= i < Z.of_nat n -> aget (replicate n v) i = Some v.
Proof.
  intros Hi. unfold aget. destruct (Z.leb_spec 0 i); [| lia]. apply lookup_replicate_2. lia.
Qed.

Lemma init_rel {C} clk : rel (timer_init clk : st C) (spec_init clk) (fun _ => []).
Proof.
  unfold timer_init, WHEEL_SIZE. change (Z.to_nat 4096) with 4096%nat.
  assert (Hw : forall i, 0 <= i < 4096 -> aget (replicate 4096 (@None nat)) i = Some None).
  { intros i Hi. by apply aget_replicate. }
  assert (Hl : length (replicate 4096 (@None nat)) = 4096%nat) by apply length_replicate.
  revert Hw Hl. generalize (replicate 4096 (@None nat)). intros wh Hw Hl.
  split; [| split; [| done]].
  - constructor; try done.
    + intros i Hi _. split; [done |]. by apply Hw.
    + intros a. cbn. rewrite dom_empty_L. set_solver.
    + constructor.
  - split; [done |]. apply Hw. cbn. lia.
Qed.

Section Runs.
Context {C W : Type} (malloc : gset nat -> option nat) (handler : C -> nat -> W -> prog C W).

(** The client calls the module, or the main loop calls [timer_tick] when the
    clock shows [clk]. *)
Inductive op :=
| Client (f : W -> prog C W)
| Tick (clk : Time).

Fixpoint run (fuel : nat) (l : list op) (w : W) (s : st C) : cres (W * st C) :=
  match l with
  | [] => Ret (w, s)
  | Client f :: l => '(w, s) ← run_prog malloc (f w) s; run fuel l w s
  | Tick clk :: l => '(w, s) ← timer_tick malloc handler fuel clk w s; run fuel l w s
  end.

Fixpoint spec_run (fuel : nat) (l : list op) (w : W) (x : spec C) : cres (W * spec C) :=
  match l with
  | [] => Ret (w, x)
  | Client f :: l => '(w, x) ← spec_prog malloc false (f w) x; spec_run fuel l w x
  | Tick clk :: l => '(w, x) ← spec_timer_tick malloc handler fuel clk w x; spec_run fuel l w x
  end.

(** [n] turns of the loop of [timer_tick]. *)
Fixpoint turns (n : nat) (w : W) (s : st C) : cres (W * st C) :=
  match n with
  | O => Ret (w, s)
  | S n => '(w, s) ← one_tick malloc handler w s; turns n w s
  end.

Hypothesis Hmalloc : forall u a, malloc u = Some a -> a ∉ u.

Definition related (r : W * st C) (q : W * spec C) : Prop :=
  r.1 = q.1 /\ current q.2 = None /\ exists L, rel r.2 q.2 L.

Lemma related_bind {B B' : Type} m n (R' : B -> B' -> Prop) f g :
  implements related m n -> (forall w s x L, rel s x L -> current x = None -> implements R' (f (w, s)) (g (w, x))) ->
  implements R' (m ≫= f) (n ≫= g).
Proof.
  intros H Hf. eapply implements_bind; [exact H |]. intros [w s] [w' x] (E & Hc & L & R).
  cbn [fst snd] in *. subst w'. by apply (Hf w s x L).
Qed.

Lemma client_refines (p : prog C W) s x L :
  rel s x L -> current x = None -> implements related (run_prog malloc p s) (spec_prog malloc false p x).
Proof.
  intros R Hc. pose proof (prog_refines malloc Hmalloc false p s x L R ltac:(done)) as H.
  destruct (spec_prog malloc false p x) as [[w x'] | | |] eqn:E; cbn [implements] in *; [| done | done | done].
  destruct H as (r & Er & Ew & _ & HL). exists r. split; [done |]. split; [done |]. split; [| done].
  apply spec_prog_keeps in E as (_ & _ & _ & E & _). cbn [snd]. by rewrite E.
Qed.

Lemma run_refines fuel l : forall w s x L,
  rel s x L -> current x = None -> implements related (run fuel l w s) (spec_run fuel l w x).
Proof.
  induction l as [| [f | clk] l IH]; intros w s x L R Hc; cbn [run spec_run].
  - exists (w, s). split; [done |]. split; [done |]. split; [done |]. by exists L.
  - eapply related_bind; [by apply (client_refines _ s x L) |]. intros w1 s1 x1 L1 R1 Hc1. by apply (IH _ _ _ L1).
  - eapply related_bind; [by apply (timer_tick_refines malloc Hmalloc handler fuel clk w s x L) |].
    intros w1 s1 x1 L1 R1 Hc1. by apply (IH _ _ _ L1).
Qed.

(** ** Every tick ends *)
Lemma spec_cancel_fuel t (x : spec C) : spec_cancel t x <> NoFuel.
Proof. unfold spec_cancel. by repeat destruct (decide _). Qed.

Lemma ticks_of_fuel n t d : ticks_of n t d <> NoFuel.
Proof.
  unfold ticks_of. cbn zeta. destruct (SFltb _ (double 0)); [done |].
  match goal with |- context [to_ulong ?y] => pose proof (to_ulong_fuel y); by destruct (to_ulong y) end.
Qed.

Lemma spec_prog_fuel inside (p : prog C W) x : spec_prog malloc inside p x <> NoFuel.
Proof.
  revert x. induction p as [w | c d k IH | t k IH]; intros x; cbn [spec_prog]; [done | |].
  - unfold spec_schedule. destruct (spec_new malloc x) as [[a fr] |]; [| rewrite bind_Ret; apply IH].
    pose proof (ticks_of_fuel (clock x) (next_at x) d) as Ht.
    destruct (ticks_of _ _ _) as [v | | |]; try done. rewrite !bind_Ret.
    destruct (_ && _); [done |]. rewrite bind_Ret. apply IH.
  - pose proof (spec_cancel_fuel t x) as Hx. destruct (spec_cancel t x) as [x' | | |]; try done.
    rewrite bind_Ret. apply IH.
Qed.

Lemma spec_fire_fuel fuel : forall w x,
  (length (at_exp (tick x) (pending x)) < fuel)%nat -> spec_fire malloc handler fuel w x <> NoFuel.
Proof.
  induction fuel as [| fuel IH]; intros w x Hf; [lia |]. cbn [spec_fire].
  destruct (at_exp (tick x) (pending x)) as [| [a c] l] eqn:E; [done |].
  set (x1 := mkSpec _ _ _ _ _ _). pose proof (spec_prog_fuel true (handler c a w) x1) as Hp.
  destruct (spec_prog malloc true (handler c a w) x1) as [[w2 x2] | | |] eqn:Ep; try done. rewrite bind_Ret.
  apply IH. apply spec_prog_keeps in Ep as (K1 & _ & _ & _ & K5). cbn [tick pending]. rewrite K1.
  eapply Nat.le_lt_trans; [exact K5 |]. subst x1. cbn [tick pending]. rewrite at_exp_without, E.
  rewrite filter_cons, decide_False by (cbn; tauto). cbn [length] in Hf.
  eapply Nat.le_lt_trans; [apply length_filter | lia].
Qed.

Lemma length_at_exp e (l : list (nat * Z * C)) : (length (at_exp e l) <= length l)%nat.
Proof.
  induction l as [| [[a D] c] l IH]; [done |]. rewrite at_exp_cons. destruct (D =? e); cbn [app length]; lia.
Qed.

Lemma spec_one_tick_fuel w x : spec_one_tick malloc handler w x <> NoFuel.
Proof.
  unfold spec_one_tick. pose proof (length_at_exp (tick x) (pending x)) as Hl.
  pose proof (spec_fire_fuel (S (length (pending x))) w x ltac:(lia)) as Hf.
  destruct (spec_fire _ _ _ _ _) as [[w' x'] | | |]; done.
Qed.

(** When the specification runs out of turns, so does the code. *)
Lemma ticks_no_fuel fuel : forall w s x L,
  rel s x L -> current x = None -> spec_ticks malloc handler fuel w x = NoFuel -> tick_loop malloc handler fuel w s = NoFuel.
Proof.
  induction fuel as [| fuel IH]; intros w s x L R Hc; pose proof R as (B & _); cbn [tick_loop spec_ticks];
    rewrite (b_now _ _ _ B), (b_next _ _ _ B); destruct (SFleb (next_at x) (clock x)); try done.
  pose proof (tick_refines malloc Hmalloc handler w s x L R Hc) as H. pose proof (spec_one_tick_fuel w x) as Hf.
  destruct (spec_one_tick malloc handler w x) as [[w1 x1] | e | |]; try done. rewrite bind_Ret.
  destruct H as ([w2 s2] & -> & Ew & Hc2 & L2 & R2). cbn [fst snd] in *. subst w2. rewrite bind_Ret. by apply (IH _ _ _ L2).
Qed.

Lemma run_no_fuel fuel l : forall w s x L,
  rel s x L -> current x = None -> spec_run fuel l w x = NoFuel -> run fuel l w s = NoFuel.
Proof.
  induction l as [| [f | clk] l IH]; intros w s x L R Hc; cbn [run spec_run]; [done | |].
  - pose proof (client_refines (f w) s x L R Hc) as H. pose proof (spec_prog_fuel false (f w) x) as Hf.
    destruct (spec_prog malloc false (f w) x) as [[w1 x1] | e | |]; try done. rewrite bind_Ret.
    destruct H as ([w2 s2] & -> & Ew & Hc2 & L2 & R2). cbn [fst snd] in *. subst w2. rewrite bind_Ret. by apply (IH _ _ _ L2).
  - pose proof (timer_tick_refines malloc Hmalloc handler fuel clk w s x L R Hc) as H.
    destruct (spec_timer_tick malloc handler fuel clk w x) as [[w1 x1] | e | |] eqn:E; try done; rewrite ?bind_Ret.
    + destruct H as ([w2 s2] & -> & Ew & Hc2 & L2 & R2). cbn [fst snd] in *. subst w2. rewrite bind_Ret. by apply (IH _ _ _ L2).
    + intros _. pose proof R as (_ & _ & Ht). unfold timer_tick, spec_timer_tick in *. rewrite Ht, Hc. rewrite Hc in E.
      by rewrite (ticks_no_fuel fuel w _ _ L (set_clock_rel clk s x L R Hc) eq_refl E).
Qed.

(** ** Turns that are recorded *)
Lemma turns_erase n : forall w tr s,
  erases untraced (traced_turns malloc handler n (w, tr) s) (turns n w s).
Proof.
  induction n as [| n IH]; intros w tr s; cbn [traced_turns turns]; [done |].
  eapply erases_bind; [apply one_tick_erases |]. intros [[w' tr'] s']. apply IH.
Qed.
End Runs.
Arguments op C W : clear implicits.

Section Turns.
Context {C W : Type} (malloc : gset nat -> option nat) (handler : C -> nat -> W -> prog C W).
Hypothesis Hmalloc : forall u a, malloc u = Some a -> a ∉ u.

Lemma turns_refine n : forall w s x L,
  rel s x L -> current x = None ->
  implements related (traced_turns malloc handler n w s) (spec_turns malloc handler n w x).
Proof.
  induction n as [| n IH]; intros w s x L R Hc; cbn [traced_turns spec_turns].
  - exists (w, s). split; [done |]. split; [done |]. split; [done | by exists L].
  - eapply related_bind; [by apply (tick_refines malloc Hmalloc _ w s x L) |].
    intros w1 s1 x1 L1 R1 Hc1. by apply (IH _ _ _ L1).
Qed.

Lemma spec_turns_fuel n : forall w x, spec_turns malloc handler n w x <> NoFuel.
Proof.
  induction n as [| n IH]; intros w x; cbn [spec_turns]; [done |].
  pose proof (spec_one_tick_fuel malloc (tracing handler) w x) as Hf.
  destruct (spec_one_tick malloc (tracing handler) w x) as [[w1 x1] | | |]; try done. rewrite bind_Ret. apply IH.
Qed.
End Turns.

(** ** The rules *)
(** What the specification leaves undefined: a callback that schedules a multiple of the 4096
    ticks of a round (such a timer is lost, see [whole_round_timer_is_lost]), a delay without
    a number of ticks, and the cancelling of what is not a timer. *)
Lemma spec_schedule_undef {C} (malloc : gset nat -> option nat) inside (c : C) d x :
  spec_schedule malloc inside c d x = Undef <->
  spec_new malloc x <> None /\
  (ticks_of (clock x) (next_at x) d = Undef \/
   inside = true /\ exists k, ticks_of (clock x) (next_at x) d = Ret k /\ k mod WHEEL_SIZE = 0).
Proof.
  unfold spec_schedule. destruct (spec_new malloc x) as [[a fr] |]; [| split; [done | by intros []]].
  destruct (ticks_of (clock x) (next_at x) d) as [k | | |]; cbn [mbind];
    [| by split; [done | intros [_ [? | (_ & k & ? & _)]]] | split; [intros _; split; [done | by left] | done] | by split; [done | intros [_ [? | (_ & k & ? & _)]]]].
  - rewrite bind_Ret. destruct inside; cbn [andb].
    + destruct (Z.eqb_spec (k mod WHEEL_SIZE) 0) as [E | E]; split; try done.
      * intros _. split; [done |]. right. split; [done |]. by exists k.
      * intros [_ [? | (_ & k' & [= <-] & ?)]]; done.
    + split; [done |]. by intros [_ [? | [? _]]].
Qed.

Lemma spec_cancel_undef {C} a (x : spec C) :
  spec_cancel a x = Undef <-> current x <> Some a /\ (a ∉ ids (pending x)) /\ (a ∉ freed x).
Proof.
  unfold spec_cancel. destruct (decide (current x = Some a)); [split; [done | tauto] |].
  destruct (decide (a ∈ ids (pending x))); [split; [done | tauto] |].
  destruct (decide (a ∈ freed x)); split; try done; tauto.
Qed.

(** ** Theorems *)

(** C3: In every run that keeps the rules, where callbacks do not schedule a multiple of 4096 ticks
    ahead, delays are numbers of ticks below 2^64 and only timers are cancelled
    ([spec_schedule_undef], [spec_cancel_undef]), the wheel does what the list of pending
    timers does: the same callbacks, with the same arguments and in the same order, the same
    results of [timer_schedule], [abort] where a freed timer is cancelled, and as many
    turns of the loop of [timer_tick]. *)
Theorem wheel_refines_pending_list {C W} (malloc : gset nat -> option nat)
    (handler : C -> nat -> W -> prog C W) (fuel : nat) (l : list (op C W)) (clk : Time) (w : W)
    (Hmalloc : forall u a, malloc u = Some a -> a ∉ u)
    (Hrules : spec_run malloc handler fuel l w (spec_init clk) <> Undef) :
  match spec_run malloc handler fuel l w (spec_init clk) with
  | Ret (w', _) => exists s, run malloc handler fuel l w (timer_init clk) = Ret (w', s)
  | Exit e => run malloc handler fuel l w (timer_init clk) = Exit e
  | NoFuel => run malloc handler fuel l w (timer_init clk) = NoFuel
  | Undef => False
  end.
Proof.
  pose proof (run_refines malloc handler Hmalloc fuel l w _ _ _ (init_rel clk) eq_refl) as H.
  destruct (spec_run _ _ _ _ _ _) as [[w' x] | e | |] eqn:E; cbn [implements] in H; try done.
  - destruct H as ([w1 s] & E1 & Ew & _). cbn [fst] in Ew. subst w1. by exists s.
  - by apply (run_no_fuel malloc handler Hmalloc fuel l w _ _ _ (init_rel clk)).
Qed.

(** C4: Every pending timer fires at its own tick and at no other, unless it is cancelled before,
    whatever the callbacks do within the rules: after any run, the next [n] turns of the loop
    of [timer_tick] end (or [abort], where a freed timer is cancelled), and a record of them is
    on time ([on_time]: what fires expires at this tick, the last scheduled first, and nothing
    that expires is left over).  So a timer that is pending before them and expires within them
    fires in the turn of its tick, or is cancelled in this turn or before. *)
Theorem timers_fire_on_time {C W} (malloc : gset nat -> option nat)
    (handler : C -> nat -> W -> prog C W) (fuel n : nat) (l : list (op C W)) (clk : Time) (w0 w : W) x
    (Hmalloc : forall u a, malloc u = Some a -> a ∉ u)
    (Hrun : spec_run malloc handler fuel l w0 (spec_init clk) = Ret (w, x))
    (Hrules : spec_turns malloc handler n (w, []) x <> Undef) :
  exists s, run malloc handler fuel l w0 (timer_init clk) = Ret (w, s) /\
    match traced_turns malloc handler n (w, []) s with
    | Ret ((w', tr), s') =>
        turns malloc handler n w s = Ret (w', s') /\ turns_in tr = n /\
        on_time (clock x) tr (tick x) (next_at x) (pending x) /\
        forall a e c, (a, e, c) ∈ pending x -> e < tick x + Z.of_nat n ->
          exists tr1 tr2, (tr = tr1 ++ Fired a c :: tr2 /\ Z.of_nat (turns_in tr1) = e - tick x) \/
                          (tr = tr1 ++ Cancelled a :: tr2 /\ Z.of_nat (turns_in tr1) <= e - tick x)
    | Exit e => turns malloc handler n w s = Exit e
    | Undef | NoFuel => False
    end.
Proof.
  pose proof (run_refines malloc handler Hmalloc fuel l w0 _ _ _ (init_rel clk) eq_refl) as H.
  rewrite Hrun in H. destruct H as ([w1 s] & E & Ew & Hc & L & R). cbn [fst snd] in *. subst w1.
  exists s. split; [done |]. pose proof (turns_refine malloc handler Hmalloc n (w, []) s x L R Hc) as Ht.
  pose proof (spec_turns_fuel malloc handler n (w, []) x) as Hf. pose proof (turns_erase malloc handler n w [] s) as He.
  destruct (spec_turns malloc handler n (w, []) x) as [[[w' tr] x'] | e | |] eqn:Es; try done; cbn [implements] in Ht.
  - destruct Ht as ([[w1 tr1] s'] & Et & [= -> ->] & _). rewrite Et in *. pose proof R as (B & _).
    destruct (turns_record malloc handler Hmalloc n _ _ _ _ _ _ Es (b_nodup _ _ _ B) Hc) as (ev & -> & Hn & Ho).
    split; [by symmetry |]. split; [done |]. split; [done |]. intros a e c Hin Hlt.
    apply (on_time_fate (clock x) ev (tick x) (next_at x) (pending x)); [done | by apply (pending_nodup s x L) | done |].
    pose proof (b_future _ _ _ B) as F. rewrite Forall_forall in F. specialize (F _ Hin). cbn in *. lia.
  - rewrite Ht in *. by symmetry.
Qed.

(** A tick ends: however often the callbacks schedule and cancel timers, the
    loop over the expired timers of a list stops, unless a callback does what the
    specification leaves undefined. *)
Theorem ticks_end {C W} (malloc : gset nat -> option nat) (handler : C -> nat -> W -> prog C W)
    (fuel : nat) (l : list (op C W)) (clk : Time) w0 w x
    (Hmalloc : forall u a, malloc u = Some a -> a ∉ u)
    (Hrun : spec_run malloc handler fuel l w0 (spec_init clk) = Ret (w, x))
    (Hdef : spec_one_tick malloc handler w x <> Undef) :
  exists s, run malloc handler fuel l w0 (timer_init clk) = Ret (w, s) /\
    ((exists w' s', one_tick malloc handler w s = Ret (w', s')) \/
     (exists e, one_tick malloc handler w s = Exit e)).
Proof.
  pose proof (run_refines malloc handler Hmalloc fuel l w0 _ _ _ (init_rel clk) eq_refl) as H.
  rewrite Hrun in H. destruct H as ([w1 s] & E & Ew & Hc & L & R). cbn [fst snd] in *. subst w1.
  exists s. split; [done |]. pose proof (tick_refines malloc Hmalloc handler w s x L R Hc) as Ht.
  pose proof (spec_one_tick_fuel malloc handler w x) as Hf.
  destruct (spec_one_tick malloc handler w x) as [[w2 x2] | e | |]; [left | right | done | done].
  - destruct Ht as ([w3 s3] & E3 & _). by exists w3, s3.
  - by exists e.
Qed.

(** ** Concrete runs *)
Definition fresh_malloc (u : gset nat) : option nat := Some (fresh u).
Lemma fresh_malloc_ok u a : fresh_malloc u = Some a -> a ∉ u.
Proof. intros [= <-]. apply is_fresh. Qed.
Definition ms (k : Z) : Time := fdiv (double k) (double 1000).

(** Three timers, one of which is cancelled by the callback of the first. *)
Definition demo_handler (c : Z) (a : nat) (w : list Z) : prog Z (list Z) :=
  if c =? 1 then Cancel 2 (Schedule 4 (ms 3) (fun _ => Done (w ++ [c]))) else Done (w ++ [c]).
Definition demo : list (op Z (list Z)) :=
  [Client (fun w => Schedule 1 (ms 2) (fun _ => Schedule 2 (ms 5) (fun _ => Schedule 3 (ms 7) (fun _ => Done w))));
   Tick (ms 10); Client (fun w => Cancel 0 (Done w))].

Definition demo_end (l : list (op Z (list Z))) : list Z * spec Z :=
  match spec_run fresh_malloc demo_handler 20 l [] (spec_init (double 0)) with
  | Ret r => r
  | _ => ([], spec_init (double 0))
  end.

(** The run aborts at its end, where a timer that has fired is cancelled. *)
Lemma wheel_refines_pending_list_witness :
  run fresh_malloc demo_handler 20 demo [] (timer_init (double 0)) = Exit SIGABRT /\
  exists s, run fresh_malloc demo_handler 20 (take 2 demo) [] (timer_init (double 0)) = Ret ([1; 2], s).
Proof.
  split.
  - pose proof (wheel_refines_pending_list fresh_malloc demo_handler 20 demo (double 0) [] fresh_malloc_ok) as H.
    assert (E : spec_run fresh_malloc demo_handler 20 demo [] (spec_init (double 0)) = Exit SIGABRT) by (vm_compute; reflexivity).
    rewrite E in H. apply H. discriminate.
  - pose proof (wheel_refines_pending_list fresh_malloc demo_handler 20 (take 2 demo) (double 0) [] fresh_malloc_ok) as H.
    assert (E : spec_run fresh_malloc demo_handler 20 (take 2 demo) [] (spec_init (double 0)) = Ret ([1; 2], (demo_end (take 2 demo)).2))
      by (vm_compute; reflexivity).
    rewrite E in H. apply H. discriminate.
Defined.

(** Three timers, of which the first schedules another one and cancels the last. *)
Definition fate_demo : list (op Z (list Z)) :=
  [Client (fun w => Schedule 1 (ms 3) (fun _ => Schedule 2 (ms 6) (fun _ => Schedule 3 (ms 4) (fun _ => Done w)))); Tick (ms 2)].
Definition fate_handler (c : Z) (a : nat) (w : list Z) : prog Z (list Z) :=
  if c =? 1 then Schedule 5 (ms 1) (fun _ => Cancel 1 (Done (w ++ [c]))) else Done (w ++ [c]).
Definition fate_end : list Z * spec Z :=
  match spec_run fresh_malloc fate_handler 20 fate_demo [] (spec_init (double 0)) with
  | Ret r => r
  | _ => ([], spec_init (double 0))
  end.
Definition fate_trace : list (event Z) :=
  [Turn; Fired 0 1; Scheduled (Some 3%nat) 5 (ms 1); Cancelled 1; Turn; Fired 3 5; Fired 2 3; Turn; Turn].

Lemma timers_fire_on_time_witness :
  exists s s', run fresh_malloc fate_handler 20 fate_demo [] (timer_init (double 0)) = Ret ([], s) /\
    turns fresh_malloc fate_handler 4 [] s = Ret ([1; 5; 3], s') /\
    on_time (clock fate_end.2) fate_trace (tick fate_end.2) (next_at fate_end.2) (pending fate_end.2).
Proof.
  assert (Er : spec_run fresh_malloc fate_handler 20 fate_demo [] (spec_init (double 0)) = Ret ([], fate_end.2)) by (vm_compute; reflexivity).
  assert (Et : exists x', spec_turns fresh_malloc fate_handler 4 ([], []) fate_end.2 = Ret (([1; 5; 3], fate_trace), x'))
    by (eexists; vm_compute; reflexivity).
  destruct Et as [x' Et].
  destruct (timers_fire_on_time fresh_malloc fate_handler 20 4 fate_demo (double 0) [] [] fate_end.2 fresh_malloc_ok Er) as (s & Es & H);
    [rewrite Et; discriminate |].
  exists s. assert (Eq : match traced_turns fresh_malloc fate_handler 4 ([], []) s with Ret (w, _) => w = ([1; 5; 3], fate_trace) | _ => False end).
  { assert (G : forall r : cres (list Z * st Z), r = Ret ([], s) -> match r with Ret (_, s) =>
      match traced_turns fresh_malloc fate_handler 4 ([], []) s with Ret (w, _) => w = ([1; 5; 3], fate_trace) | _ => False end | _ => True end).
    { intros r Hr. rewrite <- Es in Hr. subst r. vm_compute. reflexivity. }
    exact (G _ eq_refl). }
  destruct (traced_turns fresh_malloc fate_handler 4 ([], []) s) as [[w s'] | | |]; [rewrite Eq in H | destruct Eq ..].
  destruct H as (H1 & _ & H2 & _). exists s'. split; [exact Es |]. split; [exact H1 | exact H2].
Defined.

(** A callback that schedules itself again and again. *)
Definition again (c : Z) (a : nat) (w : Z) : prog Z Z := Schedule c (ms 1) (fun _ => Done (w + 1)).
Definition again_ops : list (op Z Z) := [Client (fun w => Schedule 0 (ms 1) (fun _ => Done w)); Tick (ms 3)].
Definition again_end : Z * spec Z :=
  match spec_run fresh_malloc again 20 again_ops 0 (spec_init (double 0)) with
  | Ret r => r
  | _ => (0, spec_init (double 0))
  end.

Lemma ticks_end_witness :
  exists s, run fresh_malloc again 20 again_ops 0 (timer_init (double 0)) = Ret (again_end.1, s) /\
    ((exists w' s', one_tick fresh_malloc again again_end.1 s = Ret (w', s')) \/
     (exists e, one_tick fresh_malloc again again_end.1 s = Exit e)).
Proof.
  eapply (ticks_end fresh_malloc again 20 again_ops (double 0) 0 again_end.1 again_end.2).
  - intros u a. apply fresh_malloc_ok.
  - vm_compute. reflexivity.
  - vm_compute. congruence.
Defined.

(** Two timers expire at the same tick, and the callback of the second schedules a
    timer 4096 ticks ahead. *)
Definition round_handler (c : Z) (a : nat) (w : list (option nat)) : prog Z (list (option nat)) :=
  if c =? 1 then Schedule 3 (ms 4096) (fun r => Done (w ++ [r])) else Done w.
Definition round_ops : list (op Z (list (option nat))) :=
  [Client (fun w => Schedule 1 (ms 1) (fun _ => Schedule 2 (ms 1) (fun _ => Done w))); Tick (ms 2)].

(** A timer can be lost.  When the second of two callbacks of one tick schedules a
    timer a whole number of rounds ahead, [timer_schedule] takes the first timer, which
    is already freed but still the head of the list at [curr], walks to it, and links it
    behind itself; after the tick no list of the wheel holds the new timer, although
    [timer_schedule] returned it. *)
Theorem whole_round_timer_is_lost :
  exists s, run fresh_malloc round_handler 20 round_ops [] (timer_init (double 0)) = Ret ([Some 1%nat], s) /\
    heap s !! 1%nat = Some (mkTimer (Some 1%nat) (Some (Node 1)) 0 (Some 3)) /\
    forallb (fun p => bool_decide (p = None)) (wheel s) = true /\ timer_free_list s = Some 0%nat.
Proof. eexists. split; [vm_compute; reflexivity |]. split; [| split]; vm_compute; reflexivity. Qed.

End TimerWheelTheorems.
