(* ===== verification/LmStats.v ===== *)
(** * lmbench/src/lib_stats.c: statistics of measurements

    The file has every function three times, for arrays of [int], [uint64] and
    [double]; here they are one definition over the arithmetic of the element type,
    used at the three types.  An [int] that overflows is undefined, a [uint64]
    wraps, a double is a [spec_float].  [qsort] sorts the array in place; the
    functions that sort return the sorted array too.  The arrays are as long as
    [size] says, and [malloc] succeeds. *)
From stdpp Require Import sorting.
From S2P Require Import Prelude Doubles ExactDoubles.

Module LmStats.
Import Doubles ExactDoubles.

(** ** The arithmetic of the element types *)
Record num (A : Type) := mkNum {
  nzero : A;
  nlt : A -> A -> bool;
  nadd : A -> A -> cres A;
  nsub : A -> A -> cres A;
  nmul : A -> A -> cres A;
  ndiv : A -> Z -> cres A;
  ndouble : A -> spec_float
}.
Arguments nzero {A}.
Arguments nlt {A}.
Arguments nadd {A}.
Arguments nsub {A}.
Arguments nmul {A}.
Arguments ndiv {A}.
Arguments ndouble {A}.

Definition int_of (z : Z) : cres Z := if (INT_MIN <=? z) && (z <=? INT_MAX) then Ret z else Undef.
Definition int_num : num Z :=
  mkNum Z 0 Z.ltb (fun a b => int_of (a + b)) (fun a b => int_of (a - b)) (fun a b => int_of (a * b))
    (fun a n => if n =? 0 then Undef else int_of (Z.quot a n)) double.
Definition uint64_num : num Z :=
  mkNum Z 0 Z.ltb (fun a b => Ret (u64 (a + b))) (fun a b => Ret (u64 (a - b)))
    (fun a b => Ret (u64 (a * b))) (fun a n => if n =? 0 then Undef else Ret (a / n)) double.
Definition double_num : num spec_float :=
  mkNum spec_float fzero fltb (fun a b => Ret (fadd a b)) (fun a b => Ret (fsub a b))
    (fun a b => Ret (fmul a b)) (fun a n => Ret (fdiv a (double n))) (fun a => a).

Definition BOOTSTRAP_COUNT : nat := 200.

(** ** The functions *)
Section Stats.
Context {A : Type} (N : num A).
Implicit Types (values : list A).

Definition size_of values : Z := Z.of_nat (length values).

Definition compare (a b : A) : Z := if nlt N a b then -1 else if nlt N b a then 1 else 0.
Definition not_after (a b : A) : Prop := compare a b <= 0.
#[export] Instance not_after_dec : RelDecision not_after.
Proof. intros a b. unfold not_after. apply Z_le_dec. Defined.
Definition qsort values : list A := merge_sort not_after values.

Definition median values : cres (A * list A) :=
  let values := qsort values in
  let size := size_of values in
  if size =? 0 then Ret (nzero N, values)
  else if negb (Z.rem size 2 =? 0) then
    v ← deref (aget values (Z.quot size 2)); Ret (v, values)
  else
    a ← deref (aget values (Z.quot size 2 - 1));
    b ← deref (aget values (Z.quot size 2));
    s ← nadd N a b;
    m ← ndiv N s 2;
    Ret (m, values).

Fixpoint sum_loop (sum : A) values : cres A :=
  match values with [] => Ret sum | v :: values => s ← nadd N sum v; sum_loop s values end.
Definition mean values : cres A :=
  sum ← sum_loop (nzero N) values; ndiv N sum (size_of values).

Definition min values : cres A :=
  match values with
  | [] => Undef
  | v :: values => Ret (fold_left (fun m v => if nlt N v m then v else m) values v)
  end.
Definition max values : cres A :=
  match values with
  | [] => Undef
  | v :: values => Ret (fold_left (fun m v => if nlt N m v then v else m) values v)
  end.

Fixpoint variance_loop (mean : A) (sum : spec_float) values : cres spec_float :=
  match values with
  | [] => Ret sum
  | v :: values =>
      d ← nsub N v mean;
      e ← nsub N v mean;
      p ← nmul N d e;
      variance_loop mean (fadd sum (ndouble N p)) values
  end.
Definition variance values : cres spec_float :=
  m ← mean values;
  sum ← variance_loop m fzero values;
  Ret (fdiv sum (double (size_of values - 1))).

Fixpoint power_loop (k : nat) (m diff : spec_float) : spec_float :=
  match k with O => m | S k => power_loop k (fmul m diff) diff end.
Fixpoint moment_loop (moment : Z) (mean : A) (sum : spec_float) values : cres spec_float :=
  match values with
  | [] => Ret sum
  | v :: values =>
      d ← nsub N v mean;
      let diff := ndouble N d in
      moment_loop moment mean (fadd sum (power_loop (Z.to_nat (moment - 1)) diff diff)) values
  end.
Definition moment (moment : Z) values : cres spec_float :=
  m ← mean values;
  sum ← moment_loop moment m fzero values;
  Ret (fdiv sum (double (size_of values))).

Definition std_err values : cres spec_float := v ← variance values; Ret (fsqrt v).
Definition skew values : cres spec_float :=
  sigma ← std_err values;
  moment3 ← moment 3 values;
  Ret (fdiv moment3 (fmul (fmul sigma sigma) sigma)).
Definition kurtosis values : cres spec_float :=
  variance ← variance values;
  moment4 ← moment 4 values;
  Ret (fsub (fdiv moment4 (fmul variance variance)) (double 3)).

(** [rand] is the generator of the C library. *)
Context {R : Type} (rand : R -> Z * R).

Fixpoint draw_loop (j : nat) values (r : R) : cres (list A * R) :=
  match j with
  | O => Ret ([], r)
  | S j =>
      let '(k, r) := rand r in
      v ← deref (aget values (Z.rem k (size_of values)));
      '(samples, r) ← draw_loop j values r;
      Ret (v :: samples, r)
  end.
(** The statistic of each sample, and their sum. *)
Fixpoint bootstrap_loop (i : nat) values (f : list A -> cres A) (s_sum : spec_float) (r : R) :
    cres (list spec_float * spec_float * R) :=
  match i with
  | O => Ret ([], s_sum, r)
  | S i =>
      '(samples, r) ← draw_loop (length values) values r;
      v ← f samples;
      let si := ndouble N v in
      '(s, s_sum, r) ← bootstrap_loop i values f (fadd s_sum si) r;
      Ret (si :: s, s_sum, r)
  end.
Definition bootstrap_stderr values (f : list A -> cres A) (r : R) : cres (spec_float * R) :=
  '(s, s_sum, r) ← bootstrap_loop BOOTSTRAP_COUNT values f fzero r;
  let s_sum := fdiv s_sum (double (Z.of_nat BOOTSTRAP_COUNT)) in
  let sum := fold_left (fun sum si => fadd sum (fmul (fsub si s_sum) (fsub si s_sum))) s fzero in
  Ret (fsqrt (fdiv sum (double (Z.of_nat BOOTSTRAP_COUNT - 1))), r).
End Stats.

(** ** At the three types *)
Definition int_compare := compare int_num.
Definition uint64_compare := compare uint64_num.
Definition double_compare := compare double_num.
Definition int_median := median int_num.
Definition uint64_median := median uint64_num.
Definition double_median := median double_num.
Definition int_mean := mean int_num.
Definition uint64_mean := mean uint64_num.
Definition double_mean := mean double_num.
Definition int_min := min int_num.
Definition uint64_min := min uint64_num.
Definition double_min := min double_num.
Definition int_max := max int_num.
Definition uint64_max := max uint64_num.
Definition double_max := max double_num.
Definition int_variance := variance int_num.
Definition uint64_variance := variance uint64_num.
Definition double_variance := variance double_num.
Definition int_moment := moment int_num.
Definition uint64_moment := moment uint64_num.
Definition double_moment := moment double_num.
Definition int_stderr := std_err int_num.
Definition uint64_stderr := std_err uint64_num.
Definition double_stderr := std_err double_num.
Definition int_skew := skew int_num.
Definition uint64_skew := skew uint64_num.
Definition double_skew := skew double_num.
Definition int_kurtosis := kurtosis int_num.
Definition uint64_kurtosis := kurtosis uint64_num.
Definition double_kurtosis := kurtosis double_num.
Definition int_bootstrap_stderr {R} (rand : R -> Z * R) := bootstrap_stderr int_num rand.
Definition uint64_bootstrap_stderr {R} (rand : R -> Z * R) := bootstrap_stderr uint64_num rand.
Definition double_bootstrap_stderr {R} (rand : R -> Z * R) := bootstrap_stderr double_num rand.

(** ** Linear regression *)
(** A point of the regression: [x[i]], [y[i]] and [sig[i]], if [sig] is given. *)
Definition point : Type := spec_float * spec_float * option spec_float.
Definition points (x y : list spec_float) (sig : option (list spec_float)) : list point :=
  zip (zip x y) (match sig with Some sig => map Some sig | None => map (fun _ => None) x end).
(** [sig ? sig[i] : 1.0] and [sig ? sig[i] * sig[i] : 1.0] *)
Definition sigma (sg : option spec_float) : spec_float :=
  match sg with Some v => v | None => double 1 end.
Definition sigma2 (sg : option spec_float) : spec_float :=
  match sg with Some v => fmul v v | None => double 1 end.

Definition weigh (acc : spec_float * spec_float * spec_float) (p : point) :=
  let '(S_, Sx, Sy) := acc in
  let '(x, y, sg) := p in
  let weight := fdiv (double 1) (sigma2 sg) in
  (fadd S_ weight, fadd Sx (fmul weight x), fadd Sy (fmul weight y)).
Definition slope (Sx_S : spec_float) (acc : spec_float * spec_float) (p : point) :=
  let '(Stt, b) := acc in
  let '(x, y, sg) := p in
  let t_i := fdiv (fsub x Sx_S) (sigma sg) in
  (fadd Stt (fmul t_i t_i), fadd b (fdiv (fmul t_i y) (sigma sg))).
Definition misfit (a b : spec_float) (chi2 : spec_float) (p : point) : spec_float :=
  let '(x, y, sg) := p in
  let merit := fdiv (fsub y (fadd a (fmul b x))) (sigma sg) in
  fadd chi2 (fmul merit merit).

(** [*a, *b, *sig_a, *sig_b, *chi2] *)
Definition regression (x y : list spec_float) (sig : option (list spec_float)) :
    spec_float * spec_float * spec_float * spec_float * spec_float :=
  let l := points x y sig in
  let '(S_, Sx, Sy) := fold_left weigh l (fzero, fzero, fzero) in
  let '(Stt, b) := fold_left (slope (fdiv Sx S_)) l (fzero, fzero) in
  let b := fdiv b Stt in
  let a := fdiv (fsub Sy (fmul b Sx)) S_ in
  let sig_a := fsqrt (fdiv (fadd (double 1) (fdiv (fmul Sx Sx) (fmul S_ Stt))) S_) in
  let sig_b := fsqrt (fdiv (double 1) Stt) in
  let chi2 := fold_left (misfit a b) l fzero in
  match sig with
  | Some _ => (a, b, sig_a, sig_b, chi2)
  | None =>
      let f := fsqrt (fdiv chi2 (double (Z.of_nat (length x) - 2))) in
      (a, b, fmul sig_a f, fmul sig_b f, chi2)
  end.

Example regression_line :
  let '(a, b, _, _, chi2) := regression (map double [0; 1; 2; 3]) (map double [3; 5; 7; 9]) None in
  a = double 3 /\ b = double 2 /\ chi2 = fzero.
Proof. vm_compute. done. Qed.

Example median_4 : int_median [7; 1; 5; 3] = Ret (4, [1; 3; 5; 7]).
Proof. vm_compute. reflexivity. Qed.
Example variance_ints : int_variance [7; 1; 5; 3] = Ret (fdiv (double 20) (double 3)).
Proof. vm_compute. reflexivity. Qed.

(** ** Totals and means *)
Definition total (values : list Z) : Z := foldr Z.add 0 values.
Definition defined {A} (r : cres A) : Prop := exists a, r = Ret a.
(** Measurements of at most [b]. *)
Definition within (b : Z) (values : list Z) : Prop := Forall (fun v => Z.abs v <= b) values.

Lemma int_of_ok z : is_int z -> int_of z = Ret z.
Proof.
  unfold is_int, int_of. intros H. destruct (Z.leb_spec INT_MIN z), (Z.leb_spec z INT_MAX); (lia || done).
Qed.

Lemma int_of_inv z w : int_of z = Ret w -> w = z.
Proof. unfold int_of. destruct (_ && _); [by intros [= ->] | done]. Qed.

Lemma total_bound b values : within b values -> Z.abs (total values) <= b * size_of values.
Proof.
  unfold size_of. induction 1 as [| v values Hv H IH]; cbn [total foldr length]; [lia |].
  fold (total values). rewrite Nat2Z.inj_succ. lia.
Qed.

Lemma int_sum b s values :
  within b values -> 0 <= b -> Z.abs s + b * size_of values <= INT_MAX ->
  sum_loop int_num s values = Ret (s + total values).
Proof.
  unfold size_of. intros H Hb. revert s. induction H as [| v values Hv H IH]; intros s Hs; cbn [sum_loop total foldr].
  - by rewrite Z.add_0_r.
  - cbn [nadd int_num length] in *. rewrite Nat2Z.inj_succ in Hs.
    rewrite int_of_ok by (unfold is_int, INT_MIN, INT_MAX in *; lia). rewrite bind_Ret, IH by lia.
    f_equal. fold (total values). lia.
Qed.

Lemma quot_bound a n b : 0 < n -> Z.abs a <= b * n -> Z.abs (Z.quot a n) <= b.
Proof.
  intros Hn Ha. rewrite <- Z.quot_abs by lia. rewrite (Z.abs_eq n) by lia.
  rewrite Z.quot_div_nonneg by lia. apply Z.div_le_upper_bound; lia.
Qed.

Lemma int_mean_ok b values :
  within b values -> 0 <= b -> values <> [] -> b * size_of values <= INT_MAX ->
  int_mean values = Ret (Z.quot (total values) (size_of values)) /\
  Z.abs (Z.quot (total values) (size_of values)) <= b.
Proof.
  intros H Hb Hn Hs. pose proof (total_bound b values H) as Ht.
  assert (Hl : 0 < size_of values) by (unfold size_of; destruct values; [done | cbn [length]; lia]).
  pose proof (quot_bound (total values) (size_of values) b Hl Ht) as Hq.
  split; [| done]. unfold int_mean, mean. cbn [nzero int_num]. rewrite (int_sum b) by (done || (cbn; lia)).
  rewrite bind_Ret. cbn [ndiv int_num]. destruct (Z.eqb_spec (size_of values) 0); [lia |].
  rewrite Z.add_0_l. apply int_of_ok. assert (b <= INT_MAX) by nia. unfold is_int, INT_MIN, INT_MAX in *. lia.
Qed.

Lemma uint64_sum s values :
  Forall (fun v => 0 <= v) values -> 0 <= s -> s + total values < 2 ^ 64 ->
  sum_loop uint64_num s values = Ret (s + total values).
Proof.
  intros H. revert s. induction H as [| v values Hv H IH]; intros s Hs Ht; cbn [sum_loop total foldr] in *.
  - by rewrite Z.add_0_r.
  - fold (total values) in *. assert (0 <= total values) by (clear - H; induction H; cbn [total foldr]; [lia | fold (total l); lia]).
    cbn [nadd uint64_num]. rewrite bind_Ret. unfold u64. rewrite Z.mod_small by lia.
    rewrite IH by lia. f_equal. lia.
Qed.

(** ** The wrapped differences square to the right value *)
Lemma wrapped_square d : Z.abs d < 2 ^ 32 -> u64 (u64 d * u64 d) = d * d.
Proof.
  intros H. unfold wrap_u. rewrite <- Zmult_mod. apply Z.mod_small. split; [nia |].
  replace (2 ^ 64) with (2 ^ 32 * 2 ^ 32) by reflexivity. nia.
Qed.

Lemma variance_loops_agree b m sum values :
  within b values -> Z.abs m <= b -> 0 <= b -> 4 * b * b <= INT_MAX ->
  variance_loop int_num m sum values = variance_loop uint64_num m sum values.
Proof.
  intros H Hm Hb Hbb. revert sum. induction H as [| v values Hv H IH]; intros sum; [done |]. cbn [variance_loop].
  cbn [nsub nmul ndouble int_num uint64_num]. assert (2 * b <= INT_MAX) by nia.
  rewrite int_of_ok by (unfold is_int, INT_MIN, INT_MAX in *; lia). rewrite !bind_Ret.
  rewrite int_of_ok by (unfold is_int, INT_MIN, INT_MAX in *; nia). rewrite bind_Ret.
  rewrite wrapped_square; [apply IH |]. unfold INT_MAX in *. lia.
Qed.

(** ** Everything is defined on measurements that are not too large *)
Definition all_defined {A R} (N : num A) (rand : R -> Z * R) (values : list A) : Prop :=
  defined (median N values) /\ defined (mean N values) /\ defined (min N values) /\ defined (max N values) /\
  defined (variance N values) /\ (forall k, defined (moment N k values)) /\ defined (std_err N values) /\
  defined (skew N values) /\ defined (kurtosis N values) /\
  (forall f r, (forall l, length l = length values -> (forall v, v ∈ l -> v ∈ values) -> defined (f l)) ->
     defined (bootstrap_stderr N rand values f r)).

Section Defined.
Context {A R : Type} (N : num A) (rand : R -> Z * R).
Hypothesis Hrand : forall r, 0 <= (rand r).1.
Implicit Types (values : list A).

Lemma qsort_perm values : qsort N values ≡ₚ values.
Proof. apply merge_sort_Permutation. Qed.

Lemma draw_ok j values r : values <> [] ->
  exists l r', draw_loop rand j values r = Ret (l, r') /\ length l = j /\ forall v, v ∈ l -> v ∈ values.
Proof.
  intros Hn. revert r. induction j as [| j IH]; intros r; cbn [draw_loop].
  - exists [], r. split; [done |]. split; [done |]. by intros v ?%elem_of_nil.
  - pose proof (Hrand r) as Hk. destruct (rand r) as [k r1]. cbn [fst] in Hk.
    assert (Hl : 0 < size_of values) by (unfold size_of; destruct values; [done | cbn [length]; lia]).
    destruct (aget_Some values (Z.rem k (size_of values))) as [v Ev].
    { pose proof (Z.rem_bound_pos k (size_of values) ltac:(lia) ltac:(lia)). unfold size_of in *. lia. }
    rewrite Ev. cbn [deref]. rewrite bind_Ret.
    destruct (IH r1) as (l & r' & -> & Hlen & Hin). rewrite bind_Ret. exists (v :: l), r'.
    split; [done |]. split; [cbn; lia |]. intros w [-> | Hw]%elem_of_cons; [| by apply Hin].
    unfold aget in Ev. destruct (0 <=? _); [| done]. by apply list_elem_of_lookup_2 in Ev.
Qed.

Lemma bootstrap_loop_ok i values f s r : values <> [] ->
  (forall l, length l = length values -> (forall v, v ∈ l -> v ∈ values) -> defined (f l)) ->
  defined (bootstrap_loop N rand i values f s r).
Proof.
  intros Hn Hf. revert s r. induction i as [| i IH]; intros s r; cbn [bootstrap_loop]; [by eexists |].
  destruct (draw_ok (length values) values r Hn) as (l & r1 & -> & Hlen & Hin). rewrite bind_Ret.
  destruct (Hf l Hlen Hin) as [v ->]. rewrite bind_Ret.
  destruct (IH (fadd s (ndouble N v)) r1) as [[[sl s2] r2] ->]. rewrite bind_Ret. by eexists.
Qed.

(** What the arithmetic of the element type has to give. *)
Lemma all_defined_from values m :
  values <> [] -> mean N values = Ret m ->
  (forall v w, v ∈ values -> w ∈ values -> exists s, nadd N v w = Ret s /\ defined (ndiv N s 2)) ->
  (forall v, v ∈ values -> exists d, nsub N v m = Ret d /\ defined (nmul N d d)) ->
  all_defined N rand values.
Proof.
  intros Hn Hm Hadd Hsub.
  assert (Hvar : forall sum l, (forall v, v ∈ l -> v ∈ values) -> defined (variance_loop N m sum l)).
  { intros sum l. revert sum. induction l as [| v l IH]; intros sum Hl; cbn [variance_loop]; [by eexists |].
    destruct (Hsub v) as (d & Ed & p & Ep); [apply Hl, list_elem_of_here |].
    rewrite !Ed, !bind_Ret, Ep, bind_Ret. apply IH. intros w Hw. by apply Hl, list_elem_of_further. }
  assert (Hmom : forall k sum l, (forall v, v ∈ l -> v ∈ values) -> defined (moment_loop N k m sum l)).
  { intros k sum l. revert sum. induction l as [| v l IH]; intros sum Hl; cbn [moment_loop]; [by eexists |].
    destruct (Hsub v) as (d & Ed & _); [apply Hl, list_elem_of_here |].
    rewrite Ed, bind_Ret. apply IH. intros w Hw. by apply Hl, list_elem_of_further. }
  assert (Ev : defined (variance N values)).
  { unfold variance. rewrite Hm, bind_Ret. destruct (Hvar fzero values) as [x ->]; [done |]. by eexists. }
  assert (Em : forall k, defined (moment N k values)).
  { intros k. unfold moment. rewrite Hm, bind_Ret. destruct (Hmom k fzero values) as [x ->]; [done |]. by eexists. }
  assert (Es : defined (std_err N values)).
  { unfold std_err. destruct Ev as [x ->]. by eexists. }
  split; [| split; [by exists m |]].
  { unfold median. pose proof (qsort_perm values) as Hp. assert (Hlen : length (qsort N values) = length values) by (by rewrite Hp).
    assert (Hsz : 0 < size_of (qsort N values)) by (unfold size_of; rewrite Hlen; destruct values; [done | cbn [length]; lia]).
    destruct (Z.eqb_spec (size_of (qsort N values)) 0) as [| _]; [lia |].
    assert (Hget : forall i, 0 <= i < size_of (qsort N values) -> exists v, aget (qsort N values) i = Some v /\ v ∈ values).
    { intros i Hi. destruct (aget_Some _ i Hi) as [v Hv]. exists v. split; [done |].
      unfold aget in Hv. destruct (0 <=? i); [| done]. apply list_elem_of_lookup_2 in Hv. by rewrite Hp in Hv. }
    set (n := size_of (qsort N values)) in *. rewrite Z.quot_div_nonneg, Z.rem_mod_nonneg by lia.
    destruct (Z.eqb_spec (n mod 2) 0) as [E2 | _]; cbn [negb].
    - destruct (Hget (n / 2 - 1)) as (a & -> & Ha); [zdiv |]. destruct (Hget (n / 2)) as (b & -> & Hb); [zdiv |].
      cbn [deref]. rewrite !bind_Ret. destruct (Hadd a b Ha Hb) as (s & -> & m2 & E). rewrite bind_Ret, E. by eexists.
    - destruct (Hget (n / 2)) as (a & -> & Ha); [zdiv |]. by eexists. }
  split; [unfold min; destruct values; [done | by eexists] |].
  split; [unfold max; destruct values; [done | by eexists] |].
  split; [done |]. split; [done |]. split; [done |].
  split; [unfold skew; destruct Es as [x ->]; rewrite bind_Ret; destruct (Em 3) as [y ->]; by eexists |].
  split; [unfold kurtosis; destruct Ev as [x ->]; rewrite bind_Ret; destruct (Em 4) as [y ->]; by eexists |].
  intros f r Hf. unfold bootstrap_stderr.
  destruct (bootstrap_loop_ok BOOTSTRAP_COUNT values f fzero r Hn Hf) as [[[sl s2] r2] ->]. rewrite bind_Ret. by eexists.
Qed.
End Defined.

(** ** Medians *)
Lemma not_after_int v w : not_after int_num v w <-> v <= w.
Proof.
  unfold not_after, compare. cbn [nlt int_num]. destruct (Z.ltb_spec v w), (Z.ltb_spec w v); lia.
Qed.

Lemma qsort_sorted values : StronglySorted Z.le (qsort int_num values).
Proof.
  assert (H : StronglySorted (not_after int_num) (qsort int_num values)).
  { assert (Transitive (not_after int_num)) by (intros x y z; rewrite !not_after_int; lia).
    assert (Total (not_after int_num)) by (intros x y; rewrite !not_after_int; lia).
    by apply (StronglySorted_merge_sort (not_after int_num)). }
  induction H as [| v l H IH F]; constructor; [done |].
  eapply Forall_impl; [exact F |]. intros w. apply not_after_int.
Qed.

Definition count (P : Z -> bool) (l : list Z) : Z := Z.of_nat (length (List.filter P l)).

Lemma count_perm P l l' : l ≡ₚ l' -> count P l = count P l'.
Proof.
  unfold count. induction 1 as [| x l l' H IH | x y l | l l' l'' H IH H' IH']; cbn [List.filter]; [done | | | lia].
  - destruct (P x); cbn [length]; lia.
  - by destruct (P x), (P y).
Qed.

Lemma count_app P l l' : count P (l ++ l') = count P l + count P l'.
Proof. unfold count. rewrite List.filter_app, length_app. lia. Qed.
Lemma count_le P l : 0 <= count P l <= Z.of_nat (length l).
Proof. unfold count. pose proof (List.filter_length_le P l). lia. Qed.
Lemma count_none P l : Forall (fun v => P v = false) l -> count P l = 0.
Proof. unfold count. induction 1 as [| v l Hv H IH]; cbn [List.filter]; [done |]. by rewrite Hv. Qed.

(** What is in front of and behind an element of a sorted list. *)
Lemma sorted_counts l i v :
  StronglySorted Z.le l -> aget l i = Some v ->
  (forall m, m <= v -> count (fun w => w <? m) l <= i) /\
  (forall m, v <= m -> count (fun w => m <? w) l <= Z.of_nat (length l) - 1 - i).
Proof.
  intros H Hv. pose proof (aget_range _ _ _ Hv) as Hi. unfold aget in Hv.
  destruct (Z.leb_spec 0 i); [| done]. apply list_elem_of_split_length in Hv as (l1 & l2 & -> & Hlen).
  apply StronglySorted_app in H as (Hlt & _ & H2).
  apply StronglySorted_inv in H2 as [_ H2]. rewrite Forall_forall in H2. split; intros m Hm.
  - rewrite count_app. pose proof (count_le (fun w => w <? m) l1) as Hc.
    rewrite (count_none (fun w => w <? m) (v :: l2)); [lia |]. constructor; [lia |].
    apply Forall_forall. intros w Hw. specialize (H2 w Hw). lia.
  - change (v :: l2) with ([v] ++ l2). rewrite app_assoc, count_app.
    pose proof (count_le (fun w => m <? w) l2) as Hc. rewrite !length_app. cbn [length].
    rewrite (count_none (fun w => m <? w) (l1 ++ [v])); [lia |]. apply Forall_app. split.
    + apply Forall_forall. intros w Hw. specialize (Hlt w v Hw (list_elem_of_here _ _)). lia.
    + constructor; [lia | done].
Qed.

Lemma sorted_get l i j v w :
  StronglySorted Z.le l -> aget l i = Some v -> aget l j = Some w -> i <= j -> v <= w.
Proof.
  intros H Hv Hw Hij. destruct (Z.eq_dec i j) as [-> |]; [rewrite Hv in Hw; injection Hw as ->; lia |].
  pose proof (aget_range _ _ _ Hv). unfold aget in *. destruct (Z.leb_spec 0 i), (Z.leb_spec 0 j); try done.
  apply list_elem_of_split_length in Hv as (l1 & l2 & -> & Hlen).
  apply StronglySorted_app_1_r, StronglySorted_inv in H as [_ H]. rewrite Forall_forall in H. apply H.
  rewrite lookup_app_r in Hw by lia. replace (Z.to_nat j - length l1)%nat with (S (Z.to_nat j - length l1 - 1)) in Hw by lia.
  cbn in Hw. by apply list_elem_of_lookup_2 in Hw.
Qed.

Lemma quot_2_between a b : a <= b -> a <= Z.quot (a + b) 2 <= b.
Proof. intros H. pose proof (Z.quot_rem' (a + b) 2). pose proof (Z.rem_bound_abs (a + b) 2 ltac:(lia)). lia. Qed.

(** ** What the statistics are *)
(** The sum of the [k]-th powers of the differences from [m], and of their amounts. *)
Definition deviations (k m : Z) (values : list Z) : Z := foldr (fun v t => (v - m) ^ k + t) 0 values.
Definition spread (k m : Z) (values : list Z) : Z := foldr (fun v t => Z.abs (v - m) ^ k + t) 0 values.
Definition int_average (values : list Z) : Z := Z.quot (total values) (size_of values).

Lemma spread_cons k m v values : spread k m (v :: values) = Z.abs (v - m) ^ k + spread k m values.
Proof. done. Qed.
Lemma deviations_cons k m v values : deviations k m (v :: values) = (v - m) ^ k + deviations k m values.
Proof. done. Qed.

Lemma spread_nonneg k m values : 0 <= spread k m values.
Proof.
  induction values as [| v values IH]; [done |]. rewrite spread_cons.
  pose proof (Z.pow_nonneg (Z.abs (v - m)) k). lia.
Qed.

Lemma spread_elem k m values v : v ∈ values -> Z.abs (v - m) ^ k <= spread k m values.
Proof.
  induction 1 as [v l | v w l Hv IH]; rewrite spread_cons.
  - pose proof (spread_nonneg k m l). lia.
  - pose proof (Z.pow_nonneg (Z.abs (w - m)) k). lia.
Qed.

Lemma deviations_spread k m values : Z.abs (deviations k m values) <= spread k m values.
Proof.
  induction values as [| v values IH]; [done |]. rewrite spread_cons, deviations_cons, <- Z.abs_pow. lia.
Qed.

Lemma deviations_square m values : deviations 2 m values = spread 2 m values.
Proof.
  induction values as [| v values IH]; [done |]. rewrite spread_cons, deviations_cons, IH.
  rewrite <- Z.abs_pow, (Z.abs_eq ((v - m) ^ 2)) by (apply Z.pow_even_nonneg; by exists 1). done.
Qed.

(** The sum of the squares, when the arithmetic of the type finds each of them. *)
Lemma variance_loop_exact (N : num Z) m s values :
  ndouble N = double ->
  (forall v, v ∈ values -> exists d, nsub N v m = Ret d /\ nmul N d d = Ret ((v - m) ^ 2)) ->
  0 <= s -> s + spread 2 m values < 2 ^ 53 ->
  variance_loop N m (double s) values = Ret (double (s + spread 2 m values)).
Proof.
  intros HN. revert s. induction values as [| v values IH]; intros s H Hs Hb; cbn [variance_loop].
  - cbn. by rewrite Z.add_0_r.
  - rewrite spread_cons in Hb |- *. destruct (H v) as (d & Ed & Ep); [apply elem_of_cons; by left |].
    rewrite Ed, !bind_Ret, Ep, bind_Ret, HN. rewrite <- Z.abs_pow in Hb |- *.
    assert (Hp : 0 <= (v - m) ^ 2) by (apply Z.pow_even_nonneg; by exists 1).
    rewrite (Z.abs_eq _ Hp) in Hb |- *. pose proof (spread_nonneg 2 m values).
    rewrite fadd_exact by (unfold small; lia). rewrite IH; [by rewrite Z.add_assoc | | lia | lia].
    intros w Hw. apply H, elem_of_cons. by right.
Qed.

Lemma variance_exact (N : num Z) m values :
  ndouble N = double -> mean N values = Ret m ->
  (forall v, v ∈ values -> exists d, nsub N v m = Ret d /\ nmul N d d = Ret ((v - m) ^ 2)) ->
  spread 2 m values < 2 ^ 53 ->
  variance N values = Ret (fdiv (double (spread 2 m values)) (double (size_of values - 1))).
Proof.
  intros HN Hm Hd Hb. unfold variance. rewrite Hm, bind_Ret.
  change fzero with (double 0). rewrite (variance_loop_exact N m 0) by (done || lia). by rewrite bind_Ret.
Qed.

(** Powers of a difference. *)
Lemma power_loop_exact n j d :
  1 <= j -> Z.abs d ^ (j + Z.of_nat n) < 2 ^ 53 ->
  power_loop n (double (d ^ j)) (double d) = double (d ^ (j + Z.of_nat n)).
Proof.
  revert j. induction n as [| n IH]; intros j Hj Hb; cbn [power_loop]; [by rewrite Z.add_0_r |].
  replace (j + Z.of_nat (S n)) with (j + 1 + Z.of_nat n) in * by lia.
  destruct (Z.eq_dec d 0) as [-> | Hd].
  - pose proof (IH (j + 1) ltac:(lia) Hb) as E.
    rewrite (Z.pow_0_l (j + 1)) in E by lia. rewrite (Z.pow_0_l j) by lia. exact E.
  - assert (Hm : forall i, 0 <= i <= j + 1 + Z.of_nat n -> Z.abs (d ^ i) < 2 ^ 53).
    { intros i Hi. rewrite Z.abs_pow. pose proof (Z.pow_le_mono_r (Z.abs d) i (j + 1 + Z.of_nat n) ltac:(lia) ltac:(lia)). lia. }
    pose proof (Hm 1 ltac:(lia)) as H1. rewrite Z.pow_1_r in H1.
    assert (Ej : d ^ j * d = d ^ (j + 1)) by (rewrite Z.pow_add_r, Z.pow_1_r by lia; done).
    rewrite fmul_exact; rewrite ?Ej.
    + apply IH; [lia | done].
    + apply (Hm j). lia.
    + exact H1.
    + apply (Hm (j + 1)). lia.
    + left. apply Z.pow_nonzero; lia.
Qed.

Lemma moment_loop_exact k m s values :
  1 <= k -> (forall v, v ∈ values -> is_int (v - m)) -> Z.abs s + spread k m values < 2 ^ 53 ->
  moment_loop int_num k m (double s) values = Ret (double (s + deviations k m values)).
Proof.
  intros Hk. revert s. induction values as [| v values IH]; intros s H Hb; cbn [moment_loop].
  - cbn. by rewrite Z.add_0_r.
  - rewrite spread_cons in Hb. rewrite deviations_cons. pose proof (spread_nonneg k m values) as Hs.
    cbn [nsub ndouble int_num]. rewrite int_of_ok by (apply H, elem_of_cons; by left). rewrite bind_Ret.
    rewrite <- (Z.pow_1_r (v - m)) at 1. rewrite power_loop_exact; [| lia | rewrite Z2Nat.id by lia; replace (1 + (k - 1)) with k by lia; lia].
    rewrite Z2Nat.id by lia. replace (1 + (k - 1)) with k by lia. rewrite <- Z.abs_pow in Hb.
    rewrite fadd_exact by (unfold small; lia). rewrite IH; [by rewrite Z.add_assoc | | lia].
    intros w Hw. apply H, elem_of_cons. by right.
Qed.

(** The extremes. *)
Lemma fold_least (better : Z -> Z -> bool) (le : Z -> Z -> Prop) values v :
  (forall x y, better x y = true -> le x y) -> (forall x y, better x y = false -> le y x) ->
  (forall x, le x x) -> (forall x y z, le x y -> le y z -> le x z) ->
  let m := fold_left (fun m w => if better w m then w else m) values v in
  m ∈ v :: values /\ Forall (le m) (v :: values).
Proof.
  intros H1 H2 Hr Ht. cbv zeta. revert v. induction values as [| w values IH]; intros v; cbn [fold_left].
  - split; [apply elem_of_cons; by left | by repeat constructor].
  - destruct (IH (if better w v then w else v)) as [Hin Hall]. apply Forall_cons in Hall as [Hx Hall].
    destruct (better w v) eqn:E; split.
    + apply elem_of_cons. by right.
    + constructor; [apply (Ht _ w); auto | by constructor].
    + rewrite !elem_of_cons in *. tauto.
    + constructor; [done |]. constructor; [apply (Ht _ v); auto | done].
Qed.

Lemma min_least (N : num Z) values :
  nlt N = Z.ltb -> values <> [] -> exists v, min N values = Ret v /\ v ∈ values /\ Forall (fun w => v <= w) values.
Proof.
  intros HN Hn. destruct values as [| v values]; [done |]. unfold min. rewrite HN. eexists. split; [reflexivity |].
  apply (fold_least Z.ltb Z.le); intros *; lia.
Qed.

Lemma max_greatest (N : num Z) values :
  nlt N = Z.ltb -> values <> [] -> exists v, max N values = Ret v /\ v ∈ values /\ Forall (fun w => w <= v) values.
Proof.
  intros HN Hn. destruct values as [| v values]; [done |]. unfold max. rewrite HN. eexists. split; [reflexivity |].
  apply (fold_least (fun w m => m <? w) (fun m w => w <= m)); intros *; lia.
Qed.

(** What is in the middle of a sorted array: an element, or two. *)
Definition middle (l : list Z) (x y : Z) : Prop :=
  if Z.odd (size_of l) then aget l (size_of l / 2) = Some x /\ y = x
  else aget l (size_of l / 2 - 1) = Some x /\ aget l (size_of l / 2) = Some y.

(** [median], from the sorted array that [qsort] makes. *)
Lemma median_middle {A} (N : num A) (f : Z -> A) (values : list A) (l : list Z) :
  l <> [] -> qsort N values = map f l ->
  exists x y, middle l x y /\ x ∈ l /\ y ∈ l /\
    median N values = if Z.odd (size_of l) then Ret (f x, map f l)
                      else s ← nadd N (f x) (f y); m ← ndiv N s 2; Ret (m, map f l).
Proof.
  intros Hn E. unfold median. rewrite E.
  assert (Hsz : size_of (map f l) = size_of l) by (unfold size_of; by rewrite length_map). rewrite Hsz.
  assert (Hpos : 0 < size_of l) by (unfold size_of; destruct l; [done | cbn [length]; lia]).
  destruct (Z.eqb_spec (size_of l) 0) as [| _]; [lia |].
  rewrite Z.quot_div_nonneg, Z.rem_mod_nonneg by lia.
  assert (Hget : forall i, 0 <= i < size_of l -> exists x, aget l i = Some x /\ x ∈ l /\ aget (map f l) i = Some (f x)).
  { intros i Hi. destruct (aget_Some l i Hi) as [x Hx]. exists x. split; [done |]. unfold aget in *.
    destruct (0 <=? i); [| done]. split; [by apply list_elem_of_lookup_2 in Hx |].
    change (map f l) with (f <$> l). by rewrite list_lookup_fmap, Hx. }
  unfold middle. destruct (Z.odd (size_of l)) eqn:Eo.
  - assert (E2 : size_of l mod 2 = 1) by (rewrite Zmod_odd, Eo; done). rewrite E2. cbn [Z.eqb negb].
    destruct (Hget (size_of l / 2)) as (x & Hx & Hin & Hf); [zdiv |]. exists x, x. rewrite Hf. cbn [deref].
    by rewrite bind_Ret.
  - assert (E2 : size_of l mod 2 = 0) by (rewrite Zmod_odd, Eo; done). rewrite E2. cbn [Z.eqb negb].
    destruct (Hget (size_of l / 2 - 1)) as (x & Hx & Hin & Hf); [zdiv |].
    destruct (Hget (size_of l / 2)) as (y & Hy & Hiny & Hfy); [zdiv |].
    exists x, y. rewrite Hf, Hfy. cbn [deref]. by rewrite !bind_Ret.
Qed.

(** ** Regression with unit deviations *)
Lemma points_unit x y :
  points x y (Some (map (fun _ => double 1) x)) =
  map (fun p => (p.1, Some (double 1))) (points x y None).
Proof.
  unfold points. revert y. induction x as [| v x IH]; intros y; [done |]. destruct y as [| w y]; [done |].
  cbn [zip zip_with map] in *. f_equal. apply (IH y).
Qed.

(** Without deviations, [regression] computes what it computes with deviations of one,
    and scales the errors. *)
Lemma regression_unit x y :
  let '(a, b, sig_a, sig_b, chi2) := regression x y (Some (map (fun _ => double 1) x)) in
  let f := fsqrt (fdiv chi2 (double (Z.of_nat (length x) - 2))) in
  regression x y None = (a, b, fmul sig_a f, fmul sig_b f, chi2).
Proof.
  assert (Hin : forall p, p ∈ points x y None -> p.2 = None).
  { unfold points. clear. revert y. induction x as [| v x IH]; intros [| w y] p; cbn [zip zip_with map];
      try (by intros ?%elem_of_nil). intros [-> | Hp]%elem_of_cons; [done | by apply (IH y)]. }
  assert (Hfold : forall A (f : A -> point -> A) acc, (forall a q, f a (q, Some (double 1)) = f a (q, None)) ->
            fold_left f (points x y (Some (map (fun _ => double 1) x))) acc = fold_left f (points x y None) acc).
  { intros A f acc Hf. rewrite points_unit. generalize dependent (points x y None). intros l. revert acc.
    induction l as [| [q o] l IH]; intros acc Hl; [done |]. cbn [map fold_left].
    specialize (Hl (q, o) (list_elem_of_here _ _)) as Ho. cbn in Ho. subst o. cbn [fst]. rewrite Hf. apply IH.
    intros p Hp. apply Hl. by apply list_elem_of_further. }
  unfold regression. rewrite (Hfold _ weigh) by (intros [[] ?] []; reflexivity).
  destruct (fold_left weigh (points x y None) _) as [[S_ Sx] Sy].
  rewrite (Hfold _ (slope (fdiv Sx S_))) by (intros [] []; reflexivity).
  destruct (fold_left (slope (fdiv Sx S_)) (points x y None) _) as [Stt b].
  by rewrite (Hfold _ (misfit _ _)) by (intros ? []; reflexivity).
Qed.

(** The arithmetic of a type, where it is that of the integers. *)
Lemma median_integers (N : num Z) values :
  nlt N = Z.ltb -> values <> [] ->
  (forall x y, x ∈ values -> y ∈ values -> nadd N x y = Ret (x + y) /\ ndiv N (x + y) 2 = Ret (Z.quot (x + y) 2)) ->
  exists l x y, l ≡ₚ values /\ StronglySorted Z.le l /\ middle l x y /\
    median N values = Ret (Z.quot (x + y) 2, l).
Proof.
  intros HN Hn Hadd. pose proof (qsort_perm int_num values) as Hp.
  assert (E : qsort N values = map (fun v => v) (qsort int_num values)).
  { rewrite map_id. unfold qsort.
    clear - HN. destruct N as [z lt add sub mul div dbl]. cbn in HN. subst lt. reflexivity. }
  destruct (median_middle N (fun v => v) values (qsort int_num values)) as (x & y & Hm & Hx & Hy & Em); [| exact E |].
  { intros E0. rewrite E0 in Hp. by apply Permutation_nil in Hp. }
  exists (qsort int_num values), x, y. split; [done |]. split; [apply qsort_sorted |]. split; [done |].
  rewrite Em, map_id. destruct (Hadd x y) as [E1 E2]; [by rewrite <- Hp | by rewrite <- Hp |].
  destruct (Z.odd _) eqn:Eo; [| by rewrite E1, bind_Ret, E2, bind_Ret].
  unfold middle in Hm. rewrite Eo in Hm. destruct Hm as [_ ->]. do 2 f_equal.
  replace (x + x) with (x * 2) by lia. symmetry. by apply Z.quot_mul.
Qed.

(** What the statistics of an array of integers have to be; a sum of squares below 2^53
    is a double. *)
Record integer_statistics (N : num Z) (values : list Z) : Prop := {
  is_median : exists l x y, l ≡ₚ values /\ StronglySorted Z.le l /\ middle l x y /\
    median N values = Ret (Z.quot (x + y) 2, l);
  is_mean : mean N values = Ret (int_average values);
  is_min : exists v, min N values = Ret v /\ v ∈ values /\ Forall (fun w => v <= w) values;
  is_max : exists v, max N values = Ret v /\ v ∈ values /\ Forall (fun w => w <= v) values;
  is_variance : spread 2 (int_average values) values < 2 ^ 53 ->
    variance N values = Ret (fdiv (double (spread 2 (int_average values) values)) (double (size_of values - 1)));
  is_std_err : spread 2 (int_average values) values < 2 ^ 53 ->
    std_err N values =
      Ret (fsqrt (fdiv (double (spread 2 (int_average values) values)) (double (size_of values - 1))))
}.

Lemma square_elem m values v :
  v ∈ values -> spread 2 m values < 2 ^ 53 -> Z.abs (v - m) < 2 ^ 32.
Proof.
  intros Hv Hs. pose proof (spread_elem 2 m values v Hv) as H. rewrite Z.pow_2_r in H.
  destruct (Z.lt_ge_cases (Z.abs (v - m)) (2 ^ 32)); [done | nia].
Qed.

(** What the statistics of an array of doubles that hold integers have to be. *)
Record double_statistics (values : list Z) : Prop := {
  ds_median : exists l x y, l ≡ₚ values /\ StronglySorted Z.le l /\ middle l x y /\
    double_median (map double values) =
      Ret (if Z.odd (size_of values) then double x else fdiv (double (x + y)) (double 2), map double l);
  ds_mean : double_mean (map double values) = Ret (fdiv (double (total values)) (double (size_of values)));
  ds_min : exists v, double_min (map double values) = Ret (double v) /\ v ∈ values /\ Forall (fun w => v <= w) values;
  ds_max : exists v, double_max (map double values) = Ret (double v) /\ v ∈ values /\ Forall (fun w => w <= v) values
}.

Definition amounts (values : list Z) : Z := foldr (fun v t => Z.abs v + t) 0 values.

Lemma amounts_elem v values : v ∈ values -> Z.abs v <= amounts values.
Proof.
  assert (H0 : forall l, 0 <= amounts l) by (intros l; unfold amounts; induction l; cbn; lia).
  unfold amounts in *. induction 1 as [v l | v w l Hv IH]; cbn [foldr]; [specialize (H0 l) |]; lia.
Qed.

Lemma amounts_perm l l' : l ≡ₚ l' -> amounts l = amounts l'.
Proof. unfold amounts. induction 1; cbn [foldr]; lia. Qed.

Lemma amounts_two l i j x y :
  aget l i = Some x -> aget l j = Some y -> i <> j -> Z.abs x + Z.abs y <= amounts l.
Proof.
  assert (H0 : forall l, 0 <= amounts l) by (intros k; unfold amounts; induction k; cbn; lia).
  intros Hx Hy Hij. unfold aget in *. destruct (Z.leb_spec 0 i), (Z.leb_spec 0 j); try done.
  assert (Hij' : Z.to_nat i <> Z.to_nat j) by lia. clear Hij. revert Hx Hy Hij'.
  generalize (Z.to_nat i) as a. generalize (Z.to_nat j) as b. clear i j H H1.
  induction l as [| v l IH]; intros b a Hx Hy Hab; [done |]. change (amounts (v :: l)) with (Z.abs v + amounts l).
  destruct a as [| a], b as [| b]; cbn in Hx, Hy.
  - done.
  - injection Hx as <-. pose proof (amounts_elem y l (list_elem_of_lookup_2 _ _ _ Hy)). lia.
  - injection Hy as <-. pose proof (amounts_elem x l (list_elem_of_lookup_2 _ _ _ Hx)). lia.
  - specialize (IH b a Hx Hy ltac:(lia)). lia.
Qed.

Lemma double_sum s values :
  Z.abs s + amounts values < 2 ^ 53 ->
  sum_loop double_num (double s) (map double values) = Ret (double (s + total values)).
Proof.
  revert s. induction values as [| v values IH]; intros s Hs; cbn [map sum_loop total foldr amounts] in *.
  - by rewrite Z.add_0_r.
  - fold (amounts values) in *. fold (total values).
    assert (0 <= amounts values) by (clear; unfold amounts; induction values; cbn; lia).
    cbn [nadd double_num]. rewrite bind_Ret, fadd_exact by (unfold small; lia).
    rewrite IH by lia. by rewrite Z.add_assoc.
Qed.

(** Choosing among doubles is choosing among the integers. *)
Lemma fold_doubles (f : spec_float -> spec_float -> bool) (g : Z -> Z -> bool) v values :
  (forall x y, small x -> small y -> f (double x) (double y) = g x y) ->
  small v -> Forall small values ->
  fold_left (fun m w => if f w m then w else m) (map double values) (double v) =
  double (fold_left (fun m w => if g w m then w else m) values v).
Proof.
  intros Hf Hv H. revert v Hv. induction H as [| w values Hw H IH]; intros v Hv; cbn [map fold_left]; [done |].
  rewrite Hf by done. destruct (g w v); by apply IH.
Qed.

Lemma compare_total x y : not_after double_num x y \/ not_after double_num y x.
Proof.
  unfold not_after, compare. cbn [nlt double_num]. destruct (fltb x y) eqn:E; [left; lia |].
  destruct (fltb y x); [right | left]; lia.
Qed.

Lemma qsort_doubles values :
  Forall small values ->
  exists l, qsort double_num (map double values) = map double l /\ l ≡ₚ values /\ StronglySorted Z.le l.
Proof.
  intros Hs. pose proof (qsort_perm double_num (map double values)) as Hp.
  symmetry in Hp. destruct (Permutation_map_inv _ _ (symmetry Hp)) as (l & El & Hl).
  exists l. split; [done |]. split; [by symmetry |]. rewrite Hl in Hs.
  assert (Hsort : Sorted (not_after double_num) (map double l)).
  { rewrite <- El. assert (Total (not_after double_num)) by (intros x y; apply compare_total).
    apply Sorted_merge_sort. done. }
  apply Sorted_StronglySorted; [intros x y z; lia |]. clear - Hs Hsort.
  induction l as [| x l IH]; [constructor |]. apply Forall_cons in Hs as [Hx Hs].
  apply Sorted_inv in Hsort as [Hsort Hhd]. constructor; [by apply IH |].
  destruct l as [| y l]; [constructor |]. constructor. apply Forall_cons in Hs as [Hy _].
  apply HdRel_inv in Hhd. unfold not_after, compare in Hhd. cbn [nlt double_num] in Hhd.
  rewrite !fltb_exact in Hhd by done. destruct (Z.ltb_spec x y), (Z.ltb_spec y x); lia.
Qed.

Lemma doubles_right values : values <> [] -> amounts values < 2 ^ 53 -> double_statistics values.
Proof.
  intros Hn Ha.
  assert (Hs : Forall small values).
  { apply Forall_forall. intros v Hv. pose proof (amounts_elem v values Hv). unfold small. lia. }
  assert (Hpair : forall l x y, l ≡ₚ values -> x ∈ l -> y ∈ l -> small x /\ small y).
  { intros l x y Hp Hx Hy. rewrite Forall_forall in Hs. split; apply Hs; by rewrite <- Hp. }
  constructor.
  - destruct (qsort_doubles values Hs) as (l & El & Hp & Hsort).
    destruct (median_middle double_num double (map double values) l) as (x & y & Hm & Hx & Hy & Em); [| exact El |].
    { intros E0. rewrite E0 in Hp. by apply Permutation_nil in Hp. }
    exists l, x, y. split; [done |]. split; [done |]. split; [done |]. unfold double_median. rewrite Em.
    assert (Hsz : size_of l = size_of values) by (unfold size_of; by rewrite Hp). rewrite Hsz.
    destruct (Z.odd (size_of values)) eqn:Eo; [done |]. cbn [nadd ndiv double_num]. rewrite !bind_Ret.
    destruct (Hpair l x y Hp Hx Hy) as [Hsx Hsy]. rewrite fadd_exact; [done | done | done |].
    unfold middle in Hm. rewrite Hsz, Eo in Hm. destruct Hm as [Hmx Hmy].
    pose proof (amounts_two l _ _ x y Hmx Hmy ltac:(lia)) as H2. rewrite (amounts_perm _ _ Hp) in H2.
    unfold small. lia.
  - unfold double_mean, mean. change (nzero double_num) with (double 0). rewrite double_sum by (cbn; lia).
    rewrite bind_Ret, Z.add_0_l. cbn [ndiv double_num]. unfold size_of. by rewrite length_map.
  - destruct values as [| v values]; [done |]. apply Forall_cons in Hs as [Hv Hs]. cbn [map].
    exists (fold_left (fun m w => if w <? m then w else m) values v). split.
    + unfold double_min, min. f_equal. apply (fold_doubles fltb Z.ltb); [intros; by apply fltb_exact | done | done].
    + apply (fold_least Z.ltb Z.le); intros *; lia.
  - destruct values as [| v values]; [done |]. apply Forall_cons in Hs as [Hv Hs]. cbn [map].
    exists (fold_left (fun m w => if m <? w then w else m) values v). split.
    + unfold double_max, max. f_equal.
      apply (fold_doubles (fun w m => fltb m w) (fun w m => m <? w)); [intros; by apply fltb_exact | done | done].
    + apply (fold_least (fun w m => m <? w) (fun m w => w <= m)); intros *; lia.
Qed.

(** ** Theorems *)

(** The median of an array of [int] is a median: no more than half of the values are
    below it and no more than half are above it, and the array is left sorted. *)
Theorem int_median_is_median (values l : list Z) (m : Z)
    (Hn : values <> []) (Hm : int_median values = Ret (m, l)) :
  l ≡ₚ values /\ StronglySorted Z.le l /\
  2 * count (fun v => v <? m) values <= size_of values /\
  2 * count (fun v => m <? v) values <= size_of values.
Proof.
  pose proof (qsort_perm int_num values) as Hp. pose proof (qsort_sorted values) as Hs.
  assert (Hlen : size_of (qsort int_num values) = size_of values) by (unfold size_of; by rewrite Hp).
  assert (Hsz : 0 < size_of values) by (unfold size_of; destruct values; [done | cbn [length]; lia]).
  unfold int_median, median in Hm. rewrite Hlen, Z.quot_div_nonneg, Z.rem_mod_nonneg in Hm by lia.
  destruct (Z.eqb_spec (size_of values) 0) as [| _]; [lia |].
  rewrite <- !(count_perm _ _ _ Hp).
  destruct (Z.eqb_spec (size_of values mod 2) 0) as [E2 | E2]; cbn [negb] in Hm.
  - destruct (aget _ (size_of values / 2 - 1)) as [a |] eqn:Ea; [| done].
    destruct (aget _ (size_of values / 2)) as [b |] eqn:Eb; [| done].
    cbn [deref] in Hm. rewrite !bind_Ret in Hm. cbn [nadd ndiv int_num] in Hm.
    apply bind_Ret_inv in Hm as (sm & Es & Hm). apply int_of_inv in Es as ->.
    apply bind_Ret_inv in Hm as (q & Eq & Hm). change (int_of (Z.quot (a + b) 2) = Ret q) in Eq.
    apply int_of_inv in Eq as ->. injection Hm as <- <-.
    assert (Hab : a <= b) by (apply (sorted_get _ _ _ _ _ Hs Ea Eb); lia).
    pose proof (quot_2_between a b Hab) as Hq.
    destruct (sorted_counts _ _ _ Hs Eb) as [Hb _]. destruct (sorted_counts _ _ _ Hs Ea) as [_ Ha].
    specialize (Hb (Z.quot (a + b) 2) ltac:(lia)). specialize (Ha (Z.quot (a + b) 2) ltac:(lia)).
    unfold size_of in *. split; [done |]. split; [done |]. zdiv.
  - destruct (aget _ (size_of values / 2)) as [a |] eqn:Ea; [| done].
    cbn [deref] in Hm. rewrite bind_Ret in Hm. injection Hm as <- <-.
    destruct (sorted_counts _ _ _ Hs Ea) as [Hb Ha]. specialize (Hb a ltac:(lia)). specialize (Ha a ltac:(lia)).
    unfold size_of in *. split; [done |]. split; [done |]. zdiv.
Qed.

Lemma int_median_is_median_witness :
  exists l, int_median [7; 1; 5; 3] = Ret (4, l) /\ l ≡ₚ [7; 1; 5; 3] /\ StronglySorted Z.le l /\
    2 * count (fun v => v <? 4) [7; 1; 5; 3] <= size_of [7; 1; 5; 3] /\
    2 * count (fun v => 4 <? v) [7; 1; 5; 3] <= size_of [7; 1; 5; 3].
Proof.
  exists [1; 3; 5; 7]. split; [vm_compute; reflexivity |].
  apply int_median_is_median; [discriminate | vm_compute; reflexivity].
Defined.

(** On measurements within a bound every statistic of a non-empty array of [int]
    is defined, and every statistic of a non-empty array of [uint64] or [double] is
    defined, the bootstrap included for every statistic that is defined on samples. *)
Theorem statistics_defined {R} (rand : R -> Z * R) (b : Z) (ints uints : list Z) (doubles : list spec_float)
    (Hrand : forall r, 0 <= (rand r).1)
    (Hn : ints <> [] /\ uints <> [] /\ doubles <> [])
    (Hints : within b ints) (Hb : 0 <= b /\ 4 * b * b <= INT_MAX) (Hsum : b * size_of ints <= INT_MAX) :
  all_defined int_num rand ints /\ all_defined uint64_num rand uints /\
  all_defined double_num rand doubles.
Proof.
  destruct Hn as (Hn1 & Hn2 & Hn3). destruct Hb as [Hb Hbb].
  assert (Hb2 : 2 * b <= INT_MAX) by nia. split; [| split].
  - destruct (int_mean_ok b ints Hints Hb Hn1 Hsum) as [Em Hm]. unfold within in Hints. rewrite Forall_forall in Hints.
    eapply all_defined_from; [done | done | exact Em | |].
    + intros v w Hv Hw. apply Hints in Hv, Hw. exists (v + w). cbn [nadd ndiv int_num].
      split; [apply int_of_ok; unfold is_int, INT_MIN, INT_MAX in *; lia |].
      exists (Z.quot (v + w) 2). apply int_of_ok. pose proof (Z.quot_rem' (v + w) 2).
      pose proof (Z.rem_bound_abs (v + w) 2 ltac:(lia)). unfold is_int, INT_MIN, INT_MAX in *. lia.
    + intros v Hv. apply Hints in Hv. eexists. cbn [nsub nmul int_num].
      split; [apply int_of_ok; unfold is_int, INT_MIN, INT_MAX in *; lia |].
      eexists. apply int_of_ok. unfold is_int, INT_MIN, INT_MAX in *. nia.
  - assert (Hl : size_of uints <> 0) by (unfold size_of; destruct uints; [done | cbn [length]; lia]).
    assert (Hs : forall s l, defined (sum_loop uint64_num s l)).
    { intros s l. revert s. induction l as [| v l IH]; intros s; [by eexists | apply IH]. }
    destruct (Hs 0 uints) as [s Es]. eapply (all_defined_from _ _ Hrand _ (s / size_of uints)); [done | | |].
    + unfold mean. cbn [nzero uint64_num]. rewrite Es, bind_Ret. cbn [ndiv uint64_num]. by destruct (Z.eqb_spec (size_of uints) 0).
    + intros v w _ _. eexists. split; [reflexivity | by eexists].
    + intros v _. eexists. split; [reflexivity | by eexists].
  - assert (Hs : forall s l, defined (sum_loop double_num s l)).
    { intros s l. revert s. induction l as [| v l IH]; intros s; [by eexists | apply IH]. }
    destruct (Hs fzero doubles) as [s Es].
    eapply (all_defined_from _ _ Hrand _ (fdiv s (double (size_of doubles)))); [done | | |].
    + unfold mean. cbn [nzero double_num]. by rewrite Es, bind_Ret.
    + intros v w _ _. eexists. split; [reflexivity | by eexists].
    + intros v _. eexists. split; [reflexivity | by eexists].
Qed.

(** Arrays of [int] and of [uint64]. *)
Lemma ints_right b ints :
  ints <> [] -> within b ints -> 0 <= b -> 4 * b * b <= INT_MAX -> b * size_of ints <= INT_MAX ->
  integer_statistics int_num ints /\
  forall k, 1 <= k -> spread k (int_average ints) ints < 2 ^ 53 ->
    int_moment k ints = Ret (fdiv (double (deviations k (int_average ints) ints)) (double (size_of ints))).
Proof.
  intros Hn Hints Hb Hbb Hsum. destruct (int_mean_ok b ints Hints Hb Hn Hsum) as [Em Hm].
  assert (Hb2 : 2 * b <= INT_MAX) by nia. assert (Hin : forall v, v ∈ ints -> Z.abs v <= b) by (by apply Forall_forall).
  assert (Hvar : spread 2 (int_average ints) ints < 2 ^ 53 ->
    variance int_num ints = Ret (fdiv (double (spread 2 (int_average ints) ints)) (double (size_of ints - 1)))).
  { apply variance_exact; [done | exact Em |]. intros v Hv. apply Hin in Hv. exists (v - int_average ints).
    unfold int_average in *. cbn [nsub nmul int_num].
    split; [apply int_of_ok; unfold is_int, INT_MIN, INT_MAX in *; lia |].
    rewrite Z.pow_2_r. apply int_of_ok. unfold is_int, INT_MIN, INT_MAX in *. nia. }
  split; [constructor |].
  - apply median_integers; [done | done |]. intros x y Hx Hy. apply Hin in Hx, Hy. cbn [nadd ndiv int_num].
    split; [apply int_of_ok; unfold is_int, INT_MIN, INT_MAX in *; lia |].
    change (int_of (Z.quot (x + y) 2) = Ret (Z.quot (x + y) 2)). apply int_of_ok.
    pose proof (Z.quot_rem' (x + y) 2). pose proof (Z.rem_bound_abs (x + y) 2 ltac:(lia)).
    unfold is_int, INT_MIN, INT_MAX in *. lia.
  - exact Em.
  - by apply min_least.
  - by apply max_greatest.
  - exact Hvar.
  - intros Hs. unfold std_err. by rewrite Hvar, bind_Ret.
  - intros k Hk Hs. unfold int_moment, moment. unfold int_mean in Em. rewrite Em, bind_Ret.
    change fzero with (double 0). rewrite moment_loop_exact; [by rewrite bind_Ret, Z.add_0_l | done | | exact Hs].
    intros v Hv. apply Hin in Hv. unfold is_int, INT_MIN, INT_MAX in *. lia.
Qed.

Lemma uints_right uints :
  uints <> [] -> Forall (fun v => 0 <= v < 2 ^ 63) uints -> total uints < 2 ^ 64 ->
  integer_statistics uint64_num uints.
Proof.
  intros Hn Hu Ht. assert (Hin : forall v, v ∈ uints -> 0 <= v < 2 ^ 63) by (by apply Forall_forall).
  assert (Hpos : Forall (fun v => 0 <= v) uints) by (eapply Forall_impl; [exact Hu |]; cbn; intros; lia).
  assert (Ht0 : 0 <= total uints).
  { clear - Hpos. induction Hpos as [| v l Hv H IH]; cbn [total foldr]; [lia |]. fold (total l). lia. }
  assert (Hl : 0 < size_of uints) by (unfold size_of; destruct uints; [done | cbn [length]; lia]).
  assert (Em : mean uint64_num uints = Ret (int_average uints)).
  { unfold mean, int_average. cbn [nzero uint64_num]. rewrite uint64_sum by (done || lia).
    rewrite bind_Ret. cbn [ndiv uint64_num]. destruct (Z.eqb_spec (size_of uints) 0); [lia |].
    by rewrite Z.add_0_l, Z.quot_div_nonneg by lia. }
  assert (Hvar : spread 2 (int_average uints) uints < 2 ^ 53 ->
    variance uint64_num uints = Ret (fdiv (double (spread 2 (int_average uints) uints)) (double (size_of uints - 1)))).
  { intros Hs. apply variance_exact; [done | exact Em | | exact Hs]. intros v Hv. eexists. cbn [nsub nmul uint64_num].
    split; [reflexivity |]. rewrite wrapped_square, Z.pow_2_r by (by eapply square_elem). done. }
  constructor.
  - apply median_integers; [done | done |]. intros x y Hx Hy. apply Hin in Hx, Hy. cbn [nadd ndiv uint64_num].
    rewrite wrap_u_small by lia. split; [done |]. change (Ret ((x + y) / 2) = Ret (Z.quot (x + y) 2)).
    by rewrite Z.quot_div_nonneg by lia.
  - exact Em.
  - by apply min_least.
  - by apply max_greatest.
  - exact Hvar.
  - intros Hs. unfold std_err. by rewrite Hvar, bind_Ret.
Qed.

(** C40: the statistics of non-empty arrays are what their names say.  For [int] values of
    at most [b], where [4 * b * b] and [b] times the size are an [int], and for [uint64] values
    below 2^63 whose sum is below 2^64: the mean is the quotient of the sum, the minimum and the
    maximum are the least and the greatest value, the median is the mean of the two values in
    the middle of the sorted array, which is left in order, and, when the squares of the
    differences from the mean add up to less than 2^53, the variance is their sum divided by the
    size less 1 and the standard error its root, although the differences wrap for [uint64]; so
    is, for [int], each moment the sum of the powers divided by the size.  For doubles that hold
    integers whose amounts add up to less than 2^53: the same median, mean, minimum and maximum,
    where the last division is that of doubles. *)
Theorem statistics_are_right (b : Z) (ints uints doubles : list Z)
    (Hn : ints <> [] /\ uints <> [] /\ doubles <> [])
    (Hints : within b ints) (Hb : 0 <= b /\ 4 * b * b <= INT_MAX /\ b * size_of ints <= INT_MAX)
    (Huints : Forall (fun v => 0 <= v < 2 ^ 63) uints /\ total uints < 2 ^ 64)
    (Hdoubles : amounts doubles < 2 ^ 53) :
  integer_statistics int_num ints /\
  (forall k, 1 <= k -> spread k (int_average ints) ints < 2 ^ 53 ->
    int_moment k ints = Ret (fdiv (double (deviations k (int_average ints) ints)) (double (size_of ints)))) /\
  integer_statistics uint64_num uints /\ double_statistics doubles.
Proof.
  destruct Hn as (Hn1 & Hn2 & Hn3). destruct Hb as (Hb1 & Hb2 & Hb3). destruct Huints as [Hu1 Hu2].
  destruct (ints_right b ints Hn1 Hints Hb1 Hb2 Hb3) as [H1 H2].
  split; [exact H1 |]. split; [exact H2 |]. split; [by apply uints_right | by apply doubles_right].
Qed.

Lemma statistics_are_right_witness :
  integer_statistics int_num [5; -3; 8] /\
  int_moment 3 [5; -3; 8] = Ret (fdiv (double (-83)) (double 3)) /\
  integer_statistics uint64_num [1; 3; 4; 2] /\ double_statistics [7; -1].
Proof.
  destruct (statistics_are_right 8 [5; -3; 8] [1; 3; 4; 2] [7; -1]) as (H1 & H2 & H3 & H4).
  - split; [| split]; discriminate.
  - repeat constructor; discriminate.
  - split; [| split]; discriminate.
  - split; [repeat constructor; discriminate | reflexivity].
  - reflexivity.
  - split; [exact H1 |]. split; [apply H2; [discriminate | reflexivity] |]. split; [exact H3 | exact H4].
Defined.

Definition demo_rand (r : Z) : Z * Z := (r mod 32768, (r * 1103515245 + 12345) mod 2 ^ 31).
Lemma statistics_defined_witness :
  all_defined int_num (fun r => (r mod 7, r + 1)) [5; -3; 8] /\
  all_defined uint64_num (fun r => (r mod 7, r + 1)) [1; 3] /\
  all_defined double_num (fun r => (r mod 7, r + 1)) [double 1; double 2].
Proof.
  apply (statistics_defined _ 8).
  - intros r. apply (Z.mod_pos_bound r 7). reflexivity.
  - split; [| split]; discriminate.
  - repeat constructor; discriminate.
  - split; discriminate.
  - discriminate.
Defined.

(** The variance of [uint64] measurements is that of the same [int] measurements,
    although the differences from the mean wrap around when they are negative. *)
Theorem wrapped_variance_is_exact (b : Z) (values : list Z)
    (Hn : values <> []) (Hv : Forall (fun v => 0 <= v <= b) values)
    (Hb : 4 * b * b <= INT_MAX) (Hsum : b * size_of values <= INT_MAX) :
  int_variance values = uint64_variance values.
Proof.
  assert (Hw : within b values) by (eapply Forall_impl; [exact Hv |]; cbn; intros v ?; lia).
  assert (Hpos : Forall (fun v => 0 <= v) values) by (eapply Forall_impl; [exact Hv |]; cbn; intros v ?; lia).
  assert (Hb0 : 0 <= b) by (destruct Hv as [| v l H _]; [done | lia]).
  assert (Hl : 0 < size_of values) by (unfold size_of; destruct values; [done | cbn [length]; lia]).
  destruct (int_mean_ok b values Hw Hb0 Hn Hsum) as [Em Hm].
  pose proof (total_bound b values Hw) as Ht.
  assert (Ht0 : 0 <= total values).
  { clear - Hpos. induction Hpos as [| v l Hv H IH]; cbn [total foldr]; [lia |]. fold (total l). lia. }
  assert (Eu : mean uint64_num values = Ret (Z.quot (total values) (size_of values))).
  { unfold mean. cbn [nzero uint64_num]. rewrite uint64_sum by (done || lia || (unfold INT_MAX in *; lia)).
    rewrite bind_Ret. cbn [ndiv uint64_num]. destruct (Z.eqb_spec (size_of values) 0); [lia |].
    by rewrite Z.add_0_l, Z.quot_div_nonneg by lia. }
  unfold int_variance, uint64_variance, variance. unfold int_mean in Em. rewrite Em, Eu, !bind_Ret.
  by rewrite (variance_loops_agree b).
Qed.

Lemma wrapped_variance_is_exact_witness : int_variance [1; 9; 2] = uint64_variance [1; 9; 2].
Proof. apply (wrapped_variance_is_exact 9); [discriminate | repeat constructor; discriminate | discriminate | discriminate]. Defined.

(** The odd moments of [uint64] measurements are wrong: the difference from the mean is
    made a double after it has wrapped around. *)
Lemma uint64_moment_wraps :
  int_moment 3 [1; 3] = Ret fzero /\ uint64_moment 3 [1; 3] = Ret (double (2 ^ 191)) /\
  uint64_variance [1; 3] = Ret (double 2).
Proof. split; [| split]; vm_compute; reflexivity. Qed.

End LmStats.
