(* ===== verification/LmTiming.v ===== *)
(** * lmbench/src/lib_timing.c: the clock, the results and the calibration

    The stop watch ([start_tv], [stop_tv], [iterations]), the array of results that
    [insertsort] keeps ordered, and the calibration that finds how long a
    measurement has to be and what a measurement costs.  The work that is timed and
    the clock are a parameter: [work k n e] are the readings of [gettimeofday] in
    front of and behind [n] repetitions of the work [k], and the next state of the
    environment.  The array that [results] points to is not changed while another one
    takes its place, so the pointer is modelled by the array. *)
From S2P Require Import Prelude Doubles.

Module LmTiming.
Import Doubles.

(** ** The clock *)
Record timeval := mkTv { tv_sec : Z; tv_usec : Z }.

Definition tvsub (t1 t0 : timeval) : timeval :=
  let sec := tv_sec t1 - tv_sec t0 in
  let usec := tv_usec t1 - tv_usec t0 in
  let '(sec, usec) := if (usec <? 0) && (0 <? sec) then (sec - 1, usec + 1000000) else (sec, usec) in
  if (usec <? 0) || (tv_sec t1 <? tv_sec t0) then mkTv 0 0 else mkTv sec usec.

Definition tvdelta (start stop : timeval) : Z :=
  let td := tvsub stop start in u64 (u64 (tv_sec td * 1000000) + tv_usec td).

(** ** Results *)
Definition TRIES : Z := 11.
Record value := mkValue { v_u : Z; v_n : Z }.
(** [v] has room for the measurements that [sizeof_result] makes room for. *)
Record result := mkResult { N : Z; v : list value }.

(** The number of entries that [sizeof_result (repetitions)] bytes hold. *)
Definition capacity (repetitions : Z) : Z := if repetitions <=? TRIES then TRIES else repetitions.
Definition new_result (repetitions : Z) : result :=
  mkResult 0 (replicate (Z.to_nat (capacity repetitions)) (mkValue 0 0)).

Definition insertinit (r : result) : result := mkResult 0 (v r).

(** [u / (double) n] *)
Definition ratio (x : value) : spec_float := fdiv (double (v_u x)) (double (v_n x)).

(** The first loop of [insertsort], [k] entries from the end. *)
Fixpoint find_place (k : nat) (i : Z) (x : value) (r : result) : cres Z :=
  match k with
  | O => Ret i
  | S k =>
      y ← deref (aget (v r) i);
      if fltb (ratio y) (ratio x) then Ret i else find_place k (i + 1) x r
  end.
(** The second loop: [k] entries are moved up, the last to [j]. *)
Fixpoint shift_up (k : nat) (j : Z) (a : list value) : cres (list value) :=
  match k with
  | O => Ret a
  | S k =>
      y ← deref (aget a (j - 1));
      a ← deref (aset a j y);
      shift_up k (j - 1) a
  end.
Definition insertsort (u n : Z) (r : result) : cres result :=
  if u =? 0 then Ret r
  else
    let x := mkValue u n in
    i ← find_place (Z.to_nat (N r)) 0 x r;
    a ← shift_up (Z.to_nat (N r - i)) (N r) (v r);
    a ← deref (aset a i x);
    Ret (mkResult (N r + 1) a).

(** [(int) x] *)
Definition to_int (x : spec_float) : cres Z := z ← to_ulong x; if z <=? INT_MAX then Ret z else Undef.
(** A decimal constant: [k] hundredths, or [k] out of [10 ^ d]. *)
Definition hundredths (k : Z) : spec_float := fdiv (double k) (double 100).

(** ** The stop watch *)
Section Timing.
Context {E : Type}.

Inductive work_kind := Chase | Gettimeofday | OneOp | TwoOp.
Context (work : work_kind -> Z -> E -> timeval * timeval * E).

Record st := mkSt {
  start_tv : timeval;
  stop_tv : timeval;
  iterations : Z;
  results : result;
  long_enough : Z;
  timing_done : bool;
  t_over : option Z;
  l_over : option spec_float;
  found_N : Z;
  found_usecs : Z;
  clock_iterations : Z;
  one_iterations : Z;
  two_iterations : Z;
  world : E
}.
Implicit Types (s : st).

Definition set_watch t0 t1 s : st :=
  mkSt t0 t1 (iterations s) (results s) (long_enough s) (timing_done s) (t_over s) (l_over s)
    (found_N s) (found_usecs s) (clock_iterations s) (one_iterations s) (two_iterations s) (world s).
Definition set_iterations n s : st :=
  mkSt (start_tv s) (stop_tv s) n (results s) (long_enough s) (timing_done s) (t_over s) (l_over s)
    (found_N s) (found_usecs s) (clock_iterations s) (one_iterations s) (two_iterations s) (world s).
Definition put_results r s : st :=
  mkSt (start_tv s) (stop_tv s) (iterations s) r (long_enough s) (timing_done s) (t_over s) (l_over s)
    (found_N s) (found_usecs s) (clock_iterations s) (one_iterations s) (two_iterations s) (world s).
Definition set_calibration e d t l s : st :=
  mkSt (start_tv s) (stop_tv s) (iterations s) (results s) e d t l
    (found_N s) (found_usecs s) (clock_iterations s) (one_iterations s) (two_iterations s) (world s).
Definition set_found n u s : st :=
  mkSt (start_tv s) (stop_tv s) (iterations s) (results s) (long_enough s) (timing_done s) (t_over s) (l_over s)
    n u (clock_iterations s) (one_iterations s) (two_iterations s) (world s).
Definition set_world w s : st :=
  mkSt (start_tv s) (stop_tv s) (iterations s) (results s) (long_enough s) (timing_done s) (t_over s) (l_over s)
    (found_N s) (found_usecs s) (clock_iterations s) (one_iterations s) (two_iterations s) w.
(** The static [__iterations] of a use of [BENCH_INNER]. *)
Definition bench_iterations (k : work_kind) s : Z :=
  match k with OneOp => one_iterations s | TwoOp => two_iterations s | _ => clock_iterations s end.
Definition set_bench_iterations (k : work_kind) n s : st :=
  let '(c, o, t) := match k with
    | OneOp => (clock_iterations s, n, two_iterations s)
    | TwoOp => (clock_iterations s, one_iterations s, n)
    | _ => (n, one_iterations s, two_iterations s)
    end in
  mkSt (start_tv s) (stop_tv s) (iterations s) (results s) (long_enough s) (timing_done s) (t_over s) (l_over s)
    (found_N s) (found_usecs s) c o t (world s).

Definition save_n (n : Z) s : st := set_iterations n s.
Definition get_n s : Z := iterations s.
Definition settime (usecs : Z) s : st :=
  set_watch (mkTv 0 0) (mkTv (usecs / 1000000) (usecs mod 1000000)) s.
Definition gettime s : Z := tvdelta (start_tv s) (stop_tv s).

(** [start (0)], the work, [stop (0, 0)] *)
Definition timed (k : work_kind) (n : Z) s : Z * st :=
  let '(t0, t1, w) := work k n (world s) in (tvdelta t0 t1, set_watch t0 t1 (set_world w s)).

Definition save_minimum s : cres st :=
  if N (results s) =? 0 then Ret (settime 0 (save_n 1 s))
  else
    x ← deref (aget (v (results s)) (N (results s) - 1));
    Ret (settime (v_u x) (save_n (v_n x) s)).

Definition save_median s : cres st :=
  let i := Z.quot (N (results s)) 2 in
  '(n, u) ← (if N (results s) =? 0 then Ret (1, 0)
             else
               x ← deref (aget (v (results s)) i);
               if negb (Z.rem (N (results s)) 2 =? 0) then Ret (v_n x, v_u x)
               else
                 y ← deref (aget (v (results s)) (i - 1));
                 Ret (u64 (v_n x + v_n y) / 2, u64 (v_u x + v_u y) / 2));
  Ret (settime u (save_n n s)).

Definition set_results (r : result) s : cres st := save_median (put_results r s).
(** ** Calibration *)
Section Calibration.
(** [getenv] and [atof] of the variables that override the measurements. *)
Context (ENOUGH : option Z) (TIMING_O : option Z) (LOOP_O : option spec_float).
(** A bound for the loops of [BENCH_INNER]. *)
Context (fuel : nat).

Definition SHORT : Z := 1000000.

(** The loop of [BENCH_INNER]: with the last time, the number of repetitions is
    changed for the next turn, also when there is none. *)
Fixpoint bench_loop (fuel : nat) (k : work_kind) (enough : Z) (r : spec_float) s : cres (spec_float * st) :=
  if fltb r (fmul (hundredths 95) (double enough)) then
    match fuel with
    | O => NoFuel
    | S fuel =>
        let n := bench_iterations k s in
        let '(us, s) := timed k n s in
        let r := double us in
        if fltb r (fmul (hundredths 99) (double enough)) || fltb (fmul (hundredths 120) (double enough)) r then
          if fltb (double 150) r then
            n ← to_ulong (fadd (fmul (fdiv (double n) r) (fmul (hundredths 110) (double enough))) (double 1));
            bench_loop fuel k enough r (set_bench_iterations k n s)
          else if 2 ^ 27 <? n then Ret (fzero, s)
          else bench_loop fuel k enough r (set_bench_iterations k (u64 (Z.shiftl n 3)) s)
        else bench_loop fuel k enough r s
    end
  else Ret (r, s).

(** [BENCH_INNER (work k, enough)], when the timing is initialised. *)
Definition bench_inner (k : work_kind) (enough : Z) s : cres st :=
  '(r, s) ← bench_loop fuel k (Z.max (long_enough s) enough) fzero s;
  us ← to_ulong r;
  Ret (settime us (save_n (bench_iterations k s) s)).

(** [TRIES - 1] times: time [N] and keep the results. *)
Fixpoint time_loop (i : nat) (n : Z) (r : result) s : cres (result * st) :=
  match i with
  | O => Ret (r, s)
  | S i => let '(us, s) := timed Chase n s in r ← insertsort us n r; time_loop i n r s
  end.
Definition time_N (n : Z) s : cres (Z * st) :=
  let r_save := results s in
  '(r, s) ← time_loop 10 n (new_result TRIES) s;
  s ← set_results r s;
  s ← save_minimum s;
  let usecs := gettime s in
  s ← set_results r_save s;
  Ret (usecs, s).

Fixpoint find_loop (tries : nat) (enough : Z) s : cres (Z * st) :=
  match tries with
  | O => Ret (0, s)
  | S tries =>
      let n := found_N s in
      let usecs := found_usecs s in
      if fltb (fmul (hundredths 98) (double enough)) (double usecs)
         && fltb (double usecs) (fmul (hundredths 102) (double enough)) then Ret (n, s)
      else
        n ← (if usecs <? 1000 then Ret (u64 (n * 10))
             else to_ulong (fadd (fmul (fdiv (double n) (double usecs)) (double enough)) (double 1)));
        '(usecs, s) ← time_N n s;
        find_loop tries enough (set_found n usecs s)
  end.
Definition find_N (enough : Z) s : cres (Z * st) :=
  s ← (if found_usecs s =? 0 then
         let n := found_N s in
         '(usecs, s) ← time_N n s; Ret (set_found n usecs s)
       else Ret s);
  find_loop 10 enough s.

Definition test_points : list spec_float :=
  [fdiv (double 1015) (double 1000); fdiv (double 102) (double 100); fdiv (double 1035) (double 1000)].
Fixpoint test_loop (points : list spec_float) (n baseline : Z) s : cres (bool * st) :=
  match points with
  | [] => Ret (true, s)
  | p :: points =>
      n' ← to_int (fmul (double n) p);
      '(usecs, s) ← time_N n' s;
      expected ← to_ulong (fmul (double baseline) p);
      let diff := if usecs <? expected then expected - usecs else usecs - expected in
      if fltb (fdiv (double 25) (double 10000)) (fdiv (double diff) (double expected)) then Ret (false, s)
      else test_loop points n baseline s
  end.
Definition test_time (enough : Z) s : cres (bool * st) :=
  '(n, s) ← find_N enough s;
  if n =? 0 then Ret (false, s)
  else
    '(baseline, s) ← time_N n s;
    test_loop test_points n baseline s.

Definition possibilities : list Z := [5000; 10000; 50000; 100000].
Fixpoint enough_loop (l : list Z) s : cres (Z * st) :=
  match l with
  | [] => Ret (SHORT, s)
  | e :: l => '(ok, s) ← test_time e s; if ok : bool then Ret (e, s) else enough_loop l s
  end.
Definition compute_enough s : cres (Z * st) :=
  match ENOUGH with Some e => Ret (e, s) | None => enough_loop possibilities s end.

(** [t_overhead], behind its call of [init_timing]. *)
Fixpoint clock_loop (i : nat) (r : result) s : cres (result * st) :=
  match i with
  | O => Ret (r, s)
  | S i =>
      s ← bench_inner Gettimeofday 0 s;
      r ← insertsort (gettime s) (get_n s) r;
      clock_loop i r s
  end.
Definition t_overhead_body s : cres (Z * st) :=
  match t_over s with
  | Some o => Ret (o, s)
  | None =>
      let keep o s := set_calibration (long_enough s) (timing_done s) (Some o) (l_over s) s in
      let s := keep 0 s in
      match TIMING_O with
      | Some o => Ret (o, keep o s)
      | None =>
          if Z.max (long_enough s) 0 <=? 50000 then
            let '(r_save, N_save, u_save) := (results s, get_n s, gettime s) in
            '(r, s) ← clock_loop 11 (new_result TRIES) s;
            s ← set_results r s;
            s ← save_minimum s;
            o ← (if get_n s =? 0 then Undef else Ret (gettime s / get_n s));
            s ← set_results r_save s;
            Ret (o, keep o (settime u_save (save_n N_save s)))
          else Ret (0, s)
      end
  end.

(** [l_overhead], behind its call of [init_timing]. *)
Definition op_time (k : work_kind) (r : result) s : cres (result * st) :=
  s ← bench_inner k 0 s;
  '(o, s) ← t_overhead_body s;
  r ← (if o <? gettime s then insertsort (gettime s - o) (get_n s) r else Ret r);
  Ret (r, s).
Fixpoint op_loop (i : nat) (one two : result) s : cres (result * result * st) :=
  match i with
  | O => Ret (one, two, s)
  | S i =>
      '(one, s) ← op_time OneOp one s;
      '(two, s) ← op_time TwoOp two s;
      op_loop i one two s
  end.
Definition per_iteration (c : Z) s : spec_float := fdiv (fmul (double c) (double (gettime s))) (double (get_n s)).
Definition l_overhead_body s : cres (spec_float * st) :=
  match l_over s with
  | Some o => Ret (o, s)
  | None =>
      let keep o s := set_calibration (long_enough s) (timing_done s) (t_over s) (Some o) s in
      let s := keep fzero s in
      match LOOP_O with
      | Some o => Ret (o, keep o s)
      | None =>
          let '(r_save, N_save, u_save) := (results s, get_n s, gettime s) in
          '(one, two, s) ← op_loop 11 (new_result TRIES) (new_result TRIES) s;
          s ← set_results one s;
          s ← save_minimum s;
          let overhead := per_iteration 2 s in
          s ← set_results two s;
          s ← save_minimum s;
          let overhead := fsub overhead (fdiv (double (gettime s)) (double (get_n s))) in
          let overhead := if fltb overhead fzero then fzero else overhead in
          s ← set_results r_save s;
          Ret (overhead, keep overhead (settime u_save (save_n N_save s)))
      end
  end.

Definition init_timing s : cres st :=
  if timing_done s then Ret s
  else
    '(e, s) ← compute_enough (set_calibration (long_enough s) true (t_over s) (l_over s) s);
    '(_, s) ← t_overhead_body (set_calibration e true (t_over s) (l_over s) s);
    '(_, s) ← l_overhead_body s;
    Ret s.
Definition get_enough (e : Z) s : cres (Z * st) :=
  s ← init_timing s; Ret (if e <? long_enough s then long_enough s else e, s).
Definition t_overhead s : cres (Z * st) := s ← init_timing s; t_overhead_body s.
Definition l_overhead s : cres (spec_float * st) := s ← init_timing s; l_overhead_body s.
End Calibration.
End Timing.
Arguments st E : clear implicits.
Arguments mkSt {E}.

End LmTiming.
