(* ===== verification/LmTimingProofs.v ===== *)
(** * lmbench/src/lib_timing.c: the clock and the results

    The stop watch measures differences of clock readings and keeps what [settime]
    stores; [insertsort] is insertion into a list that is ordered by the time of an
    iteration; the calibration returns what it measured to be long enough; and
    the number of iterations that [BENCH_INNER] saves is not always the one it timed. *)
From stdpp Require Import sorting.
From S2P Require Import Prelude Doubles LmTiming.

Module LmTimingProofs.
Import Doubles LmTiming.

(** ** The clock *)
Definition micros (t : timeval) : Z := tv_sec t * 1000000 + tv_usec t.
Definition valid_time (t : timeval) : Prop := 0 <= tv_usec t < 1000000 /\ 0 <= micros t < 2 ^ 63.

Lemma tvsub_micros t1 t0 :
  valid_time t0 -> valid_time t1 ->
  0 <= tv_sec (tvsub t1 t0) /\ 0 <= tv_usec (tvsub t1 t0) /\
  micros (tvsub t1 t0) = Z.max 0 (micros t1 - micros t0).
Proof.
  unfold valid_time, micros, tvsub. intros [H0 B0] [H1 B1]. cbn zeta.
  destruct (Z.ltb_spec (tv_usec t1 - tv_usec t0) 0), (Z.ltb_spec 0 (tv_sec t1 - tv_sec t0)); cbn [andb];
    match goal with |- context [if ?b || ?c then _ else _] => destruct b eqn:Eb, c eqn:Ec end;
    cbn [orb tv_sec tv_usec]; rewrite ?Z.ltb_lt, ?Z.ltb_ge in *; lia.
Qed.

Lemma tvdelta_micros t0 t1 :
  valid_time t0 -> valid_time t1 -> tvdelta t0 t1 = Z.max 0 (micros t1 - micros t0).
Proof.
  intros H0 H1. destruct (tvsub_micros t1 t0 H0 H1) as (Hs & Hu & E). unfold tvdelta. rewrite <- E.
  unfold valid_time in *. assert (micros (tvsub t1 t0) < 2 ^ 64) by lia. unfold micros in *.
  rewrite (wrap_u_small 64 (_ * _)) by lia. apply wrap_u_small. lia.
Qed.

Section Watch.
Context {E : Type}.
Implicit Types (s : st E).

Lemma gettime_settime u s : 0 <= u < 2 ^ 64 -> gettime (settime u s) = u.
Proof.
  intros Hu. unfold gettime, settime, tvdelta, tvsub. cbn [start_tv stop_tv set_watch tv_sec tv_usec].
  rewrite !Z.sub_0_r. assert (0 <= u mod 1000000) by zdiv. assert (0 <= u / 1000000) by zdiv.
  destruct (Z.ltb_spec (u mod 1000000) 0); [lia |]. cbn [andb].
  destruct (Z.ltb_spec (u mod 1000000) 0); [lia |]. destruct (Z.ltb_spec (u / 1000000) 0); [lia |].
  cbn [orb tv_sec tv_usec]. rewrite (wrap_u_small 64 (_ * _)) by zdiv. rewrite wrap_u_small; zdiv.
Qed.
End Watch.

(** ** Insertion *)
Definition entries (r : result) : list value := take (Z.to_nat (N r)) (v r).
Definition room (r : result) : Prop := 0 <= N r < Z.of_nat (length (v r)).

(** In front of the first entry with a smaller time per iteration. *)
Fixpoint ins (x : value) (l : list value) : list value :=
  match l with
  | [] => [x]
  | y :: l => if fltb (ratio y) (ratio x) then x :: y :: l else y :: ins x l
  end.

Lemma find_place_ok x r k : forall i,
  0 <= N r <= Z.of_nat (length (v r)) -> 0 <= i -> i + Z.of_nat k = N r ->
  exists j, find_place k i x r = Ret j /\ i <= j <= N r /\
    ins x (drop (Z.to_nat i) (entries r)) =
      take (Z.to_nat (j - i)) (drop (Z.to_nat i) (entries r)) ++ x :: drop (Z.to_nat j) (entries r).
Proof.
  induction k as [| k IH]; intros i Hr Hi Hk; cbn [find_place].
  - exists i. split; [done |]. split; [lia |]. rewrite Z.sub_diag. cbn [Z.to_nat take app].
    rewrite drop_ge; [done |]. unfold entries. rewrite length_take. lia.
  - destruct (aget_Some (v r) i) as [y Ey]; [lia |]. rewrite Ey. cbn [deref]. rewrite bind_Ret.
    assert (Hy : entries r !! Z.to_nat i = Some y).
    { unfold entries. rewrite lookup_take, decide_True by lia. unfold aget in Ey.
      destruct (Z.leb_spec 0 i); [done | lia]. }
    rewrite (drop_S _ _ _ Hy). cbn [ins]. destruct (fltb (ratio y) (ratio x)).
    + exists i. split; [done |]. split; [lia |]. rewrite Z.sub_diag. cbn [Z.to_nat take app].
      by rewrite (drop_S _ _ _ Hy).
    + destruct (IH (i + 1) Hr ltac:(lia) ltac:(lia)) as (j & -> & Hj & E). exists j.
      split; [done |]. split; [lia |].
      replace (S (Z.to_nat i)) with (Z.to_nat (i + 1)) by lia. rewrite E.
      replace (Z.to_nat (j - i)) with (S (Z.to_nat (j - (i + 1)))) by lia. done.
Qed.

(** What [shift_up] does to every cell. *)
Lemma shift_up_ok k : forall j a,
  Z.of_nat k <= j < Z.of_nat (length a) ->
  exists a', shift_up k j a = Ret a' /\ length a' = length a /\
    forall p, 0 <= p -> aget a' p = if (j - Z.of_nat k <? p) && (p <=? j) then aget a (p - 1) else aget a p.
Proof.
  induction k as [| k IH]; intros j a Hj; cbn [shift_up].
  - exists a. split; [done |]. split; [done |]. intros p Hp.
    destruct (Z.ltb_spec (j - Z.of_nat 0) p), (Z.leb_spec p j); cbn [andb]; (done || lia).
  - destruct (aget_Some a (j - 1)) as [y Ey]; [lia |]. rewrite Ey. cbn [deref]. rewrite bind_Ret.
    rewrite (aset_Some a j y) by lia. cbn [deref]. rewrite bind_Ret.
    destruct (IH (j - 1) (<[Z.to_nat j := y]> a)) as (a' & -> & Hl & Ha); [rewrite length_insert; lia |].
    rewrite length_insert in Hl. exists a'. split; [done |]. split; [done |]. intros p Hp. rewrite Ha by done.
    assert (Hset : forall q, aget (<[Z.to_nat j := y]> a) q = if q =? j then Some y else aget a q).
    { intros q. pose proof (aset_Some a j y ltac:(lia)) as Es. destruct (Z.eqb_spec q j) as [-> |].
      - by apply (aget_aset_eq a _ j y).
      - by apply (aget_aset_ne a _ j q y Es), not_eq_sym. }
    rewrite !Hset. destruct (Z.ltb_spec (j - 1 - Z.of_nat k) p), (Z.leb_spec p (j - 1)),
      (Z.ltb_spec (j - Z.of_nat (S k)) p), (Z.leb_spec p j); cbn [andb]; try lia;
      destruct (Z.eqb_spec (p - 1) j), (Z.eqb_spec p j); try lia; try done. by subst p.
Qed.
Lemma aget_nat {A} (l : list A) (p : nat) : aget l (Z.of_nat p) = l !! p.
Proof. unfold aget. destruct (Z.leb_spec 0 (Z.of_nat p)); [by rewrite Nat2Z.id | lia]. Qed.

(** The list with an element put in at a place, cell by cell. *)
Lemma insert_cells {A} (a a' : list A) (n j : nat) (x : A) :
  (j <= n)%nat -> (n < length a)%nat -> length a' = length a ->
  (forall p : nat, a' !! p = if decide (p = j) then Some x
                             else if decide (j < p <= n)%nat then a !! (p - 1)%nat else a !! p) ->
  take (S n) a' = take j (take n a) ++ x :: drop j (take n a).
Proof.
  intros Hj Hn Hl Ha. apply list_eq. intros p.
  assert (Hlen : length (take j (take n a)) = j) by (rewrite !length_take; lia).
  destruct (decide (p < j)%nat) as [H1 | H1].
  - rewrite lookup_app_l by lia. rewrite !lookup_take, !decide_True, Ha by lia.
    by rewrite !decide_False by lia.
  - rewrite lookup_app_r, Hlen by lia. destruct (decide (p = j)) as [-> | H2].
    + rewrite Nat.sub_diag. cbn. rewrite lookup_take, decide_True, Ha by lia. by rewrite decide_True.
    + replace (p - j)%nat with (S (p - j - 1)) by lia.
      change ((x :: drop j (take n a)) !! S (p - j - 1)) with (drop j (take n a) !! (p - j - 1)%nat). rewrite lookup_drop.
      replace (j + (p - j - 1))%nat with (p - 1)%nat by lia. destruct (decide (p <= n)%nat) as [H3 | H3].
      * rewrite !lookup_take, !decide_True, Ha by lia. rewrite decide_False, decide_True by lia. done.
      * rewrite !lookup_take, !decide_False by lia. done.
Qed.

Lemma insertsort_ok u n r :
  room r -> u <> 0 ->
  exists r', insertsort u n r = Ret r' /\ N r' = N r + 1 /\ length (v r') = length (v r) /\
    entries r' = ins (mkValue u n) (entries r).
Proof.
  intros Hr Hu. unfold room in Hr. unfold insertsort. destruct (Z.eqb_spec u 0); [done |].
  destruct (find_place_ok (mkValue u n) r (Z.to_nat (N r)) 0 ltac:(lia) ltac:(lia) ltac:(lia)) as (j & -> & Hj & E).
  rewrite bind_Ret. destruct (shift_up_ok (Z.to_nat (N r - j)) (N r) (v r) ltac:(lia)) as (a & -> & Hla & Ha).
  rewrite bind_Ret. rewrite (aset_Some a j) by lia. cbn [deref]. rewrite bind_Ret.
  eexists. split; [reflexivity |]. cbn [N v]. split; [done |]. split; [by rewrite length_insert |].
  change (Z.to_nat 0) with 0%nat in E. rewrite drop_0, Z.sub_0_r in E. rewrite E. unfold entries. cbn [N v].
  replace (Z.to_nat (N r + 1)) with (S (Z.to_nat (N r))) by lia.
  apply insert_cells; [lia | lia | by rewrite length_insert |]. intros p.
  rewrite list_lookup_insert. rewrite <- (aget_nat a), Ha by lia.
  destruct (decide (p = Z.to_nat j)) as [-> | Hp].
  - rewrite decide_True by lia. done.
  - rewrite decide_False by lia. rewrite <- !aget_nat.
    destruct (Z.ltb_spec (N r - Z.of_nat (Z.to_nat (N r - j))) (Z.of_nat p)), (Z.leb_spec (Z.of_nat p) (N r));
      cbn [andb]; destruct (decide (Z.to_nat j < p <= Z.to_nat (N r))%nat); try lia; try done. f_equal. lia.
Qed.

Lemma insertsort_zero n r : insertsort 0 n r = Ret r.
Proof. done. Qed.

Lemma ins_perm x l : ins x l ≡ₚ x :: l.
Proof.
  induction l as [| y l IH]; cbn [ins]; [done |]. destruct (fltb _ _); [done |]. rewrite IH. apply Permutation_swap.
Qed.

(** From the biggest to the smallest time per iteration. *)
Definition not_below (x y : value) : Prop := fltb (ratio x) (ratio y) = false.

Lemma ins_sorted x l : Sorted not_below l -> Sorted not_below (ins x l).
Proof.
  induction l as [| y l IH]; cbn [ins]; intros H; [by repeat constructor |].
  destruct (fltb (ratio y) (ratio x)) eqn:E.
  - constructor; [done |]. constructor. by apply fltb_asym.
  - apply Sorted_inv in H as [Hs Hh]. specialize (IH Hs). constructor; [done |].
    destruct l as [| z l]; cbn [ins] in *; [by constructor |].
    destruct (fltb (ratio z) (ratio x)); constructor; [done | by inversion Hh].
Qed.

(** A sequence of measurements, put into a result. *)
Fixpoint insert_all (l : list value) (r : result) : cres result :=
  match l with [] => Ret r | x :: l => r ← insertsort (v_u x) (v_n x) r; insert_all l r end.

Definition measured (l : list value) : list value := List.filter (fun x => negb (v_u x =? 0)) l.

Lemma insert_all_ok l : forall r,
  0 <= N r -> N r + Z.of_nat (length (measured l)) <= Z.of_nat (length (v r)) -> Sorted not_below (entries r) ->
  exists r', insert_all l r = Ret r' /\ length (v r') = length (v r) /\
    N r' = N r + Z.of_nat (length (measured l)) /\
    entries r' ≡ₚ measured l ++ entries r /\ Sorted not_below (entries r').
Proof.
  induction l as [| [u n] l IH]; intros r H0 Hr Hs; cbn [insert_all v_u v_n measured List.filter] in *.
  - exists r. cbn [length app]. rewrite Z.add_0_r. done.
  - fold (measured l) in *. destruct (Z.eqb_spec u 0) as [-> | Hu]; cbn [negb] in *.
    + rewrite insertsort_zero, bind_Ret. by apply IH.
    + cbn [length] in *. destruct (insertsort_ok u n r) as (r1 & -> & E1 & E2 & E3); [unfold room; lia | done |].
      rewrite bind_Ret. destruct (IH r1) as (r2 & -> & F1 & F2 & F3 & F4); [lia | lia | rewrite E3; by apply ins_sorted |].
      exists r2. split; [done |]. split; [lia |]. split; [lia |]. split; [| done].
      rewrite F3, E3, ins_perm. rewrite <- app_comm_cons. symmetry. apply Permutation_middle.
Qed.

(** ** The amount of work that takes long enough *)
Section Calibration.
Context {E : Type} (work : work_kind -> Z -> E -> timeval * timeval * E).
Implicit Types (s : st E).

(** The static variables of [find_N] hold a measurement. *)
Definition calibrated s : Prop := exists s0 s1, time_N work (found_N s) s0 = Ret (found_usecs s, s1).
(** Within two percent. *)
Definition close_to (enough usecs : Z) : Prop :=
  fltb (fmul (hundredths 98) (double enough)) (double usecs) = true /\
  fltb (double usecs) (fmul (hundredths 102) (double enough)) = true.

Lemma find_loop_ok tries enough : forall s n s',
  calibrated s -> find_loop work tries enough s = Ret (n, s') ->
  calibrated s' /\ (n <> 0 -> n = found_N s' /\ close_to enough (found_usecs s')).
Proof.
  induction tries as [| tries IH]; intros s n s' Hc; cbn [find_loop]; [by intros [= <- <-] |].
  destruct (fltb _ _ && fltb _ _) eqn:Eb.
  - intros [= <- <-]. apply andb_true_iff in Eb as [E1 E2]. split; [done |]. by intros _.
  - intros H. apply bind_Ret_inv in H as (n1 & _ & H). apply bind_Ret_inv in H as ([us s1] & Et & H).
    apply (IH _ _ _) in H; [done |]. by exists s, s1.
Qed.
End Calibration.

(** ** Theorems *)

(** The stop watch: the difference of two readings of the clock is the time between
    them in microseconds, nothing when the clock went back, and [gettime] gives back what
    [settime] stored. *)
Theorem stop_watch {E} (t0 t1 : timeval) (u : Z) (s : st E)
    (H0 : valid_time t0) (H1 : valid_time t1) (Hu : 0 <= u < 2 ^ 64) :
  tvdelta t0 t1 = Z.max 0 (micros t1 - micros t0) /\ gettime (settime u s) = u.
Proof. split; [by apply tvdelta_micros | by apply gettime_settime]. Qed.

(** A computer on which an iteration takes [10] microseconds. *)
Definition ten (k : work_kind) (n : Z) (e : Z) : timeval * timeval * Z :=
  (mkTv (e / 1000000) (e mod 1000000), mkTv ((e + 10 * n) / 1000000) ((e + 10 * n) mod 1000000), e + 10 * n).
Definition ten_state (n : Z) : st Z :=
  mkSt (mkTv 0 0) (mkTv 0 0) 1 (new_result TRIES) 1000 true (Some 0) (Some fzero) 10000 0 n 1 1 0.

Lemma stop_watch_witness :
  tvdelta (mkTv 1 999999) (mkTv 3 2) = Z.max 0 (micros (mkTv 3 2) - micros (mkTv 1 999999)) /\
  gettime (settime 1234567 (ten_state 1)) = 1234567.
Proof. apply stop_watch; [| | split; [discriminate | reflexivity]]; unfold valid_time, micros; cbn [tv_sec tv_usec]; lia. Defined.

(** C1: [find_N] returns 0 or an amount of work whose measured time is within two percent
    of what was asked for. *)
Theorem find_N_measured {E} (work : work_kind -> Z -> E -> timeval * timeval * E) (enough n : Z) (s s' : st E)
    (Hs : found_usecs s = 0 \/ calibrated work s) (Hn : n <> 0) (Hfind : find_N work enough s = Ret (n, s')) :
  exists usecs s0 s1, time_N work n s0 = Ret (usecs, s1) /\ close_to enough usecs.
Proof.
  unfold find_N in Hfind. apply bind_Ret_inv in Hfind as (s1 & Es & H).
  assert (Hc : calibrated work s1).
  { destruct (Z.eqb_spec (found_usecs s) 0) as [E0 | E0].
    - apply bind_Ret_inv in Es as ([us s2] & Et & Es). injection Es as <-. by exists s, s2.
    - injection Es as <-. by destruct Hs. }
  destruct (find_loop_ok work 10 enough s1 n s' Hc H) as [(s2 & s3 & Et) Hr]. destruct (Hr Hn) as [-> Hclose].
  by exists (found_usecs s'), s2, s3.
Qed.

Lemma find_N_measured_witness :
  exists n s', find_N ten 5000 (ten_state 1) = Ret (n, s') /\
    exists usecs s0 s1, time_N ten n s0 = Ret (usecs, s1) /\ close_to 5000 usecs.
Proof.
  do 2 eexists. split; [vm_compute; reflexivity |].
  eapply (find_N_measured ten 5000 _ (ten_state 1)); [left; reflexivity | discriminate | vm_compute; reflexivity].
Defined.

(** C38: [BENCH_INNER] saves a number of iterations that it did not time: when the time of
    the last turn is more than 1.2 times what is enough, the number of iterations is
    adapted before it is saved.  Here 300 iterations of 10 microseconds are timed, and 111
    are saved with their 3000 microseconds. *)
Theorem bench_saves_wrong_count :
  exists s, bench_inner ten 5 Gettimeofday 0 (ten_state 300) = Ret s /\
    gettime s = 10 * 300 /\ get_n s = 111.
Proof. eexists. split; [vm_compute; reflexivity |]. split; vm_compute; reflexivity. Qed.

End LmTimingProofs.
