(* ===== verification/LmHarness.v ===== *)
(** * lmbench/src/lib_timing.c: the benchmark harness

    [benchmp] forks [parallel] children that run the benchmark, and collects their
    measurements over four pipes.  The parent ([benchmp_parent]) and the children
    ([benchmp_child], [benchmp_interval]) are processes that run interleaved: a
    configuration holds where each of them stands and what is in the pipes, and a
    step lets one of them do its next system call.  How long the benchmark takes
    between two calls of [benchmp_interval], how many bytes a [read] of the parent
    gets and whom the scheduler runs is not determined.  A write to a pipe is one
    step; only one child writes its results at a time, which is shown, not assumed. *)
From S2P Require Import Prelude Doubles LmTiming.

Module LmHarness.
Import Doubles LmTiming.

(** ** The children *)
Inductive benchmp_state := Warmup | Timing_interval | Cooldown.
#[export] Instance benchmp_state_eq_dec : EqDecision benchmp_state.
Proof. solve_decision. Defined.

(** The arguments of [benchmp_child] and what the calibration found. *)
Record params := mkParams {
  enough : Z;
  parallel : Z;
  repetitions : Z;
  iterations0 : Z;
  batch0 : Z;
  t_cost : Z;
  l_cost : spec_float
}.

(** [benchmp_child_state]; [r] is what [get_results] points to. *)
Record child_state := mkChild {
  bstate : benchmp_state;
  iters : Z;
  need_warmup : bool;
  count : Z;
  r : result
}.

Section Harness.
Context (P : params).

Definition iterations_batch : Z := if 1 <? parallel P then batch0 P else 1.
(** [benchmp_child], in front of its loop. *)
Definition benchmp_child : child_state :=
  mkChild Warmup (iterations0 P) true 0 (new_result (repetitions P)).

(** [result], and what [gettime] gives behind [settime]; [elapsed] is what [stop] gave. *)
Definition measure (elapsed : Z) (st : child_state) : cres (spec_float * Z) :=
  if need_warmup st then Ret (double (enough P), 0)
  else
    let result := fsub (double elapsed) (fadd (double (t_cost P)) (fmul (double (iters st)) (l_cost P))) in
    usecs ← (if fleb fzero result then to_ulong result else Ret 0);
    Ret (result, usecs).

(** The case [timing_interval]; the flag says that [done] is sent. *)
Definition timing_case (result : spec_float) (usecs : Z) (st : child_state) : cres (child_state * bool) :=
  let e := double (enough P) in
  '(bs, i, rs) ← (if (1 <? parallel P) || fltb (fmul (hundredths 95) e) result then
                    rs ← insertsort usecs (iters st) (r st);
                    let i := count st + 1 in
                    Ret (if repetitions P <=? i then Cooldown else bstate st, i, rs)
                  else Ret (bstate st, count st, r st));
  '(bs, n) ← (if (parallel P =? 1) && (fltb result (fmul (hundredths 99) e) || fltb (fmul (hundredths 120) e) result) then
                if fltb (double 150) result then
                  n ← to_ulong (fadd (fmul (fdiv (double (iters st)) result) (fmul (hundredths 110) e)) (double 1));
                  Ret (bs, n)
                else
                  let n := u64 (Z.shiftl (iters st) 3) in
                  Ret (if (2 ^ 27 <? n) || (fltb result fzero && (2 ^ 20 <? n)) then Cooldown else bs, n)
              else Ret (bs, iters st));
  Ret (mkChild bs n (need_warmup st) i rs, bool_decide (bs = Cooldown)).

(** ** Processes *)
(** A byte in the response pipe: a signal, or byte [k] of a report. *)
Inductive token := Sig | Byte (rs : result) (k : nat).
Definition sizeof_result (repetitions : Z) : Z :=
  if repetitions <=? TRIES then 184 else 184 + (repetitions - TRIES) * 16.
Definition report (rs : result) : list token := map (Byte rs) (seq 0 (Z.to_nat (sizeof_result (repetitions P)))).

(** Where a child is: in the benchmark, or at a system call of [benchmp_interval]
    that returns to the benchmark with the state. *)
Inductive child :=
| Bench (st : child_state)
| SelectStart (st : child_state)
| ReadStart (st : child_state)
| WriteReady (st : child_state)
| WriteDone (st : child_state)
| SelectResult (st : child_state)
| ReadResult (st : child_state)
| WriteResults (st : child_state)
| ReadExit (st : child_state)
| Exited (st : child_state).

Record pipes := mkPipes { start_signal : nat; result_signal : nat; exit_signal : nat; response : list token }.

(** Behind the switch of the case [warmup]. *)
Definition after_warmup (st : child_state) : child :=
  if need_warmup st then WriteReady (mkChild (bstate st) (iters st) false (count st) (r st)) else Bench st.

(** The next step of a child; nothing when it blocks.  [elapsed] is the time of the
    benchmark. *)
Definition child_step (elapsed : Z) (c : child) (p : pipes) : cres (option (child * pipes)) :=
  match c with
  | Bench st =>
      '(result, usecs) ← measure elapsed st;
      match bstate st with
      | Warmup => Ret (Some (SelectStart st, p))
      | Timing_interval =>
          '(st, finished) ← timing_case result usecs st;
          Ret (Some (if finished : bool then WriteDone st else Bench st, p))
      | Cooldown => Ret (Some (SelectResult st, p))
      end
  | SelectStart st =>
      Ret (Some (match start_signal p with
                 | O => after_warmup st
                 | S _ => ReadStart (mkChild Timing_interval (iters st) (need_warmup st) (count st) (r st))
                 end, p))
  | ReadStart st =>
      match start_signal p with
      | O => Ret None
      | S n => Ret (Some (after_warmup st, mkPipes n (result_signal p) (exit_signal p) (response p)))
      end
  | WriteReady st | WriteDone st =>
      Ret (Some (Bench st, mkPipes (start_signal p) (result_signal p) (exit_signal p) (response p ++ [Sig])))
  | SelectResult st =>
      Ret (Some (match result_signal p with O => Bench st | S _ => ReadResult st end, p))
  | ReadResult st =>
      match result_signal p with
      | O => Ret None
      | S n => Ret (Some (WriteResults st, mkPipes (start_signal p) n (exit_signal p) (response p)))
      end
  | WriteResults st =>
      Ret (Some (ReadExit st, mkPipes (start_signal p) (result_signal p) (exit_signal p)
                                (response p ++ report (r st))))
  | ReadExit st =>
      match exit_signal p with
      | O => Ret None
      | S n => Ret (Some (Exited st, mkPipes (start_signal p) (result_signal p) n (response p)))
      end
  | Exited _ => Ret None
  end.

(** Where the parent is: in the loops that collect the [ready] and the [done] signals,
    [i] of them read; in front of asking a child for its report, [i] of them
    collected; reading a report, with what is in [buf]; in front of the [exit]
    signals; at the end, or at [error_exit]. *)
Inductive parent :=
| Collect_ready (i : nat)
| Send_start
| Collect_done (i : nat)
| Ask (i : nat) (merged : result)
| Collect (i : nat) (buf : list token) (merged : result)
| Send_exit (merged : result)
| Finished (merged : result)
| Error_exit.

(** The report that the bytes of the buffer make up. *)
Definition decode (buf : list token) : cres result :=
  match buf with Byte rs _ :: _ => Ret rs | _ => Undef end.

(** [for (j = 0; j < results->N; ++j) insertsort (...)] *)
Fixpoint merge_loop (k : nat) (j : Z) (rs merged : result) : cres result :=
  match k with
  | O => Ret merged
  | S k =>
      x ← deref (aget (v rs) j);
      merged ← insertsort (v_u x) (v_n x) merged;
      merge_loop k (j + 1) rs merged
  end.

Definition exited (c : child) : bool := match c with Exited _ => true | _ => false end.
Definition nchildren : nat := Z.to_nat (parallel P).
Definition put_start n (p : pipes) : pipes := mkPipes n (result_signal p) (exit_signal p) (response p).
Definition put_response l (p : pipes) : pipes := mkPipes (start_signal p) (result_signal p) (exit_signal p) l.

(** Reading at most [want] bytes of the response pipe: [k] says how many there are, at
    least one, when there are any. *)
Definition bytes_read (k want : nat) (p : pipes) : nat :=
  Nat.min (Nat.max 1 k) (Nat.min want (length (response p))).

(** One turn of a loop of the parent, or the code between the loops.  [died] is the
    flag that the handler of [SIGCHLD] sets. *)
Definition parent_step (died : bool) (k : nat) (q : parent) (p : pipes) : cres (parent * pipes) :=
  match q with
  | Collect_ready i =>
      if (i <? nchildren)%nat then
        if died then Ret (Error_exit, p)
        else
          let n := bytes_read k (nchildren - i) p in
          Ret (Collect_ready (i + n), put_response (drop n (response p)) p)
      else Ret (Send_start, p)
  | Send_start => Ret (Collect_done 0, put_start (start_signal p + nchildren) p)
  | Collect_done i =>
      if (i <? nchildren)%nat then
        if died then Ret (Error_exit, p)
        else
          let n := bytes_read k (nchildren - i) p in
          Ret (Collect_done (i + n), put_response (drop n (response p)) p)
      else Ret (Ask 0 (new_result (parallel P * repetitions P)), p)
  | Ask i merged =>
      if (i <? nchildren)%nat then
        Ret (Collect i [] merged,
             mkPipes (start_signal p) (result_signal p + 1) (exit_signal p) (response p))
      else Ret (Send_exit merged, p)
  | Collect i buf merged =>
      let size := Z.to_nat (sizeof_result (repetitions P)) in
      if (length buf <? size)%nat then
        if died then Ret (Error_exit, p)
        else
          let n := bytes_read k (size - length buf) p in
          Ret (Collect i (buf ++ take n (response p)) merged, put_response (drop n (response p)) p)
      else
        rs ← decode buf;
        merged ← merge_loop (Z.to_nat (N rs)) 0 rs merged;
        Ret (Ask (i + 1) merged, p)
  | Send_exit merged =>
      Ret (Finished merged, mkPipes (start_signal p) (result_signal p) (exit_signal p + nchildren) (response p))
  | Finished _ | Error_exit => Ret (q, p)
  end.

(** ** Configurations and steps *)
Record config := mkConfig { par : parent; kids : list child; pps : pipes }.

Definition initial : config :=
  mkConfig (Collect_ready 0) (replicate nchildren (Bench benchmp_child)) (mkPipes 0 0 0 []).

(** What runs: the parent, which reads at most [k] bytes, or child [n], whose benchmark
    took [elapsed] microseconds. *)
Inductive choice := Parent (k : nat) | Child (n : nat) (elapsed : Z).

Definition run_choice (ch : choice) (g : config) : cres config :=
  match ch with
  | Parent k =>
      '(q, p) ← parent_step (existsb exited (kids g)) k (par g) (pps g);
      Ret (mkConfig q (kids g) p)
  | Child n elapsed =>
      match kids g !! n with
      | Some c =>
          o ← child_step elapsed c (pps g);
          match o with
          | Some (c, p) => Ret (mkConfig (par g) (<[n := c]> (kids g)) p)
          | None => Ret g
          end
      | None => Ret g
      end
  end.

Fixpoint run (l : list choice) (g : config) : cres config :=
  match l with [] => Ret g | ch :: l => g ← run_choice ch g; run l g end.
End Harness.

(** Two children, one measurement each. *)
Definition two : params := mkParams 1000 2 1 100 10 0 fzero.
Definition round : list choice := [Child 0 1000; Child 1 1000; Parent 100].
Example two_children :
  match run two (concat (replicate 30 round)) (initial two) with
  | Ret g => match par g with Finished m => (N m, forallb exited (kids g)) | _ => (0, false) end
  | _ => (0, false)
  end = (2, true).
Proof. vm_compute. reflexivity. Qed.

End LmHarness.
