(* ===== verification/LmHarnessProofs.v ===== *)
(** * lmbench/src/lib_timing.c: the protocol of the harness

    The invariant of the configurations of [LmHarness]: how far the children are, what
    is in the pipes and what the parent has collected fit together.  From it: every
    report is merged exactly once, no child waits for a byte that does not come, the
    parent never takes its error path, and a run can always be finished. *)
From stdpp Require Import sorting.
From S2P Require Import Prelude Doubles LmTiming LmTimingProofs LmHarness.

Module LmHarnessProofs.
Import Doubles LmTiming LmTimingProofs LmHarness.

(** ** Merging *)
Lemma merge_loop_ok k : forall j rs m,
  0 <= j -> j + Z.of_nat k = N rs -> N rs <= Z.of_nat (length (v rs)) ->
  merge_loop k j rs m = insert_all (drop (Z.to_nat j) (entries rs)) m.
Proof.
  induction k as [| k IH]; intros j rs m Hj Hk Hl; cbn [merge_loop].
  - rewrite drop_ge; [done |]. unfold entries. rewrite length_take. lia.
  - destruct (aget_Some (v rs) j) as [x Ex]; [lia |]. rewrite Ex. cbn [deref]. rewrite bind_Ret.
    assert (Hx : entries rs !! Z.to_nat j = Some x).
    { unfold entries. rewrite lookup_take, decide_True by lia. unfold aget in Ex. destruct (Z.leb_spec 0 j); [done | lia]. }
    rewrite (drop_S _ _ _ Hx). cbn [insert_all]. apply bind_ext. intros m'.
    rewrite IH by lia. by replace (Z.to_nat (j + 1)) with (S (Z.to_nat j)) by lia.
Qed.

Lemma insert_all_app l1 l2 m : insert_all (l1 ++ l2) m = (insert_all l1 m ≫= insert_all l2).
Proof.
  revert m. induction l1 as [| x l1 IH]; intros m; cbn [insert_all app]; [done |].
  rewrite bind_assoc_cres. apply bind_ext. intros m'. apply IH.
Qed.

(** ** Stages *)
Inductive stage := Start | Ready | Timed | Done | Report | Reported | Gone.
#[export] Instance stage_eq_dec : EqDecision stage.
Proof. solve_decision. Defined.

Definition state_of (c : child) : child_state :=
  match c with
  | Bench st | SelectStart st | ReadStart st | WriteReady st | WriteDone st
  | SelectResult st | ReadResult st | WriteResults st | ReadExit st | Exited st => st
  end.

(** How far a child is; nothing for combinations that do not occur. *)
Definition stage_of (c : child) : option stage :=
  match c with
  | Bench st =>
      match bstate st, need_warmup st with
      | Warmup, true => Some Start
      | Warmup, false => Some Ready
      | Timing_interval, false => Some Timed
      | Cooldown, false => Some Done
      | _, true => None
      end
  | SelectStart st =>
      match bstate st with Warmup => Some (if need_warmup st then Start else Ready) | _ => None end
  | ReadStart st =>
      match bstate st, need_warmup st with Timing_interval, false => Some Ready | _, _ => None end
  | WriteReady st =>
      match bstate st, need_warmup st with Warmup, false => Some Start | _, _ => None end
  | WriteDone st =>
      match bstate st, need_warmup st with Cooldown, false => Some Timed | _, _ => None end
  | SelectResult st | ReadResult st =>
      match bstate st, need_warmup st with Cooldown, false => Some Done | _, _ => None end
  | WriteResults _ => Some Report
  | ReadExit _ => Some Reported
  | Exited _ => Some Gone
  end.

Definition cnt (s : stage) (l : list child) : nat := length (filter (fun c => stage_of c = Some s) l).

Definition at_stage (s : stage) (c : child) : nat := if decide (stage_of c = Some s) then 1%nat else 0%nat.

Lemma cnt_cons s c l : cnt s (c :: l) = (at_stage s c + cnt s l)%nat.
Proof. unfold cnt, at_stage. rewrite filter_cons. by destruct (decide _). Qed.

Lemma cnt_insert s l n c c' :
  l !! n = Some c -> (cnt s (<[n := c']> l) + at_stage s c = cnt s l + at_stage s c')%nat.
Proof.
  revert n. induction l as [| d l IH]; intros n; [done |]. destruct n as [| n]; cbn [lookup list_lookup insert list_insert].
  - intros [= ->]. rewrite !cnt_cons. lia.
  - intros H. apply IH in H. rewrite !cnt_cons. unfold insert in *. lia.
Qed.

Lemma cnt_pos s l n c : l !! n = Some c -> stage_of c = Some s -> (1 <= cnt s l)%nat.
Proof.
  intros H Hs. apply list_elem_of_lookup_2, list_elem_of_split in H as (l1 & l2 & ->).
  unfold cnt. rewrite filter_app, length_app, filter_cons, decide_True by done. cbn [length]. lia.
Qed.

Lemma cnt_some s l : (1 <= cnt s l)%nat -> exists n c, l !! n = Some c /\ stage_of c = Some s.
Proof.
  induction l as [| c l IH]; [cbn; lia |]. rewrite cnt_cons. unfold at_stage. destruct (decide _) as [E | E].
  - intros _. by exists 0%nat, c.
  - intros H. destruct (IH H) as (n & d & Hn & Hd). by exists (S n), d.
Qed.

(** Every child is at exactly one stage. *)
Definition staged (l : list child) : Prop := Forall (fun c => stage_of c <> None) l.
Lemma cnt_total l : staged l ->
  (cnt Start l + cnt Ready l + cnt Timed l + cnt Done l + cnt Report l + cnt Reported l + cnt Gone l = length l)%nat.
Proof.
  induction 1 as [| c l Hc H IH]; [done |]. rewrite !cnt_cons. cbn [length]. rewrite <- IH.
  unfold at_stage. destruct (stage_of c) as [[] |]; [.. | done];
    repeat (case_decide; try congruence); lia.
Qed.

(** The reports that have been written. *)
Definition reported (l : list child) : list result :=
  omap (fun c => match c with ReadExit st | Exited st => Some (r st) | _ => None end) l.

Lemma reported_insert l n c c' :
  l !! n = Some c ->
  reported (<[n := c']> l) ++ reported [c] ≡ₚ reported [c'] ++ reported l.
Proof.
  revert n. induction l as [| d l IH]; intros n; [done |]. destruct n as [| n]; cbn [lookup list_lookup].
  - intros [= ->]. change (<[0%nat := c']> (c :: l)) with (c' :: l).
    change (reported (c' :: l)) with (reported ([c'] ++ l)). change (reported (c :: l)) with (reported ([c] ++ l)).
    unfold reported. rewrite !omap_app. rewrite <- !app_assoc. apply Permutation_app_head, Permutation_app_comm.
  - intros H. apply IH in H. change (<[S n := c']> (d :: l)) with (d :: <[n := c']> l).
    change (reported (d :: ?x)) with (reported ([d] ++ x)). unfold reported in *.
    rewrite (omap_app _ [d] (<[n:=c']> l)), (omap_app _ [d] l).
    rewrite <- app_assoc, H. rewrite !app_assoc. apply Permutation_app_tail, Permutation_app_comm.
Qed.
Section Protocol.
Context (P : params).
(** The arguments that [benchmp] passes; [repetitions] is replaced when it is negative. *)
Hypothesis Hpar : 1 <= parallel P.
Hypothesis Hrep : 1 <= repetitions P.

(** ** What the state of a child satisfies *)
Record good_result (i : Z) (x : result) : Prop := {
  gr_count : 0 <= N x <= i;
  gr_room : Z.of_nat (length (v x)) = capacity (repetitions P);
  gr_used : Forall (fun y => v_u y <> 0) (entries x);
  gr_sorted : Sorted not_below (entries x)
}.

Definition good_state (st : child_state) : Prop :=
  good_result (count st) (r st) /\ count st <= repetitions P /\
  (bstate st <> Cooldown -> count st < repetitions P).
Definition good (c : child) : Prop := stage_of c <> None /\ good_state (state_of c).

Lemma new_result_entries k : entries (new_result k) = [].
Proof. done. Qed.

Lemma good_initial : good (Bench (benchmp_child P)).
Proof.
  split; [done |]. split; [| split; cbn; intros; lia]. cbn [r count state_of benchmp_child]. constructor.
  - cbn. lia.
  - unfold new_result. cbn [v]. rewrite length_replicate. unfold capacity. destruct (Z.leb_spec (repetitions P) TRIES); unfold TRIES in *; lia.
  - rewrite new_result_entries. constructor.
  - rewrite new_result_entries. constructor.
Qed.

Lemma capacity_ge : repetitions P <= capacity (repetitions P).
Proof. unfold capacity. destruct (Z.leb_spec (repetitions P) TRIES); lia. Qed.

Lemma insertsort_good u n i x :
  good_result i x -> i < repetitions P ->
  exists x', insertsort u n x = Ret x' /\ good_result (i + 1) x'.
Proof.
  intros [G1 G2 G3 G4] Hi. pose proof capacity_ge as Hc. destruct (Z.eq_dec u 0) as [-> | Hu].
  - exists x. split; [done |]. constructor; [lia | done | done | done].
  - destruct (insertsort_ok u n x) as (x' & E & E1 & E2 & E3); [unfold room; lia | done |].
    exists x'. split; [done |]. constructor; [lia | by rewrite E2 | |].
    + rewrite E3, (ins_perm _ _). by constructor.
    + rewrite E3. by apply ins_sorted.
Qed.

Lemma timing_case_good result usecs st st' (fin : bool) :
  good_state st -> bstate st = Timing_interval -> timing_case P result usecs st = Ret (st', fin) ->
  good_state st' /\ need_warmup st' = need_warmup st /\ bstate st' = (if fin then Cooldown else Timing_interval).
Proof.
  intros (G & Hc & Hlt) Hb. specialize (Hlt ltac:(congruence)). unfold timing_case. cbn zeta. intros H.
  apply bind_Ret_inv in H as ([[bs i] rs] & H1 & H).
  assert (Hrs : good_result i rs /\ i <= repetitions P /\ (bs = Timing_interval /\ i < repetitions P \/ bs = Cooldown)).
  { destruct (_ || _).
    - apply bind_Ret_inv in H1 as (rs' & E & H1). injection H1 as <- <- <-.
      destruct (insertsort_good usecs (iters st) (count st) (r st) G Hlt) as (x' & E' & G').
      rewrite E' in E. injection E as ->. split; [done |]. split; [lia |].
      destruct (Z.leb_spec (repetitions P) (count st + 1)); [by right | left; split; [done | lia]].
    - injection H1 as <- <- <-. split; [done |]. split; [lia |]. left. split; [done | lia]. }
  destruct Hrs as (Grs & Hi & Hbs). apply bind_Ret_inv in H as ([bs' n] & H2 & H). injection H as <- <-.
  assert (Hbs' : bs' = bs \/ bs' = Cooldown).
  { destruct (_ && _); [| injection H2 as <- <-; by left]. destruct (fltb (double 150) result).
    - apply bind_Ret_inv in H2 as (m & _ & H2). injection H2 as <- <-. by left.
    - injection H2 as <- <-. match goal with |- context [if ?b then _ else _] => destruct b end; [by right | by left]. }
  split; [| split; [done |]].
  - split; [done |]. split; [done |]. cbn. intros Hne. destruct Hbs as [[-> ?] | ->]; [lia |]. by destruct Hbs' as [-> | ->].
  - cbn [bstate]. destruct Hbs' as [-> | ->], Hbs as [[-> _] | ->]; done.
Qed.

(** ** The effect of a step of a child *)
Definition add_response (l : list token) (p : pipes) : pipes :=
  mkPipes (start_signal p) (result_signal p) (exit_signal p) (response p ++ l).

Definition has_reported (s : stage) : bool := match s with Reported | Gone => true | _ => false end.

Inductive effect (c c' : child) (p : pipes) : pipes -> Prop :=
| eff_stay s : stage_of c = Some s -> stage_of c' = Some s -> has_reported s = false -> effect c c' p p
| eff_ready : stage_of c = Some Start -> stage_of c' = Some Ready -> effect c c' p (add_response [Sig] p)
| eff_timed n : stage_of c = Some Ready -> stage_of c' = Some Timed -> start_signal p = S n ->
    effect c c' p (mkPipes n (result_signal p) (exit_signal p) (response p))
| eff_done : stage_of c = Some Timed -> stage_of c' = Some Done -> effect c c' p (add_response [Sig] p)
| eff_report n : stage_of c = Some Done -> stage_of c' = Some Report -> result_signal p = S n ->
    effect c c' p (mkPipes (start_signal p) n (exit_signal p) (response p))
| eff_reported st : c = WriteResults st -> c' = ReadExit st ->
    effect c c' p (add_response (report P (r st)) p)
| eff_gone st n : c = ReadExit st -> c' = Exited st -> exit_signal p = S n ->
    effect c c' p (mkPipes (start_signal p) (result_signal p) n (response p)).

Lemma child_step_effect elapsed c p c' p' :
  good c -> (stage_of c = Some Start -> start_signal p = 0%nat) ->
  child_step P elapsed c p = Ret (Some (c', p')) -> good c' /\ effect c c' p p'.
Proof.
  intros (Hst & G) Hstart H. pose proof G as (G1 & G2 & G3).
  destruct c as [st | st | st | st | st | st | st | st | st | st]; cbn [child_step state_of stage_of] in *.
  - apply bind_Ret_inv in H as ([result usecs] & _ & H).
    destruct (bstate st) eqn:Eb.
    + injection H as <- <-. split; [split; [cbn [stage_of]; by rewrite Eb | done] |].
      destruct (need_warmup st) eqn:Ew; [apply (eff_stay _ _ _ Start) | apply (eff_stay _ _ _ Ready)];
        cbn [stage_of]; by rewrite ?Eb, ?Ew.
    + apply bind_Ret_inv in H as ([st' fin] & E & H). injection H as <- <-.
      destruct (timing_case_good _ _ _ _ _ G Eb E) as (G' & Ew & Eb'). destruct (need_warmup st) eqn:Ew0; [done |].
      split; [split; [| by destruct fin] |].
      * destruct fin; cbn [stage_of]; by rewrite Eb', Ew.
      * apply (eff_stay _ _ _ Timed); [by cbn [stage_of]; rewrite Eb, Ew0 | by destruct fin; cbn [stage_of]; rewrite Eb', Ew | done].
    + injection H as <- <-. destruct (need_warmup st) eqn:Ew; [done |].
      split; [split; [cbn [stage_of]; by rewrite Eb, Ew | done] |]. apply (eff_stay _ _ _ Done); cbn [stage_of]; by rewrite ?Eb, ?Ew.
  - destruct (bstate st) eqn:Eb; try done. injection H as <- <-. destruct (start_signal p) as [| n] eqn:Es.
    + unfold after_warmup. destruct (need_warmup st) eqn:Ew.
      * split; [split; [cbn [stage_of]; by rewrite Eb | done] |]. apply (eff_stay _ _ _ Start); cbn [stage_of bstate need_warmup]; by rewrite ?Eb, ?Ew.
      * split; [split; [cbn [stage_of]; by rewrite Eb, Ew | done] |]. apply (eff_stay _ _ _ Ready); cbn [stage_of]; by rewrite ?Eb, ?Ew.
    + destruct (need_warmup st) eqn:Ew; [by specialize (Hstart eq_refl) |].
      split; [split; [done |] |].
      * split; [done |]. split; [done |]. cbn. intros _. apply G3. congruence.
      * apply (eff_stay _ _ _ Ready); cbn [stage_of bstate need_warmup]; by rewrite ?Eb, ?Ew.
  - destruct (bstate st) eqn:Eb; try done. destruct (need_warmup st) eqn:Ew; [done |].
    destruct (start_signal p) as [| n] eqn:Es; [done |]. unfold after_warmup in H. rewrite Ew in H. injection H as <- <-.
    split; [split; [cbn [stage_of]; by rewrite Eb, Ew | done] |]. apply eff_timed; cbn [stage_of]; by rewrite ?Eb, ?Ew.
  - destruct (bstate st) eqn:Eb; try done. destruct (need_warmup st) eqn:Ew; [done |]. injection H as <- <-.
    split; [split; [cbn [stage_of]; by rewrite Eb, Ew | done] |]. apply eff_ready; cbn [stage_of]; by rewrite ?Eb, ?Ew.
  - destruct (bstate st) eqn:Eb; try done. destruct (need_warmup st) eqn:Ew; [done |]. injection H as <- <-.
    split; [split; [cbn [stage_of]; by rewrite Eb, Ew | done] |]. apply eff_done; cbn [stage_of]; by rewrite ?Eb, ?Ew.
  - destruct (bstate st) eqn:Eb; try done. destruct (need_warmup st) eqn:Ew; [done |]. injection H as <- <-.
    split; [split; [destruct (result_signal p); cbn [stage_of]; by rewrite Eb, Ew | by destruct (result_signal p)] |].
    apply (eff_stay _ _ _ Done); [by cbn [stage_of]; rewrite Eb, Ew | destruct (result_signal p); cbn [stage_of]; by rewrite Eb, Ew | done].
  - destruct (bstate st) eqn:Eb; try done. destruct (need_warmup st) eqn:Ew; [done |].
    destruct (result_signal p) as [| n] eqn:Es; [done |]. injection H as <- <-.
    split; [done |]. apply eff_report; cbn [stage_of]; by rewrite ?Eb, ?Ew.
  - injection H as <- <-. split; [done |]. by apply (eff_reported _ _ _ st).
  - destruct (exit_signal p) as [| n] eqn:Es; [done |]. injection H as <- <-. split; [done |]. by apply (eff_gone _ _ _ st).
  - done.
Qed.
(** ** Counting *)
Definition same_stage (s t : stage) : nat :=
  match s, t with
  | Start, Start | Ready, Ready | Timed, Timed | Done, Done
  | Report, Report | Reported, Reported | Gone, Gone => 1
  | _, _ => 0
  end.

Lemma cnt_move l k c c' s s' t :
  l !! k = Some c -> stage_of c = Some s -> stage_of c' = Some s' ->
  (cnt t (<[k := c']> l) + same_stage s t = cnt t l + same_stage s' t)%nat.
Proof.
  intros Hk Hs Hs'. pose proof (cnt_insert t l k c c' Hk) as H. unfold at_stage in H. rewrite Hs, Hs' in H.
  replace (if decide (Some s = Some t) then 1%nat else 0%nat) with (same_stage s t) in H
    by (destruct (decide (Some s = Some t)) as [[= <-] | Hne]; [by destruct s | destruct s, t; (reflexivity || congruence)]).
  replace (if decide (Some s' = Some t) then 1%nat else 0%nat) with (same_stage s' t) in H
    by (destruct (decide (Some s' = Some t)) as [[= <-] | Hne]; [by destruct s' | destruct s', t; (reflexivity || congruence)]).
  done.
Qed.

Lemma reported_none c s : stage_of c = Some s -> has_reported s = false -> reported [c] = [].
Proof.
  destruct c as [st | st | st | st | st | st | st | st | st | st]; cbn [stage_of]; try done;
    by intros [= <-].
Qed.

Lemma reported_same l k c c' :
  l !! k = Some c -> reported [c] = reported [c'] -> reported (<[k := c']> l) ≡ₚ reported l.
Proof.
  intros Hk E. pose proof (reported_insert l k c c' Hk) as H. rewrite E in H.
  rewrite (Permutation_app_comm (reported [c'])) in H. by apply Permutation_app_inv_r in H.
Qed.

Lemma reported_more l k c c' x :
  l !! k = Some c -> reported [c] = [] -> reported [c'] = [x] -> reported (<[k := c']> l) ≡ₚ x :: reported l.
Proof.
  intros Hk E E'. pose proof (reported_insert l k c c' Hk) as H. by rewrite E, E', app_nil_r in H.
Qed.

Lemma reported_length l : length (reported l) = (cnt Reported l + cnt Gone l)%nat.
Proof.
  induction l as [| c l IH]; [done |]. rewrite !cnt_cons.
  change (reported (c :: l)) with (reported ([c] ++ l)). unfold reported in *. rewrite omap_app, length_app, IH.
  unfold at_stage. destruct c as [st | st | st | st | st | st | st | st | st | st]; cbn [stage_of omap list_omap length];
    try destruct (bstate st), (need_warmup st); repeat (case_decide; try congruence); lia.
Qed.

Lemma reported_good l x : Forall good l -> x ∈ reported l -> exists i, good_result i x /\ i <= repetitions P.
Proof.
  intros H Hx. unfold reported in Hx. apply list_elem_of_omap in Hx as (c & Hc & E). rewrite Forall_forall in H.
  destruct (H c Hc) as (_ & G1 & G2 & _). exists (count (state_of c)). split; [| done].
  destruct c; try done; by injection E as <-.
Qed.

(** ** The invariant *)
Abbreviation nk := (nchildren P).
(** [m] is what the reports [ord] come to. *)
Definition collected (ord : list result) (m : result) : Prop :=
  insert_all (concat (map entries ord)) (new_result (parallel P * repetitions P)) = Ret m.
Definition all_collected (l : list child) (m : result) : Prop :=
  exists ord, collected ord m /\ ord ≡ₚ reported l.

Definition phase (q : parent) (l : list child) (p : pipes) : Prop :=
  match q with
  | Collect_ready i =>
      (exists m, response p = replicate m Sig /\ (i + m = cnt Ready l)%nat) /\
      (cnt Start l + cnt Ready l = nk)%nat /\ start_signal p = 0%nat /\ result_signal p = 0%nat /\ exit_signal p = 0%nat
  | Send_start =>
      response p = [] /\ cnt Ready l = nk /\ start_signal p = 0%nat /\ result_signal p = 0%nat /\ exit_signal p = 0%nat
  | Collect_done i =>
      (exists m, response p = replicate m Sig /\ (i + m = cnt Done l)%nat) /\
      (cnt Ready l + cnt Timed l + cnt Done l = nk)%nat /\ start_signal p = cnt Ready l /\
      result_signal p = 0%nat /\ exit_signal p = 0%nat
  | Ask i m =>
      response p = [] /\ (cnt Done l + cnt Reported l = nk)%nat /\ cnt Reported l = i /\
      (start_signal p = 0 /\ result_signal p = 0 /\ exit_signal p = 0)%nat /\ all_collected l m
  | Collect i buf m =>
      (start_signal p = 0 /\ exit_signal p = 0)%nat /\ (i < nk)%nat /\
      ((result_signal p = 1 /\ cnt Done l + cnt Reported l = nk /\ cnt Reported l = i)%nat /\
         response p = [] /\ buf = [] /\ all_collected l m \/
       (result_signal p = 0 /\ cnt Done l + 1 + cnt Reported l = nk /\ cnt Report l = 1 /\ cnt Reported l = i)%nat /\
         response p = [] /\ buf = [] /\ all_collected l m \/
       (result_signal p = 0 /\ cnt Done l + cnt Reported l = nk /\ cnt Reported l = S i)%nat /\
         exists x ord, collected ord m /\ x :: ord ≡ₚ reported l /\ buf ++ response p = report P x)
  | Send_exit m =>
      response p = [] /\ cnt Reported l = nk /\
      (start_signal p = 0 /\ result_signal p = 0 /\ exit_signal p = 0)%nat /\ all_collected l m
  | Finished m =>
      response p = [] /\ (cnt Reported l + cnt Gone l = nk)%nat /\
      (start_signal p = 0 /\ result_signal p = 0 /\ exit_signal p = cnt Reported l)%nat /\ all_collected l m
  | Error_exit => False
  end.

Definition inv (g : config) : Prop :=
  length (kids g) = nk /\ Forall good (kids g) /\ phase (par g) (kids g) (pps g).

Lemma good_staged l : Forall good l -> staged l.
Proof. intros H. eapply Forall_impl; [exact H |]. by intros c [Hc _]. Qed.

Lemma all_collected_perm l l' m : reported l' ≡ₚ reported l -> all_collected l m -> all_collected l' m.
Proof. intros E (ord & H1 & H2). exists ord. by rewrite E. Qed.

Lemma inv_initial : inv (initial P).
Proof.
  split; [cbn; apply length_replicate |]. split; [apply Forall_replicate, good_initial |]. cbn [phase par initial kids pps].
  assert (H : forall k, cnt Ready (replicate k (Bench (benchmp_child P))) = 0%nat /\
                        cnt Start (replicate k (Bench (benchmp_child P))) = k).
  { induction k as [| k [IH1 IH2]]; [done |]. cbn [replicate]. rewrite !cnt_cons, IH1, IH2. done. }
  destruct (H nk) as [-> ->]. split; [by exists 0%nat |]. lia || (split; [lia | done]).
Qed.
(** ** The invariant is kept *)
(** Where the children are, before and after a child moved from [s] to [s']. *)
Definition moved (s s' : stage) (l l' : list child) : Prop :=
  (forall t, (cnt t l' + same_stage s t = cnt t l + same_stage s' t)%nat) /\
  (cnt Start l + cnt Ready l + cnt Timed l + cnt Done l + cnt Report l + cnt Reported l + cnt Gone l = nk)%nat.

Lemma moved_counts s s' l l' : moved s s' l l' ->
  (cnt Start l' + same_stage s Start = cnt Start l + same_stage s' Start /\
   cnt Ready l' + same_stage s Ready = cnt Ready l + same_stage s' Ready /\
   cnt Timed l' + same_stage s Timed = cnt Timed l + same_stage s' Timed /\
   cnt Done l' + same_stage s Done = cnt Done l + same_stage s' Done /\
   cnt Report l' + same_stage s Report = cnt Report l + same_stage s' Report /\
   cnt Reported l' + same_stage s Reported = cnt Reported l + same_stage s' Reported /\
   cnt Gone l' + same_stage s Gone = cnt Gone l + same_stage s' Gone /\
   cnt Start l + cnt Ready l + cnt Timed l + cnt Done l + cnt Report l + cnt Reported l + cnt Gone l = nk)%nat.
Proof. intros [H T]. repeat split; try apply H. done. Qed.

Ltac counts H := apply moved_counts in H; cbn [same_stage] in H.

Lemma phase_stay q l l' p s :
  moved s s l l' -> reported l' ≡ₚ reported l -> phase q l p -> phase q l' p.
Proof.
  intros M Hr. assert (E : forall t, cnt t l' = cnt t l) by (intros t; destruct M as [M _]; specialize (M t); lia).
  destruct q; cbn [phase]; rewrite ?E; try done.
  - intros (H1 & H2 & H3 & H4 & H5). pose proof (all_collected_perm l l' _ Hr H5). done.
  - intros (H1 & H2 & [(H3 & H4 & H5 & H6) | [(H3 & H4 & H5 & H6) | (H3 & x & ord & H4 & H5 & H6)]]);
      (split; [done |]; split; [done |]).
    + left. pose proof (all_collected_perm l l' _ Hr H6). done.
    + right. left. pose proof (all_collected_perm l l' _ Hr H6). done.
    + right. right. split; [done |]. exists x, ord. by rewrite Hr.
  - intros (H1 & H2 & H3 & H4). pose proof (all_collected_perm l l' _ Hr H4). done.
  - intros (H1 & H2 & H3 & H4). pose proof (all_collected_perm l l' _ Hr H4). done.
Qed.

Lemma phase_ready q l l' p :
  moved Start Ready l l' -> (1 <= cnt Start l)%nat -> phase q l p -> phase q l' (add_response [Sig] p).
Proof.
  intros M Hs. counts M. destruct q; cbn [phase add_response response start_signal result_signal exit_signal];
    try (intros; lia); try done.
  intros ((m & -> & Hm) & H1 & H2 & H3 & H4). split; [| lia]. exists (S m). split; [| lia]. by rewrite replicate_S_end.
Qed.

Lemma phase_timed q l l' p k :
  moved Ready Timed l l' -> (1 <= cnt Ready l)%nat -> start_signal p = S k -> phase q l p ->
  phase q l' (mkPipes k (result_signal p) (exit_signal p) (response p)).
Proof.
  intros M Hs Hk. counts M. destruct q; cbn [phase response start_signal result_signal exit_signal];
    try (intros; lia); try done.
  intros ((m & Hr & Hm) & H1 & H2 & H3 & H4). split; [exists m; split; [done | lia] | lia].
Qed.

Lemma phase_done q l l' p :
  moved Timed Done l l' -> (1 <= cnt Timed l)%nat -> phase q l p -> phase q l' (add_response [Sig] p).
Proof.
  intros M Hs. counts M. destruct q; cbn [phase add_response response start_signal result_signal exit_signal];
    try (intros; lia); try done.
  intros ((m & -> & Hm) & H1 & H2 & H3 & H4). split; [| lia]. exists (S m). split; [| lia]. by rewrite replicate_S_end.
Qed.

Lemma phase_report q l l' p k :
  moved Done Report l l' -> (1 <= cnt Done l)%nat -> result_signal p = S k -> reported l' ≡ₚ reported l -> phase q l p ->
  phase q l' (mkPipes (start_signal p) k (exit_signal p) (response p)).
Proof.
  intros M Hs Hk Hr. counts M. destruct q; cbn [phase response start_signal result_signal exit_signal];
    try (intros; lia); try done.
  intros (H1 & H2 & [(H3 & H4 & H5 & H6) | [(H3 & H4) | (H3 & H4)]]); [| lia | lia].
  split; [done |]. split; [done |]. right. left. split; [lia |]. split; [done |]. split; [done |].
  by apply (all_collected_perm l).
Qed.

Lemma phase_reported q l l' p x :
  moved Report Reported l l' -> (1 <= cnt Report l)%nat -> reported l' ≡ₚ x :: reported l -> phase q l p ->
  phase q l' (add_response (report P x) p).
Proof.
  intros M Hs Hr. counts M. destruct q; cbn [phase add_response response start_signal result_signal exit_signal];
    try (intros; lia); try done.
  intros (H1 & H2 & [(H3 & H4) | [(H3 & H4 & H5 & ord & H6 & H7) | (H3 & H4)]]); [lia | | lia].
  split; [done |]. split; [done |]. right. right. split; [lia |]. exists x, ord. split; [done |].
  split; [by rewrite Hr, H7 |]. by rewrite H4, H5.
Qed.

Lemma phase_gone q l l' p k :
  moved Reported Gone l l' -> (1 <= cnt Reported l)%nat -> exit_signal p = S k -> reported l' ≡ₚ reported l -> phase q l p ->
  phase q l' (mkPipes (start_signal p) (result_signal p) k (response p)).
Proof.
  intros M Hs Hk Hr. counts M. destruct q; cbn [phase response start_signal result_signal exit_signal];
    try (intros; lia); try done.
  intros (H1 & H2 & H3 & H4). split; [done |]. split; [lia |]. split; [lia |]. by apply (all_collected_perm l).
Qed.

Lemma start_children q l p k c :
  phase q l p -> length l = nk -> staged l -> l !! k = Some c -> stage_of c = Some Start -> start_signal p = 0%nat.
Proof.
  intros H Hl Hst Hk Hs. pose proof (cnt_pos Start l k c Hk Hs) as Hp. pose proof (cnt_total l Hst) as T. rewrite Hl in T.
  destruct q; cbn [phase] in H; try done; try lia.
Qed.

Lemma inv_child k elapsed g g' :
  inv g -> run_choice P (Child k elapsed) g = Ret g' -> inv g'.
Proof.
  intros (Hl & Hg & Hph). cbn [run_choice]. destruct (kids g !! k) as [c |] eqn:Hk; [| by intros [= <-]].
  intros H. apply bind_Ret_inv in H as ([[c' p'] |] & E & H); [| by injection H as <-]. injection H as <-.
  pose proof (good_staged _ Hg) as Hst.
  assert (Hgc : good c) by (rewrite Forall_forall in Hg; apply Hg; by apply list_elem_of_lookup_2 in Hk).
  destruct (child_step_effect elapsed c (pps g) c' p' Hgc) as [Hgc' Heff]; [| done |].
  { intros Hs. by apply (start_children (par g) (kids g) (pps g) k c). }
  split; [cbn [kids]; by rewrite length_insert |]. split; [cbn [kids]; by apply Forall_insert |]. cbn [kids par pps].
  assert (M : forall s s', stage_of c = Some s -> stage_of c' = Some s' -> moved s s' (kids g) (<[k := c']> (kids g))).
  { intros s s' Hs Hs'. split; [intros t; by apply (cnt_move _ k c c') | by rewrite (cnt_total _ Hst)]. }
  pose proof (fun s => cnt_pos s (kids g) k c Hk) as Hpos.
  assert (Hsame : forall s s', stage_of c = Some s -> stage_of c' = Some s' -> has_reported s = false -> has_reported s' = false ->
            reported (<[k := c']> (kids g)) ≡ₚ reported (kids g)).
  { intros s s' Hs Hs' Ht Ht'. apply (reported_same _ k c c' Hk). by rewrite (reported_none c s), (reported_none c' s'). }
  destruct Heff as [s Hs Hs' Ht | Hs Hs' | m Hs Hs' Hm | Hs Hs' | m Hs Hs' Hm | st E1 E2 | st m E1 E2 Hm]; [.. | subst c c' | subst c c'].
  - apply (phase_stay _ (kids g) _ _ s); [by apply M | by apply (Hsame s s) | done].
  - apply (phase_ready _ (kids g)); [by apply M | by apply Hpos | done].
  - apply (phase_timed _ (kids g)); [by apply M | by apply Hpos | done | done].
  - apply (phase_done _ (kids g)); [by apply M | by apply Hpos | done].
  - apply (phase_report _ (kids g)); [by apply M | by apply Hpos | done | by apply (Hsame Done Report) | done].
  - apply (phase_reported _ (kids g)); [by apply M | by apply Hpos | by apply (reported_more _ k _ _ _ Hk) | done].
  - apply (phase_gone _ (kids g)); [by apply M | by apply Hpos | done | by apply (reported_same _ k _ _ Hk) | done].
Qed.
(** ** Steps of the parent *)
Lemma nobody_exited l : cnt Gone l = 0%nat -> existsb exited l = false.
Proof.
  induction l as [| c l IH]; [done |]. rewrite cnt_cons. intros H. cbn [existsb]. rewrite IH by lia.
  destruct c; try done.
Qed.

Lemma all_collected_ok ord :
  Forall (fun x => exists i, good_result i x /\ i <= repetitions P) ord -> (length ord <= nk)%nat ->
  exists m, collected ord m /\ entries m ≡ₚ concat (map entries ord) /\ Sorted not_below (entries m) /\
    N m = Z.of_nat (length (concat (map entries ord))) /\ N m <= Z.of_nat (length (v m)).
Proof.
  intros H Hlen. set (all := concat (map entries ord)).
  assert (Hm : measured all = all).
  { unfold measured. assert (F : Forall (fun y => v_u y <> 0) all).
    { unfold all. clear - H. induction H as [| x ord (i & G & _) H IH]; cbn [map concat]; [constructor |].
      apply Forall_app. split; [by apply (gr_used i) | done]. }
    clear - F. induction F as [| y l Hy F IH]; cbn [List.filter]; [done |].
    destruct (Z.eqb_spec (v_u y) 0); [done |]. cbn [negb]. by rewrite IH. }
  assert (Hall : Z.of_nat (length all) <= Z.of_nat (length ord) * repetitions P).
  { unfold all. clear - H. induction H as [| x ord (i & G & Hi) H IH]; cbn [map concat length]; [lia |].
    rewrite length_app. pose proof (gr_count _ _ G). unfold entries at 1. rewrite length_take. lia. }
  assert (Hc : parallel P * repetitions P <= capacity (parallel P * repetitions P)).
  { unfold capacity. destruct (Z.leb_spec (parallel P * repetitions P) TRIES); lia. }
  set (r0 := new_result (parallel P * repetitions P)).
  assert (Hr0 : Z.of_nat (length (v r0)) = capacity (parallel P * repetitions P)).
  { unfold r0, new_result. cbn [v]. rewrite length_replicate. unfold nchildren in *.
    assert (0 <= parallel P * repetitions P) by nia. lia. }
  destruct (insert_all_ok all r0) as (m & E & E1 & E2 & E3 & E4).
  - done.
  - rewrite Hm, Hr0. cbn [N new_result r0]. unfold nchildren in Hlen. change (N r0) with 0. nia.
  - constructor.
  - rewrite Hm in E2, E3. change (entries r0) with (@nil value) in E3. rewrite app_nil_r in E3.
    change (N r0) with 0 in E2. exists m. split; [done |]. split; [done |]. split; [done |]. split; [lia |].
    rewrite E1, Hr0. unfold nchildren in Hlen. nia.
Qed.

Lemma merge_ok l ord x m :
  Forall good l -> (length (reported l) <= nk)%nat -> collected ord m -> x :: ord ≡ₚ reported l ->
  exists m', merge_loop (Z.to_nat (N x)) 0 x m = Ret m' /\ collected (ord ++ [x]) m'.
Proof.
  intros Hg Hlen Hm Hx.
  assert (Hall : Forall (fun x => exists i, good_result i x /\ i <= repetitions P) (ord ++ [x])).
  { apply Forall_forall. intros y Hy. apply (reported_good l); [done |]. rewrite <- Hx.
    rewrite elem_of_app, list_elem_of_singleton in Hy. apply elem_of_cons. tauto. }
  destruct (all_collected_ok (ord ++ [x]) Hall) as (m' & Hm' & _).
  { rewrite <- Hx in Hlen. cbn [length] in Hlen. rewrite length_app. cbn [length]. lia. }
  exists m'. split; [| done]. apply Forall_app in Hall as [_ Hall]. apply Forall_cons in Hall as [(i & G & Hi) _].
  pose proof (gr_count _ _ G). pose proof (gr_room _ _ G). pose proof capacity_ge.
  rewrite merge_loop_ok by lia. change (Z.to_nat 0) with 0%nat. rewrite drop_0.
  unfold collected in *. rewrite map_app, concat_app, insert_all_app, Hm, bind_Ret in Hm'.
  cbn [map concat] in Hm'. by rewrite app_nil_r in Hm'.
Qed.

Lemma bytes_le k want p : (bytes_read k want p <= length (response p))%nat.
Proof. unfold bytes_read. lia. Qed.

Lemma read_signals k want p m :
  response p = replicate m Sig ->
  exists m', drop (bytes_read k want p) (response p) = replicate m' Sig /\ (bytes_read k want p + m' = m)%nat.
Proof.
  intros E. pose proof (bytes_le k want p) as H. rewrite E in H. rewrite length_replicate in H.
  exists (m - bytes_read k want p)%nat. rewrite E, drop_replicate. split; [done | lia].
Qed.

Lemma report_length x : length (report P x) = Z.to_nat (sizeof_result (repetitions P)).
Proof. unfold report. by rewrite length_map, length_seq. Qed.

Lemma report_size : (1 <= Z.to_nat (sizeof_result (repetitions P)))%nat.
Proof. unfold sizeof_result. destruct (Z.leb_spec (repetitions P) TRIES); unfold TRIES in *; lia. Qed.

Lemma decode_report x : decode (report P x) = Ret x.
Proof.
  pose proof report_size. unfold report. destruct (Z.to_nat (sizeof_result (repetitions P))) as [| k]; [lia |]. done.
Qed.

Lemma collect_step i buf m l p k :
  phase (Collect i buf m) l p -> Forall good l -> length l = nk ->
  exists q' p', parent_step P (existsb exited l) k (Collect i buf m) p = Ret (q', p') /\ phase q' l p'.
Proof.
  intros H Hg Hl. pose proof (cnt_total l (good_staged l Hg)) as T. rewrite Hl in T.
  pose proof (reported_length l) as RL. pose proof report_size as RS.
  cbn [phase] in H. destruct H as (H1 & H2 & H3).
  assert (Hex : existsb exited l = false) by (apply nobody_exited; lia). rewrite Hex. cbn [parent_step].
  set (size := Z.to_nat (sizeof_result (repetitions P))) in *. set (b := bytes_read k (size - length buf) p).
  destruct (Nat.ltb_spec (length buf) size) as [Hlt | Hge].
  - do 2 eexists. split; [reflexivity |]. cbn [phase put_response start_signal result_signal exit_signal response].
    split; [done |]. split; [done |].
    assert (E : (buf ++ take b (response p)) ++ drop b (response p) = buf ++ response p)
      by (by rewrite <- app_assoc, take_drop).
    destruct H3 as [(A1 & A2 & A3 & A4) | [(A1 & A2 & A3 & A4) | (A1 & x & ord & A2 & A3 & A4)]].
    + left. split; [done |]. rewrite A2, A3. by rewrite take_nil, drop_nil.
    + right. left. split; [done |]. rewrite A2, A3. by rewrite take_nil, drop_nil.
    + right. right. split; [done |]. exists x, ord. by rewrite E.
  - destruct H3 as [(A1 & A2 & A3 & A4) | [(A1 & A2 & A3 & A4) | (A1 & x & ord & A2 & A3 & A4)]];
      [rewrite A3 in Hge; cbn in Hge; lia | rewrite A3 in Hge; cbn in Hge; lia |].
    pose proof (f_equal length A4) as E. rewrite length_app, report_length in E. fold size in E.
    assert (Hresp : response p = []) by (apply length_zero_iff_nil; lia).
    rewrite Hresp, app_nil_r in A4. rewrite A4, decode_report, bind_Ret.
    destruct (merge_ok l ord x m Hg ltac:(lia) A2 A3) as (m' & -> & Hm'). rewrite bind_Ret.
    do 2 eexists. split; [reflexivity |]. cbn [phase]. split; [done |]. split; [lia |]. split; [lia |]. split; [lia |].
    exists (ord ++ [x]). split; [done |]. by rewrite <- A3, <- Permutation_cons_append.
Qed.

Lemma inv_parent k g : inv g -> exists g', run_choice P (Parent k) g = Ret g' /\ inv g'.
Proof.
  intros (Hl & Hg & H). pose proof (cnt_total _ (good_staged _ Hg)) as T. rewrite Hl in T.
  assert (K : exists q' p', parent_step P (existsb exited (kids g)) k (par g) (pps g) = Ret (q', p') /\ phase q' (kids g) p').
  2:{ destruct K as (q' & p' & E & H'). cbn [run_choice]. rewrite E, bind_Ret. eexists. split; [reflexivity |]. done. }
  pose proof (reported_length (kids g)) as RL.
  destruct (par g) as [i | | i | i m | i buf m | m | m |] eqn:Eq.
  - cbn [phase] in H. destruct H as ((m & Hr & Hm) & H1 & H2 & H3 & H4).
    rewrite (nobody_exited (kids g)) by lia. cbn [parent_step]. destruct (Nat.ltb_spec i nk) as [Hi | Hi].
    + destruct (read_signals k (nk - i) (pps g) m Hr) as (m' & E1 & E2). do 2 eexists. split; [reflexivity |].
      cbn [phase put_response start_signal result_signal exit_signal response]. split; [exists m'; split; [done | lia] | lia].
    + do 2 eexists. split; [reflexivity |]. cbn [phase]. replace m with 0%nat in Hr by lia. split; [done | lia].
  - cbn [phase] in H. destruct H as (Hr & H1 & H2 & H3 & H4). cbn [parent_step]. do 2 eexists. split; [reflexivity |].
    cbn [phase put_start start_signal result_signal exit_signal response]. split; [exists 0%nat; split; [done | lia] | lia].
  - cbn [phase] in H. destruct H as ((m & Hr & Hm) & H1 & H2 & H3 & H4).
    rewrite (nobody_exited (kids g)) by lia. cbn [parent_step]. destruct (Nat.ltb_spec i nk) as [Hi | Hi].
    + destruct (read_signals k (nk - i) (pps g) m Hr) as (m' & E1 & E2). do 2 eexists. split; [reflexivity |].
      cbn [phase put_response start_signal result_signal exit_signal response]. split; [exists m'; split; [done | lia] | lia].
    + do 2 eexists. split; [reflexivity |]. cbn [phase]. replace m with 0%nat in Hr by lia. split; [done |].
      split; [lia |]. split; [lia |]. split; [lia |]. exists []. split; [done |].
      by rewrite (nil_length_inv (reported (kids g))) by lia.
  - cbn [phase] in H. destruct H as (Hr & H1 & H2 & H3 & H4). cbn [parent_step]. destruct (Nat.ltb_spec i nk) as [Hi | Hi].
    + do 2 eexists. split; [reflexivity |]. cbn [phase start_signal result_signal exit_signal response].
      split; [lia |]. split; [done |]. left. split; [lia |]. done.
    + do 2 eexists. split; [reflexivity |]. cbn [phase]. split; [done |]. split; [lia |]. done.
  - by apply collect_step.
  - cbn [phase] in H. destruct H as (Hr & H1 & H2 & H3). cbn [parent_step]. do 2 eexists. split; [reflexivity |].
    cbn [phase start_signal result_signal exit_signal response]. split; [done |]. split; [lia |]. split; [lia | done].
  - do 2 eexists. split; [reflexivity | done].
  - done.
Qed.

Lemma inv_run l : forall g g', inv g -> run P l g = Ret g' -> inv g'.
Proof.
  induction l as [| ch l IH]; intros g g' Hi; cbn [run]; [by intros [= <-] |].
  intros H. apply bind_Ret_inv in H as (g1 & E & H). apply (IH g1); [| done].
  destruct ch as [k | k elapsed]; [| by apply (inv_child k elapsed g)].
  destruct (inv_parent k g Hi) as (g2 & E2 & Hi2). congruence.
Qed.
End Protocol.

End LmHarnessProofs.
