(* ===== verification/LmHarnessTheorems.v ===== *)
(** * lmbench/src/lib_timing.c: what the harness guarantees

    Every run that ends has merged the report of every child exactly once, in order;
    no run goes wrong; and every run of several children can be brought to its end. *)
From stdpp Require Import sorting.
From S2P Require Import Prelude Doubles LmTiming LmTimingProofs LmHarness LmHarnessProofs.

Module LmHarnessTheorems.
Import Doubles LmTiming LmTimingProofs LmHarness LmHarnessProofs.

Section Progress.
Context (P : params).
Hypothesis Hpar : 1 < parallel P.
Hypothesis Hrep : 1 <= repetitions P.
(** Some time of the benchmark can be converted. *)
Hypothesis Hmeasure : forall st, exists elapsed x, measure P elapsed st = Ret x.

(** ** How much is left to do *)
Definition size : nat := Z.to_nat (sizeof_result (repetitions P)).
Definition work (c : child) : nat :=
  let later := Z.to_nat (repetitions P) in
  match c with
  | Bench st =>
      match bstate st with
      | Warmup => (if need_warmup st then size + 14 + later else size + 10 + later)%nat
      | Timing_interval => (size + 7 + Z.to_nat (repetitions P - count st))%nat
      | Cooldown => (size + 5)%nat
      end
  | SelectStart st => (if need_warmup st then size + 13 + later else size + 9 + later)%nat
  | ReadStart _ => (size + 8 + later)%nat
  | WriteReady _ => (size + 12 + later)%nat
  | WriteDone _ => (size + 7)%nat
  | SelectResult _ => (size + 4)%nat
  | ReadResult _ => (size + 3)%nat
  | WriteResults _ => (size + 2)%nat
  | ReadExit _ => 1%nat
  | Exited _ => 0%nat
  end.
Definition rank (q : parent) : nat :=
  let n := nchildren P in
  match q with
  | Collect_ready _ => (2 * n + 6)%nat
  | Send_start => (2 * n + 5)%nat
  | Collect_done _ => (2 * n + 4)%nat
  | Ask i _ => (2 * (n - i) + 3)%nat
  | Collect i _ _ => (2 * (n - i) + 2)%nat
  | Send_exit _ => 2%nat
  | Finished _ => 1%nat
  | Error_exit => 0%nat
  end.
Definition left_to_do (g : config) : nat :=
  (list_sum (map work (kids g)) + length (response (pps g)) + rank (par g))%nat.

Lemma sum_insert l k c c' :
  l !! k = Some c -> (list_sum (map work (<[k := c']> l)) + work c = list_sum (map work l) + work c')%nat.
Proof.
  revert k. induction l as [| d l IH]; intros k; [done |]. destruct k as [| k]; cbn [lookup list_lookup].
  - intros [= ->]. change (<[0%nat := c']> (c :: l)) with (c' :: l). cbn [map list_sum foldr]. lia.
  - intros H. apply IH in H. change (<[S k := c']> (d :: l)) with (d :: <[k := c']> l). cbn [map].
    change (list_sum (?x :: ?y)) with (x + list_sum y)%nat. lia.
Qed.

Lemma timing_case_ok result usecs st :
  good_state P st -> bstate st = Timing_interval ->
  exists st' fin, timing_case P result usecs st = Ret (st', fin) /\ count st' = count st + 1.
Proof.
  intros (G & Hc & Hlt) Hb. specialize (Hlt ltac:(congruence)). unfold timing_case. cbn zeta.
  destruct (Z.ltb_spec 1 (parallel P)); [| lia]. cbn [orb].
  destruct (insertsort_good P usecs (iters st) (count st) (r st) G Hlt) as (x' & -> & _). rewrite !bind_Ret.
  destruct (Z.eqb_spec (parallel P) 1); [lia |]. cbn [andb]. rewrite bind_Ret. by do 2 eexists.
Qed.

(** What a child has to have to go on. *)
Definition can_go (s : stage) (p : pipes) : Prop :=
  match s with
  | Start => start_signal p = 0%nat
  | Ready => (0 < start_signal p)%nat
  | Timed | Report => True
  | Done => (0 < result_signal p)%nat
  | Reported => (0 < exit_signal p)%nat
  | Gone => False
  end.

Lemma child_progress c p s :
  good P c -> stage_of c = Some s -> can_go s p ->
  exists elapsed c' p', child_step P elapsed c p = Ret (Some (c', p')) /\
    (work c' + length (response p') < work c + length (response p))%nat.
Proof.
  intros (Hst & G) Hs Hgo. pose proof G as (G1 & G2 & G3).
  destruct c as [st | st | st | st | st | st | st | st | st | st]; cbn [state_of stage_of] in *.
  - destruct (Hmeasure st) as (elapsed & [result usecs] & E). exists elapsed. cbn [child_step]. rewrite E, bind_Ret.
    destruct (bstate st) eqn:Eb.
    + do 2 eexists. split; [reflexivity |]. cbn [work]. rewrite Eb. destruct (need_warmup st); lia.
    + destruct (timing_case_ok result usecs st G Eb) as (st' & fin & E2 & Ecount). rewrite E2, bind_Ret.
      destruct (timing_case_good P _ _ _ _ _ G Eb E2) as (_ & _ & Eb'). specialize (G3 ltac:(congruence)).
      do 2 eexists. split; [reflexivity |]. destruct fin; cbn [work]; rewrite ?Eb, ?Eb'; lia.
    + do 2 eexists. split; [reflexivity |]. cbn [work]. rewrite Eb. lia.
  - exists 0. cbn [child_step]. do 2 eexists. split; [reflexivity |]. destruct (bstate st) eqn:Eb; try done.
    destruct (need_warmup st) eqn:Ew; injection Hs as <-; cbn [can_go] in Hgo.
    + rewrite Hgo. unfold after_warmup. rewrite Ew. cbn [work]. rewrite Ew. lia.
    + destruct (start_signal p); [lia |]. cbn [work]. rewrite Ew. lia.
  - exists 0. cbn [child_step]. destruct (bstate st) eqn:Eb; try done. destruct (need_warmup st) eqn:Ew; [done |].
    injection Hs as <-. cbn [can_go] in Hgo. destruct (start_signal p) as [| m]; [lia |].
    do 2 eexists. split; [reflexivity |]. unfold after_warmup. rewrite Ew. cbn [work response]. rewrite Eb.
    pose proof (gr_count _ _ _ G1). lia.
  - exists 0. cbn [child_step]. do 2 eexists. split; [reflexivity |]. destruct (bstate st) eqn:Eb; try done.
    destruct (need_warmup st) eqn:Ew; [done |]. cbn [work response]. rewrite Eb, Ew, length_app. cbn [length]. lia.
  - exists 0. cbn [child_step]. do 2 eexists. split; [reflexivity |]. destruct (bstate st) eqn:Eb; try done.
    cbn [work response]. rewrite Eb, length_app. cbn [length]. lia.
  - exists 0. cbn [child_step]. do 2 eexists. split; [reflexivity |]. destruct (bstate st) eqn:Eb; try done.
    destruct (need_warmup st) eqn:Ew; [done |]. injection Hs as <-. cbn [can_go] in Hgo.
    destruct (result_signal p); [lia |]. cbn [work]. lia.
  - exists 0. cbn [child_step]. destruct (bstate st) eqn:Eb; try done. destruct (need_warmup st) eqn:Ew; [done |].
    injection Hs as <-. cbn [can_go] in Hgo. destruct (result_signal p) as [| m]; [lia |].
    do 2 eexists. split; [reflexivity |]. cbn [work response]. lia.
  - exists 0. cbn [child_step]. do 2 eexists. split; [reflexivity |]. cbn [work response].
    rewrite length_app, report_length. unfold size. lia.
  - exists 0. cbn [child_step]. injection Hs as <-. cbn [can_go] in Hgo. destruct (exit_signal p) as [| m]; [lia |].
    do 2 eexists. split; [reflexivity |]. cbn [work response]. lia.
  - by injection Hs as <-.
Qed.

Definition finished (g : config) : Prop := exists m, par g = Finished m /\ forallb exited (kids g) = true.
Definition closer (g : config) : Prop :=
  exists ch g', run_choice P ch g = Ret g' /\ (left_to_do g' < left_to_do g)%nat.

Lemma closer_child g s :
  inv P g -> (1 <= cnt s (kids g))%nat -> can_go s (pps g) -> closer g.
Proof.
  intros (Hl & Hg & H) Hc Hgo. destruct (cnt_some s (kids g) Hc) as (k & c & Hk & Hs).
  assert (Hgc : good P c) by (rewrite Forall_forall in Hg; apply Hg; by apply list_elem_of_lookup_2 in Hk).
  destruct (child_progress c (pps g) s Hgc Hs Hgo) as (elapsed & c' & p' & E & Hlt).
  exists (Child k elapsed). eexists. cbn [run_choice]. rewrite Hk, E, bind_Ret. split; [reflexivity |].
  unfold left_to_do. cbn [kids par pps]. pose proof (sum_insert (kids g) k c c' Hk). lia.
Qed.

Lemma closer_parent k g q' p' :
  parent_step P (existsb exited (kids g)) k (par g) (pps g) = Ret (q', p') ->
  (length (response p') + rank q' < length (response (pps g)) + rank (par g))%nat -> closer g.
Proof.
  intros E Hlt. exists (Parent k). eexists. cbn [run_choice]. rewrite E, bind_Ret. split; [reflexivity |].
  unfold left_to_do. cbn [kids par pps]. lia.
Qed.

(** Reading bytes that are there. *)
Lemma read_shorter want p : (0 < want)%nat -> response p <> [] ->
  (length (drop (bytes_read 1 want p) (response p)) < length (response p))%nat.
Proof. intros Hw Hr. rewrite length_drop. unfold bytes_read. destruct (response p); [done |]. cbn [length]. lia. Qed.

Lemma all_exited l : Forall (good P) l -> cnt Gone l = length l -> forallb exited l = true.
Proof.
  induction 1 as [| c l Hc H IH]; [done |]. rewrite cnt_cons. cbn [length forallb]. unfold at_stage.
  pose proof (cnt_total l (good_staged P l H)) as T.
  destruct (decide (stage_of c = Some Gone)) as [E | E]; intros Hn; [| lia].
  rewrite IH by lia. destruct c as [st | st | st | st | st | st | st | st | st | st]; cbn [stage_of] in E; try done;
    by destruct (bstate st), (need_warmup st).
Qed.

Lemma progress g : inv P g -> finished g \/ closer g.
Proof.
  intros Hi. pose proof Hi as (Hl & Hg & H). pose proof (cnt_total _ (good_staged P _ Hg)) as T. rewrite Hl in T.
  pose proof (report_size P) as RS. pose proof (eq_refl size) as Esz. unfold size at 2 in Esz.
  destruct (par g) as [i | | i | i m | i buf m | m | m |] eqn:Eq; cbn [phase] in H.
  - destruct H as ((m & Hr & Hm) & H1 & H2 & H3 & H4). right. destruct (Nat.ltb_spec i (nchildren P)) as [Hlt | Hge].
    + destruct m as [| m].
      * apply (closer_child g Start); [done | lia | done].
      * eapply (closer_parent 1); rewrite ?(nobody_exited (kids g)) by lia; rewrite Eq; cbn [parent_step].
        -- destruct (Nat.ltb_spec i (nchildren P)); [reflexivity | lia].
        -- cbn [put_response response rank]. pose proof (read_shorter (nchildren P - i) (pps g) ltac:(lia)) as Hs.
           rewrite Hr in Hs at 1. specialize (Hs ltac:(done)). lia.
    + eapply (closer_parent 1); rewrite Eq; cbn [parent_step].
      * destruct (Nat.ltb_spec i (nchildren P)); [lia | reflexivity].
      * cbn [rank]. lia.
  - right. eapply (closer_parent 1); rewrite Eq; cbn [parent_step]; [reflexivity |]. cbn [rank put_start response]. lia.
  - destruct H as ((m & Hr & Hm) & H1 & H2 & H3 & H4). right. destruct (Nat.ltb_spec i (nchildren P)) as [Hlt | Hge].
    + destruct m as [| m].
      * destruct (decide (cnt Ready (kids g) = 0%nat)) as [E0 | E0].
        -- apply (closer_child g Timed); [done | lia | done].
        -- apply (closer_child g Ready); [done | lia |]. cbn [can_go]. lia.
      * eapply (closer_parent 1); rewrite ?(nobody_exited (kids g)) by lia; rewrite Eq; cbn [parent_step].
        -- destruct (Nat.ltb_spec i (nchildren P)); [reflexivity | lia].
        -- cbn [put_response response rank]. pose proof (read_shorter (nchildren P - i) (pps g) ltac:(lia)) as Hs.
           rewrite Hr in Hs at 1. specialize (Hs ltac:(done)). lia.
    + eapply (closer_parent 1); rewrite Eq; cbn [parent_step].
      * destruct (Nat.ltb_spec i (nchildren P)); [lia | reflexivity].
      * cbn [rank]. lia.
  - destruct H as (Hr & H1 & H2 & H3 & H4). right.
    destruct (Nat.ltb_spec i (nchildren P)) as [Hlt | Hge]; eapply (closer_parent 1); rewrite Eq; cbn [parent_step].
    + destruct (Nat.ltb_spec i (nchildren P)); [reflexivity | lia].
    + cbn [rank response]. lia.
    + destruct (Nat.ltb_spec i (nchildren P)); [lia | reflexivity].
    + cbn [rank]. lia.
  - right. destruct H as (H1 & H2 & [(A1 & A2 & A3 & A4) | [(A1 & A2 & A3 & A4) | (A1 & x & ord & A2 & A3 & A4)]]).
    + apply (closer_child g Done); [done | lia |]. cbn [can_go]. lia.
    + apply (closer_child g Report); [done | lia | done].
    + pose proof (f_equal length A4) as E. rewrite length_app, report_length in E. fold size in E, RS.
      destruct (Nat.ltb_spec (length buf) size) as [Hlt | Hge].
      * eapply (closer_parent 1); rewrite ?(nobody_exited (kids g)) by lia; rewrite Eq; cbn [parent_step]; fold size.
        -- destruct (Nat.ltb_spec (length buf) size); [reflexivity | lia].
        -- cbn [put_response response rank]. pose proof (read_shorter (size - length buf) (pps g) ltac:(lia)) as Hs.
           assert (Hne : response (pps g) <> []) by (intros E0; rewrite E0 in E; cbn in E; lia). specialize (Hs Hne). lia.
      * destruct (inv_parent P ltac:(lia) Hrep 1 g Hi) as (g' & Eg & Hi').
        cbn [run_choice] in Eg. apply bind_Ret_inv in Eg as ([q' p'] & Ep & Eg).
        eapply (closer_parent 1); [exact Ep |]. rewrite Eq in Ep. cbn [parent_step] in Ep. fold size in Ep.
        destruct (Nat.ltb_spec (length buf) size); [lia |]. apply bind_Ret_inv in Ep as (y & _ & Ep).
        apply bind_Ret_inv in Ep as (m' & _ & Ep). injection Ep as <- <-. rewrite Eq. cbn [rank]. lia.
  - right. eapply (closer_parent 1); rewrite Eq; cbn [parent_step]; [reflexivity |]. cbn [rank response]. lia.
  - destruct H as (Hr & H1 & (H2 & H3 & H4) & H5). destruct (decide (cnt Reported (kids g) = 0%nat)) as [E0 | E0].
    + left. exists m. split; [done |]. apply all_exited; [done | lia].
    + right. apply (closer_child g Reported); [done | lia |]. cbn [can_go]. lia.
  - done.
Qed.

Lemma can_finish k : forall g, inv P g -> (left_to_do g < k)%nat -> exists l g', run P l g = Ret g' /\ finished g'.
Proof.
  induction k as [| k IH]; intros g Hi Hk; [lia |]. destruct (progress g Hi) as [Hf | (ch & g1 & E & Hlt)].
  - by exists [], g.
  - assert (E1 : run P [ch] g = Ret g1) by (cbn [run]; by rewrite E, bind_Ret).
    destruct (IH g1) as (l & g' & E' & Hf); [by apply (inv_run P ltac:(lia) Hrep [ch] g) | lia |].
    exists (ch :: l), g'. split; [| done]. cbn [run]. by rewrite E, bind_Ret.
Qed.
End Progress.

(** ** Theorems *)
Lemma reported_all l :
  length (reported l) = length l -> reported l = map (fun c => r (state_of c)) l.
Proof.
  assert (Hle : forall k, (length (reported k) <= length k)%nat).
  { induction k as [| c k IH]; [done |]. change (reported (c :: k)) with (reported ([c] ++ k)).
    unfold reported in *. rewrite omap_app, length_app. cbn [length]. destruct c; cbn; lia. }
  induction l as [| c l IH]; [done |]. change (reported (c :: l)) with (reported ([c] ++ l)).
  unfold reported in *. rewrite omap_app, length_app. cbn [length map]. specialize (Hle l).
  destruct c; cbn [omap list_omap length app state_of]; intros H; try lia; (f_equal; apply IH; lia).
Qed.

(** No child waits for a start signal that is not there. *)
Definition readers_served (g : config) : Prop :=
  forall k st, kids g !! k = Some (ReadStart st) -> start_signal (pps g) <> 0%nat.

Lemma readers_initial P : readers_served (initial P).
Proof. intros k st H. cbn [kids initial] in H. by apply lookup_replicate in H as [H _]. Qed.

Lemma read_start_step P elapsed c p st p' :
  child_step P elapsed c p = Ret (Some (ReadStart st, p')) -> start_signal p <> 0%nat.
Proof.
  intros H. destruct c; cbn [child_step] in H;
    repeat match goal with
    | H : (_ ≫= _) = Ret _ |- _ => apply bind_Ret_inv in H as ([? ?] & _ & H)
    | H : context [match bstate ?x with _ => _ end] |- _ => destruct (bstate x)
    | H : context [match ?x p with _ => _ end] |- _ => destruct (x p) eqn:?
    | H : context [if ?x then _ else _] |- _ => destruct x
    | H : context [after_warmup ?x] |- _ => unfold after_warmup in H
    end; try done; by injection H.
Qed.

Definition early (q : parent) : bool := match q with Collect_ready _ | Send_start => true | _ => false end.

Lemma early_start P g : inv P g -> early (par g) = true -> start_signal (pps g) = 0%nat.
Proof. intros (_ & _ & H) E. destruct (par g); try done; cbn [phase] in H; lia. Qed.

Lemma late_readers P g : inv P g -> early (par g) = false -> readers_served g.
Proof.
  intros (Hl & Hg & H) E k st Hk. pose proof (cnt_total _ (good_staged P _ Hg)) as T. rewrite Hl in T.
  assert (Hs : stage_of (ReadStart st) = Some Ready).
  { rewrite Forall_forall in Hg. destruct (Hg (ReadStart st)) as [Hs _]; [by apply list_elem_of_lookup_2 in Hk |].
    cbn [stage_of] in *. by destruct (bstate st), (need_warmup st). }
  pose proof (cnt_pos Ready _ _ _ Hk Hs) as Hc. destruct (par g); try done; cbn [phase] in H; lia.
Qed.

Lemma early_before P died k q p q' p' :
  parent_step P died k q p = Ret (q', p') -> early q' = true -> early q = true.
Proof.
  destruct q; cbn [parent_step early]; try done; intros H;
    repeat match goal with
    | H : context [if ?x then _ else _] |- _ => destruct x
    | H : (_ ≫= _) = Ret _ |- _ => apply bind_Ret_inv in H as (? & _ & H)
    end; by injection H as <- _.
Qed.

Lemma readers_step P ch g g' :
  inv P g -> inv P g' -> readers_served g -> run_choice P ch g = Ret g' -> readers_served g'.
Proof.
  intros Hi Hi' Hr E. destruct (early (par g')) eqn:Ee; [| by apply (late_readers P)].
  assert (Hno : start_signal (pps g) = 0%nat -> forall k st, kids g !! k <> Some (ReadStart st)).
  { intros H0 k st Hk. by apply (Hr k st Hk). }
  destruct ch as [n | n elapsed]; cbn [run_choice] in E.
  - apply bind_Ret_inv in E as ([q p] & Ep & E). injection E as <-. cbn [par] in Ee.
    pose proof (early_start P g Hi (early_before _ _ _ _ _ _ _ Ep Ee)) as H0.
    intros k st Hk. exfalso. by apply (Hno H0 k st).
  - destruct (kids g !! n) as [c |] eqn:En; [| by injection E as <-].
    apply bind_Ret_inv in E as ([[c' p'] |] & Ec & E); injection E as <-; [| done].
    pose proof (early_start P g Hi Ee) as H0. intros k st Hk. cbn [kids] in Hk. exfalso.
    destruct (decide (n = k)) as [-> | Hne].
    + rewrite list_lookup_insert_eq in Hk by (by apply lookup_lt_Some in En). injection Hk as ->.
      by apply read_start_step in Ec.
    + rewrite list_lookup_insert_ne in Hk by done. by apply (Hno H0 k st).
Qed.

Lemma readers_served_run P (Hpar : 1 <= parallel P) (Hrep : 1 <= repetitions P) l : forall g g',
  inv P g -> readers_served g -> run P l g = Ret g' -> readers_served g'.
Proof.
  induction l as [| ch l IH]; intros g g' Hi Hrs; cbn [run]; [by intros [= <-] |].
  intros H. apply bind_Ret_inv in H as (g1 & E & H).
  assert (Hi1 : inv P g1) by (apply (inv_run P Hpar Hrep [ch] g); [done | cbn [run]; by rewrite E]).
  apply (IH g1); [done | by apply (readers_step P ch g) | done].
Qed.

(** C38: a run of the harness that has collected its results has merged the report of every
    child exactly once, and the merged measurements are ordered from the biggest to the
    smallest time per iteration, whatever the scheduler, the clock and the sizes of the
    reads were. *)
Theorem reports_merged_once (P : params) (l : list choice) (g : config) (m : result)
    (Hpar : 1 <= parallel P) (Hrep : 1 <= repetitions P)
    (Hrun : run P l (initial P) = Ret g) (Hfin : par g = Finished m) :
  entries m ≡ₚ concat (map (fun c => entries (r (state_of c))) (kids g)) /\
  Sorted not_below (entries m).
Proof.
  pose proof (inv_run P Hpar Hrep l _ g (inv_initial P Hrep) Hrun) as (Hl & Hg & H).
  rewrite Hfin in H. destruct H as (_ & H1 & _ & ord & Hm & Hord).
  pose proof (reported_length (kids g)) as RL.
  assert (Hall : Forall (fun x => exists i, good_result P i x /\ i <= repetitions P) ord).
  { apply Forall_forall. intros x Hx. apply (reported_good P (kids g)); [done |]. by rewrite <- Hord. }
  destruct (all_collected_ok P Hpar Hrep ord Hall) as (m' & Hm' & E & Hs & _); [rewrite Hord; lia |].
  unfold collected in *. assert (m' = m) as -> by congruence. split; [| done].
  rewrite E, Hord, reported_all by lia. by rewrite map_map.
Qed.

(** No run goes wrong: the parent is never undefined and never takes its error path, a
    child that waits for the start signal has one to read, at most one child writes its
    report at a time, no child exits before the parent has finished, and every child
    that waits for the exit signal then has one to read. *)
Theorem protocol_safe (P : params) (l : list choice) (g : config)
    (Hpar : 1 <= parallel P) (Hrep : 1 <= repetitions P) (Hrun : run P l (initial P) = Ret g) :
  (forall k, exists g', run_choice P (Parent k) g = Ret g' /\ par g' <> Error_exit) /\
  (forall k st, kids g !! k = Some (ReadStart st) -> start_signal (pps g) <> 0%nat) /\
  (cnt Report (kids g) <= 1)%nat /\
  (forall k st, kids g !! k = Some (Exited st) -> exists m, par g = Finished m) /\
  (forall m k st, par g = Finished m -> kids g !! k = Some (ReadExit st) -> exit_signal (pps g) <> 0%nat).
Proof.
  pose proof (inv_run P Hpar Hrep l _ g (inv_initial P Hrep) Hrun) as Hi. pose proof Hi as (Hl & Hg & H).
  pose proof (cnt_total _ (good_staged P _ Hg)) as T. rewrite Hl in T.
  split; [| split; [| split; [| split]]].
  - intros k. destruct (inv_parent P Hpar Hrep k g Hi) as (g' & E & (_ & _ & H')). exists g'.
    split; [done |]. by destruct (par g').
  - by apply (readers_served_run P Hpar Hrep l (initial P) g (inv_initial P Hrep) (readers_initial P)).
  - destruct (par g); cbn [phase] in H; try done; lia.
  - intros k st Hk. pose proof (cnt_pos Gone _ _ _ Hk eq_refl) as Hc.
    destruct (par g) as [i | | i | i m | i buf m | m | m |]; cbn [phase] in H; try done; try lia. by exists m.
  - intros m k st E Hk. pose proof (cnt_pos Reported _ _ _ Hk eq_refl) as Hc. rewrite E in H. cbn [phase] in H. lia.
Qed.

(** C39: with several children a run can always be brought to its end: from every
    configuration that is reached there is a continuation after which the parent has
    finished and every child has exited. *)
Theorem run_can_finish (P : params) (l : list choice) (g : config)
    (Hpar : 1 < parallel P) (Hrep : 1 <= repetitions P)
    (Hmeasure : forall st, exists elapsed x, measure P elapsed st = Ret x)
    (Hrun : run P l (initial P) = Ret g) :
  exists l' g', run P l' g = Ret g' /\ finished g'.
Proof.
  assert (Hp : 1 <= parallel P) by lia.
  pose proof (inv_run P Hp Hrep l _ g (inv_initial P Hrep) Hrun) as Hi.
  apply (can_finish P Hpar Hrep Hmeasure (S (left_to_do P g))); [done | lia].
Qed.

(** ** Concrete runs *)
Definition two_run : list choice := concat (replicate 30 round).
Definition two_end : config :=
  match run two two_run (initial two) with Ret g => g | _ => initial two end.

Lemma reports_merged_once_witness :
  exists m, par two_end = Finished m /\
    entries m ≡ₚ concat (map (fun c => entries (r (state_of c))) (kids two_end)) /\ Sorted not_below (entries m).
Proof.
  eexists. split; [vm_compute; reflexivity |].
  apply (reports_merged_once two two_run two_end); [discriminate | discriminate | vm_compute; reflexivity | vm_compute; reflexivity].
Defined.

Lemma protocol_safe_witness :
  exists g, run two (take 20 two_run) (initial two) = Ret g /\
    (forall k, exists g', run_choice two (Parent k) g = Ret g' /\ par g' <> Error_exit) /\
    (forall k st, kids g !! k = Some (ReadStart st) -> start_signal (pps g) <> 0%nat) /\
    (cnt Report (kids g) <= 1)%nat /\
    (forall k st, kids g !! k = Some (Exited st) -> exists m, par g = Finished m) /\
    (forall m k st, par g = Finished m -> kids g !! k = Some (ReadExit st) -> exit_signal (pps g) <> 0%nat).
Proof.
  eexists. split; [vm_compute; reflexivity |].
  apply (protocol_safe two (take 20 two_run)); [discriminate | discriminate | vm_compute; reflexivity].
Defined.

Lemma two_measure st : exists elapsed x, measure two elapsed st = Ret x.
Proof.
  exists 0. unfold measure. destruct (need_warmup st); [by eexists |]. cbn [two t_cost l_cost].
  destruct (double (iters st)) as [[] | [] | | [] m e]; vm_compute; eexists; reflexivity.
Qed.

Lemma run_can_finish_witness :
  exists g, run two (take 20 two_run) (initial two) = Ret g /\
    exists l' g', run two l' g = Ret g' /\ finished g'.
Proof.
  eexists. split; [vm_compute; reflexivity |].
  apply (run_can_finish two (take 20 two_run)); [reflexivity | discriminate | apply two_measure | vm_compute; reflexivity].
Defined.

End LmHarnessTheorems.
