(* ===== verification/BasicStats.v ===== *)
(** * httperf/src/stat/basic.c: the statistics of a test

    What the handlers of the events count, and what [dump] computes from it.  The
    counters are [u_int]s that wrap, the sums are doubles.  The eight counters of
    errors are the record [errors]; the five fields that are kept for the life times
    of the connections, and again for the reply rates, are the record [samples].
    [conn_lifetime_hist] is an array of [NUM_BINS] counters, 0 where the map has
    nothing; a write outside it is undefined.  [num_active_conns], [num_replies]
    (here [interval_replies]) and [first_time] are statics of the file.  What the
    handlers do to the connection or the call of the event is done by their callers
    in Httperf.  The lines that are only printed with [verbose] are left out. *)
From S2P Require Import Prelude Doubles.

Module BasicStats.
Import Doubles.

Definition fnum (z : Z) : spec_float := double z.
(** 100.0, 1e-3 and the largest double. *)
Definition MAX_LIFETIME : spec_float := double 100.
Definition BIN_WIDTH : spec_float := fdiv (double 1) (double 1000).
Definition DBL_MAX : spec_float := S754_finite false (2 ^ 53 - 1) 971.

(** The conversion of a double to [u_int]: towards zero, undefined out of range. *)
Definition to_uint (x : spec_float) : cres Z :=
  match x with
  | S754_zero _ => Ret 0
  | S754_finite sign m e =>
      let v := Z.shiftl (Zpos m) e in
      if v =? 0 then Ret 0
      else if sign then Undef else if v <? 2 ^ 32 then Ret v else Undef
  | _ => Undef
  end.

(** [((u_int) (MAX_LIFETIME / BIN_WIDTH))] *)
Definition NUM_BINS : Z := match to_uint (fdiv MAX_LIFETIME BIN_WIDTH) with Ret n => n | _ => 0 end.

Example NUM_BINS_value : NUM_BINS = 100000.
Proof. vm_compute. reflexivity. Qed.

Record errors := mkErrors {
  num_client_timeouts : Z;
  num_sock_fdunavail : Z;
  num_sock_ftabfull : Z;
  num_sock_refused : Z;
  num_sock_reset : Z;
  num_sock_timeouts : Z;
  num_sock_addrunavail : Z;
  num_other_errors : Z
}.
Record samples := mkSamples {
  num : Z;
  total : spec_float;
  total2 : spec_float;
  least : spec_float;
  greatest : spec_float
}.
Record basic := mkBasic {
  num_conns_issued : Z;
  num_replies : list Z;
  errs : errors;
  max_conns : Z;
  lifetimes : samples;
  reply_rates : samples;
  num_connects : Z;
  conn_connect_sum : spec_float;
  num_responses : Z;
  call_response_sum : spec_float;
  call_xfer_sum : spec_float;
  num_sent : Z;
  req_bytes_sent : Z;
  hdr_bytes_received : Z;
  reply_bytes_received : Z;
  footer_bytes_received : Z;
  conn_lifetime_hist : gmap Z Z;
  num_active_conns : Z;
  interval_replies : Z;
  first_time : bool
}.

Definition set_num_client_timeouts v (s : errors) : errors := mkErrors v (num_sock_fdunavail s)
  (num_sock_ftabfull s) (num_sock_refused s) (num_sock_reset s) (num_sock_timeouts s)
  (num_sock_addrunavail s) (num_other_errors s).
Definition set_num_sock_fdunavail v (s : errors) : errors := mkErrors (num_client_timeouts s) v
  (num_sock_ftabfull s) (num_sock_refused s) (num_sock_reset s) (num_sock_timeouts s)
  (num_sock_addrunavail s) (num_other_errors s).
Definition set_num_sock_ftabfull v (s : errors) : errors := mkErrors (num_client_timeouts s)
  (num_sock_fdunavail s) v (num_sock_refused s) (num_sock_reset s) (num_sock_timeouts s)
  (num_sock_addrunavail s) (num_other_errors s).
Definition set_num_sock_refused v (s : errors) : errors := mkErrors (num_client_timeouts s)
  (num_sock_fdunavail s) (num_sock_ftabfull s) v (num_sock_reset s) (num_sock_timeouts s)
  (num_sock_addrunavail s) (num_other_errors s).
Definition set_num_sock_reset v (s : errors) : errors := mkErrors (num_client_timeouts s)
  (num_sock_fdunavail s) (num_sock_ftabfull s) (num_sock_refused s) v (num_sock_timeouts s)
  (num_sock_addrunavail s) (num_other_errors s).
Definition set_num_sock_timeouts v (s : errors) : errors := mkErrors (num_client_timeouts s)
  (num_sock_fdunavail s) (num_sock_ftabfull s) (num_sock_refused s) (num_sock_reset s) v
  (num_sock_addrunavail s) (num_other_errors s).
Definition set_num_other_errors v (s : errors) : errors := mkErrors (num_client_timeouts s)
  (num_sock_fdunavail s) (num_sock_ftabfull s) (num_sock_refused s) (num_sock_reset s)
  (num_sock_timeouts s) (num_sock_addrunavail s) v.
Definition set_num_conns_issued v (s : basic) : basic := mkBasic v (num_replies s) (errs s)
  (max_conns s) (lifetimes s) (reply_rates s) (num_connects s) (conn_connect_sum s)
  (num_responses s) (call_response_sum s) (call_xfer_sum s) (num_sent s) (req_bytes_sent s)
  (hdr_bytes_received s) (reply_bytes_received s) (footer_bytes_received s) (conn_lifetime_hist
  s) (num_active_conns s) (interval_replies s) (first_time s).
Definition set_num_replies v (s : basic) : basic := mkBasic (num_conns_issued s) v (errs s)
  (max_conns s) (lifetimes s) (reply_rates s) (num_connects s) (conn_connect_sum s)
  (num_responses s) (call_response_sum s) (call_xfer_sum s) (num_sent s) (req_bytes_sent s)
  (hdr_bytes_received s) (reply_bytes_received s) (footer_bytes_received s) (conn_lifetime_hist
  s) (num_active_conns s) (interval_replies s) (first_time s).
Definition set_errs v (s : basic) : basic := mkBasic (num_conns_issued s) (num_replies s) v
  (max_conns s) (lifetimes s) (reply_rates s) (num_connects s) (conn_connect_sum s)
  (num_responses s) (call_response_sum s) (call_xfer_sum s) (num_sent s) (req_bytes_sent s)
  (hdr_bytes_received s) (reply_bytes_received s) (footer_bytes_received s) (conn_lifetime_hist
  s) (num_active_conns s) (interval_replies s) (first_time s).
Definition set_max_conns v (s : basic) : basic := mkBasic (num_conns_issued s) (num_replies s)
  (errs s) v (lifetimes s) (reply_rates s) (num_connects s) (conn_connect_sum s) (num_responses
  s) (call_response_sum s) (call_xfer_sum s) (num_sent s) (req_bytes_sent s) (hdr_bytes_received
  s) (reply_bytes_received s) (footer_bytes_received s) (conn_lifetime_hist s) (num_active_conns
  s) (interval_replies s) (first_time s).
Definition set_lifetimes v (s : basic) : basic := mkBasic (num_conns_issued s) (num_replies s)
  (errs s) (max_conns s) v (reply_rates s) (num_connects s) (conn_connect_sum s) (num_responses
  s) (call_response_sum s) (call_xfer_sum s) (num_sent s) (req_bytes_sent s) (hdr_bytes_received
  s) (reply_bytes_received s) (footer_bytes_received s) (conn_lifetime_hist s) (num_active_conns
  s) (interval_replies s) (first_time s).
Definition set_reply_rates v (s : basic) : basic := mkBasic (num_conns_issued s) (num_replies s)
  (errs s) (max_conns s) (lifetimes s) v (num_connects s) (conn_connect_sum s) (num_responses s)
  (call_response_sum s) (call_xfer_sum s) (num_sent s) (req_bytes_sent s) (hdr_bytes_received s)
  (reply_bytes_received s) (footer_bytes_received s) (conn_lifetime_hist s) (num_active_conns s)
  (interval_replies s) (first_time s).
Definition set_num_connects v (s : basic) : basic := mkBasic (num_conns_issued s) (num_replies
  s) (errs s) (max_conns s) (lifetimes s) (reply_rates s) v (conn_connect_sum s) (num_responses
  s) (call_response_sum s) (call_xfer_sum s) (num_sent s) (req_bytes_sent s) (hdr_bytes_received
  s) (reply_bytes_received s) (footer_bytes_received s) (conn_lifetime_hist s) (num_active_conns
  s) (interval_replies s) (first_time s).
Definition set_conn_connect_sum v (s : basic) : basic := mkBasic (num_conns_issued s)
  (num_replies s) (errs s) (max_conns s) (lifetimes s) (reply_rates s) (num_connects s) v
  (num_responses s) (call_response_sum s) (call_xfer_sum s) (num_sent s) (req_bytes_sent s)
  (hdr_bytes_received s) (reply_bytes_received s) (footer_bytes_received s) (conn_lifetime_hist
  s) (num_active_conns s) (interval_replies s) (first_time s).
Definition set_num_responses v (s : basic) : basic := mkBasic (num_conns_issued s) (num_replies
  s) (errs s) (max_conns s) (lifetimes s) (reply_rates s) (num_connects s) (conn_connect_sum s)
  v (call_response_sum s) (call_xfer_sum s) (num_sent s) (req_bytes_sent s) (hdr_bytes_received
  s) (reply_bytes_received s) (footer_bytes_received s) (conn_lifetime_hist s) (num_active_conns
  s) (interval_replies s) (first_time s).
Definition set_call_response_sum v (s : basic) : basic := mkBasic (num_conns_issued s)
  (num_replies s) (errs s) (max_conns s) (lifetimes s) (reply_rates s) (num_connects s)
  (conn_connect_sum s) (num_responses s) v (call_xfer_sum s) (num_sent s) (req_bytes_sent s)
  (hdr_bytes_received s) (reply_bytes_received s) (footer_bytes_received s) (conn_lifetime_hist
  s) (num_active_conns s) (interval_replies s) (first_time s).
Definition set_call_xfer_sum v (s : basic) : basic := mkBasic (num_conns_issued s) (num_replies
  s) (errs s) (max_conns s) (lifetimes s) (reply_rates s) (num_connects s) (conn_connect_sum s)
  (num_responses s) (call_response_sum s) v (num_sent s) (req_bytes_sent s) (hdr_bytes_received
  s) (reply_bytes_received s) (footer_bytes_received s) (conn_lifetime_hist s) (num_active_conns
  s) (interval_replies s) (first_time s).
Definition set_num_sent v (s : basic) : basic := mkBasic (num_conns_issued s) (num_replies s)
  (errs s) (max_conns s) (lifetimes s) (reply_rates s) (num_connects s) (conn_connect_sum s)
  (num_responses s) (call_response_sum s) (call_xfer_sum s) v (req_bytes_sent s)
  (hdr_bytes_received s) (reply_bytes_received s) (footer_bytes_received s) (conn_lifetime_hist
  s) (num_active_conns s) (interval_replies s) (first_time s).
Definition set_req_bytes_sent v (s : basic) : basic := mkBasic (num_conns_issued s) (num_replies
  s) (errs s) (max_conns s) (lifetimes s) (reply_rates s) (num_connects s) (conn_connect_sum s)
  (num_responses s) (call_response_sum s) (call_xfer_sum s) (num_sent s) v (hdr_bytes_received
  s) (reply_bytes_received s) (footer_bytes_received s) (conn_lifetime_hist s) (num_active_conns
  s) (interval_replies s) (first_time s).
Definition set_hdr_bytes_received v (s : basic) : basic := mkBasic (num_conns_issued s)
  (num_replies s) (errs s) (max_conns s) (lifetimes s) (reply_rates s) (num_connects s)
  (conn_connect_sum s) (num_responses s) (call_response_sum s) (call_xfer_sum s) (num_sent s)
  (req_bytes_sent s) v (reply_bytes_received s) (footer_bytes_received s) (conn_lifetime_hist s)
  (num_active_conns s) (interval_replies s) (first_time s).
Definition set_reply_bytes_received v (s : basic) : basic := mkBasic (num_conns_issued s)
  (num_replies s) (errs s) (max_conns s) (lifetimes s) (reply_rates s) (num_connects s)
  (conn_connect_sum s) (num_responses s) (call_response_sum s) (call_xfer_sum s) (num_sent s)
  (req_bytes_sent s) (hdr_bytes_received s) v (footer_bytes_received s) (conn_lifetime_hist s)
  (num_active_conns s) (interval_replies s) (first_time s).
Definition set_footer_bytes_received v (s : basic) : basic := mkBasic (num_conns_issued s)
  (num_replies s) (errs s) (max_conns s) (lifetimes s) (reply_rates s) (num_connects s)
  (conn_connect_sum s) (num_responses s) (call_response_sum s) (call_xfer_sum s) (num_sent s)
  (req_bytes_sent s) (hdr_bytes_received s) (reply_bytes_received s) v (conn_lifetime_hist s)
  (num_active_conns s) (interval_replies s) (first_time s).
Definition set_conn_lifetime_hist v (s : basic) : basic := mkBasic (num_conns_issued s)
  (num_replies s) (errs s) (max_conns s) (lifetimes s) (reply_rates s) (num_connects s)
  (conn_connect_sum s) (num_responses s) (call_response_sum s) (call_xfer_sum s) (num_sent s)
  (req_bytes_sent s) (hdr_bytes_received s) (reply_bytes_received s) (footer_bytes_received s) v
  (num_active_conns s) (interval_replies s) (first_time s).
Definition set_num_active_conns v (s : basic) : basic := mkBasic (num_conns_issued s)
  (num_replies s) (errs s) (max_conns s) (lifetimes s) (reply_rates s) (num_connects s)
  (conn_connect_sum s) (num_responses s) (call_response_sum s) (call_xfer_sum s) (num_sent s)
  (req_bytes_sent s) (hdr_bytes_received s) (reply_bytes_received s) (footer_bytes_received s)
  (conn_lifetime_hist s) v (interval_replies s) (first_time s).
Definition set_interval_replies v (s : basic) : basic := mkBasic (num_conns_issued s)
  (num_replies s) (errs s) (max_conns s) (lifetimes s) (reply_rates s) (num_connects s)
  (conn_connect_sum s) (num_responses s) (call_response_sum s) (call_xfer_sum s) (num_sent s)
  (req_bytes_sent s) (hdr_bytes_received s) (reply_bytes_received s) (footer_bytes_received s)
  (conn_lifetime_hist s) (num_active_conns s) v (first_time s).
Definition set_first_time v (s : basic) : basic := mkBasic (num_conns_issued s) (num_replies s)
  (errs s) (max_conns s) (lifetimes s) (reply_rates s) (num_connects s) (conn_connect_sum s)
  (num_responses s) (call_response_sum s) (call_xfer_sum s) (num_sent s) (req_bytes_sent s)
  (hdr_bytes_received s) (reply_bytes_received s) (footer_bytes_received s) (conn_lifetime_hist
  s) (num_active_conns s) (interval_replies s) v.

(** [++x] of a [u_int]. *)
Definition incr (x : Z) : Z := u32 (x + 1).

(** The statics before [init], and after it. *)
Definition no_errors : errors := mkErrors 0 0 0 0 0 0 0 0.
Definition no_samples : samples := mkSamples 0 fzero fzero fzero fzero.
Definition statics : basic :=
  mkBasic 0 (replicate 6 0) no_errors 0 no_samples no_samples 0 fzero 0 fzero fzero 0 0 0 0 0 ∅ 0 0 true.
Definition set_least (v : spec_float) (x : samples) : samples :=
  mkSamples (num x) (total x) (total2 x) v (greatest x).
Definition init (b : basic) : basic :=
  set_reply_rates (set_least DBL_MAX (reply_rates b)) (set_lifetimes (set_least DBL_MAX (lifetimes b)) b).

(** A new sample: the sums, the extremes and the count. *)
Definition SQUARE (f : spec_float) : spec_float := fmul f f.
Definition add_sample (v : spec_float) (x : samples) : samples :=
  mkSamples (incr (num x)) (fadd (total x) v) (fadd (total2 x) (SQUARE v))
    (if fltb v (least x) then v else least x) (if fltb (greatest x) v then v else greatest x).

(** ** The handlers *)
Definition perf_sample (weight : spec_float) (b : basic) : basic :=
  let rate := fmul weight (fnum (interval_replies b)) in
  set_interval_replies 0 (set_reply_rates (add_sample rate (reply_rates b)) b).

Definition count_error (f : errors -> errors) (b : basic) : basic := set_errs (f (errs b)) b.

Definition conn_timeout (b : basic) : basic :=
  count_error (fun e => set_num_client_timeouts (incr (num_client_timeouts e)) e) b.

(** The values of [errno] on Linux. *)
Definition EINVAL : Z := 22.
Definition ENFILE : Z := 23.
Definition EMFILE : Z := 24.
Definition EPIPE : Z := 32.
Definition ECONNRESET : Z := 104.
Definition ETIMEDOUT : Z := 110.
Definition ECONNREFUSED : Z := 111.

Definition conn_fail (err : Z) (b : basic) : basic :=
  if (err =? EINVAL) || (err =? EMFILE) then
    count_error (fun e => set_num_sock_fdunavail (incr (num_sock_fdunavail e)) e) b
  else if err =? ENFILE then
    count_error (fun e => set_num_sock_ftabfull (incr (num_sock_ftabfull e)) e) b
  else if err =? ECONNREFUSED then
    count_error (fun e => set_num_sock_refused (incr (num_sock_refused e)) e) b
  else if err =? ETIMEDOUT then
    count_error (fun e => set_num_sock_timeouts (incr (num_sock_timeouts e)) e) b
  else if (err =? EPIPE) || (err =? ECONNRESET) then
    count_error (fun e => set_num_sock_reset (incr (num_sock_reset e)) e) b
  else
    count_error (fun e => set_num_other_errors (incr (num_other_errors e)) e) (set_first_time false b).

Definition conn_created (b : basic) : basic :=
  let b := set_num_active_conns (incr (num_active_conns b)) b in
  if max_conns b <? num_active_conns b then set_max_conns (num_active_conns b) b else b.

Definition conn_connecting (b : basic) : basic := set_num_conns_issued (incr (num_conns_issued b)) b.

Definition conn_connected (now time_connect_start : spec_float) (b : basic) : basic :=
  set_num_connects (incr (num_connects b))
    (set_conn_connect_sum (fadd (conn_connect_sum b) (fsub now time_connect_start)) b).

(** [assert (cond)] in line [line]: the exit status of the abort carries the line. *)
Definition assert_at (line : Z) (cond : bool) : cres unit := if cond then Ret tt else Exit (1000 * line + 134).

(** [++basic.conn_lifetime_hist[bin]] *)
Definition hist_incr (bin : Z) (b : basic) : cres basic :=
  if bin <? NUM_BINS then
    let h := conn_lifetime_hist b in
    Ret (set_conn_lifetime_hist (<[bin := incr (default 0 (h !! bin))]> h) b)
  else Undef.

Definition lifetime_bin (lifetime : spec_float) : cres Z :=
  bin ← to_uint (fdiv (fmul lifetime (fnum NUM_BINS)) MAX_LIFETIME);
  Ret (if NUM_BINS <=? bin then NUM_BINS else bin).

Definition conn_destroyed (now time_connect_start : spec_float) (num_calls_completed : Z) (b : basic)
    : cres basic :=
  _ ← assert_at 209 (0 <? num_active_conns b);
  b ← (if 0 <? num_calls_completed then
         let lifetime := fsub now time_connect_start in
         let b := set_lifetimes (add_sample lifetime (lifetimes b)) b in
         bin ← lifetime_bin lifetime;
         hist_incr bin b
       else Ret b);
  Ret (set_num_active_conns (u32 (num_active_conns b - 1)) b).

Definition send_stop (size : Z) (b : basic) : basic :=
  set_num_sent (incr (num_sent b)) (set_req_bytes_sent (u64 (req_bytes_sent b + size)) b).

Definition recv_start (now time_send_start : spec_float) (b : basic) : basic :=
  set_num_responses (incr (num_responses b))
    (set_call_response_sum (fadd (call_response_sum b) (fsub now time_send_start)) b).

(** [status / 100] truncates towards zero. *)
Definition recv_stop (now time_recv_start : spec_float) (header content footer status : Z) (b : basic)
    : cres basic :=
  _ ← assert_at 274 (fltb fzero time_recv_start);
  let b := set_call_xfer_sum (fadd (call_xfer_sum b) (fsub now time_recv_start)) b in
  let b := set_hdr_bytes_received (u64 (hdr_bytes_received b + header)) b in
  let b := set_reply_bytes_received (u64 (reply_bytes_received b + content)) b in
  let b := set_footer_bytes_received (u64 (footer_bytes_received b + footer)) b in
  let index := Z.quot status 100 in
  _ ← assert_at 283 (u32 index <? 6);
  n ← deref (aget (num_replies b) index);
  b ← (l ← deref (aset (num_replies b) index (incr n)); Ret (set_num_replies l b));
  Ret (set_interval_replies (incr (interval_replies b)) b).

(** ** dump *)
Definition VAR (s s2 : spec_float) (n : Z) : spec_float :=
  if n <? 2 then fzero else fdiv (fsub s2 (fdiv (SQUARE s) (fnum n))) (fnum (n - 1)).
Definition STDDEV (s s2 : spec_float) (n : Z) : spec_float :=
  if n <? 2 then fzero else fsqrt (VAR s s2 n).

(** The loop over the bins, from bin [i] with [n] life times in the bins below. *)
Fixpoint median_loop (fuel : nat) (i n : Z) (b : basic) : spec_float :=
  match fuel with
  | O => fzero
  | S fuel =>
      let n := u32 (n + default 0 (conn_lifetime_hist b !! i)) in
      if fleb (fmul half (fnum (num (lifetimes b)))) (fnum n)
      then fmul (fadd (fnum i) half) BIN_WIDTH
      else median_loop fuel (i + 1) n b
  end.
Definition lifetime_median (b : basic) : spec_float :=
  if 0 <? num (lifetimes b) then median_loop (Z.to_nat NUM_BINS) 0 0 b else fzero.

(** The loop that adds up the replies of the classes 1 to 5. *)
Definition total_replies (b : basic) : Z :=
  foldl (fun t n => i32 (u32 (u32 t + n))) 0 (tail (num_replies b)).

Definition average (x : samples) : spec_float :=
  if 0 <? num x then fdiv (total x) (fnum (num x)) else fzero.
Definition stddev (x : samples) : spec_float :=
  if 0 <? num x then if 1 <? num x then STDDEV (total x) (total2 x) (num x) else fzero else fzero.

(** [a / n] where [n] is not zero, and 0.0 where it is; for doubles, and for the
    unsigned division whose quotient becomes a double. *)
Definition per (a : spec_float) (n : Z) : spec_float := if n =? 0 then fzero else fdiv a (fnum n).
Definition per_u (a n : Z) : spec_float := if n =? 0 then fzero else fnum (a / u64 n).

(** What is printed: an [unsigned] or a double. *)
Inductive item := U (n : Z) | F (x : spec_float).

Section Dump.
Context (delta user sys : spec_float) (b : basic).

Definition ms (x : spec_float) : spec_float := fmul (fnum 1000) x.

Definition dump_connections : list item :=
  [U (num_conns_issued b); U (num_sent b); U (total_replies b); F delta;
   F (fdiv (fnum (num_conns_issued b)) delta); F (ms (per delta (num_conns_issued b))); U (max_conns b);
   F (if 0 <? num (lifetimes b) then ms (least (lifetimes b)) else fzero); F (ms (average (lifetimes b)));
   F (ms (greatest (lifetimes b))); F (ms (lifetime_median b)); F (ms (stddev (lifetimes b)));
   F (ms (per (conn_connect_sum b) (num_connects b)));
   F (if 0 <? num (lifetimes b) then fdiv (fnum (total_replies b)) (fnum (num (lifetimes b))) else fzero)].

Definition dump_requests : list item :=
  [F (fdiv (fnum (num_sent b)) delta); F (ms (per delta (num_sent b)));
   F (per_u (req_bytes_sent b) (num_sent b))].

Definition dump_replies : list item :=
  let t := total_replies b in
  let hdr_size := per_u (hdr_bytes_received b) t in
  let reply_size := per_u (reply_bytes_received b) t in
  let footer_size := per_u (footer_bytes_received b) t in
  [F (if 0 <? num (reply_rates b) then least (reply_rates b) else fzero); F (average (reply_rates b));
   F (greatest (reply_rates b)); F (stddev (reply_rates b)); U (num (reply_rates b));
   F (ms (per (call_response_sum b) (num_responses b)));
   F (ms (if 0 <? t then fdiv (call_xfer_sum b) (fnum t) else fzero));
   F hdr_size; F reply_size; F footer_size; F (fadd (fadd hdr_size reply_size) footer_size)]
  ++ map U (tail (num_replies b)).

Definition dump_cpu_and_net : list item :=
  let percent x := fdiv (fmul (fnum 100) x) delta in
  let total_size := u64 (req_bytes_sent b + hdr_bytes_received b + reply_bytes_received b) in
  [F user; F sys; F (percent user); F (percent sys); F (percent (fadd user sys));
   F (fdiv (fdiv (fnum total_size) delta) (fnum 1024));
   F (fdiv (fmul (fdiv (fnum 8) (fnum 1000000)) (fnum total_size)) delta)].

Definition total_errors (e : errors) : Z :=
  u32 (num_client_timeouts e + num_sock_timeouts e + num_sock_fdunavail e + num_sock_ftabfull e
       + num_sock_refused e + num_sock_reset e + num_sock_addrunavail e + num_other_errors e).

Definition dump_errors : list item :=
  let e := errs b in
  map U [total_errors e; num_client_timeouts e; num_sock_timeouts e; num_sock_refused e; num_sock_reset e;
         num_sock_fdunavail e; num_sock_addrunavail e; num_sock_ftabfull e; num_other_errors e].

Definition dump : list item :=
  dump_connections ++ dump_requests ++ dump_replies ++ dump_cpu_and_net ++ dump_errors.
End Dump.

(** ** Traces

    The calls of the handlers, with what they read from the clock and the event. *)
Inductive call :=
| PerfSample (weight : spec_float)
| ConnTimeout
| ConnFail (err : Z)
| ConnCreated
| ConnConnecting
| ConnConnected (now start : spec_float)
| ConnDestroyed (now start : spec_float) (completed : Z)
| SendStop (size : Z)
| RecvStart (now start : spec_float)
| RecvStop (now start : spec_float) (header content footer status : Z).

Definition handle (c : call) (b : basic) : cres basic :=
  match c with
  | PerfSample w => Ret (perf_sample w b)
  | ConnTimeout => Ret (conn_timeout b)
  | ConnFail err => Ret (conn_fail err b)
  | ConnCreated => Ret (conn_created b)
  | ConnConnecting => Ret (conn_connecting b)
  | ConnConnected now start => Ret (conn_connected now start b)
  | ConnDestroyed now start completed => conn_destroyed now start completed b
  | SendStop size => Ret (send_stop size b)
  | RecvStart now start => Ret (recv_start now start b)
  | RecvStop now start h c f status => recv_stop now start h c f status b
  end.

Fixpoint handle_all (cs : list call) (b : basic) : cres basic :=
  match cs with
  | [] => Ret b
  | c :: cs => b ← handle c b; handle_all cs b
  end.
End BasicStats.
