(* ===== verification/BasicStatsTheorems.v ===== *)
(** * httperf/src/stat/basic.c: what the statistics say

    A test is the list of the calls of the handlers.  Every counter is the number of
    the calls it counts, the histogram has every life time in its bin, and the median
    that is printed is the middle of the bin in which the median life time is. *)
From S2P Require Import Prelude Doubles BasicStats.

Module BasicStatsTheorems.
Import Doubles BasicStats.

(** How much the calls of [cs] weigh. *)
Definition tally (w : call -> Z) (cs : list call) : Z := foldr (fun c t => w c + t) 0 cs.

Definition one (p : bool) : Z := if p then 1 else 0.

Definition w_connecting (c : call) : Z := one (match c with ConnConnecting => true | _ => false end).
Definition w_created (c : call) : Z := one (match c with ConnCreated => true | _ => false end).
Definition w_destroyed (c : call) : Z := one (match c with ConnDestroyed _ _ _ => true | _ => false end).
Definition w_failed (c : call) : Z := one (match c with ConnTimeout | ConnFail _ => true | _ => false end).
Definition w_timeout (c : call) : Z := one (match c with ConnTimeout => true | _ => false end).
(** A connection that failed with an [errno] that satisfies [p]. *)
Definition w_errno (p : Z -> bool) (c : call) : Z := one (match c with ConnFail err => p err | _ => false end).
Definition among (l : list Z) (err : Z) : bool := existsb (Z.eqb err) l.
Definition known_errnos : list Z := [EINVAL; EMFILE; ENFILE; ECONNREFUSED; ETIMEDOUT; EPIPE; ECONNRESET].
Definition w_connected (c : call) : Z := one (match c with ConnConnected _ _ => true | _ => false end).
Definition w_started (c : call) : Z := one (match c with RecvStart _ _ => true | _ => false end).
Definition w_stopped (c : call) : Z := one (match c with RecvStop _ _ _ _ _ _ => true | _ => false end).
Definition w_sample (c : call) : Z := one (match c with PerfSample _ => true | _ => false end).
Definition w_footer (c : call) : Z := match c with RecvStop _ _ _ _ f _ => f | _ => 0 end.
Definition w_sent (c : call) : Z := one (match c with SendStop _ => true | _ => false end).
Definition w_sent_bytes (c : call) : Z := match c with SendStop n => n | _ => 0 end.
Definition w_header (c : call) : Z := match c with RecvStop _ _ h _ _ _ => h | _ => 0 end.
Definition w_content (c : call) : Z := match c with RecvStop _ _ _ n _ _ => n | _ => 0 end.
(** A reply of the status class [k]. *)
Definition w_reply (k : Z) (c : call) : Z :=
  one (match c with RecvStop _ _ _ _ _ st => Z.quot st 100 =? k | _ => false end).
(** The life time of a connection that completed a call, in a bin that satisfies [p]. *)
Definition w_life (p : Z -> bool) (c : call) : Z :=
  one (match c with
       | ConnDestroyed now start n =>
           if 0 <? n then match lifetime_bin (fsub now start) with Ret k => p k | _ => false end else false
       | _ => false
       end).

(** Every call adds its weight to the counter [f], modulo [2 ^ w]. *)
Definition tracks (w : Z) (f : basic -> Z) (weight : call -> Z) : Prop :=
  forall c b b', handle c b = Ret b' -> wrap_u w (f b) = f b -> f b' = wrap_u w (f b + weight c).

Lemma wrap_add_l w a b : 0 <= w -> wrap_u w (wrap_u w a + b) = wrap_u w (a + b).
Proof. intros. apply Z.add_mod_idemp_l. lia. Qed.

Lemma tracks_all w f weight cs b b' :
  0 <= w -> tracks w f weight -> handle_all cs b = Ret b' -> wrap_u w (f b) = f b ->
  f b' = wrap_u w (f b + tally weight cs).
Proof.
  intros Hw Ht. revert b. induction cs as [| c cs IH]; intros b E Hb; cbn [handle_all tally foldr] in *.
  - injection E as <-. by rewrite Z.add_0_r.
  - apply bind_Ret_inv in E as (b1 & E1 & E). pose proof (Ht _ _ _ E1 Hb) as E2.
    rewrite (IH b1 E); [| by rewrite E2, wrap_u_idem]. by rewrite E2, wrap_add_l, Z.add_assoc by done.
Qed.

(** The two handlers that can fail. *)
Lemma conn_destroyed_inv now start n b b' :
  conn_destroyed now start n b = Ret b' ->
  ((0 <? n) = false /\ b' = set_num_active_conns (u32 (num_active_conns b - 1)) b) \/
  ((0 <? n) = true /\ exists k, lifetime_bin (fsub now start) = Ret k /\ k < NUM_BINS /\
     b' = set_num_active_conns (u32 (num_active_conns b - 1))
            (set_conn_lifetime_hist (<[k := incr (default 0 (conn_lifetime_hist b !! k))]> (conn_lifetime_hist b))
               (set_lifetimes (add_sample (fsub now start) (lifetimes b)) b))).
Proof.
  unfold conn_destroyed, assert_at. intros E. destruct (0 <? num_active_conns b); [| done]. rewrite bind_Ret in E.
  destruct (0 <? n) eqn:En; [right | left].
  - apply bind_Ret_inv in E as (b1 & E & [= <-]). apply bind_Ret_inv in E as (k & Ek & E).
    unfold hist_incr in E. destruct (Z.ltb_spec k NUM_BINS); [| done]. injection E as <-. split; [done |].
    by exists k.
  - by injection E as <-.
Qed.

Lemma aset_inv {A} (l : list A) i x l' :
  aset l i x = Some l' -> 0 <= i < Z.of_nat (length l) /\ l' = <[Z.to_nat i := x]> l.
Proof.
  unfold aset. destruct (Z.leb_spec 0 i), (Z.ltb_spec i (Z.of_nat (length l))); intros E; cbn in E; try done.
  by injection E as <-.
Qed.

Lemma recv_stop_inv now start h c f st b b' :
  recv_stop now start h c f st b = Ret b' ->
  exists l n, aget (num_replies b) (Z.quot st 100) = Some n /\
    0 <= Z.quot st 100 < Z.of_nat (length (num_replies b)) /\
    l = <[Z.to_nat (Z.quot st 100) := incr n]> (num_replies b) /\
    b' = set_interval_replies (incr (interval_replies b)) (set_num_replies l
           (set_footer_bytes_received (u64 (footer_bytes_received b + f))
           (set_reply_bytes_received (u64 (reply_bytes_received b + c))
           (set_hdr_bytes_received (u64 (hdr_bytes_received b + h))
           (set_call_xfer_sum (fadd (call_xfer_sum b) (fsub now start)) b))))).
Proof.
  unfold recv_stop, assert_at. intros E. destruct (fltb fzero start); [| done]. rewrite bind_Ret in E.
  destruct (u32 (Z.quot st 100) <? 6); [| done]. rewrite bind_Ret in E.
  apply bind_Ret_inv in E as (n & En & E). apply bind_Ret_inv in E as (b1 & E1 & [= <-]).
  apply bind_Ret_inv in E1 as (l & El & [= <-]). cbn [num_replies set_footer_bytes_received set_reply_bytes_received
    set_hdr_bytes_received set_call_xfer_sum] in *.
  destruct (aget (num_replies b) (Z.quot st 100)) as [m |] eqn:Em; [| done]. injection En as <-.
  destruct (aset _ _ _) as [l1 |] eqn:E1; [| done]. injection El as <-. apply aset_inv in E1 as [H1 ->].
  exists (<[Z.to_nat (Z.quot st 100) := incr m]> (num_replies b)), m. done.
Qed.

(** Case analysis on a call, with what it did. *)
Ltac handled c E :=
  destruct c as [w | | err | | | now start | now start n | size | now start | now start h ct ft st]; cbn [handle] in E;
  try (apply conn_destroyed_inv in E as [(En & ->) | (En & k & Ek & Hk & ->)]);
  try (apply recv_stop_inv in E as (l & n & En & Hst & -> & ->));
  try (match type of E with Ret ?x = Ret ?y => assert (y = x) as -> by congruence; clear E end).

Ltac tracked :=
  intros c b b' E Hb; handled c E; unfold conn_fail, conn_created;
  repeat match goal with |- context [if ?x then _ else _] => lazymatch x with context [if _ then _ else _] => fail | _ => destruct x eqn:? end end;
  cbn; rewrite ?Z.add_0_r; try done.

Lemma tracks_issued : tracks 32 num_conns_issued w_connecting.
Proof. tracked. Qed.
Lemma tracks_sent : tracks 32 num_sent w_sent.
Proof. tracked. Qed.
Lemma tracks_sent_bytes : tracks 64 req_bytes_sent w_sent_bytes.
Proof. tracked. Qed.
Lemma tracks_header : tracks 64 hdr_bytes_received w_header.
Proof. tracked. Qed.
Lemma tracks_content : tracks 64 reply_bytes_received w_content.
Proof. tracked. Qed.
Lemma tracks_footer : tracks 64 footer_bytes_received w_footer.
Proof. tracked. Qed.
Lemma tracks_connects : tracks 32 num_connects w_connected.
Proof. tracked. Qed.
Lemma tracks_responses : tracks 32 num_responses w_started.
Proof. tracked. Qed.
Lemma tracks_samples : tracks 32 (fun b => num (reply_rates b)) w_sample.
Proof. tracked. Qed.
Lemma tracks_active : tracks 32 num_active_conns (fun c => w_created c - w_destroyed c).
Proof. tracked. Qed.

Lemma tracks_lives : tracks 32 (fun b => num (lifetimes b)) (w_life (fun _ => true)).
Proof.
  tracked; unfold w_life; rewrite En; [by rewrite Z.add_0_r |]. by rewrite Ek.
Qed.

(** The counter of each kind of error: the weight of a failure is decided by its
    [errno]. *)
Lemma among_cons x l err : among (x :: l) err = (err =? x) || among l err.
Proof. done. Qed.

Lemma errs_conn_created b : errs (conn_created b) = errs b.
Proof. unfold conn_created. by destruct (_ <? _). Qed.

Ltac tracked_error :=
  intros c b b' E Hb; handled c E; unfold w_timeout, w_errno, one;
  rewrite ?Z.add_0_r; try (rewrite errs_conn_created); try done;
  unfold conn_fail, known_errnos; rewrite ?among_cons;
  repeat match goal with |- context [?x =? ?e] => is_var x; destruct (Z.eqb_spec x e) as [-> | ?]; try done end;
  cbn; rewrite ?Z.add_0_r; first [done | exact (eq_sym Hb)].

Lemma tracks_client_timeouts : tracks 32 (fun b => num_client_timeouts (errs b)) w_timeout.
Proof. tracked_error. Qed.
Lemma tracks_fdunavail : tracks 32 (fun b => num_sock_fdunavail (errs b)) (w_errno (among [EINVAL; EMFILE])).
Proof. tracked_error. Qed.
Lemma tracks_ftabfull : tracks 32 (fun b => num_sock_ftabfull (errs b)) (w_errno (among [ENFILE])).
Proof. tracked_error. Qed.
Lemma tracks_refused : tracks 32 (fun b => num_sock_refused (errs b)) (w_errno (among [ECONNREFUSED])).
Proof. tracked_error. Qed.
Lemma tracks_timeouts : tracks 32 (fun b => num_sock_timeouts (errs b)) (w_errno (among [ETIMEDOUT])).
Proof. tracked_error. Qed.
Lemma tracks_reset : tracks 32 (fun b => num_sock_reset (errs b)) (w_errno (among [EPIPE; ECONNRESET])).
Proof. tracked_error. Qed.
Lemma tracks_other :
  tracks 32 (fun b => num_other_errors (errs b)) (w_errno (fun err => negb (among known_errnos err))).
Proof. tracked_error. Qed.
Lemma tracks_addrunavail : tracks 32 (fun b => num_sock_addrunavail (errs b)) (fun _ => 0).
Proof. tracked_error. Qed.

(** One error more. *)
Lemma u32_shift a b k : a = b + k * 2 ^ 32 -> u32 a = u32 b.
Proof. intros ->. apply Z.mod_add. lia. Qed.

Lemma incr_eq x : incr x = x + 1 - (x + 1) / 2 ^ 32 * 2 ^ 32.
Proof. unfold incr, wrap_u. zdiv. Qed.

Ltac one_error :=
  unfold total_errors, count_error; cbn -[Z.add]; rewrite incr_eq, wrap_add_l by lia;
  match goal with |- context [?q / 2 ^ 32] => apply (u32_shift _ _ (- (q / 2 ^ 32))); lia end.

Lemma total_conn_fail err b : total_errors (errs (conn_fail err b)) = u32 (total_errors (errs b) + 1).
Proof.
  unfold conn_fail. destruct (_ || _); [one_error |]. destruct (err =? ENFILE); [one_error |].
  destruct (err =? ECONNREFUSED); [one_error |]. destruct (err =? ETIMEDOUT); [one_error |].
  destruct (_ || _); one_error.
Qed.

Lemma total_conn_timeout b : total_errors (errs (conn_timeout b)) = u32 (total_errors (errs b) + 1).
Proof. unfold conn_timeout. one_error. Qed.

Lemma tracks_errors : tracks 32 (fun b => total_errors (errs b)) w_failed.
Proof.
  intros c b b' E Hb. cbv beta in Hb |- *. handled c E; cbv beta iota delta [w_failed one].
  all: rewrite ?total_conn_fail, ?total_conn_timeout, ?errs_conn_created, ?Z.add_0_r; done.
Qed.

(** The counters in the histogram and of the status classes. *)
Lemma tracks_bin i : tracks 32 (fun b => default 0 (conn_lifetime_hist b !! i)) (w_life (fun j => j =? i)).
Proof.
  tracked; unfold w_life; rewrite En; [by rewrite Z.add_0_r |]. rewrite Ek.
  destruct (Z.eqb_spec k i) as [-> | Hne]; cbn [one].
  - by rewrite lookup_insert_eq.
  - by rewrite lookup_insert_ne, Z.add_0_r.
Qed.

Definition replies_of (k : Z) (b : basic) : Z := default 0 (aget (num_replies b) k).

Lemma tracks_class i : tracks 32 (replies_of i) (w_reply i).
Proof.
  unfold replies_of. tracked. unfold w_reply. unfold aget in *.
  destruct (Z.leb_spec 0 (Z.quot st 100)); [| lia]. destruct (Z.eqb_spec (Z.quot st 100) i) as [<- | Hne]; cbn [one].
  - destruct (Z.leb_spec 0 (Z.quot st 100)); [| lia]. rewrite list_lookup_insert_eq by lia. by rewrite En.
  - rewrite Z.add_0_r. destruct (Z.leb_spec 0 i); [| done]. by rewrite list_lookup_insert_ne by lia.
Qed.

(** ** The contract of the counters *)
Definition start : basic := init statics.

Lemma tracked_count cs b w f weight :
  handle_all cs start = Ret b -> 0 <= w -> tracks w f weight -> f start = 0 -> f b = wrap_u w (tally weight cs).
Proof.
  intros Hrun Hw Ht H0. rewrite (tracks_all w f weight cs start b Hw Ht Hrun), H0; [done |].
  rewrite H0. apply Z.mod_0_l. lia.
Qed.

Lemma active_count cs b :
  handle_all cs start = Ret b -> num_active_conns b = u32 (tally w_created cs - tally w_destroyed cs).
Proof.
  intros Hrun. rewrite (tracked_count cs b 32 _ _ Hrun ltac:(lia) tracks_active eq_refl). f_equal.
  clear. induction cs as [| c cs IH]; unfold tally in *; cbn [foldr]; [done |]. rewrite IH. lia.
Qed.

Lemma lives_count cs b : handle_all cs start = Ret b -> num (lifetimes b) = u32 (tally (w_life (fun _ => true)) cs).
Proof. intros Hrun. apply (tracked_count cs b 32 (fun b => num (lifetimes b))); [done | lia | apply tracks_lives | reflexivity]. Qed.

Lemma bins_count cs b k : handle_all cs start = Ret b ->
  default 0 (conn_lifetime_hist b !! k) = u32 (tally (w_life (fun j => j =? k)) cs).
Proof.
  intros Hrun. apply (tracked_count cs b 32 (fun b => default 0 (conn_lifetime_hist b !! k))); [done | lia | apply tracks_bin | reflexivity].
Qed.

(** The calls since the last sample of the reply rate. *)
Definition last_interval (cs : list call) : list call :=
  fold_left (fun l c => match c with PerfSample _ => [] | _ => l ++ [c] end) cs [].

Lemma handle_all_snoc cs c b b' :
  handle_all (cs ++ [c]) b = Ret b' ->
  exists b1, handle_all cs b = Ret b1 /\ handle c b1 = Ret b'.
Proof.
  revert b. induction cs as [| d cs IH]; intros b; cbn [app handle_all].
  - intros (b1 & E & [= <-])%bind_Ret_inv. by exists b.
  - intros (b1 & E & E1)%bind_Ret_inv. destruct (IH b1 E1) as (b2 & E2 & E3). exists b2.
    by rewrite E, bind_Ret.
Qed.

Lemma tally_snoc w cs c : tally w (cs ++ [c]) = tally w cs + w c.
Proof. unfold tally. induction cs as [| d cs IH]; cbn [app foldr]; lia. Qed.

Lemma interval_step c b b' :
  handle c b = Ret b' ->
  interval_replies b' = match c with PerfSample _ => 0 | RecvStop _ _ _ _ _ _ => incr (interval_replies b) | _ => interval_replies b end.
Proof. intros E. handled c E; unfold conn_fail, conn_created; repeat case_match; done. Qed.

Lemma interval_count cs b :
  handle_all cs start = Ret b -> interval_replies b = u32 (tally w_stopped (last_interval cs)).
Proof.
  revert b. induction cs as [| c cs IH] using rev_ind; intros b; [by intros [= <-] |].
  intros (b1 & E1 & E)%handle_all_snoc. apply IH in E1. apply interval_step in E. rewrite E.
  unfold last_interval in *. rewrite fold_left_app. cbn [fold_left].
  destruct c; try done; rewrite tally_snoc, E1; cbn [w_stopped one]; rewrite ?Z.add_0_r; try done.
  unfold incr. by rewrite wrap_add_l by lia.
Qed.

(** The number of connections that are active after the first [k] calls. *)
Definition active_after (cs : list call) (k : nat) : Z :=
  u32 (tally w_created (take k cs) - tally w_destroyed (take k cs)).

Lemma conn_destroyed_active now start n b b' :
  conn_destroyed now start n b = Ret b' -> 0 < num_active_conns b.
Proof. unfold conn_destroyed, assert_at. by destruct (Z.ltb_spec 0 (num_active_conns b)). Qed.

Lemma max_step c b b' :
  handle c b = Ret b' -> num_active_conns b <= max_conns b -> num_active_conns b < 2 ^ 32 ->
  max_conns b' = Z.max (max_conns b) (num_active_conns b').
Proof.
  intros E Hle Hlt. assert (Hd : match c with ConnDestroyed _ _ _ => 0 < num_active_conns b | _ => True end).
  { destruct c; try done. by eapply conn_destroyed_active. }
  handled c E; unfold conn_fail, conn_created; repeat case_match; cbn; try lia;
    match goal with H : (_ <? _) = _ |- _ => cbn in H; lia | |- _ => rewrite wrap_u_small; lia end.
Qed.

Lemma max_count cs b :
  handle_all cs start = Ret b ->
  (forall k, active_after cs k <= max_conns b) /\ exists k, active_after cs k = max_conns b.
Proof.
  revert b. induction cs as [| c cs IH] using rev_ind; intros b.
  { intros [= <-]. unfold active_after. split; [intros k; by rewrite take_nil | by exists 0%nat]. }
  intros Hrun. pose proof (active_count _ _ Hrun) as Ha. apply handle_all_snoc in Hrun as (b1 & E1 & E).
  pose proof (active_count _ _ E1) as Ha1. destruct (IH b1 E1) as [Hall [k Hk]].
  assert (Hold : forall k, (k <= length cs)%nat -> active_after (cs ++ [c]) k = active_after cs k).
  { intros i Hi. unfold active_after. by rewrite take_app_le. }
  assert (Hwhole : forall l i, (length l <= i)%nat -> active_after l i = u32 (tally w_created l - tally w_destroyed l)).
  { intros l i Hi. unfold active_after. by rewrite take_ge. }
  rewrite (max_step c b1 b E).
  2: { rewrite Ha1, <- (Hwhole cs (length cs)) by lia. apply Hall. }
  2: { rewrite Ha1. apply wrap_u_range. lia. }
  split.
  - intros i. destruct (decide (i <= length cs)%nat) as [Hi | Hi].
    + rewrite Hold by done. pose proof (Hall i). lia.
    + rewrite Hwhole, <- Ha by (rewrite length_app; cbn; lia). lia.
  - destruct (Z.max_spec (max_conns b1) (num_active_conns b)) as [[_ ->] | [_ ->]].
    + exists (length (cs ++ [c])). by rewrite Hwhole.
    + exists (k `min` length cs)%nat. rewrite Hold by lia. rewrite <- Hk.
      destruct (decide (k <= length cs)%nat); [by rewrite Nat.min_l |].
      rewrite Nat.min_r by lia. by rewrite !Hwhole by lia.
Qed.

(** What each counter of errors counts. *)
Record errors_counted (cs : list call) (e : errors) : Prop := {
  ec_client_timeouts : num_client_timeouts e = u32 (tally w_timeout cs);
  ec_fdunavail : num_sock_fdunavail e = u32 (tally (w_errno (among [EINVAL; EMFILE])) cs);
  ec_ftabfull : num_sock_ftabfull e = u32 (tally (w_errno (among [ENFILE])) cs);
  ec_refused : num_sock_refused e = u32 (tally (w_errno (among [ECONNREFUSED])) cs);
  ec_timeouts : num_sock_timeouts e = u32 (tally (w_errno (among [ETIMEDOUT])) cs);
  ec_reset : num_sock_reset e = u32 (tally (w_errno (among [EPIPE; ECONNRESET])) cs);
  ec_addrunavail : num_sock_addrunavail e = 0;
  ec_other : num_other_errors e = u32 (tally (w_errno (fun err => negb (among known_errnos err))) cs);
  ec_total : total_errors e = u32 (tally w_failed cs)
}.

Lemma errors_count cs b : handle_all cs start = Ret b -> errors_counted cs (errs b).
Proof.
  intros Hrun. pose proof (fun f weight => tracked_count cs b 32 f weight Hrun ltac:(lia)) as A. constructor.
  - exact (A _ _ tracks_client_timeouts eq_refl).
  - exact (A _ _ tracks_fdunavail eq_refl).
  - exact (A _ _ tracks_ftabfull eq_refl).
  - exact (A _ _ tracks_refused eq_refl).
  - exact (A _ _ tracks_timeouts eq_refl).
  - exact (A _ _ tracks_reset eq_refl).
  - rewrite (A _ _ tracks_addrunavail eq_refl). clear. unfold tally. by induction cs.
  - exact (A _ _ tracks_other eq_refl).
  - exact (A _ _ tracks_errors eq_refl).
Qed.

(** C26: after any sequence of calls of the handlers that does not go wrong, every counter is the
    number of the calls that it counts, modulo its width: connections issued, connected and active,
    requests and their bytes, responses, the bytes of headers, contents and footers, the replies of
    each status class and those since the last sample, the samples, each kind of error by its [errno]
    and all of them, life times, and the life times in each bin of the histogram; and [max_conns] is
    the greatest number of connections that were active at any time. *)
Theorem counters_count cs b (Hrun : handle_all cs start = Ret b) :
  num_conns_issued b = u32 (tally w_connecting cs) /\
  num_connects b = u32 (tally w_connected cs) /\
  num_active_conns b = u32 (tally w_created cs - tally w_destroyed cs) /\
  (forall k, active_after cs k <= max_conns b) /\ (exists k, active_after cs k = max_conns b) /\
  num_sent b = u32 (tally w_sent cs) /\ req_bytes_sent b = u64 (tally w_sent_bytes cs) /\
  num_responses b = u32 (tally w_started cs) /\
  hdr_bytes_received b = u64 (tally w_header cs) /\ reply_bytes_received b = u64 (tally w_content cs) /\
  footer_bytes_received b = u64 (tally w_footer cs) /\
  (forall k, replies_of k b = u32 (tally (w_reply k) cs)) /\
  interval_replies b = u32 (tally w_stopped (last_interval cs)) /\
  num (reply_rates b) = u32 (tally w_sample cs) /\
  errors_counted cs (errs b) /\
  num (lifetimes b) = u32 (tally (w_life (fun _ => true)) cs) /\
  (forall k, default 0 (conn_lifetime_hist b !! k) = u32 (tally (w_life (fun j => j =? k)) cs)).
Proof.
  pose proof (fun w f weight => tracked_count cs b w f weight Hrun) as A.
  pose proof (max_count cs b Hrun) as [Hmax Hex].
  split_and!; try done.
  all: try (by apply A; [lia | first [exact tracks_issued | exact tracks_connects | exact tracks_sent
    | exact tracks_sent_bytes | exact tracks_responses | exact tracks_header | exact tracks_content
    | exact tracks_footer] |]).
  - by apply active_count.
  - intros k. apply A; [lia | apply tracks_class |]. unfold replies_of, aget. destruct (0 <=? k); [| done].
    destruct (Z.to_nat k) as [| [| [| [| [| [|]]]]]]; reflexivity.
  - by apply interval_count.
  - apply (A 32 (fun b => num (reply_rates b))); [lia | apply tracks_samples | reflexivity].
  - by apply errors_count.
  - by apply lives_count.
  - intros k. by apply bins_count.
Qed.

Definition sec (z : Z) : spec_float := double z.
Definition demo : list call :=
  [ConnCreated; ConnConnecting; ConnConnected (sec 11) (sec 10); SendStop 70; RecvStart (sec 12) (sec 11);
   RecvStop (sec 13) (sec 12) 100 2000 0 200; ConnCreated; ConnConnecting; ConnFail ECONNREFUSED;
   ConnDestroyed (sec 13) (sec 13) 0; ConnDestroyed (sec 14) (sec 10) 1].

Lemma counters_count_witness :
  exists b, handle_all demo start = Ret b /\ num_conns_issued b = u32 (tally w_connecting demo) /\
    num_active_conns b = u32 (tally w_created demo - tally w_destroyed demo).
Proof.
  destruct (handle_all demo start) as [b | | |] eqn:E; [| exfalso; vm_compute in E; discriminate E ..].
  exists b. split; [reflexivity |]. destruct (counters_count demo b E) as (H1 & _ & H2 & _). split; assumption.
Defined.

(** ** The median *)
Section Median.
Context (cs : list call) (b : basic) (Hrun : handle_all cs start = Ret b).

Lemma tally_ext w w' : (forall c, c ∈ cs -> w c = w' c) -> tally w cs = tally w' cs.
Proof.
  clear Hrun. unfold tally. induction cs as [| c l IH]; intros H; cbn [foldr]; [done |].
  rewrite H by (apply elem_of_cons; auto). rewrite IH; [done |]. intros d Hd. apply H, elem_of_cons. auto.
Qed.

Lemma tally_nonneg p : 0 <= tally (w_life p) cs.
Proof.
  clear Hrun. unfold tally. induction cs as [| c l IH]; cbn [foldr]; [done |].
  assert (0 <= w_life p c) by (unfold w_life, one; by destruct (match c with ConnDestroyed _ _ _ => _ | _ => _ end)).
  lia.
Qed.

Lemma to_uint_nonneg x n : to_uint x = Ret n -> 0 <= n.
Proof.
  destruct x as [sg | sg | | sg m e]; cbn [to_uint]; [intros [= <-]; lia | discriminate | discriminate |].
  assert (0 <= Z.shiftl (Z.pos m) e) by (apply Z.shiftl_nonneg; lia). revert H. generalize (Z.shiftl (Z.pos m) e) as v. intros v Hv.
  destruct (v =? 0); [intros [= <-]; lia |]. destruct sg; [discriminate |]. destruct (v <? 2 ^ 32); [| discriminate].
  by intros [= <-].
Qed.
Lemma lifetime_bin_nonneg t k : lifetime_bin t = Ret k -> 0 <= k.
Proof.
  unfold lifetime_bin. intros (n & En & [= <-])%bind_Ret_inv. apply to_uint_nonneg in En. pose proof NUM_BINS_value.
  destruct (Z.leb_spec NUM_BINS n); lia.
Qed.

(** Every life time that was counted has a bin of the histogram. *)
Lemma lived_in_range c : c ∈ cs -> w_life (fun _ => true) c = w_life (fun j => (0 <=? j) && (j <? NUM_BINS)) c.
Proof.
  clear -Hrun. revert Hrun. generalize start as s0. induction cs as [| d l IH]; intros s0 E; [by intros ?%elem_of_nil |].
  cbn [handle_all] in E. apply bind_Ret_inv in E as (b1 & E1 & E). intros [-> | Hc]%elem_of_cons; [| by eapply IH].
  destruct d; try done. cbn [handle] in E1. unfold w_life.
  apply conn_destroyed_inv in E1 as [(-> & _) | (-> & k & Ek & Hk & _)]; [done |]. rewrite Ek.
  destruct (Z.leb_spec 0 k); [by destruct (Z.ltb_spec k NUM_BINS); [| lia] |].
  apply lifetime_bin_nonneg in Ek. lia.
Qed.

Lemma tally_below_succ k :
  0 <= k -> tally (w_life (fun j => j <? k + 1)) cs = tally (w_life (fun j => j <? k)) cs + tally (w_life (fun j => j =? k)) cs.
Proof.
  intros Hk. clear Hrun. unfold tally. induction cs as [| c l IH]; cbn [foldr]; [done |]. rewrite IH.
  assert (w_life (fun j => j <? k + 1) c = w_life (fun j => j <? k) c + w_life (fun j => j =? k) c); [| lia].
  unfold w_life, one. destruct c; try done. destruct (0 <? completed); [| done].
  destruct (lifetime_bin _) as [j | | |]; try done.
  destruct (Z.ltb_spec j (k + 1)), (Z.ltb_spec j k), (Z.eqb_spec j k); lia.
Qed.

Lemma tally_below_mono j k : j <= k -> tally (w_life (fun i => i <? j)) cs <= tally (w_life (fun i => i <? k)) cs.
Proof.
  intros Hk. clear Hrun. unfold tally. induction cs as [| c l IH]; cbn [foldr]; [done |].
  assert (w_life (fun i => i <? j) c <= w_life (fun i => i <? k) c); [| lia].
  unfold w_life, one. destruct c; try done. destruct (0 <? completed); [| done].
  destruct (lifetime_bin _) as [i | | |]; try done. destruct (Z.ltb_spec i j), (Z.ltb_spec i k); lia.
Qed.

Abbreviation below k := (tally (w_life (fun j => j <? k)) cs).
Abbreviation lives := (tally (w_life (fun _ => true)) cs).

Lemma below_all : below NUM_BINS = lives /\ below 0 = 0.
Proof.
  assert (A : forall c, c ∈ cs -> w_life (fun j => j <? NUM_BINS) c = w_life (fun _ => true) c /\ w_life (fun j => j <? 0) c = 0).
  { intros c Hc. pose proof (lived_in_range c Hc) as E. revert E. unfold w_life, one.
    destruct c; try done. destruct (0 <? completed); [| done]. destruct (lifetime_bin _) as [j | | |]; try done.
    destruct (Z.leb_spec 0 j), (Z.ltb_spec j NUM_BINS), (Z.ltb_spec j 0); cbn; try done; lia. }
  split; [apply tally_ext; intros c Hc; apply A, Hc |].
  rewrite (tally_ext _ (fun _ => 0)); [| intros c Hc; apply A, Hc].
  clear. unfold tally. induction cs; cbn [foldr]; lia.
Qed.

Lemma below_le k : k <= NUM_BINS -> 0 <= below k <= lives.
Proof.
  intros Hk. split; [apply tally_nonneg |]. rewrite <- (proj1 below_all). by apply tally_below_mono.
Qed.

(** The middle of a bin. *)
Definition middle (k : Z) : spec_float := fmul (fadd (fnum k) half) BIN_WIDTH.

Lemma median_loop_spec fuel i :
  lives < 2 ^ 32 -> 0 <= i -> i + Z.of_nat fuel = NUM_BINS -> 2 * below i < lives ->
  exists k, i <= k < NUM_BINS /\ median_loop fuel i (below i) b = middle k /\
    2 * below k < lives <= 2 * below (k + 1).
Proof.
  intros HL. pose proof (lives_count cs b Hrun) as En. pose proof (fun k => bins_count cs b k Hrun) as Eh.
  pose proof (tally_nonneg (fun _ => true)) as H0. revert i.
  induction fuel as [| fuel IH]; intros i Hi Hf Hb.
  - replace i with NUM_BINS in Hb by lia. rewrite (proj1 below_all) in Hb. lia.
  - pose proof (tally_below_succ i Hi) as Es. pose proof (below_le (i + 1) ltac:(lia)) as Hle.
    pose proof (below_le i ltac:(lia)) as Hl2. pose proof (tally_nonneg (fun j => j =? i)) as H1.
    cbn [median_loop]. rewrite Eh, (wrap_u_small 32 (tally (w_life (fun j => j =? i)) cs)) by lia.
    rewrite <- Es, (wrap_u_small 32 (below (i + 1))) by lia.
    rewrite En, (wrap_u_small 32 lives) by lia. unfold fnum. rewrite half_le by lia.
    destruct (Z.leb_spec lives (2 * below (i + 1))) as [L | L].
    + exists i. split_and!; [lia | lia | done | lia | lia].
    + destruct (IH (i + 1) ltac:(lia) ltac:(lia) ltac:(lia)) as (k & Hk & Ek & Hm).
      exists k. split_and!; [lia | lia | done | lia | lia].
Qed.
End Median.

(** C28: when at least one connection that completed a call has been destroyed (and fewer than 2^32), the
    median life time that is printed is the middle of a bin such that fewer than half of the life
    times are in the bins below it, and at least half of them in the bins up to it. *)
Theorem median_is_median cs b (Hrun : handle_all cs start = Ret b)
    (Hsome : 0 < tally (w_life (fun _ => true)) cs < 2 ^ 32) :
  exists k, 0 <= k < NUM_BINS /\ lifetime_median b = middle k /\
    2 * tally (w_life (fun j => j <? k)) cs < tally (w_life (fun _ => true)) cs
      <= 2 * tally (w_life (fun j => j <? k + 1)) cs.
Proof.
  pose proof (below_all cs b Hrun) as [_ E0].
  assert (En : num (lifetimes b) = tally (w_life (fun _ => true)) cs).
  { rewrite (lives_count cs b Hrun). apply wrap_u_small. lia. }
  destruct (median_loop_spec cs b Hrun (Z.to_nat NUM_BINS) 0) as (k & Hk & Ek & Hm); rewrite ?E0; try lia.
  { assert (NUM_BINS = 100000) by apply NUM_BINS_value. lia. }
  exists k. split; [exact Hk |]. split; [| exact Hm]. unfold lifetime_median. rewrite En.
  destruct (Z.ltb_spec 0 (tally (w_life (fun _ => true)) cs)); [| lia]. by rewrite E0 in Ek.
Qed.

Lemma median_is_median_witness :
  exists b k, handle_all demo start = Ret b /\ lifetime_median b = middle k /\
    2 * tally (w_life (fun j => j <? k)) demo < 1 <= 2 * tally (w_life (fun j => j <? k + 1)) demo.
Proof.
  destruct (handle_all demo start) as [b | | |] eqn:E; [| exfalso; vm_compute in E; discriminate E ..].
  exists b. destruct (median_is_median demo b E) as (k & _ & H1 & H2); [vm_compute; split; reflexivity |].
  exists k. split; [reflexivity |]. split; [exact H1 | exact H2].
Defined.

(** A life time of 100 seconds is counted one past the end of the histogram. *)
Lemma long_life_overflows b (Hact : 0 < num_active_conns b) :
  conn_destroyed (sec 100) (sec 0) 1 b = Undef.
Proof.
  unfold conn_destroyed, assert_at. destruct (Z.ltb_spec 0 (num_active_conns b)); [| lia]. rewrite bind_Ret.
  assert (E : lifetime_bin (fsub (sec 100) (sec 0)) = Ret NUM_BINS) by (vm_compute; reflexivity).
  change (0 <? 1) with true. cbv iota. rewrite E, bind_Ret. unfold hist_incr. by rewrite Z.ltb_irrefl.
Qed.
End BasicStatsTheorems.
