(* ===== verification/HttperfState.v ===== *)
(** * httperf/src: the state of the client

    The structures [Call] and [Conn] with what the generators keep in them, and the
    variables of core.c, event.c, object.c, call.c, timer.c, gen/rate.c,
    gen/conn_rate.c and httperf.c as one record.  Objects live in two heaps indexed by
    their addresses, 0 is the null pointer; a freed object is not in its heap but in its
    list of free objects, a call with the contents it had.  An [iovec] is the bytes from its base on ([None] when the
    base is null) and its length. *)
From S2P Require Import Prelude Doubles HttpReply Ports BasicStats.

Module HttperfState.
Export Doubles.

Abbreviation Time := spec_float.
Abbreviation Conn_State := HttpReply.Conn_State.
Abbreviation S_INITIAL := HttpReply.S_INITIAL.
Abbreviation S_CONNECTING := HttpReply.S_CONNECTING.
Abbreviation S_CONNECTED := HttpReply.S_CONNECTED.
Abbreviation S_REPLY_STATUS := HttpReply.S_REPLY_STATUS.
Abbreviation S_REPLY_DATA := HttpReply.S_REPLY_DATA.
Abbreviation S_REPLY_DONE := HttpReply.S_REPLY_DONE.
Abbreviation S_CLOSING := HttpReply.S_CLOSING.
Abbreviation S_FREE := HttpReply.S_FREE.
Abbreviation closing := HttpReply.closing.

#[export] Existing Instance HttpReply.Conn_State_eq_dec.

(** ** event.h and event.c *)
Inductive Event_Type :=
| EV_PERF_SAMPLE | EV_HOSTNAME_LOOKUP_START | EV_HOSTNAME_LOOKUP_STOP
| EV_SESS_NEW | EV_SESS_FAILED | EV_SESS_DESTROYED
| EV_CONN_NEW | EV_CONN_CONNECTING | EV_CONN_CONNECTED | EV_CONN_CLOSE | EV_CONN_DESTROYED
| EV_CONN_FAILED | EV_CONN_TIMEOUT
| EV_CALL_NEW | EV_CALL_ISSUE | EV_CALL_SEND_START | EV_CALL_SEND_RAW_DATA | EV_CALL_SEND_STOP
| EV_CALL_RECV_START | EV_CALL_RECV_HDR | EV_CALL_RECV_RAW_DATA | EV_CALL_RECV_DATA
| EV_CALL_RECV_FOOTER | EV_CALL_RECV_STOP | EV_CALL_DESTROYED.
#[export] Instance Event_Type_eq_dec : EqDecision Event_Type.
Proof. solve_decision. Defined.

(** What an event carries: nothing, the [errno] of a failure, the weight of a sample. *)
Inductive Any_Type := NoArg | IntArg (i : Z) | TimeArg (d : Time).

(** The handlers that the default configuration registers: stat/basic.c, gen/call_seq.c,
    gen/uri_fixed.c, gen/conn_rate.c, gen/misc.c, and gen/rate.c for sequential tests. *)
Inductive Event_Handler :=
| basic_perf_sample | basic_conn_fail | basic_conn_timeout | basic_conn_created | basic_conn_connecting
| basic_conn_connected | basic_conn_destroyed | basic_send_start | basic_send_stop | basic_recv_start
| basic_recv_stop
| call_seq_conn_connected | call_seq_call_done | call_seq_call_destroyed
| uri_fixed_set_uri | conn_rate_destroyed | misc_call_created | rate_done.

Definition MAX_NUM_OPS : nat := 4.
(** The registered handlers of each event, in the order of registration. *)
Definition action : Type := Event_Type -> list Event_Handler.

Definition event_register_handler (et : Event_Type) (handler : Event_Handler) (act : action) : cres action :=
  if (MAX_NUM_OPS <=? length (act et))%nat then Exit 1
  else Ret (fun e => if decide (e = et) then act et ++ [handler] else act e).

(** ** call.h *)
Definition IE_METHOD : nat := 0.
Definition IE_BLANK : nat := 1.
Definition IE_LOC : nat := 2.
Definition IE_URI : nat := 3.
Definition IE_PROTL : nat := 4.
Definition IE_HOST : nat := 5.
Definition IE_NEWLINE1 : nat := 6.
Definition IE_FIRST_HEADER : nat := 7.
Definition IE_NEWLINE2 : nat := 11.
Definition IE_CONTENT : nat := 12.
Definition IE_LEN : nat := 13.
Definition MAX_EXTRA_HEADERS : Z := 4.

Record iovec := mkIov { iov_base : option (list Z); iov_len : Z }.
Definition null_iov : iovec := mkIov None 0.
(** A pointer to [b] and its length. *)
Definition iov_of (b : list Z) : iovec := mkIov (Some b) (Z.of_nat (length b)).

Record Call := mkCall {
  c_ref : Z;
  id : Z;
  call_conn : Z;
  sendq_next : Z;
  recvq_next : Z;
  timeout : Time;
  time_send_start : Time;
  time_recv_start : Time;
  req_version : Z;
  num_extra_hdrs : Z;
  iov_index : Z;
  req_size : Z;
  iov_saved : iovec;
  iov : list iovec;
  reply_status : Z;
  reply_version : Z;
  reply_header_bytes : Z;
  reply_content_bytes : Z;
  reply_footer_bytes : Z
}.

(** ** conn.h, with the private data of gen/call_seq.c *)
Record Conn := mkConn {
  s_ref : Z;
  state : Conn_State;
  sendq : Z;
  sendq_tail : Z;
  recvq : Z;
  recvq_tail : Z;
  watchdog : Z;
  time_connect_start : Time;
  num_calls_completed : Z;
  hostname : list Z;
  fqdname : list Z;
  port : Z;
  sd : Z;
  myport : Z;
  line : list Z;
  content_length : Z;
  has_body : bool;
  is_chunked : bool;
  seq_calls : Z;
  seq_completed : Z;
  seq_destroyed : Z
}.

Definition set_c_ref v (s : Call) : Call := mkCall v (id s) (call_conn s) (sendq_next s)
  (recvq_next s) (timeout s) (time_send_start s) (time_recv_start s) (req_version s)
  (num_extra_hdrs s) (iov_index s) (req_size s) (iov_saved s) (iov s) (reply_status s)
  (reply_version s) (reply_header_bytes s) (reply_content_bytes s) (reply_footer_bytes s).
Definition set_id v (s : Call) : Call := mkCall (c_ref s) v (call_conn s) (sendq_next s)
  (recvq_next s) (timeout s) (time_send_start s) (time_recv_start s) (req_version s)
  (num_extra_hdrs s) (iov_index s) (req_size s) (iov_saved s) (iov s) (reply_status s)
  (reply_version s) (reply_header_bytes s) (reply_content_bytes s) (reply_footer_bytes s).
Definition set_call_conn v (s : Call) : Call := mkCall (c_ref s) (id s) v (sendq_next s)
  (recvq_next s) (timeout s) (time_send_start s) (time_recv_start s) (req_version s)
  (num_extra_hdrs s) (iov_index s) (req_size s) (iov_saved s) (iov s) (reply_status s)
  (reply_version s) (reply_header_bytes s) (reply_content_bytes s) (reply_footer_bytes s).
Definition set_sendq_next v (s : Call) : Call := mkCall (c_ref s) (id s) (call_conn s) v
  (recvq_next s) (timeout s) (time_send_start s) (time_recv_start s) (req_version s)
  (num_extra_hdrs s) (iov_index s) (req_size s) (iov_saved s) (iov s) (reply_status s)
  (reply_version s) (reply_header_bytes s) (reply_content_bytes s) (reply_footer_bytes s).
Definition set_recvq_next v (s : Call) : Call := mkCall (c_ref s) (id s) (call_conn s)
  (sendq_next s) v (timeout s) (time_send_start s) (time_recv_start s) (req_version s)
  (num_extra_hdrs s) (iov_index s) (req_size s) (iov_saved s) (iov s) (reply_status s)
  (reply_version s) (reply_header_bytes s) (reply_content_bytes s) (reply_footer_bytes s).
Definition set_timeout v (s : Call) : Call := mkCall (c_ref s) (id s) (call_conn s) (sendq_next
  s) (recvq_next s) v (time_send_start s) (time_recv_start s) (req_version s) (num_extra_hdrs s)
  (iov_index s) (req_size s) (iov_saved s) (iov s) (reply_status s) (reply_version s)
  (reply_header_bytes s) (reply_content_bytes s) (reply_footer_bytes s).
Definition set_time_send_start v (s : Call) : Call := mkCall (c_ref s) (id s) (call_conn s)
  (sendq_next s) (recvq_next s) (timeout s) v (time_recv_start s) (req_version s)
  (num_extra_hdrs s) (iov_index s) (req_size s) (iov_saved s) (iov s) (reply_status s)
  (reply_version s) (reply_header_bytes s) (reply_content_bytes s) (reply_footer_bytes s).
Definition set_time_recv_start v (s : Call) : Call := mkCall (c_ref s) (id s) (call_conn s)
  (sendq_next s) (recvq_next s) (timeout s) (time_send_start s) v (req_version s)
  (num_extra_hdrs s) (iov_index s) (req_size s) (iov_saved s) (iov s) (reply_status s)
  (reply_version s) (reply_header_bytes s) (reply_content_bytes s) (reply_footer_bytes s).
Definition set_req_version v (s : Call) : Call := mkCall (c_ref s) (id s) (call_conn s)
  (sendq_next s) (recvq_next s) (timeout s) (time_send_start s) (time_recv_start s) v
  (num_extra_hdrs s) (iov_index s) (req_size s) (iov_saved s) (iov s) (reply_status s)
  (reply_version s) (reply_header_bytes s) (reply_content_bytes s) (reply_footer_bytes s).
Definition set_num_extra_hdrs v (s : Call) : Call := mkCall (c_ref s) (id s) (call_conn s)
  (sendq_next s) (recvq_next s) (timeout s) (time_send_start s) (time_recv_start s) (req_version
  s) v (iov_index s) (req_size s) (iov_saved s) (iov s) (reply_status s) (reply_version s)
  (reply_header_bytes s) (reply_content_bytes s) (reply_footer_bytes s).
Definition set_iov_index v (s : Call) : Call := mkCall (c_ref s) (id s) (call_conn s)
  (sendq_next s) (recvq_next s) (timeout s) (time_send_start s) (time_recv_start s) (req_version
  s) (num_extra_hdrs s) v (req_size s) (iov_saved s) (iov s) (reply_status s) (reply_version s)
  (reply_header_bytes s) (reply_content_bytes s) (reply_footer_bytes s).
Definition set_req_size v (s : Call) : Call := mkCall (c_ref s) (id s) (call_conn s) (sendq_next
  s) (recvq_next s) (timeout s) (time_send_start s) (time_recv_start s) (req_version s)
  (num_extra_hdrs s) (iov_index s) v (iov_saved s) (iov s) (reply_status s) (reply_version s)
  (reply_header_bytes s) (reply_content_bytes s) (reply_footer_bytes s).
Definition set_iov_saved v (s : Call) : Call := mkCall (c_ref s) (id s) (call_conn s)
  (sendq_next s) (recvq_next s) (timeout s) (time_send_start s) (time_recv_start s) (req_version
  s) (num_extra_hdrs s) (iov_index s) (req_size s) v (iov s) (reply_status s) (reply_version s)
  (reply_header_bytes s) (reply_content_bytes s) (reply_footer_bytes s).
Definition set_iov v (s : Call) : Call := mkCall (c_ref s) (id s) (call_conn s) (sendq_next s)
  (recvq_next s) (timeout s) (time_send_start s) (time_recv_start s) (req_version s)
  (num_extra_hdrs s) (iov_index s) (req_size s) (iov_saved s) v (reply_status s) (reply_version
  s) (reply_header_bytes s) (reply_content_bytes s) (reply_footer_bytes s).
Definition set_reply_status v (s : Call) : Call := mkCall (c_ref s) (id s) (call_conn s)
  (sendq_next s) (recvq_next s) (timeout s) (time_send_start s) (time_recv_start s) (req_version
  s) (num_extra_hdrs s) (iov_index s) (req_size s) (iov_saved s) (iov s) v (reply_version s)
  (reply_header_bytes s) (reply_content_bytes s) (reply_footer_bytes s).
Definition set_reply_version v (s : Call) : Call := mkCall (c_ref s) (id s) (call_conn s)
  (sendq_next s) (recvq_next s) (timeout s) (time_send_start s) (time_recv_start s) (req_version
  s) (num_extra_hdrs s) (iov_index s) (req_size s) (iov_saved s) (iov s) (reply_status s) v
  (reply_header_bytes s) (reply_content_bytes s) (reply_footer_bytes s).
Definition set_reply_header_bytes v (s : Call) : Call := mkCall (c_ref s) (id s) (call_conn s)
  (sendq_next s) (recvq_next s) (timeout s) (time_send_start s) (time_recv_start s) (req_version
  s) (num_extra_hdrs s) (iov_index s) (req_size s) (iov_saved s) (iov s) (reply_status s)
  (reply_version s) v (reply_content_bytes s) (reply_footer_bytes s).
Definition set_reply_content_bytes v (s : Call) : Call := mkCall (c_ref s) (id s) (call_conn s)
  (sendq_next s) (recvq_next s) (timeout s) (time_send_start s) (time_recv_start s) (req_version
  s) (num_extra_hdrs s) (iov_index s) (req_size s) (iov_saved s) (iov s) (reply_status s)
  (reply_version s) (reply_header_bytes s) v (reply_footer_bytes s).
Definition set_reply_footer_bytes v (s : Call) : Call := mkCall (c_ref s) (id s) (call_conn s)
  (sendq_next s) (recvq_next s) (timeout s) (time_send_start s) (time_recv_start s) (req_version
  s) (num_extra_hdrs s) (iov_index s) (req_size s) (iov_saved s) (iov s) (reply_status s)
  (reply_version s) (reply_header_bytes s) (reply_content_bytes s) v.

Definition set_s_ref v (s : Conn) : Conn := mkConn v (state s) (sendq s) (sendq_tail s) (recvq
  s) (recvq_tail s) (watchdog s) (time_connect_start s) (num_calls_completed s) (hostname s)
  (fqdname s) (port s) (sd s) (myport s) (line s) (content_length s) (has_body s) (is_chunked s)
  (seq_calls s) (seq_completed s) (seq_destroyed s).
Definition set_state v (s : Conn) : Conn := mkConn (s_ref s) v (sendq s) (sendq_tail s) (recvq
  s) (recvq_tail s) (watchdog s) (time_connect_start s) (num_calls_completed s) (hostname s)
  (fqdname s) (port s) (sd s) (myport s) (line s) (content_length s) (has_body s) (is_chunked s)
  (seq_calls s) (seq_completed s) (seq_destroyed s).
Definition set_sendq v (s : Conn) : Conn := mkConn (s_ref s) (state s) v (sendq_tail s) (recvq
  s) (recvq_tail s) (watchdog s) (time_connect_start s) (num_calls_completed s) (hostname s)
  (fqdname s) (port s) (sd s) (myport s) (line s) (content_length s) (has_body s) (is_chunked s)
  (seq_calls s) (seq_completed s) (seq_destroyed s).
Definition set_sendq_tail v (s : Conn) : Conn := mkConn (s_ref s) (state s) (sendq s) v (recvq
  s) (recvq_tail s) (watchdog s) (time_connect_start s) (num_calls_completed s) (hostname s)
  (fqdname s) (port s) (sd s) (myport s) (line s) (content_length s) (has_body s) (is_chunked s)
  (seq_calls s) (seq_completed s) (seq_destroyed s).
Definition set_recvq v (s : Conn) : Conn := mkConn (s_ref s) (state s) (sendq s) (sendq_tail s)
  v (recvq_tail s) (watchdog s) (time_connect_start s) (num_calls_completed s) (hostname s)
  (fqdname s) (port s) (sd s) (myport s) (line s) (content_length s) (has_body s) (is_chunked s)
  (seq_calls s) (seq_completed s) (seq_destroyed s).
Definition set_recvq_tail v (s : Conn) : Conn := mkConn (s_ref s) (state s) (sendq s)
  (sendq_tail s) (recvq s) v (watchdog s) (time_connect_start s) (num_calls_completed s)
  (hostname s) (fqdname s) (port s) (sd s) (myport s) (line s) (content_length s) (has_body s)
  (is_chunked s) (seq_calls s) (seq_completed s) (seq_destroyed s).
Definition set_watchdog v (s : Conn) : Conn := mkConn (s_ref s) (state s) (sendq s) (sendq_tail
  s) (recvq s) (recvq_tail s) v (time_connect_start s) (num_calls_completed s) (hostname s)
  (fqdname s) (port s) (sd s) (myport s) (line s) (content_length s) (has_body s) (is_chunked s)
  (seq_calls s) (seq_completed s) (seq_destroyed s).
Definition set_time_connect_start v (s : Conn) : Conn := mkConn (s_ref s) (state s) (sendq s)
  (sendq_tail s) (recvq s) (recvq_tail s) (watchdog s) v (num_calls_completed s) (hostname s)
  (fqdname s) (port s) (sd s) (myport s) (line s) (content_length s) (has_body s) (is_chunked s)
  (seq_calls s) (seq_completed s) (seq_destroyed s).
Definition set_num_calls_completed v (s : Conn) : Conn := mkConn (s_ref s) (state s) (sendq s)
  (sendq_tail s) (recvq s) (recvq_tail s) (watchdog s) (time_connect_start s) v (hostname s)
  (fqdname s) (port s) (sd s) (myport s) (line s) (content_length s) (has_body s) (is_chunked s)
  (seq_calls s) (seq_completed s) (seq_destroyed s).
Definition set_hostname v (s : Conn) : Conn := mkConn (s_ref s) (state s) (sendq s) (sendq_tail
  s) (recvq s) (recvq_tail s) (watchdog s) (time_connect_start s) (num_calls_completed s) v
  (fqdname s) (port s) (sd s) (myport s) (line s) (content_length s) (has_body s) (is_chunked s)
  (seq_calls s) (seq_completed s) (seq_destroyed s).
Definition set_fqdname v (s : Conn) : Conn := mkConn (s_ref s) (state s) (sendq s) (sendq_tail
  s) (recvq s) (recvq_tail s) (watchdog s) (time_connect_start s) (num_calls_completed s)
  (hostname s) v (port s) (sd s) (myport s) (line s) (content_length s) (has_body s) (is_chunked
  s) (seq_calls s) (seq_completed s) (seq_destroyed s).
Definition set_port v (s : Conn) : Conn := mkConn (s_ref s) (state s) (sendq s) (sendq_tail s)
  (recvq s) (recvq_tail s) (watchdog s) (time_connect_start s) (num_calls_completed s) (hostname
  s) (fqdname s) v (sd s) (myport s) (line s) (content_length s) (has_body s) (is_chunked s)
  (seq_calls s) (seq_completed s) (seq_destroyed s).
Definition set_sd v (s : Conn) : Conn := mkConn (s_ref s) (state s) (sendq s) (sendq_tail s)
  (recvq s) (recvq_tail s) (watchdog s) (time_connect_start s) (num_calls_completed s) (hostname
  s) (fqdname s) (port s) v (myport s) (line s) (content_length s) (has_body s) (is_chunked s)
  (seq_calls s) (seq_completed s) (seq_destroyed s).
Definition set_myport v (s : Conn) : Conn := mkConn (s_ref s) (state s) (sendq s) (sendq_tail s)
  (recvq s) (recvq_tail s) (watchdog s) (time_connect_start s) (num_calls_completed s) (hostname
  s) (fqdname s) (port s) (sd s) v (line s) (content_length s) (has_body s) (is_chunked s)
  (seq_calls s) (seq_completed s) (seq_destroyed s).
Definition set_line v (s : Conn) : Conn := mkConn (s_ref s) (state s) (sendq s) (sendq_tail s)
  (recvq s) (recvq_tail s) (watchdog s) (time_connect_start s) (num_calls_completed s) (hostname
  s) (fqdname s) (port s) (sd s) (myport s) v (content_length s) (has_body s) (is_chunked s)
  (seq_calls s) (seq_completed s) (seq_destroyed s).
Definition set_content_length v (s : Conn) : Conn := mkConn (s_ref s) (state s) (sendq s)
  (sendq_tail s) (recvq s) (recvq_tail s) (watchdog s) (time_connect_start s)
  (num_calls_completed s) (hostname s) (fqdname s) (port s) (sd s) (myport s) (line s) v
  (has_body s) (is_chunked s) (seq_calls s) (seq_completed s) (seq_destroyed s).
Definition set_has_body v (s : Conn) : Conn := mkConn (s_ref s) (state s) (sendq s) (sendq_tail
  s) (recvq s) (recvq_tail s) (watchdog s) (time_connect_start s) (num_calls_completed s)
  (hostname s) (fqdname s) (port s) (sd s) (myport s) (line s) (content_length s) v (is_chunked
  s) (seq_calls s) (seq_completed s) (seq_destroyed s).
Definition set_is_chunked v (s : Conn) : Conn := mkConn (s_ref s) (state s) (sendq s)
  (sendq_tail s) (recvq s) (recvq_tail s) (watchdog s) (time_connect_start s)
  (num_calls_completed s) (hostname s) (fqdname s) (port s) (sd s) (myport s) (line s)
  (content_length s) (has_body s) v (seq_calls s) (seq_completed s) (seq_destroyed s).
Definition set_seq_calls v (s : Conn) : Conn := mkConn (s_ref s) (state s) (sendq s) (sendq_tail
  s) (recvq s) (recvq_tail s) (watchdog s) (time_connect_start s) (num_calls_completed s)
  (hostname s) (fqdname s) (port s) (sd s) (myport s) (line s) (content_length s) (has_body s)
  (is_chunked s) v (seq_completed s) (seq_destroyed s).
Definition set_seq_completed v (s : Conn) : Conn := mkConn (s_ref s) (state s) (sendq s)
  (sendq_tail s) (recvq s) (recvq_tail s) (watchdog s) (time_connect_start s)
  (num_calls_completed s) (hostname s) (fqdname s) (port s) (sd s) (myport s) (line s)
  (content_length s) (has_body s) (is_chunked s) (seq_calls s) v (seq_destroyed s).
Definition set_seq_destroyed v (s : Conn) : Conn := mkConn (s_ref s) (state s) (sendq s)
  (sendq_tail s) (recvq s) (recvq_tail s) (watchdog s) (time_connect_start s)
  (num_calls_completed s) (hostname s) (fqdname s) (port s) (sd s) (myport s) (line s)
  (content_length s) (has_body s) (is_chunked s) (seq_calls s) (seq_completed s) v.

(** The callbacks of timers. *)
Inductive callback := conn_timeout_cb (s : Z) | rate_tick_cb | perf_sample_cb.

(** ** The variables of the program, and the world outside it *)
Record st (W : Type) := mkSt {
  conns : gmap Z Conn;
  calls : gmap Z Call;
  free_conns : list Z;
  free_calls : list (Z * Call);
  brk : Z;
  next_id : Z;
  rdfds : gset Z;
  wrfds : gset Z;
  min_sd : Z;
  max_sd : Z;
  alloced_sd_to_conn : Z;
  sd_to_conn : gmap Z Z;
  running : bool;
  iteration : Z;
  prev_iteration : Z;
  burst_len : Z;
  max_burst_len : Z;
  loop_i : Z;
  errno : Z;
  ports : Ports.st;
  timers : gmap Z (callback * Time);
  next_timer : Z;
  now : Time;
  perf_sample_start : Time;
  basic : BasicStats.basic;
  next_time : Time;
  rg_timer : Z;
  rg_done : bool;
  num_conns_generated : Z;
  num_conns_destroyed : Z;
  world : W
}.
Arguments mkSt {W}.
Arguments conns {W}.
Arguments calls {W}.
Arguments free_conns {W}.
Arguments free_calls {W}.
Arguments brk {W}.
Arguments next_id {W}.
Arguments rdfds {W}.
Arguments wrfds {W}.
Arguments min_sd {W}.
Arguments max_sd {W}.
Arguments alloced_sd_to_conn {W}.
Arguments sd_to_conn {W}.
Arguments running {W}.
Arguments iteration {W}.
Arguments prev_iteration {W}.
Arguments burst_len {W}.
Arguments max_burst_len {W}.
Arguments loop_i {W}.
Arguments errno {W}.
Arguments ports {W}.
Arguments timers {W}.
Arguments next_timer {W}.
Arguments now {W}.
Arguments perf_sample_start {W}.
Arguments basic {W}.
Arguments next_time {W}.
Arguments rg_timer {W}.
Arguments rg_done {W}.
Arguments num_conns_generated {W}.
Arguments num_conns_destroyed {W}.
Arguments world {W}.

Section Setters.
Context {W : Type}.
Definition set_conns v (s : st W) : st W := mkSt v (calls s) (free_conns s) (free_calls s) (brk
  s) (next_id s) (rdfds s) (wrfds s) (min_sd s) (max_sd s) (alloced_sd_to_conn s) (sd_to_conn s)
  (running s) (iteration s) (prev_iteration s) (burst_len s) (max_burst_len s) (loop_i s) (errno
  s) (ports s) (timers s) (next_timer s) (now s) (perf_sample_start s) (basic s) (next_time s)
  (rg_timer s) (rg_done s) (num_conns_generated s) (num_conns_destroyed s) (world s).
Definition set_calls v (s : st W) : st W := mkSt (conns s) v (free_conns s) (free_calls s) (brk
  s) (next_id s) (rdfds s) (wrfds s) (min_sd s) (max_sd s) (alloced_sd_to_conn s) (sd_to_conn s)
  (running s) (iteration s) (prev_iteration s) (burst_len s) (max_burst_len s) (loop_i s) (errno
  s) (ports s) (timers s) (next_timer s) (now s) (perf_sample_start s) (basic s) (next_time s)
  (rg_timer s) (rg_done s) (num_conns_generated s) (num_conns_destroyed s) (world s).
Definition set_free_conns v (s : st W) : st W := mkSt (conns s) (calls s) v (free_calls s) (brk
  s) (next_id s) (rdfds s) (wrfds s) (min_sd s) (max_sd s) (alloced_sd_to_conn s) (sd_to_conn s)
  (running s) (iteration s) (prev_iteration s) (burst_len s) (max_burst_len s) (loop_i s) (errno
  s) (ports s) (timers s) (next_timer s) (now s) (perf_sample_start s) (basic s) (next_time s)
  (rg_timer s) (rg_done s) (num_conns_generated s) (num_conns_destroyed s) (world s).
Definition set_free_calls v (s : st W) : st W := mkSt (conns s) (calls s) (free_conns s) v (brk
  s) (next_id s) (rdfds s) (wrfds s) (min_sd s) (max_sd s) (alloced_sd_to_conn s) (sd_to_conn s)
  (running s) (iteration s) (prev_iteration s) (burst_len s) (max_burst_len s) (loop_i s) (errno
  s) (ports s) (timers s) (next_timer s) (now s) (perf_sample_start s) (basic s) (next_time s)
  (rg_timer s) (rg_done s) (num_conns_generated s) (num_conns_destroyed s) (world s).
Definition set_brk v (s : st W) : st W := mkSt (conns s) (calls s) (free_conns s) (free_calls s)
  v (next_id s) (rdfds s) (wrfds s) (min_sd s) (max_sd s) (alloced_sd_to_conn s) (sd_to_conn s)
  (running s) (iteration s) (prev_iteration s) (burst_len s) (max_burst_len s) (loop_i s) (errno
  s) (ports s) (timers s) (next_timer s) (now s) (perf_sample_start s) (basic s) (next_time s)
  (rg_timer s) (rg_done s) (num_conns_generated s) (num_conns_destroyed s) (world s).
Definition set_next_id v (s : st W) : st W := mkSt (conns s) (calls s) (free_conns s)
  (free_calls s) (brk s) v (rdfds s) (wrfds s) (min_sd s) (max_sd s) (alloced_sd_to_conn s)
  (sd_to_conn s) (running s) (iteration s) (prev_iteration s) (burst_len s) (max_burst_len s)
  (loop_i s) (errno s) (ports s) (timers s) (next_timer s) (now s) (perf_sample_start s) (basic
  s) (next_time s) (rg_timer s) (rg_done s) (num_conns_generated s) (num_conns_destroyed s)
  (world s).
Definition set_rdfds v (s : st W) : st W := mkSt (conns s) (calls s) (free_conns s) (free_calls
  s) (brk s) (next_id s) v (wrfds s) (min_sd s) (max_sd s) (alloced_sd_to_conn s) (sd_to_conn s)
  (running s) (iteration s) (prev_iteration s) (burst_len s) (max_burst_len s) (loop_i s) (errno
  s) (ports s) (timers s) (next_timer s) (now s) (perf_sample_start s) (basic s) (next_time s)
  (rg_timer s) (rg_done s) (num_conns_generated s) (num_conns_destroyed s) (world s).
Definition set_wrfds v (s : st W) : st W := mkSt (conns s) (calls s) (free_conns s) (free_calls
  s) (brk s) (next_id s) (rdfds s) v (min_sd s) (max_sd s) (alloced_sd_to_conn s) (sd_to_conn s)
  (running s) (iteration s) (prev_iteration s) (burst_len s) (max_burst_len s) (loop_i s) (errno
  s) (ports s) (timers s) (next_timer s) (now s) (perf_sample_start s) (basic s) (next_time s)
  (rg_timer s) (rg_done s) (num_conns_generated s) (num_conns_destroyed s) (world s).
Definition set_min_sd v (s : st W) : st W := mkSt (conns s) (calls s) (free_conns s) (free_calls
  s) (brk s) (next_id s) (rdfds s) (wrfds s) v (max_sd s) (alloced_sd_to_conn s) (sd_to_conn s)
  (running s) (iteration s) (prev_iteration s) (burst_len s) (max_burst_len s) (loop_i s) (errno
  s) (ports s) (timers s) (next_timer s) (now s) (perf_sample_start s) (basic s) (next_time s)
  (rg_timer s) (rg_done s) (num_conns_generated s) (num_conns_destroyed s) (world s).
Definition set_max_sd v (s : st W) : st W := mkSt (conns s) (calls s) (free_conns s) (free_calls
  s) (brk s) (next_id s) (rdfds s) (wrfds s) (min_sd s) v (alloced_sd_to_conn s) (sd_to_conn s)
  (running s) (iteration s) (prev_iteration s) (burst_len s) (max_burst_len s) (loop_i s) (errno
  s) (ports s) (timers s) (next_timer s) (now s) (perf_sample_start s) (basic s) (next_time s)
  (rg_timer s) (rg_done s) (num_conns_generated s) (num_conns_destroyed s) (world s).
Definition set_alloced_sd_to_conn v (s : st W) : st W := mkSt (conns s) (calls s) (free_conns s)
  (free_calls s) (brk s) (next_id s) (rdfds s) (wrfds s) (min_sd s) (max_sd s) v (sd_to_conn s)
  (running s) (iteration s) (prev_iteration s) (burst_len s) (max_burst_len s) (loop_i s) (errno
  s) (ports s) (timers s) (next_timer s) (now s) (perf_sample_start s) (basic s) (next_time s)
  (rg_timer s) (rg_done s) (num_conns_generated s) (num_conns_destroyed s) (world s).
Definition set_sd_to_conn v (s : st W) : st W := mkSt (conns s) (calls s) (free_conns s)
  (free_calls s) (brk s) (next_id s) (rdfds s) (wrfds s) (min_sd s) (max_sd s)
  (alloced_sd_to_conn s) v (running s) (iteration s) (prev_iteration s) (burst_len s)
  (max_burst_len s) (loop_i s) (errno s) (ports s) (timers s) (next_timer s) (now s)
  (perf_sample_start s) (basic s) (next_time s) (rg_timer s) (rg_done s) (num_conns_generated s)
  (num_conns_destroyed s) (world s).
Definition set_running v (s : st W) : st W := mkSt (conns s) (calls s) (free_conns s)
  (free_calls s) (brk s) (next_id s) (rdfds s) (wrfds s) (min_sd s) (max_sd s)
  (alloced_sd_to_conn s) (sd_to_conn s) v (iteration s) (prev_iteration s) (burst_len s)
  (max_burst_len s) (loop_i s) (errno s) (ports s) (timers s) (next_timer s) (now s)
  (perf_sample_start s) (basic s) (next_time s) (rg_timer s) (rg_done s) (num_conns_generated s)
  (num_conns_destroyed s) (world s).
Definition set_iteration v (s : st W) : st W := mkSt (conns s) (calls s) (free_conns s)
  (free_calls s) (brk s) (next_id s) (rdfds s) (wrfds s) (min_sd s) (max_sd s)
  (alloced_sd_to_conn s) (sd_to_conn s) (running s) v (prev_iteration s) (burst_len s)
  (max_burst_len s) (loop_i s) (errno s) (ports s) (timers s) (next_timer s) (now s)
  (perf_sample_start s) (basic s) (next_time s) (rg_timer s) (rg_done s) (num_conns_generated s)
  (num_conns_destroyed s) (world s).
Definition set_prev_iteration v (s : st W) : st W := mkSt (conns s) (calls s) (free_conns s)
  (free_calls s) (brk s) (next_id s) (rdfds s) (wrfds s) (min_sd s) (max_sd s)
  (alloced_sd_to_conn s) (sd_to_conn s) (running s) (iteration s) v (burst_len s) (max_burst_len
  s) (loop_i s) (errno s) (ports s) (timers s) (next_timer s) (now s) (perf_sample_start s)
  (basic s) (next_time s) (rg_timer s) (rg_done s) (num_conns_generated s) (num_conns_destroyed
  s) (world s).
Definition set_burst_len v (s : st W) : st W := mkSt (conns s) (calls s) (free_conns s)
  (free_calls s) (brk s) (next_id s) (rdfds s) (wrfds s) (min_sd s) (max_sd s)
  (alloced_sd_to_conn s) (sd_to_conn s) (running s) (iteration s) (prev_iteration s) v
  (max_burst_len s) (loop_i s) (errno s) (ports s) (timers s) (next_timer s) (now s)
  (perf_sample_start s) (basic s) (next_time s) (rg_timer s) (rg_done s) (num_conns_generated s)
  (num_conns_destroyed s) (world s).
Definition set_max_burst_len v (s : st W) : st W := mkSt (conns s) (calls s) (free_conns s)
  (free_calls s) (brk s) (next_id s) (rdfds s) (wrfds s) (min_sd s) (max_sd s)
  (alloced_sd_to_conn s) (sd_to_conn s) (running s) (iteration s) (prev_iteration s) (burst_len
  s) v (loop_i s) (errno s) (ports s) (timers s) (next_timer s) (now s) (perf_sample_start s)
  (basic s) (next_time s) (rg_timer s) (rg_done s) (num_conns_generated s) (num_conns_destroyed
  s) (world s).
Definition set_loop_i v (s : st W) : st W := mkSt (conns s) (calls s) (free_conns s) (free_calls
  s) (brk s) (next_id s) (rdfds s) (wrfds s) (min_sd s) (max_sd s) (alloced_sd_to_conn s)
  (sd_to_conn s) (running s) (iteration s) (prev_iteration s) (burst_len s) (max_burst_len s) v
  (errno s) (ports s) (timers s) (next_timer s) (now s) (perf_sample_start s) (basic s)
  (next_time s) (rg_timer s) (rg_done s) (num_conns_generated s) (num_conns_destroyed s) (world
  s).
Definition set_errno v (s : st W) : st W := mkSt (conns s) (calls s) (free_conns s) (free_calls
  s) (brk s) (next_id s) (rdfds s) (wrfds s) (min_sd s) (max_sd s) (alloced_sd_to_conn s)
  (sd_to_conn s) (running s) (iteration s) (prev_iteration s) (burst_len s) (max_burst_len s)
  (loop_i s) v (ports s) (timers s) (next_timer s) (now s) (perf_sample_start s) (basic s)
  (next_time s) (rg_timer s) (rg_done s) (num_conns_generated s) (num_conns_destroyed s) (world
  s).
Definition set_ports v (s : st W) : st W := mkSt (conns s) (calls s) (free_conns s) (free_calls
  s) (brk s) (next_id s) (rdfds s) (wrfds s) (min_sd s) (max_sd s) (alloced_sd_to_conn s)
  (sd_to_conn s) (running s) (iteration s) (prev_iteration s) (burst_len s) (max_burst_len s)
  (loop_i s) (errno s) v (timers s) (next_timer s) (now s) (perf_sample_start s) (basic s)
  (next_time s) (rg_timer s) (rg_done s) (num_conns_generated s) (num_conns_destroyed s) (world
  s).
Definition set_timers v (s : st W) : st W := mkSt (conns s) (calls s) (free_conns s) (free_calls
  s) (brk s) (next_id s) (rdfds s) (wrfds s) (min_sd s) (max_sd s) (alloced_sd_to_conn s)
  (sd_to_conn s) (running s) (iteration s) (prev_iteration s) (burst_len s) (max_burst_len s)
  (loop_i s) (errno s) (ports s) v (next_timer s) (now s) (perf_sample_start s) (basic s)
  (next_time s) (rg_timer s) (rg_done s) (num_conns_generated s) (num_conns_destroyed s) (world
  s).
Definition set_next_timer v (s : st W) : st W := mkSt (conns s) (calls s) (free_conns s)
  (free_calls s) (brk s) (next_id s) (rdfds s) (wrfds s) (min_sd s) (max_sd s)
  (alloced_sd_to_conn s) (sd_to_conn s) (running s) (iteration s) (prev_iteration s) (burst_len
  s) (max_burst_len s) (loop_i s) (errno s) (ports s) (timers s) v (now s) (perf_sample_start s)
  (basic s) (next_time s) (rg_timer s) (rg_done s) (num_conns_generated s) (num_conns_destroyed
  s) (world s).
Definition set_now v (s : st W) : st W := mkSt (conns s) (calls s) (free_conns s) (free_calls s)
  (brk s) (next_id s) (rdfds s) (wrfds s) (min_sd s) (max_sd s) (alloced_sd_to_conn s)
  (sd_to_conn s) (running s) (iteration s) (prev_iteration s) (burst_len s) (max_burst_len s)
  (loop_i s) (errno s) (ports s) (timers s) (next_timer s) v (perf_sample_start s) (basic s)
  (next_time s) (rg_timer s) (rg_done s) (num_conns_generated s) (num_conns_destroyed s) (world
  s).
Definition set_perf_sample_start v (s : st W) : st W := mkSt (conns s) (calls s) (free_conns s)
  (free_calls s) (brk s) (next_id s) (rdfds s) (wrfds s) (min_sd s) (max_sd s)
  (alloced_sd_to_conn s) (sd_to_conn s) (running s) (iteration s) (prev_iteration s) (burst_len
  s) (max_burst_len s) (loop_i s) (errno s) (ports s) (timers s) (next_timer s) (now s) v (basic
  s) (next_time s) (rg_timer s) (rg_done s) (num_conns_generated s) (num_conns_destroyed s)
  (world s).
Definition set_basic v (s : st W) : st W := mkSt (conns s) (calls s) (free_conns s) (free_calls
  s) (brk s) (next_id s) (rdfds s) (wrfds s) (min_sd s) (max_sd s) (alloced_sd_to_conn s)
  (sd_to_conn s) (running s) (iteration s) (prev_iteration s) (burst_len s) (max_burst_len s)
  (loop_i s) (errno s) (ports s) (timers s) (next_timer s) (now s) (perf_sample_start s) v
  (next_time s) (rg_timer s) (rg_done s) (num_conns_generated s) (num_conns_destroyed s) (world
  s).
Definition set_next_time v (s : st W) : st W := mkSt (conns s) (calls s) (free_conns s)
  (free_calls s) (brk s) (next_id s) (rdfds s) (wrfds s) (min_sd s) (max_sd s)
  (alloced_sd_to_conn s) (sd_to_conn s) (running s) (iteration s) (prev_iteration s) (burst_len
  s) (max_burst_len s) (loop_i s) (errno s) (ports s) (timers s) (next_timer s) (now s)
  (perf_sample_start s) (basic s) v (rg_timer s) (rg_done s) (num_conns_generated s)
  (num_conns_destroyed s) (world s).
Definition set_rg_timer v (s : st W) : st W := mkSt (conns s) (calls s) (free_conns s)
  (free_calls s) (brk s) (next_id s) (rdfds s) (wrfds s) (min_sd s) (max_sd s)
  (alloced_sd_to_conn s) (sd_to_conn s) (running s) (iteration s) (prev_iteration s) (burst_len
  s) (max_burst_len s) (loop_i s) (errno s) (ports s) (timers s) (next_timer s) (now s)
  (perf_sample_start s) (basic s) (next_time s) v (rg_done s) (num_conns_generated s)
  (num_conns_destroyed s) (world s).
Definition set_rg_done v (s : st W) : st W := mkSt (conns s) (calls s) (free_conns s)
  (free_calls s) (brk s) (next_id s) (rdfds s) (wrfds s) (min_sd s) (max_sd s)
  (alloced_sd_to_conn s) (sd_to_conn s) (running s) (iteration s) (prev_iteration s) (burst_len
  s) (max_burst_len s) (loop_i s) (errno s) (ports s) (timers s) (next_timer s) (now s)
  (perf_sample_start s) (basic s) (next_time s) (rg_timer s) v (num_conns_generated s)
  (num_conns_destroyed s) (world s).
Definition set_num_conns_generated v (s : st W) : st W := mkSt (conns s) (calls s) (free_conns
  s) (free_calls s) (brk s) (next_id s) (rdfds s) (wrfds s) (min_sd s) (max_sd s)
  (alloced_sd_to_conn s) (sd_to_conn s) (running s) (iteration s) (prev_iteration s) (burst_len
  s) (max_burst_len s) (loop_i s) (errno s) (ports s) (timers s) (next_timer s) (now s)
  (perf_sample_start s) (basic s) (next_time s) (rg_timer s) (rg_done s) v (num_conns_destroyed
  s) (world s).
Definition set_num_conns_destroyed v (s : st W) : st W := mkSt (conns s) (calls s) (free_conns
  s) (free_calls s) (brk s) (next_id s) (rdfds s) (wrfds s) (min_sd s) (max_sd s)
  (alloced_sd_to_conn s) (sd_to_conn s) (running s) (iteration s) (prev_iteration s) (burst_len
  s) (max_burst_len s) (loop_i s) (errno s) (ports s) (timers s) (next_timer s) (now s)
  (perf_sample_start s) (basic s) (next_time s) (rg_timer s) (rg_done s) (num_conns_generated s)
  v (world s).
Definition set_world v (s : st W) : st W := mkSt (conns s) (calls s) (free_conns s) (free_calls
  s) (brk s) (next_id s) (rdfds s) (wrfds s) (min_sd s) (max_sd s) (alloced_sd_to_conn s)
  (sd_to_conn s) (running s) (iteration s) (prev_iteration s) (burst_len s) (max_burst_len s)
  (loop_i s) (errno s) (ports s) (timers s) (next_timer s) (now s) (perf_sample_start s) (basic
  s) (next_time s) (rg_timer s) (rg_done s) (num_conns_generated s) (num_conns_destroyed s) v.
End Setters.

End HttperfState.
