(* ===== verification/Httperf.v ===== *)
(** * httperf/src: the client that issues a sequence of calls on each connection

    object.c, event.c, call.c, conn.c, core.c, gen/call_seq.c, gen/conn_rate.c,
    gen/rate.c, gen/uri_fixed.c, gen/misc.c, the handlers of stat/basic.c and the end of
    [main], without SSL and sessions.  A function that raises an event takes
    [signal], the [event_signal] of its calls: the handlers call the core, which raises
    events again.  [event_signal] ties the knot; its fuel is the depth to which events
    may nest.

    The system calls are the operations of [system] over a world [W].  Timers are
    the map of the pending ones (TimerWheel shows that the wheel implements it);
    [expired] tells which of them a tick fires, in order.  The reply parser is the one
    of HttpReply, the tables are those of Ports and AddrTable. *)
From S2P Require Import Prelude Doubles HttpReply Ports AddrTable BasicStats HttperfState.

Module Httperf.
Import HttperfState.

(** The parameters of the command line. *)
Record Cmdline_Params := mkParam {
  http_version : Z;
  server : list Z;
  server_name : option (list Z);
  server_port : Z;
  uri : list Z;
  rate_param : Time;
  param_timeout : Time;
  think_timeout : Time;
  num_conns : Z;
  num_calls : Z;
  burst_length : Z;
  hog : bool;
  send_buffer_size : Z;
  recv_buffer_size : Z;
  close_with_reset : bool;
  no_host_hdr : bool;
  additional_header : option (list Z);
  method : option (list Z);
  client_id : Z;
  num_clients : Z
}.

(** The options of [setsockopt] that are set. *)
Inductive sockopt := SO_LINGER | TCP_NODELAY | SO_SNDBUF (n : Z) | SO_RCVBUF (n : Z).

(** The world.  A call that can fail answers [inr errno] (or [Some errno]); the retries
    after EINTR are part of a call. *)
Record system (W A : Type) := mkSystem {
  sys_clock : W -> Time * W;
  sys_expired : gmap Z (callback * Time) -> W -> list Z * W;
  sys_interarrival : W -> Time * W;
  sys_socket : W -> (Z + Z) * W;
  sys_fcntl : Z -> W -> option Z * W;
  sys_setsockopt : Z -> sockopt -> W -> option Z * W;
  sys_bind : Z -> Z -> W -> option Z * W;
  sys_connect : Z -> A -> W -> option Z * W;
  sys_so_error : Z -> W -> option Z * W;
  sys_writev : Z -> list Z -> W -> (Z + Z) * W;
  sys_read : Z -> Z -> W -> (list Z + Z) * W;
  sys_close : Z -> W -> W;
  sys_select : gset Z -> gset Z -> W -> option (gset Z * gset Z) * W
}.
Arguments sys_clock {W A}. Arguments sys_expired {W A}. Arguments sys_interarrival {W A}.
Arguments sys_socket {W A}. Arguments sys_fcntl {W A}. Arguments sys_setsockopt {W A}.
Arguments sys_bind {W A}. Arguments sys_connect {W A}. Arguments sys_so_error {W A}.
Arguments sys_writev {W A}. Arguments sys_read {W A}. Arguments sys_close {W A}.
Arguments sys_select {W A}.

Definition EAGAIN : Z := 11.
Definition EADDRINUSE : Z := 98.
Definition EADDRNOTAVAIL : Z := 99.
Definition EINPROGRESS : Z := 115.
Definition FD_SETSIZE : Z := 1024.
Definition NFDBITS : Z := 64.

Definition text (s : string) : list Z := bytes_of_string s.
Definition CRLF : list Z := [13; 10].
Definition VERSION : list Z := text "0.9.0".

Definition http10req : list Z :=
  text " HTTP/1.0" ++ CRLF ++ text "User-Agent: httperf/" ++ VERSION ++ CRLF ++
  text "Connection: keep-alive" ++ CRLF ++ text "Host: ".
Definition http11req : list Z :=
  text " HTTP/1.1" ++ CRLF ++ text "User-Agent: httperf/" ++ VERSION ++ CRLF ++ text "Host: ".
Definition http10req_nohost : list Z :=
  text " HTTP/1.0" ++ CRLF ++ text "User-Agent: httperf/" ++ VERSION ++ CRLF ++
  text "Connection: keep-alive" ++ CRLF.
Definition http11req_nohost : list Z :=
  text " HTTP/1.1" ++ CRLF ++ text "User-Agent: httperf/" ++ VERSION ++ CRLF.

Abbreviation assert_at := BasicStats.assert_at.

(** ** gen/misc.c: the escape sequences of --add-header *)

(** Octal digits, as [strtol (cp - 1, &cp, 8)] reads them. *)
Fixpoint octal (acc : Z) (l : list Z) : Z * list Z :=
  match l with
  | c :: t => if (48 <=? c) && (c <=? 55) then octal (Z.min (acc * 8 + (c - 48)) (2 ^ 63 - 1)) t else (acc, l)
  | [] => (acc, [])
  end.

(** A backslash at the end of the string: the loop goes on behind the NUL. *)
Fixpoint unescape_from (fuel : nat) (l : list Z) : cres (list Z) :=
  match fuel with
  | O => NoFuel
  | S fuel =>
      match l with
      | [] => Ret []
      | 92 :: [] => Undef
      | 92 :: ch :: t =>
          let '(out, rest) :=
            if ch =? 97 then ([10], t)
            else if ch =? 114 then ([13], t)
            else if ch =? 110 then ([13; 10], t)
            else if (48 <=? ch) && (ch <=? 57) then
              let '(v, rest) := octal 0 (ch :: t) in ([u8 (i32 v)], rest)
            else ([ch], t) in
          r ← unescape_from fuel rest; Ret (out ++ r)
      | ch :: t => r ← unescape_from fuel t; Ret (ch :: r)
      end
  end.
(** [\8] and [\9] consume the backslash only: two rounds for each of the bytes are enough. *)
Definition unescape (str : list Z) : cres (list Z) := unescape_from (S (2 * length str)) str.

(** ** The heaps *)
Section Code.
Context {W A : Type} (sys : system W A) (param : Cmdline_Params) (hash_table : AddrTable.table A).
(** [past_end]: what stands in memory behind the array of fragments of a call, when the compiled
    program reads it there; [None] for C itself, which gives that read no meaning. *)
Context (past_end : option iovec) (garbage before : Z).

Implicit Types s : st W.

Definition conn_at (a : Z) s : cres Conn := deref (conns s !! a).
Definition call_at (c : Z) s : cres Call := deref (calls s !! c).
(** The memory of a call.  Behind [call_dec_ref] it is on the free list of object.c, which never
    gives it back to [malloc], and whose link is in the first word of an object: the [conn] that
    core.c reads there is the one the call had. *)
Definition call_mem (c : Z) s : cres Call :=
  match calls s !! c with
  | Some x => Ret x
  | None => deref (list_find (fun p => p.1 = c) (free_calls s) ≫= fun '(_, p) => Some p.2)
  end.
Definition upd_conn (a : Z) (f : Conn -> Conn) s : cres (st W) :=
  x ← conn_at a s; Ret (set_conns (<[a := f x]> (conns s)) s).
Definition upd_call (c : Z) (f : Call -> Call) s : cres (st W) :=
  x ← call_at c s; Ret (set_calls (<[c := f x]> (calls s)) s).

Definition upd_basic (f : BasicStats.basic -> BasicStats.basic) s : st W := set_basic (f (basic s)) s.

(** A system call, and one that may fail and then sets [errno]. *)
Definition sys_fails (r : option Z * W) s : option Z * st W :=
  (r.1, match r.1 with Some e => set_errno e (set_world r.2 s) | None => set_world r.2 s end).
(** [SYSCALL]: [errno] is 0 unless the call fails. *)
Definition SYSCALL (r : option Z * W) s : option Z * st W := sys_fails r (set_errno 0 s).

Definition bump (x : Z) : cres Z := if x <? INT_MAX then Ret (x + 1) else Undef.

Section Signal.
Context (signal : Event_Type -> Z -> Any_Type -> st W -> cres (st W)).

(** ** object.c, call.c and conn.c *)
Definition call_init (id : Z) : Call :=
  let iov := <[IE_METHOD := iov_of (text "GET")]> (<[IE_BLANK := iov_of (text " ")]>
             (<[IE_NEWLINE1 := iov_of CRLF]> (<[IE_NEWLINE2 := iov_of CRLF]> (replicate IE_LEN null_iov)))) in
  mkCall 1 id 0 0 0 fzero fzero fzero (http_version param) 0 0 0 null_iov iov 0 0 0 0 0.

Definition conn_init : Conn :=
  mkConn 1 S_INITIAL 0 0 0 0 0 fzero 0 (server param) (default (server param) (server_name param))
    (server_port param) (-1) (-1) [] 0 false false 0 0 0.

Definition call_deinit (call : Call) : cres unit := Ret tt.

Definition conn_deinit (a : Z) s : cres (st W) :=
  c ← conn_at a s;
  _ ← assert_at 91 ((sd c <? 0) && negb (bool_decide (state c = S_FREE)));
  _ ← assert_at 92 (sendq c =? 0);
  _ ← assert_at 93 (recvq c =? 0);
  _ ← assert_at 94 (watchdog c =? 0);
  upd_conn a (set_state S_FREE) s.

(** [object_new]: the first free object, or a new one. *)
Definition call_new s : cres (Z * st W) :=
  let '(a, s) := match free_calls s with
                 | (el, _) :: next => (el, set_free_calls next s)
                 | [] => (brk s, set_brk (brk s + 1) s)
                 end in
  let s := set_next_id (u64 (next_id s + 1)) (set_calls (<[a := call_init (next_id s)]> (calls s)) s) in
  s ← signal EV_CALL_NEW a NoArg s; Ret (a, s).

Definition conn_new s : cres (Z * st W) :=
  let '(a, s) := match free_conns s with
                 | el :: next => (el, set_free_conns next s)
                 | [] => (brk s, set_brk (brk s + 1) s)
                 end in
  let s := set_conns (<[a := conn_init]> (conns s)) s in
  s ← signal EV_CONN_NEW a NoArg s; Ret (a, s).

(** [object_destroy] *)
Definition call_destroy (c : Z) s : cres (st W) :=
  x ← call_at c s;
  _ ← call_deinit x;
  s ← signal EV_CALL_DESTROYED c NoArg s;
  x ← call_at c s;
  Ret (set_free_calls ((c, x) :: free_calls s) (set_calls (delete c (calls s)) s)).

Definition conn_destroy (a : Z) s : cres (st W) :=
  s ← conn_deinit a s;
  s ← signal EV_CONN_DESTROYED a NoArg s;
  Ret (set_free_conns (a :: free_conns s) (set_conns (delete a (conns s)) s)).

(** [object_dec_ref] and [object_inc_ref]; the count is a [u_int]. *)
Definition call_dec_ref (c : Z) s : cres (st W) :=
  x ← call_at c s;
  _ ← assert_at 170 (0 <? c_ref x);
  s ← upd_call c (set_c_ref (c_ref x - 1)) s;
  if c_ref x - 1 =? 0 then call_destroy c s else Ret s.
Definition conn_dec_ref (a : Z) s : cres (st W) :=
  x ← conn_at a s;
  _ ← assert_at 170 (0 <? s_ref x);
  s ← upd_conn a (set_s_ref (s_ref x - 1)) s;
  if s_ref x - 1 =? 0 then conn_destroy a s else Ret s.
Definition call_inc_ref (c : Z) s : cres (st W) := upd_call c (fun x => set_c_ref (u32 (c_ref x + 1)) x) s.
Definition conn_inc_ref (a : Z) s : cres (st W) := upd_conn a (fun x => set_s_ref (u32 (s_ref x + 1)) x) s.

(** [call_append_request_header]: -1 when there are too many. *)
Definition call_append_request_header (c : Z) (hdr : list Z) s : cres (Z * st W) :=
  x ← call_at c s;
  let n := num_extra_hdrs x in
  if MAX_EXTRA_HEADERS <=? n then Ret (-1, s)
  else
    s ← upd_call c (fun x => set_num_extra_hdrs (n + 1)
          (set_iov (<[(IE_FIRST_HEADER + Z.to_nat n)%nat := iov_of hdr]> (iov x)) x)) s;
    Ret (0, s).

(** ** timer.c as a map of pending timers *)
Definition timer_schedule (cb : callback) (delay : Time) s : Z * st W :=
  (next_timer s, set_next_timer (next_timer s + 1) (set_timers (<[next_timer s := (cb, delay)]> (timers s)) s)).
Definition timer_cancel (t : Z) s : cres (st W) :=
  match timers s !! t with Some _ => Ret (set_timers (delete t (timers s)) s) | None => Undef end.

(** ** core.c *)
Definition FD_SET (sd : Z) (set : gset Z) : cres (gset Z) :=
  if (0 <=? sd) && (sd <? FD_SETSIZE) then Ret (set ∪ {[sd]}) else Undef.

Inductive fdset := Rd | Wr.
Definition get_fds (f : fdset) s : gset Z := match f with Rd => rdfds s | Wr => wrfds s end.
Definition put_fds (f : fdset) (x : gset Z) s : st W :=
  match f with Rd => set_rdfds x s | Wr => set_wrfds x s end.
Definition FD_CLR (f : fdset) (sd : Z) s : cres (st W) :=
  if (0 <=? sd) && (sd <? FD_SETSIZE) then Ret (put_fds f (get_fds f s ∖ {[sd]}) s) else Undef.

Definition feqb (x y : Time) : bool := SFeqb x y.

(** The earlier time out of the calls at the heads of the queues, 0.0 for none. *)
Definition first_timeout (x : Conn) s : cres Time :=
  t ← (if sendq x =? 0 then Ret fzero else c ← call_at (sendq x) s; Ret (timeout c));
  if recvq x =? 0 then Ret t
  else c ← call_at (recvq x) s;
       Ret (if feqb t fzero || fltb (timeout c) t then timeout c else t).

Definition set_active (a : Z) (f : fdset) s : cres (st W) :=
  x ← conn_at a s;
  fds ← FD_SET (sd x) (get_fds f s);
  let s := put_fds f fds s in
  let s := if sd x <? min_sd s then set_min_sd (sd x) s else s in
  let s := if max_sd s <=? sd x then set_max_sd (sd x) s else s in
  if negb (watchdog x =? 0) then Ret s
  else
    t ← first_timeout x s;
    if fltb fzero t then
      let '(w, s) := timer_schedule (conn_timeout_cb a) (fsub t (now s)) s in
      upd_conn a (set_watchdog w) s
    else Ret s.

(** [for (call = q; call; call = call_next) { call_next = ...; call_dec_ref (call); }] *)
Fixpoint drop_calls (fuel : nat) (next : Call -> Z) (p : Z) s : cres (st W) :=
  if p =? 0 then Ret s
  else match fuel with
       | O => NoFuel
       | S fuel =>
           c ← call_at p s;
           s ← call_dec_ref p s;
           drop_calls fuel next (next c) s
       end.

Definition cancel_watchdog (a : Z) s : cres (st W) :=
  x ← conn_at a s;
  if watchdog x =? 0 then Ret s
  else s ← timer_cancel (watchdog x) s; upd_conn a (set_watchdog 0) s.

Definition core_close (a : Z) s : cres (st W) :=
  x ← conn_at a s;
  if closing (state x) then Ret s
  else
    s ← upd_conn a (set_state S_CLOSING) s;
    s ← cancel_watchdog a s;
    x ← conn_at a s;
    s ← drop_calls (S (size (calls s))) sendq_next (sendq x) s;
    s ← upd_conn a (set_sendq 0) s;
    x ← conn_at a s;
    s ← drop_calls (S (size (calls s))) recvq_next (recvq x) s;
    s ← upd_conn a (set_recvq 0) s;
    x ← conn_at a s;
    let fd := sd x in
    s ← upd_conn a (set_sd (-1)) s;
    s ← signal EV_CONN_CLOSE a NoArg s;
    x ← conn_at a s;
    _ ← assert_at 1131 (bool_decide (state x = S_CLOSING));
    s ← (if 0 <=? fd then
           let s := set_world (sys_close sys fd (world s)) s in
           let s := set_sd_to_conn (<[fd := 0]> (sd_to_conn s)) s in
           s ← FD_CLR Wr fd s; FD_CLR Rd fd s
         else Ret s);
    s ← (if 0 <? myport x then p ← Ports.port_put (myport x) (ports s); Ret (set_ports p s) else Ret s);
    conn_dec_ref a s.

Definition conn_failure (a err : Z) s : cres (st W) :=
  s ← signal EV_CONN_FAILED a (IntArg err) s;
  core_close a s.

Definition conn_timeout (a : Z) s : cres (st W) :=
  s ← upd_conn a (set_watchdog 0) s;
  s ← signal EV_CONN_TIMEOUT a NoArg s;
  core_close a s.

(** [param.timeout ? timer_now () + param.timeout : 0.0] *)
Definition send_timeout s : Time :=
  if feqb (param_timeout param) fzero then fzero else fadd (now s) (param_timeout param).
(** [param.timeout + param.think_timeout], from now on when it is positive. *)
Definition recv_timeout s : Time :=
  let t := fadd (param_timeout param) (think_timeout param) in
  if fltb fzero t then fadd t (now s) else t.

(** *** core_send *)
Definition put_iov (i : nat) (v : iovec) (c : Call) : Call := set_iov (<[i := v]> (iov c)) c.

(** The [Host:] header and the protocol line. *)
Definition prepare_request (fqd : list Z) (c : Call) : cres Call :=
  host ← deref (iov c !! IE_HOST);
  let c := if no_host_hdr param then put_iov IE_HOST (iov_of []) c
           else match iov_base host with
                | None => put_iov IE_HOST (iov_of fqd) c
                | Some _ => c
                end in
  c ← (if req_version c =? 0x10000 then
         Ret (put_iov IE_PROTL (iov_of (if no_host_hdr param then http10req_nohost else http10req)) c)
       else if req_version c =? 0x10001 then
         Ret (put_iov IE_PROTL (iov_of (if no_host_hdr param then http11req_nohost else http11req)) c)
       else Exit 1);
  first ← deref (iov c !! 0%nat);
  Ret (set_iov_saved first (set_iov_index 0 c)).

Definition core_send (a c : Z) s : cres (Z * st W) :=
  s ← signal EV_CALL_ISSUE c NoArg s;
  s ← upd_call c (set_call_conn a) s;
  x ← conn_at a s;
  call ← call_at c s;
  call ← prepare_request (fqdname x) call;
  s ← upd_call c (fun _ => call) s;
  s ← call_inc_ref c s;
  s ← upd_call c (set_sendq_next 0) s;
  x ← conn_at a s;
  if sendq x =? 0 then
    s ← upd_conn a (fun x => set_sendq_tail c (set_sendq c x)) s;
    s ← signal EV_CALL_SEND_START c NoArg s;
    x ← conn_at a s;
    if closing (state x) then Ret (-1, s)
    else
      s ← upd_call c (set_timeout (send_timeout s)) s;
      s ← set_active a Wr s;
      Ret (0, s)
  else
    s ← upd_call (sendq_tail x) (set_sendq_next c) s;
    s ← upd_conn a (set_sendq_tail c) s;
    Ret (0, s).

(** *** do_send *)

(** The bytes that [writev] is given. *)
Definition iov_bytes (v : iovec) : cres (list Z) :=
  let b := default [] (iov_base v) in
  if iov_len v <=? Z.of_nat (length b) then Ret (take (Z.to_nat (iov_len v)) b) else Undef.
Fixpoint gather (vs : list iovec) : cres (list Z) :=
  match vs with
  | [] => Ret []
  | v :: vs => b ← iov_bytes v; r ← gather vs; Ret (b ++ r)
  end.

(** The loop over the fragments, from fragment [i] on: the index of the first one that has
    data left.  After the last fragment [*iovp] is read one element past the end of the array,
    for the sake of [iov_saved], which nothing reads then. *)
Fixpoint advance (fuel : nat) (i : nat) (nsent : Z) (saved : iovec) (vs : list iovec)
    : cres (nat * iovec * list iovec) :=
  if (IE_LEN <=? i)%nat then Ret (i, saved, vs)
  else match fuel with
       | O => NoFuel
       | S fuel =>
           v ← deref (vs !! i);
           if nsent <? iov_len v then
             let v := mkIov (drop (Z.to_nat nsent) <$> iov_base v) (iov_len v - nsent) in
             Ret (i, saved, <[i := v]> vs)
           else
             let vs := <[i := saved]> vs in
             next ← (match vs !! S i with Some v => Ret v | None => deref past_end end);
             advance fuel (S i) (nsent - iov_len v) next vs
       end.

(** The call at the head of the send queue goes to the end of the receive queue. *)
Definition append_recvq (a c : Z) s : cres (st W) :=
  s ← upd_call c (set_recvq_next 0) s;
  x ← conn_at a s;
  if recvq x =? 0 then upd_conn a (fun x => set_recvq_tail c (set_recvq c x)) s
  else
    s ← upd_call (recvq_tail x) (set_recvq_next c) s;
    upd_conn a (set_recvq_tail c) s.

(** [conn->state < S_REPLY_STATUS] *)
Definition before_reply (x : Conn_State) : bool :=
  match x with HttpReply.S_INITIAL | HttpReply.S_CONNECTING | HttpReply.S_CONNECTED => true | _ => false end.

(** One round of the loop; [true] when it goes on. *)
Definition send_round (fd a : Z) s : cres (bool * st W) :=
  x ← conn_at a s;
  let c := sendq x in
  _ ← assert_at 404 (negb (c =? 0));
  s ← signal EV_CALL_SEND_RAW_DATA c NoArg s;
  call ← call_at c s;
  bytes ← gather (drop (Z.to_nat (iov_index call)) (iov call));
  let '(r, w) := sys_writev sys fd bytes (world s) in
  let s := set_world w (set_errno 0 s) in
  match r with
  | inr e =>
      let s := set_errno e s in
      if e =? EAGAIN then Ret (false, s)
      else
        let '(r, w) := sys_so_error sys fd (world s) in
        let s := set_world w s in
        let s := match r with Some e => if e =? 0 then s else set_errno e s | None => s end in
        s ← conn_failure a (errno s) s; Ret (false, s)
  | inl nsent =>
      '(i, saved, vs) ← advance (S IE_LEN) (Z.to_nat (iov_index call)) nsent (iov_saved call) (iov call);
      s ← upd_call c (fun call => set_req_size (u64 (req_size call + nsent)) (set_iov_index (Z.of_nat i)
            (set_iov_saved saved (set_iov vs call)))) s;
      if (i <? IE_LEN)%nat then
        s ← upd_call c (set_timeout (send_timeout s)) s;
        s ← set_active a Wr s; Ret (false, s)
      else
        call ← call_at c s;
        s ← upd_conn a (set_sendq (sendq_next call)) s;
        s ← (if sendq_next call =? 0 then
               s ← upd_conn a (set_sendq_tail 0) s; FD_CLR Wr fd s
             else Ret s);
        s ← signal EV_CALL_SEND_STOP c NoArg s;
        x ← conn_at a s;
        if closing (state x) then s ← call_dec_ref c s; Ret (false, s)
        else
          s ← append_recvq a c s;
          s ← upd_call c (set_timeout (recv_timeout s)) s;
          s ← set_active a Rd s;
          x ← conn_at a s;
          s ← (if before_reply (state x) then upd_conn a (set_state S_REPLY_STATUS) s else Ret s);
          x ← conn_at a s;
          if sendq x =? 0 then Ret (false, s)
          else
            s ← signal EV_CALL_SEND_START (sendq x) NoArg s;
            x ← conn_at a s;
            Ret (negb (closing (state x)), s)
  end.

Fixpoint send_loop (fuel : nat) (fd a : Z) s : cres (st W) :=
  match fuel with
  | O => NoFuel
  | S fuel =>
      '(again, s) ← send_round fd a s;
      if (again : bool) then send_loop fuel fd a s else Ret s
  end.
(** The loop sends one queued call in a round. *)
Definition do_send (a : Z) s : cres (st W) :=
  x ← conn_at a s; send_loop (S (size (calls s))) (sd x) a s.

(** *** do_recv *)
Definition recv_done (c : Z) s : cres (st W) :=
  call ← call_at c s;
  let a := call_conn call in
  s ← upd_conn a (set_recvq (recvq_next call)) s;
  s ← (if recvq_next call =? 0 then
         x ← conn_at a s;
         s ← FD_CLR Rd (sd x) s; upd_conn a (set_recvq_tail 0) s
       else Ret s);
  s ← signal EV_CALL_RECV_STOP c NoArg s;
  call_dec_ref c s.

(** The part of the connection and the call that the parser changes. *)
Definition reply_of (x : Conn) (call : Call) : HttpReply.rs :=
  HttpReply.mkRs (state x) (line x) (content_length x) (has_body x) (is_chunked x) (reply_status call)
    (reply_version call) (reply_header_bytes call) (reply_content_bytes call) (reply_footer_bytes call) [] [].
Definition conn_of (r : HttpReply.rs) (x : Conn) : Conn :=
  set_state (HttpReply.state r) (set_line (HttpReply.line r) (set_content_length (HttpReply.content_length r)
    (set_has_body (HttpReply.has_body r) (set_is_chunked (HttpReply.is_chunked r) x)))).
Definition call_of (r : HttpReply.rs) (x : Call) : Call :=
  set_reply_status (HttpReply.status r) (set_reply_version (HttpReply.version r)
    (set_reply_header_bytes (HttpReply.header_bytes r) (set_reply_content_bytes (HttpReply.content_bytes r)
    (set_reply_footer_bytes (HttpReply.footer_bytes r) x)))).

Definition event_of (e : HttpReply.ev) : Event_Type :=
  match e with
  | HttpReply.RecvStart _ => EV_CALL_RECV_START
  | HttpReply.RecvHdr _ => EV_CALL_RECV_HDR
  | HttpReply.RecvFooter _ => EV_CALL_RECV_FOOTER
  end.
Fixpoint signal_all (es : list HttpReply.ev) (c : Z) s : cres (st W) :=
  match es with
  | [] => Ret s
  | e :: es => s ← signal (event_of e) c NoArg s; signal_all es c s
  end.

(** [http_process_reply_bytes]: the events are raised behind the parser, whose state the
    handlers of the default configuration do not touch. *)
Definition process_reply_bytes (c : Z) (buf : list Z) s : cres (list Z * st W) :=
  call ← call_at c s;
  let a := call_conn call in
  s ← signal EV_CALL_RECV_RAW_DATA c NoArg s;
  x ← conn_at a s;
  call ← call_at c s;
  m ← deref (iov call !! IE_METHOD);
  let is_head := bool_decide (iov_base m = Some (text "HEAD")) in
  '(r, rest) ← HttpReply.http_process_reply_bytes (fun _ => false) is_head garbage before (reply_of x call) buf;
  s ← upd_conn a (conn_of r) s;
  s ← upd_call c (call_of r) s;
  s ← signal_all (HttpReply.log r) c s;
  Ret (rest, s).

(** One round of the loop over the replies in the buffer: the call and the bytes that are
    left, [None] when the function returns. *)
Definition reply_round (a : Z) (buf : list Z) s : cres (option (Z * list Z) * st W) :=
  x ← conn_at a s;
  let c := recvq x in
  _ ← assert_at 622 (negb (c =? 0));
  s ← (if bool_decide (state x = S_REPLY_STATUS) then upd_call c (set_timeout (recv_timeout s)) s else Ret s);
  '(rest, s) ← process_reply_bytes c buf s;
  x ← conn_at a s;
  if bool_decide (state x = S_REPLY_DONE) then
    s ← recv_done c s;
    x ← conn_at a s;
    if closing (state x) then Ret (None, s)
    else s ← upd_conn a (set_state S_REPLY_STATUS) s; Ret (Some (c, rest), s)
  else Ret (Some (c, rest), s).

(** The loop; the result is the last call that was looked at. *)
Fixpoint reply_loop (fuel : nat) (a : Z) (buf : list Z) s : cres (option Z * st W) :=
  match fuel with
  | O => NoFuel
  | S fuel =>
      '(r, s) ← reply_round a buf s;
      match r with
      | None => Ret (None, s)
      | Some (c, []) => Ret (Some c, s)
      | Some (_, rest) => reply_loop fuel a rest s
      end
  end.

(** The last call may be on the free list when its connection is read from it. *)
Definition do_recv (a : Z) s : cres (st W) :=
  x ← conn_at a s;
  let c := recvq x in
  _ ← assert_at 550 (negb (c =? 0));
  let '(r, w) := sys_read sys (sd x) 8192 (world s) in
  let s := set_world w (set_errno 0 s) in
  match r with
  | inr e =>
      let s := set_errno e s in
      if e =? EAGAIN then Ret s else conn_failure a e s
  | inl [] =>
      if bool_decide (state x = S_REPLY_DATA) then
        s ← (if closing (state x) then Ret s else upd_conn a (set_state S_REPLY_DONE) s);
        recv_done c s
      else conn_failure a BasicStats.ECONNRESET s
  | inl buf =>
      '(last, s) ← reply_loop (S (length buf)) a buf s;
      match last with
      | Some c =>
          x ← conn_at a s;
          if recvq x =? 0 then Ret s
          else call ← call_mem c s; set_active (call_conn call) Rd s
      | None => Ret s
      end
  end.

(** *** core_connect *)

(** The lengths of the bursts of connections. *)
Definition count_burst s : st W :=
  if iteration s =? prev_iteration s then set_burst_len (u64 (burst_len s + 1)) s
  else
    let s := if max_burst_len s <? burst_len s then set_max_burst_len (burst_len s) s else s in
    set_prev_iteration (iteration s) (set_burst_len 1 s).

(** [fcntl] and the calls of [setsockopt], up to the first that fails. *)
Definition socket_options : list sockopt :=
  (if close_with_reset param then [SO_LINGER] else []) ++
  [TCP_NODELAY; SO_SNDBUF (send_buffer_size param); SO_RCVBUF (recv_buffer_size param)].
Fixpoint set_options (fd : Z) (os : list sockopt) s : bool * st W :=
  match os with
  | [] => (true, s)
  | o :: os =>
      let '(e, s) := sys_fails (sys_setsockopt sys fd o (world s)) s in
      match e with Some _ => (false, s) | None => set_options fd os s end
  end.
Definition prepare_socket (fd : Z) s : bool * st W :=
  let '(e, s) := sys_fails (sys_fcntl sys fd (world s)) s in
  match e with Some _ => (false, s) | None => set_options fd socket_options s end.

(** [sd_to_conn] grows by 2048 entries, which are cleared. *)
Definition grow_sd_to_conn (fd : Z) s : st W :=
  if alloced_sd_to_conn s <=? fd then set_alloced_sd_to_conn (alloced_sd_to_conn s + 2048) s else s.
Definition get_sd_to_conn (fd : Z) s : cres Z :=
  if (0 <=? fd) && (fd <? alloced_sd_to_conn s) then Ret (default 0 (sd_to_conn s !! fd)) else Undef.
Definition put_sd_to_conn (fd a : Z) s : cres (st W) :=
  if (0 <=? fd) && (fd <? alloced_sd_to_conn s) then Ret (set_sd_to_conn (<[fd := a]> (sd_to_conn s)) s) else Undef.

(** The loop that binds the socket to a local port; [None] when it fails. *)
Fixpoint bind_loop (fuel : nat) (fd : Z) s : cres (option Z * st W) :=
  match fuel with
  | O => NoFuel
  | S fuel =>
      '(p, ps) ← Ports.port_get 0 (ports s);
      let s := set_ports ps s in
      if p <? 0 then Ret (None, s)
      else
        let '(e, s) := SYSCALL (sys_bind sys fd p (world s)) s in
        match e with
        | None => Ret (Some p, s)
        | Some e =>
            if negb (e =? EADDRINUSE) && (e =? EADDRNOTAVAIL) then Ret (None, s)
            else bind_loop fuel fd s
        end
  end.
Definition bind_port (a fd : Z) s : cres (bool * st W) :=
  if hog param then
    '(p, s) ← bind_loop (S (Z.to_nat 64512)) fd s;
    match p with
    | Some p => s ← upd_conn a (set_myport p) s; Ret (true, s)
    | None => Ret (false, s)
    end
  else Ret (true, s).

(** [connect] and what becomes of it; [false] for [goto failure]. *)
Definition start_connect (a fd : Z) (sin : A) s : cres (bool * st W) :=
  let '(e, s) := SYSCALL (sys_connect sys fd sin (world s)) s in
  match e with
  | None =>
      s ← upd_conn a (set_state S_CONNECTED) s;
      s ← signal EV_CONN_CONNECTED a NoArg s; Ret (true, s)
  | Some e =>
      if e =? EINPROGRESS then
        s ← upd_conn a (set_state S_CONNECTING) s;
        s ← set_active a Wr s;
        if fltb fzero (param_timeout param) then
          x ← conn_at a s;
          _ ← assert_at 984 (watchdog x =? 0);
          let '(w, s) := timer_schedule (conn_timeout_cb a) (param_timeout param) s in
          s ← upd_conn a (set_watchdog w) s; Ret (true, s)
        else Ret (true, s)
      else
        let '(r, w) := sys_so_error sys fd (world s) in
        let s := set_world w s in
        let s := match r with Some e => if e =? 0 then s else set_errno e s | None => s end in
        Ret (false, s)
  end.

(** Everything up to the label [failure]. *)
Definition try_connect (a : Z) s : cres (bool * st W) :=
  let s := count_burst s in
  let '(r, w) := sys_socket sys (world s) in
  let s := set_world w (set_errno 0 s) in
  match r with
  | inr e => Ret (false, set_errno e s)
  | inl fd =>
      let '(ok, s) := prepare_socket fd s in
      if negb ok then Ret (false, s)
      else
        s ← upd_conn a (set_sd fd) s;
        let s := grow_sd_to_conn fd s in
        old ← get_sd_to_conn fd s;
        _ ← assert_at 916 (old =? 0);
        s ← put_sd_to_conn fd a s;
        x ← conn_at a s;
        sin ← AddrTable.hash_lookup 1024 hash_table (hostname x) (port x);
        match sin with
        | None => Ret (false, s)
        | Some sin =>
            s ← signal EV_CONN_CONNECTING a NoArg s;
            x ← conn_at a s;
            if closing (state x) then Ret (false, s)
            else
              '(ok, s) ← bind_port a fd s;
              if negb ok then Ret (false, s) else start_connect a fd sin s
        end
  end.

Definition core_connect (a : Z) s : cres (Z * st W) :=
  '(ok, s) ← try_connect a s;
  if (ok : bool) then Ret (0, s)
  else s ← conn_failure a (errno s) s; Ret (-1, s).

Definition core_exit s : st W := set_running false s.

(** ** gen/call_seq.c *)
Definition issue_one (a : Z) s : cres (st W) :=
  x ← conn_at a s;
  n ← bump (seq_calls x);
  s ← upd_conn a (set_seq_calls n) s;
  if seq_calls x <? num_calls param then
    '(c, s) ← call_new s;
    '(_, s) ← core_send a c s;
    call_dec_ref c s
  else Ret s.
Definition issue_calls (a : Z) s : cres (st W) :=
  s ← upd_conn a (fun x => set_seq_destroyed 0 (set_seq_completed 0 x)) s;
  for_c 0 (burst_length param) (fun _ => issue_one a) s.

Definition call_done (c : Z) s : cres (st W) :=
  call ← call_at c s;
  x ← conn_at (call_conn call) s;
  n ← bump (seq_completed x);
  upd_conn (call_conn call) (set_seq_completed n) s.

Definition call_destroyed (c : Z) s : cres (st W) :=
  call ← call_at c s;
  let a := call_conn call in
  x ← conn_at a s;
  n ← bump (seq_destroyed x);
  s ← upd_conn a (set_seq_destroyed n) s;
  if Z.min (burst_length param) (num_calls param) <=? n then
    if (seq_completed x =? n) && (seq_calls x <? num_calls param) then issue_calls a s
    else core_close a s
  else Ret s.

(** ** gen/conn_rate.c and gen/rate.c *)
Definition make_conn s : cres (bool * st W) :=
  n ← bump (num_conns_generated s);
  let old := num_conns_generated s in
  let s := set_num_conns_generated n s in
  if num_conns param <=? old then Ret (false, s)
  else
    '(a, s) ← conn_new s;
    '(_, s) ← core_connect a s;
    Ret (true, s).

Definition destroyed s : cres (st W) :=
  n ← bump (num_conns_destroyed s);
  let s := set_num_conns_destroyed n s in
  Ret (if num_conns param <=? n then core_exit s else s).

(** The generator is done when its tick function answers a negative number. *)
Definition run_tick s : cres (st W) :=
  '(ok, s) ← make_conn s; Ret (set_rg_done (negb ok) s).
Definition done s : cres (st W) := if rg_done s then Ret s else run_tick s.

(** The loop of [tick] over the arrivals up to the clock. *)
Fixpoint arrivals (fuel : nat) (clock : Time) s : cres (st W) :=
  if fltb (next_time s) clock then
    match fuel with
    | O => NoFuel
    | S fuel =>
        let '(delay, w) := sys_interarrival sys (world s) in
        let s := set_next_time (fadd (next_time s) delay) (set_world w s) in
        s ← run_tick s;
        if rg_done s then Ret s else arrivals fuel clock s
    end
  else
    let '(t, s) := timer_schedule rate_tick_cb (fsub (next_time s) clock) s in
    Ret (set_rg_timer t s).
Definition rate_tick s : cres (st W) :=
  let clock := now s in
  let s := set_rg_timer 0 s in
  if rg_done s then Ret s else arrivals (S (Z.to_nat (num_conns param))) clock s.

(** ** The handlers *)
Definition with_call (c : Z) (f : Call -> BasicStats.basic -> BasicStats.basic) s : cres (st W) :=
  x ← call_at c s; Ret (upd_basic (f x) s).

(** stat/basic.c: what the handlers do to the connection or the call of the event. *)
Definition basic_handler (h : Event_Handler) (o : Z) (arg : Any_Type) s : cres (st W) :=
  match h with
  | basic_perf_sample =>
      Ret (upd_basic (BasicStats.perf_sample (match arg with TimeArg w => w | _ => fzero end)) s)
  | basic_conn_fail => Ret (upd_basic (BasicStats.conn_fail (match arg with IntArg i => i | _ => 0 end)) s)
  | basic_conn_timeout => Ret (upd_basic BasicStats.conn_timeout s)
  | basic_conn_created => Ret (upd_basic BasicStats.conn_created s)
  | basic_conn_connecting =>
      s ← upd_conn o (set_time_connect_start (now s)) s; Ret (upd_basic BasicStats.conn_connecting s)
  | basic_conn_connected =>
      x ← conn_at o s; Ret (upd_basic (BasicStats.conn_connected (now s) (time_connect_start x)) s)
  | basic_conn_destroyed =>
      x ← conn_at o s;
      b ← BasicStats.conn_destroyed (now s) (time_connect_start x) (num_calls_completed x) (basic s);
      Ret (set_basic b s)
  | basic_send_start => upd_call o (set_time_send_start (now s)) s
  | basic_send_stop => x ← call_at o s; Ret (upd_basic (BasicStats.send_stop (req_size x)) s)
  | basic_recv_start =>
      x ← call_at o s;
      let s := upd_basic (BasicStats.recv_start (now s) (time_send_start x)) s in
      upd_call o (set_time_recv_start (now s)) s
  | basic_recv_stop =>
      x ← call_at o s;
      b ← BasicStats.recv_stop (now s) (time_recv_start x) (reply_header_bytes x) (reply_content_bytes x)
            (reply_footer_bytes x) (reply_status x) (basic s);
      upd_conn (call_conn x) (fun y => set_num_calls_completed (u32 (num_calls_completed y + 1)) y) (set_basic b s)
  | _ => Ret s
  end.

(** [call_set_method] and [call_set_uri] *)
Definition call_set_method (c : Z) (m : list Z) s : cres (st W) := upd_call c (put_iov IE_METHOD (iov_of m)) s.
Definition call_set_uri (c : Z) (u : list Z) s : cres (st W) := upd_call c (put_iov IE_URI (iov_of u)) s.

(** gen/misc.c: [call_created], for the options that are set and not empty. *)
Definition call_created (c : Z) s : cres (st W) :=
  s ← (match method param with
       | Some ((_ :: _) as m) => call_set_method c m s
       | _ => Ret s
       end);
  match additional_header param with
  | Some h =>
      extra ← unescape h;
      match extra with
      | [] => Ret s
      | _ => '(_, s) ← call_append_request_header c extra s; Ret s
      end
  | None => Ret s
  end.

Definition run_handler (h : Event_Handler) (o : Z) (arg : Any_Type) s : cres (st W) :=
  match h with
  | call_seq_conn_connected => issue_calls o s
  | call_seq_call_done => call_done o s
  | call_seq_call_destroyed => call_destroyed o s
  | uri_fixed_set_uri => call_set_uri o (uri param) s
  | conn_rate_destroyed => destroyed s
  | misc_call_created => call_created o s
  | rate_done => done s
  | _ => basic_handler h o arg s
  end.

(** The loop of [core_loop] over a socket [fd] that select reported; [n] is what is left to
    do behind it. *)
Definition handle_ready (timer_tick : st W -> cres (st W)) (readable writable : gset Z) (n fd : Z) s
    : cres (st W) :=
  let is_readable := bool_decide (fd ∈ readable) && bool_decide (fd ∈ rdfds s) in
  let is_writable := bool_decide (fd ∈ writable) && bool_decide (fd ∈ wrfds s) in
  if is_readable || is_writable then
    a ← get_sd_to_conn fd s;
    s ← conn_inc_ref a s;
    s ← cancel_watchdog a s;
    x ← conn_at a s;
    s ← (if bool_decide (state x = S_CONNECTING) then
           if is_writable then
             s ← FD_CLR Wr fd s;
             s ← upd_conn a (set_state S_CONNECTED) s;
             signal EV_CONN_CONNECTED a NoArg s
           else Ret s
         else
           s ← (if is_writable && negb (sendq x =? 0) then do_send a s else Ret s);
           x ← conn_at a s;
           if is_readable && negb (recvq x =? 0) then do_recv a s else Ret s);
    s ← conn_dec_ref a s;
    if 0 <? n then timer_tick s else Ret s
  else Ret s.
End Signal.

(** ** event_signal *)
Section Events.
Context (act : action).

Fixpoint run_handlers (signal : Event_Type -> Z -> Any_Type -> st W -> cres (st W))
    (hs : list Event_Handler) (o : Z) (arg : Any_Type) s : cres (st W) :=
  match hs with
  | [] => Ret s
  | h :: hs => s ← run_handler signal h o arg s; run_handlers signal hs o arg s
  end.

Fixpoint event_signal (fuel : nat) (e : Event_Type) (o : Z) (arg : Any_Type) s : cres (st W) :=
  match fuel with
  | O => NoFuel
  | S fuel => run_handlers (event_signal fuel) (act e) o arg s
  end.

(** ** httperf.c, timer.c and the loop of core.c *)
Section Run.
Context (depth : nat).
Abbreviation signal := (event_signal depth).

Definition RATE_INTERVAL : Time := double 5.
Definition perf_sample s : cres (st W) :=
  s ← signal EV_PERF_SAMPLE 0 (TimeArg (fdiv (double 1) (fsub (now s) (perf_sample_start s)))) s;
  Ret (timer_schedule perf_sample_cb RATE_INTERVAL (set_perf_sample_start (now s) s)).2.

Definition run_callback (cb : callback) s : cres (st W) :=
  match cb with
  | conn_timeout_cb a => conn_timeout signal a s
  | rate_tick_cb => rate_tick signal s
  | perf_sample_cb => perf_sample s
  end.

(** The timers of a tick, in order; one that was cancelled meanwhile does not fire. *)
Fixpoint fire (ts : list Z) s : cres (st W) :=
  match ts with
  | [] => Ret s
  | t :: ts =>
      match timers s !! t with
      | Some (cb, _) => s ← run_callback cb (set_timers (delete t (timers s)) s); fire ts s
      | None => fire ts s
      end
  end.
Definition timer_tick s : cres (st W) :=
  let '(t, w) := sys_clock sys (world s) in
  let '(ts, w) := sys_expired sys (timers s) w in
  fire ts (set_now t (set_world w s)).

(** The sockets of word [i] of the masks, in the order of the loop over the bits. *)
Definition mask_of (i : Z) (readable writable : gset Z) : list Z :=
  filter (fun fd => fd ∈ readable ∪ writable) (seqZ (i * NFDBITS) NFDBITS).

(** The next word that has something going on. *)
Fixpoint next_word (fuel : nat) (min_i max_i i : Z) (readable writable : gset Z) : cres Z :=
  match fuel with
  | O => NoFuel
  | S fuel =>
      let i := if max_i <? i + 1 then min_i else i + 1 in
      _ ← assert_at 1199 (i <=? max_i);
      match mask_of i readable writable with
      | [] => next_word fuel min_i max_i i readable writable
      | _ => Ret i
      end
  end.

Fixpoint handle_word (fds : list Z) (readable writable : gset Z) (n : Z) s : cres (Z * st W) :=
  match fds with
  | [] => Ret (n, s)
  | fd :: fds =>
      s ← handle_ready signal timer_tick readable writable (n - 1) fd s;
      handle_word fds readable writable (n - 1) s
  end.

(** [while (n > 0)]: a round handles at least one socket. *)
Fixpoint handle_words (fuel : nat) (min_i max_i : Z) (readable writable : gset Z) (n : Z) s : cres (st W) :=
  if n <=? 0 then Ret s
  else match fuel with
       | O => NoFuel
       | S fuel =>
           i ← next_word (Z.to_nat (2 * max_i + 3)) min_i max_i (loop_i s) readable writable;
           '(n, s) ← handle_word (mask_of i readable writable) readable writable n (set_loop_i i s);
           handle_words fuel min_i max_i readable writable n s
       end.

(** One round of [while (running)]. *)
Definition core_round s : cres (st W) :=
  s ← timer_tick s;
  let min_i := min_sd s / NFDBITS in
  let max_i := max_sd s / NFDBITS in
  let '(r, w) := sys_select sys (rdfds s) (wrfds s) (world s) in
  k ← bump (iteration s);
  let s := set_iteration k (set_world w s) in
  match r with
  | None => Exit 1
  | Some (readable, writable) =>
      let n := Z.of_nat (size readable) + Z.of_nat (size writable) in
      handle_words (Z.to_nat n) min_i max_i readable writable n s
  end.

Fixpoint core_loop (rounds : nat) s : cres (st W) :=
  if running s then
    match rounds with
    | O => NoFuel
    | S rounds => s ← core_round s; core_loop rounds s
    end
  else Ret s.

(** [start] of conn_rate, with [rate_generator_start]. *)
Definition rate_start s : cres (st W) :=
  s ← (if fltb fzero (rate_param param) then
         let '(delay, w) := sys_interarrival sys (world s) in
         let s := set_next_time (fadd (now s) delay) (set_world w s) in
         let '(t, s) := timer_schedule rate_tick_cb delay s in
         Ret (set_rg_timer t s)
       else Ret s);
  run_tick signal s.

(** [main] behind the initialisation: the clock, the first sample, the generators, the loop. *)
Definition main_start s : cres (st W) :=
  s ← timer_tick s;
  let t := fdiv (fmul (fadd (double (client_id param)) (double 1)) RATE_INTERVAL) (double (num_clients param)) in
  let '(_, s) := timer_schedule perf_sample_cb t s in
  rate_start (set_perf_sample_start (now s) s).
Definition main_run (rounds : nat) s : cres (st W) :=
  s ← main_start s; core_loop rounds s.
End Run.
End Events.

(** ** The initialisation *)

(** The statics after [timer_init] and [core_init]. *)
Definition statics (w : W) : st W :=
  let '(t, w) := sys_clock sys w in
  mkSt ∅ ∅ [] [] 1 0 ∅ ∅ (2 ^ 31 - 1) 0 0 ∅ true 0 (-1) 0 0 0 0 Ports.core_init ∅ 1 t fzero
    (BasicStats.init BasicStats.statics) fzero 0 false 0 0 w.

Fixpoint register_all (hs : list (Event_Type * Event_Handler)) (act : action) : cres action :=
  match hs with
  | [] => Ret act
  | (e, h) :: hs => act ← event_register_handler e h act; register_all hs act
  end.

(** The [init] functions of the statistics and of the generators, in the order of [main],
    and [rate_generator_start] for sequential tests. *)
Definition stats_init : list (Event_Type * Event_Handler) :=
  [(EV_PERF_SAMPLE, basic_perf_sample); (EV_CONN_FAILED, basic_conn_fail); (EV_CONN_TIMEOUT, basic_conn_timeout);
   (EV_CONN_NEW, basic_conn_created); (EV_CONN_CONNECTING, basic_conn_connecting);
   (EV_CONN_CONNECTED, basic_conn_connected); (EV_CONN_DESTROYED, basic_conn_destroyed);
   (EV_CALL_SEND_START, basic_send_start); (EV_CALL_SEND_STOP, basic_send_stop);
   (EV_CALL_RECV_START, basic_recv_start); (EV_CALL_RECV_STOP, basic_recv_stop)].
Definition call_seq_init : list (Event_Type * Event_Handler) :=
  [(EV_CONN_CONNECTED, call_seq_conn_connected); (EV_CALL_RECV_STOP, call_seq_call_done);
   (EV_CALL_DESTROYED, call_seq_call_destroyed)].
Definition uri_fixed_init : list (Event_Type * Event_Handler) := [(EV_CALL_NEW, uri_fixed_set_uri)].
Definition conn_rate_init : list (Event_Type * Event_Handler) := [(EV_CONN_DESTROYED, conn_rate_destroyed)].
Definition misc_init : list (Event_Type * Event_Handler) :=
  match additional_header param, method param with
  | None, None => []
  | _, _ => [(EV_CALL_NEW, misc_call_created)]
  end.
Definition rate_init : list (Event_Type * Event_Handler) :=
  if fltb fzero (rate_param param) then [] else [(EV_CONN_DESTROYED, rate_done)].
Definition registrations : cres action :=
  register_all (stats_init ++ call_seq_init ++ uri_fixed_init ++ conn_rate_init ++ misc_init ++ rate_init)
    (fun _ => []).

Definition main (depth rounds : nat) (w : W) : cres (st W) :=
  act ← registrations; main_run act depth rounds (statics w).
End Code.
End Httperf.
