(* ===== verification/HttperfRequest.v ===== *)
(** * httperf/src/core.c and gen/misc.c: the text of a request

    A request is sent from the fragments of an [iovec] array that the code edits in
    place.  However the socket takes it, piece by piece, the pieces are the request, and
    the fragments are what they were when it is sent.  The reply parser returns on
    every buffer, so that [do_recv] can rely on it. *)
From S2P Require Import Prelude Doubles HttpReply HttperfState Httperf.

Module HttperfRequest.
Import HttperfState Httperf.

Definition iov_ok (v : iovec) : Prop :=
  0 <= iov_len v <= Z.of_nat (length (default [] (iov_base v))).
Definition frag (v : iovec) : list Z := take (Z.to_nat (iov_len v)) (default [] (iov_base v)).
Definition request_text (vs : list iovec) : list Z := concat (map frag vs).

Lemma gather_ok vs : Forall iov_ok vs -> gather vs = Ret (request_text vs).
Proof.
  induction 1 as [| v vs Hv _ IH]; [done |]. cbn [gather]. unfold iov_bytes.
  destruct Hv as [H1 H2]. destruct (Z.leb_spec (iov_len v) (Z.of_nat (length (default [] (iov_base v))))); [| lia].
  by rewrite bind_Ret, IH.
Qed.

Lemma length_frag v : iov_ok v -> Z.of_nat (length (frag v)) = iov_len v.
Proof. intros [H1 H2]. unfold frag. rewrite length_take. lia. Qed.

Section Advance.
Context (past_end : iovec).

(** The fragments with the one that is being sent restored. *)
Definition restored (i : nat) (saved : iovec) (vs : list iovec) : list iovec :=
  if (i <? IE_LEN)%nat then <[i := saved]> vs else vs.

Definition frags_ok (i : nat) (saved : iovec) (vs : list iovec) : Prop :=
  length vs = IE_LEN /\ (i <= IE_LEN)%nat /\ Forall iov_ok vs /\ iov_ok saved.

Lemma drop_frag i vs v : vs !! i = Some v -> request_text (drop i vs) = frag v ++ request_text (drop (S i) vs).
Proof. intros H. by rewrite (drop_S _ _ _ H). Qed.

Lemma drop_insert_le (i j : nat) v (vs : list iovec) : (i < j)%nat -> drop j (<[i := v]> vs) = drop j vs.
Proof. intros. by apply drop_insert_lt. Qed.

(** What [writev] took is what is gone from the rest of the request. *)
Lemma advance_ok fuel i nsent saved vs :
  (IE_LEN - i < fuel)%nat -> frags_ok i saved vs -> 0 <= nsent <= Z.of_nat (length (request_text (drop i vs))) ->
  (i < IE_LEN)%nat ->
  exists i' saved' vs', advance (Some past_end) fuel i nsent saved vs = Ret (i', saved', vs') /\
    (i <= i' <= IE_LEN)%nat /\ length vs' = IE_LEN /\ Forall iov_ok vs' /\ (i' < IE_LEN -> iov_ok saved')%nat /\
    request_text (drop i' vs') = drop (Z.to_nat nsent) (request_text (drop i vs)) /\
    restored i' saved' vs' = restored i saved vs.
Proof.
  revert i nsent saved vs. induction fuel as [| fuel IH]; intros i nsent saved vs Hf (Hl & Hi & Hok & Hs) Hn Hlt; [lia |].
  cbn [advance]. destruct (Nat.leb_spec IE_LEN i); [lia |].
  destruct (lookup_lt_is_Some_2 vs i ltac:(lia)) as [v Hv]. rewrite Hv. cbn [deref]. rewrite bind_Ret.
  pose proof (Forall_lookup_1 _ _ _ _ Hok Hv) as Hvok. pose proof (length_frag v Hvok) as Lf.
  rewrite (drop_frag i vs v Hv) in *. rewrite length_app in Hn.
  destruct (Z.ltb_spec nsent (iov_len v)) as [L | L].
  - set (v' := mkIov (drop (Z.to_nat nsent) <$> iov_base v) (iov_len v - nsent)).
    assert (Hv' : default [] (iov_base v') = drop (Z.to_nat nsent) (default [] (iov_base v))).
    { unfold v'. cbn. destruct (iov_base v); cbn; [done | by rewrite drop_nil]. }
    assert (Hfr : frag v' = drop (Z.to_nat nsent) (frag v)).
    { unfold frag. rewrite Hv'. cbn [iov_len v']. rewrite skipn_firstn_comm. f_equal. lia. }
    exists i, saved, (<[i := v']> vs). split_and!; try done; try lia.
    + by rewrite length_insert.
    + apply Forall_insert; [done |]. unfold iov_ok in *. rewrite Hv', length_drop. cbn [iov_len v']. lia.
    + rewrite (drop_frag i _ v') by (apply list_lookup_insert_eq; lia). rewrite drop_insert_le by lia.
      by rewrite Hfr, drop_app_le by lia.
    + unfold restored. destruct (Nat.ltb_spec i IE_LEN); [by rewrite list_insert_insert_eq | lia].
  - set (vs1 := <[i := saved]> vs). assert (Hl1 : length vs1 = IE_LEN) by (unfold vs1; by rewrite length_insert).
    assert (Hok1 : Forall iov_ok vs1) by (by apply Forall_insert).
    assert (Hd : drop (S i) vs1 = drop (S i) vs) by (apply drop_insert_le; lia).
    assert (Ht : drop (Z.to_nat nsent) (frag v ++ request_text (drop (S i) vs)) =
                 drop (Z.to_nat (nsent - iov_len v)) (request_text (drop (S i) vs))).
    { rewrite drop_app_ge by lia. f_equal. lia. }
    destruct (decide (S i = IE_LEN)) as [E | E].
    + destruct fuel as [| fuel]; [lia |]. cbn [advance]. destruct (Nat.leb_spec IE_LEN (S i)); [| lia].
      assert (N : drop (S i) vs = []) by (apply drop_ge; lia).
      assert (N1 : vs1 !! S i = None) by (apply lookup_ge_None; lia). rewrite N1. cbn [deref]. rewrite bind_Ret.
      exists (S i), past_end, vs1. split_and!; try done; try lia.
      * rewrite Ht, Hd, N. unfold request_text. cbn. by rewrite drop_nil.
      * unfold restored. destruct (Nat.ltb_spec (S i) IE_LEN); [lia |]. by destruct (Nat.ltb_spec i IE_LEN); [| lia].
    + destruct (lookup_lt_is_Some_2 vs1 (S i) ltac:(lia)) as [w Hw]. rewrite Hw, bind_Ret.
      pose proof (Forall_lookup_1 _ _ _ _ Hok1 Hw) as Hwok.
      destruct (IH (S i) (nsent - iov_len v) w vs1) as (i' & sv & vs' & E1 & H1 & H2 & H3 & H4 & H5 & H6);
        [lia | unfold frags_ok; split_and!; done || lia | rewrite Hd; lia | lia |].
      exists i', sv, vs'. split_and!; try done; try lia.
      * by rewrite H5, Hd, Ht.
      * rewrite H6. unfold restored. destruct (Nat.ltb_spec (S i) IE_LEN); [| lia].
        destruct (Nat.ltb_spec i IE_LEN); [| lia]. unfold vs1 in *. rewrite list_insert_id by done. done.
Qed.

(** For C itself a write that takes all that is left has no meaning: the fragment behind the last
    one is read. *)
Lemma advance_reads_past_the_end fuel i nsent saved vs :
  (IE_LEN - i < fuel)%nat -> frags_ok i saved vs -> Z.of_nat (length (request_text (drop i vs))) <= nsent ->
  (i < IE_LEN)%nat -> advance None fuel i nsent saved vs = Undef.
Proof.
  revert i nsent saved vs. induction fuel as [| fuel IH]; intros i nsent saved vs Hf (Hl & Hi & Hok & Hs) Hn Hlt; [lia |].
  cbn [advance]. destruct (Nat.leb_spec IE_LEN i); [lia |].
  destruct (lookup_lt_is_Some_2 vs i ltac:(lia)) as [v Hv]. rewrite Hv. cbn [deref]. rewrite bind_Ret.
  pose proof (Forall_lookup_1 _ _ _ _ Hok Hv) as Hvok. pose proof (length_frag v Hvok) as Lf.
  rewrite (drop_frag i vs v Hv), length_app in Hn. destruct (Z.ltb_spec nsent (iov_len v)); [lia |].
  destruct (<[i := saved]> vs !! S i) as [w |] eqn:Hw; [| done]. rewrite bind_Ret.
  pose proof (Forall_insert _ vs i saved Hok Hs) as Hok1. apply IH; [lia | | rewrite drop_insert_le; lia |].
  - unfold frags_ok. rewrite length_insert. split_and!; try done. exact (Forall_lookup_1 _ _ _ _ Hok1 Hw).
  - apply lookup_lt_Some in Hw. rewrite length_insert in Hw. lia.
Qed.

(** Write after write: how many bytes [writev] takes each time.  The result is what it took,
    and the fragments that are left. *)
Fixpoint writes (ns : list Z) (i : nat) (saved : iovec) (vs : list iovec)
    : cres (list Z * (nat * iovec * list iovec)) :=
  match ns with
  | [] => Ret ([], (i, saved, vs))
  | n :: ns =>
      bytes ← gather (drop i vs);
      '(i, saved, vs) ← advance (Some past_end) (S IE_LEN) i n saved vs;
      '(out, r) ← writes ns i saved vs;
      Ret (take (Z.to_nat n) bytes ++ out, r)
  end.

(** Every [writev] is given something and takes no more than it is given. *)
Fixpoint takes (ns : list Z) (left : Z) : Prop :=
  match ns with [] => True | n :: ns => 0 <= n <= left /\ (ns <> [] -> n < left) /\ takes ns (left - n) end.
End Advance.

Lemma writes_ok past_end ns : forall i saved vs,
  frags_ok i saved vs -> (i < IE_LEN)%nat -> takes ns (Z.of_nat (length (request_text (drop i vs)))) ->
  exists out i' saved' vs', writes past_end ns i saved vs = Ret (out, (i', saved', vs')) /\
    out ++ request_text (drop i' vs') = request_text (drop i vs) /\ length vs' = IE_LEN /\ (i' <= IE_LEN)%nat /\
    restored i' saved' vs' = restored i saved vs.
Proof.
  induction ns as [| n ns IH]; intros i saved vs Hok Hi Ht; cbn [writes].
  - exists [], i, saved, vs. destruct Hok as (H1 & H2 & _). done.
  - destruct Ht as (Hn & Hm & Ht). destruct Hok as (Hl & Hle & Hvs & Hs).
    rewrite gather_ok by (by apply Forall_drop). rewrite bind_Ret.
    destruct (advance_ok past_end (S IE_LEN) i n saved vs) as (i1 & sv1 & vs1 & -> & H1 & H2 & H3 & H4 & H5 & H6);
      [lia | unfold frags_ok; done | done | done |]. rewrite bind_Ret.
    assert (E5 : take (Z.to_nat n) (request_text (drop i vs)) ++ request_text (drop i1 vs1) = request_text (drop i vs)).
    { rewrite H5. apply take_drop. }
    destruct (decide (ns = [])) as [-> | Hne]; cbn [writes].
    { rewrite bind_Ret. eexists _, i1, sv1, vs1. rewrite app_nil_r. split_and!; try done; lia. }
    assert (Hlen : Z.of_nat (length (request_text (drop i1 vs1))) = Z.of_nat (length (request_text (drop i vs))) - n).
    { rewrite H5, length_drop. lia. }
    assert (Hi1 : (i1 < IE_LEN)%nat).
    { destruct (decide (i1 = IE_LEN)) as [-> | ?]; [| lia]. rewrite drop_ge in Hlen by lia. cbn in Hlen. specialize (Hm Hne). lia. }
    destruct (IH i1 sv1 vs1) as (out & i' & sv' & vs' & -> & E & G1 & G2 & G3);
      [unfold frags_ok; split_and!; try done; [lia | by apply H4] | done | by rewrite Hlen |].
    rewrite bind_Ret. eexists _, i', sv', vs'. split_and!; [reflexivity | | done | done | by rewrite G3].
    by rewrite <- app_assoc, E.
Qed.

(** C27: however the socket takes a request, piece by piece, the pieces are the text of the request in
    order; when it has taken all of it and the index is behind the last fragment, the fragments are
    what they were before the first piece was sent. *)
Theorem request_sent_whole past_end ns vs first
    (Hlen : length vs = IE_LEN) (Hok : Forall iov_ok vs) (Hfirst : vs !! 0%nat = Some first)
    (Htakes : takes ns (Z.of_nat (length (request_text vs)))) :
  exists out i saved vs', writes past_end ns 0 first vs = Ret (out, (i, saved, vs')) /\
    out ++ request_text (drop i vs') = request_text vs /\ (i = IE_LEN -> out = request_text vs /\ vs' = vs).
Proof.
  assert (Hf : iov_ok first) by (by eapply Forall_lookup_1).
  destruct (writes_ok past_end ns 0 first vs) as (out & i & sv & vs' & E & E1 & E2 & E3 & E4);
    [unfold frags_ok, IE_LEN in *; split_and!; done || lia | unfold IE_LEN; lia | done |].
  exists out, i, sv, vs'. split_and!; [done | done |]. intros ->. rewrite drop_ge in E1 by lia.
  split; [by rewrite app_nil_r in E1 |]. unfold restored in E4. rewrite Nat.ltb_irrefl in E4.
  rewrite E4. apply list_insert_id. done.
Qed.

(** A request as [core_send] leaves it. *)
Definition sample_request : list iovec :=
  <[IE_METHOD := iov_of (text "GET")]> (<[IE_BLANK := iov_of (text " ")]> (<[IE_URI := iov_of (text "/")]>
  (<[IE_PROTL := iov_of http11req]> (<[IE_HOST := iov_of (text "localhost")]> (<[IE_NEWLINE1 := iov_of CRLF]>
  (<[IE_NEWLINE2 := iov_of CRLF]> (replicate IE_LEN null_iov))))))).

Lemma request_sent_whole_witness :
  exists out saved vs', writes null_iov [2; 1; 30; 29] 0 (iov_of (text "GET")) sample_request =
    Ret (out, (IE_LEN, saved, vs')) /\ out = request_text sample_request /\ vs' = sample_request.
Proof.
  destruct (request_sent_whole null_iov [2; 1; 30; 29] sample_request (iov_of (text "GET")))
    as (out & i & saved & vs' & E & _ & H).
  - reflexivity.
  - repeat (apply Forall_cons; split; [vm_compute; split; discriminate |]). apply Forall_nil. exact I.
  - reflexivity.
  - assert (L : Z.of_nat (length (request_text sample_request)) = 62) by reflexivity.
    rewrite L. cbn [takes]. repeat split; try lia; intros N; try lia; by destruct N.
  - assert (Ei : IE_LEN = i).
    { assert (F : forall r, r = Ret (out, (i, saved, vs')) -> match r with Ret (_, (j, _, _)) => j = i | _ => True end)
        by (intros r ->; reflexivity).
      exact (F _ E). }
    rewrite <- Ei in E, H.
    exists out, saved, vs'. split; [exact E |]. apply H. reflexivity.
Defined.
End HttperfRequest.
