(* ===== verification/HttperfInv.v ===== *)
(** * httperf/src: the invariant of the client

    What is true of the connections, the calls, the descriptors, the timers and the counters
    between the operations of Httperf.  [SQ] and [RQ] are the lists of the calls in the send
    and receive queue of each connection; [hs] and [hc] are the references to connections and
    calls that are held by functions that have not returned, [ds] the connections that are
    being destroyed, [dy] the call that is. *)
From S2P Require Import Prelude Doubles HttpReply HttpReplyTotal Ports AddrTable BasicStats HttperfState Httperf HttperfRequest.

Module HttperfInv.
Import HttperfState Httperf HttperfRequest.

(** ** Outcomes: the program stops only where it is known to *)

(** The exits a test can end with: select failed, or the server sent what it was not asked
    for (core.c:622), a reply without a status line (basic.c:274: data behind the end of
    file), a status of no class (basic.c:283). *)
Definition allowed (code : Z) : Prop :=
  code = 1 \/ code = 1000 * 622 + 134 \/ code = 1000 * 274 + 134 \/ code = 1000 * 283 + 134.

Definition stops {A} (Q : A -> Prop) (r : cres A) : Prop :=
  match r with Ret a => Q a | Exit c => allowed c | Undef | NoFuel => False end.

Lemma stops_bind {A B} (Q : A -> Prop) (P : B -> Prop) (m : cres A) (f : A -> cres B) :
  stops Q m -> (forall a, Q a -> stops P (f a)) -> stops P (m ≫= f).
Proof. destruct m; cbn; auto. Qed.

Lemma stops_mono {A} (Q P : A -> Prop) (m : cres A) : stops Q m -> (forall a, Q a -> P a) -> stops P m.
Proof. destruct m; cbn; auto. Qed.

Lemma stops_Ret {A} (Q : A -> Prop) a : Q a -> stops Q (Ret a).
Proof. done. Qed.

(** ** Lists of calls *)

(** The pointer [p] starts the list [l] that is linked by [nx]. *)
Fixpoint chain (nx : Z -> option Z) (p : Z) (l : list Z) : Prop :=
  match l with
  | [] => p = 0
  | c :: l => p = c /\ c <> 0 /\ exists q, nx c = Some q /\ chain nx q l
  end.
Definition queue (nx : Z -> option Z) (head tail : Z) (l : list Z) : Prop :=
  chain nx head l /\ (l <> [] -> last l = Some tail).

Lemma chain_ext nx nx' p l : (forall c, c ∈ l -> nx c = nx' c) -> chain nx p l -> chain nx' p l.
Proof.
  revert p. induction l as [| c l IH]; intros p H; [done |]. intros (-> & H0 & q & E & Hl). cbn. split_and!; try done.
  exists q. rewrite <- (H c) by (apply elem_of_cons; auto). split; [done |]. apply IH; [| done].
  intros d Hd. apply H, elem_of_cons. auto.
Qed.

Lemma queue_ext nx nx' h t l : (forall c, c ∈ l -> nx c = nx' c) -> queue nx h t l -> queue nx' h t l.
Proof. intros H [H1 H2]. split; [by eapply chain_ext | done]. Qed.

Lemma chain_nil nx p l : chain nx p l -> (p = 0 <-> l = []).
Proof. destruct l; cbn; [intuition |]. intros (-> & H & _). split; [done | congruence]. Qed.

Lemma queue_nil nx h t l : queue nx h t l -> (h = 0 <-> l = []).
Proof. intros [H _]. by eapply chain_nil. Qed.

(** A call is linked behind the last one of the chain. *)
Lemma chain_snoc nx p l t c :
  chain nx p l -> last l = Some t -> NoDup l -> c <> 0 -> c ∉ l ->
  chain (fun d => if decide (d = t) then Some c else if decide (d = c) then Some 0 else nx d) p (l ++ [c]).
Proof.
  revert p. induction l as [| d l IH]; intros p; [done |]. intros (-> & H0 & q & E & Hl) Hlast Hnd Hc Hin.
  apply NoDup_cons in Hnd as [Hd Hnd]. apply not_elem_of_cons in Hin as [Hcd Hin].
  cbn [app chain]. split_and!; [done | done |]. destruct l as [| d' l].
  - cbn in Hlast. injection Hlast as ->. exists c. rewrite decide_True by done. split; [done |].
    cbn. split_and!; [done | done |]. exists 0. rewrite decide_False by done. by rewrite decide_True.
  - assert (d <> t). { intros ->. apply Hd. rewrite last_cons_cons in Hlast. by apply last_Some_elem_of in Hlast. }
    exists q. rewrite decide_False, decide_False by congruence. split; [done |]. apply IH; try done.
Qed.

Definition upd {B} (f : Z -> B) (a : Z) (b : B) : Z -> B := fun x => if decide (x = a) then b else f x.
Lemma upd_eq {B} (f : Z -> B) a b : upd f a b a = b.
Proof. unfold upd. by rewrite decide_True. Qed.
Lemma upd_ne {B} (f : Z -> B) a b x : x <> a -> upd f a b x = f x.
Proof. intros. unfold upd. by rewrite decide_False. Qed.

(** How often [a] is in [l]. *)
Definition cnt (a : Z) (l : list Z) : Z := Z.of_nat (length (filter (fun b => b = a) l)).
Lemma count_cons a b l : cnt a (b :: l) = (if decide (b = a) then 1 else 0) + cnt a l.
Proof. unfold cnt. rewrite filter_cons. destruct (decide (b = a)); cbn [length]; lia. Qed.
Lemma cnt_nonneg a l : 0 <= cnt a l.
Proof. unfold cnt. lia. Qed.
Lemma count_pos a l : a ∈ l <-> 0 < cnt a l.
Proof.
  induction l as [| b l IH]; [split; [by intros ?%elem_of_nil | unfold cnt; cbn; lia] |].
  rewrite count_cons, elem_of_cons. pose proof (cnt_nonneg a l). destruct (decide (b = a)) as [-> | Hne].
  - split; [lia | auto].
  - rewrite IH. split; [intros [? | ?]; [congruence | lia] | intros; right; lia].
Qed.

(** ** What is assumed of the parameters and of the world *)
Record params_ok (param : Cmdline_Params) : Prop := {
  po_version : http_version param = 0x10000 \/ http_version param = 0x10001;
  po_burst : 1 <= burst_length param;
  po_calls : 0 <= num_calls param;
  po_int : num_calls param + burst_length param <= INT_MAX;
  po_conns : 0 <= num_conns param < INT_MAX - 1;
  po_hog : hog param = false;
  po_header : forall h, additional_header param = Some h -> exists x, unescape h = Ret x
}.

(** A life time has a bin of the histogram. *)
Definition short_life (t1 t0 : Time) : Prop :=
  exists k, BasicStats.lifetime_bin (fsub t1 t0) = Ret k /\ k < BasicStats.NUM_BINS.

(** The documented behaviour of the system calls: [opened] are the descriptors in use, [seen] the
    readings of the clock so far.  A new descriptor is not in use, select answers with
    descriptors it was given, and [writev] takes no more than it is given. *)
Section Laws.
Context {W A : Type} (sys : system W A) (opened : W -> gset Z) (seen : W -> Time -> Prop).

Definition same (w w' : W) : Prop := opened w' = opened w /\ forall t, seen w' t <-> seen w t.

Record documented : Prop := {
  so_clock w : (opened (sys_clock sys w).2 = opened w) /\
    (forall t, seen (sys_clock sys w).2 t <-> seen w t \/ t = (sys_clock sys w).1);
  so_expired ts w : same w (sys_expired sys ts w).2;
  so_interarrival w : same w (sys_interarrival sys w).2;
  so_socket w : (forall t, seen (sys_socket sys w).2 t <-> seen w t) /\
    match (sys_socket sys w).1 with
    | inl fd => 0 <= fd < FD_SETSIZE /\ (fd ∉ opened w) /\ opened (sys_socket sys w).2 = opened w ∪ {[fd]}
    | inr _ => opened (sys_socket sys w).2 = opened w
    end;
  so_fcntl fd w : same w (sys_fcntl sys fd w).2;
  so_setsockopt fd o w : same w (sys_setsockopt sys fd o w).2;
  so_connect fd a w : same w (sys_connect sys fd a w).2;
  so_error fd w : same w (sys_so_error sys fd w).2;
  so_writev fd b w : same w (sys_writev sys fd b w).2 /\
    match (sys_writev sys fd b w).1 with inl n => 0 <= n <= Z.of_nat (length b) | inr _ => True end;
  so_read fd n w : same w (sys_read sys fd n w).2;
  so_close fd w : opened (sys_close sys fd w) = opened w ∖ {[fd]} /\ (forall t, seen (sys_close sys fd w) t <-> seen w t);
  so_select rd wr w : same w (sys_select sys rd wr w).2 /\
    match (sys_select sys rd wr w).1 with Some (r, x) => r ⊆ rd /\ x ⊆ wr | None => True end
}.

(** A limit of the program, not of the clock: no two readings of a test are so far apart that a
    connection that is made at the one and closed at the other has no bin in the histogram of
    life times.  basic.c:226 writes behind the array when there is one. *)
Definition short_lived : Prop :=
  forall w t, seen (sys_clock sys w).2 t -> short_life (sys_clock sys w).1 t.

Record system_ok : Prop := { so_documented :> documented; so_short : short_lived }.

Lemma system_clock w : system_ok -> (opened (sys_clock sys w).2 = opened w) /\
  (forall t, seen (sys_clock sys w).2 t <-> seen w t \/ t = (sys_clock sys w).1) /\
  (forall t, seen (sys_clock sys w).2 t -> short_life (sys_clock sys w).1 t).
Proof. intros [[] Hs]. split_and!; try apply so_clock0. apply Hs. Qed.
End Laws.

(** ** The invariant *)
Section Inv.
Context {W : Type} (param : Cmdline_Params) (opened : W -> gset Z) (seen : W -> Time -> Prop).
Implicit Types s : st W.

(** How many calls a burst has that ends with the counter [n]. *)
Definition created (n : Z) : Z :=
  Z.max 0 (Z.min (burst_length param) (num_calls param - (n - burst_length param))).

(** The counters of gen/call_seq.c, with [q] calls in the queues and [p] that is done and being destroyed. *)
Definition seq_ok (y : Conn) (q p : Z) : Prop :=
  0 <= seq_calls y - burst_length param /\
  (seq_calls y = burst_length param \/ seq_calls y - burst_length param < num_calls param) /\
  0 <= seq_destroyed y /\ seq_completed y = seq_destroyed y + p /\
  seq_destroyed y + p + q = created (seq_calls y).

Definition call_wf (x : Call) : Prop :=
  length (iov x) = IE_LEN /\ Forall iov_ok (iov x) /\ 0 <= reply_content_bytes x /\
  - 2 ^ 31 <= reply_status x < 2 ^ 31 /\
  (req_version x = 0x10000 \/ req_version x = 0x10001).

(** The request of a call in a send queue is not sent whole. *)
Definition sending (x : Call) : Prop := 0 <= iov_index x < Z.of_nat IE_LEN /\ iov_ok (iov_saved x).

Definition pending (dy : option (Z * Z)) (a : Z) : Z :=
  match dy with Some (_, b) => if decide (b = a) then 1 else 0 | None => 0 end.

Record heap_ok (hs ds hc : list Z) (dy : option (Z * Z)) (ex : Z) (SQ RQ : Z -> list Z)
    (cm : gmap Z Conn) (km : gmap Z Call) : Prop := {
  h_call c x : km !! c = Some x -> 0 < c /\ call_wf x /\
    c_ref x = cnt c (SQ (call_conn x) ++ RQ (call_conn x)) + cnt c hc /\
    (c_ref x = 0 -> exists b, dy = Some (c, b));
  h_in a c : c ∈ SQ a ++ RQ a -> exists x, km !! c = Some x /\ call_conn x = a;
  h_send a c x : c ∈ SQ a -> km !! c = Some x -> sending x;
  h_nodup a : NoDup (SQ a ++ RQ a);
  h_queued a : SQ a ++ RQ a <> [] -> exists y, cm !! a = Some y /\ closing (state y) = false;
  h_conn a y : cm !! a = Some y -> 0 < a /\ myport y = -1 /\ 0 <= content_length y <= HttpReply.SIZE_MAX /\
    s_ref y = (if closing (state y) then 0 else 1) + cnt a hs;
  h_ids a y : cm !! a = Some y -> state y = S_FREE -> a ∈ ds /\ s_ref y = 0 /\ watchdog y = 0;
  h_held a : a ∈ hs -> exists y, cm !! a = Some y;
  h_closing a y : cm !! a = Some y -> state y = S_CLOSING ->
    sendq y = 0 /\ recvq y = 0 /\ sd y = -1 /\ watchdog y = 0 /\ a ∈ hs;
  h_open a y : cm !! a = Some y -> closing (state y) = false ->
    queue (fun c => sendq_next <$> km !! c) (sendq y) (sendq_tail y) (SQ a) /\
    queue (fun c => recvq_next <$> km !! c) (recvq y) (recvq_tail y) (RQ a);
  h_state a y : cm !! a = Some y -> before_reply (state y) = true -> RQ a = [];
  h_seq a y : cm !! a = Some y -> closing (state y) = false -> a <> ex ->
    (seq_calls y = 0 /\ SQ a = [] /\ RQ a = [] /\ pending dy a = 0) \/
    (state y <> S_INITIAL /\ state y <> S_CONNECTING /\
       seq_ok y (Z.of_nat (length (SQ a ++ RQ a))) (pending dy a));
  h_fresh a y : cm !! a = Some y -> state y = S_INITIAL \/ state y = S_CONNECTING -> seq_calls y = 0 /\ SQ a = [];
  h_dy c b : dy = Some (c, b) -> exists x, km !! c = Some x /\ c_ref x = 0 /\ call_conn x = Z.abs b;
  h_ds : NoDup ds /\ forall a, a ∈ ds -> exists y, cm !! a = Some y /\ state y = S_FREE
}.

Record fds_ok (SQ RQ : Z -> list Z) s : Prop := {
  f_conn a y : conns s !! a = Some y -> closing (state y) = false ->
    (sd y = -1 /\ state y = S_INITIAL) \/
    (0 <= sd y < FD_SETSIZE /\ sd y < alloced_sd_to_conn s /\ sd_to_conn s !! sd y = Some a /\ sd y ∈ opened (world s));
  f_map fd a : sd_to_conn s !! fd = Some a -> a <> 0 ->
    0 <= fd /\ exists y, conns s !! a = Some y /\ closing (state y) = false /\ sd y = fd;
  f_wr fd : fd ∈ wrfds s <-> exists a y, conns s !! a = Some y /\ closing (state y) = false /\ sd y = fd /\ 0 <= fd /\
    (state y = S_CONNECTING \/ SQ a <> []);
  f_rd fd : fd ∈ rdfds s <-> exists a y, conns s !! a = Some y /\ closing (state y) = false /\ sd y = fd /\ 0 <= fd /\
    RQ a <> [];
  f_range fd : fd ∈ rdfds s ∪ wrfds s -> min_sd s <= fd <= max_sd s;
  f_alloced : 0 <= alloced_sd_to_conn s;
  f_min : 0 <= min_sd s
}.

Record timers_ok s : Prop := {
  t_conn a y : conns s !! a = Some y -> watchdog y <> 0 -> exists d, timers s !! watchdog y = Some (conn_timeout_cb a, d);
  t_timer t a d : timers s !! t = Some (conn_timeout_cb a, d) -> exists y, conns s !! a = Some y /\ watchdog y = t;
  t_range t cb : timers s !! t = Some cb -> 0 < t < next_timer s;
  t_next : 0 < next_timer s;
  t_rate t d : timers s !! t = Some (rate_tick_cb, d) -> fltb fzero (rate_param param) = true
}.

Record memory_ok s : Prop := {
  m_brk : 0 < brk s;
  m_calls : NoDup (map fst (free_calls s)) /\ forall c, c ∈ map fst (free_calls s) -> 0 < c < brk s /\ calls s !! c = None;
  m_conns : NoDup (free_conns s) /\ forall a, a ∈ free_conns s -> 0 < a < brk s /\ conns s !! a = None;
  m_call c x : calls s !! c = Some x -> c < brk s;
  m_conn a y : conns s !! a = Some y -> a < brk s
}.

(** The life of a connection up to now fits the histogram. *)
Record clock_ok s : Prop := {
  k_now : seen (world s) (now s);
  k_short t : seen (world s) t -> short_life (now s) t;
  k_conn a y : conns s !! a = Some y -> state y <> S_INITIAL -> closing (state y) = false -> seen (world s) (time_connect_start y);
  k_done a y : conns s !! a = Some y -> num_calls_completed y = 0 \/ seen (world s) (time_connect_start y)
}.

(** Every connection that was made is there or has been destroyed. *)
Record counts_ok (ds : list Z) s : Prop := {
  g_active : BasicStats.num_active_conns (basic s) = Z.of_nat (size (conns s)) - Z.of_nat (length ds);
  g_replies : length (BasicStats.num_replies (basic s)) = 6%nat;
  g_generated : 0 <= num_conns_generated s <= num_conns param + 1;
  g_made : Z.of_nat (size (conns s)) + num_conns_destroyed s =
           Z.min (num_conns_generated s) (num_conns param) + Z.of_nat (length ds);
  g_destroyed : 0 <= num_conns_destroyed s;
  g_running : running s = negb ((0 <? num_conns_destroyed s) && (num_conns param <=? num_conns_destroyed s));
  g_seq : fltb fzero (rate_param param) = false -> num_conns_generated s <= num_conns_destroyed s + 1;
  g_rate : fltb fzero (rate_param param) = true -> rg_done s = false -> num_conns_generated s <= num_conns param;
  g_iteration : 0 <= iteration s;
  g_loop : -1 <= loop_i s
}.

Record inv (hs ds hc : list Z) (dy : option (Z * Z)) (ex : Z) (SQ RQ : Z -> list Z) s : Prop := {
  i_heap : heap_ok hs ds hc dy ex SQ RQ (conns s) (calls s);
  i_fds : fds_ok SQ RQ s;
  i_timers : timers_ok s;
  i_memory : memory_ok s;
  i_clock : clock_ok s;
  i_counts : counts_ok ds s
}.
End Inv.
End HttperfInv.
