(* ===== verification/HttperfFrame.v ===== *)
(** * httperf/src: changes of the state that keep the invariant

    Module HttperfFrame has the changes that matter to one part of the invariant only: a field
    of a call or of a connection that no link depends on, a counter, the world.  Module
    HttperfHeap says how the operations change the heaps of connections and calls. *)
From S2P Require Import Prelude HttpReply Ports AddrTable Doubles BasicStats HttpReplyTotal HttperfState Httperf HttperfRequest HttperfInv.

Module HttperfFrame.
Import HttperfState Httperf HttperfRequest HttperfInv.

Section Frame.
Context {W : Type} (param : Cmdline_Params) (opened : W -> gset Z) (seen : W -> Time -> Prop).
Implicit Types s : st W.
Abbreviation inv := (inv param opened seen).
Context (hs ds hc : list Z) (dy : option (Z * Z)) (ex : Z) (SQ RQ : Z -> list Z).
Abbreviation I := (inv hs ds hc dy ex SQ RQ).

(** Open and rebuild the invariant; the parts that did not change are convertible. *)
Ltac rebuild H :=
  destruct H as [Hh [] [] [] [] []]; constructor; [exact Hh | constructor; cbn; assumption .. ].

Lemma inv_errno e s : I s -> I (set_errno e s).
Proof. intros H. rebuild H. Qed.
Lemma inv_loop_i e s : -1 <= e -> I s -> I (set_loop_i e s).
Proof. intros He H. rebuild H. Qed.
Lemma inv_ports e s : I s -> I (set_ports e s).
Proof. intros H. rebuild H. Qed.
Lemma inv_rg_timer e s : I s -> I (set_rg_timer e s).
Proof. intros H. rebuild H. Qed.
Lemma inv_next_time e s : I s -> I (set_next_time e s).
Proof. intros H. rebuild H. Qed.
Lemma inv_perf e s : I s -> I (set_perf_sample_start e s).
Proof. intros H. rebuild H. Qed.
Lemma inv_burst s : I s -> I (count_burst s).
Proof.
  intros H. unfold count_burst. destruct (_ =? _); [rebuild H |]. destruct (_ <? _); rebuild H.
Qed.
Lemma inv_iteration k s : 0 <= k -> I s -> I (set_iteration k s).
Proof. intros Hk H. rebuild H. Qed.

Lemma inv_world w s : same opened seen (world s) w -> I s -> I (set_world w s).
Proof.
  intros [Ho Hseen] [Hh [] [] [] [] []]. constructor; [exact Hh | constructor; cbn; rewrite ?Ho; assumption | constructor; cbn; assumption
    | constructor; cbn; assumption | | constructor; cbn; assumption].
  constructor; cbn.
  - by apply Hseen.
  - intros t Ht. apply k_short0. by apply Hseen.
  - intros. apply Hseen. eauto.
  - intros a y Hy. rewrite Hseen. eauto.
Qed.

Lemma inv_basic b s :
  BasicStats.num_active_conns b = BasicStats.num_active_conns (basic s) ->
  length (BasicStats.num_replies b) = length (BasicStats.num_replies (basic s)) -> I s -> I (set_basic b s).
Proof.
  intros E1 E2 [Hh [] [] [] [] []]. constructor; [exact Hh | constructor; cbn; assumption .. | constructor; cbn; congruence || assumption].
Qed.

(** A change of a call that no queue depends on. *)
Record call_like (x x' : Call) : Prop := {
  cl_ref : c_ref x' = c_ref x;
  cl_conn : call_conn x' = call_conn x;
  cl_send : sendq_next x' = sendq_next x;
  cl_recv : recvq_next x' = recvq_next x;
  cl_wf : call_wf x -> call_wf x';
  cl_sending : sending x -> sending x'
}.

Lemma next_insert (f : Call -> Z) (km : gmap Z Call) c x x' d :
  km !! c = Some x -> f x' = f x -> f <$> (<[c := x']> km !! d) = f <$> (km !! d).
Proof.
  intros Hc Hf. destruct (decide (d = c)) as [-> | ?]; [by rewrite lookup_insert_eq, Hc; cbn; rewrite Hf | by rewrite lookup_insert_ne].
Qed.

Lemma heap_call c x x' cm km :
  km !! c = Some x -> call_like x x' ->
  heap_ok param hs ds hc dy ex SQ RQ cm km -> heap_ok param hs ds hc dy ex SQ RQ cm (<[c := x']> km).
Proof.
  intros Hc [L1 L2 L3 L4 L5 L6] [].
  assert (Get : forall d z, <[c := x']> km !! d = Some z -> (d = c /\ z = x') \/ (d <> c /\ km !! d = Some z)).
  { intros d z. destruct (decide (d = c)) as [-> | ?]; [rewrite lookup_insert_eq; intros [= <-]; auto | rewrite lookup_insert_ne by done; auto]. }
  constructor; try assumption.
  - intros d z [(-> & ->) | (_ & Hz)]%Get; [| by apply h_call0]. rewrite L1, L2. destruct (h_call0 c x Hc) as (?&?&?&?). auto.
  - intros a d Hd. destruct (h_in0 a d Hd) as (z & Hz & Ez). destruct (decide (d = c)) as [-> | ?].
    + exists x'. rewrite lookup_insert_eq. split; [done | congruence].
    + exists z. by rewrite lookup_insert_ne.
  - intros a d z Hd [(-> & ->) | (_ & Hz)]%Get; eauto.
  - intros a y Hy Ho. destruct (h_open0 a y Hy Ho) as [Q1 Q2]. split; (eapply queue_ext; [| eassumption]); intros d _; symmetry; by eapply next_insert.
  - intros d b Hd. destruct (h_dy0 d b Hd) as (z & Hz & Ez & Ec). destruct (decide (d = c)) as [-> | ?].
    + exists x'. rewrite lookup_insert_eq. split_and!; [done | congruence ..].
    + exists z. by rewrite lookup_insert_ne.
Qed.

Lemma inv_call c x x' s :
  calls s !! c = Some x -> call_like x x' -> I s -> I (set_calls (<[c := x']> (calls s)) s).
Proof.
  intros Hc HL [Hh [] [] Hm [] []]. constructor; [by eapply heap_call | constructor; cbn; assumption .. | | constructor; cbn; assumption | constructor; cbn; assumption].
  destruct Hm. constructor; cbn; try assumption.
  - destruct m_calls0 as [N M]. split; [done |]. intros d Hd. destruct (M d Hd) as [? E]. split; [done |].
    rewrite lookup_insert_ne; [done | congruence].
  - intros d z. destruct (decide (d = c)) as [-> | ?]; [intros _; by eapply m_call0 |]. rewrite lookup_insert_ne by done. apply m_call0.
Qed.

(** A step inside a reply, or no change of the state. *)
Definition phase (x x' : Conn_State) : Prop :=
  x' = x \/ (closing x = false /\ closing x' = false /\ x <> S_INITIAL /\ x <> S_CONNECTING /\ x' <> S_INITIAL /\
             x' <> S_CONNECTING /\ (before_reply x' = true -> before_reply x = true)).

(** A change of a connection that neither a queue nor a table depends on. *)
Record conn_like (y y' : Conn) : Prop := {
  cn_ref : s_ref y' = s_ref y;
  cn_state : phase (state y) (state y');
  cn_sendq : sendq y' = sendq y;
  cn_sendq_tail : sendq_tail y' = sendq_tail y;
  cn_recvq : recvq y' = recvq y;
  cn_recvq_tail : recvq_tail y' = recvq_tail y;
  cn_watchdog : watchdog y' = watchdog y;
  cn_sd : sd y' = sd y;
  cn_myport : myport y' = myport y;
  cn_calls : seq_calls y' = seq_calls y;
  cn_completed : seq_completed y' = seq_completed y;
  cn_destroyed : seq_destroyed y' = seq_destroyed y;
  cn_length : 0 <= content_length y <= HttpReply.SIZE_MAX -> 0 <= content_length y' <= HttpReply.SIZE_MAX
}.

Lemma phase_closing x x' : phase x x' -> closing x' = closing x.
Proof. intros [-> | (-> & -> & _)]; done. Qed.
Lemma phase_is x x' z : phase x x' -> z = S_INITIAL \/ z = S_CONNECTING \/ z = S_CLOSING \/ z = S_FREE -> x' = z <-> x = z.
Proof.
  intros [-> | (H1 & H2 & H3 & H4 & H5 & H6 & _)] Hz; [done |]. destruct Hz as [-> | [-> | [-> | ->]]]; split; try done;
    intros ->; done.
Qed.
Lemma phase_before x x' : phase x x' -> before_reply x' = true -> before_reply x = true.
Proof. intros [-> | (_ & _ & _ & _ & _ & _ & H)]; done. Qed.

Lemma get_insert {V} (m : gmap Z V) a v d z :
  <[a := v]> m !! d = Some z -> (d = a /\ z = v) \/ (d <> a /\ m !! d = Some z).
Proof. destruct (decide (d = a)) as [-> | ?]; [rewrite lookup_insert_eq; intros [= <-]; auto | rewrite lookup_insert_ne by done; auto]. Qed.

Lemma insert_held a b (y : Conn) (m : gmap Z Conn) : (exists z, m !! b = Some z) -> exists z, <[a := y]> m !! b = Some z.
Proof. intros (z & Hz). destruct (decide (b = a)) as [-> | ?]; [exists y; by rewrite lookup_insert_eq | exists z; by rewrite lookup_insert_ne]. Qed.

Lemma heap_conn a y y' cm km :
  cm !! a = Some y -> conn_like y y' ->
  heap_ok param hs ds hc dy ex SQ RQ cm km -> heap_ok param hs ds hc dy ex SQ RQ (<[a := y']> cm) km.
Proof.
  intros Ha [] []. pose proof (phase_closing _ _ cn_state0) as Hcl.
  pose proof (fun z => phase_is _ _ z cn_state0) as His. pose proof (phase_before _ _ cn_state0) as Hbf.
  constructor; try assumption.
  - intros b Hb. destruct (h_queued0 b Hb) as (z & Hz & Oz). destruct (decide (b = a)) as [-> | ?].
    + exists y'. rewrite lookup_insert_eq. split; [done | congruence].
    + exists z. by rewrite lookup_insert_ne.
  - intros b z [(-> & ->) | (_ & Hz)]%get_insert; [| eauto]. destruct (h_conn0 a y Ha) as (H1 & H2 & H3 & H4).
    rewrite cn_myport0, cn_ref0, Hcl. auto.
  - intros b z [(-> & ->) | (_ & Hz)]%get_insert; [| eauto]. rewrite His, cn_ref0, cn_watchdog0 by tauto. eauto.
  - intros b Hb. by apply insert_held, h_held0.
  - intros b z [(-> & ->) | (_ & Hz)]%get_insert; [| eauto]. rewrite His, cn_sendq0, cn_recvq0, cn_sd0, cn_watchdog0 by tauto. eauto.
  - intros b z [(-> & ->) | (_ & Hz)]%get_insert; [| eauto]. rewrite Hcl, cn_sendq0, cn_recvq0, cn_sendq_tail0, cn_recvq_tail0. eauto.
  - intros b z [(-> & ->) | (_ & Hz)]%get_insert; eauto.
  - intros b z [(-> & ->) | (_ & Hz)]%get_insert; [| eauto]. unfold seq_ok. rewrite Hcl, !His, cn_calls0, cn_completed0, cn_destroyed0 by tauto.
    by apply h_seq0.
  - intros b z [(-> & ->) | (_ & Hz)]%get_insert; [| eauto]. rewrite !His, cn_calls0 by tauto. eauto.
  - destruct h_ds0 as [N D]. split; [done |]. intros b Hb. destruct (D b Hb) as (z & Hz & Ez). destruct (decide (b = a)) as [-> | ?].
    + exists y'. rewrite lookup_insert_eq. split; [done |]. apply His; [tauto |]. congruence.
    + exists z. by rewrite lookup_insert_ne.
Qed.

Lemma open_insert a y y' (cm : gmap Z Conn) (P : Z -> Conn -> Prop) :
  cm !! a = Some y -> (P a y' <-> P a y) ->
  (exists b z, <[a := y']> cm !! b = Some z /\ P b z) <-> (exists b z, cm !! b = Some z /\ P b z).
Proof using Type.
  clear ex SQ RQ. intros Ha HP. split; intros (b & z & Hz & Pz).
  - apply get_insert in Hz as [(-> & ->) | (_ & Hz)]; [exists a, y; tauto | eauto].
  - destruct (decide (b = a)) as [-> | ?].
    + exists a, y'. rewrite lookup_insert_eq. split; [done |]. apply HP. congruence.
    + exists b, z. by rewrite lookup_insert_ne.
Qed.

Lemma fds_conn a y y' s :
  conns s !! a = Some y -> conn_like y y' -> fds_ok opened SQ RQ s -> fds_ok opened SQ RQ (set_conns (<[a := y']> (conns s)) s).
Proof.
  intros Ha [] []. pose proof (phase_closing _ _ cn_state0) as Hcl.
  pose proof (fun z => phase_is _ _ z cn_state0) as His.
  constructor; cbn; try assumption.
  - intros b z [(-> & ->) | (_ & Hz)]%get_insert; [| eauto]. rewrite Hcl, cn_sd0, His by tauto. eauto.
  - intros fd b Hb Hb0. destruct (f_map0 fd b Hb Hb0) as (Hp & z & Hz & Oz & Ez). split; [done |]. destruct (decide (b = a)) as [-> | ?].
    + exists y'. rewrite lookup_insert_eq. split_and!; congruence.
    + exists z. by rewrite lookup_insert_ne.
  - intros fd. rewrite f_wr0. symmetry. apply (open_insert a y y' _ (fun b z => closing (state z) = false /\ sd z = fd /\ 0 <= fd /\ (state z = S_CONNECTING \/ SQ b <> []))); [done |].
    rewrite Hcl, cn_sd0, His by tauto. done.
  - intros fd. rewrite f_rd0. symmetry. apply (open_insert a y y' _ (fun b z => closing (state z) = false /\ sd z = fd /\ 0 <= fd /\ RQ b <> [])); [done |].
    by rewrite Hcl, cn_sd0.
Qed.

Lemma inv_conn a y y' s :
  conns s !! a = Some y -> conn_like y y' ->
  (state y' <> S_INITIAL -> closing (state y') = false -> seen (world s) (time_connect_start y')) ->
  (num_calls_completed y' = 0 \/ seen (world s) (time_connect_start y')) ->
  I s -> I (set_conns (<[a := y']> (conns s)) s).
Proof.
  intros Ha HL K1 K2 [Hh Hf Ht Hm Hk Hg]. constructor; [by eapply heap_conn | by eapply fds_conn | | | |].
  - destruct Ht. constructor; cbn; try assumption.
    + intros b z [(-> & ->) | (_ & Hz)]%get_insert; [| eauto]. rewrite (cn_watchdog _ _ HL). eauto.
    + intros t b d Hd. destruct (t_timer0 t b d Hd) as (z & Hz & Ez). destruct (decide (b = a)) as [-> | ?].
      * exists y'. rewrite lookup_insert_eq, (cn_watchdog _ _ HL). split; [done | congruence].
      * exists z. by rewrite lookup_insert_ne.
  - destruct Hm. constructor; cbn; try assumption.
    + destruct m_conns0 as [N M]. split; [done |]. intros b Hb. destruct (M b Hb) as [? E]. split; [done |].
      rewrite lookup_insert_ne; [done | congruence].
    + intros b z [(-> & ->) | (_ & Hz)]%get_insert; eauto.
  - destruct Hk. constructor; cbn; try assumption; intros b z [(-> & ->) | (_ & Hz)]%get_insert; eauto.
  - destruct Hg. constructor; cbn; try assumption; rewrite map_size_insert_Some by eauto; done.
Qed.
End Frame.

(** ** Steps that change connections, calls, descriptors and timers only *)

(** The life of the connection goes on. *)
Definition lives (y y' : Conn) : Prop :=
  time_connect_start y' = time_connect_start y /\
  (num_calls_completed y' = num_calls_completed y \/ (state y <> S_INITIAL /\ closing (state y) = false)) /\
  (state y' <> S_INITIAL -> closing (state y') = false -> state y <> S_INITIAL /\ closing (state y) = false).

Lemma lives_refl y : lives y y.
Proof. split_and!; auto. Qed.
Lemma lives_state y y' :
  time_connect_start y' = time_connect_start y -> num_calls_completed y' = num_calls_completed y ->
  state y' = state y -> lives y y'.
Proof. intros E1 E2 E3. unfold lives. rewrite E1, E2, E3. auto. Qed.

Ltac same_rest := constructor; [constructor; done | done ..].

Section Change.
Context {W : Type} (param : Cmdline_Params) (opened : W -> gset Z) (seen : W -> Time -> Prop).
Implicit Types s : st W.
Abbreviation inv := (inv param opened seen).

Record quiet s s' : Prop := {
  qu_seen : forall t, seen (world s') t <-> seen (world s) t;
  qu_now : now s' = now s;
  qu_active : BasicStats.num_active_conns (basic s') = BasicStats.num_active_conns (basic s);
  qu_replies : length (BasicStats.num_replies (basic s')) = length (BasicStats.num_replies (basic s));
  qu_generated : num_conns_generated s' = num_conns_generated s;
  qu_destroyed : num_conns_destroyed s' = num_conns_destroyed s;
  qu_running : running s' = running s;
  qu_done : rg_done s' = rg_done s;
  qu_iteration : iteration s' = iteration s;
  qu_loop : loop_i s' = loop_i s
}.

Lemma quiet_refl s : quiet s s.
Proof. by constructor. Qed.
Lemma quiet_trans s s' s'' : quiet s s' -> quiet s' s'' -> quiet s s''.
Proof. intros [] []. constructor; try congruence. intros t. by rewrite qu_seen1. Qed.

(** The allocator is not used either. *)
Record rest_same s s' : Prop := {
  rs_quiet : quiet s s';
  rs_brk : brk s' = brk s;
  rs_free_conns : free_conns s' = free_conns s;
  rs_free_calls : free_calls s' = free_calls s
}.

Lemma same_size (m m' : gmap Z Conn) : (forall b, is_Some (m !! b) <-> is_Some (m' !! b)) -> size m' = size m.
Proof.
  intros H. rewrite <- !(size_dom (D := gset Z)). f_equal. apply set_eq. intros b. by rewrite !elem_of_dom.
Qed.

Lemma memory_change s s' :
  brk s' = brk s -> free_conns s' = free_conns s -> free_calls s' = free_calls s ->
  (forall b, is_Some (conns s' !! b) -> is_Some (conns s !! b)) ->
  (forall c, is_Some (calls s' !! c) -> is_Some (calls s !! c)) -> memory_ok s -> memory_ok s'.
Proof.
  intros E1 E2 E3 Hc Hk [M1 [M2 M2'] [M3 M3'] M4 M5]. constructor; rewrite ?E1, ?E2, ?E3.
  - done.
  - split; [done |]. intros c Hin. destruct (M2' c Hin) as [? E]. split; [done |]. apply eq_None_not_Some.
    intros Hin'. apply Hk in Hin'. rewrite E in Hin'. by destruct Hin'.
  - split; [done |]. intros a Hin. destruct (M3' a Hin) as [? E]. split; [done |]. apply eq_None_not_Some.
    intros Hin'. apply Hc in Hin'. rewrite E in Hin'. by destruct Hin'.
  - intros c x Hx. destruct (Hk c) as [z Hz]; [by rewrite Hx |]. eauto.
  - intros a y Hy. destruct (Hc a) as [z Hz]; [by rewrite Hy |]. eauto.
Qed.

(** What the connections of [s'] have in common with those of [s]. *)
Definition same_lives s s' : Prop :=
  (forall b y', conns s' !! b = Some y' -> exists y, conns s !! b = Some y /\ lives y y') /\
  (forall b, is_Some (conns s !! b) -> is_Some (conns s' !! b)).

Lemma same_lives_refl s s' : conns s' = conns s -> same_lives s s'.
Proof. intros E. unfold same_lives. rewrite E. split; [| done]. intros b y Hy. exists y. split; [done | apply lives_refl]. Qed.

Lemma same_lives_at a y y' s s' :
  conns s !! a = Some y -> conns s' = <[a := y']> (conns s) -> lives y y' -> same_lives s s'.
Proof.
  intros Hy Ec HL. split.
  - intros b z. rewrite Ec. intros [(-> & ->) | (_ & Hz)]%get_insert; [by exists y | exists z; split; [done | apply lives_refl]].
  - intros b Hb. rewrite Ec. destruct (decide (b = a)) as [-> | ?]; [rewrite lookup_insert_eq; by eexists | by rewrite lookup_insert_ne].
Qed.

Lemma clock_change s s' : quiet s s' -> same_lives s s' -> clock_ok seen s -> clock_ok seen s'.
Proof.
  intros [] [Hc _] []. constructor; rewrite ?qu_now0.
  - by apply qu_seen0.
  - intros t Ht. apply k_short0. by apply qu_seen0.
  - intros b y' Hy' H1 H2. destruct (Hc b y' Hy') as (y & Hy & -> & _ & L). apply qu_seen0. destruct (L H1 H2). eauto.
  - intros b y' Hy'. destruct (Hc b y' Hy') as (y & Hy & E1 & E2 & _). rewrite E1, qu_seen0.
    destruct E2 as [-> | [? ?]]; eauto.
Qed.

Lemma counts_change ds ds' s s' :
  quiet s s' -> same_lives s s' -> length ds' = length ds -> counts_ok param ds s -> counts_ok param ds' s'.
Proof.
  intros [] [Hc Hc'] Hds Hg.
  assert (Hs : size (conns s') = size (conns s)).
  { apply same_size. intros b. split; [apply Hc' |]. intros [y' Hy']. destruct (Hc b y' Hy') as (y & -> & _). by eexists. }
  destruct Hg. constructor; rewrite ?Hs, ?Hds, ?qu_active0, ?qu_replies0, ?qu_generated0, ?qu_destroyed0, ?qu_running0, ?qu_done0, ?qu_iteration0, ?qu_loop0; assumption.
Qed.

Lemma inv_change hs ds hc dy ex SQ RQ hs' ds' hc' dy' ex' SQ' RQ' s s' :
  inv hs ds hc dy ex SQ RQ s -> rest_same s s' -> length ds' = length ds -> same_lives s s' ->
  (forall c, is_Some (calls s' !! c) -> is_Some (calls s !! c)) ->
  heap_ok param hs' ds' hc' dy' ex' SQ' RQ' (conns s') (calls s') -> fds_ok opened SQ' RQ' s' -> timers_ok param s' ->
  inv hs' ds' hc' dy' ex' SQ' RQ' s'.
Proof.
  intros [_ _ _ Hm Hk Hg] [] Hds HL Hcalls Hh' Hf' Ht'. constructor; try assumption.
  - eapply memory_change; [.. | exact Hm]; try done. intros b [y' Hy']. destruct (proj1 HL b y' Hy') as (y & -> & _). by eexists.
  - by eapply clock_change.
  - by eapply counts_change.
Qed.

(** One connection is replaced. *)
Lemma inv_change_at a y y' hs ds hc dy ex SQ RQ hs' hc' dy' ex' SQ' RQ' s s' :
  inv hs ds hc dy ex SQ RQ s -> rest_same s s' ->
  conns s !! a = Some y -> conns s' = <[a := y']> (conns s) -> lives y y' ->
  (forall c, is_Some (calls s' !! c) -> is_Some (calls s !! c)) ->
  heap_ok param hs' ds hc' dy' ex' SQ' RQ' (conns s') (calls s') -> fds_ok opened SQ' RQ' s' -> timers_ok param s' ->
  inv hs' ds hc' dy' ex' SQ' RQ' s'.
Proof.
  intros Hi R Hy Ec HL Hk Hh Hf Ht. eapply inv_change; [exact Hi | exact R | done | | exact Hk | exact Hh | exact Hf | exact Ht].
  by eapply same_lives_at.
Qed.
End Change.
End HttperfFrame.

(** A call is made, held, queued, moved from the send to the receive queue, taken out, freed;
    a connection is made, referenced, closed, freed. *)
Module HttperfHeap.
Import HttperfState Httperf HttperfRequest HttperfInv HttperfFrame.

Section Heap.
Context (param : Cmdline_Params).
Abbreviation heap_ok := (heap_ok param).

Lemma cnt_app a l l' : cnt a (l ++ l') = cnt a l + cnt a l'.
Proof. unfold cnt. rewrite filter_app, length_app. lia. Qed.
Lemma cnt_zero a l : (a ∉ l) -> cnt a l = 0.
Proof. intros H. pose proof (cnt_nonneg a l). destruct (Z.eq_dec (cnt a l) 0); [done |]. destruct H. apply count_pos. lia. Qed.
Lemma cnt_nodup a l : NoDup l -> a ∈ l -> cnt a l = 1.
Proof.
  induction 1 as [| b l Hb Hl IH]; [by intros ?%elem_of_nil |]. rewrite count_cons. intros [-> | Ha]%elem_of_cons.
  - rewrite decide_True, cnt_zero by done. lia.
  - rewrite decide_False by congruence. by rewrite IH.
Qed.
Lemma cnt_perm a l l' : l ≡ₚ l' -> cnt a l = cnt a l'.
Proof. intros H. unfold cnt. by rewrite H. Qed.

Lemma cnt_single a b : cnt a [b] = if decide (b = a) then 1 else 0.
Proof. rewrite count_cons. unfold cnt. cbn. lia. Qed.

(** A call that is in no queue. *)
Definition loose (SQ RQ : Z -> list Z) (c : Z) : Prop := forall a, c ∉ SQ a ++ RQ a.

Section Fixed.
Context (hs ds : list Z) (dy : option (Z * Z)) (ex : Z) (SQ RQ : Z -> list Z) (cm : gmap Z Conn).

(** What the queues say of the calls that stay as they are. *)
Lemma next_other (f : Call -> Z) (km : gmap Z Call) c x (l : list Z) :
  (c ∉ l) -> forall d, d ∈ l -> f <$> km !! d = f <$> <[c := x]> km !! d.
Proof. intros Hc d Hd. rewrite lookup_insert_ne; [done | congruence]. Qed.

(** A loose call is replaced: nothing depends on it but its own references. *)
Lemma heap_loose hc hc' c x km :
  heap_ok hs ds hc dy ex SQ RQ cm km -> loose SQ RQ c -> 0 < c -> call_wf x ->
  c_ref x = cnt c hc' -> 0 < c_ref x -> (forall b, dy <> Some (c, b)) -> (forall d, d <> c -> cnt d hc' = cnt d hc) ->
  heap_ok hs ds hc' dy ex SQ RQ cm (<[c := x]> km).
Proof.
  intros [] HL Hc Hwf Hr Hpos Hdy Hcnt. constructor; try assumption.
  - intros d z [(-> & ->) | (Hd & Hz)]%get_insert.
    + split_and!; [done | done | rewrite (cnt_zero c) by apply HL; lia | intros; exfalso; lia].
    + rewrite Hcnt by done. by apply h_call0.
  - intros a d Hd. destruct (h_in0 a d Hd) as (z & Hz & Ez). exists z. rewrite lookup_insert_ne; [done |].
    intros <-. by destruct (HL a).
  - intros a d z Hd [(-> & ->) | (_ & Hz)]%get_insert; [| eauto]. destruct (HL a). apply elem_of_app. auto.
  - intros a y Hy Ho. destruct (h_open0 a y Hy Ho) as [Q1 Q2].
    split; (eapply queue_ext; [| eassumption]); apply next_other; intros Hin; destruct (HL a); apply elem_of_app; auto.
  - intros d b Hd. destruct (h_dy0 d b Hd) as (z & Hz & Ez). destruct (decide (d = c)) as [-> | ?].
    + by destruct (Hdy b).
    + exists z. by rewrite lookup_insert_ne.
Qed.

(** The reference counts of a loose call: the references that are held. *)
Lemma heap_loose_ref hc c x km :
  heap_ok hs ds hc dy ex SQ RQ cm km -> loose SQ RQ c -> km !! c = Some x -> c_ref x = cnt c hc.
Proof. intros [] HL Hx. destruct (h_call0 c x Hx) as (_ & _ & -> & _). rewrite (cnt_zero c) by apply HL. lia. Qed.

Lemma fresh_loose hc c km : heap_ok hs ds hc dy ex SQ RQ cm km -> km !! c = None -> loose SQ RQ c.
Proof. intros [] Hc a Hin. destruct (h_in0 a c Hin) as (x & Hx & _). congruence. Qed.

Lemma no_null_queue hc km : heap_ok hs ds hc dy ex SQ RQ cm km -> SQ 0 = [] /\ RQ 0 = [].
Proof.
  intros []. destruct (decide (SQ 0 ++ RQ 0 = [])) as [E | E]; [by apply app_eq_nil in E |].
  destruct (h_queued0 0 E) as (y & Hy & _). destruct (h_conn0 0 y Hy). lia.
Qed.
End Fixed.

(** A reference to a call is given back while others are left; a pending call is counted. *)
Lemma heap_unhold hs ds hc hc' dy ex SQ RQ cm km c x x' :
  heap_ok hs ds hc dy ex SQ RQ cm km -> km !! c = Some x -> call_like (set_c_ref (c_ref x') x) x' -> 0 < c_ref x -> 0 < c_ref x' ->
  c_ref x' = c_ref x + cnt c hc' - cnt c hc -> (forall d, d <> c -> cnt d hc' = cnt d hc) ->
  heap_ok hs ds hc' dy ex SQ RQ cm (<[c := x']> km).
Proof.
  intros Hh Hx HL Hpx Hp Hr Hcnt. pose proof Hh as [].
  assert (Hdy : forall b, dy = Some (c, b) -> False).
  { intros b Hd. destruct (h_dy0 c b Hd) as (z & Hz & Ez). assert (z = x) by congruence. subst z.
    lia. }
  assert (L : call_conn x' = call_conn x) by (by destruct HL).
  destruct HL as [L1 L2 L3 L4 L5 L6]. cbn in L3, L4. constructor; try assumption.
  - intros d z [(-> & ->) | (Hd & Hz)]%get_insert.
    + destruct (h_call0 c x Hx) as (H1 & H2 & H3 & _). rewrite L. split_and!; [done | by apply L5 | lia | intros; exfalso; lia].
    + destruct (h_call0 d z Hz) as (H1 & H2 & H3 & H4). rewrite Hcnt by done. done.
  - intros a d Hd. destruct (h_in0 a d Hd) as (z & Hz & Ez). destruct (decide (d = c)) as [-> | ?].
    + exists x'. rewrite lookup_insert_eq. split; [done | congruence].
    + exists z. by rewrite lookup_insert_ne.
  - intros a d z Hd [(-> & ->) | (_ & Hz)]%get_insert; [apply L6; by apply (h_send0 a c x) | eauto].
  - intros a y Hy Ho. destruct (h_open0 a y Hy Ho) as [Q1 Q2].
    split; (eapply queue_ext; [| eassumption]); intros d _; symmetry; by apply (next_insert _ _ _ _ _ _ Hx).
  - intros d b Hd. destruct (h_dy0 d b Hd) as (z & Hz & Ez). exists z. rewrite lookup_insert_ne; [done |]. intros <-. eauto.
Qed.

(** The call that is being destroyed is accounted for. *)
Definition settled (dy : option (Z * Z)) : option (Z * Z) :=
  match dy with Some (c, a) => Some (c, - a) | None => None end.

Lemma heap_settle hs ds hc dy a SQ RQ cm km :
  0 < a -> (forall c b, dy = Some (c, b) -> b = a) -> heap_ok hs ds hc dy a SQ RQ cm km ->
  heap_ok hs ds hc (settled dy) a SQ RQ cm km.
Proof.
  intros Ha Hb []. assert (P : forall b y, cm !! b = Some y -> b <> a -> pending (settled dy) b = pending dy b).
  { intros b y Hy Hne. destruct dy as [[c d] |]; [| done]. cbn. destruct (h_conn0 b y Hy).
    specialize (Hb c d eq_refl). rewrite !decide_False; [done | |]; cbn in *; lia. }
  constructor; try assumption.
  - intros c x Hx. destruct (h_call0 c x Hx) as (H1 & H2 & H3 & H4). split_and!; try done. intros H0. destruct (H4 H0) as (b & ->). cbn. eauto.
  - intros b y Hy Ho Hne. rewrite (P b y) by done. by apply h_seq0.
  - intros c b Hd. destruct dy as [[c' d] |]; [| done]. injection Hd as -> <-. rewrite Z.abs_opp. eauto.
Qed.

(** The counters of a connection change. *)
Record seq_like (y y' : Conn) : Prop := {
  sl_ref : s_ref y' = s_ref y;
  sl_state : state y' = state y;
  sl_sendq : sendq y' = sendq y;
  sl_sendq_tail : sendq_tail y' = sendq_tail y;
  sl_recvq : recvq y' = recvq y;
  sl_recvq_tail : recvq_tail y' = recvq_tail y;
  sl_watchdog : watchdog y' = watchdog y;
  sl_sd : sd y' = sd y;
  sl_myport : myport y' = myport y;
  sl_length : content_length y' = content_length y
}.

Lemma heap_seq hs ds hc dy ex ex' SQ RQ cm km a y y' :
  heap_ok hs ds hc dy ex SQ RQ cm km -> cm !! a = Some y -> seq_like y y' -> ex = a \/ ex = 0 ->
  (closing (state y) = false -> a <> ex' ->
     (seq_calls y' = 0 /\ SQ a = [] /\ RQ a = [] /\ pending dy a = 0) \/
     (state y <> S_INITIAL /\ state y <> S_CONNECTING /\ seq_ok param y' (Z.of_nat (length (SQ a ++ RQ a))) (pending dy a))) ->
  (state y = S_INITIAL \/ state y = S_CONNECTING -> seq_calls y' = 0) ->
  heap_ok hs ds hc dy ex' SQ RQ (<[a := y']> cm) km.
Proof.
  intros [] Hy [] Hex Hseq Hfresh. constructor; try assumption.
  - intros b Hb. destruct (h_queued0 b Hb) as (z & Hz & Oz). destruct (decide (b = a)) as [-> | ?].
    + exists y'. rewrite lookup_insert_eq. split; [done | congruence].
    + exists z. by rewrite lookup_insert_ne.
  - intros b z [(-> & ->) | (_ & Hz)]%get_insert; [| eauto]. rewrite sl_myport0, sl_length0, sl_ref0, sl_state0. eauto.
  - intros b z [(-> & ->) | (_ & Hz)]%get_insert; [| eauto]. rewrite sl_state0, sl_ref0, sl_watchdog0. eauto.
  - intros b Hb. by apply insert_held, h_held0.
  - intros b z [(-> & ->) | (_ & Hz)]%get_insert; [| eauto]. rewrite sl_state0, sl_sendq0, sl_recvq0, sl_sd0, sl_watchdog0. eauto.
  - intros b z [(-> & ->) | (_ & Hz)]%get_insert; [| eauto]. rewrite sl_state0, sl_sendq0, sl_recvq0, sl_sendq_tail0, sl_recvq_tail0. eauto.
  - intros b z [(-> & ->) | (_ & Hz)]%get_insert; [rewrite sl_state0 |]; eauto.
  - intros b z [(-> & ->) | (Hb & Hz)]%get_insert Ho Hne; [rewrite sl_state0 in *; auto |]. apply h_seq0; try done.
    destruct Hex as [-> | ->]; [done |]. destruct (h_conn0 b z Hz). lia.
  - intros b z [(-> & ->) | (_ & Hz)]%get_insert; [rewrite sl_state0; intros Hf; split; [auto | by apply (h_fresh0 a y)] | eauto].
  - destruct h_ds0 as [N D]. split; [done |]. intros b Hb. destruct (D b Hb) as (z & Hz & Ez). destruct (decide (b = a)) as [-> | ?].
    + exists y'. rewrite lookup_insert_eq. split; [done | congruence].
    + exists z. by rewrite lookup_insert_ne.
Qed.

(** A held call goes to the end of the send queue of its open connection [a]. *)
Section Enqueue.
Context (hs ds hc : list Z) (dy : option (Z * Z)) (SQ RQ : Z -> list Z) (cm : gmap Z Conn) (km : gmap Z Call).
Context (a c : Z) (y : Conn) (x : Call).
Context (Hheap : heap_ok hs ds hc dy a SQ RQ cm (<[c := set_c_ref (c_ref x - 1) x]> km)).
Context (Hloose : loose SQ RQ c) (Hy : cm !! a = Some y) (Hopen : closing (state y) = false)
  (Hstate : state y <> S_INITIAL /\ state y <> S_CONNECTING) (Hconn : call_conn x = a) (Hnext : sendq_next x = 0)
  (Hsending : sending x) (Hpos : 1 < c_ref x).

Abbreviation SQ' := (upd SQ a (SQ a ++ [c])).

Lemma enq_elem b d : d ∈ SQ' b ++ RQ b <-> (d ∈ SQ b ++ RQ b) \/ (b = a /\ d = c).
Proof.
  destruct (decide (b = a)) as [-> | Hb]; [rewrite upd_eq | rewrite upd_ne by done; tauto].
  rewrite !elem_of_app, list_elem_of_singleton. tauto.
Qed.

Lemma enq_cnt b d : cnt d (SQ' b ++ RQ b) = cnt d (SQ b ++ RQ b) + (if decide (b = a /\ d = c) then 1 else 0).
Proof.
  destruct (decide (b = a)) as [-> | Hb]; [rewrite upd_eq | rewrite upd_ne, decide_False by tauto; lia].
  rewrite !cnt_app, cnt_single. destruct (decide (c = d)) as [-> | ?].
  - rewrite decide_True by done. lia.
  - rewrite decide_False by (intros [_ ?]; congruence). lia.
Qed.

(** [km1] is the heap of the calls with [c] in it and the calls of the queue linked. *)
Lemma heap_enqueue y' km1 :
  (forall d, d <> c -> (match km !! d with
     | Some z => exists z', km1 !! d = Some z' /\ c_ref z' = c_ref z /\ call_conn z' = call_conn z /\
                   (call_wf z -> call_wf z') /\ (sending z -> sending z') /\
                   recvq_next z' = recvq_next z /\ (sendq_next z' = sendq_next z \/ d ∈ SQ a)
     | None => km1 !! d = None end)) ->
  km1 !! c = Some x ->
  state y' = state y -> s_ref y' = s_ref y -> myport y' = myport y ->
  content_length y' = content_length y -> seq_calls y' = seq_calls y ->
  queue (fun d => sendq_next <$> km1 !! d) (sendq y') (sendq_tail y') (SQ a ++ [c]) ->
  recvq y' = recvq y -> recvq_tail y' = recvq_tail y ->
  heap_ok hs ds hc dy a SQ' RQ (<[a := y']> cm) km1.
Proof.
  intros Hkm Hkc E1 E2 E5 E6 E7 HQ E8 E9.
  assert (Old : forall d z', d <> c -> km1 !! d = Some z' -> exists z, km !! d = Some z /\ c_ref z' = c_ref z /\ call_conn z' = call_conn z /\
     (call_wf z -> call_wf z') /\ (sending z -> sending z') /\ recvq_next z' = recvq_next z /\ (sendq_next z' = sendq_next z \/ d ∈ SQ a)).
  { intros d z' Hd Hz. specialize (Hkm d Hd). destruct (km !! d) as [z |]; [| congruence].
    destruct Hkm as (z'' & Ez & H). exists z. by replace z' with z'' by congruence. }
  assert (New : forall d z, d <> c -> km !! d = Some z -> exists z', km1 !! d = Some z' /\ call_conn z' = call_conn z).
  { intros d z Hd Hz. specialize (Hkm d Hd). rewrite Hz in Hkm. destruct Hkm as (z' & ? & _ & ? & _). eauto. }
  assert (Look : forall d, d <> c -> <[c := set_c_ref (c_ref x - 1) x]> km !! d = km !! d) by (intros; by apply lookup_insert_ne).
  destruct Hheap. constructor.
  - intros d z' Hz. rewrite enq_cnt. destruct (decide (d = c)) as [-> | Hd].
    + replace z' with x by congruence. destruct (h_call0 c _ (lookup_insert_eq _ _ _)) as (H1 & H2 & H3 & _). cbn in H3.
      rewrite Hconn in *. rewrite decide_True by done. split_and!; [done | exact H2 | lia | lia].
    + destruct (Old d z' Hd Hz) as (z & Hz0 & R1 & R2 & R3 & _). rewrite <- (Look d Hd) in Hz0.
      destruct (h_call0 d z Hz0) as (H1 & H2 & H3 & H4). rewrite R1, R2, decide_False by (intros [_ ?]; congruence).
      split_and!; [done | auto | lia | done].
  - intros b d [Hd | (-> & ->)]%enq_elem; [| by exists x].
    destruct (h_in0 b d Hd) as (z & Hz & Ez). assert (d <> c) by (intros ->; by destruct (Hloose b)).
    rewrite Look in Hz by done. destruct (New d z ltac:(done) Hz) as (z' & ? & ?). exists z'. split; [done | congruence].
  - intros b d z' Hd Hz. destruct (decide (d = c)) as [-> | Hne]; [by replace z' with x by congruence |].
    destruct (Old d z' Hne Hz) as (z & Hz0 & _ & _ & _ & R & _). apply R. rewrite <- (Look d Hne) in Hz0. apply (h_send0 b d z); [| done].
    unfold upd in Hd. destruct (decide (b = a)) as [-> | ?]; [| done]. apply elem_of_app in Hd as [? | Hd]; [done |].
    apply elem_of_cons in Hd as [? | Hd]; [done | by apply elem_of_nil in Hd].
  - intros b. destruct (decide (b = a)) as [-> | ?]; [rewrite upd_eq | by rewrite upd_ne].
    rewrite <- app_assoc. cbn [app]. rewrite <- Permutation_middle. apply NoDup_cons. split; [by apply Hloose | apply h_nodup0].
  - intros b Hb. destruct (decide (b = a)) as [-> | ?].
    + exists y'. rewrite lookup_insert_eq. split; [done | congruence].
    + rewrite upd_ne in Hb by done. destruct (h_queued0 b Hb) as (z & Hz & ?). exists z. by rewrite lookup_insert_ne.
  - intros b z [(-> & ->) | (_ & Hz)]%get_insert; [| eauto]. rewrite E1, E2, E5, E6. eauto.
  - intros b z [(-> & ->) | (_ & Hz)]%get_insert; [| eauto]. rewrite E1. intros E. by rewrite E in Hopen.
  - intros b Hb. by apply insert_held, h_held0.
  - intros b z [(-> & ->) | (_ & Hz)]%get_insert; [| eauto]. rewrite E1. intros E. by rewrite E in Hopen.
  - intros b z [(-> & ->) | (Hb & Hz)]%get_insert Ho.
    + rewrite upd_eq, E8, E9. split; [done |]. destruct (h_open0 a y Hy Hopen) as [_ Q].
      eapply queue_ext; [| exact Q]. intros d Hd. assert (d <> c) by (intros ->; destruct (Hloose a); apply elem_of_app; auto).
      cbv beta. rewrite Look by done. destruct (h_in0 a d) as (z & Hz & _); [apply elem_of_app; auto |]. rewrite Look in Hz by done.
      specialize (Hkm d ltac:(done)). rewrite Hz in *. destruct Hkm as (z' & -> & _ & _ & _ & _ & R & _). cbn. by rewrite R.
    + rewrite upd_ne by done. destruct (h_open0 b z Hz Ho) as [Q1 Q2].
      assert (Same : forall d, d ∈ SQ b ++ RQ b -> (d <> c) /\ exists w w', km !! d = Some w /\ km1 !! d = Some w' /\
                sendq_next w' = sendq_next w /\ recvq_next w' = recvq_next w).
      { intros d Hd. assert (d <> c) by (intros ->; by destruct (Hloose b)). split; [done |].
        destruct (h_in0 b d Hd) as (w & Hw & Ew). rewrite Look in Hw by done. specialize (Hkm d ltac:(done)). rewrite Hw in Hkm.
        destruct Hkm as (w' & Hw' & _ & Ec & _ & _ & R1 & R2). exists w, w'. split_and!; try done. destruct R2 as [? | Hin]; [done |].
        destruct (h_in0 a d) as (v & Hv & Ev); [apply elem_of_app; auto |]. rewrite Look in Hv by done. congruence. }
      split; (eapply queue_ext; [| eassumption]); intros d Hd; (destruct (Same d) as (Hne & w & w' & S1 & S2 & S3 & S4); [apply elem_of_app; auto |]);
        cbv beta; rewrite Look by done; rewrite S1, S2; cbn; congruence.
  - intros b z [(-> & ->) | (_ & Hz)]%get_insert; [| eauto]. rewrite E1. eauto.
  - intros b z [(-> & ->) | (_ & Hz)]%get_insert; [done |]. intros Ho Hb. rewrite upd_ne by done. by apply h_seq0.
  - intros b z [(-> & ->) | (Hb & Hz)]%get_insert; [rewrite E1; tauto |]. rewrite upd_ne by done. eauto.
  - intros d b Hd. destruct (h_dy0 d b Hd) as (z & Hz & Ez). assert (d <> c) by (intros ->; rewrite lookup_insert_eq in Hz; injection Hz as <-; cbn in Ez; lia).
    rewrite Look in Hz by done. specialize (Hkm d ltac:(done)). rewrite Hz in Hkm. destruct Hkm as (z' & ? & ? & ? & _). exists z'. split_and!; [done | intuition congruence ..].
  - destruct h_ds0 as [N D]. split; [done |]. intros b Hb. destruct (D b Hb) as (z & Hz & Ez). destruct (decide (b = a)) as [-> | ?].
    + exists y'. rewrite lookup_insert_eq. split; [done |]. congruence.
    + exists z. by rewrite lookup_insert_ne.
Qed.
End Enqueue.

Lemma last_app_cons {X} (l l' : list X) x : last (l ++ x :: l') = last (x :: l').
Proof. induction l as [| a l IH]; [done |]. cbn [app]. destruct (l ++ x :: l') eqn:E; [by destruct l |]. by rewrite last_cons_cons. Qed.

Lemma queue_tail nx h t c l : queue nx h t (c :: l) ->
  h = c /\ exists q, nx c = Some q /\ forall t', (l <> [] -> t' = t) -> queue nx q t' l.
Proof.
  intros [(-> & H0 & q & E & Hl) Ht]. split; [done |]. exists q. split; [done |]. intros t' Ht'. split; [done |].
  intros Hne. specialize (Ht ltac:(done)). destruct l; [done |]. rewrite last_cons_cons in Ht. by rewrite Ht, Ht'.
Qed.

Lemma queue_snoc nx nx' h t l c :
  queue nx h t l -> NoDup l -> c <> 0 -> (c ∉ l) -> nx' c = Some 0 ->
  (forall d, d ∈ l -> d <> t -> nx' d = nx d) -> (l <> [] -> nx' t = Some c) ->
  queue nx' (if decide (l = []) then c else h) c (l ++ [c]).
Proof.
  intros [H1 H2] Hnd Hc Hin Hlast Hsame Hlink. split; [| intros _; by rewrite last_app_cons].
  destruct (decide (l = [])) as [-> | Hne]; [cbn; split_and!; [done | done | by exists 0] |].
  pose proof (chain_snoc nx h l t c H1 (H2 Hne) Hnd Hc Hin) as X. eapply chain_ext; [| exact X]. cbv beta.
  intros d [Hd | ->%list_elem_of_singleton]%elem_of_app.
  - destruct (decide (d = t)) as [-> | ?]; [by rewrite Hlink |]. rewrite decide_False by congruence. by rewrite Hsame.
  - rewrite decide_False; [by rewrite decide_True |]. intros ->. apply Hin. apply last_Some_elem_of. auto.
Qed.

(** What a change of a call may change while the calls of the queues [L] are linked anew. *)
Record relinked (L : list Z) (d : Z) (z z' : Call) : Prop := {
  rl_ref : c_ref z' = c_ref z;
  rl_conn : call_conn z' = call_conn z;
  rl_wf : call_wf z -> call_wf z';
  rl_sending : sending z -> sending z';
  rl_send : sendq_next z' = sendq_next z;
  rl_recv : recvq_next z' = recvq_next z \/ d ∈ L
}.

(** The first call of the send queue of [a] goes to the end of its receive queue. *)
Section Sent.
Context (hs ds hc : list Z) (dy : option (Z * Z)) (ex : Z) (SQ RQ : Z -> list Z) (cm : gmap Z Conn) (km km1 : gmap Z Call).
Context (a c : Z) (rest : list Z) (y y' : Conn) (x x' : Call).
Context (Hheap : heap_ok hs ds hc dy ex SQ RQ cm km).
Context (Hy : cm !! a = Some y) (Hopen : closing (state y) = false) (Hq : SQ a = c :: rest) (Hx : km !! c = Some x).

Abbreviation SQ1 := (upd SQ a rest).
Abbreviation RQ1 := (upd RQ a (RQ a ++ [c])).

Lemma sent_perm b : SQ1 b ++ RQ1 b ≡ₚ SQ b ++ RQ b.
Proof.
  destruct (decide (b = a)) as [-> | ?]; [rewrite !upd_eq, Hq | by rewrite !upd_ne].
  rewrite app_assoc. rewrite (Permutation_app_comm _ [c]). done.
Qed.

Lemma sent_elem b d : d ∈ SQ1 b ++ RQ1 b <-> d ∈ SQ b ++ RQ b.
Proof. by rewrite sent_perm. Qed.

Lemma heap_sent :
  (forall d, d <> c -> (match km !! d with Some z => exists z', km1 !! d = Some z' /\ relinked (RQ a) d z z' | None => km1 !! d = None end)) ->
  km1 !! c = Some x' -> c_ref x' = c_ref x -> call_conn x' = call_conn x -> (call_wf x -> call_wf x') ->
  s_ref y' = s_ref y -> sd y' = sd y -> myport y' = myport y -> content_length y' = content_length y ->
  seq_calls y' = seq_calls y -> seq_completed y' = seq_completed y -> seq_destroyed y' = seq_destroyed y ->
  closing (state y') = false -> before_reply (state y') = false ->
  queue (fun d => sendq_next <$> km1 !! d) (sendq y') (sendq_tail y') rest ->
  queue (fun d => recvq_next <$> km1 !! d) (recvq y') (recvq_tail y') (RQ a ++ [c]) ->
  heap_ok hs ds hc dy ex SQ1 RQ1 (<[a := y']> cm) km1.
Proof.
  intros Hkm Hkc X1 X2 X3 E1 E2 E3 E4 E5 E6 E7 O1 O2 Q1 Q2. destruct Hheap.
  assert (Old : forall d z', km1 !! d = Some z' -> exists z, km !! d = Some z /\ c_ref z' = c_ref z /\ call_conn z' = call_conn z /\
     (call_wf z -> call_wf z') /\ (d <> c -> sending z -> sending z')).
  { intros d z' Hz. destruct (decide (d = c)) as [-> | Hd].
    - exists x. replace z' with x' by congruence. done.
    - specialize (Hkm d Hd). destruct (km !! d) as [z |]; [| congruence]. destruct Hkm as (z'' & Ez & []).
      exists z. replace z' with z'' by congruence. done. }
  assert (New : forall d z, km !! d = Some z -> exists z', km1 !! d = Some z' /\ call_conn z' = call_conn z).
  { intros d z Hz. destruct (decide (d = c)) as [-> | Hd]; [exists x'; split; [done | congruence] |].
    specialize (Hkm d Hd). rewrite Hz in Hkm. destruct Hkm as (z' & ? & []). eauto. }
  assert (Nd : NoDup (c :: rest ++ RQ a)) by (pose proof (h_nodup0 a) as N; by rewrite Hq in N).
  constructor.
  - intros d z' Hz. destruct (Old d z' Hz) as (z & Hz0 & R1 & R2 & R3 & _). destruct (h_call0 d z Hz0) as (H1 & H2 & H3 & H4).
    rewrite R1, R2. rewrite (cnt_perm _ _ _ (sent_perm (call_conn z))). auto.
  - intros b d Hd%sent_elem. destruct (h_in0 b d Hd) as (z & Hz & Ez). destruct (New d z Hz) as (z' & ? & ?).
    exists z'. split; [done | congruence].
  - intros b d z' Hd Hz. destruct (Old d z' Hz) as (z & Hz0 & _ & _ & _ & R).
    destruct (decide (b = a)) as [-> | Hb].
    + rewrite upd_eq in Hd. apply R; [| apply (h_send0 a d z); [rewrite Hq; apply elem_of_cons; auto | done]].
      intros ->. apply NoDup_cons in Nd as [Nd _]. apply Nd, elem_of_app. auto.
    + rewrite upd_ne in Hd by done. apply R; [| by apply (h_send0 b d z)]. intros ->.
      destruct (h_in0 b c) as (w & Hw & Ew); [apply elem_of_app; auto |].
      destruct (h_in0 a c) as (v & Hv & Ev); [rewrite Hq; apply elem_of_cons; auto |]. congruence.
  - intros b. rewrite sent_perm. apply h_nodup0.
  - intros b Hb. destruct (decide (b = a)) as [-> | ?]; [exists y'; by rewrite lookup_insert_eq |].
    rewrite !upd_ne in Hb by done. destruct (h_queued0 b Hb) as (z & Hz & ?). exists z. by rewrite lookup_insert_ne.
  - intros b z [(-> & ->) | (_ & Hz)]%get_insert; [| eauto]. rewrite E1, E3, E4, O1. destruct (h_conn0 a y Hy) as (?&?&?&Hr).
    rewrite Hopen in Hr. auto.
  - intros b z [(-> & ->) | (_ & Hz)]%get_insert; [| eauto]. intros E. by rewrite E in O1.
  - intros b Hb. by apply insert_held, h_held0.
  - intros b z [(-> & ->) | (_ & Hz)]%get_insert; [| eauto]. intros E. by rewrite E in O1.
  - intros b z [(-> & ->) | (Hb & Hz)]%get_insert Ho; [by rewrite !upd_eq |]. rewrite !upd_ne by done.
    destruct (h_open0 b z Hz Ho) as [P1 P2].
    assert (Same : forall d, d ∈ SQ b ++ RQ b -> exists w w', km !! d = Some w /\ km1 !! d = Some w' /\
                sendq_next w' = sendq_next w /\ recvq_next w' = recvq_next w).
    { intros d Hd. destruct (h_in0 b d Hd) as (w & Hw & Ew).
      assert (Na : d ∉ SQ a ++ RQ a) by (intros Hin; destruct (h_in0 a d Hin) as (v & Hv & Ev); congruence).
      assert (d <> c) by (intros ->; apply Na; rewrite Hq; apply elem_of_cons; auto).
      specialize (Hkm d ltac:(done)). rewrite Hw in Hkm. destruct Hkm as (w' & Hw' & []). exists w, w'. split_and!; try done.
      destruct rl_recv0 as [? | Hin]; [done |]. destruct Na. apply elem_of_app. auto. }
    split; (eapply queue_ext; [| eassumption]); intros d Hd; (destruct (Same d) as (w & w' & S1 & S2 & S3 & S4); [apply elem_of_app; auto |]);
      cbv beta; rewrite S1, S2; cbn; congruence.
  - intros b z [(-> & ->) | (Hb & Hz)]%get_insert; [congruence |]. rewrite upd_ne by done. eauto.
  - intros b z [(-> & ->) | (Hb & Hz)]%get_insert; [| rewrite !upd_ne by done; eauto]. intros _ Hex. right.
    split_and!; [by intros E; rewrite E in O2 | by intros E; rewrite E in O2 |]. unfold seq_ok. rewrite E5, E6, E7.
    rewrite (Permutation_length (sent_perm a)). destruct (h_seq0 a y Hy Hopen Hex) as [(_ & N & _) | (_ & _ & Hs)]; [by rewrite Hq in N | exact Hs].
  - intros b z [(-> & ->) | (Hb & Hz)]%get_insert; [intros [E | E]; by rewrite E in O2 |]. rewrite upd_ne by done. eauto.
  - intros d b Hd. destruct (h_dy0 d b Hd) as (z & Hz & Ez). destruct (decide (d = c)) as [-> | Hdc].
    + exists x'. destruct Ez. split_and!; [done | congruence ..].
    + specialize (Hkm d Hdc). rewrite Hz in Hkm. destruct Hkm as (z' & ? & []), Ez. exists z'. split_and!; [done | congruence ..].
  - destruct h_ds0 as [N D]. split; [done |]. intros b Hb. destruct (D b Hb) as (z & Hz & Ez). destruct (decide (b = a)) as [-> | ?].
    + replace z with y in Ez by congruence. by rewrite Ez in Hopen.
    + exists z. by rewrite lookup_insert_ne.
Qed.
End Sent.

(** The first call of the receive queue of [a] is done: it leaves the queue with its last
    reference, and its connection counts it. *)
Section Received.
Context (hs ds : list Z) (ex : Z) (SQ RQ : Z -> list Z) (cm : gmap Z Conn) (km : gmap Z Call).
Context (a c : Z) (rest : list Z) (y y' : Conn) (x x' : Call).
Context (Hheap : heap_ok hs ds [] None ex SQ RQ cm km).
Context (Hy : cm !! a = Some y) (Hopen : closing (state y) = false) (Hq : RQ a = c :: rest) (Hx : km !! c = Some x).
Abbreviation RQ1 := (upd RQ a rest).

Lemma received_loose : loose SQ RQ1 c.
Proof.
  destruct Hheap. intros b. destruct (decide (b = a)) as [-> | Hb].
  - rewrite upd_eq. pose proof (h_nodup0 a) as N. rewrite Hq in N. rewrite <- Permutation_middle in N.
    by apply NoDup_cons in N as [N _].
  - rewrite upd_ne by done. intros Hin. destruct (h_in0 b c Hin) as (z & Hz & Ez).
    destruct (h_in0 a c) as (v & Hv & Ev); [apply elem_of_app; right; rewrite Hq; apply elem_of_cons; auto |]. congruence.
Qed.

Lemma received_ref : c_ref x = 1 /\ call_conn x = a.
Proof.
  destruct Hheap. destruct (h_in0 a c) as (z & Hz & Ez); [apply elem_of_app; right; rewrite Hq; apply elem_of_cons; auto |].
  assert (z = x) by congruence. subst z. destruct (h_call0 c x Hx) as (_ & _ & -> & _). split; [| done].
  rewrite Ez, (cnt_nodup c); [done | apply h_nodup0 | apply elem_of_app; right; rewrite Hq; apply elem_of_cons; auto].
Qed.

Lemma received_cnt b d : d <> c -> cnt d (SQ b ++ RQ1 b) = cnt d (SQ b ++ RQ b).
Proof.
  intros Hd. destruct (decide (b = a)) as [-> | Hb]; [| by rewrite upd_ne]. rewrite upd_eq, Hq, !cnt_app, count_cons.
  rewrite decide_False by congruence. lia.
Qed.

Lemma received_elem b d : d <> c -> d ∈ SQ b ++ RQ1 b <-> d ∈ SQ b ++ RQ b.
Proof. intros Hd. by rewrite !count_pos, received_cnt. Qed.

Lemma heap_received :
  c_ref x' = 0 -> call_conn x' = a -> (call_wf x -> call_wf x') ->
  s_ref y' = s_ref y -> phase (state y) (state y') -> sd y' = sd y -> myport y' = myport y -> content_length y' = content_length y ->
  seq_calls y' = seq_calls y -> seq_completed y' = seq_completed y + 1 -> seq_destroyed y' = seq_destroyed y ->
  sendq y' = sendq y -> sendq_tail y' = sendq_tail y ->
  queue (fun d => recvq_next <$> km !! d) (recvq y') (recvq_tail y') rest ->
  heap_ok hs ds [] (Some (c, a)) ex SQ RQ1 (<[a := y']> cm) (<[c := x']> km).
Proof.
  intros X1 X2 X3 E1 Est E2 E3 E4 E5 E6 E7 E8 E9 Q. pose proof received_loose as HL. pose proof received_ref as [Hr Hc].
  pose proof (phase_closing _ _ Est) as Hcl. pose proof (fun z => phase_is _ _ z Est) as His. pose proof (phase_before _ _ Est) as Hbf.
  destruct Hheap.
  assert (Hne : forall b d, d ∈ SQ b ++ RQ1 b -> d <> c) by (intros b d Hd ->; by destruct (HL b)).
  constructor.
  - intros d z [(-> & ->) | (Hd & Hz)]%get_insert.
    + destruct (h_call0 c x Hx) as (H1 & H2 & _). rewrite X1, (cnt_zero c) by apply HL. split_and!; [done | auto | done | eauto].
    + destruct (h_call0 d z Hz) as (H1 & H2 & H3 & H4). rewrite received_cnt by done. split_and!; [done | done | done |].
      intros H0. by destruct (H4 H0).
  - intros b d Hd. pose proof (Hne b d Hd) as Hdc. apply received_elem in Hd; [| done]. destruct (h_in0 b d Hd) as (z & Hz & Ez).
    exists z. by rewrite lookup_insert_ne.
  - intros b d z Hd [(-> & ->) | (_ & Hz)]%get_insert; [| eauto]. destruct (HL b). apply elem_of_app. auto.
  - intros b. destruct (decide (b = a)) as [-> | Hb]; [rewrite upd_eq | by rewrite upd_ne].
    pose proof (h_nodup0 a) as N. rewrite Hq in N. rewrite <- Permutation_middle in N. by apply NoDup_cons in N as [_ N].
  - intros b Hb. destruct (decide (b = a)) as [-> | ?]; [exists y'; rewrite lookup_insert_eq; split; [done | congruence] |].
    rewrite upd_ne in Hb by done. destruct (h_queued0 b Hb) as (z & Hz & ?). exists z. by rewrite lookup_insert_ne.
  - intros b z [(-> & ->) | (_ & Hz)]%get_insert; [| eauto]. rewrite E1, E3, E4, Hcl. by apply h_conn0.
  - intros b z [(-> & ->) | (_ & Hz)]%get_insert; [| eauto]. intros E. rewrite E in Hcl. by rewrite Hopen in Hcl.
  - intros b Hb. by apply insert_held, h_held0.
  - intros b z [(-> & ->) | (_ & Hz)]%get_insert; [| eauto]. intros E. rewrite E in Hcl. by rewrite Hopen in Hcl.
  - intros b z [(-> & ->) | (Hb & Hz)]%get_insert Ho.
    + rewrite upd_eq, E8, E9. destruct (h_open0 a y Hy Hopen) as [P1 _]. split.
      * eapply queue_ext; [| exact P1]. apply next_other. intros Hin. apply (Hne a c); [apply elem_of_app; auto | done].
      * eapply queue_ext; [| exact Q]. apply next_other. intros Hin. apply (Hne a c); [rewrite upd_eq; apply elem_of_app; auto | done].
    + destruct (h_open0 b z Hz Ho) as [P1 P2]. rewrite upd_ne by done.
      split; (eapply queue_ext; [| eassumption]); apply next_other; intros Hin; apply (Hne b c); try done; rewrite upd_ne by done; apply elem_of_app; auto.
  - intros b z [(-> & ->) | (Hb & Hz)]%get_insert; [| rewrite upd_ne by done; eauto]. intros Hbr. rewrite upd_eq.
    pose proof (h_state0 a y Hy (Hbf Hbr)) as N. by rewrite Hq in N.
  - intros b z [(-> & ->) | (Hb & Hz)]%get_insert Ho Hex.
    + right. destruct (h_seq0 a y Hy Hopen Hex) as [(_ & _ & N & _) | (H1 & H2 & H3)]; [by rewrite Hq in N |].
      rewrite !His by tauto. split_and!; [done | done |]. unfold seq_ok in *. rewrite E5, E6, E7, upd_eq. rewrite Hq in H3.
      cbn [pending] in *. rewrite decide_True by done. rewrite !length_app in *. cbn [length] in H3. lia.
    + cbn [pending]. rewrite decide_False by congruence. rewrite upd_ne by done. cbn [pending] in h_seq0. by apply h_seq0.
  - intros b z [(-> & ->) | (Hb & Hz)]%get_insert; [rewrite !His, E5 by tauto |]; eauto.
  - intros d b [= <- <-]. exists x'. rewrite lookup_insert_eq. split_and!; [done | done |]. destruct (h_conn0 a y Hy). lia.
  - destruct h_ds0 as [N D]. split; [done |]. intros b Hb. destruct (D b Hb) as (z & Hz & Ez). destruct (decide (b = a)) as [-> | ?].
    + replace z with y in Ez by congruence. by rewrite Ez in Hopen.
    + exists z. by rewrite lookup_insert_ne.
Qed.
End Received.

(** The call that is being destroyed is freed. *)
Lemma heap_freed hs ds ex SQ RQ cm km c b0 x :
  b0 <= 0 -> heap_ok hs ds [] (Some (c, b0)) ex SQ RQ cm km -> km !! c = Some x -> c_ref x = 0 ->
  heap_ok hs ds [] None ex SQ RQ cm (delete c km).
Proof.
  intros Hb0 [] Hx Hr.
  assert (HL : loose SQ RQ c).
  { intros b Hb. destruct (h_in0 b c Hb) as (z & Hz & Ez). assert (z = x) by congruence. subst z.
    destruct (h_call0 c x Hx) as (_ & _ & E & _). rewrite Ez in E. apply count_pos in Hb. pose proof (cnt_nonneg c []). lia. }
  assert (Hne : forall b d, d ∈ SQ b ++ RQ b -> d <> c) by (intros b d Hd ->; by destruct (HL b)).
  assert (Del : forall d z, delete c km !! d = Some z -> d <> c /\ km !! d = Some z) by (intros d z; by rewrite lookup_delete_Some; intros [? ?]).
  constructor; try done.
  - intros d z [Hd Hz]%Del. destruct (h_call0 d z Hz) as (H1 & H2 & H3 & H4). split_and!; try done.
    intros H0. destruct (H4 H0) as (b & [= ? ?]). congruence.
  - intros b d Hd. destruct (h_in0 b d Hd) as (z & Hz & Ez). exists z. rewrite lookup_delete_ne; [done |]. intros <-. by apply (Hne b c).
  - intros b d z Hd [_ Hz]%Del. eauto.
  - intros b z Hz Ho. destruct (h_open0 b z Hz Ho) as [Q1 Q2].
    split; (eapply queue_ext; [| eassumption]); intros d Hd; cbv beta; rewrite lookup_delete_ne; try done; intros <-;
      apply (Hne b c); try done; apply elem_of_app; auto.
  - intros b z Hz Ho Hex. cbn [pending]. destruct (h_seq0 b z Hz Ho Hex) as [(? & ? & ? & _) | (? & ? & Hs)]; [by left | right].
    cbn [pending] in Hs. rewrite decide_False in Hs; [done |]. destruct (h_conn0 b z Hz). lia.
Qed.

(** A connection is closed: its queues are gone, with the calls that nobody else holds, and
    its reference is one that is held. *)
Lemma heap_close hs ds hc dy ex SQ RQ cm km km' a y y' :
  heap_ok hs ds hc dy ex SQ RQ cm km -> cm !! a = Some y -> closing (state y) = false ->
  (forall d, d ∈ SQ a ++ RQ a -> km' !! d = None) -> (forall d, (d ∉ SQ a ++ RQ a) -> km' !! d = km !! d) ->
  state y' = S_CLOSING -> sendq y' = 0 -> recvq y' = 0 -> sd y' = -1 -> watchdog y' = 0 ->
  s_ref y' = s_ref y -> myport y' = myport y -> content_length y' = content_length y ->
  heap_ok (a :: hs) ds hc dy ex (upd SQ a []) (upd RQ a []) (<[a := y']> cm) km'.
Proof.
  intros [] Hy Hopen Hgone Hkeep E1 E2 E3 E4 E5 E6 E7 E8.
  assert (Hcnt : forall b, b <> a -> cnt b (a :: hs) = cnt b hs) by (intros; rewrite count_cons, decide_False by congruence; lia).
  assert (Keep : forall d z, km' !! d = Some z -> (d ∉ SQ a ++ RQ a) /\ km !! d = Some z).
  { intros d z Hz. destruct (decide (d ∈ SQ a ++ RQ a)) as [Hd | Hd]; [rewrite Hgone in Hz by done; done |]. by rewrite <- Hkeep. }
  assert (Other : forall b d, b <> a -> d ∈ SQ b ++ RQ b -> d ∉ SQ a ++ RQ a).
  { intros b d Hb Hd Hin. destruct (h_in0 b d Hd) as (z & Hz & Ez). destruct (h_in0 a d Hin) as (w & Hw & Ew). congruence. }
  assert (Same : forall b, (b <> a -> upd SQ a [] b ++ upd RQ a [] b = SQ b ++ RQ b)) by (intros; by rewrite !upd_ne).
  constructor.
  - intros d z [Hd Hz]%Keep. destruct (h_call0 d z Hz) as (H1 & H2 & H3 & H4). split_and!; try done.
    destruct (decide (call_conn z = a)) as [E | E]; [| by rewrite Same]. rewrite E, !upd_eq. rewrite E, (cnt_zero d) in H3 by done.
    rewrite (cnt_zero d); [done | by intros ?%elem_of_nil].
  - intros b d Hd. destruct (decide (b = a)) as [-> | Hb]; [rewrite !upd_eq in Hd; by apply elem_of_nil in Hd |].
    rewrite Same in Hd by done. destruct (h_in0 b d Hd) as (z & Hz & Ez). exists z. rewrite Hkeep; [done | by apply (Other b)].
  - intros b d z Hd [_ Hz]%Keep. destruct (decide (b = a)) as [-> | Hb]; [rewrite upd_eq in Hd; by apply elem_of_nil in Hd |].
    rewrite upd_ne in Hd by done. eauto.
  - intros b. destruct (decide (b = a)) as [-> | Hb]; [rewrite !upd_eq; apply NoDup_nil_2 | by rewrite Same].
  - intros b Hb. destruct (decide (b = a)) as [-> | Hba]; [by rewrite !upd_eq in Hb |]. rewrite Same in Hb by done.
    destruct (h_queued0 b Hb) as (z & Hz & ?). exists z. by rewrite lookup_insert_ne.
  - intros b z [(-> & ->) | (Hb & Hz)]%get_insert.
    + destruct (h_conn0 a y Hy) as (H1 & H2 & H3 & H4). rewrite E6, E7, E8, E1, count_cons, decide_True by done. rewrite Hopen in H4.
      change (closing S_CLOSING) with true. cbv iota. split_and!; try tauto; lia.
    + rewrite Hcnt by done. by apply h_conn0.
  - intros b z [(-> & ->) | (Hb & Hz)]%get_insert; [congruence | eauto].
  - intros b [-> | Hb]%elem_of_cons; [exists y'; by rewrite lookup_insert_eq | by apply insert_held, h_held0].
  - intros b z [(-> & ->) | (Hb & Hz)]%get_insert; intros Hc.
    + split_and!; try done. apply elem_of_cons. auto.
    + destruct (h_closing0 b z Hz Hc) as (? & ? & ? & ? & ?). split_and!; try done. apply elem_of_cons. auto.
  - intros b z [(-> & ->) | (Hb & Hz)]%get_insert Ho; [by rewrite E1 in Ho |]. destruct (h_open0 b z Hz Ho) as [Q1 Q2].
    rewrite !upd_ne by done. split; (eapply queue_ext; [| eassumption]); intros d Hd; cbv beta;
      (rewrite Hkeep; [done |]); apply (Other b); try done; apply elem_of_app; auto.
  - intros b z [(-> & ->) | (Hb & Hz)]%get_insert; [by rewrite E1 |]. rewrite upd_ne by done. eauto.
  - intros b z [(-> & ->) | (Hb & Hz)]%get_insert Ho; [by rewrite E1 in Ho |]. rewrite !upd_ne by done. by apply h_seq0.
  - intros b z [(-> & ->) | (Hb & Hz)]%get_insert; [rewrite E1; intros [? | ?]; done |]. rewrite upd_ne by done. eauto.
  - intros d b Hd. destruct (h_dy0 d b Hd) as (z & Hz & Ez). exists z. rewrite Hkeep; [done |]. intros Hin.
    destruct (h_in0 a d Hin) as (w & Hw & Ew). assert (w = z) by congruence. subst w.
    destruct (h_call0 d z Hz) as (_ & _ & E & _). rewrite Ew in E. apply count_pos in Hin. pose proof (cnt_nonneg d hc). lia.
  - destruct h_ds0 as [N D]. split; [done |]. intros b Hb. destruct (D b Hb) as (z & Hz & Ez). destruct (decide (b = a)) as [-> | ?].
    + replace z with y in Ez by congruence. by rewrite Ez in Hopen.
    + exists z. by rewrite lookup_insert_ne.
Qed.

(** Changes of connections whose queues stay: all that is asked of the new connection. *)
Section Conns.
Context (hs hs' ds ds' hc : list Z) (dy : option (Z * Z)) (ex : Z) (SQ RQ : Z -> list Z) (cm cm' : gmap Z Conn) (km : gmap Z Call).

Lemma heap_conns a :
  heap_ok hs ds hc dy ex SQ RQ cm km ->
  (forall b, b <> a -> cm' !! b = cm !! b /\ cnt b hs' = cnt b hs /\ (b ∈ ds' <-> b ∈ ds)) ->
  NoDup ds' ->
  (match cm' !! a with
   | None => SQ a ++ RQ a = [] /\ (a ∉ hs') /\ (a ∉ ds')
   | Some y =>
       (SQ a ++ RQ a <> [] -> closing (state y) = false) /\
       0 < a /\ myport y = -1 /\ 0 <= content_length y <= HttpReply.SIZE_MAX /\
       s_ref y = (if closing (state y) then 0 else 1) + cnt a hs' /\
       (state y = S_FREE <-> a ∈ ds') /\ (state y = S_FREE -> s_ref y = 0 /\ watchdog y = 0) /\
       (state y = S_CLOSING -> sendq y = 0 /\ recvq y = 0 /\ sd y = -1 /\ watchdog y = 0 /\ a ∈ hs') /\
       (closing (state y) = false ->
          queue (fun c => sendq_next <$> km !! c) (sendq y) (sendq_tail y) (SQ a) /\
          queue (fun c => recvq_next <$> km !! c) (recvq y) (recvq_tail y) (RQ a)) /\
       (before_reply (state y) = true -> RQ a = []) /\
       (closing (state y) = false -> a <> ex ->
          (seq_calls y = 0 /\ SQ a = [] /\ RQ a = [] /\ pending dy a = 0) \/
          (state y <> S_INITIAL /\ state y <> S_CONNECTING /\
             seq_ok param y (Z.of_nat (length (SQ a ++ RQ a))) (pending dy a))) /\
       (state y = S_INITIAL \/ state y = S_CONNECTING -> seq_calls y = 0 /\ SQ a = [])
   end) ->
  heap_ok hs' ds' hc dy ex SQ RQ cm' km.
Proof.
  intros [] Hcm Hnd Ha.
  assert (Other : forall b z, cm' !! b = Some z -> (b = a /\ cm' !! a = Some z) \/ (b <> a /\ cm !! b = Some z)).
  { intros b z Hz. destruct (decide (b = a)) as [-> | Hb]; [auto | right]. destruct (Hcm b Hb) as [<- _]. auto. }
  constructor; try assumption.
  - intros b Hb. destruct (decide (b = a)) as [-> | Hba].
    + destruct (cm' !! a) as [y |]; [exists y; tauto | by destruct Ha].
    + destruct (Hcm b Hba) as (-> & _). auto.
  - intros b z [(-> & Hz) | (Hb & Hz)]%Other; [rewrite Hz in Ha; tauto |]. destruct (Hcm b Hb) as (_ & -> & _). auto.
  - intros b z [(-> & Hz) | (Hb & Hz)]%Other; [rewrite Hz in Ha; tauto |]. destruct (Hcm b Hb) as (_ & _ & ->). auto.
  - intros b Hb. destruct (decide (b = a)) as [-> | Hba].
    + destruct (cm' !! a) as [y |]; [by exists y | by destruct Ha as (_ & ? & _)].
    + destruct (Hcm b Hba) as (-> & E & _). apply h_held0, count_pos. rewrite <- E. by apply count_pos.
  - intros b z [(-> & Hz) | (Hb & Hz)]%Other; [rewrite Hz in Ha; tauto |]. intros Hc. destruct (h_closing0 b z Hz Hc) as (?&?&?&?&?).
    destruct (Hcm b Hb) as (_ & E & _). split_and!; try done. apply count_pos. rewrite E. by apply count_pos.
  - intros b z [(-> & Hz) | (Hb & Hz)]%Other; [rewrite Hz in Ha; tauto | auto].
  - intros b z [(-> & Hz) | (Hb & Hz)]%Other; [rewrite Hz in Ha; tauto | eauto].
  - intros b z [(-> & Hz) | (Hb & Hz)]%Other; [rewrite Hz in Ha; tauto | auto].
  - intros b z [(-> & Hz) | (Hb & Hz)]%Other; [rewrite Hz in Ha; tauto | eauto].
  - split; [done |]. intros b Hb. destruct (decide (b = a)) as [-> | Hba].
    + destruct (cm' !! a) as [y |]; [exists y; tauto | by destruct Ha as (_ & _ & ?)].
    + destruct (Hcm b Hba) as (-> & _ & E). apply h_ds0. by apply E.
Qed.
End Conns.
End Heap.
End HttperfHeap.
