(* ===== verification/HttperfSteps.v ===== *)
(** * httperf/src: events and the steps that issue calls

    The handlers that the configuration registers, what each event does, and that making,
    queueing and releasing calls keeps the invariant. *)
From S2P Require Import Prelude Doubles HttpReply HttpReplyTotal Ports AddrTable BasicStats BasicStatsTheorems HttperfState Httperf HttperfRequest HttperfInv HttperfFrame.

Module HttperfSteps.
Import HttperfState Httperf HttperfRequest HttperfInv HttperfFrame HttperfHeap.

(** ** The handlers of each event *)
Definition handlers_of (param : Cmdline_Params) (e : Event_Type) : list Event_Handler :=
  match e with
  | EV_PERF_SAMPLE => [basic_perf_sample]
  | EV_CONN_FAILED => [basic_conn_fail]
  | EV_CONN_TIMEOUT => [basic_conn_timeout]
  | EV_CONN_NEW => [basic_conn_created]
  | EV_CONN_CONNECTING => [basic_conn_connecting]
  | EV_CONN_CONNECTED => [basic_conn_connected; call_seq_conn_connected]
  | EV_CONN_DESTROYED => [basic_conn_destroyed; conn_rate_destroyed] ++
      (if fltb fzero (rate_param param) then [] else [rate_done])
  | EV_CALL_NEW => [uri_fixed_set_uri] ++
      (match additional_header param, method param with None, None => [] | _, _ => [misc_call_created] end)
  | EV_CALL_SEND_START => [basic_send_start]
  | EV_CALL_SEND_STOP => [basic_send_stop]
  | EV_CALL_RECV_START => [basic_recv_start]
  | EV_CALL_RECV_STOP => [basic_recv_stop; call_seq_call_done]
  | EV_CALL_DESTROYED => [call_seq_call_destroyed]
  | _ => []
  end.

(** The handlers that [hs] registers for [e]. *)
Definition registered (e : Event_Type) (hs : list (Event_Type * Event_Handler)) : list Event_Handler :=
  map snd (filter (fun p => p.1 = e) hs).

Lemma register_all_ok hs : forall act0,
  (forall e, length (act0 e) + length (registered e hs) <= MAX_NUM_OPS)%nat ->
  exists act, register_all hs act0 = Ret act /\ forall e, act e = act0 e ++ registered e hs.
Proof.
  induction hs as [| [e0 h] hs IH]; intros act0 H; cbn [register_all].
  - exists act0. split; [done |]. intros e. by rewrite app_nil_r.
  - unfold event_register_handler. destruct (Nat.leb_spec MAX_NUM_OPS (length (act0 e0))) as [L | L].
    { specialize (H e0). unfold registered in H. rewrite filter_cons_True in H by done. cbn [map length] in H. lia. }
    rewrite bind_Ret. destruct (IH (fun e => if decide (e = e0) then act0 e0 ++ [h] else act0 e)) as (act & E & F).
    + intros e. specialize (H e). unfold registered in *. destruct (decide (e = e0)) as [-> | Hne].
      * rewrite filter_cons_True in H by done. cbn [map length] in H. rewrite length_app. cbn [length]. lia.
      * rewrite filter_cons_False in H by (cbn; congruence). done.
    + exists act. split; [done |]. intros e. rewrite F. unfold registered. destruct (decide (e = e0)) as [-> | Hne].
      * rewrite filter_cons_True by done. cbn [map]. by rewrite <- app_assoc.
      * rewrite filter_cons_False by (cbn; congruence). done.
Qed.

Lemma registrations_ok param :
  exists act, registrations param = Ret act /\ forall e, act e = handlers_of param e.
Proof.
  assert (E : forall e, registered e (stats_init ++ call_seq_init ++ uri_fixed_init ++ conn_rate_init ++
      misc_init param ++ rate_init param) = handlers_of param e).
  { intros e. unfold misc_init, rate_init, handlers_of.
    destruct (additional_header param), (method param), (fltb fzero (rate_param param)), e; reflexivity. }
  destruct (register_all_ok _ (fun _ => []) (fun e => ltac:(rewrite E; destruct e; cbn [handlers_of app length];
    unfold MAX_NUM_OPS; try lia; destruct (additional_header param), (method param), (fltb fzero (rate_param param)); cbn [length app]; lia)))
    as (act & E1 & E2).
  exists act. split; [exact E1 |]. intros e. by rewrite E2, E.
Qed.

(** Sets of descriptors. *)
Lemma in_add (fd sd : Z) (X : gset Z) : fd <> sd -> (fd ∈ X ∪ {[sd]} <-> fd ∈ X).
Proof. intros. rewrite elem_of_union, elem_of_singleton. tauto. Qed.
Lemma in_added (sd : Z) (X : gset Z) : sd ∈ X ∪ {[sd]}.
Proof. rewrite elem_of_union, elem_of_singleton. auto. Qed.
Lemma in_del (fd sd : Z) (X : gset Z) : fd <> sd -> (fd ∈ X ∖ {[sd]} <-> fd ∈ X).
Proof. intros. rewrite elem_of_difference, elem_of_singleton. tauto. Qed.
Lemma not_in_deleted (sd : Z) (X : gset Z) : sd ∉ X ∖ {[sd]}.
Proof. rewrite elem_of_difference, elem_of_singleton. tauto. Qed.

Section Steps.
Context {W A : Type} (sys : system W A) (param : Cmdline_Params) (hash_table : AddrTable.table A).
Context (act : action).
Context (opened : W -> gset Z) (seen : W -> Time -> Prop).
Context (Hact : forall e, act e = handlers_of param e) (Hpar : params_ok param) (Hsys : system_ok sys opened seen).
Implicit Types s : st W.
Abbreviation inv := (inv param opened seen).
Abbreviation signal := (event_signal sys param hash_table act).

(** Access to an object that is there. *)
Lemma conn_at_eq a y s : conns s !! a = Some y -> conn_at a s = Ret y.
Proof. unfold conn_at. by intros ->. Qed.
Lemma call_at_eq c x s : calls s !! c = Some x -> call_at c s = Ret x.
Proof. unfold call_at. by intros ->. Qed.
Lemma upd_conn_eq a f y s : conns s !! a = Some y -> upd_conn a f s = Ret (set_conns (<[a := f y]> (conns s)) s).
Proof. intros H. unfold upd_conn. by rewrite (conn_at_eq a y s H), bind_Ret. Qed.
Lemma upd_call_eq c f x s : calls s !! c = Some x -> upd_call c f s = Ret (set_calls (<[c := f x]> (calls s)) s).
Proof. intros H. unfold upd_call. by rewrite (call_at_eq c x s H), bind_Ret. Qed.
Lemma bump_eq x : x < INT_MAX -> bump x = Ret (x + 1).
Proof. unfold bump. intros. destruct (Z.ltb_spec x INT_MAX); [done | lia]. Qed.

(** An object is replaced. *)
Definition put_call (c : Z) (x : Call) s : st W := set_calls (<[c := x]> (calls s)) s.
Definition put_conn (a : Z) (y : Conn) s : st W := set_conns (<[a := y]> (conns s)) s.

Lemma upd_call_at c f x s : calls s !! c = Some x -> upd_call c f s = Ret (put_call c (f x) s).
Proof. apply upd_call_eq. Qed.
Lemma upd_conn_at a f y s : conns s !! a = Some y -> upd_conn a f s = Ret (put_conn a (f y) s).
Proof. apply upd_conn_eq. Qed.
Lemma upd_call_put c f x s : upd_call c f (put_call c x s) = Ret (put_call c (f x) s).
Proof. unfold put_call. rewrite (upd_call_eq c f x) by apply lookup_insert_eq. cbn. by rewrite insert_insert_eq. Qed.
Lemma upd_conn_put a f y s : upd_conn a f (put_conn a y s) = Ret (put_conn a (f y) s).
Proof. unfold put_conn. rewrite (upd_conn_eq a f y) by apply lookup_insert_eq. cbn. by rewrite insert_insert_eq. Qed.
Lemma upd_call_put_conn c f x a y s :
  upd_call c f (put_conn a y (put_call c x s)) = Ret (put_conn a y (put_call c (f x) s)).
Proof. unfold put_conn, put_call. rewrite (upd_call_eq c f x) by apply lookup_insert_eq. cbn. by rewrite insert_insert_eq. Qed.
Lemma call_at_put c x s : call_at c (put_call c x s) = Ret x.
Proof. apply call_at_eq, lookup_insert_eq. Qed.
Lemma conn_at_put a y s : conn_at a (put_conn a y s) = Ret y.
Proof. apply conn_at_eq, lookup_insert_eq. Qed.
Lemma put_call_get c x s : calls (put_call c x s) !! c = Some x.
Proof. apply lookup_insert_eq. Qed.
Lemma put_conn_get a y s : conns (put_conn a y s) !! a = Some y.
Proof. apply lookup_insert_eq. Qed.
Lemma put_call_twice c x x' s : put_call c x' (put_call c x s) = put_call c x' s.
Proof. unfold put_call. cbn. by rewrite insert_insert_eq. Qed.
Lemma put_conn_twice a y y' s : put_conn a y' (put_conn a y s) = put_conn a y' s.
Proof. unfold put_conn. cbn. by rewrite insert_insert_eq. Qed.
Lemma put_call_id c x s : calls s !! c = Some x -> put_call c x s = s.
Proof. intros H. unfold put_call. rewrite insert_id by done. by destruct s. Qed.
Lemma put_conn_id a y s : conns s !! a = Some y -> put_conn a y s = s.
Proof. intros H. unfold put_conn. rewrite insert_id by done. by destruct s. Qed.

Lemma bind_id (r : cres (st W)) : (r ≫= (fun s => Ret s)) = r.
Proof. by destruct r. Qed.

(** Events without handlers, and with one that changes one thing. *)
Lemma signal_quiet n e o arg s : handlers_of param e = [] -> signal (S n) e o arg s = Ret s.
Proof. intros E. cbn [event_signal]. by rewrite Hact, E. Qed.

Ltac one_handler := cbn [event_signal]; rewrite Hact; cbn [handlers_of run_handlers run_handler basic_handler].

Lemma signal_send_start n c x s : calls s !! c = Some x ->
  signal (S n) EV_CALL_SEND_START c NoArg s = Ret (set_calls (<[c := set_time_send_start (now s) x]> (calls s)) s).
Proof. intros H. one_handler. by rewrite (upd_call_eq c _ x), bind_Ret. Qed.
Lemma signal_send_stop n c x s : calls s !! c = Some x ->
  signal (S n) EV_CALL_SEND_STOP c NoArg s = Ret (set_basic (BasicStats.send_stop (req_size x) (basic s)) s).
Proof. intros H. one_handler. by rewrite (call_at_eq c x), bind_Ret. Qed.
Lemma signal_recv_start n c x s : calls s !! c = Some x ->
  signal (S n) EV_CALL_RECV_START c NoArg s =
    Ret (set_calls (<[c := set_time_recv_start (now s) x]> (calls s))
           (set_basic (BasicStats.recv_start (now s) (time_send_start x) (basic s)) s)).
Proof. intros H. one_handler. rewrite (call_at_eq c x), bind_Ret by done. by rewrite (upd_call_eq c _ x). Qed.
Lemma signal_failed n a e s :
  signal (S n) EV_CONN_FAILED a (IntArg e) s = Ret (set_basic (BasicStats.conn_fail e (basic s)) s).
Proof. by one_handler. Qed.
Lemma signal_timeout n a s :
  signal (S n) EV_CONN_TIMEOUT a NoArg s = Ret (set_basic (BasicStats.conn_timeout (basic s)) s).
Proof. by one_handler. Qed.
Lemma signal_conn_new n a s :
  signal (S n) EV_CONN_NEW a NoArg s = Ret (set_basic (BasicStats.conn_created (basic s)) s).
Proof. by one_handler. Qed.
Lemma signal_connecting n a y s : conns s !! a = Some y ->
  signal (S n) EV_CONN_CONNECTING a NoArg s =
    Ret (set_basic (BasicStats.conn_connecting (basic s)) (set_conns (<[a := set_time_connect_start (now s) y]> (conns s)) s)).
Proof. intros H. one_handler. by rewrite (upd_conn_eq a _ y), bind_Ret. Qed.
Lemma signal_connected n a y s : conns s !! a = Some y ->
  signal (S n) EV_CONN_CONNECTED a NoArg s =
    issue_calls param (signal n) a (set_basic (BasicStats.conn_connected (now s) (time_connect_start y) (basic s)) s).
Proof.
  intros H. one_handler. rewrite (conn_at_eq a y), bind_Ret by done.
  change (run_handler sys param hash_table (signal n) call_seq_conn_connected a NoArg) with (issue_calls param (signal n) a).
  rewrite bind_Ret. apply bind_id.
Qed.
Lemma signal_call_destroyed n c s :
  signal (S n) EV_CALL_DESTROYED c NoArg s = call_destroyed sys param (signal n) c s.
Proof. one_handler. apply bind_id. Qed.

(** ** set_active *)
Lemma set_watchdog_id (y : Conn) : set_watchdog (watchdog y) y = y.
Proof. by destruct y. Qed.
Lemma set_conns_id s : set_conns (conns s) s = s.
Proof. by destruct s. Qed.
Lemma set_timers_id s : set_timers (timers s) (set_next_timer (next_timer s) s) = s.
Proof. by destruct s. Qed.

(** The state after [set_active]: a descriptor more, the range of descriptors, maybe a timer. *)
Definition activated (a : Z) (f : fdset) (y : Conn) (w : Z) (m : gmap Z (callback * Time)) (k i j : Z) s : st W :=
  set_conns (<[a := set_watchdog w y]> (conns s)) (set_timers m (set_next_timer k
    (set_max_sd j (set_min_sd i (put_fds f (get_fds f s ∪ {[sd y]}) s))))).

Lemma first_timeout_returns y s :
  (sendq y = 0 \/ exists x, calls s !! sendq y = Some x) -> (recvq y = 0 \/ exists x, calls s !! recvq y = Some x) ->
  exists t, first_timeout y s = Ret t.
Proof.
  intros H1 H2. unfold first_timeout.
  assert (E1 : exists t, (if sendq y =? 0 then Ret fzero else c ← call_at (sendq y) s; Ret (timeout c)) = Ret t).
  { destruct (Z.eqb_spec (sendq y) 0); [eauto |]. destruct H1 as [? | (x & Hx)]; [done |]. rewrite (call_at_eq _ x), bind_Ret by done. eauto. }
  destruct E1 as (t & ->). rewrite bind_Ret. destruct (Z.eqb_spec (recvq y) 0); [eauto |].
  destruct H2 as [? | (x & Hx)]; [done |]. rewrite (call_at_eq _ x), bind_Ret by done. eauto.
Qed.

Lemma timers_more a y w d s :
  conns s !! a = Some y -> watchdog y = 0 -> w = next_timer s -> timers_ok param s ->
  timers_ok param (set_conns (<[a := set_watchdog w y]> (conns s))
    (set_timers (<[w := (conn_timeout_cb a, d)]> (timers s)) (set_next_timer (w + 1) s))).
Proof.
  intros Ha Hw -> []. assert (Hfree : timers s !! next_timer s = None).
  { destruct (timers s !! next_timer s) as [cb |] eqn:E; [| done]. apply t_range0 in E. lia. }
  constructor; cbn.
  - intros b z [(-> & ->) | (Hne & Hz)]%get_insert Hw2; cbn.
    + exists d. by rewrite lookup_insert_eq.
    + destruct (t_conn0 b z Hz Hw2) as (d' & Hd'). exists d'. rewrite lookup_insert_ne; [done |].
      intros E. rewrite <- E in Hd'. congruence.
  - intros t b d' [(-> & [= -> ->]) | (Hne & Hz)]%get_insert.
    + exists (set_watchdog (next_timer s) y). by rewrite lookup_insert_eq.
    + destruct (t_timer0 t b d' Hz) as (z & Hz2 & Ez). exists z. rewrite lookup_insert_ne; [done |].
      intros <-. assert (z = y) by congruence. subst z. rewrite Hw in Ez. subst t. apply t_range0 in Hz. lia.
  - intros t cb [(-> & ->) | (Hne & Hz)]%get_insert; [lia |]. apply t_range0 in Hz. lia.
  - lia.
  - intros t e [(-> & ?) | (Hne & Hz)]%get_insert; [done | eauto].
Qed.

Lemma timers_same s s' : conns s' = conns s -> timers s' = timers s -> next_timer s' = next_timer s -> timers_ok param s -> timers_ok param s'.
Proof. intros E1 E2 E3 []. constructor; rewrite ?E1, ?E2, ?E3; assumption. Qed.

Lemma set_active_ok a f y s :
  conns s !! a = Some y -> 0 <= sd y < FD_SETSIZE ->
  (sendq y = 0 \/ exists x, calls s !! sendq y = Some x) -> (recvq y = 0 \/ exists x, calls s !! recvq y = Some x) ->
  timers_ok param s ->
  exists w m k i j, set_active a f s = Ret (activated a f y w m k i j s) /\
    i <= sd y <= j /\ (i <= min_sd s /\ Z.min (sd y) (min_sd s) <= i) /\ max_sd s <= j /\ timers_ok param (activated a f y w m k i j s) /\
    (sendq y = 0 -> recvq y = 0 -> w = watchdog y /\ m = timers s /\ k = next_timer s).
Proof.
  intros Ha Hsd H1 H2 Ht. unfold set_active. rewrite (conn_at_eq a y), bind_Ret by done.
  unfold FD_SET. destruct (Z.leb_spec 0 (sd y)), (Z.ltb_spec (sd y) FD_SETSIZE); try lia. cbn [andb]. rewrite bind_Ret.
  set (s1 := put_fds f (get_fds f s ∪ {[sd y]}) s).
  set (s2 := if sd y <? min_sd s1 then set_min_sd (sd y) s1 else s1).
  set (s3 := if max_sd s2 <=? sd y then set_max_sd (sd y) s2 else s2).
  assert (F1 : min_sd s1 = min_sd s /\ max_sd s1 = max_sd s /\ conns s1 = conns s /\ calls s1 = calls s /\ timers s1 = timers s /\ next_timer s1 = next_timer s /\ now s1 = now s)
    by (unfold s1; destruct f; done).
  assert (E3 : exists i j, s3 = set_max_sd j (set_min_sd i s1) /\ i <= sd y <= j /\ (i <= min_sd s /\ Z.min (sd y) (min_sd s) <= i) /\ max_sd s <= j).
  { destruct F1 as (<- & <- & _). unfold s3, s2.
    exists (if sd y <? min_sd s1 then sd y else min_sd s1), (if max_sd s1 <=? sd y then sd y else max_sd s1).
    destruct (Z.ltb_spec (sd y) (min_sd s1)); cbn [max_sd set_min_sd];
      destruct (Z.leb_spec (max_sd s1) (sd y)); split_and!; try lia; destruct s1; done. }
  clearbody s3. clear s2. destruct E3 as (i & j & -> & Hi & Hi2 & Hj). destruct F1 as (_ & _ & Ec & Ek & Et & En & Enow).
  set (s3 := set_max_sd j (set_min_sd i s1)).
  assert (Ht3 : timers_ok param s3) by (eapply timers_same; [.. | exact Ht]; assumption).
  assert (Hid : activated a f y (watchdog y) (timers s) (next_timer s) i j s = s3).
  { unfold activated. fold s1. fold s3. rewrite set_watchdog_id, insert_id by done. rewrite <- Et, <- En, <- Ec.
    unfold s3. by destruct s1. }
  destruct (Z.eqb_spec (watchdog y) 0) as [E0 | E0]; cbn [negb].
  2: { exists (watchdog y), (timers s), (next_timer s), i, j. rewrite Hid. done. }
  destruct (first_timeout_returns y s3) as (t & Eft); [cbn; by rewrite Ek | cbn; by rewrite Ek |].
  rewrite Eft, bind_Ret. destruct (fltb fzero t) eqn:Elt.
  - unfold timer_schedule. cbn [next_timer s3 set_max_sd set_min_sd timers].
    rewrite (upd_conn_eq a _ y) by (cbn; by rewrite Ec).
    eexists (next_timer s), (<[next_timer s := _]> (timers s)), (next_timer s + 1), i, j.
    unfold activated. fold s1. fold s3. cbn. rewrite Ec, Et, En. split_and!; try done; try lia.
    { pose proof (timers_more a y (next_timer s) (fsub t (now s1)) s Ha E0 eq_refl Ht) as X. by eapply timers_same; [.. | exact X]. }
    intros Z1 Z2. unfold first_timeout in Eft. rewrite Z1, Z2 in Eft. injection Eft as <-. done.
  - exists (watchdog y), (timers s), (next_timer s), i, j. rewrite Hid. done.
Qed.

(** A change of a connection that keeps its watchdog. *)
Lemma timers_conn a y y' s s' :
  conns s !! a = Some y -> watchdog y' = watchdog y -> conns s' = <[a := y']> (conns s) ->
  timers s' = timers s -> next_timer s' = next_timer s -> timers_ok param s -> timers_ok param s'.
Proof.
  intros Ha Hw Ec Et En [T1 T2 T3 T4]. constructor; rewrite ?Ec, ?Et, ?En; try assumption.
  - intros b z [(-> & ->) | (_ & Hz)]%get_insert; [rewrite Hw |]; eauto.
  - intros t b d Hd. destruct (T2 t b d Hd) as (z & Hz & Ez). destruct (decide (b = a)) as [-> | ?].
    + exists y'. rewrite lookup_insert_eq, Hw. split; [done | congruence].
    + exists z. by rewrite lookup_insert_ne.
Qed.

(** The head of a queue is null or a call. *)
Lemma queue_head nx h t l : queue nx h t l -> h = 0 \/ (exists l', l = h :: l').
Proof. intros [H _]. destruct l as [| c l]; [by left | right]. destruct H as (-> & _). eauto. Qed.

Lemma heads_there hs ds hc dy ex SQ RQ a y s :
  heap_ok param hs ds hc dy ex SQ RQ (conns s) (calls s) -> conns s !! a = Some y -> closing (state y) = false ->
  (sendq y = 0 \/ exists x, calls s !! sendq y = Some x) /\ (recvq y = 0 \/ exists x, calls s !! recvq y = Some x).
Proof.
  intros [] Hy Ho. destruct (h_open0 a y Hy Ho) as [Q1 Q2].
  assert (G : forall p, p ∈ SQ a ++ RQ a -> exists x, calls s !! p = Some x) by (intros p Hp; destruct (h_in0 a p Hp) as (x & ? & _); eauto).
  split; [destruct (queue_head _ _ _ _ Q1) as [? | (l & E)] | destruct (queue_head _ _ _ _ Q2) as [? | (l & E)]]; auto; right; apply G, elem_of_app;
    rewrite E; [left | right]; apply elem_of_cons; auto.
Qed.

(** ** The descriptors when one connection changes *)
(** The owner of a descriptor is unique, so the sets say of its connection what it waits for. *)
Lemma sd_owner SQ RQ a y b z s :
  fds_ok opened SQ RQ s -> conns s !! a = Some y -> closing (state y) = false -> conns s !! b = Some z ->
  closing (state z) = false -> sd z = sd y -> 0 <= sd y -> b = a.
Proof.
  intros [] Hy Ho Hz Hoz Es Hp. destruct (f_conn0 b z Hz Hoz) as [[? _] | (_ & _ & F1 & _)]; [lia |].
  destruct (f_conn0 a y Hy Ho) as [[? _] | (_ & _ & F2 & _)]; [lia |]. congruence.
Qed.

Lemma wr_iff SQ RQ a y s : fds_ok opened SQ RQ s -> conns s !! a = Some y -> closing (state y) = false ->
  (sd y ∈ wrfds s <-> 0 <= sd y /\ (state y = S_CONNECTING \/ SQ a <> [])).
Proof.
  intros Hf Hy Ho. rewrite (f_wr _ _ _ _ Hf). split; [| intros [? ?]; by exists a, y].
  intros (b & z & Hz & Hoz & Es & Hp & H). assert (b = a) as -> by (apply (sd_owner SQ RQ a y b z s); try done; lia).
  assert (z = y) by congruence. subst z. auto.
Qed.

Lemma rd_iff SQ RQ a y s : fds_ok opened SQ RQ s -> conns s !! a = Some y -> closing (state y) = false ->
  (sd y ∈ rdfds s <-> 0 <= sd y /\ RQ a <> []).
Proof.
  intros Hf Hy Ho. rewrite (f_rd _ _ _ _ Hf). split; [| intros [? ?]; by exists a, y].
  intros (b & z & Hz & Hoz & Es & Hp & H). assert (b = a) as -> by (apply (sd_owner SQ RQ a y b z s); try done; lia). auto.
Qed.

Lemma fds_change SQ RQ SQ' RQ' a y y' s s' :
  fds_ok opened SQ RQ s -> conns s !! a = Some y -> closing (state y) = false -> conns s' = <[a := y']> (conns s) ->
  closing (state y') = false -> sd y' = sd y -> (sd y = -1 -> state y' = S_INITIAL) ->
  sd_to_conn s' = sd_to_conn s -> alloced_sd_to_conn s' = alloced_sd_to_conn s -> opened (world s') = opened (world s) ->
  (forall b, b <> a -> SQ' b = SQ b /\ RQ' b = RQ b) ->
  (forall fd, fd <> sd y -> (fd ∈ wrfds s' <-> fd ∈ wrfds s) /\ (fd ∈ rdfds s' <-> fd ∈ rdfds s)) ->
  (sd y ∈ wrfds s' <-> 0 <= sd y /\ (state y' = S_CONNECTING \/ SQ' a <> [])) ->
  (sd y ∈ rdfds s' <-> 0 <= sd y /\ RQ' a <> []) ->
  min_sd s' <= min_sd s -> (0 <= min_sd s -> 0 <= min_sd s') -> max_sd s <= max_sd s' -> (sd y ∈ rdfds s' ∪ wrfds s' -> min_sd s' <= sd y <= max_sd s') ->
  fds_ok opened SQ' RQ' s'.
Proof.
  intros Hfds Hy Ho Ec Ho' Esd Hinit Em Ea Ew Hq Hfd Hwr Hrd Hmin Hmin0 Hmax Hrange.
  pose proof (fun b z => sd_owner SQ RQ a y b z s Hfds Hy Ho) as Uniq. destruct Hfds.
  constructor; rewrite ?Ec, ?Em, ?Ea, ?Ew; try assumption.
  - intros b z [(-> & ->) | (_ & Hz)]%get_insert Hoz; [| eauto]. rewrite Esd. destruct (f_conn0 a y Hy Ho) as [[E _] | ?]; [left; auto | auto].
  - intros fd b Hb Hb0. destruct (f_map0 fd b Hb Hb0) as (Hp & z & Hz & Oz & Ez). split; [done |]. destruct (decide (b = a)) as [-> | ?].
    + exists y'. rewrite lookup_insert_eq. split_and!; congruence.
    + exists z. by rewrite lookup_insert_ne.
  - intros fd. destruct (decide (fd = sd y)) as [-> | Hne].
    + rewrite Hwr. split.
      * intros [Hp H]. exists a, y'. rewrite lookup_insert_eq. auto.
      * intros (b & z & [(-> & ->) | (Hb & Hz)]%get_insert & Hoz & Es & Hp & H); [auto |]. by destruct Hb; apply (Uniq b z).
    + rewrite (proj1 (Hfd fd Hne)), f_wr0. split; intros (b & z & Hz & Hoz & Es & Hp & H).
      * assert (b <> a) by (intros ->; congruence). exists b, z. rewrite lookup_insert_ne by done. rewrite (proj1 (Hq b ltac:(done))). auto.
      * apply get_insert in Hz as [(-> & ->) | (Hb & Hz)]; [congruence |]. exists b, z. rewrite (proj1 (Hq b Hb)) in H. auto.
  - intros fd. destruct (decide (fd = sd y)) as [-> | Hne].
    + rewrite Hrd. split.
      * intros [Hp H]. exists a, y'. rewrite lookup_insert_eq. auto.
      * intros (b & z & [(-> & ->) | (Hb & Hz)]%get_insert & Hoz & Es & Hp & H); [auto |]. by destruct Hb; apply (Uniq b z).
    + rewrite (proj2 (Hfd fd Hne)), f_rd0. split; intros (b & z & Hz & Hoz & Es & Hp & H).
      * assert (b <> a) by (intros ->; congruence). exists b, z. rewrite lookup_insert_ne by done. rewrite (proj2 (Hq b ltac:(done))). auto.
      * apply get_insert in Hz as [(-> & ->) | (Hb & Hz)]; [congruence |]. exists b, z. rewrite (proj2 (Hq b Hb)) in H. auto.
  - intros fd Hin. destruct (decide (fd = sd y)) as [-> | Hne]; [auto |]. destruct (Hfd fd Hne) as [H1 H2].
    assert (fd ∈ rdfds s ∪ wrfds s) by (apply elem_of_union; apply elem_of_union in Hin; tauto). specialize (f_range0 fd ltac:(done)). lia.
  - auto.
Qed.

(** A change of a connection that its descriptor does not depend on. *)
Lemma fds_same SQ RQ a y y' s s' :
  fds_ok opened SQ RQ s -> conns s !! a = Some y -> conns s' = <[a := y']> (conns s) -> state y' = state y -> sd y' = sd y ->
  sd_to_conn s' = sd_to_conn s -> alloced_sd_to_conn s' = alloced_sd_to_conn s -> opened (world s') = opened (world s) ->
  wrfds s' = wrfds s -> rdfds s' = rdfds s -> min_sd s' = min_sd s -> max_sd s' = max_sd s -> fds_ok opened SQ RQ s'.
Proof.
  intros [] Ha Ec Es Ed Em Ea Ew Ewr Erd Emin Emax. constructor; rewrite ?Ec, ?Em, ?Ea, ?Ew, ?Ewr, ?Erd, ?Emin, ?Emax; try assumption.
  - intros b z [(-> & ->) | (_ & Hz)]%get_insert; [| eauto]. rewrite Es, Ed. eauto.
  - intros fd b Hb Hb0. destruct (f_map0 fd b Hb Hb0) as (Hp & z & Hz & Oz & Ez). split; [done |]. destruct (decide (b = a)) as [-> | ?].
    + exists y'. rewrite lookup_insert_eq. split_and!; congruence.
    + exists z. by rewrite lookup_insert_ne.
  - intros fd. rewrite f_wr0. symmetry.
    apply (open_insert a y y' _ (fun b z => closing (state z) = false /\ sd z = fd /\ 0 <= fd /\ (state z = S_CONNECTING \/ SQ b <> []))); [done |].
    by rewrite Es, Ed.
  - intros fd. rewrite f_rd0. symmetry.
    apply (open_insert a y y' _ (fun b z => closing (state z) = false /\ sd z = fd /\ 0 <= fd /\ RQ b <> [])); [done |].
    by rewrite Es, Ed.
Qed.

(** The counters of a connection change. *)
Lemma inv_seq hs ds hc dy ex ex' SQ RQ a y y' s :
  inv hs ds hc dy ex SQ RQ s -> conns s !! a = Some y -> seq_like y y' ->
  time_connect_start y' = time_connect_start y -> num_calls_completed y' = num_calls_completed y -> ex = a \/ ex = 0 ->
  (closing (state y) = false -> a <> ex' ->
     (seq_calls y' = 0 /\ SQ a = [] /\ RQ a = [] /\ pending dy a = 0) \/
     (state y <> S_INITIAL /\ state y <> S_CONNECTING /\ seq_ok param y' (Z.of_nat (length (SQ a ++ RQ a))) (pending dy a))) ->
  (state y = S_INITIAL \/ state y = S_CONNECTING -> seq_calls y' = 0) ->
  inv hs ds hc dy ex' SQ RQ (put_conn a y' s).
Proof.
  intros Hi Hy HL E1 E2 Hex Hseq Hfresh. pose proof HL as []. eapply inv_change_at; [exact Hi | same_rest | exact Hy | reflexivity | by apply lives_state | done | | |].
  - destruct Hi as [Hh _ _ _ _ _]. by eapply heap_seq.
  - destruct Hi as [_ Hf _ _ _ _]. by eapply (fds_same SQ RQ a y y' s).
  - destruct Hi as [_ _ Ht _ _ _]. by eapply (timers_conn a y y' s).
Qed.

(** [FD_CLR] of a descriptor that a set can hold. *)
Lemma FD_CLR_in f sd s : 0 <= sd < FD_SETSIZE -> FD_CLR f sd s = Ret (put_fds f (get_fds f s ∖ {[sd]}) s).
Proof. intros [? ?]. unfold FD_CLR. by destruct (Z.leb_spec 0 sd), (Z.ltb_spec sd FD_SETSIZE); [| lia ..]. Qed.

(** An open connection with calls has a descriptor. *)
Lemma open_sd SQ RQ a y s :
  fds_ok opened SQ RQ s -> conns s !! a = Some y -> closing (state y) = false -> state y <> S_INITIAL ->
  0 <= sd y < FD_SETSIZE /\ sd_to_conn s !! sd y = Some a.
Proof. intros [] Hy Ho Hi. destruct (f_conn0 a y Hy Ho) as [[_ ?] | (?&_&?&_)]; done. Qed.

(** ** New calls *)
Lemma iov_of_ok b : iov_ok (iov_of b).
Proof. unfold iov_ok, iov_of. cbn. lia. Qed.


Lemma put_iov_wf i v x : iov_ok v -> call_wf x -> call_wf (put_iov i v x).
Proof.
  intros Hv (H1 & H2 & H3 & H4 & H5). unfold call_wf, put_iov. cbn. rewrite length_insert. split; [done |]. split; [| done].
  by apply Forall_insert.
Qed.

(** Only the text of the request differs. *)
Record same_call (x x' : Call) : Prop := {
  sc_ref : c_ref x' = c_ref x;
  sc_conn : call_conn x' = call_conn x;
  sc_next : sendq_next x' = sendq_next x;
  sc_wf : call_wf x -> call_wf x'
}.
Lemma same_call_trans x x' x'' : same_call x x' -> same_call x' x'' -> same_call x x''.
Proof. intros [] []. constructor; try congruence. auto. Qed.
Lemma same_call_iov i v x : iov_ok v -> same_call x (put_iov i v x).
Proof. intros Hv. constructor; try done. by apply put_iov_wf. Qed.

Lemma calls_twice c x x' s :
  set_calls (<[c := x']> (calls (set_calls (<[c := x]> (calls s)) s))) (set_calls (<[c := x]> (calls s)) s) = set_calls (<[c := x']> (calls s)) s.
Proof. cbn. by rewrite insert_insert_eq. Qed.

Lemma call_created_ok c x s : calls s !! c = Some x -> num_extra_hdrs x = 0 ->
  exists x', call_created param c s = Ret (set_calls (<[c := x']> (calls s)) s) /\ same_call x x'.
Proof.
  intros Hx Hn. unfold call_created.
  assert (E1 : exists x1, (match method param with Some ((_ :: _) as m) => call_set_method c m s | _ => Ret s end) =
      Ret (set_calls (<[c := x1]> (calls s)) s) /\ same_call x x1 /\ num_extra_hdrs x1 = 0).
  { assert (Hid : Ret s = Ret (set_calls (<[c := x]> (calls s)) s)) by (rewrite insert_id by done; by destruct s).
    destruct (method param) as [[| m0 m] |]; try (exists x; rewrite Hid; split_and!; done).
    exists (put_iov IE_METHOD (iov_of (m0 :: m)) x). unfold call_set_method. rewrite (upd_call_eq c _ x) by done.
    split_and!; [done | apply same_call_iov, iov_of_ok | done]. }
  destruct E1 as (x1 & -> & S1 & N1). rewrite bind_Ret. set (s1 := set_calls _ _).
  assert (Hx1 : calls s1 !! c = Some x1) by (cbn; by rewrite lookup_insert_eq).
  destruct (additional_header param) as [h |] eqn:Eh; [| by exists x1].
  destruct (po_header _ Hpar h Eh) as (ex & ->). rewrite bind_Ret. destruct ex as [| e0 ex]; [by exists x1 |].
  unfold call_append_request_header. rewrite (call_at_eq c x1), bind_Ret, N1 by done. change (MAX_EXTRA_HEADERS <=? 0) with false. cbv iota.
  rewrite (upd_call_eq c _ x1), bind_Ret, bind_Ret by done. unfold s1. rewrite calls_twice. eexists. split; [reflexivity |].
  eapply same_call_trans; [exact S1 |]. constructor; try done. intros Hwf.
  exact (put_iov_wf (IE_FIRST_HEADER + 0)%nat (iov_of (e0 :: ex)) x1 (iov_of_ok _) Hwf).
Qed.

Lemma signal_call_new n c x s : calls s !! c = Some x -> num_extra_hdrs x = 0 ->
  exists x', signal (S n) EV_CALL_NEW c NoArg s = Ret (set_calls (<[c := x']> (calls s)) s) /\ same_call x x'.
Proof.
  intros Hx Hn. one_handler. set (x1 := put_iov IE_URI (iov_of (uri param)) x).
  assert (S1 : same_call x x1) by (apply same_call_iov, iov_of_ok). unfold call_set_uri. cbn [app run_handlers run_handler].
  unfold call_set_uri. rewrite (upd_call_eq c _ x), bind_Ret by done. fold x1. set (s1 := set_calls _ _).
  assert (Hx1 : calls s1 !! c = Some x1) by (cbn; by rewrite lookup_insert_eq).
  destruct (call_created_ok c x1 s1 Hx1 Hn) as (x2 & E2 & S2).
  assert (Go : exists x', run_handlers sys param hash_table (signal n) [misc_call_created] c NoArg s1 = Ret (set_calls (<[c := x']> (calls s)) s) /\ same_call x x').
  { cbn [run_handlers run_handler]. rewrite E2, bind_Ret. unfold s1. rewrite calls_twice. exists x2. split; [done |]. by eapply same_call_trans. }
  destruct (additional_header param), (method param); try exact Go. by exists x1.
Qed.
End Steps.
Arguments timers_conn {W param}.
Arguments timers_same {W param}.
Arguments timers_more {W param}.
End HttperfSteps.
