(* ===== verification/HttperfIssue.v ===== *)
(** * httperf/src: issuing calls keeps the invariant

    A new call, [core_send] and the bursts of gen/call_seq.c. *)
From S2P Require Import Prelude Doubles HttpReply HttpReplyTotal Ports AddrTable BasicStats HttperfState Httperf HttperfRequest HttperfInv HttperfFrame HttperfSteps.

Module HttperfIssue.
Import HttperfState Httperf HttperfRequest HttperfInv HttperfFrame HttperfHeap HttperfSteps.

Section Issue.
Context {W A : Type} (sys : system W A) (param : Cmdline_Params) (hash_table : AddrTable.table A).
Context (act : action).
Context (opened : W -> gset Z) (seen : W -> Time -> Prop).
Context (Hact : forall e, act e = handlers_of param e) (Hpar : params_ok param).
Implicit Types s : st W.
Abbreviation inv := (inv param opened seen).
Abbreviation signal := (event_signal sys param hash_table act).

(** ** call_new *)
Lemma call_init_wf i : call_wf (call_init param i).
Proof.
  unfold call_wf. split; [reflexivity |]. split; [| cbn; destruct Hpar; split_and!; done].
  repeat (apply Forall_cons; split; [vm_compute; split; discriminate |]). apply Forall_nil. exact I.
Qed.

(** The state with a new call. *)
Definition with_new (c : Z) (x : Call) (fr : list (Z * Call)) (b i : Z) s : st W :=
  set_calls (<[c := x]> (calls s)) (set_free_calls fr (set_brk b (set_next_id i s))).

Lemma with_new_memory c x fr b i s : memory_ok s ->
  (exists z, free_calls s = (c, z) :: fr /\ b = brk s) \/ (free_calls s = [] /\ fr = [] /\ c = brk s /\ b = brk s + 1) ->
  calls s !! c = None /\ 0 < c /\ memory_ok (with_new c x fr b i s).
Proof.
  intros [M1 [M2 M2'] [M3 M3'] M4 M5] H.
  assert (Hc : calls s !! c = None /\ 0 < c < b /\ brk s <= b /\ (c ∉ map fst fr) /\ NoDup (map fst fr) /\
     forall d, d ∈ map fst fr -> 0 < d < b /\ calls s !! d = None).
  { destruct H as [(z & E & ->) | (E & -> & -> & ->)]; rewrite E in M2, M2'; cbn [map fst] in M2, M2'.
    - apply NoDup_cons in M2 as [N1 N2]. destruct (M2' c) as [? ?]; [apply elem_of_cons; auto |].
      split_and!; try done; try lia. all: intros; by apply M2', elem_of_cons; auto.
    - split_and!; try lia.
      + destruct (calls s !! brk s) as [z |] eqn:Ez; [apply M4 in Ez; lia | done].
      + by intros ?%elem_of_nil.
      + apply NoDup_nil_2.
      + by intros d ?%elem_of_nil. }
  destruct Hc as (H1 & H2 & Hb & H3 & H4 & H5). split_and!; [done | lia |]. constructor; cbn; [lia | | | |].
  - split; [done |]. intros d Hd. destruct (H5 d Hd). split; [lia |]. rewrite lookup_insert_ne; [done |]. by intros <-.
  - split; [done |]. intros a Ha. destruct (M3' a Ha). split; [lia | done].
  - intros d z [(-> & ->) | (_ & Hz)]%get_insert; [lia |]. apply M4 in Hz. lia.
  - intros a y Hy. apply M5 in Hy. lia.
Qed.

Lemma call_new_ok n s : memory_ok s ->
  exists c x fr b i, call_new param (signal (S n)) s = Ret (c, with_new c x fr b i s) /\
    calls s !! c = None /\ 0 < c /\ call_wf x /\ c_ref x = 1 /\ memory_ok (with_new c x fr b i s).
Proof.
  intros Hm.
  assert (E : exists c fr b, ((exists z, free_calls s = (c, z) :: fr /\ b = brk s) \/
       (free_calls s = [] /\ fr = [] /\ c = brk s /\ b = brk s + 1)) /\
     call_new param (signal (S n)) s =
       (s' ← signal (S n) EV_CALL_NEW c NoArg (with_new c (call_init param (next_id s)) fr b (u64 (next_id s + 1)) s); Ret (c, s'))).
  { unfold call_new. destruct (free_calls s) as [| [c z] fr] eqn:Ef.
    - exists (brk s), [], (brk s + 1). split; [right; done |]. destruct s; cbn in *. by rewrite Ef.
    - exists c, fr, (brk s). split; [left; eauto |]. by destruct s. }
  destruct E as (c & fr & b & Hf & ->). set (x0 := call_init param (next_id s)).
  destruct (signal_call_new sys param hash_table act Hact Hpar n c x0
              (with_new c x0 fr b (u64 (next_id s + 1)) s)) as (x & Ex & [S1 S2 S3 S4]).
  { cbn. by rewrite lookup_insert_eq. }
  { done. }
  rewrite Ex, bind_Ret. unfold with_new. cbn [calls set_calls set_free_calls set_brk set_next_id]. rewrite insert_insert_eq.
  destruct (with_new_memory c x fr b (u64 (next_id s + 1)) s Hm Hf) as (H1 & H2 & H3).
  exists c, x, fr, b, (u64 (next_id s + 1)). split_and!; [reflexivity | done | done | apply S4, call_init_wf | done | exact H3].
Qed.

(** ** core_send *)
Lemma prepare_request_ok fqd x : call_wf x ->
  exists x', prepare_request param fqd x = Ret x' /\ call_wf x' /\ sending x' /\ c_ref x' = c_ref x /\ call_conn x' = call_conn x.
Proof.
  intros Hwf. pose proof Hwf as (Hl & Hi & _). unfold prepare_request.
  destruct (lookup_lt_is_Some_2 (iov x) IE_HOST) as [h Eh]; [unfold IE_LEN, IE_HOST in *; lia |].
  rewrite Eh. cbn [deref]. rewrite bind_Ret.
  set (x1 := if no_host_hdr param then _ else _).
  assert (S1 : same_call x x1).
  { unfold x1. destruct (no_host_hdr param); [apply same_call_iov, iov_of_ok |].
    destruct (iov_base h); [by constructor | apply same_call_iov, iov_of_ok]. }
  assert (V1 : req_version x1 = req_version x) by (unfold x1; destruct (no_host_hdr param); [done | by destruct (iov_base h)]).
  clearbody x1. pose proof (sc_wf _ _ S1 Hwf) as W1.
  assert (E2 : exists v, (if req_version x1 =? 0x10000 then
         Ret (put_iov IE_PROTL (iov_of (if no_host_hdr param then http10req_nohost else http10req)) x1)
       else if req_version x1 =? 0x10001 then
         Ret (put_iov IE_PROTL (iov_of (if no_host_hdr param then http11req_nohost else http11req)) x1)
       else Exit 1) = Ret (put_iov IE_PROTL (iov_of v) x1)).
  { destruct Hwf as (_ & _ & _ & _ & [V | V]); rewrite V1, V; eexists; reflexivity. }
  destruct E2 as (v & ->). rewrite bind_Ret. set (x2 := put_iov _ _ _).
  assert (W2 : call_wf x2) by (apply put_iov_wf; [apply iov_of_ok | done]).
  pose proof W2 as (L2 & I2 & _). destruct (lookup_lt_is_Some_2 (iov x2) 0%nat) as [f Ef]; [unfold IE_LEN in *; lia |].
  rewrite Ef. cbn [deref]. rewrite bind_Ret. eexists. split; [reflexivity |].
  split; [exact W2 |]. destruct S1. split_and!; [| exact sc_ref0 | exact sc_conn0].
  unfold sending. cbn. split; [unfold IE_LEN; lia | by eapply Forall_lookup_1].
Qed.

(** What the sequence of calls on a connection depends on. *)
Definition same_seq (y y' : Conn) : Prop :=
  state y' = state y /\ seq_calls y' = seq_calls y /\ seq_completed y' = seq_completed y /\ seq_destroyed y' = seq_destroyed y.

Section Send.
Context (hs ds : list Z) (dy : option (Z * Z)) (SQ RQ : Z -> list Z) (a c : Z) (y : Conn) (x : Call) (s : st W).
Context (Hinv : inv hs ds [c] dy a SQ RQ s) (Hloose : loose SQ RQ c) (Hx : calls s !! c = Some x) (Href : c_ref x = 1).
Context (Hy : conns s !! a = Some y) (Hopen : closing (state y) = false)
  (Hstate : state y <> S_INITIAL /\ state y <> S_CONNECTING).

Abbreviation SQ' := (upd SQ a (SQ a ++ [c])).

(** The heap with the call as [core_send] prepares it. *)
Lemma send_heap z : call_wf z -> c_ref z = 2 ->
  heap_ok param hs ds [c] dy a SQ RQ (conns s) (<[c := set_c_ref (c_ref z - 1) z]> (calls s)).
Proof.
  intros Hwf Hr. destruct Hinv as [Hh _ _ _ _ _]. eapply heap_loose; [exact Hh | done | by destruct Hh; apply (h_call0 c x) | done | | | | done].
  - cbn. rewrite Hr, count_cons, decide_True by done. reflexivity.
  - cbn. lia.
  - intros b Hb. destruct Hh. destruct (h_dy0 c b Hb) as (w & Hw & Ew & _). assert (w = x) by congruence. subst w. lia.
Qed.

Lemma send_others z d : d <> c ->
  match calls s !! d with
  | Some w => exists z', <[c := z]> (calls s) !! d = Some z' /\ c_ref z' = c_ref w /\ call_conn z' = call_conn w /\
       (call_wf w -> call_wf z') /\ (sending w -> sending z') /\ recvq_next z' = recvq_next w /\ (sendq_next z' = sendq_next w \/ d ∈ SQ a)
  | None => <[c := z]> (calls s) !! d = None
  end.
Proof. intros Hd. rewrite lookup_insert_ne by done. destruct (calls s !! d) as [w |]; [| done]. exists w. split_and!; auto. Qed.

Lemma send_calls_subset z d : is_Some (<[c := z]> (calls s) !! d) -> is_Some (calls s !! d).
Proof. destruct (decide (d = c)) as [-> | ?]; [rewrite Hx; by eexists | by rewrite lookup_insert_ne]. Qed.

(** The queue was empty: the connection waits for the descriptor to be writable. *)
Lemma send_first z :
  SQ a = [] -> call_wf z -> c_ref z = 2 -> call_conn z = a -> sendq_next z = 0 -> sending z ->
  exists s' y', set_active a Wr (put_conn a (set_sendq_tail c (set_sendq c y)) (put_call c z s)) = Ret s' /\
    inv hs ds [c] dy a SQ' RQ s' /\ conns s' !! a = Some y' /\ same_seq y y' /\ calls s' !! c = Some z /\ quiet seen s s'.
Proof.
  intros Hq Hwf Hr Hc Hn Hs. set (y1 := set_sendq_tail c (set_sendq c y)). set (s1 := put_conn a y1 (put_call c z s)).
  pose proof (send_heap z Hwf Hr) as Hheap. pose proof Hinv as [Hh Hf Ht _ _ _].
  destruct (open_sd opened SQ RQ a y s Hf Hy Hopen (proj1 Hstate)) as [Hsd _].
  destruct (heads_there param hs ds [c] dy a SQ RQ a y s Hh Hy Hopen) as [_ Hrq].
  assert (Ht1 : timers_ok param s1) by (apply (timers_conn a y y1 s); done).
  assert (Hrq1 : recvq y1 = 0 \/ exists w, calls s1 !! recvq y1 = Some w).
  { destruct Hrq as [? | (w & Hw)]; [by left | right]. cbn. destruct (decide (recvq y = c)) as [-> | ?]; [exists z; by rewrite lookup_insert_eq | exists w; by rewrite lookup_insert_ne]. }
  destruct (set_active_ok param a Wr y1 s1) as (w & m & k & i & j & E & Hij & Hi & Hj & Ht2 & _);
    [apply put_conn_get | exact Hsd | right; exists z; apply lookup_insert_eq | exact Hrq1 | exact Ht1 |].
  assert (Ec : conns (activated a Wr y1 w m k i j s1) = <[a := set_watchdog w y1]> (conns s)) by (cbn; by rewrite insert_insert_eq).
  exists (activated a Wr y1 w m k i j s1), (set_watchdog w y1). split_and!; [exact E | | by rewrite Ec, lookup_insert_eq | done | apply lookup_insert_eq | by constructor].
  eapply inv_change_at; [exact Hinv | same_rest | exact Hy | exact Ec | by apply lives_state | apply send_calls_subset | | | exact Ht2].
  - rewrite Ec. eapply heap_enqueue; [exact Hheap | done | exact Hy | done | done | done | done | lia | apply send_others | apply lookup_insert_eq | try done ..].
    rewrite Hq. cbn. split; [| done]. split_and!; [done | destruct Hh; destruct (h_call0 c x Hx); lia |]. exists 0. rewrite lookup_insert_eq. cbn. by rewrite Hn.
  - eapply fds_change; [exact Hf | exact Hy | done | exact Ec | done | done | cbn; lia | done | done | done | | | | | | | |].
    + intros b Hb. by rewrite upd_ne.
    + intros fd Hfd. cbn. split; [by apply in_add | done].
    + cbn. rewrite upd_eq, Hq. split; [intros _; split; [lia | by right] | intros _; apply in_added].
    + apply (rd_iff opened SQ RQ a y s); done.
    + cbn in *. lia.
    + cbn in *. lia.
    + cbn in *. lia.
    + cbn in *. lia.
Qed.

(** Other requests are in front: the call is linked behind the last one. *)
Lemma send_later z :
  SQ a <> [] -> call_wf z -> c_ref z = 2 -> call_conn z = a -> sendq_next z = 0 -> sending z ->
  exists s', upd_call (sendq_tail y) (set_sendq_next c) (put_call c z s) = Ret s' /\
    inv hs ds [c] dy a SQ' RQ (put_conn a (set_sendq_tail c y) s') /\ calls s' !! c = Some z /\ conns s' = conns s /\ quiet seen s s'.
Proof.
  intros Hq Hwf Hr Hc Hn Hs. pose proof (send_heap z Hwf Hr) as Hheap. pose proof Hinv as [Hh Hf Ht _ _ _]. set (t := sendq_tail y).
  assert (Hqueue : queue (fun d => sendq_next <$> calls s !! d) (sendq y) t (SQ a)) by (destruct Hh; by apply h_open0).
  assert (Hlast : last (SQ a) = Some t) by (by apply Hqueue). pose proof (last_Some_elem_of _ _ Hlast) as Hin.
  assert (Hin2 : t ∈ SQ a ++ RQ a) by (apply elem_of_app; auto). assert (Hne : t <> c) by (intros E; apply (Hloose a); by rewrite <- E).
  destruct Hh. destruct (h_in0 a t Hin2) as (v & Hv & _). pose proof (h_nodup0 a) as Hnd. apply NoDup_app in Hnd as (Hnd & _ & _).
  set (s1 := put_call c z s). exists (put_call t (set_sendq_next c v) s1).
  assert (Hv1 : calls s1 !! t = Some v) by (cbn; by rewrite lookup_insert_ne). split; [by apply upd_call_eq |].
  assert (Hc1 : calls (put_call t (set_sendq_next c v) s1) !! c = Some z) by (cbn; rewrite lookup_insert_ne by done; apply lookup_insert_eq).
  split; [| split_and!; [done | done | by constructor]]. eapply inv_change_at; [exact Hinv | same_rest | exact Hy | reflexivity | by apply lives_state | | | |].
  - intros d. cbn. destruct (decide (d = t)) as [-> | ?]; [by rewrite Hv; eexists |]. rewrite lookup_insert_ne by done. apply send_calls_subset.
  - eapply heap_enqueue; [exact Hheap | done | exact Hy | done | done | done | done | lia | | exact Hc1 | try done ..].
    + intros d Hd. cbn. destruct (decide (d = t)) as [-> | Hdt].
      * rewrite Hv, lookup_insert_eq. eexists. split; [reflexivity |]. split_and!; try done. by right.
      * rewrite lookup_insert_ne by done. by apply send_others.
    + cbn. pose proof (queue_snoc _ (fun d => sendq_next <$> <[t:=set_sendq_next c v]> (<[c:=z]> (calls s)) !! d) _ _ _ c Hqueue Hnd) as Q.
      rewrite decide_False in Q by done. apply Q.
      * destruct (h_call0 c x Hx). lia.
      * intros Hcin. apply (Hloose a), elem_of_app. auto.
      * rewrite lookup_insert_ne, lookup_insert_eq by done. cbn. by rewrite Hn.
      * intros d Hd Hdt. rewrite !lookup_insert_ne; [done | | done]. intros <-. apply (Hloose a), elem_of_app. auto.
      * intros _. rewrite lookup_insert_eq. done.
  - eapply fds_change; [exact Hf | exact Hy | done | reflexivity | done | done | | done | done | done | | done | | | done | done | done |].
    + intros E. destruct Hf. destruct (f_conn0 a y Hy Hopen) as [[_ ?] | (? & _)]; [tauto | cbn in *; lia].
    + intros b Hb. by rewrite upd_ne.
    + cbn. rewrite upd_eq. rewrite (wr_iff opened SQ RQ a y s) by done. split; [intros [? _] | intros [? _]; auto].
      split; [done |]. right. by destruct (SQ a).
    + apply (rd_iff opened SQ RQ a y s); done.
    + cbn. intros Hin3. by apply Hf.
  - by apply (timers_conn a y (set_sendq_tail c y) s).
Qed.

Lemma core_send_ok n :
  exists s' y' x', core_send param (signal (S n)) a c s = Ret (0, s') /\ inv hs ds [c] dy a SQ' RQ s' /\
    conns s' !! a = Some y' /\ same_seq y y' /\ calls s' !! c = Some x' /\ c_ref x' = 2 /\ quiet seen s s'.
Proof.
  unfold core_send. rewrite (signal_quiet sys param hash_table act Hact n EV_CALL_ISSUE), bind_Ret by done.
  rewrite (upd_call_at c _ x), bind_Ret by done. rewrite (conn_at_eq a y), bind_Ret by done. rewrite call_at_put, bind_Ret.
  pose proof Hinv as [Hh _ _ _ _ _]. destruct Hh. destruct (h_call0 c x Hx) as (_ & Hwf & _).
  destruct (prepare_request_ok (fqdname y) (set_call_conn a x)) as (x2 & E2 & W2 & S2 & R2 & C2); [exact Hwf |].
  rewrite E2, bind_Ret, upd_call_put, bind_Ret. unfold call_inc_ref. rewrite upd_call_put, bind_Ret, upd_call_put, bind_Ret.
  set (x4 := set_sendq_next 0 (set_c_ref (u32 (c_ref x2 + 1)) x2)).
  assert (R4 : c_ref x4 = 2) by (unfold x4; cbn; rewrite R2; cbn; by rewrite Href).
  rewrite (conn_at_eq a y), bind_Ret by done. pose proof (h_open0 a y Hy Hopen) as [Q _]. apply queue_nil in Q.
  destruct (Z.eqb_spec (sendq y) 0) as [E | E].
  - rewrite (upd_conn_at a _ y), bind_Ret by done. set (y1 := set_sendq_tail c (set_sendq c y)).
    rewrite (signal_send_start sys param hash_table act Hact n c x4), bind_Ret by apply lookup_insert_eq.
    set (x5 := set_time_send_start _ x4). change (set_calls _ _) with (put_call c x5 (put_conn a y1 (put_call c x4 s))).
    change (put_call c x5 (put_conn a y1 (put_call c x4 s))) with (put_conn a y1 (put_call c x5 (put_call c x4 s))).
    rewrite put_call_twice, conn_at_put, bind_Ret. change (state y1) with (state y). rewrite Hopen.
    rewrite upd_call_put_conn, bind_Ret. set (x6 := set_timeout _ x5).
    destruct (send_first x6) as (s' & y' & E1 & I1 & G1 & S1 & K1 & U1); try done; [by apply Q |].
    fold y1 in E1. rewrite E1, bind_Ret. exists s', y', x6. split_and!; done.
  - destruct (send_later x4) as (s' & E1 & I1 & K1 & C1 & U1); try done; [by rewrite <- Q |].
    rewrite E1, bind_Ret. rewrite (upd_conn_at a _ y), bind_Ret by (by rewrite C1).
    eexists _, (set_sendq_tail c y), x4. split; [reflexivity |]. split_and!; try done; [apply put_conn_get |].
    eapply quiet_trans; [exact U1 | by constructor].
Qed.
End Send.

(** ** Bursts *)

(** A held call is given back by the generator. *)
Lemma give_back_ok hs ds dy a SQ RQ c x n s :
  inv hs ds [c] dy a SQ RQ s -> calls s !! c = Some x -> c_ref x = 2 ->
  exists s', call_dec_ref (signal n) c s = Ret s' /\ inv hs ds [] dy a SQ RQ s' /\ conns s' = conns s /\ quiet seen s s'.
Proof.
  intros Hi Hx Hr. unfold call_dec_ref. rewrite (call_at_eq c x), bind_Ret, Hr by done. cbn [assert_at BasicStats.assert_at Z.ltb Z.compare].
  rewrite bind_Ret, (upd_call_at c _ x), bind_Ret by done. change (2 - 1 =? 0) with false. cbv iota.
  eexists. split; [reflexivity |]. split; [| split; [done | by constructor]]. set (x' := set_c_ref (2 - 1) x).
  eapply inv_change; [exact Hi | same_rest | done | by apply same_lives_refl | | | |].
  - intros d. cbn. destruct (decide (d = c)) as [-> | ?]; [rewrite Hx; by eexists | by rewrite lookup_insert_ne].
  - destruct Hi as [Hh _ _ _ _ _]. eapply heap_unhold; [exact Hh | exact Hx | by constructor | lia | cbn; lia | |].
    + rewrite count_cons, decide_True by done. cbn. unfold cnt. cbn. lia.
    + intros d Hne. rewrite count_cons, decide_False by congruence. lia.
  - by destruct Hi as [_ [] _ _ _ _].
  - by destruct Hi as [_ _ [] _ _ _].
Qed.

Lemma issue_one_ok hs ds dy a SQ RQ y n s :
  inv hs ds [] dy a SQ RQ s -> conns s !! a = Some y -> closing (state y) = false ->
  state y <> S_INITIAL /\ state y <> S_CONNECTING -> seq_calls y < INT_MAX ->
  exists s' y' SQ', issue_one param (signal (S n)) a s = Ret s' /\ inv hs ds [] dy a SQ' RQ s' /\ conns s' !! a = Some y' /\
    state y' = state y /\ seq_calls y' = seq_calls y + 1 /\ seq_completed y' = seq_completed y /\ seq_destroyed y' = seq_destroyed y /\
    length (SQ' a) = (length (SQ a) + if (seq_calls y <? num_calls param)%Z then 1 else 0)%nat /\ quiet seen s s'.
Proof.
  intros Hi Hy Ho Hst Hn. unfold issue_one. rewrite (conn_at_eq a y), bind_Ret, bump_eq, bind_Ret by done.
  rewrite (upd_conn_at a _ y), bind_Ret by done. set (y1 := set_seq_calls (seq_calls y + 1) y).
  assert (Hi1 : inv hs ds [] dy a SQ RQ (put_conn a y1 s)).
  { eapply inv_seq; [exact Hi | exact Hy | done | done | done | by left | done | tauto]. }
  destruct (seq_calls y <? num_calls param).
  2: { eexists _, y1, SQ. split_and!; [reflexivity | done | apply put_conn_get | done .. | lia | by constructor]. }
  pose proof Hi1 as [Hh Hf Ht Hm Hk Hg].
  destruct (call_new_ok n (put_conn a y1 s) Hm) as (c & x & fr & b & i & E & Hc & Hpos & Hwf & Hr & Hm2).
  rewrite E, bind_Ret. set (s2 := with_new c x fr b i (put_conn a y1 s)).
  assert (HL : loose SQ RQ c) by (by eapply fresh_loose).
  assert (Hi2 : inv hs ds [c] dy a SQ RQ s2).
  { constructor; [| by destruct Hf | by destruct Ht | exact Hm2 | by destruct Hk | by destruct Hg].
    eapply heap_loose; [exact Hh | done | done | done | | | |].
    - rewrite Hr, count_cons, decide_True by done. reflexivity.
    - rewrite Hr. lia.
    - intros d Hd. destruct Hh. destruct (h_dy0 c d Hd) as (w & Hw & _). congruence.
    - intros d Hne. rewrite count_cons, decide_False by congruence. lia. }
  destruct (core_send_ok hs ds dy SQ RQ a c y1 x s2 Hi2 HL (lookup_insert_eq _ _ _) Hr (put_conn_get a y1 s) Ho Hst n)
    as (s3 & y3 & x3 & E3 & Hi3 & Hy3 & (S1 & S2 & S3 & S4) & Hx3 & Hr3 & U3).
  rewrite E3, bind_Ret. destruct (give_back_ok _ _ _ _ _ _ c x3 (S n) s3 Hi3 Hx3 Hr3) as (s4 & E4 & Hi4 & Ec4 & U4).
  exists s4, y3, (upd SQ a (SQ a ++ [c])). rewrite Ec4. split_and!; [exact E4 | exact Hi4 | exact Hy3 | done | done | done | done | |].
  - by rewrite upd_eq, length_app.
  - eapply quiet_trans; [| exact U4]. eapply quiet_trans; [| exact U3]. by constructor.
Qed.

(** A burst: as many calls as are left, at most [burst_length]. *)
Lemma issue_calls_ok hs ds dy ex a SQ RQ y n s :
  inv hs ds [] dy ex SQ RQ s -> ex = a \/ ex = 0 -> (forall c b, dy = Some (c, b) -> b = a) ->
  conns s !! a = Some y -> closing (state y) = false -> state y <> S_INITIAL /\ state y <> S_CONNECTING ->
  SQ a = [] -> RQ a = [] -> seq_calls y = 0 \/ 0 <= seq_calls y < num_calls param ->
  exists s' y' SQ', issue_calls param (signal (S n)) a s = Ret s' /\ inv hs ds [] (settled dy) 0 SQ' RQ s' /\
    conns s' !! a = Some y' /\ state y' = state y /\ quiet seen s s'.
Proof.
  intros Hi Hex Hdy Hy Ho Hst HS HR Hseq. unfold issue_calls. rewrite (upd_conn_at a _ y), bind_Ret by done.
  set (y1 := set_seq_destroyed 0 (set_seq_completed 0 y)). set (s1 := put_conn a y1 s).
  assert (Hi1 : inv hs ds [] (settled dy) a SQ RQ s1).
  { assert (Hi1 : inv hs ds [] dy a SQ RQ s1) by (eapply inv_seq; [exact Hi | exact Hy | done | done | done | done | done | tauto]).
    destruct Hi1 as [Hh ? ? ? ? ?]. pose proof (proj1 (h_conn _ _ _ _ _ _ _ _ _ _ Hh a y1 (put_conn_get a y1 s))). constructor; try assumption. by apply heap_settle. }
  pose proof (po_burst _ Hpar) as Hb. pose proof (po_int _ Hpar) as Hint. pose proof (po_calls _ Hpar) as Hnc.
  set (P := fun k t => exists y2 SQ2, inv hs ds [] (settled dy) a SQ2 RQ t /\ conns t !! a = Some y2 /\ state y2 = state y /\
     seq_calls y2 = seq_calls y + k /\ seq_completed y2 = 0 /\ seq_destroyed y2 = 0 /\
     Z.of_nat (length (SQ2 a)) = Z.max 0 (Z.min k (num_calls param - seq_calls y)) /\ quiet seen s t).
  destruct (for_c_inv P 0 (burst_length param) (fun _ => issue_one param (signal (S n)) a) s1) as (s2 & E & (y2 & SQ2 & Hi2 & Hy2 & T1 & T2 & T3 & T4 & T5 & T6)).
  - lia.
  - exists y1, SQ. rewrite HS. split_and!; [exact Hi1 | apply put_conn_get | done | cbn; lia | done | done | cbn [length]; lia | by constructor].
  - intros k t Hk (y2 & SQ2 & Hi2 & Hy2 & T1 & T2 & T3 & T4 & T5 & T6).
    destruct (issue_one_ok hs ds (settled dy) a SQ2 RQ y2 n t Hi2 Hy2) as (t' & y3 & SQ3 & E & Hi3 & Hy3 & U1 & U2 & U3 & U4 & U5 & U6);
      [congruence | by rewrite T1 | lia |].
    exists t'. split; [exact E |]. exists y3, SQ3. split_and!; [exact Hi3 | exact Hy3 | congruence | lia | congruence | congruence | | by eapply quiet_trans].
    rewrite U5. destruct (Z.ltb_spec (seq_calls y2) (num_calls param)); lia.
  - rewrite E. exists s2, y2, SQ2. split_and!; [done | | exact Hy2 | done | done].
    rewrite <- (put_conn_id a y2 s2 Hy2). eapply inv_seq; [exact Hi2 | exact Hy2 | done | done | done | by left | | rewrite T1; tauto].
    intros _ _. right. rewrite T1. split_and!; [tauto | tauto |]. unfold seq_ok, created. rewrite T2, T3, T4, HR, app_nil_r, T5.
    assert (E0 : pending (settled dy) a = 0).
    { destruct dy as [[c b] |]; [| done]. cbn. destruct Hi as [[] _ _ _ _ _]. destruct (h_conn0 a y Hy). specialize (Hdy c b eq_refl). rewrite decide_False; [done | cbn in *; lia]. }
    rewrite E0. lia.
Qed.
End Issue. End HttperfIssue.
