(* ===== verification/HttperfClose.v ===== *)
(** * httperf/src/core.c: closing a connection keeps the invariant

    The calls of the queues are dropped, the descriptor and the watchdog are given back, and
    the connection has the references only that others hold. *)
From S2P Require Import Prelude Doubles HttpReply HttpReplyTotal Ports AddrTable BasicStats HttperfState Httperf HttperfRequest HttperfInv HttperfFrame HttperfSteps.

Module HttperfClose.
Import HttperfState Httperf HttperfRequest HttperfInv HttperfFrame HttperfHeap HttperfSteps.

Section Close.
Context {W A : Type} (sys : system W A) (param : Cmdline_Params) (hash_table : AddrTable.table A).
Context (act : action).
Context (opened : W -> gset Z) (seen : W -> Time -> Prop).
Context (Hact : forall e, act e = handlers_of param e) (Hsys : system_ok sys opened seen).
Implicit Types s : st W.
Abbreviation inv := (inv param opened seen).
Abbreviation signal := (event_signal sys param hash_table act).

(** ** The calls of a connection that is closing *)

(** What dropping calls leaves: [fr] are the calls freed, [k] how many. *)
Definition dropped (a : Z) (y : Conn) (k : Z) (fr : list (Z * Call)) (km : gmap Z Call) s : st W :=
  set_free_calls (fr ++ free_calls s) (set_calls km (put_conn a (set_seq_destroyed (seq_destroyed y + k) y) s)).

Lemma drop_one n a c x y s :
  calls s !! c = Some x -> c_ref x = 1 -> call_conn x = a -> conns s !! a = Some y -> closing (state y) = true ->
  seq_destroyed y < INT_MAX -> seq_completed y <= seq_destroyed y ->
  exists z, call_dec_ref (signal (S n)) c s = Ret (dropped a y 1 [(c, z)] (delete c (calls s)) s).
Proof.
  intros Hx Hr Hc Hy Hcl Hmax Hle. unfold call_dec_ref. rewrite (call_at_eq c x), bind_Ret, Hr by done.
  cbn [assert_at BasicStats.assert_at Z.ltb Z.compare]. rewrite bind_Ret, (upd_call_at c _ x), bind_Ret by done.
  change (1 - 1 =? 0) with true. cbv iota. unfold call_destroy. set (z := set_c_ref (1 - 1) x).
  rewrite call_at_put, bind_Ret. unfold call_deinit. rewrite bind_Ret.
  rewrite (signal_call_destroyed sys param hash_table act Hact). unfold call_destroyed.
  rewrite call_at_put, bind_Ret. change (call_conn z) with (call_conn x). rewrite Hc.
  rewrite (conn_at_eq a y), bind_Ret, bump_eq, bind_Ret by done. rewrite (upd_conn_at a _ y), bind_Ret by done.
  set (y1 := set_seq_destroyed _ y). set (s1 := put_conn a y1 (put_call c z s)).
  assert (E : (if Z.min (burst_length param) (num_calls param) <=? seq_destroyed y + 1
     then if (seq_completed y =? seq_destroyed y + 1) && (seq_calls y <? num_calls param) then issue_calls param (signal n) a s1
          else core_close sys (signal n) a s1
     else Ret s1) = Ret s1).
  { destruct (_ <=? _); [| done]. destruct (Z.eqb_spec (seq_completed y) (seq_destroyed y + 1)); [lia |]. cbn [andb].
    unfold core_close, s1. rewrite conn_at_put, bind_Ret. change (state y1) with (state y). by rewrite Hcl. }
  rewrite E, bind_Ret. rewrite (call_at_eq c z), bind_Ret by apply lookup_insert_eq.
  exists z. unfold dropped, s1. cbn. by rewrite delete_insert_eq.
Qed.

(** The loops of [core_close] over a queue. *)
Lemma drop_calls_ok n (f : Call -> Z) a l : forall fuel p y s,
  chain (fun c => f <$> calls s !! c) p l -> NoDup l -> (length l < fuel)%nat ->
  (forall c, c ∈ l -> exists x, calls s !! c = Some x /\ c_ref x = 1 /\ call_conn x = a) ->
  conns s !! a = Some y -> closing (state y) = true ->
  (l <> [] -> seq_completed y <= seq_destroyed y /\ seq_destroyed y + Z.of_nat (length l) <= INT_MAX) ->
  exists fr km, drop_calls (signal (S n)) fuel f p s = Ret (dropped a y (Z.of_nat (length l)) fr km s) /\
    map fst fr ≡ₚ l /\ (forall c, c ∈ l -> km !! c = None) /\ (forall c, c ∉ l -> km !! c = calls s !! c).
Proof.
  induction l as [| c l IH]; intros fuel p y s Hch Hnd Hf Hl Hy Hcl Hle.
  - cbn in Hch. subst p. exists [], (calls s). split_and!; try done; [| by intros c ?%elem_of_nil].
    assert (E : dropped a y 0 [] (calls s) s = s).
    { unfold dropped. replace (set_seq_destroyed (seq_destroyed y + 0) y) with y by (rewrite Z.add_0_r; by destruct y).
      rewrite put_conn_id by done. by destruct s. }
    change (Z.of_nat (length [])) with 0. rewrite E. by destruct fuel.
  - destruct Hch as (-> & H0 & q & Eq & Hch). apply NoDup_cons in Hnd as [Hc Hnd].
    destruct (Hl c) as (x & Hx & Hr & Hxc); [apply elem_of_cons; auto |]. rewrite Hx in Eq. injection Eq as Eq.
    destruct fuel as [| fuel]; [lia |]. cbn [drop_calls]. destruct (Z.eqb_spec c 0); [done |].
    rewrite (call_at_eq c x), bind_Ret by done. destruct (Hle ltac:(done)) as [Hle1 Hmax].
    cbn [length] in Hmax, Hf.
    destruct (drop_one n a c x y s Hx Hr Hxc Hy Hcl) as (z & Ez); [lia | done |]. rewrite Ez, bind_Ret.
    set (s1 := dropped a y 1 [(c, z)] (delete c (calls s)) s). set (y1 := set_seq_destroyed (seq_destroyed y + 1) y).
    assert (Same : forall d, d ∈ l -> calls s1 !! d = calls s !! d) by (intros d Hd; cbn; rewrite lookup_delete_ne; congruence).
    destruct (IH fuel (f x) y1 s1) as (fr & km & E & H1 & H2 & H3); [| done | lia | | apply put_conn_get | done | cbn; intros; lia |].
    + rewrite Eq. eapply chain_ext; [| exact Hch]. intros d Hd. cbv beta. by rewrite Same.
    + intros d Hd. rewrite Same by done. apply Hl, elem_of_cons. auto.
    + exists (fr ++ [(c, z)]), km. split_and!.
      * rewrite E. unfold s1, y1, dropped, put_conn. cbn [conns set_calls set_free_calls set_conns free_calls].
        rewrite insert_insert_eq, <- app_assoc. cbn [length].
        by replace (seq_destroyed y + Z.of_nat (S (length l))) with (seq_destroyed y + 1 + Z.of_nat (length l)) by lia.
      * rewrite map_app. cbn. rewrite H1. apply Permutation_app_comm.
      * intros d [-> | Hd]%elem_of_cons; [| by apply H2]. rewrite H3 by done. apply lookup_delete_eq.
      * intros d [Hd1 Hd2]%not_elem_of_cons. rewrite H3 by done. by apply lookup_delete_ne.
Qed.

(** ** The watchdog *)
Definition without (y : Conn) s : gmap Z (callback * Time) :=
  if watchdog y =? 0 then timers s else delete (watchdog y) (timers s).

Lemma watchdog_cancelled a y s : conns s !! a = Some y -> timers_ok param s ->
  cancel_watchdog a s = Ret (set_timers (without y s) (put_conn a (set_watchdog 0 y) s)).
Proof.
  intros Hy Ht. unfold cancel_watchdog, without. rewrite (conn_at_eq a y), bind_Ret by done.
  destruct (Z.eqb_spec (watchdog y) 0) as [E | E].
  - rewrite <- E at 1. rewrite set_watchdog_id, put_conn_id by done. by destruct s.
  - unfold timer_cancel. destruct (t_conn _ _ Ht a y Hy E) as (d & ->). rewrite bind_Ret. by rewrite (upd_conn_at a _ y).
Qed.

Lemma timers_cancelled a y y' s s' :
  conns s !! a = Some y -> conns s' = <[a := y']> (conns s) -> watchdog y' = 0 -> timers s' = without y s ->
  next_timer s' = next_timer s -> timers_ok param s -> timers_ok param s'.
Proof.
  intros Hy Ec Hw Et En Ht. pose proof (t_conn _ _ Ht a y Hy) as Hd. destruct Ht.
  assert (Sub : forall t cb, without y s !! t = Some cb -> timers s !! t = Some cb /\ (watchdog y <> 0 -> t <> watchdog y)).
  { intros t cb. unfold without. destruct (Z.eqb_spec (watchdog y) 0); [done |]. by rewrite lookup_delete_Some; intros [? ?]. }
  constructor; rewrite ?Ec, ?Et, ?En; try assumption.
  - intros b z [(-> & ->) | (Hb & Hz)]%get_insert Hz0; [done |]. destruct (t_conn0 b z Hz Hz0) as (d & Hd2). exists d.
    unfold without. destruct (Z.eqb_spec (watchdog y) 0) as [| N]; [done |]. rewrite lookup_delete_ne; [done |]. intros E.
    destruct (Hd N) as (d' & Hd'). congruence.
  - intros t b d [Hz Hne]%Sub. destruct (t_timer0 t b d Hz) as (z & Hz2 & Ez). exists z. rewrite lookup_insert_ne; [done |]. intros <-.
    assert (z = y) by congruence. subst z. destruct (decide (watchdog y = 0)) as [E |]; [| by destruct Hne].
    apply t_range0 in Hz. lia.
  - intros t cb [Hz _]%Sub. eauto.
  - intros t d [Hz _]%Sub. eauto.
Qed.

(** ** The descriptor *)
Lemma fds_closed SQ RQ SQ' RQ' a y y' s s' :
  fds_ok opened SQ RQ s -> conns s !! a = Some y -> closing (state y) = false -> conns s' = <[a := y']> (conns s) ->
  closing (state y') = true ->
  (forall b, b <> a -> SQ' b = SQ b /\ RQ' b = RQ b) ->
  (if 0 <=? sd y then sd_to_conn s' = <[sd y := 0]> (sd_to_conn s) /\ wrfds s' = wrfds s ∖ {[sd y]} /\ rdfds s' = rdfds s ∖ {[sd y]} /\
                      opened (world s') = opened (world s) ∖ {[sd y]}
   else sd_to_conn s' = sd_to_conn s /\ wrfds s' = wrfds s /\ rdfds s' = rdfds s /\ opened (world s') = opened (world s)) ->
  alloced_sd_to_conn s' = alloced_sd_to_conn s -> min_sd s' = min_sd s -> max_sd s' = max_sd s ->
  fds_ok opened SQ' RQ' s'.
Proof.
  intros Hf Hy Ho Ec Hcl Hq Hfd Ea Emin Emax. pose proof (fun b z => sd_owner opened SQ RQ a y b z s Hf Hy Ho) as Uniq.
  destruct Hf.
  assert (Fd : forall fd, fd <> sd y \/ sd y < 0 -> sd_to_conn s' !! fd = sd_to_conn s !! fd /\ (fd ∈ wrfds s' <-> fd ∈ wrfds s) /\
     (fd ∈ rdfds s' <-> fd ∈ rdfds s) /\ (fd ∈ opened (world s') <-> fd ∈ opened (world s))).
  { intros fd Hne. destruct (Z.leb_spec 0 (sd y)).
    - destruct Hfd as (-> & -> & -> & ->). rewrite !in_del by lia. rewrite lookup_insert_ne by lia. done.
    - by destruct Hfd as (-> & -> & -> & ->). }
  assert (Own : 0 <= sd y -> sd_to_conn s' !! sd y = Some 0 /\ (sd y ∉ wrfds s') /\ (sd y ∉ rdfds s')).
  { intros Hp. destruct (Z.leb_spec 0 (sd y)); [| lia]. destruct Hfd as (-> & -> & -> & _). rewrite lookup_insert_eq.
    split_and!; [done | apply not_in_deleted ..]. }
  assert (Other : forall b z, conns s !! b = Some z -> b <> a -> closing (state z) = false -> 0 <= sd z -> sd z <> sd y).
  { intros b z Hz Hb Hoz Hp E. apply Hb. apply (Uniq b z); try done. lia. }
  assert (Sets : forall fd (P P' : Z -> Conn -> Prop), (forall b z, b <> a -> P' b z <-> P b z) -> fd <> sd y \/ sd y < 0 ->
     (exists b z, conns s' !! b = Some z /\ closing (state z) = false /\ sd z = fd /\ 0 <= fd /\ P' b z) <->
     (exists b z, conns s !! b = Some z /\ closing (state z) = false /\ sd z = fd /\ 0 <= fd /\ P b z)).
  { intros fd P P' HP Hne. rewrite Ec. split.
    - intros (b & z & [(-> & ->) | (Hb & Hz)]%get_insert & Hoz & Es & Hp & H); [congruence |]. exists b, z. by rewrite <- HP.
    - intros (b & z & Hz & Hoz & Es & Hp & H). assert (b <> a) by (intros ->; assert (z = y) by congruence; subst z; lia).
      exists b, z. rewrite lookup_insert_ne, HP by done. done. }
  constructor; rewrite ?Ea, ?Emin, ?Emax; try assumption.
  - rewrite Ec. intros b z [(-> & ->) | (Hb & Hz)]%get_insert Hoz; [congruence |].
    destruct (f_conn0 b z Hz Hoz) as [? | (G1 & G2 & G3 & G4)]; [by left | right].
    destruct (Fd (sd z)) as (-> & _ & _ & ->); [left; apply (Other b z); try done; lia | done].
  - intros fd b Hb Hb0. destruct (decide (fd = sd y /\ 0 <= sd y)) as [[-> Hp] | Hne]; [destruct (Own Hp) as [E _]; congruence |].
    assert (Hne2 : fd <> sd y \/ sd y < 0) by lia. rewrite (proj1 (Fd fd Hne2)) in Hb.
    destruct (f_map0 fd b Hb Hb0) as (Hp & z & Hz & Oz & Ez). split; [done |]. exists z. rewrite Ec, lookup_insert_ne; [done |]. intros <-.
    assert (z = y) by congruence. subst z. lia.
  - intros fd. destruct (decide (fd = sd y /\ 0 <= sd y)) as [[-> Hp] | Hne].
    + destruct (Own Hp) as (_ & N & _). split; [done |]. rewrite Ec.
      intros (b & z & [(-> & ->) | (Hb & Hz)]%get_insert & Hoz & Es & _); [congruence |]. destruct (Other b z Hz Hb Hoz); [lia | done].
    + assert (Hne2 : fd <> sd y \/ sd y < 0) by lia. destruct (Fd fd Hne2) as (_ & -> & _). rewrite f_wr0. symmetry. apply Sets; [| done].
      intros b z Hb. by destruct (Hq b Hb) as [-> _].
  - intros fd. destruct (decide (fd = sd y /\ 0 <= sd y)) as [[-> Hp] | Hne].
    + destruct (Own Hp) as (_ & _ & N). split; [done |]. rewrite Ec.
      intros (b & z & [(-> & ->) | (Hb & Hz)]%get_insert & Hoz & Es & _); [congruence |]. destruct (Other b z Hz Hb Hoz); [lia | done].
    + assert (Hne2 : fd <> sd y \/ sd y < 0) by lia. destruct (Fd fd Hne2) as (_ & _ & -> & _). rewrite f_rd0. symmetry. apply Sets; [| done].
      intros b z Hb. by destruct (Hq b Hb) as [_ ->].
  - intros fd Hin. apply f_range0. apply elem_of_union. apply elem_of_union in Hin.
    destruct (Z.leb_spec 0 (sd y)); destruct Hfd as (_ & E1 & E2 & _); rewrite E1, E2 in Hin; [| done].
    rewrite !elem_of_difference in Hin. tauto.
Qed.

(** ** core_close *)
Lemma memory_freed l fr s s' :
  brk s' = brk s -> free_conns s' = free_conns s -> free_calls s' = fr ++ free_calls s -> map fst fr ≡ₚ l -> NoDup l ->
  (forall b, is_Some (conns s' !! b) -> is_Some (conns s !! b)) ->
  (forall c, c ∈ l -> calls s' !! c = None /\ exists x, calls s !! c = Some x /\ 0 < c) ->
  (forall c, c ∉ l -> calls s' !! c = calls s !! c) -> memory_ok s -> memory_ok s'.
Proof.
  intros E1 E2 E3 Hfr Hnd Hc Hl Hk Hm. pose proof Hm as [M1 [M2 M2'] M3 M4 M5].
  assert (Sub : forall c x, calls s' !! c = Some x -> calls s !! c = Some x).
  { intros c x Hx. destruct (decide (c ∈ l)) as [Hin | Hin]; [destruct (Hl c Hin); congruence | by rewrite <- Hk]. }
  assert (M : memory_ok (set_free_calls (free_calls s) s')).
  { eapply memory_change; [.. | exact Hm]; try done. intros c [x Hx]. exists x. by apply Sub. }
  destruct M as [N1 _ N3 N4 N5]. constructor; try assumption. rewrite E3, map_app, E1. split.
  - rewrite Hfr. apply NoDup_app. split_and!; [done | | done]. intros c Hin Hin2. destruct (M2' c Hin2). destruct (Hl c Hin) as (_ & x & Hx & _). congruence.
  - intros c [Hin | Hin]%elem_of_app.
    + rewrite Hfr in Hin. destruct (Hl c Hin) as (H1 & x & Hx & Hp). apply M4 in Hx. auto.
    + destruct (M2' c Hin) as [? E]. split; [done |]. destruct (calls s' !! c) as [x |] eqn:Ex; [apply Sub in Ex; congruence | done].
Qed.

Lemma queue_fits (l : list Z) (m : gmap Z Call) : NoDup l -> (forall c, c ∈ l -> is_Some (m !! c)) -> (length l < S (size m))%nat.
Proof.
  intros Hnd Hin. rewrite <- (size_list_to_set (C := gset Z)) by done. rewrite <- (size_dom (D := gset Z)).
  apply Nat.lt_succ_r, subseteq_size. intros c Hc. apply elem_of_list_to_set in Hc. by apply elem_of_dom, Hin.
Qed.

(** The connection as [core_close] leaves it, when [k] calls were dropped. *)
Definition closed_conn (k : Z) (y : Conn) : Conn :=
  set_sd (-1) (set_recvq 0 (set_seq_destroyed (seq_destroyed y + k) (set_sendq 0 (set_watchdog 0 (set_state S_CLOSING y))))).

(** What [core_close] did when it gives up its reference. *)
Record closed (a : Z) (y : Conn) (l : list Z) s s1 : Prop := {
  cd_quiet : quiet seen s s1;
  cd_conns : exists k, conns s1 = <[a := closed_conn k y]> (conns s);
  cd_gone c : c ∈ l -> calls s1 !! c = None;
  cd_kept c : c ∉ l -> calls s1 !! c = calls s !! c;
  cd_freed : exists fr, free_calls s1 = fr ++ free_calls s /\ map fst fr ≡ₚ l;
  cd_brk : brk s1 = brk s;
  cd_free_conns : free_conns s1 = free_conns s;
  cd_timers : timers s1 = without y s;
  cd_next_timer : next_timer s1 = next_timer s;
  cd_fds : if 0 <=? sd y then sd_to_conn s1 = <[sd y := 0]> (sd_to_conn s) /\ wrfds s1 = wrfds s ∖ {[sd y]} /\ rdfds s1 = rdfds s ∖ {[sd y]} /\
                      opened (world s1) = opened (world s) ∖ {[sd y]}
           else sd_to_conn s1 = sd_to_conn s /\ wrfds s1 = wrfds s /\ rdfds s1 = rdfds s /\ opened (world s1) = opened (world s);
  cd_alloced : alloced_sd_to_conn s1 = alloced_sd_to_conn s;
  cd_min : min_sd s1 = min_sd s;
  cd_max : max_sd s1 = max_sd s
}.

Lemma closed_inv hs ds dy ex SQ RQ a y s s1 :
  inv hs ds [] dy ex SQ RQ s -> conns s !! a = Some y -> closing (state y) = false -> closed a y (SQ a ++ RQ a) s s1 ->
  inv (a :: hs) ds [] dy ex (upd SQ a []) (upd RQ a []) s1.
Proof.
  intros [Hh Hf Ht Hm Hk Hg] Hy Ho []. destruct cd_conns0 as (k & Ec). destruct cd_freed0 as (fr & Ef & Hfr).
  set (y1 := closed_conn k y) in *.
  assert (HL : same_lives s s1) by (apply (same_lives_at a y y1); [done | done | split_and!; auto; done]).
  constructor.
  - rewrite Ec. eapply heap_close; [exact Hh | exact Hy | exact Ho | exact cd_gone0 | exact cd_kept0 | done ..].
  - eapply (fds_closed SQ RQ _ _ a y y1 s s1); try done. intros b Hb. by rewrite !upd_ne.
  - by apply (timers_cancelled a y y1 s s1).
  - destruct Hh. eapply memory_freed; [done | done | exact Ef | exact Hfr | apply h_nodup0 | | | exact cd_kept0 | exact Hm].
    + intros b [z Hz]. destruct (proj1 HL b z Hz) as (w & -> & _). by eexists.
    + intros c Hc. split; [by apply cd_gone0 |]. destruct (h_in0 a c Hc) as (x & Hx & _). exists x. split; [done |]. by apply (h_call0 c x).
  - by eapply clock_change.
  - by eapply counts_change.
Qed.

(** The descriptor is closed, when there is one. *)
Definition close_fd (fd : Z) s : cres (st W) :=
  if 0 <=? fd then
    let s := set_world (sys_close sys fd (world s)) s in
    let s := set_sd_to_conn (<[fd := 0]> (sd_to_conn s)) s in
    s ← FD_CLR Wr fd s; FD_CLR Rd fd s
  else Ret s.

Lemma close_fd_ok fd s : fd < FD_SETSIZE -> close_fd fd s = Ret (if 0 <=? fd then
    set_rdfds (rdfds s ∖ {[fd]}) (set_wrfds (wrfds s ∖ {[fd]})
      (set_sd_to_conn (<[fd := 0]> (sd_to_conn s)) (set_world (sys_close sys fd (world s)) s))) else s).
Proof. intros H. unfold close_fd. destruct (Z.leb_spec 0 fd); [| done]. by rewrite FD_CLR_in, bind_Ret, FD_CLR_in by lia. Qed.

Lemma core_close_front n hs ds dy ex SQ RQ a y s :
  inv hs ds [] dy ex SQ RQ s -> conns s !! a = Some y -> closing (state y) = false ->
  (SQ a ++ RQ a <> [] -> seq_completed y <= seq_destroyed y /\ seq_destroyed y + Z.of_nat (length (SQ a ++ RQ a)) <= INT_MAX) ->
  exists s1, core_close sys (signal (S n)) a s = conn_dec_ref (signal (S n)) a s1 /\ closed a y (SQ a ++ RQ a) s s1.
Proof.
  intros Hi Hy Ho Hle. pose proof Hi as [Hh Hf Ht _ _ _]. destruct Hh.
  assert (Hsd : sd y < FD_SETSIZE) by (destruct Hf as [Hf _ _ _ _ _ _]; destruct (Hf a y Hy Ho) as [[-> _] | ?]; [done | tauto]).
  destruct (h_open0 a y Hy Ho) as [Q1 Q2]. pose proof (h_nodup0 a) as Hnd. pose proof Hnd as (Nd1 & Disj & Nd2)%NoDup_app.
  rewrite length_app in Hle.
  assert (Calls : forall c, c ∈ SQ a ++ RQ a -> exists x, calls s !! c = Some x /\ c_ref x = 1 /\ call_conn x = a).
  { intros c Hc. destruct (h_in0 a c Hc) as (x & Hx & Ex). exists x. split_and!; try done.
    destruct (h_call0 c x Hx) as (_ & _ & -> & _). by rewrite Ex, (cnt_nodup c). }
  unfold core_close. rewrite (conn_at_eq a y), bind_Ret, Ho by done. rewrite (upd_conn_at a _ y), bind_Ret by done.
  set (y1 := set_state S_CLOSING y). set (s1 := put_conn a y1 s).
  rewrite (watchdog_cancelled a y1 s1), bind_Ret by (apply put_conn_get || by apply (timers_conn a y y1 s)).
  set (y2 := set_watchdog 0 y1). set (s2 := set_timers _ _).
  rewrite (conn_at_eq a y2), bind_Ret by apply put_conn_get.
  destruct (drop_calls_ok n sendq_next a (SQ a) (S (size (calls s2))) (sendq y2) y2 s2) as (fr1 & km1 & -> & F1 & G1 & K1);
    [apply Q1 | done | apply queue_fits; [done |] | | apply put_conn_get | done | intros; specialize (Hle ltac:(by destruct (SQ a))); cbn; lia |].
  { intros c Hc. destruct (Calls c) as (x & Hx & _); [apply elem_of_app; auto | by exists x]. }
  { intros c Hc. apply Calls, elem_of_app. auto. }
  rewrite bind_Ret. set (y3 := set_seq_destroyed (seq_destroyed y2 + Z.of_nat (length (SQ a))) y2).
  rewrite (upd_conn_at a _ y3), bind_Ret by apply put_conn_get. set (y4 := set_sendq 0 y3).
  set (s4 := put_conn a y4 _). rewrite (conn_at_eq a y4), bind_Ret by apply put_conn_get.
  assert (Same : forall c, c ∈ RQ a -> km1 !! c = calls s !! c) by (intros c Hc; apply K1; intros Hin; by apply (Disj c)).
  destruct (drop_calls_ok n recvq_next a (RQ a) (S (size (calls s4))) (recvq y4) y4 s4) as (fr2 & km2 & -> & F2 & G2 & K2);
    [| done | apply queue_fits; [done |] | | apply put_conn_get | done | |].
  { eapply chain_ext; [| apply Q2]. intros c Hc. cbv beta. cbn. by rewrite Same. }
  { intros c Hc. cbn. rewrite Same by done. destruct (Calls c) as (x & Hx & _); [apply elem_of_app; auto | by exists x]. }
  { intros c Hc. cbn. rewrite Same by done. apply Calls, elem_of_app. auto. }
  { intros Hne. cbn. specialize (Hle ltac:(by destruct (SQ a))). lia. }
  rewrite bind_Ret. set (y5 := set_seq_destroyed (seq_destroyed y4 + Z.of_nat (length (RQ a))) y4).
  rewrite (upd_conn_at a _ y5), bind_Ret by apply put_conn_get. set (y6 := set_recvq 0 y5). set (s6 := put_conn a y6 _).
  rewrite (conn_at_eq a y6), bind_Ret by apply put_conn_get. rewrite (upd_conn_at a _ y6), bind_Ret by apply put_conn_get.
  set (y7 := set_sd (-1) y6). rewrite (signal_quiet sys param hash_table act Hact n EV_CONN_CLOSE), bind_Ret by done.
  rewrite conn_at_put, bind_Ret. change (bool_decide (state y7 = S_CLOSING)) with true. cbn [assert_at BasicStats.assert_at]. rewrite bind_Ret.
  change (myport y7) with (myport y). change (sd y6) with (sd y). set (s8 := put_conn a y7 s6).
  match goal with |- exists s1, (_ ← ?m; _) = _ /\ _ => change m with (close_fd (sd y) s8) end. rewrite close_fd_ok, bind_Ret by done.
  rewrite (proj1 (proj2 (h_conn0 a y Hy))). change (0 <? -1) with false. cbv iota. rewrite bind_Ret.
  eexists. split; [reflexivity |].
  assert (K : exists k, <[a := y7]> (conns s6) = <[a := closed_conn k y]> (conns s)).
  { exists (Z.of_nat (length (SQ a)) + Z.of_nat (length (RQ a))). unfold s6, s4, s2, s1, put_conn. cbn.
    rewrite !insert_insert_eq. f_equal. unfold y7, y6, y5, y4, y3, y2, y1, closed_conn. cbn. by rewrite Z.add_assoc. }
  assert (Gone : forall c, c ∈ SQ a ++ RQ a -> km2 !! c = None).
  { intros c [Hc | Hc]%elem_of_app; [| by apply G2]. destruct (decide (c ∈ RQ a)); [by apply G2 | rewrite K2 by done; by apply G1]. }
  assert (Kept : forall c, c ∉ SQ a ++ RQ a -> km2 !! c = calls s !! c).
  { intros c Hc. rewrite not_elem_of_app in Hc. destruct Hc. rewrite K2 by done. by apply K1. }
  assert (Freed : exists fr, fr2 ++ fr1 ++ free_calls s = fr ++ free_calls s /\ map fst fr ≡ₚ SQ a ++ RQ a).
  { exists (fr2 ++ fr1). rewrite <- app_assoc. split; [done |]. rewrite map_app, F1, F2. apply Permutation_app_comm. }
  destruct (Z.leb_spec 0 (sd y)) as [L | L].
  - constructor; try done; [constructor; try done; by apply (so_close _ _ _ Hsys) |].
    destruct (Z.leb_spec 0 (sd y)); [| lia]. split_and!; try done. by apply (so_close _ _ _ Hsys).
  - constructor; try done. destruct (Z.leb_spec 0 (sd y)); [lia | done].
Qed.
End Close.
Arguments timers_cancelled {W param}.
End HttperfClose.
