(* ===== verification/HttperfDone.v ===== *)
(** * httperf/src: references to connections, and the end of a call

    Module HttperfRefs takes and gives back references to a connection and closes one that is
    held.  Module HttperfDone is the end of a call: the call leaves the receive queue, is
    counted and destroyed, and its connection goes on with the next burst or is closed. *)
From S2P Require Import Prelude HttpReply Ports AddrTable Doubles BasicStats BasicStatsTheorems HttpReplyTotal HttperfState Httperf HttperfRequest HttperfInv HttperfFrame HttperfSteps HttperfIssue HttperfClose.

Module HttperfRefs.
Import HttperfState Httperf HttperfRequest HttperfInv HttperfFrame HttperfHeap HttperfSteps HttperfIssue HttperfClose.

Section Refs.
Context {W A : Type} (sys : system W A) (param : Cmdline_Params) (hash_table : AddrTable.table A).
Context (act : action).
Context (opened : W -> gset Z) (seen : W -> Time -> Prop).
Context (Hact : forall e, act e = handlers_of param e) (Hpar : params_ok param) (Hsys : system_ok sys opened seen).
Implicit Types s : st W.
Abbreviation inv := (inv param opened seen).
Abbreviation signal := (event_signal sys param hash_table act).

(** ** References *)
Lemma heap_hold hs hs' ds hc dy ex SQ RQ cm km a y r :
  heap_ok param hs ds hc dy ex SQ RQ cm km -> cm !! a = Some y ->
  r = (if closing (state y) then 0 else 1) + cnt a hs' -> (forall b, b <> a -> cnt b hs' = cnt b hs) ->
  (state y = S_CLOSING -> a ∈ hs') -> (state y = S_FREE -> r = 0) ->
  heap_ok param hs' ds hc dy ex SQ RQ (<[a := set_s_ref r y]> cm) km.
Proof.
  intros Hh Hy Hr Hcnt Hcl Hfr. pose proof Hh as []. eapply heap_conns; [exact Hh | | apply h_ds0 |].
  - intros b Hb. rewrite lookup_insert_ne by done. split_and!; [done | by apply Hcnt | done].
  - rewrite lookup_insert_eq. cbn. destruct (h_conn0 a y Hy) as (H1 & H2 & H3 & H4).
    split; [intros Hne; destruct (h_queued0 a Hne) as (z & Hz & ?); congruence |].
    split_and!; try done; try tauto.
    + split; [intros E; by apply (h_ids0 a y) |]. intros Hin. destruct (proj2 h_ds0 a Hin) as (z & Hz & ?). congruence.
    + intros E. split; [auto | by apply (h_ids0 a y)].
    + intros E. destruct (h_closing0 a y Hy E) as (? & ? & ? & ? & _). split_and!; auto.
    + by apply h_open0.
    + by apply (h_state0 a y).
    + exact (h_seq0 a y Hy).
    + exact (h_fresh0 a y Hy).
Qed.

Lemma inv_hold hs hs' ds hc dy ex SQ RQ a y r s :
  inv hs ds hc dy ex SQ RQ s -> conns s !! a = Some y ->
  r = (if closing (state y) then 0 else 1) + cnt a hs' -> (forall b, b <> a -> cnt b hs' = cnt b hs) ->
  (state y = S_CLOSING -> a ∈ hs') -> (state y = S_FREE -> r = 0) ->
  inv hs' ds hc dy ex SQ RQ (put_conn a (set_s_ref r y) s).
Proof.
  intros Hi Hy Hr Hcnt Hcl Hfr. pose proof Hi as [Hh Hf Ht _ _ _].
  eapply inv_change_at; [exact Hi | same_rest | exact Hy | reflexivity | by apply lives_state | done | | |].
  - by eapply heap_hold.
  - by apply (fds_same opened SQ RQ a y (set_s_ref r y) s).
  - by apply (timers_conn a y (set_s_ref r y) s).
Qed.

Lemma conn_inc_ref_ok ds hc dy ex SQ RQ a y s :
  inv [] ds hc dy ex SQ RQ s -> conns s !! a = Some y -> closing (state y) = false ->
  exists r, conn_inc_ref a s = Ret (put_conn a (set_s_ref r y) s) /\ inv [a] ds hc dy ex SQ RQ (put_conn a (set_s_ref r y) s).
Proof.
  intros Hi Hy Ho. pose proof Hi as [Hh _ _ _ _ _]. destruct Hh. destruct (h_conn0 a y Hy) as (_ & _ & _ & Hr).
  rewrite Ho in Hr. exists 2. split.
  - unfold conn_inc_ref. rewrite (upd_conn_at a _ y) by done. by replace (u32 (s_ref y + 1)) with 2 by (rewrite Hr; reflexivity).
  - eapply inv_hold; [exact Hi | exact Hy | | | by intros E; rewrite E in Ho | by intros E; rewrite E in Ho].
    + rewrite Ho, count_cons, decide_True by done. reflexivity.
    + intros b Hb. rewrite count_cons, decide_False by congruence. lia.
Qed.

(** A reference of several is given back. *)
Lemma conn_dec_ref_kept n hs ds hc dy ex SQ RQ a y s :
  inv (a :: hs) ds hc dy ex SQ RQ s -> conns s !! a = Some y -> 1 < s_ref y -> state y <> S_FREE ->
  exists s' y', conn_dec_ref (signal n) a s = Ret s' /\ inv hs ds hc dy ex SQ RQ s' /\ conns s' !! a = Some y' /\ state y' = state y.
Proof.
  intros Hi Hy Hr Hfree. pose proof Hi as [Hh _ _ _ _ _]. destruct Hh. destruct (h_conn0 a y Hy) as (_ & _ & _ & Er).
  rewrite count_cons, decide_True in Er by done.
  unfold conn_dec_ref. rewrite (conn_at_eq a y), bind_Ret by done. unfold assert_at, BasicStats.assert_at.
  destruct (Z.ltb_spec 0 (s_ref y)); [| lia]. rewrite bind_Ret, (upd_conn_at a _ y), bind_Ret by done.
  destruct (Z.eqb_spec (s_ref y - 1) 0); [lia |]. eexists _, _. split_and!; [reflexivity | | apply put_conn_get | done].
  eapply inv_hold; [exact Hi | exact Hy | lia | | | done].
  - intros b Hb. rewrite count_cons, decide_False by congruence. lia.
  - intros E. apply count_pos. rewrite E in Er. change (closing S_CLOSING) with true in Er. cbv iota in Er. lia.
Qed.

(** ** The watchdog *)
(** What the heap depends on is the same; a connection that is not made yet may go on. *)
Record heap_like (y y' : Conn) : Prop := {
  hl_state : state y' = state y \/ ((state y = S_INITIAL \/ state y = S_CONNECTING) /\ closing (state y') = false);
  hl_ref : s_ref y' = s_ref y;
  hl_myport : myport y' = myport y;
  hl_length : content_length y' = content_length y;
  hl_calls : seq_calls y' = seq_calls y;
  hl_completed : seq_completed y' = seq_completed y;
  hl_destroyed : seq_destroyed y' = seq_destroyed y;
  hl_sendq : sendq y' = sendq y;
  hl_sendq_tail : sendq_tail y' = sendq_tail y;
  hl_recvq : recvq y' = recvq y;
  hl_recvq_tail : recvq_tail y' = recvq_tail y
}.

Lemma heap_fields hs ds hc dy ex SQ RQ cm km a y y' :
  heap_ok param hs ds hc dy ex SQ RQ cm km -> cm !! a = Some y -> closing (state y) = false -> heap_like y y' ->
  heap_ok param hs ds hc dy ex SQ RQ (<[a := y']> cm) km.
Proof.
  intros Hh Hy Ho []. pose proof Hh as [].
  assert (Ho' : closing (state y') = false) by (destruct hl_state0 as [-> | [_ ?]]; done).
  eapply heap_conns; [exact Hh | | apply h_ds0 |].
  - intros b Hb. by rewrite lookup_insert_ne.
  - rewrite lookup_insert_eq. destruct (h_conn0 a y Hy) as (H1 & H2 & H3 & H4). rewrite Ho in H4.
    split; [done |]. rewrite hl_ref0, hl_myport0, hl_length0, Ho', hl_sendq0, hl_sendq_tail0, hl_recvq0, hl_recvq_tail0, hl_calls0.
    split_and!; try done; try tauto; try (by intros E; rewrite E in Ho').
    + split; [intros E; by rewrite E in Ho' |]. intros Hin. destruct (proj2 h_ds0 a Hin) as (z & Hz & E). rewrite Hy in Hz. injection Hz as <-. by rewrite E in Ho.
    + intros _. by apply h_open0.
    + destruct hl_state0 as [-> | [E _]]; [by apply (h_state0 a y) |]. intros _. apply (h_state0 a y Hy). by destruct E as [-> | ->].
    + intros _ Hex. unfold seq_ok. rewrite hl_calls0, hl_completed0, hl_destroyed0. destruct hl_state0 as [-> | [E _]]; [by apply h_seq0 |].
      left. destruct (h_seq0 a y Hy Ho Hex) as [? | (? & ? & _)]; [done | tauto].
    + destruct hl_state0 as [-> | [E _]]; [by apply h_fresh0 |]. intros _. by apply (h_fresh0 a y).
Qed.

(** What a connection waits for is watched already. *)
Definition waits (f : fdset) (SQ RQ : Z -> list Z) (a : Z) (y : Conn) : Prop :=
  match f with Rd => RQ a <> [] | Wr => state y = S_CONNECTING \/ SQ a <> [] end.

Lemma set_active_inv hs ds hc dy ex SQ RQ a f y s :
  inv hs ds hc dy ex SQ RQ s -> conns s !! a = Some y -> closing (state y) = false -> 0 <= sd y < FD_SETSIZE ->
  waits f SQ RQ a y ->
  exists s' w, set_active a f s = Ret s' /\ inv hs ds hc dy ex SQ RQ s' /\ conns s' !! a = Some (set_watchdog w y) /\ calls s' = calls s.
Proof.
  intros Hi Hy Ho Hsd Hw. pose proof Hi as [Hh Hf Ht _ _ _]. destruct (heads_there param _ _ _ _ _ _ _ _ _ _ Hh Hy Ho) as [H1 H2].
  destruct (set_active_ok param a f y s Hy Hsd H1 H2 Ht) as (w & m & k & i & j & E & Hij & Hi1 & Hj & Ht' & _).
  exists (activated a f y w m k i j s), w. split_and!; [done | | apply lookup_insert_eq | by destruct f].
  assert (Ewr : sd y ∈ wrfds (activated a f y w m k i j s) <-> 0 <= sd y /\ (state y = S_CONNECTING \/ SQ a <> [])).
  { rewrite <- (wr_iff opened SQ RQ a y s) by done. destruct f; [done |]. cbn in Hw. rewrite (wr_iff opened SQ RQ a y s) by done.
    split; [intros _; tauto | intros _; apply in_added]. }
  assert (Erd : sd y ∈ rdfds (activated a f y w m k i j s) <-> 0 <= sd y /\ RQ a <> []).
  { rewrite <- (rd_iff opened SQ RQ a y s) by done. destruct f; [| done]. cbn in Hw. rewrite (rd_iff opened SQ RQ a y s) by done.
    split; [intros _; tauto | intros _; apply in_added]. }
  eapply inv_change_at; [exact Hi | by destruct f; same_rest | exact Hy | by destruct f | by apply lives_state | by destruct f | | | done].
  - replace (conns (activated a f y w m k i j s)) with (<[a := set_watchdog w y]> (conns s)) by (by destruct f).
    replace (calls (activated a f y w m k i j s)) with (calls s) by (by destruct f). apply (heap_fields hs ds hc dy ex SQ RQ (conns s) (calls s) a y); try done. constructor; auto.
  - apply (fds_change opened SQ RQ SQ RQ a y (set_watchdog w y) s); try done; try (by destruct f).
    + lia.
    + intros fd Hfd. destruct f; cbn; split; try done; by apply in_add.
    + destruct f; cbn; lia.
    + destruct f; cbn; lia.
Qed.

(** ** core_close of a connection that is held *)
Lemma core_close_held n hs ds dy ex SQ RQ a y s :
  inv hs ds [] dy ex SQ RQ s -> a ∈ hs -> conns s !! a = Some y -> closing (state y) = false ->
  (SQ a ++ RQ a <> [] -> seq_completed y <= seq_destroyed y /\ seq_destroyed y + Z.of_nat (length (SQ a ++ RQ a)) <= INT_MAX) ->
  exists s' y', core_close sys (signal (S n)) a s = Ret s' /\ inv hs ds [] dy ex (upd SQ a []) (upd RQ a []) s' /\
    conns s' !! a = Some y' /\ closing (state y') = true.
Proof.
  intros Hi Hin Hy Ho Hle.
  destruct (core_close_front sys param hash_table act opened seen Hact Hsys n hs ds dy ex SQ RQ a y s) as (s1 & E & C); try done.
  pose proof (closed_inv _ _ _ _ _ _ _ _ _ _ _ _ _ Hi Hy Ho C) as Hi1. destruct (cd_conns _ _ _ _ _ _ _ C) as (k & Ec).
  assert (Hy1 : conns s1 !! a = Some (closed_conn k y)) by (rewrite Ec; apply lookup_insert_eq).
  assert (Hr : s_ref (closed_conn k y) = 1 + cnt a hs).
  { pose proof Hi as [Hh _ _ _ _ _]. destruct Hh. destruct (h_conn0 a y Hy) as (_ & _ & _ & Hr). by rewrite Ho in Hr. }
  apply count_pos in Hin. destruct (conn_dec_ref_kept (S n) hs ds [] dy ex _ _ a _ s1 Hi1 Hy1) as (s2 & y2 & E2 & Hi2 & Hy2 & S2); [lia | done |].
  exists s2, y2. rewrite E. split_and!; try done. by rewrite S2.
Qed.
End Refs.
End HttperfRefs.

Module HttperfDone.
Import HttperfState Httperf HttperfRequest HttperfInv HttperfFrame HttperfHeap HttperfSteps HttperfIssue HttperfClose HttperfRefs.

Section Done.
Context {W A : Type} (sys : system W A) (param : Cmdline_Params) (hash_table : AddrTable.table A).
Context (act : action).
Context (opened : W -> gset Z) (seen : W -> Time -> Prop).
Context (Hact : forall e, act e = handlers_of param e) (Hpar : params_ok param) (Hsys : system_ok sys opened seen).
Implicit Types s : st W.
Abbreviation inv := (inv param opened seen).
Abbreviation signal := (event_signal sys param hash_table act).

(** The call that is destroyed is accounted for when its connection has been looked at. *)
Lemma inv_settle hs ds hc dy a SQ RQ s :
  0 < a -> (forall c b, dy = Some (c, b) -> b = a) -> inv hs ds hc dy a SQ RQ s -> inv hs ds hc (settled dy) a SQ RQ s.
Proof. intros Ha Hb [Hh ? ? ? ? ?]. constructor; try assumption. by apply heap_settle. Qed.

(** No sequence of calls is followed on a connection that is closing. *)
Lemma inv_closing hs ds hc dy a SQ RQ y s :
  inv hs ds hc dy a SQ RQ s -> conns s !! a = Some y -> closing (state y) = true -> inv hs ds hc dy 0 SQ RQ s.
Proof.
  intros Hi Hy Hcl. rewrite <- (put_conn_id a y s Hy). eapply inv_seq; [exact Hi | exact Hy | done | done | done | by left | |].
  - intros E. congruence.
  - intros E. destruct E as [E | E]; by rewrite E in Hcl.
Qed.

Lemma created_bounds n : 0 <= n - burst_length param -> 0 <= created param n <= burst_length param.
Proof. pose proof (po_burst _ Hpar). unfold created. lia. Qed.

(** gen/call_seq.c *)
Lemma call_destroyed_ok n hs ds SQ RQ a c x y s :
  inv hs ds [] (Some (c, a)) 0 SQ RQ s -> a ∈ hs -> calls s !! c = Some x -> call_conn x = a ->
  conns s !! a = Some y -> closing (state y) = false ->
  exists s' SQ' RQ' y', signal (S (S n)) EV_CALL_DESTROYED c NoArg s = Ret s' /\ inv hs ds [] (Some (c, - a)) 0 SQ' RQ' s' /\
    conns s' !! a = Some y' /\ (closing (state y') = true \/ state y' = state y).
Proof.
  intros Hi Hin Hx Hc Hy Ho. pose proof Hi as [Hh _ _ _ _ _].
  assert (Ha : 0 < a) by (by destruct (h_conn _ _ _ _ _ _ _ _ _ _ Hh a y Hy)).
  assert (Hseq : state y <> S_INITIAL /\ state y <> S_CONNECTING /\ seq_ok param y (Z.of_nat (length (SQ a ++ RQ a))) 1).
  { destruct (h_seq _ _ _ _ _ _ _ _ _ _ Hh a y Hy Ho) as [(_ & _ & _ & P) | H]; [lia | |]; cbn [pending] in *;
      rewrite decide_True in * by done; [lia | exact H]. }
  destruct Hseq as (S1 & S2 & Q1 & Q2 & Q3 & Q4 & Q5). pose proof (created_bounds (seq_calls y) Q1) as Hcr.
  pose proof (po_burst _ Hpar) as Hb. pose proof (po_int _ Hpar) as Hint. pose proof (po_calls _ Hpar) as Hnc.
  rewrite (signal_call_destroyed sys param hash_table act Hact). unfold call_destroyed.
  rewrite (call_at_eq c x), bind_Ret, Hc by done. rewrite (conn_at_eq a y), bind_Ret, bump_eq, bind_Ret by (done || lia).
  rewrite (upd_conn_at a _ y), bind_Ret by done. set (y1 := set_seq_destroyed (seq_destroyed y + 1) y). set (s1 := put_conn a y1 s).
  assert (Hi1 : inv hs ds [] (Some (c, a)) a SQ RQ s1) by (eapply inv_seq; [exact Hi | exact Hy | done | done | done | by right | done | tauto]).
  assert (Hdy : forall c' b, Some (c, a) = Some (c', b) -> b = a) by congruence.
  assert (Hy1 : conns s1 !! a = Some y1) by apply put_conn_get.
  destruct (Z.leb_spec (Z.min (burst_length param) (num_calls param)) (seq_destroyed y + 1)) as [L | L].
  - assert (Q0 : SQ a = [] /\ RQ a = []).
    { unfold created in Q5. apply app_eq_nil, nil_length_inv. lia. }
    destruct Q0 as [QS QR].
    destruct (Z.eqb_spec (seq_completed y) (seq_destroyed y + 1)) as [_ | ?]; [| lia]. cbn [andb].
    destruct (Z.ltb_spec (seq_calls y) (num_calls param)) as [M | M].
    + destruct (issue_calls_ok sys param hash_table act opened seen Hact Hpar hs ds (Some (c, a)) a a SQ RQ y1 n s1 Hi1)
        as (s2 & y2 & SQ2 & E2 & Hi2 & Hy2 & St2 & _); [by left | done | done | done | done | done | done | right; cbn; lia |].
      exists s2, SQ2, RQ, y2. split_and!; try done. right. by rewrite St2.
    + destruct (core_close_held sys param hash_table act opened seen Hact Hsys n hs ds (Some (c, a)) a SQ RQ a y1 s1 Hi1 Hin Hy1 Ho)
        as (s2 & y2 & E2 & Hi2 & Hy2 & Cl2); [by rewrite QS, QR |].
      exists s2, (upd SQ a []), (upd RQ a []), y2. split_and!; [done | | done | by left].
      eapply inv_closing; [| exact Hy2 | done]. by apply (inv_settle hs ds [] (Some (c, a))).
  - exists s1, SQ, RQ, y1. split_and!; [done | | done | by right].
    rewrite <- (put_conn_id a y1 s1 Hy1). eapply inv_seq; [by apply (inv_settle hs ds [] (Some (c, a))) | exact Hy1 | done | done | done | by left | | cbn; tauto].
    intros _ _. right. split_and!; [done | done |]. unfold seq_ok. cbn. rewrite decide_False by lia. unfold created in *. lia.
Qed.

Definition freed_call (c : Z) (x : Call) s : st W := set_free_calls ((c, x) :: free_calls s) (set_calls (delete c (calls s)) s).

(** [object_destroy] puts the call on the free list. *)
Lemma call_freed hs ds SQ RQ c a x s :
  0 < a -> inv hs ds [] (Some (c, - a)) 0 SQ RQ s -> calls s !! c = Some x -> c_ref x = 0 ->
  inv hs ds [] None 0 SQ RQ (freed_call c x s).
Proof.
  intros Ha [Hh Hf Ht Hm Hk Hg] Hx Hr. constructor; [apply (heap_freed param hs ds 0 SQ RQ (conns s) (calls s) c (- a) x); [lia | done ..] | by destruct Hf | by destruct Ht | | by destruct Hk | by destruct Hg].
  assert (Hp : 0 < c) by (by destruct (h_call _ _ _ _ _ _ _ _ _ _ Hh c x Hx)).
  eapply (memory_freed [c] [(c, x)] s); try done; [apply NoDup_singleton | |].
  - intros d ->%list_elem_of_singleton. split; [apply lookup_delete_eq | by exists x].
  - intros d Hd. cbn. rewrite lookup_delete_ne; [done |]. intros <-. by apply Hd, list_elem_of_singleton.
Qed.

(** The last reference to a call that left its queue. *)
Lemma call_destroy_ok n hs ds SQ RQ a c x y s :
  inv hs ds [] (Some (c, a)) 0 SQ RQ s -> a ∈ hs -> calls s !! c = Some x -> call_conn x = a ->
  conns s !! a = Some y -> closing (state y) = false ->
  exists t x' SQ' RQ' y', call_destroy (signal (S (S n))) c s = Ret (freed_call c x' t) /\ inv hs ds [] None 0 SQ' RQ' (freed_call c x' t) /\
    call_conn x' = a /\ conns t !! a = Some y' /\ (closing (state y') = true \/ state y' = state y).
Proof.
  intros Hi Hin Hx Hc Hy Ho. unfold call_destroy. rewrite (call_at_eq c x), bind_Ret by done. unfold call_deinit. rewrite bind_Ret.
  destruct (call_destroyed_ok n hs ds SQ RQ a c x y s Hi Hin Hx Hc Hy Ho) as (s1 & SQ1 & RQ1 & y1 & E & Hi1 & Hy1 & St1).
  rewrite E, bind_Ret. destruct (h_dy _ _ _ _ _ _ _ _ _ _ (i_heap _ _ _ _ _ _ _ _ _ _ _ Hi1) c (- a) eq_refl) as (x1 & Hx1 & Hr1 & Hc1). pose proof (proj1 (h_conn _ _ _ _ _ _ _ _ _ _ (i_heap _ _ _ _ _ _ _ _ _ _ _ Hi1) a y1 Hy1)) as Ha.
  rewrite (call_at_eq c x1), bind_Ret by done. exists s1, x1, SQ1, RQ1, y1. split_and!; [done | by apply (call_freed hs ds SQ1 RQ1 c a) | lia | done | done].
Qed.

(** stat/basic.c: a reply is counted, or the program stops at one of its assertions. *)
Lemma recv_stop_stops t0 t1 h ct ft status b :
  - 2 ^ 31 <= status < 2 ^ 31 -> length (BasicStats.num_replies b) = 6%nat ->
  stops (fun b' => BasicStats.num_active_conns b' = BasicStats.num_active_conns b /\ length (BasicStats.num_replies b') = 6%nat)
    (BasicStats.recv_stop t0 t1 h ct ft status b).
Proof.
  intros Hst Hlen. unfold BasicStats.recv_stop, BasicStats.assert_at. destruct (fltb fzero t1); [rewrite bind_Ret | unfold stops, allowed; cbn; lia].
  set (b1 := BasicStats.set_footer_bytes_received _ _). assert (L1 : length (BasicStats.num_replies b1) = 6%nat) by done.
  assert (A1 : BasicStats.num_active_conns b1 = BasicStats.num_active_conns b) by done. clearbody b1.
  set (q := Z.quot status 100). assert (Hq : - 21474837 < q < 21474837) by (unfold q; zdiv).
  destruct (Z.ltb_spec (u32 q) 6) as [L | L]; [rewrite bind_Ret | unfold stops, allowed; cbn; lia].
  assert (0 <= q < 6). { assert (u32 q = if q <? 0 then q + 2 ^ 32 else q); [| destruct (Z.ltb_spec q 0); lia].
    unfold wrap_u. destruct (Z.ltb_spec q 0); [| apply Z.mod_small; lia]. symmetry. apply (Z.mod_unique _ _ (-1)); lia. }
  unfold aget. destruct (Z.leb_spec 0 q); [| lia]. destruct (lookup_lt_is_Some_2 (BasicStats.num_replies b1) (Z.to_nat q)) as [k Ek]; [lia |].
  rewrite Ek. cbn [deref]. rewrite bind_Ret, aset_Some by lia. cbn [deref]. rewrite !bind_Ret. cbn. by rewrite length_insert.
Qed.

Lemma signal_recv_stop n c x a y s : calls s !! c = Some x -> call_conn x = a -> conns s !! a = Some y ->
  - 2 ^ 31 <= reply_status x < 2 ^ 31 -> length (BasicStats.num_replies (basic s)) = 6%nat -> seq_completed y < INT_MAX ->
  stops (fun s' => exists b k, s' = set_basic b (put_conn a (set_seq_completed (seq_completed y + 1) (set_num_calls_completed k y)) s) /\
           BasicStats.num_active_conns b = BasicStats.num_active_conns (basic s) /\ length (BasicStats.num_replies b) = 6%nat)
    (signal (S n) EV_CALL_RECV_STOP c NoArg s).
Proof.
  intros Hx Hc Hy Hst Hlen Hmax. cbn [event_signal]. rewrite Hact. cbn [handlers_of run_handlers run_handler basic_handler].
  rewrite (call_at_eq c x), bind_Ret by done.
  pose proof (recv_stop_stops (now s) (time_recv_start x) (reply_header_bytes x) (reply_content_bytes x) (reply_footer_bytes x)
    (reply_status x) (basic s) Hst Hlen) as R. destruct (BasicStats.recv_stop _ _ _ _ _ _ _) as [b | code | |]; cbn in R |- *; try done.
  destruct R as [R1 R2]. rewrite Hc, (upd_conn_at a _ y) by done. set (y1 := set_num_calls_completed _ y).
  rewrite bind_Ret. unfold call_done. rewrite (call_at_eq c x), bind_Ret, Hc by done.
  rewrite (conn_at_eq a y1), bind_Ret by apply put_conn_get. rewrite bump_eq, bind_Ret by done. rewrite (upd_conn_at a _ y1), bind_Ret by apply put_conn_get.
  exists b, (u32 (num_calls_completed y + 1)). split_and!; [| done | done]. unfold put_conn. cbn. by rewrite insert_insert_eq.
Qed.

(** The head of the receive queue is taken out. *)
Lemma unqueue_ok hs ds SQ RQ a c rest x y s :
  inv hs ds [] None 0 SQ RQ s -> calls s !! c = Some x -> conns s !! a = Some y -> closing (state y) = false -> RQ a = c :: rest ->
  exists f y1, (s1 ← upd_conn a (set_recvq (recvq_next x)) s;
     if recvq_next x =? 0 then x ← conn_at a s1; s1 ← FD_CLR Rd (sd x) s1; upd_conn a (set_recvq_tail 0) s1 else Ret s1) =
       Ret (put_conn a y1 (set_rdfds f s)) /\
    y1 = set_recvq (recvq_next x) (set_recvq_tail (recvq_tail y1) y) /\
    queue (fun d => recvq_next <$> calls s !! d) (recvq y1) (recvq_tail y1) rest /\
    (forall fd, fd <> sd y -> (fd ∈ f <-> fd ∈ rdfds s)) /\ (sd y ∈ f <-> 0 <= sd y /\ rest <> []) /\ f ⊆ rdfds s.
Proof.
  intros [Hh Hf _ _ _ _] Hx Hy Ho Hq. destruct Hh. destruct (h_open0 a y Hy Ho) as [_ Q]. rewrite Hq in Q.
  apply queue_tail in Q as (Hc & q & Eq & Q). rewrite Hx in Eq. injection Eq as Eq.
  pose proof (rd_iff opened SQ RQ a y s Hf Hy Ho) as Hrd. rewrite Hq in Hrd.
  assert (Hsd : 0 <= sd y < FD_SETSIZE).
  { apply (open_sd opened SQ RQ a y s Hf Hy Ho). intros E. specialize (h_state0 a y Hy). rewrite E, Hq in h_state0. by specialize (h_state0 eq_refl). }
  rewrite (upd_conn_at a _ y), bind_Ret by done. rewrite Eq. destruct (Z.eqb_spec q 0) as [E0 | E0].
  - rewrite (conn_at_eq a (set_recvq q y)), bind_Ret by apply put_conn_get. change (sd (set_recvq q y)) with (sd y). rewrite FD_CLR_in, bind_Ret by done.
    assert (N : rest = []) by (specialize (Q (if decide (rest = []) then 0 else recvq_tail y));
      destruct (decide (rest = [])); [done | specialize (Q ltac:(done)); apply queue_nil in Q; tauto]). subst rest.
    exists (rdfds s ∖ {[sd y]}), (set_recvq_tail 0 (set_recvq q y)). split_and!.
    + cbn [put_fds get_fds]. rewrite (upd_conn_at a _ (set_recvq q y)) by apply lookup_insert_eq. unfold put_conn. cbn. by rewrite insert_insert_eq.
    + done.
    + cbn. rewrite E0. split; done.
    + intros fd Hfd. by apply in_del.
    + split; [intros H; by apply not_in_deleted in H | by intros [_ ?]].
    + intros fd Hfd. by apply elem_of_difference in Hfd as [? _].
  - exists (rdfds s), (set_recvq q y). specialize (Q (recvq_tail y) ltac:(done)).
    assert (N : rest <> []) by (intros ->; apply queue_nil in Q; tauto). split_and!.
    + by destruct s.
    + by destruct y.
    + exact Q.
    + done.
    + rewrite Hrd. split; intros [? _]; done.
    + done.
Qed.

Lemma recv_done_ok n hs ds SQ RQ a y s :
  inv hs ds [] None 0 SQ RQ s -> a ∈ hs -> conns s !! a = Some y -> closing (state y) = false -> recvq y <> 0 ->
  stops (fun s' => exists t x' SQ' RQ' y', s' = freed_call (recvq y) x' t /\ call_conn x' = a /\ inv hs ds [] None 0 SQ' RQ' s' /\
           conns s' !! a = Some y' /\ (closing (state y') = true \/ state y' = state y))
    (recv_done (signal (S (S n))) (recvq y) s).
Proof.
  intros Hi Hin Hy Ho Hne. pose proof Hi as [Hh Hf Ht Hm Hk Hg]. pose proof Hh as [].
  destruct (h_open0 a y Hy Ho) as [_ Q]. destruct (queue_head _ _ _ _ Q) as [? | (rest & Hq)]; [done |]. clear Q.
  set (c := recvq y) in *. destruct (h_in0 a c) as (x & Hx & Hc); [apply elem_of_app; right; rewrite Hq; apply elem_of_cons; auto |].
  destruct (h_call0 c x Hx) as (Hpos & Hwf & Hr & _).
  destruct (received_ref param hs ds 0 SQ RQ (conns s) (calls s) a c rest x Hh Hq Hx) as [Hr1 _].
  assert (Hst : state y <> S_INITIAL /\ state y <> S_CONNECTING).
  { split; intros E; pose proof (h_state0 a y Hy) as N; rewrite E in N; specialize (N eq_refl); congruence. }
  assert (Hseq : seq_completed y < INT_MAX).
  { destruct (h_seq0 a y Hy Ho) as [(_ & _ & N & _) | (_ & _ & Hs)]; [destruct (h_conn0 a y Hy); lia | congruence |].
    pose proof (created_bounds (seq_calls y) (proj1 Hs)). unfold seq_ok in Hs. cbn in Hs. rewrite length_app, Hq in Hs. cbn [length] in Hs.
    pose proof (po_int _ Hpar). pose proof (po_calls _ Hpar). lia. }
  unfold recv_done. rewrite (call_at_eq c x), bind_Ret, Hc by done.
  destruct (unqueue_ok hs ds SQ RQ a c rest x y s Hi Hx Hy Ho Hq) as (f & y1 & E1 & Ey1 & Q1 & F1 & F2 & F3).
  rewrite <- bind_assoc_cres, E1, bind_Ret. set (s1 := put_conn a y1 (set_rdfds f s)).
  pose proof (signal_recv_stop (S n) c x a y1 s1 Hx Hc (put_conn_get a y1 _)) as R.
  eapply stops_bind; [apply R; [apply Hwf | by destruct Hg | rewrite Ey1; exact Hseq] |]. clear R.
  intros s2 (b & k & -> & Hb1 & Hb2). set (y2 := set_seq_completed (seq_completed y1 + 1) (set_num_calls_completed k y1)).
  set (s2 := set_basic b (put_conn a y2 s1)). unfold call_dec_ref. rewrite (call_at_eq c x), bind_Ret, Hr1 by done.
  unfold assert_at, BasicStats.assert_at. change (0 <? 1) with true. cbv iota. rewrite bind_Ret, (upd_call_at c _ x), bind_Ret by done.
  change (1 - 1 =? 0) with true. cbv iota. set (x' := set_c_ref (1 - 1) x). set (s3 := put_call c x' s2).
  assert (Ec : conns s3 = <[a := y2]> (conns s)) by (unfold s3, s2, s1, put_conn; cbn; by rewrite insert_insert_eq).
  assert (Ey2 : state y2 = state y /\ s_ref y2 = s_ref y /\ sd y2 = sd y /\ watchdog y2 = watchdog y /\ time_connect_start y2 = time_connect_start y /\
     myport y2 = myport y /\ content_length y2 = content_length y /\ seq_calls y2 = seq_calls y /\ seq_completed y2 = seq_completed y + 1 /\
     seq_destroyed y2 = seq_destroyed y /\ sendq y2 = sendq y /\ sendq_tail y2 = sendq_tail y) by (unfold y2; rewrite Ey1; done).
  destruct Ey2 as (V1 & V2 & V3 & V4 & V5 & V6 & V7 & V8 & V9 & V10 & V11 & V12).
  assert (Hi3 : inv hs ds [] (Some (c, a)) 0 SQ (upd RQ a rest) s3).
  { assert (Lv : same_lives s s3) by (apply (same_lives_at a y y2); [done | done | split_and!; [exact V5 | right; split; [apply Hst | done] |]; rewrite V1; intros; split; [apply Hst | done]]).
    assert (Qt : quiet seen s s3) by (constructor; try done; cbn; rewrite Hb2; symmetry; by destruct Hg).
    constructor; [| | by apply (timers_conn a y y2 s) | | by eapply clock_change | by eapply counts_change].
    - rewrite Ec. eapply heap_received; [exact Hh | exact Hy | done | exact Hq | exact Hx | done | done | done | done | left; done | done ..].
    - eapply (fds_change opened SQ RQ _ _ a y y2 s s3); try done; [congruence | | | | | |].
      + intros E. destruct Hf. destruct (f_conn0 a y Hy Ho) as [[_ ?] | ?]; [tauto | lia].
      + intros b0 Hb0. by rewrite upd_ne.
      + intros fd Hfd. split; [done | by apply F1].
      + change (wrfds s3) with (wrfds s). rewrite (wr_iff opened SQ RQ a y s) by done. by rewrite V1.
      + cbn. by rewrite upd_eq.
      + intros Hin3. apply Hf. apply elem_of_union. apply elem_of_union in Hin3 as [H | H]; [left; by apply F3 | by right].
    - eapply memory_change; [.. | exact Hm]; try done.
      + intros b0 [z Hz]. destruct (proj1 Lv b0 z Hz) as (w & -> & _). by eexists.
      + intros d. cbn. destruct (decide (d = c)) as [-> | ?]; [rewrite Hx; by eexists | by rewrite lookup_insert_ne]. }
  destruct (call_destroy_ok n hs ds SQ (upd RQ a rest) a c x' y2 s3 Hi3 Hin) as (s4 & x4 & SQ4 & RQ4 & y4 & E4 & Hi4 & Hc4 & Hy4 & St4);
    [apply lookup_insert_eq | done | rewrite Ec; apply lookup_insert_eq | by rewrite V1 |].
  rewrite E4. exists s4, x4, SQ4, RQ4, y4. split_and!; try done. by rewrite <- V1.
Qed.
End Done.
End HttperfDone.
