(* ===== verification/HttperfReply.v ===== *)
(** * httperf/src/core.c: receiving replies keeps the invariant

    What [http_process_reply_bytes], the loop over the replies in the buffer and [do_recv] do
    to the state; the loop always ends. *)
From S2P Require Import Prelude Doubles HttpReply HttpReplyTotal Ports AddrTable BasicStats BasicStatsTheorems HttperfState Httperf HttperfRequest HttperfInv HttperfFrame HttperfSteps HttperfIssue HttperfClose HttperfDone.

Module HttperfReply.
Import HttperfState Httperf HttperfRequest HttperfInv HttperfFrame HttperfHeap HttperfSteps HttperfIssue HttperfClose HttperfRefs HttperfDone.

Section Reply.
Context {W A : Type} (sys : system W A) (param : Cmdline_Params) (hash_table : AddrTable.table A).
Context (act : action) (garbage before : Z) (Hbefore : before <> HttpReply.CR).
Context (opened : W -> gset Z) (seen : W -> Time -> Prop).
Context (Hact : forall e, act e = handlers_of param e) (Hpar : params_ok param) (Hsys : system_ok sys opened seen).
Implicit Types s : st W.
Abbreviation inv := (inv param opened seen).
Abbreviation signal := (event_signal sys param hash_table act).

(** ** The events of a reply *)
Lemma signal_event n e c x s : calls s !! c = Some x ->
  exists b x', signal (S n) (event_of e) c NoArg s = Ret (set_basic b (put_call c x' s)) /\ call_like x x' /\
    BasicStats.num_active_conns b = BasicStats.num_active_conns (basic s) /\
    length (BasicStats.num_replies b) = length (BasicStats.num_replies (basic s)).
Proof.
  intros Hx. destruct e; cbn [event_of].
  - rewrite (signal_recv_start sys param hash_table act Hact n c x) by done.
    eexists (BasicStats.recv_start (now s) (time_send_start x) (basic s)), _. split; [reflexivity |]. split; [by constructor |].
    done.
  - rewrite (signal_quiet sys param hash_table act Hact) by done. exists (basic s), x. rewrite put_call_id by done.
    split_and!; [by destruct s | by constructor | done | done].
  - rewrite (signal_quiet sys param hash_table act Hact) by done. exists (basic s), x. rewrite put_call_id by done.
    split_and!; [by destruct s | by constructor | done | done].
Qed.

Lemma signal_all_ok n hs ds dy ex SQ RQ es c : forall s,
  inv hs ds [] dy ex SQ RQ s -> is_Some (calls s !! c) ->
  exists s', signal_all (signal (S n)) es c s = Ret s' /\ inv hs ds [] dy ex SQ RQ s' /\ conns s' = conns s.
Proof.
  induction es as [| e es IH]; intros s Hi [x Hx]; cbn [signal_all]; [by exists s |].
  destruct (signal_event n e c x s Hx) as (b & x' & E & HL & B1 & B2). rewrite E, bind_Ret.
  destruct (IH (set_basic b (put_call c x' s))) as (s' & E' & Hi' & Ec').
  - apply inv_basic; [done | done |]. by eapply inv_call.
  - cbn. rewrite lookup_insert_eq. by eexists.
  - exists s'. split_and!; [done | done |]. by rewrite Ec'.
Qed.

(** ** The bytes of a reply *)
Lemma reply_phase (x : Conn_State) : before_reply x = false -> closing x = false -> HttpReplyTotal.in_reply x.
Proof. by destruct x. Qed.
Lemma in_reply_phase (x x' : Conn_State) : HttpReplyTotal.in_reply x -> HttpReplyTotal.in_reply x' -> phase x x'.
Proof. intros Hx Hx'. right. by destruct x, x'. Qed.

(** The state of the connection and of its first call after some bytes. *)
Definition consumed (a : Z) (buf rest : list Z) (y y' : Conn) : Prop :=
  HttpReplyTotal.in_reply (state y') /\ recvq y' = recvq y /\ (length rest <= length buf)%nat /\
  (rest = [] \/ state y' = S_REPLY_DONE) /\ (state y = S_REPLY_STATUS -> length rest < length buf)%nat.

Lemma process_reply_bytes_ok n hs ds SQ RQ a c l y buf s :
  inv hs ds [] None 0 SQ RQ s -> conns s !! a = Some y -> closing (state y) = false -> RQ a = c :: l -> buf <> [] ->
  exists s' rest y', process_reply_bytes garbage before (signal (S n)) c buf s = Ret (rest, s') /\
    inv hs ds [] None 0 SQ RQ s' /\ conns s' !! a = Some y' /\ consumed a buf rest y y'.
Proof.
  intros Hi Hy Ho Hq Hbuf. pose proof Hi as [[] _ _ _ Hk _].
  destruct (h_in0 a c) as (x & Hx & Hc); [apply elem_of_app; right; rewrite Hq; apply elem_of_cons; auto |].
  destruct (h_call0 c x Hx) as (_ & (Hlen & _ & Hcb & Hst & _) & _). destruct (h_conn0 a y Hy) as (_ & _ & Hcl & _).
  assert (Hin : HttpReplyTotal.in_reply (state y)).
  { apply reply_phase; [| done]. destruct (before_reply (state y)) eqn:E; [| done]. pose proof (h_state0 a y Hy E). congruence. }
  unfold process_reply_bytes. rewrite (call_at_eq c x), bind_Ret, (signal_quiet sys param hash_table act Hact), bind_Ret, Hc by done.
  rewrite (conn_at_eq a y), bind_Ret, (call_at_eq c x), bind_Ret by done.
  destruct (lookup_lt_is_Some_2 (iov x) IE_METHOD) as [m Em]; [rewrite Hlen; unfold IE_METHOD, IE_LEN; lia |].
  rewrite Em. cbn [deref]. rewrite bind_Ret.
  destruct (HttpReplyTotal.reply_bytes_returns (bool_decide (iov_base m = Some (text "HEAD"))) garbage before (reply_of y x) buf Hbefore)
    as (r & rest & E & (F1 & F2 & F3 & F4) & R1 & R2 & R3); [done | done |].
  rewrite E, bind_Ret, (upd_conn_at a _ y), bind_Ret by done. set (y' := conn_of r y).
  rewrite (upd_call_at c _ x), bind_Ret by done. set (s1 := put_call c (call_of r x) (put_conn a y' s)).
  assert (Hi1 : inv hs ds [] None 0 SQ RQ s1).
  { apply (inv_call _ _ _ _ _ _ _ _ _ _ c x); [done | constructor; try done; intros (G1 & G2 & _ & _ & G5); exact (conj G1 (conj G2 (conj F2 (conj F4 G5)))) |].
    apply (inv_conn _ _ _ _ _ _ _ _ _ _ a y); [done | | | | exact Hi].
    - constructor; try done. by apply in_reply_phase.
    - intros _ _. change (time_connect_start y') with (time_connect_start y). destruct Hk. apply (k_conn0 a y Hy); [| done]. intros Ey. by rewrite Ey in Hin.
    - destruct Hk. exact (k_done0 a y Hy). }
  destruct (signal_all_ok n hs ds None 0 SQ RQ (HttpReply.log r) c s1 Hi1) as (s2 & E2 & Hi2 & Ec2); [cbn; rewrite lookup_insert_eq; by eexists |].
  rewrite E2, bind_Ret. exists s2, rest, y'. split_and!; [done | done | rewrite Ec2; apply lookup_insert_eq |].
  unfold consumed. split_and!; done.
Qed.

(** ** The end of a connection that fails *)
(** What is left of a connection that is held. *)
Definition kept (hs ds : list Z) (a : Z) s : Prop :=
  exists SQ RQ y, inv hs ds [] None 0 SQ RQ s /\ conns s !! a = Some y.

Lemma may_close hs ds hc SQ RQ a y s :
  inv hs ds hc None 0 SQ RQ s -> conns s !! a = Some y -> closing (state y) = false ->
  SQ a ++ RQ a <> [] -> seq_completed y <= seq_destroyed y /\ seq_destroyed y + Z.of_nat (length (SQ a ++ RQ a)) <= INT_MAX.
Proof.
  intros [[] _ _ _ _ _] Hy Ho Hne. destruct (h_conn0 a y Hy) as [Ha _].
  destruct (h_seq0 a y Hy Ho) as [(_ & N1 & N2 & _) | (_ & _ & H1 & H2 & H3 & H4 & H5)]; [lia | by rewrite N1, N2 in Hne |].
  cbn [pending] in *. pose proof (created_bounds param Hpar (seq_calls y) H1). pose proof (po_int _ Hpar). pose proof (po_calls _ Hpar). lia.
Qed.

Lemma conn_failure_ok n hs ds SQ RQ a e y s :
  inv hs ds [] None 0 SQ RQ s -> a ∈ hs -> conns s !! a = Some y -> closing (state y) = false ->
  exists s', conn_failure sys (signal (S n)) a e s = Ret s' /\ kept hs ds a s'.
Proof.
  intros Hi Hin Hy Ho. unfold conn_failure. rewrite (signal_failed sys param hash_table act Hact), bind_Ret.
  set (s1 := set_basic _ s).
  assert (Hi1 : inv hs ds [] None 0 SQ RQ s1) by (apply inv_basic; [| | exact Hi]; unfold BasicStats.conn_fail; by repeat case_match).
  destruct (core_close_held sys param hash_table act opened seen Hact Hsys n hs ds None 0 SQ RQ a y s1 Hi1 Hin Hy Ho) as (s2 & y2 & E2 & Hi2 & Hy2 & _);
    [by apply (may_close hs ds [] SQ RQ a y s1) |].
  exists s2. split; [exact E2 |]. by exists (upd SQ a []), (upd RQ a []), y2.
Qed.

(** ** The replies in the buffer *)
(** The memory of a call of [a], used or on the free list. *)
Definition memory_of (a c : Z) s : Prop := exists x, call_mem c s = Ret x /\ call_conn x = a.

Lemma memory_freed_call c x t a y : call_conn x = a -> memory_of a c (put_conn a y (freed_call c x t)).
Proof.
  intros Hc. exists x. split; [| done]. unfold call_mem, put_conn, freed_call. cbn. rewrite lookup_delete_eq. by rewrite decide_True.
Qed.

(** What a round leaves. *)
Definition round_done (hs ds : list Z) (a : Z) (buf : list Z) (y : Conn) (r : option (Z * list Z)) s : Prop :=
  match r with
  | None => kept hs ds a s
  | Some (c, rest) => exists SQ RQ y', inv hs ds [] None 0 SQ RQ s /\ conns s !! a = Some y' /\ closing (state y') = false /\
      memory_of a c s /\ (rest <> [] -> state y' = S_REPLY_STATUS) /\ (length rest <= length buf)%nat /\
      (state y = S_REPLY_STATUS -> length rest < length buf)%nat
  end.

Lemma reply_round_ok n hs ds SQ RQ a buf y s :
  inv hs ds [] None 0 SQ RQ s -> a ∈ hs -> conns s !! a = Some y -> closing (state y) = false -> buf <> [] ->
  stops (fun r => round_done hs ds a buf y r.1 r.2) (reply_round param garbage before (signal (S (S n))) a buf s).
Proof.
  intros Hi Hin Hy Ho Hbuf. unfold reply_round. rewrite (conn_at_eq a y), bind_Ret by done.
  unfold assert_at, BasicStats.assert_at. destruct (Z.eqb_spec (recvq y) 0) as [E0 | E0]; [right; by left |]. cbn [negb]. rewrite bind_Ret.
  pose proof Hi as [[] _ _ _ _ _]. destruct (queue_head _ _ _ _ (proj2 (h_open0 a y Hy Ho))) as [? | (l & Hq)]; [done |].
  destruct (h_in0 a (recvq y)) as (x & Hx & Hc); [apply elem_of_app; right; rewrite Hq; apply elem_of_cons; auto |].
  assert (H1 : exists s1, (if bool_decide (state y = S_REPLY_STATUS) then upd_call (recvq y) (set_timeout (recv_timeout param s)) s else Ret s) = Ret s1 /\
      inv hs ds [] None 0 SQ RQ s1 /\ conns s1 !! a = Some y).
  { case_bool_decide; [| by exists s]. rewrite (upd_call_at _ _ x) by done. eexists. split_and!; [reflexivity | | done].
    eapply inv_call; [exact Hx | by constructor | exact Hi]. }
  destruct H1 as (s1 & E1 & Hi1 & Hy1). rewrite E1, bind_Ret. clear E1.
  destruct (process_reply_bytes_ok (S n) hs ds SQ RQ a (recvq y) l y buf s1 Hi1 Hy1 Ho Hq Hbuf) as (s2 & rest & y2 & E2 & Hi2 & Hy2 & C1 & C2 & C3 & C4 & C5).
  rewrite E2, bind_Ret, (conn_at_eq a y2), bind_Ret by done. pose proof (HttpReplyTotal.in_reply_open _ C1) as Ho2.
  case_bool_decide as Hd.
  - rewrite <- C2. eapply stops_bind; [apply (recv_done_ok sys param hash_table act opened seen Hact Hpar Hsys n hs ds SQ RQ a y2 s2); congruence |].
    intros s3 (t & x3 & SQ3 & RQ3 & y3 & -> & Hc3 & Hi3 & Hy3 & Hst). rewrite (conn_at_eq a y3), bind_Ret by done.
    destruct (closing (state y3)) eqn:Ho3; [by exists SQ3, RQ3, y3 |]. destruct Hst as [? | Hst]; [congruence |].
    rewrite (upd_conn_at a _ y3), bind_Ret by done. exists SQ3, RQ3, (set_state S_REPLY_STATUS y3).
    split_and!; [| apply put_conn_get | done | by apply memory_freed_call | done | done | done].
    eapply inv_conn; [exact Hy3 | | | | exact Hi3].
    + constructor; try done. cbn. rewrite Hst, Hd. by right.
    + intros _ _. destruct Hi3 as [_ _ _ _ [] _]. apply (k_conn0 a y3 Hy3); [| done]. by rewrite Hst, Hd.
    + destruct Hi3 as [_ _ _ _ [] _]. exact (k_done0 a y3 Hy3).
  - exists SQ, RQ, y2. destruct C4 as [-> | ?]; [| done]. split_and!; try done.
    destruct Hi2 as [Hh2 _ _ _ _ _]. destruct (h_in _ _ _ _ _ _ _ _ _ _ Hh2 a (recvq y)) as (x2 & Hx2 & Hc2);
      [apply elem_of_app; right; rewrite Hq; apply elem_of_cons; auto |]. exists x2. unfold call_mem. cbn [snd]. by rewrite Hx2.
Qed.

(** The loop ends: only its first round may leave all the bytes. *)
Lemma reply_loop_ok n hs ds a fuel : forall SQ RQ buf y s,
  inv hs ds [] None 0 SQ RQ s -> a ∈ hs -> conns s !! a = Some y -> closing (state y) = false -> buf <> [] ->
  (length buf < fuel)%nat \/ (state y = S_REPLY_STATUS /\ (length buf <= fuel)%nat) ->
  stops (fun r => match r.1 with
      | None => kept hs ds a r.2
      | Some c => exists SQ RQ y', inv hs ds [] None 0 SQ RQ r.2 /\ conns r.2 !! a = Some y' /\ closing (state y') = false /\ memory_of a c r.2
      end) (reply_loop param garbage before (signal (S (S n))) fuel a buf s).
Proof.
  induction fuel as [| fuel IH]; intros SQ RQ buf y s Hi Hin Hy Ho Hbuf Hf; [destruct buf; cbn in Hf; [done | lia] |]. cbn [reply_loop].
  eapply stops_bind; [by apply (reply_round_ok n hs ds SQ RQ a buf y s) |]. intros [[[c rest] |] s1] H; [| done].
  destruct H as (SQ1 & RQ1 & y1 & Hi1 & Hy1 & Ho1 & M & H1 & H2 & H3). destruct rest as [| b0 rest]; [by exists SQ1, RQ1, y1 |].
  apply (IH SQ1 RQ1 _ y1); try done. right. split; [by apply H1 |]. destruct Hf as [Hf | [Hst Hf]]; [lia |]. specialize (H3 Hst). lia.
Qed.

(** ** do_recv *)
Lemma do_recv_ok n hs ds SQ RQ a y s :
  inv hs ds [] None 0 SQ RQ s -> a ∈ hs -> conns s !! a = Some y -> closing (state y) = false -> recvq y <> 0 ->
  stops (kept hs ds a) (do_recv sys param garbage before (signal (S (S n))) a s).
Proof.
  intros Hi Hin Hy Ho Hne. unfold do_recv. rewrite (conn_at_eq a y), bind_Ret by done.
  unfold assert_at, BasicStats.assert_at. destruct (Z.eqb_spec (recvq y) 0) as [E0 | _]; [done |]. cbn [negb]. rewrite bind_Ret.
  pose proof (so_read _ _ _ Hsys (sd y) 8192 (world s)) as Hsame. destruct (sys_read sys (sd y) 8192 (world s)) as [r w]. cbn [snd] in Hsame.
  set (s1 := set_world w (set_errno 0 s)). assert (Hi1 : inv hs ds [] None 0 SQ RQ s1) by (by apply inv_world, inv_errno).
  destruct r as [[| b0 buf] | e].
  - case_bool_decide as Hd.
    + rewrite Ho, (upd_conn_at a _ y), bind_Ret by done. set (y1 := set_state S_REPLY_DONE y).
      change (recvq y) with (recvq y1). eapply stops_mono; [apply (recv_done_ok sys param hash_table act opened seen Hact Hpar Hsys n hs ds SQ RQ a y1); try done |].
      * eapply inv_conn; [exact Hy | | | | exact Hi1].
        -- constructor; try done. cbn. rewrite Hd. by right.
        -- intros _ _. destruct Hi1 as [_ _ _ _ [] _]. apply (k_conn0 a y Hy); [| done]. by rewrite Hd.
        -- destruct Hi1 as [_ _ _ _ [] _]. exact (k_done0 a y Hy).
      * apply put_conn_get.
      * intros t (_ & _ & SQ2 & RQ2 & y2 & _ & _ & Hi2 & Hy2 & _). by exists SQ2, RQ2, y2.
    + destruct (conn_failure_ok (S n) hs ds SQ RQ a BasicStats.ECONNRESET y s1 Hi1 Hin Hy Ho) as (s2 & -> & K). exact K.
  - eapply stops_bind; [apply (reply_loop_ok n hs ds a _ SQ RQ _ y); try done; left; lia |].
    intros [[c |] s2]; [| done]. intros (SQ2 & RQ2 & y2 & Hi2 & Hy2 & Ho2 & x2 & Hx2 & Hc2). cbn [fst snd] in *.
    rewrite (conn_at_eq a y2), bind_Ret by done. destruct (Z.eqb_spec (recvq y2) 0) as [| Hne2]; [by exists SQ2, RQ2, y2 |].
    rewrite Hx2, bind_Ret, Hc2. pose proof Hi2 as [[] Hf2 _ _ _ _].
    assert (Hq2 : RQ2 a <> []). { intros E. destruct (h_open0 a y2 Hy2 Ho2) as [_ Q]. apply queue_nil in Q. tauto. }
    assert (Hst2 : state y2 <> S_INITIAL). { intros E. apply Hq2, (h_state0 a y2 Hy2). by rewrite E. }
    destruct (set_active_inv param opened seen hs ds [] None 0 SQ2 RQ2 a Rd y2 s2 Hi2 Hy2 Ho2) as (s3 & w3 & -> & Hi3 & Hy3 & _);
      [by apply (open_sd opened SQ2 RQ2 a y2 s2) | done |]. by exists SQ2, RQ2, (set_watchdog w3 y2).
  - destruct (e =? EAGAIN); [exists SQ, RQ, y; split; [by apply inv_errno | done] |].
    destruct (conn_failure_ok (S n) hs ds SQ RQ a e y (set_errno e s1)) as (s2 & -> & K); [by apply inv_errno | done .. | exact K].
Qed.
End Reply.
End HttperfReply.
