(* ===== verification/HttperfSend.v ===== *)
(** * httperf/src/core.c: sending requests keeps the invariant

    A round of [do_send] gives the rest of the first request to the socket; when it is sent
    whole the call goes to the receive queue.  The loop ends with the queue. *)
From S2P Require Import Prelude Doubles HttpReply HttpReplyTotal Ports AddrTable BasicStats BasicStatsTheorems HttperfState Httperf HttperfRequest HttperfInv HttperfFrame HttperfSteps HttperfIssue HttperfClose HttperfDone HttperfReply.

Module HttperfSend.
Import HttperfState Httperf HttperfRequest HttperfInv HttperfFrame HttperfHeap HttperfSteps HttperfIssue HttperfClose HttperfRefs HttperfDone HttperfReply.

Section Send.
Context {W A : Type} (sys : system W A) (param : Cmdline_Params) (hash_table : AddrTable.table A).
Context (act : action) (past_end : iovec).
Context (opened : W -> gset Z) (seen : W -> Time -> Prop).
Context (Hact : forall e, act e = handlers_of param e) (Hpar : params_ok param) (Hsys : system_ok sys opened seen).
Implicit Types s : st W.
Abbreviation inv := (inv param opened seen).
Abbreviation signal := (event_signal sys param hash_table act).

(** ** The queues *)
(** The head of the send queue is taken out; the last one takes the descriptor with it. *)
Lemma unsend_ok hs ds SQ RQ a c rest x x1 y s :
  inv hs ds [] None 0 SQ RQ s -> calls s !! c = Some x -> conns s !! a = Some y -> closing (state y) = false ->
  state y <> S_CONNECTING -> 0 <= sd y < FD_SETSIZE -> SQ a = c :: rest -> sendq_next x1 = sendq_next x ->
  exists f y1, (s1 ← upd_conn a (set_sendq (sendq_next x1)) (put_call c x1 s);
     if sendq_next x1 =? 0 then s1 ← upd_conn a (set_sendq_tail 0) s1; FD_CLR Wr (sd y) s1 else Ret s1) =
       Ret (put_conn a y1 (set_wrfds f (put_call c x1 s))) /\
    y1 = set_sendq (sendq_next x) (set_sendq_tail (sendq_tail y1) y) /\
    queue (fun d => sendq_next <$> calls s !! d) (sendq y1) (sendq_tail y1) rest /\
    (forall fd, fd <> sd y -> (fd ∈ f <-> fd ∈ wrfds s)) /\ (sd y ∈ f <-> 0 <= sd y /\ rest <> []) /\ f ⊆ wrfds s.
Proof.
  intros [Hh Hf _ _ _ _] Hx Hy Ho Hst Hsd Hq Hn. destruct Hh. destruct (h_open0 a y Hy Ho) as [Q _]. rewrite Hq in Q.
  apply queue_tail in Q as (Hc & q & Eq & Q). rewrite Hx in Eq. injection Eq as Eq.
  pose proof (wr_iff opened SQ RQ a y s Hf Hy Ho) as Hwr. rewrite Hq in Hwr.
  rewrite Hn, (upd_conn_at a _ y), bind_Ret by done. rewrite Eq. destruct (Z.eqb_spec q 0) as [E0 | E0].
  - rewrite upd_conn_put, bind_Ret, FD_CLR_in by done.
    assert (N : rest = []) by (specialize (Q (if decide (rest = []) then 0 else sendq_tail y));
      destruct (decide (rest = [])); [done | specialize (Q ltac:(done)); apply queue_nil in Q; tauto]). subst rest.
    exists (wrfds s ∖ {[sd y]}), (set_sendq_tail 0 (set_sendq q y)). split_and!; try done.
    + intros fd Hfd. by apply in_del.
    + split; [intros H; by apply not_in_deleted in H | by intros [_ ?]].
    + intros fd Hfd. by apply elem_of_difference in Hfd as [? _].
  - exists (wrfds s), (set_sendq q y). specialize (Q (sendq_tail y) ltac:(done)).
    assert (N : rest <> []) by (intros ->; apply queue_nil in Q; tauto). split_and!; try done.
    rewrite Hwr. split; [by intros [? _] | intros [? _]; auto].
Qed.

(** A call goes to the end of the receive queue [l]. *)
Lemma append_recvq_ok a c l x y s :
  conns s !! a = Some y -> calls s !! c = Some x -> c <> 0 -> (c ∉ l) -> NoDup l ->
  queue (fun d => recvq_next <$> calls s !! d) (recvq y) (recvq_tail y) l -> (forall d, d ∈ l -> is_Some (calls s !! d)) ->
  exists km y2, append_recvq a c s = Ret (put_conn a y2 (set_calls km s)) /\ km !! c = Some (set_recvq_next 0 x) /\
    (forall d, d <> c -> match calls s !! d with Some z => exists z', km !! d = Some z' /\ relinked l d z z' | None => km !! d = None end) /\
    queue (fun d => recvq_next <$> km !! d) (recvq y2) (recvq_tail y2) (l ++ [c]) /\
    y2 = set_recvq (recvq y2) (set_recvq_tail (recvq_tail y2) y).
Proof.
  intros Hy Hx H0 Hc Hnd Hq Hin. unfold append_recvq. rewrite (upd_call_at c _ x), bind_Ret by done.
  set (x1 := set_recvq_next 0 x). set (km1 := <[c := x1]> (calls s)).
  assert (Same : forall d z, d <> c -> calls s !! d = Some z -> exists z', km1 !! d = Some z' /\ relinked l d z z').
  { intros d z Hd Hz. exists z. unfold km1. rewrite lookup_insert_ne by done. split; [done |]. constructor; auto. }
  rewrite (conn_at_eq a y), bind_Ret by done. pose proof (queue_nil _ _ _ _ Hq) as Hnil.
  destruct (Z.eqb_spec (recvq y) 0) as [E | E].
  - rewrite (upd_conn_at a _ y) by done. apply Hnil in E. subst l.
    exists km1, (set_recvq_tail c (set_recvq c y)). split_and!; [done | apply lookup_insert_eq | | | done].
    + intros d Hd. destruct (calls s !! d) as [z |] eqn:Ez; [eauto |]. unfold km1. by rewrite lookup_insert_ne.
    + cbn. split; [| done]. split_and!; [done | done |]. exists 0. unfold km1. by rewrite lookup_insert_eq.
  - assert (Hne : l <> []) by tauto. pose proof (proj2 Hq Hne) as Hlast. set (t := recvq_tail y) in *.
    pose proof (last_Some_elem_of _ _ Hlast) as Ht. destruct (Hin t Ht) as [v Hv]. assert (Htc : t <> c) by (intros ->; done).
    rewrite (upd_call_at t _ v), bind_Ret by (cbn; by rewrite lookup_insert_ne). rewrite (upd_conn_at a _ y) by done.
    exists (<[t := set_recvq_next c v]> km1), (set_recvq_tail c y). split_and!; [done | | | | by destruct y].
    + rewrite lookup_insert_ne by done. apply lookup_insert_eq.
    + intros d Hd. destruct (decide (d = t)) as [-> | Hdt].
      * rewrite Hv, lookup_insert_eq. eexists. split; [reflexivity |]. constructor; auto.
      * rewrite lookup_insert_ne by done. destruct (calls s !! d) as [z |] eqn:Ez; [eauto |]. unfold km1. by rewrite lookup_insert_ne.
    + pose proof (queue_snoc _ (fun d => recvq_next <$> <[t := set_recvq_next c v]> km1 !! d) _ _ _ c Hq Hnd H0 Hc) as Q.
      rewrite decide_False in Q by done. apply Q.
      * rewrite lookup_insert_ne by done. unfold km1. by rewrite lookup_insert_eq.
      * intros d Hd Hdt. unfold km1. rewrite !lookup_insert_ne; [done | congruence | done].
      * intros _. by rewrite lookup_insert_eq.
Qed.

(** ** A request is sent *)
(** From [set_active] on. *)
Definition activate_recv (signal : Event_Type -> Z -> Any_Type -> st W -> cres (st W)) (a : Z) s : cres (bool * st W) :=
  s ← set_active a Rd s;
  x ← conn_at a s;
  s ← (if before_reply (state x) then upd_conn a (set_state S_REPLY_STATUS) s else Ret s);
  x ← conn_at a s;
  if sendq x =? 0 then Ret (false, s)
  else
    s ← signal EV_CALL_SEND_START (sendq x) NoArg s;
    x ← conn_at a s;
    Ret (negb (closing (state x)), s).

(** The part of a round behind the last fragment, up to the next call. *)
Definition finish_send (signal : Event_Type -> Z -> Any_Type -> st W -> cres (st W)) (fd a c : Z) s : cres (bool * st W) :=
  call ← call_at c s;
  s ← upd_conn a (set_sendq (sendq_next call)) s;
  s ← (if sendq_next call =? 0 then s ← upd_conn a (set_sendq_tail 0) s; FD_CLR Wr fd s else Ret s);
  s ← signal EV_CALL_SEND_STOP c NoArg s;
  x ← conn_at a s;
  if closing (state x) then s ← call_dec_ref signal c s; Ret (false, s)
  else
    s ← append_recvq a c s;
    s ← upd_call c (set_timeout (recv_timeout param s)) s;
    activate_recv signal a s.

(** What a round leaves: with [true], the connection with the next request to send. *)
Definition sent_round (hs ds : list Z) (a fd : Z) (rest : list Z) (r : bool * st W) : Prop :=
  exists SQ RQ y, inv hs ds [] None 0 SQ RQ r.2 /\ conns r.2 !! a = Some y /\
    (r.1 = true -> closing (state y) = false /\ sd y = fd /\ SQ a = rest /\ rest <> []).

Definition replying (y : Conn) : Conn := if before_reply (state y) then set_state S_REPLY_STATUS y else y.
Lemma replying_state y : closing (state y) = false -> closing (state (replying y)) = false /\ before_reply (state (replying y)) = false.
Proof. unfold replying. intros Ho. destruct (before_reply (state y)) eqn:E; [done |]. by rewrite E. Qed.

(** The state in front of [set_active]: the call is in the receive queue. *)
Record requeued (a c : Z) (rest : list Z) (SQ RQ : Z -> list Z) (hs ds : list Z) (y y2 : Conn) s s4 : Prop := {
  rq_conns : conns s4 = <[a := y2]> (conns s);
  rq_same : state y2 = state y /\ sd y2 = sd y /\ watchdog y2 = watchdog y /\ time_connect_start y2 = time_connect_start y /\
    num_calls_completed y2 = num_calls_completed y /\ s_ref y2 = s_ref y /\ myport y2 = myport y /\ content_length y2 = content_length y /\
    seq_calls y2 = seq_calls y /\ seq_completed y2 = seq_completed y /\ seq_destroyed y2 = seq_destroyed y;
  rq_calls : forall d, is_Some (calls s4 !! d) <-> is_Some (calls s !! d);
  rq_sendq : queue (fun d => sendq_next <$> calls s4 !! d) (sendq y2) (sendq_tail y2) rest;
  rq_recvq : queue (fun d => recvq_next <$> calls s4 !! d) (recvq y2) (recvq_tail y2) (RQ a ++ [c]);
  rq_heap : forall y3, s_ref y3 = s_ref y2 -> sd y3 = sd y2 -> myport y3 = myport y2 -> content_length y3 = content_length y2 ->
      seq_calls y3 = seq_calls y2 -> seq_completed y3 = seq_completed y2 -> seq_destroyed y3 = seq_destroyed y2 ->
      closing (state y3) = false -> before_reply (state y3) = false -> sendq y3 = sendq y2 -> sendq_tail y3 = sendq_tail y2 ->
      recvq y3 = recvq y2 -> recvq_tail y3 = recvq_tail y2 ->
      heap_ok param hs ds [] None 0 (upd SQ a rest) (upd RQ a (RQ a ++ [c])) (<[a := y3]> (conns s)) (calls s4);
  rq_rest : rest_same seen s s4;
  rq_timers : timers s4 = timers s /\ next_timer s4 = next_timer s;
  rq_fds : opened (world s4) = opened (world s) /\ sd_to_conn s4 = sd_to_conn s /\ alloced_sd_to_conn s4 = alloced_sd_to_conn s /\
    min_sd s4 = min_sd s /\ max_sd s4 = max_sd s /\ rdfds s4 = rdfds s;
  rq_wr : (forall fd, fd <> sd y -> (fd ∈ wrfds s4 <-> fd ∈ wrfds s)) /\ (sd y ∈ wrfds s4 <-> 0 <= sd y /\ rest <> []) /\ wrfds s4 ⊆ wrfds s
}.

Lemma requeue_ok n hs ds SQ RQ a c rest x x1 y s :
  inv hs ds [] None 0 SQ RQ s -> calls s !! c = Some x -> conns s !! a = Some y -> closing (state y) = false -> SQ a = c :: rest ->
  sendq_next x1 = sendq_next x -> c_ref x1 = c_ref x -> call_conn x1 = call_conn x -> (call_wf x -> call_wf x1) ->
  exists y2 s4, finish_send (signal (S n)) (sd y) a c (put_call c x1 s) = activate_recv (signal (S n)) a s4 /\
    requeued a c rest SQ RQ hs ds y y2 s s4.
Proof.
  intros Hi Hx Hy Ho Hq X1 X2 X3 X4. pose proof Hi as [Hh Hf Ht _ _ _]. pose proof Hh as [].
  assert (Hst : state y <> S_INITIAL /\ state y <> S_CONNECTING).
  { split; intros E; destruct (h_fresh0 a y Hy ltac:(tauto)) as [_ N]; by rewrite Hq in N. }
  pose proof (h_nodup0 a) as Nd. rewrite Hq in Nd. cbn [app] in Nd. apply NoDup_cons in Nd as [Nc Nd].
  rewrite not_elem_of_app in Nc. apply NoDup_app in Nd as (_ & _ & Ndr). destruct Nc as [Nc1 Nc2].
  destruct (h_call0 c x Hx) as (Hc0 & _).
  unfold finish_send. rewrite call_at_put, bind_Ret.
  destruct (unsend_ok hs ds SQ RQ a c rest x x1 y s Hi Hx Hy Ho (proj2 Hst) (proj1 (open_sd opened SQ RQ a y s Hf Hy Ho (proj1 Hst))) Hq X1) as (f & y1 & E1 & Ey1 & Q1 & F1 & F2 & F3).
  rewrite <- bind_assoc_cres, E1, bind_Ret. clear E1.
  set (s1 := put_conn a y1 (set_wrfds f (put_call c x1 s))).
  rewrite (signal_send_stop sys param hash_table act Hact n c x1), bind_Ret by apply lookup_insert_eq.
  set (b := BasicStats.send_stop (req_size x1) (basic s1)). set (s2 := set_basic b s1).
  rewrite (conn_at_eq a y1), bind_Ret by apply lookup_insert_eq. assert (V : state y1 = state y) by (by rewrite Ey1). rewrite V, Ho.
  destruct (append_recvq_ok a c (RQ a) x1 y1 s2) as (km & y2 & E2 & K1 & K2 & Q2 & Ey2);
    [apply lookup_insert_eq | apply lookup_insert_eq | lia | done | done | | |].
  { rewrite Ey1. cbn. destruct (h_open0 a y Hy Ho) as [_ Q]. eapply queue_ext; [| exact Q]. intros d Hd. cbv beta. rewrite lookup_insert_ne; [done | congruence]. }
  { intros d Hd. cbn. rewrite lookup_insert_ne by congruence. destruct (h_in0 a d) as (z & Hz & _); [apply elem_of_app; auto | by eexists]. }
  rewrite E2, bind_Ret. set (s3 := put_conn a y2 (set_calls km s2)). set (x2 := set_recvq_next 0 x1) in *.
  rewrite (upd_call_at c _ x2), bind_Ret by done. set (x3 := set_timeout (recv_timeout param s3) x2). set (s4 := put_call c x3 s3).
  assert (Ec4 : conns s4 = <[a := y2]> (conns s)) by (unfold s4, s3, s2, s1, put_conn, put_call; cbn; by rewrite insert_insert_eq).
  assert (VV : y2 = set_recvq (recvq y2) (set_recvq_tail (recvq_tail y2) (set_sendq (sendq_next x) (set_sendq_tail (sendq_tail y1) y)))) by (rewrite Ey2 at 1; by rewrite Ey1 at 1).
  assert (Kd : forall d, is_Some (calls s4 !! d) <-> is_Some (calls s !! d)).
  { intros d. cbn. destruct (decide (d = c)) as [-> | Hd]; [rewrite lookup_insert_eq, Hx; split; by eexists |]. rewrite lookup_insert_ne by done.
    specialize (K2 d Hd). cbn in K2. rewrite lookup_insert_ne in K2 by done. destruct (calls s !! d); [destruct K2 as (z' & -> & _); split; by eexists | by rewrite K2]. }
  assert (U : sendq y2 = sendq y1 /\ sendq_tail y2 = sendq_tail y1) by (by rewrite Ey2).
  assert (Vs : state y2 = state y /\ sd y2 = sd y /\ watchdog y2 = watchdog y /\ time_connect_start y2 = time_connect_start y /\
    num_calls_completed y2 = num_calls_completed y /\ s_ref y2 = s_ref y /\ myport y2 = myport y /\ content_length y2 = content_length y /\
    seq_calls y2 = seq_calls y /\ seq_completed y2 = seq_completed y /\ seq_destroyed y2 = seq_destroyed y) by (by rewrite VV).
  assert (QS : queue (fun d => sendq_next <$> calls s4 !! d) (sendq y2) (sendq_tail y2) rest).
  { rewrite (proj1 U), (proj2 U). eapply queue_ext; [| exact Q1]. intros d Hd. cbv beta. cbn.
    assert (d <> c) by congruence. rewrite lookup_insert_ne by done. specialize (K2 d ltac:(done)). cbn in K2. rewrite lookup_insert_ne in K2 by done.
    destruct (calls s !! d) as [z |]; [| by rewrite K2]. destruct K2 as (z' & -> & []). cbn. congruence. }
  assert (QR : queue (fun d => recvq_next <$> calls s4 !! d) (recvq y2) (recvq_tail y2) (RQ a ++ [c])).
  { eapply queue_ext; [| exact Q2]. intros d Hd. cbv beta. cbn. destruct (decide (d = c)) as [-> | ?]; [by rewrite K1, lookup_insert_eq | by rewrite lookup_insert_ne]. }
  exists y2, s4. split; [reflexivity |]. constructor; try done.
  intros y3 R1 R2 R3 R4 R5 R6 R7 R8 R9 R10 R11 R12 R13. destruct Vs as (V1 & V2 & V3 & V4 & V5 & V6 & V7 & V8 & V9 & V10 & V11).
  eapply (heap_sent param hs ds [] None 0 SQ RQ (conns s) (calls s) (calls s4) a c rest y y3 x x3); try done; try congruence.
  - intros d Hd. cbn. specialize (K2 d Hd). cbn in K2. rewrite lookup_insert_ne in K2 by done. by rewrite lookup_insert_ne.
  - apply lookup_insert_eq.
Qed.

(** The connection waits for the reply; the heap is whole again. *)
Lemma requeued_inv hs ds SQ RQ a c rest y y2 s s4 w m k i j :
  inv hs ds [] None 0 SQ RQ s -> conns s !! a = Some y -> closing (state y) = false -> state y <> S_INITIAL /\ state y <> S_CONNECTING ->
  requeued a c rest SQ RQ hs ds y y2 s s4 -> 0 <= sd y < FD_SETSIZE -> SQ a = c :: rest ->
  i <= sd y2 <= j -> i <= min_sd s4 /\ Z.min (sd y2) (min_sd s4) <= i -> max_sd s4 <= j -> timers_ok param (activated a Rd y2 w m k i j s4) ->
  inv hs ds [] None 0 (upd SQ a rest) (upd RQ a (RQ a ++ [c])) (put_conn a (replying (set_watchdog w y2)) (activated a Rd y2 w m k i j s4)).
Proof.
  intros Hi Hy Ho [Hst1 Hst2] [] Hsd Hq Hij Hi5 Hj5 Ht5. pose proof Hi as [_ Hf _ _ _ _].
  destruct rq_same0 as (V1 & V2 & V3 & V4 & V5 & _). destruct rq_wr0 as (Wr1 & Wr2 & Wr3). destruct rq_fds0 as (D1 & D2 & D3 & D4 & D5 & D6).
  set (y3 := replying (set_watchdog w y2)). set (s5 := activated a Rd y2 w m k i j s4) in *.
  assert (Y3 : s_ref y3 = s_ref y2 /\ sd y3 = sd y2 /\ myport y3 = myport y2 /\ content_length y3 = content_length y2 /\
    seq_calls y3 = seq_calls y2 /\ seq_completed y3 = seq_completed y2 /\ seq_destroyed y3 = seq_destroyed y2 /\ sendq y3 = sendq y2 /\
    sendq_tail y3 = sendq_tail y2 /\ recvq y3 = recvq y2 /\ recvq_tail y3 = recvq_tail y2 /\ watchdog y3 = w /\
    time_connect_start y3 = time_connect_start y /\ num_calls_completed y3 = num_calls_completed y)
    by (unfold y3, replying; case_match; cbn; by rewrite V4, V5).
  destruct Y3 as (T1 & T2 & T3 & T4 & T5 & T6 & T7 & T8 & T9 & T10 & T11 & T12 & T13 & T14).
  destruct (replying_state (set_watchdog w y2)) as [O3 B3]; [cbn; by rewrite V1 |]. fold y3 in O3, B3.
  assert (Ec : conns (put_conn a y3 s5) = <[a := y3]> (conns s)) by (cbn; by rewrite insert_insert_eq, rq_conns0, insert_insert_eq).
  eapply (inv_change_at param opened seen a y y3); [exact Hi | | exact Hy | exact Ec | split_and!; auto | intros d; apply rq_calls0 | | |].
  - destruct rq_rest0 as [[] ? ? ?]. constructor; [constructor |..]; done.
  - rewrite Ec. by apply rq_heap0.
  - eapply (fds_change opened SQ RQ _ _ a y y3 s); try done.
    + congruence.
    + lia.
    + intros b Hb. by rewrite !upd_ne.
    + intros fd Hfd. cbn. split; [by apply Wr1 |]. rewrite V2, D6. by apply in_add.
    + rewrite upd_eq. change (wrfds (put_conn a y3 s5)) with (wrfds s4). rewrite Wr2. split; [intros [? ?]; auto | intros [? [E | ?]]; [| done]].
      by rewrite E in B3.
    + rewrite upd_eq. cbn. rewrite V2. split; [intros _; split; [lia | by destruct (RQ a)] | intros _; apply in_added].
    + cbn. lia.
    + cbn. lia.
    + cbn. lia.
    + intros _. cbn. lia.
  - eapply (timers_conn a (set_watchdog w y2) y3 s5); try done. apply lookup_insert_eq.
Qed.

Lemma finish_send_ok n hs ds SQ RQ a c rest x x1 y s :
  inv hs ds [] None 0 SQ RQ s -> calls s !! c = Some x -> conns s !! a = Some y -> closing (state y) = false -> SQ a = c :: rest ->
  sendq_next x1 = sendq_next x -> c_ref x1 = c_ref x -> call_conn x1 = call_conn x -> (call_wf x -> call_wf x1) ->
  exists r, finish_send (signal (S n)) (sd y) a c (put_call c x1 s) = Ret r /\ sent_round hs ds a (sd y) rest r.
Proof.
  intros Hi Hx Hy Ho Hq X1 X2 X3 X4.
  destruct (requeue_ok n hs ds SQ RQ a c rest x x1 y s Hi Hx Hy Ho Hq X1 X2 X3 X4) as (y2 & s4 & -> & R).
  pose proof Hi as [Hh Hf Ht _ _ _]. pose proof Hh as []. pose proof R as [].
  destruct rq_same0 as (V1 & V2 & V3 & V4 & V5 & _).
  assert (Hst : state y <> S_INITIAL /\ state y <> S_CONNECTING).
  { split; intros E; destruct (h_fresh0 a y Hy ltac:(tauto)) as [_ N]; by rewrite Hq in N. }
  destruct (open_sd opened SQ RQ a y s Hf Hy Ho (proj1 Hst)) as [Hsd _].
  assert (Hy4 : conns s4 !! a = Some y2) by (rewrite rq_conns0; apply lookup_insert_eq).
  assert (Hin : forall d, d ∈ SQ a ++ RQ a -> exists z, calls s4 !! d = Some z).
  { intros d Hd. apply rq_calls0. destruct (h_in0 a d Hd) as (z & Hz & _). by eexists. }
  assert (There : forall nx p t l, queue nx p t l -> (forall d, d ∈ l -> d ∈ SQ a ++ RQ a) -> p = 0 \/ exists z, calls s4 !! p = Some z).
  { intros nx p t l Q Hl. destruct (queue_head _ _ _ _ Q) as [? | (l' & ->)]; [by left | right]. apply Hin, Hl, elem_of_cons. by left. }
  assert (Hrest : forall d, d ∈ rest -> d ∈ SQ a ++ RQ a) by (intros d Hd; rewrite Hq; apply elem_of_app; left; apply elem_of_cons; auto).
  assert (Hrq : forall d, d ∈ RQ a ++ [c] -> d ∈ SQ a ++ RQ a).
  { intros d [? | ->%list_elem_of_singleton]%elem_of_app; apply elem_of_app; [auto | left; rewrite Hq; apply elem_of_cons; auto]. }
  assert (Ht4 : timers_ok param s4) by (apply (timers_conn a y y2 s); tauto).
  unfold activate_recv. destruct (set_active_ok param a Rd y2 s4 Hy4) as (w & m & k & i & j & E5 & Hij & Hi5 & Hj5 & Ht5 & _);
    [by rewrite V2 | by eapply There | by eapply There | done |]. rewrite E5, bind_Ret. clear E5.
  set (s5 := activated a Rd y2 w m k i j s4) in *. set (y3 := replying (set_watchdog w y2)).
  rewrite (conn_at_eq a (set_watchdog w y2)), bind_Ret by apply lookup_insert_eq.
  assert (E6 : (if before_reply (state (set_watchdog w y2)) then upd_conn a (set_state S_REPLY_STATUS) s5 else Ret s5) = Ret (put_conn a y3 s5)).
  { unfold y3, replying. destruct (before_reply _); [apply upd_conn_at, lookup_insert_eq |]. by rewrite put_conn_id by apply lookup_insert_eq. }
  rewrite E6, bind_Ret, conn_at_put, bind_Ret.
  pose proof (requeued_inv hs ds SQ RQ a c rest y y2 s s4 w m k i j Hi Hy Ho Hst R Hsd Hq Hij Hi5 Hj5 Ht5) as Hi6. fold s5 y3 in Hi6.
  assert (Sq : sendq y3 = sendq y2) by (unfold y3, replying; by case_match). rewrite Sq.
  destruct (Z.eqb_spec (sendq y2) 0) as [| Hne]; [by eexists; split; [reflexivity |]; exists (upd SQ a rest), (upd RQ a (RQ a ++ [c])), y3; split_and!; [| apply put_conn_get |] |].
  destruct (There _ _ _ _ rq_sendq0 Hrest) as [? | (z & Hz)]; [done |].
  rewrite (signal_send_start sys param hash_table act Hact n (sendq y2) z), bind_Ret by done.
  rewrite (conn_at_eq a y3), bind_Ret by apply lookup_insert_eq. eexists. split; [reflexivity |].
  exists (upd SQ a rest), (upd RQ a (RQ a ++ [c])), y3. split_and!; [| apply lookup_insert_eq |].
  - eapply inv_call; [exact Hz | by constructor | exact Hi6].
  - intros _. destruct (replying_state (set_watchdog w y2)) as [O3 _]; [cbn; by rewrite V1 |]. fold y3 in O3.
    split_and!; [done | unfold y3, replying; by case_match | by rewrite upd_eq |]. intros ->. apply queue_nil in rq_sendq0. tauto.
Qed.

(** ** The rounds *)
Lemma send_failed n hs ds SQ RQ a fd rest e y s :
  inv hs ds [] None 0 SQ RQ s -> a ∈ hs -> conns s !! a = Some y -> closing (state y) = false ->
  exists r, (s ← conn_failure sys (signal (S n)) a e s; Ret (false, s)) = Ret r /\ sent_round hs ds a fd rest r.
Proof.
  intros Hi Hin Hy Ho. destruct (conn_failure_ok sys param hash_table act opened seen Hact Hpar Hsys n hs ds SQ RQ a e y s Hi Hin Hy Ho)
    as (s' & -> & SQ' & RQ' & y' & Hi' & Hy'). rewrite bind_Ret. eexists. split; [reflexivity |]. by exists SQ', RQ', y'.
Qed.

(** Some of the request is left: the connection goes on waiting. *)
Lemma send_more n hs ds SQ RQ a c rest x y s :
  inv hs ds [] None 0 SQ RQ s -> calls s !! c = Some x -> conns s !! a = Some y -> closing (state y) = false -> SQ a = c :: rest ->
  0 <= sd y < FD_SETSIZE ->
  exists r, (s ← upd_call c (set_timeout (send_timeout param s)) s; s ← set_active a Wr s; Ret (false, s)) = Ret r /\
    sent_round hs ds a n rest r.
Proof.
  intros Hi Hx Hy Ho Hq Hsd. rewrite (upd_call_at c _ x), bind_Ret by done.
  destruct (set_active_inv param opened seen hs ds [] None 0 SQ RQ a Wr y (put_call c (set_timeout (send_timeout param s) x) s))
    as (s' & w & -> & Hi' & Hy' & _); try done.
  - eapply inv_call; [exact Hx | by constructor | exact Hi].
  - cbn. rewrite Hq. by right.
  - rewrite bind_Ret. eexists. split; [reflexivity |]. by exists SQ, RQ, (set_watchdog w y).
Qed.

Lemma send_round_ok n hs ds SQ RQ a c rest y s :
  inv hs ds [] None 0 SQ RQ s -> a ∈ hs -> conns s !! a = Some y -> closing (state y) = false -> SQ a = c :: rest ->
  exists r, send_round sys param (Some past_end) (signal (S n)) (sd y) a s = Ret r /\ sent_round hs ds a (sd y) rest r.
Proof.
  intros Hi Hin Hy Ho Hq. pose proof Hi as [[] Hf _ _ _ _].
  assert (Hc : sendq y = c) by (destruct (h_open0 a y Hy Ho) as [[Q _] _]; rewrite Hq in Q; by destruct Q).
  destruct (h_in0 a c) as (x & Hx & Hxc); [apply elem_of_app; left; rewrite Hq; apply elem_of_cons; auto |].
  destruct (h_call0 c x Hx) as (Hpos & (W1 & W2 & W3 & W4 & W5) & _).
  destruct (h_send0 a c x) as [Hidx Hsv]; [rewrite Hq; apply elem_of_cons; auto | done |].
  assert (Hst : state y <> S_INITIAL) by (intros E; destruct (h_fresh0 a y Hy ltac:(tauto)) as [_ N]; by rewrite Hq in N).
  destruct (open_sd opened SQ RQ a y s Hf Hy Ho Hst) as [Hsd _].
  unfold send_round. rewrite (conn_at_eq a y), bind_Ret, Hc by done. unfold assert_at, BasicStats.assert_at.
  destruct (Z.eqb_spec c 0); [lia |]. cbn [negb]. rewrite bind_Ret, (signal_quiet sys param hash_table act Hact), bind_Ret by done.
  rewrite (call_at_eq c x), bind_Ret, gather_ok, bind_Ret by (done || by apply Forall_drop).
  set (bytes := request_text _). pose proof (so_writev _ _ _ Hsys (sd y) bytes (world s)) as [Hsame Hn].
  destruct (sys_writev sys (sd y) bytes (world s)) as [r w]. cbn [fst snd] in Hsame, Hn.
  set (s1 := set_world w (set_errno 0 s)). assert (Hi1 : inv hs ds [] None 0 SQ RQ s1) by (by apply inv_world, inv_errno).
  destruct r as [nsent | e].
  - destruct (advance_ok past_end (S IE_LEN) (Z.to_nat (iov_index x)) nsent (iov_saved x) (iov x)) as (i & sv & vs & E & I1 & I2 & I3 & I4 & _);
      [lia | unfold frags_ok; split_and!; try done; lia | exact Hn | lia |].
    rewrite E, bind_Ret, (upd_call_at c _ x), bind_Ret by done. set (x1 := set_req_size _ _).
    destruct (Nat.ltb_spec i IE_LEN) as [L | L].
    + apply (send_more (sd y) hs ds SQ RQ a c rest x1 y); try done; [| apply put_call_get].
      eapply inv_call; [exact Hx | | exact Hi1]. constructor; try done. intros _. split; [cbn; lia | by apply I4].
    + apply (finish_send_ok n hs ds SQ RQ a c rest x x1 y s1); done.
  - destruct (e =? EAGAIN); [eexists; split; [reflexivity |]; exists SQ, RQ, y; split_and!; [by apply inv_errno | done | done] |].
    pose proof (so_error _ _ _ Hsys (sd y) (world (set_errno e s1))) as Hsame2. destruct (sys_so_error _ _ _) as [r w2]. cbn [snd] in Hsame2.
    assert (Hi2 : inv hs ds [] None 0 SQ RQ (set_world w2 (set_errno e s1))) by (by apply inv_world, inv_errno).
    apply send_failed with (SQ := SQ) (RQ := RQ) (y := y); try done; destruct r as [e2 |]; try destruct (e2 =? 0); try done. by apply inv_errno.
Qed.

(** The loop sends one call in a round. *)
Lemma send_loop_ok n hs ds a fuel : forall SQ RQ y s,
  inv hs ds [] None 0 SQ RQ s -> a ∈ hs -> conns s !! a = Some y -> closing (state y) = false -> SQ a <> [] ->
  (length (SQ a) < fuel)%nat ->
  exists s', send_loop sys param (Some past_end) (signal (S n)) fuel (sd y) a s = Ret s' /\ kept param opened seen hs ds a s'.
Proof.
  induction fuel as [| fuel IH]; intros SQ RQ y s Hi Hin Hy Ho Hne Hf; [lia |]. cbn [send_loop].
  destruct (SQ a) as [| c rest] eqn:Hq; [done |].
  destruct (send_round_ok n hs ds SQ RQ a c rest y s Hi Hin Hy Ho Hq) as ([again s1] & -> & SQ1 & RQ1 & y1 & Hi1 & Hy1 & Hg).
  rewrite bind_Ret. cbn [fst snd] in *. destruct again; [| by exists s1; split; [| exists SQ1, RQ1, y1]].
  destruct (Hg eq_refl) as (Ho1 & Ed & Eq & Hr). rewrite <- Ed. apply (IH SQ1 RQ1 y1 s1); try done; rewrite Eq; [done |]. cbn in Hf. lia.
Qed.

Lemma do_send_ok n hs ds SQ RQ a y s :
  inv hs ds [] None 0 SQ RQ s -> a ∈ hs -> conns s !! a = Some y -> closing (state y) = false -> sendq y <> 0 ->
  exists s', do_send sys param (Some past_end) (signal (S n)) a s = Ret s' /\ kept param opened seen hs ds a s'.
Proof.
  intros Hi Hin Hy Ho Hne. unfold do_send. rewrite (conn_at_eq a y), bind_Ret by done. pose proof Hi as [[] _ _ _ _ _].
  apply (send_loop_ok n hs ds a _ SQ RQ y s); try done.
  - intros E. destruct (h_open0 a y Hy Ho) as [Q _]. apply queue_nil in Q. tauto.
  - apply queue_fits.
    + pose proof (h_nodup0 a) as N. by apply NoDup_app in N as (N & _).
    + intros c Hc. destruct (h_in0 a c) as (x & Hx & _); [apply elem_of_app; auto | by exists x].
Qed.
End Send.
End HttperfSend.
