(* ===== verification/HttperfConnect.v ===== *)
(** * httperf/src: making connections keeps the invariant

    A new connection gets a socket, an entry of [sd_to_conn] and an address, and is connected
    at once, later, or not at all. *)
From S2P Require Import Prelude Doubles HttpReply HttpReplyTotal Ports AddrTable BasicStats BasicStatsTheorems HttperfState Httperf HttperfRequest HttperfInv HttperfFrame HttperfSteps HttperfIssue HttperfClose HttperfDone HttperfReply.

Module HttperfConnect.
Import HttperfState Httperf HttperfRequest HttperfInv HttperfFrame HttperfHeap HttperfSteps HttperfIssue HttperfClose HttperfRefs HttperfDone HttperfReply.

Section Connect.
Context {W A : Type} (sys : system W A) (param : Cmdline_Params) (hash_table : AddrTable.table A).
Context (act : action).
Context (opened : W -> gset Z) (seen : W -> Time -> Prop).
Context (Hact : forall e, act e = handlers_of param e) (Hpar : params_ok param) (Hsys : system_ok sys opened seen).
Implicit Types s : st W.
Abbreviation inv := (inv param opened seen).
Abbreviation signal := (event_signal sys param hash_table act).

(** ** How many connections there are *)
Lemma ds_fit hs ds hc dy ex SQ RQ cm km : heap_ok param hs ds hc dy ex SQ RQ cm km -> (length ds <= size cm)%nat.
Proof.
  intros []. destruct h_ds0 as [N D]. rewrite <- (size_list_to_set (C := gset Z)) by done. rewrite <- (size_dom (D := gset Z)).
  apply subseteq_size. intros a Ha. apply elem_of_list_to_set in Ha. destruct (D a Ha) as (y & Hy & _). apply elem_of_dom. by exists y.
Qed.

Lemma ds_fit_more hs ds hc dy ex SQ RQ cm km a y :
  heap_ok param hs ds hc dy ex SQ RQ cm km -> cm !! a = Some y -> state y <> S_FREE -> (length ds < size cm)%nat.
Proof.
  intros [] Hy Hs. destruct h_ds0 as [N D].
  assert (N2 : NoDup (a :: ds)). { apply NoDup_cons. split; [| done]. intros Ha. destruct (D a Ha) as (z & Hz & ?). congruence. }
  apply (Nat.lt_le_trans _ (length (a :: ds))); [cbn; lia |].
  rewrite <- (size_list_to_set (C := gset Z)) by done. rewrite <- (size_dom (D := gset Z)).
  apply subseteq_size. intros b Hb. apply elem_of_list_to_set, elem_of_cons in Hb. apply elem_of_dom.
  destruct Hb as [-> | Hb]; [by exists y |]. destruct (D b Hb) as (z & Hz & _). by exists z.
Qed.

(** ** conn_new *)
(** The state with a new connection, counted. *)
Definition with_conn (a : Z) (fr : list Z) (b : Z) s : st W :=
  set_basic (BasicStats.conn_created (basic s)) (set_conns (<[a := conn_init param]> (conns s)) (set_free_conns fr (set_brk b s))).

Lemma with_conn_memory a fr b s : memory_ok s ->
  (free_conns s = a :: fr /\ b = brk s) \/ (free_conns s = [] /\ fr = [] /\ a = brk s /\ b = brk s + 1) ->
  conns s !! a = None /\ 0 < a /\ memory_ok (with_conn a fr b s).
Proof.
  intros [M1 [M2 M2'] [M3 M3'] M4 M5] H.
  assert (Ha : conns s !! a = None /\ 0 < a < b /\ brk s <= b /\ (a ∉ fr) /\ NoDup fr /\ forall d, d ∈ fr -> 0 < d < b /\ conns s !! d = None).
  { destruct H as [(E & ->) | (E & -> & -> & ->)]; rewrite E in M3, M3'.
    - apply NoDup_cons in M3 as [N1 N2]. destruct (M3' a) as [? ?]; [apply elem_of_cons; auto |].
      split_and!; try done; try lia. all: intros; by apply M3', elem_of_cons; auto.
    - split_and!; try lia.
      + destruct (conns s !! brk s) as [z |] eqn:Ez; [apply M5 in Ez; lia | done].
      + by intros ?%elem_of_nil.
      + apply NoDup_nil_2.
      + by intros d ?%elem_of_nil. }
  destruct Ha as (H1 & H2 & Hb & H3 & H4 & H5). split_and!; [done | lia |]. constructor; cbn; [lia | | | |].
  - split; [done |]. intros d Hd. destruct (M2' d Hd). split; [lia | done].
  - split; [done |]. intros d Hd. destruct (H5 d Hd). split; [lia |]. rewrite lookup_insert_ne; [done |]. by intros <-.
  - intros c x Hx. apply M4 in Hx. lia.
  - intros d y [(-> & ->) | (_ & Hy)]%get_insert; [lia |]. apply M5 in Hy. lia.
Qed.

Lemma conn_new_eq n s : exists a fr b,
  ((free_conns s = a :: fr /\ b = brk s) \/ (free_conns s = [] /\ fr = [] /\ a = brk s /\ b = brk s + 1)) /\
  conn_new param (signal (S n)) s = Ret (a, with_conn a fr b s).
Proof.
  unfold conn_new. destruct (free_conns s) as [| a fr] eqn:Ef.
  - exists (brk s), [], (brk s + 1). split; [right; done |]. rewrite (signal_conn_new sys param hash_table act Hact), bind_Ret.
    unfold with_conn. destruct s. cbn in *. by rewrite Ef.
  - exists a, fr, (brk s). split; [left; done |]. rewrite (signal_conn_new sys param hash_table act Hact), bind_Ret.
    unfold with_conn. by destruct s.
Qed.

Lemma conn_created_fields b : BasicStats.num_active_conns (BasicStats.conn_created b) = u32 (BasicStats.num_active_conns b + 1) /\
  BasicStats.num_replies (BasicStats.conn_created b) = BasicStats.num_replies b.
Proof. unfold BasicStats.conn_created. by case_match. Qed.

(** A connection is made: it is one more of those that are generated. *)
Lemma conn_new_ok n ds SQ RQ s g :
  inv [] ds [] None 0 SQ RQ s -> g = num_conns_generated s + 1 -> num_conns_generated s < num_conns param ->
  (fltb fzero (rate_param param) = false -> num_conns_generated s <= num_conns_destroyed s) ->
  exists a s', conn_new param (signal (S n)) (set_num_conns_generated g s) = Ret (a, s') /\ inv [] ds [] None 0 SQ RQ s' /\
    0 < a /\ conns s' !! a = Some (conn_init param) /\
    num_conns_generated s' = g /\ num_conns_destroyed s' = num_conns_destroyed s /\ rg_done s' = rg_done s.
Proof.
  intros Hi -> Hlt Hseq. set (s0 := set_num_conns_generated _ s). pose proof Hi as [Hh Hf Ht Hm Hk Hg].
  destruct (conn_new_eq n s0) as (a & fr & b & Hfr & E). assert (Hm0 : memory_ok s0) by (by destruct Hm).
  destruct (with_conn_memory a fr b s0 Hm0 Hfr) as (Ha & Hpos & Hm1).
  exists a, (with_conn a fr b s0). split_and!; try done; [| apply lookup_insert_eq].
  set (y := conn_init param). change (conns s0) with (conns s) in Ha. constructor.
  - cbn. pose proof (ds_fit _ _ _ _ _ _ _ _ _ Hh). destruct Hh.
    assert (Hq : SQ a ++ RQ a = []).
    { destruct (decide (SQ a ++ RQ a = [])) as [| N]; [done |]. destruct (h_queued0 a N) as (z & Hz & _). congruence. }
    pose proof (app_eq_nil _ _ Hq) as [QS QR]. constructor; try done.
    + intros d Hd. destruct (h_queued0 d Hd) as (z & Hz & ?). exists z. rewrite lookup_insert_ne; [done |]. intros <-. congruence.
    + intros d z [(-> & ->) | (_ & Hz)]%get_insert; [| eauto]. split_and!; try done.
    + intros d z [(-> & ->) | (_ & Hz)]%get_insert; [done | eauto].
    + intros d Hd. apply insert_held. eauto.
    + intros d z [(-> & ->) | (_ & Hz)]%get_insert; [done | eauto].
    + intros d z [(-> & ->) | (_ & Hz)]%get_insert; [| eauto]. intros _. rewrite QS, QR. done.
    + intros d z [(-> & ->) | (_ & Hz)]%get_insert; [| eauto]. done.
    + intros d z [(-> & ->) | (_ & Hz)]%get_insert; [| eauto]. by left.
    + intros d z [(-> & ->) | (_ & Hz)]%get_insert; [| eauto]. done.
    + destruct h_ds0 as [N D]. split; [done |]. intros d Hd. destruct (D d Hd) as (z & Hz & ?). exists z. rewrite lookup_insert_ne; [done |].
      intros <-. congruence.
  - destruct Hf. constructor; cbn; try done.
    + intros d z [(-> & ->) | (_ & Hz)]%get_insert; [by left | eauto].
    + intros fd d Hd H0. destruct (f_map0 fd d Hd H0) as (Hp & z & Hz & ?). split; [done |]. exists z. rewrite lookup_insert_ne; [done |]. intros <-. congruence.
    + intros fd. rewrite f_wr0. split; intros (d & z & Hz & Hoz & Ez & Hp & H); exists d, z.
      * rewrite lookup_insert_ne; [done |]. intros <-. congruence.
      * apply get_insert in Hz as [(-> & ->) | (_ & Hz)]; [cbn in Ez; lia | done].
    + intros fd. rewrite f_rd0. split; intros (d & z & Hz & Hoz & Ez & Hp & H); exists d, z.
      * rewrite lookup_insert_ne; [done |]. intros <-. congruence.
      * apply get_insert in Hz as [(-> & ->) | (_ & Hz)]; [cbn in Ez; lia | done].
  - destruct Ht. constructor; cbn; try done.
    + intros d z [(-> & ->) | (_ & Hz)]%get_insert; [done | eauto].
    + intros t d e Hd. destruct (t_timer0 t d e Hd) as (z & Hz & ?). exists z. rewrite lookup_insert_ne; [done |]. intros <-. congruence.
  - exact Hm1.
  - destruct Hk. constructor; cbn; try done.
    + intros d z [(-> & ->) | (_ & Hz)]%get_insert; [done | eauto].
    + intros d z [(-> & ->) | (_ & Hz)]%get_insert; [by left | eauto].
  - pose proof (po_conns _ Hpar). pose proof (ds_fit _ _ _ _ _ _ _ _ _ Hh). destruct Hg. destruct (conn_created_fields (basic s)) as [B1 B2].
    constructor; cbn; rewrite ?B1, ?B2, ?map_size_insert_None by done; try done; try lia.
    + rewrite g_active0, wrap_u_small; unfold INT_MAX in *; lia.
    + intros E1. specialize (Hseq E1). lia.
Qed.

(** ** The socket *)
(** More descriptors are in use. *)
Lemma inv_opened hs ds hc dy ex SQ RQ w s :
  inv hs ds hc dy ex SQ RQ s -> opened (world s) ⊆ opened w -> (forall t, seen w t <-> seen (world s) t) ->
  inv hs ds hc dy ex SQ RQ (set_world w s).
Proof.
  intros [Hh Hf Ht Hm Hk Hg] Ho Hse. constructor; [exact Hh | | by destruct Ht | by destruct Hm | | by destruct Hg].
  - destruct Hf. constructor; cbn; try assumption. intros a y Hy Hc. destruct (f_conn0 a y Hy Hc) as [? | (? & ? & ? & ?)]; [by left | right].
    split_and!; try done; try tauto. by apply Ho.
  - destruct Hk. constructor; cbn.
    + by apply Hse.
    + intros t Ht'. apply k_short0. by apply Hse.
    + intros. apply Hse. eauto.
    + intros a y Hy. rewrite Hse. eauto.
Qed.

(** The connection that gets the new descriptor. *)
Definition with_socket (a fd : Z) (y : Conn) (n : Z) s : st W :=
  set_sd_to_conn (<[fd := a]> (sd_to_conn s)) (set_alloced_sd_to_conn n (put_conn a (set_sd fd y) s)).

Lemma socket_inv hs ds hc dy ex SQ RQ a fd n y s :
  inv hs ds hc dy ex SQ RQ s -> conns s !! a = Some y -> state y = S_INITIAL -> sd y = -1 ->
  0 <= fd < FD_SETSIZE -> fd < n -> alloced_sd_to_conn s <= n -> fd ∈ opened (world s) ->
  (forall b z, conns s !! b = Some z -> closing (state z) = false -> sd z <> fd) ->
  inv hs ds hc dy ex SQ RQ (with_socket a fd y n s).
Proof.
  intros Hi Hy Hst Hsd Hfd Hn Hal Hop Hfree. pose proof Hi as [Hh Hf Ht _ _ _].
  assert (Ho : closing (state y) = false) by (by rewrite Hst).
  assert (Q : SQ a = [] /\ RQ a = []) by (destruct Hh; split; [by apply (h_fresh0 a y Hy); left | apply (h_state0 a y Hy); by rewrite Hst]).
  destruct Q as [QS QR].
  eapply (inv_change_at param opened seen a y (set_sd fd y)); [exact Hi | same_rest | exact Hy | done | by apply lives_state | done | | | by apply (timers_conn a y (set_sd fd y) s)].
  - apply (heap_fields param hs ds hc dy ex SQ RQ (conns s) (calls s) a y); try done. constructor; auto.
  - destruct Hf.
    assert (Ex : forall P : Z -> Conn -> Prop, (forall x, ~ P a x) ->
      forall fd', (exists b z, conns s !! b = Some z /\ closing (state z) = false /\ sd z = fd' /\ 0 <= fd' /\ P b z) <->
                  (exists b z, <[a := set_sd fd y]> (conns s) !! b = Some z /\ closing (state z) = false /\ sd z = fd' /\ 0 <= fd' /\ P b z)).
    { intros P Hn0 fd'. split; intros (b & z & Hz & Hoz & Ez & Hp & HP); exists b, z.
      - rewrite lookup_insert_ne; [done |]. intros <-. by apply Hn0 in HP.
      - apply get_insert in Hz as [(-> & ->) | (_ & Hz)]; [by apply Hn0 in HP | done]. }
    constructor; cbn; try done.
    + intros b z [(-> & ->) | (Hb & Hz)]%get_insert Hoz; [right; cbn; rewrite lookup_insert_eq; split_and!; done || lia |].
      destruct (f_conn0 b z Hz Hoz) as [? | (F1 & F2 & F3 & F4)]; [by left | right]. split_and!; try done; try lia.
      rewrite lookup_insert_ne; [done |]. apply not_eq_sym. by apply (Hfree b).
    + intros fd' b [(-> & ->) | (Hb & Hz)]%get_insert Hb0; [split; [lia |]; exists (set_sd fd y); by rewrite lookup_insert_eq |].
      destruct (f_map0 fd' b Hz Hb0) as (Hp & z & Hz2 & Oz & Ez). split; [done |]. exists z. rewrite lookup_insert_ne; [done |].
      intros <-. assert (z = y) by congruence. subst z. lia.
    + intros fd'. rewrite f_wr0.
      split; intros (b & z & Hz & Hoz & Ez & Hp & HP); exists b, z.
      * rewrite lookup_insert_ne; [done |]. intros <-. assert (z = y) by congruence. subst z. lia.
      * apply get_insert in Hz as [(-> & ->) | (_ & Hz)]; [| done]. cbn in HP. rewrite Hst, QS in HP. by destruct HP.
    + intros fd'. rewrite f_rd0. apply (Ex (fun b _ => RQ b <> [])). intros _ N. by rewrite QR in N.
    + lia.
Qed.

(** ** A connection that is made *)
Lemma inv_started hs ds hc dy ex SQ RQ a y y' s s' :
  inv hs ds hc dy ex SQ RQ s -> conns s !! a = Some y -> (state y = S_INITIAL \/ state y = S_CONNECTING) ->
  rest_same seen s s' -> conns s' = <[a := y']> (conns s) -> calls s' = calls s -> heap_like y y' -> closing (state y') = false ->
  time_connect_start y' = time_connect_start y -> num_calls_completed y' = num_calls_completed y ->
  seen (world s) (time_connect_start y) -> fds_ok opened SQ RQ s' -> timers_ok param s' ->
  inv hs ds hc dy ex SQ RQ s'.
Proof.
  intros Hi Hy Hst R Ec Ek HL Ho' Et En Hseen Hf' Ht'. pose proof Hi as [Hh _ _ Hm Hk Hg]. destruct R as [U R1 R2 R3].
  assert (Ho : closing (state y) = false) by (destruct Hst as [-> | ->]; done).
  assert (Hs : forall b, is_Some (conns s' !! b) <-> is_Some (conns s !! b)).
  { intros b. rewrite Ec. destruct (decide (b = a)) as [-> | ?]; [rewrite lookup_insert_eq, Hy; split; by eexists | by rewrite lookup_insert_ne]. }
  constructor; try done.
  - rewrite Ec, Ek. by eapply heap_fields.
  - eapply memory_change; [.. | exact Hm]; try done; [intros b; apply Hs | by rewrite Ek].
  - destruct U, Hk. constructor; rewrite ?qu_now; rewrite ?Ec.
    + rewrite qu_now0. by apply qu_seen0.
    + intros t Ht. rewrite qu_now0. apply k_short0. by apply qu_seen0.
    + intros b z [(-> & ->) | (_ & Hz)]%get_insert H1 H2; apply qu_seen0; [by rewrite Et | eauto].
    + intros b z [(-> & ->) | (_ & Hz)]%get_insert; rewrite qu_seen0; [rewrite Et; by right | eauto].
  - assert (Hsz : size (conns s') = size (conns s)) by (apply same_size; intros b; by rewrite Hs).
    destruct U, Hg. constructor; rewrite ?Hsz, ?qu_active0, ?qu_replies0, ?qu_generated0, ?qu_destroyed0, ?qu_running0, ?qu_done0, ?qu_iteration0, ?qu_loop0; assumption.
Qed.

(** ** connect *)
(** A connection that has a socket and an address, and no state yet. *)
Definition ready (a : Z) (y : Conn) s : Prop :=
  conns s !! a = Some y /\ state y = S_INITIAL /\ 0 <= sd y < FD_SETSIZE /\ watchdog y = 0 /\ time_connect_start y = now s.

Lemma ready_idle hs ds hc dy ex SQ RQ a y s : inv hs ds hc dy ex SQ RQ s -> ready a y s ->
  SQ a = [] /\ RQ a = [] /\ seq_calls y = 0 /\ sendq y = 0 /\ recvq y = 0 /\ closing (state y) = false.
Proof.
  intros [[] _ _ _ _ _] (Hy & Hst & _). destruct (h_fresh0 a y Hy (or_introl Hst)) as [? QS].
  assert (QR : RQ a = []) by (apply (h_state0 a y Hy); by rewrite Hst). assert (Ho : closing (state y) = false) by (by rewrite Hst).
  destruct (h_open0 a y Hy Ho) as [Q1 Q2]. apply queue_nil in Q1, Q2. split_and!; tauto.
Qed.

(** [connect] is done at once. *)
Lemma start_now n ds SQ RQ a y s :
  inv [] ds [] None 0 SQ RQ s -> ready a y s ->
  exists s' SQ' y', (s ← upd_conn a (set_state S_CONNECTED) s; signal (S (S n)) EV_CONN_CONNECTED a NoArg s) = Ret s' /\
    inv [] ds [] None 0 SQ' RQ s' /\ conns s' !! a = Some y' /\ quiet seen s s'.
Proof.
  intros Hi Hr. destruct (ready_idle _ _ _ _ _ _ _ _ _ _ Hi Hr) as (QS & QR & Hc & _ & _ & Ho). destruct Hr as (Hy & Hst & Hsd & Hw & Htm).
  rewrite (upd_conn_at a _ y), bind_Ret by done. set (y1 := set_state S_CONNECTED y). set (s1 := put_conn a y1 s).
  pose proof Hi as [_ Hf Ht _ Hk _].
  assert (Hi1 : inv [] ds [] None 0 SQ RQ s1).
  { eapply (inv_started [] ds [] None 0 SQ RQ a y y1 s); try done; [by left | constructor; auto | | |].
    - rewrite Htm. by destruct Hk.
    - apply (fds_change opened SQ RQ SQ RQ a y y1 s); try done; try lia.
      + change (wrfds s1) with (wrfds s). rewrite (wr_iff opened SQ RQ a y s) by done. rewrite QS, Hst. split; intros [? [E | E]]; done.
      + by apply (rd_iff opened SQ RQ a y s).
      + intros Hin. by apply Hf.
    - by apply (timers_conn a y y1 s). }
  rewrite (signal_connected sys param hash_table act Hact (S n) a y1) by apply put_conn_get.
  set (s2 := set_basic _ s1). assert (Hi2 : inv [] ds [] None 0 SQ RQ s2) by (by apply inv_basic).
  destruct (issue_calls_ok sys param hash_table act opened seen Hact Hpar [] ds None 0 a SQ RQ y1 n s2 Hi2)
    as (s3 & y3 & SQ3 & E3 & Hi3 & Hy3 & _ & U3); try done; [by right | apply put_conn_get | by left |].
  exists s3, SQ3, y3. split_and!; try done. eapply quiet_trans; [| exact U3]. by constructor.
Qed.

(** [connect] goes on; the watchdog is set. *)
Lemma start_later ds SQ RQ a y s :
  inv [] ds [] None 0 SQ RQ s -> ready a y s ->
  exists s' y', (s ← upd_conn a (set_state S_CONNECTING) s;
      s ← set_active a Wr s;
      if fltb fzero (param_timeout param) then
        x ← conn_at a s;
        _ ← assert_at 984 (watchdog x =? 0);
        let '(w, s) := timer_schedule (conn_timeout_cb a) (param_timeout param) s in
        s ← upd_conn a (set_watchdog w) s; Ret (true, s)
      else Ret (true, s)) = Ret (true, s') /\
    inv [] ds [] None 0 SQ RQ s' /\ conns s' !! a = Some y' /\ quiet seen s s'.
Proof.
  intros Hi Hr. destruct (ready_idle _ _ _ _ _ _ _ _ _ _ Hi Hr) as (QS & QR & Hc & Hs0 & Hr0 & Ho). destruct Hr as (Hy & Hst & Hsd & Hw & Htm).
  rewrite (upd_conn_at a _ y), bind_Ret by done. set (y1 := set_state S_CONNECTING y). set (s1 := put_conn a y1 s).
  pose proof Hi as [_ Hf Ht _ Hk _]. assert (Ht1 : timers_ok param s1) by (by apply (timers_conn a y y1 s)).
  destruct (set_active_ok param a Wr y1 s1) as (w & m & k & i & j & E & Hij & Hi1 & Hj & Ht2 & Hidle);
    [apply put_conn_get | done | by left | by left | done |]. destruct (Hidle Hs0 Hr0) as (-> & -> & ->). clear Hidle.
  rewrite E, bind_Ret. clear E. set (s2 := activated _ _ _ _ _ _ _ _ _) in *. set (y2 := set_watchdog (watchdog y1) y1).
  assert (Ec : conns s2 = <[a := y2]> (conns s)) by (cbn; by rewrite insert_insert_eq).
  assert (Hi2 : inv [] ds [] None 0 SQ RQ s2).
  { eapply (inv_started [] ds [] None 0 SQ RQ a y y2 s); try done; [by left | constructor; auto | |].
    - rewrite Htm. by destruct Hk.
    - apply (fds_change opened SQ RQ SQ RQ a y y2 s); try done; try (cbn in *; lia).
      + intros fd Hfd. cbn. split; [by apply in_add | done].
      + cbn. split; [intros _; split; [lia | by left] | intros _; apply in_added].
      + by apply (rd_iff opened SQ RQ a y s). }
  assert (Hy2 : conns s2 !! a = Some y2) by apply lookup_insert_eq.
  destruct (fltb fzero (param_timeout param)); [| exists s2, y2; split_and!; try done; by constructor].
  rewrite (conn_at_eq a y2), bind_Ret by done. change (watchdog y2) with (watchdog y). rewrite Hw.
  cbn [assert_at BasicStats.assert_at Z.eqb]. rewrite bind_Ret. unfold timer_schedule. cbv beta iota.
  set (s3 := set_next_timer _ _). rewrite (upd_conn_at a _ y2), bind_Ret by done. set (y3 := set_watchdog _ y2).
  exists (put_conn a y3 s3), y3. split_and!; [done | | apply put_conn_get | by constructor].
  pose proof Hi2 as [Hh2 Hf2 Ht2' _ _ _].
  eapply (inv_change_at param opened seen a y2 y3); [exact Hi2 | same_rest | exact Hy2 | done | by apply lives_state | done | | |].
  - apply (heap_fields param [] ds [] None 0 SQ RQ (conns s2) (calls s2) a y2); try done. constructor; auto.
  - by apply (fds_same opened SQ RQ a y2 y3 s2).
  - eapply timers_same; [.. | exact (timers_more a y2 (next_timer s2) (param_timeout param) s2 Hy2 Hw eq_refl Ht2')]; done.
Qed.

(** ** The system calls *)
Definition called (e : Z) (w : W) s : st W := set_errno e (set_world w s).

Lemma sys_fails_called (r : option Z * W) s : exists e, sys_fails r s = (r.1, called e r.2 s).
Proof. unfold sys_fails, called. destruct r as [[e |] w]; [by exists e | exists (errno s); by destruct s]. Qed.
Lemma syscall_called (r : option Z * W) s : exists e, SYSCALL r s = (r.1, called e r.2 s).
Proof. unfold SYSCALL. destruct (sys_fails_called r (set_errno 0 s)) as [e ->]. exists e. by destruct s. Qed.

Lemma called_inv hs ds hc dy ex SQ RQ e w s : inv hs ds hc dy ex SQ RQ s -> same opened seen (world s) w -> inv hs ds hc dy ex SQ RQ (called e w s).
Proof. intros Hi Hs. by apply inv_errno, inv_world. Qed.
Lemma called_quiet e w s : same opened seen (world s) w -> quiet seen s (called e w s).
Proof. intros [_ H]. by constructor. Qed.
Lemma world_same_trans w1 w2 w3 : same opened seen w1 w2 -> same opened seen w2 w3 -> same opened seen w1 w3.
Proof. intros [E1 H1] [E2 H2]. split; [congruence |]. intros t. by rewrite H2. Qed.
Lemma called_twice e w e' w' s : called e' w' (called e w s) = called e' w' s.
Proof. by destruct s. Qed.

Lemma set_options_called fd os : forall s, exists ok e w, set_options sys fd os s = (ok, called e w s) /\ same opened seen (world s) w.
Proof.
  induction os as [| o os IH]; intros s; cbn [set_options]; [exists true, (errno s), (world s); split; [by destruct s | done] |].
  pose proof (so_setsockopt _ _ _ Hsys fd o (world s)) as H1. destruct (sys_fails_called (sys_setsockopt sys fd o (world s)) s) as (e & ->).
  destruct (sys_setsockopt sys fd o (world s)) as [[e1 |] w1]; [by eexists _, _, _ |]. cbn [fst snd] in *.
  destruct (IH (called e w1 s)) as (ok & e2 & w2 & -> & H2). exists ok, e2, w2. rewrite called_twice. split; [done |]. by eapply world_same_trans.
Qed.

Lemma prepare_socket_called fd s : exists ok e w, prepare_socket sys param fd s = (ok, called e w s) /\ same opened seen (world s) w.
Proof.
  unfold prepare_socket. pose proof (so_fcntl _ _ _ Hsys fd (world s)) as H1. destruct (sys_fails_called (sys_fcntl sys fd (world s)) s) as (e & ->).
  destruct (sys_fcntl sys fd (world s)) as [[e1 |] w1]; [by eexists _, _, _ |]. cbn [fst snd] in *.
  destruct (set_options_called fd (socket_options param) (called e w1 s)) as (ok & e2 & w2 & -> & H2). exists ok, e2, w2.
  rewrite called_twice. split; [done |]. by eapply world_same_trans.
Qed.

(** What is left of an attempt to connect. *)
Definition attempted (ds : list Z) (a : Z) s (r : bool * st W) : Prop :=
  exists SQ RQ y, inv [] ds [] None 0 SQ RQ r.2 /\ conns r.2 !! a = Some y /\ quiet seen s r.2 /\ (r.1 = false -> closing (state y) = false).

Lemma attempted_failed ds a SQ RQ y s s' :
  inv [] ds [] None 0 SQ RQ s' -> conns s' !! a = Some y -> closing (state y) = false -> quiet seen s s' -> attempted ds a s (false, s').
Proof. intros. by exists SQ, RQ, y. Qed.

Lemma start_connect_ok n ds SQ RQ a fd sin y s :
  inv [] ds [] None 0 SQ RQ s -> ready a y s ->
  exists r, start_connect sys param (signal (S (S n))) a fd sin s = Ret r /\ attempted ds a s r.
Proof.
  intros Hi Hr. unfold start_connect. pose proof (so_connect _ _ _ Hsys fd sin (world s)) as H1.
  change (world (set_errno 0 s)) with (world s).
  destruct (syscall_called (sys_connect sys fd sin (world s)) s) as (e & ->).
  destruct (sys_connect sys fd sin (world s)) as [[e1 |] w]; cbn [fst snd] in *; set (s1 := called e w s);
    assert (Hi1 : inv [] ds [] None 0 SQ RQ s1) by (by apply called_inv); assert (U1 : quiet seen s s1) by (by apply called_quiet);
    assert (Hr1 : ready a y s1) by exact Hr.
  - destruct (e1 =? EINPROGRESS).
    + destruct (start_later ds SQ RQ a y s1 Hi1 Hr1) as (s2 & y2 & E & Hi2 & Hy2 & U2). rewrite E. eexists. split; [reflexivity |].
      exists SQ, RQ, y2. split_and!; try done. by eapply quiet_trans.
    + pose proof (so_error _ _ _ Hsys fd (world s1)) as H2. destruct (sys_so_error sys fd (world s1)) as [r w2]. cbn [snd] in H2.
      destruct (ready_idle _ _ _ _ _ _ _ _ _ _ Hi1 Hr1) as (_ & _ & _ & _ & _ & Ho). destruct Hr1 as (Hy1 & _).
      assert (U2 : quiet seen s (set_world w2 s1)) by (eapply quiet_trans; [exact U1 |]; destruct H2; by constructor).
      assert (Hi2 : inv [] ds [] None 0 SQ RQ (set_world w2 s1)) by (by apply inv_world).
      eexists. split; [reflexivity |]. destruct r as [e2 |]; [destruct (e2 =? 0) |]; apply (attempted_failed ds a SQ RQ y); try done; [by apply inv_errno |].
      eapply quiet_trans; [exact U2 | by constructor].
  - destruct (start_now n ds SQ RQ a y s1 Hi1 Hr1) as (s2 & SQ2 & y2 & E & Hi2 & Hy2 & U2). apply (f_equal (fun m => m ≫= (fun s => Ret (true, s)))) in E.
    rewrite bind_assoc_cres in E. exists (true, s2). split; [exact E |]. exists SQ2, RQ, y2. split_and!; try done. by eapply quiet_trans.
Qed.

(** A descriptor that was not in use is free in the tables. *)
Lemma fresh_fd SQ RQ fd s : fds_ok opened SQ RQ s -> 0 <= fd -> (fd ∉ opened (world s)) ->
  (forall b z, conns s !! b = Some z -> closing (state z) = false -> sd z <> fd) /\ default 0 (sd_to_conn s !! fd) = 0.
Proof.
  intros [] Hp Hfd.
  assert (H1 : forall b z, conns s !! b = Some z -> closing (state z) = false -> sd z <> fd).
  { intros b z Hz Ho <-. destruct (f_conn0 b z Hz Ho) as [[? _] | (_ & _ & _ & ?)]; [lia | done]. }
  split; [done |]. destruct (sd_to_conn s !! fd) as [b |] eqn:E; [| done]. cbn. destruct (decide (b = 0)) as [| Hb]; [done |].
  destruct (f_map0 fd b E Hb) as (_ & z & Hz & Hoz & Ez). by destruct (H1 b z).
Qed.

(** ** core_connect up to [failure] *)
Context (Hlook : exists r, AddrTable.hash_lookup 1024 hash_table (server param) (server_port param) = Ret r).

(** [sd_to_conn] has an entry for the descriptor after it grew. *)
Lemma grow_ok fd s : 0 <= fd < FD_SETSIZE -> 0 <= alloced_sd_to_conn s ->
  exists n, grow_sd_to_conn fd s = set_alloced_sd_to_conn n s /\ fd < n /\ alloced_sd_to_conn s <= n.
Proof.
  unfold FD_SETSIZE. intros Hfd Ha. unfold grow_sd_to_conn. destruct (Z.leb_spec (alloced_sd_to_conn s) fd).
  - eexists. split; [reflexivity | lia].
  - exists (alloced_sd_to_conn s). split; [by destruct s | lia].
Qed.

(** From the new descriptor on. *)
Definition use_socket (signal : Event_Type -> Z -> Any_Type -> st W -> cres (st W)) (a fd : Z) s : cres (bool * st W) :=
  s ← upd_conn a (set_sd fd) s;
  let s := grow_sd_to_conn fd s in
  old ← get_sd_to_conn fd s;
  _ ← assert_at 916 (old =? 0);
  s ← put_sd_to_conn fd a s;
  x ← conn_at a s;
  sin ← AddrTable.hash_lookup 1024 hash_table (hostname x) (port x);
  match sin with
  | None => Ret (false, s)
  | Some sin =>
      s ← signal EV_CONN_CONNECTING a NoArg s;
      x ← conn_at a s;
      if closing (state x) then Ret (false, s)
      else
        '(ok, s) ← bind_port sys param a fd s;
        if negb ok then Ret (false, s) else start_connect sys param signal a fd sin s
  end.

Lemma use_socket_ok n ds SQ RQ a fd s :
  inv [] ds [] None 0 SQ RQ s -> conns s !! a = Some (conn_init param) -> 0 <= fd < FD_SETSIZE -> fd ∈ opened (world s) ->
  (forall b z, conns s !! b = Some z -> closing (state z) = false -> sd z <> fd) -> default 0 (sd_to_conn s !! fd) = 0 ->
  exists r, use_socket (signal (S (S n))) a fd s = Ret r /\ attempted ds a s r.
Proof.
  intros Hi Hy Hfd Hop Hfree Hold. unfold use_socket. set (y := conn_init param) in *. rewrite (upd_conn_at a _ y), bind_Ret by done.
  set (s1 := put_conn a (set_sd fd y) s). destruct (grow_ok fd s1) as (k & -> & Hk1 & Hk2); [done | apply Hi |].
  unfold get_sd_to_conn, put_sd_to_conn. cbn [alloced_sd_to_conn set_alloced_sd_to_conn].
  destruct (Z.leb_spec 0 fd), (Z.ltb_spec fd k); try lia. cbn [andb]. rewrite bind_Ret.
  change (sd_to_conn (set_alloced_sd_to_conn k s1)) with (sd_to_conn s). rewrite Hold.
  cbn [assert_at BasicStats.assert_at Z.eqb]. rewrite !bind_Ret.
  change (set_sd_to_conn _ _) with (with_socket a fd y k s). set (s2 := with_socket a fd y k s).
  assert (Hi2 : inv [] ds [] None 0 SQ RQ s2) by (apply socket_inv; try done; apply Hi).
  set (y2 := set_sd fd y). assert (Hy2 : conns s2 !! a = Some y2) by apply put_conn_get.
  rewrite (conn_at_eq a y2), bind_Ret by done. change (hostname y2) with (server param). change (port y2) with (server_port param).
  destruct Hlook as [sin ->]. rewrite bind_Ret. assert (U2 : quiet seen s s2) by (by constructor).
  destruct sin as [sin |]; [| eexists; split; [reflexivity |]; by apply (attempted_failed ds a SQ RQ y2)].
  rewrite (signal_connecting sys param hash_table act Hact (S n) a y2), bind_Ret by done.
  set (y3 := set_time_connect_start (now s2) y2). set (s3 := set_basic _ _).
  assert (Hi3 : inv [] ds [] None 0 SQ RQ s3).
  { apply inv_basic; [done | done |]. apply (inv_conn _ _ _ _ _ _ _ _ _ _ a y2); try done; [| by left]. constructor; try done. by left. }
  rewrite (conn_at_eq a y3), bind_Ret by apply lookup_insert_eq. change (closing (state y3)) with false. cbv iota.
  unfold bind_port. rewrite (po_hog _ Hpar), bind_Ret. cbn [negb].
  assert (U3 : quiet seen s s3) by (eapply quiet_trans; [exact U2 | by constructor]).
  destruct (start_connect_ok n ds SQ RQ a fd sin y3 s3 Hi3) as (r & Er & SQ4 & RQ4 & y4 & Hi4 & Hy4 & U4 & Ho4);
    [split_and!; try done; first [apply lookup_insert_eq | apply Hfd] |].
  exists r. split; [exact Er |]. exists SQ4, RQ4, y4. split_and!; try done. by eapply quiet_trans.
Qed.

Lemma try_connect_ok n ds SQ RQ a s :
  inv [] ds [] None 0 SQ RQ s -> conns s !! a = Some (conn_init param) ->
  exists r, try_connect sys param hash_table (signal (S (S n))) a s = Ret r /\ attempted ds a s r.
Proof.
  intros Hi Hy. unfold try_connect. set (s1 := count_burst s).
  assert (Hi1 : inv [] ds [] None 0 SQ RQ s1) by (by apply inv_burst).
  assert (F1 : conns s1 = conns s /\ quiet seen s s1) by (unfold s1, count_burst; destruct (_ =? _); [| destruct (_ <? _)]; split; try done; by constructor).
  destruct F1 as [Ec U1]. rewrite <- Ec in Hy. clearbody s1.
  assert (Step : forall r, attempted ds a s1 r -> attempted ds a s r).
  { intros r (SQ2 & RQ2 & y2 & ? & ? & ? & ?). exists SQ2, RQ2, y2. split_and!; try done. by eapply quiet_trans. }
  pose proof (so_socket _ _ _ Hsys (world s1)) as [Hseen Hr]. destruct (sys_socket sys (world s1)) as [r w]. cbn [fst snd] in *.
  destruct r as [fd | e].
  2: { eexists. split; [reflexivity |]. apply Step, (attempted_failed ds a SQ RQ (conn_init param)); try done.
       apply inv_errno, (inv_world _ _ _ _ _ _ _ _ _ _ w); [by split | by apply inv_errno]. }
  destruct Hr as (Hfd & Hnew & Hop). destruct (fresh_fd SQ RQ fd s1) as [Hfree Hold]; [by destruct Hi1 | lia | done |].
  set (s2 := set_world w (set_errno 0 s1)).
  assert (Hi2 : inv [] ds [] None 0 SQ RQ s2) by (apply inv_opened; [by apply inv_errno | cbn; rewrite Hop; apply union_subseteq_l | done]).
  assert (U2 : quiet seen s1 s2) by (by constructor).
  destruct (prepare_socket_called fd s2) as (ok & e & w2 & -> & Hsame). set (s3 := called e w2 s2).
  assert (Hi3 : inv [] ds [] None 0 SQ RQ s3) by (by apply called_inv).
  assert (U3 : quiet seen s1 s3) by (eapply quiet_trans; [exact U2 | by apply called_quiet]).
  destruct ok; cbn [negb]; [| eexists; split; [reflexivity |]; by apply Step, (attempted_failed ds a SQ RQ (conn_init param))].
  destruct (use_socket_ok n ds SQ RQ a fd s3 Hi3 Hy Hfd) as (r & Er & SQ4 & RQ4 & y4 & ? & ? & ? & ?); [| done | done |].
  - destruct Hsame as [Hs _]. change (world s3) with w2. rewrite Hs. change (world s2) with w. rewrite Hop. apply in_added.
  - exists r. split; [exact Er |]. apply Step. exists SQ4, RQ4, y4. split_and!; try done. by eapply quiet_trans.
Qed.
End Connect.
End HttperfConnect.
