(* ===== verification/HttperfLife.v ===== *)
(** * httperf/src: the life of connections keeps the invariant

    The last reference to a connection destroys it, which tells the generator, which may make
    the next one before the memory of the first is free: in a sequential test whose
    connections fail at once the calls nest, once for every connection that is left. *)
From S2P Require Import Prelude Doubles HttpReply HttpReplyTotal Ports AddrTable BasicStats BasicStatsTheorems HttperfState Httperf HttperfRequest HttperfInv HttperfFrame HttperfSteps HttperfIssue HttperfClose HttperfDone HttperfReply HttperfConnect.

Module HttperfLife.
Import HttperfState Httperf HttperfRequest HttperfInv HttperfFrame HttperfHeap HttperfSteps HttperfIssue HttperfClose HttperfRefs HttperfDone HttperfReply HttperfConnect.

Section Life.
Context {W A : Type} (sys : system W A) (param : Cmdline_Params) (hash_table : AddrTable.table A).
Context (act : action).
Context (opened : W -> gset Z) (seen : W -> Time -> Prop).
Context (Hact : forall e, act e = handlers_of param e) (Hpar : params_ok param) (Hsys : system_ok sys opened seen).
Context (Hlook : exists r, AddrTable.hash_lookup 1024 hash_table (server param) (server_port param) = Ret r).
Implicit Types s : st W.
Abbreviation inv := (inv param opened seen).
Abbreviation signal := (event_signal sys param hash_table act).
Abbreviation sequential := (fltb fzero (rate_param param) = false).
Abbreviation rated := (fltb fzero (rate_param param) = true).

(** ** Connections that are closed *)
(** The tables do not know a connection that is closed. *)
Lemma fds_gone SQ RQ a y s s' :
  fds_ok opened SQ RQ s -> conns s !! a = Some y -> closing (state y) = true ->
  (forall b, b <> a -> conns s' !! b = conns s !! b) -> (forall z, conns s' !! a = Some z -> closing (state z) = true) ->
  sd_to_conn s' = sd_to_conn s -> alloced_sd_to_conn s' = alloced_sd_to_conn s -> opened (world s') = opened (world s) ->
  wrfds s' = wrfds s -> rdfds s' = rdfds s -> min_sd s' = min_sd s -> max_sd s' = max_sd s -> fds_ok opened SQ RQ s'.
Proof.
  intros [] Hy Hcl Hoth Ha Em Ea Ew Ewr Erd Emin Emax.
  assert (Open : forall b z, closing (state z) = false -> conns s' !! b = Some z <-> conns s !! b = Some z).
  { intros b z Ho. destruct (decide (b = a)) as [-> | Hb]; [| by rewrite Hoth]. split; intros Hz; [apply Ha in Hz |]; congruence. }
  constructor; rewrite ?Em, ?Ea, ?Ew, ?Ewr, ?Erd, ?Emin, ?Emax; try assumption.
  - intros b z Hz Ho. apply Open in Hz; [eauto | done].
  - intros fd b Hb Hb0. destruct (f_map0 fd b Hb Hb0) as (Hp & z & Hz & Oz & Ez). split; [done |]. exists z. by rewrite Open.
  - intros fd. rewrite f_wr0. split; intros (b & z & Hz & Ho & H); exists b, z; (rewrite Open || rewrite <- Open); done.
  - intros fd. rewrite f_rd0. split; intros (b & z & Hz & Ho & H); exists b, z; (rewrite Open || rewrite <- Open); done.
Qed.

(** ** The statistics *)
Lemma basic_destroyed_ok t1 t0 k b :
  0 < BasicStats.num_active_conns b <= 2 ^ 32 - 1 -> (k = 0 \/ short_life t1 t0) ->
  exists b', BasicStats.conn_destroyed t1 t0 k b = Ret b' /\
    BasicStats.num_active_conns b' = BasicStats.num_active_conns b - 1 /\ BasicStats.num_replies b' = BasicStats.num_replies b.
Proof.
  intros Ha Hk. unfold BasicStats.conn_destroyed, BasicStats.assert_at.
  destruct (Z.ltb_spec 0 (BasicStats.num_active_conns b)); [| lia]. rewrite bind_Ret.
  destruct (Z.ltb_spec 0 k) as [Hk0 | Hk0].
  - destruct Hk as [-> | (bin & Eb & Hbin)]; [lia |]. rewrite Eb, bind_Ret. unfold BasicStats.hist_incr.
    destruct (Z.ltb_spec bin BasicStats.NUM_BINS); [| lia]. rewrite bind_Ret. eexists. split; [reflexivity |].
    cbn. split; [| done]. apply wrap_u_small. lia.
  - rewrite bind_Ret. eexists. split; [reflexivity |]. cbn. split; [| done]. apply wrap_u_small. lia.
Qed.

(** ** The last reference *)
(** The connection is being destroyed and is counted. *)
Definition freed_conn (a : Z) s : st W := set_free_conns (a :: free_conns s) (set_conns (delete a (conns s)) s).

Definition rest_of_destroy (n : nat) s : cres (st W) :=
  if fltb fzero (rate_param param) then Ret s else Httperf.done sys param hash_table (signal n) s.

Lemma heap_dying ds SQ RQ a y cm km :
  heap_ok param [a] ds [] None 0 SQ RQ cm km -> cm !! a = Some y -> state y = S_CLOSING ->
  heap_ok param [] (a :: ds) [] None 0 SQ RQ (<[a := set_state S_FREE (set_s_ref 0 y)]> cm) km.
Proof.
  intros Hh Hy Hst. pose proof Hh as []. destruct (h_conn0 a y Hy) as (H1 & H2 & H3 & H4).
  destruct (h_closing0 a y Hy Hst) as (_ & _ & _ & Hw & _).
  assert (Hin : a ∉ ds). { intros Hin. destruct (proj2 h_ds0 a Hin) as (z & Hz & ?). congruence. }
  eapply heap_conns; [exact Hh | | by apply NoDup_cons; split; [| apply h_ds0] |].
  - intros b Hb. rewrite lookup_insert_ne by done. split_and!; [done | | ].
    + by rewrite count_cons, decide_False by congruence.
    + rewrite elem_of_cons. split; [intros [? | ?]; [congruence | done] | auto].
  - rewrite lookup_insert_eq. cbn. split_and!; try done; try tauto.
    + intros Hne. destruct (h_queued0 a Hne) as (z & Hz & ?). assert (z = y) by congruence. subst z. by rewrite Hst in *.
    + split; [intros _; apply elem_of_cons; auto | done].
    + by intros [? | ?].
Qed.

Lemma release_front n ds SQ RQ a y s :
  inv [a] ds [] None 0 SQ RQ s -> conns s !! a = Some y -> state y = S_CLOSING -> s_ref y = 1 ->
  exists s1, conn_dec_ref (signal (S n)) a s = (s2 ← rest_of_destroy n s1; Ret (freed_conn a s2)) /\
    inv [] (a :: ds) [] None 0 SQ RQ s1 /\ num_conns_generated s1 = num_conns_generated s /\
    num_conns_destroyed s1 = num_conns_destroyed s + 1 /\ rg_done s1 = rg_done s.
Proof.
  intros Hi Hy Hst Hr. pose proof Hi as [Hh Hf Ht Hm Hk Hg].
  pose proof (ds_fit_more param _ _ _ _ _ _ _ _ _ a y Hh Hy ltac:(by rewrite Hst)) as Hsz.
  destruct (h_closing _ _ _ _ _ _ _ _ _ _ Hh a y Hy Hst) as (Z1 & Z2 & Z3 & Z4 & _).
  unfold conn_dec_ref. rewrite (conn_at_eq a y), bind_Ret, Hr by done. cbn [assert_at BasicStats.assert_at Z.ltb Z.compare].
  rewrite bind_Ret, (upd_conn_at a _ y), bind_Ret by done. change (1 - 1) with 0. cbn [Z.eqb].
  unfold conn_destroy, conn_deinit. rewrite conn_at_put, bind_Ret.
  cbn [sd state sendq recvq watchdog set_s_ref]. rewrite Hst, Z1, Z2, Z3, Z4.
  cbn [assert_at BasicStats.assert_at Z.ltb Z.compare Z.eqb]. rewrite bool_decide_eq_false_2 by done. cbn [negb andb].
  unfold assert_at, BasicStats.assert_at. cbv iota. rewrite !bind_Ret, upd_conn_put, bind_Ret. set (y1 := set_state S_FREE (set_s_ref 0 y)). set (s1 := put_conn a y1 s).
  cbn [event_signal]. rewrite Hact. cbn [handlers_of app run_handlers run_handler basic_handler].
  rewrite (conn_at_eq a y1), bind_Ret by apply put_conn_get.
  change (now s1) with (now s). change (time_connect_start y1) with (time_connect_start y).
  change (num_calls_completed y1) with (num_calls_completed y). change (basic s1) with (basic s).
  pose proof (po_conns _ Hpar) as Hn. unfold INT_MAX in Hn.
  destruct (basic_destroyed_ok (now s) (time_connect_start y) (num_calls_completed y) (basic s)) as (b & -> & B1 & B2).
  { destruct Hg. lia. }
  { destruct Hk. destruct (k_done0 a y Hy) as [? | ?]; [by left | right; auto]. }
  rewrite bind_Ret, bind_Ret. unfold destroyed. cbn [num_conns_destroyed set_basic put_conn set_conns].
  rewrite bump_eq, bind_Ret by (destruct Hg; unfold INT_MAX; cbn; lia). rewrite bind_Ret.
  set (s2 := set_num_conns_destroyed (num_conns_destroyed s + 1) (set_basic b s1)).
  set (s3 := if num_conns param <=? num_conns_destroyed s + 1 then core_exit s2 else s2).
  exists s3. split; [| split_and!; try (by unfold s3; case_match)].
  - unfold rest_of_destroy. destruct (fltb fzero (rate_param param)); cbn [run_handlers run_handler]; [done |]. by rewrite bind_id.
  - assert (C : conns s3 = <[a := y1]> (conns s) /\ calls s3 = calls s) by (unfold s3; by case_match). destruct C as [C1 C2].
    assert (Hf1 : fds_ok opened SQ RQ s1).
    { eapply (fds_gone SQ RQ a y s); try done; [by rewrite Hst | intros b' Hb; by apply lookup_insert_ne |].
      cbn. rewrite lookup_insert_eq. by intros z [= <-]. }
    assert (Ht1 : timers_ok param s1) by (by apply (timers_conn a y y1 s)).
    assert (Lv : same_lives s s1) by (apply (same_lives_at a y y1); [done | done | split_and!; auto; done]).
    assert (Hm1 : memory_ok s1).
    { eapply memory_change; [.. | exact Hm]; try done. intros b' [z Hz]. destruct (proj1 Lv b' z Hz) as (w & -> & _). by eexists. }
    assert (Hk1 : clock_ok seen s1) by (apply (clock_change seen s); [by constructor | exact Lv | exact Hk]).
    constructor.
    + rewrite C1, C2. by apply heap_dying.
    + unfold s3. destruct Hf1. by case_match.
    + unfold s3. destruct Ht1. by case_match.
    + unfold s3. destruct Hm1. by case_match.
    + unfold s3. destruct Hk1. by case_match.
    + assert (Sz : size (conns s3) = size (conns s)) by (rewrite C1; by apply map_size_insert_Some; eexists).
      destruct Hg. assert (G : num_conns_generated s3 = num_conns_generated s /\ num_conns_destroyed s3 = num_conns_destroyed s + 1 /\
        basic s3 = b /\ rg_done s3 = rg_done s /\ iteration s3 = iteration s /\ loop_i s3 = loop_i s /\
        running s3 = if num_conns param <=? num_conns_destroyed s + 1 then false else running s) by (unfold s3; by case_match).
      destruct G as (G1 & G2 & G3 & G4 & G5 & G7 & G6). constructor; rewrite ?Sz, ?G1, ?G2, ?G3, ?G4, ?G5, ?G6, ?G7, ?B1, ?B2; cbn [length]; try done; try lia.
      * rewrite g_running0. destruct (Z.leb_spec (num_conns param) (num_conns_destroyed s + 1)), (Z.ltb_spec 0 (num_conns_destroyed s + 1)),
          (Z.leb_spec (num_conns param) (num_conns_destroyed s)); cbn [andb negb]; rewrite ?andb_false_r; try done; lia.
      * intros E. specialize (g_seq0 E). lia.
Qed.

(** The memory of the connection is freed. *)
Lemma freed_conn_inv ds SQ RQ a s : inv [] (a :: ds) [] None 0 SQ RQ s -> inv [] ds [] None 0 SQ RQ (freed_conn a s).
Proof.
  intros [Hh Hf Ht Hm Hk Hg]. pose proof Hh as []. destruct h_ds0 as [Nd D]. pose proof Nd as [Hin Nd']%NoDup_cons.
  destruct (D a) as (y & Hy & Hst); [apply elem_of_cons; auto |]. destruct (h_ids0 a y Hy Hst) as (_ & _ & Hw).
  assert (Hcl : closing (state y) = true) by (by rewrite Hst).
  assert (Del : forall b z, delete a (conns s) !! b = Some z -> b <> a /\ conns s !! b = Some z) by (intros b z; rewrite lookup_delete_Some; intros [? ?]; split; congruence).
  constructor.
  - cbn. eapply heap_conns; [exact Hh | | done |].
    + intros b Hb. rewrite lookup_delete_ne by done. split_and!; [done | done |]. rewrite elem_of_cons. split; [auto | by intros [? | ?]].
    + rewrite lookup_delete_eq. split_and!; [| by intros ?%elem_of_nil | done].
      destruct (decide (SQ a ++ RQ a = [])) as [| N]; [done |]. destruct (h_queued0 a N) as (z & Hz & ?). congruence.
  - eapply (fds_gone SQ RQ a y s); try done; cbn; [intros b Hb; by apply lookup_delete_ne |]. rewrite lookup_delete_eq. done.
  - destruct Ht. constructor; cbn; try done.
    + intros b z [_ Hz]%Del. eauto.
    + intros t b d Hd. destruct (t_timer0 t b d Hd) as (z & Hz & Ez). exists z. rewrite lookup_delete_ne; [done |]. intros <-.
      assert (z = y) by congruence. subst z. apply t_range0 in Hd. lia.
  - pose proof (proj1 (h_conn0 a y Hy)) as Hp. destruct Hm as [M1 M2 [M3 M3'] M4 M5]. constructor; cbn; try done.
    + split; [apply NoDup_cons; split; [| done] |].
      * intros H. destruct (M3' a H). congruence.
      * intros b [-> | Hb]%elem_of_cons; [split; [split; [lia | by eapply M5] | apply lookup_delete_eq] |].
        destruct (M3' b Hb). split; [done |]. apply lookup_delete_None. auto.
    + intros b z [_ Hz]%Del. eauto.
  - destruct Hk. constructor; cbn; try done; intros b z [_ Hz]%Del; eauto.
  - assert (Sz : size (delete a (conns s)) = Nat.pred (size (conns s))) by (apply map_size_delete_Some; by eexists).
    assert (0 < size (conns s))%nat by (pose proof (ds_fit param _ _ _ _ _ _ _ _ _ Hh) as L; cbn in L; lia).
    destruct Hg. cbn [length] in *. constructor; cbn; rewrite ?Sz; try done; lia.
Qed.

(** ** Destroying and making connections *)
(** How many connections are still to be made. *)
Definition to_make s : nat := Z.to_nat (num_conns param - num_conns_generated s).

Definition tick_ok (k : nat) : Prop := forall m ds SQ RQ s,
  inv [] ds [] None 0 SQ RQ s -> (to_make s <= k)%nat -> (k + 3 <= m)%nat -> num_conns_generated s <= num_conns param ->
  (sequential -> num_conns_generated s <= num_conns_destroyed s) ->
  exists s' SQ' RQ', run_tick sys param hash_table (signal m) s = Ret s' /\ inv [] ds [] None 0 SQ' RQ' s' /\
    (rated -> num_conns_generated s' = num_conns_generated s + 1 /\ rg_done s' = (num_conns param <=? num_conns_generated s)).

Definition release_ok (k : nat) : Prop := forall m ds SQ RQ a y s,
  inv [a] ds [] None 0 SQ RQ s -> conns s !! a = Some y -> state y = S_CLOSING -> s_ref y = 1 -> (to_make s <= k)%nat -> (k + 4 <= m)%nat ->
  exists s' SQ' RQ', conn_dec_ref (signal m) a s = Ret s' /\ inv [] ds [] None 0 SQ' RQ' s' /\
    (rated -> num_conns_generated s' = num_conns_generated s).

Lemma tick_to_release k : tick_ok k -> release_ok k.
Proof.
  intros T m ds SQ RQ a y s Hi Hy Hst Hr Hk Hm. destruct m as [| m]; [lia |].
  destruct (release_front m ds SQ RQ a y s Hi Hy Hst Hr) as (s1 & -> & Hi1 & G1 & G2 & _). unfold rest_of_destroy.
  destruct (fltb fzero (rate_param param)) eqn:Er.
  { rewrite bind_Ret. exists (freed_conn a s1), SQ, RQ. split_and!; [done | by apply freed_conn_inv | intros _; exact G1]. }
  assert (H : exists s2 SQ2 RQ2, Httperf.done sys param hash_table (signal m) s1 = Ret s2 /\ inv [] (a :: ds) [] None 0 SQ2 RQ2 s2).
  { unfold Httperf.done. destruct (rg_done s1); [by exists s1, SQ, RQ |]. pose proof Hi as [_ _ _ _ _ []]. pose proof Hi1 as [Hh1 _ _ _ _ Hg1].
    pose proof (ds_fit param _ _ _ _ _ _ _ _ _ Hh1) as Hsz. specialize (g_seq0 Er).
    destruct (T m (a :: ds) SQ RQ s1 Hi1) as (s2 & SQ2 & RQ2 & E2 & Hi2 & _); [unfold to_make in *; by rewrite G1 | lia | destruct Hg1; lia | intros _; lia |].
    by exists s2, SQ2, RQ2. }
  destruct H as (s2 & SQ2 & RQ2 & -> & Hi2). rewrite bind_Ret. exists (freed_conn a s2), SQ2, RQ2.
  split_and!; [done | by apply freed_conn_inv | done].
Qed.

(** An open connection that only its state refers to. *)
Lemma close_alone k m ds SQ RQ a y s : release_ok k ->
  inv [] ds [] None 0 SQ RQ s -> conns s !! a = Some y -> closing (state y) = false -> (to_make s <= k)%nat -> (k + 4 <= m)%nat ->
  exists s' SQ' RQ', core_close sys (signal m) a s = Ret s' /\ inv [] ds [] None 0 SQ' RQ' s' /\
    (rated -> num_conns_generated s' = num_conns_generated s).
Proof.
  intros R Hi Hy Ho Hk Hm. destruct m as [| m]; [lia |].
  destruct (core_close_front sys param hash_table act opened seen Hact Hsys m [] ds None 0 SQ RQ a y s Hi Hy Ho) as (s1 & E & C);
    [by apply (may_close param opened seen Hpar [] ds [] SQ RQ a y s) |].
  pose proof (closed_inv _ _ _ _ _ _ _ _ _ _ _ _ _ Hi Hy Ho C) as Hi1. destruct (cd_conns _ _ _ _ _ _ _ C) as (c & Ec).
  assert (Hr : s_ref y = 1). { pose proof Hi as [[] _ _ _ _ _]. destruct (h_conn0 a y Hy) as (_ & _ & _ & Hr). by rewrite Ho in Hr. }
  pose proof (qu_generated _ _ _ (cd_quiet _ _ _ _ _ _ _ C)) as G.
  destruct (R (S m) ds _ _ a (closed_conn c y) s1 Hi1) as (s2 & SQ2 & RQ2 & E2 & Hi2 & G2); [rewrite Ec; apply lookup_insert_eq | done | done | | lia |].
  - unfold to_make. by rewrite G.
  - exists s2, SQ2, RQ2. rewrite E. split_and!; try done. intros E3. rewrite <- G. auto.
Qed.

Lemma fail_alone k m ds SQ RQ a e y s : release_ok k ->
  inv [] ds [] None 0 SQ RQ s -> conns s !! a = Some y -> closing (state y) = false -> (to_make s <= k)%nat -> (k + 4 <= m)%nat ->
  exists s' SQ' RQ', conn_failure sys (signal m) a e s = Ret s' /\ inv [] ds [] None 0 SQ' RQ' s' /\
    (rated -> num_conns_generated s' = num_conns_generated s).
Proof.
  intros R Hi Hy Ho Hk Hm. unfold conn_failure. destruct m as [| m]; [lia |].
  rewrite (signal_failed sys param hash_table act Hact), bind_Ret. set (s1 := set_basic _ s).
  assert (Hi1 : inv [] ds [] None 0 SQ RQ s1) by (apply inv_basic; [| | exact Hi]; unfold BasicStats.conn_fail; by repeat case_match).
  by apply (close_alone k (S m) ds SQ RQ a y s1).
Qed.

Lemma release_to_tick k : (forall j, (j < k)%nat -> release_ok j) -> tick_ok k.
Proof.
  intros R m ds SQ RQ s Hi Hk Hm Hgen Hseq. unfold run_tick, make_conn. pose proof (po_conns _ Hpar) as Hn.
  pose proof Hi as [_ _ _ _ _ []]. rewrite bump_eq, bind_Ret by (unfold INT_MAX in *; lia).
  set (s1 := set_num_conns_generated _ s).
  destruct (Z.leb_spec (num_conns param) (num_conns_generated s)) as [L | L].
  - rewrite bind_Ret. cbn [negb]. exists (set_rg_done true s1), SQ, RQ. split_and!; [done | | done].
    destruct Hi as [Hh Hf Ht Hmem Hkl Hg]. constructor; [done | by destruct Hf | by destruct Ht | by destruct Hmem | by destruct Hkl |].
    constructor; cbn; try done; try lia. intros E. specialize (Hseq E). lia.
  - destruct m as [| [| m]]; [lia | lia |].
    destruct (conn_new_ok sys param hash_table act opened seen Hact Hpar (S m) ds SQ RQ s (num_conns_generated s + 1) Hi eq_refl L Hseq)
      as (a & s2 & E2 & Hi2 & _ & Hy2 & G1 & G2 & _). fold s1 in E2. rewrite E2, bind_Ret.
    destruct (try_connect_ok sys param hash_table act opened seen Hact Hpar Hsys Hlook m ds SQ RQ a s2 Hi2 Hy2)
      as ([ok s3] & E3 & SQ3 & RQ3 & y3 & Hi3 & Hy3 & U3 & Ho3). cbn [fst snd] in *. pose proof (qu_generated _ _ _ U3) as G3.
    assert (H4 : exists r s4 SQ4 RQ4, core_connect sys param hash_table (signal (S (S m))) a s2 = Ret (r, s4) /\ inv [] ds [] None 0 SQ4 RQ4 s4 /\
       (rated -> num_conns_generated s4 = num_conns_generated s + 1)).
    { unfold core_connect. rewrite E3, bind_Ret. destruct ok; [exists 0, s3, SQ3, RQ3; split_and!; try done; intros _; congruence |].
      assert (J : (Nat.pred k < k)%nat) by (unfold to_make in Hk; lia).
      destruct (fail_alone (Nat.pred k) (S (S m)) ds SQ3 RQ3 a (errno s3) y3 s3 (R _ J) Hi3 Hy3 (Ho3 eq_refl))
        as (s4 & SQ4 & RQ4 & E4 & Hi4 & G4); [unfold to_make in *; rewrite G3, G1; lia | lia |].
      rewrite E4, bind_Ret. exists (-1), s4, SQ4, RQ4. split_and!; try done. intros E. specialize (G4 E). congruence. }
    destruct H4 as (r & s4 & SQ4 & RQ4 & E4 & Hi4 & G4). rewrite E4, !bind_Ret. cbn [negb].
    exists (set_rg_done false s4), SQ4, RQ4. split_and!; [done | | intros E; split; [by apply G4 | done]].
    destruct Hi4 as [Hh Hf Ht Hmem Hkl Hg]. constructor; [done | by destruct Hf | by destruct Ht | by destruct Hmem | by destruct Hkl |].
    destruct Hg. constructor; cbn; try done. intros E _. rewrite (G4 E). lia.
Qed.

(** Whatever is left to make, depth enough is enough. *)
Lemma tick_holds k : tick_ok k.
Proof. induction k as [k IH] using lt_wf_ind. apply release_to_tick. intros j Hj. by apply tick_to_release, IH. Qed.
Lemma release_holds k : release_ok k.
Proof. apply tick_to_release, tick_holds. Qed.
End Life.
End HttperfLife.
