(* ===== verification/HttperfRounds.v ===== *)
(** * httperf/src/core.c: the counter of the rounds

    [iteration] is changed by the loop itself and by nothing that a round calls. *)
From S2P Require Import Prelude Doubles HttpReply Ports AddrTable BasicStats HttperfState Httperf.

Module HttperfRounds.
Import HttperfState Httperf.

(** The state in a result of [r] has the counter of [s0]. *)
Definition keeps {W A} (g : A -> st W) (s0 : st W) (r : cres A) : Prop :=
  match r with Ret a => iteration (g a) = iteration s0 | _ => True end.

Lemma keeps_bind {W A B} (g : A -> st W) (h : B -> st W) s0 (m : cres A) (f : A -> cres B) :
  keeps g s0 m -> (forall a, iteration (g a) = iteration s0 -> keeps h s0 (f a)) -> keeps h s0 (m ≫= f).
Proof. destruct m as [a | | |]; cbn; auto. Qed.
Lemma keeps_read {W A B} (h : B -> st W) s0 (m : cres A) (f : A -> cres B) :
  (forall a, keeps h s0 (f a)) -> keeps h s0 (m ≫= f).
Proof. destruct m; cbn; auto. Qed.
Lemma keeps_Ret {W A} (g : A -> st W) s0 a : iteration (g a) = iteration s0 -> keeps g s0 (Ret a).
Proof. done. Qed.

Create HintDb rounds.
#[export] Hint Extern 1 (iteration _ = iteration _) => (first [reflexivity | assumption | solve [cbn in *; congruence] | solve [unfold put_fds, get_fds in *; repeat case_match; cbn in *; congruence]]) : rounds.
(** The innermost value that decides. *)
Ltac decide_inner x := lazymatch x with match ?y with _ => _ end => decide_inner y | _ => destruct x eqn:? end.
(** One step into a definition. *)
Ltac keep1 :=
  lazymatch goal with
  | |- keeps _ _ (Ret _) => apply keeps_Ret; solve [eauto with rounds]
  | |- keeps _ _ Undef => exact I
  | |- keeps _ _ NoFuel => exact I
  | |- keeps _ _ (Exit _) => exact I
  | |- keeps _ _ (match ?x with _ => _ end) => decide_inner x
  | |- keeps _ _ (_ ≫= _) =>
      first [eapply (keeps_bind (fun x => x)); [solve [keep] | intros ? ?]
            |eapply (keeps_bind snd); [solve [keep] | intros [? ?] ?]
            |apply keeps_read; intros ?]
  | |- keeps _ _ _ => solve [eauto with rounds]
  end
with keep := cbn beta iota zeta; repeat (keep1; cbn [snd fst]; cbn beta iota zeta).

Section Rounds.
Context {W A : Type} (sys : system W A) (param : Cmdline_Params) (hash_table : AddrTable.table A).
Context (past_end : option iovec) (garbage before : Z).
Implicit Types s : st W.
(** The operation keeps the counter. *)
Abbreviation K f := (forall s s0, iteration s = iteration s0 -> keeps (fun x => x) s0 (f s)).
Abbreviation K2 f := (forall s s0, iteration s = iteration s0 -> keeps snd s0 (f s)).

Lemma keeps_upd_conn a f : K (upd_conn a f).
Proof. intros s s0 E. unfold upd_conn. by apply keeps_read. Qed.
Lemma keeps_upd_call c f : K (upd_call c f).
Proof. intros s s0 E. unfold upd_call. by apply keeps_read. Qed.
Hint Resolve keeps_upd_conn keeps_upd_call : rounds.

Context (signal : Event_Type -> Z -> Any_Type -> st W -> cres (st W)).
Context (Hsig : forall e o arg, K (signal e o arg)).
Hint Resolve Hsig : rounds.

Ltac kept := intros s s0 E; unfold timer_schedule, SYSCALL, sys_fails in *; keep.
Lemma keeps_call_destroy c : K (call_destroy signal c).
Proof. unfold call_destroy. kept. Qed.
Hint Resolve keeps_call_destroy : rounds.
Lemma keeps_call_dec_ref c : K (call_dec_ref signal c).
Proof. unfold call_dec_ref. kept. Qed.
Hint Resolve keeps_call_dec_ref : rounds.
Lemma keeps_conn_deinit a : K (conn_deinit a).
Proof. unfold conn_deinit. kept. Qed.
Hint Resolve keeps_conn_deinit : rounds.
Lemma keeps_conn_destroy a : K (conn_destroy signal a).
Proof. unfold conn_destroy. kept. Qed.
Hint Resolve keeps_conn_destroy : rounds.
Lemma keeps_conn_dec_ref a : K (conn_dec_ref signal a).
Proof. unfold conn_dec_ref. kept. Qed.
Hint Resolve keeps_conn_dec_ref : rounds.
Lemma keeps_call_new : K2 (call_new param signal).
Proof. unfold call_new. kept. Qed.
Lemma keeps_conn_new : K2 (conn_new param signal).
Proof. unfold conn_new. kept. Qed.
Lemma keeps_append_header c h : K2 (call_append_request_header c h).
Proof. unfold call_append_request_header. kept. Qed.
Lemma keeps_set_active a f : K (set_active a f).
Proof. unfold set_active. kept. Qed.
Hint Resolve keeps_call_new keeps_conn_new keeps_append_header keeps_set_active : rounds.

(** core.c *)
Lemma keeps_FD_CLR f fd : K (FD_CLR f fd).
Proof. unfold FD_CLR. destruct f; kept. Qed.
Hint Resolve keeps_FD_CLR : rounds.
Lemma keeps_drop_calls next fuel : forall p, K (drop_calls signal fuel next p).
Proof. induction fuel as [| fuel IH]; intros p; cbn [drop_calls]; kept. Qed.
Hint Resolve keeps_drop_calls : rounds.
Lemma keeps_timer_cancel t : K (timer_cancel t).
Proof. unfold timer_cancel. kept. Qed.
Hint Resolve keeps_timer_cancel : rounds.
Lemma keeps_cancel_watchdog a : K (cancel_watchdog a).
Proof. unfold cancel_watchdog. kept. Qed.
Hint Resolve keeps_cancel_watchdog : rounds.
Lemma keeps_core_close a : K (core_close sys signal a).
Proof. unfold core_close. kept. Qed.
Hint Resolve keeps_core_close : rounds.
Lemma keeps_conn_failure a e : K (conn_failure sys signal a e).
Proof. unfold conn_failure. kept. Qed.
Lemma keeps_conn_timeout a : K (conn_timeout sys signal a).
Proof. unfold conn_timeout. kept. Qed.
Lemma keeps_call_inc_ref c : K (call_inc_ref c).
Proof. unfold call_inc_ref. kept. Qed.
Lemma keeps_conn_inc_ref c : K (conn_inc_ref c).
Proof. unfold conn_inc_ref. kept. Qed.
Hint Resolve keeps_conn_failure keeps_conn_timeout keeps_call_inc_ref keeps_conn_inc_ref : rounds.
Lemma keeps_core_send a c : K2 (core_send param signal a c).
Proof. unfold core_send. kept. Qed.
Lemma keeps_append_recvq a c : K (append_recvq a c).
Proof. unfold append_recvq. kept. Qed.
Hint Resolve keeps_core_send keeps_append_recvq : rounds.
Lemma keeps_send_round fd a : K2 (send_round sys param past_end signal fd a).
Proof. unfold send_round. kept. Qed.
Hint Resolve keeps_send_round : rounds.
Lemma keeps_send_loop fuel fd a : K (send_loop sys param past_end signal fuel fd a).
Proof. induction fuel as [| fuel IH]; cbn [send_loop]; kept. Qed.
Hint Resolve keeps_send_loop : rounds.
Lemma keeps_do_send a : K (do_send sys param past_end signal a).
Proof. unfold do_send. kept. Qed.
Lemma keeps_recv_done c : K (recv_done signal c).
Proof. unfold recv_done. kept. Qed.
Lemma keeps_signal_all es c : K (signal_all signal es c).
Proof. induction es as [| e es IH]; cbn [signal_all]; kept. Qed.
Hint Resolve keeps_do_send keeps_recv_done keeps_signal_all : rounds.
Lemma keeps_process_reply_bytes c buf : K2 (process_reply_bytes garbage before signal c buf).
Proof. unfold process_reply_bytes. kept. Qed.
Hint Resolve keeps_process_reply_bytes : rounds.
Lemma keeps_reply_round a buf : K2 (reply_round param garbage before signal a buf).
Proof. unfold reply_round. kept. Qed.
Hint Resolve keeps_reply_round : rounds.
Lemma keeps_reply_loop fuel a : forall buf, K2 (reply_loop param garbage before signal fuel a buf).
Proof. induction fuel as [| fuel IH]; intros buf; cbn [reply_loop]; kept. Qed.
Hint Resolve keeps_reply_loop : rounds.
Lemma keeps_do_recv a : K (do_recv sys param garbage before signal a).
Proof. unfold do_recv. kept. Qed.
Hint Resolve keeps_do_recv : rounds.
Lemma keeps_count_burst s : iteration (count_burst s) = iteration s.
Proof. unfold count_burst. by repeat case_match. Qed.
Lemma keeps_set_options fd os : forall s, iteration (set_options sys fd os s).2 = iteration s.
Proof.
  induction os as [| o os IH]; intros s; cbn [set_options]; [done |]. unfold sys_fails. destruct (sys_setsockopt sys fd o (world s)) as [[e |] w]; [done |].
  cbn [fst snd]. by rewrite IH.
Qed.
Lemma keeps_prepare_socket fd s b s' : prepare_socket sys param fd s = (b, s') -> iteration s' = iteration s.
Proof.
  unfold prepare_socket, sys_fails. destruct (sys_fcntl sys fd (world s)) as [[e |] w]; cbn [fst snd]; [by intros [= _ <-] |].
  intros E. pose proof (keeps_set_options fd (socket_options param) (set_world w s)) as H. by rewrite E in H.
Qed.
Lemma keeps_bind_loop fd fuel : K2 (bind_loop sys fuel fd).
Proof. induction fuel as [| fuel IH]; cbn [bind_loop]; kept. Qed.
Hint Resolve keeps_bind_loop : rounds.
Lemma keeps_bind_port a fd : K2 (bind_port sys param a fd).
Proof. unfold bind_port. kept. Qed.
Lemma keeps_start_connect a fd sin : K2 (start_connect sys param signal a fd sin).
Proof. unfold start_connect. kept. Qed.
Lemma keeps_put_sd fd a : K (put_sd_to_conn fd a).
Proof. unfold put_sd_to_conn. kept. Qed.
Hint Resolve keeps_bind_port keeps_start_connect keeps_put_sd : rounds.
Lemma grown_iteration fd s : iteration (grow_sd_to_conn fd s) = iteration s.
Proof. unfold grow_sd_to_conn. by case_match. Qed.
Hint Extern 2 (iteration _ = iteration _) => (cbn; rewrite ?grown_iteration, ?keeps_count_burst; cbn in *; congruence) : rounds.
Lemma keeps_try_connect a : K2 (try_connect sys param hash_table signal a).
Proof.
  unfold try_connect. intros s s0 E. cbn beta iota zeta. destruct (sys_socket sys (world (count_burst s))) as [r w].
  destruct r as [fd | e]; [| keep]. destruct (prepare_socket _ _ _ _) as [ok s1] eqn:E1. apply keeps_prepare_socket in E1. cbn in E1.
  rewrite keeps_count_burst, E in E1. keep.
Qed.
Hint Resolve keeps_try_connect : rounds.
Lemma keeps_core_connect a : K2 (core_connect sys param hash_table signal a).
Proof. unfold core_connect. kept. Qed.
Hint Resolve keeps_core_connect : rounds.

(** The generators and the handlers *)
Lemma keeps_issue_one a : K (issue_one param signal a).
Proof. unfold issue_one. kept. Qed.
Lemma keeps_for_c lo hi (f : Z -> st W -> cres (st W)) : (forall i, K (f i)) -> K (for_c lo hi f).
Proof.
  intros Hf. unfold for_c. generalize (Z.to_nat (hi - lo)) as n. intros n. revert lo. induction n as [| n IH]; intros lo s s0 E; [by apply keeps_Ret |].
  cbn [loop_c]. eapply (keeps_bind (fun x => x)); [by apply Hf | intros s1 E1; by apply IH].
Qed.
Hint Resolve keeps_issue_one keeps_for_c : rounds.
Lemma keeps_issue_calls a : K (issue_calls param signal a).
Proof. unfold issue_calls. kept. Qed.
Lemma keeps_call_done c : K (call_done c).
Proof. unfold call_done. kept. Qed.
Hint Resolve keeps_issue_calls keeps_call_done : rounds.
Lemma keeps_call_destroyed c : K (call_destroyed sys param signal c).
Proof. unfold call_destroyed. kept. Qed.
Hint Resolve keeps_call_destroyed : rounds.
Lemma keeps_make_conn : K2 (make_conn sys param hash_table signal).
Proof. unfold make_conn. kept. Qed.
Lemma keeps_destroyed : K (destroyed param).
Proof. unfold destroyed. intros s s0 E. keep. Qed.
Hint Resolve keeps_make_conn keeps_destroyed : rounds.
Lemma keeps_run_tick : K (run_tick sys param hash_table signal).
Proof. unfold run_tick. kept. Qed.
Hint Resolve keeps_run_tick : rounds.
Lemma keeps_done : K (Httperf.done sys param hash_table signal).
Proof. unfold Httperf.done. kept. Qed.
Lemma keeps_arrivals fuel clock : K (arrivals sys param hash_table signal fuel clock).
Proof. induction fuel as [| fuel IH]; cbn [arrivals]; kept. Qed.
Hint Resolve keeps_done keeps_arrivals : rounds.
Lemma keeps_rate_tick : K (rate_tick sys param hash_table signal).
Proof. unfold rate_tick. kept. Qed.
Lemma keeps_basic_handler h o arg : K (basic_handler h o arg).
Proof. destruct h; cbn [basic_handler]; unfold upd_basic; kept. Qed.
Lemma keeps_call_created c : K (call_created param c).
Proof. unfold call_created, call_set_method. kept. Qed.
Hint Resolve keeps_rate_tick keeps_basic_handler keeps_call_created : rounds.
Lemma keeps_run_handler h o arg : K (run_handler sys param hash_table signal h o arg).
Proof. destruct h; cbn [run_handler]; unfold call_set_uri; kept. Qed.
Hint Resolve keeps_run_handler : rounds.
Lemma keeps_run_handlers hs o arg : K (run_handlers sys param hash_table signal hs o arg).
Proof. induction hs as [| h hs IH]; cbn [run_handlers]; kept. Qed.

Lemma keeps_handle_ready tick rd wr n fd : K tick -> K (handle_ready sys param past_end garbage before signal tick rd wr n fd).
Proof. intros Ht. unfold handle_ready. kept. Qed.
End Rounds.

(** ** The events, the timers and the loop *)
Section Run.
Context {W A : Type} (sys : system W A) (param : Cmdline_Params) (hash_table : AddrTable.table A).
Context (past_end : option iovec) (garbage before : Z) (act : action) (depth : nat).
Implicit Types s : st W.
Abbreviation K f := (forall s s0, iteration s = iteration s0 -> keeps (fun x => x) s0 (f s)).
Abbreviation K2 f := (forall s s0, iteration s = iteration s0 -> keeps snd s0 (f s)).
Ltac kept := intros s s0 E; unfold timer_schedule in *; keep.

Lemma keeps_signal n : forall e o arg, K (event_signal sys param hash_table act n e o arg).
Proof.
  induction n as [| n IH]; intros e o arg s s0 E; cbn [event_signal]; [done |].
  apply (keeps_run_handlers sys param hash_table _ IH). done.
Qed.
Hint Resolve keeps_signal : rounds.
Lemma keeps_perf_sample : K (Httperf.perf_sample sys param hash_table act depth).
Proof. unfold Httperf.perf_sample. kept. Qed.
Hint Resolve keeps_perf_sample keeps_conn_timeout keeps_rate_tick : rounds.
Lemma keeps_run_callback cb : K (run_callback sys param hash_table act depth cb).
Proof. destruct cb as [a | |]; cbn [run_callback]; kept. Qed.
Hint Resolve keeps_run_callback : rounds.
Lemma keeps_fire ts : K (fire sys param hash_table act depth ts).
Proof. induction ts as [| t ts IH]; cbn [fire]; kept. Qed.
Hint Resolve keeps_fire : rounds.
Lemma keeps_timer_tick : K (timer_tick sys param hash_table act depth).
Proof. unfold timer_tick. kept. Qed.
Hint Resolve keeps_timer_tick : rounds.
Lemma keeps_ready rd wr n fd : K (handle_ready sys param past_end garbage before (event_signal sys param hash_table act depth) (timer_tick sys param hash_table act depth) rd wr n fd).
Proof. apply keeps_handle_ready; eauto with rounds. Qed.
Hint Resolve keeps_ready : rounds.
Lemma keeps_handle_word rd wr fds : forall n, K2 (handle_word sys param hash_table past_end garbage before act depth fds rd wr n).
Proof. induction fds as [| fd fds IH]; intros n; cbn [handle_word]; kept. Qed.
Hint Resolve keeps_handle_word : rounds.
Lemma keeps_handle_words rd wr lo hi fuel : forall n, K (handle_words sys param hash_table past_end garbage before act depth fuel lo hi rd wr n).
Proof. induction fuel as [| fuel IH]; intros n; cbn [handle_words]; kept. Qed.

Lemma keeps_main_start : K (main_start sys param hash_table act depth).
Proof.
  assert (H : K (run_tick sys param hash_table (event_signal sys param hash_table act depth)))
    by (intros s s0; apply keeps_run_tick, keeps_signal).
  unfold main_start, rate_start. kept.
Qed.

(** A round counts itself. *)
Lemma round_counts s s' : core_round sys param hash_table past_end garbage before act depth s = Ret s' -> iteration s' = iteration s + 1.
Proof.
  unfold core_round. intros (s1 & E1 & E)%bind_Ret_inv. pose proof (keeps_timer_tick s s eq_refl) as K1. rewrite E1 in K1. cbn in K1.
  destruct (sys_select _ _ _ _) as [r w]. apply bind_Ret_inv in E as (k & Ek & E). unfold bump in Ek. destruct (_ <? _); [injection Ek as <- | done].
  destruct r as [[rd wr] |]; [| done].
  pose proof (keeps_handle_words rd wr (min_sd s1 / NFDBITS) (max_sd s1 / NFDBITS) (Z.to_nat (Z.of_nat (size rd) + Z.of_nat (size wr)))
    (Z.of_nat (size rd) + Z.of_nat (size wr)) (set_iteration (iteration s1 + 1) (set_world w s1)) _ eq_refl) as K2. rewrite E in K2. cbn in K2. by rewrite K2, K1.
Qed.
End Run.
End HttperfRounds.
