(* ===== verification/HttperfLoop.v ===== *)
(** * httperf/src: timers, descriptors that are ready, and the rounds of the loop

    Everything that [core_loop] does keeps the invariant, and each of its rounds ends. *)
From S2P Require Import Prelude Doubles HttpReply HttpReplyTotal Ports AddrTable BasicStats BasicStatsTheorems HttperfState Httperf HttperfRequest HttperfInv HttperfFrame HttperfSteps HttperfIssue HttperfClose HttperfDone HttperfReply HttperfSend HttperfConnect HttperfLife.

Module HttperfLoop.
Import HttperfState Httperf HttperfRequest HttperfInv HttperfFrame HttperfHeap HttperfSteps HttperfIssue HttperfClose HttperfRefs HttperfDone HttperfReply HttperfSend HttperfConnect HttperfLife.

Section Timers.
Context {W : Type} (param : Cmdline_Params) (opened : W -> gset Z) (seen : W -> Time -> Prop).
Implicit Types s : st W.
Abbreviation inv := (inv param opened seen).

(** ** Timers *)
Definition no_watchdog (cb : callback) : Prop := match cb with conn_timeout_cb _ => False | _ => True end.

Lemma inv_timers hs ds hc dy ex SQ RQ m k s :
  inv hs ds hc dy ex SQ RQ s -> timers_ok param (set_timers m (set_next_timer k s)) -> inv hs ds hc dy ex SQ RQ (set_timers m (set_next_timer k s)).
Proof. intros [Hh [] _ [] [] []] Ht. constructor; [exact Hh | constructor; assumption | exact Ht | constructor; assumption ..]. Qed.

Lemma timer_gone hs ds hc dy ex SQ RQ t cb d s :
  inv hs ds hc dy ex SQ RQ s -> timers s !! t = Some (cb, d) -> no_watchdog cb -> inv hs ds hc dy ex SQ RQ (set_timers (delete t (timers s)) s).
Proof.
  intros Hi Ht Hcb. replace (set_timers (delete t (timers s)) s) with (set_timers (delete t (timers s)) (set_next_timer (next_timer s) s)) by (by destruct s).
  apply inv_timers; [done |]. destruct Hi as [_ _ [] _ _ _]. constructor; cbn; try done.
  - intros a y Hy Hw. destruct (t_conn0 a y Hy Hw) as (d' & Hd). exists d'. rewrite lookup_delete_ne; [done |]. intros E.
    rewrite <- E, Ht in Hd. by injection Hd as -> _.
  - intros t' a d'. rewrite lookup_delete_Some. intros [_ Hd]. eauto.
  - intros t' cb'. rewrite lookup_delete_Some. intros [_ Hd]. eauto.
  - intros t' d'. rewrite lookup_delete_Some. intros [_ Hd]. eauto.
Qed.

Lemma timer_new hs ds hc dy ex SQ RQ cb d s :
  inv hs ds hc dy ex SQ RQ s -> no_watchdog cb -> (cb = rate_tick_cb -> fltb fzero (rate_param param) = true) ->
  inv hs ds hc dy ex SQ RQ (timer_schedule cb d s).2.
Proof.
  intros Hi Hcb Hr. pose proof Hi as [_ _ [] _ _ _]. unfold timer_schedule. cbn [snd].
  change (set_next_timer ?k (set_timers ?m s)) with (set_timers m (set_next_timer k s)).
  apply (inv_timers hs ds hc dy ex SQ RQ (<[next_timer s := (cb, d)]> (timers s)) (next_timer s + 1) s); [done |].
  assert (Free : timers s !! next_timer s = None).
  { destruct (timers s !! next_timer s) as [e |] eqn:E; [| done]. apply t_range0 in E. lia. }
  constructor; cbn.
  - intros a y Hy Hw. destruct (t_conn0 a y Hy Hw) as (d' & Hd). exists d'. rewrite lookup_insert_ne; [done |]. intros E. congruence.
  - intros t a d' [(-> & E) | (_ & Hz)]%get_insert; [by injection E as <- _ | eauto].
  - intros t e [(-> & _) | (_ & Hz)]%get_insert; [lia |]. apply t_range0 in Hz. lia.
  - lia.
  - intros t e [(-> & E) | (_ & Hz)]%get_insert; [injection E as <- _; auto | eauto].
Qed.

End Timers.

(** ** The words of the masks *)
Lemma in_mask i fd rd wr : fd ∈ rd ∪ wr -> fd / NFDBITS = i -> fd ∈ mask_of i rd wr.
Proof.
  intros Hin <-. unfold mask_of, NFDBITS. apply list_elem_of_filter. split; [done |]. apply elem_of_seqZ. zdiv.
Qed.

(** The search for the next word goes round once at most. *)
Lemma next_word_ok rd wr min_i max_i k fuel : forall i,
  0 <= min_i <= k -> k <= max_i -> mask_of k rd wr <> [] ->
  (i < k /\ k - i <= Z.of_nat fuel) \/ (k <= i /\ Z.max (max_i - i) 0 + 1 + (k - min_i) <= Z.of_nat fuel) -> -1 <= i ->
  exists j, next_word fuel min_i max_i i rd wr = Ret j /\ 0 <= j /\ mask_of j rd wr <> [].
Proof.
  induction fuel as [| fuel IH]; intros i Hk Hk2 Hm Hf Hi; [lia |]. cbn [next_word].
  set (j := if max_i <? i + 1 then min_i else i + 1).
  assert (Hj : (i < max_i /\ j = i + 1) \/ (max_i <= i /\ j = min_i)) by (unfold j; destruct (Z.ltb_spec max_i (i + 1)); lia).
  unfold assert_at, BasicStats.assert_at. destruct (Z.leb_spec j max_i); [| lia]. rewrite bind_Ret.
  destruct (mask_of j rd wr) as [| f l] eqn:E; [| exists j; split_and!; [done | lia | by rewrite E]].
  assert (j <> k) by congruence. apply IH; try done; lia.
Qed.

Section Loop.
Context {W A : Type} (sys : system W A) (param : Cmdline_Params) (hash_table : AddrTable.table A).
Context (past_end : iovec) (garbage before : Z) (Hbefore : before <> HttpReply.CR).
Context (act : action) (depth : nat).
Context (opened : W -> gset Z) (seen : W -> Time -> Prop).
Context (Hact : forall e, act e = handlers_of param e) (Hpar : params_ok param) (Hsys : system_ok sys opened seen).
Context (Hlook : exists r, AddrTable.hash_lookup 1024 hash_table (server param) (server_port param) = Ret r).
Context (Hdepth : (Z.to_nat (num_conns param) + 4 <= depth)%nat).
Implicit Types s : st W.
Abbreviation inv := (inv param opened seen).
Abbreviation signal := (event_signal sys param hash_table act depth).

(** Nothing is in progress. *)
Definition calm s : Prop := exists SQ RQ, inv [] [] [] None 0 SQ RQ s.

Lemma depth_3 : exists n, depth = S (S (S n)).
Proof. destruct depth as [| [| [| n]]]; try lia. by exists n. Qed.

Lemma to_make_less hs ds hc dy ex SQ RQ s : inv hs ds hc dy ex SQ RQ s -> (to_make param s <= Z.to_nat (num_conns param))%nat.
Proof. intros [_ _ _ _ _ []]. unfold to_make. lia. Qed.

(** ** The watchdog goes off or is cancelled *)
Lemma cancelled_inv hs ds hc dy ex SQ RQ a y s :
  inv hs ds hc dy ex SQ RQ s -> conns s !! a = Some y -> closing (state y) = false ->
  inv hs ds hc dy ex SQ RQ (put_conn a (set_watchdog 0 y) (set_timers (without y s) s)).
Proof.
  intros Hi Hy Ho. pose proof Hi as [Hh Hf Ht _ _ _].
  eapply (inv_change_at param opened seen a y (set_watchdog 0 y)); [exact Hi | same_rest | exact Hy | done | by apply lives_state | done | | |].
  - apply (heap_fields param hs ds hc dy ex SQ RQ (conns s) (calls s) a y); try done. constructor; auto.
  - by apply (fds_same opened SQ RQ a y (set_watchdog 0 y) s).
  - by apply (timers_cancelled a y (set_watchdog 0 y) s).
Qed.

(** ** A descriptor that is ready *)
Lemma finish_connect hs SQ RQ a y s :
  inv hs [] [] None 0 SQ RQ s -> conns s !! a = Some y -> state y = S_CONNECTING -> 0 <= sd y < FD_SETSIZE ->
  exists s', (s1 ← FD_CLR Wr (sd y) s; s1 ← upd_conn a (set_state S_CONNECTED) s1; signal EV_CONN_CONNECTED a NoArg s1) = Ret s' /\
    kept param opened seen hs [] a s'.
Proof.
  intros Hi Hy Hst Hsd. pose proof Hi as [[] Hf Ht _ Hk _]. destruct depth_3 as [n ->].
  assert (Ho : closing (state y) = false) by (by rewrite Hst).
  destruct (h_fresh0 a y Hy (or_intror Hst)) as [Hc QS]. assert (QR : RQ a = []) by (apply (h_state0 a y Hy); by rewrite Hst).
  rewrite FD_CLR_in, bind_Ret by done. rewrite (upd_conn_at a _ y), bind_Ret by done. set (y1 := set_state S_CONNECTED y). set (s1 := put_conn a y1 _).
  assert (Hi1 : inv hs [] [] None 0 SQ RQ s1).
  { eapply (inv_started param opened seen hs [] [] None 0 SQ RQ a y y1 s); try done; [by right | constructor; auto | | |].
    - destruct Hk. apply (k_conn0 a y Hy); [by rewrite Hst | done].
    - apply (fds_change opened SQ RQ SQ RQ a y y1 s s1); try done; try lia.
      + intros fd Hfd. cbn. split; [by apply in_del | done].
      + cbn. rewrite QS. split; [intros H; by apply not_in_deleted in H | intros [_ [? | ?]]; done].
      + by apply (rd_iff opened SQ RQ a y s).
      + intros Hin. apply Hf. apply elem_of_union in Hin as [? | Hin]; [by apply elem_of_union; left |].
        cbn in Hin. by apply not_in_deleted in Hin.
    - by apply (timers_conn a y y1 s). }
  rewrite (signal_connected sys param hash_table act Hact (S (S n)) a y1) by apply put_conn_get.
  set (s2 := set_basic _ s1). assert (Hi2 : inv hs [] [] None 0 SQ RQ s2) by (by apply inv_basic).
  destruct (issue_calls_ok sys param hash_table act opened seen Hact Hpar hs [] None 0 a SQ RQ y1 (S n) s2 Hi2)
    as (s3 & y3 & SQ3 & E3 & Hi3 & Hy3 & _); try done; [by right | apply put_conn_get | by left |].
  exists s3. split; [exact E3 |]. by exists SQ3, RQ, y3.
Qed.

(** A connection that is held and has a reply to wait for is open. *)
Lemma held_open SQ RQ a y s : inv [a] [] [] None 0 SQ RQ s -> conns s !! a = Some y -> sendq y <> 0 \/ recvq y <> 0 -> closing (state y) = false.
Proof.
  intros [[] _ _ _ _ _] Hy Hq. destruct (closing (state y)) eqn:E; [exfalso | done].
  destruct (decide (state y = S_CLOSING)) as [C | C]; [destruct (h_closing0 a y Hy C) as (? & ? & _); tauto |].
  assert (F : state y = S_FREE) by (by destruct (state y)). destruct (h_ids0 a y Hy F) as [? _]. by apply elem_of_nil in H.
Qed.

(** The reference of the loop is given back; it may be the last. *)
Lemma give_back_conn a s : kept param opened seen [a] [] a s -> exists s', conn_dec_ref signal a s = Ret s' /\ calm s'.
Proof.
  intros (SQ & RQ & y & Hi & Hy). pose proof Hi as [[] _ _ _ _ _]. destruct (h_conn0 a y Hy) as (_ & _ & _ & Hr).
  rewrite count_cons, decide_True in Hr by done. change (cnt a []) with 0 in Hr.
  assert (F : state y <> S_FREE). { intros F. destruct (h_ids0 a y Hy F) as [H _]. by apply elem_of_nil in H. }
  destruct (closing (state y)) eqn:E.
  - assert (C : state y = S_CLOSING) by (by destruct (state y)).
    destruct (release_holds sys param hash_table act opened seen Hact Hpar Hsys Hlook (Z.to_nat (num_conns param)) depth [] SQ RQ a y s Hi Hy C)
      as (s' & SQ' & RQ' & E' & Hi' & _); [lia | by eapply to_make_less | done |]. exists s'. split; [done |]. by exists SQ', RQ'.
  - destruct (conn_dec_ref_kept sys param hash_table act opened seen depth [] [] [] None 0 SQ RQ a y s Hi Hy) as (s' & y' & E' & Hi' & _); [lia | done |].
    exists s'. split; [done |]. by exists SQ, RQ.
Qed.

(** What is done to a connection whose descriptor is ready. *)
Definition serve (fd a : Z) (is_readable is_writable : bool) s : cres (st W) :=
  x ← conn_at a s;
  if bool_decide (state x = S_CONNECTING) then
    if is_writable then
      s ← FD_CLR Wr fd s;
      s ← upd_conn a (set_state S_CONNECTED) s;
      signal EV_CONN_CONNECTED a NoArg s
    else Ret s
  else
    s ← (if is_writable && negb (sendq x =? 0) then do_send sys param (Some past_end) signal a s else Ret s);
    x ← conn_at a s;
    if is_readable && negb (recvq x =? 0) then do_recv sys param garbage before signal a s else Ret s.

Lemma serve_ok SQ RQ a rd wr y s :
  inv [a] [] [] None 0 SQ RQ s -> conns s !! a = Some y -> 0 <= sd y < FD_SETSIZE ->
  stops (kept param opened seen [a] [] a) (serve (sd y) a rd wr s).
Proof.
  intros Hi Hy Hsd. unfold serve. rewrite (conn_at_eq a y), bind_Ret by done. destruct (bool_decide (state y = S_CONNECTING)) eqn:Hc.
  - apply bool_decide_eq_true in Hc. destruct wr; [| by exists SQ, RQ, y].
    destruct (finish_connect [a] SQ RQ a y s Hi Hy Hc Hsd) as (s' & E & K). 
    assert (G : stops (kept param opened seen [a] [] a) (s1 ← FD_CLR Wr (sd y) s; s1 ← upd_conn a (set_state S_CONNECTED) s1; signal EV_CONN_CONNECTED a NoArg s1))
      by (rewrite E; exact K). exact G.
  - assert (Hin : a ∈ [a]) by (apply elem_of_cons; auto).
    destruct depth_3 as [n Hn].
    assert (H1 : exists s1, (if wr && negb (sendq y =? 0) then do_send sys param (Some past_end) signal a s else Ret s) = Ret s1 /\
       kept param opened seen [a] [] a s1).
    { destruct (wr && negb (sendq y =? 0)) eqn:E; [| exists s; split; [done |]; by exists SQ, RQ, y].
      apply andb_true_iff in E as [_ E]. apply negb_true_iff, Z.eqb_neq in E. rewrite Hn.
      apply (do_send_ok sys param hash_table act past_end opened seen Hact Hpar Hsys (S (S n)) [a] [] SQ RQ a y s); try done.
      by apply (held_open SQ RQ a y s); [| | left]. }
    destruct H1 as (s1 & -> & SQ1 & RQ1 & y1 & Hi1 & Hy1). rewrite bind_Ret, (conn_at_eq a y1), bind_Ret by done.
    destruct (rd && negb (recvq y1 =? 0)) eqn:E; [| by exists SQ1, RQ1, y1].
    apply andb_true_iff in E as [_ E]. apply negb_true_iff, Z.eqb_neq in E. rewrite Hn.
    apply (do_recv_ok sys param hash_table act garbage before Hbefore opened seen Hact Hpar Hsys (S n) [a] [] SQ1 RQ1 a y1 s1); try done.
    by apply (held_open SQ1 RQ1 a y1 s1); [| | right].
Qed.

(** The connection of a descriptor that is watched. *)
Lemma watched SQ RQ fd s : fds_ok opened SQ RQ s -> fd ∈ rdfds s \/ fd ∈ wrfds s ->
  exists a y, conns s !! a = Some y /\ closing (state y) = false /\ sd y = fd /\ 0 <= fd < FD_SETSIZE /\ get_sd_to_conn fd s = Ret a.
Proof.
  intros [] H.
  assert (Ex : exists a y, conns s !! a = Some y /\ closing (state y) = false /\ sd y = fd /\ 0 <= fd).
  { destruct H as [H | H]; [apply f_rd0 in H | apply f_wr0 in H]; destruct H as (a & y & ? & ? & ? & ? & _); by exists a, y. }
  destruct Ex as (a & y & Hy & Ho & <- & Hp). exists a, y.
  destruct (f_conn0 a y Hy Ho) as [[? _] | (F1 & F2 & F3 & _)]; [lia |]. split_and!; try done; try lia.
  unfold get_sd_to_conn. destruct (Z.leb_spec 0 (sd y)), (Z.ltb_spec (sd y) (alloced_sd_to_conn s)); try lia. by rewrite F3.
Qed.

Lemma handle_ready_ok tick rd wr n fd s :
  (forall t, calm t -> stops calm (tick t)) -> calm s ->
  stops calm (handle_ready sys param (Some past_end) garbage before signal tick rd wr n fd s).
Proof.
  intros Htick (SQ & RQ & Hi). unfold handle_ready.
  set (is_readable := _ && _). set (is_writable := bool_decide (fd ∈ wr) && _).
  destruct (is_readable || is_writable) eqn:E; [| by exists SQ, RQ].
  assert (Hw : fd ∈ rdfds s \/ fd ∈ wrfds s).
  { apply orb_true_iff in E as [E | E]; apply andb_true_iff in E as [_ E]; apply bool_decide_eq_true in E; auto. }
  pose proof Hi as [_ Hf _ _ _ _]. destruct (watched SQ RQ fd s Hf Hw) as (a & y & Hy & Ho & Es & Hsd & ->). rewrite bind_Ret.
  destruct (conn_inc_ref_ok param opened seen [] [] None 0 SQ RQ a y s Hi Hy Ho) as (r & -> & Hi1). rewrite bind_Ret.
  set (y1 := set_s_ref r y). set (s1 := put_conn a y1 s). assert (Hy1 : conns s1 !! a = Some y1) by apply put_conn_get.
  rewrite (watchdog_cancelled param a y1 s1), bind_Ret by (done || by destruct Hi1).
  pose proof (cancelled_inv _ _ _ _ _ _ _ a y1 s1 Hi1 Hy1 Ho) as Hi2. set (y2 := set_watchdog 0 y1). set (s2 := put_conn a y2 (set_timers (without y1 s1) s1)) in *.
  rewrite <- bind_assoc_cres. eapply stops_bind; [rewrite <- Es; exact (serve_ok SQ RQ a is_readable is_writable y2 s2 Hi2 (put_conn_get a y2 _) ltac:(change (sd y2) with (sd y); by rewrite Es)) |].
  intros s3 K. destruct (give_back_conn a s3 K) as (s4 & -> & C4). rewrite bind_Ret. destruct (0 <? n); [by apply Htick | done].
Qed.

(** ** Timers: [conn_timeout] *)
Lemma conn_timeout_ok a t d s : calm s -> timers s !! t = Some (conn_timeout_cb a, d) ->
  exists s', conn_timeout sys signal a (set_timers (delete t (timers s)) s) = Ret s' /\ calm s'.
Proof.
  intros (SQ & RQ & Hi) Ht. pose proof Hi as [[] _ [] _ _ _]. destruct (t_timer0 t a d Ht) as (y & Hy & Hw).
  assert (Hp : 0 < t) by (apply t_range0 in Ht; lia).
  assert (Ho : closing (state y) = false).
  { destruct (closing (state y)) eqn:E; [exfalso | done].
    destruct (decide (state y = S_CLOSING)) as [C | C]; [destruct (h_closing0 a y Hy C) as (_ & _ & _ & ? & _); lia |].
    assert (F : state y = S_FREE) by (by destruct (state y)). destruct (h_ids0 a y Hy F) as (_ & _ & ?). lia. }
  unfold conn_timeout. rewrite (upd_conn_at a _ y), bind_Ret by done.
  assert (Ew : delete t (timers s) = without y s) by (unfold without; rewrite Hw; destruct (Z.eqb_spec t 0); [lia | done]). rewrite Ew.
  pose proof (cancelled_inv _ _ _ _ _ _ _ a y s Hi Hy Ho) as Hi1. set (y1 := set_watchdog 0 y) in *.
  set (s1 := put_conn a y1 _) in *.
  assert (E : signal EV_CONN_TIMEOUT a NoArg s1 = Ret (set_basic (BasicStats.conn_timeout (basic s1)) s1)).
  { destruct depth_3 as [n ->]. apply (signal_timeout sys param hash_table act Hact). }
  rewrite E, bind_Ret. set (s2 := set_basic _ s1).
  assert (Hi2 : inv [] [] [] None 0 SQ RQ s2) by (by apply inv_basic).
  destruct (close_alone sys param hash_table act opened seen Hact Hpar Hsys (Z.to_nat (num_conns param)) depth [] SQ RQ a y1 s2)
    as (s3 & SQ3 & RQ3 & E3 & Hi3 & _); try done; [by apply release_holds | apply put_conn_get | by eapply to_make_less |].
  exists s3. split; [exact E3 |]. by exists SQ3, RQ3.
Qed.

(** The arrivals up to the clock: each makes a connection or ends the generator. *)
Lemma arrivals_ok fuel clock : forall SQ RQ s,
  inv [] [] [] None 0 SQ RQ s -> fltb fzero (rate_param param) = true -> rg_done s = false -> (to_make param s < fuel)%nat ->
  exists s', arrivals sys param hash_table signal fuel clock s = Ret s' /\ calm s'.
Proof.
  induction fuel as [| fuel IH]; intros SQ RQ s Hi Hr Hd Hf; [lia |]. cbn [arrivals]. destruct (fltb (next_time s) clock).
  - pose proof (so_interarrival _ _ _ Hsys (world s)) as Hs. destruct (sys_interarrival sys (world s)) as [delay w]. cbn [snd] in Hs.
    set (s1 := set_next_time _ _). assert (Hi1 : inv [] [] [] None 0 SQ RQ s1) by (by apply inv_next_time, inv_world).
    assert (Hg : num_conns_generated s <= num_conns param) by (destruct Hi as [_ _ _ _ _ []]; auto).
    destruct (tick_holds sys param hash_table act opened seen Hact Hpar Hsys Hlook (Z.to_nat (num_conns param)) depth [] SQ RQ s1 Hi1)
      as (s2 & SQ2 & RQ2 & E2 & Hi2 & G); [by eapply to_make_less | lia | done | congruence |].
    rewrite E2, bind_Ret. destruct (G Hr) as [G1 G2]. change (num_conns_generated s1) with (num_conns_generated s) in *.
    destruct (rg_done s2) eqn:Ed; [by exists s2; split; [| exists SQ2, RQ2] |]. symmetry in G2. apply Z.leb_gt in G2.
    apply (IH SQ2 RQ2 s2 Hi2 Hr Ed). unfold to_make in *. lia.
  - pose proof (timer_new param opened seen _ _ _ _ _ _ _ rate_tick_cb (fsub (next_time s) clock) s Hi I (fun _ => Hr)) as Hi1.
    destruct (timer_schedule _ _ s) as [t s1]. exists (set_rg_timer t s1). split; [done |]. exists SQ, RQ. by apply inv_rg_timer.
Qed.

Lemma rate_tick_ok s : calm s -> fltb fzero (rate_param param) = true ->
  exists s', rate_tick sys param hash_table signal s = Ret s' /\ calm s'.
Proof.
  intros (SQ & RQ & Hi) Hr. unfold rate_tick. change (rg_done (set_rg_timer 0 s)) with (rg_done s).
  destruct (rg_done s) eqn:Ed; [exists (set_rg_timer 0 s); split; [done |]; exists SQ, RQ; by apply inv_rg_timer |].
  apply (arrivals_ok _ _ SQ RQ); [by apply inv_rg_timer | done | done |]. pose proof (to_make_less _ _ _ _ _ _ _ s Hi).
  unfold to_make in *. cbn. lia.
Qed.

Lemma perf_sample_ok s : calm s -> exists s', Httperf.perf_sample sys param hash_table act depth s = Ret s' /\ calm s'.
Proof.
  intros (SQ & RQ & Hi). unfold Httperf.perf_sample. destruct depth_3 as [n Hn]. rewrite Hn.
  assert (E : exists b, event_signal sys param hash_table act (S (S (S n))) EV_PERF_SAMPLE 0
       (TimeArg (fdiv (double 1) (fsub (now s) (perf_sample_start s)))) s = Ret (set_basic b s) /\
       BasicStats.num_active_conns b = BasicStats.num_active_conns (basic s) /\ BasicStats.num_replies b = BasicStats.num_replies (basic s)).
  { cbn [event_signal]. rewrite Hact. cbn [handlers_of run_handlers run_handler basic_handler]. rewrite bind_Ret. by eexists. }
  destruct E as (b & -> & B1 & B2). rewrite bind_Ret. eexists. split; [reflexivity |]. exists SQ, RQ.
  apply timer_new; [| exact I | done]. apply inv_perf, inv_basic; [done | by rewrite B2 | done].
Qed.

(** The timers of a tick; one that was cancelled meanwhile does not fire. *)
Lemma fire_ok ts : forall s, calm s -> exists s', fire sys param hash_table act depth ts s = Ret s' /\ calm s'.
Proof.
  induction ts as [| t ts IH]; intros s Hc; cbn [fire]; [by exists s |].
  destruct (timers s !! t) as [[cb d] |] eqn:Et; [| by apply IH].
  assert (H : exists s1, run_callback sys param hash_table act depth cb (set_timers (delete t (timers s)) s) = Ret s1 /\ calm s1).
  { destruct cb as [a | |]; cbn [run_callback].
    - by apply (conn_timeout_ok a t d).
    - destruct Hc as (SQ & RQ & Hi). apply rate_tick_ok; [exists SQ, RQ; by eapply timer_gone |]. destruct Hi as [_ _ [] _ _ _]. eauto.
    - destruct Hc as (SQ & RQ & Hi). apply perf_sample_ok. exists SQ, RQ. by eapply timer_gone. }
  destruct H as (s1 & -> & C1). rewrite bind_Ret. by apply IH.
Qed.

Lemma clock_inv t w s : calm s -> sys_clock sys (world s) = (t, w) -> calm (set_now t (set_world w s)).
Proof.
  intros (SQ & RQ & [Hh [] [] [] [] []]) E. destruct (system_clock _ _ _ (world s) Hsys) as (E1 & E2 & E3). rewrite E in E1, E2, E3. cbn [fst snd] in *.
  exists SQ, RQ. constructor; [exact Hh | constructor; cbn; rewrite ?E1; assumption | constructor; assumption | constructor; assumption | | constructor; assumption].
  constructor; cbn.
  - apply E2. auto.
  - exact E3.
  - intros a y Hy H1 H2. apply E2. eauto.
  - intros a y Hy. rewrite E2. destruct (k_done0 a y Hy); auto.
Qed.

Lemma timer_tick_ok s : calm s -> exists s', timer_tick sys param hash_table act depth s = Ret s' /\ calm s'.
Proof.
  intros Hc. unfold timer_tick. destruct (sys_clock sys (world s)) as [t w] eqn:E. pose proof (clock_inv t w s Hc E) as C1.
  pose proof (so_expired _ _ _ Hsys (timers s) w) as Hs. destruct (sys_expired sys (timers s) w) as [ts w2]. cbn [snd] in Hs.
  apply fire_ok. destruct C1 as (SQ & RQ & Hi1). exists SQ, RQ. change (set_now t (set_world w2 s)) with (set_world w2 (set_now t (set_world w s))).
  by apply inv_world.
Qed.

(** ** The rounds of the loop *)
Lemma handle_word_ok rd wr fds : forall n s, calm s ->
  stops (fun r => calm r.2 /\ r.1 = n - Z.of_nat (length fds))
    (handle_word sys param hash_table (Some past_end) garbage before act depth fds rd wr n s).
Proof.
  induction fds as [| fd fds IH]; intros n s Hc; cbn [handle_word]; [split; [done | cbn; lia] |].
  eapply stops_bind; [apply handle_ready_ok; [| exact Hc] |].
  - intros t Ht. destruct (timer_tick_ok t Ht) as (t' & -> & ?). done.
  - intros s1 C1. eapply stops_mono; [by apply IH |]. intros r [? ->]. split; [done | cbn [length]; lia].
Qed.

(** A word has at least one descriptor, so the rounds end with the count of select. *)
Lemma handle_words_ok rd wr min_i max_i k : 0 <= min_i <= k -> k <= max_i -> mask_of k rd wr <> [] ->
  forall fuel n s, (Z.to_nat n <= fuel)%nat -> calm s ->
  stops calm (handle_words sys param hash_table (Some past_end) garbage before act depth fuel min_i max_i rd wr n s).
Proof.
  intros Hk Hk2 Hm. induction fuel as [| fuel IH]; intros n s Hf Hc; cbn [handle_words].
  - destruct (Z.leb_spec n 0); [done | lia].
  - destruct (Z.leb_spec n 0); [done |]. destruct Hc as (SQ & RQ & Hi). assert (Hl : -1 <= loop_i s) by (destruct Hi as [_ _ _ _ _ []]; done).
    destruct (next_word_ok rd wr min_i max_i k (Z.to_nat (2 * max_i + 3)) (loop_i s)) as (j & -> & Hj & Hmj); try done; [lia |].
    rewrite bind_Ret. eapply stops_bind; [apply (handle_word_ok rd wr (mask_of j rd wr) n (set_loop_i j s)); exists SQ, RQ; apply inv_loop_i; [lia | done] |].
    intros [n' s1] [C1 En]. cbn [fst snd] in *. apply IH; [| done]. destruct (mask_of j rd wr); [done |]. cbn [length] in En. lia.
Qed.

End Loop.
End HttperfLoop.
