(* ===== verification/HttperfSafety.v ===== *)
(** * httperf/src: the client as a whole

    From the first statement of [main] behind the initialisation: however the servers, the
    clock and the system calls behave, within what is documented of them, the client reaches
    no undefined behaviour, every loop of a round ends, and when it stops every connection is
    accounted for. *)
From S2P Require Import Prelude Doubles HttpReply HttpReplyTotal Ports AddrTable BasicStats BasicStatsTheorems HttperfState Httperf HttperfRequest HttperfInv HttperfFrame HttperfSteps HttperfIssue HttperfClose HttperfDone HttperfReply HttperfSend HttperfConnect HttperfLife HttperfRounds HttperfLoop.

Module HttperfSafety.
Import HttperfState Httperf HttperfRequest HttperfInv HttperfFrame HttperfHeap HttperfSteps HttperfLife HttperfRounds HttperfLoop.

(** Everything is accounted for: no connection, no call and no descriptor is left. *)
Definition finished {W} (param : Cmdline_Params) (s : st W) : Prop :=
  running s = false /\ num_conns_destroyed s = num_conns param /\ conns s = ∅ /\ calls s = ∅ /\
  rdfds s = ∅ /\ wrfds s = ∅ /\ BasicStats.num_active_conns (basic s) = 0.

(** The sets of [select] hold the descriptors of the open connections that wait for something,
    within the bounds that select the words looked at, and the table leads from each
    descriptor to its connection. *)
Definition watched_right {W} (s : st W) : Prop :=
  (forall fd, fd ∈ wrfds s <-> exists a y, conns s !! a = Some y /\ closing (state y) = false /\ sd y = fd /\ 0 <= fd /\
     (state y = S_CONNECTING \/ sendq y <> 0)) /\
  (forall fd, fd ∈ rdfds s <-> exists a y, conns s !! a = Some y /\ closing (state y) = false /\ sd y = fd /\ 0 <= fd /\
     recvq y <> 0) /\
  (forall fd, fd ∈ rdfds s ∪ wrfds s -> min_sd s <= fd <= max_sd s) /\
  (forall a y, conns s !! a = Some y -> closing (state y) = false -> 0 <= sd y -> get_sd_to_conn (sd y) s = Ret a).

(** ** What the invariant says when the loop has stopped, and in between *)
Section Calm.
Context {W : Type} (param : Cmdline_Params) (opened : W -> gset Z) (seen : W -> Time -> Prop).
Implicit Types s : st W.
Abbreviation calm := (calm param opened seen).

Lemma calm_finished s : calm s -> running s = false -> finished param s.
Proof.
  intros (SQ & RQ & [[] [] _ _ _ []]) Hr. rewrite Hr in g_running0. symmetry in g_running0. apply negb_false_iff, andb_true_iff in g_running0 as [G1 G2].
  apply Z.ltb_lt in G1. apply Z.leb_le in G2. cbn [length] in *.
  assert (Z0 : size (conns s) = 0%nat /\ num_conns_destroyed s = num_conns param) by lia. destruct Z0 as [Z0 Z1].
  apply map_size_empty_inv in Z0.
  assert (NC : forall a, SQ a ++ RQ a = []).
  { intros a. destruct (decide (SQ a ++ RQ a = [])) as [E | E]; [done |]. destruct (h_queued0 a E) as (y & Hy & _).
    by rewrite Z0, lookup_empty in Hy. }
  split_and!; try done.
  - apply map_eq. intros c. rewrite lookup_empty. destruct (calls s !! c) as [x |] eqn:E; [exfalso | done].
    destruct (h_call0 c x E) as (_ & _ & Hr0 & H0). rewrite NC in Hr0. destruct H0 as [b Hb]; [exact Hr0 | done].
  - apply elem_of_equiv_empty_L. intros fd H. apply f_rd0 in H as (a & y & Hy & _). by rewrite Z0, lookup_empty in Hy.
  - apply elem_of_equiv_empty_L. intros fd H. apply f_wr0 in H as (a & y & Hy & _). by rewrite Z0, lookup_empty in Hy.
  - rewrite g_active0, Z0, map_size_empty. done.
Qed.

Lemma calm_watched s : calm s -> watched_right s.
Proof.
  intros (SQ & RQ & [[] [] _ _ _ _]).
  assert (QS : forall a y, conns s !! a = Some y -> closing (state y) = false -> (sendq y <> 0 <-> SQ a <> []) /\ (recvq y <> 0 <-> RQ a <> [])).
  { intros a y Hy Ho. destruct (h_open0 a y Hy Ho) as [Q1%queue_nil Q2%queue_nil]. tauto. }
  split_and!; [intros fd; rewrite f_wr0 | intros fd; rewrite f_rd0 | done |].
  - split; intros (a & y & Hy & Ho & H); exists a, y; destruct (QS a y Hy Ho); intuition.
  - split; intros (a & y & Hy & Ho & H); exists a, y; destruct (QS a y Hy Ho); intuition.
  - intros a y Hy Ho Hp. destruct (f_conn0 a y Hy Ho) as [[? _] | (F1 & F2 & F3 & _)]; [lia |].
    unfold get_sd_to_conn. destruct (Z.leb_spec 0 (sd y)), (Z.ltb_spec (sd y) (alloced_sd_to_conn s)); try lia. by rewrite F3.
Qed.
End Calm.

Section Safety.
Context {W A : Type} (sys : system W A) (param : Cmdline_Params) (hash_table : AddrTable.table A).
Context (past_end : iovec) (garbage before : Z) (act : action) (depth : nat).
Context (opened : W -> gset Z) (seen : W -> Time -> Prop).
Context (Hbefore : before <> HttpReply.CR) (Hpar : params_ok param) (Hsys : system_ok sys opened seen).
Context (Hact : forall e, act e = handlers_of param e).
Context (Hlook : exists r, AddrTable.hash_lookup 1024 hash_table (server param) (server_port param) = Ret r).
Context (Hdepth : (Z.to_nat (num_conns param) + 4 <= depth)%nat).
Implicit Types s : st W.
Abbreviation calm := (calm param opened seen).
Abbreviation round := (core_round sys param hash_table (Some past_end) garbage before act depth).

(** The state after [n] rounds. *)
Fixpoint rounds_done (n : nat) s : cres (st W) :=
  match n with O => Ret s | S n => s ← round s; rounds_done n s end.

Lemma core_round_ok s : calm s -> iteration s < INT_MAX -> stops calm (round s).
Proof.
  intros Hc Hit. unfold core_round. pose proof (keeps_timer_tick sys param hash_table act depth s s eq_refl) as K1.
  destruct (timer_tick_ok sys param hash_table act depth opened seen Hact Hpar Hsys Hlook Hdepth s Hc) as (s1 & E1 & SQ & RQ & Hi).
  rewrite E1 in K1. cbn in K1. rewrite E1, bind_Ret. pose proof (so_select _ _ _ Hsys (rdfds s1) (wrfds s1) (world s1)) as [Hs Hsub].
  destruct (sys_select sys (rdfds s1) (wrfds s1) (world s1)) as [r w]. cbn [fst snd] in *. rewrite bump_eq, bind_Ret by lia.
  set (s2 := set_iteration _ (set_world w s1)).
  assert (C2 : calm s2) by (exists SQ, RQ; pose proof Hi as [_ _ _ _ _ []]; apply inv_iteration; [lia | by apply inv_world]).
  destruct r as [[rd wr] |]; [| by left]. destruct Hsub as [Sr Sw].
  destruct (decide (rd ∪ wr = ∅)) as [E | (fd & Hfd)%set_choose_L].
  - apply empty_union_L in E as [-> ->]. rewrite !size_empty. change (Z.of_nat 0 + Z.of_nat 0) with 0. done.
  - assert (Hin : fd ∈ rdfds s1 ∪ wrfds s1) by (apply elem_of_union in Hfd as [H | H]; apply elem_of_union; [left; by apply Sr | right; by apply Sw]).
    pose proof Hi as [_ [] _ _ _ _]. pose proof (f_range0 fd Hin) as Hr.
    assert (Hk : 0 <= min_sd s1 / NFDBITS <= fd / NFDBITS /\ fd / NFDBITS <= max_sd s1 / NFDBITS) by (unfold NFDBITS; zdiv).
    apply (handle_words_ok sys param hash_table past_end garbage before Hbefore act depth opened seen Hact Hpar Hsys Hlook Hdepth rd wr _ _ (fd / NFDBITS));
      try tauto; [| done].
    intros E. pose proof (in_mask (fd / NFDBITS) fd rd wr Hfd eq_refl) as X. rewrite E in X. by apply elem_of_nil in X.
Qed.

Lemma rounds_ok n : forall s, calm s -> iteration s + Z.of_nat n <= INT_MAX -> stops calm (rounds_done n s).
Proof.
  induction n as [| n IH]; intros s Hc Hit; cbn [rounds_done]; [done |].
  pose proof (core_round_ok s Hc ltac:(lia)) as R. destruct (round s) as [s1 | | |] eqn:E; [| done ..]. cbn in R. rewrite bind_Ret.
  apply round_counts in E. apply IH; [done | lia].
Qed.

(** The loop ends, or all its rounds are used. *)
Definition outcome (n : nat) s (r : cres (st W)) : Prop :=
  match r with
  | Ret s' => calm s' /\ running s' = false
  | Exit c => allowed c
  | Undef => False
  | NoFuel => exists s', rounds_done n s = Ret s' /\ calm s' /\ running s' = true
  end.

Lemma core_loop_ok n : forall s, calm s -> iteration s + Z.of_nat n <= INT_MAX ->
  outcome n s (core_loop sys param hash_table (Some past_end) garbage before act depth n s).
Proof.
  induction n as [| n IH]; intros s Hc Hit; cbn [core_loop]; destruct (running s) eqn:Er; try done.
  - by exists s.
  - pose proof (core_round_ok s Hc ltac:(lia)) as R. unfold outcome. cbn [rounds_done]. destruct (round s) as [s1 | | |] eqn:E; [| done ..].
    cbn in R. rewrite bind_Ret. apply round_counts in E. apply IH; [done | lia].
Qed.

(** ** The start *)
Lemma statics_calm w : calm (statics sys w).
Proof.
  unfold statics. pose proof (system_clock _ _ _ w Hsys) as (E1 & E2 & E3). destruct (sys_clock sys w) as [t w1]. cbn [fst snd] in *.
  exists (fun _ => []), (fun _ => []). constructor.
  - constructor; cbn; try done; try (by intros; rewrite lookup_empty in *); try (by intros ? ?%elem_of_nil); try (by intros ? ? ?%elem_of_nil); try (by intros ? ? ? ?%elem_of_nil).
    + intros. apply NoDup_nil_2.
    + split; [apply NoDup_nil_2 | by intros ? ?%elem_of_nil].
  - constructor; cbn; try done.
    + intros fd. split; [by intros ?%elem_of_empty | by intros (a & y & ? & _)].
    + intros fd. split; [by intros ?%elem_of_empty | by intros (a & y & ? & _)].
  - by constructor.
  - constructor; cbn; try done; (split; [apply NoDup_nil_2 | by intros ? ?%elem_of_nil]).
  - constructor; cbn; try done. apply E2. auto.
  - pose proof (po_conns _ Hpar). constructor; cbn; rewrite ?map_size_empty; try done; lia.
Qed.

Lemma first_conn_ok SQ RQ s : inv param opened seen [] [] [] None 0 SQ RQ s -> num_conns_generated s = 0 ->
  exists s', run_tick sys param hash_table (event_signal sys param hash_table act depth) s = Ret s' /\ calm s'.
Proof.
  intros Hi G. pose proof Hi as [_ _ _ _ _ []]. pose proof (po_conns _ Hpar).
  destruct (tick_holds sys param hash_table act opened seen Hact Hpar Hsys Hlook (Z.to_nat (num_conns param)) depth [] SQ RQ s Hi)
    as (s2 & SQ2 & RQ2 & E2 & Hi2 & _); [unfold to_make; lia | lia | lia | lia |].
  exists s2. split; [exact E2 |]. by exists SQ2, RQ2.
Qed.

Lemma rate_start_ok SQ RQ s : inv param opened seen [] [] [] None 0 SQ RQ s -> num_conns_generated s = 0 ->
  exists s', rate_start sys param hash_table act depth s = Ret s' /\ calm s'.
Proof.
  intros Hi G. unfold rate_start. destruct (fltb fzero (rate_param param)) eqn:Er; [| rewrite bind_Ret; by apply (first_conn_ok SQ RQ)].
  pose proof (so_interarrival _ _ _ Hsys (world s)) as Hs. destruct (sys_interarrival sys (world s)) as [delay w]. cbn [snd] in Hs.
  set (s1 := set_next_time _ _). assert (Hi1 : inv param opened seen [] [] [] None 0 SQ RQ s1) by (by apply inv_next_time, inv_world).
  pose proof (timer_new param opened seen _ _ _ _ _ _ _ rate_tick_cb delay s1 Hi1 I (fun _ => Er)) as Hi2.
  apply (first_conn_ok SQ RQ); [by apply inv_rg_timer | exact G].
Qed.

Lemma main_start_ok s : calm s -> (forall s1, timer_tick sys param hash_table act depth s = Ret s1 -> num_conns_generated s1 = 0) ->
  exists s', main_start sys param hash_table act depth s = Ret s' /\ calm s'.
Proof.
  intros Hc H0. unfold main_start.
  destruct (timer_tick_ok sys param hash_table act depth opened seen Hact Hpar Hsys Hlook Hdepth s Hc) as (s1 & E1 & SQ & RQ & Hi).
  specialize (H0 s1 E1). rewrite E1, bind_Ret. set (d := fdiv _ _).
  pose proof (timer_new param opened seen _ _ _ _ _ _ _ perf_sample_cb d s1 Hi I ltac:(discriminate)) as Hi1.
  apply (rate_start_ok SQ RQ); [by apply inv_perf | exact H0].
Qed.

(** Before the first timer is scheduled a tick is only a look at the clock. *)
Lemma fire_none ts s : timers s = ∅ -> fire sys param hash_table act depth ts s = Ret s.
Proof. intros E. induction ts as [| t ts IH]; cbn [fire]; [done |]. by rewrite E, lookup_empty. Qed.

Lemma statics_tick w s1 : timer_tick sys param hash_table act depth (statics sys w) = Ret s1 -> num_conns_generated s1 = 0 /\ iteration s1 = 0.
Proof.
  unfold timer_tick, statics. destruct (sys_clock sys w) as [t w1]. cbn [world timers]. destruct (sys_clock sys w1) as [t2 w2].
  destruct (sys_expired sys ∅ w2) as [ts w3]. rewrite fire_none by done. by intros [= <-].
Qed.

Lemma started_ok w : exists s, main_start sys param hash_table act depth (statics sys w) = Ret s /\ calm s /\ iteration s = 0.
Proof.
  destruct (main_start_ok (statics sys w) (statics_calm w)) as (s & E & Hc); [by intros s1 [? ?]%statics_tick |].
  exists s. split_and!; try done. pose proof (keeps_main_start sys param hash_table act depth (statics sys w) _ eq_refl) as K.
  rewrite E in K. cbn in K. rewrite K. unfold statics. by destruct (sys_clock sys w).
Qed.

End Safety.
End HttperfSafety.
