(* ===== verification/HttperfTheorems.v ===== *)
(** * httperf/src: what holds of every test

    The theorems about [main] of httperf.c, and a concrete system at which they are applied. *)
From S2P Require Import Prelude Doubles HttpReply AddrTable BasicStats HttperfState Httperf HttperfRequest HttperfInv HttperfFrame HttperfSteps HttperfClose HttperfLoop HttperfSafety.

Module HttperfTheorems.
Import HttperfState Httperf HttperfRequest HttperfInv HttperfHeap HttperfSteps HttperfLoop HttperfSafety.

(** The states of a test between the rounds of the loop. *)
Definition after_rounds {W A} (sys : system W A) (param : Cmdline_Params) (hash_table : AddrTable.table A)
    (past_end : iovec) (garbage before : Z) (depth n : nat) (w : W) : cres (st W) :=
  act ← registrations param;
  s ← main_start sys param hash_table act depth (statics sys w);
  rounds_done sys param hash_table past_end garbage before act depth n s.

(** The calls of a connection. *)
Definition calls_of {W} (a : Z) (s : st W) : gmap Z Call := filter (fun p => call_conn p.2 = a) (calls s).

Section Theorems.
Context {W A : Type} (sys : system W A) (param : Cmdline_Params) (hash_table : AddrTable.table A).
Context (past_end : iovec) (garbage before : Z) (depth n : nat) (w : W).
Context (opened : W -> gset Z) (seen : W -> Time -> Prop).

(** The setting.  [se_params]: HTTP 1.0 or 1.1, bursts of one call or more, numbers of connections
    and of calls that an int counts, no --hog, an --add-header whose escapes end inside the
    string.  [se_system]: the system calls behave as documented.  [se_short]: the readings of
    the clock are less than the 100 s of the histogram of life times apart.  [se_before]: the
    byte in front of the line buffer is not a carriage return.  [se_server]: the server has an
    address.  [se_depth]: calls may nest as deep as there are connections to make.
    [se_rounds]: there are fewer rounds than an int counts. *)
Record setting : Prop := {
  se_params : params_ok param;
  se_system : documented sys opened seen;
  se_short : short_lived sys seen;
  se_before : before <> HttpReply.CR;
  se_server : exists r, AddrTable.hash_lookup 1024 hash_table (server param) (server_port param) = Ret r;
  se_depth : (Z.to_nat (num_conns param) + 4 <= depth)%nat;
  se_rounds : Z.of_nat n <= INT_MAX
}.

Lemma between_rounds : setting -> stops (calm param opened seen) (after_rounds sys param hash_table past_end garbage before depth n w).
Proof.
  intros []. unfold after_rounds. destruct (registrations_ok param) as (act & -> & Hact). rewrite bind_Ret.
  pose proof (Build_system_ok _ _ _ se_system0 se_short0) as Hsys.
  destruct (started_ok sys param hash_table act depth opened seen se_params0 Hsys Hact se_server0 se_depth0 w) as (s & -> & Hc & Hi).
  rewrite bind_Ret. apply rounds_ok; try done. lia.
Qed.

Lemma inv_outstanding SQ RQ a (s : st W) : 1 <= burst_length param -> inv param opened seen [] [] [] None 0 SQ RQ s ->
  Z.of_nat (size (calls_of a s)) <= burst_length param.
Proof.
  intros Hb [[] _ _ _ _ _].
  assert (Hs : (size (calls_of a s) <= length (SQ a ++ RQ a))%nat).
  { rewrite <- (size_list_to_set (C := gset Z) (SQ a ++ RQ a)), <- (size_dom (D := gset Z) (calls_of a s)) by done.
    apply subseteq_size. intros c Hc. apply elem_of_dom in Hc as [x Hx]. apply map_lookup_filter_Some in Hx as [Hx E]. cbn in E.
    apply elem_of_list_to_set. destruct (h_call0 c x Hx) as (_ & _ & Hr & H0). rewrite E in Hr. change (cnt c []) with 0 in Hr.
    destruct (decide (c ∈ SQ a ++ RQ a)) as [| N]; [done | exfalso].
    destruct H0 as [b Hb0]; [| done]. rewrite Hr, cnt_zero by done. lia. }
  destruct (decide (SQ a ++ RQ a = [])) as [E | E]; [rewrite E in Hs; cbn in Hs; lia |].
  destruct (h_queued0 a E) as (y & Hy & Ho). destruct (h_conn0 a y Hy) as [Ha _].
  destruct (h_seq0 a y Hy Ho ltac:(lia)) as [(_ & E1 & E2 & _) | (_ & _ & Q)]; [by rewrite E1, E2 in E |].
  destruct Q as (_ & _ & Q1 & _ & Q2). unfold pending, created in Q2. lia.
Qed.

(** C1: In the setting above, and with memory for the objects, whatever the servers answer and
    whatever the system calls return within their documentation, a test has one of three ends: it is still running after its [n]
    rounds; it leaves by [exit (1)] when select failed, or by a failed assertion of core.c:622,
    basic.c:274 or basic.c:283; or it stops with every connection that was asked for made and
    destroyed, and no call, descriptor or active connection left.  It reaches no undefined
    behaviour, except that the element behind the array of fragments of a call, which
    core.c:467 reads when a request has been sent, is taken to be some value [past_end] that
    the compiled program finds there ([advance_reads_past_the_end]). *)
Theorem test_is_safe : setting ->
  match main sys param hash_table (Some past_end) garbage before depth n w with
  | Ret s => finished param s
  | Exit c => allowed c
  | Undef => False
  | NoFuel => exists s, after_rounds sys param hash_table past_end garbage before depth n w = Ret s /\ running s = true
  end.
Proof.
  intros []. unfold main, main_run, after_rounds. destruct (registrations_ok param) as (act & -> & Hact). rewrite !bind_Ret.
  pose proof (Build_system_ok _ _ _ se_system0 se_short0) as Hsys.
  destruct (started_ok sys param hash_table act depth opened seen se_params0 Hsys Hact se_server0 se_depth0 w) as (s & -> & Hc & Hi).
  rewrite !bind_Ret. pose proof (core_loop_ok sys param hash_table past_end garbage before act depth opened seen
    se_before0 se_params0 Hsys Hact se_server0 se_depth0 n s Hc ltac:(lia)) as H.
  destruct (core_loop _ _ _ _ _ _ _ _ _ _) as [s' | | |]; cbn in H; try done.
  - destruct H. by apply (calm_finished param opened seen).
  - destruct H as (s' & ? & _ & ?). by exists s'.
Qed.

(** C5: Between any two rounds [select] is given exactly the descriptors of the open connections
    that are connecting or have requests to send, and of those that wait for replies, and the
    table leads from each descriptor to its connection. *)
Theorem select_watches_right s : setting ->
  after_rounds sys param hash_table past_end garbage before depth n w = Ret s -> watched_right s.
Proof. intros H E. pose proof (between_rounds H) as C. rewrite E in C. by apply (calm_watched param opened seen). Qed.

(** C6: Between any two rounds no connection has more calls than a burst, there are no more
    connections than were made and not yet destroyed, and in a sequential test there is at
    most one. *)
Theorem outstanding_bounded s : setting ->
  after_rounds sys param hash_table past_end garbage before depth n w = Ret s ->
  (forall a, Z.of_nat (size (calls_of a s)) <= burst_length param) /\
  Z.of_nat (size (conns s)) + num_conns_destroyed s = Z.min (num_conns_generated s) (num_conns param) /\
  Z.of_nat (size (conns s)) = BasicStats.num_active_conns (basic s) /\
  (fltb fzero (rate_param param) = false -> Z.of_nat (size (conns s)) <= 1).
Proof.
  intros H E. pose proof (between_rounds H) as C. rewrite E in C. destruct C as (SQ & RQ & Hi). pose proof Hi as [_ _ _ _ _ []]. cbn [length] in *.
  split_and!; [| lia | lia | intros Hs; specialize (g_seq0 Hs); lia]. intros a. apply (inv_outstanding SQ RQ); [apply H | done].
Qed.
End Theorems.

(** ** A system: a clock that stands still, and a server that answers each request at once *)
Record net := mkNet { net_opened : gset Z; net_inbox : gmap Z (list Z); net_sent : nat }.
Definition ok_reply : list Z := text "HTTP/1.1 200 OK" ++ CRLF ++ text "Content-Length: 3" ++ CRLF ++ CRLF ++ text "abc".
Definition EMFILE : Z := 24.
Definition inbox_of (fd : Z) (w : net) : list Z := default [] (net_inbox w !! fd).
Definition net_socket (w : net) : (Z + Z) * net :=
  match filter (fun fd => fd ∉ net_opened w) (seqZ 3 1021) with
  | fd :: _ => (inl fd, mkNet (net_opened w ∪ {[fd]}) (net_inbox w) (net_sent w))
  | [] => (inr EMFILE, w)
  end.
Definition net_system : system net unit := mkSystem _ _
  (fun w => (double 1000, w)) (fun ts w => (map fst (map_to_list ts), w)) (fun w => (double 1, w))
  net_socket (fun _ w => (None, w)) (fun _ _ w => (None, w)) (fun _ _ w => (None, w))
  (fun _ _ w => (Some EINPROGRESS, w)) (fun _ w => (Some 0, w))
  (fun fd b w => (inl (Z.of_nat (length b)), mkNet (net_opened w) (<[fd := inbox_of fd w ++ ok_reply]> (net_inbox w)) (S (net_sent w))))
  (fun fd n w => (match inbox_of fd w with [] => inr EAGAIN | l => inl l end, mkNet (net_opened w) (<[fd := []]> (net_inbox w)) (net_sent w)))
  (fun fd w => mkNet (net_opened w ∖ {[fd]}) (net_inbox w) (net_sent w))
  (fun rd wr w => (Some (filter (fun fd => inbox_of fd w <> []) rd, wr), w)).
Definition net_start : net := mkNet ∅ ∅ 0.

(** [n] connections of [k] calls in bursts of [b], one connection after the other. *)
Definition net_param (n k b : Z) : Cmdline_Params :=
  mkParam 0x10001 (text "localhost") None 80 (text "/") fzero fzero fzero n k b false 4096 16384 false false None None 0 1.
Definition net_table : AddrTable.table unit :=
  match AddrTable.hash_enter 1024 AddrTable.empty (text "localhost") 80 tt with Ret t => t | _ => [] end.

Lemma net_laws : documented net_system net_opened (fun _ t => t = double 1000).
Proof.
  assert (R : forall w : net, same net_opened (fun _ t => t = double 1000) w w) by done.
  constructor; try done.
  - intros w. split; [done | cbn; tauto].
  - intros w. cbn. unfold net_socket. destruct (filter _ _) as [| fd l] eqn:E; [done |].
    assert (Hin : fd ∈ filter (fun fd => fd ∉ net_opened w) (seqZ 3 1021)) by (rewrite E; apply elem_of_cons; auto).
    apply list_elem_of_filter in Hin as [Hn Hr%elem_of_seqZ]. unfold FD_SETSIZE. cbn [fst snd]. split_and!; [done | lia | lia | done | done].
  - intros fd b w. cbn. split; [done | lia].
  - intros rd wr w. cbn. split; [done |]. split; [| done]. intros fd Hfd. by apply elem_of_filter in Hfd as [_ ?].
Qed.

Lemma net_short : short_lived net_system (fun _ t => t = double 1000).
Proof. intros w t ->. exists 0. split; [vm_compute; reflexivity | done]. Qed.

Lemma net_setting n k b depth rounds : 0 <= n < INT_MAX - 1 -> 0 <= k -> 1 <= b -> k + b <= INT_MAX ->
  (Z.to_nat n + 4 <= depth)%nat -> Z.of_nat rounds <= INT_MAX ->
  setting net_system (net_param n k b) net_table 0 depth rounds net_opened (fun _ t => t = double 1000).
Proof.
  intros ? ? ? ? ? ?. constructor; [| exact net_laws | exact net_short | discriminate | | assumption | assumption].
  - constructor; try assumption; [by right | done | discriminate].
  - exists (Some tt). vm_compute. reflexivity.
Qed.

Definition net_main (n k b : Z) (depth rounds : nat) : cres (st net) :=
  main net_system (net_param n k b) net_table (Some null_iov) 0 0 depth rounds net_start.
Definition net_after (n k b : Z) (depth rounds : nat) : cres (st net) :=
  after_rounds net_system (net_param n k b) net_table null_iov 0 0 depth rounds net_start.
Definition returns {X} (r : cres X) (p : X -> bool) : bool := match r with Ret x => p x | _ => false end.

(** Two connections of four calls in bursts of two end within thirty rounds. *)
Lemma test_is_safe_witness : exists s, net_main 2 4 2 6 30 = Ret s /\ finished (net_param 2 4 2) s /\ net_sent (world s) = 8%nat.
Proof.
  pose proof (net_setting 2 4 2 6 30 ltac:(done) ltac:(done) ltac:(done) ltac:(done) ltac:(lia) ltac:(done)) as Hs.
  pose proof (test_is_safe net_system (net_param 2 4 2) net_table null_iov 0 0 6 30 net_start _ _ Hs) as H.
  assert (E : returns (net_main 2 4 2 6 30) (fun s => bool_decide (net_sent (world s) = 8%nat)) = true) by (vm_compute; reflexivity).
  fold (net_main 2 4 2 6 30) in H. destruct (net_main 2 4 2 6 30) as [s | | |]; [| discriminate ..].
  exists s. split_and!; [reflexivity | exact H | exact (bool_decide_eq_true_1 _ E)].
Defined.

(** After two rounds a request is on its way. *)
Lemma select_watches_right_witness : exists s, net_after 2 4 2 6 2 = Ret s /\ watched_right s /\ rdfds s = {[3]}.
Proof.
  pose proof (net_setting 2 4 2 6 2 ltac:(done) ltac:(done) ltac:(done) ltac:(done) ltac:(lia) ltac:(done)) as Hs.
  assert (E : returns (net_after 2 4 2 6 2) (fun s => bool_decide (rdfds s = {[3]})) = true) by (vm_compute; reflexivity).
  destruct (net_after 2 4 2 6 2) as [s | | |] eqn:Es; [| discriminate ..]. unfold net_after in Es.
  exists s. split; [reflexivity |]. split; [| exact (bool_decide_eq_true_1 _ E)].
  exact (select_watches_right net_system (net_param 2 4 2) net_table null_iov 0 0 6 2 net_start _ _ s Hs Es).
Defined.

(** A burst of two calls. *)
Lemma outstanding_bounded_witness : exists s, net_after 2 4 2 6 2 = Ret s /\ size (calls_of 1 s) = 2%nat /\
  Z.of_nat (size (calls_of 1 s)) <= 2 /\ Z.of_nat (size (conns s)) <= 1.
Proof.
  pose proof (net_setting 2 4 2 6 2 ltac:(done) ltac:(done) ltac:(done) ltac:(done) ltac:(lia) ltac:(done)) as Hs.
  assert (E : returns (net_after 2 4 2 6 2) (fun s => bool_decide (size (calls_of 1 s) = 2%nat)) = true) by (vm_compute; reflexivity).
  destruct (net_after 2 4 2 6 2) as [s | | |] eqn:Es; [| discriminate ..]. unfold net_after in Es.
  pose proof (outstanding_bounded net_system (net_param 2 4 2) net_table null_iov 0 0 6 2 net_start _ _ s Hs Es) as H.
  destruct H as (H1 & _ & _ & H2).
  exists s. split_and!; [reflexivity | exact (bool_decide_eq_true_1 _ E) | exact (H1 1) | exact (H2 eq_refl)].
Defined.
End HttperfTheorems.
