(* ===== verification/LmMem.v ===== *)
(** * lmbench/src/lib_mem.c: chains of pointers through memory

    The functions that lay circular chains of pointers through a block of memory and follow
    them.  The block is a set of cells of eight bytes in a heap: a pointer is written or
    read only at an address that is aligned and inside a block that [malloc] or [valloc]
    gave and that is not free.  [pages], [lines] and [words] are arrays (lists; [NULL] is
    [None]); [held] counts the arrays that [malloc] gave and that are not free, and a [free]
    without one is undefined.  What [malloc], [valloc], [rand] and the clock answer is a record [sys]; the
    repetitions [BENCH1] chooses and the time it reports are the answer of [sys_bench]
    (LmTiming has that loop), and the stop watch and the results are those of LmTiming. *)
From S2P Require Import Prelude Doubles LmTiming LmHarness.

Module LmMem.
Import Doubles.

Definition SIZEOF_PTR : Z := 8.
Definition MAX_MEM_PARALLELISM : Z := 16.

(** [struct mem_state] *)
Record mem_state := mkMem {
  addr : Z;
  base : Z;
  p : list Z;
  initialized : bool;
  width : Z;
  len : Z;
  maxlen : Z;
  line : Z;
  pagesize : Z;
  nlines : Z;
  npages : Z;
  nwords : Z;
  pages : option (list Z);
  lines : option (list Z);
  words : option (list Z)
}.
Definition set_addr v m := mkMem v (base m) (p m) (initialized m) (width m) (len m) (maxlen m) (line m) (pagesize m) (nlines m) (npages m) (nwords m) (pages m) (lines m) (words m).
Definition set_base v m := mkMem (addr m) v (p m) (initialized m) (width m) (len m) (maxlen m) (line m) (pagesize m) (nlines m) (npages m) (nwords m) (pages m) (lines m) (words m).
Definition set_p v m := mkMem (addr m) (base m) v (initialized m) (width m) (len m) (maxlen m) (line m) (pagesize m) (nlines m) (npages m) (nwords m) (pages m) (lines m) (words m).
Definition set_initialized v m := mkMem (addr m) (base m) (p m) v (width m) (len m) (maxlen m) (line m) (pagesize m) (nlines m) (npages m) (nwords m) (pages m) (lines m) (words m).
Definition set_width v m := mkMem (addr m) (base m) (p m) (initialized m) v (len m) (maxlen m) (line m) (pagesize m) (nlines m) (npages m) (nwords m) (pages m) (lines m) (words m).
Definition set_lens l ml m := mkMem (addr m) (base m) (p m) (initialized m) (width m) l ml (line m) (pagesize m) (nlines m) (npages m) (nwords m) (pages m) (lines m) (words m).
Definition set_line v m := mkMem (addr m) (base m) (p m) (initialized m) (width m) (len m) (maxlen m) v (pagesize m) (nlines m) (npages m) (nwords m) (pages m) (lines m) (words m).
Definition set_counts nl np nw m := mkMem (addr m) (base m) (p m) (initialized m) (width m) (len m) (maxlen m) (line m) (pagesize m) nl np nw (pages m) (lines m) (words m).
Definition set_nwords v m := set_counts (nlines m) (npages m) v m.
Definition set_pages v m := mkMem (addr m) (base m) (p m) (initialized m) (width m) (len m) (maxlen m) (line m) (pagesize m) (nlines m) (npages m) (nwords m) v (lines m) (words m).
Definition set_lines v m := mkMem (addr m) (base m) (p m) (initialized m) (width m) (len m) (maxlen m) (line m) (pagesize m) (nlines m) (npages m) (nwords m) (pages m) v (words m).
Definition set_words v m := mkMem (addr m) (base m) (p m) (initialized m) (width m) (len m) (maxlen m) (line m) (pagesize m) (nlines m) (npages m) (nwords m) (pages m) (lines m) v.

(** What is not in the repository. *)
Record sys (W : Type) := mkSys {
  sys_malloc : Z -> W -> option Z * W;
  sys_valloc : Z -> W -> option Z * W;
  sys_rand : W -> Z * W;
  sys_srand : Z -> W -> W;
  sys_getpid : Z;
  sys_getppid : Z;
  sys_getpagesize : Z;
  (** [BENCH1]: how often the body ran each time, the microseconds and the count it saves. *)
  sys_bench : W -> list Z * Z * Z * W
}.
Arguments sys_malloc {W}. Arguments sys_valloc {W}. Arguments sys_rand {W}. Arguments sys_srand {W}.
Arguments sys_getpid {W}. Arguments sys_getppid {W}. Arguments sys_getpagesize {W}. Arguments sys_bench {W}.

(** The memory and the static variables of the program. *)
Record st (W : Type) := mkSt {
  cells : gmap Z Z;
  blocks : gmap Z Z;
  arrays : gmap Z (list Z);          (* the addresses that [tlb_initialize] keeps *)
  held : nat;                        (* how many arrays [malloc] gave that are not free *)
  perm_r : Z;                        (* [r] in [permutation] *)
  rerun : bool;                      (* [mem_benchmark_rerun] *)
  saves : gmap Z (Z * list Z);       (* [addr_save] and [sp] of each [mem_benchmark] *)
  tm : LmTiming.st W          (* the stop watch and the world *)
}.
Arguments mkSt {W}. Arguments cells {W}. Arguments blocks {W}. Arguments arrays {W}. Arguments held {W}. Arguments perm_r {W}. Arguments rerun {W}.
Arguments saves {W}. Arguments tm {W}.

Section Memory.
Context {W : Type}.
Implicit Types s : st W.
Definition set_cells v s := mkSt v (blocks s) (arrays s) (held s) (perm_r s) (rerun s) (saves s) (tm s).
Definition set_blocks v s := mkSt (cells s) v (arrays s) (held s) (perm_r s) (rerun s) (saves s) (tm s).
Definition set_arrays v s := mkSt (cells s) (blocks s) v (held s) (perm_r s) (rerun s) (saves s) (tm s).
Definition set_held v s := mkSt (cells s) (blocks s) (arrays s) v (perm_r s) (rerun s) (saves s) (tm s).
Definition set_perm_r v s := mkSt (cells s) (blocks s) (arrays s) (held s) v (rerun s) (saves s) (tm s).
Definition set_rerun v s := mkSt (cells s) (blocks s) (arrays s) (held s) (perm_r s) v (saves s) (tm s).
Definition set_saves v s := mkSt (cells s) (blocks s) (arrays s) (held s) (perm_r s) (rerun s) v (tm s).
Definition set_tm (v : LmTiming.st W) s : st W := mkSt (cells s) (blocks s) (arrays s) (held s) (perm_r s) (rerun s) (saves s) v.
Definition world s : W := LmTiming.world (tm s).
Definition set_world w s := set_tm (LmTiming.set_world w (tm s)) s.

(** ** Cells of memory *)
Definition in_block (bs : gmap Z Z) (a : Z) : bool :=
  existsb (fun b => (fst b <=? a) && (a + SIZEOF_PTR <=? fst b + snd b)) (map_to_list bs).
Definition accessible s (a : Z) : bool := (a mod SIZEOF_PTR =? 0) && in_block (blocks s) a.
(** The pointer [v] is written at [a]. *)
Definition store (a v : Z) s : cres (st W) :=
  if accessible s a then Ret (set_cells (<[a := v]> (cells s)) s) else Undef.
(** The pointer at [a]. *)
Definition load (a : Z) s : cres Z := if accessible s a then deref (cells s !! a) else Undef.

(** An element of an array that may be [NULL]. *)
Definition elem (o : option (list Z)) (i : Z) : cres Z := l ← deref o; deref (aget l i).
(** The value of an [int] expression. *)
Definition int (z : Z) : cres Z := if (INT_MIN <=? z) && (z <=? INT_MAX) then Ret z else Undef.
(** [1 << k] *)
Definition shl1 (k : Z) : cres Z := if (0 <=? k) && (k <? 31) then Ret (2 ^ k) else Undef.

Context (sys : sys W).

Definition malloc_block (n : Z) s : option Z * st W :=
  let '(r, w) := sys_malloc sys n (world s) in
  let s := set_world w s in
  match r with
  | Some a => (Some a, set_blocks (<[a := n]> (blocks s)) s)
  | None => (None, s)
  end.
Definition valloc_block (n : Z) s : option Z * st W :=
  let '(r, w) := sys_valloc sys n (world s) in
  let s := set_world w s in
  match r with
  | Some a => (Some a, set_blocks (<[a := n]> (blocks s)) s)
  | None => (None, s)
  end.
Definition free (a : Z) s : cres (st W) :=
  match blocks s !! a with Some _ => Ret (set_blocks (delete a (blocks s)) s) | None => Undef end.
(** One array more is allocated; one is given back. *)
Definition one_more s : st W := set_held (S (held s)) s.
Definition one_less s : cres (st W) := match held s with O => Undef | S k => Ret (set_held k s) end.
(** An array of [max] words of memory, or [NULL]. *)
Definition malloc_array (max : Z) s : option (list Z) * st W :=
  let n := u64 (max * 8) in
  let '(r, w) := sys_malloc sys n (world s) in
  let s := set_world w s in
  match r with
  | Some _ => (Some (replicate (Z.to_nat (n / 8)) 0), one_more s)
  | None => (None, s)
  end.
(** [if (a) { free (a); a = NULL; }] *)
Definition free_array (a : option (list Z)) s : cres (st W) :=
  match a with Some _ => one_less s | None => Ret s end.
Definition rand s : Z * st W := let '(r, w) := sys_rand sys (world s) in (r, set_world w s).
Definition srand (seed : Z) s : st W := set_world (sys_srand sys seed (world s)) s.

(** ** [words_initialize]: the bits of the index reversed *)
Fixpoint count_bits (fuel : nat) (i nbits : Z) : cres Z :=
  if i =? 0 then Ret nbits
  else match fuel with O => NoFuel | S fuel => count_bits fuel (Z.shiftr i 1) (nbits + 1) end.

Definition reverse_bits (nbits i : Z) : cres Z :=
  for_c 0 nbits (fun j w =>
    b ← shl1 j;
    if Z.land i b =? 0 then Ret w else c ← shl1 (nbits - j - 1); Ret (Z.lor w c)) 0.

Definition words_initialize (max scale : Z) s : cres (option (list Z) * st W) :=
  let '(r, s) := malloc_array max s in
  match r with
  | None => Ret (None, s)
  | Some ws =>
      nbits ← count_bits 64 (Z.shiftr max 1) 0;
      ws ← for_c 0 max (fun i ws => w ← reverse_bits nbits i; deref (aset ws i (u64 (w * scale)))) ws;
      Ret (Some ws, s)
  end.

(** ** [permutation] of lib_timing.c *)
(** The [int] seed; [<<] of an [int] drops the bits above. *)
Definition perm_seed s : Z * st W :=
  let '(r1, s) := rand s in
  let '(r2, s) := rand s in
  (u64 (Z.lxor (Z.lxor (Z.lxor (i32 (sys_getpid sys * 2 ^ 6)) (sys_getppid sys)) r1) (i32 (r2 * 2 ^ 10))), s).

Definition perm_step (max i : Z) (x : list Z * st W) : cres (list Z * st W) :=
  let '(result, s) := x in
  let '(k, s) := rand s in
  let r := Z.lxor (u64 (perm_r s * 2)) (u64 k) in
  let o := r mod max in
  v ← deref (aget result o);
  vi ← deref (aget result i);
  result ← deref (aset result o vi);
  result ← deref (aset result i v);
  Ret (result, set_perm_r r s).

Definition permutation (max scale : Z) s : cres (option (list Z) * st W) :=
  let '(r, s) := malloc_array max s in
  match r with
  | None => Ret (None, s)
  | Some result =>
      result ← for_c 0 max (fun i result => deref (aset result i (u64 (i * scale)))) result;
      let s := if perm_r s =? 0 then let '(seed, s) := perm_seed s in set_perm_r seed s else s in
      '(result, s) ← for_c 0 max (perm_step max) (result, s);
      Ret (Some result, s)
  end.

(** ** The block and the order of its pages *)
(** [a / b] of [size_t]. *)
Definition udiv (a b : Z) : cres Z := if b =? 0 then Undef else Ret (a / b).
Definition umod (a b : Z) : cres Z := if b =? 0 then Undef else Ret (a mod b).
Definition mem_reset s : st W := set_rerun false s.

Definition base_initialize (iterations : Z) (m : mem_state) s : cres (mem_state * st W) :=
  if negb (iterations =? 0) then Ret (m, s)
  else
    let m := set_initialized false m in
    let nw := line m / SIZEOF_PTR in
    nl ← udiv (pagesize m) (line m);
    np ← udiv (u64 (len m + pagesize m - 1)) (pagesize m);
    nmpages ← udiv (u64 (maxlen m + pagesize m - 1)) (pagesize m);
    let s := srand (sys_getpid sys) s in
    '(pgs, s) ← permutation nmpages (pagesize m) s;
    let '(a, s) := malloc_block (u64 (maxlen m + 2 * pagesize m)) s in
    match a with
    | None => Exit 1
    | Some a =>
        let m := set_addr a (set_words None (set_pages pgs (set_lines None (set_counts nl np nw m)))) in
        match pgs with
        | None => Ret (m, s)
        | Some _ =>
            let r := a mod pagesize m in
            let b := if r =? 0 then a else a + (pagesize m - r) in
            Ret (set_initialized true (set_base b m), mem_reset s)
        end
    end.

Definition mem_cleanup (iterations : Z) (m : mem_state) s : cres (mem_state * st W) :=
  if negb (iterations =? 0) then Ret (m, s)
  else
    s ← (if addr m =? 0 then Ret s else free (addr m) s);
    s ← free_array (lines m) s;
    s ← free_array (pages m) s;
    s ← free_array (words m) s;
    Ret (set_words None (set_pages None (set_lines None (set_addr 0 m))), s).

(** ** Following the chains *)
(** [n] times [p = *p] for each of the pointers. *)
Fixpoint chase (n : nat) (ps : list Z) s : cres (list Z) :=
  match n with O => Ret ps | S n => ps ← mapM (fun a => load a s) ps; chase n ps s end.

(** [mem_benchmark_N] *)
Definition mem_benchmark (N iterations : Z) (m : mem_state) s : cres (st W) :=
  let '(saved, sp) := default (0, []) (saves s !! N) in
  let ps := if rerun s && (saved =? addr m) then sp else take (Z.to_nat (N + 1)) (p m) in
  ps ← chase (Z.to_nat (iterations * 100)) ps s;
  Ret (set_rerun true (set_saves (<[N := (addr m, ps)]> (saves s)) s)).

(** A call through the table [mem_benchmarks]. *)
Definition mem_benchmarks (i iterations : Z) (m : mem_state) s : cres (st W) :=
  if (0 <=? i) && (i <? MAX_MEM_PARALLELISM) then mem_benchmark i iterations m s else Undef.

Definition put_p (k v : Z) (m : mem_state) : cres mem_state :=
  l ← deref (aset (p m) k v); Ret (set_p l m).

(** ** [stride_initialize] *)
Fixpoint stride_loop (fuel : nat) (a range stride i : Z) s : cres (Z * st W) :=
  if i <? range then
    match fuel with
    | O => NoFuel
    | S fuel => s ← store (a + (i - stride)) (a + i) s; stride_loop fuel a range stride (u64 (i + stride)) s
    end
  else Ret (i, s).
Definition stride_initialize (iterations : Z) (m : mem_state) s : cres (mem_state * st W) :=
  let range := len m in
  let stride := line m in
  '(m, s) ← base_initialize iterations m s;
  if negb (initialized m) then Ret (m, s)
  else
    let a := base m in
    '(i, s) ← stride_loop (Z.to_nat range) a range stride stride s;
    s ← store (a + u64 (i - stride)) a s;
    m ← put_p 0 a m;
    Ret (m, mem_reset s).

(** ** [thrash_initialize] *)
(** A link from word [i + j] of page [cpage] to the word [next] of page [npage]. *)
Definition thrash_link (a nw cpage npage i next : Z) (ws : option (list Z)) (j : Z) s : cres (st W) :=
  k ← umod (i + j) nw;
  c ← elem ws k;
  k ← umod next nw;
  n ← elem ws k;
  store (a + (cpage + c)) (a + (npage + n)) s.

Definition thrash_initialize (iterations : Z) (m : mem_state) s : cres (mem_state * st W) :=
  '(m, s) ← base_initialize iterations m s;
  if negb (initialized m) then Ret (m, s)
  else
    let a := base m in
    r ← umod (len m) (pagesize m);
    if negb (r =? 0) then
      nw ← udiv (len m) (line m);
      let m := set_nwords nw m in
      '(ws, s) ← words_initialize nw (i32 (line m)) s;
      let m := set_words ws m in
      match ws with
      | None => Exit 1
      | Some _ =>
          let last := u64 (nw - 1) in
          s ← for_c 0 last (fun i s => c ← elem ws i; n ← elem ws (i + 1); store (a + c) (a + n) s) s;
          c ← elem ws last;
          s ← store (a + c) a s;
          m ← put_p 0 a m;
          Ret (m, mem_reset s)
      end
    else
      nw ← udiv (pagesize m) (line m);
      let m := set_nwords nw m in
      '(ws, s) ← words_initialize nw (i32 (line m)) s;
      let m := set_words ws m in
      match ws with
      | None => Exit 2
      | Some _ =>
          let last := u64 (npages m - 1) in
          s ← for_c 0 last (fun i s =>
                cpage ← elem (pages m) i;
                npage ← elem (pages m) (i + 1);
                for_c 0 nw (fun j s => thrash_link a nw cpage npage i (i + j + 1) ws j s) s) s;
          cpage ← elem (pages m) last;
          npage ← elem (pages m) 0;
          s ← for_c 0 nw (fun j s => thrash_link a nw cpage npage last (j + 1) ws j s) s;
          m ← put_p 0 (a + npage) m;
          Ret (m, mem_reset s)
      end.

(** ** [mem_initialize] *)
(** The pointers of line [j] of page [i] are linked to those of line [j + 1]. *)
Definition mem_link_line (m : mem_state) (i j : Z) s : cres (st W) :=
  for_c 0 ((line m + SIZEOF_PTR - 1) / SIZEOF_PTR) (fun t s =>
    pg ← elem (pages m) i;
    l0 ← elem (lines m) j;
    l1 ← elem (lines m) (j + 1);
    store (base m + pg + l0 + SIZEOF_PTR * t) (base m + pg + l1 + SIZEOF_PTR * t) s) s.
(** [state->p[k]] is set when the [l]-th line begins a new stretch. *)
Definition mem_place (npointers nw i j l : Z) (m : mem_state) : cres mem_state :=
  if width m =? 0 then Undef
  else
    let q := Z.quot npointers (width m) in
    if q =? 0 then Undef
    else if (Z.rem l q =? 0) && (Z.quot l q <? MAX_MEM_PARALLELISM) then
      let k := Z.quot l q in
      if nw =? 0 then Undef
      else
        pg ← elem (pages m) i;
        lj ← elem (lines m) j;
        w ← elem (words m) (Z.rem k nw);
        put_p k (base m + pg + lj + w) m
    else Ret m.
Fixpoint mem_page (fuel : nat) (npointers nw nl i j l : Z) (m : mem_state) s : cres (Z * Z * mem_state * st W) :=
  if (j <? nl - 1) && (l <? npointers - 1) then
    match fuel with
    | O => NoFuel
    | S fuel =>
        s ← mem_link_line m i j s;
        m ← mem_place npointers nw i j l m;
        mem_page fuel npointers nw nl i (j + 1) (l + 1) m s
    end
  else Ret (j, l, m, s).
(** The last line of page [i] is linked to the first of the next page. *)
Definition mem_link_page (m : mem_state) (nw i j : Z) s : cres (st W) :=
  for_c 0 nw (fun k s =>
    pg ← elem (pages m) i;
    lj ← elem (lines m) j;
    w ← elem (words m) k;
    pg1 ← elem (pages m) (i + 1);
    l0 ← elem (lines m) 0;
    store (base m + pg + lj + w) (base m + pg1 + l0 + w) s) s.
Fixpoint mem_pages (n : nat) (npointers nw nl np i j l : Z) (m : mem_state) s : cres (Z * mem_state * st W) :=
  match n with
  | O => Ret (j, m, s)
  | S n =>
      '(j, l, m, s) ← mem_page (Z.to_nat (nl - 1)) npointers nw nl i 0 l m s;
      s ← (if i <? np - 1 then mem_link_page m nw i j s else Ret s);
      mem_pages n npointers nw nl np (i + 1) j l m s
  end.
(** The last line is linked to the next word of the first line. *)
Definition mem_close (m : mem_state) (nw np j : Z) s : cres (st W) :=
  for_c 0 nw (fun k s =>
    let nx := if k =? nw - 1 then 0 else k + 1 in
    pg ← elem (pages m) (np - 1);
    lj ← elem (lines m) j;
    w ← elem (words m) k;
    pg0 ← elem (pages m) 0;
    l0 ← elem (lines m) 0;
    w1 ← elem (words m) nx;
    store (base m + pg + lj + w) (base m + pg0 + l0 + w1) s) s.

Definition mem_initialize (iterations : Z) (m : mem_state) s : cres (mem_state * st W) :=
  if negb (iterations =? 0) then Ret (m, s)
  else
    '(m, s) ← base_initialize iterations m s;
    if negb (initialized m) then Ret (m, s)
    else
      let m := set_initialized false m in
      q ← udiv (len m) (line m);
      let npointers := i32 q in
      let nw := i32 (nwords m) in
      let nl := i32 (nlines m) in
      let np := i32 (npages m) in
      '(ws, s) ← words_initialize (u64 nw) SIZEOF_PTR s;
      '(ls, s) ← words_initialize (u64 nl) (i32 (line m)) s;
      let m := set_lines ls (set_words ws m) in
      match ws, ls with
      | Some _, Some _ =>
          '(j, m, s) ← mem_pages (Z.to_nat np) npointers nw nl np 0 (nl - 1) 0 m s;
          s ← mem_close m nw np j s;
          let s := mem_reset s in
          a ← int (nw * npointers);
          a ← int (a + 100);
          s ← mem_benchmarks (width m - 1) (u64 (Z.quot a 100)) m s;
          Ret (set_initialized true m, s)
      | _, _ => Exit 1
      end.

(** ** [line_initialize] *)
Definition line_page (m : mem_state) (nl np i : Z) s : cres (st W) :=
  s ← for_c 0 (nl - 1) (fun j s =>
        pg ← elem (pages m) i;
        l0 ← elem (lines m) j;
        l1 ← elem (lines m) (j + 1);
        store (base m + pg + l0) (base m + pg + l1) s) s;
  pg ← elem (pages m) i;
  lj ← elem (lines m) (Z.max 0 (nl - 1));
  pg1 ← elem (pages m) (if i <? np - 1 then i + 1 else 0);
  l0 ← elem (lines m) 0;
  store (base m + pg + lj) (base m + pg1 + l0) s.
Definition line_initialize (iterations : Z) (m : mem_state) s : cres (mem_state * st W) :=
  if negb (iterations =? 0) then Ret (m, s)
  else
    '(m, s) ← base_initialize iterations m s;
    if negb (initialized m) then Ret (m, s)
    else
      let m := set_initialized false m in
      let nl := i32 (nlines m) in
      let np := i32 (npages m) in
      '(ls, s) ← words_initialize (u64 nl) (i32 (line m)) s;
      let m := set_width 1 (set_lines ls m) in
      match ls with
      | None => Ret (m, s)
      | Some _ =>
          s ← for_c 0 np (line_page m nl np) s;
          pg ← elem (pages m) 0;
          l0 ← elem (lines m) 0;
          m ← put_p 0 (base m + pg + l0) m;
          let s := mem_reset s in
          a ← int (nl * np);
          a ← int (a + 100);
          s ← mem_benchmark 0 (u64 (Z.quot a 100)) m s;
          Ret (set_initialized true m, s)
      end.

(** ** [tlb_initialize] *)
(** The pages: where they begin, and what [free] is to be given. *)
Fixpoint tlb_pages (n : nat) (pgsize : Z) (pgs ads : list Z) s : cres (list Z * list Z * st W) :=
  match n with
  | O => Ret (pgs, ads, s)
  | S n =>
      let '(r, s) := valloc_block pgsize s in
      match r with
      | None => Exit 4
      | Some a =>
          k ← umod a pgsize;
          if k =? 0 then tlb_pages n pgsize (pgs ++ [a]) (ads ++ [a]) s
          else
            s ← free a s;
            let '(r, s) := valloc_block (u64 (2 * pgsize)) s in
            match r with
            | None => Exit 5
            | Some a => tlb_pages n pgsize (pgs ++ [a + (pgsize - a mod pgsize)]) (ads ++ [a]) s
            end
      end
  end.
(** [for (i = npages - 2; i > 0; --i)] *)
Fixpoint tlb_shuffle (i : nat) (r : Z) (pgs : list Z) s : cres (list Z * st W) :=
  match i with
  | O => Ret (pgs, s)
  | S i' =>
      let '(k, s) := rand s in
      let r := Z.lxor (u32 (r * 2)) (u32 (Z.shiftr k 4)) in
      let o := r mod Z.of_nat i + 1 in
      l ← deref (aget pgs o);
      v ← deref (aget pgs (Z.of_nat i + 1));
      pgs ← deref (aset pgs o v);
      pgs ← deref (aset pgs (Z.of_nat i + 1) l);
      tlb_shuffle i' r pgs s
  end.
Definition tlb_initialize (iterations : Z) (m : mem_state) s : cres (mem_state * st W) :=
  if negb (iterations =? 0) then Ret (m, s)
  else
    let m := set_initialized false m in
    let pgsize := i32 (pagesize m) in
    let nl := i32 (u64 pgsize / SIZEOF_PTR) in
    q ← udiv (len m) (u64 pgsize);
    let np := i32 q in
    let s := srand (u32 (Z.lxor (sys_getpid sys) (i32 (sys_getppid sys * 2 ^ 7)))) s in
    '(ls, s) ← words_initialize (u64 nl) SIZEOF_PTR s;
    let '(pgs, s) := malloc_array (u64 np) s in
    let '(a, w) := sys_malloc sys (u64 (u64 np * 8)) (world s) in
    let s := set_world w s in
    match ls, pgs, a with
    | Some lns, Some _, Some a =>
        '(pgs, ads, s) ← tlb_pages (Z.to_nat np) pgsize [] [] s;
        let s := set_arrays (<[a := ads]> (arrays s)) s in
        let '(r1, s) := rand s in
        let '(r2, s) := rand s in
        '(pgs, s) ← tlb_shuffle (Z.to_nat (np - 2)) (u32 (Z.lxor (i32 (r1 * 2 ^ 15)) r2)) pgs s;
        let m := set_addr a (set_pages (Some pgs) (set_lines ls (set_words None (set_counts nl np 1 m)))) in
        let link i j s :=
          pg ← elem (pages m) i;
          k ← umod i nl;
          l0 ← elem ls k;
          pg1 ← elem (pages m) j;
          k ← umod j nl;
          l1 ← elem ls k;
          store (pg + l0) (pg1 + l1) s in
        s ← for_c 0 (np - 1) (fun i s => link i (i + 1) s) s;
        s ← link (Z.max 0 (np - 1)) 0 s;
        pg ← elem (pages m) 0;
        l0 ← elem ls 0;
        m ← put_p 0 (pg + l0) m;
        a ← int (np + 100);
        s ← mem_benchmark 0 (u64 (Z.quot a 100)) m (mem_reset s);
        Ret (set_initialized true m, s)
    | _, _, _ => Exit 1
    end.

Definition tlb_cleanup (iterations : Z) (m : mem_state) s : cres (mem_state * st W) :=
  if negb (iterations =? 0) then Ret (m, s)
  else
    '(m, s) ← (if addr m =? 0 then Ret (m, s)
               else
                 s ← for_c 0 (npages m) (fun i s =>
                       a ← elem (arrays s !! addr m) i;
                       if a =? 0 then Ret s else free a s) s;
                 _ ← deref (arrays s !! addr m);
                 Ret (set_addr 0 m, set_arrays (delete (addr m) (arrays s)) s));
    s ← free_array (pages m) s;
    s ← free_array (lines m) s;
    Ret (set_lines None (set_pages None m), s).

(** ** Measurements *)
Definition feqb (x y : spec_float) : bool := SFeqb x y.
Definition tenths (k : Z) : spec_float := fdiv (double k) (double 10).
(** [BENCH1 (body, 0)]: the body sees how often it is to be repeated. *)
Fixpoint run_body {X} (body : Z -> X -> st W -> cres (X * st W)) (runs : list Z) (x : X) s : cres (X * st W) :=
  match runs with
  | [] => Ret (x, s)
  | n :: runs => '(x, s) ← body n x s; run_body body runs x s
  end.
Definition bench1 {X} (body : Z -> X -> st W -> cres (X * st W)) (x : X) s : cres (X * st W) :=
  let '(runs, u, n, w) := sys_bench sys (world s) in
  '(x, s) ← run_body body runs x (set_world w s);
  Ret (x, set_tm (LmTiming.settime u (LmTiming.save_n n (tm s))) s).
Definition gettime s : Z := LmTiming.gettime (tm s).
Definition get_n s : Z := LmTiming.get_n (tm s).
Definition get_results s : LmTiming.result := LmTiming.results (tm s).
Definition set_results (r : LmTiming.result) s : cres (st W) := t ← LmTiming.set_results r (tm s); Ret (set_tm t s).
Definition save_minimum s : cres (st W) := t ← LmTiming.save_minimum (tm s); Ret (set_tm t s).

(** [n] times [BENCH1] and [insertsort]. *)
Fixpoint sample {X} (n : nat) (body : Z -> X -> st W -> cres (X * st W)) (r : LmTiming.result) (x : X) s :
    cres (LmTiming.result * X * st W) :=
  match n with
  | O => Ret (r, x, s)
  | S n =>
      '(x, s) ← bench1 body x s;
      r ← LmTiming.insertsort (gettime s) (get_n s) r;
      sample n body r x s
  end.

(** ** [line_test]: only the first lines of a page are visited for a while *)
(** The last line that is visited on each page is linked to the page [nx i], line [k]. *)
Definition line_relink (m : mem_state) (last k : Z) (nx : Z -> Z) s : cres (st W) :=
  let link i s :=
    pg ← elem (pages m) i;
    l0 ← elem (lines m) last;
    pg1 ← elem (pages m) (nx i);
    l1 ← elem (lines m) k;
    store (base m + pg + l0) (base m + pg1 + l1) s in
  if npages m =? 0 then Undef else for_c 0 (npages m) link s.
Definition hundred_derefs (n : Z) (q : list Z) s : cres (list Z * st W) := q ← chase (Z.to_nat (100 * n)) q s; Ret (q, s).
Definition line_test (ln repetitions : Z) (m : mem_state) s : cres (spec_float * st W) :=
  nl ← udiv (pagesize m) ln;
  pg ← elem (pages m) 0;
  l0 ← elem (lines m) 0;
  let first := base m + pg + l0 in
  let repetitions := if repetitions <? 0 then LmTiming.TRIES else repetitions in
  s ← (if nl <? nlines m then line_relink m (nl - 1) 0 (fun i => if i <? npages m - 1 then i + 1 else 0) s else Ret s);
  let r_save := get_results s in
  let '(a, w) := sys_malloc sys (LmHarness.sizeof_result repetitions) (world s) in
  let s := set_world w s in
  match a with
  | None => Exit 1
  | Some _ =>
      let s := one_more s in
      '(r, _, s) ← sample (Z.to_nat repetitions) hundred_derefs (LmTiming.new_result repetitions) [first] s;
      s ← set_results r s;
      let t := fdiv (fmul (double 10) (double (gettime s))) (double (get_n s)) in
      s ← set_results r_save s;
      s ← one_less s;
      s ← (if nl <? nlines m then line_relink m (nl - 1) nl (fun i => i) s else Ret s);
      Ret (t, s)
  end.

(** ** [line_find] *)
Fixpoint line_init (fuel : nat) (ln : Z) (m : mem_state) s : cres (mem_state * st W) :=
  if (addr m =? 0) && negb (ln =? 0) then
    match fuel with
    | O => NoFuel
    | S fuel =>
        '(m, s) ← line_initialize 0 (set_lens ln ln m) s;
        line_init fuel (if addr m =? 0 then Z.shiftr ln 1 else ln) m s
    end
  else Ret (m, s).
Fixpoint line_scan (fuel : nat) (repetitions maxline i : Z) (big_jump : bool) (baseline : spec_float)
    (m : mem_state) s : cres (Z * st W) :=
  if i <=? maxline then
    match fuel with
    | O => NoFuel
    | S fuel =>
        '(t, s) ← line_test i repetitions m s;
        if feqb t fzero then Ret (0, s)
        else if SIZEOF_PTR <? i then
          if fltb (fmul (tenths 13) baseline) t then line_scan fuel repetitions maxline (2 * i) true t m s
          else if big_jump && fltb t (fmul (LmTiming.hundredths 115) baseline) then Ret (Z.shiftr i 1, s)
          else line_scan fuel repetitions maxline (2 * i) big_jump t m s
        else line_scan fuel repetitions maxline (2 * i) big_jump t m s
    end
  else Ret (0, s).
Definition line_find (ln repetitions : Z) (m : mem_state) s : cres (Z * mem_state * st W) :=
  let maxline := sys_getpagesize sys / 16 in
  let repetitions := if repetitions <? 0 then LmTiming.TRIES else repetitions in
  '(m, s) ← line_init 65 ln (set_addr 0 (set_line SIZEOF_PTR (set_width 1 m))) s;
  if addr m =? 0 then Ret (-1, m, s)
  else
    '(l, s) ← line_scan 64 repetitions maxline SIZEOF_PTR false fzero m s;
    '(m, s) ← mem_cleanup 0 m s;
    Ret (l, m, s).

(** ** [par_mem] *)
(** The [i + 1] pointers are spread over the chain. *)
Definition par_spread (ln i : Z) (m : mem_state) s : cres mem_state :=
  for_c 0 (i + 1) (fun j m =>
    nl ← udiv ln (line m);
    let lines_per_chunk := nl / (i + 1) in
    lpp ← udiv (pagesize m) (line m);
    let l := j * lines_per_chunk in
    let w := (j * nwords m) / (i + 1) in
    q ← udiv l lpp;
    pg ← elem (pages m) q;
    r ← umod l lpp;
    lj ← elem (lines m) r;
    k ← umod w (nwords m);
    wk ← elem (words m) k;
    put_p j (base m + pg + lj + wk) m) m.
Definition bench_body (i : Z) (m : mem_state) (n : Z) (x : unit) s : cres (unit * st W) :=
  s ← mem_benchmarks i n m s; Ret (tt, s).
(** [BENCH]: the times of zero microseconds are left out. *)
Fixpoint bench (n : nat) (i : Z) (m : mem_state) (r : LmTiming.result) s : cres (LmTiming.result * st W) :=
  match n with
  | O => Ret (r, s)
  | S n =>
      '(_, s) ← bench1 (bench_body i m) tt s;
      r ← (if 0 <? gettime s then LmTiming.insertsort (gettime s) (get_n s) r else Ret r);
      bench n i m r s
  end.
Fixpoint par_loop (fuel : nat) (i ln : Z) (baseline max_par : spec_float) (m : mem_state) s :
    cres (spec_float * mem_state * st W) :=
  match fuel with
  | O => Ret (max_par, m, s)
  | S fuel =>
      m ← par_spread ln i m s;
      s ← mem_benchmarks i ((ln / SIZEOF_PTR + 100) / 100) m (mem_reset s);
      s ← mem_benchmarks i 1 m s;
      '(r, s) ← bench (Z.to_nat LmTiming.TRIES) i m (LmTiming.new_result LmTiming.TRIES) s;
      let s := set_tm (LmTiming.put_results r (tm s)) s in
      if i =? 0 then
        par_loop fuel (i + 1) ln (fdiv (double (gettime s)) (double (get_n s))) max_par m s
      else if 0 <? gettime s then
        let par := fdiv baseline (fdiv (double (gettime s)) (double (u64 ((i + 1) * get_n s)))) in
        let max_par := if fltb max_par par then par else max_par in
        if fltb (fmul (double 4) max_par) (double i) then Ret (max_par, m, s)
        else par_loop fuel (i + 1) ln baseline max_par m s
      else par_loop fuel (i + 1) ln baseline max_par m s
  end.
Fixpoint mem_init (fuel : nat) (ln : Z) (m : mem_state) s : cres (Z * mem_state * st W) :=
  if (addr m =? 0) && negb (ln =? 0) then
    match fuel with
    | O => NoFuel
    | S fuel =>
        '(m, s) ← mem_initialize 0 (set_lens ln ln m) s;
        mem_init fuel (if addr m =? 0 then Z.shiftr ln 1 else ln) m s
    end
  else Ret (ln, m, s).
Definition par_mem (ln : Z) (m : mem_state) s : cres (spec_float * mem_state * st W) :=
  '(ln, m, s) ← mem_init 65 ln (set_addr 0 (set_width 1 m)) s;
  if addr m =? 0 then Ret (double (-1), m, s)
  else
    '(r, m, s) ← par_loop (Z.to_nat MAX_MEM_PARALLELISM) 0 ln fzero (double 1) m s;
    '(m, s) ← mem_cleanup 0 m s;
    Ret (r, m, s).
End Memory.
End LmMem.
