(* ===== verification/LmMemWords.v ===== *)
(** * lmbench/src/lib_mem.c: orders of words and pages, and circular chains

    Module LmMemWords: [words_initialize] orders the words of a line by their index with the
    bits reversed, and [permutation] shuffles the pages; when the number of words is a power
    of two, both give every word and every page once.  Module LmMemChain: what it means that a
    list of addresses is a circular chain of pointers ([ring]), what following it gives, and
    how a loop that stores links builds one. *)
From S2P Require Import Prelude LmTiming LmMem.

Module LmMemWords.
Import LmMem.

(** ** Filling an array *)
Lemma aset_prefix {A} (f : Z -> A) (l : list A) k x :
  0 <= k < Z.of_nat (length l) ->
  (forall i, 0 <= i < k -> aget l i = Some (f i)) -> x = f k ->
  exists l', aset l k x = Some l' /\ length l' = length l /\ forall i, 0 <= i < k + 1 -> aget l' i = Some (f i).
Proof.
  intros Hk Hl ->. destruct (aset l k (f k)) as [l' |] eqn:E; [| by rewrite aset_Some in E].
  exists l'. split_and!; [done | by eapply length_aset |]. intros i Hi. destruct (decide (i = k)) as [-> | Hne].
  - by eapply aget_aset_eq.
  - rewrite (aget_aset_ne _ _ _ _ _ E) by done. apply Hl. lia.
Qed.

Lemma fill_array {A} (f : Z -> A) (step : Z -> list A -> cres (list A)) n (l : list A) :
  0 <= n -> Z.of_nat (length l) = n ->
  (forall i l, 0 <= i < n -> step i l = deref (aset l i (f i))) ->
  for_c 0 n step l = Ret (f <$> seqZ 0 n).
Proof.
  intros Hn Hl Hs.
  destruct (for_c_inv (fun k t => Z.of_nat (length t) = n /\ forall i, 0 <= i < k -> aget t i = Some (f i)) 0 n step l)
    as (l' & -> & Hlen & Hget); [done | split; [done | lia] | |].
  { intros k t Hk [Ht Hg]. rewrite Hs by done. destruct (aset_prefix f t k (f k)) as (t' & -> & Hl' & Hg'); try done; [lia |].
    exists t'. split; [done |]. split; [lia | done]. }
  f_equal. apply list_eq. intros i. rewrite list_lookup_fmap. destruct (decide (Z.of_nat i < n)) as [Hi | Hi].
  - specialize (Hget (Z.of_nat i) ltac:(lia)). unfold aget in Hget. destruct (Z.leb_spec 0 (Z.of_nat i)); [| lia].
    rewrite Nat2Z.id in Hget. by rewrite Hget, lookup_seqZ_lt by lia.
  - rewrite lookup_ge_None_2 by lia. by rewrite lookup_seqZ_ge by lia.
Qed.

(** ** Reversed bits *)
Lemma reverse_bits_spec nbits i : 0 <= nbits <= 31 ->
  exists w, reverse_bits nbits i = Ret w /\ forall k, 0 <= k -> Z.testbit w k = (k <? nbits) && Z.testbit i (nbits - 1 - k).
Proof.
  intros Hn. unfold reverse_bits. set (P := fun j w => forall k, 0 <= k -> Z.testbit w k = (nbits - j <=? k) && (k <? nbits) && Z.testbit i (nbits - 1 - k)).
  destruct (for_c_inv P 0 nbits (fun j w => b ← shl1 j; if Z.land i b =? 0 then Ret w else c ← shl1 (nbits - j - 1); Ret (Z.lor w c)) 0)
    as (w & E & Hw); [lia | | |].
  - intros k Hk. rewrite Z.bits_0. destruct (Z.leb_spec (nbits - 0) k), (Z.ltb_spec k nbits); try done; lia.
  - intros j w Hj Hw. unfold shl1. destruct (Z.leb_spec 0 j), (Z.ltb_spec j 31); try lia. cbn [andb]. rewrite bind_Ret.
    assert (B : Z.testbit i j = negb (Z.land i (2 ^ j) =? 0)).
    { destruct (Z.eqb_spec (Z.land i (2 ^ j)) 0) as [E | E]; cbn.
      - assert (X : Z.testbit (Z.land i (2 ^ j)) j = false) by (by rewrite E, Z.bits_0). rewrite Z.land_spec, Z.pow2_bits_true, andb_true_r in X by lia. done.
      - destruct (Z.testbit i j) eqn:Eb; [done | exfalso]. apply E. apply Z.bits_inj'. intros k Hk. rewrite Z.land_spec, Z.bits_0.
        destruct (decide (k = j)) as [-> | Hne]; [by rewrite Eb | rewrite Z.pow2_bits_false by lia; apply andb_false_r]. }
    destruct (Z.leb_spec 0 (nbits - j - 1)), (Z.ltb_spec (nbits - j - 1) 31); try lia. cbn [andb].
    destruct (Z.land i (2 ^ j) =? 0); cbn in B; eexists; (split; [reflexivity |]); intros k Hk.
    + rewrite (Hw k Hk). destruct (Z.leb_spec (nbits - j) k), (Z.leb_spec (nbits - (j + 1)) k), (Z.ltb_spec k nbits); try lia; try done.
      cbn. symmetry. replace (nbits - 1 - k) with j by lia. done.
    + rewrite Z.lor_spec, (Hw k Hk). destruct (decide (k = nbits - j - 1)) as [-> | Hne].
      * rewrite Z.pow2_bits_true by lia. replace (nbits - 1 - (nbits - j - 1)) with j by lia. rewrite B.
        destruct (Z.leb_spec (nbits - j) (nbits - j - 1)), (Z.leb_spec (nbits - (j + 1)) (nbits - j - 1)), (Z.ltb_spec (nbits - j - 1) nbits); lia || done.
      * rewrite Z.pow2_bits_false, orb_false_r by lia.
        destruct (Z.leb_spec (nbits - j) k), (Z.leb_spec (nbits - (j + 1)) k); try done; lia.
  - exists w. split; [exact E |]. intros k Hk. rewrite (Hw k Hk). destruct (Z.leb_spec (nbits - nbits) k); [done | lia].
Qed.

(** The reversal as a function. *)
Definition rev_bits (n i : Z) : Z := match reverse_bits n i with Ret w => w | _ => 0 end.
Lemma rev_bits_spec n i k : 0 <= n <= 31 -> 0 <= k -> Z.testbit (rev_bits n i) k = (k <? n) && Z.testbit i (n - 1 - k).
Proof. intros Hn Hk. unfold rev_bits. destruct (reverse_bits_spec n i Hn) as (w & -> & Hw). by apply Hw. Qed.
Lemma reverse_bits_eq n i : 0 <= n <= 31 -> reverse_bits n i = Ret (rev_bits n i).
Proof. intros Hn. unfold rev_bits. by destruct (reverse_bits_spec n i Hn) as (w & -> & _). Qed.

Lemma rev_bits_range n i : 0 <= n <= 31 -> 0 <= rev_bits n i < 2 ^ n.
Proof.
  intros Hn. assert (H0 : 0 <= rev_bits n i).
  { apply Z.bits_iff_nonneg_ex. exists n. intros k Hk. rewrite rev_bits_spec by lia. destruct (Z.ltb_spec k n); [lia | done]. }
  split; [done |]. apply bits_bound; [lia | done |]. intros k Hk. rewrite rev_bits_spec by lia. destruct (Z.ltb_spec k n); [lia | done].
Qed.
Lemma rev_rev_bits n i : 0 <= n <= 31 -> 0 <= i < 2 ^ n -> rev_bits n (rev_bits n i) = i.
Proof.
  intros Hn Hi. apply Z.bits_inj'. intros k Hk. rewrite rev_bits_spec by lia. destruct (Z.ltb_spec k n); cbn.
  - rewrite rev_bits_spec by lia. destruct (Z.ltb_spec (n - 1 - k) n); [| lia]. cbn. f_equal. lia.
  - symmetry. apply (testbit_above n); lia.
Qed.
Lemma rev_bits_0 n : 0 <= n <= 31 -> rev_bits n 0 = 0.
Proof. intros Hn. apply Z.bits_inj'. intros k Hk. rewrite rev_bits_spec, !Z.bits_0 by lia. apply andb_false_r. Qed.

Lemma count_bits_spec fuel : forall i k, 0 <= i < 2 ^ Z.of_nat fuel ->
  count_bits fuel i k = Ret (k + if i =? 0 then 0 else Z.log2 i + 1).
Proof.
  induction fuel as [| fuel IH]; intros i k Hi; cbn [count_bits].
  - assert (i = 0) as -> by (change (2 ^ Z.of_nat 0) with 1 in Hi; lia). cbn. f_equal. lia.
  - destruct (Z.eqb_spec i 0) as [-> | Hne]; [f_equal; lia |].
    rewrite Nat2Z.inj_succ, Z.pow_succ_r in Hi by lia.
    assert (Hh : Z.shiftr i 1 = i / 2) by (rewrite Z.shiftr_div_pow2 by lia; done).
    rewrite IH by (rewrite Hh; zdiv). f_equal. rewrite Hh. destruct (Z.eqb_spec (i / 2) 0) as [E | E].
    + assert (i = 1) as -> by zdiv. cbn. lia.
    + assert (Z.log2 i = Z.log2 (i / 2) + 1); [| lia]. rewrite <- Hh, Z.log2_shiftr by zdiv.
      assert (1 <= Z.log2 i) by (change 1 with (Z.log2 2); apply Z.log2_le_mono; zdiv). lia.
Qed.

Lemma count_words n : 0 <= n <= 31 -> count_bits 64 (Z.shiftr (2 ^ n) 1) 0 = Ret n.
Proof.
  intros Hn. rewrite Z.shiftr_div_pow2 by lia. change (2 ^ 1) with 2. destruct (decide (n = 0)) as [-> | Hne]; [done |].
  replace (2 ^ n) with (2 ^ (n - 1) * 2) by (rewrite Z.mul_comm, <- Z.pow_succ_r by lia; f_equal; lia).
  rewrite Z.div_mul by lia.
  assert (0 < 2 ^ (n - 1)) by lia. rewrite count_bits_spec.
  - destruct (Z.eqb_spec (2 ^ (n - 1)) 0); [lia |]. rewrite Z.log2_pow2 by lia. f_equal. lia.
  - split; [lia |]. apply Z.pow_lt_mono_r; lia.
Qed.

(** ** Two elements of an array are exchanged *)
Lemma array_swap {A} (l : list A) o i v x : aget l o = Some v -> aget l i = Some x ->
  exists l1 l2, aset l o x = Some l1 /\ aset l1 i v = Some l2 /\ l2 ≡ₚ l.
Proof.
  intros Ho Hi. pose proof (aget_range _ _ _ Ho) as Ro. pose proof (aget_range _ _ _ Hi) as Ri.
  eexists _, _. split; [by apply aset_Some |]. split; [apply aset_Some; rewrite length_insert; lia |].
  unfold aget in *. destruct (Z.leb_spec 0 o), (Z.leb_spec 0 i); try lia. by apply Permutation_insert_swap.
Qed.

(** ** The functions *)
Section Words.
Context {W : Type} (sys : sys W).
Implicit Types s : st W.

(** Only the generator of [permutation] and the world have changed. *)
Definition calm s s' : Prop := exists r w, s' = set_perm_r r (set_world w s).
Lemma calm_refl s : calm s s.
Proof. exists (perm_r s), (world s). destruct s as [? ? ? ? ? ? ? []]. done. Qed.
Lemma calm_trans s1 s2 s3 : calm s1 s2 -> calm s2 s3 -> calm s1 s3.
Proof. intros (r & w & ->) (r' & w' & ->). by exists r', w'. Qed.
Lemma calm_world w s : calm s (set_world w s).
Proof. exists (perm_r s), w. by destruct s. Qed.
Lemma calm_perm r s : calm s (set_perm_r r s).
Proof. exists r, (world s). destruct s as [? ? ? ? ? ? ? []]. done. Qed.

(** [malloc] answered [NULL] at some time. *)
Definition refused : Prop := exists k w, fst (sys_malloc sys k w) = None.

Lemma malloc_array_ok max s : 0 <= max -> max * 8 < 2 ^ 64 ->
  exists r s', malloc_array sys max s = (r, s') /\
    (r = None /\ refused \/ r = Some (replicate (Z.to_nat max) 0) /\ calm (one_more s) s').
Proof.
  intros H0 H1. unfold malloc_array. rewrite wrap_u_small by lia. rewrite Z.div_mul by lia.
  destruct (sys_malloc sys (max * 8) (world s)) as [[a |] w] eqn:E; eexists _, _; (split; [reflexivity |]);
    [right; split; [done |]; apply (calm_world w (one_more s)) | left].
  split; [done |]. exists (max * 8), (world s). by rewrite E.
Qed.

(** [words_initialize]: the [i]-th word is at the reversed index. *)
Definition word (n scale i : Z) : Z := rev_bits n i * scale.
Lemma words_ok n scale s : 0 <= n <= 31 -> 0 < scale -> 2 ^ n * scale < 2 ^ 64 ->
  exists r s', words_initialize sys (2 ^ n) scale s = Ret (r, s') /\
    (r = None /\ refused \/ r = Some (word n scale <$> seqZ 0 (2 ^ n)) /\ calm (one_more s) s').
Proof.
  intros Hn Hs Hm. unfold words_initialize.
  assert (Hp : 2 ^ n <= 2 ^ 31) by (apply Z.pow_le_mono_r; lia).
  destruct (malloc_array_ok (2 ^ n) s) as (r & s' & -> & [[-> Rf] | [-> Hc]]); [lia | lia | |].
  - eexists _, _. split; [reflexivity |]. by left.
  - rewrite count_words, bind_Ret by done. rewrite (fill_array (word n scale)).
    + rewrite bind_Ret. eexists _, _. split; [reflexivity |]. by right.
    + lia.
    + rewrite length_replicate. lia.
    + intros i l Hi. rewrite reverse_bits_eq, bind_Ret by done. f_equal. f_equal. apply wrap_u_small.
      unfold word. pose proof (rev_bits_range n i Hn). nia.
Qed.

Lemma word_get n scale i : 0 <= i < 2 ^ n -> elem (Some (word n scale <$> seqZ 0 (2 ^ n))) i = Ret (word n scale i).
Proof.
  intros Hi. unfold elem, aget. cbn [deref]. rewrite bind_Ret. destruct (Z.leb_spec 0 i); [| lia].
  rewrite list_lookup_fmap, lookup_seqZ_lt by lia. cbn. f_equal. f_equal. lia.
Qed.
Lemma word_inj n scale i j : 0 <= n <= 31 -> 0 < scale -> 0 <= i < 2 ^ n -> 0 <= j < 2 ^ n -> word n scale i = word n scale j -> i = j.
Proof.
  unfold word. intros Hn Hs Hi Hj E. apply Z.mul_cancel_r in E; [| lia]. by rewrite <- (rev_rev_bits n i), E, rev_rev_bits.
Qed.
Lemma word_range n scale i : 0 <= n <= 31 -> 0 < scale -> exists k, 0 <= k < 2 ^ n /\ word n scale i = k * scale.
Proof. intros Hn Hs. exists (rev_bits n i). split; [by apply rev_bits_range | done]. Qed.
Lemma word_onto n scale k : 0 <= n <= 31 -> 0 <= k < 2 ^ n -> exists i, 0 <= i < 2 ^ n /\ word n scale i = k * scale.
Proof. intros Hn Hk. exists (rev_bits n k). split; [by apply rev_bits_range |]. unfold word. by rewrite rev_rev_bits. Qed.
Lemma word_0 n scale : 0 <= n <= 31 -> word n scale 0 = 0.
Proof. intros. unfold word. by rewrite rev_bits_0. Qed.

(** [permutation] gives each multiple once, whatever [rand] answers. *)
Lemma perm_steps max s l : 0 <= max -> Z.of_nat (length l) = max ->
  exists l' s', for_c 0 max (perm_step sys max) (l, s) = Ret (l', s') /\ l' ≡ₚ l /\ calm s s'.
Proof.
  intros H0 Hl. destruct (for_c_inv (fun _ x => fst x ≡ₚ l /\ calm s (snd x)) 0 max (perm_step sys max) (l, s))
    as ([l' s'] & -> & Hp & Hc); [done | split; [done | apply calm_refl] | | by exists l', s'].
  intros i [l1 s1] Hi [Hp Hc]. cbn [fst snd] in *. unfold perm_step, rand.
  destruct (sys_rand sys (world s1)) as [k w]. set (s2 := set_world w s1). set (r := Z.lxor _ _).
  apply Permutation_length in Hp as Hlen.
  destruct (aget_Some l1 (r mod max)) as [v Hv]; [pose proof (Z.mod_pos_bound r max); lia |].
  destruct (aget_Some l1 i) as [x Hx]; [lia |]. destruct (array_swap l1 _ _ _ _ Hv Hx) as (l2 & l3 & E1 & E2 & Hp2).
  rewrite Hv, Hx. cbn [deref]. rewrite !bind_Ret, E1. cbn [deref]. rewrite bind_Ret, E2. cbn [deref]. rewrite bind_Ret.
  eexists. split; [reflexivity |]. split; [by rewrite Hp2 |]. cbn [snd].
  eapply calm_trans; [exact Hc |]. eapply calm_trans; [apply calm_world | apply calm_perm].
Qed.

Lemma permutation_ok max scale s : 0 <= max -> 0 <= scale -> max * scale < 2 ^ 64 -> max * 8 < 2 ^ 64 ->
  exists r s', permutation sys max scale s = Ret (r, s') /\
    (r = None /\ refused \/
     exists l, r = Some l /\ l ≡ₚ (fun i => i * scale) <$> seqZ 0 max /\ calm (one_more s) s').
Proof.
  intros H0 Hs Hm H8. unfold permutation. destruct (malloc_array_ok max s) as (r & s1 & -> & [[-> Rf] | [-> Hc]]); [done | done | |].
  - eexists _, _. split; [reflexivity |]. by left.
  - rewrite (fill_array (fun i => i * scale)); [| done | rewrite length_replicate; lia |].
    + rewrite bind_Ret. set (s2 := if perm_r s1 =? 0 then _ else _).
      assert (C2 : calm s1 s2).
      { unfold s2. destruct (_ =? 0); [| apply calm_refl]. unfold perm_seed, rand.
        destruct (sys_rand sys (world s1)) as [r1 w1]. destruct (sys_rand sys (world (set_world w1 s1))) as [r2 w2].
        eapply calm_trans; [apply calm_world |]. eapply calm_trans; [apply calm_world | apply calm_perm]. }
      destruct (perm_steps max s2 ((fun i => i * scale) <$> seqZ 0 max)) as (l & s3 & -> & Hp & C3); [done | rewrite length_fmap, length_seqZ; lia |].
      rewrite bind_Ret. eexists _, _. split; [reflexivity |]. right. exists l. split; [done |]. split; [done |].
      eapply calm_trans; [exact Hc |]. by eapply calm_trans.
    + intros i l Hi. do 2 f_equal. apply wrap_u_small. nia.
Qed.
End Words.
End LmMemWords.

Module LmMemChain.
Import LmMem LmMemWords.

Section Chain.
Context {W : Type}.
Implicit Types s : st W.

(** [L 0], ..., [L (n - 1)] are different, and each holds the address of the next, the last
    that of the first. *)
Definition ring s (n : Z) (L : Z -> Z) : Prop :=
  0 < n /\ (forall i j, 0 <= i < n -> 0 <= j < n -> L i = L j -> i = j) /\
  forall i, 0 <= i < n -> load (L i) s = Ret (L ((i + 1) mod n)).

(** Following the chain [k] times from its [i]-th element. *)
Lemma chase_ring s n L k : forall i, ring s n L -> 0 <= i < n -> chase k [L i] s = Ret [L ((i + Z.of_nat k) mod n)].
Proof.
  induction k as [| k IH]; intros i Hr Hi; cbn [chase].
  - rewrite Z.mod_small by lia. do 3 f_equal. lia.
  - pose proof Hr as (Hn & _ & Hl). cbn. rewrite Hl by done. cbn.
    rewrite IH; [| done | apply Z.mod_pos_bound; lia]. rewrite Zplus_mod_idemp_l. do 4 f_equal. lia.
Qed.

(** Several pointers into the chain stay in it. *)
Lemma mapM_load s n L ps : ring s n L -> Forall (fun a => exists i, 0 <= i < n /\ a = L i) ps ->
  exists qs, mapM (fun a => load a s) ps = Ret qs /\ length qs = length ps /\ Forall (fun a => exists i, 0 <= i < n /\ a = L i) qs.
Proof.
  intros Hr. pose proof Hr as (Hn & _ & Hl). induction 1 as [| a ps (i & Hi & ->) _ (qs & E & Hlen & Hq)]; [by exists [] |].
  exists (L ((i + 1) mod n) :: qs). cbn. rewrite (Hl i Hi). cbn. cbn in E. rewrite E. split_and!; [done | cbn; lia |].
  constructor; [| done]. exists ((i + 1) mod n). split; [apply Z.mod_pos_bound; lia | done].
Qed.
Lemma chase_stays s n L k : forall ps, ring s n L -> Forall (fun a => exists i, 0 <= i < n /\ a = L i) ps ->
  exists qs, chase k ps s = Ret qs /\ length qs = length ps /\ Forall (fun a => exists i, 0 <= i < n /\ a = L i) qs.
Proof.
  induction k as [| k IH]; intros ps Hr Hp; cbn [chase]; [by exists ps |].
  destruct (mapM_load s n L ps Hr Hp) as (qs & -> & Hlen & Hq). rewrite bind_Ret. destruct (IH qs Hr Hq) as (rs & -> & Hl & Hf).
  exists rs. split_and!; [done | lia | done].
Qed.

(** The chains depend on the cells and the blocks. *)
Definition same_memory s s' : Prop := cells s' = cells s /\ blocks s' = blocks s.
Lemma same_memory_refl s : same_memory s s.
Proof. done. Qed.
Lemma same_memory_trans s1 s2 s3 : same_memory s1 s2 -> same_memory s2 s3 -> same_memory s1 s3.
Proof. intros [E1 E2] [E3 E4]. split; congruence. Qed.
Lemma load_same s s' a : same_memory s s' -> load a s' = load a s.
Proof. intros [E1 E2]. unfold load, accessible. by rewrite E1, E2. Qed.
Lemma ring_same s s' n L : same_memory s s' -> ring s n L -> ring s' n L.
Proof. intros Hm (Hn & Hi & Hl). split_and!; [done | done |]. intros i Hr. rewrite (load_same s s') by done. by apply Hl. Qed.

(** A benchmark that starts at [state->p] follows the chain and changes nothing of it. *)
Lemma benchmark_ok N k m s n L : ring s n L -> rerun s = false ->
  Forall (fun a => exists i, 0 <= i < n /\ a = L i) (take (Z.to_nat (N + 1)) (p m)) ->
  exists s', mem_benchmark N k m s = Ret s' /\ same_memory s s' /\ tm s' = tm s /\ held s' = held s.
Proof.
  intros Hr Hf Hp. unfold mem_benchmark. destruct (default _ _) as [saved sp]. rewrite Hf. cbn [andb].
  destruct (chase_stays s n L (Z.to_nat (k * 100)) _ Hr Hp) as (qs & -> & _). eexists. split; [reflexivity |]. done.
Qed.

(** ** Stores *)
Definition links (l : list (Z * Z)) (c : gmap Z Z) : gmap Z Z := foldl (fun c x => <[x.1 := x.2]> c) c l.
Fixpoint stores (l : list (Z * Z)) s : cres (st W) :=
  match l with [] => Ret s | x :: l => s ← store x.1 x.2 s; stores l s end.

Lemma stores_app l l' s : stores (l ++ l') s = (s ← stores l s; stores l' s).
Proof. revert s. induction l as [| x l IH]; intros s; cbn; [done |]. destruct (store x.1 x.2 s); cbn; [apply IH | done ..]. Qed.

Lemma stores_ok l : forall s, Forall (fun x => accessible s x.1 = true) l -> stores l s = Ret (set_cells (links l (cells s)) s).
Proof.
  induction l as [| x l IH]; intros s H; cbn [stores]; [by destruct s |]. apply Forall_cons in H as [Hx H].
  unfold store at 1. rewrite Hx, bind_Ret. rewrite IH; [done |]. eapply Forall_impl; [exact H |]. by intros y Hy.
Qed.

(** A loop of stores is one list of stores. *)
Lemma loop_stores (f : Z -> list (Z * Z)) n : forall lo (body : Z -> st W -> cres (st W)) s,
  (forall i s, lo <= i < lo + Z.of_nat n -> body i s = stores (f i) s) ->
  loop_c n lo body s = stores (concat (f <$> seqZ lo (Z.of_nat n))) s.
Proof.
  induction n as [| n IH]; intros lo body s H; cbn [loop_c]; [done |].
  rewrite seqZ_cons by lia. rewrite fmap_cons, concat_cons, stores_app, H by lia. apply bind_ext. intros t. rewrite (IH (lo + 1)).
  - by replace (Z.pred (Z.of_nat (S n))) with (Z.of_nat n) by lia.
  - intros i u Hi. apply H. lia.
Qed.
Lemma for_stores (f : Z -> list (Z * Z)) lo hi (body : Z -> st W -> cres (st W)) s :
  (forall i s, lo <= i < hi -> body i s = stores (f i) s) ->
  for_c lo hi body s = stores (concat (f <$> seqZ lo (hi - lo))) s.
Proof.
  intros H. unfold for_c. destruct (decide (lo <= hi)) as [Hle | Hgt].
  - rewrite (loop_stores f) by (intros; apply H; lia). do 4 f_equal. lia.
  - replace (Z.to_nat (hi - lo)) with O by lia. rewrite seqZ_nil by lia. done.
Qed.
Lemma elem_loop (f : Z -> list (Z * Z)) lo n x : x ∈ concat (f <$> seqZ lo n) <-> exists i, lo <= i < lo + n /\ x ∈ f i.
Proof.
  rewrite list_elem_of_In, in_concat. setoid_rewrite <- list_elem_of_In. split.
  - intros (l & Hl & Hx). apply list_elem_of_fmap in Hl as (i & -> & Hi%elem_of_seqZ). exists i. split; [lia | done].
  - intros (i & Hi & Hx). exists (f i). split; [| done]. apply list_elem_of_fmap. exists i. split; [done |]. apply elem_of_seqZ. lia.
Qed.

(** When no address is given two values, each address holds its value. *)
Lemma links_other l : forall c a, (a ∉ l.*1) -> links l c !! a = c !! a.
Proof.
  induction l as [| x l IH]; intros c a H; [done |]. cbn. rewrite fmap_cons, not_elem_of_cons in H. destruct H as [Hne H].
  etrans; [by apply IH |]. by apply lookup_insert_ne.
Qed.
Lemma links_get l : forall c a v, (forall v', (a, v') ∈ l -> v' = v) -> (a, v) ∈ l -> links l c !! a = Some v.
Proof.
  induction l as [| [b w] l IH]; intros c a v Hu Hin; [by apply elem_of_nil in Hin |]. cbn.
  destruct (decide (a ∈ l.*1)) as [H | H].
  - apply list_elem_of_fmap in H as ([a' v'] & Ea & H). cbn in Ea. subst a'. assert (v' = v) as -> by (apply Hu; by apply elem_of_cons; right).
    apply IH; [| done]. intros v' Hv'. apply Hu. by apply elem_of_cons; right.
  - apply elem_of_cons in Hin as [E | Hin].
    + injection E as <- <-. etrans; [by apply links_other |]. apply lookup_insert_eq.
    + destruct H. apply list_elem_of_fmap. by exists (a, v).
Qed.

(** Links from each element of a chain to the next build it. *)
Lemma ring_stores s n L l :
  0 < n -> (forall i j, 0 <= i < n -> 0 <= j < n -> L i = L j -> i = j) -> (forall i, 0 <= i < n -> accessible s (L i) = true) ->
  (forall a v, (a, v) ∈ l <-> exists i, 0 <= i < n /\ a = L i /\ v = L ((i + 1) mod n)) ->
  exists s', stores l s = Ret s' /\ s' = set_cells (links l (cells s)) s /\ ring s' n L.
Proof.
  intros Hn Hinj Hacc Hl. exists (set_cells (links l (cells s)) s). split; [| split; [done | split; [done | split; [done |]]]].
  - apply stores_ok. apply Forall_forall. intros [a v] Hin. apply Hl in Hin as (i & Hi & -> & _). by apply Hacc.
  - intros i Hi. unfold load. change (accessible _ (L i)) with (accessible s (L i)). rewrite Hacc by done.
    cbn [cells set_cells]. rewrite (links_get l _ _ (L ((i + 1) mod n))); [done | | by apply Hl; exists i].
    intros v' Hv. apply Hl in Hv as (j & Hj & E & ->). by rewrite (Hinj i j).
Qed.

(** ** Addresses in a block *)
Lemma in_block_intro (bs : gmap Z Z) a n x : bs !! a = Some n -> a <= x -> x + 8 <= a + n -> in_block bs x = true.
Proof.
  intros Hb H1 H2. unfold in_block. apply existsb_exists. exists (a, n). split; [by apply list_elem_of_In, elem_of_map_to_list |].
  cbn. unfold SIZEOF_PTR. destruct (Z.leb_spec a x), (Z.leb_spec (x + 8) (a + n)); lia || done.
Qed.
Lemma accessible_intro s a n x : blocks s !! a = Some n -> a <= x -> x + 8 <= a + n -> x mod 8 = 0 -> accessible s x = true.
Proof. intros Hb H1 H2 H3. unfold accessible, SIZEOF_PTR. by rewrite H3, (in_block_intro _ a n x). Qed.
End Chain.
End LmMemChain.
