(* ===== verification/LmMemProofs.v ===== *)
(** * lmbench/src/lib_mem.c: the chains that are built

    What [base_initialize] prepares, and that the initialisation functions build circular
    chains through every line, page or word they are meant to visit. *)
From S2P Require Import Prelude LmTiming LmMem LmMemWords.

Module LmMemProofs.
Import LmMem LmMemWords LmMemChain.

(** Pages of [2 ^ n] lines, lines of whole pointers, and a length that leaves room in an [int]. *)
Record shape (m : mem_state) (n : Z) : Prop := {
  sh_n : 0 <= n <= 30;
  sh_line : 0 < line m;
  sh_ptr : line m mod 8 = 0;
  sh_page : pagesize m = line m * 2 ^ n;
  sh_len : 0 < len m <= maxlen m;
  sh_max : maxlen m + 2 * pagesize m < 2 ^ 30;
  sh_p : length (p m) = 16%nat
}.
(** The pages that [sz] bytes take. *)
Definition page_count (m : mem_state) (sz : Z) : Z := (sz + pagesize m - 1) / pagesize m.

(** Everything but the block, the counts and the arrays is as before. *)
Definition same_options (m m' : mem_state) : Prop :=
  p m' = p m /\ width m' = width m /\ len m' = len m /\ maxlen m' = maxlen m /\ line m' = line m /\ pagesize m' = pagesize m.

(** What [base_initialize] leaves when it succeeds. *)
Record prepared {W} (sys : sys W) (m : mem_state) (s : st W) (n : Z) (m' : mem_state) (s' : st W) (pg : list Z) : Prop := {
  pr_init : initialized m' = true;
  pr_same : same_options m m';
  pr_pages : pages m' = Some pg;
  pr_perm : pg ≡ₚ (fun i => i * pagesize m) <$> seqZ 0 (page_count m (maxlen m));
  pr_addr : exists k w, fst (sys_malloc sys k w) = Some (addr m');
  pr_blocks : blocks s' = <[addr m' := maxlen m + 2 * pagesize m]> (blocks s);
  pr_base : addr m' <= base m' < addr m' + pagesize m /\ base m' mod pagesize m = 0;
  pr_nlines : nlines m' = 2 ^ n;
  pr_npages : npages m' = page_count m (len m);
  pr_nwords : nwords m' = line m / 8;
  pr_cells : cells s' = cells s;
  pr_rerun : rerun s' = false;
  pr_results : get_results s' = get_results s;
  pr_words : words m' = None
}.

Section Proofs.
Context {W : Type} (sys : sys W).
Implicit Types s : st W.

Lemma align_up a ps : 0 < ps -> let b := if a mod ps =? 0 then a else a + (ps - a mod ps) in a <= b < a + ps /\ b mod ps = 0.
Proof.
  intros Hp. cbn. pose proof (Z.mod_pos_bound a ps Hp). destruct (Z.eqb_spec (a mod ps) 0) as [E | E]; [lia |].
  split; [lia |]. replace (a + (ps - a mod ps)) with (0 + (a / ps + 1) * ps) by (pose proof (Z.div_mod a ps); lia). rewrite Z.mod_add by lia. done.
Qed.

Lemma page_count_bound m sz : 0 < pagesize m -> 0 < sz -> 0 < page_count m sz /\ page_count m sz * pagesize m < sz + pagesize m.
Proof. intros Hp Hs. unfold page_count. pose proof (Z.mul_div_le (sz + pagesize m - 1) (pagesize m) Hp). split; [apply Z.div_str_pos; lia | lia]. Qed.

Lemma shape_page m n : shape m n -> 0 < 2 ^ n /\ 8 <= line m /\ 0 < pagesize m /\ pagesize m mod 8 = 0 /\ line m <= pagesize m.
Proof.
  intros []. assert (0 < 2 ^ n) by lia. assert (8 <= line m) by zdiv. split_and!; try done; [nia | | nia].
  rewrite sh_page0, Z.mul_mod, sh_ptr0 by lia. done.
Qed.

Lemma base_ok m n s : shape m n ->
  (base_initialize sys 0 m s = Exit 1 /\ refused sys) \/
  (exists m' s', base_initialize sys 0 m s = Ret (m', s') /\ initialized m' = false /\ refused sys) \/
  (exists m' s' pg, base_initialize sys 0 m s = Ret (m', s') /\ prepared sys m s n m' s' pg /\ held s' = S (held s)).
Proof.
  intros Hs. pose proof Hs as []. destruct (shape_page m n Hs) as (Hn & Hl & Hp & _ & _). unfold base_initialize, udiv. cbn [negb].
  change (0 =? 0) with true. cbn [negb initialized set_initialized line pagesize len maxlen].
  destruct (Z.eqb_spec (line m) 0), (Z.eqb_spec (pagesize m) 0); try lia. rewrite !bind_Ret.
  rewrite !wrap_u_small by lia. fold (page_count m (len m)) (page_count m (maxlen m)).
  destruct (page_count_bound m (maxlen m) Hp ltac:(lia)) as [C1 C2].
  destruct (permutation_ok sys (page_count m (maxlen m)) (pagesize m) (srand sys (sys_getpid sys) s)) as (r & s1 & -> & Hr); [lia | lia | nia | nia |].
  rewrite bind_Ret.
  unfold malloc_block.
  destruct (sys_malloc _ _ _) as [[a |] w] eqn:Ea; [| left; split; [done |]; eexists _, _; by rewrite Ea]. right.
  destruct Hr as [[-> Rf] | (pg & -> & Hperm & Hq)]; [left; by eexists _, _ | right]. cbn [pagesize set_addr set_words set_pages set_lines set_counts].
  eexists _, _, pg. split; [reflexivity |]. destruct (align_up a (pagesize m) Hp) as [A1 A2]. destruct Hq as (r0 & t & ->).
  split; [| done]. constructor; try done; cbn [nlines set_base set_initialized set_addr set_words set_pages set_lines set_counts].
  { eexists _, _. cbn. by rewrite Ea. }
  rewrite sh_page0, Z.mul_comm, Z.div_mul; lia.
Qed.

(** ** The pages as a function of their index *)
Definition page_at (pg : list Z) (i : Z) : Z := default 0 (aget pg i).
Lemma page_at_get pg i : 0 <= i < Z.of_nat (length pg) -> elem (Some pg) i = Ret (page_at pg i).
Proof. intros Hi. unfold elem, page_at. cbn [deref]. rewrite bind_Ret. by destruct (aget_Some pg i Hi) as [x ->]. Qed.

Section Pages.
Context (pg : list Z) (ps np : Z) (Hps : 0 < ps) (Hpg : pg ≡ₚ (fun i => i * ps) <$> seqZ 0 np).
Lemma pages_length : 0 <= np -> Z.of_nat (length pg) = np.
Proof. intros. rewrite Hpg, length_fmap, length_seqZ. lia. Qed.
Lemma page_at_multiple i : 0 <= i < np -> exists q, 0 <= q < np /\ page_at pg i = q * ps.
Proof.
  intros Hi. pose proof (pages_length ltac:(lia)) as Hl. destruct (aget_Some pg i ltac:(lia)) as [x Hx]. unfold page_at. rewrite Hx. cbn.
  unfold aget in Hx. destruct (Z.leb_spec 0 i); [| done]. apply list_elem_of_lookup_2 in Hx. rewrite Hpg in Hx.
  apply list_elem_of_fmap in Hx as (q & -> & Hq%elem_of_seqZ). exists q. lia.
Qed.
Lemma page_at_inj i j : 0 <= i < np -> 0 <= j < np -> page_at pg i = page_at pg j -> i = j.
Proof.
  intros Hi Hj E. pose proof (pages_length ltac:(lia)) as Hl.
  assert (Hnd : NoDup pg).
  { rewrite Hpg. apply NoDup_fmap_2; [| apply NoDup_seqZ]. intros a b. apply Z.mul_cancel_r. lia. }
  destruct (aget_Some pg i ltac:(lia)) as [x Hx], (aget_Some pg j ltac:(lia)) as [y Hy]. unfold page_at in E. rewrite Hx, Hy in E. cbn in E. subst y.
  unfold aget in *. destruct (Z.leb_spec 0 i), (Z.leb_spec 0 j); try lia.
  pose proof (proj1 (NoDup_alt pg) Hnd _ _ _ Hx Hy). lia.
Qed.
(** Offsets below the size of a page do not mix pages. *)
Lemma page_offset_inj i j a b : 0 <= i < np -> 0 <= j < np -> 0 <= a < ps -> 0 <= b < ps ->
  page_at pg i + a = page_at pg j + b -> i = j /\ a = b.
Proof.
  intros Hi Hj Ha Hb E. destruct (page_at_multiple i Hi) as (q & Hq & Eq), (page_at_multiple j Hj) as (q' & Hq' & Eq').
  assert (q = q') as <-.
  { rewrite Eq, Eq' in E. apply (f_equal (fun x => x / ps)) in E.
    rewrite !Z.div_add_l, !(Z.div_small _ ps) in E by lia. lia. }
  assert (X : i = j) by (apply page_at_inj; congruence). split; [done |]. lia.
Qed.
End Pages.

(** A pointer on a page of the block. *)
Lemma page_accessible m n s m' s' pg i o : shape m n -> prepared sys m s n m' s' pg -> 0 <= i < page_count m (maxlen m) ->
  0 <= o -> o + 8 <= pagesize m -> o mod 8 = 0 -> accessible s' (base m' + page_at pg i + o) = true.
Proof.
  intros Hs [] Hi H0 H1 H2. destruct (shape_page m n Hs) as (_ & _ & Hp & Hp8 & _). destruct Hs.
  destruct (page_count_bound m (maxlen m) Hp ltac:(lia)) as [C1 C2].
  destruct (page_at_multiple pg _ _ pr_perm0 i Hi) as (q & Hq & ->). destruct pr_base0 as [B1 B2].
  assert (Q : 0 <= q * pagesize m /\ q * pagesize m + pagesize m <= page_count m (maxlen m) * pagesize m) by nia.
  apply (accessible_intro s' (addr m') (maxlen m + 2 * pagesize m)); [rewrite pr_blocks0; apply lookup_insert_eq | lia | lia |].
  apply Z.mod_divide in B2; [| lia]. apply Z.mod_divide in Hp8; [| lia]. apply Z.mod_divide in H2; [| lia].
  apply Z.mod_divide; [lia |]. apply Z.divide_add_r; [| done]. apply Z.divide_add_r; [by eapply Z.divide_trans | by apply Z.divide_mul_r].
Qed.

(** ** [line_initialize] *)
(** The [k]-th line that is visited: page after page, the lines of each by reversed index. *)
Definition line_addr (n : Z) (m : mem_state) (pg : list Z) (k : Z) : Z :=
  base m + page_at pg (k / 2 ^ n) + word n (line m) (k mod 2 ^ n).

Section Line.
Context (n : Z) (m : mem_state) (pg : list Z) (np nmp : Z).
Context (Hn : 0 <= n <= 30) (Hln : 0 < line m) (Hps : pagesize m = line m * 2 ^ n) (Hnp : 0 < np <= nmp).
Context (Hpg : pg ≡ₚ (fun i => i * pagesize m) <$> seqZ 0 nmp).
Context (Hpages : pages m = Some pg) (Hlines : lines m = Some (word n (line m) <$> seqZ 0 (2 ^ n))).
Abbreviation A i j := (base m + page_at pg i + word n (line m) j).

Lemma pow_pos : 0 < 2 ^ n.
Proof. lia. Qed.

Lemma line_index i j : 0 <= j < 2 ^ n -> line_addr n m pg (i * 2 ^ n + j) = A i j.
Proof. intros Hj. unfold line_addr. rewrite Z.div_add_l, Z.div_small, Z.add_0_r by lia. by rewrite (Z.add_comm (i * 2 ^ n) j), Z.mod_add, Z.mod_small by lia. Qed.

Lemma line_index_0 : line_addr n m pg 0 = A 0 0.
Proof. pose proof pow_pos. unfold line_addr. by rewrite Z.div_0_l, Z.mod_0_l by lia. Qed.

Lemma word_below j : 0 <= j < 2 ^ n -> 0 <= word n (line m) j /\ word n (line m) j + line m <= pagesize m /\ (line m mod 8 = 0 -> word n (line m) j mod 8 = 0).
Proof.
  intros Hj. destruct (word_range n (line m) j ltac:(lia) Hln) as (k & Hk & ->). split_and!; [nia | nia |].
  intros H8. rewrite Z.mul_mod, H8, Z.mul_0_r by lia. done.
Qed.

Lemma line_addr_inj i j : 0 <= i < np * 2 ^ n -> 0 <= j < np * 2 ^ n -> line_addr n m pg i = line_addr n m pg j -> i = j.
Proof.
  intros Hi Hj E. unfold line_addr in E. pose proof pow_pos as Hp.
  pose proof (Z.div_mod i (2 ^ n) ltac:(lia)) as Di. pose proof (Z.div_mod j (2 ^ n) ltac:(lia)) as Dj.
  pose proof (Z.mod_pos_bound i (2 ^ n) Hp) as Mi. pose proof (Z.mod_pos_bound j (2 ^ n) Hp) as Mj.
  pose proof (word_below _ Mi) as Wi. pose proof (word_below _ Mj) as Wj.
  destruct (page_offset_inj pg (pagesize m) nmp ltac:(nia) Hpg (i / 2 ^ n) (j / 2 ^ n) _ _ ltac:(nia) ltac:(nia) ltac:(split; [apply Wi | lia]) ltac:(split; [apply Wj | lia]) ltac:(lia)) as [E1 E2].
  apply word_inj in E2; try done; [| lia]. nia.
Qed.

(** The stores of a page. *)
Definition line_links (i : Z) : list (Z * Z) :=
  concat ((fun j => [(A i j, A i (j + 1))]) <$> seqZ 0 (2 ^ n - 1)) ++
  [(A i (2 ^ n - 1), A (if i <? np - 1 then i + 1 else 0) 0)].

Lemma get_page i : 0 <= i < np -> elem (pages m) i = Ret (page_at pg i).
Proof. intros Hi. rewrite Hpages. apply page_at_get. rewrite (pages_length pg _ _ Hpg) by lia. lia. Qed.
Lemma get_line j : 0 <= j < 2 ^ n -> elem (lines m) j = Ret (word n (line m) j).
Proof. intros Hj. rewrite Hlines. by apply word_get. Qed.

Lemma line_page_stores i s : 0 <= i < np -> line_page m (2 ^ n) np i s = stores (line_links i) s.
Proof.
  intros Hi. pose proof pow_pos as Hp. unfold line_page, line_links. rewrite stores_app.
  rewrite (for_stores (fun j => [(A i j, A i (j + 1))])).
  - rewrite Z.sub_0_r. apply bind_ext. intros t. rewrite Z.max_r by lia.
    rewrite !get_page, !get_line, !bind_Ret by (destruct (Z.ltb_spec i (np - 1)); lia).
    cbn. by destruct (store _ _ t).
  - intros j t Hj. rewrite get_page, !get_line, !bind_Ret by lia. cbn. by destruct (store _ _ t).
Qed.

Lemma line_links_spec a v : (a, v) ∈ concat (line_links <$> seqZ 0 np) <->
  exists k, 0 <= k < np * 2 ^ n /\ a = line_addr n m pg k /\ v = line_addr n m pg ((k + 1) mod (np * 2 ^ n)).
Proof.
  pose proof pow_pos as Hp. rewrite elem_loop. unfold line_links. setoid_rewrite elem_of_app. setoid_rewrite elem_loop. setoid_rewrite list_elem_of_singleton. split.
  - intros (i & Hi & [(j & Hj & [= -> ->]) | [= -> ->]]).
    + exists (i * 2 ^ n + j). split; [nia |]. rewrite line_index by lia. split; [done |].
      rewrite Z.mod_small by nia. replace (i * 2 ^ n + j + 1) with (i * 2 ^ n + (j + 1)) by lia. by rewrite line_index by lia.
    + exists (i * 2 ^ n + (2 ^ n - 1)). split; [nia |]. rewrite line_index by lia. split; [done |].
      destruct (Z.ltb_spec i (np - 1)).
      * rewrite Z.mod_small by nia. replace (i * 2 ^ n + (2 ^ n - 1) + 1) with ((i + 1) * 2 ^ n + 0) by lia. by rewrite line_index by lia.
      * replace (i * 2 ^ n + (2 ^ n - 1) + 1) with (np * 2 ^ n) by nia. rewrite Z.mod_same by nia. by rewrite line_index_0.
  - intros (k & Hk & -> & ->). set (i := k / 2 ^ n). set (j := k mod 2 ^ n).
    pose proof (Z.div_mod k (2 ^ n) ltac:(lia)) as Dk. fold i j in Dk. pose proof (Z.mod_pos_bound k (2 ^ n) Hp) as Mk. fold j in Mk.
    assert (Hi : 0 <= i < np) by nia. exists i. split; [lia |]. rewrite Dk, Z.mul_comm, line_index by lia.
    destruct (decide (j < 2 ^ n - 1)) as [Hj | Hj]; [left | right].
    + exists j. split; [lia |]. rewrite Z.mod_small by nia. replace (i * 2 ^ n + j + 1) with (i * 2 ^ n + (j + 1)) by lia. by rewrite line_index by lia.
    + assert (j = 2 ^ n - 1) as -> by lia. destruct (Z.ltb_spec i (np - 1)).
      * rewrite Z.mod_small by nia. replace (i * 2 ^ n + (2 ^ n - 1) + 1) with ((i + 1) * 2 ^ n + 0) by lia. by rewrite line_index by lia.
      * replace (i * 2 ^ n + (2 ^ n - 1) + 1) with (np * 2 ^ n) by nia. rewrite Z.mod_same by nia. by rewrite line_index_0.
Qed.

Lemma line_chain s : (forall i o, 0 <= i < nmp -> 0 <= o -> o + 8 <= pagesize m -> o mod 8 = 0 -> accessible s (base m + page_at pg i + o) = true) ->
  line m mod 8 = 0 -> 8 <= line m ->
  exists s', for_c 0 np (line_page m (2 ^ n) np) s = Ret s' /\ (exists c, s' = set_cells c s) /\ ring s' (np * 2 ^ n) (line_addr n m pg).
Proof.
  intros Hacc H8 Hl8. rewrite (for_stores line_links) by (intros; by apply line_page_stores). rewrite Z.sub_0_r. pose proof pow_pos.
  destruct (ring_stores s (np * 2 ^ n) (line_addr n m pg) (concat (line_links <$> seqZ 0 np))) as (s' & E & -> & Hr).
  - nia.
  - apply line_addr_inj.
  - intros k Hk. unfold line_addr. destruct (word_below (k mod 2 ^ n)) as (W1 & W2 & W3); [apply Z.mod_pos_bound; lia |].
    apply Hacc; [| done | lia | auto]. assert (k / 2 ^ n < np) by (apply Z.div_lt_upper_bound; nia). pose proof (Z.div_pos k (2 ^ n)). lia.
  - apply line_links_spec.
  - eexists. split; [exact E |]. split; [by eexists | done].
Qed.
End Line.

Lemma int_ok z : is_int z -> int z = Ret z.
Proof. intros [H1 H2]. unfold int. destruct (Z.leb_spec INT_MIN z), (Z.leb_spec z INT_MAX); lia || done. Qed.

(** The counts fit an [int]. *)
Lemma counts_small m n : shape m n -> let np := page_count m (len m) in
  0 < np <= page_count m (maxlen m) /\ is_int (2 ^ n) /\ is_int np /\ is_int (2 ^ n * np) /\ is_int (2 ^ n * np + 100) /\ is_int (line m) /\ 2 ^ n * line m < 2 ^ 64.
Proof.
  intros Hs. destruct (shape_page m n Hs) as (Hn & Hl & Hp & _ & _). destruct Hs. cbn.
  destruct (page_count_bound m (len m) Hp ltac:(lia)) as [C1 C2].
  assert (page_count m (len m) <= page_count m (maxlen m)) by (apply Z.div_le_mono; lia).
  assert (2 ^ n * page_count m (len m) * 8 <= page_count m (len m) * pagesize m) by nia.
  assert (2 ^ n * 8 <= pagesize m) by nia. assert (page_count m (len m) * 8 <= page_count m (len m) * pagesize m) by nia.
  assert (line m <= pagesize m) by nia. unfold is_int, INT_MIN, INT_MAX. change (2 ^ 30) with 1073741824 in *. change (2 ^ 64) with 18446744073709551616. split_and!; nia.
Qed.

Lemma put_p_ok k v m : 0 <= k < Z.of_nat (length (p m)) -> put_p k v m = Ret (set_p (<[Z.to_nat k := v]> (p m)) m).
Proof. intros H. unfold put_p. by rewrite aset_Some. Qed.

(** What is left when a chain of the lines of the block is built. *)
Record line_chain_built (m : mem_state) s (n : Z) (m' : mem_state) s' (pg : list Z) : Prop := {
  lc_init : initialized m' = true;
  lc_len : len m' = len m /\ maxlen m' = maxlen m /\ line m' = line m /\ pagesize m' = pagesize m;
  lc_counts : nlines m' = 2 ^ n /\ npages m' = page_count m (len m);
  lc_pages : pages m' = Some pg;
  lc_lines : lines m' = Some (word n (line m) <$> seqZ 0 (2 ^ n));
  lc_perm : pg ≡ₚ (fun i => i * pagesize m) <$> seqZ 0 (page_count m (maxlen m));
  lc_start : aget (p m') 0 = Some (line_addr n m' pg 0);
  lc_ring : ring s' (page_count m (len m) * 2 ^ n) (line_addr n m' pg);
  lc_addr : exists k w, fst (sys_malloc sys k w) = Some (addr m');
  lc_block : blocks s' = <[addr m' := maxlen m + 2 * pagesize m]> (blocks s) /\ addr m' <= base m' < addr m' + pagesize m;
  lc_results : get_results s' = get_results s;
  lc_arrays : held s' = S (S (held s)) /\ words m' = None;
  lc_access : forall i o, 0 <= i < page_count m (maxlen m) -> 0 <= o -> o + 8 <= pagesize m -> o mod 8 = 0 ->
    accessible s' (base m' + page_at pg i + o) = true
}.

Lemma line_initialize_ok m n s : shape m n ->
  (line_initialize sys 0 m s = Exit 1 /\ refused sys) \/
  (exists m' s', line_initialize sys 0 m s = Ret (m', s') /\ initialized m' = false /\ refused sys) \/
  (exists m' s' pg, line_initialize sys 0 m s = Ret (m', s') /\ line_chain_built m s n m' s' pg).
Proof.
  intros Hs. pose proof Hs as []. destruct (shape_page m n Hs) as (Hn & Hl & Hp & _ & _).
  destruct (counts_small m n Hs) as (I0 & I1 & I2 & I3 & I4 & I5 & I6). unfold line_initialize. change (0 =? 0) with true. cbn [negb].
  destruct (base_ok m n s Hs) as [[-> Rf] | [(m1 & s1 & -> & Hi & Rf) | (m1 & s1 & pg & -> & Hpr & Hheld)]]; [by left | right; left | right].
  { rewrite bind_Ret, Hi. by eexists _, _. }
  pose proof Hpr as [Hinit (Ep & Ew & El & Eml & Eln & Eps) Hpg Hperm Haddr Hbl Hbase Hnl Hnp Hnw Hcells Hrr Hres Hwords]. rewrite bind_Ret, Hinit. cbn [negb].
  cbn [nlines npages line pages base set_initialized]. rewrite Hnl, Hnp, Eln, !i32_small by done.
  rewrite (wrap_u_small 64 (2 ^ n)) by (split; [lia |]; apply Z.pow_lt_mono_r; lia).
  destruct (words_ok sys n (line m) s1) as (ls & s2 & -> & [[-> Rf] | (-> & r & t & ->)]); [lia | lia | lia | |].
  { left. rewrite bind_Ret. by eexists _, _. }
  right. rewrite bind_Ret. set (m2 := set_width 1 _).
  assert (Hpr2 : prepared sys m s n m1 (set_perm_r r (set_world t (one_more s1))) pg) by (constructor; done).
  destruct (line_chain n m2 pg (page_count m (len m)) (page_count m (maxlen m)) ltac:(lia) ltac:(cbn; lia) ltac:(cbn; lia) ltac:(lia)
    ltac:(cbn; rewrite Eps; exact Hperm) Hpg ltac:(cbn; by rewrite Eln) (set_perm_r r (set_world t (one_more s1)))) as (s3 & E3 & (c & ->) & Hr).
  { intros i o Hi Ho Ho2. cbn [pagesize m2 set_width set_lines set_initialized] in *. rewrite Eps in *. by apply (page_accessible m n s m1 _ pg). }
  { cbn. by rewrite Eln. } { cbn. by rewrite Eln. }
  rewrite E3, bind_Ret. set (s3 := set_cells c _) in *.
  assert (P0 : elem (pages m2) 0 = Ret (page_at pg 0)) by (cbn; rewrite Hpg; apply page_at_get; rewrite (pages_length pg _ _ Hperm); lia).
  assert (L0 : elem (lines m2) 0 = Ret (word n (line m) 0)) by (by apply word_get).
  rewrite P0, L0, !bind_Ret. rewrite put_p_ok by (cbn; rewrite Ep, sh_p0; lia). rewrite bind_Ret, int_ok, bind_Ret, int_ok, bind_Ret by done.
  assert (A0 : base m2 + page_at pg 0 + word n (line m) 0 = line_addr n m2 pg 0).
  { unfold line_addr. cbn. rewrite Z.div_0_l, Z.mod_0_l by lia. by rewrite Eln. }
  rewrite A0. set (m3 := set_p _ m2). assert (Hlen : (0 < length (p m2))%nat) by (cbn; rewrite Ep, sh_p0; lia).
  destruct (benchmark_ok 0 (u64 (Z.quot (2 ^ n * page_count m (len m) + 100) 100)) m3 (mem_reset s3) (page_count m (len m) * 2 ^ n) (line_addr n m2 pg))
    as (s4 & -> & Hsm & Htm & Hh4); [by apply (ring_same s3) | done | |].
  { cbn [p m3 set_p]. destruct (p m2) as [| x l]; [cbn in Hlen; lia |]. cbn. constructor; [| constructor]. exists 0. split; [nia | done]. }
  rewrite bind_Ret. eexists _, s4, pg. split; [reflexivity |].
  assert (Hmem : same_memory s3 s4) by (eapply same_memory_trans; [| exact Hsm]; done).
  constructor; try done.
  - cbn [p m3 set_p set_initialized]. unfold aget. cbn. by rewrite list_lookup_insert_eq.
  - apply (ring_same s3); [done |]. exact Hr.
  - split; [| exact (proj1 Hbase)]. destruct Hmem as [_ ->]. exact Hbl.
  - unfold get_results. rewrite Htm. exact Hres.
  - rewrite Hh4. cbn. by rewrite Hheld.
  - intros i o Hi Ho Ho2 Ho3. pose proof (page_accessible m n s m1 _ pg i o Hs Hpr2 Hi Ho Ho2 Ho3) as X. unfold accessible in *.
    destruct Hmem as [_ ->]. exact X.
Qed.
End Proofs.
End LmMemProofs.
