(* ===== verification/LmMemRings.v ===== *)
(** * lmbench/src/lib_mem.c: strided chains and chains that change the page each time

    [stride_initialize], and [thrash_initialize] on whole pages. *)
From S2P Require Import Prelude LmTiming LmMem LmMemWords LmMemProofs.

Module LmMemRings.
Import LmMem LmMemWords LmMemChain LmMemProofs.

Section Rings.
Context {W : Type} (sys : sys W).
Implicit Types s : st W.

(** ** [stride_initialize] *)
(** The number of pointers: one every [line] bytes up to [len]. *)
Definition stride_count (m : mem_state) : Z := (len m + line m - 1) / line m.

Lemma stride_loop_eq a range stride N fuel : 0 < stride -> range + stride < 2 ^ 64 -> N = (range + stride - 1) / stride ->
  forall k s, 1 <= k <= N -> N - k <= Z.of_nat fuel ->
  stride_loop fuel a range stride (k * stride) s =
    (s ← for_c (k - 1) (N - 1) (fun j s => store (a + j * stride) (a + (j + 1) * stride) s) s; Ret (N * stride, s)).
Proof.
  intros Hst Hr HN. pose proof (Z.mul_div_le (range + stride - 1) stride Hst) as M1. pose proof (Z.mul_succ_div_gt (range + stride - 1) stride Hst) as M2.
  rewrite <- HN in *. induction fuel as [| fuel IH]; intros k s Hk Hf; cbn [stride_loop].
  - assert (k = N) as -> by lia. unfold for_c. replace (Z.to_nat _) with O by lia. destruct (Z.ltb_spec (N * stride) range); [nia | done].
  - destruct (Z.ltb_spec (k * stride) range) as [Hlt | Hge].
    + assert (k < N) by nia. unfold for_c. replace (Z.to_nat (N - 1 - (k - 1))) with (S (Z.to_nat (N - 1 - k))) by lia. cbn [loop_c].
      replace (k * stride - stride) with ((k - 1) * stride) by lia. replace (k - 1 + 1) with k by lia. rewrite bind_assoc_cres. apply bind_ext. intros t.
      rewrite wrap_u_small by nia. replace (k * stride + stride) with ((k + 1) * stride) by lia. rewrite IH by lia. unfold for_c.
      by replace (k + 1 - 1) with k by lia.
    + assert (k = N) as -> by nia. unfold for_c. replace (Z.to_nat _) with O by lia. done.
Qed.

Lemma stride_initialize_ok m n s : shape m n ->
  (stride_initialize sys 0 m s = Exit 1 /\ refused sys) \/
  (exists m' s', stride_initialize sys 0 m s = Ret (m', s') /\ initialized m' = false /\ refused sys) \/
  (exists m' s', stride_initialize sys 0 m s = Ret (m', s') /\ aget (p m') 0 = Some (base m') /\
     ring s' (stride_count m) (fun k => base m' + k * line m)).
Proof.
  intros Hs. pose proof Hs as []. destruct (shape_page m n Hs) as (_ & Hl & Hp & _ & Hlp). unfold stride_initialize.
  destruct (base_ok sys m n s Hs) as [[-> Rf] | [(m1 & s1 & -> & Hi & Rf) | (m1 & s1 & pg & -> & Hpr & _)]]; [by left | right; left | right; right].
  { rewrite bind_Ret, Hi. by eexists _, _. }
  pose proof Hpr as [Hinit (Ep & _) Hpg Hperm Haddr Hbl Hbase _ _ _ _ _ _ _]. rewrite bind_Ret, Hinit. cbn [negb].
  set (N := stride_count m). pose proof (Z.mul_div_le (len m + line m - 1) (line m) ltac:(lia)) as M1. fold (stride_count m) in M1. fold N in M1.
  assert (N1 : 1 <= N) by (apply Z.div_le_lower_bound; lia).
  pose proof (stride_loop_eq (base m1) (len m) (line m) N (Z.to_nat (len m)) ltac:(lia) ltac:(lia) eq_refl 1 s1 ltac:(lia) ltac:(nia)) as E.
  rewrite Z.mul_1_l in E. rewrite E, bind_assoc_cres. change (1 - 1) with 0.
  destruct (ring_stores s1 N (fun k => base m1 + k * line m)
    (concat ((fun j => [(base m1 + j * line m, base m1 + (j + 1) * line m)]) <$> seqZ 0 (N - 1)) ++ [(base m1 + (N - 1) * line m, base m1)]))
    as (s2 & E2 & _ & Hr); [lia | intros i j ? ? X; nia | | |].
  - intros i Hi. apply (accessible_intro s1 (addr m1) (maxlen m + 2 * pagesize m)); [rewrite Hbl; apply lookup_insert_eq | nia | nia |].
    destruct Hbase as [_ B2]. apply Z.mod_divide in B2; [| lia]. apply Z.mod_divide in sh_ptr0; [| lia]. apply Z.mod_divide; [lia |].
    apply Z.divide_add_r; [| by apply Z.divide_mul_r]. eapply Z.divide_trans; [| exact B2]. rewrite sh_page0. by apply Z.divide_mul_l.
  - intros a v. rewrite elem_of_app, elem_loop. setoid_rewrite list_elem_of_singleton. split.
    + intros [(j & Hj & [= -> ->]) | [= -> ->]]; [exists j | exists (N - 1)].
      * rewrite Z.mod_small by lia. split; [lia | done].
      * replace (N - 1 + 1) with N by lia. rewrite Z.mod_same by lia. split; [lia | by rewrite Z.mul_0_l, Z.add_0_r].
    + intros (k & Hk & -> & ->). destruct (decide (k < N - 1)); [left; exists k | right].
      * rewrite Z.mod_small by lia. split; [lia | done].
      * assert (k = N - 1) as -> by lia. replace (N - 1 + 1) with N by lia. rewrite Z.mod_same by lia. by rewrite Z.mul_0_l, Z.add_0_r.
  - rewrite stores_app in E2. rewrite (for_stores (fun j => [(base m1 + j * line m, base m1 + (j + 1) * line m)])), Z.sub_0_r
      by (intros; cbn; by destruct (store _ _ _)).
    apply bind_Ret_inv in E2 as (s3 & E3 & E4). rewrite E3, !bind_Ret. rewrite wrap_u_small by nia.
    replace (N * line m - line m) with ((N - 1) * line m) by lia. cbn in E4. apply bind_Ret_inv in E4 as (s4 & E4 & [= ->]).
    rewrite E4, bind_Ret, put_p_ok by (rewrite Ep, sh_p0; lia). rewrite bind_Ret. eexists _, _. split; [reflexivity |]. split; [| by apply (ring_same s2)].
    cbn. unfold aget. cbn. rewrite list_lookup_insert_eq; [done |]. rewrite Ep, sh_p0. lia.
Qed.

(** ** [thrash_initialize] *)
Lemma shift_mod_inj c x y M : 0 <= x < M -> 0 <= y < M -> (c + x) mod M = (c + y) mod M -> x = y.
Proof.
  intros Hx Hy E. pose proof (Z.div_mod (c + x) M ltac:(lia)) as D1. pose proof (Z.div_mod (c + y) M ltac:(lia)) as D2. rewrite E in D1.
  assert (X : (c + x) / M = (c + y) / M) by nia. rewrite X in D1. lia.
Qed.

(** The [k]-th pointer: the pages in turn, on each page the next word by reversed index,
    shifted by one word from round to round. *)
Definition thrash_addr (n : Z) (m : mem_state) (pg : list Z) (np k : Z) : Z :=
  base m + (page_at pg (k mod np) + word n (line m) ((k mod np + k / np) mod 2 ^ n)).

Section Thrash.
Context (n : Z) (m : mem_state) (pg : list Z) (np nmp : Z).
Context (Hn : 0 <= n <= 30) (Hln : 0 < line m) (Hps : pagesize m = line m * 2 ^ n) (Hnp : 0 < np <= nmp).
Context (Hpg : pg ≡ₚ (fun i => i * pagesize m) <$> seqZ 0 nmp).
Context (Hpages : pages m = Some pg).
Abbreviation ws := (Some (word n (line m) <$> seqZ 0 (2 ^ n))).
Abbreviation w j := (word n (line m) (j mod 2 ^ n)).
Abbreviation A := (thrash_addr n m pg np).

Lemma thrash_index i j : 0 <= i < np -> A (j * np + i) = base m + (page_at pg i + w (i + j)).
Proof.
  intros Hi. unfold thrash_addr. rewrite Z.div_add_l, Z.div_small, Z.add_0_r by lia. by rewrite (Z.add_comm (j * np) i), Z.mod_add, Z.mod_small by lia.
Qed.

Lemma thrash_next i j : 0 <= i < np -> 0 <= j < 2 ^ n -> A ((j * np + i + 1) mod (np * 2 ^ n)) =
  base m + (if i <? np - 1 then page_at pg (i + 1) + w (i + j + 1) else page_at pg 0 + w (j + 1)).
Proof.
  intros Hi Hj. destruct (Z.ltb_spec i (np - 1)).
  - rewrite Z.mod_small by nia. rewrite <- Z.add_assoc, thrash_index by lia. by replace (i + 1 + j) with (i + j + 1) by lia.
  - assert (i = np - 1) as -> by lia. replace (j * np + (np - 1) + 1) with ((j + 1) * np + 0) by lia. destruct (decide (j + 1 < 2 ^ n)).
    + rewrite Z.mod_small by nia. rewrite thrash_index by lia. by rewrite Z.add_0_l.
    + assert (Ej : j + 1 = 2 ^ n) by lia. rewrite Ej. replace (2 ^ n * np + 0) with (np * 2 ^ n) by lia. rewrite Z.mod_same by nia.
      change (A 0) with (A (0 * np + 0)). rewrite (thrash_index 0 0) by lia. by rewrite Z.mod_same, Z.add_0_l, Z.mod_0_l by lia.
Qed.

Lemma thrash_inj i j : 0 <= i < np * 2 ^ n -> 0 <= j < np * 2 ^ n -> A i = A j -> i = j.
Proof.
  intros Hi Hj E. assert (Hp : 0 < 2 ^ n) by lia.
  pose proof (Z.div_mod i np ltac:(lia)) as Di. pose proof (Z.div_mod j np ltac:(lia)) as Dj.
  pose proof (Z.mod_pos_bound i np ltac:(lia)) as Mi. pose proof (Z.mod_pos_bound j np ltac:(lia)) as Mj.
  assert (Qi : 0 <= i / np < 2 ^ n) by nia. assert (Qj : 0 <= j / np < 2 ^ n) by nia. unfold thrash_addr in E.
  set (a := (i mod np + i / np) mod 2 ^ n) in *. set (b := (j mod np + j / np) mod 2 ^ n) in *.
  assert (Ma : 0 <= a < 2 ^ n) by (apply Z.mod_pos_bound; lia). assert (Mb : 0 <= b < 2 ^ n) by (apply Z.mod_pos_bound; lia).
  destruct (word_range n (line m) a ltac:(lia) Hln) as (x & Hx & Ex), (word_range n (line m) b ltac:(lia) Hln) as (y & Hy & Ey).
  destruct (page_offset_inj pg (pagesize m) nmp ltac:(nia) Hpg (i mod np) (j mod np) (word n (line m) a) (word n (line m) b)) as [E1 E2];
    [lia | lia | rewrite Ex; nia | rewrite Ey; nia | lia |].
  apply word_inj in E2; try done; [| lia]. unfold a, b in E2. rewrite E1 in E2.
  apply shift_mod_inj in E2; [nia | done ..].
Qed.

(** The stores of page [i]. *)
Definition thrash_links (i : Z) : list (Z * Z) :=
  concat ((fun j => [(base m + (page_at pg i + w (i + j)),
    base m + (if i <? np - 1 then page_at pg (i + 1) + w (i + j + 1) else page_at pg 0 + w (j + 1)))]) <$> seqZ 0 (2 ^ n)).

Lemma thrash_links_spec a v : (a, v) ∈ concat (thrash_links <$> seqZ 0 np) <->
  exists k, 0 <= k < np * 2 ^ n /\ a = A k /\ v = A ((k + 1) mod (np * 2 ^ n)).
Proof.
  assert (Hp : 0 < 2 ^ n) by lia. rewrite elem_loop. unfold thrash_links. setoid_rewrite elem_loop. setoid_rewrite list_elem_of_singleton. split.
  - intros (i & Hi & j & Hj & [= -> ->]). exists (j * np + i). split; [nia |]. by rewrite thrash_index, thrash_next by lia.
  - intros (k & Hk & -> & ->). pose proof (Z.div_mod k np ltac:(lia)) as Dk. pose proof (Z.mod_pos_bound k np ltac:(lia)) as Mk.
    exists (k mod np). split; [lia |]. exists (k / np). assert (0 <= k / np < 2 ^ n) by nia. split; [lia |].
    rewrite <- thrash_index, <- thrash_next by lia. by replace (k / np * np + k mod np) with k by lia.
Qed.

Lemma thrash_page i last next (s : st W) : 0 <= i < np ->
  (if i <? np - 1 then last = page_at pg (i + 1) /\ (forall j, next j = i + j + 1) else last = page_at pg 0 /\ (forall j, next j = j + 1)) ->
  for_c 0 (2 ^ n) (fun j s => thrash_link (base m) (2 ^ n) (page_at pg i) last i (next j) ws j s) s = stores (thrash_links i) s.
Proof.
  intros Hi H. rewrite (for_stores (fun j => [(base m + (page_at pg i + w (i + j)), base m + (last + w (next j)))])).
  - rewrite Z.sub_0_r. unfold thrash_links. f_equal. f_equal. apply list_fmap_ext. intros k j Hj. do 3 f_equal.
    destruct (i <? np - 1); destruct H as [-> H]; by rewrite H.
  - intros j t Hj. unfold thrash_link, umod. destruct (Z.eqb_spec (2 ^ n) 0); [lia |]. rewrite !bind_Ret.
    rewrite word_get, !bind_Ret, word_get, bind_Ret by (apply Z.mod_pos_bound; lia). cbn [stores fst snd]. by destruct (store _ _ t).
Qed.
End Thrash.

Lemma thrash_initialize_ok m n s : shape m n -> len m mod pagesize m = 0 ->
  (exists c, thrash_initialize sys 0 m s = Exit c /\ refused sys) \/
  (exists m' s', thrash_initialize sys 0 m s = Ret (m', s') /\ initialized m' = false /\ refused sys) \/
  (exists m' s' pg, thrash_initialize sys 0 m s = Ret (m', s') /\
     pg ≡ₚ (fun i => i * pagesize m) <$> seqZ 0 (page_count m (maxlen m)) /\
     aget (p m') 0 = Some (thrash_addr n m' pg (page_count m (len m)) 0) /\ line m' = line m /\
     ring s' (page_count m (len m) * 2 ^ n) (thrash_addr n m' pg (page_count m (len m)))).
Proof.
  intros Hs Hmod. pose proof Hs as []. destruct (shape_page m n Hs) as (Hn & Hl & Hp & _ & _).
  destruct (counts_small m n Hs) as (I0 & I1 & I2 & I3 & I4 & I5 & I6). unfold thrash_initialize.
  destruct (base_ok sys m n s Hs) as [[-> Rf] | [(m1 & s1 & -> & Hi & Rf) | (m1 & s1 & pg & -> & Hpr & _)]]; [left; by exists 1 | right; left |].
  { rewrite bind_Ret, Hi. by eexists _, _. }
  pose proof Hpr as [Hinit (Ep & Ew & El & Eml & Eln & Eps) Hpg Hperm Haddr Hbl Hbase Hnl Hnp Hnw Hcells Hrr Hres Hwords]. rewrite bind_Ret, Hinit. cbn [negb].
  unfold umod, udiv. rewrite El, Eps, Eln. destruct (Z.eqb_spec (pagesize m) 0), (Z.eqb_spec (line m) 0); try lia.
  rewrite bind_Ret, Hmod. change (0 =? 0) with true. cbn [negb]. rewrite bind_Ret.
  assert (Ed : pagesize m / line m = 2 ^ n) by (rewrite sh_page0, Z.mul_comm, Z.div_mul; lia). rewrite Ed.
  change (line (set_nwords (2 ^ n) m1)) with (line m1). rewrite Eln, i32_small by done.
  destruct (words_ok sys n (line m) s1) as (r & s2 & -> & [[-> Rf] | (-> & q & t & ->)]); [lia | lia | lia | |].
  { left. rewrite bind_Ret. by exists 2. }
  rewrite bind_Ret. right; right. set (m2 := set_words _ _). set (s2 := set_perm_r _ _). set (np := page_count m (len m)) in *.
  change (npages m2) with (npages m1). change (base m2) with (base m1). change (pages m2) with (pages m1). rewrite Hnp, Hpg.
  rewrite wrap_u_small by (unfold is_int, INT_MAX in I2; lia).
  assert (Hpr2 : prepared sys m s n m1 s2 pg) by (constructor; done).
  assert (Hget : forall i, 0 <= i < np -> elem (Some pg) i = Ret (page_at pg i)) by (intros; apply page_at_get; rewrite (pages_length pg _ _ Hperm); lia).
  assert (Hpage : forall i last next (u : st W), 0 <= i < np ->
    (if i <? np - 1 then last = page_at pg (i + 1) /\ (forall j, next j = i + j + 1) else last = page_at pg 0 /\ (forall j, next j = j + 1)) ->
    for_c 0 (2 ^ n) (fun j u => thrash_link (base m1) (2 ^ n) (page_at pg i) last i (next j) (Some (word n (line m) <$> seqZ 0 (2 ^ n))) j u) u =
    stores (thrash_links n m2 pg np i) u).
  { intros i last next u Hi Hnx. rewrite <- Eln. by eapply (thrash_page n m2 pg np); try lia. }
  destruct (ring_stores s2 (np * 2 ^ n) (thrash_addr n m2 pg np) (concat (thrash_links n m2 pg np <$> seqZ 0 np))) as (s3 & E3 & _ & Hr).
  - nia.
  - apply (thrash_inj n m2 pg np (page_count m (maxlen m))); cbn; rewrite ?Eln, ?Eps; (lia || done).
  - intros k Hk. destruct (word_range n (line m) ((k mod np + k / np) mod 2 ^ n) ltac:(lia) ltac:(lia)) as (x & Hx & Ex).
    unfold thrash_addr. change (line m2) with (line m1). change (base m2) with (base m1). rewrite Eln, Ex, Z.add_assoc.
    apply (page_accessible sys m n s m1 _ pg); [done | done | | nia | nia |].
    + pose proof (Z.mod_pos_bound k np). lia.
    + rewrite Z.mul_mod, sh_ptr0, Z.mul_0_r by lia. done.
  - apply (thrash_links_spec n m2 pg np (page_count m (maxlen m))); lia.
  - rewrite (for_stores (thrash_links n m2 pg np)).
    + replace (np - 1 - 0) with (np - 1) by lia.
      assert (Es : concat (thrash_links n m2 pg np <$> seqZ 0 np) = concat (thrash_links n m2 pg np <$> seqZ 0 (np - 1)) ++ thrash_links n m2 pg np (np - 1)).
      { replace (seqZ 0 np) with (seqZ 0 (np - 1) ++ [np - 1]); [by rewrite fmap_app, concat_app; cbn; rewrite app_nil_r |].
        replace np with (np - 1 + 1) at 3 by lia. rewrite seqZ_app by lia. done. }
      rewrite Es, stores_app in E3. apply bind_Ret_inv in E3 as (s4 & E4 & E5). rewrite E4, bind_Ret, !Hget, !bind_Ret by lia.
      rewrite (Hpage (np - 1) (page_at pg 0) (fun j => j + 1)); [| lia | destruct (Z.ltb_spec (np - 1) (np - 1)); [lia | done]].
      rewrite E5, bind_Ret, put_p_ok by (cbn; rewrite Ep, sh_p0; lia). rewrite bind_Ret. eexists _, _, pg. split; [reflexivity |].
      split; [done |]. split; [| split; [done | by apply (ring_same s3)]].
      cbn. unfold aget. cbn. rewrite list_lookup_insert_eq by (rewrite Ep, sh_p0; lia). f_equal.
      unfold thrash_addr. rewrite Z.mod_0_l, Z.div_0_l, Z.mod_0_l, word_0 by lia. cbn. lia.
    + intros i u Hi. rewrite !Hget, !bind_Ret by lia.
      rewrite (Hpage i (page_at pg (i + 1)) (fun j => i + j + 1)); [done | lia | destruct (Z.ltb_spec i (np - 1)); [done | lia]].
Qed.
End Rings.
End LmMemRings.
