(* ===== verification/LmMemFull.v ===== *)
(** * lmbench/src/lib_mem.c: the chain through every pointer of the block

    [mem_initialize], for one pointer at a time ([width] 1) and whole pages. *)
From S2P Require Import Prelude LmTiming LmMem LmMemWords LmMemProofs.

Module LmMemFull.
Import LmMem LmMemWords LmMemChain LmMemProofs.

(** The [k]-th pointer: all lines of all pages, then the same with the next word of each line. *)
Definition mem_addr (n b : Z) (m : mem_state) (pg : list Z) (np k : Z) : Z :=
  line_addr n m pg (k mod (np * 2 ^ n)) + word b 8 (k / (np * 2 ^ n)).

Section Full.
Context {W : Type} (sys : sys W).
Implicit Types s : st W.
Context (n b : Z) (m : mem_state) (pg : list Z) (np nmp : Z).
Context (Hn : 0 <= n <= 30) (Hb : 0 <= b <= 30) (Hln : line m = 8 * 2 ^ b) (Hps : pagesize m = line m * 2 ^ n) (Hnp : 0 < np <= nmp).
Context (Hpg : pg ≡ₚ (fun i => i * pagesize m) <$> seqZ 0 nmp).
Context (Hpages : pages m = Some pg) (Hlines : lines m = Some (word n (line m) <$> seqZ 0 (2 ^ n))).
Context (Hwords : words m = Some (word b 8 <$> seqZ 0 (2 ^ b))).
Abbreviation N1 := (np * 2 ^ n).
Abbreviation L := (mem_addr n b m pg np).
Abbreviation A i j := (base m + page_at pg i + word n (line m) j).

Lemma pow_n : 0 < 2 ^ n.
Proof. lia. Qed.
Lemma pow_b : 0 < 2 ^ b.
Proof. lia. Qed.
Lemma line_pos : 0 < line m.
Proof. pose proof pow_b. lia. Qed.

Lemma mem_index t i j : 0 <= i < np -> 0 <= j < 2 ^ n -> L (t * N1 + (i * 2 ^ n + j)) = A i j + word b 8 t.
Proof.
  intros Hi Hj. pose proof pow_n. unfold mem_addr.
  rewrite Z.div_add_l, (Z.div_small (i * 2 ^ n + j)), Z.add_0_r by nia.
  rewrite (Z.add_comm (t * N1)), Z.mod_add, Z.mod_small by nia. by rewrite line_index by lia.
Qed.

(** The pointer behind the one at line [j] of page [i] with word [t]. *)
Lemma mem_next t i j : 0 <= t < 2 ^ b -> 0 <= i < np -> 0 <= j < 2 ^ n ->
  L ((t * N1 + (i * 2 ^ n + j) + 1) mod (N1 * 2 ^ b)) =
    if j <? 2 ^ n - 1 then A i (j + 1) + word b 8 t
    else if i <? np - 1 then A (i + 1) 0 + word b 8 t
    else A 0 0 + word b 8 (if t =? 2 ^ b - 1 then 0 else t + 1).
Proof.
  intros Ht Hi Hj. pose proof pow_n. pose proof pow_b.
  assert (B : i * 2 ^ n + j < N1) by nia. assert (B2 : t * N1 + N1 <= N1 * 2 ^ b) by nia. destruct (Z.ltb_spec j (2 ^ n - 1)).
  - rewrite Z.mod_small by nia. replace (t * N1 + (i * 2 ^ n + j) + 1) with (t * N1 + (i * 2 ^ n + (j + 1))) by lia. by rewrite mem_index by lia.
  - assert (j = 2 ^ n - 1) as -> by lia. destruct (Z.ltb_spec i (np - 1)).
    + assert (B3 : i * 2 ^ n + 2 ^ n < N1) by nia. rewrite Z.mod_small by nia.
      replace (t * N1 + (i * 2 ^ n + (2 ^ n - 1)) + 1) with (t * N1 + ((i + 1) * 2 ^ n + 0)) by lia. by rewrite mem_index by lia.
    + assert (i = np - 1) as -> by lia. replace (t * N1 + ((np - 1) * 2 ^ n + (2 ^ n - 1)) + 1) with ((t + 1) * N1 + (0 * 2 ^ n + 0)) by lia.
      destruct (Z.eqb_spec t (2 ^ b - 1)) as [-> | Hne].
      * replace ((2 ^ b - 1 + 1) * N1 + (0 * 2 ^ n + 0)) with (N1 * 2 ^ b) by lia. rewrite Z.mod_same by nia.
        change (L 0) with (L (0 * N1 + (0 * 2 ^ n + 0))). by rewrite mem_index by lia.
      * rewrite Z.mod_small by nia. by rewrite mem_index by lia.
Qed.

Lemma mem_split k : 0 <= k < N1 * 2 ^ b -> exists t i j, 0 <= t < 2 ^ b /\ 0 <= i < np /\ 0 <= j < 2 ^ n /\ k = t * N1 + (i * 2 ^ n + j).
Proof.
  intros Hk. pose proof pow_n. assert (0 < N1) by nia. exists (k / N1), ((k mod N1) / 2 ^ n), ((k mod N1) mod 2 ^ n).
  pose proof (Z.div_mod k N1 ltac:(lia)) as D. pose proof (Z.mod_pos_bound k N1 ltac:(lia)) as M.
  pose proof (Z.div_mod (k mod N1) (2 ^ n) ltac:(lia)) as D2. pose proof (Z.mod_pos_bound (k mod N1) (2 ^ n) ltac:(lia)) as M2. split_and!; nia.
Qed.

Lemma small_word t : 0 <= t < 2 ^ b -> 0 <= word b 8 t /\ word b 8 t + 8 <= line m /\ word b 8 t mod 8 = 0.
Proof. intros Ht. destruct (word_range b 8 t ltac:(lia) ltac:(lia)) as (k & Hk & ->). rewrite Z.mod_mul by lia. lia. Qed.

Lemma mem_inj k k' : 0 <= k < N1 * 2 ^ b -> 0 <= k' < N1 * 2 ^ b -> L k = L k' -> k = k'.
Proof.
  intros Hk Hk' E. destruct (mem_split k Hk) as (t & i & j & Ht & Hi & Hj & ->), (mem_split k' Hk') as (t' & i' & j' & Ht' & Hi' & Hj' & ->).
  rewrite !mem_index in E by done. pose proof line_pos as Hl. pose proof (small_word t Ht) as W1. pose proof (small_word t' Ht') as W2.
  destruct (word_range n (line m) j ltac:(lia) Hl) as (x & Hx & Ex), (word_range n (line m) j' ltac:(lia) Hl) as (y & Hy & Ey).
  destruct (page_offset_inj pg (pagesize m) nmp ltac:(nia) Hpg i i' (word n (line m) j + word b 8 t) (word n (line m) j' + word b 8 t')) as [-> E2];
    [lia | lia | rewrite Ex; nia | rewrite Ey; nia | lia |].
  rewrite Ex, Ey in E2. assert (x = y) as <- by nia. assert (E3 : word b 8 t = word b 8 t') by lia.
  apply word_inj in E3 as <-; try lia. rewrite <- Ey in Ex. apply word_inj in Ex as <-; lia.
Qed.

(** ** The stores *)
Definition row_links (i j : Z) : list (Z * Z) :=
  concat ((fun t => [(A i j + 8 * t, A i (j + 1) + 8 * t)]) <$> seqZ 0 (2 ^ b)).
Definition rows_links (i : Z) : list (Z * Z) := concat (row_links i <$> seqZ 0 (2 ^ n - 1)).
Definition step_links (i : Z) : list (Z * Z) :=
  concat ((fun k => [(A i (2 ^ n - 1) + word b 8 k, A (i + 1) 0 + word b 8 k)]) <$> seqZ 0 (2 ^ b)).
Definition page_links (i : Z) : list (Z * Z) := rows_links i ++ (if i <? np - 1 then step_links i else []).
Definition close_links : list (Z * Z) :=
  concat ((fun k => [(A (np - 1) (2 ^ n - 1) + word b 8 k, A 0 0 + word b 8 (if k =? 2 ^ b - 1 then 0 else k + 1))]) <$> seqZ 0 (2 ^ b)).

Lemma mem_links_spec a v : (a, v) ∈ concat (page_links <$> seqZ 0 np) ++ close_links <->
  exists k, 0 <= k < N1 * 2 ^ b /\ a = L k /\ v = L ((k + 1) mod (N1 * 2 ^ b)).
Proof.
  pose proof pow_n as P1. pose proof pow_b as P2. rewrite elem_of_app, elem_loop. unfold close_links. rewrite elem_loop. setoid_rewrite list_elem_of_singleton. split.
  - assert (G : forall t i j, 0 <= t < 2 ^ b -> 0 <= i < np -> 0 <= j < 2 ^ n -> a = A i j + word b 8 t ->
       v = (if j <? 2 ^ n - 1 then A i (j + 1) + word b 8 t else if i <? np - 1 then A (i + 1) 0 + word b 8 t else A 0 0 + word b 8 (if t =? 2 ^ b - 1 then 0 else t + 1)) ->
       exists k, 0 <= k < N1 * 2 ^ b /\ a = L k /\ v = L ((k + 1) mod (N1 * 2 ^ b))).
    { intros t i j Ht Hi Hj -> ->. exists (t * N1 + (i * 2 ^ n + j)). rewrite mem_index, mem_next by done. split; [| done].
      assert (i * 2 ^ n + j < N1) by nia. assert (t * N1 + N1 <= N1 * 2 ^ b) by nia. nia. }
    intros [(i & Hi & Hin) | (k & Hk & [= -> ->])].
    + unfold page_links in Hin. apply elem_of_app in Hin as [Hin | Hin].
      * unfold rows_links in Hin. apply elem_loop in Hin as (j & Hj & Hin). apply elem_loop in Hin as (u & Hu & Hin).
        apply list_elem_of_singleton in Hin as [= -> ->]. destruct (word_onto b 8 u ltac:(lia) ltac:(lia)) as (t & Ht & Et).
        apply (G t i j); [lia | lia | lia | lia | destruct (Z.ltb_spec j (2 ^ n - 1)); lia].
      * destruct (Z.ltb_spec i (np - 1)); [| by apply elem_of_nil in Hin]. apply elem_loop in Hin as (k & Hk & Hin).
        apply list_elem_of_singleton in Hin as [= -> ->]. apply (G k i (2 ^ n - 1)); [lia | lia | lia | done |].
        destruct (Z.ltb_spec (2 ^ n - 1) (2 ^ n - 1)), (Z.ltb_spec i (np - 1)); lia.
    + apply (G k (np - 1) (2 ^ n - 1)); [lia | lia | lia | done |].
      destruct (Z.ltb_spec (2 ^ n - 1) (2 ^ n - 1)), (Z.ltb_spec (np - 1) (np - 1)); lia.
  - intros (k & Hk & -> & ->). destruct (mem_split k Hk) as (t & i & j & Ht & Hi & Hj & ->). rewrite mem_index, mem_next by done.
    destruct (Z.ltb_spec j (2 ^ n - 1)); [left; exists i; split; [lia |]; apply elem_of_app; left |].
    + unfold rows_links. apply elem_loop. exists j. split; [lia |]. destruct (word_range b 8 t ltac:(lia) ltac:(lia)) as (u & Hu & Eu).
      apply elem_loop. exists u. split; [lia |]. apply list_elem_of_singleton. f_equal; lia.
    + assert (j = 2 ^ n - 1) as -> by lia. destruct (Z.ltb_spec i (np - 1)); [left; exists i; split; [lia |] | right].
      * unfold page_links. apply elem_of_app. right. destruct (Z.ltb_spec i (np - 1)); [| lia]. apply elem_loop. exists t. split; [lia |]. by apply list_elem_of_singleton.
      * assert (i = np - 1) as -> by lia. exists t. split; [lia | done].
Qed.

(** ** The loops *)
Lemma full_page i : 0 <= i < np -> elem (pages m) i = Ret (page_at pg i).
Proof. intros Hi. rewrite Hpages. apply page_at_get. rewrite (pages_length pg _ _ Hpg) by lia. lia. Qed.
Lemma full_line j : 0 <= j < 2 ^ n -> elem (lines m) j = Ret (word n (line m) j).
Proof. intros Hj. rewrite Hlines. by apply word_get. Qed.
Lemma full_word j : 0 <= j < 2 ^ b -> elem (words m) j = Ret (word b 8 j).
Proof. intros Hj. rewrite Hwords. by apply word_get. Qed.

Lemma link_line_eq P i j s : 0 <= i < np -> 0 <= j < 2 ^ n - 1 -> mem_link_line (set_p P m) i j s = stores (row_links i j) s.
Proof.
  intros Hi Hj. unfold mem_link_line, row_links, SIZEOF_PTR. change (line (set_p P m)) with (line m).
  assert (E : (line m + 8 - 1) / 8 = 2 ^ b) by (rewrite Hln; replace (8 * 2 ^ b + 8 - 1) with (7 + 2 ^ b * 8) by lia; rewrite Z.div_add by lia; done).
  rewrite E. rewrite (for_stores (fun t => [(A i j + 8 * t, A i (j + 1) + 8 * t)])); [by rewrite Z.sub_0_r |].
  intros t u Ht. change (pages (set_p P m)) with (pages m). change (lines (set_p P m)) with (lines m). rewrite full_page, !full_line, !bind_Ret by lia.
  change (base (set_p P m)) with (base m). cbn [stores fst snd]. by destruct (store _ _ u).
Qed.
Lemma link_page_eq P i s : 0 <= i < np - 1 -> mem_link_page (set_p P m) (2 ^ b) i (2 ^ n - 1) s = stores (step_links i) s.
Proof.
  intros Hi. pose proof pow_n. unfold mem_link_page, step_links.
  rewrite (for_stores (fun k => [(A i (2 ^ n - 1) + word b 8 k, A (i + 1) 0 + word b 8 k)])); [by rewrite Z.sub_0_r |].
  intros k u Hk. change (pages (set_p P m)) with (pages m). change (lines (set_p P m)) with (lines m). change (words (set_p P m)) with (words m).
  rewrite !full_page, !full_line, full_word, !bind_Ret by lia. change (base (set_p P m)) with (base m). cbn [stores fst snd].
  by destruct (store _ _ u).
Qed.
Lemma close_eq P s : mem_close (set_p P m) (2 ^ b) np (2 ^ n - 1) s = stores close_links s.
Proof.
  pose proof pow_n. pose proof pow_b. unfold mem_close, close_links.
  rewrite (for_stores (fun k => [(A (np - 1) (2 ^ n - 1) + word b 8 k, A 0 0 + word b 8 (if k =? 2 ^ b - 1 then 0 else k + 1))])); [by rewrite Z.sub_0_r |].
  intros k u Hk. change (pages (set_p P m)) with (pages m). change (lines (set_p P m)) with (lines m). change (words (set_p P m)) with (words m).
  rewrite !full_page, !full_line, !full_word, !bind_Ret by (destruct (Z.eqb_spec k (2 ^ b - 1)); lia). change (base (set_p P m)) with (base m).
  cbn [stores fst snd]. by destruct (store _ _ u).
Qed.

Context (Hwidth : width m = 1) (Hn1 : 1 <= n).
(** [p[0]] is set with the first line. *)
Abbreviation start := (base m + page_at pg 0 + word n (line m) 0 + word b 8 0).
Definition placed (l : Z) (P : list Z) : list Z := if l =? 0 then <[O := start]> P else P.

Lemma pow_n2 : 2 <= 2 ^ n.
Proof. change 2 with (2 ^ 1) at 1. apply Z.pow_le_mono_r; lia. Qed.

Lemma mem_place_eq P i j l : 0 <= i < np -> 0 <= j < 2 ^ n - 1 -> l = i * (2 ^ n - 1) + j -> length P = 16%nat ->
  mem_place N1 (2 ^ b) i j l (set_p P m) = Ret (set_p (placed l P) m).
Proof.
  intros Hi Hj Hl HP. pose proof pow_n2. pose proof pow_b. unfold mem_place. change (width (set_p P m)) with (width m). rewrite Hwidth. change (1 =? 0) with false.
  cbn iota. rewrite Z.quot_1_r. destruct (Z.eqb_spec N1 0); [nia |]. assert (l < N1) by nia. rewrite Z.rem_small, Z.quot_small by nia. unfold placed.
  destruct (Z.eqb_spec l 0) as [-> | Hne]; [| done]. change (0 <? MAX_MEM_PARALLELISM) with true. cbn [andb]. destruct (Z.eqb_spec (2 ^ b) 0); [lia |].
  assert (i = 0 /\ j = 0) as [-> ->] by nia. change (pages (set_p P m)) with (pages m). change (lines (set_p P m)) with (lines m). change (words (set_p P m)) with (words m).
  rewrite Z.rem_0_l, full_page, full_line, full_word, !bind_Ret by lia. rewrite put_p_ok; [done |]. cbn. rewrite HP. lia.
Qed.

Lemma mem_page_eq i : 0 <= i < np -> forall fuel j l P s,
  2 ^ n - 1 - j <= Z.of_nat fuel -> 0 <= j <= 2 ^ n - 1 -> l = i * (2 ^ n - 1) + j -> length P = 16%nat ->
  mem_page fuel N1 (2 ^ b) (2 ^ n) i j l (set_p P m) s =
    (s ← stores (concat (row_links i <$> seqZ j (2 ^ n - 1 - j))) s;
     Ret (2 ^ n - 1, (i + 1) * (2 ^ n - 1), set_p (placed l P) m, s)).
Proof.
  intros Hi. pose proof pow_n2 as P2. induction fuel as [| fuel IH]; intros j l P s Hf Hj Hl HP; cbn [mem_page].
  - assert (j = 2 ^ n - 1) as -> by lia. destruct (Z.ltb_spec (2 ^ n - 1) (2 ^ n - 1)); [lia |]. cbn [andb]. rewrite seqZ_nil by lia. cbn.
    unfold placed. destruct (Z.eqb_spec l 0); [nia |]. do 4 f_equal. lia.
  - destruct (Z.ltb_spec j (2 ^ n - 1)) as [Hlt | Hge].
    + destruct (Z.ltb_spec l (N1 - 1)); [| nia]. cbn [andb]. rewrite link_line_eq, mem_place_eq by (lia || done).
      rewrite seqZ_cons by lia. rewrite fmap_cons, concat_cons, stores_app, bind_assoc_cres. apply bind_ext. intros u. rewrite bind_Ret.
      rewrite IH by (lia || (unfold placed; destruct (l =? 0); by rewrite ?length_insert)).
      replace (Z.succ j) with (j + 1) by lia. replace (Z.pred (2 ^ n - 1 - j)) with (2 ^ n - 1 - (j + 1)) by lia.
      apply bind_ext. intros v. do 3 f_equal. unfold placed. destruct (Z.eqb_spec (l + 1) 0); [nia |]. done.
    + assert (j = 2 ^ n - 1) as -> by lia. cbn [andb]. rewrite seqZ_nil by lia. cbn.
      unfold placed. destruct (Z.eqb_spec l 0); [nia |]. do 4 f_equal. lia.
Qed.

Lemma mem_pages_eq k : forall i j l P s, i = np - Z.of_nat k -> 0 <= i -> l = i * (2 ^ n - 1) -> length P = 16%nat ->
  mem_pages k N1 (2 ^ b) (2 ^ n) np i j l (set_p P m) s =
    (s ← stores (concat (page_links <$> seqZ i (np - i))) s;
     Ret (if (k =? 0)%nat then j else 2 ^ n - 1, set_p (if (k =? 0)%nat then P else placed l P) m, s)).
Proof.
  pose proof pow_n2 as P2. induction k as [| k IH]; intros i j l P s Hi H0 Hl HP; cbn [mem_pages].
  - rewrite seqZ_nil by lia. done.
  - rewrite mem_page_eq by lia. rewrite bind_assoc_cres. rewrite (seqZ_cons i) by lia. rewrite fmap_cons, concat_cons.
    unfold page_links at 1. rewrite <- app_assoc, stores_app, bind_assoc_cres. unfold rows_links. rewrite Z.sub_0_r. apply bind_ext. intros u.
    rewrite bind_Ret, stores_app, bind_assoc_cres.
    assert (E : (if i <? np - 1 then mem_link_page (set_p (placed l P) m) (2 ^ b) i (2 ^ n - 1) u else Ret u) =
                stores (if i <? np - 1 then step_links i else []) u).
    { destruct (Z.ltb_spec i (np - 1)); [apply link_page_eq; lia | done]. }
    rewrite E. apply bind_ext. intros v. rewrite IH by (lia || (unfold placed; destruct (l =? 0); by rewrite ?length_insert)).
    replace (Z.succ i) with (i + 1) by lia. replace (Z.pred (np - i)) with (np - (i + 1)) by lia. apply bind_ext. intros x.
    destruct k; [done |]. cbn. unfold placed. destruct (Z.eqb_spec ((i + 1) * (2 ^ n - 1)) 0); [nia | done].
Qed.
End Full.

(** What [mem_initialize] leaves when it succeeds. *)
Record mem_chain_built {W} (sys : sys W) (m : mem_state) (n b : Z) (m' : mem_state) (s' : st W) (pg : list Z) : Prop := {
  mc_init : initialized m' = true;
  mc_options : len m' = len m /\ maxlen m' = maxlen m /\ line m' = line m /\ pagesize m' = pagesize m /\ width m' = 1;
  mc_counts : nlines m' = 2 ^ n /\ npages m' = page_count m (len m) /\ nwords m' = 2 ^ b;
  mc_pages : pages m' = Some pg;
  mc_lines : lines m' = Some (word n (line m) <$> seqZ 0 (2 ^ n));
  mc_words : words m' = Some (word b 8 <$> seqZ 0 (2 ^ b));
  mc_perm : pg ≡ₚ (fun i => i * pagesize m) <$> seqZ 0 (page_count m (maxlen m));
  mc_p : length (p m') = 16%nat;
  mc_start : aget (p m') 0 = Some (mem_addr n b m' pg (page_count m (len m)) 0);
  mc_ring : ring s' (page_count m (len m) * 2 ^ n * 2 ^ b) (mem_addr n b m' pg (page_count m (len m)));
  mc_addr : exists k w, fst (sys_malloc sys k w) = Some (addr m');
  mc_block : blocks s' !! addr m' = Some (maxlen m + 2 * pagesize m);
  mc_access : forall i o, 0 <= i < page_count m (maxlen m) -> 0 <= o -> o + 8 <= pagesize m -> o mod 8 = 0 ->
    accessible s' (base m' + page_at pg i + o) = true
}.

Lemma whole_pages m n : shape m n -> len m mod pagesize m = 0 -> len m = page_count m (len m) * pagesize m.
Proof.
  intros Hs Hm. destruct (shape_page m n Hs) as (_ & _ & Hp & _ & _). destruct Hs. unfold page_count.
  pose proof (Z.div_mod (len m) (pagesize m) ltac:(lia)) as D. rewrite Hm in D.
  assert (E : (len m + pagesize m - 1) / pagesize m = len m / pagesize m); [| rewrite E; lia].
  replace (len m + pagesize m - 1) with ((pagesize m - 1) + len m / pagesize m * pagesize m) by lia. rewrite Z.div_add, Z.div_small by lia. lia.
Qed.

Lemma mem_initialize_ok {W} (sys : sys W) m n b (s : st W) :
  shape m n -> 1 <= n -> 0 <= b <= 30 -> line m = 8 * 2 ^ b -> width m = 1 -> len m mod pagesize m = 0 ->
  (mem_initialize sys 0 m s = Exit 1 /\ refused sys) \/
  (exists m' s', mem_initialize sys 0 m s = Ret (m', s') /\ initialized m' = false /\ refused sys) \/
  (exists m' s' pg, mem_initialize sys 0 m s = Ret (m', s') /\ mem_chain_built sys m n b m' s' pg).
Proof.
  intros Hs Hn1 Hb Hlb Hw Hmod. pose proof Hs as []. destruct (shape_page m n Hs) as (Hn & Hl & Hp & _ & _).
  destruct (counts_small m n Hs) as (I0 & I1 & I2 & I3 & I4 & I5 & I6). pose proof (whole_pages m n Hs Hmod) as Hlen.
  set (np := page_count m (len m)) in *. assert (Pb : 0 < 2 ^ b) by lia.
  assert (Hq : len m / line m = np * 2 ^ n) by (rewrite Hlen, sh_page0; replace (np * (line m * 2 ^ n)) with (np * 2 ^ n * line m) by lia; apply Z.div_mul; lia).
  assert (Ib : is_int (2 ^ b) /\ is_int (np * 2 ^ n) /\ is_int (2 ^ b * (np * 2 ^ n)) /\ is_int (2 ^ b * (np * 2 ^ n) + 100)).
  { assert (8 * (2 ^ b * (np * 2 ^ n)) = len m) by (rewrite Hlen at 1; rewrite sh_page0, Hlb; lia).
    assert (0 < np * 2 ^ n) by nia. assert (8 * 2 ^ b <= pagesize m) by nia. unfold is_int, INT_MIN, INT_MAX in *. change (2 ^ 30) with 1073741824 in *. nia. }
  destruct Ib as (J1 & J2 & J3 & J4). unfold mem_initialize. change (0 =? 0) with true. cbn [negb].
  destruct (base_ok sys m n s Hs) as [[-> Rf] | [(m1 & s1 & -> & Hi & Rf) | (m1 & s1 & pg & -> & Hpr & _)]]; [by left | right; left | ].
  { rewrite bind_Ret, Hi. by eexists _, _. }
  pose proof Hpr as [Hinit (Ep & Ew & El & Eml & Eln & Eps) Hpg Hperm Haddr Hbl Hbase Hnl Hnp Hnw Hcells Hrr Hres Hwords]. rewrite bind_Ret, Hinit. cbn [negb].
  cbn [len line nwords nlines npages set_initialized]. rewrite El, Eln, Hnw, Hnl, Hnp. unfold udiv. destruct (Z.eqb_spec (line m) 0); [lia |]. rewrite bind_Ret, Hq.
  assert (E8 : line m / 8 = 2 ^ b) by (rewrite Hlb, Z.mul_comm; apply Z.div_mul; lia). rewrite E8, !i32_small by done.
  rewrite (wrap_u_small 64 (2 ^ b)), (wrap_u_small 64 (2 ^ n)) by (split; [lia |]; apply Z.pow_lt_mono_r; lia).
  change SIZEOF_PTR with 8. destruct (words_ok sys b 8 s1) as (ws & s2 & -> & Hws); [lia | lia | unfold is_int, INT_MAX in J1; lia |]. rewrite bind_Ret.
  destruct (words_ok sys n (line m) s2) as (ls & s3' & -> & Hls); [lia | lia | lia |]. rewrite bind_Ret.
  destruct Hws as [[-> Rf] | (-> & r & t & ->)]; [by left |]. destruct Hls as [[-> Rf] | (-> & r2 & t2 & ->)]; [by left |]. right; right.
  set (m2 := set_lines _ _). set (s3 := set_perm_r r2 _).
  assert (Hpr2 : prepared sys m s n m1 s3 pg) by (constructor; done).
  assert (Em : m2 = set_p (p m) m2) by (unfold m2; rewrite <- Ep; done).
  pose proof (mem_pages_eq n b m2 pg np (page_count m (maxlen m)) ltac:(lia) ltac:(lia) ltac:(cbn; lia) ltac:(lia) ltac:(cbn; rewrite Eps; exact Hperm)
    Hpg ltac:(cbn; by rewrite Eln) eq_refl ltac:(cbn; lia) Hn1 (Z.to_nat np) 0 (2 ^ n - 1) 0 (p m) s3 ltac:(lia) ltac:(lia) ltac:(lia) sh_p0) as Epg.
  rewrite <- Em in Epg. fold np. rewrite Epg, Z.sub_0_r, bind_assoc_cres. destruct (Nat.eqb_spec (Z.to_nat np) 0); [lia |].
  set (m3 := set_p _ m2).
  destruct (ring_stores s3 (np * 2 ^ n * 2 ^ b) (mem_addr n b m2 pg np) (concat (page_links n b m2 pg np <$> seqZ 0 np) ++ close_links n b m2 pg np))
    as (s4 & E4 & Es4 & Hr).
  - nia.
  - apply (mem_inj n b m2 pg np (page_count m (maxlen m))); cbn; rewrite ?Eln, ?Eps; (lia || done).
  - intros k Hk. destruct (mem_split n b np (page_count m (maxlen m)) ltac:(lia) ltac:(lia) ltac:(lia) k Hk) as (u & i & j & Hu & Hi & Hj & ->).
    rewrite (mem_index n b m2 pg np (page_count m (maxlen m))) by lia. change (line m2) with (line m1). change (base m2) with (base m1). rewrite Eln.
    destruct (word_range n (line m) j ltac:(lia) ltac:(lia)) as (x & Hx & Ex). destruct (word_range b 8 u ltac:(lia) ltac:(lia)) as (y & Hy & Ey).
    rewrite <- Z.add_assoc. apply (page_accessible sys m n s m1 _ pg); [done | done | lia | nia | rewrite Ex, Ey; nia |].
    rewrite Ex, Ey, Hlb. replace (x * (8 * 2 ^ b) + y * 8) with ((x * 2 ^ b + y) * 8) by lia. apply Z.mod_mul. lia.
  - apply (mem_links_spec n b m2 pg np (page_count m (maxlen m))); lia.
  - rewrite stores_app in E4. apply bind_Ret_inv in E4 as (s5 & E5 & E6). rewrite E5, !bind_Ret.
    unfold m3. rewrite (close_eq n b m2 pg np (page_count m (maxlen m))); [| lia | lia | lia | cbn; rewrite Eps; exact Hperm | done | cbn; by rewrite Eln | done].
    fold m3. rewrite E6, bind_Ret, int_ok, bind_Ret, int_ok, bind_Ret by done. change (width m3) with (width m1). rewrite Ew, Hw.
    change (mem_benchmarks (1 - 1)) with (mem_benchmark (W := W) 0).
    assert (A0 : base m2 + page_at pg 0 + word n (line m2) 0 + word b 8 0 = mem_addr n b m2 pg np 0).
    { unfold mem_addr, line_addr. by rewrite Z.mod_0_l, !Z.div_0_l, Z.mod_0_l by nia. }
    assert (Ep3 : p m3 = mem_addr n b m2 pg np 0 :: tail (p m)).
    { unfold m3, placed. cbn [p set_p]. change (0 =? 0) with true. cbn iota. rewrite A0. by destruct (p m). }
    destruct (benchmark_ok 0 (u64 (Z.quot (2 ^ b * (np * 2 ^ n) + 100) 100)) m3 (mem_reset s4) (np * 2 ^ n * 2 ^ b) (mem_addr n b m2 pg np))
      as (s6 & -> & Hsm & _); [by apply (ring_same s4) | done | |].
    { rewrite Ep3. cbn. constructor; [| constructor]. exists 0. split; [nia | done]. }
    rewrite bind_Ret. eexists _, s6, pg. split; [reflexivity |].
    assert (Hmem : cells s6 = cells s4 /\ blocks s6 = blocks s1) by (destruct Hsm as [-> ->]; by rewrite Es4).
    constructor; try done.
    + cbn. by rewrite El, Eml, Eln, Eps, Ew, Hw.
    + cbn. by rewrite Hnl, Hnp, Hnw, E8.
    + cbn [p set_initialized]. rewrite Ep3. cbn. destruct (p m); [done |]. cbn in *. lia.
    + cbn [p set_initialized]. rewrite Ep3. done.
    + apply (ring_same s4); [split; [exact (proj1 Hmem) | rewrite (proj2 Hmem), Es4; done] | exact Hr].
    + destruct Hmem as [_ ->]. rewrite Hbl. apply lookup_insert_eq.
    + intros i o Hi Ho Ho2 Ho3. pose proof (page_accessible sys m n s m1 _ pg i o Hs Hpr2 Hi Ho Ho2 Ho3) as X. unfold accessible in *.
      destruct Hmem as [_ ->]. exact X.
Qed.
End LmMemFull.
