(* ===== verification/LmMemTest.v ===== *)
(** * lmbench/src/lib_mem.c: [line_test] and [line_find]

    [line_test] links only the first lines of each page for a while; the chain it leaves is
    the one it found.  [line_find] ends and gives its memory back. *)
From S2P Require Import Prelude Doubles LmTiming LmTimingProofs LmHarness LmMem LmMemWords LmMemProofs.

Module LmMemTest.
Import Doubles LmMem LmMemWords LmMemChain LmMemProofs.

Section Test.
Context {W : Type} (sys : sys W).
Implicit Types s : st W.

(** ** Measuring changes the stop watch and the world only *)
Definition timed s s' : Prop := exists t, s' = set_tm t s.
Lemma timed_refl s : timed s s.
Proof. exists (tm s). by destruct s. Qed.
Lemma timed_trans s1 s2 s3 : timed s1 s2 -> timed s2 s3 -> timed s1 s3.
Proof. intros (t & ->) (t' & ->). by exists t'. Qed.
Lemma timed_memory s s' : timed s s' -> same_memory s s'.
Proof. by intros (t & ->). Qed.

Definition results_ok (r : LmTiming.result) : Prop := 0 <= LmTiming.N r <= Z.of_nat (length (LmTiming.v r)).

Lemma insert_ok u n r : 0 <= LmTiming.N r < Z.of_nat (length (LmTiming.v r)) ->
  exists r', LmTiming.insertsort u n r = Ret r' /\ length (LmTiming.v r') = length (LmTiming.v r) /\ 0 <= LmTiming.N r' <= LmTiming.N r + 1.
Proof.
  intros Hr. destruct (Z.eq_dec u 0) as [-> | Hu]; [exists r; split_and!; [done | done | lia | lia] |].
  destruct (LmTimingProofs.insertsort_ok u n r Hr Hu) as (r' & E & E1 & E2 & _). exists r'. split_and!; [done | done | lia | lia].
Qed.

Lemma set_results_ok r s : results_ok r -> exists s', set_results r s = Ret s' /\ timed s s' /\ LmTiming.results (tm s') = r.
Proof.
  intros [H1 H2]. unfold set_results, LmTiming.set_results, LmTiming.save_median. change (LmTiming.results (LmTiming.put_results r (tm s))) with r.
  destruct (Z.eqb_spec (LmTiming.N r) 0) as [E | E].
  - rewrite !bind_Ret. eexists. split; [reflexivity |]. split; [by eexists | done].
  - assert (Hq : 0 <= Z.quot (LmTiming.N r) 2 < LmTiming.N r) by (rewrite Z.quot_div_nonneg by lia; zdiv).
    destruct (aget_Some (LmTiming.v r) (Z.quot (LmTiming.N r) 2)) as [x ->]; [lia |]. cbn [deref]. rewrite bind_Ret.
    destruct (Z.rem (LmTiming.N r) 2 =? 0) eqn:Er; cbn [negb].
    + apply Z.eqb_eq in Er. assert (1 <= Z.quot (LmTiming.N r) 2) by (rewrite Z.quot_div_nonneg by lia; rewrite Z.rem_mod_nonneg in Er by lia; zdiv).
      destruct (aget_Some (LmTiming.v r) (Z.quot (LmTiming.N r) 2 - 1)) as [y ->]; [lia |]. cbn [deref]. rewrite !bind_Ret.
      eexists. split; [reflexivity |]. split; [by eexists | done].
    + rewrite !bind_Ret. eexists. split; [reflexivity |]. split; [by eexists | done].
Qed.

(** A body that stays in a chain. *)
Definition steady {X} (P : X -> Prop) (body : Z -> X -> st W -> cres (X * st W)) (I : st W -> Prop) : Prop :=
  forall n x s, P x -> I s -> exists x' s', body n x s = Ret (x', s') /\ P x' /\ I s' /\ LmTiming.results (tm s') = LmTiming.results (tm s).

Lemma run_body_ok {X} (P : X -> Prop) body I runs : steady P body I -> forall (x : X) s, P x -> I s ->
  exists x' s', run_body body runs x s = Ret (x', s') /\ P x' /\ I s' /\ LmTiming.results (tm s') = LmTiming.results (tm s).
Proof.
  intros Hb. induction runs as [| n runs IH]; intros x s Hx Hs; cbn [run_body]; [by exists x, s |].
  destruct (Hb n x s Hx Hs) as (x1 & s1 & -> & H1 & H2 & H3). rewrite bind_Ret. destruct (IH x1 s1 H1 H2) as (x2 & s2 & -> & ? & ? & E).
  exists x2, s2. split_and!; try done. congruence.
Qed.

(** The property of the state may not look at the stop watch. *)
Definition untimed (I : st W -> Prop) : Prop := forall s s', timed s s' -> I s -> I s'.

Lemma bench1_ok {X} (P : X -> Prop) body I : untimed I -> steady P body I -> forall (x : X) s, P x -> I s ->
  exists x' s', bench1 sys body x s = Ret (x', s') /\ P x' /\ I s' /\ LmTiming.results (tm s') = LmTiming.results (tm s).
Proof.
  intros HI Hb x s Hx Hs. unfold bench1. destruct (sys_bench sys (world s)) as [[[runs u] k] w].
  destruct (run_body_ok P body I runs Hb x (set_world w s) Hx) as (x1 & s1 & -> & H1 & H2 & H3); [eapply HI; [| exact Hs]; by eexists |].
  rewrite bind_Ret. eexists _, _. split; [reflexivity |]. split_and!; [done | eapply HI; [| exact H2]; by eexists | exact H3].
Qed.

Lemma sample_ok {X} (P : X -> Prop) body I : untimed I -> steady P body I -> forall n r (x : X) s, P x -> I s ->
  0 <= LmTiming.N r -> LmTiming.N r + Z.of_nat n <= Z.of_nat (length (LmTiming.v r)) ->
  exists r' x' s', sample sys n body r x s = Ret (r', x', s') /\ I s' /\ results_ok r' /\ LmTiming.results (tm s') = LmTiming.results (tm s).
Proof.
  intros HI Hb. induction n as [| n IH]; intros r x s Hx Hs H0 Hr; cbn [sample].
  - exists r, x, s. split_and!; try done; unfold results_ok; lia.
  - destruct (bench1_ok P body I HI Hb x s Hx Hs) as (x1 & s1 & -> & H1 & H2 & E1). rewrite bind_Ret.
    destruct (insert_ok (gettime s1) (get_n s1) r ltac:(lia)) as (r1 & -> & El & En). rewrite bind_Ret.
    destruct (IH r1 x1 s1 H1 H2 ltac:(lia) ltac:(lia)) as (r2 & x2 & s2 & -> & ? & ? & E). exists r2, x2, s2. split_and!; try done. congruence.
Qed.

Lemma new_result_ok k : 0 <= k -> LmTiming.N (LmTiming.new_result k) + Z.of_nat (Z.to_nat k) <= Z.of_nat (length (LmTiming.v (LmTiming.new_result k))).
Proof. intros Hk. cbn. rewrite length_replicate. unfold LmTiming.capacity, LmTiming.TRIES. destruct (Z.leb_spec k 11); lia. Qed.

(** ** Links that are put back *)
Lemma links_restore (l1 l2 : list (Z * Z)) (c : gmap Z Z) :
  (forall a v, (a, v) ∈ l2 -> c !! a = Some v) -> (forall a, a ∈ l1.*1 -> a ∈ l2.*1) -> links l2 (links l1 c) = c.
Proof.
  intros H1 H2. apply map_eq. intros a. destruct (decide (a ∈ l2.*1)) as [Hin | Hin].
  - apply list_elem_of_fmap in Hin as ([a' v] & -> & Hin). cbn. rewrite (H1 _ _ Hin). apply links_get; [| done].
    intros v' Hv'. apply H1 in Hin, Hv'. congruence.
  - rewrite !links_other by auto. done.
Qed.

Section Short.
Context (n : Z) (m : mem_state) (pg : list Z) (np nmp nl : Z).
Context (Hn : 0 <= n <= 30) (Hln : 0 < line m) (Hps : pagesize m = line m * 2 ^ n) (Hnp : 0 < np <= nmp).
Context (Hpg : pg ≡ₚ (fun i => i * pagesize m) <$> seqZ 0 nmp).
Context (Hpages : pages m = Some pg) (Hlines : lines m = Some (word n (line m) <$> seqZ 0 (2 ^ n))).
Context (Hcount : npages m = np) (Hnl : 1 <= nl < 2 ^ n).
Abbreviation A i j := (base m + page_at pg i + word n (line m) j).
Abbreviation L := (line_addr n m pg).

Definition short_addr (k : Z) : Z := A (k / nl) (k mod nl).
Definition relinks (k : Z) (nx : Z -> Z) : list (Z * Z) := concat ((fun i => [(A i (nl - 1), A (nx i) k)]) <$> seqZ 0 np).

Lemma A_inj i j i' j' : 0 <= i < np -> 0 <= j < 2 ^ n -> 0 <= i' < np -> 0 <= j' < 2 ^ n -> A i j = A i' j' -> i = i' /\ j = j'.
Proof.
  intros Hi Hj Hi' Hj' E. rewrite <- !line_index in E by done.
  apply (line_addr_inj n m pg np nmp) in E; try done; [| nia | nia].
  destruct (Z.lt_trichotomy i i') as [? | [-> | ?]]; [nia | lia | nia].
Qed.

Lemma relinks_elem k nx a v : (a, v) ∈ relinks k nx <-> exists i, 0 <= i < np /\ a = A i (nl - 1) /\ v = A (nx i) k.
Proof.
  unfold relinks. rewrite elem_loop. setoid_rewrite list_elem_of_singleton. split; intros (i & Hi & H); exists i; [split_and!; [lia | lia | ..]; congruence |].
  destruct H as [-> ->]. split; [lia | done].
Qed.

Lemma relink_eq k nx s : 0 <= k < 2 ^ n -> (forall i, 0 <= i < np -> 0 <= nx i < np) ->
  line_relink m (nl - 1) k nx s = stores (relinks k nx) s.
Proof.
  intros Hk Hnx. unfold line_relink, relinks. rewrite Hcount. destruct (Z.eqb_spec np 0); [lia |].
  rewrite (for_stores (fun i => [(A i (nl - 1), A (nx i) k)])); [by rewrite Z.sub_0_r |]. intros i u Hi. rewrite Hpages, Hlines.
  specialize (Hnx i Hi). pose proof (pages_length pg _ _ Hpg ltac:(lia)) as Hl. rewrite !word_get, !page_at_get, !bind_Ret by lia.
  cbn [stores fst snd]. by destruct (store _ _ u).
Qed.

Context (s : st W) (Hring : ring s (np * 2 ^ n) L) (Hacc : forall i, 0 <= i < np * 2 ^ n -> accessible s (L i) = true).

Lemma cell_next i j : 0 <= i < np -> 0 <= j < 2 ^ n - 1 -> cells s !! A i j = Some (A i (j + 1)).
Proof.
  intros Hi Hj. destruct Hring as (_ & _ & Hl). assert (Hr : 0 <= i * 2 ^ n + j < np * 2 ^ n) by nia. specialize (Hl _ Hr).
  unfold load in Hl. rewrite Hacc in Hl by done. rewrite Z.mod_small in Hl by nia. rewrite <- Z.add_assoc, !line_index in Hl by lia.
  destruct (cells s !! A i j) as [v |]; cbn in Hl; [congruence | done].
Qed.
Lemma A_access i j : 0 <= i < np -> 0 <= j < 2 ^ n -> accessible s (A i j) = true.
Proof. intros Hi Hj. rewrite <- line_index by done. apply Hacc. nia. Qed.

(** The page behind page [i], the last one linked to the first. *)
Abbreviation around := (fun i => if i <? np - 1 then i + 1 else 0).

Lemma shorten : exists s1, line_relink m (nl - 1) 0 around s = Ret s1 /\ s1 = set_cells (links (relinks 0 around) (cells s)) s /\ ring s1 (np * nl) short_addr.
Proof.
  rewrite relink_eq by (lia || (intros i Hi; destruct (Z.ltb_spec i (np - 1)); lia)).
  exists (set_cells (links (relinks 0 around) (cells s)) s). split; [| split; [done |]].
  { apply stores_ok. apply Forall_forall. intros [a v] Hin. apply relinks_elem in Hin as (i & Hi & -> & _). apply A_access; lia. }
  split; [nia |]. split.
  - intros i j Hi Hj E. pose proof (Z.div_mod i nl ltac:(lia)). pose proof (Z.div_mod j nl ltac:(lia)).
    pose proof (Z.mod_pos_bound i nl ltac:(lia)). pose proof (Z.mod_pos_bound j nl ltac:(lia)). apply A_inj in E; nia.
  - intros k Hk. pose proof (Z.div_mod k nl ltac:(lia)) as D. pose proof (Z.mod_pos_bound k nl ltac:(lia)) as M. unfold short_addr at 1, load.
    assert (Hi : 0 <= k / nl < np) by nia. change (accessible (set_cells _ s)) with (accessible s). rewrite A_access by lia.
    cbn [cells set_cells]. set (i := k / nl) in *. set (j := k mod nl) in *. destruct (decide (j = nl - 1)) as [Ej | Nj].
    + rewrite (links_get _ _ _ (A (around i) 0)).
      * cbn [deref]. f_equal. unfold short_addr. destruct (Z.ltb_spec i (np - 1)).
        -- rewrite Z.mod_small by nia. replace (k + 1) with ((i + 1) * nl) by nia. by rewrite Z.div_mul, Z.mod_mul by lia.
        -- replace (k + 1) with (np * nl) by nia. by rewrite Z.mod_same, Z.div_0_l, Z.mod_0_l by nia.
      * intros v' Hv. apply relinks_elem in Hv as (i' & Hi' & E & ->). apply A_inj in E as [<- _]; try lia; done.
      * apply relinks_elem. exists i. split_and!; [lia | lia | by rewrite Ej | done].
    + rewrite links_other.
      * rewrite cell_next by lia. cbn [deref]. f_equal. unfold short_addr. rewrite Z.mod_small by nia.
        replace (k + 1) with (i * nl + (j + 1)) by nia. rewrite Z.div_add_l, (Z.div_small (j + 1)), Z.add_0_r by lia.
        by rewrite (Z.add_comm (i * nl)), Z.mod_add, Z.mod_small by lia.
      * intros Hin. apply list_elem_of_fmap in Hin as ([a v] & E & Hin). cbn in E. subst a. apply relinks_elem in Hin as (i' & Hi' & E & _).
        apply A_inj in E; lia.
Qed.

Lemma lengthen t : line_relink m (nl - 1) nl (fun i => i) (set_tm t (set_cells (links (relinks 0 around) (cells s)) s)) = Ret (set_tm t s).
Proof.
  rewrite relink_eq by lia. rewrite stores_ok.
  - cbn [cells set_tm set_cells]. rewrite links_restore; [by destruct s | |].
    + intros a v Hin. apply relinks_elem in Hin as (i & Hi & -> & ->). rewrite cell_next by lia. by replace (nl - 1 + 1) with nl by lia.
    + intros a Hin. apply list_elem_of_fmap in Hin as ([a' v] & -> & Hin). apply relinks_elem in Hin as (i & Hi & -> & _).
      apply list_elem_of_fmap. exists (A i (nl - 1), A i nl). split; [done |]. apply relinks_elem. by exists i.
  - apply Forall_forall. intros [a v] Hin. apply relinks_elem in Hin as (i & Hi & -> & _). apply A_access; lia.
Qed.
End Short.

(** ** [line_test] *)
Lemma derefs_steady s1 N L : ring s1 N L -> steady (Forall (fun a => exists i, 0 <= i < N /\ a = L i)) hundred_derefs (timed s1).
Proof.
  intros Hr k x s Hx Hs. unfold hundred_derefs.
  destruct (chase_stays s N L (Z.to_nat (100 * k)) x) as (qs & -> & _ & Hq); [eapply ring_same; [by apply timed_memory | done] | done |].
  rewrite bind_Ret. by exists qs, s.
Qed.

(** The array for the results is given back. *)
Lemma one_less_more t w s : one_less (set_tm t (one_more (set_world w s))) = Ret (set_tm t s).
Proof. reflexivity. Qed.

(** What is measured on a chain. *)
Lemma measure_ok s N L reps : ring s N L -> 0 <= reps -> results_ok (get_results s) ->
  exists r x s1 s2 s3, sample sys (Z.to_nat reps) hundred_derefs (LmTiming.new_result reps) [L 0] s = Ret (r, x, s1) /\
    set_results r s1 = Ret s2 /\ set_results (get_results s) s2 = Ret s3 /\ timed s s3 /\ get_results s3 = get_results s.
Proof.
  intros Hr Hreps Hres.
  destruct (sample_ok (Forall (fun a => exists i, 0 <= i < N /\ a = L i)) hundred_derefs (timed s)) with (n := Z.to_nat reps) (r := LmTiming.new_result reps) (x := [L 0]) (s := s)
    as (r & x & s1 & E & T1 & R1 & _).
  - intros s1 s2 H1 H2. by eapply timed_trans.
  - by apply derefs_steady.
  - constructor; [| done]. exists 0. split; [destruct Hr; lia | done].
  - apply timed_refl.
  - done.
  - by apply new_result_ok.
  - destruct (set_results_ok r s1 R1) as (s2 & E2 & T2 & _). destruct (set_results_ok (get_results s) s2 Hres) as (s3 & E3 & T3 & E4).
    exists r, x, s1, s2, s3. split_and!; try done. eapply timed_trans; [exact T1 |]. by eapply timed_trans.
Qed.

Lemma line_test_ok m0 s0 n m s pg ln reps : shape m0 n -> line_chain_built sys m0 s0 n m s pg -> 0 < ln <= pagesize m0 -> results_ok (get_results s) ->
  (line_test sys ln reps m s = Exit 1 /\ refused sys) \/
  exists t s', line_test sys ln reps m s = Ret (t, s') /\ timed s s' /\ get_results s' = get_results s.
Proof.
  intros Hs B Hln Hres. pose proof B as [_ (Bl & Bml & Bln & Bps) (Bnl & Bnp) Bpages Blines Bperm _ Bring _ _ _ _ Bacc].
  destruct (counts_small m0 n Hs) as (I0 & _). destruct (shape_page m0 n Hs) as (Hn & Hl8 & Hp & _ & _). pose proof Hs as [].
  set (np := page_count m0 (len m0)) in *. set (nmp := page_count m0 (maxlen m0)) in *.
  unfold line_test, udiv. destruct (Z.eqb_spec ln 0); [lia |]. rewrite bind_Ret, Bps. set (nl := pagesize m0 / ln).
  assert (Hnl : 1 <= nl) by (apply Z.div_le_lower_bound; lia).
  assert (Hplen : Z.of_nat (length pg) = nmp) by (apply (pages_length pg (pagesize m0)); [done | lia]).
  rewrite Bpages, Blines. rewrite word_get, page_at_get, !bind_Ret by lia.
  set (reps' := if reps <? 0 then LmTiming.TRIES else reps). assert (Hreps : 0 <= reps') by (unfold reps', LmTiming.TRIES; destruct (Z.ltb_spec reps 0); lia).
  assert (E0 : base m + page_at pg 0 + word n (line m0) 0 = line_addr n m pg 0) by (unfold line_addr; by rewrite Z.div_0_l, Z.mod_0_l, Bln by lia).
  assert (Hacc : forall i, 0 <= i < np * 2 ^ n -> accessible s (line_addr n m pg i) = true).
  { intros i Hi. unfold line_addr. pose proof (Z.mod_pos_bound i (2 ^ n) Hn) as Mi. rewrite Bln.
    destruct (word_range n (line m0) (i mod 2 ^ n) ltac:(lia) sh_line0) as (x & Hx & ->). apply Bacc; [| nia | nia |].
    - assert (i / 2 ^ n < np) by (apply Z.div_lt_upper_bound; nia). pose proof (Z.div_pos i (2 ^ n)). lia.
    - rewrite Z.mul_mod, sh_ptr0, Z.mul_0_r by lia. done. }
  destruct (Z.ltb_spec nl (nlines m)) as [Hlt | Hge]; rewrite Bnl in *.
  - destruct (shorten n m pg np nmp nl ltac:(lia) ltac:(lia) ltac:(lia) ltac:(lia) ltac:(rewrite Bps; exact Bperm) Bpages ltac:(by rewrite Bln) Bnp ltac:(lia) s Bring Hacc)
      as (s1 & Er & Es1 & Hr1).
    rewrite Bnp, Er, bind_Ret. destruct (sys_malloc _ _ _) as [[a |] w] eqn:Ea; [right | left; split; [done | eexists _, _; by rewrite Ea]]. set (s1' := one_more (set_world w s1)).
    assert (Hr1' : ring s1' (np * nl) (short_addr n m pg nl)) by (by apply (ring_same s1)).
    assert (E1 : base m + page_at pg 0 + word n (line m0) 0 = short_addr n m pg nl 0) by (unfold short_addr; by rewrite Z.div_0_l, Z.mod_0_l, Bln by lia).
    assert (Eres : get_results s1 = get_results s) by (by rewrite Es1). rewrite E1.
    destruct (measure_ok s1' _ _ reps' Hr1' Hreps) as (r & x & s2 & s3 & s4 & -> & E3 & E4 & (t & ->) & E5); [change (get_results s1') with (get_results s1); by rewrite Eres |].
    rewrite bind_Ret, E3, bind_Ret. change (get_results s1') with (get_results s1) in E4. rewrite E4, bind_Ret.
    unfold s1'. rewrite one_less_more, bind_Ret, Es1, (lengthen n m pg np nmp nl) by (lia || done || (rewrite ?Bps, ?Bln; done)).
    rewrite bind_Ret. eexists _, _. split; [reflexivity |]. split; [by eexists |]. rewrite <- Eres. exact E5.
  - rewrite bind_Ret. destruct (sys_malloc _ _ _) as [[a |] w] eqn:Ea; [right | left; split; [done | eexists _, _; by rewrite Ea]]. set (s1' := one_more (set_world w s)).
    assert (Hr1' : ring s1' (np * 2 ^ n) (line_addr n m pg)) by (by apply (ring_same s)). rewrite E0.
    destruct (measure_ok s1' _ _ reps' Hr1' Hreps Hres) as (r & x & s2 & s3 & s4 & -> & E3 & E4 & (t & ->) & E5).
    rewrite bind_Ret, E3, bind_Ret. change (get_results s1') with (get_results s) in E4. rewrite E4, bind_Ret.
    unfold s1'. rewrite one_less_more, !bind_Ret. eexists _, _. split; [reflexivity |]. split; [by eexists | exact E5].
Qed.

(** ** [line_find] *)
Lemma built_timed m0 s0 n m pg s s' : line_chain_built sys m0 s0 n m s pg -> timed s s' -> get_results s' = get_results s ->
  line_chain_built sys m0 s0 n m s' pg.
Proof. intros [] (t & ->) E. constructor; try done. congruence. Qed.

(** A line size that was found: a power of two, at most half of the longest line tried. *)
Definition line_found (maxline l : Z) : Prop := l = 0 \/ exists e, 0 <= e /\ l = 8 * 2 ^ e /\ 2 * l <= maxline.

Lemma line_scan_ok m0 s0 n m pg reps maxline fuel : shape m0 n -> maxline <= pagesize m0 ->
  forall e big baseline s, line_chain_built sys m0 s0 n m s pg -> results_ok (get_results s) -> 0 <= e -> maxline < 8 * 2 ^ (e + Z.of_nat fuel) ->
  refused sys \/ exists l s', line_scan sys fuel reps maxline (8 * 2 ^ e) big baseline m s = Ret (l, s') /\ timed s s' /\ line_found maxline l.
Proof.
  intros Hs Hmax. induction fuel as [| fuel IH]; intros e big baseline s B Hres He Hf; cbn [line_scan].
  - rewrite Z.add_0_r in Hf. destruct (Z.leb_spec (8 * 2 ^ e) maxline); [lia |]. right. exists 0, s. split_and!; [done | apply timed_refl | by left].
  - destruct (Z.leb_spec (8 * 2 ^ e) maxline) as [Hle | Hgt]; [| right; exists 0, s; split_and!; [done | apply timed_refl | by left]].
    assert (0 < 2 ^ e) by lia. destruct (line_test_ok m0 s0 n m s pg (8 * 2 ^ e) reps Hs B ltac:(lia) Hres) as [[_ R] | (t & s1 & -> & T1 & E1)]; [by left |].
    rewrite bind_Ret. pose proof (built_timed _ _ _ _ _ _ _ B T1 E1) as B1. rewrite <- E1 in Hres.
    replace (2 * (8 * 2 ^ e)) with (8 * 2 ^ (e + 1)) by (rewrite Z.pow_add_r by lia; lia).
    assert (Hf' : maxline < 8 * 2 ^ (e + 1 + Z.of_nat fuel)) by (replace (e + 1 + Z.of_nat fuel) with (e + Z.of_nat (S fuel)) by lia; done).
    assert (Next : forall big' baseline', refused sys \/ exists l s', line_scan sys fuel reps maxline (8 * 2 ^ (e + 1)) big' baseline' m s1 = Ret (l, s') /\ timed s s' /\ line_found maxline l).
    { intros big' baseline'. destruct (IH (e + 1) big' baseline' s1 B1 Hres ltac:(lia) Hf') as [R | (l & s2 & -> & T2 & F)]; [by left | right].
      exists l, s2. split_and!; [done | by eapply timed_trans | done]. }
    destruct (feqb t fzero); [right; exists 0, s1; split_and!; [done | done | by left] |].
    destruct (SIZEOF_PTR <? 8 * 2 ^ e) eqn:Ee; [| apply Next]. destruct (fltb _ t); [apply Next |].
    destruct (big && _); [| apply Next]. right. exists (Z.shiftr (8 * 2 ^ e) 1), s1. split_and!; [done | done |]. right. exists (e - 1).
    apply Z.ltb_lt in Ee. unfold SIZEOF_PTR in Ee. assert (e <> 0) by (intros ->; change (2 ^ 0) with 1 in Ee; lia). split; [lia |].
    assert (E2 : 2 ^ e = 2 * 2 ^ (e - 1)) by (rewrite <- Z.pow_succ_r by lia; f_equal; lia).
    assert (Eh : Z.shiftr (8 * 2 ^ e) 1 = 8 * 2 ^ (e - 1)) by (rewrite Z.shiftr_div_pow2 by lia; change (2 ^ 1) with 2; rewrite E2; zdiv).
    rewrite Eh. split; [done | lia].
Qed.

(** Memory is not refused. *)
Definition gives_memory : Prop := forall k w, exists a, fst (sys_malloc sys k w) = Some a /\ a <> 0.

Lemma line_init_step fuel ln m s : line_init sys (S fuel) ln m s =
  if (addr m =? 0) && negb (ln =? 0) then
    '(m, s) ← line_initialize sys 0 (set_lens ln ln m) s; line_init sys fuel (if addr m =? 0 then Z.shiftr ln 1 else ln) m s
  else Ret (m, s).
Proof. done. Qed.
Lemma line_init_done fuel ln m s : addr m <> 0 -> line_init sys fuel ln m s = Ret (m, s).
Proof. intros H. destruct fuel; cbn [line_init]; by destruct (Z.eqb_spec (addr m) 0). Qed.

Lemma line_find_ok n ln reps m s :
  gives_memory -> shape (set_lens ln ln (set_addr 0 (set_line SIZEOF_PTR (set_width 1 m)))) n -> sys_getpagesize sys = pagesize m ->
  results_ok (get_results s) ->
  exists l m' s', line_find sys ln reps m s = Ret (l, m', s') /\ line_found (pagesize m / 16) l /\
    addr m' = 0 /\ lines m' = None /\ pages m' = None /\ words m' = None /\
    dom (blocks s') ⊆ dom (blocks s) /\ held s' = held s.
Proof.
  intros Hg Hs Hps Hres. unfold line_find. set (m1 := set_addr 0 _). set (m2 := set_lens ln ln m1).
  assert (Rf : ~ refused sys) by (intros (k & w & E); destruct (Hg k w) as (a & Ea & _); congruence).
  pose proof Hs as [Hn _ _ Hpage [Hln _] Hmax _]. change (pagesize (set_lens _ _ _)) with (pagesize m) in *. change (line (set_lens _ _ _)) with 8 in *.
  change (len (set_lens _ _ _)) with ln in *. change (maxlen (set_lens _ _ _)) with ln in *. assert (0 < 2 ^ n) by lia.
  destruct (line_initialize_ok sys m2 n s Hs) as [[_ R] | [(m3 & s3 & _ & _ & R) | (m3 & s3 & pg & E & B)]]; [done | done |].
  pose proof B as [_ (Bl & Bml & Bln & Bps) _ Bpages Blines _ _ _ (k & w & Ba) [Bb _] Br [Bh Bw] _].
  assert (Hnz : addr m3 <> 0) by (destruct (Hg k w) as (a & Ea & Hz); rewrite Ba in Ea; by injection Ea as ->).
  assert (El : line_init sys 65 ln m1 s = Ret (m3, s3)).
  { rewrite line_init_step. change (addr m1) with 0. destruct (Z.eqb_spec ln 0); [lia |]. cbn [andb negb Z.eqb]. fold m2. rewrite E, bind_Ret.
    by apply line_init_done. }
  rewrite El, bind_Ret. clear E El. destruct (Z.eqb_spec (addr m3) 0); [done |]. rewrite Hps. set (maxline := pagesize m / 16).
  assert (Hml : maxline <= pagesize m) by (unfold maxline; zdiv).
  assert (Hmf : maxline < 8 * 2 ^ (0 + Z.of_nat 64)) by (change (2 ^ (0 + Z.of_nat 64)) with 18446744073709551616; change (2 ^ 30) with 1073741824 in Hmax; lia).
  assert (Hres3 : results_ok (get_results s3)) by (rewrite Br; exact Hres).
  pose proof (line_scan_ok m2 s n m3 pg (if reps <? 0 then LmTiming.TRIES else reps) maxline 64 Hs Hml 0 false fzero s3 B Hres3 ltac:(lia) Hmf) as Sc.
  change (8 * 2 ^ 0) with SIZEOF_PTR in Sc.
  destruct Sc as [R | (l & s4 & -> & (t & ->) & F)]; [done |]. rewrite bind_Ret. unfold mem_cleanup. change (negb (0 =? 0)) with false. cbn iota.
  destruct (Z.eqb_spec (addr m3) 0); [done |]. unfold free. change (blocks (set_tm t s3)) with (blocks s3). rewrite Bb, lookup_insert_eq, bind_Ret.
  rewrite Blines, Bpages, Bw. unfold free_array, one_less. cbn [held set_blocks set_tm]. rewrite Bh, bind_Ret. cbn [held set_held]. rewrite !bind_Ret.
  eexists l, _, _. split; [reflexivity |]. split_and!; try done. cbn [blocks set_blocks set_held]. rewrite delete_insert_eq, dom_delete_L. apply subseteq_difference_l. done.
Qed.
End Test.
End LmMemTest.
