(* ===== verification/LmMemTheorems.v ===== *)
(** * lmbench/src/lib_mem.c: what holds of the chains

    The theorems about the order of words, about the chains and about [line_find], and a
    system with small pages at which they are applied. *)
From S2P Require Import Prelude Doubles LmTiming LmMem LmMemWords LmMemProofs LmMemRings LmMemFull LmMemTest.

Module LmMemTheorems.
Import Doubles LmMem LmMemWords LmMemChain LmMemProofs LmMemRings LmMemFull LmMemTest.

(** Following the pointers from [start] one comes through the addresses [P], each once in [N]
    steps, through no others, and back to [start]. *)
Definition tour {W} (s : st W) (start N : Z) (P : Z -> Prop) : Prop :=
  chase (Z.to_nat N) [start] s = Ret [start] /\
  (forall k, exists a, chase k [start] s = Ret [a] /\ P a) /\
  (forall a, P a -> exists k, 0 <= k < N /\ chase (Z.to_nat k) [start] s = Ret [a] /\
     forall k', 0 <= k' < N -> chase (Z.to_nat k') [start] s = Ret [a] -> k' = k).

Lemma ring_tour {W} (s : st W) N L (P : Z -> Prop) : ring s N L -> (forall a, P a <-> exists k, 0 <= k < N /\ a = L k) -> tour s (L 0) N P.
Proof.
  intros Hr HP. pose proof Hr as (Hn & Hinj & _).
  assert (C : forall k, 0 <= k -> chase (Z.to_nat k) [L 0] s = Ret [L (k mod N)]).
  { intros k Hk. rewrite (chase_ring s N L _ 0) by (done || lia). by rewrite Z2Nat.id, Z.add_0_l by lia. }
  split_and!.
  - rewrite C by lia. by rewrite Z.mod_same by lia.
  - intros k. exists (L (Z.of_nat k mod N)). rewrite <- C, Nat2Z.id by lia. split; [done |]. apply HP. eexists. split; [apply Z.mod_pos_bound; lia | done].
  - intros a Ha. apply HP in Ha as (k & Hk & ->). exists k. rewrite C, Z.mod_small by lia. split_and!; [lia | lia | done |].
    intros k' Hk' E. rewrite C, Z.mod_small in E by lia. injection E as E. by apply Hinj.
Qed.

(** The pages that the length of the block takes, in the order [pg]. *)
Definition on_page (m m' : mem_state) (pg : list Z) (step count a : Z) : Prop :=
  exists i w, 0 <= i < page_count m (len m) /\ 0 <= w < count /\ a = base m' + page_at pg i + step * w.

Section Theorems.
Context {W : Type} (sys : sys W).
Implicit Types s : st W.

Lemma not_refused : gives_memory sys -> ~ refused sys.
Proof. intros Hg (k & w & E). destruct (Hg k w) as (a & Ea & _). congruence. Qed.

(** For a power of two [words_initialize] gives the multiples of the scale below [max]
    times the scale, each once, the first of them 0. *)
Theorem words_each_once n scale s : 0 <= n <= 31 -> 0 < scale -> 2 ^ n * scale < 2 ^ 64 -> gives_memory sys ->
  exists ws s', words_initialize sys (2 ^ n) scale s = Ret (Some ws, s') /\ ws ≡ₚ (fun i => i * scale) <$> seqZ 0 (2 ^ n) /\ head ws = Some 0.
Proof.
  intros Hn Hs Hm Hg. destruct (words_ok sys n scale s Hn Hs Hm) as (r & s' & -> & [[_ R] | [-> _]]); [by destruct (not_refused Hg) |].
  eexists _, s'. split; [done |]. assert (0 < 2 ^ n) by lia. split.
  - apply NoDup_Permutation.
    + apply NoDup_fmap_2_strong; [| apply NoDup_seqZ]. intros i j Hi%elem_of_seqZ Hj%elem_of_seqZ. apply word_inj; lia.
    + apply NoDup_fmap_2; [| apply NoDup_seqZ]. intros i j. apply Z.mul_cancel_r. lia.
    + intros x. rewrite !list_elem_of_fmap. setoid_rewrite elem_of_seqZ. split.
      * intros (i & -> & _). destruct (word_range n scale i Hn Hs) as (k & Hk & ->). exists k. split; [done | lia].
      * intros (k & -> & Hk). destruct (word_onto n scale k Hn ltac:(lia)) as (i & Hi & E). exists i. split; [done | lia].
  - rewrite seqZ_cons by lia. cbn. by rewrite word_0.
Qed.

(** C23: for one pointer to follow ([width] 1), a length of whole pages, pages of [2 ^ n]
    lines with at least two lines each, lines of [8 * 2 ^ b] bytes, sizes that leave room in
    an [int] ([shape]), and memory that is given: the chain of [mem_initialize] goes once
    through every pointer of every page of the length in [len / 8] steps and closes.  With
    one line to a page the program reaches undefined behaviour ([one_line_pages_crash]). *)
Theorem mem_initialize_visits_all m n b s : shape m n -> 1 <= n -> 0 <= b <= 30 -> line m = 8 * 2 ^ b -> width m = 1 ->
  len m mod pagesize m = 0 -> gives_memory sys ->
  exists m' s' pg start, mem_initialize sys 0 m s = Ret (m', s') /\ initialized m' = true /\
    pg ≡ₚ (fun i => i * pagesize m) <$> seqZ 0 (page_count m (maxlen m)) /\
    aget (p m') 0 = Some start /\ tour s' start (len m / 8) (on_page m m' pg 8 (pagesize m / 8)).
Proof.
  intros Hs Hn1 Hb Hlb Hw Hmod Hg.
  destruct (mem_initialize_ok sys m n b s Hs Hn1 Hb Hlb Hw Hmod) as [[_ R] | [(? & ? & _ & _ & R) | (m' & s' & pg & E & B)]]; [by destruct (not_refused Hg) .. |].
  pose proof B as [B1 (_ & _ & Bln & _) _ _ _ _ Bperm _ Bstart Bring _ _ _]. exists m', s', pg, (mem_addr n b m' pg (page_count m (len m)) 0).
  split_and!; try done. destruct (counts_small m n Hs) as (I0 & _). destruct (shape_page m n Hs) as (Hn & Hl8 & Hp & _ & _). pose proof Hs as [].
  set (np := page_count m (len m)) in *. set (nmp := page_count m (maxlen m)) in *. assert (Pb : 0 < 2 ^ b) by lia.
  assert (Eps : pagesize m / 8 = 2 ^ n * 2 ^ b) by (rewrite sh_page0, Hlb; replace (8 * 2 ^ b * 2 ^ n) with (2 ^ n * 2 ^ b * 8) by lia; apply Z.div_mul; lia).
  assert (Elen : len m / 8 = np * 2 ^ n * 2 ^ b).
  { rewrite (whole_pages m n Hs Hmod). fold np. rewrite sh_page0, Hlb. replace (np * (8 * 2 ^ b * 2 ^ n)) with (np * 2 ^ n * 2 ^ b * 8) by lia. apply Z.div_mul. lia. }
  rewrite Elen. apply ring_tour; [done |]. intros a. unfold on_page. fold np. rewrite Eps. split.
  - intros (i & w & Hi & Hw2 & ->). pose proof (Z.div_mod w (2 ^ b) ltac:(lia)) as D. pose proof (Z.mod_pos_bound w (2 ^ b) Pb) as M.
    destruct (word_onto n (line m) (w / 2 ^ b) ltac:(lia) ltac:(nia)) as (j & Hj & Ej). destruct (word_onto b 8 (w mod 2 ^ b) ltac:(lia) M) as (t & Ht & Et).
    exists (t * (np * 2 ^ n) + (i * 2 ^ n + j)). assert (i * 2 ^ n + j < np * 2 ^ n) by nia. assert (t * (np * 2 ^ n) + np * 2 ^ n <= np * 2 ^ n * 2 ^ b) by nia.
    split; [nia |]. rewrite (mem_index n b m' pg np nmp) by lia. rewrite Bln, Ej, Et, Hlb. nia.
  - intros (k & Hk & ->). destruct (mem_split n b np nmp ltac:(lia) ltac:(lia) ltac:(lia) k Hk) as (t & i & j & Ht & Hi & Hj & ->).
    rewrite (mem_index n b m' pg np nmp) by lia. rewrite Bln. destruct (word_range n (line m) j ltac:(lia) ltac:(lia)) as (x & Hx & ->).
    destruct (word_range b 8 t ltac:(lia) ltac:(lia)) as (y & Hy & ->). exists i, (x * 2 ^ b + y). split_and!; [lia | lia | nia | nia | rewrite Hlb; lia].
Qed.

(** The chain of [thrash_initialize] goes once through every line of every page, closes,
    and goes to the next page with every step. *)
Theorem thrash_changes_page m n s : shape m n -> len m mod pagesize m = 0 -> gives_memory sys ->
  exists m' s' pg start, thrash_initialize sys 0 m s = Ret (m', s') /\
    pg ≡ₚ (fun i => i * pagesize m) <$> seqZ 0 (page_count m (maxlen m)) /\
    aget (p m') 0 = Some start /\ tour s' start (page_count m (len m) * 2 ^ n) (on_page m m' pg (line m) (2 ^ n)) /\
    forall k, exists o, chase k [start] s' = Ret [base m' + page_at pg (Z.of_nat k mod page_count m (len m)) + o] /\ 0 <= o < pagesize m.
Proof.
  intros Hs Hmod Hg.
  destruct (thrash_initialize_ok sys m n s Hs Hmod) as [(? & _ & R) | [(? & ? & _ & _ & R) | (m' & s' & pg & E & Hperm & Hst & Bln & Hr)]]; [by destruct (not_refused Hg) .. |].
  destruct (counts_small m n Hs) as (I0 & _). destruct (shape_page m n Hs) as (Hn & Hl8 & Hp & _ & _). pose proof Hs as [].
  set (np := page_count m (len m)) in *. exists m', s', pg, (thrash_addr n m' pg np 0). split_and!; try done.
  - apply ring_tour; [done |]. intros a. unfold on_page. fold np. split.
    + intros (i & w & Hi & Hw & ->). destruct (word_onto n (line m) w ltac:(lia) Hw) as (j & Hj & Ej).
      set (r := (j - i) mod 2 ^ n). assert (0 <= r < 2 ^ n) by (apply Z.mod_pos_bound; lia). exists (r * np + i). split; [nia |].
      rewrite (thrash_index n m' pg np (page_count m (maxlen m))) by lia. rewrite Bln.
      assert (Er : (i + r) mod 2 ^ n = j) by (unfold r; rewrite Zplus_mod_idemp_r; replace (i + (j - i)) with j by lia; apply Z.mod_small; lia).
      rewrite Er, Ej. lia.
    + intros (k & Hk & ->). unfold thrash_addr. rewrite Bln. pose proof (Z.mod_pos_bound k np ltac:(lia)).
      destruct (word_range n (line m) ((k mod np + k / np) mod 2 ^ n) ltac:(lia) ltac:(lia)) as (x & Hx & ->). exists (k mod np), x. split_and!; lia.
  - intros k. rewrite (chase_ring s' _ _ _ 0 Hr) by nia. rewrite Z.add_0_l. unfold thrash_addr. rewrite Bln.
    set (q := Z.of_nat k mod (np * 2 ^ n)). destruct (word_range n (line m) ((q mod np + q / np) mod 2 ^ n) ltac:(lia) ltac:(lia)) as (x & Hx & ->).
    exists (x * line m). assert (Eq : q mod np = Z.of_nat k mod np) by (unfold q; rewrite Z.rem_mul_r, Z.mul_comm, Z.mod_add, Z.mod_mod by lia; done).
    rewrite Eq, Z.add_assoc. split; [done | nia].
Qed.

(** C24: when [malloc] does not fail, the pages are [2 ^ n] lines of one pointer, the length with
    two pages is below 2^30 ([shape]) and the results set before are in their array
    ([results_ok]), [line_find] ends, returns 0 or a power of two that is at most half of the longest line
    tried, and gives back all it allocated: the block, the arrays of the lines and the pages
    and the results of every trial; the pointers to them are [NULL].  When [malloc] refuses
    the array of the pages the program reaches undefined behaviour ([refused_pages_crash]). *)
Theorem line_find_ends n ln reps m s :
  gives_memory sys -> shape (set_lens ln ln (set_addr 0 (set_line SIZEOF_PTR (set_width 1 m)))) n -> sys_getpagesize sys = pagesize m ->
  results_ok (get_results s) ->
  exists l m' s', line_find sys ln reps m s = Ret (l, m', s') /\ line_found (pagesize m / 16) l /\
    addr m' = 0 /\ lines m' = None /\ pages m' = None /\ words m' = None /\
    dom (blocks s') ⊆ dom (blocks s) /\ held s' = held s.
Proof. apply line_find_ok. Qed.

(** C25: when [malloc] does not fail, [line_test], which cuts the pages of a chain that
    [line_initialize] built short to measure, leaves memory as it was, and gives the array of
    its results back. *)
Theorem line_test_restores m0 s0 n m s pg ln reps : gives_memory sys -> shape m0 n -> line_chain_built sys m0 s0 n m s pg ->
  0 < ln <= pagesize m0 -> results_ok (get_results s) ->
  exists t s', line_test sys ln reps m s = Ret (t, s') /\ cells s' = cells s /\ blocks s' = blocks s /\ held s' = held s.
Proof.
  intros Hg Hs B Hl Hr. destruct (line_test_ok sys m0 s0 n m s pg ln reps Hs B Hl Hr) as [[_ R] | (t & s' & -> & (u & ->) & _)]; [by destruct (not_refused Hg) |].
  by exists t, (set_tm u s).
Qed.
End Theorems.

(** ** A system: memory that grows, a linear congruential generator, a clock of fixed readings *)
Record host := mkHost { next_free : positive; seed : Z }.
Definition host_malloc (k : Z) (w : host) : option Z * host :=
  (Some (16 * Zpos (next_free w)), mkHost (next_free w + Z.to_pos (k / 16 + 1)) (seed w)).
Definition host_valloc (k : Z) (w : host) : option Z * host :=
  let a := (16 * Zpos (next_free w) / 4096 + 1) * 4096 in (Some a, mkHost (Z.to_pos ((a + k) / 16 + 1)) (seed w)).
Definition host_rand (w : host) : Z * host := let r := (seed w * 1103515245 + 12345) mod 2147483648 in (r, mkHost (next_free w) r).
Definition host_sys (pgsize : Z) : sys host := mkSys _ host_malloc host_valloc host_rand
  (fun k w => mkHost (next_free w) k) 77 5 pgsize (fun w => ([1; 2], 1000, 2, w)).
Definition watch : LmTiming.st host :=
  LmTiming.mkSt (LmTiming.mkTv 0 0) (LmTiming.mkTv 0 0) 1 (LmTiming.new_result 11) 0 false None None 0 0 1 1 1 (mkHost 64 0).
Definition fresh : st host := mkSt ∅ ∅ ∅ 0 0 false ∅ watch.
(** [ln] bytes in lines of [l] and pages of [ps]. *)
Definition asked (ln l ps : Z) : mem_state := mkMem 0 0 (replicate 16 0) false 1 ln ln l ps 0 0 0 None None None.

Lemma host_gives ps : gives_memory (host_sys ps).
Proof. intros k w. eexists. split; [reflexivity | lia]. Qed.
Lemma asked_shape : shape (asked 256 16 64) 2.
Proof. by constructor. Qed.

Lemma words_each_once_witness : exists ws s', words_initialize (host_sys 64) 8 8 fresh = Ret (Some ws, s') /\ ws ≡ₚ [0; 8; 16; 24; 32; 40; 48; 56] /\ head ws = Some 0.
Proof. exact (words_each_once (host_sys 64) 3 8 fresh ltac:(lia) ltac:(lia) ltac:(done) (host_gives 64)). Defined.

(** Four pages of four lines of two pointers. *)
Lemma mem_initialize_visits_all_witness : exists m' s' pg start, mem_initialize (host_sys 64) 0 (asked 256 16 64) fresh = Ret (m', s') /\
  initialized m' = true /\ pg ≡ₚ [0; 64; 128; 192] /\ aget (p m') 0 = Some start /\ tour s' start 32 (on_page (asked 256 16 64) m' pg 8 8).
Proof. exact (mem_initialize_visits_all (host_sys 64) (asked 256 16 64) 2 1 fresh asked_shape ltac:(lia) ltac:(lia) eq_refl eq_refl eq_refl (host_gives 64)). Defined.

Lemma thrash_changes_page_witness : exists m' s' pg start, thrash_initialize (host_sys 64) 0 (asked 256 16 64) fresh = Ret (m', s') /\
  pg ≡ₚ [0; 64; 128; 192] /\ aget (p m') 0 = Some start /\ tour s' start 16 (on_page (asked 256 16 64) m' pg 16 4) /\
  forall k, exists o, chase k [start] s' = Ret [base m' + page_at pg (Z.of_nat k mod 4) + o] /\ 0 <= o < 64.
Proof. exact (thrash_changes_page (host_sys 64) (asked 256 16 64) 2 fresh asked_shape eq_refl (host_gives 64)). Defined.

(** 512 bytes in pages of 256. *)
Lemma line_find_ends_witness : exists l m' s', line_find (host_sys 256) 512 11 (asked 0 0 256) fresh = Ret (l, m', s') /\ line_found 16 l /\
  addr m' = 0 /\ lines m' = None /\ pages m' = None /\ words m' = None /\ dom (blocks s') ⊆ dom (blocks fresh) /\ held s' = 0%nat.
Proof. exact (line_find_ends (host_sys 256) 5 512 11 (asked 0 0 256) fresh (host_gives 256) ltac:(by constructor) eq_refl ltac:(by split)). Defined.

(** A chain is built, and two of the four lines of each page are looked at for a while. *)
Lemma line_test_restores_witness : exists m s t s', initialized m = true /\ line_test (host_sys 64) 32 11 m s = Ret (t, s') /\ cells s' = cells s /\ blocks s' = blocks s /\ held s' = held s.
Proof.
  destruct (line_initialize_ok (host_sys 64) (asked 256 16 64) 2 fresh asked_shape) as [[_ R] | [(? & ? & _ & _ & R) | (m & s & pg & _ & B)]];
    [by destruct (not_refused (host_sys 64) (host_gives 64)) .. |].
  assert (Hres : results_ok (get_results s)) by (rewrite (lc_results _ _ _ _ _ _ _ B); done).
  destruct (line_test_restores (host_sys 64) (asked 256 16 64) fresh 2 m s pg 32 11 (host_gives 64) asked_shape B ltac:(done) Hres) as (t & s' & H).
  exists m, s, t, s'. split; [exact (lc_init _ _ _ _ _ _ _ B) | exact H].
Defined.

(** ** What the chains do not do *)

(** On a length that is not whole pages the words are those of a power of two: of six lines
    two are visited. *)
Lemma thrash_misses_lines : exists m' s', thrash_initialize (host_sys 64) 0 (asked 96 16 64) fresh = Ret (m', s') /\
  initialized m' = true /\ aget (p m') 0 = Some (base m') /\ chase 2 [base m'] s' = Ret [base m'].
Proof.
  destruct (thrash_initialize (host_sys 64) 0 (asked 96 16 64) fresh) as [[m' s'] | | |] eqn:E; [| vm_compute in E; discriminate E ..].
  exists m', s'. vm_compute in E. injection E as <- <-. split_and!; vm_compute; reflexivity.
Qed.

(** With one line to a page [mem_initialize] sets none of the pointers it then follows. *)
Lemma one_line_pages_crash : mem_initialize (host_sys 64) 0 (asked 256 64 64) fresh = Undef.
Proof. vm_compute. reflexivity. Qed.

(** When [malloc] refuses the array of the pages, [base_initialize] returns with the block in
    [state->addr] and without them: [line_find] goes on and follows the [NULL] pointer. *)
Definition scarce_malloc (k : Z) (w : host) : option Z * host := if k <? 64 then (None, w) else host_malloc k w.
Definition scarce_sys (pgsize : Z) : sys host := mkSys _ scarce_malloc host_valloc host_rand
  (fun k w => mkHost (next_free w) k) 77 5 pgsize (fun w => ([1; 2], 1000, 2, w)).
Lemma refused_pages_crash : line_find (scarce_sys 256) 512 11 (asked 0 0 256) fresh = Undef.
Proof. vm_compute. reflexivity. Qed.
End LmMemTheorems.
