(* ===== verification/DoubleSign.v ===== *)
(** * Signs of doubles

    The sign of what the operations on doubles give: rounding does not change a sign,
    and a difference of times in seconds and millionths, computed with doubles, has the
    sign of the exact difference. *)
From S2P Require Import Prelude Doubles Rounding.

Module DoubleSign.
Import Doubles Rounding.

(** Rounding gives a number of the same sign, that is larger by a unit at most. *)
Lemma round_value sx q e l :
  -1074 <= e -> Zpos (digits2_pos q) + e <= 900 -> let k := Z.max 0 (Zpos (digits2_pos q) - 53) in
  exists m e', binary_round_aux 53 1024 sx (Zpos q) e l = S754_finite sx m e' /\ e <= e' <= e + k + 1 /\
    Zpos m * 2 ^ (e' - e) <= Zpos q + 2 ^ k.
Proof.
  intros He Hd k. destruct (round_spec 53 1024 ltac:(lia) sx q e l) as (m & e' & m1 & E & He' & Hm1 & _ & V & _); [lia | lia |].
  exists m, e'. split_and!; [done | lia | fold k in He'; lia |]. fold k in Hm1, V. rewrite V.
  pose proof (Z.mul_div_le (Zpos q) (2 ^ k) ltac:(lia)). nia.
Qed.

(** A number that is not 0 becomes a double of its sign. *)
Lemma normalize_sign z e s :
  z <> 0 -> -1074 <= e -> Z.abs z < 2 ^ 200 -> e <= 100 ->
  exists m e', binary_normalize 53 1024 z e s = S754_finite (z <? 0) m e'.
Proof.
  assert (H : forall sx p, Zpos p < 2 ^ 200 -> -1074 <= e -> e <= 100 ->
            exists m e', binary_round 53 1024 sx p e = S754_finite sx m e').
  { intros sx p Hp He He'. unfold binary_round, shl_align, fexp, emin. replace (3 - 1024 - 53) with (-1074) by done.
    pose proof (digits2_le p 200 ltac:(lia) Hp) as Hd. set (x := Z.max (Zpos (digits2_pos p) + e - 53) (-1074)).
    destruct (x - e) as [| d | d] eqn:E.
    1, 2: destruct (round_value sx p e loc_Exact He ltac:(lia)) as (m & e' & -> & _); by exists m, e'.
    destruct (round_value sx (Pos.iter xO p d) x loc_Exact) as (m & e' & -> & _); [lia | | by exists m, e'].
    pose proof (shl_align_fst p e x ltac:(lia)) as Hq. unfold shl_align in Hq. rewrite E in Hq. cbn [fst] in Hq.
    rewrite (digits2_shift p _ (e - x)) by (lia || done). lia. }
  intros Hz He Ha He'. destruct z as [| p | p]; [done | |]; apply H; lia || done.
Qed.

Lemma fltb_fzero_finite s m e : fltb (S754_finite s m e) fzero = s.
Proof. by destruct s. Qed.

Lemma double_neg p : double (Zneg p) = SFopp (double (Zpos p)).
Proof.
  unfold double, binary_normalize, binary_round. destruct (shl_align p 0 (fexp 53 1024 (Zpos (digits2_pos p) + 0))).
  apply round_aux_sign.
Qed.

(** Millionths of a second as a double: positive, less than one. *)
Lemma millionths_pos u :
  Zpos u < 1000000 -> exists m e, fdiv (double (Zpos u)) (double 1000000) = S754_finite false m e /\
    -80 <= e <= 0 /\ Zpos m * 2 ^ (e + 80) < 2 ^ 80.
Proof.
  intros Hu. destruct (double_pos u) as (mu & -> & Vu & Du); [change (2 ^ 53) with 9007199254740992; lia |].
  change (double 1000000) with (S754_finite false 8589934592000000 (-33)). cbn [fdiv SFdiv xorb].
  pose proof (digits2_le u 20 ltac:(lia) ltac:(lia)) as Hd. pose proof (digits2_bounds u) as Bu.
  set (d := Zpos (digits2_pos u)) in *. unfold fdiv, SFdiv, SFdiv_core_binary. cbn [xorb Zdigits2]. rewrite Du.
  change (Zpos (digits2_pos 8589934592000000)) with 53. unfold fexp, emin.
  replace (Z.min (Z.max (53 + (d - 53) - (53 + -33) - 53) (3 - 1024 - 53)) (d - 53 - -33)) with (d - 73) by lia.
  replace (d - 53 - -33 - (d - 73)) with 53 by lia.
  rewrite Z.shiftl_mul_pow2 by lia.
  pose proof (Z.div_eucl_eq (Zpos mu * 2 ^ 53) 8589934592000000 ltac:(done)) as Eq.
  pose proof (Z.mod_pos_bound (Zpos mu * 2 ^ 53) 8589934592000000 ltac:(done)) as Hr. unfold Z.modulo in Hr.
  destruct (Z.div_eucl (Zpos mu * 2 ^ 53) 8589934592000000) as [q r].
  pose proof (digits2_bounds mu) as Bm. rewrite Du in Bm. change (2 ^ (53 - 1)) with 4503599627370496 in Bm.
  change (2 ^ 53) with 9007199254740992 in *.
  destruct q as [| q | q]; [lia | | lia]. pose proof (digits2_le q 54 ltac:(lia) ltac:(lia)) as Dq.
  assert (Hd1 : 1 <= d) by lia.
  destruct (round_value false q (d - 73) (new_location 8589934592000000 r)) as (m & e & -> & He & Hv); [lia | lia |].
  exists m, e. split; [done |]. split; [lia |].
  assert (HT : Zpos q * 1000000 <= Zpos u * 2 ^ (73 - d)).
  { replace (2 ^ (53 - d)) with (2 ^ (73 - d) / 2 ^ 20) in Vu by (rewrite <- Z.pow_sub_r by lia; f_equal; lia).
    assert (2 ^ (73 - d) = 2 ^ 20 * (2 ^ (73 - d) / 2 ^ 20)) by (apply Z.div_exact; [done |]; apply Z.mod_divide; [done |];
      exists (2 ^ (53 - d)); rewrite <- Z.pow_add_r by lia; f_equal; lia).
    change (2 ^ 20) with 1048576 in *. nia. }
  assert (H53 : 2 ^ 53 <= 2 ^ (73 - d)) by (apply Z.pow_le_mono_r; lia). change (2 ^ 53) with 9007199254740992 in H53.
  assert (Hk : 2 ^ Z.max 0 (Zpos (digits2_pos q) - 53) <= 2).
  { change 2 with (2 ^ 1) at 2. apply Z.pow_le_mono_r; lia. }
  assert (Hq : Zpos q + 2 < 2 ^ (73 - d)) by nia.
  replace (e + 80) with (e - (d - 73) + (d + 7)) by lia. rewrite Z.pow_add_r by lia.
  replace (2 ^ 80) with (2 ^ (73 - d) * 2 ^ (d + 7)) by (rewrite <- Z.pow_add_r by lia; f_equal; lia).
  assert (0 < 2 ^ (d + 7)) by lia. nia.
Qed.

Lemma millionths u :
  u <> 0 -> Z.abs u <= 1000000 ->
  exists m e, fdiv (double u) (double 1000000) = S754_finite (u <? 0) m e /\
    -80 <= e <= 0 /\ (if Z.abs u =? 1000000 then Zpos m * 2 ^ (e + 80) = 2 ^ 80 else Zpos m * 2 ^ (e + 80) < 2 ^ 80).
Proof.
  intros Hz Hu. destruct (Z.eqb_spec (Z.abs u) 1000000) as [E | E].
  - exists 4503599627370496%positive, (-52).
    assert (u = 1000000 \/ u = -1000000) as [-> | ->] by lia; split_and!; (done || lia || by vm_compute).
  - destruct u as [| p | p]; [done | |].
    + apply millionths_pos. lia.
    + destruct (millionths_pos p ltac:(lia)) as (m & e & E1 & He & Hv). exists m, e. split; [| done].
      rewrite double_neg. revert E1. unfold fdiv, SFdiv.
      change (double 1000000) with (S754_finite false 8589934592000000 (-33)).
      destruct (double (Zpos p)) as [| | | sx mx ex]; try done. cbn [SFopp].
      destruct (SFdiv_core_binary 53 1024 (Zpos mx) ex 8589934592000000 (-33)) as [[q e1] l].
      destruct sx; cbn [negb xorb]; rewrite round_aux_sign; [| by intros ->].
      destruct (binary_round_aux 53 1024 false q e1 l) as [| | | [] m1 e2]; cbn [SFopp negb]; try done.
      by intros [= -> ->].
Qed.

(** A whole number of seconds. *)
Lemma whole s :
  s <> 0 -> Z.abs s < 2 ^ 53 -> exists m e, double s = S754_finite (s <? 0) m e /\ -80 <= e <= 0 /\
    Zpos m * 2 ^ (e + 80) = Z.abs s * 2 ^ 80.
Proof.
  assert (H : forall p, Zpos p < 2 ^ 53 -> exists m e, double (Zpos p) = S754_finite false m e /\ -80 <= e <= 0 /\
            Zpos m * 2 ^ (e + 80) = Zpos p * 2 ^ 80).
  { intros p Hp. destruct (double_pos p Hp) as (m & E & V & D). pose proof (digits2_le p 53 ltac:(lia) Hp).
    exists m, (Zpos (digits2_pos p) - 53). split; [done |]. split; [lia |].
    rewrite V, <- Z.mul_assoc, <- Z.pow_add_r by lia. do 2 f_equal. lia. }
  intros Hz Hs. destruct s as [| p | p]; [done | by apply H |].
  destruct (H p ltac:(lia)) as (m & e & E & ?). exists m, e. by rewrite double_neg, E.
Qed.

(** The difference of two times: seconds and millionths of either sign. *)
Lemma seconds_sign s u :
  Z.abs s < 2 ^ 53 -> Z.abs u <= 1000000 ->
  fltb (fadd (double s) (fdiv (double u) (double 1000000))) fzero = (s * 1000000 + u <? 0).
Proof.
  intros Hs Hu. change (double 0) with (S754_zero false).
  destruct (Z.eq_dec u 0) as [-> | Zu].
  { change (fdiv (double 0) (double 1000000)) with (S754_zero false). destruct (Z.eq_dec s 0) as [-> | Zs]; [done |].
    destruct (whole s Zs Hs) as (m & e & -> & _). cbn [fadd SFadd]. unfold fadd, SFadd. rewrite fltb_fzero_finite.
    destruct (Z.ltb_spec s 0), (Z.ltb_spec (s * 1000000 + 0) 0); (done || lia). }
  destruct (millionths u Zu Hu) as (my & ey & -> & Hey & Vy).
  destruct (Z.eq_dec s 0) as [-> | Zs].
  { change (double 0) with (S754_zero false). unfold fadd, SFadd. by rewrite fltb_fzero_finite. }
  destruct (whole s Zs Hs) as (mx & ex & -> & Hex & Vx). unfold fadd, SFadd.
  set (ez := Z.min ex ey). rewrite !shl_align_fst by lia.
  set (A := Zpos mx * 2 ^ (ex - ez)). set (B := Zpos my * 2 ^ (ey - ez)).
  assert (HK : 0 < 2 ^ (ez + 80)) by (apply Z.pow_pos_nonneg; lia).
  assert (HA : A * 2 ^ (ez + 80) = Z.abs s * 2 ^ 80).
  { unfold A. rewrite <- Vx, <- Z.mul_assoc, <- Z.pow_add_r by lia. do 2 f_equal. lia. }
  assert (HB : B * 2 ^ (ez + 80) = Zpos my * 2 ^ (ey + 80)).
  { unfold B. rewrite <- Z.mul_assoc, <- Z.pow_add_r by lia. do 2 f_equal. lia. }
  rewrite <- HB in Vy. assert (0 < A) by (unfold A; assert (0 < 2 ^ (ex - ez)) by lia; lia).
  assert (0 < B) by (unfold B; assert (0 < 2 ^ (ey - ez)) by lia; lia).
  assert (UA : A <= Z.abs s * 2 ^ 80) by nia.
  assert (Hez : -80 <= ez <= 0) by lia.
  clearbody A B. clear mx my Vx HB Hex Hey. set (K := 2 ^ (ez + 80)) in *. clearbody K. clearbody ez. clear ex ey.
  set (z := cond_Zopp (s <? 0) A + cond_Zopp (u <? 0) B).
  change (2 ^ 80) with 1208925819614629174706176 in *. change (2 ^ 53) with 9007199254740992 in *.
  assert (HP : B * K <= 1208925819614629174706176) by (destruct (Z.abs u =? 1000000); lia).
  assert (HAB : B <= A) by nia.
  assert (HE : A = B <-> Z.abs s = 1 /\ Z.abs u = 1000000).
  { split.
    - intros <-. assert (Z.abs s = 1) by nia. split; [done |]. destruct (Z.eqb_spec (Z.abs u) 1000000); [done | nia].
    - intros [Es Eu]. rewrite Es in HA. rewrite Eu in Vy. cbn in Vy. nia. }
  assert (Hz : (z = 0 -> s * 1000000 + u = 0) /\ (z <> 0 -> (z <? 0) = (s * 1000000 + u <? 0))).
  { clear HA Vy UA HP. unfold z, cond_Zopp. destruct (Z.ltb_spec s 0), (Z.ltb_spec u 0); split; intros Ez;
      first [lia | destruct (Z.ltb_spec (s * 1000000 + u) 0); [apply Z.ltb_lt | apply Z.ltb_ge]; lia]. }
  destruct (Z.eq_dec z 0) as [E | E].
  - rewrite E. cbn [binary_normalize]. by rewrite (proj1 Hz E).
  - destruct (normalize_sign z ez false E) as (m & e & ->); [lia | | lia | rewrite fltb_fzero_finite; by apply Hz].
    apply (Z.le_lt_trans _ (A + B)); [unfold z, cond_Zopp; destruct (s <? 0), (u <? 0); lia |].
    change (2 ^ 200) with 1606938044258990275541962092341162602522202993782792835301376. lia.
Qed.
End DoubleSign.
