(* ===== verification/IperfReporter.v ===== *)
(** * iperf/src/Reporter.c: what the reporter computes

    The data of a report and the code that no other thread sees half done: the
    statistics of the packets ([reporter_handle_packet], [reporter_condprintstats]), the
    sums over the streams of a test ([reporter_handle_multiple_reports]), the dispatch
    to a reporting style ([reporter_print]), and how a report is set up ([InitMulti],
    [InitReport], [ReportSettings], [ReportServerUDP]).  The threads are in IperfRing and
    IperfSystem; the text that is printed is not modelled: a call of a style is an
    event with what the style is given.

    [int]s wrap at 32 bits, [max_size_t] is unsigned with 64 bits, doubles are computed.
    The fields of [ReporterData] that only copy the settings are the record [copied],
    its counters the record [counts].  A pointer to a string is a number, 0 is the null
    pointer.  [reserved_delay], the text that [CSV_peer] allocates, is the connection it
    describes; that [CSV_stats] frees it is left out.  What [malloc] leaves in memory
    that the code does not initialise is an argument ([uninit]). *)
From S2P Require Import Prelude Doubles.

Module IperfReporter.
Import Doubles.

Definition NUM_REPORT_STRUCTS : Z := 700.
Definition NUM_MULTI_SLOTS : nat := 5.
Definition rMillion : Z := 1000000.

(** ** Time *)
Record timeval := mkTv { tv_sec : Z; tv_usec : Z }.
#[export] Instance timeval_eq_dec : EqDecision timeval.
Proof. solve_decision. Defined.

Definition TimeDifference (left right : timeval) : spec_float :=
  fadd (double (tv_sec left - tv_sec right)) (fdiv (double (tv_usec left - tv_usec right)) (double rMillion)).

Definition TimeAdd (left right : timeval) : timeval :=
  let usec := tv_usec left + tv_usec right in
  let (sec, usec) := if rMillion <? usec then (tv_sec left + 1, usec - rMillion) else (tv_sec left, usec) in
  mkTv (sec + tv_sec right) usec.

(** The conversion of a double to [long]: towards zero, undefined out of range. *)
Definition to_long (x : spec_float) : cres Z :=
  match x with
  | S754_zero _ => Ret 0
  | S754_finite sign m e =>
      let v := Z.shiftl (Zpos m) e in
      let v := if sign : bool then - v else v in
      if (- 2 ^ 63 <=? v) && (v <? 2 ^ 63) then Ret v else Undef
  | _ => Undef
  end.

(** [intervalTime] for the option [-i]. *)
Definition interval_time (mInterval : spec_float) : cres timeval :=
  if SFeqb mInterval fzero then Ret (mkTv 0 0)
  else
    sec ← to_long mInterval;
    usec ← to_long (fmul (fsub mInterval (double sec)) (double rMillion));
    Ret (mkTv sec usec).

(** ** Settings.hpp and Reporter.h *)
Inductive ThreadMode := kMode_Unknown | kMode_Server | kMode_Client | kMode_Reporter | kMode_Listener.
#[export] Instance ThreadMode_eq_dec : EqDecision ThreadMode.
Proof. solve_decision. Defined.
Definition mode_char (m : ThreadMode) : Z :=
  match m with kMode_Unknown => 0 | kMode_Server => 1 | kMode_Client => 2 | kMode_Reporter => 3 | kMode_Listener => 4 end.

Inductive ReportMode := kReport_Default | kReport_CSV.

Definition flag (mask flags : Z) : bool := negb (Z.land flags mask =? 0).
Definition isPrintMSS (flags : Z) : bool := flag 0x40 flags.
Definition isUDP (flags : Z) : bool := flag 0x800 flags.
Definition isSettingsReport (flags : Z) : bool := negb (flag 0x8000 flags).
Definition isConnectionReport (flags : Z) : bool := negb (flag 0x10000 flags).
Definition isDataReport (flags : Z) : bool := negb (flag 0x20000 flags).
Definition isServerReport (flags : Z) : bool := negb (flag 0x40000 flags).
Definition isMultipleReport (flags : Z) : bool := negb (flag 0x80000 flags).

Definition TRANSFER_REPORT : Z := 1.
Definition SERVER_RELAY_REPORT : Z := 2.
Definition SETTINGS_REPORT : Z := 4.
Definition CONNECTION_REPORT : Z := 8.

(** [iperf_sockaddr]; [SockAddr_setPortAny]. *)
Record sockaddr := mkAddr { sa_family : Z; sa_addr : Z; sa_port : Z }.
Definition SockAddr_setPortAny (a : sockaddr) : sockaddr := mkAddr (sa_family a) (sa_addr a) 0.

Record Connection_Info := mkConnection { peer : sockaddr; size_peer : Z; local : sockaddr; size_local : Z }.

(** The part of [thread_Settings] that the reports use. *)
Module Settings.
Record thread_Settings := mkSettings {
  mHost : Z;
  mLocalhost : Z;
  mThreads : Z;
  mSock : Z;
  mBufLen : Z;
  mMSS : Z;
  mTCPWin : Z;
  flags : Z;
  mThreadMode : ThreadMode;
  mReportMode : ReportMode;
  mInterval : spec_float;
  mPort : Z;
  mFormat : Z;
  mTTL : Z;
  connection : Connection_Info
}.
End Settings.

Record ReportStruct := mkPacket {
  packetID : Z;
  packetLen : Z;
  sentTime : timeval;
  arrived : timeval
}.
#[export] Instance ReportStruct_eq_dec : EqDecision ReportStruct.
Proof. solve_decision. Defined.

Module Info.
Record Transfer_Info := mkInfo {
  reserved_delay : option Connection_Info;
  transferID : Z;
  groupID : Z;
  cntError : Z;
  cntOutofOrder : Z;
  cntDatagrams : Z;
  TotalLen : Z;
  jitter : spec_float;
  startTime : spec_float;
  endTime : spec_float;
  mFormat : Z;
  mTTL : Z;
  mUDP : Z;
  free : Z
}.
Definition set_reserved_delay v (s : Transfer_Info) : Transfer_Info :=
  mkInfo v (transferID s) (groupID s) (cntError s) (cntOutofOrder s) (cntDatagrams s) (TotalLen s)
    (jitter s) (startTime s) (endTime s) (mFormat s) (mTTL s) (mUDP s) (free s).
Definition set_jitter v (s : Transfer_Info) : Transfer_Info :=
  mkInfo (reserved_delay s) (transferID s) (groupID s) (cntError s) (cntOutofOrder s) (cntDatagrams s)
    (TotalLen s) v (startTime s) (endTime s) (mFormat s) (mTTL s) (mUDP s) (free s).
Definition set_startTime v (s : Transfer_Info) : Transfer_Info :=
  mkInfo (reserved_delay s) (transferID s) (groupID s) (cntError s) (cntOutofOrder s) (cntDatagrams s)
    (TotalLen s) (jitter s) v (endTime s) (mFormat s) (mTTL s) (mUDP s) (free s).
Definition set_free v (s : Transfer_Info) : Transfer_Info :=
  mkInfo (reserved_delay s) (transferID s) (groupID s) (cntError s) (cntOutofOrder s) (cntDatagrams s)
    (TotalLen s) (jitter s) (startTime s) (endTime s) (mFormat s) (mTTL s) (mUDP s) v.
End Info.
Abbreviation Transfer_Info := Info.Transfer_Info.

(** The settings in a [ReporterData], and its counters. *)
Record copied := mkCopied {
  mHost : Z;
  mLocalhost : Z;
  mBufLen : Z;
  mMSS : Z;
  mTCPWin : Z;
  flags : Z;
  mThreadMode : ThreadMode;
  mode : ReportMode;
  mPort : Z
}.
Record counts := mkCounts {
  cntError : Z;
  lastError : Z;
  cntOutofOrder : Z;
  lastOutofOrder : Z;
  cntDatagrams : Z;
  lastDatagrams : Z;
  PacketID : Z;
  TotalLen : Z;
  lastTotal : Z;
  lastTransit : spec_float
}.
Record ReporterData := mkData {
  type : Z;
  settings : copied;
  cnt : counts;
  info : Transfer_Info;
  connection : Connection_Info;
  startTime : timeval;
  packetTime : timeval;
  nextTime : timeval;
  intervalTime : timeval
}.
Definition set_type v (d : ReporterData) : ReporterData :=
  mkData v (settings d) (cnt d) (info d) (connection d) (startTime d) (packetTime d) (nextTime d) (intervalTime d).
Definition set_cnt v (d : ReporterData) : ReporterData :=
  mkData (type d) (settings d) v (info d) (connection d) (startTime d) (packetTime d) (nextTime d) (intervalTime d).
Definition set_info v (d : ReporterData) : ReporterData :=
  mkData (type d) (settings d) (cnt d) v (connection d) (startTime d) (packetTime d) (nextTime d) (intervalTime d).
Definition set_connection v (d : ReporterData) : ReporterData :=
  mkData (type d) (settings d) (cnt d) (info d) v (startTime d) (packetTime d) (nextTime d) (intervalTime d).
Definition set_packetTime v (d : ReporterData) : ReporterData :=
  mkData (type d) (settings d) (cnt d) (info d) (connection d) (startTime d) v (nextTime d) (intervalTime d).
Definition set_nextTime v (d : ReporterData) : ReporterData :=
  mkData (type d) (settings d) (cnt d) (info d) (connection d) (startTime d) (packetTime d) v (intervalTime d).
(** Both times of the start of a report, [nextTime] an interval later. *)
Definition set_startTime v (d : ReporterData) : ReporterData :=
  mkData (type d) (settings d) (cnt d) (info d) (connection d) v (packetTime d) (TimeAdd v (intervalTime d)) (intervalTime d).

Module Multi.
Record MultiHeader := mkMulti {
  groupID : Z;
  threads : Z;
  report : option ReporterData;
  data : list Transfer_Info;
  startTime : timeval
}.
Definition set_threads v (m : MultiHeader) : MultiHeader := mkMulti (groupID m) v (report m) (data m) (startTime m).
Definition set_report v (m : MultiHeader) : MultiHeader := mkMulti (groupID m) (threads m) v (data m) (startTime m).
Definition set_data v (m : MultiHeader) : MultiHeader := mkMulti (groupID m) (threads m) (report m) v (startTime m).
Definition set_startTime v (m : MultiHeader) : MultiHeader := mkMulti (groupID m) (threads m) (report m) (data m) v.
End Multi.
Abbreviation MultiHeader := Multi.MultiHeader.

(** ** The reporting styles *)
(** The calls of the functions of a style that print, and [PrintMSS]. *)
Inductive event :=
| printstats (m : ReportMode) (i : Transfer_Info)
| multistats (m : ReportMode) (i : Transfer_Info)
| serverstats (m : ReportMode) (c : Connection_Info) (i : Transfer_Info)
| reportsettings (d : ReporterData)
| reportpeer (c : Connection_Info) (ID : Z)
| PrintMSS (ID : Z).

(** [connection_reports]: the default style prints, CSV makes the text for later. *)
Definition connection_reports (m : ReportMode) (c : Connection_Info) (ID : Z) : option Connection_Info * list event :=
  match m with
  | kReport_Default => (None, [reportpeer c ID])
  | kReport_CSV => (Some c, [])
  end.
(** [settings_reports]: CSV has [settings_notimpl]. *)
Definition settings_reports (m : ReportMode) (d : ReporterData) : list event :=
  match m with kReport_Default => [reportsettings d] | kReport_CSV => [] end.
(** [serverstatistics_reports]: [CSV_serverstats] changes what it is given. *)
Definition serverstatistics_reports (m : ReportMode) (c : Connection_Info) (i : Transfer_Info) :
    Transfer_Info * list event :=
  let i := match m with
           | kReport_Default => i
           | kReport_CSV => Info.set_free 1 (Info.set_reserved_delay (Some c) i)
           end in
  (i, [serverstats m c i]).

(** [reporter_print] for [TRANSFER_REPORT], [MULTIPLE_REPORT], [CONNECTION_REPORT],
    [SETTINGS_REPORT] and [SERVER_RELAY_REPORT]. *)
Definition print_transfer (d : ReporterData) (end_ : bool) : list event :=
  let s := settings d in
  printstats (mode s) (info d) ::
  if end_ && isPrintMSS (flags s) && negb (isUDP (flags s)) then [PrintMSS (Info.transferID (info d))] else [].
Definition print_multiple (d : ReporterData) : list event := [multistats (mode (settings d)) (info d)].
Definition print_connection (d : ReporterData) : ReporterData * list event :=
  let (r, out) := connection_reports (mode (settings d)) (connection d) (Info.transferID (info d)) in
  (set_info (Info.set_reserved_delay r (info d)) d, out).
Definition print_settings (d : ReporterData) : list event := settings_reports (mode (settings d)) d.
Definition print_server_relay (d : ReporterData) : ReporterData * list event :=
  let (i, out) := serverstatistics_reports (mode (settings d)) (connection d) (info d) in (set_info i d, out).

(** ** The sum of the streams *)
(** The first slot that [p] holds of, or the last one. *)
Fixpoint find_slot (p : Transfer_Info -> bool) (l : list Transfer_Info) : nat :=
  match l with
  | [] | [_] => 0%nat
  | x :: l => if p x then 0%nat else S (find_slot p l)
  end.

(** The assignments to the fields of a slot, for the first stream and the next ones. *)
Definition first_stream (current stats : Transfer_Info) : Transfer_Info :=
  Info.mkInfo (Info.reserved_delay current) (Info.transferID current) (Info.groupID current)
    (Info.cntError stats) (Info.cntOutofOrder stats) (Info.cntDatagrams stats) (Info.TotalLen stats)
    (Info.jitter stats) (Info.startTime stats) (Info.endTime stats) (Info.mFormat stats)
    (Info.mTTL current) (Info.mUDP current) 1.
Definition next_stream (current stats : Transfer_Info) : Transfer_Info :=
  Info.mkInfo (Info.reserved_delay current) (Info.transferID current) (Info.groupID current)
    (i32 (Info.cntError current + Info.cntError stats))
    (i32 (Info.cntOutofOrder current + Info.cntOutofOrder stats))
    (i32 (Info.cntDatagrams current + Info.cntDatagrams stats))
    (u64 (Info.TotalLen current + Info.TotalLen stats))
    (if fltb (Info.jitter current) (Info.jitter stats) then Info.jitter stats else Info.jitter current)
    (Info.startTime current)
    (if fltb (Info.endTime current) (Info.endTime stats) then Info.endTime stats else Info.endTime current)
    (Info.mFormat stats) (Info.mTTL current) (Info.mUDP current) (wrap_s 8 (Info.free current + 1)).

Definition force_char (force : bool) : Z := if force then 1 else 0.

Definition reporter_handle_multiple_reports (m : MultiHeader) (stats : Transfer_Info) (force : bool) :
    cres (MultiHeader * list event) :=
  if 1 <? Multi.threads m then
    let same t := SFeqb (Info.startTime t) (Info.startTime stats) in
    let i := find_slot same (Multi.data m) in
    current ← deref (Multi.data m !! i);
    if negb (same current) then
      let i := find_slot (fun t => fltb (Info.startTime t) fzero) (Multi.data m) in
      current ← deref (Multi.data m !! i);
      Ret (Multi.set_data (<[i := first_stream current stats]> (Multi.data m)) m, [])
    else
      let current := next_stream current stats in
      if Info.free current =? Multi.threads m then
        d ← deref (Multi.report m);
        let current := Info.set_free (force_char force) current in
        let d := set_info (Info.set_reserved_delay (Info.reserved_delay (info d)) current) d in
        Ret (Multi.set_report (Some d)
               (Multi.set_data (<[i := Info.set_startTime (double (-1)) current]> (Multi.data m)) m),
             print_multiple d)
      else Ret (Multi.set_data (<[i := current]> (Multi.data m)) m, [])
  else Ret (m, []).

(** The call of it when a report was printed. *)
Definition sum_report (d : ReporterData) (multireport : option MultiHeader) (force : bool) :
    cres (option MultiHeader * list event) :=
  match multireport with
  | Some m =>
      if isMultipleReport (flags (settings d)) then
        '(m, out) ← reporter_handle_multiple_reports m (info d) force;
        Ret (Some m, out)
      else Ret (multireport, [])
  | None => Ret (multireport, [])
  end.

(** ** reporter_condprintstats *)
(** The lost packets: those that arrived late were not. *)
Definition lost (cntError cntOutofOrder : Z) : Z :=
  if cntOutofOrder <? cntError then i32 (cntError - cntOutofOrder) else cntError.
Definition datagrams (d : ReporterData) : Z :=
  if isUDP (flags (settings d)) then PacketID (cnt d) else cntDatagrams (cnt d).

(** What [info] becomes at the end, and at the end of an interval. *)
Definition final_info (d : ReporterData) : Transfer_Info :=
  let i := info d in let c := cnt d in
  Info.mkInfo (Info.reserved_delay i) (Info.transferID i) (Info.groupID i)
    (lost (cntError c) (cntOutofOrder c)) (cntOutofOrder c) (datagrams d) (TotalLen c)
    (Info.jitter i) fzero (TimeDifference (packetTime d) (startTime d)) (Info.mFormat i) (Info.mTTL i) (Info.mUDP i) 1.
Definition interval_info (d : ReporterData) : Transfer_Info :=
  let i := info d in let c := cnt d in
  let late := i32 (cntOutofOrder c - lastOutofOrder c) in
  Info.mkInfo (Info.reserved_delay i) (Info.transferID i) (Info.groupID i)
    (lost (i32 (cntError c - lastError c)) late) late (i32 (datagrams d - lastDatagrams c))
    (u64 (TotalLen c - lastTotal c)) (Info.jitter i) (Info.endTime i)
    (TimeDifference (nextTime d) (startTime d)) (Info.mFormat i) (Info.mTTL i) (Info.mUDP i) 0.
(** The counters [last...] at the end of an interval. *)
Definition interval_counts (d : ReporterData) : counts :=
  let c := cnt d in
  mkCounts (cntError c) (cntError c) (cntOutofOrder c) (cntOutofOrder c) (cntDatagrams c) (datagrams d)
    (PacketID c) (TotalLen c) (TotalLen c) (lastTransit c).

(** The report of an interval and of the whole transfer. *)
Definition report_interval (d : ReporterData) (multireport : option MultiHeader) :
    cres (ReporterData * option MultiHeader * list event) :=
  let d := set_nextTime (TimeAdd (nextTime d) (intervalTime d)) (set_cnt (interval_counts d) (set_info (interval_info d) d)) in
  '(multireport, out) ← sum_report d multireport false;
  Ret (d, multireport, print_transfer d false ++ out).
Definition report_final (d : ReporterData) (multireport : option MultiHeader) :
    cres (ReporterData * option MultiHeader * list event) :=
  let d := set_info (final_info d) d in
  '(multireport, out) ← sum_report d multireport true;
  Ret (d, multireport, print_transfer d true ++ out).

(** The condition of the loop. *)
Definition interval_over (d : ReporterData) : bool :=
  let i := intervalTime d in
  (negb (tv_sec i =? 0) || negb (tv_usec i =? 0)) && fltb (TimeDifference (nextTime d) (packetTime d)) fzero.

Fixpoint interval_loop (fuel : nat) (d : ReporterData) (multireport : option MultiHeader) :
    cres (ReporterData * option MultiHeader * list event) :=
  match fuel with
  | O => NoFuel
  | S fuel =>
      if interval_over d then
        '(d, multireport, out) ← report_interval d multireport;
        '(d, multireport, more) ← interval_loop fuel d multireport;
        Ret (d, multireport, out ++ more)
      else Ret (d, multireport, [])
  end.

Definition micros (t : timeval) : Z := tv_sec t * rMillion + tv_usec t.
(** One turn for every interval between the two times, and one to leave the loop. *)
Definition intervals_fuel (d : ReporterData) : nat :=
  S (S (Z.to_nat ((micros (packetTime d) - micros (nextTime d)) / micros (intervalTime d)))).

Definition reporter_condprintstats (d : ReporterData) (multireport : option MultiHeader) (force : bool) :
    cres (ReporterData * option MultiHeader * list event) :=
  if force then report_final d multireport
  else interval_loop (intervals_fuel d) d multireport.

(** ** reporter_handle_packet *)
Definition count_packet (c : counts) : counts :=
  mkCounts (cntError c) (lastError c) (cntOutofOrder c) (lastOutofOrder c) (i32 (cntDatagrams c + 1))
    (lastDatagrams c) (PacketID c) (TotalLen c) (lastTotal c) (lastTransit c).
Definition add_length (len : Z) (c : counts) : counts :=
  mkCounts (cntError c) (lastError c) (cntOutofOrder c) (lastOutofOrder c) (cntDatagrams c)
    (lastDatagrams c) (PacketID c) (u64 (TotalLen c + len)) (lastTotal c) (lastTransit c).

(** The order of the datagrams. *)
Definition count_sequence (id : Z) (c : counts) : counts :=
  let next := i32 (PacketID c + 1) in
  let '(err, late) :=
    if negb (id =? next) then
      if id <? next then (cntError c, i32 (cntOutofOrder c + 1))
      else (i32 (cntError c + i32 (i32 (id - PacketID c) - 1)), cntOutofOrder c)
    else (cntError c, cntOutofOrder c) in
  mkCounts err (lastError c) late (lastOutofOrder c) (cntDatagrams c) (lastDatagrams c)
    (if PacketID c <? id then id else PacketID c) (TotalLen c) (lastTotal c) (lastTransit c).

Definition set_transit (transit : spec_float) (c : counts) : counts :=
  mkCounts (cntError c) (lastError c) (cntOutofOrder c) (lastOutofOrder c) (cntDatagrams c)
    (lastDatagrams c) (PacketID c) (TotalLen c) (lastTotal c) transit.
(** RFC 1889: J = J + (|D| - J) / 16 *)
Definition new_jitter (transit lastTransit jitter : spec_float) : spec_float :=
  if negb (SFeqb lastTransit fzero) then
    let delta := fsub transit lastTransit in
    let delta := if fltb delta fzero then SFopp delta else delta in
    fadd jitter (fdiv (fsub delta jitter) (double 16))
  else jitter.

(** A datagram with a number. *)
Definition handle_datagram (p : ReportStruct) (d : ReporterData) : ReporterData :=
  let transit := TimeDifference (arrived p) (sentTime p) in
  let d := set_info (Info.set_jitter (new_jitter transit (lastTransit (cnt d)) (Info.jitter (info d))) (info d)) d in
  set_cnt (count_sequence (packetID p) (set_transit transit (cnt d))) d.

(** The flag says that the packet was the last one. *)
Definition reporter_handle_packet (p : ReportStruct) (d : ReporterData) (multireport : option MultiHeader) :
    cres (bool * ReporterData * option MultiHeader * list event) :=
  let d := set_packetTime (arrived p) (set_cnt (count_packet (cnt d)) d) in
  if packetID p <? 0 then
    let d := if decide (mThreadMode (settings d) = kMode_Client) then d
             else set_cnt (add_length (packetLen p) (cnt d)) d in
    '(d, multireport, out) ← reporter_condprintstats d multireport true;
    Ret (true, d, multireport, out)
  else
    '(d, multireport, out) ← reporter_condprintstats d multireport false;
    let d := set_cnt (add_length (packetLen p) (cnt d)) d in
    let d := if packetID p =? 0 then d else handle_datagram p d in
    '(d, multireport, more) ← reporter_condprintstats d multireport false;
    Ret (false, d, multireport, out ++ more).

(** What the packets of a stream change: the data of its report, that of its group, and
    what is printed. *)
Abbreviation stream := (ReporterData * option MultiHeader * list event)%type.
(** What the agent reads of it. *)
Definition stream_count (s : stream) : Z := cntDatagrams (cnt (s.1.1)).
Definition stream_info (s : stream) : Transfer_Info := info (s.1.1).
Definition reporter_handle (p : ReportStruct) (s : stream) : cres (bool * stream) :=
  let '(d, multireport, out) := s in
  '(finished, d, multireport, more) ← reporter_handle_packet p d multireport;
  Ret (finished, (d, multireport, out ++ more)).

(** ** Setting up a report *)
(** The settings in a [ReporterData]; all of them 0 behind [memset]. *)
Definition copy_settings (agent : Settings.thread_Settings) (mPort : Z) : copied :=
  mkCopied (Settings.mHost agent) (Settings.mLocalhost agent) (Settings.mBufLen agent) (Settings.mMSS agent)
    (Settings.mTCPWin agent) (Settings.flags agent) (Settings.mThreadMode agent) (Settings.mReportMode agent) mPort.
Definition no_settings : copied := mkCopied 0 0 0 0 0 0 kMode_Unknown kReport_Default 0.
Definition no_counts : counts := mkCounts 0 0 0 0 0 0 0 0 0 fzero.
Definition no_connection : Connection_Info := mkConnection (mkAddr 0 0 0) 0 (mkAddr 0 0 0) 0.
Definition no_time : timeval := mkTv 0 0.
Definition new_info (transferID groupID mFormat mTTL mUDP : Z) : Transfer_Info :=
  Info.mkInfo None transferID groupID 0 0 0 0 fzero fzero fzero mFormat (wrap_u 8 mTTL) mUDP 0.
Definition udp_mode (agent : Settings.thread_Settings) : Z :=
  if isUDP (Settings.flags agent) then mode_char (Settings.mThreadMode agent) else 0.

(** [InitMulti]; [uninit] is what [malloc] leaves in the slots. *)
Definition init_slot (inID : Z) (uninit : Transfer_Info) : Transfer_Info :=
  Info.mkInfo (Info.reserved_delay uninit) inID (-2) (Info.cntError uninit) (Info.cntOutofOrder uninit)
    (Info.cntDatagrams uninit) (Info.TotalLen uninit) (Info.jitter uninit) (double (-1)) (Info.endTime uninit)
    (Info.mFormat uninit) (Info.mTTL uninit) (Info.mUDP uninit) (Info.free uninit).
Definition InitMulti (uninit : Transfer_Info) (agent : Settings.thread_Settings) (inID : Z) : cres (option MultiHeader) :=
  if (1 <? Settings.mThreads agent) || bool_decide (Settings.mThreadMode agent = kMode_Server) then
    if isMultipleReport (Settings.flags agent) then
      interval ← interval_time (Settings.mInterval agent);
      let c := Settings.connection agent in
      let '(ty, conn) :=
        if isConnectionReport (Settings.flags agent)
        then (Z.lor TRANSFER_REPORT CONNECTION_REPORT,
              mkConnection (SockAddr_setPortAny (peer c)) (size_peer c) (SockAddr_setPortAny (local c)) (size_local c))
        else (TRANSFER_REPORT, no_connection) in
      let d := mkData ty (copy_settings agent 0) no_counts
                 (new_info 0 0 (Settings.mFormat agent) (Settings.mTTL agent) (udp_mode agent))
                 conn no_time no_time no_time interval in
      Ret (Some (Multi.mkMulti inID (Settings.mThreads agent) (Some d)
                   (replicate NUM_MULTI_SLOTS (init_slot inID uninit)) no_time))
    else Ret (Some (Multi.mkMulti inID (Settings.mThreads agent) None [] no_time))
  else Ret None.

(** The [report] that [InitReport] allocates, in front of the code that sets the times;
    nothing when no report is wanted.  [groupID] is that of the group of streams. *)
Definition init_data (agent : Settings.thread_Settings) (groupID : Z) : cres (option ReporterData) :=
  let fl := Settings.flags agent in
  d ← (if isDataReport fl then
         interval ← interval_time (Settings.mInterval agent);
         Ret (Some (mkData TRANSFER_REPORT (copy_settings agent 0) no_counts
                      (new_info (Settings.mSock agent) groupID (Settings.mFormat agent) (Settings.mTTL agent) (udp_mode agent))
                      no_connection no_time no_time no_time interval))
       else Ret None);
  Ret (if isConnectionReport fl then
         let d := match d with
                  | Some d => d
                  | None => mkData 0 no_settings no_counts (new_info (Settings.mSock agent) (-1) 0 0 0)
                              no_connection no_time no_time no_time no_time
                  end in
         Some (set_connection (Settings.connection agent) (set_type (Z.lor (type d) CONNECTION_REPORT) d))
       else d).

(** [ReportSettings]: [malloc] without [memset]; the fields that are not set are those
    of [uninit]. *)
Definition settings_data (uninit : ReporterData) (agent : Settings.thread_Settings) : ReporterData :=
  let i := info uninit in
  mkData SETTINGS_REPORT (copy_settings agent (Settings.mPort agent)) (cnt uninit)
    (Info.mkInfo (Info.reserved_delay i) (Settings.mSock agent) (-1) (Info.cntError i) (Info.cntOutofOrder i)
       (Info.cntDatagrams i) (Info.TotalLen i) (Info.jitter i) (Info.startTime i) (Info.endTime i)
       (Settings.mFormat agent) (wrap_u 8 (Settings.mTTL agent)) (Info.mUDP i) (Info.free i))
    (Settings.connection agent) (startTime uninit) (packetTime uninit) (nextTime uninit) (intervalTime uninit).

(** The [server_hdr] that ends a UDP test, in host byte order ([ntohl] gives unsigned
    numbers). *)
Record server_hdr := mkServerHdr {
  hdr_flags : Z;
  total_len1 : Z;
  total_len2 : Z;
  stop_sec : Z;
  stop_usec : Z;
  error_cnt : Z;
  outorder_cnt : Z;
  hdr_datagrams : Z;
  jitter1 : Z;
  jitter2 : Z
}.
Definition HEADER_VERSION1 : Z := 0x80000000.
Definition fixed_point (whole millionths : Z) : spec_float :=
  fadd (double whole) (fdiv (double millionths) (double rMillion)).

(** [ReportServerUDP]: its report, when there is one. *)
Definition server_data (uninit : ReporterData) (agent : Settings.thread_Settings) (groupID : Z) (server : server_hdr) :
    option ReporterData :=
  if flag HEADER_VERSION1 (hdr_flags server) && isServerReport (Settings.flags agent) then
    let i := info uninit in
    let s := settings uninit in
    let c := Settings.connection agent in
    Some (mkData SERVER_RELAY_REPORT
            (mkCopied (mHost s) (mLocalhost s) (mBufLen s) (mMSS s) (mTCPWin s) (flags s) (mThreadMode s)
               (Settings.mReportMode agent) (mPort s))
            (cnt uninit)
            (Info.mkInfo (Info.reserved_delay i) (Settings.mSock agent) groupID
               (i32 (error_cnt server)) (i32 (outorder_cnt server)) (i32 (hdr_datagrams server))
               (u64 (Z.shiftl (total_len1 server) 32 + total_len2 server))
               (fixed_point (jitter1 server) (jitter2 server)) fzero
               (fixed_point (stop_sec server) (stop_usec server))
               (Settings.mFormat agent) (Info.mTTL i) (mode_char kMode_Server) (Info.free i))
            (mkConnection (local c) (size_local c) (peer c) (size_peer c))
            (startTime uninit) (packetTime uninit) (nextTime uninit) (intervalTime uninit))
  else None.
End IperfReporter.
