(* ===== verification/IperfRing.v ===== *)
(** * iperf/src/Reporter.c: the ring between an agent and the reporter

    A thread that transfers data (the agent) hands its packets to the reporter thread
    through the array of a [ReportHeader], without a lock: [agentindex] is the next
    place the agent writes, [reporterindex] the last one the reporter has handled.
    [ReportPacket], [CloseReport], [GetReport] and [EndReport] on one side and the loop
    of [reporter_process_report] on the other run interleaved, one access to shared
    memory at a time; memory is sequentially consistent.  A place is [None] while the
    agent copies a packet to it, and before.  Waiting for [ReportDoneCond] or in
    [thread_rest] is waiting for the next turn: a thread that waits looks again when it
    is scheduled.  What the reporter does with a packet is the argument [handle], which
    IperfSystem gives [reporter_handle_packet]. *)
From S2P Require Import Prelude Doubles IperfReporter.

Module IperfRing.
Import Doubles IperfReporter.

Record ring := mkRing {
  reporterindex : Z;
  agentindex : Z;
  data : list (option ReportStruct)
}.
Definition set_reporterindex v (r : ring) : ring := mkRing v (agentindex r) (data r).
Definition set_agentindex v (r : ring) : ring := mkRing (reporterindex r) v (data r).
Definition set_data v (r : ring) : ring := mkRing (reporterindex r) (agentindex r) v.

(** The ring of [InitReport]. *)
Definition new_ring : ring :=
  mkRing (NUM_REPORT_STRUCTS - 1) 0 (replicate (Z.to_nat NUM_REPORT_STRUCTS) None).

(** ** The agent *)
(** What the thread calls next; [Rest] is anything else it does. *)
Inductive call := ReportPacket (p : ReportStruct) | CloseReport (p : ReportStruct) | GetReport | EndReport | Rest.

(** Where the agent is.  The flag [last] says that [CloseReport] called [ReportPacket];
    [index] is the variable of the code. *)
Inductive agent :=
| Running
| Report_packet (p : ReportStruct) (last : bool)
| Wrap (index : Z) (p : ReportStruct) (last : bool)
| Wait_wrap (p : ReportStruct) (last : bool)
| Lap (index : Z) (p : ReportStruct) (last : bool)
| Wait_lap (p : ReportStruct) (last : bool)
| Copy (p : ReportStruct) (last : bool)
| Advance (p : ReportStruct) (last : bool)
| Read_count
| Closed
| Get_report
| End_report
| End_set
| Ended.

(** What a step does that the other threads or the caller can see. *)
Inductive label :=
| Pushed (p : ReportStruct)
| Handled (p : ReportStruct)
| Returned_count (id : Z)
| Got_report (i : Transfer_Info).

(** The packet that [CloseReport] reports. *)
Definition closing_packet (p : ReportStruct) : ReportStruct := mkPacket (-1) 0 (sentTime p) (arrived p).

Section Agent.
(** [cntDatagrams] and [info] of the report, which the reporter keeps. *)
Context (cntDatagrams : Z) (info : Transfer_Info).

Definition agent_step (c : call) (a : agent) (r : ring) : cres (agent * ring * list label) :=
  match a with
  | Running =>
      Ret (match c with
           | ReportPacket p => Report_packet p false
           | CloseReport p => Report_packet (closing_packet p) true
           | _ => Running
           end, r, [])
  | Report_packet p last =>
      let index := reporterindex r in
      Ret (if agentindex r =? NUM_REPORT_STRUCTS then Wrap index p last else Lap index p last, r, [])
  | Wrap index p last =>
      if index =? 0 then Ret (Wait_wrap p last, r, [])
      else Ret (Lap index p last, set_agentindex 0 r, [])
  | Wait_wrap p last => Ret (Wrap (reporterindex r) p last, r, [])
  | Lap index p last =>
      if index - 1 =? agentindex r then Ret (Wait_lap p last, r, [])
      else
        l ← deref (aset (data r) (agentindex r) None);
        Ret (Copy p last, set_data l r, [])
  | Wait_lap p last => Ret (Lap (reporterindex r) p last, r, [])
  | Copy p last =>
      l ← deref (aset (data r) (agentindex r) (Some p));
      Ret (Advance p last, set_data l r, [])
  | Advance p last =>
      Ret (if last then Read_count else Running, set_agentindex (agentindex r + 1) r, [Pushed p])
  | Read_count => Ret (Closed, r, [Returned_count cntDatagrams])
  | Closed =>
      Ret (match c with GetReport => Get_report | EndReport => End_report | _ => Closed end, r, [])
  | Get_report =>
      if reporterindex r =? -1 then Ret (Closed, r, [Got_report info]) else Ret (Get_report, r, [])
  | End_report => Ret (if reporterindex r =? -1 then End_set else End_report, r, [])
  | End_set => Ret (Ended, set_agentindex (-1) r, [])
  | Ended => Ret (Ended, r, [])
  end.
End Agent.

(** ** The reporter *)
(** Where the reporter is in the code for [TRANSFER_REPORT]: in front of the test of
    [reporterindex], of the loop, in its body, in front of [reporter_handle_packet], of
    the assignment of -1, of the test of [agentindex], or behind, with [need_free]. *)
Inductive reporter := Test | Loop | Step | Handle | Done | Check | Out (need_free : bool).

Section Reporter.
Context {D : Type} (handle : ReportStruct -> D -> cres (bool * D)).

Definition reporter_step (q : reporter) (r : ring) (d : D) : cres (reporter * ring * D * list label) :=
  match q with
  | Test => Ret (if 0 <=? reporterindex r then Loop else Check, r, d, [])
  | Loop => Ret (if reporterindex r =? agentindex r - 1 then Check else Step, r, d, [])
  | Step =>
      if reporterindex r =? NUM_REPORT_STRUCTS - 1 then
        if agentindex r =? 0 then Ret (Check, r, d, [])
        else Ret (Handle, set_reporterindex 0 r, d, [])
      else Ret (Handle, set_reporterindex (reporterindex r + 1) r, d, [])
  | Handle =>
      p ← deref (aget (data r) (reporterindex r));
      p ← deref p;
      '(finished, d) ← handle p d;
      Ret (if finished : bool then Done else Loop, r, d, [Handled p])
  | Done => Ret (Check, set_reporterindex (-1) r, d, [])
  | Check => Ret (Out (agentindex r =? -1), r, d, [])
  | Out _ => Ret (q, r, d, [])
  end.
End Reporter.

(** ** Both *)
(** The agent runs, and calls [c] if it is between two calls; or the reporter runs, which
    comes back to a report that need not be freed. *)
Inductive choice := Agent (c : call) | Reporter.

Section Both.
Context {D : Type} (handle : ReportStruct -> D -> cres (bool * D)).
Context (cnt : D -> Z) (inf : D -> Transfer_Info).

Record config := mkConfig { thread : agent; worker : reporter; shared : ring; stats : D }.

Definition step (ch : choice) (g : config) : cres (config * list label) :=
  match ch with
  | Agent c =>
      '(a, r, l) ← agent_step (cnt (stats g)) (inf (stats g)) c (thread g) (shared g);
      Ret (mkConfig a (worker g) r (stats g), l)
  | Reporter =>
      match worker g with
      | Out true => Ret (g, [])
      | Out false => Ret (mkConfig (thread g) Test (shared g) (stats g), [])
      | q =>
          '(q, r, d, l) ← reporter_step handle q (shared g) (stats g);
          Ret (mkConfig (thread g) q r d, l)
      end
  end.

Fixpoint run (l : list choice) (g : config) : cres (config * list label) :=
  match l with
  | [] => Ret (g, [])
  | ch :: l =>
      '(g, l1) ← step ch g;
      '(g, l2) ← run l g;
      Ret (g, l1 ++ l2)
  end.

Definition initial (d : D) : config := mkConfig Running Test new_ring d.
End Both.

(** The queue that the ring is for: at most [NUM_REPORT_STRUCTS] packets, handled in the
    order in which they were reported. *)
Definition queue_step (l : label) (q : list ReportStruct) : option (list ReportStruct) :=
  match l with
  | Pushed p => if (length q <? Z.to_nat NUM_REPORT_STRUCTS)%nat then Some (q ++ [p]) else None
  | Handled p => match q with p' :: q => if decide (p = p') then Some q else None | [] => None end
  | _ => Some q
  end.
Fixpoint queue_run (l : list label) (q : list ReportStruct) : option (list ReportStruct) :=
  match l with [] => Some q | x :: l => q ← queue_step x q; queue_run l q end.
End IperfRing.
