(* ===== verification/IperfRingProofs.v ===== *)
(** * iperf/src/Reporter.c: the ring is a queue

    The invariant of the ring of IperfRing under every interleaving of the agent and the
    reporter: how the indices count the packets reported and handled, and what the
    places hold in between. *)
From S2P Require Import Prelude Doubles IperfReporter IperfRing.

Module IperfRingProofs.
Import Doubles IperfReporter IperfRing.

(** What the ring asks of the code that handles a packet: on the packets and the data
    that it is for, it returns, and finishes at a negative number. *)
Class Handler {D : Type} (handle : ReportStruct -> D -> cres (bool * D)) := {
  ok_packet : ReportStruct -> Prop;
  ok_data : D -> Prop;
  handles p d : ok_packet p -> ok_data d -> exists d', handle p d = Ret (packetID p <? 0, d') /\ ok_data d'
}.

(** The agent has reported its last packet. *)
Definition closed (a : agent) : bool :=
  match a with Read_count | Closed | Get_report | End_report | End_set | Ended => true | _ => false end.
Definition is_handle (q : reporter) : bool := match q with Handle => true | _ => false end.
Definition is_done (q : reporter) : bool := match q with Done => true | _ => false end.

(** The packet of an unfinished call. *)
Definition pending (a : agent) : option (ReportStruct * bool) :=
  match a with
  | Report_packet p last | Wrap _ p last | Wait_wrap p last | Lap _ p last | Wait_lap p last
  | Copy p last | Advance p last => Some (p, last)
  | _ => None
  end.

Abbreviation N := 700.

(** [n] packets are reported and [t] of them taken; the second case is that of an agent
    at the end of the array that the reporter has just left. *)
Definition room (n t ai : Z) : Prop := n - t <= N - 2 \/ (n - t = N - 1 /\ n mod N = 0 /\ ai = N).
(** The same when a place is free. *)
Definition free_place (n t : Z) : Prop := n - t <= N - 3 \/ (n - t = N - 2 /\ n mod N = N - 1).
(** A value of [reporterindex] that is not newer than the present one. *)
Definition seen (n t ai index : Z) : Prop := exists t0, 0 <= t0 <= t /\ room n t0 ai /\ index = (t0 - 1) mod N.

(** What holds at each place of the agent. *)
Definition agent_ok (n t ri ai : Z) (a : agent) : Prop :=
  match a with
  | Running | Report_packet _ _ | Read_count | Closed | Get_report | End_report =>
      ai = n mod N \/ (ai = N /\ n mod N = 0)
  | End_set => ri = -1 /\ (ai = n mod N \/ (ai = N /\ n mod N = 0))
  | Wrap index _ _ => ai = N /\ n mod N = 0 /\ seen n t ai index
  | Wait_wrap _ _ => ai = N /\ n mod N = 0
  | Lap index _ _ => ai = n mod N /\ seen n t ai index
  | Wait_lap _ _ => ai = n mod N
  | Copy _ _ | Advance _ _ => ai = n mod N /\ free_place n t
  | Ended => ri = -1 /\ ai = -1
  end.

(** What holds at each place of the reporter. *)
Definition reporter_ok (n m ri ai : Z) (a : agent) (q : reporter) : Prop :=
  match q with
  | Loop | Handle | Done => 0 <= ri
  | Step => 0 <= ri /\ (m < n \/ (n mod N = 0 /\ ai = 0))
  | Out b => b = true -> a = Ended
  | _ => True
  end.

(** The packets that the reporter has taken when it has handled [m]. *)
Definition taken (m : Z) (q : reporter) : Z := m + if is_handle q then 1 else 0.

(** The indices: [n] packets are reported, [m] handled. *)
Record positions (n m ri ai : Z) (a : agent) (q : reporter) : Prop := mkPositions {
  p_counts : 0 <= m /\ m <= taken m q <= n;
  p_room : room n (taken m q) ai \/ a = Ended;
  p_index : ri = -1 \/ ri = (taken m q - 1) mod N;
  p_finished : is_done q = true \/ ri = -1 <-> m = n /\ closed a = true;
  p_agent : agent_ok n (taken m q) ri ai a;
  p_reporter : reporter_ok n m ri ai a q
}.

Lemma positions_initial : positions 0 0 (N - 1) 0 Running Test.
Proof.
  split; cbn; try done.
  - left. left. by unfold taken.
  - by right.
  - split; [intros [? | ?]; done | by intros [_ ?]].
  - by left.
Qed.

(** How many packets a step reports. *)
Definition pushes (l : list label) : Z := match l with [Pushed _] => 1 | _ => 0 end.

(** A step of the agent that does not write an index. *)
Lemma positions_same n m ri ai a a' q :
  positions n m ri ai a q -> closed a' = closed a -> (a = Ended -> a' = Ended) ->
  agent_ok n (taken m q) ri ai a' -> positions n m ri ai a' q.
Proof.
  intros [C R I F A W] Ec Ee Ha. split; try done.
  - destruct R; auto.
  - by rewrite Ec.
  - destruct q; try done. cbn in *. auto.
Qed.

(** Until the agent has reported its last packet the reporter is not finished. *)
Lemma positions_open n m ri ai a q :
  positions n m ri ai a q -> closed a = false ->
  ri = (taken m q - 1) mod N /\ is_done q = false /\ room n (taken m q) ai.
Proof.
  intros [C R I F A W] Ec. rewrite Ec in F. split_and!.
  - destruct I as [I | I]; [| done]. by destruct F as [[_ ?] _]; [right |].
  - destruct (is_done q); [| done]. by destruct F as [[_ ?] _]; [left |].
  - destruct R as [R | ->]; [done |]. discriminate Ec.
Qed.

(** What is read from [reporterindex] now is [seen]. *)
Lemma seen_now n t ai : 0 <= t -> room n t ai -> seen n t ai ((t - 1) mod N).
Proof. intros. exists t. split_and!; (done || lia). Qed.

(** The guards of [ReportPacket]. *)
Lemma wrap_free n t index : seen n t N index -> n mod N = 0 -> index <> 0 -> seen n t 0 index.
Proof.
  intros (t0 & Ht & [R | (R & _)] & ->) Hn Hi; exists t0; split_and!; try done; try lia.
  - by left.
  - exfalso. zdiv.
Qed.

Lemma lap_free n t ai index :
  seen n t ai index -> ai = n mod N -> index - 1 <> ai -> free_place n t.
Proof.
  intros (t0 & Ht & [R | (R & ?)] & ->) -> Hi; unfold free_place.
  - destruct (Z.le_gt_cases (n - t) (N - 3)); [by left | right]. zdiv.
  - exfalso. zdiv.
Qed.

Lemma seen_room n t ai index : seen n t ai index -> ai = n mod N -> n - t <= N - 2.
Proof. intros (t0 & Ht & [R | (R & ?)] & ->) ->; [lia |]. zdiv. Qed.

(** [agentindex = 0] behind the end of the array. *)
Lemma positions_wrap n m ri q index p last :
  positions n m ri N (Wrap index p last) q -> index <> 0 -> positions n m ri 0 (Lap index p last) q.
Proof.
  intros [C R I F A W] Hi. cbn in A. destruct A as (_ & Hn & Hsn).
  pose proof (wrap_free _ _ _ Hsn Hn Hi) as Hsn'. split; try done.
  - left. left. by eapply seen_room.
  - destruct q; try done; cbn in *; [| by intros ?%W]. intuition lia.
Qed.

(** [agentindex++]. *)
Lemma positions_advance n m ri ai q p last a' :
  positions n m ri ai (Advance p last) q -> (closed a' = last /\ a' = if last then Read_count else Running) ->
  positions (n + 1) m ri (ai + 1) a' q.
Proof.
  intros HP [Hl Ha]. destruct (positions_open _ _ _ _ _ _ HP eq_refl) as (Hi & Hd & Hr).
  destruct HP as [C R I F A W]. cbn [agent_ok] in A. destruct A as [-> Hf]. split.
  - lia.
  - left. destruct Hf as [? | [? ?]]; [left; lia |]. right. split_and!; [lia | zdiv | lia].
  - by right.
  - rewrite Hd. split; [intros [? | ?]; [done |] | intros [? ?]; lia]. zdiv.
  - rewrite Ha. destruct last; cbn; zdiv.
  - destruct q; try done; cbn in *; [| by intros ?%W]. split; [lia |]. left. zdiv.
Qed.

Lemma agent_positions k i c a r a' r' l n m q :
  agent_step k i c a r = Ret (a', r', l) ->
  positions n m (reporterindex r) (agentindex r) a q ->
  positions (n + pushes l) m (reporterindex r') (agentindex r') a' q.
Proof.
  intros E HP. destruct r as [ri ai dt]. cbn [reporterindex agentindex] in *.
  assert (Hs := fun H => positions_open _ _ _ _ _ _ HP H). pose proof (p_counts _ _ _ _ _ _ HP) as C.
  pose proof (p_agent _ _ _ _ _ _ HP) as A. set (t := taken m q) in *.
  destruct a; cbn [agent_step reporterindex agentindex data set_agentindex agent_ok closed] in *.
  - destruct c; inversion E; subst; clear E; rewrite Z.add_0_r; by eapply positions_same.
  - destruct (Hs eq_refl) as (-> & _ & Hr).
    destruct (Z.eqb_spec ai NUM_REPORT_STRUCTS); inversion E; subst; clear E; rewrite Z.add_0_r;
      (eapply positions_same; [done.. |]); cbn.
    + split_and!; [done | | apply seen_now; (lia || done)]. unfold NUM_REPORT_STRUCTS in *. zdiv.
    + split; [by destruct A as [? | [? _]] |]. apply seen_now; [lia | done].
  - destruct A as (-> & Hn & Hsn). destruct (Z.eqb_spec index 0); inversion E; subst; clear E; rewrite Z.add_0_r.
    + by eapply positions_same.
    + by apply positions_wrap.
  - destruct (Hs eq_refl) as (-> & _ & Hr). destruct A as [-> Hn]. inversion E; subst; clear E. rewrite Z.add_0_r.
    eapply positions_same; [done.. |]. cbn. split_and!; [done.. |]. by apply seen_now; [lia |].
  - destruct A as (-> & Hsn). destruct (Z.eqb_spec (index - 1) (n mod N)).
    + inversion E; subst; clear E. rewrite Z.add_0_r. by eapply positions_same.
    + destruct (aset dt (n mod N) None); [| done]. inversion E; subst; clear E. rewrite Z.add_0_r.
      eapply positions_same; [done.. |]. cbn. split; [done |]. by eapply lap_free.
  - destruct (Hs eq_refl) as (-> & _ & Hr). inversion E; subst; clear E. rewrite Z.add_0_r.
    eapply positions_same; [done.. |]. cbn. split; [done |]. by apply seen_now; [lia |].
  - destruct (aset dt ai (Some p)); [| done]. inversion E; subst; clear E. rewrite Z.add_0_r.
    by eapply positions_same.
  - inversion E; subst; clear E. eapply positions_advance; [done |]. by destruct last0.
  - inversion E; subst; clear E. rewrite Z.add_0_r. by eapply positions_same.
  - destruct c; inversion E; subst; clear E; rewrite Z.add_0_r; by eapply positions_same.
  - destruct (ri =? -1); inversion E; subst; clear E; rewrite Z.add_0_r; by eapply positions_same.
  - inversion E; subst; clear E. rewrite Z.add_0_r. destruct (Z.eqb_spec ri (-1)); [| by eapply positions_same].
    by eapply positions_same.
  - inversion E; subst; clear E. rewrite Z.add_0_r. destruct HP as [? R I F ? W]. split; try done.
    + by right.
    + destruct A as [-> A]. by split.
    + destruct A as [-> A]. destruct q; try done; cbn in *; lia.
  - inversion E; subst; clear E. by rewrite Z.add_0_r.
Qed.

(** How many packets a step handles. *)
Definition handled (l : list label) : Z := match l with [Handled _] => 1 | _ => 0 end.

(** A step of the reporter that does not write its index. *)
Lemma positions_look n m ri ai a q q' :
  positions n m ri ai a q -> is_handle q' = is_handle q -> is_done q' = is_done q ->
  reporter_ok n m ri ai a q' -> positions n m ri ai a q'.
Proof.
  intros [C R I F A W] Eh Ed Hq. unfold taken in *. rewrite <- Eh in *. rewrite <- Ed in F. by split.
Qed.

Lemma agent_ok_taken n t ri ri' ai a :
  agent_ok n t ri ai a -> (ri = -1 -> ri' = -1) -> agent_ok n (t + 1) ri' ai a.
Proof.
  assert (Hs : forall i, seen n t ai i -> seen n (t + 1) ai i) by (intros i (t0 & ? & ?); exists t0; split; [lia | done]).
  assert (Hf : free_place n t -> free_place n (t + 1)) by (unfold free_place; lia).
  intros H Hr. destruct a; cbn in *; intuition.
Qed.

(** The reporter takes the next packet. *)
Lemma positions_take n m ri ai a :
  positions n m ri ai a Step -> ri <> NUM_REPORT_STRUCTS - 1 \/ ai <> 0 ->
  m < n /\ positions n m ((ri + 1) mod N) ai a Handle.
Proof.
  intros [C R I F A W] Hi. unfold taken, NUM_REPORT_STRUCTS in *. cbn in *. rewrite Z.add_0_r in *. destruct W as [Hr W].
  destruct I as [-> | ->]; [lia |]. assert (Hm : m < n) by zdiv.
  split; [done |]. split; unfold taken; cbn.
  - lia.
  - destruct R as [[R | R] | R]; [left; left; lia | left; left; lia | by right].
  - right. zdiv.
  - split; [intros [? | ?]; [done |] | lia]. zdiv.
  - eapply agent_ok_taken; [done |]. zdiv.
  - zdiv.
Qed.

(** It has handled a packet, the last one or not. *)
Lemma positions_handled n m ri ai a (fin : bool) :
  positions n m ri ai a Handle -> (fin = true <-> m + 1 = n /\ closed a = true) ->
  positions n (m + 1) ri ai a (if fin then Done else Loop).
Proof.
  intros [C R I F A W] Hf. unfold taken in *. cbn in *.
  assert (E : taken (m + 1) (if fin then Done else Loop) = m + 1) by (unfold taken; destruct fin; cbn; lia).
  split; rewrite ?E; try done; try lia.
  - rewrite <- Hf. destruct fin; cbn; intuition lia.
  - by destruct fin.
Qed.

Lemma positions_done n m ri ai a :
  positions n m ri ai a Done -> positions n m (-1) ai a Check.
Proof.
  intros [C R I F A W]. cbn in *. split; try done.
  - by left.
  - destruct F as [F _]. specialize (F (or_introl eq_refl)). cbn. intuition.
  - destruct a; cbn in *; intuition.
Qed.

Section Reporter.
Context {D : Type} (handle : ReportStruct -> D -> cres (bool * D)).

Lemma reporter_positions q r d q' r' d' l n m a :
  reporter_step handle q r d = Ret (q', r', d', l) ->
  (forall p fin, q = Handle -> aget (data r) (m mod N) = Some (Some p) -> handle p d = Ret (fin, d') ->
     fin = true <-> m + 1 = n /\ closed a = true) ->
  positions n m (reporterindex r) (agentindex r) a q ->
  positions n (m + handled l) (reporterindex r') (agentindex r') a q'.
Proof.
  intros E Hfin HP. destruct r as [ri ai dt]. cbn [reporterindex agentindex data] in *.
  pose proof (p_reporter _ _ _ _ _ _ HP) as W. pose proof (p_index _ _ _ _ _ _ HP) as I.
  destruct q; cbn [reporter_step reporterindex agentindex data] in E.
  - inversion E; subst; clear E. rewrite Z.add_0_r.
    destruct (Z.leb_spec 0 ri); by eapply positions_look.
  - inversion E; subst; clear E. rewrite Z.add_0_r.
    destruct (Z.eqb_spec ri (ai - 1)); (eapply positions_look; [done.. |]); [done |]. cbn in *. split; [done |].
    pose proof (p_counts _ _ _ _ _ _ HP) as C. pose proof (p_agent _ _ _ _ _ _ HP) as A. cbn in *.
    destruct (Z.le_gt_cases n m); [right | by left]. destruct I as [-> | ->]; [lia |].
    unfold taken in *. cbn in *. destruct a; cbn in *; zdiv.
  - destruct (Z.eqb_spec ri (NUM_REPORT_STRUCTS - 1)) as [-> | Hr].
    + destruct (Z.eqb_spec ai 0); inversion E; subst; clear E; rewrite Z.add_0_r.
      * by eapply positions_look.
      * apply (positions_take n m _ ai a) in HP; [| by right]. apply HP.
    + inversion E; subst; clear E. rewrite Z.add_0_r. apply (positions_take n m _ ai a) in HP; [| by left].
      cbn [set_reporterindex reporterindex agentindex]. destruct HP as [_ HP].
      replace (ri + 1) with ((ri + 1) mod N); [done |]. unfold NUM_REPORT_STRUCTS in *. cbn in W. zdiv.
  - destruct (aget dt ri) as [o |] eqn:Eo; [| done]. destruct o as [p |]; [| done]. cbn in E.
    apply bind_Ret_inv in E as ([fin d1] & Eh & E). inversion E; subst; clear E.
    apply positions_handled; [done |]. eapply Hfin; [done | | done]. rewrite <- Eo. f_equal.
    destruct I as [-> | ->]; [cbn in W; lia |]. unfold taken. cbn. f_equal. lia.
  - inversion E; subst; clear E. rewrite Z.add_0_r. by apply positions_done in HP.
  - inversion E; subst; clear E. rewrite Z.add_0_r. eapply positions_look; [done.. |]. cbn.
    destruct (Z.eqb_spec ai (-1)) as [-> | ?]; [| done]. intros _.
    pose proof (p_agent _ _ _ _ _ _ HP) as A. pose proof (p_counts _ _ _ _ _ _ HP) as C.
    destruct a; cbn in A; try done; destruct_and?; zdiv.
  - inversion E; subst; clear E. by rewrite Z.add_0_r.
Qed.
End Reporter.

(** ** The contents *)
Definition pushed (l : list label) : list ReportStruct := l ≫= fun x => match x with Pushed p => [p] | _ => [] end.
Definition taken_out (l : list label) : list ReportStruct := l ≫= fun x => match x with Handled p => [p] | _ => [] end.

Lemma queue_run_silent l q : pushed l = [] -> taken_out l = [] -> queue_run l q = Some q.
Proof. revert q. induction l as [| [] l IH]; intros q Hp Ht; (done || by apply IH). Qed.

Lemma pushed_app l1 l2 : pushed (l1 ++ l2) = pushed l1 ++ pushed l2.
Proof. apply bind_app. Qed.
Lemma taken_out_app l1 l2 : taken_out (l1 ++ l2) = taken_out l1 ++ taken_out l2.
Proof. apply bind_app. Qed.
Lemma queue_run_app l1 l2 q : queue_run (l1 ++ l2) q = (queue_run l1 q ≫= queue_run l2).
Proof. revert q. induction l1 as [| x l1 IH]; intros q; [done |]. cbn. destruct (queue_step x q); [apply IH | done]. Qed.

Section Ring.
Context {D : Type} (handle : ReportStruct -> D -> cres (bool * D)) {H : Handler handle}.
Context (cnt : D -> Z) (inf : D -> Transfer_Info).

Definition good_call (c : call) : Prop :=
  match c with
  | ReportPacket p => ok_packet p /\ 0 <= packetID p
  | CloseReport p => ok_packet (closing_packet p)
  | _ => True
  end.
Definition good_choice (ch : choice) : Prop := match ch with Agent c => good_call c | Reporter => True end.

(** [P] are the packets that were reported, the first [m] of them are handled.  The last
    one, and only that, has a negative number. *)
Record inv (g : config) (P : list ReportStruct) (m : nat) : Prop := mkInv {
  i_positions : positions (Z.of_nat (length P)) (Z.of_nat m) (reporterindex (shared g)) (agentindex (shared g))
                  (thread g) (worker g);
  i_length : Z.of_nat (length (data (shared g))) = N;
  i_data i p : (m <= i)%nat -> P !! i = Some p -> aget (data (shared g)) (Z.of_nat i mod N) = Some (Some p);
  i_place p last : thread g = Advance p last ->
    aget (data (shared g)) (Z.of_nat (length P) mod N) = Some (Some p);
  i_packets : Forall ok_packet P;
  i_open i p : P !! i = Some p -> (packetID p <? 0) = closed (thread g) && bool_decide (S i = length P);
  i_pending p last : pending (thread g) = Some (p, last) -> ok_packet p /\ (packetID p <? 0) = last;
  i_stats : ok_data (stats g)
}.

Lemma ring_inv_initial d : ok_data d -> inv (initial d) [] 0.
Proof. intros Hd. split; try done. apply positions_initial. Qed.

(** Writing the next place leaves the packets that are not handled alone. *)
Lemma write_place (P : list ReportStruct) m q (l : list (option ReportStruct)) x :
  Z.of_nat (length l) = N -> 0 <= Z.of_nat m -> Z.of_nat m <= taken (Z.of_nat m) q ->
  free_place (Z.of_nat (length P)) (taken (Z.of_nat m) q) ->
  (forall i p, (m <= i)%nat -> P !! i = Some p -> aget l (Z.of_nat i mod N) = Some (Some p)) ->
  exists l', aset l (Z.of_nat (length P) mod N) x = Some l' /\ Z.of_nat (length l') = N /\
    aget l' (Z.of_nat (length P) mod N) = Some x /\
    (forall i p, (m <= i)%nat -> P !! i = Some p -> aget l' (Z.of_nat i mod N) = Some (Some p)).
Proof.
  intros Hl Hm Ht Hf Hd. eexists. split; [apply aset_Some; rewrite Hl; zdiv |].
  assert (E : aset l (Z.of_nat (length P) mod N) x = Some (<[Z.to_nat (Z.of_nat (length P) mod N) := x]> l))
    by (apply aset_Some; rewrite Hl; zdiv).
  split_and!.
  - by rewrite length_insert.
  - by eapply aget_aset_eq.
  - intros i p Hi HP. rewrite (aget_aset_ne _ _ _ _ _ E); [by apply Hd |].
    pose proof (lookup_lt_Some _ _ _ HP). unfold taken, free_place in *. destruct (is_handle q); zdiv.
Qed.

(** A step of the agent that neither writes a place nor reports a packet. *)
Lemma inv_quiet g P m a' r' :
  inv g P m -> data r' = data (shared g) ->
  positions (Z.of_nat (length P)) (Z.of_nat m) (reporterindex r') (agentindex r') a' (worker g) ->
  closed a' = closed (thread g) -> (forall p last, a' <> Advance p last) ->
  (forall p last, pending a' = Some (p, last) -> ok_packet p /\ (packetID p <? 0) = last) ->
  inv (mkConfig a' (worker g) r' (stats g)) P m.
Proof.
  intros [? ? Hd ? ? Ho ? ?] Ed Hp Ec Ha Hq. split; cbn [thread worker shared stats]; rewrite ?Ed; try done.
  - intros p last E. by destruct (Ha p last).
  - intros i p. rewrite Ec. apply Ho.
Qed.

(** The same, from the result of the step. *)
Lemma inv_quiet_step g P m c a' r' :
  inv g P m -> agent_step (cnt (stats g)) (inf (stats g)) c (thread g) (shared g) = Ret (a', r', []) ->
  data r' = data (shared g) -> closed a' = closed (thread g) -> (forall p last, a' <> Advance p last) ->
  (forall p last, pending a' = Some (p, last) -> ok_packet p /\ (packetID p <? 0) = last) ->
  inv (mkConfig a' (worker g) r' (stats g)) P m.
Proof.
  intros HI E. intros. apply inv_quiet; try done.
  pose proof (agent_positions _ _ _ _ _ _ _ _ _ _ _ E (i_positions _ _ _ HI)) as Hp. by rewrite Z.add_0_r in Hp.
Qed.

Definition agent_goal (g : config) (P : list ReportStruct) (m : nat) (c : call) : Prop :=
  exists a' r' l, agent_step (cnt (stats g)) (inf (stats g)) c (thread g) (shared g) = Ret (a', r', l) /\
    inv (mkConfig a' (worker g) r' (stats g)) (P ++ pushed l) m /\
    taken_out l = [] /\ (pushed l = [] \/ exists p, l = [Pushed p] /\ (length P - m < Z.to_nat N)%nat).

Lemma agent_goal_quiet g P m c a' r' l :
  inv g P m -> agent_step (cnt (stats g)) (inf (stats g)) c (thread g) (shared g) = Ret (a', r', l) ->
  pushed l = [] -> taken_out l = [] -> pushes l = 0 ->
  data r' = data (shared g) -> closed a' = closed (thread g) -> (forall p last, a' <> Advance p last) ->
  (forall p last, pending a' = Some (p, last) -> ok_packet p /\ (packetID p <? 0) = last) ->
  agent_goal g P m c.
Proof.
  intros HI E El Et Ep. intros. exists a', r', l. rewrite El, app_nil_r. split_and!; try done; [| by left].
  apply inv_quiet; try done.
  pose proof (agent_positions _ _ _ _ _ _ _ _ _ _ _ E (i_positions _ _ _ HI)) as Hp. by rewrite Ep, Z.add_0_r in Hp.
Qed.

(** Copying a packet: the place that is written is free. *)
Lemma inv_write g P m x a' :
  inv g P m -> agentindex (shared g) = Z.of_nat (length P) mod N ->
  free_place (Z.of_nat (length P)) (taken (Z.of_nat m) (worker g)) -> closed a' = closed (thread g) ->
  thread g <> Ended -> agent_ok (Z.of_nat (length P)) (taken (Z.of_nat m) (worker g)) (reporterindex (shared g)) (agentindex (shared g)) a' ->
  (forall p last, a' = Advance p last -> x = Some p) ->
  (forall p last, pending a' = Some (p, last) -> ok_packet p /\ (packetID p <? 0) = last) ->
  exists l, aset (data (shared g)) (agentindex (shared g)) x = Some l /\
    inv (mkConfig a' (worker g) (set_data l (shared g)) (stats g)) P m.
Proof.
  intros [Hp Hl Hd Hpl Hok Ho Hq Hs] Ei Hf Ec He Ha Hx Hq'. destruct (p_counts _ _ _ _ _ _ Hp) as [C1 [C2 C3]].
  destruct (write_place P m (worker g) _ x Hl C1 C2 Hf Hd) as (l & E & Hl' & Hg & Hd').
  exists l. rewrite Ei. split; [done |]. split; cbn [thread worker shared stats set_data reporterindex agentindex data]; try done.
  - eapply positions_same; [done | done | by intros ?%He | done].
  - intros p last Ea. by rewrite Hg, (Hx p last Ea).
  - intros i p. rewrite Ec. apply Ho.
Qed.

(** The packet counts as reported. *)
Lemma inv_advance q r d P m p last :
  inv (mkConfig (Advance p last) q r d) P m ->
  inv (mkConfig (if last then Read_count else Running) q (set_agentindex (agentindex r + 1) r) d) (P ++ [p]) m.
Proof.
  intros [Hp Hl Hd Hpl Hok Ho Hq Hs]. cbn [thread worker shared stats] in *.
  destruct (Hq p last eq_refl) as [Hokp Hlast]. specialize (Hpl p last eq_refl).
  assert (Ep : Z.of_nat (length (P ++ [p])) = Z.of_nat (length P) + 1) by (rewrite length_app; cbn; lia).
  split; cbn [thread worker shared stats set_agentindex reporterindex agentindex data]; rewrite ?Ep; try done.
  - eapply positions_advance; [done |]. by destruct last.
  - intros i p' Hi. destruct (Nat.eq_dec i (length P)) as [-> | Hne].
    + rewrite list_lookup_middle by done. by intros [= <-].
    + intros HP. pose proof (lookup_lt_Some _ _ _ HP) as L. rewrite length_app in L. cbn in L.
      apply Hd; [done |]. by rewrite lookup_app_l in HP by lia.
  - by intros p' last' ->%(f_equal closed) || (intros p' last' E; destruct last).
  - apply Forall_app. auto.
  - intros i p' HP. destruct (Nat.eq_dec i (length P)) as [-> | Hne].
    + rewrite list_lookup_middle in HP by done. injection HP as <-. rewrite Hlast.
      rewrite bool_decide_eq_true_2 by (rewrite length_app; cbn; lia). by destruct last.
    + pose proof (lookup_lt_Some _ _ _ HP) as L. rewrite length_app in L. cbn in L.
      rewrite lookup_app_l in HP by lia. rewrite (Ho i p' HP), (bool_decide_eq_false_2 (S i = length (P ++ [p]))).
      * by destruct last.
      * rewrite length_app. cbn. lia.
  - by destruct last.
Qed.

Lemma inv_agent g P m c : inv g P m -> good_call c -> agent_goal g P m c.
Proof.
  intros HI Hc. destruct g as [a q r d]. pose proof (i_pending _ _ _ HI) as Hq.
  pose proof (p_agent _ _ _ _ _ _ (i_positions _ _ _ HI)) as A. cbn [thread worker shared stats] in *.
  destruct a as [| p last | index p last | p last | index p last | p last | p last | p last | | | | | |]; cbn [pending agent_ok] in *.
  - destruct c; (eapply agent_goal_quiet; [done | reflexivity | done.. |]); cbn; intros p0 last [= <- <-].
    + destruct Hc as [? ?]. split; [done |]. by apply Z.ltb_ge.
    + done.
  - eapply agent_goal_quiet; [done | reflexivity | done | done | done | done | | |]; by destruct (_ =? _).
  - destruct (Z.eqb_spec index 0) as [Ei | Ei];
      (eapply agent_goal_quiet; [done | cbn; rewrite (proj2 (Z.eqb_eq _ _) Ei) || rewrite (proj2 (Z.eqb_neq _ _) Ei); reflexivity | done..]).
  - by eapply agent_goal_quiet.
  - assert (Hg := HI). destruct A as (Ei & Hsn). destruct (Z.eqb_spec (index - 1) (agentindex r)) as [Eg | Eg].
    + eapply agent_goal_quiet; [done | cbn; rewrite (proj2 (Z.eqb_eq _ _) Eg); reflexivity | done..].
    + destruct (inv_write _ P m None (Copy p last) HI) as (l & El & Hw); try done.
      { by eapply lap_free. }
      { split; [done |]. by eapply lap_free. }
      exists (Copy p last), (set_data l r), []. cbn [agent_step shared stats thread] in *.
      rewrite (proj2 (Z.eqb_neq _ _) Eg). cbn in El. rewrite El, app_nil_r. split_and!; [done | done | done | by left].
  - by eapply agent_goal_quiet.
  - destruct A as [Ei Hf]. destruct (inv_write _ P m (Some p) (Advance p last) HI) as (l & El & Hw); try done.
    { by intros ? ? [= -> ->]. }
    exists (Advance p last), (set_data l r), []. cbn [agent_step shared stats thread] in *. cbn in El.
    rewrite El, app_nil_r. split_and!; [done | done | done | by left].
  - destruct (Hq p last eq_refl) as [Hok Hlast]. destruct A as [Ei Hf].
    exists (if last then Read_count else Running), (set_agentindex (agentindex r + 1) r), [Pushed p].
    split; [done |]. split; [by apply inv_advance |]. split; [done |]. right. exists p. split; [done |].
    destruct (p_counts _ _ _ _ _ _ (i_positions _ _ _ HI)) as [C1 [C2 C3]]. cbn [worker] in *.
    unfold taken, free_place in *. destruct (is_handle q); zdiv.
  - by eapply agent_goal_quiet.
  - destruct c; by eapply agent_goal_quiet.
  - destruct (reporterindex r =? -1) eqn:Eg; (eapply agent_goal_quiet; [done | cbn; rewrite Eg; reflexivity | done..]).
  - eapply agent_goal_quiet; [done | reflexivity | done | done | done | done | | |]; by destruct (_ =? _).
  - by eapply agent_goal_quiet.
  - by eapply agent_goal_quiet.
Qed.

Definition reporter_goal (g : config) (P : list ReportStruct) (m : nat) : Prop :=
  exists q' r' d' l, reporter_step handle (worker g) (shared g) (stats g) = Ret (q', r', d', l) /\
    pushed l = [] /\ inv (mkConfig (thread g) q' r' d') P (m + length (taken_out l)) /\
    ((taken_out l = [] /\ d' = stats g) \/
     exists p fin, l = [Handled p] /\ P !! m = Some p /\ handle p (stats g) = Ret (fin, d')).

Lemma inv_look g P m q' r' l :
  inv g P m -> reporter_step handle (worker g) (shared g) (stats g) = Ret (q', r', stats g, l) ->
  worker g <> Handle -> l = [] -> data r' = data (shared g) -> reporter_goal g P m.
Proof.
  intros HI E Hw -> Ed. exists q', r', (stats g), []. split; [done |]. split; [done |]. split; [| by left].
  pose proof (reporter_positions _ _ _ _ _ _ _ _ _ (Z.of_nat m) (thread g) E ltac:(done) (i_positions _ _ _ HI)) as Hp.
  rewrite Z.add_0_r in Hp. destruct HI as [_ Hl Hd Hpl Hok Ho Hq Hs]. cbn [length taken_out]. rewrite Nat.add_0_r.
  split; cbn [thread worker shared stats]; rewrite ?Ed; done.
Qed.

Lemma inv_handle a r d P m :
  inv (mkConfig a Handle r d) P m -> reporter_goal (mkConfig a Handle r d) P m.
Proof.
  intros HI. pose proof (i_positions _ _ _ HI) as Hp. destruct HI as [_ Hl Hd Hpl Hok Ho Hq Hs].
  cbn [thread worker shared stats] in *. destruct (p_counts _ _ _ _ _ _ Hp) as [_ C].
  pose proof (p_index _ _ _ _ _ _ Hp) as I. pose proof (p_reporter _ _ _ _ _ _ Hp) as W. unfold taken in *. cbn in C, I, W.
  destruct (lookup_lt_is_Some_2 P m ltac:(lia)) as [p Hpm]. pose proof (Hd m p ltac:(lia) Hpm) as Hg.
  assert (Ei : reporterindex r = Z.of_nat m mod N) by (destruct I as [I | I]; [lia |]; rewrite I; f_equal; lia).
  destruct (handles (handle := handle) p d) as (d' & Eh & Hd'); [| done |].
  { eapply Forall_lookup_1; [exact Hok | exact Hpm]. }
  assert (E : reporter_step handle Handle r d = Ret (if packetID p <? 0 then Done else Loop, r, d', [Handled p])).
  { cbn [reporter_step]. rewrite Ei, Hg. cbn [deref]. rewrite bind_Ret. cbn [deref]. rewrite bind_Ret, Eh, bind_Ret. by destruct (packetID p <? 0). }
  exists (if packetID p <? 0 then Done else Loop), r, d', [Handled p]. split; [done |]. split; [done |]. split; [| by right; exists p, (packetID p <? 0)].
  change (length (taken_out [Handled p])) with 1%nat. split; cbn [thread worker shared stats]; try done.
  - pose proof (reporter_positions handle _ _ _ _ _ _ _ (Z.of_nat (length P)) (Z.of_nat m) a E) as Hp'. cbn [handled] in Hp'.
    replace (Z.of_nat (m + 1)) with (Z.of_nat m + 1) by lia. apply Hp'; [| done].
    intros p' fin _ Hg' Eh'. rewrite Hg in Hg'. injection Hg' as <-. rewrite Eh in Eh'. injection Eh' as <-.
    rewrite (Ho m p Hpm), andb_true_iff, bool_decide_eq_true. intuition lia.
  - intros i p' Hi. apply Hd. lia.
Qed.

Lemma inv_reporter g P m : inv g P m -> reporter_goal g P m.
Proof.
  intros HI. destruct g as [a q r d]. destruct q as [| | | | | | b]; [..| | | |].
  4: by apply inv_handle.
  all: try (by eapply inv_look).
  destruct (reporterindex r =? NUM_REPORT_STRUCTS - 1) eqn:E1; [destruct (agentindex r =? 0) eqn:E2 |];
    (eapply inv_look; [done | cbn; rewrite E1, ?E2; reflexivity | done..]).
Qed.

(** ** Runs *)
Lemma inv_again g P m : inv g P m -> worker g = Out false -> inv (mkConfig (thread g) Test (shared g) (stats g)) P m.
Proof.
  intros [Hp ? ? ? ? ? ? ?] E. split; try done. cbn [thread worker shared]. eapply positions_look; [done | | |];
    by rewrite ?E.
Qed.

(** What the reporter has made of the packets. *)
Fixpoint handle_all (l : list ReportStruct) (d : D) : cres D :=
  match l with [] => Ret d | p :: l => '(_, d) ← handle p d; handle_all l d end.

Lemma handle_all_app l1 l2 d : handle_all (l1 ++ l2) d = (handle_all l1 d ≫= handle_all l2).
Proof.
  revert d. induction l1 as [| p l1 IH]; intros d; [done |]. cbn [app handle_all]. rewrite bind_assoc_cres.
  apply bind_ext. by intros [].
Qed.

(** What one or more steps do, from [m] of the packets [P] handled. *)
Record progress (P : list ReportStruct) (m : nat) (d : D) (l : list label) (g : config) : Prop := mkProgress {
  g_inv : inv g (P ++ pushed l) (m + length (taken_out l));
  g_queue : queue_run l (drop m P) = Some (drop (m + length (taken_out l)) (P ++ pushed l));
  g_taken : take (m + length (taken_out l)) (P ++ pushed l) = take m P ++ taken_out l;
  g_stats : handle_all (taken_out l) d = Ret (stats g)
}.

Lemma inv_le g P m : inv g P m -> (m <= length P)%nat.
Proof. intros [Hp _ _ _ _ _ _ _]. destruct (p_counts _ _ _ _ _ _ Hp). lia. Qed.

Lemma progress_step g P m ch :
  inv g P m -> good_choice ch ->
  exists g' l, step handle cnt inf ch g = Ret (g', l) /\ progress P m (stats g) l g'.
Proof.
  intros HI Hc. pose proof (inv_le _ _ _ HI) as Hle. destruct ch as [c |].
  - destruct (inv_agent g P m c HI Hc) as (a' & r' & l & E & HI' & Ht & Hl).
    exists (mkConfig a' (worker g) r' (stats g)), l. cbn [step]. rewrite E, bind_Ret. split; [done |].
    split; rewrite ?Ht; cbn [length stats]; rewrite ?Nat.add_0_r, ?app_nil_r; try done.
    + destruct Hl as [Hl | (p & -> & Hl)].
      * rewrite Hl, app_nil_r. by apply queue_run_silent.
      * cbn [queue_run queue_step pushed mbind list_bind app]. rewrite length_drop.
        destruct (Nat.ltb_spec (length P - m) (Z.to_nat NUM_REPORT_STRUCTS)) as [_ | Hn]; [| unfold NUM_REPORT_STRUCTS in Hn; lia].
        by rewrite drop_app_le by lia.
    + by rewrite take_app_le by lia.
  - assert (Hs : (exists b, worker g = Out b) \/
                 step handle cnt inf Reporter g =
                 ('(q, r, d, l) ← reporter_step handle (worker g) (shared g) (stats g); Ret (mkConfig (thread g) q r d, l)))
      by (cbn [step]; destruct (worker g); eauto).
    destruct Hs as [[[] Ew] | ->].
    + exists g, []. cbn [step]. rewrite Ew. split; [done |].
      split; cbn; rewrite ?Nat.add_0_r, ?app_nil_r; done.
    + eexists _, []. cbn [step]. rewrite Ew. split; [done |].
      split; cbn; rewrite ?Nat.add_0_r, ?app_nil_r; try done. by apply inv_again.
    + destruct (inv_reporter g P m HI) as (q' & r' & d' & l & E & Hl & HI' & Hh).
      exists (mkConfig (thread g) q' r' d'), l. rewrite E, bind_Ret. split; [done |].
      destruct Hh as [[Ht ->] | (p & fin & -> & Hp & Eh)]; [| change (taken_out [Handled p]) with [p]].
      * split; rewrite ?Hl, ?Ht; cbn [length stats]; rewrite ?Nat.add_0_r, ?app_nil_r; try done.
        -- by rewrite Ht, Nat.add_0_r in HI'.
        -- by apply queue_run_silent.
      * split; rewrite ?Hl; cbn [length stats]; rewrite ?app_nil_r; try done.
        -- cbn [queue_run queue_step]. rewrite (drop_S _ _ _ Hp). cbn. rewrite decide_True by done. cbn.
           by rewrite Nat.add_1_r.
        -- rewrite Nat.add_1_r. by apply take_S_r.
        -- cbn. by rewrite Eh.
Qed.

Lemma progress_app P m d l1 g1 l2 g2 :
  progress P m d l1 g1 -> (m <= length P)%nat ->
  progress (P ++ pushed l1) (m + length (taken_out l1)) (stats g1) l2 g2 ->
  progress P m d (l1 ++ l2) g2.
Proof.
  intros [I1 Q1 T1 S1] Hm [I2 Q2 T2 S2].
  split; rewrite ?pushed_app, ?taken_out_app, ?length_app, ?(app_assoc P), ?Nat.add_assoc; try done.
  - by rewrite queue_run_app, Q1.
  - by rewrite T2, T1, app_assoc.
  - by rewrite handle_all_app, S1.
Qed.

Lemma progress_run sched g P m :
  inv g P m -> Forall good_choice sched ->
  exists g' l, run handle cnt inf sched g = Ret (g', l) /\ progress P m (stats g) l g'.
Proof.
  intros HI Hs. revert g P m HI. induction Hs as [| ch sched Hc Hs IH]; intros g P m HI.
  - exists g, []. split; [done |]. split; cbn; rewrite ?Nat.add_0_r, ?app_nil_r; done.
  - destruct (progress_step g P m ch HI Hc) as (g1 & l1 & E1 & H1).
    destruct (IH _ _ _ (g_inv _ _ _ _ _ H1)) as (g2 & l2 & E2 & H2).
    exists g2, (l1 ++ l2). cbn [run]. rewrite E1, bind_Ret, E2, bind_Ret. split; [done |].
    eapply progress_app; [done | by eapply inv_le | done].
Qed.

(** ** The reporter catches up *)
Definition distance (q : reporter) : nat :=
  match q with Check => 6 | Out _ => 5 | Test => 4 | Loop => 3 | Step => 2 | Handle => 1 | Done => 0 end.

Lemma positions_busy n m ri ai a q :
  positions n m ri ai a q -> m < n ->
  q <> Done /\ ri <> -1 /\ (q = Loop \/ q = Test -> 0 <= ri) /\ (q = Loop -> ri <> ai - 1) /\
  (q = Step -> ri = NUM_REPORT_STRUCTS - 1 -> ai <> 0) /\ a <> Ended.
Proof.
  intros [C R I F A W] Hm.
  assert (Hf : ~ (is_done q = true \/ ri = -1)) by (rewrite F; lia).
  assert (Hr : ri <> -1) by (intros E; apply Hf; by right).
  assert (Ha : a <> Ended) by (intros ->; apply Hr, A).
  destruct I as [I | ->]; [done |]. destruct R as [R | R]; [| done].
  unfold NUM_REPORT_STRUCTS in *. split_and!; try done.
  - intros ->. apply Hf. by left.
  - intros _. zdiv.
  - intros ->. unfold taken, room in *. cbn in *. destruct a; cbn in A; destruct_and?; try done; zdiv.
  - intros -> Hi ->. unfold taken, room in *. cbn in *. destruct a; cbn in A; destruct_and?; try done; zdiv.
Qed.

Lemma catch_up_step g P m :
  inv g P m -> (m < length P)%nat ->
  exists g' l, step handle cnt inf Reporter g = Ret (g', l) /\ thread g' = thread g /\ pushed l = [] /\
    (4 * (length P - (m + length (taken_out l))) + distance (worker g') < 4 * (length P - m) + distance (worker g))%nat.
Proof.
  intros HI Hm. destruct (positions_busy _ _ _ _ _ _ (i_positions _ _ _ HI) ltac:(lia)) as (H1 & H2 & H3 & H4 & H5 & H6).
  pose proof (p_reporter _ _ _ _ _ _ (i_positions _ _ _ HI)) as W.
  pose proof (inv_reporter g P m HI) as (q' & r' & d' & l & E & Hl & _ & Hh).
  assert (Ht : worker g <> Handle -> (forall b, worker g <> Out b) -> taken_out l = [] /\ (distance q' < distance (worker g))%nat).
  { intros Hw Ho. destruct (worker g) eqn:Ew; cbn [reporter_step] in E; try (inversion E; subst); try done.
    - rewrite (proj2 (Z.leb_le _ _) (H3 (or_intror eq_refl))). by split; [| cbn; lia].
    - rewrite (proj2 (Z.eqb_neq _ _) (H4 eq_refl)). by split; [| cbn; lia].
    - destruct (Z.eqb_spec (reporterindex (shared g)) (NUM_REPORT_STRUCTS - 1)) as [Ei | _];
        [rewrite (proj2 (Z.eqb_neq _ _) (H5 eq_refl Ei)) in E |]; inversion E; by split; [| cbn; lia].
    - by split; [| cbn; lia].
    - by destruct (Ho need_free). }
  cbn [step]. destruct (worker g) eqn:Ew; try done.
  1-3, 5: rewrite E, bind_Ret; destruct Ht as [Ht Hd]; [done | done |];
    eexists _, _; split_and!; [done | done | done |]; rewrite Ht; cbn [length worker] in *; lia.
  - rewrite E, bind_Ret. eexists _, _. split_and!; [done | done | done |].
    destruct Hh as [[Hh ->] | (p & fin & -> & Hp & Eh)].
    + exfalso. cbn [reporter_step] in E. apply bind_Ret_inv in E as (o & _ & E). apply bind_Ret_inv in E as (p & _ & E).
      apply bind_Ret_inv in E as ([] & _ & E). by inversion E; subst.
    + cbn [worker]. change (length (taken_out [Handled p])) with 1%nat.
      assert (distance q' <= 3)%nat; [| cbn [distance]; lia]. cbn [reporter_step] in E.
      apply bind_Ret_inv in E as (o & _ & E). apply bind_Ret_inv in E as (p' & _ & E).
      apply bind_Ret_inv in E as ([[] d1] & _ & E); inversion E; cbn; lia.
  - destruct need_free; [by destruct H6; apply W |]. eexists _, []. split_and!; [done | done | done |]. cbn. lia.
Qed.

Lemma ring_run_app l1 l2 g :
  run handle cnt inf (l1 ++ l2) g =
  ('(g, x) ← run handle cnt inf l1 g; '(g, y) ← run handle cnt inf l2 g; Ret (g, x ++ y)).
Proof.
  revert g. induction l1 as [| ch l1 IH]; intros g; cbn [app run].
  - rewrite bind_Ret. by destruct (run handle cnt inf l2 g) as [[] | | |].
  - rewrite !bind_assoc_cres. apply bind_ext. intros [g1 x1]. rewrite IH, !bind_assoc_cres. apply bind_ext.
    intros [g2 x2]. rewrite bind_Ret, !bind_assoc_cres. apply bind_ext. intros [g3 x3]. by rewrite bind_Ret, app_assoc.
Qed.

Lemma catch_up g P m :
  inv g P m -> exists k g' l, run handle cnt inf (replicate k Reporter) g = Ret (g', l) /\
    inv g' P (length P) /\ thread g' = thread g /\ (closed (thread g) = true -> reporterindex (shared g') = -1).
Proof.
  remember (4 * (length P - m) + distance (worker g))%nat as mu eqn:Emu.
  revert g m Emu. induction mu as [mu IH] using lt_wf_ind. intros g m -> HI. pose proof (inv_le _ _ _ HI) as Hle.
  destruct (decide (m < length P)%nat) as [Hm | Hm].
  - destruct (catch_up_step g P m HI Hm) as (g1 & l1 & E1 & Ht & Hl & Hlt).
    destruct (progress_step g P m Reporter HI I) as (g1' & l1' & E1' & H1). rewrite E1 in E1'. injection E1' as <- <-.
    pose proof (g_inv _ _ _ _ _ H1) as HI1. rewrite Hl, app_nil_r in HI1.
    destruct (IH _ Hlt g1 _ eq_refl HI1) as (k & g' & l & E & HI' & Ht' & Hc). rewrite Ht in *.
    exists (S k), g', (l1 ++ l). cbn [replicate run]. rewrite E1, bind_Ret, E, bind_Ret. done.
  - replace m with (length P) in HI by lia. destruct (closed (thread g)) eqn:Ec.
    2: { by exists 0%nat, g, []. }
    destruct (Z.eq_dec (reporterindex (shared g)) (-1)) as [Hr | Hr]; [by exists 0%nat, g, [] |].
    assert (Ew : worker g = Done).
    { pose proof (p_finished _ _ _ _ _ _ (i_positions _ _ _ HI)) as F. rewrite Ec in F.
      destruct F as [_ F]. destruct F as [F | F]; [done | | done]. by destruct (worker g). }
    destruct (progress_step g P (length P) Reporter HI I) as (g1 & l1 & E1 & H1). assert (E1' := E1).
    cbn [step] in E1'. rewrite Ew in E1'. cbn in E1'. injection E1' as <- <-.
    exists 1%nat, (mkConfig (thread g) Check (set_reporterindex (-1) (shared g)) (stats g)), []. cbn [replicate run].
    rewrite E1, bind_Ret. pose proof (g_inv _ _ _ _ _ H1) as HI1. cbn [pushed mbind list_bind] in HI1.
    rewrite app_nil_r, Nat.add_0_r in HI1. done.
Qed.

(** How far the agent is from the end of its call when everything is handled. *)
Definition rank (n : Z) (a : agent) : nat :=
  match a with
  | Running | Closed | Ended => 0
  | Read_count | Get_report | End_set => 1
  | End_report | Advance _ _ => 2
  | Copy _ _ => 3
  | Lap index _ _ => if index - 1 =? n mod N then 6 else 4
  | Wait_lap _ _ => 5
  | Wrap index _ _ => if index =? 0 then 9 else 7
  | Wait_wrap _ _ => 8
  | Report_packet _ _ => 10
  end.

(** Everything is handled, or the agent does not wait any more. *)
Definition caught_up (g : config) (P : list ReportStruct) : Prop :=
  thread g = Read_count \/
  (inv g P (length P) /\ (closed (thread g) = true -> reporterindex (shared g) = -1)).

Ltac step_cases E :=
  repeat match type of E with
         | context [aset ?a ?b ?c] => destruct (aset a b c); cbn [deref] in E; rewrite ?bind_Ret in E
         | context [match ?x with _ => _ end] => destruct x eqn:?
         end; try discriminate E.

Lemma agent_step_frame k i c a r a' r' l :
  agent_step k i c a r = Ret (a', r', l) ->
  reporterindex r' = reporterindex r /\ taken_out l = [] /\
  ((exists p last, a = Advance p last /\ a' = if last then Read_count else Running) \/
   pushed l = [] /\ closed a' = closed a).
Proof.
  intros E. destruct a; cbn [agent_step] in E;
    step_cases E; inversion E; subst; cbn; eauto 10.
Qed.

(** [n] packets are reported and handled, the last one is not among them. *)
Lemma rank_step k i n a r a' r' l :
  agent_step k i Rest a r = Ret (a', r', l) ->
  agent_ok n n (reporterindex r) (agentindex r) a ->
  (closed a = false -> reporterindex r = (n - 1) mod N) -> (closed a = true -> reporterindex r = -1) ->
  rank n a <> 0%nat -> (rank n a' < rank n a)%nat.
Proof.
  intros E A Ho Hc Hr.
  destruct a; try done; cbn [agent_step closed rank agent_ok] in *; rewrite ?Ho, ?Hc in * by done;
    step_cases E; inversion E; subst; cbn [rank];
    repeat match goal with |- context [if ?b then _ else _] => destruct b eqn:? end; try lia.
  all: exfalso; match goal with H : (_ =? _) = true |- _ => apply Z.eqb_eq in H; clear - H A end; zdiv.
Qed.

Lemma finish_step g P :
  caught_up g P -> rank (Z.of_nat (length P)) (thread g) <> 0%nat ->
  exists g' l, step handle cnt inf (Agent Rest) g = Ret (g', l) /\
    (rank (Z.of_nat (length P)) (thread g') < rank (Z.of_nat (length P)) (thread g))%nat /\
    (rank (Z.of_nat (length P)) (thread g') = 0%nat \/ caught_up g' P).
Proof.
  intros [Ht | [HI Hr]] Hrank.
  { eexists _, _. cbn [step]. rewrite Ht. cbn. split; [done |]. by split; [cbn; lia | left]. }
  destruct (progress_step g P (length P) (Agent Rest) HI I) as (g' & l & E & [HI' _ _ _]).
  exists g', l. split; [done |].
  pose proof (i_positions _ _ _ HI) as Hp. pose proof (p_counts _ _ _ _ _ _ Hp) as C. pose proof (p_agent _ _ _ _ _ _ Hp) as A.
  assert (Et : taken (Z.of_nat (length P)) (worker g) = Z.of_nat (length P)) by lia.
  assert (Hi : closed (thread g) = false -> reporterindex (shared g) = (Z.of_nat (length P) - 1) mod N).
  { intros Hc. destruct (positions_open _ _ _ _ _ _ Hp Hc) as [-> _]. by rewrite Et. }
  rewrite Et in A. cbn [step] in E. apply bind_Ret_inv in E as ([[a' r'] l'] & E & E'). injection E' as <- <-.
  split; [by eapply rank_step |]. cbn [thread].
  destruct (agent_step_frame _ _ _ _ _ _ _ _ E) as (Hri & Ht & [(p & last & Ha & ->) | [Hl Hc]]).
  - destruct last; [right | by left]. by left.
  - right. right. rewrite Hl, Ht, app_nil_r, Nat.add_0_r in HI'. split; [done |]. cbn [thread shared].
    by rewrite Hc, Hri.
Qed.

Lemma finish g P :
  caught_up g P -> exists k g' l, run handle cnt inf (replicate k (Agent Rest)) g = Ret (g', l) /\
    rank (Z.of_nat (length P)) (thread g') = 0%nat.
Proof.
  remember (rank (Z.of_nat (length P)) (thread g)) as mu eqn:Emu. revert g Emu.
  induction mu as [mu IH] using lt_wf_ind. intros g -> Hg.
  destruct (decide (rank (Z.of_nat (length P)) (thread g) = 0%nat)) as [H0 | H0]; [by exists 0%nat, g, [] |].
  destruct (finish_step g P Hg H0) as (g1 & l1 & E1 & Hlt & [Hz | Hg1]).
  - exists 1%nat, g1, (l1 ++ []). cbn [replicate run]. by rewrite E1, bind_Ret.
  - destruct (IH _ Hlt g1 eq_refl Hg1) as (k & g' & l & E & Hz). exists (S k), g', (l1 ++ l). cbn [replicate run].
    by rewrite E1, bind_Ret, E, bind_Ret.
Qed.

(** [GetReport] returns when everything is handled. *)
Lemma got_report g P m c g' i :
  inv g P m -> step handle cnt inf (Agent c) g = Ret (g', [Got_report i]) ->
  m = length P /\ i = inf (stats g).
Proof.
  intros HI E. cbn [step] in E. apply bind_Ret_inv in E as ([[a' r'] l'] & E & E'). injection E' as _ ->.
  pose proof (p_finished _ _ _ _ _ _ (i_positions _ _ _ HI)) as [F _].
  destruct (thread g); cbn [agent_step] in E; step_cases E; inversion E; subst; split; try done.
  match goal with H : (_ =? -1) = true |- _ => apply Z.eqb_eq in H; specialize (F (or_intror H)) end. lia.
Qed.
End Ring.
End IperfRingProofs.
