(* ===== verification/IperfStats.v ===== *)
(** * iperf/src/Reporter.c: the statistics of a stream

    The times of a report compared as numbers of microseconds, the loop over the
    intervals that have ended, and that the reporter returns from every packet. *)
From S2P Require Import Prelude Doubles DoubleSign IperfReporter IperfRing IperfRingProofs.

Module IperfStats.
Import Doubles DoubleSign IperfReporter IperfRing IperfRingProofs.

(** ** Times *)
(** A time of [gettimeofday]; a time to which intervals were added, where a whole second
    may be a million microseconds. *)
Definition valid_time (t : timeval) : Prop := 0 <= tv_sec t < 2 ^ 50 /\ 0 <= tv_usec t < 1000000.
Definition sum_time (t : timeval) : Prop := 0 <= tv_sec t < 2 ^ 52 /\ 0 <= tv_usec t <= 1000000.

Lemma valid_sum t : valid_time t -> sum_time t.
Proof. unfold valid_time, sum_time. lia. Qed.

Lemma micros_add a b : micros (TimeAdd a b) = micros a + micros b.
Proof.
  unfold micros, TimeAdd, rMillion. destruct (Z.ltb_spec 1000000 (tv_usec a + tv_usec b)); cbn; lia.
Qed.

Lemma TimeAdd_sum a b : tv_sec a < 2 ^ 51 -> sum_time a -> valid_time b -> sum_time (TimeAdd a b).
Proof.
  unfold sum_time, valid_time, TimeAdd, rMillion. intros.
  destruct (Z.ltb_spec 1000000 (tv_usec a + tv_usec b)); cbn; lia.
Qed.

Lemma TimeDifference_sign a b :
  sum_time a -> valid_time b -> fltb (TimeDifference a b) fzero = (micros a <? micros b).
Proof.
  unfold sum_time, valid_time, TimeDifference, micros, rMillion. intros.
  rewrite seconds_sign by lia. destruct (Z.ltb_spec (tv_sec a * 1000000 + tv_usec a) (tv_sec b * 1000000 + tv_usec b));
    [apply Z.ltb_lt | apply Z.ltb_ge]; lia.
Qed.

(** ** Reports *)
(** The group of a report has its slots and its report when it sums. *)
Definition multi_ok (flags : Z) (multireport : option MultiHeader) : Prop :=
  match multireport with
  | Some m => isMultipleReport flags = true -> length (Multi.data m) = NUM_MULTI_SLOTS /\ is_Some (Multi.report m)
  | None => True
  end.

Lemma find_slot_lt p l : l <> [] -> (find_slot p l < length l)%nat.
Proof.
  induction l as [| x [| y l] IH]; intros H; [done | cbn; lia |].
  change (find_slot p (x :: y :: l)) with (if p x then 0%nat else S (find_slot p (y :: l))).
  destruct (p x); [cbn; lia |]. specialize (IH ltac:(done)). cbn [length] in *. lia.
Qed.

(** What a report prints of its own stream. *)
Definition infos (out : list event) : list Transfer_Info :=
  out ≫= fun e => match e with printstats _ i => [i] | _ => [] end.

Lemma infos_app a b : infos (a ++ b) = infos a ++ infos b.
Proof. apply bind_app. Qed.

Lemma sum_report_returns d multireport force :
  multi_ok (flags (settings d)) multireport ->
  exists multireport' out, sum_report d multireport force = Ret (multireport', out) /\
    multi_ok (flags (settings d)) multireport' /\ infos out = [].
Proof.
  intros Hm. destruct multireport as [m |]; [| by exists None, []]. cbn [sum_report multi_ok] in *.
  destruct (isMultipleReport (flags (settings d))) eqn:Ef; [| by exists (Some m), []; cbn; rewrite ?Ef].
  destruct (Hm eq_refl) as [Hl [r Hr]]. unfold reporter_handle_multiple_reports.
  destruct (1 <? Multi.threads m); [| exists (Some m), []; by rewrite bind_Ret].
  assert (Hne : Multi.data m <> []) by (intros E; by rewrite E in Hl).
  destruct (lookup_lt_is_Some_2 _ _ (find_slot_lt (fun t => SFeqb (Info.startTime t) (Info.startTime (info d))) _ Hne)) as [c Ec].
  destruct (lookup_lt_is_Some_2 _ _ (find_slot_lt (fun t => fltb (Info.startTime t) fzero) _ Hne)) as [c' Ec'].
  rewrite Ec. cbn [deref]. rewrite bind_Ret. destruct (negb _).
  - rewrite Ec'. cbn [deref]. rewrite !bind_Ret. eexists _, _. split; [done |]. cbn.
    by rewrite length_insert, Hr.
  - destruct (_ =? Multi.threads m); [rewrite Hr; cbn [deref] |]; rewrite !bind_Ret; (eexists _, _; split; [done |]);
      cbn; rewrite length_insert, ?Hr; eauto.
Qed.

(** What does not change. *)
Record same_report (d d' : ReporterData) : Prop := mkSame {
  same_settings : settings d' = settings d;
  same_start : startTime d' = startTime d;
  same_interval : intervalTime d' = intervalTime d;
  same_packet : packetTime d' = packetTime d
}.

(** The times are such that the intervals end. *)
Definition times_ok (d : ReporterData) : Prop :=
  valid_time (packetTime d) /\ sum_time (nextTime d) /\ valid_time (intervalTime d).

Lemma interval_over_micros d :
  times_ok d -> interval_over d = (0 <? micros (intervalTime d)) && (micros (nextTime d) <? micros (packetTime d)).
Proof.
  intros (Hp & Hn & Hi). unfold interval_over. rewrite TimeDifference_sign by done. f_equal.
  unfold valid_time, micros, rMillion in *.
  destruct (Z.eqb_spec (tv_sec (intervalTime d)) 0), (Z.eqb_spec (tv_usec (intervalTime d)) 0); cbn; symmetry;
    [apply Z.ltb_ge | apply Z.ltb_lt ..]; lia.
Qed.

(** ** The intervals *)
(** How many intervals have ended. *)
Definition ended (d : ReporterData) : nat :=
  if (0 <? micros (intervalTime d)) && (micros (nextTime d) <? micros (packetTime d)) then
    S (Z.to_nat ((micros (packetTime d) - micros (nextTime d) - 1) / micros (intervalTime d)))
  else 0%nat.

(** The report of one interval: what is left of the data. *)
Definition next_interval (d : ReporterData) : ReporterData :=
  set_nextTime (TimeAdd (nextTime d) (intervalTime d)) (set_cnt (interval_counts d) (set_info (interval_info d) d)).

Lemma times_next d : times_ok d -> interval_over d = true -> times_ok (next_interval d).
Proof.
  intros Ht Ho. rewrite interval_over_micros in Ho by done. apply andb_prop in Ho as [_ Ho%Z.ltb_lt].
  destruct Ht as (Hp & Hn & Hi). split_and!; try done. apply TimeAdd_sum; try done.
  unfold valid_time, sum_time, micros, rMillion in *. lia.
Qed.

Lemma ended_next d : times_ok d -> interval_over d = true -> ended d = S (ended (next_interval d)).
Proof.
  intros Ht Ho. rewrite interval_over_micros in Ho by done. unfold ended. rewrite Ho.
  change (intervalTime (next_interval d)) with (intervalTime d). change (packetTime (next_interval d)) with (packetTime d).
  change (nextTime (next_interval d)) with (TimeAdd (nextTime d) (intervalTime d)). rewrite micros_add.
  apply andb_prop in Ho as [Hi%Z.ltb_lt Ho%Z.ltb_lt]. rewrite (proj2 (Z.ltb_lt 0 _) Hi). cbn [andb].
  set (I := micros (intervalTime d)) in *. set (X := micros (packetTime d) - micros (nextTime d)) in *.
  f_equal. destruct (Z.ltb_spec (micros (nextTime d) + I) (micros (packetTime d))) as [L | L].
  - replace (micros (packetTime d) - (micros (nextTime d) + I) - 1) with (X - 1 + (-1) * I) by (unfold X; lia).
    rewrite Z.div_add by lia. assert (1 <= (X - 1) / I) by (apply Z.div_le_lower_bound; unfold X; lia). lia.
  - rewrite Z.div_small by (unfold X; lia). done.
Qed.

Lemma interval_over_ended d : times_ok d -> interval_over d = false -> ended d = 0%nat.
Proof. intros Ht Ho. rewrite interval_over_micros in Ho by done. unfold ended. by rewrite Ho. Qed.

Lemma ended_fuel d : times_ok d -> (ended d < intervals_fuel d)%nat.
Proof.
  intros _. unfold ended, intervals_fuel.
  destruct (Z.ltb_spec 0 (micros (intervalTime d))) as [Hi | _]; cbn [andb]; [| lia].
  destruct (Z.ltb_spec (micros (nextTime d)) (micros (packetTime d))) as [Hl | _]; [| lia].
  apply -> Nat.succ_lt_mono. apply Nat.lt_succ_r, Z2Nat.inj_le;
    [apply Z.div_pos; lia | apply Z.div_pos; lia | apply Z.div_le_mono; lia].
Qed.

Lemma iter_next_times n d : times_ok d -> (n <= ended d)%nat ->
  times_ok (Nat.iter n next_interval d) /\ ended (Nat.iter n next_interval d) = (ended d - n)%nat.
Proof.
  intros Ht. induction n as [| n IH]; intros Hn; [cbn; split; [done | lia] |].
  destruct IH as [IH1 IH2]; [lia |].
  change (Nat.iter (S n) next_interval d) with (next_interval (Nat.iter n next_interval d)).
  assert (Ho : interval_over (Nat.iter n next_interval d) = true).
  { destruct (interval_over _) eqn:E; [done |]. apply interval_over_ended in E; [lia | done]. }
  split; [by apply times_next |]. pose proof (ended_next _ IH1 Ho). lia.
Qed.

Lemma interval_loop_spec fuel d multireport :
  times_ok d -> multi_ok (flags (settings d)) multireport -> (ended d < fuel)%nat ->
  exists multireport' out,
    interval_loop fuel d multireport = Ret (Nat.iter (ended d) next_interval d, multireport', out) /\
    multi_ok (flags (settings d)) multireport' /\
    infos out = (fun k => info (Nat.iter (S k) next_interval d)) <$> seq 0 (ended d).
Proof.
  revert d multireport. induction fuel as [| fuel IH]; intros d multireport Ht Hm Hf; [lia |].
  cbn [interval_loop]. destruct (interval_over d) eqn:Ho.
  - pose proof (ended_next _ Ht Ho) as En. pose proof (times_next _ Ht Ho) as Ht'. unfold report_interval. cbv zeta.
    fold (next_interval d). destruct (sum_report_returns (next_interval d) multireport false Hm) as (m1 & out1 & -> & Hm1 & Ho1).
    rewrite !bind_Ret. destruct (IH (next_interval d) m1 Ht' Hm1 ltac:(lia)) as (m2 & out2 & -> & Hm2 & Ho2).
    rewrite bind_Ret. exists m2, ((print_transfer (next_interval d) false ++ out1) ++ out2). split_and!; [| done |].
    + do 3 f_equal. rewrite En. symmetry. apply Nat.iter_succ_r.
    + rewrite !infos_app, Ho1, Ho2, app_nil_r, En. cbn [seq]. rewrite <- fmap_S_seq, fmap_cons, <- list_fmap_compose.
      change (infos (print_transfer (next_interval d) false)) with [info (next_interval d)].
      cbn [app]. f_equal. apply list_fmap_ext. intros i x _.
      change (info (next_interval (Nat.iter x next_interval (next_interval d))) =
              info (next_interval (Nat.iter (S x) next_interval d))). by rewrite <- Nat.iter_succ_r.
  - rewrite (interval_over_ended d Ht Ho). by exists multireport, [].
Qed.

Lemma condprintstats_spec d multireport :
  times_ok d -> multi_ok (flags (settings d)) multireport ->
  exists multireport' out,
    reporter_condprintstats d multireport false = Ret (Nat.iter (ended d) next_interval d, multireport', out) /\
    multi_ok (flags (settings d)) multireport' /\
    infos out = (fun k => info (Nat.iter (S k) next_interval d)) <$> seq 0 (ended d).
Proof. intros Ht Hm. apply interval_loop_spec; try done. by apply ended_fuel. Qed.

(** ** Packets *)
(** The data when a packet has arrived, before the intervals that it ends are reported,
    and when the packet is counted. *)
Definition arrive (p : ReportStruct) (d : ReporterData) : ReporterData :=
  set_packetTime (arrived p) (set_cnt (count_packet (cnt d)) d).
Definition receive (p : ReportStruct) (d : ReporterData) : ReporterData :=
  let d := set_cnt (add_length (packetLen p) (cnt d)) d in
  if packetID p =? 0 then d else handle_datagram p d.
(** The data behind a packet that is not the last one. *)
Definition after_packet (p : ReportStruct) (d : ReporterData) : ReporterData :=
  receive p (Nat.iter (ended (arrive p d)) next_interval (arrive p d)).
(** The data behind the last packet. *)
Definition after_last (p : ReportStruct) (d : ReporterData) : ReporterData :=
  let d := arrive p d in
  let d := if decide (mThreadMode (settings d) = kMode_Client) then d
           else set_cnt (add_length (packetLen p) (cnt d)) d in
  set_info (final_info d) d.

(** The data of a stream between two packets. *)
Definition report_ok (d : ReporterData) : Prop := sum_time (nextTime d) /\ valid_time (intervalTime d).

Lemma iter_next_same n d :
  settings (Nat.iter n next_interval d) = settings d /\ intervalTime (Nat.iter n next_interval d) = intervalTime d /\
  packetTime (Nat.iter n next_interval d) = packetTime d /\ startTime (Nat.iter n next_interval d) = startTime d.
Proof. induction n as [| n IH]; [done | exact IH]. Qed.

Lemma receive_same p d :
  settings (receive p d) = settings d /\ intervalTime (receive p d) = intervalTime d /\
  packetTime (receive p d) = packetTime d /\ nextTime (receive p d) = nextTime d /\ startTime (receive p d) = startTime d.
Proof. unfold receive. by destruct (packetID p =? 0). Qed.

Lemma arrive_times p d : valid_time (arrived p) -> report_ok d -> times_ok (arrive p d).
Proof. intros Hp [Hn Hi]. by split_and!. Qed.

Lemma handle_packet_spec p d multireport :
  0 <= packetID p -> valid_time (arrived p) -> report_ok d -> multi_ok (flags (settings d)) multireport ->
  exists multireport' out,
    reporter_handle_packet p d multireport = Ret (false, after_packet p d, multireport', out) /\
    multi_ok (flags (settings d)) multireport' /\ report_ok (after_packet p d) /\
    infos out = (fun k => info (Nat.iter (S k) next_interval (arrive p d))) <$> seq 0 (ended (arrive p d)).
Proof.
  intros Hid Hp Hd Hm. pose proof (arrive_times p d Hp Hd) as Ht.
  unfold reporter_handle_packet. cbv zeta. fold (arrive p d).
  rewrite (proj2 (Z.ltb_ge _ _) Hid). destruct (condprintstats_spec (arrive p d) multireport Ht Hm) as (m1 & out1 & -> & Hm1 & Ho1).
  rewrite bind_Ret. set (d1 := Nat.iter (ended (arrive p d)) next_interval (arrive p d)) in *. fold (receive p d1).
  destruct (iter_next_times (ended (arrive p d)) (arrive p d) Ht ltac:(lia)) as [Ht1 He1]. fold d1 in Ht1, He1.
  destruct (iter_next_same (ended (arrive p d)) (arrive p d)) as (Es & Ei & Ep & _). fold d1 in Es, Ei, Ep.
  destruct (receive_same p d1) as (Rs & Ri & Rp & Rn & _).
  assert (Ht2 : times_ok (receive p d1)) by (unfold times_ok; by rewrite Ri, Rp, Rn).
  assert (He2 : ended (receive p d1) = 0%nat) by (unfold ended; rewrite Ri, Rp, Rn; unfold ended in He1; rewrite He1; lia).
  destruct (condprintstats_spec (receive p d1) m1 Ht2) as (m2 & out2 & -> & Hm2 & Ho2); [by rewrite Rs, Es |].
  rewrite bind_Ret, He2. exists m2, (out1 ++ out2). split_and!; [done | by rewrite Rs, Es in Hm2 | |].
  - unfold after_packet. fold d1. by destruct Ht2 as (_ & ? & ?).
  - by rewrite infos_app, Ho1, Ho2, He2, app_nil_r.
Qed.

Lemma after_last_same p d :
  settings (after_last p d) = settings d /\ nextTime (after_last p d) = nextTime d /\
  intervalTime (after_last p d) = intervalTime d.
Proof. unfold after_last. cbv zeta. by destruct (decide _). Qed.

Lemma handle_last_spec p d multireport :
  packetID p < 0 -> multi_ok (flags (settings d)) multireport ->
  exists multireport' out,
    reporter_handle_packet p d multireport = Ret (true, after_last p d, multireport', out) /\
    multi_ok (flags (settings d)) multireport' /\ infos out = [info (after_last p d)].
Proof.
  intros Hid Hm. unfold reporter_handle_packet. cbv zeta. fold (arrive p d).
  rewrite (proj2 (Z.ltb_lt _ _) Hid). unfold reporter_condprintstats, report_final. cbv zeta.
  fold (after_last p d). destruct (after_last_same p d) as [Es _].
  destruct (sum_report_returns (after_last p d) multireport true) as (m1 & out1 & -> & Hm1 & Ho1); [by rewrite Es |].
  rewrite !bind_Ret. exists m1, (print_transfer (after_last p d) true ++ out1).
  split_and!; [done | by rewrite Es in Hm1 |]. rewrite infos_app, Ho1, app_nil_r. unfold print_transfer.
  by destruct (_ && _).
Qed.

Lemma after_packet_same p d :
  settings (after_packet p d) = settings d /\ startTime (after_packet p d) = startTime d /\
  intervalTime (after_packet p d) = intervalTime d /\ packetTime (after_packet p d) = arrived p.
Proof.
  unfold after_packet. destruct (iter_next_same (ended (arrive p d)) (arrive p d)) as (Es & Ei & Ep & Et).
  destruct (receive_same p (Nat.iter (ended (arrive p d)) next_interval (arrive p d))) as (Rs & Ri & Rp & _ & Rt).
  by rewrite Rs, Es, Rt, Et, Ri, Ei, Rp, Ep.
Qed.

(** ** The reporter handles the packets of the ring *)
Definition stream_ok (s : stream) : Prop :=
  let '(d, multireport, _) := s in report_ok d /\ multi_ok (flags (settings d)) multireport.

Lemma reporter_handles p s :
  valid_time (arrived p) -> stream_ok s -> exists s', reporter_handle p s = Ret (packetID p <? 0, s') /\ stream_ok s'.
Proof.
  destruct s as [[d multireport] out]. intros Hp [Hd Hm]. unfold reporter_handle. destruct (Z.ltb_spec (packetID p) 0) as [Hid | Hid].
  - destruct (handle_last_spec p d multireport Hid Hm) as (m1 & out1 & -> & Hm1 & _). rewrite bind_Ret.
    exists (after_last p d, m1, out ++ out1). destruct (after_last_same p d) as (Es & En & Ei).
    split; [done |]. unfold stream_ok, report_ok. by rewrite Es, En, Ei.
  - destruct (handle_packet_spec p d multireport Hid Hp Hd Hm) as (m1 & out1 & -> & Hm1 & Hd1 & _). rewrite bind_Ret.
    exists (after_packet p d, m1, out ++ out1). split; [done |]. split; [done |].
    by rewrite (proj1 (after_packet_same p d)).
Qed.

#[export] Instance reporter_handler : Handler reporter_handle :=
  {| ok_packet p := valid_time (arrived p); ok_data := stream_ok; handles := reporter_handles |}.
End IperfStats.
