(* ===== verification/IperfLoss.v ===== *)
(** * iperf/src/Reporter.c: lost datagrams and bytes per interval

    What the counters say of a sequence of packets: which datagrams are late or lost,
    and in which interval each byte is reported. *)
From Stdlib Require Import Sorting.Sorted.
From S2P Require Import Prelude Doubles IperfReporter IperfRing IperfRingProofs IperfStats.

Module IperfLoss.
Import Doubles IperfReporter IperfRing IperfRingProofs IperfStats.

(** ** All packets of a stream *)
Definition after_packets (ps : list ReportStruct) (d : ReporterData) : ReporterData :=
  fold_left (fun d p => after_packet p d) ps d.

Definition packet_ok (p : ReportStruct) : Prop := 0 <= packetID p /\ valid_time (arrived p).

(** The reports of the intervals that the packets end. *)
Fixpoint interval_infos (ps : list ReportStruct) (d : ReporterData) : list Transfer_Info :=
  match ps with
  | [] => []
  | p :: ps =>
      ((fun k => info (Nat.iter (S k) next_interval (arrive p d))) <$> seq 0 (ended (arrive p d))) ++
      interval_infos ps (after_packet p d)
  end.

Lemma after_packets_ok ps d :
  Forall packet_ok ps -> report_ok d -> report_ok (after_packets ps d) /\ settings (after_packets ps d) = settings d /\
    startTime (after_packets ps d) = startTime d /\ intervalTime (after_packets ps d) = intervalTime d.
Proof.
  intros Hps. revert d. induction Hps as [| p ps [Hid Hp] Hps IH]; intros d Hd; [done |]. cbn [after_packets fold_left].
  destruct (handle_packet_spec p d None Hid Hp Hd I) as (_ & _ & _ & _ & Hd1 & _).
  destruct (IH _ Hd1) as (H1 & H2 & H3 & H4). destruct (after_packet_same p d) as (E1 & E2 & E3 & _).
  unfold after_packets in *. by rewrite H2, H3, H4.
Qed.

Lemma handle_all_spec ps d multireport out :
  Forall packet_ok ps -> report_ok d -> multi_ok (flags (settings d)) multireport ->
  exists multireport' out',
    handle_all reporter_handle ps (d, multireport, out) = Ret (after_packets ps d, multireport', out ++ out') /\
    multi_ok (flags (settings d)) multireport' /\ infos out' = interval_infos ps d.
Proof.
  intros Hps. revert d multireport out. induction Hps as [| p ps [Hid Hp] Hps IH]; intros d multireport out Hd Hm.
  - exists multireport, []. by rewrite app_nil_r.
  - destruct (handle_packet_spec p d multireport Hid Hp Hd Hm) as (m1 & out1 & E1 & Hm1 & Hd1 & Ho1).
    destruct (IH (after_packet p d) m1 (out ++ out1) Hd1) as (m2 & out2 & E2 & Hm2 & Ho2).
    { by rewrite (proj1 (after_packet_same p d)). }
    exists m2, (out1 ++ out2). 
    assert (E : reporter_handle p (d, multireport, out) = Ret (false, (after_packet p d, m1, out ++ out1)))
      by (unfold reporter_handle; by rewrite E1).
    cbn [handle_all]. rewrite E, bind_Ret, E2.
    rewrite (proj1 (after_packet_same p d)) in Hm2. split_and!; [by rewrite app_assoc | done |].
    by rewrite infos_app, Ho1, Ho2.
Qed.

(** The report at the end of a UDP stream. *)
Lemma after_last_info p d :
  isUDP (flags (settings d)) = true ->
  Info.cntDatagrams (info (after_last p d)) = PacketID (cnt d) /\
  Info.cntOutofOrder (info (after_last p d)) = cntOutofOrder (cnt d) /\
  Info.cntError (info (after_last p d)) = lost (cntError (cnt d)) (cntOutofOrder (cnt d)).
Proof.
  intros Hu. unfold after_last. cbv zeta. destruct (decide _); unfold final_info, datagrams;
    cbn [info set_info Info.cntDatagrams Info.cntOutofOrder Info.cntError settings set_cnt arrive set_packetTime cnt
         add_length count_packet PacketID cntOutofOrder cntError]; by rewrite Hu.
Qed.

(** ** The numbers of the datagrams *)
Definition sequence (d : ReporterData) : Z * Z * Z := (cntError (cnt d), cntOutofOrder (cnt d), PacketID (cnt d)).

Lemma sequence_iter n d : sequence (Nat.iter n next_interval d) = sequence d.
Proof. induction n as [| n IH]; [done | exact IH]. Qed.

(** The same without the width of the numbers. *)
Definition sequence_step (id : Z) (s : Z * Z * Z) : Z * Z * Z :=
  let '(err, late, last) := s in
  if id <=? last then (err, late + 1, last) else (err + (id - last - 1), late, id).

Lemma count_sequence_step id c :
  0 < id < 2 ^ 31 -> 0 <= PacketID c < 2 ^ 31 - 1 -> 0 <= cntError c <= PacketID c -> 0 <= cntOutofOrder c < 2 ^ 31 - 1 ->
  (cntError (count_sequence id c), cntOutofOrder (count_sequence id c), PacketID (count_sequence id c)) =
  sequence_step id (cntError c, cntOutofOrder c, PacketID c).
Proof.
  intros Hid Hp He Hl. unfold count_sequence, sequence_step. cbv zeta. rewrite (i32_small (PacketID c + 1)) by (unfold is_int, INT_MIN, INT_MAX; lia).
  destruct (Z.eqb_spec id (PacketID c + 1)) as [-> | Hne]; cbn [negb].
  - destruct (Z.leb_spec (PacketID c + 1) (PacketID c)); [lia |]. cbn [cntError cntOutofOrder PacketID].
    rewrite (proj2 (Z.ltb_lt _ _)) by lia. do 2 f_equal. lia.
  - destruct (Z.leb_spec id (PacketID c)).
    + rewrite (proj2 (Z.ltb_lt _ _)) by lia. cbn [cntError cntOutofOrder PacketID].
      rewrite (proj2 (Z.ltb_ge (PacketID c) id)) by lia. do 2 f_equal. apply i32_small. unfold is_int, INT_MIN, INT_MAX. lia.
    + rewrite (proj2 (Z.ltb_ge id _)) by lia. cbn [cntError cntOutofOrder PacketID].
      rewrite (proj2 (Z.ltb_lt (PacketID c) id)) by lia.
      rewrite (i32_small (id - PacketID c)), (i32_small (id - PacketID c - 1)), i32_small;
        [done | unfold is_int, INT_MIN, INT_MAX; lia ..].
Qed.

(** How many numbers are not larger than one in front of them. *)
Fixpoint late_count (last : Z) (ids : list Z) : Z :=
  match ids with
  | [] => 0
  | id :: ids => if id <=? last then 1 + late_count last ids else late_count id ids
  end.

Definition in_range (id : Z) : Prop := 0 < id < 2 ^ 31 - 1.

Lemma late_count_range last ids : 0 <= late_count last ids <= Z.of_nat (length ids).
Proof.
  revert last. induction ids as [| id ids IH]; intros last; cbn [late_count length]; [lia |].
  destruct (id <=? last); [specialize (IH last) | specialize (IH id)]; lia.
Qed.

Lemma after_packet_sequence p d :
  sequence (after_packet p d) =
  if packetID p =? 0 then sequence d
  else (cntError (count_sequence (packetID p) (cnt (Nat.iter (ended (arrive p d)) next_interval (arrive p d)))),
        cntOutofOrder (count_sequence (packetID p) (cnt (Nat.iter (ended (arrive p d)) next_interval (arrive p d)))),
        PacketID (count_sequence (packetID p) (cnt (Nat.iter (ended (arrive p d)) next_interval (arrive p d))))).
Proof.
  unfold after_packet, receive. cbv zeta. destruct (packetID p =? 0).
  - exact (sequence_iter (ended (arrive p d)) (arrive p d)).
  - set (d1 := Nat.iter _ _ _). unfold sequence, handle_datagram, count_sequence. cbv zeta.
    cbn [cnt set_cnt set_info set_transit add_length cntError cntOutofOrder PacketID].
    by destruct (negb (packetID p =? i32 (PacketID (cnt d1) + 1))), (packetID p <? i32 (PacketID (cnt d1) + 1)).
Qed.

Lemma pair3_eq (a b c a' b' c' : Z) : a = a' -> b = b' -> c = c' -> (a, b, c) = (a', b', c').
Proof. congruence. Qed.
Lemma foldr_max_le last ids : last <= foldr Z.max last ids.
Proof. induction ids; cbn; lia. Qed.
Lemma foldr_max_ge last ids k : k ∈ ids -> k <= foldr Z.max last ids.
Proof. induction 1; cbn; lia. Qed.
Lemma foldr_max_bound last ids b : last < b -> Forall (fun id => id < b) ids -> foldr Z.max last ids < b.
Proof. intros Hl. induction 1; cbn; lia. Qed.
Lemma foldr_max_base a b ids : foldr Z.max (Z.max a b) ids = Z.max a (foldr Z.max b ids).
Proof. induction ids; cbn; lia. Qed.

(** The counters after the packets: every number up to the largest one was in order, or is
    counted as missing. *)
Lemma after_packets_sequence ps d err late last :
  sequence d = (err, late, last) -> Forall (fun p => in_range (packetID p)) ps ->
  0 <= last < 2 ^ 31 - 1 -> 0 <= err <= last -> 0 <= late -> late + Z.of_nat (length ps) < 2 ^ 31 - 1 ->
  let ids := packetID <$> ps in
  sequence (after_packets ps d) =
  (err + (foldr Z.max last ids - last) - (Z.of_nat (length ps) - late_count last ids),
   late + late_count last ids, foldr Z.max last ids).
Proof.
  cbv zeta. intros Hs Hps. revert d err late last Hs.
  induction Hps as [| p ps Hid Hps IH]; intros d err late last Hs H1 H2 H3 H4.
  - cbn. rewrite Hs. do 2 f_equal; lia.
  - cbn [after_packets fold_left fmap list_fmap foldr late_count length] in *. unfold in_range in Hid.
    assert (E : sequence (after_packet p d) = sequence_step (packetID p) (err, late, last)).
    { rewrite after_packet_sequence, (proj2 (Z.eqb_neq _ _)) by lia. 
      set (d1 := Nat.iter (ended (arrive p d)) next_interval (arrive p d)).
      assert (Hd1 : sequence d1 = (err, late, last)) by (unfold d1; rewrite sequence_iter; exact Hs).
      unfold sequence in Hd1. injection Hd1 as <- <- <-. apply count_sequence_step; lia. }
    unfold sequence_step in E. pose proof (foldr_max_le last (packetID <$> ps)) as Hm.
    unfold after_packets in IH. destruct (Z.leb_spec (packetID p) last) as [L | L].
    + rewrite (IH _ _ _ _ E), Z.max_r by lia. by apply pair3_eq; lia.
    + assert (Ef : foldr Z.max (packetID p) (packetID <$> ps) = Z.max (packetID p) (foldr Z.max last (packetID <$> ps)))
        by (rewrite <- foldr_max_base; f_equal; lia).
      rewrite (IH _ _ _ _ E), Ef by lia. apply pair3_eq; lia.
Qed.

Lemma filter_split {A} (P : A -> Prop) `{!forall x, Decision (P x)} l :
  (length (filter P l) + length (filter (fun x => ~ P x) l))%nat = length l.
Proof.
  induction l as [| x l IH]; [done |]. rewrite !filter_cons. destruct (decide (P x)) as [Hx | Hx].
  - rewrite decide_False by auto. cbn [length]. lia.
  - rewrite decide_True by done. cbn [length]. lia.
Qed.

(** How many of the numbers up to the largest one did not come. *)
Definition missing (ids : list Z) : Z := Z.of_nat (length (filter (fun k => k ∉ ids) (seqZ 1 (foldr Z.max 0 ids)))).

(** How many datagrams carry a number that another one carries too, beyond the first. *)
Definition repeated (ids : list Z) : Z := Z.of_nat (length ids) - Z.of_nat (length (remove_dups ids)).

Lemma remove_dups_length (ids : list Z) : (length (remove_dups ids) <= length ids)%nat.
Proof.
  induction ids as [| k ids IH]; [done |]. cbn [remove_dups length].
  destruct (decide_rel _ k ids); cbn [length]; lia.
Qed.

Lemma missing_count ids :
  Forall (fun id => 0 < id) ids ->
  missing ids = foldr Z.max 0 ids - Z.of_nat (length (remove_dups ids)).
Proof.
  intros Hp. unfold missing. pose proof (foldr_max_le 0 ids) as Hm.
  assert (E : filter (fun k => k ∈ ids) (seqZ 1 (foldr Z.max 0 ids)) ≡ₚ remove_dups ids).
  { apply NoDup_Permutation; [apply NoDup_filter, NoDup_seqZ | apply NoDup_remove_dups |]. intros k.
    rewrite list_elem_of_filter, elem_of_seqZ, elem_of_remove_dups. split; [tauto |].
    intros Hk. split; [done |].
    rewrite Forall_forall in Hp. specialize (Hp k Hk). pose proof (foldr_max_ge 0 ids k Hk). lia. }
  pose proof (Permutation_length E) as L.
  pose proof (filter_split (fun k => k ∈ ids) (seqZ 1 (foldr Z.max 0 ids))) as S.
  rewrite length_seqZ in S. lia.
Qed.

(** ** The bytes of the intervals *)
(** The interval that a time falls in, when the first one starts behind [start] and each
    of them is [I] microseconds long. *)
Definition slot (start I : Z) (p : ReportStruct) : nat := Z.to_nat ((micros (arrived p) - start - 1) / I).
(** The bytes of the packets of an interval, and of all packets. *)
Fixpoint bytes_in (start I : Z) (k : nat) (ps : list ReportStruct) : Z :=
  match ps with
  | [] => 0
  | p :: ps => (if decide (slot start I p = k) then packetLen p else 0) + bytes_in start I k ps
  end.
Fixpoint total_bytes (ps : list ReportStruct) : Z :=
  match ps with [] => 0 | p :: ps => packetLen p + total_bytes ps end.
Fixpoint last_slot (start I : Z) (k : nat) (ps : list ReportStruct) : nat :=
  match ps with [] => k | p :: ps => last_slot start I (slot start I p) ps end.

Definition in_order (p q : ReportStruct) : Prop := micros (arrived p) <= micros (arrived q).

Section Bytes.
Context (start I : Z) (HI : 0 < I).
Abbreviation slot := (slot start I).
Abbreviation bytes_in := (bytes_in start I).
Abbreviation last_slot := (last_slot start I).

Lemma slot_mono p q : in_order p q -> (slot p <= slot q)%nat.
Proof.
  unfold slot, in_order. intros H.
  pose proof (Z.div_le_mono (micros (arrived p) - start - 1) (micros (arrived q) - start - 1) I HI). lia.
Qed.

Lemma bytes_in_later k ps : Forall (fun p => k < slot p)%nat ps -> bytes_in k ps = 0.
Proof. induction 1 as [| p ps Hp Hps IH]; [done |]. cbn. rewrite IH, decide_False by lia. lia. Qed.

Lemma last_slot_ge k ps : Forall (fun p => k <= slot p)%nat ps -> StronglySorted in_order ps -> (k <= last_slot k ps)%nat.
Proof.
  revert k. induction ps as [| p ps IH]; intros k Hk Hs; [done |].
  inversion Hs as [| ? ? Hs' Hp]; subst. inversion Hk; subst. cbn. etrans; [done |]. apply IH; [| done].
  eapply Forall_impl; [exact Hp | intros q; apply slot_mono].
Qed.

(** [K] intervals are reported. *)
Record reported (K : nat) (d : ReporterData) : Prop := mkReported {
  r_next : micros (nextTime d) = start + (Z.of_nat K + 1) * I;
  r_interval : micros (intervalTime d) = I;
  r_total : 0 <= lastTotal (cnt d) <= TotalLen (cnt d)
}.

Lemma ended_slot K d p :
  reported K d -> (K <= slot p)%nat -> ended (arrive p d) = (slot p - K)%nat.
Proof.
  intros [Hn Hi _] HK. unfold ended, slot in *. cbn [arrive set_packetTime set_cnt intervalTime nextTime packetTime].
  rewrite Hn, Hi, (proj2 (Z.ltb_lt 0 I) HI). cbn [andb]. set (T := micros (arrived p) - start - 1) in *.
  destruct (Z.ltb_spec (start + (Z.of_nat K + 1) * I) (micros (arrived p))) as [L | L].
  - replace (micros (arrived p) - (start + (Z.of_nat K + 1) * I) - 1) with (T + - (Z.of_nat K + 1) * I) by (unfold T; lia).
    rewrite Z.div_add by lia. assert (Z.of_nat K + 1 <= T / I) by (apply Z.div_le_lower_bound; unfold T; lia). lia.
  - assert (T / I < Z.of_nat K + 1) by (apply Z.div_lt_upper_bound; unfold T; lia). lia.
Qed.

(** The bytes that the reports of [n] intervals show, and what is left for later ones. *)
Lemma iter_next_bytes n d :
  0 <= lastTotal (cnt d) <= TotalLen (cnt d) -> TotalLen (cnt d) < 2 ^ 64 ->
  TotalLen (cnt (Nat.iter n next_interval d)) = TotalLen (cnt d) /\
  lastTotal (cnt (Nat.iter n next_interval d)) = (if decide (n = 0%nat) then lastTotal (cnt d) else TotalLen (cnt d)) /\
  micros (nextTime (Nat.iter n next_interval d)) = micros (nextTime d) + Z.of_nat n * micros (intervalTime d) /\
  Info.TotalLen (info (Nat.iter (S n) next_interval d)) =
    if decide (n = 0%nat) then TotalLen (cnt d) - lastTotal (cnt d) else 0.
Proof.
  intros H1 H2. assert (H : forall n, TotalLen (cnt (Nat.iter n next_interval d)) = TotalLen (cnt d) /\
    lastTotal (cnt (Nat.iter n next_interval d)) = (if decide (n = 0%nat) then lastTotal (cnt d) else TotalLen (cnt d)) /\
    micros (nextTime (Nat.iter n next_interval d)) = micros (nextTime d) + Z.of_nat n * micros (intervalTime d)).
  { clear n. induction n as [| n (IH1 & IH2 & IH3)]; [split_and!; (done || (cbn; lia)) |].
    change (Nat.iter (S n) next_interval d) with (next_interval (Nat.iter n next_interval d)).
    split_and!; [exact IH1 | exact IH1 |].
    change (nextTime (next_interval (Nat.iter n next_interval d))) with
      (TimeAdd (nextTime (Nat.iter n next_interval d)) (intervalTime (Nat.iter n next_interval d))).
    rewrite micros_add, IH3, (proj1 (proj2 (iter_next_same n d))), Nat2Z.inj_succ. lia. }
  destruct (H n) as (E1 & E2 & E3). split_and!; try done.
  change (Nat.iter (S n) next_interval d) with (next_interval (Nat.iter n next_interval d)).
  change (Info.TotalLen (info (next_interval (Nat.iter n next_interval d)))) with
    (u64 (TotalLen (cnt (Nat.iter n next_interval d)) - lastTotal (cnt (Nat.iter n next_interval d)))).
  rewrite E1, E2. destruct (decide (n = 0%nat)); [by rewrite wrap_u_small by lia |].
  by rewrite Z.sub_diag.
Qed.

Lemma arrive_bytes p d :
  TotalLen (cnt (arrive p d)) = TotalLen (cnt d) /\ lastTotal (cnt (arrive p d)) = lastTotal (cnt d).
Proof. done. Qed.

Lemma receive_bytes p d :
  TotalLen (cnt (receive p d)) = u64 (TotalLen (cnt d) + packetLen p) /\ lastTotal (cnt (receive p d)) = lastTotal (cnt d).
Proof.
  unfold receive. cbv zeta. destruct (packetID p =? 0); [done |].
  unfold handle_datagram, count_sequence. cbv zeta.
  cbn [cnt set_cnt set_info set_transit add_length cntError cntOutofOrder PacketID].
  by destruct (negb (packetID p =? i32 (PacketID (cnt d) + 1))), (packetID p <? i32 (PacketID (cnt d) + 1)).
Qed.

(** A packet: the reports of the intervals it ends, and what is counted behind them. *)
Lemma packet_bytes K d p :
  reported K d -> (K <= slot p)%nat -> 0 <= packetLen p -> TotalLen (cnt d) + packetLen p < 2 ^ 64 ->
  reported (slot p) (after_packet p d) /\
  TotalLen (cnt (after_packet p d)) = TotalLen (cnt d) + packetLen p /\
  TotalLen (cnt (after_packet p d)) - lastTotal (cnt (after_packet p d)) =
    packetLen p + (if decide (slot p = K) then TotalLen (cnt d) - lastTotal (cnt d) else 0).
Proof.
  intros HR HK Hl Ht. pose proof (ended_slot K d p HR HK) as En. destruct HR as [Hn Hi Hb].
  destruct (iter_next_bytes (slot p - K) (arrive p d) Hb ltac:(cbn; lia)) as (E1 & E2 & E3 & _).
  unfold after_packet. rewrite En. set (d1 := Nat.iter (slot p - K) next_interval (arrive p d)) in *.
  destruct (receive_bytes p d1) as [R1 R2]. destruct (receive_same p d1) as (_ & Ri & _ & Rn & _).
  destruct (iter_next_same (slot p - K) (arrive p d)) as (_ & Ei & _). fold d1 in Ei.
  change (TotalLen (cnt (arrive p d))) with (TotalLen (cnt d)) in *. change (lastTotal (cnt (arrive p d))) with (lastTotal (cnt d)) in *.
  change (nextTime (arrive p d)) with (nextTime d) in *. change (intervalTime (arrive p d)) with (intervalTime d) in *.
  rewrite E1 in R1. rewrite E2 in R2. rewrite wrap_u_small in R1 by lia.
  split_and!.
  - split; rewrite ?Rn, ?Ri, ?R1, ?R2, ?Ei; [rewrite E3, Hn, Hi; nia | done |]. destruct (decide _); lia.
  - done.
  - rewrite R1, R2. destruct (decide (slot p - K = 0)%nat), (decide (slot p = K)); lia.
Qed.

(** Every byte is reported in the interval of its packet. *)
Lemma interval_bytes K ps d :
  reported K d -> Forall (fun p => K <= slot p)%nat ps -> StronglySorted in_order ps ->
  Forall (fun p => 0 <= packetLen p) ps -> TotalLen (cnt d) + total_bytes ps < 2 ^ 64 ->
  Info.TotalLen <$> interval_infos ps d =
  (fun k => (if decide (k = K) then TotalLen (cnt d) - lastTotal (cnt d) else 0) + bytes_in k ps) <$>
    seq K (last_slot K ps - K).
Proof.
  intros HR HK HS HL HT. revert K d HR HK HT. induction ps as [| p ps IH]; intros K d HR HK HT.
  { cbn. by rewrite Nat.sub_diag. }
  inversion HS as [| ? ? HS' Hp]; subst. inversion HL; subst. inversion HK; subst.
  assert (HK' : Forall (fun q => slot p <= slot q)%nat ps) by (eapply Forall_impl; [exact Hp | intros q; apply slot_mono]).
  cbn [total_bytes] in HT. assert (0 <= total_bytes ps) by (clear - H2; induction H2; cbn; lia).
  destruct (packet_bytes K d p HR ltac:(done) ltac:(done) ltac:(lia)) as (HR' & Et & Eb).
  cbn [interval_infos last_slot IperfLoss.last_slot IperfLoss.bytes_in]. rewrite fmap_app.
  rewrite (IH HS' H2 (slot p) (after_packet p d) HR' HK' ltac:(lia)), Eb.
  pose proof (last_slot_ge (slot p) ps HK' HS') as Hg.
  replace (last_slot (slot p) ps - K)%nat with ((slot p - K) + (last_slot (slot p) ps - slot p))%nat by lia.
  rewrite seq_app, fmap_app. replace (K + (slot p - K))%nat with (slot p) by lia. f_equal.
  - rewrite (ended_slot K d p HR H3), <- list_fmap_compose.
    replace (seq K (slot p - K)) with (Nat.add K <$> seq 0 (slot p - K)) by (rewrite fmap_add_seq; f_equal; lia).
    rewrite <- list_fmap_compose. apply list_fmap_ext. intros i k Hk. apply lookup_seq in Hk as [-> Hk]. cbn [compose Nat.add].
    destruct HR as [_ _ Hb]. destruct (iter_next_bytes i (arrive p d) Hb ltac:(cbn; lia)) as (_ & _ & _ & E).
    unfold compose. rewrite E, bytes_in_later by (eapply Forall_impl; [exact HK' | cbn; intros; lia]).
    rewrite (decide_False (P := slot p = (K + i)%nat)) by lia.
    cbn [arrive set_packetTime set_cnt cnt count_packet TotalLen lastTotal].
    destruct (decide (i = 0%nat)), (decide ((K + i)%nat = K)); lia.
  - apply list_fmap_ext. intros i k Hk. apply lookup_seq in Hk as [-> Hk].
    destruct (decide (slot p + i = slot p)%nat), (decide (slot p = slot p + i)%nat), (decide (slot p = K)), (decide (slot p + i = K)%nat); lia.
Qed.

Lemma packets_total K ps d :
  reported K d -> Forall (fun p => K <= slot p)%nat ps -> StronglySorted in_order ps ->
  Forall (fun p => 0 <= packetLen p) ps -> TotalLen (cnt d) + total_bytes ps < 2 ^ 64 ->
  TotalLen (cnt (after_packets ps d)) = TotalLen (cnt d) + total_bytes ps.
Proof.
  intros HR HK HS HL HT. revert K d HR HK HT. induction ps as [| p ps IH]; intros K d HR HK HT; [cbn; lia |].
  inversion HS as [| ? ? HS' Hp]; subst. inversion HL; subst. inversion HK; subst.
  cbn [total_bytes] in HT. assert (0 <= total_bytes ps) by (clear - H2; induction H2; cbn; lia).
  destruct (packet_bytes K d p HR ltac:(done) ltac:(done) ltac:(lia)) as (HR' & Et & _).
  cbn [after_packets fold_left]. unfold after_packets in IH. rewrite (IH HS' H2 (slot p)); [cbn; lia | done | | cbn; lia].
  eapply Forall_impl; [exact Hp | intros q; apply slot_mono].
Qed.
End Bytes.
End IperfLoss.
