(* ===== verification/IperfSums.v ===== *)
(** * iperf/src/Reporter.c: the sums of the streams

    [reporter_handle_multiple_reports] keeps the sums of the intervals that some but not
    all streams have reported in [NUM_MULTI_SLOTS] slots.  The specification keeps the
    reports themselves, in groups of equal start times, and gives a group out when it
    has a report of every stream. *)
From S2P Require Import Prelude Doubles DoubleSign IperfReporter.

Module IperfSums.
Import Doubles DoubleSign IperfReporter.

(** ** The specification *)
Definition same_start (a b : Transfer_Info) : bool := SFeqb (Info.startTime a) (Info.startTime b).
Abbreviation group := (list Transfer_Info).

(** The group of a start time, or the last one. *)
Definition head_is (r : Transfer_Info) (g : group) : bool := match g with x :: _ => same_start x r | [] => false end.
Definition is_empty (g : group) : bool := match g with [] => true | _ => false end.
Fixpoint find_group (p : group -> bool) (gs : list group) : nat :=
  match gs with
  | [] | [_] => 0%nat
  | g :: gs => if p g then 0%nat else S (find_group p gs)
  end.

(** [T] streams: the groups, and the group that is complete. *)
Definition sum_step (T : Z) (gs : list group) (r : Transfer_Info) : list group * option group :=
  if existsb (head_is r) gs then
    let i := find_group (head_is r) gs in
    let g := (gs !!! i) ++ [r] in
    if Z.of_nat (length g) =? T then (<[i := []]> gs, Some g) else (<[i := g]> gs, None)
  else (<[find_group is_empty gs := [r]]> gs, None).

Fixpoint sum_run (T : Z) (gs : list group) (rs : list (Transfer_Info * bool)) : list (group * bool) :=
  match rs with
  | [] => []
  | (r, force) :: rs =>
      let (gs, o) := sum_step T gs r in
      match o with Some g => (g, force) :: sum_run T gs rs | None => sum_run T gs rs end
  end.

(** Sums and maxima over a group. *)
Definition total (f : Transfer_Info -> Z) (g : group) : Z := foldr (fun r s => f r + s) 0 g.
Definition greatest (f : Transfer_Info -> spec_float) (g : group) : option spec_float :=
  match g with
  | [] => None
  | r :: g => Some (fold_left (fun a r => if fltb a (f r) then f r else a) g (f r))
  end.

(** [i] shows the sums of the group. *)
Record shows (g : group) (i : Transfer_Info) : Prop := mkShows {
  s_start : Info.startTime <$> head g = Some (Info.startTime i);
  s_error : Info.cntError i = i32 (total Info.cntError g);
  s_late : Info.cntOutofOrder i = i32 (total Info.cntOutofOrder g);
  s_datagrams : Info.cntDatagrams i = i32 (total Info.cntDatagrams g);
  s_total : Info.TotalLen i = u64 (total Info.TotalLen g);
  s_jitter : greatest Info.jitter g = Some (Info.jitter i);
  s_end : greatest Info.endTime g = Some (Info.endTime i)
}.

(** ** The code *)
Fixpoint handle_reports (m : MultiHeader) (rs : list (Transfer_Info * bool)) : cres (MultiHeader * list event) :=
  match rs with
  | [] => Ret (m, [])
  | (r, force) :: rs =>
      '(m, out) ← reporter_handle_multiple_reports m r force;
      '(m, more) ← handle_reports m rs;
      Ret (m, out ++ more)
  end.

(** A report of an interval: its start is not negative, its numbers have their widths. *)
Record good_info (r : Transfer_Info) : Prop := mkGood {
  g_start : fltb (Info.startTime r) fzero = false;
  g_self : SFeqb (Info.startTime r) (Info.startTime r) = true;
  g_error : is_int (Info.cntError r);
  g_late : is_int (Info.cntOutofOrder r);
  g_datagrams : is_int (Info.cntDatagrams r);
  g_total : 0 <= Info.TotalLen r < 2 ^ 64
}.

(** ** Wrapping *)
Lemma wrap_s_mod w z : 0 < w -> wrap_s w z mod 2 ^ w = z mod 2 ^ w.
Proof.
  intros Hw. assert (0 < 2 ^ w) by (apply Z.pow_pos_nonneg; lia). unfold wrap_s. cbv zeta. destruct (_ <? _).
  - apply Z.mod_mod. lia.
  - rewrite <- (Z.mod_mod z (2 ^ w)) at 2 by lia.
    replace (z mod 2 ^ w - 2 ^ w) with (z mod 2 ^ w + (-1) * 2 ^ w) by lia. apply Z.mod_add. lia.
Qed.

Lemma wrap_s_add w a b : 0 < w -> wrap_s w (wrap_s w a + b) = wrap_s w (a + b).
Proof.
  intros Hw. assert (0 < 2 ^ w) by (apply Z.pow_pos_nonneg; lia). assert (E : (wrap_s w a + b) mod 2 ^ w = (a + b) mod 2 ^ w).
  { rewrite Z.add_mod, wrap_s_mod, <- Z.add_mod by lia. done. }
  unfold wrap_s at 1 3. cbv zeta. by rewrite E.
Qed.

Lemma wrap_u_add w a b : 0 <= w -> wrap_u w (wrap_u w a + b) = wrap_u w (a + b).
Proof. intros Hw. unfold wrap_u. apply Z.add_mod_idemp_l. assert (0 < 2 ^ w) by (apply Z.pow_pos_nonneg; lia). lia. Qed.

Lemma wrap_s_8 z : 0 <= z <= 127 -> wrap_s 8 z = z.
Proof.
  intros H. unfold wrap_s. change (2 ^ 8) with 256. change (2 ^ (8 - 1)) with 128. rewrite Z.mod_small by lia.
  destruct (Z.ltb_spec z 128); lia.
Qed.

Lemma total_app f g r : total f (g ++ [r]) = total f g + f r.
Proof. unfold total. induction g as [| x g IH]; cbn; lia. Qed.

Lemma greatest_app f g r x : greatest f g = Some x -> greatest f (g ++ [r]) = Some (if fltb x (f r) then f r else x).
Proof. destruct g as [| y g]; cbn; [done |]. intros [= <-]. by rewrite fold_left_app. Qed.

Lemma shows_first c r : good_info r -> shows [r] (first_stream c r).
Proof.
  intros [_ _ He Hl Hd Ht]. split; cbn; rewrite ?Z.add_0_r; try done; symmetry;
    [by apply i32_small .. | by apply wrap_u_small].
Qed.

Lemma shows_next g c r : shows g c -> shows (g ++ [r]) (next_stream c r).
Proof.
  intros [Hs He Hl Hd Ht Hj Hn]. split; rewrite ?total_app; cbn [next_stream Info.startTime Info.cntError Info.cntOutofOrder Info.cntDatagrams Info.TotalLen Info.jitter Info.endTime].
  - by destruct g.
  - by rewrite He, wrap_s_add by lia.
  - by rewrite Hl, wrap_s_add by lia.
  - by rewrite Hd, wrap_s_add by lia.
  - by rewrite Ht, wrap_u_add by lia.
  - by apply greatest_app.
  - by apply greatest_app.
Qed.

(** ** The slots *)
(** A slot and the group it stands for. *)
Definition slot_of (c : Transfer_Info) (g : group) : Prop :=
  match g with
  | [] => fltb (Info.startTime c) fzero = true
  | _ => shows g c /\ Info.free c = Z.of_nat (length g) /\ Forall good_info g
  end.

Lemma compare_eq_zero a b : SFeqb a b = true -> fltb a fzero = fltb b fzero.
Proof. destruct a as [[] | [] | | [] ? ?], b as [[] | [] | | [] ? ?]; done. Qed.

Lemma slot_same c g r : slot_of c g -> good_info r -> SFeqb (Info.startTime c) (Info.startTime r) = head_is r g.
Proof.
  intros Hc Hr. destruct g as [| x g]; cbn [slot_of head_is] in *.
  - destruct (SFeqb (Info.startTime c) (Info.startTime r)) eqn:E; [| done].
    apply compare_eq_zero in E. rewrite Hc, (g_start r Hr) in E. done.
  - destruct Hc as [[Hs _ _ _ _ _ _] _]. cbn in Hs. injection Hs as Hs. unfold same_start. by rewrite Hs.
Qed.

Lemma slot_empty c g : slot_of c g -> fltb (Info.startTime c) fzero = is_empty g.
Proof.
  intros Hc. destruct g as [| x g]; cbn [slot_of is_empty] in *; [done |].
  destruct Hc as ([Hs _ _ _ _ _ _] & _ & Hg). cbn in Hs. injection Hs as <-.
  inversion Hg as [| ? ? Hx _]; subst. apply Hx.
Qed.

Lemma find_slot_group p q l gs :
  Forall2 (fun c g => p c = q g) l gs -> find_slot p l = find_group q gs.
Proof.
  induction 1 as [| c g l gs E Hl IH]; [done |]. destruct Hl as [| c' g' l gs E' Hl]; [done |].
  change (find_slot p (c :: c' :: l)) with (if p c then 0%nat else S (find_slot p (c' :: l))).
  change (find_group q (g :: g' :: gs)) with (if q g then 0%nat else S (find_group q (g' :: gs))). by rewrite E, IH.
Qed.

Lemma find_group_lt q gs : gs <> [] -> (find_group q gs < length gs)%nat.
Proof.
  induction gs as [| g [| g' gs] IH]; intros H; [done | cbn; lia |].
  change (find_group q (g :: g' :: gs)) with (if q g then 0%nat else S (find_group q (g' :: gs))).
  destruct (q g); [cbn; lia |]. specialize (IH ltac:(done)). cbn [length] in *. lia.
Qed.

(** What is found when there is one. *)
Lemma find_group_holds q gs g : gs !! find_group q gs = Some g -> q g = existsb q gs.
Proof.
  induction gs as [| x [| y gs] IH]; [done | cbn; intros [= <-]; by destruct (q x) |].
  change (find_group q (x :: y :: gs)) with (if q x then 0%nat else S (find_group q (y :: gs))).
  change (existsb q (x :: y :: gs)) with (q x || existsb q (y :: gs)).
  destruct (q x) eqn:E; [by intros [= <-] |]. exact IH.
Qed.

(** The table of a group of [T] streams. *)
Record sums (T : Z) (m : MultiHeader) (gs : list group) : Prop := mkSums {
  m_threads : Multi.threads m = T;
  m_report : is_Some (Multi.report m);
  m_slots : Forall2 slot_of (Multi.data m) gs;
  m_short : Forall (fun g => Z.of_nat (length g) < T) gs;
  m_some : gs <> []
}.

Definition printed (e : event) (gf : group * bool) : Prop :=
  exists mode i, e = multistats mode i /\ shows (fst gf) i /\ Info.free i = force_char (snd gf).

Lemma sums_step T m gs r force :
  1 < T <= 127 -> sums T m gs -> good_info r ->
  exists m' out, reporter_handle_multiple_reports m r force = Ret (m', out) /\ sums T m' (fst (sum_step T gs r)) /\
    Forall2 printed out (match snd (sum_step T gs r) with Some g => [(g, force)] | None => [] end).
Proof.
  intros HT [Ht Hrep Hs Hsh0 Hne] Hr. unfold reporter_handle_multiple_reports. rewrite Ht, (proj2 (Z.ltb_lt 1 T)) by lia.
  assert (F1 : find_slot (fun t => SFeqb (Info.startTime t) (Info.startTime r)) (Multi.data m) = find_group (head_is r) gs).
  { apply find_slot_group. eapply Forall2_impl; [exact Hs |]. intros c g Hc. by apply slot_same. }
  assert (F2 : find_slot (fun t => fltb (Info.startTime t) fzero) (Multi.data m) = find_group is_empty gs).
  { apply find_slot_group. eapply Forall2_impl; [exact Hs |]. intros c g Hc. by apply slot_empty. }
  cbv zeta. rewrite F1, F2. unfold sum_step.
  destruct (lookup_lt_is_Some_2 gs _ (find_group_lt (head_is r) gs Hne)) as [g Eg].
  destruct (Forall2_lookup_r _ _ _ _ _ Hs Eg) as (c & Ec & Hc).
  pose proof (find_group_holds _ _ _ Eg) as Hex. rewrite Ec. cbn [deref]. rewrite bind_Ret, (slot_same c g r Hc Hr), Hex.
  destruct (existsb (head_is r) gs); cbn [negb].
  - rewrite (list_lookup_total_correct _ _ _ Eg). destruct g as [| x g]; [done |]. destruct Hc as (Hsh & Hf & Hg).
    assert (Hlt : Z.of_nat (length (x :: g)) < T) by (eapply (Forall_lookup_1 _ _ _ _ Hsh0); exact Eg).
    assert (El : Z.of_nat (length ((x :: g) ++ [r])) = Z.of_nat (length (x :: g)) + 1) by (rewrite length_app; cbn; lia).
    assert (Efree : Info.free (next_stream c r) = Z.of_nat (length (x :: g)) + 1).
    { cbn [next_stream Info.free]. rewrite Hf. apply wrap_s_8. lia. }
    pose proof (shows_next _ c r Hsh) as Hsh'. rewrite Efree, El.
    assert (Hne' : forall g', <[find_group (head_is r) gs:=g']> gs <> []).
    { intros g' E. apply (f_equal length) in E. rewrite length_insert in E. by destruct gs. }
    destruct (Z.eqb_spec (Z.of_nat (length (x :: g)) + 1) T) as [ET | ET].
    + destruct Hrep as [d Hd]. rewrite Hd. cbn [deref]. rewrite bind_Ret. eexists _, _. split; [done |]. split.
      * split; cbn; [done | done | | | done].
        -- apply Forall2_insert; [done |]. done.
        -- apply Forall_insert; [done |]. cbn. lia.
      * constructor; [| constructor]. eexists _, _. split; [done |]. cbn [fst snd info set_info]. split; [| done].
        destruct Hsh'. by split.
    + eexists _, _. split; [done |]. split; [| constructor].
      split; cbn; [done | done | | | done].
      * apply Forall2_insert; [done |]. cbn [slot_of app]. change (x :: g ++ [r]) with ((x :: g) ++ [r]).
        split_and!; [done | by rewrite El | by apply Forall_app; auto].
      * apply Forall_insert; [done |]. change (x :: g ++ [r]) with ((x :: g) ++ [r]). lia.
  - destruct (lookup_lt_is_Some_2 gs _ (find_group_lt is_empty gs Hne)) as [g' Eg'].
    destruct (Forall2_lookup_r _ _ _ _ _ Hs Eg') as (c' & Ec' & _). rewrite Ec'. cbn [deref]. rewrite bind_Ret.
    eexists _, _. split; [done |]. split; [| constructor]. split; cbn; [done | done | | |].
    + apply Forall2_insert; [done |]. cbn [slot_of]. split_and!; [by apply shows_first | done | by constructor].
    + apply Forall_insert; [done |]. cbn. lia.
    + intros E. apply (f_equal length) in E. rewrite length_insert in E. by destruct gs.
Qed.

Lemma sums_run T m gs rs :
  1 < T <= 127 -> sums T m gs -> Forall (fun rf => good_info (fst rf)) rs ->
  exists m' out, handle_reports m rs = Ret (m', out) /\ Forall2 printed out (sum_run T gs rs).
Proof.
  intros HT Hm Hr. revert m gs Hm. induction Hr as [| [r force] rs Hr Hrs IH]; intros m gs Hm.
  { exists m, []. by split; [| constructor]. }
  destruct (sums_step T m gs r force HT Hm Hr) as (m1 & out1 & E1 & Hm1 & Ho1).
  destruct (IH m1 _ Hm1) as (m2 & out2 & E2 & Ho2).
  exists m2, (out1 ++ out2). cbn [handle_reports sum_run]. rewrite E1, bind_Ret, E2, bind_Ret. split; [done |].
  destruct (sum_step T gs r) as [gs' [g |]]; cbn [fst snd] in *.
  - change ((g, force) :: sum_run T gs' rs) with ([(g, force)] ++ sum_run T gs' rs). by apply Forall2_app.
  - by inversion Ho1; subst.
Qed.

(** The table of [InitMulti] has no groups. *)
Lemma InitMulti_sums uninit agent inID m :
  InitMulti uninit agent inID = Ret (Some m) -> isMultipleReport (Settings.flags agent) = true -> 1 < Settings.mThreads agent ->
  sums (Settings.mThreads agent) m (replicate NUM_MULTI_SLOTS []).
Proof.
  unfold InitMulti. intros E Hf HT. rewrite Hf in E. destruct (_ || _); [| done].
  destruct (interval_time (Settings.mInterval agent)) as [iv | | |]; [| done ..]. rewrite bind_Ret in E.
  assert (Hs : Forall2 slot_of (replicate NUM_MULTI_SLOTS (init_slot inID uninit)) (replicate NUM_MULTI_SLOTS [])).
  { apply Forall2_replicate. done. }
  destruct (isConnectionReport (Settings.flags agent)); injection E as <-;
    (split; [done | eexists; reflexivity | exact Hs | repeat constructor; cbn; lia | done]).
Qed.

(** ** Streams that keep in step *)
(** A round: one report of every stream, all of the same interval. *)
Definition a_round (T : Z) (g : group) : Prop :=
  Z.of_nat (length g) = T /\ Forall good_info g /\ exists t, Forall (fun r => Info.startTime r = t) g.
Definition round_reports (gf : group * bool) : list (Transfer_Info * bool) := (fun r => (r, snd gf)) <$> fst gf.
Abbreviation no_groups := (replicate NUM_MULTI_SLOTS ([] : group)).

Lemma round_rest T t g rest force more :
  g <> [] -> Forall (fun r => Info.startTime r = t) (g ++ rest) -> SFeqb t t = true ->
  Z.of_nat (length (g ++ rest)) = T -> rest <> [] ->
  sum_run T (g :: replicate 4 []) (round_reports (rest, force) ++ more) = (g ++ rest, force) :: sum_run T no_groups more.
Proof.
  revert g. induction rest as [| r rest IH]; intros g Hg Ht Ett HT Hr; [done |].
  cbn [round_reports fst snd fmap list_fmap app sum_run]. unfold sum_step.
  assert (Hh : head_is r g = true).
  { destruct g as [| x g]; [done |]. cbn. unfold same_start. rewrite Forall_app in Ht. destruct Ht as [Hx Hr'].
    apply Forall_cons in Hx as [E1 _], Hr' as [E2 _]. by rewrite E1, E2. }
  cbn [existsb]. rewrite Hh. cbn [orb]. replace (find_group (head_is r) (g :: replicate 4 [])) with 0%nat by (cbn; by rewrite Hh).
  change ((g :: replicate 4 []) !!! 0%nat) with g.
  destruct (Z.eqb_spec (Z.of_nat (length (g ++ [r]))) T) as [E | E].
  - destruct rest as [| r' rest]; [done |]. rewrite !length_app in *. cbn in *. lia.
  - change (<[0%nat:=g ++ [r]]> (g :: replicate 4 [])) with ((g ++ [r]) :: replicate 4 ([] : group)).
    destruct rest as [| r' rest]; [by rewrite <- HT in E |].
    change ((fun x => (x, force)) <$> r' :: rest) with (round_reports (r' :: rest, force)).
    rewrite IH; [by rewrite <- app_assoc | by destruct g | by rewrite <- app_assoc | done | by rewrite <- app_assoc | done].
Qed.

Lemma round_run T gf more :
  1 < T -> a_round T (fst gf) -> sum_run T no_groups (round_reports gf ++ more) = gf :: sum_run T no_groups more.
Proof.
  destruct gf as [g force]. intros HT (Hl & Hg & t & Ht). cbn [fst] in *. destruct g as [| r g]; [cbn in Hl; lia |].
  destruct g as [| r' g]; [cbn in Hl; lia |]. cbn [round_reports fst snd fmap list_fmap app sum_run]. unfold sum_step. cbn [existsb head_is replicate NUM_MULTI_SLOTS orb].
  change (<[find_group is_empty no_groups:=[r]]> no_groups) with ([r] :: replicate 4 ([] : group)).
  apply (round_rest T t [r] (r' :: g) force more); try done.
  apply Forall_cons in Ht as [<- _], Hg as [Hr _]. apply Hr.
Qed.

Lemma rounds_run T gfs :
  1 < T -> Forall (fun gf => a_round T (fst gf)) gfs -> sum_run T no_groups (gfs ≫= round_reports) = gfs.
Proof.
  intros HT. induction 1 as [| gf gfs Hg Hgs IH]; [done |].
  change ((gf :: gfs) ≫= round_reports) with (round_reports gf ++ (gfs ≫= round_reports)). by rewrite round_run, IH.
Qed.

Lemma good_rounds T gfs :
  Forall (fun gf => a_round T (fst gf)) gfs -> Forall (fun rf => good_info (fst rf)) (gfs ≫= round_reports).
Proof.
  induction 1 as [| gf gfs (_ & Hg & _) Hgs IH]; [constructor |].
  change ((gf :: gfs) ≫= round_reports) with (round_reports gf ++ (gfs ≫= round_reports)). apply Forall_app. split; [| done].
  by apply Forall_fmap.
Qed.

(** ** More streams than a char counts *)
Lemma wrap_s_8_le z : wrap_s 8 z <= 127.
Proof. unfold wrap_s. change (2 ^ 8) with 256. change (2 ^ (8 - 1)) with 128. destruct (Z.ltb_spec (z mod 256) 128); zdiv. Qed.

Lemma many_streams_step m r force m' out :
  127 < Multi.threads m -> reporter_handle_multiple_reports m r force = Ret (m', out) ->
  out = [] /\ Multi.threads m' = Multi.threads m.
Proof.
  intros HT. unfold reporter_handle_multiple_reports. destruct (1 <? Multi.threads m); [| by intros [= <- <-]]. cbv zeta.
  intros E. apply bind_Ret_inv in E as (c & _ & E). destruct (negb _).
  - apply bind_Ret_inv in E as (c' & _ & [= <- <-]). done.
  - destruct (Z.eqb_spec (Info.free (next_stream c r)) (Multi.threads m)) as [Ef | _]; [| by injection E as <- <-].
    exfalso. cbn in Ef. pose proof (wrap_s_8_le (Info.free c + 1)). lia.
Qed.
End IperfSums.
