(* ===== verification/IperfSystem.v ===== *)
(** * iperf/src/Reporter.c: the reports and the reporter thread

    All reports of a process: the list that starts at [ReportRoot], the threads that
    transfer data, and the reporter thread ([reporter_spawn], [reporter_process_report]).
    Headers live in a heap; using one that was freed is undefined.  The threads run
    interleaved, a step is one access to shared memory as in IperfRing, or what a thread
    does while it holds the lock of [ReportCond] or of a barrier.  [InitReport] is
    followed through the barrier that the client threads of a test wait at; waiting for
    [ReportCond] is waiting for the next turn.

    A thread is named by the header of its report.  What [malloc] returns is a header
    that is not in use, what [gettimeofday] gives and who runs is not determined. *)
From S2P Require Import Prelude Doubles IperfReporter IperfRing.

Module IperfSystem.
Import Doubles IperfReporter IperfRing.

Record ReportHeader := mkHeader {
  places : ring;
  report : ReporterData;
  multireport : option Z;
  next : option Z
}.
Definition set_places v (h : ReportHeader) : ReportHeader := mkHeader v (report h) (multireport h) (next h).
Definition set_report v (h : ReportHeader) : ReportHeader := mkHeader (places h) v (multireport h) (next h).
Definition set_next v (h : ReportHeader) : ReportHeader := mkHeader (places h) (report h) (multireport h) v.

(** Where a thread is: in [InitReport], behind the allocation of its header, waiting at the
    barrier of its group ([woken] when it was signalled), or in front of linking its
    header; or where the agent of IperfRing is. *)
Inductive thread :=
| Init
| Barrier (woken : bool)
| Link
| Linked (a : agent).

(** Where the reporter is: at the top of its loop, at [again], at the entry of
    [reporter_process_report] for a header, behind the call for the next header, in the
    code for [TRANSFER_REPORT], returning [need_free], or removing the first header.
    [callers] are the headers whose calls wait for this one, the last caller first. *)
Inductive place :=
| Top
| Again
| Enter (h : Z) (callers : list Z)
| Kind (h : Z) (callers : list Z)
| Packets (q : reporter) (h : Z) (callers : list Z)
| Return (need_free : bool) (h : Z) (callers : list Z)
| Remove (h : Z).

Record state := mkState {
  headers : gmap Z ReportHeader;
  multis : gmap Z MultiHeader;
  ReportRoot : option Z;
  out : list event;
  threads : gmap Z thread;
  worker : place
}.
Definition set_headers v (s : state) : state := mkState v (multis s) (ReportRoot s) (out s) (threads s) (worker s).
Definition set_multis v (s : state) : state := mkState (headers s) v (ReportRoot s) (out s) (threads s) (worker s).
Definition set_ReportRoot v (s : state) : state := mkState (headers s) (multis s) v (out s) (threads s) (worker s).
Definition set_out v (s : state) : state := mkState (headers s) (multis s) (ReportRoot s) v (threads s) (worker s).
Definition set_threads v (s : state) : state := mkState (headers s) (multis s) (ReportRoot s) (out s) v (worker s).
Definition set_worker v (s : state) : state := mkState (headers s) (multis s) (ReportRoot s) (out s) (threads s) v.

Definition put_header (id : Z) (h : ReportHeader) (s : state) : state := set_headers (<[id := h]> (headers s)) s.
Definition put_multi (id : Z) (m : MultiHeader) (s : state) : state := set_multis (<[id := m]> (multis s)) s.
Definition put_thread (id : Z) (t : thread) (s : state) : state := set_threads (<[id := t]> (threads s)) s.
Definition print (l : list event) (s : state) : state := set_out (out s ++ l) s.

(** The group of a header. *)
Definition multi_of (h : ReportHeader) (s : state) : cres (option MultiHeader) :=
  match multireport h with
  | Some mid => m ← deref (multis s !! mid); Ret (Some m)
  | None => Ret None
  end.
Definition put_multi_of (h : ReportHeader) (m : option MultiHeader) (s : state) : state :=
  match multireport h, m with Some mid, Some m => put_multi mid m s | _, _ => s end.

(** ** InitReport, ReportSettings, ReportServerUDP *)
(** The allocation of [InitReport]; nothing when no report is wanted. *)
Definition allocate (id : Z) (agent : Settings.thread_Settings) (multihdr : option Z) (s : state) : cres state :=
  gid ← (match multihdr with
         | Some mid => m ← deref (multis s !! mid); Ret (Multi.groupID m)
         | None => Ret (-1)
         end);
  o ← init_data agent gid;
  match o with
  | None => Ret s
  | Some d =>
      let h := if isDataReport (Settings.flags agent) then mkHeader new_ring d multihdr None
               else mkHeader (mkRing 0 0 []) d None None in
      Ret (put_thread id Init (put_header id h s))
  end.

(** Adding a header to the list. *)
Definition link (id : Z) (h : ReportHeader) (s : state) : state :=
  set_ReportRoot (Some id) (put_header id (set_next (ReportRoot s) h) s).

(** The broadcast at a barrier. *)
Definition at_barrier (mid : Z) (s : state) (id : Z) : bool :=
  match headers s !! id with Some h => bool_decide (multireport h = Some mid) | None => false end.
Definition broadcast (mid : Z) (s : state) : state :=
  set_threads (map_imap (fun id t => Some (match t with
                                           | Barrier false => if at_barrier mid s id then Barrier true else t
                                           | _ => t
                                           end)) (threads s)) s.

(** [InitReport] behind the allocation: [BarrierClient] up to its wait, or the start time.
    [now] is the time of day. *)
Definition init_step (id : Z) (h : ReportHeader) (now : timeval) (s : state) : cres state :=
  let d := report h in
  match multireport h with
  | Some mid =>
      m ← deref (multis s !! mid);
      if decide (mThreadMode (settings d) = kMode_Client) then
        let m := Multi.set_threads (Multi.threads m - 1) m in
        if Multi.threads m =? 0 then
          let m := Multi.set_threads (Multi.threads m + 1) (Multi.set_startTime now m) in
          let s := broadcast mid (put_multi mid m s) in
          Ret (put_thread id Link (put_header id (set_report (set_startTime (Multi.startTime m) d) h) s))
        else Ret (put_thread id (Barrier false) (put_multi mid m s))
      else if isMultipleReport (flags (settings d)) then
        let m := Multi.set_threads (Multi.threads m + 1) m in
        r ← deref (Multi.report m);
        let r := if tv_sec (startTime r) =? 0
                 then mkData (type r) (settings r) (cnt r) (info r) (connection r) now (packetTime r) (nextTime r) (intervalTime r)
                 else r in
        Ret (put_thread id Link (put_header id (set_report (set_startTime (startTime r) d) h)
               (put_multi mid (Multi.set_report (Some r) m) s)))
      else Ret (put_thread id Link (put_header id (set_report (set_startTime now d) h) s))
  | None => Ret (put_thread id Link (put_header id (set_report (set_startTime now d) h) s))
  end.

(** [BarrierClient] behind its wait. *)
Definition barrier_step (id : Z) (h : ReportHeader) (s : state) : cres state :=
  match multireport h with
  | Some mid =>
      m ← deref (multis s !! mid);
      let m := Multi.set_threads (Multi.threads m + 1) m in
      Ret (put_thread id Link (put_header id (set_report (set_startTime (Multi.startTime m) (report h)) h) (put_multi mid m s)))
  | None => Undef
  end.

(** ** The threads *)
Definition has_agent (h : ReportHeader) : bool := negb (Z.land (type (report h)) TRANSFER_REPORT =? 0).

Definition thread_step (id : Z) (c : call) (now : timeval) (s : state) : cres state :=
  match threads s !! id with
  | None | Some (Linked Ended) => Ret s
  | Some (Barrier false) => Ret s
  | Some t =>
      h ← deref (headers s !! id);
      match t with
      | Init => init_step id h now s
      | Barrier _ => barrier_step id h s
      | Link =>
          let s := link id h s in
          Ret (if has_agent h then put_thread id (Linked Running) s else set_threads (delete id (threads s)) s)
      | Linked a =>
          '(a, r, _) ← agent_step (cntDatagrams (cnt (report h))) (info (report h)) c a (places h);
          Ret (put_thread id (Linked a) (put_header id (set_places r h) s))
      end
  end.

(** ** The reporter thread *)
Definition clear (mask ty : Z) : Z := Z.land ty (Z.lnot mask).
(** The connection of the group of a report, printed once. *)
Definition group_connection (d : ReporterData) (o : option MultiHeader) : cres (option MultiHeader * list event) :=
  match o with
  | Some m =>
      if isMultipleReport (flags (settings d)) then
        r ← deref (Multi.report m);
        if negb (Z.land (type r) CONNECTION_REPORT =? 0) then
          let (r, l) := print_connection (set_type (clear CONNECTION_REPORT (type r)) r) in
          Ret (Some (Multi.set_report (Some r) m), l)
        else Ret (o, [])
      else Ret (o, [])
  | None => Ret (None, [])
  end.

(** [reporter_process_report] in front of the test for [TRANSFER_REPORT]; it returns when
    there is something to return. *)
Definition kind_step (id : Z) (h : ReportHeader) (callers : list Z) (s : state) : cres state :=
  let d := report h in
  let has mask := negb (Z.land (type d) mask =? 0) in
  if has SETTINGS_REPORT then
    let d := set_type (clear SETTINGS_REPORT (type d)) d in
    Ret (set_worker (Return true id callers) (print (print_settings d) (put_header id (set_report d h) s)))
  else if has CONNECTION_REPORT then
    let (d, l) := print_connection (set_type (clear CONNECTION_REPORT (type d)) d) in
    let h := set_report d h in
    o ← multi_of h s;
    '(o, l') ← group_connection d o;
    let s := print (l ++ l') (put_multi_of h o (put_header id h s)) in
    Ret (set_worker (if has_agent h then Packets Test id callers else Return false id callers) s)
  else if has SERVER_RELAY_REPORT then
    let (d, l) := print_server_relay (set_type (clear SERVER_RELAY_REPORT (type d)) d) in
    Ret (set_worker (Return true id callers) (print l (put_header id (set_report d h) s)))
  else Ret (set_worker (if has_agent h then Packets Test id callers else Return false id callers) s).

(** The header in front of another one in the list. *)
Fixpoint find_previous (fuel : nat) (itr temp : Z) (s : state) : cres Z :=
  match fuel with
  | O => NoFuel
  | S fuel =>
      h ← deref (headers s !! itr);
      if decide (next h = Some temp) then Ret itr
      else n ← deref (next h); find_previous fuel n temp s
  end.

Definition remove_step (temp : Z) (s : state) : cres state :=
  h ← deref (headers s !! temp);
  s ← (if decide (ReportRoot s = Some temp) then Ret (set_ReportRoot (next h) s)
       else
         root ← deref (ReportRoot s);
         prev ← find_previous (size (headers s)) root temp s;
         hp ← deref (headers s !! prev);
         Ret (put_header prev (set_next (next h) hp) s));
  let s := set_headers (delete temp (headers s)) s in
  Ret (set_worker (match ReportRoot s with Some _ => Again | None => Top end) s).

Definition worker_step (s : state) : cres state :=
  match worker s with
  | Top => Ret (match ReportRoot s with None => s | Some _ => set_worker Again s end)
  | Again => Ret (set_worker (match ReportRoot s with None => Top | Some temp => Enter temp [] end) s)
  | Enter id callers =>
      h ← deref (headers s !! id);
      Ret (set_worker (match next h with Some n => Enter n (id :: callers) | None => Kind id callers end) s)
  | Kind id callers => h ← deref (headers s !! id); kind_step id h callers s
  | Packets q id callers =>
      match q with
      | Out b => Ret (set_worker (Return b id callers) s)
      | _ =>
          h ← deref (headers s !! id);
          o ← multi_of h s;
          '(q, r, (d, o, l), _) ← reporter_step reporter_handle q (places h) (report h, o, []);
          let h := set_report d (set_places r h) in
          Ret (set_worker (Packets q id callers) (print l (put_multi_of h o (put_header id h s))))
      end
  | Return b id callers =>
      match callers with
      | c :: callers =>
          if b then
            h ← deref (headers s !! c);
            temp ← deref (next h);
            t ← deref (headers s !! temp);
            let s := put_header c (set_next (next t) h) s in
            Ret (set_worker (Kind c callers) (set_headers (delete temp (headers s)) s))
          else Ret (set_worker (Kind c callers) s)
      | [] => Ret (set_worker (if b : bool then Remove id else Top) s)
      end
  | Remove temp => remove_step temp s
  end.

(** ** All threads *)
(** [Wake] is the wait at a barrier that ends without a signal, as POSIX allows. *)
Inductive choice :=
| New_group (mid : Z) (uninit : Transfer_Info) (agent : Settings.thread_Settings) (inID : Z)
| New_report (id : Z) (agent : Settings.thread_Settings) (multihdr : option Z)
| Report_settings (id : Z) (uninit : ReporterData) (agent : Settings.thread_Settings)
| Report_server (id : Z) (uninit : ReporterData) (agent : Settings.thread_Settings) (groupID : Z) (server : server_hdr)
| Thread (id : Z) (c : call) (now : timeval)
| Wake (id : Z)
| Worker.

(** A header that is not in use, and whose thread is gone; the name is used again. *)
Definition reuse (id : Z) (s : state) : state := set_threads (delete id (threads s)) s.
Definition fresh (id : Z) (s : state) : bool :=
  match headers s !! id, threads s !! id with
  | None, None | None, Some (Linked Ended) => true
  | _, _ => false
  end.

Definition step (ch : choice) (s : state) : cres state :=
  match ch with
  | New_group mid uninit agent inID =>
      match multis s !! mid with
      | Some _ => Ret s
      | None =>
          o ← InitMulti uninit agent inID;
          Ret (match o with Some m => put_multi mid m s | None => s end)
      end
  | New_report id agent multihdr => if fresh id s then allocate id agent multihdr (reuse id s) else Ret s
  | Report_settings id uninit agent =>
      Ret (if fresh id s && isSettingsReport (Settings.flags agent)
           then link id (mkHeader (mkRing (-1) (-1) []) (settings_data uninit agent) None None) (reuse id s) else s)
  | Report_server id uninit agent groupID server =>
      Ret (match server_data uninit agent groupID server with
           | Some d => if fresh id s then link id (mkHeader (mkRing (-1) (-1) []) d None None) (reuse id s) else s
           | None => s
           end)
  | Thread id c now => thread_step id c now s
  | Wake id => Ret (match threads s !! id with Some (Barrier false) => put_thread id (Barrier true) s | _ => s end)
  | Worker => worker_step s
  end.

Fixpoint run (l : list choice) (s : state) : cres state :=
  match l with [] => Ret s | ch :: l => s ← step ch s; run l s end.

Definition initial : state := mkState ∅ ∅ None [] ∅ Top.
End IperfSystem.
