(* ===== verification/IperfExamples.v ===== *)
(** * iperf/src/Reporter.c: concrete streams

    The settings, reports, packets and schedules that the theorems are applied to. *)
From S2P Require Import Prelude Doubles IperfReporter IperfRing IperfRingProofs IperfStats IperfSystem.

Module IperfExamples.
Import Doubles IperfReporter IperfRing IperfRingProofs IperfStats IperfSystem.

(** The settings of a thread: an interval of one second. *)
Definition a_thread (fl threads sock : Z) (mode : ThreadMode) : Settings.thread_Settings :=
  Settings.mkSettings 1 0 threads sock 8192 0 0 fl mode kReport_Default (double 1) 5001 97 1 no_connection.
Definition udp : Z := 0x800.
Definition tcp_client : Settings.thread_Settings := a_thread 0 2 3 kMode_Client.
Definition no_data : Z := 0x20000.

(** A report that begins at second 100, of a UDP server or a TCP client. *)
Definition a_report (fl : Z) (mode : ThreadMode) : ReporterData :=
  set_startTime (mkTv 100 0)
    (mkData TRANSFER_REPORT (copy_settings (a_thread fl 1 3 mode) 0) no_counts
       (new_info 3 (-1) 97 1 (mode_char mode)) no_connection no_time no_time no_time (mkTv 1 0)).
Definition udp_report : ReporterData := a_report udp kMode_Server.
Definition a_stream : stream := (udp_report, None, []).

(** Datagram [id] of 1000 bytes, sent a millisecond before it comes, [tenths] after the
    start. *)
Definition datagram (id tenths : Z) : ReportStruct :=
  let sec := 100 + tenths / 10 in let usec := 100000 * (tenths mod 10) in
  mkPacket id 1000 (mkTv sec usec) (mkTv sec (usec + 1000)).

(** ** Schedules *)
(** A call of the agent that need not wait, and the reporter for [n] steps. *)
Definition calls (c : IperfRing.call) : list IperfRing.choice := Agent c :: replicate 4 (Agent Rest).
Definition reports (n : nat) : list IperfRing.choice := replicate n Reporter.

(** Two datagrams and the end, the reporter behind. *)
Definition behind_calls : list IperfRing.choice :=
  calls (ReportPacket (datagram 1 0)) ++ calls (ReportPacket (datagram 2 1)) ++ calls (CloseReport (datagram 0 2)).
(** The end is handled before its number is read, and after it. *)
Definition reporter_first : list IperfRing.choice := behind_calls ++ reports 40 ++ [Agent Rest].
Definition reporter_last : list IperfRing.choice := behind_calls ++ [Agent Rest] ++ reports 40.

Definition run_stream (sched : list IperfRing.choice) : cres (config * list label) :=
  IperfRing.run reporter_handle stream_count stream_info sched (IperfRing.initial a_stream).
Definition config_of (sched : list IperfRing.choice) : config :=
  match run_stream sched with Ret (g, _) => g | _ => IperfRing.initial a_stream end.
Definition labels_of (sched : list IperfRing.choice) : list label :=
  match run_stream sched with Ret (_, l) => l | _ => [] end.

(** ** A process *)
(** Two clients that wait for each other, the reporter, and what each reports. *)
Definition uninit_info : Transfer_Info := Info.set_free 7 (new_info 0 0 0 0 77).
Definition now : timeval := mkTv 100 0.
Definition turn (id : Z) (c : IperfRing.call) : list choice := Thread id c now :: replicate 4 (Thread id Rest now).
Definition client (id : Z) : list choice :=
  turn id (ReportPacket (datagram 0 5)) ++ turn id (ReportPacket (datagram 0 15)) ++ turn id (CloseReport (datagram 0 20)) ++ [Thread id Rest now].
Definition two_clients : list choice :=
  [New_group 1 uninit_info tcp_client 9; New_report 3 tcp_client (Some 1); New_report 4 tcp_client (Some 1);
   Thread 3 Rest now; Thread 4 Rest now; Thread 3 Rest now; Thread 3 Rest now; Worker; Worker; Worker; Thread 4 Rest now] ++
  client 3 ++ replicate 30 Worker ++ client 4 ++ replicate 120 Worker ++ [Thread 3 IperfRing.EndReport now; Thread 4 IperfRing.EndReport now] ++
  replicate 3 (Thread 3 Rest now) ++ replicate 3 (Thread 4 Rest now).
Definition state_of (sched : list choice) : state := match IperfSystem.run sched initial with Ret s => s | _ => initial end.

Definition only_connection : list choice :=
  [New_report 5 (a_thread no_data 1 3 kMode_Client) None; Thread 5 Rest now; Thread 5 Rest now].
End IperfExamples.
