(* ===== verification/IperfSystemProofs.v ===== *)
(** * iperf/src/Reporter.c: the invariant of the threads

    The list at [ReportRoot] is a list of headers in use, each of them is owned by the
    thread that fills it and by the reporter, and the ring of each keeps the invariant of
    IperfRingProofs, whatever the other threads do. *)
From S2P Require Import Prelude Doubles IperfReporter IperfRing IperfRingProofs IperfStats IperfSystem.

Module IperfSystemProofs.
Import Doubles IperfReporter IperfRing IperfRingProofs IperfStats IperfSystem.

(** ** What handling a packet leaves alone *)
(** Of the data of a report, and of a group. *)
Definition same_kind (d d' : ReporterData) : Prop := settings d' = settings d /\ type d' = type d.
Record keeps (m m' : MultiHeader) : Prop := mkKeeps {
  k_length : length (Multi.data m') = length (Multi.data m);
  k_some : is_Some (Multi.report m) -> is_Some (Multi.report m');
  k_start : forall r', Multi.report m' = Some r' -> exists r, Multi.report m = Some r /\ startTime r' = startTime r;
  k_time : Multi.startTime m' = Multi.startTime m
}.
Definition okeeps (o o' : option MultiHeader) : Prop :=
  match o, o' with Some m, Some m' => keeps m m' | None, None => True | _, _ => False end.

Lemma group_keeps_refl m : keeps m m.
Proof. split; eauto. Qed.
Lemma group_keeps_trans a b c : keeps a b -> keeps b c -> keeps a c.
Proof.
  intros [L1 S1 R1 T1] [L2 S2 R2 T2]. split; [congruence | auto | | congruence].
  intros r Hr. destruct (R2 r Hr) as (r2 & Hr2 & E2). destruct (R1 r2 Hr2) as (r1 & Hr1 & E1). exists r1. split; [done | congruence].
Qed.
Lemma okeeps_refl o : okeeps o o.
Proof. destruct o; [apply group_keeps_refl | done]. Qed.
Lemma okeeps_trans a b c : okeeps a b -> okeeps b c -> okeeps a c.
Proof. intros H1 H2. destruct a as [a |], b as [b |], c as [c |]; cbn in *; try contradiction; [by eapply group_keeps_trans | done]. Qed.

Lemma sum_report_keeps d o force o' out : sum_report d o force = Ret (o', out) -> okeeps o o'.
Proof.
  unfold sum_report. destruct o as [m |]; [| intros [= <- _]; done].
  destruct (isMultipleReport _); [| intros [= <- _]; apply group_keeps_refl].
  unfold reporter_handle_multiple_reports. destruct (1 <? Multi.threads m); [| intros [= <- _]; apply group_keeps_refl].
  cbv zeta. intros E. apply bind_Ret_inv in E as ([m' l] & E & E'). injection E' as <- _.
  apply bind_Ret_inv in E as (c & _ & E). destruct (negb _).
  - apply bind_Ret_inv in E as (c' & _ & E). injection E as <- _.
    split; cbn; [apply length_insert | done | eauto | done].
  - destruct (_ =? Multi.threads m).
    + apply bind_Ret_inv in E as (r & Er & E). injection E as <- _. destruct (Multi.report m) as [r' |] eqn:Er'; [| done].
      injection Er as ->. split; cbn; [apply length_insert | eauto | | done]. intros r' [= <-]. by exists r.
    + injection E as <- _. split; cbn; [apply length_insert | done | eauto | done].
Qed.

Lemma interval_loop_keeps fuel d o d' o' out :
  interval_loop fuel d o = Ret (d', o', out) -> okeeps o o' /\ same_kind d d'.
Proof.
  revert d o out. induction fuel as [| fuel IH]; intros d o out; [done |]. cbn [interval_loop].
  destruct (interval_over d); [| intros [= <- <- _]; by split; [apply okeeps_refl |]].
  intros E. apply bind_Ret_inv in E as ([[d1 o1] out1] & E1 & E). apply bind_Ret_inv in E as ([[d2 o2] out2] & E2 & E).
  injection E as <- <- _. unfold report_interval in E1. cbv zeta in E1. apply bind_Ret_inv in E1 as ([o3 out3] & E1 & E).
  injection E as <- <- _. apply sum_report_keeps in E1. destruct (IH _ _ _ E2) as [H1 H2].
  split; [by eapply okeeps_trans | exact H2].
Qed.

Lemma condprintstats_keeps d o force d' o' out :
  reporter_condprintstats d o force = Ret (d', o', out) -> okeeps o o' /\ same_kind d d'.
Proof.
  unfold reporter_condprintstats. destruct force; [| apply interval_loop_keeps]. unfold report_final. cbv zeta. intros E.
  apply bind_Ret_inv in E as ([o1 out1] & E1 & E). injection E as <- <- _. by apply sum_report_keeps in E1.
Qed.

Lemma reporter_handle_keeps p d o l fin d' o' l' :
  reporter_handle p (d, o, l) = Ret (fin, (d', o', l')) -> okeeps o o' /\ same_kind d d'.
Proof.
  unfold reporter_handle. intros E. apply bind_Ret_inv in E as ([[[fin1 d1] o1] l1] & E & E'). injection E' as _ <- <- _.
  revert E. unfold reporter_handle_packet. cbv zeta. destruct (packetID p <? 0).
  - intros E. apply bind_Ret_inv in E as ([[d2 o2] l2] & E & E'). injection E' as _ <- <- _.
    apply condprintstats_keeps in E as [H1 H2]. split; [done |]. by destruct (decide _).
  - intros E. apply bind_Ret_inv in E as ([[d2 o2] l2] & E2 & E). apply bind_Ret_inv in E as ([[d3 o3] l3] & E3 & E).
    injection E as _ <- <- _. apply condprintstats_keeps in E2 as [H1 H2], E3 as [H3 H4].
    split; [by eapply okeeps_trans |]. unfold same_kind in *. destruct H2 as [A1 A2], H4 as [B1 B2].
    rewrite B1, B2. by destruct (packetID p =? 0).
Qed.

(** ** The list *)
Fixpoint is_chain (hs : gmap Z ReportHeader) (r : option Z) (l : list Z) : Prop :=
  match l with
  | [] => r = None
  | x :: l => r = Some x /\ exists h, hs !! x = Some h /\ is_chain hs (next h) l
  end.

Lemma is_chain_ext hs hs' r l :
  (forall x, x ∈ l -> next <$> hs' !! x = next <$> hs !! x) -> is_chain hs r l -> is_chain hs' r l.
Proof.
  revert r. induction l as [| x l IH]; intros r He; [done |]. intros (-> & h & Hh & Hl). split; [done |].
  pose proof (He x (list_elem_of_here _ _)) as E. rewrite Hh in E. destruct (hs' !! x) as [h' |]; [| done].
  injection E as E. exists h'. split; [done |]. rewrite E. apply IH; [| done]. intros y Hy. apply He. by right.
Qed.

Lemma is_chain_app hs r l1 x l2 :
  is_chain hs r (l1 ++ x :: l2) -> exists h, hs !! x = Some h /\ is_chain hs (next h) l2.
Proof.
  revert r. induction l1 as [| y l1 IH]; intros r; cbn; [by intros (_ & h & ? & ?); exists h |].
  intros (_ & h & _ & Hl). by eapply IH.
Qed.

(** Taking a header out of the list, behind another one or at its head. *)
Lemma is_chain_unlink hs r l1 c x l2 hc hx :
  is_chain hs r (l1 ++ c :: x :: l2) -> NoDup (l1 ++ c :: x :: l2) -> hs !! c = Some hc -> hs !! x = Some hx ->
  is_chain (delete x (<[c := set_next (next hx) hc]> hs)) r (l1 ++ c :: l2).
Proof.
  intros Hl Hn Hc Hx. apply NoDup_app in Hn as (N1 & N2 & N3). apply NoDup_cons in N3 as [N3 N4]. apply NoDup_cons in N4 as [N4 N5].
  assert (Hcx : c <> x) by (intros ->; apply N3; by left).
  revert r Hl. induction l1 as [| y l1 IH]; intros r.
  - intros (-> & hc' & Hc' & Hl). rewrite Hc in Hc'. injection Hc' as <-. destruct Hl as (Ex & hx' & Hx' & Hl).
    rewrite Hx in Hx'. injection Hx' as <-. split; [done |]. exists (set_next (next hx) hc).
    rewrite lookup_delete_ne by done. rewrite lookup_insert_eq. split; [done |].
    eapply is_chain_ext; [| exact Hl]. intros z Hz. rewrite lookup_delete_ne by (by intros ->).
    rewrite lookup_insert_ne; [done |]. intros ->. apply N3. by right.
  - intros (-> & h & Hh & Hl). split; [done |]. exists h. apply NoDup_cons in N1 as [N0 N1].
    assert (Hy : forall z, z ∈ c :: x :: l2 -> y <> z) by (intros z Hz ->; by apply (N2 z (list_elem_of_here _ _))).
    rewrite lookup_delete_ne by (apply not_eq_sym, Hy; right; left).
    rewrite lookup_insert_ne by (apply not_eq_sym, Hy; left). split; [done |].
    apply IH; [done | | done]. intros z Hz. apply N2. by right.
Qed.

(** ** One ring *)
(** The ring of a header keeps its invariant for some packets. *)
Abbreviation ring_inv := (inv (D := stream) reporter_handle).
Definition ring_ok (a : agent) (q : reporter) (r : ring) : Prop :=
  exists P m d, ring_inv (mkConfig a q r d) P m.

(** The data in the invariant are any that are good. *)
Lemma inv_stats a q r d d' P m : ring_inv (mkConfig a q r d) P m -> stream_ok d' -> ring_inv (mkConfig a q r d') P m.
Proof. by intros [] Hd; split. Qed.

Lemma ring_initial : ring_ok Running Test new_ring.
Proof.
  set (d := mkData 0 no_settings no_counts (new_info 0 0 0 0 0) no_connection no_time no_time no_time no_time).
  exists [], 0%nat, ((d, None, []) : stream). apply (ring_inv_initial reporter_handle). cbn. unfold report_ok, sum_time, valid_time. cbn. lia.
Qed.

Lemma ring_agent k i c a q r :
  ring_ok a q r -> good_call reporter_handle c ->
  exists a' r' l, agent_step k i c a r = Ret (a', r', l) /\ ring_ok a' q r'.
Proof.
  intros (P & m & d & HI) Hc.
  destruct (inv_agent reporter_handle (fun _ => k) (fun _ => i) (mkConfig a q r d) P m c HI Hc) as (a' & r' & l & E & HI' & _).
  exists a', r', l. split; [exact E |]. by eexists _, _, _.
Qed.

Lemma ring_reporter a q r s :
  ring_ok a q r -> stream_ok s ->
  exists q' r' s' l, reporter_step reporter_handle q r s = Ret (q', r', s', l) /\ ring_ok a q' r' /\ stream_ok s' /\
    (s' = s \/ exists p fin, reporter_handle p s = Ret (fin, s')).
Proof.
  intros (P & m & d & HI) Hs. apply (inv_stats _ _ _ _ s) in HI; [| done].
  destruct (inv_reporter reporter_handle stream_count stream_info (mkConfig a q r s) P m HI) as (q' & r' & s' & l & E & _ & HI' & Hh).
  exists q', r', s', l. split; [exact E |]. split; [by eexists _, _, _ |]. split; [exact (i_stats _ _ _ _ HI') |].
  destruct Hh as [[_ ->] | (p & fin & _ & _ & Eh)]; [by left | right]. by exists p, fin.
Qed.

Lemma ring_again a r : ring_ok a (Out false) r -> ring_ok a Test r.
Proof. intros (P & m & d & HI). apply (inv_again reporter_handle) in HI; [| done]. by eexists _, _, _. Qed.

(** The reporter frees what the agent has left. *)
Lemma ring_free a r : ring_ok a (Out true) r -> a = Ended.
Proof.
  intros (P & m & d & HI). pose proof (p_reporter _ _ _ _ _ _ (i_positions _ _ _ _ HI)) as W. by apply W.
Qed.

(** ** The invariant *)
(** A group that sums has its slots and its report, its times are times of the clock. *)
Definition full (m : MultiHeader) : Prop := length (Multi.data m) = NUM_MULTI_SLOTS /\ is_Some (Multi.report m).
Definition group_ok (m : MultiHeader) : Prop :=
  valid_time (Multi.startTime m) /\ forall r, Multi.report m = Some r -> valid_time (startTime r).

Lemma keeps_full m m' : keeps m m' -> full m -> full m'.
Proof. intros [L S _ _] [Hl Hr]. split; [by rewrite L | by apply S]. Qed.
Lemma keeps_group m m' : keeps m m' -> group_ok m -> group_ok m'.
Proof.
  intros [_ _ R T] [Ht Hr]. split; [by rewrite T |]. intros r' Er. destruct (R r' Er) as (r & Hr0 & E). rewrite E. by apply Hr.
Qed.

(** The groups that exist stay, and stay full. *)
Definition grows (ms ms' : gmap Z MultiHeader) : Prop :=
  forall mid m, ms !! mid = Some m -> exists m', ms' !! mid = Some m' /\ (full m -> full m').
Lemma grows_refl ms : grows ms ms.
Proof. intros mid m Hm. by exists m. Qed.
Lemma grows_insert ms mid m m' : ms !! mid = Some m -> (full m -> full m') -> grows ms (<[mid := m']> ms).
Proof.
  intros Hm Hf i x Hi. destruct (decide (i = mid)) as [-> | Hne].
  - exists m'. rewrite lookup_insert_eq. replace x with m by congruence. done.
  - exists x. by rewrite lookup_insert_ne.
Qed.

(** The group of a header. *)
Definition grouped (ms : gmap Z MultiHeader) (h : ReportHeader) : Prop :=
  forall mid, multireport h = Some mid ->
    exists m, ms !! mid = Some m /\ (isMultipleReport (flags (settings (report h))) = true -> full m).
Lemma grouped_grows ms ms' h : grows ms ms' -> grouped ms h -> grouped ms' h.
Proof.
  intros Hg Hh mid E. destruct (Hh mid E) as (m & Hm & Hf). destruct (Hg mid m Hm) as (m' & Hm' & Hf').
  exists m'. split; [done |]. auto.
Qed.

(** The kinds of reports: with an agent, and without. *)
Definition agent_kind (h : ReportHeader) : Prop := type (report h) = 1 \/ type (report h) = 9.
Definition other_kind (h : ReportHeader) : Prop :=
  type (report h) = 0 \/ type (report h) = 2 \/ type (report h) = 4 \/ type (report h) = 8.

Lemma has_agent_kind h : agent_kind h -> has_agent h = true.
Proof. unfold has_agent. by intros [-> | ->]. Qed.
Lemma has_no_agent_kind h : other_kind h -> has_agent h = false.
Proof. unfold has_agent. by intros [-> | [-> | [-> | ->]]]. Qed.

(** A header that is not in the list yet. *)
Definition unlinked_ok (h : ReportHeader) : Prop :=
  (agent_kind h /\ places h = new_ring \/ type (report h) = 8) /\ valid_time (intervalTime (report h)).

(** One name: its header, its thread, whether it is in the list, where the reporter is in
    its ring. *)
Definition id_ok (ms : gmap Z MultiHeader) (oh : option ReportHeader) (ot : option thread) (linked : bool) (q : reporter) : Prop :=
  match oh, ot with
  | None, None | None, Some (Linked Ended) => linked = false
  | None, Some _ => False
  | Some h, None => linked = true /\ grouped ms h /\ other_kind h
  | Some h, Some (Linked a) => linked = true /\ grouped ms h /\ agent_kind h /\ report_ok (report h) /\ ring_ok a q (places h)
  | Some h, Some Init => linked = false /\ grouped ms h /\ unlinked_ok h
  | Some h, Some (Barrier _) => linked = false /\ grouped ms h /\ unlinked_ok h /\ is_Some (multireport h)
  | Some h, Some Link => linked = false /\ grouped ms h /\ unlinked_ok h /\ report_ok (report h)
  end.

Lemma id_ok_grows ms ms' oh ot linked q : grows ms ms' -> id_ok ms oh ot linked q -> id_ok ms' oh ot linked q.
Proof.
  intros Hg. pose proof (fun h => grouped_grows ms ms' h Hg) as H. destruct oh as [h |], ot as [[| | | []] |]; cbn; try done;
    intros; destruct_and?; split_and?; auto.
Qed.

(** Where the reporter is in the ring of a header. *)
Definition position (w : place) (id : Z) : reporter :=
  match w with
  | Packets q h _ => if decide (h = id) then q else Test
  | Return b h _ => if decide (h = id) then Out b else Test
  | Remove h => if decide (h = id) then Out true else Test
  | _ => Test
  end.

(** The header is in the list, behind those that wait for it. *)
Definition behind (chain : list Z) (h : Z) (callers : list Z) : Prop :=
  exists front back, chain = front ++ rev callers ++ h :: back.
(** What is freed has no agent, or an agent that has ended. *)
Definition left_alone (s : state) (h : Z) : Prop := threads s !! h = None \/ threads s !! h = Some (Linked Ended).

Definition worker_ok (s : state) (chain : list Z) : Prop :=
  match worker s with
  | Top | Again => True
  | Enter h callers | Kind h callers => behind chain h callers
  | Packets _ h callers => behind chain h callers /\ exists a, threads s !! h = Some (Linked a)
  | Return b h callers => behind chain h callers /\ (b = true -> left_alone s h)
  | Remove h => behind chain h [] /\ left_alone s h
  end.

Record sys_ok (s : state) (chain : list Z) : Prop := mkSys {
  ok_chain : is_chain (headers s) (ReportRoot s) chain;
  ok_nodup : NoDup chain;
  ok_ids id : id_ok (multis s) (headers s !! id) (threads s !! id) (bool_decide (id ∈ chain)) (position (worker s) id);
  ok_groups mid m : multis s !! mid = Some m -> group_ok m;
  ok_worker : worker_ok s chain
}.

Lemma sys_initial : sys_ok initial [].
Proof. split; try done. apply NoDup_nil_2. Qed.
End IperfSystemProofs.
