(* ===== verification/IperfSystemInv.v ===== *)
(** * iperf/src/Reporter.c: the steps keep the invariant

    Every step of a thread and of the reporter, from a state with the invariant of
    IperfSystemProofs, returns and keeps it. *)
From S2P Require Import Prelude Doubles IperfReporter IperfRing IperfRingProofs IperfStats IperfSystem IperfSystemProofs.

Module IperfSystemInv.
Import Doubles IperfReporter IperfRing IperfRingProofs IperfStats IperfSystem IperfSystemProofs.

(** ** Frames *)
(** A step that changes one header, in place. *)
Lemma sys_frame s s' chain id :
  sys_ok s chain ->
  (forall i, i <> id -> headers s' !! i = headers s !! i /\ threads s' !! i = threads s !! i /\
     position (worker s') i = position (worker s) i) ->
  (id ∈ chain -> next <$> headers s' !! id = next <$> headers s !! id) -> ReportRoot s' = ReportRoot s ->
  grows (multis s) (multis s') -> (forall mid m, multis s' !! mid = Some m -> group_ok m) ->
  id_ok (multis s') (headers s' !! id) (threads s' !! id) (bool_decide (id ∈ chain)) (position (worker s') id) ->
  worker_ok s' chain -> sys_ok s' chain.
Proof.
  intros [Hc Hn Hi _ _] Hf He Hr Hg Hgs Hid Hw. split; try done.
  - rewrite Hr. eapply is_chain_ext; [| exact Hc]. intros x Hx. destruct (decide (x = id)) as [-> | Hne]; [by apply He |].
    by destruct (Hf x Hne) as [-> _].
  - intros i. destruct (decide (i = id)) as [-> | Hne]; [done |]. destruct (Hf i Hne) as (-> & -> & ->).
    eapply id_ok_grows; [exact Hg | apply Hi].
Qed.

(** What the reporter is at is in the list. *)
Lemma behind_in chain h callers : behind chain h callers -> h ∈ chain.
Proof. intros (front & back & ->). set_solver. Qed.
Lemma position_out s chain id : worker_ok s chain -> id ∉ chain -> position (worker s) id = Test.
Proof.
  unfold worker_ok, position. destruct (worker s); try done; intros [Hb%behind_in _] Hn; rewrite decide_False; (done || by intros ->).
Qed.

(** A step that leaves the reporter and the threads that have ended where they are. *)
Lemma worker_ok_thread s s' chain id :
  worker_ok s chain -> worker s' = worker s -> (forall i, i <> id -> threads s' !! i = threads s !! i) ->
  (id ∈ chain -> ~ left_alone s id /\
     forall a, threads s !! id = Some (Linked a) -> exists a', threads s' !! id = Some (Linked a')) -> worker_ok s' chain.
Proof.
  unfold worker_ok. intros Hw -> Ht Hl. destruct (worker s) as [| | | | q h callers | b h callers | h]; try done.
  - destruct Hw as [Hb [a Hh]]. split; [done |]. destruct (decide (h = id)) as [-> | Hne]; [| exists a; by rewrite Ht].
    by eapply Hl; [eapply behind_in |].
  - destruct Hw as [Hb Hh]. split; [done |]. intros Eb. specialize (Hh Eb). unfold left_alone. rewrite Ht; [done |].
    intros ->. by apply (Hl (behind_in _ _ _ Hb)).
  - destruct Hw as [Hb Hh]. split; [done |]. unfold left_alone. rewrite Ht; [done |].
    intros ->. by apply (Hl (behind_in _ _ _ Hb)).
Qed.

(** Only what is printed. *)
Lemma sys_print s chain l : sys_ok s chain -> sys_ok (print l s) chain.
Proof. by intros []; split. Qed.

(** The name of a header that is gone is used again. *)
Lemma fresh_gone id s : fresh id s = true -> headers s !! id = None /\ left_alone s id.
Proof.
  unfold fresh, left_alone. destruct (headers s !! id); [done |]. destruct (threads s !! id) as [[| | | []] |]; auto; done.
Qed.
Lemma fresh_out s chain id : sys_ok s chain -> fresh id s = true -> id ∉ chain.
Proof.
  intros [_ _ Hi _ _] Hf. destruct (fresh_gone id s Hf) as [E Hl]. specialize (Hi id). rewrite E in Hi.
  destruct Hl as [Hl | Hl]; rewrite Hl in Hi; cbn in Hi; by apply bool_decide_eq_false in Hi.
Qed.

(** A header is added to the list. *)
Lemma sys_link s s' chain id h :
  sys_ok s chain -> id ∉ chain -> headers s' = <[id := h]> (headers s) -> next h = ReportRoot s -> ReportRoot s' = Some id ->
  (forall i, i <> id -> threads s' !! i = threads s !! i) -> multis s' = multis s -> worker s' = worker s ->
  id_ok (multis s) (Some h) (threads s' !! id) true Test -> sys_ok s' (id :: chain).
Proof.
  intros [Hc Hn Hi Hg Hw] Hid Eh En Er Et Em Ew Hok. pose proof (position_out s chain id Hw Hid) as Hp. split.
  - rewrite Er. split; [done |]. exists h. rewrite Eh, lookup_insert_eq. split; [done |]. rewrite En.
    eapply is_chain_ext; [| exact Hc]. intros x Hx. rewrite lookup_insert_ne; [done |]. by intros ->.
  - by apply NoDup_cons.
  - intros i. rewrite Em, Ew, Eh. destruct (decide (i = id)) as [-> | Hne].
    + rewrite lookup_insert_eq, Hp, bool_decide_eq_true_2 by left. done.
    + rewrite lookup_insert_ne, Et by done. replace (bool_decide (i ∈ id :: chain)) with (bool_decide (i ∈ chain)); [apply Hi |].
      apply bool_decide_ext. rewrite elem_of_cons. intuition.
  - by rewrite Em.
  - assert (Hb : forall h callers, behind chain h callers -> behind (id :: chain) h callers).
    { intros x callers (front & back & ->). by exists (id :: front), back. }
    assert (Hw' : worker_ok s' chain).
    { by eapply (worker_ok_thread s s' chain id). }
    unfold worker_ok in *. destruct (worker s'); intuition.
Qed.

(** ** Groups *)
Lemma groups_insert s chain mid m : sys_ok s chain -> group_ok m ->
  forall mid' m', <[mid := m]> (multis s) !! mid' = Some m' -> group_ok m'.
Proof.
  intros Hs Hm mid' m' E. apply lookup_insert_Some in E as [[_ <-] | [_ E]]; [done |]. by eapply ok_groups.
Qed.

Lemma sys_multi s chain mid m m' :
  sys_ok s chain -> multis s !! mid = Some m -> (full m -> full m') -> group_ok m' -> sys_ok (put_multi mid m' s) chain.
Proof.
  intros Hs Hm Hf Hg. assert (Hgr := grows_insert (multis s) mid m m' Hm Hf).
  pose proof (groups_insert s chain mid m' Hs Hg) as Hgs. destruct Hs as [Hc Hn Hi _ Hw].
  split; try done. intros id. eapply id_ok_grows; [exact Hgr | apply Hi].
Qed.

(** The broadcast wakes threads that wait. *)
Lemma broadcast_lookup mid s id :
  threads (broadcast mid s) !! id = threads s !! id \/
  (threads s !! id = Some (Barrier false) /\ threads (broadcast mid s) !! id = Some (Barrier true)).
Proof.
  cbn [broadcast set_threads threads]. rewrite map_lookup_imap. destruct (threads s !! id) as [[| [] | | a] |]; cbn; auto.
  destruct (at_barrier mid s id); auto.
Qed.
Lemma broadcast_other mid s id t :
  threads s !! id = Some t -> t <> Barrier false -> threads (broadcast mid s) !! id = Some t.
Proof. intros E Ht. destruct (broadcast_lookup mid s id) as [-> | [E' _]]; [done | congruence]. Qed.

Lemma sys_broadcast s chain mid : sys_ok s chain -> sys_ok (broadcast mid s) chain.
Proof.
  intros [Hc Hn Hi Hg Hw]. split; try done.
  - intros id. specialize (Hi id). cbn [broadcast set_threads headers multis worker].
    destruct (broadcast_lookup mid s id) as [E | [E E']]; [by rewrite <- E in Hi |].
    rewrite E in Hi. unfold broadcast in E'. cbn in E'. cbn [broadcast set_threads threads]. rewrite E'. done.
  - assert (Hl : forall h, left_alone s h -> left_alone (broadcast mid s) h).
    { unfold left_alone. intros h [E | E]; destruct (broadcast_lookup mid s h) as [-> | [E' _]]; (congruence || auto). }
    unfold worker_ok in *. cbn [broadcast set_threads worker]. destruct (worker s); try done; destruct Hw as [Hb Hh]; split; auto.
    destruct Hh as [a Ha]. exists a. by apply broadcast_other.
Qed.

(** ** The threads *)
Lemma valid_start t d : valid_time t -> valid_time (intervalTime d) -> report_ok (set_startTime t d).
Proof.
  intros Ht Hi. split; [| done]. apply TimeAdd_sum; [| by apply valid_sum | done]. unfold valid_time in Ht. lia.
Qed.

(** A thread that has not linked its header moves on, and writes its header. *)
Lemma sys_unlinked s chain id h h' t t' :
  sys_ok s chain -> headers s !! id = Some h -> threads s !! id = Some t -> id ∉ chain ->
  id_ok (multis s) (Some h') (Some t') false Test -> sys_ok (put_thread id t' (put_header id h' s)) chain.
Proof.
  intros Hs Hh Ht Hid Hok. pose proof (position_out s chain id (ok_worker _ _ Hs) Hid) as Hp.
  apply (sys_frame s _ chain id Hs); try done; cbn.
  - intros i Hne. by rewrite !lookup_insert_ne by done.
  - apply grows_refl.
  - intros mid m. by eapply ok_groups.
  - by rewrite !lookup_insert_eq, Hp, bool_decide_eq_false_2.
  - eapply worker_ok_thread; [by apply Hs | done | | done]. intros i Hne. cbn. by rewrite lookup_insert_ne.
Qed.

Lemma agent_not_8 h : agent_kind h -> type (report h) = 8 -> False.
Proof. unfold agent_kind. lia. Qed.

Lemma unlinked_report h v :
  unlinked_ok h -> type v = type (report h) -> intervalTime v = intervalTime (report h) -> unlinked_ok (set_report v h).
Proof. unfold unlinked_ok, agent_kind. cbn. by intros H -> ->. Qed.

Lemma grouped_report ms h v :
  grouped ms h -> settings v = settings (report h) -> grouped ms (set_report v h).
Proof. unfold grouped. cbn. by intros H ->. Qed.

Lemma set_threads_full v m : full m -> full (Multi.set_threads v m).
Proof. done. Qed.

Lemma put_header_same id h s : headers s !! id = Some h -> put_header id h s = s.
Proof. intros E. destruct s. unfold put_header, set_headers. cbn in *. by rewrite insert_id. Qed.

(** [InitReport] behind the allocation. *)
Lemma sys_started s chain id h t now :
  sys_ok s chain -> headers s !! id = Some h -> threads s !! id = Some t -> id ∉ chain -> valid_time now ->
  grouped (multis s) h -> unlinked_ok h ->
  sys_ok (put_thread id Link (put_header id (set_report (set_startTime now (report h)) h) s)) chain.
Proof.
  intros Hs Hh Ht Hid Hnow Hg Hu. eapply sys_unlinked; [done.. |]. split_and!; [done | by apply grouped_report | by apply unlinked_report |].
  apply valid_start; [done | apply Hu].
Qed.

Lemma sys_init s chain id h now :
  sys_ok s chain -> headers s !! id = Some h -> threads s !! id = Some Init -> valid_time now ->
  exists s', init_step id h now s = Ret s' /\ sys_ok s' chain.
Proof.
  intros Hs Hh Ht Hnow. pose proof (ok_ids _ _ Hs id) as Hi. rewrite Hh, Ht in Hi. destruct Hi as (Hid & Hg & Hu).
  apply bool_decide_eq_false in Hid. unfold init_step. cbv zeta.
  destruct (multireport h) as [mid |] eqn:Emid; [| eexists; split; [done | by eapply sys_started]].
  destruct (Hg mid Emid) as (m & Hm & Hfull). rewrite Hm. cbn [deref]. rewrite bind_Ret.
  destruct (ok_groups _ _ Hs _ _ Hm) as [Hmt Hmr]. destruct (decide _).
  - destruct (_ =? 0).
    + eexists. split; [done |].
      set (m' := Multi.set_threads (Multi.threads m - 1 + 1) (Multi.set_startTime now (Multi.set_threads (Multi.threads m - 1) m))).
      pose proof (sys_broadcast _ _ mid (sys_multi s chain mid m m' Hs Hm (fun H => H) (conj Hnow Hmr))) as Hs'.
      eapply (sys_started _ chain id h Init now Hs'); try done; [by apply broadcast_other | cbn].
      eapply grouped_grows; [| exact Hg]. by eapply grows_insert.
    + eexists. split; [done |].
      set (m' := Multi.set_threads (Multi.threads m - 1) m).
      pose proof (sys_multi s chain mid m m' Hs Hm (fun H => H) (conj Hmt Hmr)) as Hs'.
      assert (Hg' : grouped (multis (put_multi mid m' s)) h) by (eapply grouped_grows; [| exact Hg]; by eapply grows_insert).
      rewrite <- (put_header_same id h (put_multi mid m' s)) by done. eapply sys_unlinked; [done.. |]. by split_and!.
  - destruct (isMultipleReport _) eqn:Ef; [| eexists; split; [done | by eapply sys_started]].
    destruct (Hfull eq_refl) as [Hl [r Hr]]. cbn [Multi.report Multi.set_threads]. rewrite Hr. cbn [deref]. rewrite bind_Ret.
    eexists. split; [done |].
    set (r' := if tv_sec (startTime r) =? 0 then _ else r).
    set (m' := Multi.set_report (Some r') (Multi.set_threads (Multi.threads m + 1) m)).
    assert (Hr' : valid_time (startTime r')) by (unfold r'; destruct (_ =? 0); [done | by apply Hmr]).
    assert (Hf' : full m -> full m') by (intros [? ?]; split; [done | by eexists]).
    assert (Hg' : group_ok m') by (split; [done | by intros ? [= <-]]).
    pose proof (sys_multi s chain mid m m' Hs Hm Hf' Hg') as Hs'.
    eapply (sys_started _ chain id h Init _ Hs'); try done. eapply grouped_grows; [| exact Hg]. by eapply grows_insert.
Qed.

(** [BarrierClient] behind its wait. *)
Lemma sys_barrier s chain id h b :
  sys_ok s chain -> headers s !! id = Some h -> threads s !! id = Some (Barrier b) ->
  exists s', barrier_step id h s = Ret s' /\ sys_ok s' chain.
Proof.
  intros Hs Hh Ht. pose proof (ok_ids _ _ Hs id) as Hi. rewrite Hh, Ht in Hi. destruct Hi as (Hid & Hg & Hu & [mid Emid]).
  apply bool_decide_eq_false in Hid. unfold barrier_step. rewrite Emid.
  destruct (Hg mid Emid) as (m & Hm & Hfull). rewrite Hm. cbn [deref]. rewrite bind_Ret.
  destruct (ok_groups _ _ Hs _ _ Hm) as [Hmt Hmr]. eexists. split; [done |]. cbv zeta.
  set (m' := Multi.set_threads (Multi.threads m + 1) m).
  pose proof (sys_multi s chain mid m m' Hs Hm (fun H => H) (conj Hmt Hmr)) as Hs'.
  eapply (sys_started _ chain id h _ _ Hs'); try done. eapply grouped_grows; [| exact Hg]. by eapply grows_insert.
Qed.

Lemma sys_thread s chain id c now :
  sys_ok s chain -> good_call reporter_handle c -> valid_time now ->
  exists s' chain', thread_step id c now s = Ret s' /\ sys_ok s' chain'.
Proof.
  intros Hs Hc Hnow. unfold thread_step. pose proof (ok_ids _ _ Hs id) as Hi.
  destruct (threads s !! id) as [t |] eqn:Ht; [| by exists s, chain].
  assert (Hh : t = Linked Ended \/ exists h, headers s !! id = Some h).
  { destruct (headers s !! id); [eauto |]. left. by destruct t as [| | | []]. }
  destruct Hh as [-> | [h Hh]]; [by exists s, chain |]. rewrite Hh in *. cbn [deref]. rewrite bind_Ret.
  destruct t as [| [] | | a].
  - destruct (sys_init s chain id h now) as (s' & E & H'); try done. by exists s', chain.
  - destruct (sys_barrier s chain id h true) as (s' & E & H'); try done. by exists s', chain.
  - by exists s, chain.
  - destruct Hi as (Hid & Hg & Hu & Hr). apply bool_decide_eq_false in Hid. cbv zeta.
    eexists _, (id :: chain). split; [done |]. destruct (has_agent h) eqn:Ea.
    + eapply sys_link; [done.. | | | | | |]; try done; [intros; cbn; by rewrite lookup_insert_ne |]. cbn. rewrite lookup_insert_eq.
      destruct Hu as [[[Hk Hp] | H8] Hu]; [| unfold has_agent in Ea; by rewrite H8 in Ea].
      split_and!; try done. cbn. rewrite Hp. apply ring_initial.
    + eapply sys_link; [done.. | | | | | |]; try done; [intros; cbn; by rewrite lookup_delete_ne |]. cbn. rewrite lookup_delete_eq.
      destruct Hu as [[[Hk _] | H8] Hu]; [apply has_agent_kind in Hk; congruence |]. split_and!; try done. unfold other_kind. cbn. lia.
  - assert (Ha : a = Ended \/ a <> Ended) by (destruct a; auto).
    destruct Ha as [-> | Ha]; [by exists s, chain |].
    destruct Hi as (Hid & Hg & Hk & Hr & Hring).
    destruct (ring_agent (cntDatagrams (cnt (report h))) (info (report h)) c a _ _ Hring Hc) as (a' & r' & l & E & Hring').
    exists (put_thread id (Linked a') (put_header id (set_places r' h) s)), chain. split.
    { destruct a; try done; by rewrite E, bind_Ret. }
    apply (sys_frame s _ chain id Hs); try done; cbn.
    + intros i Hne. by rewrite !lookup_insert_ne by done.
    + intros _. by rewrite lookup_insert_eq, Hh.
    + apply grows_refl.
    + intros mid m. by eapply ok_groups.
    + rewrite !lookup_insert_eq, Hid. by split_and!.
    + eapply worker_ok_thread; [by apply Hs | done | intros i Hne; cbn; by rewrite lookup_insert_ne |].
      intros _. unfold left_alone. cbn. rewrite Ht, lookup_insert_eq. split; [intros [? | [= ?]]; done | eauto].
Qed.

(** ** Reports are made *)
Definition good_interval (agent : Settings.thread_Settings) : Prop :=
  exists t, interval_time (Settings.mInterval agent) = Ret t /\ valid_time t.

Lemma sys_reuse s chain id : sys_ok s chain -> headers s !! id = None -> left_alone s id -> sys_ok (reuse id s) chain.
Proof.
  intros Hs Hh Hl. pose proof (ok_ids _ _ Hs id) as Hi. rewrite Hh in Hi.
  assert (Hid : id ∉ chain) by (destruct Hl as [Hl | Hl]; rewrite Hl in Hi; by apply bool_decide_eq_false in Hi).
  apply (sys_frame s _ chain id Hs); try done; cbn.
  - intros i Hne. by rewrite lookup_delete_ne by done.
  - apply grows_refl.
  - intros mid m. by eapply ok_groups.
  - rewrite Hh, lookup_delete_eq. cbn. by apply bool_decide_eq_false_2.
  - eapply worker_ok_thread; [by apply Hs | done | | done]. intros i Hne. cbn. by rewrite lookup_delete_ne.
Qed.

Lemma sys_new s chain id h :
  sys_ok s chain -> headers s !! id = None -> left_alone s id -> grouped (multis s) h -> unlinked_ok h ->
  sys_ok (put_thread id Init (put_header id h s)) chain.
Proof.
  intros Hs Hh Hl Hg Hu. pose proof (ok_ids _ _ Hs id) as Hi. rewrite Hh in Hi.
  assert (Hid : id ∉ chain) by (destruct Hl as [Hl | Hl]; rewrite Hl in Hi; by apply bool_decide_eq_false in Hi).
  pose proof (position_out s chain id (ok_worker _ _ Hs) Hid) as Hp.
  apply (sys_frame s _ chain id Hs); try done; cbn.
  - intros i Hne. by rewrite !lookup_insert_ne by done.
  - apply grows_refl.
  - intros mid m. by eapply ok_groups.
  - rewrite !lookup_insert_eq, Hp, bool_decide_eq_false_2 by done. by split_and!.
  - eapply worker_ok_thread; [by apply Hs | done | | done]. intros i Hne. cbn. by rewrite lookup_insert_ne.
Qed.

(** What [InitReport] makes of the settings. *)
Lemma init_data_kind agent gid :
  good_interval agent ->
  exists o, init_data agent gid = Ret o /\
    forall d, o = Some d -> valid_time (intervalTime d) /\
      (if isDataReport (Settings.flags agent)
       then (type d = 1 \/ type d = 9) /\ flags (settings d) = Settings.flags agent else type d = 8).
Proof.
  intros (t & Et & Ht). unfold init_data. cbv zeta. rewrite Et, bind_Ret.
  destruct (isDataReport _), (isConnectionReport _); rewrite bind_Ret; (eexists; split; [done |]); intros d [= <-]; cbn; auto.
  split; [| done]. unfold valid_time. cbn. lia.
Qed.

(** A group that the settings are for. *)
Definition group_for (agent : Settings.thread_Settings) (multihdr : option Z) (s : state) : Prop :=
  forall mid, multihdr = Some mid ->
    exists m, multis s !! mid = Some m /\ (isMultipleReport (Settings.flags agent) = true -> full m).

Lemma sys_allocate s chain id agent multihdr :
  sys_ok s chain -> headers s !! id = None -> left_alone s id -> good_interval agent -> group_for agent multihdr s ->
  exists s', allocate id agent multihdr s = Ret s' /\ sys_ok s' chain.
Proof.
  intros Hs Hh Hl Hi Hg. unfold allocate.
  assert (Hgid : exists gid, (match multihdr with Some mid => m ← deref (multis s !! mid); Ret (Multi.groupID m) | None => Ret (-1) end) = Ret gid).
  { destruct multihdr as [mid |]; [| eauto]. destruct (Hg mid eq_refl) as (m & -> & _). cbn. eauto. }
  destruct Hgid as [gid ->]. rewrite bind_Ret. destruct (init_data_kind agent gid Hi) as (o & -> & Hd). rewrite bind_Ret.
  destruct o as [d |]; [| by exists s]. destruct (Hd d eq_refl) as [Ht Hk]. cbv zeta. eexists. split; [done |].
  apply sys_new; try done.
  - destruct (isDataReport _); [| done]. intros mid E. cbn in *. destruct (Hg mid E) as (m & Hm & Hf). exists m.
    destruct Hk as [_ ->]. done.
  - destruct (isDataReport _); (split; [| done]); [left | by right]. split; [apply Hk | done].
Qed.

Lemma InitMulti_ok uninit agent inID :
  good_interval agent ->
  exists o, InitMulti uninit agent inID = Ret o /\ forall m, o = Some m -> group_ok m.
Proof.
  intros (t & Et & Ht). unfold InitMulti. rewrite Et.
  destruct (_ || _); [| by eexists]. destruct (isMultipleReport _); rewrite ?bind_Ret.
  - destruct (isConnectionReport _); (eexists; split; [done |]); intros m [= <-]; (split; [| intros r [= <-]]); unfold valid_time; cbn; lia.
  - eexists; split; [done |]. intros m [= <-]. split; [| done]. unfold valid_time. cbn. lia.
Qed.

(** ** The reporter *)
(** It moves, and leaves the rest. *)
Lemma sys_worker s chain w :
  sys_ok s chain ->
  (forall id h a, headers s !! id = Some h -> threads s !! id = Some (Linked a) ->
     ring_ok a (position (worker s) id) (places h) -> ring_ok a (position w id) (places h)) ->
  worker_ok (set_worker w s) chain -> sys_ok (set_worker w s) chain.
Proof.
  intros [Hc Hn Hi Hg Hw] Hp Hw'. split; try done. intros id. specialize (Hi id). specialize (Hp id). cbn.
  destruct (headers s !! id) as [h |], (threads s !! id) as [[| | | a] |]; try done. cbn in *. destruct_and?. split_and?; try done. by eapply Hp.
Qed.

(** The header that it is at. *)
Lemma at_header s chain id :
  sys_ok s chain -> id ∈ chain ->
  exists h, headers s !! id = Some h /\ grouped (multis s) h /\
    ((threads s !! id = None /\ other_kind h) \/
     exists a, threads s !! id = Some (Linked a) /\ agent_kind h /\ report_ok (report h) /\ ring_ok a (position (worker s) id) (places h)).
Proof.
  intros Hs Hid. pose proof (ok_ids _ _ Hs id) as Hi. rewrite bool_decide_eq_true_2 in Hi by done.
  destruct (headers s !! id) as [h |]; [| by destruct (threads s !! id) as [[| | | []] |]].
  exists h. split; [done |]. destruct (threads s !! id) as [[| | | a] |]; cbn in Hi; destruct_and?; try done.
  - split; [done |]. right. by exists a.
  - split; [done |]. by left.
Qed.

(** The next header of the list. *)
Lemma behind_next s chain id callers h :
  sys_ok s chain -> behind chain id callers -> headers s !! id = Some h ->
  match next h with Some n => behind chain n (id :: callers) | None => True end.
Proof.
  intros Hs (front & back & E) Hh. pose proof (ok_chain _ _ Hs) as Hc. rewrite E, app_assoc in Hc.
  apply is_chain_app in Hc as (h' & Hh' & Hc). replace h' with h in Hc by congruence. destruct (next h) as [n |]; [| done].
  destruct back as [| n' back]; [done |]. destruct Hc as [[= <-] _]. exists front, back. rewrite E. cbn. by rewrite <- !app_assoc.
Qed.

(** Back to the header that waits. *)
Lemma behind_caller chain h c callers : behind chain h (c :: callers) -> behind chain c callers.
Proof. intros (front & back & ->). exists front, (h :: back). cbn. by rewrite <- !app_assoc. Qed.

(** ** The group of a header *)
Lemma put_multi_of_eq h o s :
  put_multi_of h o s =
  set_multis (match multireport h, o with Some mid, Some m => <[mid := m]> (multis s) | _, _ => multis s end) s.
Proof. destruct s, h as [? ? [] ?], o; done. Qed.

Lemma multi_of_ok s chain h :
  sys_ok s chain -> grouped (multis s) h ->
  exists o, multi_of h s = Ret o /\ multi_ok (flags (settings (report h))) o /\
    forall o', okeeps o o' ->
      let ms := match multireport h, o' with Some mid, Some m => <[mid := m]> (multis s) | _, _ => multis s end in
      grows (multis s) ms /\ forall mid m, ms !! mid = Some m -> group_ok m.
Proof.
  intros Hs Hg. unfold multi_of. destruct (multireport h) as [mid |] eqn:E.
  - destruct (Hg mid E) as (m & Hm & Hf). rewrite Hm. cbn [deref]. rewrite bind_Ret. exists (Some m).
    split; [done |]. split; [exact Hf |]. intros [m' |] Hk; [| done]. split.
    + eapply grows_insert; [done |]. by apply keeps_full.
    + eapply groups_insert; [done |]. eapply keeps_group; [done |]. by eapply ok_groups.
  - exists None. split; [done |]. split; [done |]. intros o' _. split; [apply grows_refl |]. intros mid m. by eapply ok_groups.
Qed.

(** The reporter changes the header it is at. *)
Lemma sys_current s s' chain id h h' :
  sys_ok s chain -> id ∈ chain -> headers s !! id = Some h -> headers s' = <[id := h']> (headers s) ->
  next h' = next h -> multireport h' = multireport h -> settings (report h') = settings (report h) ->
  threads s' = threads s -> ReportRoot s' = ReportRoot s ->
  (forall i, i <> id -> position (worker s') i = position (worker s) i) ->
  grows (multis s) (multis s') -> (forall mid m, multis s' !! mid = Some m -> group_ok m) ->
  (threads s !! id = None -> other_kind h -> other_kind h') ->
  (forall a, threads s !! id = Some (Linked a) -> agent_kind h -> report_ok (report h) -> ring_ok a (position (worker s) id) (places h) ->
     agent_kind h' /\ report_ok (report h') /\ ring_ok a (position (worker s') id) (places h')) ->
  worker_ok s' chain -> sys_ok s' chain.
Proof.
  intros Hs Hid Hh Eh En Em Es Et Er Hp Hg Hgs Ho Ha Hw. destruct (at_header s chain id Hs Hid) as (h0 & Hh0 & Hgr & Hk).
  replace h0 with h in * by congruence. apply (sys_frame s s' chain id Hs); try done.
  - intros i Hne. rewrite Eh, Et. rewrite lookup_insert_ne by done. auto.
  - intros _. rewrite Eh, lookup_insert_eq, Hh. cbn. by rewrite En.
  - rewrite Eh, Et, lookup_insert_eq, bool_decide_eq_true_2 by done.
    assert (Hgr' : grouped (multis s') h') by (intros mid; rewrite Em, Es; by apply (grouped_grows _ _ _ Hg Hgr)).
    destruct Hk as [[E Hk] | (a & E & Hk & Hr & Hring)]; rewrite E; cbn.
    + split_and!; auto.
    + destruct (Ha a E Hk Hr Hring) as (? & ? & ?). by split_and!.
Qed.

(** The group prints its connection. *)
Lemma group_connection_ok d o :
  multi_ok (flags (settings d)) o -> exists o' l, group_connection d o = Ret (o', l) /\ okeeps o o'.
Proof.
  intros Ho. unfold group_connection. destruct o as [m |]; [| by exists None, []].
  destruct (isMultipleReport _) eqn:Ef; [| exists (Some m), []; split; [done | apply group_keeps_refl]].
  destruct (Ho Ef) as [_ [r Hr]]. rewrite Hr. cbn [deref]. rewrite bind_Ret.
  destruct (negb _); [| exists (Some m), []; split; [done | apply group_keeps_refl]].
  destruct (print_connection _) as [r' l] eqn:Ep. exists (Some (Multi.set_report (Some r') m)), l. split; [done |].
  split; try done; cbn. intros r0 [= <-]. exists r. split; [done |]. unfold print_connection in Ep.
  destruct (connection_reports _ _ _). by injection Ep as <- _.
Qed.

(** [reporter_process_report] in front of the loop: the header is as it was, but for its
    type and what is printed. *)
Section Kind.
Context (s : state) (chain : list Z) (id : Z) (callers : list Z) (h : ReportHeader).
Context (Hs : sys_ok s chain) (Ew : worker s = Kind id callers) (Hh : headers s !! id = Some h).

Lemma kind_behind : behind chain id callers.
Proof. pose proof (ok_worker _ _ Hs) as Hb. unfold worker_ok in Hb. by rewrite Ew in Hb. Qed.

Lemma kind_continue d ms l :
  settings d = settings (report h) -> nextTime d = nextTime (report h) -> intervalTime d = intervalTime (report h) ->
  (other_kind h -> other_kind (set_report d h)) -> (agent_kind h -> agent_kind (set_report d h)) ->
  grows (multis s) ms -> (forall mid m, ms !! mid = Some m -> group_ok m) ->
  sys_ok (set_worker (if has_agent (set_report d h) then Packets Test id callers else Return false id callers)
            (print l (set_multis ms (put_header id (set_report d h) s)))) chain.
Proof.
  intros Es En Ei Ho Ha Hg Hgs. pose proof kind_behind as Hb. pose proof (behind_in _ _ _ Hb) as Hid.
  destruct (at_header s chain id Hs Hid) as (h0 & Hh0 & Hgr & Hk). replace h0 with h in * by congruence. clear h0 Hh0.
  apply (sys_current s _ chain id h (set_report d h)); try done.
  - intros i Hne. cbn. rewrite Ew. destruct (has_agent _); cbn; by rewrite decide_False.
  - intros a Et Hka Hr Hring. rewrite Ew in Hring. cbn in *. split; [by apply Ha |]. split; [unfold report_ok; by rewrite En, Ei |].
    rewrite (has_agent_kind _ (Ha Hka)). cbn. by rewrite decide_True.
  - destruct (has_agent (set_report d h)) eqn:Eh; (split; [done |]); [| done]. cbn.
    destruct Hk as [[_ Hk] | (a & Ea & _)]; [| by exists a]. apply Ho, has_no_agent_kind in Hk. congruence.
Qed.

Lemma kind_return d l :
  other_kind h -> other_kind (set_report d h) -> settings d = settings (report h) ->
  sys_ok (set_worker (Return true id callers) (print l (put_header id (set_report d h) s))) chain.
Proof.
  intros Ho Ho' Es. pose proof kind_behind as Hb. pose proof (behind_in _ _ _ Hb) as Hid.
  destruct (at_header s chain id Hs Hid) as (h0 & Hh0 & Hgr & Hk). replace h0 with h in * by congruence. clear h0 Hh0.
  destruct Hk as [[Et _] | (a & _ & Ha & _)]; [| unfold agent_kind, other_kind in *; lia].
  apply (sys_current s _ chain id h (set_report d h)); try done.
  - intros i Hne. cbn. rewrite Ew. cbn. by rewrite decide_False.
  - apply grows_refl.
  - intros mid m. cbn. by eapply ok_groups.
  - by rewrite Et.
  - split; [done |]. intros _. by left.
Qed.

Lemma kind_connection :
  type (report h) = 8 \/ type (report h) = 9 ->
  exists s', kind_step id h callers s = Ret s' /\ sys_ok s' chain.
Proof.
  intros Ety. destruct (at_header s chain id Hs (behind_in _ _ _ kind_behind)) as (h0 & Hh0 & Hgr & _).
  replace h0 with h in * by congruence. clear h0 Hh0. unfold kind_step. cbv zeta.
  assert (E1 : negb (Z.land (type (report h)) SETTINGS_REPORT =? 0) = false) by (by destruct Ety as [-> | ->]).
  assert (E2 : negb (Z.land (type (report h)) CONNECTION_REPORT =? 0) = true) by (by destruct Ety as [-> | ->]).
  rewrite E1, E2. destruct (print_connection _) as [d l] eqn:Ep.
  assert (Hd : settings d = settings (report h) /\ nextTime d = nextTime (report h) /\ intervalTime d = intervalTime (report h) /\
               type d = clear CONNECTION_REPORT (type (report h))).
  { unfold print_connection in Ep. destruct (connection_reports _ _ _). by injection Ep as <- _. }
  destruct Hd as (Es & En & Ei & Et).
  destruct (multi_of_ok s chain h Hs Hgr) as (o & Eo & Ho & Hms). change (multi_of (set_report d h) s) with (multi_of h s).
  rewrite Eo, bind_Ret. rewrite <- Es in Ho. destruct (group_connection_ok d o Ho) as (o' & l' & -> & Hk). rewrite bind_Ret.
  destruct (Hms o' Hk) as [Hg Hgs]. rewrite put_multi_of_eq. eexists. split; [done |].
  assert (Ec : type (report h) = 8 /\ type d = 0 \/ type (report h) = 9 /\ type d = 1).
  { rewrite Et. destruct Ety as [-> | ->]; [by left | by right]. }
  apply kind_continue; try done; unfold other_kind, agent_kind; cbn [report set_report]; lia.
Qed.
End Kind.

Lemma set_report_same h : set_report (report h) h = h.
Proof. by destruct h. Qed.
Lemma set_multis_same s : set_multis (multis s) s = s.
Proof. by destruct s. Qed.
Lemma print_nil s : print [] s = s.
Proof. destruct s. unfold print, set_out. cbn. by rewrite app_nil_r. Qed.

Lemma sys_kind s chain id callers h :
  sys_ok s chain -> worker s = Kind id callers -> headers s !! id = Some h ->
  exists s', kind_step id h callers s = Ret s' /\ sys_ok s' chain.
Proof.
  intros Hs Ew Hh. pose proof (behind_in _ _ _ (kind_behind s chain id callers Hs Ew)) as Hid.
  destruct (at_header s chain id Hs Hid) as (h0 & Hh0 & Hgr & Hk). replace h0 with h in * by congruence. clear h0 Hh0.
  assert (Hk' : other_kind h \/ agent_kind h) by (destruct Hk as [[_ ?] | (? & _ & ? & _)]; auto).
  assert (Hplain : sys_ok (set_worker (if has_agent h then Packets Test id callers else Return false id callers) s) chain).
  { pose proof (kind_continue s chain id callers h Hs Ew Hh (report h) (multis s) []) as H.
    rewrite set_report_same, put_header_same, set_multis_same, print_nil in H by done. apply H; try done; [apply grows_refl |].
    intros mid m. by eapply ok_groups. }
  unfold kind_step. cbv zeta. set (ty := type (report h)) in *.
  assert (Ety : ty = 0 \/ ty = 1 \/ ty = 2 \/ ty = 4 \/ ty = 8 \/ ty = 9) by (unfold other_kind, agent_kind, ty in *; lia).
  destruct Ety as [E | [E | [E | [E | E]]]].
  - rewrite E. by eexists.
  - rewrite E. by eexists.
  - rewrite E. change (negb (Z.land 2 SETTINGS_REPORT =? 0)) with false. change (negb (Z.land 2 CONNECTION_REPORT =? 0)) with false.
    change (negb (Z.land 2 SERVER_RELAY_REPORT =? 0)) with true. cbv iota.
    destruct (print_server_relay _) as [d l] eqn:Ep. eexists. split; [done |].
    assert (Hd : settings d = settings (report h) /\ type d = 0).
    { unfold print_server_relay in Ep. destruct (serverstatistics_reports _ _ _). by injection Ep as <- _. }
    destruct Hd as [Es Et]. eapply kind_return; try done; unfold other_kind, ty in *; cbn; lia.
  - rewrite E. change (negb (Z.land 4 SETTINGS_REPORT =? 0)) with true. cbv iota. eexists. split; [done |].
    eapply kind_return; try done; unfold other_kind, ty in *; cbn; auto.
  - destruct (kind_connection s chain id callers h Hs Ew Hh E) as (s' & E' & H'). exists s'. split; [exact E' | done].
Qed.

(** ** The packets of a header *)
Lemma sys_packets s chain q id callers :
  sys_ok s chain -> worker s = Packets q id callers ->
  exists s', worker_step s = Ret s' /\ sys_ok s' chain.
Proof.
  intros Hs Ew. pose proof (ok_worker _ _ Hs) as Hw. unfold worker_ok in Hw. rewrite Ew in Hw. destruct Hw as [Hb [a Ea]].
  pose proof (behind_in _ _ _ Hb) as Hid. destruct (at_header s chain id Hs Hid) as (h & Hh & Hgr & [[E _] | (a' & Ea' & Hk & Hr & Hring)]); [congruence |].
  replace a' with a in * by congruence. clear a' Ea'. rewrite Ew in Hring. cbn in Hring. rewrite decide_True in Hring by done.
  unfold worker_step. rewrite Ew.
  assert (Hq : (exists b, q = Out b) \/ forall A (f : bool -> A) (x : A), match q with Out b => f b | _ => x end = x).
  { destruct q; eauto. }
  destruct Hq as [[b ->] | Hq].
  - eexists. split; [done |]. apply sys_worker; [done | |].
    + intros i hi ai _ _. rewrite Ew. done.
    + split; [done |]. intros ->. apply ring_free in Hring. right. cbn. by rewrite Ea, Hring.
  - rewrite Hq, Hh. cbn [deref]. rewrite bind_Ret. destruct (multi_of_ok s chain h Hs Hgr) as (o & -> & Ho & Hms). rewrite bind_Ret.
    destruct (ring_reporter a q (places h) (report h, o, []) Hring (conj Hr Ho)) as (q' & r' & [[d o'] l] & ls & E & Hring' & [Hr' Ho'] & Hd).
    rewrite E, bind_Ret. cbv zeta. rewrite put_multi_of_eq. eexists. split; [done |].
    assert (Hk' : okeeps o o' /\ same_kind (report h) d).
    { destruct Hd as [[= -> -> ->] | (p & fin & Eh)]; [by split; [apply okeeps_refl |] |]. by eapply reporter_handle_keeps. }
    destruct Hk' as [Hok [Es Et]]. destruct (Hms o' Hok) as [Hg Hgs].
    apply (sys_current s _ chain id h (set_report d (set_places r' h))); try done.
    + intros i Hne. cbn. rewrite Ew. cbn. by rewrite !decide_False by done.
    + intros E'. congruence.
    + intros a' Ea' _ _ _. replace a' with a by congruence. cbn. rewrite decide_True by done. split_and!; try done.
      unfold agent_kind. cbn. by rewrite Et.
    + split; [done |]. by exists a.
Qed.

(** ** Headers are freed *)
Lemma sys_unlink s s' l1 c x l2 hc hx :
  sys_ok s (l1 ++ c :: x :: l2) -> headers s !! c = Some hc -> headers s !! x = Some hx -> left_alone s x ->
  headers s' = delete x (<[c := set_next (next hx) hc]> (headers s)) -> threads s' = threads s -> multis s' = multis s ->
  ReportRoot s' = ReportRoot s -> (forall i, i <> x -> position (worker s') i = position (worker s) i) ->
  worker_ok s' (l1 ++ c :: l2) -> sys_ok s' (l1 ++ c :: l2).
Proof.
  intros [Hc Hn Hi Hg _] Hhc Hhx Hl Eh Et Em Er Hp Hw.
  assert (Hn' : NoDup (l1 ++ c :: l2) /\ x ∉ l1 ++ c :: l2).
  { replace (l1 ++ c :: x :: l2) with ((l1 ++ [c]) ++ x :: l2) in Hn by (by rewrite <- app_assoc).
    rewrite <- Permutation_middle in Hn. apply NoDup_cons in Hn as [? ?]. by rewrite <- app_assoc in *. }
  destruct Hn' as [Hn' Hx]. assert (Hcx : c <> x) by (intros ->; apply Hx; set_solver). split; try done.
  - rewrite Eh, Er. by eapply is_chain_unlink.
  - intros i. rewrite Eh, Et, Em. specialize (Hi i). destruct (decide (i = x)) as [-> | Hne].
    + rewrite lookup_delete_eq. destruct Hl as [-> | ->]; by apply bool_decide_eq_false_2.
    + rewrite lookup_delete_ne, Hp by done.
      replace (bool_decide (i ∈ l1 ++ c :: l2)) with (bool_decide (i ∈ l1 ++ c :: x :: l2))
        by (apply bool_decide_ext; rewrite !elem_of_app, !elem_of_cons; intuition congruence).
      destruct (decide (i = c)) as [-> | Hnc]; [rewrite lookup_insert_eq; rewrite Hhc in Hi; exact Hi | by rewrite lookup_insert_ne].
  - by rewrite Em.
Qed.

(** What kind of report a header has, as freeing others leaves it. *)
Definition kind_of (s : state) (id : Z) : option Z := (type ∘ report) <$> headers s !! id.

(** The next header was done. *)
Lemma sys_return_free s front back c callers id :
  sys_ok s ((front ++ rev callers) ++ c :: id :: back) -> worker s = Return true id (c :: callers) -> left_alone s id ->
  exists s', worker_step s = Ret s' /\ sys_ok s' ((front ++ rev callers) ++ c :: back) /\
    worker s' = Kind c callers /\ threads s' = threads s /\ forall i, i <> id -> kind_of s' i = kind_of s i.
Proof.
  intros Hs Ew Hl. destruct (at_header s _ c Hs ltac:(set_solver)) as (hc & Hhc & _).
  destruct (at_header s _ id Hs ltac:(set_solver)) as (hx & Hhx & _).
  pose proof (ok_chain _ _ Hs) as Hc. apply is_chain_app in Hc as (hc' & Hhc' & En & _).
  replace hc' with hc in En by congruence. unfold worker_step. rewrite Ew, Hhc. cbn [deref]. rewrite bind_Ret, En. cbn [deref].
  rewrite bind_Ret, Hhx. cbn [deref]. rewrite bind_Ret. eexists. split; [done |]. split.
  - eapply (sys_unlink s _ _ c id back hc hx); try done.
    + intros i Hne. cbn. rewrite Ew. cbn. by rewrite decide_False.
    + cbn. exists front, back. by rewrite <- app_assoc.
  - split_and!; try done. intros i Hne. unfold kind_of. cbn. rewrite lookup_delete_ne by done.
    destruct (decide (i = c)) as [-> | Hnc]; [by rewrite lookup_insert_eq, Hhc | by rewrite lookup_insert_ne].
Qed.

Lemma sys_return_keep s chain id callers w :
  sys_ok s chain -> worker s = Return false id callers -> (forall i, position w i = Test) -> worker_ok (set_worker w s) chain ->
  sys_ok (set_worker w s) chain.
Proof.
  intros Hs Ew Hw. apply sys_worker; [done |]. intros i h a _ _. rewrite Ew, Hw. cbn.
  destruct (decide (id = i)); [apply ring_again | done].
Qed.

Lemma sys_return s chain b id callers :
  sys_ok s chain -> worker s = Return b id callers ->
  exists s' chain', worker_step s = Ret s' /\ sys_ok s' chain'.
Proof.
  intros Hs Ew. pose proof (ok_worker _ _ Hs) as Hw. unfold worker_ok in Hw. rewrite Ew in Hw. destruct Hw as [Hb Hl].
  destruct callers as [| c callers]; [| destruct b].
  - unfold worker_step. rewrite Ew. eexists _, chain. split; [done |]. destruct b; [| by eapply sys_return_keep].
    apply sys_worker; [done | intros i h a _ _; by rewrite Ew |]. split; [done | by apply Hl].
  - destruct Hb as (front & back & E). cbn in E. rewrite <- !app_assoc in E. cbn in E. rewrite app_assoc in E. subst chain.
    destruct (sys_return_free s front back c callers id Hs Ew (Hl eq_refl)) as (s' & E & H' & _). by eexists _, _.
  - unfold worker_step. rewrite Ew. eexists _, chain. split; [done |]. eapply sys_return_keep; [done.. |]. cbn. by eapply behind_caller.
Qed.

(** The header in front of another one is found. *)
Lemma find_previous_ok fuel s r l1 c x l2 :
  is_chain (headers s) (Some r) (l1 ++ c :: x :: l2) -> NoDup (l1 ++ c :: x :: l2) -> (length l1 < fuel)%nat ->
  find_previous fuel r x s = Ret c.
Proof.
  revert fuel r. induction l1 as [| y l1 IH]; intros fuel r Hc Hn Hf; (destruct fuel as [| fuel]; [cbn in Hf; lia |]); cbn [find_previous].
  - destruct Hc as ([= ->] & hc & Hhc & En & _). rewrite Hhc. cbn [deref]. by rewrite bind_Ret, decide_True.
  - destruct Hc as ([= ->] & h & Hh & Hc). rewrite Hh. cbn [deref]. rewrite bind_Ret. cbn [app] in Hn. apply NoDup_cons in Hn as [Hy Hn].
    assert (En : exists n, next h = Some n).
    { destruct l1 as [| z l1]; destruct Hc as [E _]; eauto. }
    destruct En as [n En]. rewrite En in *. cbn [deref]. rewrite decide_False, bind_Ret; [apply IH; [done | done | cbn in Hf; lia] |].
    intros [= ->]. destruct l1 as [| z l1]; destruct Hc as [[= ->] _]; cbn in Hn; apply NoDup_cons in Hn as [Hn _]; apply Hn; set_solver.
Qed.

Lemma chain_size hs r l : is_chain hs r l -> NoDup l -> (length l <= size hs)%nat.
Proof.
  intros Hc Hn. assert (Hd : list_to_set l ⊆ dom hs).
  { clear Hn. revert r Hc. induction l as [| x l IH]; intros r; [set_solver |]. intros (_ & h & Hh & Hc). apply union_subseteq. split; [| by eapply IH].
    apply singleton_subseteq_l, elem_of_dom. by exists h. }
  rewrite <- size_dom. transitivity (size (list_to_set l : gset Z)); [| by apply subseteq_size]. by rewrite size_list_to_set.
Qed.

Lemma sys_remove_free s front back id :
  sys_ok s (front ++ id :: back) -> worker s = Remove id -> left_alone s id ->
  exists s', worker_step s = Ret s' /\ sys_ok s' (front ++ back) /\
    worker s' = match ReportRoot s' with Some _ => Again | None => Top end /\ threads s' = threads s /\
    forall i, i <> id -> kind_of s' i = kind_of s i.
Proof.
  intros Hs Ew Hl. destruct (at_header s _ id Hs ltac:(set_solver)) as (h & Hh & _). pose proof (ok_chain _ _ Hs) as Hc.
  pose proof (ok_nodup _ _ Hs) as Hn. unfold worker_step. rewrite Ew. unfold remove_step. rewrite Hh. cbn [deref]. rewrite bind_Ret.
  destruct front as [| x front].
  - destruct Hc as [Er (h' & Hh' & Hc)]. replace h' with h in * by congruence. rewrite decide_True, bind_Ret by done. cbv zeta.
    eexists. split; [done |]. cbn [app] in *. apply NoDup_cons in Hn as [Hx Hn]. destruct Hs as [_ _ Hi Hg _]. split; [split; try done |].
    + cbn. eapply is_chain_ext; [| exact Hc]. intros y Hy. rewrite lookup_delete_ne; [done |]. by intros ->.
    + intros i. cbn. specialize (Hi i). rewrite Ew in Hi. cbn in Hi. destruct (decide (i = id)) as [-> | Hne].
      * rewrite lookup_delete_eq, bool_decide_eq_false_2 by done. by destruct Hl as [-> | ->].
      * rewrite decide_False in Hi by done. rewrite lookup_delete_ne by done.
        replace (bool_decide (i ∈ back)) with (bool_decide (i ∈ id :: back))
          by (apply bool_decide_ext; rewrite elem_of_cons; intuition congruence).
        by destruct (next h).
    + cbn. by destruct (next h).
    + split_and!; try done. intros i Hne. unfold kind_of. cbn. by rewrite lookup_delete_ne.
  - assert (Ef : exists l1 c, x :: front = l1 ++ [c]).
    { destruct (exists_last (l := x :: front)) as (l1 & c & E'); [done |]. eauto. }
    destruct Ef as (l1 & c & Ef). rewrite Ef in *. rewrite <- !app_assoc in *. cbn [app] in *.
    assert (Er : exists r, ReportRoot s = Some r /\ r <> id).
    { destruct l1 as [| y l1]; destruct Hc as [Er _]; (eexists; split; [exact Er |]); intros ->;
        cbn in Hn; apply NoDup_cons in Hn as [Hn _]; apply Hn; set_solver. }
    destruct Er as (r & Er & Hne). rewrite Er in *. rewrite decide_False by congruence. cbn [deref]. rewrite bind_Ret.
    assert (Hf : (length l1 < size (headers s))%nat).
    { pose proof (chain_size _ _ _ Hc Hn) as Hsz. rewrite length_app in Hsz. cbn in Hsz. lia. }
    rewrite (find_previous_ok _ s r l1 c id back Hc Hn Hf), bind_Ret.
    destruct (at_header s _ c Hs ltac:(set_solver)) as (hc & Hhc & _). rewrite Hhc. cbn [deref]. rewrite !bind_Ret. cbv zeta.
    eexists. split; [done |]. split; [eapply (sys_unlink s _ l1 c id back hc h); try done |].
    + intros i Hni. cbn. rewrite Ew, Er. cbn. by rewrite decide_False.
    + cbn. by rewrite Er.
    + split_and!; try done. intros i Hni. unfold kind_of. cbn. rewrite lookup_delete_ne by done.
      destruct (decide (i = c)) as [-> | Hnc]; [by rewrite lookup_insert_eq, Hhc | by rewrite lookup_insert_ne].
Qed.

Lemma sys_remove s chain id :
  sys_ok s chain -> worker s = Remove id -> exists s' chain', worker_step s = Ret s' /\ sys_ok s' chain'.
Proof.
  intros Hs Ew. pose proof (ok_worker _ _ Hs) as Hw. unfold worker_ok in Hw. rewrite Ew in Hw. destruct Hw as [(front & back & E) Hl].
  cbn in E. subst chain. destruct (sys_remove_free s front back id Hs Ew Hl) as (s' & E & H' & _). by eexists _, _.
Qed.

Lemma sys_report s chain :
  sys_ok s chain -> exists s' chain', worker_step s = Ret s' /\ sys_ok s' chain'.
Proof.
  intros Hs. destruct (worker s) as [| | id callers | id callers | q id callers | b id callers | id] eqn:Ew.
  - unfold worker_step. rewrite Ew. eexists _, chain. split; [done |]. destruct (ReportRoot s); [| done].
    apply sys_worker; [done | intros; by rewrite Ew in * | done].
  - unfold worker_step. rewrite Ew. eexists _, chain. split; [done |]. pose proof (ok_chain _ _ Hs) as Hc.
    destruct (ReportRoot s) as [r |] eqn:Er; (apply sys_worker; [done | intros; by rewrite Ew in * |]); [| done].
    cbn. destruct chain as [| x chain]; [done |]. destruct Hc as [[= ->] _]. by exists [], chain.
  - pose proof (ok_worker _ _ Hs) as Hb. unfold worker_ok in Hb. rewrite Ew in Hb.
    destruct (at_header s chain id Hs (behind_in _ _ _ Hb)) as (h & Hh & _). unfold worker_step. rewrite Ew, Hh. cbn [deref]. rewrite bind_Ret.
    eexists _, chain. split; [done |]. pose proof (behind_next s chain id callers h Hs Hb Hh) as Hn.
    destruct (next h); (apply sys_worker; [done | intros; by rewrite Ew in * |]); exact Hn || exact Hb.
  - pose proof (kind_behind s chain id callers Hs Ew) as Hb.
    destruct (at_header s chain id Hs (behind_in _ _ _ Hb)) as (h & Hh & _). unfold worker_step. rewrite Ew, Hh. cbn [deref]. rewrite bind_Ret.
    destruct (sys_kind s chain id callers h Hs Ew Hh) as (s' & E & H'). by exists s', chain.
  - destruct (sys_packets s chain q id callers Hs Ew) as (s' & E & H'). by exists s', chain.
  - by eapply sys_return.
  - by eapply sys_remove.
Qed.
End IperfSystemInv.
