(* ===== verification/IperfSystemSweep.v ===== *)
(** * iperf/src/Reporter.c: the reporter frees the reports

    When the threads have ended, the reporter comes to the end of its list again and
    again, and frees every header but those that only printed a connection. *)
From S2P Require Import Prelude Doubles IperfReporter IperfRing IperfRingProofs IperfStats IperfSystem IperfSystemProofs IperfSystemInv.

Module IperfSystemSweep.
Import Doubles IperfReporter IperfRing IperfRingProofs IperfStats IperfSystem IperfSystemProofs IperfSystemInv.

Definition all_ended (s : state) : Prop := forall id t, threads s !! id = Some t -> t = Linked Ended.

(** ** Single steps *)
Lemma kind_result s id h callers s' :
  headers s !! id = Some h -> other_kind h \/ agent_kind h -> kind_step id h callers s = Ret s' ->
  threads s' = threads s /\ (forall i, i <> id -> kind_of s' i = kind_of s i) /\
  (worker s' = Packets Test id callers \/ worker s' = Return true id callers \/
   (worker s' = Return false id callers /\ kind_of s' id = Some 0)).
Proof.
  intros Hh Hk. unfold kind_step. cbv zeta. set (ty := type (report h)).
  assert (Hput : forall d l ms w, let s1 := set_worker w (print l (set_multis ms (put_header id (set_report d h) s))) in
    threads s1 = threads s /\ (forall i, i <> id -> kind_of s1 i = kind_of s i) /\ kind_of s1 id = Some (type d)).
  { intros d l ms w. cbn. split; [done |]. unfold kind_of. cbn. split; [intros i Hne; by rewrite lookup_insert_ne | by rewrite lookup_insert_eq]. }
  assert (Hsame : forall w, kind_of (set_worker w s) id = Some ty) by (intros w; unfold kind_of; cbn; by rewrite Hh).
  assert (Ety : ty = 0 \/ ty = 1 \/ ty = 2 \/ ty = 4 \/ ty = 8 \/ ty = 9) by (unfold other_kind, agent_kind, ty in *; lia).
  assert (Hnext : forall h' w, type (report h') = 0 \/ type (report h') = 1 ->
    w = (if has_agent h' then Packets Test id callers else Return false id callers) ->
    w = Packets Test id callers \/ w = Return true id callers \/ (w = Return false id callers /\ type (report h') = 0)).
  { intros h' w [E | E] ->; unfold has_agent; rewrite E; cbn; auto. }
  destruct (Z.land ty SETTINGS_REPORT =? 0) eqn:E4; cbn [negb].
  2: { intros [= <-]. rewrite <- (set_multis_same (put_header _ _ s)). edestruct Hput as (H1 & H2 & _). eauto. }
  destruct (Z.land ty CONNECTION_REPORT =? 0) eqn:E8; cbn [negb].
  - destruct (Z.land ty SERVER_RELAY_REPORT =? 0) eqn:E2; cbn [negb].
    + intros [= <-]. split; [done |]. split; [done |].
      destruct (Hnext h _ ltac:(fold ty; destruct Ety as [-> | [-> | [-> | [-> | [-> | ->]]]]]; (done || auto)) eq_refl)
        as [E | [E | [E Et]]]; cbn; auto. right. right. split; [done |]. rewrite Hsame. unfold ty. by rewrite Et.
    + destruct (print_server_relay _) as [d l]. intros [= <-]. rewrite <- (set_multis_same (put_header _ _ s)).
      edestruct Hput as (H1 & H2 & _). eauto.
  - destruct (print_connection _) as [d l] eqn:Ep.
    assert (Hd : type d = clear CONNECTION_REPORT ty).
    { unfold print_connection in Ep. destruct (connection_reports _ _ _). by injection Ep as <- _. }
    intros E. apply bind_Ret_inv in E as (o & _ & E). apply bind_Ret_inv in E as ([o' l'] & _ & [= <-]).
    rewrite put_multi_of_eq. edestruct Hput as (H1 & H2 & H3). split; [exact H1 |]. split; [exact H2 |].
    destruct (Hnext (set_report d h) _ ltac:(cbn; rewrite Hd; destruct Ety as [-> | [-> | [-> | [-> | [-> | ->]]]]]; (done || auto)) eq_refl)
      as [E | [E | [E Et]]]; cbn; auto. right. right. split; [done |]. rewrite <- Et. exact H3.
Qed.

(** The ring of an agent that has ended. *)
Lemma ring_ended q r :
  ring_ok Ended q r -> reporterindex r = -1 /\ agentindex r = -1 /\ (q = Test \/ q = Check \/ exists b, q = Out b).
Proof.
  intros (P & m & d & HI). pose proof (i_positions _ _ _ _ HI) as Hp. pose proof (p_agent _ _ _ _ _ _ Hp) as A.
  pose proof (p_reporter _ _ _ _ _ _ Hp) as W. cbn [IperfRing.thread IperfRing.worker shared agent_ok] in *. destruct A as [Hr Ha].
  split; [done |]. split; [done |]. destruct q; cbn in W; try lia; eauto.
Qed.

Lemma packets_result s s' id h q callers :
  worker s = Packets q id callers -> headers s !! id = Some h -> ring_ok Ended q (places h) -> worker_step s = Ret s' ->
  threads s' = threads s /\ (forall i, kind_of s' i = kind_of s i) /\
  worker s' = match q with Test => Packets Check id callers | Check => Packets (Out true) id callers | Out b => Return b id callers | _ => Top end.
Proof.
  intros Ew Hh Hring. destruct (ring_ended q _ Hring) as (Hr & Ha & Hq). unfold worker_step. rewrite Ew.
  destruct Hq as [-> | [-> | [b ->]]].
  3: by intros [= <-].
  all: rewrite Hh; cbn [deref]; rewrite bind_Ret; intros E; apply bind_Ret_inv in E as (o & _ & E); cbn in E;
    rewrite ?Hr, ?Ha in E; cbn in E; injection E as <-; rewrite put_multi_of_eq; (split; [done |]); (split; [| done]);
    intros i; unfold kind_of; cbn; (destruct (decide (i = id)) as [-> | Hne]; [by rewrite lookup_insert_eq, Hh | by rewrite lookup_insert_ne]).
Qed.

(** ** A pass over the list *)
(** What holds in a pass that began when the threads had ended ([strict]), or before. *)
Definition spent (strict : bool) (s : state) (id : Z) : Prop := strict = true -> kind_of s id = Some 0.
Definition pass (strict : bool) (s : state) (chain : list Z) : Prop :=
  let at_ h callers (P : list Z -> Prop) :=
    exists front back, chain = front ++ rev callers ++ h :: back /\ (strict = true -> front = []) /\ P back in
  match worker s with
  | Top => Forall (spent strict s) chain
  | Again => True
  | Enter h callers => at_ h callers (fun _ => True)
  | Kind h callers => at_ h callers (Forall (spent strict s))
  | Packets q h callers => at_ h callers (Forall (spent strict s)) /\ (strict = true -> forall b, q = Out b -> b = true)
  | Return b h callers => at_ h callers (fun back => Forall (spent strict s) (if b then back else h :: back))
  | Remove h => at_ h [] (Forall (spent strict s))
  end.

(** How far the reporter is from the end of a pass over [n] headers. *)
Definition left_in_pass (n : nat) (w : place) : nat :=
  match w with
  | Top => 0
  | Again => 11 * n + 1
  | Enter _ callers => 11 * (n - length callers) + 10 * length callers
  | Kind _ callers => 10 * length callers + 9
  | Packets q _ callers => 10 * length callers + match q with Test => 8 | Check => 7 | _ => 6 end
  | Return _ _ callers => 10 * length callers + 5
  | Remove _ => 4
  end.
(** The headers are fewer, or the reporter is further. *)
Definition less (n : nat) (w : place) (n' : nat) (w' : place) : Prop :=
  (n' < n)%nat \/ n' = n /\ (left_in_pass n w' < left_in_pass n w)%nat.

Lemma forall_spent strict s s' l :
  (forall i, i ∈ l -> kind_of s' i = kind_of s i) -> Forall (spent strict s) l -> Forall (spent strict s') l.
Proof. rewrite !Forall_forall. unfold spent. intros He H i Hi. rewrite He by done. by apply H. Qed.

Definition sweeps (strict : bool) (s : state) (chain : list Z) : Prop :=
  exists s' chain', worker_step s = Ret s' /\ sys_ok s' chain' /\ all_ended s' /\ pass strict s' chain' /\
    less (length chain) (worker s) (length chain') (worker s').

Lemma sweep_kind strict s chain id callers :
  sys_ok s chain -> all_ended s -> pass strict s chain -> worker s = Kind id callers -> sweeps strict s chain.
Proof.
  intros Hs He Hp Ew. pose proof (kind_behind s chain id callers Hs Ew) as Hb.
  destruct (at_header s chain id Hs (behind_in _ _ _ Hb)) as (h & Hh & _ & Hk).
  assert (Hk' : other_kind h \/ agent_kind h) by (destruct Hk as [[_ ?] | (? & _ & ? & _)]; auto).
  destruct (sys_kind s chain id callers h Hs Ew Hh) as (s' & E & H').
  destruct (kind_result s id h callers s' Hh Hk' E) as (Et & Ek & Ew').
  exists s', chain. split; [unfold worker_step; rewrite Ew, Hh; exact E |]. split; [done |].
  split; [unfold all_ended; rewrite Et; exact He |]. unfold pass in *. rewrite Ew in Hp. cbv zeta in *.
  destruct Hp as (front & back & Ec & Hf & Hback).
  assert (Hnb : forall i, i ∈ back -> i <> id).
  { intros i Hi ->. pose proof (ok_nodup _ _ Hs) as Hn. rewrite Ec, app_assoc in Hn. apply NoDup_app in Hn as (_ & _ & Hn).
    by apply NoDup_cons in Hn as [Hn _]. }
  assert (Hback' : Forall (spent strict s') back) by (eapply forall_spent; [| exact Hback]; intros i Hi; apply Ek; auto).
  destruct Ew' as [E' | [E' | [E' E0]]]; rewrite E', Ew; (split; [| right; split; [done | cbn; lia]]).
  - split; [by exists front, back | done].
  - by exists front, back.
  - exists front, back. split_and!; try done. constructor; [by intros _ | done].
Qed.

Lemma sweep_packets strict s chain q id callers :
  sys_ok s chain -> all_ended s -> pass strict s chain -> worker s = Packets q id callers -> sweeps strict s chain.
Proof.
  intros Hs He Hp Ew. destruct (sys_packets s chain q id callers Hs Ew) as (s' & E & H').
  pose proof (ok_worker _ _ Hs) as Hw. unfold worker_ok in Hw. rewrite Ew in Hw. destruct Hw as [Hb [a Ea]].
  destruct (at_header s chain id Hs (behind_in _ _ _ Hb)) as (h & Hh & _ & [[En _] | (a' & Ea' & _ & _ & Hring)]); [congruence |].
  pose proof (He id _ Ea') as [= ->]. rewrite Ew in Hring. cbn in Hring. rewrite decide_True in Hring by done.
  destruct (packets_result s s' id h q callers Ew Hh Hring E) as (Et & Ek & Ew').
  exists s', chain. split; [done |]. split; [done |]. split; [unfold all_ended; rewrite Et; exact He |]. unfold pass in *. rewrite Ew in Hp.
  cbv zeta in *. destruct Hp as [(front & back & Ec & Hf & Hback) Hq].
  assert (Hback' : Forall (spent strict s') back) by (eapply forall_spent; [intros i _; apply Ek | exact Hback]).
  destruct (ring_ended _ _ Hring) as (_ & _ & [-> | [-> | [b ->]]]); rewrite Ew', Ew; (split; [| right; split; [done | cbn; lia]]).
  - split; [by exists front, back | done].
  - split; [by exists front, back | by intros _ b [= <-]].
  - exists front, back. split_and!; try done. destruct b; [done |]. constructor; [| done]. intros Hst. by discriminate (Hq Hst false eq_refl).
Qed.

Lemma sweep_walk strict s chain :
  sys_ok s chain -> all_ended s -> pass strict s chain -> worker s = Again \/ (exists id callers, worker s = Enter id callers) ->
  sweeps strict s chain.
Proof.
  intros Hs He Hp Hw. destruct (sys_report s chain Hs) as (s' & chain' & E & H'). unfold worker_step in E.
  destruct Hw as [Ew | (id & callers & Ew)]; rewrite Ew in E.
  - injection E as <-. pose proof (ok_chain _ _ Hs) as Hc. destruct (ReportRoot s) as [r |] eqn:Er.
    + destruct chain as [| x chain]; [done |]. destruct Hc as [[= ->] _]. exists (set_worker (Enter x []) s), (x :: chain).
      unfold worker_step. rewrite Ew, Er. split; [done |]. split; [| split; [done |]; split].
      * apply sys_worker; [done | intros i0 h0 a0 _ _; by rewrite Ew | by exists [], chain].
      * by exists [], chain.
      * right. split; [done |]. rewrite ?Ew. cbn. lia.
    + destruct chain as [| x chain]; [| by destruct Hc]. exists (set_worker Top s), [].
      unfold worker_step. rewrite Ew, Er. split; [done |]. split; [| split; [done |]; split; [constructor |]].
      * apply sys_worker; [done | intros i0 h0 a0 _ _; by rewrite Ew | done].
      * right. split; [done |]. rewrite ?Ew. cbn. lia.
  - pose proof (ok_worker _ _ Hs) as Hb. unfold worker_ok in Hb. rewrite Ew in Hb. unfold pass in Hp. rewrite Ew in Hp. cbv zeta in Hp.
    destruct Hp as (front & back & Ec & Hf & _). destruct (at_header s chain id Hs (behind_in _ _ _ Hb)) as (h & Hh & _).
    pose proof (behind_next s chain id callers h Hs Hb Hh) as Hn. pose proof (ok_chain _ _ Hs) as Hc. rewrite Ec, app_assoc in Hc.
    apply is_chain_app in Hc as (h' & Hh' & Hc). replace h' with h in Hc by congruence. clear E.
    assert (Hlen : (length callers < length chain)%nat) by (rewrite Ec, !length_app, length_rev; cbn; lia).
    exists (set_worker (match next h with Some n => Enter n (id :: callers) | None => Kind id callers end) s), chain.
    unfold worker_step. rewrite Ew, Hh. cbn [deref]. rewrite bind_Ret. split; [done |]. split; [| split; [done |]; split].
    + destruct (next h); (apply sys_worker; [done | intros i0 h0 a0 _ _; by rewrite Ew |]); exact Hn || exact Hb.
    + destruct back as [| n back].
      * cbn in Hc. rewrite Hc. exists front, []. split_and!; [done | done | constructor].
      * destruct Hc as [-> _]. exists front, back. cbn. rewrite <- !app_assoc. by split_and!.
    + right. split; [done |]. rewrite ?Ew. destruct (next h); cbn -[Nat.mul Nat.sub]; lia.
Qed.

Lemma sweep_return strict s chain b id callers :
  sys_ok s chain -> all_ended s -> pass strict s chain -> worker s = Return b id callers -> sweeps strict s chain.
Proof.
  intros Hs He Hp Ew. pose proof (ok_worker _ _ Hs) as Hw. unfold worker_ok in Hw. rewrite Ew in Hw. destruct Hw as [_ Hl].
  unfold pass in Hp. rewrite Ew in Hp. cbv zeta in Hp. destruct Hp as (front & back & Ec & Hf & Hback).
  destruct callers as [| c callers]; [| destruct b].
  - cbn in Ec. destruct b.
    + exists (set_worker (Remove id) s), chain. unfold worker_step. rewrite Ew. split; [done |]. split; [| split; [done |]; split].
      * apply sys_worker; [done | intros i0 h0 a0 _ _; by rewrite Ew |]. split; [by exists front, back | by apply Hl].
      * by exists front, back.
      * right. split; [done |]. rewrite ?Ew. cbn. lia.
    + exists (set_worker Top s), chain. unfold worker_step. rewrite Ew. split; [done |]. split; [| split; [done |]; split].
      * by eapply sys_return_keep.
      * unfold pass. cbn. destruct strict; [rewrite Ec, (Hf eq_refl); exact Hback | by apply Forall_forall].
      * right. split; [done |]. rewrite ?Ew. cbn. lia.
  - cbn in Ec. rewrite <- !app_assoc in Ec. cbn in Ec. rewrite app_assoc in Ec. subst chain.
    destruct (sys_return_free s front back c callers id Hs Ew (Hl eq_refl)) as (s' & E & H' & Ew' & Et & Ek).
    exists s', ((front ++ rev callers) ++ c :: back). split; [done |]. split; [done |].
    split; [unfold all_ended; rewrite Et; exact He |]. split.
    + unfold pass. rewrite Ew'. cbv zeta. exists front, back. split; [by rewrite <- app_assoc |]. split; [done |].
      eapply forall_spent; [| exact Hback]. intros i Hi. apply Ek. intros ->. pose proof (ok_nodup _ _ Hs) as Hn.
      apply NoDup_app in Hn as (_ & _ & Hn). apply NoDup_cons in Hn as [_ Hn]. by apply NoDup_cons in Hn as [Hn _].
    + left. rewrite !length_app. cbn. lia.
  - exists (set_worker (Kind c callers) s), chain. unfold worker_step. rewrite Ew. split; [done |]. split; [| split; [done |]; split].
    + eapply sys_return_keep; [done.. |]. cbn. eapply behind_caller. by exists front, back.
    + exists front, (id :: back). cbn in Ec. rewrite <- !app_assoc in Ec. done.
    + right. split; [done |]. rewrite ?Ew. cbn. lia.
Qed.

Lemma sweep_remove strict s chain id :
  sys_ok s chain -> all_ended s -> pass strict s chain -> worker s = Remove id -> sweeps strict s chain.
Proof.
  intros Hs He Hp Ew. pose proof (ok_worker _ _ Hs) as Hw. unfold worker_ok in Hw. rewrite Ew in Hw. destruct Hw as [_ Hl].
  unfold pass in Hp. rewrite Ew in Hp. cbv zeta in Hp. destruct Hp as (front & back & Ec & Hf & Hback). cbn in Ec. subst chain.
  destruct (sys_remove_free s front back id Hs Ew Hl) as (s' & E & H' & Ew' & Et & Ek).
  exists s', (front ++ back). split; [done |]. split; [done |]. split; [unfold all_ended; rewrite Et; exact He |]. split.
  - unfold pass. rewrite Ew'. pose proof (ok_chain _ _ H') as Hc. destruct (ReportRoot s'); [done |].
    destruct (front ++ back) as [| x l]; [constructor | by destruct Hc].
  - left. rewrite !length_app. cbn. lia.
Qed.

Lemma sweep_step strict s chain :
  sys_ok s chain -> all_ended s -> pass strict s chain -> worker s <> Top -> sweeps strict s chain.
Proof.
  intros Hs He Hp Hw. destruct (worker s) as [| | id callers | id callers | q id callers | b id callers | id] eqn:Ew; [done | ..].
  - apply sweep_walk; auto.
  - apply sweep_walk; eauto.
  - by eapply sweep_kind.
  - by eapply sweep_packets.
  - by eapply sweep_return.
  - by eapply sweep_remove.
Qed.

(** ** To the end of a pass *)
Lemma less_wf : well_founded (fun a b : nat * nat => (a.1 < b.1)%nat \/ a.1 = b.1 /\ (a.2 < b.2)%nat).
Proof.
  intros [n m]. revert m. induction n as [n IHn] using lt_wf_ind. intros m. induction m as [m IHm] using lt_wf_ind.
  constructor. intros [n' m'] [H | [H1 H2]]; cbn in *; [by apply IHn | subst n'; by apply IHm].
Qed.

Lemma system_run_app l1 l2 s : run (l1 ++ l2) s = (s ← run l1 s; run l2 s).
Proof. revert s. induction l1 as [| ch l1 IH]; intros s; [done |]. cbn [app run]. rewrite bind_assoc_cres. by apply bind_ext. Qed.

Lemma sweep strict s chain :
  sys_ok s chain -> all_ended s -> pass strict s chain ->
  exists k s' chain', run (replicate k Worker) s = Ret s' /\ sys_ok s' chain' /\ all_ended s' /\ pass strict s' chain' /\ worker s' = Top.
Proof.
  remember (length chain, left_in_pass (length chain) (worker s)) as mu eqn:Emu. revert s chain Emu.
  induction mu as [mu IH] using (well_founded_induction less_wf). intros s chain -> Hs He Hp.
  assert (Hw : worker s = Top \/ worker s <> Top) by (destruct (worker s); auto). destruct Hw as [Hw | Hw]; [by exists 0%nat, s, chain |].
  destruct (sweep_step strict s chain Hs He Hp Hw) as (s1 & chain1 & E1 & H1 & He1 & Hp1 & Hless).
  destruct (IH (length chain1, left_in_pass (length chain1) (worker s1))) with (s := s1) (chain := chain1)
    as (k & s' & chain' & E & H'); try done.
  { destruct Hless as [Hless | [Hn Hless]]; cbn; [by left | right]. split; [done |]. by rewrite Hn in *. }
  exists (S k), s', chain'. split; [| done]. cbn [replicate run step]. by rewrite E1, bind_Ret.
Qed.

(** Any state is in a pass; the pass from the top is strict. *)
Lemma pass_any s chain : sys_ok s chain -> pass false s chain.
Proof.
  intros Hs. pose proof (ok_worker _ _ Hs) as Hw. unfold worker_ok, pass in *.
  assert (Hall : forall l, Forall (spent false s) l) by (intros l; by apply Forall_forall).
  destruct (worker s) as [| | h cs | h cs | q h cs | b h cs | h]; cbv zeta; try done.
  1, 2: destruct Hw as (front & back & E); by exists front, back.
  - destruct Hw as [(front & back & E) _]. split; [by exists front, back | done].
  - destruct Hw as [(front & back & E) _]. by exists front, back.
  - destruct Hw as [(front & back & E) _]. by exists front, back.
Qed.

Lemma sweep_all s chain :
  sys_ok s chain -> all_ended s ->
  exists k s', run (replicate k Worker) s = Ret s' /\ worker s' = Top /\
    forall id h, headers s' !! id = Some h -> type (report h) = 0.
Proof.
  intros Hs He. destruct (sweep false s chain Hs He (pass_any s chain Hs)) as (k1 & s1 & c1 & E1 & H1 & He1 & _ & Hw1).
  assert (Hs2 : exists s2, worker_step s1 = Ret s2 /\ sys_ok s2 c1 /\ all_ended s2 /\ pass true s2 c1).
  { unfold worker_step. rewrite Hw1. eexists. split; [done |]. pose proof (ok_chain _ _ H1) as Hc. destruct (ReportRoot s1).
    - split; [| done]. apply sys_worker; [done | intros i0 h0 a0 _ _; by rewrite Hw1 | done].
    - split; [done |]. split; [done |]. unfold pass. rewrite Hw1. destruct c1; [constructor | by destruct Hc]. }
  destruct Hs2 as (s2 & E2 & H2 & He2 & Hp2). destruct (sweep true s2 c1 H2 He2 Hp2) as (k3 & s3 & c3 & E3 & H3 & He3 & Hp3 & Hw3).
  exists (k1 + S k3)%nat, s3. split; [| split; [done |]].
  - rewrite replicate_add, system_run_app, E1, bind_Ret. cbn [replicate run step]. by rewrite E2, bind_Ret.
  - intros id h Hh. unfold pass in Hp3. rewrite Hw3 in Hp3. pose proof (ok_ids _ _ H3 id) as Hi. rewrite Hh in Hi.
    assert (Hid : id ∈ c3).
    { destruct (threads s3 !! id) as [t |] eqn:Et; [rewrite (He3 id t Et) in Hi |]; destruct Hi as [Hi _]; by apply bool_decide_eq_true in Hi. }
    rewrite Forall_forall in Hp3. specialize (Hp3 id Hid eq_refl). unfold kind_of in Hp3. rewrite Hh in Hp3. by injection Hp3.
Qed.
End IperfSystemSweep.
