(* ===== verification/IperfTheorems.v ===== *)
(** * iperf/src/Reporter.c: the properties of the reporter

    The ring between an agent and the reporter is a queue that loses nothing and never
    blocks for good; what [GetReport] gives are the statistics of all packets; what the
    reports say of lost datagrams and of the bytes of an interval. *)
From Stdlib Require Import Sorting.Sorted.
From S2P Require Import Prelude Doubles IperfReporter IperfRing IperfRingProofs IperfStats IperfLoss IperfSums IperfSystem IperfExamples.

Module IperfTheorems.
Import Doubles IperfReporter IperfRing IperfRingProofs IperfStats IperfLoss IperfSums IperfExamples.

Abbreviation run_ring := (run reporter_handle stream_count stream_info).
Abbreviation step_ring := (step reporter_handle stream_count stream_info).
Abbreviation good_choices := (Forall (good_choice reporter_handle)).

Lemma reach s sched :
  stream_ok s -> good_choices sched ->
  exists g l, run_ring sched (initial s) = Ret (g, l) /\ progress reporter_handle [] 0 s l g.
Proof.
  intros Hs Hc. apply (progress_run reporter_handle stream_count stream_info sched (initial s) [] 0); [| done].
  by apply ring_inv_initial.
Qed.

(** C8: however the steps of the agent and of the reporter are interleaved, the ring is a
    queue of at most NUM_REPORT_STRUCTS packets: no step reads a place that is being
    written or leaves the array, and the packets are handled once each, in the order in
    which they were reported. *)
Theorem ring_is_a_queue s sched :
  stream_ok s -> good_choices sched ->
  exists g l q, run_ring sched (initial s) = Ret (g, l) /\ queue_run l [] = Some q /\ pushed l = taken_out l ++ q.
Proof.
  intros Hs Hc. destruct (reach s sched Hs Hc) as (g & l & E & [HI HQ HT _]).
  exists g, l, (drop (length (taken_out l)) (pushed l)). split; [done |]. split; [exact HQ |].
  cbn in HT. rewrite <- HT at 1. by rewrite take_drop.
Qed.

(** C10: what [GetReport] gives the agent are the statistics of all the packets it has
    reported, the closing one included, none left out. *)
Theorem report_is_complete s sched g l c g' i :
  stream_ok s -> good_choices sched -> run_ring sched (initial s) = Ret (g, l) ->
  step_ring (Agent c) g = Ret (g', [Got_report i]) ->
  taken_out l = pushed l /\
  exists s', handle_all reporter_handle (pushed l) s = Ret s' /\ i = stream_info s'.
Proof.
  intros Hs Hc E E'. destruct (reach s sched Hs Hc) as (g1 & l1 & E1 & [HI HQ HT HS]). rewrite E in E1. injection E1 as <- <-. cbn [app Nat.add] in *.
  destruct (got_report _ _ _ _ _ _ _ _ _ HI E') as [Hm ->].
  assert (Ht : taken_out l = pushed l).
  { cbn in HT. rewrite <- HT. rewrite Hm. apply take_ge. lia. }
  split; [done |]. exists (stats g). by rewrite <- Ht.
Qed.

(** A call of the agent never waits for good: from every configuration that can be
    reached, if the reporter runs for a while and then the agent, the call returns. *)
Theorem calls_complete s sched :
  stream_ok s -> good_choices sched ->
  exists g l, run_ring sched (initial s) = Ret (g, l) /\
  exists k j g' l', run_ring (replicate k Reporter ++ replicate j (Agent Rest)) g = Ret (g', l') /\
    (thread g' = Running \/ thread g' = Closed \/ thread g' = Ended).
Proof.
  intros Hs Hc. destruct (reach s sched Hs Hc) as (g & l & E & [HI _ _ _]). exists g, l. split; [done |].
  destruct (catch_up _ stream_count stream_info _ _ _ HI) as (k & g1 & l1 & E1 & HI1 & Ht & Hr).
  destruct (finish _ stream_count stream_info g1 (pushed l)) as (j & g2 & l2 & E2 & Hz).
  { right. split; [done |]. by rewrite Ht. }
  exists k, j, g2, (l1 ++ l2). rewrite ring_run_app, E1, bind_Ret, E2, bind_Ret. split; [done |].
  destruct (thread g2) as [| | | | | | | | | | | | |] eqn:Et; cbn in Hz; try done; auto.
  all: by destruct (_ =? _).
Qed.

(** C11: what the report at the end of a UDP stream says, when its numbers are from 1 to
    2^31 - 2 and fewer than 2^31 - 1 datagrams came, whatever their order and whether some
    came twice: the largest number that came, and how many came with a number that is not
    larger than all before (a datagram that comes again is one of them).  When fewer came
    again than never came, it says lost the difference of the two, so each datagram that
    comes again hides one that is missing; without repetition these are exactly the
    numbers below the largest that did not come.  Otherwise the late ones are added: when
    all came but some of them late, these are said to be lost. *)
Theorem lost_datagrams d multireport ps p :
  report_ok d -> multi_ok (flags (settings d)) multireport -> cnt d = no_counts -> isUDP (flags (settings d)) = true ->
  Forall (fun p => in_range (packetID p) /\ valid_time (arrived p)) ps ->
  Z.of_nat (length ps) < 2 ^ 31 - 1 ->
  let ids := packetID <$> ps in let late := late_count 0 ids in
  exists s, handle_all reporter_handle (ps ++ [closing_packet p]) (d, multireport, []) = Ret s /\
    Info.cntDatagrams (stream_info s) = foldr Z.max 0 ids /\
    Info.cntOutofOrder (stream_info s) = late /\
    Info.cntError (stream_info s) =
      if repeated ids <? missing ids then missing ids - repeated ids
      else missing ids - repeated ids + late.
Proof.
  intros Hd Hm Hc Hu Hps Hl ids late.
  assert (Hok : Forall packet_ok ps).
  { eapply Forall_impl; [exact Hps |]. intros q [Hq ?]. split; [unfold in_range in Hq; lia | done]. }
  destruct (handle_all_spec ps d multireport [] Hok Hd Hm) as (m1 & out1 & E1 & Hm1 & _).
  destruct (after_packets_ok ps d Hok Hd) as (_ & Es & _). rewrite <- Es in Hm1, Hu.
  destruct (handle_last_spec (closing_packet p) (after_packets ps d) m1 eq_refl Hm1) as (m2 & out2 & E2 & _).
  assert (Hseq := after_packets_sequence ps d 0 0 0). cbv zeta in Hseq. fold ids late in Hseq.
  assert (Hr : Forall (fun p => in_range (packetID p)) ps) by (eapply Forall_impl; [exact Hps | by intros q []]).
  specialize (Hseq ltac:(unfold sequence; by rewrite Hc) Hr ltac:(lia) ltac:(lia) ltac:(lia) ltac:(lia)).
  assert (Hlen : length ids = length ps) by (unfold ids; apply length_fmap).
  assert (Hmiss : missing ids = foldr Z.max 0 ids - (Z.of_nat (length ps) - repeated ids)).
  { rewrite missing_count; [unfold repeated; lia |]. apply Forall_fmap.
    eapply Forall_impl; [exact Hr |]. cbn. unfold in_range. lia. }
  assert (Hm0 : 0 <= missing ids) by (unfold missing; lia).
  assert (Hr0 : 0 <= repeated ids) by (pose proof (remove_dups_length ids); unfold repeated; lia).
  pose proof (late_count_range 0 ids) as Hlate. rewrite Hlen in Hlate. fold late in Hlate.
  unfold sequence in Hseq. set (d1 := after_packets ps d) in *. injection Hseq as Eerr Elate Emax.
  exists (after_last (closing_packet p) d1, m2, (([] ++ out1) ++ out2)). rewrite handle_all_app, E1, bind_Ret. cbn [handle_all].
  destruct (after_last_info (closing_packet p) d1 Hu) as (I1 & I2 & I3). unfold stream_info. cbn [fst].
  rewrite I1, I2, I3, Eerr, Elate, Emax. split_and!; [by unfold reporter_handle; rewrite E2 | done | lia |].
  unfold lost. pose proof (foldr_max_bound 0 ids (2 ^ 31 - 1) ltac:(lia)) as Hb.
  assert (foldr Z.max 0 ids < 2 ^ 31 - 1).
  { apply Hb. unfold ids. apply Forall_fmap. eapply Forall_impl; [exact Hr |]. cbn. unfold in_range. lia. }
  destruct (Z.ltb_spec (0 + late) (0 + (foldr Z.max 0 ids - 0) - (Z.of_nat (length ps) - late))) as [L | L];
    destruct (Z.ltb_spec (repeated ids) (missing ids)) as [Z0 | Z0]; try lia.
  rewrite i32_small; [lia |]. unfold is_int, INT_MIN, INT_MAX. lia.
Qed.

(** C12: a stream in time order whose reports are one interval apart: the report of the
    [k]-th interval shows the bytes of the packets of that interval, every interval that
    has ended behind a packet has its report, and the total are the bytes of all. *)
Theorem interval_reports d t multireport ps :
  cnt d = no_counts -> valid_time t -> valid_time (intervalTime d) -> 0 < micros (intervalTime d) ->
  multi_ok (flags (settings d)) multireport -> Forall packet_ok ps -> StronglySorted in_order ps ->
  Forall (fun p => 0 <= packetLen p) ps -> total_bytes ps < 2 ^ 64 ->
  exists d' multireport' out,
    handle_all reporter_handle ps (set_startTime t d, multireport, []) = Ret (d', multireport', out) /\
    Info.TotalLen <$> infos out =
      (fun k => bytes_in (micros t) (micros (intervalTime d)) k ps) <$> seq 0 (last_slot (micros t) (micros (intervalTime d)) 0 ps) /\
    TotalLen (cnt d') = total_bytes ps.
Proof.
  intros Hc Ht Hi HI Hm Hok Hs Hl Htot. set (I := micros (intervalTime d)) in *.
  assert (Hd : report_ok (set_startTime t d)).
  { split; [| done]. cbn [nextTime set_startTime]. apply TimeAdd_sum; try done; [| by apply valid_sum].
    unfold valid_time in Ht. lia. }
  assert (HR : reported (micros t) I 0 (set_startTime t d)).
  { split; cbn [nextTime intervalTime cnt set_startTime]; [rewrite micros_add; unfold I; lia | done | by rewrite Hc]. }
  assert (HK : Forall (fun p => 0 <= slot (micros t) I p)%nat ps) by (apply Forall_forall; intros; lia).
  destruct (handle_all_spec ps (set_startTime t d) multireport [] Hok Hd Hm) as (m1 & out1 & E1 & _ & Ho).
  exists (after_packets ps (set_startTime t d)), m1, out1. split; [done |].
  assert (Hct : TotalLen (cnt (set_startTime t d)) + total_bytes ps < 2 ^ 64) by (cbn [cnt set_startTime]; by rewrite Hc).
  rewrite Ho. split.
  - rewrite (interval_bytes (micros t) I HI 0 ps _ HR HK Hs Hl Hct), Nat.sub_0_r. apply list_fmap_ext. intros i k _.
    cbn [cnt set_startTime]. rewrite Hc. cbn [TotalLen lastTotal no_counts]. destruct (decide (k = 0%nat)); lia.
  - rewrite (packets_total (micros t) I HI 0 ps _ HR HK Hs Hl Hct). cbn [cnt set_startTime]. by rewrite Hc.
Qed.

(** C13: when the streams of a test keep in step, each report of the group shows the sums
    and the maxima over one report of every stream, and there is one for every round. *)
Theorem sums_of_rounds uninit agent inID m rounds :
  InitMulti uninit agent inID = Ret (Some m) -> isMultipleReport (Settings.flags agent) = true ->
  1 < Settings.mThreads agent <= 127 ->
  Forall (fun gf => a_round (Settings.mThreads agent) (fst gf)) rounds ->
  exists m' out, handle_reports m (rounds ≫= round_reports) = Ret (m', out) /\ Forall2 printed out rounds.
Proof.
  intros E Hf HT Hr. pose proof (InitMulti_sums uninit agent inID m E Hf (proj1 HT)) as Hm.
  destruct (sums_run _ m _ _ HT Hm (good_rounds _ _ Hr)) as (m' & out & E' & Ho). exists m', out. split; [done |].
  by rewrite (rounds_run _ _ (proj1 HT) Hr) in Ho.
Qed.

(** The counter [free] of a slot is a [char], so a test of more than 127 streams has no
    sums: whatever the streams report, the group prints nothing. *)
Theorem many_streams_never_summed m rs m' out :
  127 < Multi.threads m -> handle_reports m rs = Ret (m', out) -> out = [].
Proof.
  revert m m' out. induction rs as [| [r force] rs IH]; intros m m' out HT E; [by injection E as _ <- |].
  cbn [handle_reports] in E. apply bind_Ret_inv in E as ([m1 out1] & E1 & E). apply bind_Ret_inv in E as ([m2 out2] & E2 & [= _ <-]).
  destruct (many_streams_step _ _ _ _ _ HT E1) as [-> Ht]. cbn [app]. eapply (IH m1); [by rewrite Ht | exact E2].
Qed.

(** ** Concrete runs *)
Lemma good_report : report_ok udp_report.
Proof. repeat split; by vm_compute. Qed.
Lemma good_stream : stream_ok a_stream.
Proof. split; [apply good_report | done]. Qed.

Lemma good_check sched :
  forallb (fun ch => match ch with
                     | Agent (ReportPacket p) =>
                         (0 <=? packetID p) && (0 <=? tv_sec (arrived p)) && (tv_sec (arrived p) <? 2 ^ 50) &&
                         (0 <=? tv_usec (arrived p)) && (tv_usec (arrived p) <? 1000000)
                     | Agent (CloseReport p) =>
                         (0 <=? tv_sec (arrived p)) && (tv_sec (arrived p) <? 2 ^ 50) &&
                         (0 <=? tv_usec (arrived p)) && (tv_usec (arrived p) <? 1000000)
                     | _ => true
                     end) sched = true -> good_choices sched.
Proof.
  intros H. apply Forall_forall. intros ch Hch. rewrite forallb_forall in H. specialize (H ch).
  rewrite <- list_elem_of_In in H. specialize (H Hch). destruct ch as [[p | p | | |] |]; try done; cbn; rewrite !andb_true_iff in H;
    unfold valid_time; destruct_and?; split_and?; lia.
Qed.

Lemma ring_is_a_queue_witness :
  exists g l q, run_ring reporter_last (initial a_stream) = Ret (g, l) /\ queue_run l [] = Some q /\ pushed l = taken_out l ++ q.
Proof. apply (ring_is_a_queue a_stream reporter_last); [apply good_stream | by apply good_check]. Defined.

(** The agent waits for its report, and reads it. *)
Definition waits_for_report : list choice := reporter_first ++ [Agent GetReport].
Lemma report_is_complete_witness :
  taken_out (labels_of waits_for_report) = pushed (labels_of waits_for_report) /\
  exists s', handle_all reporter_handle (pushed (labels_of waits_for_report)) a_stream = Ret s' /\
    info (udp_report) <> stream_info s'.
Proof.
  pose proof (report_is_complete a_stream waits_for_report (config_of waits_for_report) (labels_of waits_for_report) Rest
    (config_of (waits_for_report ++ [Agent Rest])) (stream_info (stats (config_of waits_for_report)))) as H.
  destruct H as [H (s' & E & Hi)]; [apply good_stream | by apply good_check | by vm_compute | by vm_compute |].
  split; [exact H |]. exists s'. split; [exact E |]. rewrite <- Hi. by vm_compute.
Defined.

Lemma calls_complete_witness :
  exists g l, run_ring behind_calls (initial a_stream) = Ret (g, l) /\
  exists k j g' l', run_ring (replicate k Reporter ++ replicate j (Agent Rest)) g = Ret (g', l') /\
    (thread g' = Running \/ thread g' = Closed \/ thread g' = Ended).
Proof. apply (calls_complete a_stream behind_calls); [apply good_stream | by apply good_check]. Defined.

(** Datagram 2 comes behind datagram 3: none is lost, one is said to be.  Then datagram 1
    comes twice, and 2 and 4 never: one is said to be lost. *)
Lemma lost_datagrams_witness :
  (exists s, handle_all reporter_handle ([datagram 1 0; datagram 3 1; datagram 2 2; datagram 4 3] ++ [closing_packet (datagram 0 4)]) a_stream = Ret s /\
    Info.cntDatagrams (stream_info s) = 4 /\ Info.cntOutofOrder (stream_info s) = 1 /\ Info.cntError (stream_info s) = 1) /\
  (exists s, handle_all reporter_handle ([datagram 1 0; datagram 1 1; datagram 3 2; datagram 5 3] ++ [closing_packet (datagram 0 4)]) a_stream = Ret s /\
    Info.cntDatagrams (stream_info s) = 5 /\ Info.cntOutofOrder (stream_info s) = 1 /\ Info.cntError (stream_info s) = 1).
Proof.
  split.
  - apply (lost_datagrams udp_report None [datagram 1 0; datagram 3 1; datagram 2 2; datagram 4 3] (datagram 0 4)); try done.
    repeat constructor; by vm_compute.
  - apply (lost_datagrams udp_report None [datagram 1 0; datagram 1 1; datagram 3 2; datagram 5 3] (datagram 0 4)); try done.
    repeat constructor; by vm_compute.
Defined.

(** Datagrams of the first and of the third second. *)
Lemma interval_reports_witness :
  exists d' m' out,
    handle_all reporter_handle [datagram 1 3; datagram 2 7; datagram 3 25] (set_startTime (mkTv 100 0) udp_report, None, []) = Ret (d', m', out) /\
    Info.TotalLen <$> infos out = [2000; 0] /\ TotalLen (cnt d') = 3000.
Proof.
  apply (interval_reports udp_report (mkTv 100 0) None [datagram 1 3; datagram 2 7; datagram 3 25]); try done.
  - repeat constructor; by vm_compute.
  - repeat constructor; by vm_compute.
  - repeat constructor; by vm_compute.
Defined.

(** Two streams, two intervals. *)
Definition a_sum (start len : Z) : Transfer_Info :=
  Info.mkInfo None 3 9 0 0 1 len fzero (double start) (double (start + 1)) 97 1 0 0.
Definition two_rounds : list (group * bool) := [([a_sum 0 1000; a_sum 0 500], false); ([a_sum 1 200; a_sum 1 300], false)].
Definition a_group : cres (option MultiHeader) := InitMulti uninit_info tcp_client 9.
Definition the_group : MultiHeader := match a_group with Ret (Some m) => m | _ => Multi.mkMulti 0 0 None [] no_time end.
Lemma sums_of_rounds_witness :
  exists m' out, handle_reports the_group (two_rounds ≫= round_reports) = Ret (m', out) /\ Forall2 printed out two_rounds.
Proof.
  apply (sums_of_rounds uninit_info tcp_client 9 the_group two_rounds); [by vm_compute | done | done |].
  repeat constructor; try by vm_compute. all: eexists; repeat constructor.
Defined.

Definition crowd : MultiHeader := Multi.set_threads 128 the_group.
Definition crowd_reports : list (Transfer_Info * bool) := replicate 128 (a_sum 0 1000, false).
Lemma many_streams_never_summed_witness :
  match handle_reports crowd crowd_reports with Ret (_, out) => out = [] | _ => False end.
Proof.
  assert (E : exists m' out, handle_reports crowd crowd_reports = Ret (m', out)) by (vm_compute; eauto).
  destruct E as (m' & out & E). rewrite E. by apply (many_streams_never_summed crowd crowd_reports m' out).
Defined.

(** ** What the code does not mean *)
Definition returned (l : list label) : list Z := l ≫= fun x => match x with Returned_count n => [n] | _ => [] end.
(** The number that [CloseReport] returns, which the client gives the closing datagram,
    depends on how far the reporter is: the same calls give 3 and 0. *)
Example closing_number_races :
  returned (labels_of reporter_first) = [3] /\ returned (labels_of reporter_last) = [0].
Proof. split; by vm_compute. Qed.

(** The final report starts at 0 as the first interval does: both reports of one stream
    are added, and printed as the sum of two. *)
Example sum_of_one_stream :
  match handle_reports the_group [(a_sum 0 1000, false); (a_sum 0 2500, true)] with
  | Ret (_, [multistats _ i]) => Info.TotalLen i = 3500
  | _ => False
  end.
Proof. by vm_compute. Qed.

(** The sum has the mode that [malloc] left in its slot. *)
Example sum_mode_uninitialised :
  match handle_reports the_group [(a_sum 0 1000, false); (a_sum 0 500, false)] with
  | Ret (_, [multistats _ i]) => Info.mUDP i = Info.mUDP uninit_info
  | _ => False
  end.
Proof. by vm_compute. Qed.
End IperfTheorems.
