(* ===== verification/IperfThreads.v ===== *)
(** * iperf/src/Reporter.c: the properties of the reporter thread

    Whatever the threads of a process and the reporter do, and in whatever order: no
    header is used after it was freed, and all are freed in the end, but for those that
    only printed a connection. *)
From S2P Require Import Prelude Doubles IperfReporter IperfRing IperfRingProofs IperfStats IperfSystem.
From S2P Require Import IperfSystemProofs IperfSystemInv IperfSystemSweep IperfExamples.

Module IperfThreads.
Import Doubles IperfReporter IperfRing IperfRingProofs IperfStats IperfSystem IperfSystemProofs IperfSystemInv IperfSystemSweep IperfExamples.

(** ** What the callers keep to *)
(** Times are those of a clock, intervals too, datagrams are numbered from 0, and a report
    has a group that was made with the same flags. *)
Definition is_valid_time (t : timeval) : bool :=
  (0 <=? tv_sec t) && (tv_sec t <? 2 ^ 50) && (0 <=? tv_usec t) && (tv_usec t <? 1000000).
Definition is_good_interval (agent : Settings.thread_Settings) : bool :=
  match interval_time (Settings.mInterval agent) with Ret t => is_valid_time t | _ => false end.
Definition is_good_call (c : call) : bool :=
  match c with
  | ReportPacket p => is_valid_time (arrived p) && (0 <=? packetID p)
  | CloseReport p => is_valid_time (arrived p)
  | _ => true
  end.
Definition is_full (m : MultiHeader) : bool :=
  (length (Multi.data m) =? NUM_MULTI_SLOTS)%nat && match Multi.report m with Some _ => true | None => false end.
Definition has_group (agent : Settings.thread_Settings) (multihdr : option Z) (s : state) : bool :=
  match multihdr with
  | Some mid =>
      match multis s !! mid with
      | Some m => negb (isMultipleReport (Settings.flags agent)) || is_full m
      | None => false
      end
  | None => true
  end.
Definition allowed (ch : choice) (s : state) : bool :=
  match ch with
  | New_group _ _ agent _ => is_good_interval agent
  | New_report _ agent multihdr => is_good_interval agent && has_group agent multihdr s
  | Thread _ c now => is_good_call c && is_valid_time now
  | _ => true
  end.
(** A schedule in which every step is allowed. *)
Fixpoint permitted (l : list choice) (s : state) : bool :=
  match l with
  | [] => true
  | ch :: l => allowed ch s && match step ch s with Ret s => permitted l s | _ => true end
  end.

Lemma is_valid_time_ok t : is_valid_time t = true -> valid_time t.
Proof.
  unfold is_valid_time, valid_time. intros [[[H1%Z.leb_le H2%Z.ltb_lt]%andb_prop H3%Z.leb_le]%andb_prop H4%Z.ltb_lt]%andb_prop. lia.
Qed.
Lemma is_good_interval_ok agent : is_good_interval agent = true -> good_interval agent.
Proof.
  unfold is_good_interval, good_interval. destruct (interval_time _) as [t | | |]; try done. intros H%is_valid_time_ok. by exists t.
Qed.
Lemma is_good_call_ok c : is_good_call c = true -> good_call reporter_handle c.
Proof.
  destruct c; try done; cbn; [intros [H%is_valid_time_ok ?%Z.leb_le]%andb_prop; by split | apply is_valid_time_ok].
Qed.
Lemma has_group_ok agent multihdr s : has_group agent multihdr s = true -> group_for agent multihdr s.
Proof.
  unfold has_group, group_for. intros H mid ->. destruct (multis s !! mid) as [m |]; [| done]. exists m. split; [done |].
  intros E. rewrite E in H. cbn in H. apply andb_prop in H as [H1%Nat.eqb_eq H2]. split; [done |]. by destruct (Multi.report m).
Qed.

Lemma sys_step s chain ch :
  sys_ok s chain -> allowed ch s = true -> exists s' chain', step ch s = Ret s' /\ sys_ok s' chain'.
Proof.
  intros Hs Ha. destruct ch as [mid uninit agent inID | id agent multihdr | id uninit agent | id uninit agent gid server | id c now | id |];
    cbn [step allowed] in *.
  - destruct (multis s !! mid) as [m |] eqn:E; [by eexists _, _ |].
    destruct (InitMulti_ok uninit agent inID (is_good_interval_ok _ Ha)) as (o & -> & Ho). rewrite bind_Ret.
    eexists _, chain. split; [done |]. destruct o as [m |]; [| done]. destruct Hs as [Hc Hn Hi Hg Hw].
    assert (Hgr : grows (multis s) (<[mid := m]> (multis s))).
    { intros i x Hi'. exists x. split; [| done]. rewrite lookup_insert_ne; [done |]. intros ->. congruence. }
    split; try done.
    + intros id. eapply id_ok_grows; [exact Hgr | apply Hi].
    + intros i x Hi'. cbn in Hi'. apply lookup_insert_Some in Hi' as [[_ <-] | [_ E']]; [by apply Ho | by eapply Hg].
  - apply andb_prop in Ha as [Hi%is_good_interval_ok Hg%has_group_ok].
    destruct (fresh id s) eqn:Ef; [| by eexists _, _]. destruct (fresh_gone id s Ef) as [Hh Hl].
    destruct (sys_allocate (reuse id s) chain id agent multihdr) as (s' & E & H'); try done.
    + by apply sys_reuse.
    + left. cbn. by rewrite lookup_delete_eq.
    + by exists s', chain.
  - destruct (fresh id s && _) eqn:Ef; [| by eexists _, _]. apply andb_prop in Ef as [Ef _].
    destruct (fresh_gone id s Ef) as [Hh Hl]. pose proof (sys_reuse s chain id Hs Hh Hl) as Hs'.
    eexists _, (id :: chain). split; [done |].
    eapply (sys_link (reuse id s)); try done; [exact (fresh_out s chain id Hs Ef) |]. cbn. rewrite lookup_delete_eq. split_and!; try done.
    unfold other_kind. cbn. auto.
  - destruct (server_data uninit agent gid server) as [d |] eqn:Ed; [| by exists s, chain].
    destruct (fresh id s) eqn:Ef; [| by exists s, chain]. destruct (fresh_gone id s Ef) as [Hh Hl].
    pose proof (sys_reuse s chain id Hs Hh Hl) as Hs'. eexists _, (id :: chain). split; [done |].
    eapply (sys_link (reuse id s)); try done; [exact (fresh_out s chain id Hs Ef) |]. cbn. rewrite lookup_delete_eq. split_and!; try done.
    unfold server_data in Ed. destruct (_ && _); [| done]. injection Ed as <-. unfold other_kind. cbn. auto.
  - apply andb_prop in Ha as [Hc%is_good_call_ok Ht%is_valid_time_ok]. by apply (sys_thread s chain).
  - eexists _, chain. split; [done |]. destruct (threads s !! id) as [[| [] | |] |] eqn:Et; try done.
    pose proof (ok_ids _ _ Hs id) as Hi. rewrite Et in Hi. destruct (headers s !! id) as [h |] eqn:Eh; [| done].
    rewrite <- (put_header_same id h s) by done. destruct Hi as (Hid & Hi). apply bool_decide_eq_false in Hid.
    by eapply sys_unlinked.
  - by apply (sys_report s chain).
Qed.

Lemma sys_run sched s chain :
  sys_ok s chain -> permitted sched s = true -> exists s' chain', run sched s = Ret s' /\ sys_ok s' chain'.
Proof.
  revert s chain. induction sched as [| ch sched IH]; intros s chain Hs Hp; [by exists s, chain |].
  cbn [permitted run] in *. apply andb_prop in Hp as [Ha Hp]. destruct (sys_step s chain ch Hs Ha) as (s1 & c1 & E1 & H1).
  rewrite E1 in *. rewrite bind_Ret. by eapply IH.
Qed.

(** C7: no header is used after it was freed: every step that the threads and the reporter
    take, in any order, returns.  The list is a list of headers in use, each of them once,
    and the header of a thread that has not ended its report is there. *)
Theorem no_use_after_free sched :
  permitted sched initial = true ->
  exists s chain, run sched initial = Ret s /\ is_chain (headers s) (ReportRoot s) chain /\ NoDup chain /\
    forall id t, threads s !! id = Some t -> t <> Linked Ended -> is_Some (headers s !! id).
Proof.
  intros Hp. destruct (sys_run sched initial [] sys_initial Hp) as (s & chain & E & Hs). exists s, chain.
  split; [done |]. split; [by eapply ok_chain |]. split; [by eapply ok_nodup |]. intros id t Ht Hne.
  pose proof (ok_ids _ _ Hs id) as Hi. rewrite Ht in Hi. destruct (headers s !! id); [by eexists |].
  by destruct t as [| | | []].
Qed.

(** C9: when all threads have ended their reports the reporter, left alone, frees every
    header, but for those that only printed a connection: their type is 0 and
    [need_free] stays 0. *)
Theorem reports_are_freed sched s :
  permitted sched initial = true -> run sched initial = Ret s -> all_ended s ->
  exists k s', run (replicate k Worker) s = Ret s' /\ worker s' = Top /\
    forall id h, headers s' !! id = Some h -> type (report h) = 0.
Proof.
  intros Hp E He. destruct (sys_run sched initial [] sys_initial Hp) as (s1 & chain & E1 & Hs). rewrite E in E1. injection E1 as <-.
  by eapply sweep_all.
Qed.

(** ** Concrete runs *)
Lemma all_ended_check s :
  forallb (fun x => match x.2 with Linked Ended => true | _ => false end) (map_to_list (threads s)) = true -> all_ended s.
Proof.
  intros H id t Ht. rewrite forallb_forall in H. specialize (H (id, t)). rewrite <- list_elem_of_In in H.
  apply elem_of_map_to_list in Ht. specialize (H Ht). by destruct t as [| | | []].
Qed.

Lemma no_use_after_free_witness :
  exists s chain, run two_clients initial = Ret s /\ is_chain (headers s) (ReportRoot s) chain /\ NoDup chain /\
    forall id t, threads s !! id = Some t -> t <> Linked Ended -> is_Some (headers s !! id).
Proof. apply (no_use_after_free two_clients). by vm_compute. Defined.

Lemma reports_are_freed_witness :
  exists k s', run (replicate k Worker) (state_of two_clients) = Ret s' /\ worker s' = Top /\
    forall id h, headers s' !! id = Some h -> type (report h) = 0.
Proof.
  apply (reports_are_freed two_clients); [by vm_compute | by vm_compute |]. apply all_ended_check. by vm_compute.
Defined.

(** The header of a report that only prints a connection stays, and the reporter walks
    over it for good. *)
Example connection_report_stays :
  match run (only_connection ++ replicate 100 Worker) initial with
  | Ret s => (fun x => (x.1, type (report x.2))) <$> map_to_list (headers s)
  | _ => []
  end = [(5, 0)].
Proof. by vm_compute. Qed.
End IperfThreads.
