(* ===== verification/NetMessage.v ===== *)
(** * netperf/src/netlib.c: the messages of the control connection

    netperf and netserver exchange requests and responses of a fixed size: two [int]s and
    [MAXSPECDATA] more, of which a sender converts some to network byte order and a
    receiver back ([send_request_n], [recv_request_n], [send_response_n],
    [recv_response_timed_n]); doubles go through [htond] and [ntohd].

    Memory is a list of bytes; the order of the bytes of a number is that of the machine
    ([order]), so that the two ends can differ.  An [int] is its 32 bits.  [select], [send]
    and [recv] are arguments: [recv] takes what it can of a list of segments.  The
    debugging output is left out; the floats have the byte order of the integers
    (__FLOAT_WORD_ORDER). *)
From S2P Require Import Prelude.

Module NetMessage.

Inductive order := Little | Big.
#[export] Instance order_eq_dec : EqDecision order.
Proof. solve_decision. Defined.

(** ** Bytes *)
(** The [n] bytes of a number, the lowest first, and the number of some bytes. *)
Fixpoint le_bytes (n : nat) (w : Z) : list Z :=
  match n with O => [] | S n => w mod 256 :: le_bytes n (w / 256) end.
Fixpoint of_le (l : list Z) : Z := match l with [] => 0 | b :: l => b + 256 * of_le l end.
Definition store (e : order) (n : nat) (w : Z) : list Z :=
  match e with Little => le_bytes n w | Big => rev (le_bytes n w) end.
Definition load (e : order) (l : list Z) : Z := match e with Little => of_le l | Big => of_le (rev l) end.

(** [htonl] and [ntohl]: the number whose bytes on this machine are those of [w] in
    network order. *)
Definition htonl (e : order) (w : Z) : Z := load e (store Big 4 w).
Definition ntohl (e : order) (w : Z) : Z := load Big (store e 4 w).

(** ** Words in memory *)
Definition word_of (e : order) (m : list Z) (i : nat) : Z := load e (take 4 (drop (4 * i) m)).
Definition set_word (e : order) (i : nat) (w : Z) (m : list Z) : cres (list Z) :=
  if (4 * i + 4 <=? length m)%nat
  then Ret (take (4 * i) m ++ store e 4 w ++ drop (4 * i + 4) m)
  else Undef.

(** The loops over the first words of an array, from [counter] on. *)
Fixpoint convert (f : Z -> Z) (e : order) (counter count : nat) (m : list Z) : cres (list Z) :=
  match count with
  | O => Ret m
  | S count =>
      m ← set_word e counter (f (word_of e m counter)) m;
      convert f e (S counter) count m
  end.

(** ** Messages *)
Definition MAXSPECDATA : nat := 62.
(** [sizeof (netperf_request) / 4], and of a response. *)
Definition message_words : nat := S (S MAXSPECDATA).
Definition message_size : nat := (4 * message_words)%nat.

(** How many words are converted. *)
Definition convert_count (n : Z) : nat :=
  let count := if n <? 0 then Z.of_nat message_words else 2 + n in
  Z.to_nat (if Z.of_nat message_words <? count then Z.of_nat message_words else count).

(** [send] in [send_request_n] and [send_response_n]: [sent] is its answer.  What was
    sent is what is then in memory. *)
Definition send_message (e : order) (n : Z) (m : list Z) (sent : Z) : cres (list Z) :=
  m ← convert (htonl e) e 0 (convert_count n) m;
  if sent =? Z.of_nat message_size then Ret m else Exit 1.
Definition send_request_n (e : order) (remote_proc_affinity : Z) (n : Z) (netperf_request : list Z) (sent : Z) :
    cres (list Z) :=
  m ← set_word e 1 remote_proc_affinity netperf_request;
  send_message e n m sent.
Definition send_request (e : order) (remote_proc_affinity : Z) (netperf_request : list Z) (sent : Z) : cres (list Z) :=
  m ← set_word e 1 remote_proc_affinity netperf_request;
  send_request_n e remote_proc_affinity (-1) m sent.
Definition send_response_n (e : order) (n : Z) (netperf_response : list Z) (sent : Z) : cres (list Z) :=
  send_message e n netperf_response sent.
Definition send_response (e : order) (netperf_response : list Z) (sent : Z) : cres (list Z) :=
  send_response_n e (-1) netperf_response sent.

(** ** recv *)
(** What comes: bytes, the end, an error. *)
Inductive segment := Data (d : list Z) | Shut | Error.
Inductive answer := Bytes (d : list Z) | Closed | Failed.

(** [recv] of at most [left] bytes waits for the next segment and leaves what it does not
    take; nothing when no segment is left (it waits for ever). *)
Fixpoint recv (left : nat) (net : list segment) : option (answer * list segment) :=
  match net with
  | [] => None
  | Data [] :: net => recv left net
  | Data d :: net =>
      Some (Bytes (take left d), if (length d <=? left)%nat then net else Data (drop left d) :: net)
  | Shut :: _ => Some (Closed, net)
  | Error :: net => Some (Failed, net)
  end.

(** The loop around [recv], with [bytes_recvd]: the buffer, [tot_bytes_recvd], the last
    answer, and what is left of the net. *)
Fixpoint recv_loop (fuel : nat) (m : list Z) (tot : nat) (last : answer) (net : list segment) :
    cres (list Z * nat * answer * list segment) :=
  match fuel with
  | O => NoFuel
  | S fuel =>
      if (tot =? message_size)%nat then Ret (m, tot, last, net)
      else
        match recv (message_size - tot) net with
        | None => NoFuel
        | Some (Bytes d, net) =>
            recv_loop fuel (take tot m ++ d ++ drop (tot + length d) m) (tot + length d)%nat (Bytes d) net
        | Some (a, net) => Ret (m, tot, a, net)
        end
  end.

(** What [recv_request_n] returns: 0 when the other end has shut down, or the length; the
    request in host order is left in memory. *)
Inductive received := Shutdown | Message (m : list Z).

Definition recv_request_n (e : order) (n : Z) (netperf_request : list Z) (net : list segment) :
    cres (received * list segment) :=
  '(m, tot, last, net) ← recv_loop (S message_size) netperf_request 0 Closed net;
  m ← convert (ntohl e) e 0 (convert_count n) m;
  match last with
  | Failed => Exit 1
  | Closed => Ret (Shutdown, net)
  | Bytes _ => if (tot <? message_size)%nat then Exit 1 else Ret (Message m, net)
  end.
Definition recv_request (e : order) (netperf_request : list Z) (net : list segment) : cres (received * list segment) :=
  recv_request_n e (-1) netperf_request net.
(** The affinity that the request asks for. *)
Definition local_proc_affinity (e : order) (m : list Z) : Z := word_of e m 1.

(** [recv_response_timed_n]; [ready] is what [select] answers. *)
Definition recv_response_timed_n (e : order) (n : Z) (netperf_response : list Z) (ready : Z) (net : list segment) :
    cres (list Z * list segment) :=
  let m := replicate message_size 0 in
  if negb (ready =? 1) then Exit 1
  else
    '(m, tot, last, net) ← recv_loop (S message_size) m 0 Closed net;
    m ← convert (ntohl e) e 0 (convert_count n) m;
    match last with
    | Failed => Exit 1
    | _ => if (tot <? message_size)%nat then Exit 1 else Ret (m, net)
    end.
Definition recv_response_n (e : order) (n : Z) (netperf_response : list Z) (ready : Z) (net : list segment) :
    cres (list Z * list segment) :=
  recv_response_timed_n e n netperf_response ready net.

(** ** Doubles *)
(** The union of [ntohd] and [htond] is its eight bytes. *)
Fixpoint swap_bytes (i : nat) (count : nat) (b : list Z) : cres (list Z) :=
  match count with
  | O => Ret b
  | S count =>
      scratch ← deref (b !! i);
      other ← deref (b !! (7 - i)%nat);
      swap_bytes (S i) count (<[(7 - i)%nat := scratch]> (<[i := other]> b))
  end.

Definition ntohd (e : order) (net_double : list Z) : cres (list Z) :=
  if ntohl e 1 =? 1 then Ret net_double
  else
    b ← set_word e 0 (htonl e (word_of e net_double 0)) net_double;
    b ← set_word e 1 (htonl e (word_of e b 1)) b;
    swap_bytes 0 4 b.

Definition htond (e : order) (host_double : list Z) : cres (list Z) :=
  if ntohl e 1 =? 1 then Ret host_double
  else
    b ← swap_bytes 0 4 host_double;
    b ← set_word e 0 (htonl e (word_of e b 0)) b;
    set_word e 1 (htonl e (word_of e b 1)) b.

(** A double in the words [i] and [i + 1] of a message. *)
Definition set_double (i : nat) (d m : list Z) : list Z := take (4 * i) m ++ d ++ drop (4 * i + 8) m.
Definition double_at (i : nat) (m : list Z) : list Z := take 8 (drop (4 * i) m).
End NetMessage.
