(* ===== verification/NetMessageTheorems.v ===== *)
(** * netperf/src/netlib.c: what arrives is what was sent

    Module NetMessageProofs: what converting the words of a message does to its bytes, and
    what the loop around [recv] makes of segments of any size.  Module NetMessageTheorems:
    requests, responses and doubles between machines of any byte orders, over a connection
    that cuts them anywhere; and what is made of a message that is cut off. *)
From S2P Require Import Prelude NetMessage.

Module NetMessageProofs.
Import NetMessage.

(** ** Bytes *)
Definition is_byte (b : Z) : Prop := 0 <= b < 256.
Abbreviation bytes := (Forall is_byte).

Lemma length_le_bytes n w : length (le_bytes n w) = n.
Proof. revert w. induction n as [| n IH]; intros w; [done |]. cbn. by rewrite IH. Qed.
Lemma bytes_le_bytes n w : bytes (le_bytes n w).
Proof. revert w. induction n as [| n IH]; intros w; constructor; [| apply IH]. unfold is_byte. zdiv. Qed.
Lemma le_bytes_of_le l : bytes l -> le_bytes (length l) (of_le l) = l.
Proof.
  induction 1 as [| b l Hb Hl IH]; [done |]. cbn. unfold is_byte in Hb.
  rewrite (Z.mul_comm 256), Z.mod_add, Z.div_add, Z.mod_small, (Z.div_small b), Z.add_0_l by lia. by rewrite IH.
Qed.
Lemma of_le_le_bytes n w : of_le (le_bytes n w) = w mod 256 ^ Z.of_nat n.
Proof.
  revert w. induction n as [| n IH]; intros w; [by rewrite Z.mod_1_r |]. cbn [le_bytes of_le]. rewrite IH, Nat2Z.inj_succ, Z.pow_succ_r by lia.
  rewrite Z.rem_mul_r by lia. lia.
Qed.

Lemma length_store e n w : length (store e n w) = n.
Proof. destruct e; cbn; rewrite ?length_rev; apply length_le_bytes. Qed.
Lemma bytes_store e n w : bytes (store e n w).
Proof. destruct e; cbn; [| apply Forall_rev]; apply bytes_le_bytes. Qed.
Lemma store_load e l : bytes l -> store e (length l) (load e l) = l.
Proof.
  intros Hl. destruct e; cbn; [by apply le_bytes_of_le |].
  rewrite <- (length_rev l), le_bytes_of_le by (by apply Forall_rev). apply rev_involutive.
Qed.
Lemma load_store e n w : load e (store e n w) = w mod 256 ^ Z.of_nat n.
Proof. destruct e; cbn; rewrite ?rev_involutive; apply of_le_le_bytes. Qed.

(** ** Words *)
(** The bytes of a word. *)
Definition cell (m : list Z) (i : nat) : list Z := take 4 (drop (4 * i) m).
(** What converting does to them. *)
Definition flip (e : order) (g : list Z) : list Z := match e with Little => rev g | Big => g end.

Lemma store_htonl e g : bytes g -> length g = 4%nat -> store e 4 (htonl e (load e g)) = flip e g.
Proof.
  intros Hg Hl. unfold htonl. rewrite <- (length_store Big 4 (load e g)) at 1. rewrite store_load by apply bytes_store.
  pose proof (store_load e g Hg) as E. rewrite Hl in E. destruct e; cbn [store flip] in *; congruence.
Qed.
Lemma store_ntohl e g : bytes g -> length g = 4%nat -> store e 4 (ntohl e (load e g)) = flip e g.
Proof.
  intros Hg Hl. unfold ntohl. pose proof (store_load e g Hg) as E. rewrite Hl in E. rewrite E.
  destruct e; cbn [load flip]; [| exact E]. pose proof (store_load Little (rev g) ltac:(by apply Forall_rev)) as E'.
  rewrite length_rev, Hl in E'. exact E'.
Qed.

(** The number does not change on its way. *)
Lemma load_flips e1 e2 g : load e2 (flip e2 (flip e1 g)) = load e1 g.
Proof. destruct e1, e2; cbn; by rewrite ?rev_involutive. Qed.
Lemma flip_involutive e g : flip e (flip e g) = g.
Proof. destruct e; [apply rev_involutive | done]. Qed.

Lemma cell_length m i : (4 * i + 4 <= length m)%nat -> length (cell m i) = 4%nat.
Proof. intros. unfold cell. rewrite length_take, length_drop. lia. Qed.
Lemma cell_bytes m i : bytes m -> bytes (cell m i).
Proof. intros. by apply Forall_take, Forall_drop. Qed.

Lemma lookup_cell m i k : (k < 4)%nat -> cell m i !! k = m !! (4 * i + k)%nat.
Proof. intros Hk. unfold cell. by rewrite lookup_take_lt, lookup_drop by done. Qed.

(** Two memories with the same words. *)
Lemma cells_eq n m m' :
  length m = (4 * n)%nat -> length m' = (4 * n)%nat -> (forall i, (i < n)%nat -> cell m i = cell m' i) -> m = m'.
Proof.
  intros Hl Hl' H. apply list_eq. intros k. destruct (decide (k < 4 * n)%nat) as [Hk | Hk].
  - pose proof (Nat.div_mod_eq k 4). pose proof (Nat.mod_upper_bound k 4 ltac:(lia)).
    specialize (H (k / 4)%nat ltac:(apply Nat.Div0.div_lt_upper_bound; lia)).
    apply (f_equal (fun l => l !! (k mod 4)%nat)) in H. rewrite !lookup_cell in H by lia.
    by replace (4 * (k / 4) + k mod 4)%nat with k in H by lia.
  - rewrite !lookup_ge_None_2 by lia. done.
Qed.

Lemma set_word_cells e i w m :
  (4 * i + 4 <= length m)%nat ->
  exists m', set_word e i w m = Ret m' /\ length m' = length m /\ (bytes m -> bytes m') /\
    forall j, cell m' j = if decide (j = i) then store e 4 w else cell m j.
Proof.
  intros Hi. unfold set_word. rewrite (proj2 (Nat.leb_le _ _) Hi). eexists. split; [done |].
  pose proof (length_store e 4 w) as Hs. split_and!.
  - rewrite !length_app, length_take, length_drop, Hs. lia.
  - intros Hm. rewrite !Forall_app. split_and!; [by apply Forall_take | apply bytes_store | by apply Forall_drop].
  - intros j. destruct (decide (j = i)) as [-> | Hne]; unfold cell.
    + rewrite drop_app_ge, length_take, Nat.min_l, Nat.sub_diag, drop_0 by (rewrite ?length_take; lia).
      rewrite take_app_le by lia. by rewrite take_ge by lia.
    + destruct (decide (j < i)%nat) as [L | L].
      * rewrite drop_app_le by (rewrite length_take; lia). rewrite take_app_le by (rewrite length_drop, length_take; lia).
        by rewrite !take_drop_commute, take_take, Nat.min_l by lia.
      * rewrite app_assoc, drop_app_ge by (rewrite length_app, length_take, Hs; lia).
        rewrite length_app, length_take, Hs, drop_drop. do 2 f_equal. lia.
Qed.

Lemma convert_cells f e c k m :
  (forall g, bytes g -> length g = 4%nat -> store e 4 (f (load e g)) = flip e g) ->
  (4 * (c + k) <= length m)%nat -> bytes m ->
  exists m', convert f e c k m = Ret m' /\ length m' = length m /\ bytes m' /\
    forall j, cell m' j = if decide (c <= j < c + k)%nat then flip e (cell m j) else cell m j.
Proof.
  intros Hf. revert c m. induction k as [| k IH]; intros c m Hl Hm.
  - exists m. split_and!; try done. intros j. by rewrite decide_False by lia.
  - cbn [convert]. destruct (set_word_cells e c (f (word_of e m c)) m ltac:(lia)) as (m1 & -> & L1 & B1 & C1). rewrite bind_Ret.
    destruct (IH (S c) m1 ltac:(lia) (B1 Hm)) as (m2 & -> & L2 & B2 & C2). exists m2. split_and!; [done | lia | done |].
    intros j. rewrite C2, C1. change (word_of e m c) with (load e (cell m c)).
    rewrite Hf; [| by apply cell_bytes | apply cell_length; lia].
    destruct (decide (j = c)) as [-> | Hne]; repeat case_decide; done || lia.
Qed.

(** ** The net *)
Lemma recv_data left segs rest :
  (0 < left)%nat -> concat segs <> [] ->
  exists d segs', recv left ((Data <$> segs) ++ rest) = Some (Bytes d, (Data <$> segs') ++ rest) /\
    d ++ concat segs' = concat segs /\ (0 < length d <= left)%nat.
Proof.
  intros Hl. induction segs as [| [| b d] segs IH]; intros Hne; [done | |].
  - destruct (IH Hne) as (d & segs' & E & H). by exists d, segs'.
  - cbn [fmap list_fmap app recv]. case_match eqn:E.
    + apply Nat.leb_le in E. exists (b :: d), segs. rewrite take_ge by done. cbn in *. split_and!; done || lia.
    + apply Nat.leb_gt in E. exists (take left (b :: d)), (drop left (b :: d) :: segs). split_and!; [done | | |].
      * by rewrite concat_cons, app_assoc, take_drop.
      * rewrite length_take. cbn in *. lia.
      * rewrite length_take. lia.
Qed.
Lemma recv_none left segs rest : concat segs = [] -> recv left ((Data <$> segs) ++ rest) = recv left rest.
Proof. induction segs as [| [| b d] segs IH]; [done | exact IH | done]. Qed.

(** A whole message, however it is cut: what follows it is left on the net. *)
Lemma recv_loop_whole fuel segs rest need more m tot a :
  length m = message_size -> (tot + length need)%nat = message_size -> (length need < fuel)%nat ->
  concat segs = need ++ more -> (need = [] -> exists d, a = Bytes d) ->
  exists d segs', recv_loop fuel m tot a ((Data <$> segs) ++ rest) =
      Ret (take tot m ++ need, message_size, Bytes d, (Data <$> segs') ++ rest) /\ concat segs' = more.
Proof.
  revert segs need m tot a. induction fuel as [| fuel IH]; intros segs need m tot a Hm Ht Hf Hc Ha; [lia |]. cbn [recv_loop].
  destruct (decide (need = [])) as [-> | Hne].
  - rewrite Nat.add_0_r in Ht. destruct (Ha eq_refl) as [d ->]. exists d, segs. rewrite app_nil_r, (proj2 (Nat.eqb_eq tot _)), take_ge by lia.
    split; [| done]. by replace tot with message_size by lia.
  - assert (0 < length need)%nat by (by destruct need; [| cbn; lia]).
    rewrite (proj2 (Nat.eqb_neq tot _)) by lia.
    destruct (recv_data (message_size - tot) segs rest) as (d & segs' & -> & Ed & Ld); [lia | rewrite Hc; by destruct need |].
    assert (need = d ++ drop (length d) need) as Hn.
    { rewrite <- (take_drop (length d) need) at 1. f_equal. rewrite Hc in Ed. apply (f_equal (take (length d))) in Ed.
      rewrite take_app_length, take_app_le in Ed by lia. done. }
    destruct (IH segs' (drop (length d) need) (take tot m ++ d ++ drop (tot + length d) m) (tot + length d)%nat (Bytes d)) as (d' & segs2 & -> & Es).
    + rewrite !length_app, length_take, length_drop. lia.
    + rewrite length_drop. lia.
    + rewrite length_drop. lia.
    + rewrite Hc, Hn, <- app_assoc in Ed. by apply app_inv_head in Ed.
    + by exists d.
    + exists d', segs2. split; [| done]. do 4 f_equal. rewrite Hn at 2.
      rewrite app_assoc, take_app_le by (rewrite length_app, length_take; lia).
      by rewrite app_assoc, take_ge by (rewrite length_app, length_take; lia).
Qed.

(** A message that is cut off by [stop]. *)
Lemma recv_loop_short fuel segs stop rest m tot a :
  length m = message_size -> (tot + length (concat segs) < message_size)%nat -> (length (concat segs) < fuel)%nat ->
  match stop with Data _ => False | _ => True end ->
  recv_loop fuel m tot a ((Data <$> segs) ++ stop :: rest) =
    Ret (take tot m ++ concat segs ++ drop (tot + length (concat segs)) m, (tot + length (concat segs))%nat,
         match stop with Error => Failed | _ => Closed end,
         match stop with Error => rest | _ => stop :: rest end).
Proof.
  revert segs m tot a. induction fuel as [| fuel IH]; intros segs m tot a Hm Ht Hf Hs; [lia |]. cbn [recv_loop].
  rewrite (proj2 (Nat.eqb_neq tot _)) by lia.
  destruct (decide (concat segs = [])) as [E | Hne].
  - rewrite recv_none, E by done. cbn [length app]. rewrite Nat.add_0_r, take_drop. by destruct stop; [destruct Hs | |].
  - destruct (recv_data (message_size - tot) segs (stop :: rest)) as (d & segs' & -> & Ed & Ld); [lia | done |].
    pose proof (f_equal length Ed) as El. rewrite length_app in El.
    rewrite IH; [| rewrite !length_app, length_take, length_drop; lia | lia | lia | done].
    assert (take (tot + length d) (take tot m ++ d ++ drop (tot + length d) m) = take tot m ++ d) as Et.
    { rewrite app_assoc, take_app_le by (rewrite length_app, length_take; lia). by rewrite take_ge by (rewrite length_app, length_take; lia). }
    assert (drop (tot + length d + length (concat segs')) (take tot m ++ d ++ drop (tot + length d) m) =
            drop (tot + length (concat segs)) m) as Er.
    { rewrite app_assoc, drop_app_ge by (rewrite length_app, length_take; lia). rewrite drop_drop, length_app, length_take. f_equal. lia. }
    rewrite Et, Er, <- Ed, <- !app_assoc. by replace (tot + length d + length (concat segs'))%nat with (tot + length (d ++ concat segs'))%nat by (rewrite length_app; lia).
Qed.
End NetMessageProofs.

Module NetMessageTheorems.
Import NetMessage NetMessageProofs.

(** ** A message on its way *)
Lemma convert_count_le n : (2 <= convert_count n <= message_words)%nat.
Proof.
  unfold convert_count. cbv zeta. assert (Z.of_nat message_words = 64) as -> by done.
  change message_words with 64%nat. repeat case_match; lia.
Qed.

(** The bytes of word [i] at the receiver. *)
Definition crossed (e1 e2 : order) (n : Z) (m : list Z) (i : nat) : list Z :=
  if (i <? convert_count n)%nat then flip e2 (flip e1 (cell m i)) else cell m i.

Lemma message_crosses e1 e2 n m :
  bytes m -> length m = message_size ->
  exists wire, send_message e1 n m (Z.of_nat message_size) = Ret wire /\ bytes wire /\ length wire = message_size /\
    exists m', convert (ntohl e2) e2 0 (convert_count n) wire = Ret m' /\ length m' = message_size /\ bytes m' /\
      forall i, cell m' i = crossed e1 e2 n m i.
Proof.
  intros Hm Hl. assert (4 * (0 + convert_count n) <= message_size)%nat as Hc.
  { unfold message_size. pose proof (convert_count_le n). lia. }
  destruct (convert_cells (htonl e1) e1 0 (convert_count n) m) as (w & Ew & Lw & Bw & Cw);
    [intros; by apply store_htonl | lia | done |].
  exists w. unfold send_message. rewrite Ew, bind_Ret, Z.eqb_refl. split_and!; [done | done | lia |].
  destruct (convert_cells (ntohl e2) e2 0 (convert_count n) w) as (m' & Em & Lm & Bm & Cm);
    [intros; by apply store_ntohl | lia | done |].
  exists m'. split_and!; [done | lia | done |]. intros i. rewrite Cm, Cw. unfold crossed.
  destruct (i <? convert_count n)%nat eqn:E; [apply Nat.ltb_lt in E; rewrite !decide_True by lia | apply Nat.ltb_ge in E; rewrite !decide_False by lia]; done.
Qed.

(** A converted word is the same number. *)
Lemma crossed_word e1 e2 n m i :
  (i < convert_count n)%nat -> load e2 (crossed e1 e2 n m i) = word_of e1 m i.
Proof. intros H. unfold crossed. rewrite (proj2 (Nat.ltb_lt _ _) H). apply load_flips. Qed.
Lemma crossed_same e1 e2 n m i : (convert_count n <= i)%nat -> crossed e1 e2 n m i = cell m i.
Proof. intros H. unfold crossed. by rewrite (proj2 (Nat.ltb_ge _ _) H). Qed.

Lemma recv_whole segs rest wire more m :
  length m = message_size -> length wire = message_size -> concat segs = wire ++ more ->
  exists d segs', recv_loop (S message_size) m 0 Closed ((Data <$> segs) ++ rest) =
      Ret (wire, message_size, Bytes d, (Data <$> segs') ++ rest) /\ concat segs' = more.
Proof. intros Hm Hw Hc. apply (recv_loop_whole _ _ _ wire more m 0 Closed); [done | done | lia | done |]. by intros ->. Qed.

(** ** Doubles *)
Lemma flip_word e i b :
  bytes b -> (4 * i + 4 <= length b)%nat ->
  set_word e i (htonl e (word_of e b i)) b = Ret (take (4 * i) b ++ flip e (cell b i) ++ drop (4 * i + 4) b).
Proof.
  intros Hb Hi. unfold set_word. rewrite (proj2 (Nat.leb_le _ _) Hi). change (word_of e b i) with (load e (cell b i)).
  rewrite store_htonl; [done | by apply cell_bytes | by apply cell_length].
Qed.
Lemma bytes_flip e l : bytes l -> bytes (flip e l).
Proof. destruct e; [apply Forall_rev | done]. Qed.

(** What the two words of a double are on the wire. *)
Definition wire_double (e : order) (d : list Z) : list Z := flip e (cell d 0) ++ flip e (cell d 1).

Lemma eight (d : list Z) : length d = 8%nat -> exists b0 b1 b2 b3 b4 b5 b6 b7, d = [b0; b1; b2; b3; b4; b5; b6; b7].
Proof. intros H. do 8 (destruct d as [| ? d]; [done |]). destruct d; [| done]. by do 8 eexists. Qed.

Lemma htond_wire e d :
  bytes d -> length d = 8%nat -> exists d', htond e d = Ret d' /\ bytes d' /\ length d' = 8%nat /\ wire_double e d' = flip e d.
Proof.
  intros Hd Hl. destruct (eight d Hl) as (b0 & b1 & b2 & b3 & b4 & b5 & b6 & b7 & ->). unfold htond.
  assert (bytes [b7; b6; b5; b4; b3; b2; b1; b0]) as Hr by (apply (bytes_flip Little) in Hd; exact Hd).
  destruct e; [| by eexists]. change (ntohl Little 1 =? 1) with false. cbv iota.
  change (swap_bytes 0 4 [b0; b1; b2; b3; b4; b5; b6; b7]) with (Ret [b7; b6; b5; b4; b3; b2; b1; b0]). rewrite bind_Ret.
  rewrite flip_word, bind_Ret by (done || cbn; lia). cbn -[htonl word_of set_word].
  rewrite flip_word; [| | cbn; lia].
  - eexists. split; [done |]. cbn. split_and!; [| done | done]. rewrite !Forall_cons in *. tauto.
  - rewrite !Forall_cons in *. tauto.
Qed.
Lemma ntohd_wire e d : bytes d -> length d = 8%nat -> ntohd e d = Ret (flip e (wire_double e d)).
Proof.
  intros Hd Hl. destruct (eight d Hl) as (b0 & b1 & b2 & b3 & b4 & b5 & b6 & b7 & ->). unfold ntohd.
  destruct e; [| done]. change (ntohl Little 1 =? 1) with false. cbv iota.
  rewrite flip_word, bind_Ret by (done || cbn; lia). cbn -[htonl word_of set_word].
  rewrite flip_word, bind_Ret; [done | | cbn; lia]. rewrite !Forall_cons in *. tauto.
Qed.

Lemma cell_set_double i d m j :
  length d = 8%nat -> (4 * i + 8 <= length m)%nat ->
  cell (set_double i d m) j = if decide (j = i) then cell d 0 else if decide (j = S i) then cell d 1 else cell m j.
Proof.
  intros Hd Hi. apply list_eq. intros k. destruct (decide (k < 4)%nat) as [Hk |].
  2: { rewrite !lookup_ge_None_2; [done | |]; repeat case_decide; unfold cell; rewrite length_take; lia. }
  rewrite lookup_cell by done. unfold set_double.
  assert (length (take (4 * i) m) = (4 * i)%nat) as Ht by (rewrite length_take; lia).
  destruct (decide (4 * j + k < 4 * i)%nat) as [L | L].
  - rewrite lookup_app_l by lia. rewrite lookup_take_lt by lia. repeat case_decide; by (lia || rewrite lookup_cell).
  - rewrite lookup_app_r by lia. rewrite Ht. destruct (decide (4 * j + k < 4 * i + 8)%nat) as [L2 | L2].
    + rewrite lookup_app_l by lia. repeat case_decide; try lia; rewrite lookup_cell by done; f_equal; lia.
    + rewrite lookup_app_r, lookup_drop by lia. repeat case_decide; try lia; rewrite lookup_cell by done; f_equal; lia.
Qed.
Lemma double_at_cells i m : double_at i m = cell m i ++ cell m (S i).
Proof.
  unfold double_at, cell. replace (4 * S i)%nat with (4 * i + 4)%nat by lia. rewrite <- drop_drop.
  generalize (drop (4 * i) m). intros l. do 4 (destruct l as [| ? l]; [done |]). done.
Qed.
Lemma length_set_double i d m :
  length d = 8%nat -> (4 * i + 8 <= length m)%nat -> length (set_double i d m) = length m.
Proof. intros. unfold set_double. rewrite !length_app, length_take, length_drop. lia. Qed.
Lemma bytes_set_double i d m : bytes d -> bytes m -> bytes (set_double i d m).
Proof. intros. unfold set_double. rewrite !Forall_app. split_and!; [by apply Forall_take | done | by apply Forall_drop]. Qed.

Lemma set_word_twice e i w m m1 : set_word e i w m = Ret m1 -> set_word e i w m1 = Ret m1.
Proof.
  unfold set_word. remember (4 * i)%nat as c eqn:Hc. case_match eqn:E; [| done]. apply Nat.leb_le in E. intros [= <-].
  pose proof (length_store e 4 w) as Hs. assert (length (take c m) = c) as Ht by (rewrite length_take; lia).
  rewrite (proj2 (Nat.leb_le _ _)) by (rewrite !length_app, length_drop; lia). do 2 f_equal.
  - by rewrite take_app_le, take_ge by lia.
  - f_equal. rewrite app_assoc, drop_app_ge by (rewrite length_app; lia). rewrite length_app, Ht, Hs, Nat.sub_diag. done.
Qed.
Lemma send_request_all e affinity m sent : send_request e affinity m sent = send_request_n e affinity (-1) m sent.
Proof.
  unfold send_request, send_request_n. destruct (set_word e 1 affinity m) as [m1 | | |] eqn:E; try done.
  rewrite !bind_Ret. by rewrite (set_word_twice _ _ _ _ _ E), bind_Ret.
Qed.

(** C14: A request arrives.  Whatever the byte orders of netperf's machine and of
    netserver's, and however the connection cuts the 256 bytes into segments or joins them
    with what follows: if both ends convert the same number of words, [recv_request_n]
    returns the whole request and leaves exactly what comes after it; it asks for the
    processor affinity of the sender; every other converted word is the number that it was
    at the sender, and every word beyond the count has the bytes that it had. *)
Theorem request_arrives e1 e2 n affinity request buffer :
  bytes request -> length request = message_size -> length buffer = message_size ->
  exists wire,
    send_request_n e1 affinity n request (Z.of_nat message_size) = Ret wire /\
    (n < 0 -> send_request e1 affinity request (Z.of_nat message_size) = Ret wire) /\
    forall segs more rest, concat segs = wire ++ more ->
      exists m segs',
        recv_request_n e2 n buffer ((Data <$> segs) ++ rest) = Ret (Message m, (Data <$> segs') ++ rest) /\
        concat segs' = more /\ length m = message_size /\
        local_proc_affinity e2 m = affinity mod 2 ^ 32 /\
        forall i, (i < message_words)%nat -> i <> 1%nat ->
          if (i <? convert_count n)%nat then word_of e2 m i = word_of e1 request i else cell m i = cell request i.
Proof.
  intros Hb Hl Hu. destruct (set_word_cells e1 1 affinity request) as (r1 & E1 & L1 & B1 & C1); [rewrite Hl; unfold message_size; cbn; lia |].
  destruct (message_crosses e1 e2 n r1 (B1 Hb) ltac:(congruence)) as (wire & Ew & Bw & Lw & m & Em & Lm & Bm & Cm).
  exists wire. split_and!.
  - unfold send_request_n. by rewrite E1, bind_Ret.
  - intros Hn. rewrite send_request_all. unfold send_request_n. rewrite E1, bind_Ret, <- Ew.
    unfold send_message, convert_count. by rewrite (proj2 (Z.ltb_lt n 0) Hn).
  - intros segs more rest Hc. destruct (recv_whole segs rest wire more buffer Hu Lw Hc) as (d & segs' & Er & Es).
    exists m, segs'. pose proof (convert_count_le n). split_and!; [| done | done | |].
    + unfold recv_request_n. rewrite Er, bind_Ret. cbv beta iota. rewrite Em, bind_Ret. by rewrite Nat.ltb_irrefl.
    + change (local_proc_affinity e2 m) with (load e2 (cell m 1)). rewrite Cm, crossed_word by lia.
      change (word_of e1 r1 1) with (load e1 (cell r1 1)). rewrite C1, decide_True by done. apply load_store.
    + intros i Hi Hne. case_match eqn:E; [apply Nat.ltb_lt in E | apply Nat.ltb_ge in E].
      * change (word_of e2 m i) with (load e2 (cell m i)). rewrite Cm, crossed_word by done.
        change (word_of e1 r1 i) with (load e1 (cell r1 i)). by rewrite C1, decide_False.
      * by rewrite Cm, crossed_same, C1, decide_False.
Qed.

(** C15: A double arrives in a response.  [htond] at the server, in any two words that both
    ends convert, and [ntohd] at the client, give the same number: its eight bytes, read in
    the order of the client's machine, are what they were in the order of the server's,
    although the words are converted one by one on the way.  The words beside it arrive as
    in a request, and what follows the response is left on the connection. *)
Theorem double_arrives e1 e2 n i d response buffer :
  bytes d -> length d = 8%nat -> bytes response -> length response = message_size -> (S i < convert_count n)%nat ->
  exists d' wire,
    htond e1 d = Ret d' /\ send_response_n e1 n (set_double i d' response) (Z.of_nat message_size) = Ret wire /\
    forall segs more rest, concat segs = wire ++ more ->
      exists m segs' b,
        recv_response_n e2 n buffer 1 ((Data <$> segs) ++ rest) = Ret (m, (Data <$> segs') ++ rest) /\
        concat segs' = more /\ ntohd e2 (double_at i m) = Ret b /\ load e2 b = load e1 d /\
        forall j, (j < message_words)%nat -> j <> i -> j <> S i ->
          if (j <? convert_count n)%nat then word_of e2 m j = word_of e1 response j else cell m j = cell response j.
Proof.
  intros Hd Hld Hb Hl Hi. destruct (htond_wire e1 d Hd Hld) as (d' & Ed & Bd & Ld & Wd).
  pose proof (convert_count_le n). assert (4 * i + 8 <= length response)%nat as Hr by (rewrite Hl; unfold message_size; lia).
  pose proof (cell_set_double i d' response) as CC.
  destruct (message_crosses e1 e2 n (set_double i d' response)) as (wire & Ew & Bw & Lw & m & Em & Lm & Bm & Cm);
    [by apply bytes_set_double | by rewrite length_set_double |].
  exists d', wire. split_and!; [done | exact Ew |]. intros segs more rest Hc.
  destruct (recv_whole segs rest wire more (replicate message_size 0) ltac:(apply length_replicate) Lw Hc) as (a & segs' & Er & Es).
  assert (double_at i m = flip e2 (flip e1 (cell d' 0)) ++ flip e2 (flip e1 (cell d' 1))) as Da.
  { rewrite double_at_cells, !Cm. unfold crossed. rewrite !(proj2 (Nat.ltb_lt _ _)), !CC by lia.
    by rewrite decide_True, (decide_False (P := S i = i)), decide_True by lia. }
  assert (length (double_at i m) = 8%nat) as L8.
  { unfold double_at. rewrite length_take, length_drop, Lm. lia. }
  exists m, segs', (flip e2 (flip e1 d)). split_and!; [| done | | apply load_flips |].
  - unfold recv_response_n, recv_response_timed_n. cbn [Z.eqb Pos.eqb negb]. rewrite Er, bind_Ret. cbv beta iota.
    rewrite Em, bind_Ret. by rewrite Nat.ltb_irrefl.
  - rewrite ntohd_wire; [| by apply Forall_take, Forall_drop | done]. do 2 f_equal. rewrite <- Wd. unfold wire_double. rewrite Da.
    destruct (eight d' Ld) as (b0 & b1 & b2 & b3 & b4 & b5 & b6 & b7 & ->). by destruct e1, e2.
  - intros j Hj N1 N2. case_match eqn:E; [apply Nat.ltb_lt in E | apply Nat.ltb_ge in E].
    + change (word_of e2 m j) with (load e2 (cell m j)). rewrite Cm, crossed_word by done.
      unfold word_of at 1. fold (cell (set_double i d' response) j). by rewrite CC, !decide_False.
    + by rewrite Cm, crossed_same, CC, !decide_False.
Qed.

(** C19: A message that is cut off.  When the connection ends inside a request,
    [recv_request_n] says that the other side has shut down - the test of the last answer
    comes before that of the length, so that the exit for a partial request is never
    taken -, and it stays shut; inside a response, and after an error of [recv] in either,
    the program exits with 1, as it does when [select] does not say that exactly one
    descriptor is ready. *)
Theorem message_cut_off e n segs stop rest buffer :
  bytes buffer -> bytes (concat segs) -> length buffer = message_size -> (length (concat segs) < message_size)%nat ->
  recv_request_n e n buffer ((Data <$> segs) ++ Shut :: rest) = Ret (Shutdown, Shut :: rest) /\
  recv_request_n e n buffer ((Data <$> segs) ++ Error :: rest) = Exit 1 /\
  recv_response_n e n buffer 1 ((Data <$> segs) ++ Shut :: rest) = Exit 1 /\
  recv_response_n e n buffer 1 ((Data <$> segs) ++ Error :: rest) = Exit 1 /\
  forall ready, ready <> 1 -> recv_response_n e n buffer ready stop = Exit 1.
Proof.
  intros Hb Hs Hl Hlt. set (k := length (concat segs)) in *. pose proof (convert_count_le n) as Hc.
  assert (forall m, bytes m -> length m = message_size ->
    exists m', convert (ntohl e) e 0 (convert_count n) (take 0 m ++ concat segs ++ drop (0 + k) m) = Ret m') as Hconv.
  { intros m Bm Lm. destruct (convert_cells (ntohl e) e 0 (convert_count n) (concat segs ++ drop k m)) as (m' & E & _);
      [intros; by apply store_ntohl | | apply Forall_app; split; [done | by apply Forall_drop] | by exists m'].
    rewrite length_app, length_drop, Lm. unfold k, message_size in *. lia. }
  assert (bytes (replicate message_size 0)) as Hz by (apply Forall_replicate; unfold is_byte; lia).
  pose proof (length_replicate message_size 0) as Lz.
  destruct (Hconv _ Hb Hl) as [m1 E1], (Hconv _ Hz Lz) as [m2 E2].
  unfold recv_request_n, recv_response_n, recv_response_timed_n. cbn [Z.eqb Pos.eqb negb].
  rewrite !recv_loop_short by (done || lia). rewrite !bind_Ret. cbv beta iota. fold k. rewrite E1, E2, !bind_Ret.
  rewrite (proj2 (Nat.ltb_lt _ _)) by exact Hlt. split_and!; try done.
  intros ready Hr. by rewrite (proj2 (Z.eqb_neq _ _) Hr).
Qed.

(** ** At work *)
Lemma bytes_replicate n b : 0 <= b < 256 -> bytes (replicate n b).
Proof. intros. by apply Forall_replicate. Qed.

(** A little-endian netperf, a big-endian netserver, three words converted, two segments. *)
Lemma request_arrives_witness :
  exists wire, send_request_n Little 5 3 (replicate message_size 7) (Z.of_nat message_size) = Ret wire /\
    exists m segs', recv_request_n Big 3 (replicate message_size 0) ((Data <$> [take 100 wire; drop 100 wire ++ [9]]) ++ [Shut]) =
        Ret (Message m, (Data <$> segs') ++ [Shut]) /\
      concat segs' = [9] /\ local_proc_affinity Big m = 5 /\ word_of Big m 2 = 117901063 /\ cell m 6 = [7; 7; 7; 7].
Proof.
  destruct (request_arrives Little Big 3 5 (replicate message_size 7) (replicate message_size 0)
    ltac:(by apply bytes_replicate) eq_refl eq_refl) as (wire & Ew & _ & H).
  exists wire. split; [exact Ew |]. destruct (H [take 100 wire; drop 100 wire ++ [9]] [9] [Shut]) as (m & segs' & E & C & _ & A & W).
  { cbn [concat]. by rewrite app_nil_r, app_assoc, take_drop. }
  exists m, segs'. split_and!; [exact E | exact C | by rewrite A | |].
  - specialize (W 2%nat ltac:(apply Nat.ltb_lt; by vm_compute) ltac:(done)). change (2 <? convert_count 3)%nat with true in W.
    cbv iota in W. rewrite W. by vm_compute.
  - specialize (W 6%nat ltac:(apply Nat.ltb_lt; by vm_compute) ltac:(done)). change (6 <? convert_count 3)%nat with false in W.
    cbv iota in W. rewrite W. by vm_compute.
Defined.

(** 1.0 from a big-endian netserver to a little-endian netperf. *)
Lemma double_arrives_witness :
  exists d' wire, htond Big [63; 240; 0; 0; 0; 0; 0; 0] = Ret d' /\
    send_response_n Big (-1) (set_double 4 d' (replicate message_size 1)) (Z.of_nat message_size) = Ret wire /\
    exists m segs' b, recv_response_n Little (-1) [] 1 ((Data <$> [wire]) ++ []) = Ret (m, (Data <$> segs') ++ []) /\
      concat segs' = [] /\ ntohd Little (double_at 4 m) = Ret b /\ load Little b = 4607182418800017408.
Proof.
  destruct (double_arrives Big Little (-1) 4 [63; 240; 0; 0; 0; 0; 0; 0] (replicate message_size 1) []
    ltac:(repeat constructor; done) eq_refl ltac:(by apply bytes_replicate) eq_refl
    ltac:(apply Nat.ltb_lt; by vm_compute)) as (d' & wire & Ed & Ew & H).
  exists d', wire. split_and!; [exact Ed | exact Ew |]. destruct (H [wire] [] []) as (m & segs' & b & E & C & N & V & _).
  { cbn [concat]. done. }
  exists m, segs', b. split_and!; [exact E | exact C | exact N |]. rewrite V. by vm_compute.
Defined.

(** One byte of a request. *)
Lemma message_cut_off_witness :
  recv_request_n Little (-1) (replicate message_size 0) [Data [1]; Shut] = Ret (Shutdown, [Shut]) /\
  recv_response_n Little (-1) [] 0 [] = Exit 1.
Proof.
  destruct (message_cut_off Little (-1) [[1]] [] [] (replicate message_size 0)) as (A & _).
  - by apply bytes_replicate.
  - repeat constructor; done.
  - done.
  - apply Nat.ltb_lt. by vm_compute.
  - split; [exact A | reflexivity].
Defined.
End NetMessageTheorems.
