(* ===== verification/NetHist.v ===== *)
(** * netperf/src/netlib.c, hist.h: the histogram of latencies

    The buckets ([HIST_add]), the percentiles and statistics that are read from them
    ([HIST_get_percentile], [HIST_get_stats], [HIST_report]), and the ring of the times at
    which transactions that are under way began ([HIST_timestamp_start],
    [HIST_timestamp_stop_add]).

    [float] is the binary32 and [double] the binary64 of SpecFloat, and every operation rounds
    to its type (FLT_EVAL_METHOD is 0); [pow] is the square.  An
    [int] that overflows, an index out of an array and a conversion of a floating-point
    number that does not fit are undefined.  The build is that without HAVE_GETHRTIME,
    whose time stamps are [struct timeval]s; what [gettimeofday] and [malloc] answer are
    arguments, and the lines that [HIST_report] prints are lists of their numbers. *)
From Stdlib Require Import Floats.SpecFloat.
From S2P Require Import Prelude Doubles.

Module NetHist.
Import Doubles.

(** ** Numbers *)
Definition cint (z : Z) : cres Z := if bool_decide (is_int z) then Ret z else Undef.
Definition single (z : Z) : spec_float := binary_normalize 24 128 z 0 false.
Definition smul : spec_float -> spec_float -> spec_float := SFmul 24 128.
Definition sdiv : spec_float -> spec_float -> spec_float := SFdiv 24 128.
(** The conversion to [int]. *)
Definition to_int (x : spec_float) : cres Z :=
  match x with
  | S754_zero _ => Ret 0
  | S754_finite sign m e => cint (if sign then - Z.shiftl (Zpos m) e else Z.shiftl (Zpos m) e)
  | _ => Undef
  end.
(** [pow (x, 2)]. *)
Definition pow2 (x : spec_float) : spec_float := fmul x x.

(** ** struct histogram_struct *)
Definition HIST_NUM_OF_BUCKET : nat := 100.
Definition base : Z := Z.of_nat HIST_NUM_OF_BUCKET / 10.

Inductive row := unit_usec | ten_usec | hundred_usec | unit_msec | ten_msec | hundred_msec | unit_sec | ten_sec.
#[export] Instance row_eq_dec : EqDecision row.
Proof. solve_decision. Defined.

Record timeval := Timeval { tv_sec : Z; tv_usec : Z }.
Record histogram := Histogram {
  buckets : row -> list Z;
  ridiculous : Z; total : Z; sum : Z; sumsquare : spec_float; hmin : Z; hmax : Z;
  limit : Z; count : Z; producer : Z; consumer : Z;
  time_ones : list (option timeval);
  time_two : option timeval }.

Definition set_row (b : row -> list Z) (r : row) (l : list Z) : row -> list Z :=
  fun r' => if decide (r' = r) then l else b r'.

(** [HIST_clear]: the time stamps are forgotten, and with them the ring. *)
Definition HIST_clear (h : histogram) : histogram :=
  Histogram (fun _ => replicate HIST_NUM_OF_BUCKET 0) 0 0 0 fzero 0 0 0 0 0 0 [] (time_two h).

(** [malloc] answers NULL or memory whose contents are not known. *)
Definition HIST_new_n (max_outstanding : Z) (malloc_h malloc_times : bool) : cres histogram :=
  if negb malloc_h then Exit 1
  else
    let h := HIST_clear (Histogram (fun _ => []) 0 0 0 fzero 0 0 0 0 0 0 [] None) in
    limit ← cint (max_outstanding + 1);
    if negb malloc_times || (limit <? 0) then Exit 1
    else Ret (Histogram (buckets h) (ridiculous h) (total h) (sum h) (sumsquare h) (hmin h) (hmax h)
      limit (count h) (producer h) (consumer h) (replicate (Z.to_nat limit) None) (time_two h)).
Definition HIST_new (malloc_h malloc_times : bool) : cres histogram := HIST_new_n 0 malloc_h malloc_times.

Definition HIST_purge (h : histogram) : histogram :=
  Histogram (buckets h) (ridiculous h) (total h) (sum h) (sumsquare h) (hmin h) (hmax h)
    (limit h) 0 0 0 (time_ones h) (time_two h).

(** ** HIST_add *)
(** The nested ifs: the row, and [val] at it. *)
Fixpoint place (r : row) (rest : list row) (val : spec_float) : option (row * spec_float) :=
  if SFltb val (single 10) then Some (r, val)
  else match rest with [] => None | r' :: rest => place r' rest (sdiv val (single 10)) end.
Definition larger_rows : list row := [ten_usec; hundred_usec; unit_msec; ten_msec; hundred_msec; unit_sec; ten_sec].

(** [l[i]++] *)
Definition incr (l : list Z) (i : Z) : cres (list Z) :=
  n ← deref (aget l i);
  n ← cint (n + 1);
  deref (aset l i n).

Definition HIST_add (keep_statistics : bool) (h : histogram) (time_delta : Z) : cres histogram :=
  let lo := if total h =? 0 then time_delta else hmin h in
  let hi := if total h =? 0 then time_delta else hmax h in
  t ← cint (total h + 1);
  s ← cint (sum h + time_delta);
  let sq := if keep_statistics then fadd (sumsquare h) (pow2 (double time_delta)) else sumsquare h in
  let lo := if lo <? time_delta then lo else time_delta in
  let hi := if time_delta <? hi then hi else time_delta in
  let val := single time_delta in
  r ← (if SFltb val (S754_zero false) then cint (ridiculous h + 1) else Ret (ridiculous h));
  match place unit_usec larger_rows val with
  | Some (w, val) =>
      i ← to_int (smul val (single base));
      l ← incr (buckets h w) i;
      Ret (Histogram (set_row (buckets h) w l) r t s sq lo hi (limit h) (count h) (producer h) (consumer h) (time_ones h) (time_two h))
  | None =>
      r ← cint (r + 1);
      Ret (Histogram (buckets h) r t s sq lo hi (limit h) (count h) (producer h) (consumer h) (time_ones h) (time_two h))
  end.

(** ** Reports *)
(** The sum of [count] buckets from [j] on. *)
Fixpoint sum_from (row : list Z) (j : Z) (count : nat) (sum : Z) : cres Z :=
  match count with
  | O => Ret sum
  | S count =>
      n ← deref (aget row j);
      sum ← cint (sum + n);
      sum_from row (j + 1) count sum
  end.
Definition sum_row (row : list Z) : cres Z := sum_from row 0 HIST_NUM_OF_BUCKET 0.
(** The sums that a line prints, [n] of them from [i] on. *)
Fixpoint output_from (row : list Z) (i : Z) (n : nat) : cres (list Z) :=
  match n with
  | O => Ret []
  | S n =>
      sum ← sum_from row (i * base) (Z.to_nat base) 0;
      sums ← output_from row (i + 1) n;
      Ret (sum :: sums)
  end.
Definition output_row (row : list Z) : cres (list Z) := output_from row 0 10.
Fixpoint output_rows (h : histogram) (rows : list row) : cres (list (list Z)) :=
  match rows with
  | [] => Ret []
  | r :: rows => line ← output_row (buckets h r); lines ← output_rows h rows; Ret (line :: lines)
  end.
Definition HIST_report (h : histogram) : cres (list (list Z)) :=
  lines ← output_rows h (unit_usec :: larger_rows);
  Ret (lines ++ [[ridiculous h]; [total h]]).

(** ** Percentiles *)
(** The buckets of one row from [i] on: what is returned, [*last] and [*current]. *)
Fixpoint search_from (unit : list Z) (i : Z) (n : nat) (num last current : Z) (scale : spec_float) : cres (Z * Z * Z) :=
  match n with
  | O => Ret (0, last, current)
  | S n =>
      let last := current in
      k ← deref (aget unit i);
      current ← cint (current + k);
      if num <=? current then
        above ← cint (num - last);
        all ← cint (current - last);
        result ← to_int (fdiv (fmul (fadd (double i) (fdiv (double above) (double all))) scale) (double base));
        Ret (result, last, current)
      else search_from unit (i + 1) n num last current scale
  end.
Definition HIST_search_bucket (unit : list Z) (num last current : Z) (scale : spec_float) : cres (Z * Z * Z) :=
  search_from unit 0 HIST_NUM_OF_BUCKET num last current scale.

Definition scales : list (row * Z) :=
  [(unit_usec, 1); (ten_usec, 10); (hundred_usec, 100); (unit_msec, 1000); (ten_msec, 10000); (hundred_msec, 100000);
   (unit_sec, 1000000); (ten_sec, 10000000)].
(** One range after the other, until the answer is not 0. *)
Fixpoint search_rows (h : histogram) (rows : list (row * Z)) (num last current : Z) : cres Z :=
  match rows with
  | [] => to_int (double 100000000)
  | (r, scale) :: rows =>
      '(result, last, current) ← HIST_search_bucket (buckets h r) num last current (double scale);
      if negb (result =? 0) then Ret result else search_rows h rows num last current
  end.
Definition HIST_get_percentile (h : histogram) (percentile : spec_float) : cres Z :=
  num ← to_int (fmul (double (total h)) percentile);
  if num =? 0 then Ret 0 else search_rows h scales num 0 0.

(** [min], [max], [mean] and [stddev]. *)
Definition HIST_get_stats (h : histogram) : Z * Z * spec_float * spec_float :=
  if negb (total h =? 0) then
    let mean := fdiv (double (sum h)) (double (total h)) in
    let stddev := fdiv (fsub (fmul (sumsquare h) (double (total h))) (pow2 (double (sum h)))) (pow2 (double (total h))) in
    (hmin h, hmax h, mean, fsqrt stddev)
  else (hmin h, hmax h, fzero, fzero).

(** ** Time stamps *)
(** [delta_micro], which may change [*end]. *)
Definition delta_micro (start stop : timeval) : cres (Z * timeval) :=
  let stop := if tv_usec stop <? tv_usec start then Timeval (tv_sec stop - 1) (tv_usec stop + 1000000) else stop in
  let usecs := i32 (tv_usec stop - tv_usec start) in
  let secs := i32 (tv_sec stop - tv_sec start) in
  us ← cint (secs * 1000000);
  usecs ← cint (usecs + us);
  Ret (usecs, stop).

(** The warning that [time_ones] is full is only printed. *)
Definition HIST_timestamp_start (h : histogram) (now : timeval) : cres histogram :=
  times ← deref (aset (time_ones h) (producer h) (Some now));
  p ← cint (producer h + 1);
  p ← (if limit h =? 0 then Undef else Ret (Z.rem p (limit h)));
  c ← cint (count h + 1);
  Ret (Histogram (buckets h) (ridiculous h) (total h) (sum h) (sumsquare h) (hmin h) (hmax h)
    (limit h) c p (consumer h) times (time_two h)).

Definition HIST_timestamp_stop_add (keep_statistics : bool) (h : histogram) (now : timeval) : cres histogram :=
  if consumer h =? producer h then Exit (-1)
  else
    one ← deref (aget (time_ones h) (consumer h));
    one ← deref one;
    '(delta, two) ← delta_micro one now;
    h ← HIST_add keep_statistics
      (Histogram (buckets h) (ridiculous h) (total h) (sum h) (sumsquare h) (hmin h) (hmax h)
         (limit h) (count h) (producer h) (consumer h) (time_ones h) (Some two)) delta;
    c ← cint (consumer h + 1);
    c ← (if limit h =? 0 then Undef else Ret (Z.rem c (limit h)));
    n ← cint (count h - 1);
    Ret (Histogram (buckets h) (ridiculous h) (total h) (sum h) (sumsquare h) (hmin h) (hmax h)
      (limit h) n (producer h) c (time_ones h) (time_two h)).
End NetHist.
