(* ===== verification/NetHistProofs.v ===== *)
(** * netperf/src/netlib.c: where the histogram puts a latency

    Module NetHistProofs has the divisions of [HIST_add], with their rounding, and the sums of
    [HIST_get_percentile]: every number stays within a few units of the last digit of the
    exact one.  Module NetHistTally says what a histogram tells of the latencies it was given. *)
From Stdlib Require Import Floats.SpecFloat.
From S2P Require Import Prelude Doubles Rounding NetHist.

Module NetHistProofs.
Import Doubles Rounding NetHist.

Local Abbreviation U := (unit_of 0).
Lemma U_pos : 0 < U.
Proof. done. Qed.
#[local] Hint Resolve U_pos : core.
Lemma U_val : U = 2 ^ 200.
Proof. done. Qed.

(** ** float *)
Local Abbreviation fl := (is_float 24).

Lemma single_10 : fl (single 10) (10 * U).
Proof. exists 10485760%positive, (-20). split_and!; by vm_compute. Qed.
Lemma single_1 : fl (single 1) (1 * U).
Proof. exists 8388608%positive, (-23). split_and!; by vm_compute. Qed.
(** The number before 100. *)
Lemma below_100 : fl (S754_finite false 13107199 (-17)) (100 * U - unit_of (-17)).
Proof. exists 13107199%positive, (-17). split_and!; by vm_compute. Qed.

Lemma single_error d : 0 < d <= INT_MAX -> exists w, fl (single d) w /\ rounds 24 w 1 (d * U).
Proof. intros Hd. apply (int_error 24 128 (-149)); unfold INT_MAX in *; lia. Qed.

(** One division by ten. *)
Lemma tenth x w : fl x w -> 10 * U <= w -> w < 2 ^ 239 -> exists w', fl (sdiv x (single 10)) w' /\ rounds 24 w' (10 * U) (w * U).
Proof.
  intros F L H. apply (div_error 24 128 (-149) ltac:(lia) ltac:(lia) ltac:(lia) ltac:(lia) 203); [done | apply single_10 | lia | | | lia |].
  - rewrite U_val in L. change (2 ^ 203) with (8 * 2 ^ 200). lia.
  - by vm_compute.
  - rewrite U_val in *. assert (w * 2 ^ 200 < 2 ^ 239 * 2 ^ 200) by nia. etrans; [eassumption | by vm_compute].
Qed.

(** [p * w] differs from [d] units by at most [j] roundings. *)
Definition drift (p w d j : Z) : Prop := Z.abs (p * w - d * U) * 2 ^ 40 <= j * (2 ^ 17 + 1) * (d * U).

Lemma drift_start w d : 0 < d -> rounds 24 w 1 (d * U) -> drift 1 w d 1.
Proof. intros Hd [N _ _]. unfold drift. rewrite Z.mul_1_r in N. rewrite Z.mul_1_l. rewrite U_val in *. change (2 ^ (24 - 1)) with (2 ^ 23) in N. lia. Qed.

Lemma drift_step p w w' d j :
  0 < p -> 0 < d -> 0 < w -> 0 <= j <= 9 -> rounds 24 w' (10 * U) (w * U) -> drift p w d j -> drift (p * 10) w' d (j + 1).
Proof.
  intros Hp Hd Hw Hj [N _ _] D. unfold drift in *. change (2 ^ (24 - 1)) with (2 ^ 23) in N.
  assert (Z.abs (10 * w' - w) * 2 ^ 23 <= w) as N'.
  { replace (w' * (10 * U) - w * U) with ((10 * w' - w) * U) in N by lia. rewrite Z.abs_mul, (Z.abs_eq U) in N by done.
    pose proof U_pos. nia. }
  assert (Z.abs (p * 10 * w' - p * w) * 2 ^ 23 <= p * w) as N2.
  { replace (p * 10 * w' - p * w) with (p * (10 * w' - w)) by lia. rewrite Z.abs_mul, (Z.abs_eq p) by lia. nia. }
  set (a := p * 10 * w') in *. set (b := p * w) in *. assert (0 < d * U) by (apply Z.mul_pos_pos; done). set (c := d * U) in *.
  clearbody a b c. assert (j * (2 ^ 17 + 1) * c <= 9 * (2 ^ 17 + 1) * c) by nia.
  replace ((j + 1) * (2 ^ 17 + 1) * c) with (j * (2 ^ 17 + 1) * c + (2 ^ 17 + 1) * c) by lia. set (jc := j * (2 ^ 17 + 1) * c) in *. clearbody jc.
  change (2 ^ 17 + 1) with 131073 in *. change (2 ^ 23) with 8388608 in *. change (2 ^ 40) with 1099511627776 in *. lia.
Qed.

(** What [w] is at most, given the drift. *)
Lemma drift_bound p w d j : 1 <= p -> 0 < d <= INT_MAX -> 0 <= j <= 9 -> 0 <= w -> drift p w d j -> w < 2 ^ 239.
Proof.
  intros Hp Hd Hj Hw D. unfold drift in D. assert (0 < d * U) by (apply Z.mul_pos_pos; done || lia).
  assert (w <= p * w) by nia. assert (d * U <= INT_MAX * U) by (pose proof U_pos; nia).
  assert (j * (2 ^ 17 + 1) * (d * U) <= 9 * (2 ^ 17 + 1) * (d * U)) by nia. change (2 ^ 239) with (2 ^ 39 * 2 ^ 200). rewrite <- U_val.
  set (c := d * U) in *. set (b := p * w) in *. set (jc := j * (2 ^ 17 + 1) * c) in *. set (u := U) in *. clearbody c b jc u. unfold INT_MAX in *.
  change (2 ^ 17 + 1) with 131073 in *. change (2 ^ 39) with 549755813888 in *. change (2 ^ 40) with 1099511627776 in *. lia.
Qed.

(** The rows that are tried. *)
Lemma place_spec rest r x w p d j :
  fl x w -> 1 <= p -> 0 < d <= INT_MAX -> 0 <= j -> j + Z.of_nat (length rest) <= 9 -> U <= w -> drift p w d j ->
  match place r rest x with
  | Some (r', x') => exists i w', (r :: rest) !! i = Some r' /\ fl x' w' /\ U <= w' < 10 * U /\
      drift (p * 10 ^ Z.of_nat i) w' d (j + Z.of_nat i) /\ (i = 0%nat -> x' = x)
  | None => exists w', 10 * U <= w' /\ drift (p * 10 ^ Z.of_nat (length rest)) w' d (j + Z.of_nat (length rest))
  end.
Proof.
  revert r x w p j. induction rest as [| r2 rest IH]; intros r x w p j F Hp Hd Hj Hl Hw D; cbn [place];
    rewrite (float_ltb 24 ltac:(lia) _ _ _ _ F single_10); destruct (Z.ltb_spec w (10 * U)) as [L | L].
  1, 3: exists 0%nat, w; rewrite !Z.mul_1_r, Z.add_0_r; by split_and!.
  - exists w. by rewrite Z.mul_1_r, Z.add_0_r.
  - cbn [length] in Hl. pose proof U_pos as HU.
    destruct (tenth x w F L) as (w' & F' & R); [by apply (drift_bound p w d j); lia || done |].
    assert (U <= w') as Lw by (apply (not_below _ _ _ _ R _ _ single_1); nia).
    specialize (IH r2 _ w' (p * 10) (j + 1) F' ltac:(lia) Hd ltac:(lia) ltac:(lia) Lw
      (drift_step p w w' d j ltac:(lia) ltac:(lia) ltac:(lia) ltac:(lia) R D)).
    destruct (place r2 rest _) as [[r' x'] |].
    + destruct IH as (i & w2 & E & F2 & B & D2 & _). exists (S i), w2. split_and!; [done | done | lia | lia | | done].
      rewrite Nat2Z.inj_succ, Z.pow_succ_r by lia. replace (p * (10 * 10 ^ Z.of_nat i)) with (p * 10 * 10 ^ Z.of_nat i) by lia.
      by replace (j + Z.succ (Z.of_nat i)) with (j + 1 + Z.of_nat i) by lia.
    + destruct IH as (w2 & B & D2). exists w2. split; [done |]. cbn [length].
      rewrite Nat2Z.inj_succ, Z.pow_succ_r by lia. replace (p * (10 * 10 ^ Z.of_nat (length rest))) with (p * 10 * 10 ^ Z.of_nat (length rest)) by lia.
      by replace (j + Z.succ (Z.of_nat (length rest))) with (j + 1 + Z.of_nat (length rest)) by lia.
Qed.

(** The index in a row. *)
Lemma float_below_10 x w : fl x w -> w < 10 * U -> w <= 10 * U - unit_of (-20).
Proof.
  intros (m & e & _ & Hm & He & ->) H. destruct (Z.le_gt_cases (-20) e) as [L | L].
  - replace e with (-20 + (e - -20)) in * by lia. rewrite unit_add in * by lia. set (k := 2 ^ (e - -20)) in *.
    assert (10 * U = 10485760 * unit_of (-20)) as E by (by vm_compute). rewrite E in *.
    assert (0 < unit_of (-20)) by done. set (u := unit_of (-20)) in *. clearbody u k. assert (Zpos m * k < 10485760) by nia. nia.
  - assert (unit_of e <= unit_of (-21)) by (apply Z.pow_le_mono_r; lia). assert (0 < unit_of e) by (apply unit_pos; lia).
    change (2 ^ 24) with 16777216 in Hm. assert (Zpos m * unit_of e <= 16777216 * unit_of (-21)) by nia.
    etrans; [eassumption |]. by vm_compute.
Qed.

Lemma index_spec x w :
  fl x w -> U <= w < 10 * U ->
  exists i v, to_int (smul x (single base)) = Ret i /\ 10 <= i < 100 /\ i * U <= v < (i + 1) * U /\ Z.abs (v - 10 * w) * 2 ^ 23 <= 10 * w.
Proof.
  intros F Hw. change (single base) with (single 10). unfold smul.
  destruct (mul_error 24 128 (-149) ltac:(lia) ltac:(lia) ltac:(lia) ltac:(lia) 200 x (single 10) w (10 * U)) as (v & Fv & [N B A]);
    [lia | lia | done | apply single_10 | | | |].
  { rewrite U_val in Hw. split; [lia |]. etrans; [apply Hw | by vm_compute]. }
  { split; by vm_compute. }
  { pose proof U_pos. assert (w * (10 * U) < 10 * U * (10 * U)) by nia. etrans; [eassumption | by vm_compute]. }
  assert (10 * U <= v) as Lv by (apply (B _ _ single_10); pose proof U_pos; nia).
  assert (v <= 100 * U - unit_of (-17)) as Uv.
  { apply (A _ _ below_100). pose proof (float_below_10 x w F (proj2 Hw)) as Hb.
    assert (w * (10 * U) <= (10 * U - unit_of (-20)) * (10 * U)) by (pose proof U_pos; nia). etrans; [eassumption |]. by vm_compute. }
  assert (0 < unit_of (-17)) by done. destruct (float_trunc 24 _ v Fv) as (m & e & -> & Es).
  pose proof (Z.mul_div_le v U U_pos). pose proof (Z.mul_succ_div_gt v U U_pos).
  assert (10 <= v / U) by (apply Z.div_le_lower_bound; [done | lia]). assert (v / U < 100) by (apply Z.div_lt_upper_bound; [done | lia]).
  exists (v / U), v. split_and!; try lia.
  - cbn [to_int]. rewrite Es. unfold cint. rewrite bool_decide_true; [done |]. unfold is_int, INT_MIN, INT_MAX. lia.
  - replace (v * U - w * (10 * U)) with ((v - 10 * w) * U) in N by lia. rewrite Z.abs_mul, (Z.abs_eq U) in N by done. change (2 ^ (24 - 1)) with (2 ^ 23) in N.
    pose proof U_pos. nia.
Qed.

(** ** Buckets *)
Definition row_index (r : row) : nat :=
  match r with
  | unit_usec => 0 | ten_usec => 1 | hundred_usec => 2 | unit_msec => 3
  | ten_msec => 4 | hundred_msec => 5 | unit_sec => 6 | ten_sec => 7
  end.
(** The microseconds of a whole row are ten times this. *)
Definition scale (r : row) : Z := 10 ^ Z.of_nat (row_index r).
(** Where a latency is counted. *)
Definition bucket_of (d : Z) : option (row * Z) :=
  match place unit_usec larger_rows (single d) with
  | Some (r, v) => match to_int (smul v (single base)) with Ret i => Some (r, i) | _ => None end
  | None => None
  end.

(** [d] microseconds are in bucket [i] of row [r], up to two millionths. *)
Definition in_bucket (r : row) (i d : Z) : Prop :=
  i * scale r * 1000000 <= 10 * d * 1000002 /\ 10 * d * 999998 <= (i + 1) * scale r * 1000000.

Lemma row_lookup i r : (unit_usec :: larger_rows) !! i = Some r -> i = row_index r.
Proof. do 8 (destruct i as [| i]; [by intros [= <-] |]). done. Qed.
Lemma row_index_le r : (row_index r <= 7)%nat.
Proof. destruct r; cbn; lia. Qed.
Lemma scale_pos r : 0 < scale r.
Proof. apply Z.pow_pos_nonneg; lia. Qed.

(** The drift of the divisions, and that of the product. *)
Lemma drift_in_bucket r i w v d j :
  0 < d -> 0 <= j <= 8 -> drift (scale r) w d j -> i * U <= v < (i + 1) * U -> Z.abs (v - 10 * w) * 2 ^ 23 <= 10 * w -> in_bucket r i d.
Proof.
  intros Hd Hj D Hv N. unfold drift, in_bucket in *. pose proof (scale_pos r) as Hs. set (p := scale r) in *. clearbody p. pose proof U_pos as HU.
  assert (Z.abs (p * v - 10 * (p * w)) * 2 ^ 23 <= 10 * (p * w)) as N2.
  { replace (p * v - 10 * (p * w)) with (p * (v - 10 * w)) by lia. rewrite Z.abs_mul, (Z.abs_eq p) by lia. nia. }
  assert (i * p * U <= p * v < (i + 1) * p * U) as V by nia. clear N Hv.
  assert (j * (2 ^ 17 + 1) * (d * U) <= 8 * (2 ^ 17 + 1) * (d * U)) as J by nia.
  assert (forall x y, x * U <= y * U -> x <= y) as Hc by (intros; nia).
  split; apply Hc.
  - replace (i * p * 1000000 * U) with (i * p * U * 1000000) by lia. replace (10 * d * 1000002 * U) with (10000020 * (d * U)) by lia.
    set (a := i * p * U) in *. set (b := p * v) in *. set (c := p * w) in *. set (t := d * U) in *. set (x := j * (2 ^ 17 + 1) * t) in *. clearbody a b c x.
    assert (0 < t) by nia. clearbody t. lia.
  - replace ((i + 1) * p * 1000000 * U) with ((i + 1) * p * U * 1000000) by lia. replace (10 * d * 999998 * U) with (9999980 * (d * U)) by lia.
    set (a := (i + 1) * p * U) in *. set (b := p * v) in *. set (c := p * w) in *. set (t := d * U) in *. set (x := j * (2 ^ 17 + 1) * t) in *. clearbody a b c x.
    assert (0 < t) by nia. clearbody t. lia.
Qed.

Lemma small_bucket d : 0 <= d < 10 -> place unit_usec larger_rows (single d) = Some (unit_usec, single d) /\ to_int (smul (single d) (single base)) = Ret (10 * d).
Proof.
  intros Hd. assert (d = 0 \/ d = 1 \/ d = 2 \/ d = 3 \/ d = 4 \/ d = 5 \/ d = 6 \/ d = 7 \/ d = 8 \/ d = 9) as C by lia.
  repeat (destruct C as [-> | C]; [by vm_compute |]). subst. by vm_compute.
Qed.

Lemma bucket_spec d :
  0 <= d <= INT_MAX ->
  match place unit_usec larger_rows (single d) with
  | Some (r, v) => exists i, to_int (smul v (single base)) = Ret i /\ 0 <= i < 100 /\ (0 < d -> 10 <= i) /\ in_bucket r i d /\
      (r = unit_usec -> i = 10 * d)
  | None => 100000000 * 999998 <= d * 1000000
  end.
Proof.
  intros Hd. destruct (Z.le_gt_cases 10 d) as [L | L].
  - destruct (single_error d ltac:(lia)) as (w & F & R). pose proof U_pos as HU.
    assert (10 * U <= w) as Hw by (apply (not_below _ _ _ _ R _ _ single_10); nia).
    pose proof (place_spec larger_rows unit_usec _ w 1 d 1 F ltac:(lia) ltac:(lia) ltac:(lia) ltac:(cbn; lia) ltac:(lia) (drift_start w d ltac:(lia) R)) as P.
    assert (forall v, place unit_usec larger_rows (single d) <> Some (unit_usec, v)) as Hn.
    { intros v. change (place unit_usec larger_rows (single d)) with
        (if SFltb (single d) (single 10) then Some (unit_usec, single d) else place ten_usec (drop 1 larger_rows) (sdiv (single d) (single 10))).
      rewrite (float_ltb 24 ltac:(lia) _ _ _ _ F single_10), (proj2 (Z.ltb_ge _ _) Hw). clear.
      generalize (sdiv (single d) (single 10)). intros x. cbn. by repeat case_match. }
    destruct (place _ _ _) as [[r v] |].
    + destruct P as (k & w' & E & F' & B & D & _). apply row_lookup in E as ->.
      destruct (index_spec v w' F' B) as (i & u & -> & Hi & Hu & Nu). exists i. split_and!; try lia; [done | |].
      * pose proof (row_index_le r). apply (drift_in_bucket r i w' u d (1 + Z.of_nat (row_index r))); try done; try lia. by rewrite Z.mul_1_l in D.
      * intros ->. by destruct (Hn v).
    + destruct P as (w' & B & D). unfold drift in D. change (1 * 10 ^ Z.of_nat (length larger_rows)) with 10000000 in D.
      change (1 + Z.of_nat (length larger_rows)) with 8 in D. assert (forall x y, x * U <= y * U -> x <= y) as Hc by (intros; nia). apply Hc.
      replace (d * 1000000 * U) with (d * U * 1000000) by lia. assert (0 < d * U) by nia. set (t := d * U) in *. clearbody t. set (u := U) in *. clearbody u. lia.
  - destruct (small_bucket d ltac:(lia)) as [-> E]. exists (10 * d). split_and!; try lia; [done |]. unfold in_bucket, scale. cbn [row_index]. lia.
Qed.

Lemma bucket_of_cases d :
  0 <= d <= INT_MAX ->
  match bucket_of d with
  | Some (r, i) => 0 <= i < 100 /\ (0 < d -> 10 <= i) /\ in_bucket r i d /\ (r = unit_usec -> i = 10 * d)
  | None => 100000000 * 999998 <= d * 1000000
  end.
Proof.
  intros Hd. unfold bucket_of. pose proof (bucket_spec d Hd) as B. destruct (place _ _ _) as [[r v] |]; [| done].
  by destruct B as (i & -> & B).
Qed.
End NetHistProofs.

(** A histogram tallies a list of latencies: [HIST_add] adds one to the list. *)
Module NetHistTally.
Import Doubles NetHist NetHistProofs.

Lemma cint_fits z : is_int z -> cint z = Ret z.
Proof. intros H. unfold cint. by rewrite bool_decide_true. Qed.

Lemma cint_int z k : cint z = Ret k -> is_int k.
Proof. unfold cint. case_bool_decide; [by intros [= <-] | done]. Qed.
Lemma to_int_int x k : to_int x = Ret k -> is_int k.
Proof. destruct x as [s | s | | [] m e]; cbn [to_int]; try done; [by intros [= <-] | apply cint_int..]. Qed.

Definition sum_list (l : list Z) : Z := foldr Z.add 0 l.
Definition size {A} (l : list A) : Z := Z.of_nat (length l).

#[export] Instance bucket_eq_dec : EqDecision (option (row * Z)).
Proof. solve_decision. Defined.
(** How many of the latencies are in a bucket. *)
Definition hits (b : option (row * Z)) (ds : list Z) : Z := size (filter (fun d => bucket_of d = b) ds).

Record tally (h : histogram) (ds : list Z) : Prop := Tally {
  tally_total : total h = size ds;
  tally_sum : sum h = sum_list ds;
  tally_length : forall r, length (buckets h r) = HIST_NUM_OF_BUCKET;
  tally_bucket : forall r i, 0 <= i < 100 -> aget (buckets h r) i = Some (hits (Some (r, i)) ds);
  tally_rest : ridiculous h = hits None ds;
  tally_min : ds <> [] -> hmin h ∈ ds /\ Forall (fun d => hmin h <= d) ds;
  tally_max : ds <> [] -> hmax h ∈ ds /\ Forall (fun d => d <= hmax h) ds }.

(** The fields that [HIST_add] leaves alone. *)
Definition same_ring (h h' : histogram) : Prop :=
  limit h' = limit h /\ count h' = count h /\ producer h' = producer h /\ consumer h' = consumer h /\
  time_ones h' = time_ones h /\ time_two h' = time_two h.

Lemma size_snoc {A} (l : list A) a : size (l ++ [a]) = size l + 1.
Proof. unfold size. rewrite length_app. cbn. lia. Qed.
Lemma size_nonneg {A} (l : list A) : 0 <= size l.
Proof. unfold size. lia. Qed.
Lemma sum_snoc l d : sum_list (l ++ [d]) = sum_list l + d.
Proof. unfold sum_list. induction l as [| x l IH]; cbn [foldr app]; lia. Qed.
Lemma hits_snoc b ds d : hits b (ds ++ [d]) = hits b ds + if decide (bucket_of d = b) then 1 else 0.
Proof.
  unfold hits. rewrite filter_app, filter_cons. case_decide; rewrite filter_nil; [by rewrite size_snoc |]. rewrite app_nil_r. lia.
Qed.
Lemma hits_range b ds : 0 <= hits b ds <= size ds.
Proof. unfold hits, size. pose proof (length_filter (fun d => bucket_of d = b) ds). lia. Qed.

Lemma aget_lookup {A} (l : list A) i : 0 <= i -> aget l i = l !! Z.to_nat i.
Proof. intros. unfold aget. by rewrite (proj2 (Z.leb_le _ _)). Qed.

Lemma incr_spec l i n : length l = HIST_NUM_OF_BUCKET -> aget l i = Some n -> 0 <= n < INT_MAX ->
  exists l', incr l i = Ret l' /\ length l' = length l /\ forall j, aget l' j = if decide (j = i) then Some (n + 1) else aget l j.
Proof.
  intros Hl Hn Hr. unfold incr. rewrite Hn. cbn [deref]. rewrite bind_Ret, cint_fits by (unfold is_int, INT_MIN, INT_MAX in *; lia). rewrite bind_Ret.
  pose proof (aget_range _ _ _ Hn) as Hi. pose proof (aset_Some l i (n + 1) Hi) as E. eexists. rewrite E. split_and!; [done | by eapply length_aset |].
  intros j. case_decide as Hj; [subst; by eapply aget_aset_eq | by eapply aget_aset_ne].
Qed.

Lemma tally_new m h : HIST_new_n m true true = Ret h -> tally h [].
Proof.
  unfold HIST_new_n. cbn [negb]. intros H. apply bind_Ret_inv in H as (lim & _ & H). destruct (false || (lim <? 0)); [done |].
  injection H as <-. constructor; try done. intros r i Hi. cbn [buckets HIST_clear]. rewrite aget_lookup by lia.
  exact (lookup_replicate_2 100 0 (Z.to_nat i) ltac:(lia)).
Qed.

(** The smallest and the largest so far. *)
Lemma least_snoc m m' ds d :
  (ds <> [] -> m ∈ ds /\ Forall (fun x => m <= x) ds) -> m' = (let m := if size ds =? 0 then d else m in if m <? d then m else d) ->
  m' ∈ ds ++ [d] /\ Forall (fun x => m' <= x) (ds ++ [d]).
Proof.
  intros H ->. cbv zeta. rewrite elem_of_app, list_elem_of_singleton, Forall_app, Forall_singleton.
  destruct ds as [| x ds]; [cbn; rewrite Z.ltb_irrefl; split_and!; [by right | done | lia] |].
  rewrite (proj2 (Z.eqb_neq (size (x :: ds)) 0)) by (unfold size; cbn [length]; lia). destruct (H ltac:(done)) as [E F].
  destruct (Z.ltb_spec m d); split_and!; try (by left); try (by right); try done; try lia.
  eapply Forall_impl; [exact F |]. intros y Hy. cbn in *. lia.
Qed.
Lemma most_snoc m m' ds d :
  (ds <> [] -> m ∈ ds /\ Forall (fun x => x <= m) ds) -> m' = (let m := if size ds =? 0 then d else m in if d <? m then m else d) ->
  m' ∈ ds ++ [d] /\ Forall (fun x => x <= m') (ds ++ [d]).
Proof.
  intros H ->. cbv zeta. rewrite elem_of_app, list_elem_of_singleton, Forall_app, Forall_singleton.
  destruct ds as [| x ds]; [cbn; rewrite Z.ltb_irrefl; split_and!; [by right | done | lia] |].
  rewrite (proj2 (Z.eqb_neq (size (x :: ds)) 0)) by (unfold size; cbn [length]; lia). destruct (H ltac:(done)) as [E F].
  destruct (Z.ltb_spec d m); split_and!; try (by left); try (by right); try done; try lia.
  eapply Forall_impl; [exact F |]. intros y Hy. cbn in *. lia.
Qed.

Lemma not_negative d : 0 <= d <= INT_MAX -> SFltb (single d) (S754_zero false) = false.
Proof.
  intros Hd. destruct (Z.eq_dec d 0) as [-> | Hne]; [done |]. destruct (single_error d ltac:(lia)) as (w & (m & e & -> & _) & _). done.
Qed.

Lemma HIST_add_tally keep h ds d :
  tally h ds -> 0 <= d <= INT_MAX -> size ds < INT_MAX -> 0 <= sum_list ds -> sum_list ds + d <= INT_MAX ->
  exists h', HIST_add keep h d = Ret h' /\ tally h' (ds ++ [d]) /\ same_ring h h'.
Proof.
  intros T Hd Hs H0 Hsum. pose proof (size_nonneg ds). destruct T as [T1 T2 T3 T4 T5 T6 T7]. unfold HIST_add.
  rewrite T1, T2, (cint_fits (size ds + 1)), bind_Ret by (unfold is_int, INT_MIN, INT_MAX in *; lia).
  rewrite (cint_fits (sum_list ds + d)), bind_Ret by (unfold is_int, INT_MIN, INT_MAX in *; lia). rewrite not_negative, bind_Ret by done.
  pose proof (bucket_spec d Hd) as B. assert (bucket_of d = match place unit_usec larger_rows (single d) with
    | Some (r, v) => match to_int (smul v (single base)) with Ret i => Some (r, i) | _ => None end | None => None end) as Eb by done.
  destruct (place unit_usec larger_rows (single d)) as [[r v] |].
  - destruct B as (i & E & Hi & _). rewrite E in *. rewrite bind_Ret.
    destruct (incr_spec (buckets h r) i (hits (Some (r, i)) ds) (T3 r) (T4 r i Hi)) as (l & -> & Ll & Al).
    { pose proof (hits_range (Some (r, i)) ds). lia. }
    rewrite bind_Ret. eexists. split; [reflexivity |]. split; [| done]. constructor; cbn [total sum buckets ridiculous hmin hmax].
    + by rewrite size_snoc.
    + by rewrite sum_snoc.
    + intros r'. unfold set_row. case_decide; [by rewrite Ll, T3 | by apply T3].
    + intros r' i' Hi'. rewrite hits_snoc, Eb. unfold set_row. destruct (decide (r' = r)) as [-> | Hr].
      * rewrite Al. destruct (decide (i' = i)) as [-> | Hne]; [by rewrite decide_True |]. rewrite decide_False by congruence. by rewrite Z.add_0_r, T4.
      * rewrite decide_False by congruence. by rewrite Z.add_0_r, T4.
    + rewrite hits_snoc, Eb, decide_False by done. by rewrite Z.add_0_r.
    + intros _. by apply (least_snoc (hmin h)).
    + intros _. by apply (most_snoc (hmax h)).
  - rewrite T5. pose proof (hits_range None ds). rewrite cint_fits, bind_Ret by (unfold is_int, INT_MIN, INT_MAX in *; lia).
    eexists. split; [reflexivity |]. split; [| done]. constructor; cbn [total sum buckets ridiculous hmin hmax].
    + by rewrite size_snoc.
    + by rewrite sum_snoc.
    + done.
    + intros r' i' Hi'. rewrite hits_snoc, Eb, decide_False by done. by rewrite Z.add_0_r, T4.
    + by rewrite hits_snoc, Eb, decide_True.
    + intros _. by apply (least_snoc (hmin h)).
    + intros _. by apply (most_snoc (hmax h)).
Qed.

(** A list of latencies. *)
Fixpoint HIST_adds (keep : bool) (h : histogram) (ds : list Z) : cres histogram :=
  match ds with [] => Ret h | d :: ds => h ← HIST_add keep h d; HIST_adds keep h ds end.

Lemma sum_list_nonneg ds : Forall (fun d => 0 <= d) ds -> 0 <= sum_list ds.
Proof. unfold sum_list. induction 1; cbn [foldr]; lia. Qed.
Lemma sum_list_app a b : sum_list (a ++ b) = sum_list a + sum_list b.
Proof. unfold sum_list. induction a as [| x a IH]; cbn [foldr app]; lia. Qed.

Lemma HIST_adds_tally keep h ds new :
  tally h ds -> Forall (fun d => 0 <= d) (ds ++ new) -> size (ds ++ new) <= INT_MAX -> sum_list (ds ++ new) <= INT_MAX ->
  exists h', HIST_adds keep h new = Ret h' /\ tally h' (ds ++ new).
Proof.
  revert h ds. induction new as [| d new IH]; intros h ds T Hp Hs Hsum; cbn [HIST_adds].
  { exists h. by rewrite app_nil_r. }
  rewrite Forall_app, Forall_cons in Hp. destruct Hp as (P1 & P2 & P3). rewrite sum_list_app in Hsum. cbn [sum_list foldr] in Hsum. fold (sum_list new) in Hsum.
  pose proof (sum_list_nonneg ds P1). pose proof (sum_list_nonneg new P3). unfold size in Hs. rewrite length_app in Hs. cbn [length] in Hs.
  destruct (HIST_add_tally keep h ds d T) as (h1 & -> & T1 & _); [lia | unfold size; lia | lia | lia |]. rewrite bind_Ret.
  destruct (IH h1 (ds ++ [d]) T1) as (h2 & -> & T2).
  - rewrite !Forall_app, Forall_singleton. done.
  - unfold size. rewrite !length_app. cbn [length]. lia.
  - rewrite !sum_list_app. cbn [sum_list foldr]. fold (sum_list ds). lia.
  - exists h2. by rewrite <- app_assoc in T2.
Qed.
End NetHistTally.
