(* ===== verification/NetHistPercentile.v ===== *)
(** * netperf/src/netlib.c: reading a percentile off a histogram

    The interpolation of [HIST_search_bucket], in doubles, and the search through the
    buckets, row after row, for the one that holds a given latency. *)
From Stdlib Require Import Floats.SpecFloat.
From S2P Require Import Prelude Doubles Rounding NetHist NetHistProofs.

Module NetHistPercentile.
Import Doubles Rounding NetHist NetHistProofs NetHistTally.

Local Abbreviation U := (unit_of 0).
Local Abbreviation fl := (is_float 53).

(** ** Interpolation *)
Lemma double_whole z : 0 < z < 2 ^ 53 -> fl (double z) (z * U).
Proof.
  intros Hz. destruct z as [| p |]; [lia | | lia]. destruct (double_pos p ltac:(lia)) as (m & E & Em & Dm).
  pose proof (digits2_bounds m) as B. rewrite Dm in B. pose proof (digits2_le p 53 ltac:(lia) ltac:(lia)).
  set (d := Zpos (digits2_pos p)) in *. assert (1 <= d) by (unfold d; lia).
  exists m, (d - 53). split_and!; [exact E | lia | lia | lia | lia |]. rewrite Em.
  replace 0 with ((d - 53) + (53 - d)) by lia. rewrite unit_add by lia. lia.
Qed.

Lemma fraction above all :
  1 <= above <= all -> all <= INT_MAX -> exists f, fl (fdiv (double above) (double all)) f /\ 2 ^ 160 <= f <= U.
Proof.
  intros Ha Hall. pose proof U_pos as HU. unfold INT_MAX in *.
  destruct (div_error 53 1024 (-190) ltac:(lia) ltac:(lia) ltac:(lia) ltac:(lia) 200 (double above) (double all) (above * U) (all * U))
    as (f & F & [N B A]); [apply double_whole; lia | apply double_whole; lia | lia | change (2 ^ 200) with U; nia | | lia | |].
  - change (2 ^ 240) with (2 ^ 40 * U). nia.
  - change (2 ^ 260) with (2 ^ 60 * U). assert (above * U <= all * U) by nia. assert (above * U * U <= all * U * U) by nia. nia.
  - exists f. split; [exact F |]. split.
    + change (2 ^ (53 - 1)) with 4503599627370496 in N. assert (U <= above * U) by nia. set (u := U) in *.
      assert (Z.abs (f * all - above * U) * 4503599627370496 <= above * U) as N'.
      { replace (f * (all * u) - above * u * u) with ((f * all - above * u) * u) in N by lia. rewrite Z.abs_mul, (Z.abs_eq u) in N by lia. nia. }
      assert (u <= 2 * (f * all)) by (unfold u in *; lia). assert (2 ^ 160 * 2 ^ 32 <= u) by done. clear N B A. nia.
    + apply (A (double 1) (1 * U)); [by apply double_whole | nia].
Qed.

Lemma add_whole i x f :
  10 <= i < 100 -> fl x f -> 2 ^ 160 <= f <= U -> exists w, fl (fadd (double i) x) w /\ i * U <= w <= (i + 1) * U.
Proof.
  intros Hi F Bf. pose proof U_pos as HU.
  destruct (add_error 53 1024 (-190) ltac:(lia) ltac:(lia) ltac:(lia) ltac:(lia) 160 (double i) x (i * U) f) as (w & Fw & [_ B A]);
    [apply double_whole; lia | done | lia | | lia | lia | |].
  - assert (2 ^ 160 <= U) by done. nia.
  - change (2 ^ 260) with (2 ^ 60 * U). nia.
  - exists w. split; [done |]. split; [apply (B (double i)); [apply double_whole; lia | lia] | apply (A (double (i + 1))); [apply double_whole; lia | lia]].
Qed.
Lemma mul_whole i s x w :
  10 <= i < 100 -> 0 < s <= 10000000 -> fl x w -> i * U <= w <= (i + 1) * U ->
  exists v, fl (fmul x (double s)) v /\ i * s * U <= v <= (i + 1) * s * U.
Proof.
  intros Hi Hs F Bw. pose proof U_pos as HU. assert (2 ^ 160 <= U) by done.
  destruct (mul_error 53 1024 (-190) ltac:(lia) ltac:(lia) ltac:(lia) ltac:(lia) 160 x (double s) w (s * U)) as (v & Fv & [_ B A]);
    [lia | lia | done | apply double_whole; lia | | | |].
  - change (2 ^ 240) with (2 ^ 40 * U). nia.
  - change (2 ^ 240) with (2 ^ 40 * U). nia.
  - assert (w * (s * U) <= 101 * U * (10000000 * U)) by (apply Z.mul_le_mono_nonneg; nia). change (2 ^ 260) with (2 ^ 60 * U). nia.
  - exists v. split; [done |]. split; [apply (B (double (i * s))); [apply double_whole; nia |] | apply (A (double ((i + 1) * s))); [apply double_whole; nia |]].
    + replace (i * s * U * U) with (i * U * (s * U)) by lia. apply Z.mul_le_mono_nonneg_r; nia.
    + replace ((i + 1) * s * U * U) with ((i + 1) * U * (s * U)) by lia. apply Z.mul_le_mono_nonneg_r; nia.
Qed.
Lemma div_ten x v :
  fl x v -> 10 * U <= v <= 1010000000 * U -> exists q, fl (fdiv x (double 10)) q /\ rounds 53 q (10 * U) (v * U).
Proof.
  intros F Bv. pose proof U_pos as HU.
  apply (div_error 53 1024 (-190) ltac:(lia) ltac:(lia) ltac:(lia) ltac:(lia) 200);
    [done | by apply double_whole | lia | change (2 ^ 200) with U; nia | by vm_compute | lia |].
  change (2 ^ 260) with (2 ^ 60 * U). nia.
Qed.

(** A tenth of what is between [i * s] and [(i + 1) * s]. *)
Lemma tenth_between i s v q :
  10 <= i < 100 -> (s = 1 /\ (10 | i) \/ exists t, s = 10 * t /\ 0 < t <= 1000000) -> i * s * U <= v <= (i + 1) * s * U ->
  rounds 53 q (10 * U) (v * U) ->
  exists lo hi, 0 < lo /\ i * s <= 10 * lo /\ 10 * hi <= (i + 1) * s /\ lo * U <= q < (hi + 1) * U /\ hi <= 200000000.
Proof.
  intros Hi [[-> [k ->]] | (t & -> & Ht)] Bv [N B A]; pose proof U_pos as HU.
  - exists k, k. split_and!; try lia.
    + apply (B (double k)); [apply double_whole; lia |]. assert (10 * k * U <= v) by lia. nia.
    + change (2 ^ (53 - 1)) with 4503599627370496 in N. set (u := U) in *.
      assert (Z.abs (10 * q - v) * 4503599627370496 <= v) as N'.
      { replace (q * (10 * u) - v * u) with ((10 * q - v) * u) in N by lia. rewrite Z.abs_mul, (Z.abs_eq u) in N by lia. nia. }
      assert (v <= (10 * k + 1) * u) by lia. assert (10 * q * 4503599627370496 <= v * 4503599627370497) by lia.
      assert (v * 4503599627370497 <= (10 * k + 1) * u * 4503599627370497) by nia. assert (k < 10) by lia. nia.
  - clear N. assert (0 < i * t < 2 ^ 40) as L1 by (clear - Hi Ht; nia). assert (0 < (i + 1) * t <= 200000000) as L2 by (clear - Hi Ht; nia).
    assert (0 < (i + 1) * t < 2 ^ 53) as L3 by lia. assert (0 < i * t < 2 ^ 53) as L4 by lia.
    exists (i * t), ((i + 1) * t). replace (i * (10 * t)) with (10 * (i * t)) in * by lia. replace ((i + 1) * (10 * t)) with (10 * ((i + 1) * t)) in * by lia.
    set (a := i * t) in *. set (b := (i + 1) * t) in *. clearbody a b. split_and!; try lia.
    + apply (B (double a)); [by apply double_whole |]. clear - Bv HU. nia.
    + assert (q <= b * U); [| lia]. apply (A (double b)); [by apply double_whole |]. clear - Bv HU. nia.
Qed.

Lemma scale_cases r : 0 < scale r <= 10000000 /\ (r = unit_usec /\ scale r = 1 \/ exists t, scale r = 10 * t /\ 0 < t <= 1000000).
Proof.
  destruct r; (split; [by vm_compute |]); [by left | right..].
  - by exists 1.
  - by exists 10.
  - by exists 100.
  - by exists 1000.
  - by exists 10000.
  - by exists 100000.
  - by exists 1000000.
Qed.

(** The microseconds that are read for a latency of a bucket. *)
Lemma interpolate r i above all :
  10 <= i < 100 -> (r = unit_usec -> (10 | i)) -> 1 <= above <= all -> all <= INT_MAX ->
  exists p, to_int (fdiv (fmul (fadd (double i) (fdiv (double above) (double all))) (double (scale r))) (double base)) = Ret p /\
    i * scale r <= 10 * p <= (i + 1) * scale r /\ 0 < p.
Proof.
  intros Hi Hr Ha Hall. change (double base) with (double 10). pose proof U_pos as HU. destruct (scale_cases r) as [Hs Ss].
  assert (scale r = 1 /\ (10 | i) \/ exists t, scale r = 10 * t /\ 0 < t <= 1000000) as St by (destruct Ss as [[E ->] |]; auto).
  set (s := scale r) in *. clearbody s. destruct (fraction above all Ha Hall) as (f & Ff & Bf).
  destruct (add_whole i _ f Hi Ff Bf) as (w & Fw & Bw). destruct (mul_whole i s _ w Hi Hs Fw Bw) as (v & Fv & Bv).
  destruct (div_ten _ v Fv) as (q & Fq & R); [nia |].
  destruct (tenth_between i s v q Hi St Bv R) as (lo & hi & L0 & L1 & L2 & Lq & L3).
  destruct (float_trunc 53 _ q Fq) as (m & e & -> & Es). cbn [to_int]. rewrite Es.
  assert (lo <= q / U <= hi) as Bq by (split; [apply Z.div_le_lower_bound; [done | lia] | apply Z.lt_succ_r, Z.div_lt_upper_bound; [done | lia]]).
  exists (q / U). rewrite cint_fits by (unfold is_int, INT_MIN, INT_MAX; lia). split_and!; [done | lia | lia | lia].
Qed.

(** ** Searching *)
(** The place of a bucket among the 800, and how many latencies are in those before. *)
Definition place_of (r : row) (i : Z) : Z := 100 * Z.of_nat (row_index r) + i.
Definition rank (b : option (row * Z)) : Z := match b with Some (r, i) => place_of r i | None => 800 end.
Definition upto (k : Z) (ds : list Z) : Z := size (filter (fun d => rank (bucket_of d) < k) ds).

Lemma upto_cons k d ds : upto k (d :: ds) = (if decide (rank (bucket_of d) < k) then 1 else 0) + upto k ds.
Proof. unfold upto. rewrite filter_cons. case_decide; unfold size; cbn [length]; lia. Qed.
Lemma hits_cons b d ds : hits b (d :: ds) = (if decide (bucket_of d = b) then 1 else 0) + hits b ds.
Proof. unfold hits. rewrite filter_cons. case_decide; unfold size; cbn [length]; lia. Qed.
Lemma upto_range k ds : 0 <= upto k ds <= size ds.
Proof. unfold upto, size. pose proof (length_filter (fun d => rank (bucket_of d) < k) ds). lia. Qed.

Lemma upto_mono k k' ds : k <= k' -> upto k ds <= upto k' ds.
Proof. intros Hk. induction ds as [| d ds IH]; [done |]. rewrite !upto_cons. repeat case_decide; lia. Qed.

Lemma row_index_inj r r' : row_index r = row_index r' -> r = r'.
Proof. by destruct r, r'. Qed.

Lemma upto_next r i ds :
  0 <= i < 100 -> Forall (fun d => 0 <= d <= INT_MAX) ds -> upto (place_of r i + 1) ds = upto (place_of r i) ds + hits (Some (r, i)) ds.
Proof.
  intros Hi. induction 1 as [| d ds Hd _ IH]; [done |]. rewrite !upto_cons, hits_cons, IH.
  pose proof (bucket_of_cases d Hd) as B. unfold place_of. pose proof (row_index_le r). destruct (bucket_of d) as [[r' i'] |]; cbn [rank].
  - destruct B as [Hi' _]. unfold place_of. pose proof (row_index_inj r' r).
    destruct (decide (Some (r', i') = Some (r, i))) as [[= -> ->] | Hne]; [repeat case_decide; lia |].
    assert (100 * Z.of_nat (row_index r') + i' <> 100 * Z.of_nat (row_index r) + i).
    { intros E. apply Hne. assert (row_index r' = row_index r) as Er by lia. rewrite (row_index_inj _ _ Er). do 2 f_equal. lia. }
    repeat case_decide; lia.
  - rewrite (decide_False (P := None = Some (r, i))) by done. repeat case_decide; lia.
Qed.
Lemma upto_0 ds : Forall (fun d => 0 <= d <= INT_MAX) ds -> upto 0 ds = 0.
Proof.
  induction 1 as [| d ds Hd _ IH]; [done |]. rewrite upto_cons, IH, decide_False; [done |].
  pose proof (bucket_of_cases d Hd) as B. destruct (bucket_of d) as [[r i] |]; cbn [rank]; unfold place_of; lia.
Qed.
Lemma upto_all ds : Forall (fun d => 0 <= d <= INT_MAX) ds -> upto 800 ds = size ds - hits None ds.
Proof.
  induction 1 as [| d ds Hd _ IH]; [done |]. rewrite upto_cons, hits_cons, IH. pose proof (bucket_of_cases d Hd) as B.
  replace (size (d :: ds)) with (size ds + 1) by (unfold size; cbn [length]; lia).
  destruct (bucket_of d) as [[r i] |]; cbn [rank]; [pose proof (row_index_le r); unfold place_of |]; repeat case_decide; done || lia.
Qed.

Lemma hits_member b ds : 0 < hits b ds -> exists d, d ∈ ds /\ bucket_of d = b.
Proof.
  unfold hits, size. intros H. destruct (filter _ ds) as [| d l] eqn:E; [cbn in H; lia |].
  exists d. assert (d ∈ filter (fun d => bucket_of d = b) ds) as M by (rewrite E; by left). apply list_elem_of_filter in M. tauto.
Qed.

Section Search.
Context (h : histogram) (ds : list Z) (num : Z).
Hypothesis (T : tally h ds) (Hds : Forall (fun d => 1 <= d <= INT_MAX) ds) (Hsize : size ds <= INT_MAX) (Hnum : 1 <= num <= INT_MAX).

#[local] Lemma latencies_ok : Forall (fun d => 0 <= d <= INT_MAX) ds.
Proof using Hds. eapply Forall_impl; [exact Hds |]. cbn. lia. Qed.

(** The bucket in which the [num]th latency is, and what is read for it. *)
Definition found (r : row) (i p : Z) : Prop :=
  10 <= i < 100 /\ upto (place_of r i) ds < num <= upto (place_of r i + 1) ds /\
  i * scale r <= 10 * p <= (i + 1) * scale r /\ 0 < p /\ exists d, d ∈ ds /\ bucket_of d = Some (r, i).

Lemma search_from_spec r n i last :
  i + Z.of_nat n = 100 -> 0 <= i -> upto (place_of r i) ds < num ->
  (exists j p last' current, search_from (buckets h r) i n num last (upto (place_of r i) ds) (double (scale r)) = Ret (p, last', current) /\
     found r j p) \/
  (exists last', search_from (buckets h r) i n num last (upto (place_of r i) ds) (double (scale r)) = Ret (0, last', upto (place_of r 100) ds) /\
     upto (place_of r 100) ds < num).
Proof using All.
  revert i last. induction n as [| n IH]; intros i last Hi Hi0 Hlt; cbn [search_from].
  { right. exists last. by replace i with 100 in * by lia. }
  rewrite (tally_bucket h ds T r i ltac:(lia)). cbn [deref]. rewrite bind_Ret.
  pose proof (upto_next r i ds ltac:(lia) latencies_ok) as Nx. pose proof (upto_range (place_of r i) ds). pose proof (upto_range (place_of r i + 1) ds).
  rewrite <- Nx, (cint_fits (upto (place_of r i + 1) ds)), bind_Ret by (unfold is_int, INT_MIN, INT_MAX in *; lia).
  replace (place_of r i + 1) with (place_of r (i + 1)) in * by (unfold place_of; lia).
  destruct (Z.leb_spec num (upto (place_of r (i + 1)) ds)) as [L | L]; [left | apply (IH (i + 1)); lia].
  rewrite (cint_fits (num - _)), bind_Ret by (unfold is_int, INT_MIN, INT_MAX in *; lia).
  rewrite (cint_fits (_ - _)), bind_Ret by (unfold is_int, INT_MIN, INT_MAX in *; lia).
  destruct (hits_member (Some (r, i)) ds ltac:(lia)) as (d & Md & Bd).
  pose proof (proj1 (Forall_forall _ _) Hds d Md) as Hd. cbn beta in Hd. pose proof (bucket_of_cases d ltac:(lia)) as B. rewrite Bd in B. destruct B as (Bi & B10 & _ & Bu).
  destruct (interpolate r i (num - upto (place_of r i) ds) (upto (place_of r (i + 1)) ds - upto (place_of r i) ds)) as (p & -> & Hp & Hp0);
    [lia | intros Hr; exists d; specialize (Bu Hr); lia | lia | lia |].
  exists i, p, (upto (place_of r i) ds), (upto (place_of r (i + 1)) ds). split; [done |]. unfold found.
  replace (place_of r i + 1) with (place_of r (i + 1)) by (unfold place_of; lia). split_and!; try lia. by exists d.
Qed.

Lemma scales_rows : scales = (fun r => (r, scale r)) <$> (unit_usec :: larger_rows).
Proof. done. Qed.

Lemma search_rows_spec rows k last :
  drop k (unit_usec :: larger_rows) = rows -> upto (100 * Z.of_nat k) ds < num ->
  (exists r i p, search_rows h ((fun r => (r, scale r)) <$> rows) num last (upto (100 * Z.of_nat k) ds) = Ret p /\ found r i p) \/
  (search_rows h ((fun r => (r, scale r)) <$> rows) num last (upto (100 * Z.of_nat k) ds) = Ret 100000000 /\ upto 800 ds < num).
Proof using All.
  revert k last. induction rows as [| r rows IH]; intros k last Hk Hlt.
  { right. split; [by vm_compute |]. apply (f_equal length) in Hk. rewrite length_drop in Hk. cbn in Hk.
    pose proof (upto_mono 800 (100 * Z.of_nat k) ds). lia. }
  assert ((unit_usec :: larger_rows) !! k = Some r) as Er by (apply (f_equal (fun l => l !! 0%nat)) in Hk; by rewrite lookup_drop, Nat.add_0_r in Hk).
  assert (100 * Z.of_nat k = place_of r 0) as Ek by (apply row_lookup in Er as ->; unfold place_of; lia).
  cbn [fmap list_fmap search_rows]. unfold HIST_search_bucket. rewrite Ek in *.
  destruct (search_from_spec r HIST_NUM_OF_BUCKET 0 last ltac:(done) ltac:(lia) Hlt) as [(j & p & last' & current & -> & F) | (last' & -> & L)]; rewrite bind_Ret.
  - left. exists r, j, p. split; [| done]. rewrite (proj2 (Z.eqb_neq p 0)); [done |]. unfold found in F. lia.
  - rewrite Z.eqb_refl. cbn [negb]. replace (place_of r 100) with (100 * Z.of_nat (S k)) in * by (unfold place_of in *; lia).
    apply (IH (S k)); [| done]. apply (f_equal (drop 1)) in Hk. rewrite drop_drop in Hk. by replace (k + 1)%nat with (S k) in Hk by lia.
Qed.
End Search.
End NetHistPercentile.
