(* ===== verification/NetHistTheorems.v ===== *)
(** * netperf/src/netlib.c: the histogram of latencies is right

    The counts of the buckets, the percentiles, the transactions that are under way, and
    the latencies for which the code is undefined. *)
From Stdlib Require Import Floats.SpecFloat.
From S2P Require Import Prelude Doubles Rounding NetHist NetHistProofs NetHistPercentile.

Module NetHistTheorems.
Import Doubles Rounding NetHist NetHistProofs NetHistTally NetHistPercentile.

(** ** The ring of time stamps *)
Definition latency (start stop : timeval) : Z := (tv_sec stop - tv_sec start) * 1000000 + (tv_usec stop - tv_usec start).
Definition proper (t : timeval) : Prop := 0 <= tv_usec t < 1000000.

Lemma delta_micro_latency s t :
  proper s -> proper t -> 0 <= latency s t <= INT_MAX -> exists t', delta_micro s t = Ret (latency s t, t').
Proof.
  intros Hs Ht Hl. unfold delta_micro, proper, latency, INT_MAX in *.
  set (t1 := if tv_usec t <? tv_usec s then _ else t).
  assert (0 <= tv_usec t1 - tv_usec s < 1000000 /\
    (tv_sec t1 - tv_sec s) * 1000000 + (tv_usec t1 - tv_usec s) = (tv_sec t - tv_sec s) * 1000000 + (tv_usec t - tv_usec s)) as [Hu He].
  { unfold t1. destruct (Z.ltb_spec (tv_usec t) (tv_usec s)); cbn [tv_usec tv_sec]; lia. }
  rewrite <- He in *. exists t1. rewrite !i32_small by (unfold is_int, INT_MIN, INT_MAX; lia).
  rewrite cint_fits, bind_Ret by (unfold is_int, INT_MIN, INT_MAX; lia). rewrite cint_fits, bind_Ret by (unfold is_int, INT_MIN, INT_MAX; lia).
  by rewrite Z.add_comm.
Qed.

(** The transactions that are under way, the oldest first, in a ring of [lim] places. *)
Record ring (h : histogram) (lim : Z) (q : list timeval) : Prop := Ring {
  ring_limit : limit h = lim;
  ring_int : 0 < lim <= INT_MAX;
  ring_count : count h = size q;
  ring_room : size q <= lim;
  ring_consumer : 0 <= consumer h < lim;
  ring_producer : producer h = (consumer h + size q) mod lim;
  ring_length : size (time_ones h) = lim;
  ring_times : forall k, (k < length q)%nat -> aget (time_ones h) ((consumer h + Z.of_nat k) mod lim) = Some (q !! k) }.

Lemma ring_new m h : 0 <= m < INT_MAX -> HIST_new_n m true true = Ret h -> ring h (m + 1) [].
Proof.
  intros Hm. unfold HIST_new_n. cbn [negb]. rewrite cint_fits, bind_Ret by (unfold is_int, INT_MIN, INT_MAX in *; lia).
  rewrite (proj2 (Z.ltb_ge _ _)) by lia. cbn [orb]. intros H. injection H as <-.
  constructor; cbn [limit count consumer producer time_ones length HIST_clear]; try done; try lia.
  all: unfold size; cbn [length]; try lia. by rewrite length_replicate, Z2Nat.id by lia.
Qed.

Lemma mod_ne a b lim : 0 <= a < b -> b < a + lim -> a mod lim <> b mod lim.
Proof.
  intros Ha Hb E. pose proof (Z.div_mod a lim ltac:(lia)). pose proof (Z.div_mod b lim ltac:(lia)).
  assert (b - a = lim * (b / lim - a / lim)) as D by lia. set (k := b / lim - a / lim) in *. clearbody k. destruct (Z.le_gt_cases k 0); nia.
Qed.

Lemma start_ring h lim q t :
  ring h lim q -> size q < lim -> exists h', HIST_timestamp_start h t = Ret h' /\ ring h' lim (q ++ [t]) /\ forall ds, tally h ds -> tally h' ds.
Proof.
  intros [L I C R K P N Q] Hq. pose proof (size_nonneg q). unfold HIST_timestamp_start.
  assert (0 <= producer h < lim) as Hp by (rewrite P; apply Z.mod_pos_bound; lia).
  pose proof (aset_Some (time_ones h) (producer h) (Some t)) as E. fold (size (time_ones h)) in E. rewrite N in E. specialize (E Hp).
  rewrite E. cbn [deref]. rewrite bind_Ret, (cint_fits (producer h + 1)), bind_Ret by (unfold is_int, INT_MIN, INT_MAX in *; lia).
  rewrite L, (proj2 (Z.eqb_neq lim 0)), bind_Ret by lia. rewrite (cint_fits (count h + 1)), bind_Ret by (unfold is_int, INT_MIN, INT_MAX in *; lia).
  eexists. split; [reflexivity |]. split.
  - constructor; cbn [limit count consumer producer time_ones]; try done; rewrite ?size_snoc; try lia.
    + rewrite Z.rem_mod_nonneg, P, Zplus_mod_idemp_l by lia. f_equal. lia.
    + unfold size. rewrite length_insert. exact N.
    + intros k Hk. rewrite length_app in Hk. cbn [length] in Hk. destruct (decide (k = length q)) as [-> | Hne].
      * fold (size q). rewrite <- P, (aget_aset_eq _ _ _ _ E). by rewrite lookup_app_r, Nat.sub_diag by lia.
      * rewrite (aget_aset_ne _ _ _ _ _ E), lookup_app_l by (rewrite ?P; apply not_eq_sym, mod_ne || lia; unfold size in *; lia). apply Q. lia.
  - intros ds [T1 T2 T3 T4 T5 T6 T7]. by constructor.
Qed.

Lemma empty_ring keep h lim q t : ring h lim q -> q = [] \/ size q = lim -> HIST_timestamp_stop_add keep h t = Exit (-1).
Proof.
  intros [L I C R K P N Q] Hq. unfold HIST_timestamp_stop_add. rewrite (proj2 (Z.eqb_eq (consumer h) (producer h))); [done |].
  rewrite P. destruct Hq as [-> | ->]; cbn.
  - change (size (@nil timeval)) with 0. by rewrite Z.add_0_r, Z.mod_small.
  - rewrite Z.add_mod, Z.mod_same, Z.add_0_r, Z.mod_mod by lia. by rewrite Z.mod_small.
Qed.

Lemma stop_ring keep h lim s q t ds :
  ring h lim (s :: q) -> size (s :: q) < lim -> tally h ds -> proper s -> proper t -> 0 <= latency s t <= INT_MAX ->
  size ds < INT_MAX -> 0 <= sum_list ds -> sum_list ds + latency s t <= INT_MAX ->
  exists h', HIST_timestamp_stop_add keep h t = Ret h' /\ ring h' lim q /\ tally h' (ds ++ [latency s t]).
Proof.
  intros [L I C R K P N Q] Hq T Hs Ht Hl Hn H0 Hsum. unfold HIST_timestamp_stop_add.
  assert (size (s :: q) = size q + 1) as Eq by (unfold size; cbn [length]; lia). pose proof (size_nonneg q).
  rewrite (proj2 (Z.eqb_neq (consumer h) (producer h))).
  2: { rewrite P. rewrite <- (Z.mod_small (consumer h) lim) at 1 by lia. apply mod_ne; lia. }
  pose proof (Q 0%nat ltac:(cbn; lia)) as Q0. rewrite Z.add_0_r, Z.mod_small in Q0 by lia. rewrite Q0. cbn [deref lookup list_lookup]. rewrite !bind_Ret.
  cbn [deref]. rewrite bind_Ret. destruct (delta_micro_latency s t Hs Ht Hl) as [t' ->]. rewrite bind_Ret. cbv beta iota.
  match goal with |- context [HIST_add keep ?h1 _] => set (hh := h1) end.
  destruct (HIST_add_tally keep hh ds (latency s t)) as (h2 & -> & T2 & S1 & S2 & S3 & S4 & S5 & S6); [| lia | lia | lia | lia |].
  { destruct T. by constructor. }
  rewrite bind_Ret, S1, S2, S4. cbn [limit count consumer hh].
  rewrite (cint_fits (consumer h + 1)), bind_Ret by (unfold is_int, INT_MIN, INT_MAX in *; lia). rewrite L, (proj2 (Z.eqb_neq lim 0)), bind_Ret by lia.
  rewrite (cint_fits (count h - 1)), bind_Ret by (unfold is_int, INT_MIN, INT_MAX in *; lia). eexists. split; [reflexivity |]. split.
  - constructor; cbn [limit count consumer producer time_ones]; try done; rewrite ?S3, ?S5; cbn [producer time_ones hh]; try lia; try done.
    + rewrite Z.rem_mod_nonneg by lia. apply Z.mod_pos_bound. lia.
    + rewrite P, Z.rem_mod_nonneg, Zplus_mod_idemp_l by lia. f_equal. lia.
    + intros k Hk. rewrite Z.rem_mod_nonneg, Zplus_mod_idemp_l by lia. specialize (Q (S k) ltac:(cbn; lia)). cbn in Q.
      by replace (consumer h + 1 + Z.of_nat k) with (consumer h + Z.of_nat (S k)) by lia.
  - destruct T2. by constructor.
Qed.

(** ** Transactions *)
Inductive stamp := Start (now : timeval) | Stop (now : timeval).
Definition stamp_time (o : stamp) : timeval := match o with Start t | Stop t => t end.
Fixpoint run (keep : bool) (h : histogram) (ops : list stamp) : cres histogram :=
  match ops with
  | [] => Ret h
  | Start t :: ops => h ← HIST_timestamp_start h t; run keep h ops
  | Stop t :: ops => h ← HIST_timestamp_stop_add keep h t; run keep h ops
  end.

(** What they mean: [Stop] ends the oldest transaction.  The latencies and what is left
    under way, when never more than [max] are under way and none is ended too often. *)
Fixpoint transactions (max : Z) (q : list timeval) (ops : list stamp) : option (list Z * list timeval) :=
  match ops with
  | [] => Some ([], q)
  | Start t :: ops => if size q <? max then transactions max (q ++ [t]) ops else None
  | Stop t :: ops =>
      match q with
      | [] => None
      | s :: q => match transactions max q ops with Some (l, q) => Some (latency s t :: l, q) | None => None end
      end
  end.

Lemma run_transactions keep max ops h q ds l q' :
  ring h (max + 1) q -> size q <= max -> tally h ds -> Forall proper q -> Forall (fun o => proper (stamp_time o)) ops ->
  transactions max q ops = Some (l, q') -> Forall (fun d => 0 <= d) (ds ++ l) -> size (ds ++ l) <= INT_MAX -> sum_list (ds ++ l) <= INT_MAX ->
  exists h', run keep h ops = Ret h' /\ tally h' (ds ++ l) /\ ring h' (max + 1) q' /\ size q' <= max.
Proof.
  revert h q ds l. induction ops as [| [t | t] ops IH]; intros h q ds l R Hq T Pq Po Ht Hp Hs Hsum; cbn [run transactions] in *.
  - injection Ht as <- <-. exists h. by rewrite app_nil_r.
  - apply Forall_cons in Po as [Pt Po]. cbn [stamp_time] in Pt. destruct (Z.ltb_spec (size q) max) as [L |]; [| done].
    destruct (start_ring h (max + 1) q t R ltac:(lia)) as (h1 & -> & R1 & T1). rewrite bind_Ret.
    apply (IH h1 (q ++ [t])); auto; [rewrite size_snoc; lia | by rewrite Forall_app, Forall_singleton].
  - apply Forall_cons in Po as [Pt Po]. cbn [stamp_time] in Pt. destruct q as [| s q]; [done |]. apply Forall_cons in Pq as [Ps Pq].
    destruct (transactions max q ops) as [[l1 q1] |] eqn:E; [| done]. injection Ht as <- <-.
    rewrite Forall_app, Forall_cons in Hp. destruct Hp as (P1 & P2 & P3). rewrite sum_list_app in Hsum. cbn [sum_list foldr] in Hsum. fold (sum_list l1) in Hsum.
    pose proof (sum_list_nonneg ds P1). pose proof (sum_list_nonneg l1 P3). unfold size in Hs. rewrite length_app in Hs. cbn [length] in Hs.
    destruct (stop_ring keep h (max + 1) s q t ds R ltac:(lia) T Ps Pt) as (h1 & -> & R1 & T1); [lia | unfold size; lia | lia | lia |]. rewrite bind_Ret.
    destruct (IH h1 q (ds ++ [latency s t]) l1 R1) as (h2 & -> & T2 & R2); auto.
    + unfold size in *. cbn [length] in Hq. lia.
    + rewrite !Forall_app, Forall_singleton. done.
    + unfold size. rewrite !length_app. cbn [length]. lia.
    + rewrite !sum_list_app. cbn [sum_list foldr]. fold (sum_list ds). lia.
    + exists h2. rewrite <- app_assoc in T2. done.
Qed.

(** ** What is undefined *)
Lemma smul_neg m e m' e' : smul (S754_finite true m e) (S754_finite false m' e') = SFopp (smul (S754_finite false m e) (S754_finite false m' e')).
Proof. apply round_aux_sign. Qed.
Lemma single_neg p : single (Zneg p) = SFopp (single (Zpos p)).
Proof. unfold single, binary_normalize, binary_round. destruct (shl_align p 0 _) as [q e]. apply round_aux_sign. Qed.

Lemma negative_index p : Zpos p <= 2 ^ 31 -> exists m e k, single (Zneg p) = S754_finite true m e /\ to_int (smul (S754_finite true m e) (single base)) = cint (- k) /\ 10 <= k.
Proof.
  intros Hp. pose proof U_pos as HU. destruct (int_error 24 128 (-149) ltac:(lia) ltac:(lia) ltac:(lia) ltac:(lia) (Zpos p) false ltac:(lia)) as (w & F & [N B _]).
  assert (unit_of 0 <= w) as Lw by (apply (B _ _ single_1); nia). assert (w <= 2 ^ 32 * unit_of 0) as Uw.
  { change (2 ^ (24 - 1)) with 8388608 in N. rewrite Z.mul_1_r in N. assert (Zpos p * unit_of 0 <= 2 ^ 31 * unit_of 0) by nia. lia. }
  destruct (mul_error 24 128 (-149) ltac:(lia) ltac:(lia) ltac:(lia) ltac:(lia) 200 (binary_normalize 24 128 (Zpos p) 0 false) (single 10) w (10 * unit_of 0)) as (v & Fv & [_ Bv _]);
    [lia | lia | exact F | apply single_10 | | | |].
  - change (2 ^ 200) with (unit_of 0). change (2 ^ 240) with (2 ^ 40 * unit_of 0). nia.
  - split; by vm_compute.
  - change (2 ^ 260) with (2 ^ 60 * unit_of 0). nia.
  - destruct F as (m & e & E & _). exists m, e, (v / unit_of 0). rewrite single_neg. unfold single at 1. rewrite E. split_and!; [done | |].
    + change (single base) with (S754_finite false 10485760 (-20)). rewrite smul_neg. unfold single in Fv. rewrite E in Fv.
      destruct (float_trunc 24 _ v Fv) as (m' & e' & Ev & Es). unfold smul. change (S754_finite false 10485760 (-20)) with (single 10). unfold single. rewrite Ev.
      cbn [SFopp negb to_int]. by rewrite Es.
    + apply Z.div_le_lower_bound; [done |]. assert (10 * unit_of 0 <= v); [| lia]. apply (Bv _ _ single_10). nia.
Qed.

Lemma cint_cases z : cint z = Ret z \/ cint z = Undef.
Proof. unfold cint. case_bool_decide; auto. Qed.

(** A clock that was set back: the index is negative. *)
Lemma negative_latency keep h d : INT_MIN <= d < 0 -> HIST_add keep h d = Undef.
Proof.
  intros Hd. destruct d as [| | p]; [lia | lia |]. unfold HIST_add.
  destruct (cint_cases (total h + 1)) as [-> | ->]; [rewrite bind_Ret | done].
  destruct (cint_cases (sum h + Zneg p)) as [-> | ->]; [rewrite bind_Ret | done].
  destruct (negative_index p) as (m & e & k & -> & E & Hk); [unfold INT_MIN in *; lia |].
  change (SFltb (S754_finite true m e) (S754_zero false)) with true. cbv iota.
  destruct (cint_cases (ridiculous h + 1)) as [-> | ->]; [rewrite bind_Ret | done].
  change (place unit_usec larger_rows (S754_finite true m e)) with (Some (unit_usec, S754_finite true m e)). cbv iota beta. rewrite E.
  destruct (cint_cases (- k)) as [-> | ->]; [rewrite bind_Ret | done]. unfold incr, aget. by rewrite (proj2 (Z.leb_gt 0 (- k))) by lia.
Qed.

(** A bucket of latencies of 0 microseconds is passed over, and the next one divides by 0. *)
Lemma empty_bucket above : INT_MIN <= above <= 0 -> to_int (fdiv (fmul (fadd (double 0) (fdiv (double above) (double 0))) (double 10)) (double base)) = Undef.
Proof.
  intros H. destruct above as [| | p]; [done | lia |]. change (double 0) with (S754_zero false).
  assert (double (Zneg p) = SFopp (double (Zpos p))) as ->.
  { unfold double, binary_normalize, binary_round. destruct (shl_align p 0 _) as [q e]. apply round_aux_sign. }
  destruct (double_pos p) as (m & -> & _); [unfold INT_MIN in *; lia | done].
Qed.
Lemma zero_bucket above all : 1 <= above <= all -> all <= INT_MAX ->
  to_int (fdiv (fmul (fadd (double 0) (fdiv (double above) (double all))) (double 1)) (double base)) = Ret 0.
Proof.
  intros Ha Hall. destruct (fraction above all Ha Hall) as (f & F & Bf). change (double 0) with (S754_zero false). pose proof U_pos as HU.
  assert (fadd (S754_zero false) (fdiv (double above) (double all)) = fdiv (double above) (double all)) as ->.
  { destruct F as (m & e & -> & _). done. }
  set (x := fdiv (double above) (double all)) in *. clearbody x. change (double base) with (double 10). assert (2 ^ 160 <= unit_of 0) as L160 by done.
  destruct (mul_error 53 1024 (-190) ltac:(lia) ltac:(lia) ltac:(lia) ltac:(lia) 160 x (double 1) f (1 * unit_of 0)) as (v & Fv & [_ B A]);
    [lia | lia | done | by apply double_whole | change (2 ^ 240) with (2 ^ 40 * unit_of 0); nia | change (2 ^ 240) with (2 ^ 40 * unit_of 0); nia | change (2 ^ 260) with (2 ^ 60 * unit_of 0); nia |].
  assert (v <= 1 * unit_of 0) as Uv by (apply (A (double 1)); [by apply double_whole | nia]).
  assert (f <= v) as Lv by (apply (B x); [done | nia]). clear A B.
  destruct (div_error 53 1024 (-190) ltac:(lia) ltac:(lia) ltac:(lia) ltac:(lia) 160 _ (double 10) v (10 * unit_of 0) Fv) as (q & Fq & [N _ _]);
    [by apply double_whole | lia | lia | by vm_compute | lia | change (2 ^ 260) with (2 ^ 60 * unit_of 0); nia |].
  assert (0 <= q < 1 * unit_of 0) as Bq.
  { change (2 ^ (53 - 1)) with 4503599627370496 in N. set (u := unit_of 0) in *.
    assert (Z.abs (10 * q - v) * 4503599627370496 <= v) as N'.
    { replace (q * (10 * u) - v * u) with ((10 * q - v) * u) in N by lia. rewrite Z.abs_mul, (Z.abs_eq u) in N by lia. clear - N HU. nia. }
    clear N. lia. }
  destruct (float_trunc 53 _ q Fq) as (m & e & Eq & Es). unfold fdiv, fmul in *. rewrite Eq. cbn [to_int]. rewrite Es, Z.div_small by lia. done.
Qed.

Lemma no_small_ten ds : Forall (fun d => 0 <= d <= INT_MAX) ds -> hits (Some (ten_usec, 0)) ds = 0.
Proof.
  induction 1 as [| d ds Hd _ IH]; [done |]. rewrite hits_cons, IH. case_decide as E; [| done].
  pose proof (bucket_of_cases d Hd) as B. rewrite E in B. destruct (decide (d = 0)) as [-> | Hne]; [by vm_compute in E |].
  destruct B as (_ & B & _). specialize (B ltac:(lia)). lia.
Qed.

Lemma search_rows_cons h r s rows num last current :
  search_rows h ((r, s) :: rows) num last current =
    ('(result, last, current) ← HIST_search_bucket (buckets h r) num last current (double s);
     if negb (result =? 0) then Ret result else search_rows h rows num last current).
Proof. done. Qed.
(** The bucket is the first of its row. *)
Lemma search_first unit num last current k scale :
  aget unit 0 = Some k -> is_int (current + k) -> is_int k -> num <= current + k -> is_int (num - current) ->
  HIST_search_bucket unit num last current scale =
    (result ← to_int (fdiv (fmul (fadd (double 0) (fdiv (double (num - current)) (double k))) scale) (double base)); Ret (result, current, current + k)).
Proof.
  intros Hk H1 H2 Hn H3. unfold HIST_search_bucket. change HIST_NUM_OF_BUCKET with (S 99). generalize 99%nat. intros n. cbn [search_from].
  rewrite Hk. cbn [deref]. rewrite bind_Ret, (cint_fits (current + k)), bind_Ret, (proj2 (Z.leb_le _ _)) by done.
  rewrite (cint_fits (num - current)), bind_Ret by done. replace (current + k - current) with k by lia. by rewrite (cint_fits k), bind_Ret.
Qed.

Lemma zero_percentile h ds num :
  tally h ds -> Forall (fun d => 0 <= d <= INT_MAX) ds -> size ds <= INT_MAX -> 1 <= num <= hits (Some (unit_usec, 0)) ds ->
  search_rows h scales num 0 0 = Undef.
Proof.
  intros T Hds Hs Hn. pose proof (hits_range (Some (unit_usec, 0)) ds) as Hr. unfold scales.
  pose proof (tally_bucket h ds T unit_usec 0 ltac:(lia)) as A1. pose proof (tally_bucket h ds T ten_usec 0 ltac:(lia)) as A2.
  rewrite (no_small_ten ds Hds) in A2. set (z := hits (Some (unit_usec, 0)) ds) in *. clearbody z.
  rewrite search_rows_cons, (search_first _ num 0 0 z _ A1), Z.sub_0_r, (zero_bucket num z), !bind_Ret by (unfold is_int, INT_MIN, INT_MAX in *; lia).
  cbv beta iota. rewrite Z.eqb_refl. cbn [negb].
  rewrite search_rows_cons, (search_first _ num _ (0 + z) 0 _ A2), empty_bucket by (unfold is_int, INT_MIN, INT_MAX in *; lia). done.
Qed.

(** ** The properties *)
(** C16: A new histogram that is given latencies of at least 0 microseconds, whose number and
    sum fit an [int], holds their number, sum, smallest and largest; every bucket holds the
    number of the latencies that belong to it, and [ridiculous] that of the others; and in
    spite of the repeated divisions in [float] a latency belongs to a bucket only if it lies
    within it up to two millionths, no index leaves its row, and only latencies of 100
    seconds, up to two millionths, are ridiculous. *)
Theorem latencies_recorded keep max ds h0 :
  HIST_new_n max true true = Ret h0 -> Forall (fun d => 0 <= d) ds -> size ds <= INT_MAX -> sum_list ds <= INT_MAX ->
  exists h, HIST_adds keep h0 ds = Ret h /\ tally h ds /\
    forall d, d ∈ ds ->
      match bucket_of d with
      | Some (r, i) => 0 <= i < 100 /\ in_bucket r i d
      | None => 100000000 * 999998 <= d * 1000000
      end.
Proof.
  intros Hn Hp Hs Hsum. destruct (HIST_adds_tally keep h0 [] ds (tally_new max h0 Hn) Hp Hs Hsum) as (h & E & T).
  exists h. split_and!; [done | done |]. intros d Hd.
  assert (0 <= d <= INT_MAX) as Hi.
  { clear - Hp Hsum Hd. apply list_elem_of_split in Hd as (a & b & ->). rewrite Forall_app, Forall_cons in Hp. destruct Hp as (P1 & P2 & P3).
    rewrite sum_list_app in Hsum. cbn [sum_list foldr] in Hsum. fold (sum_list b) in Hsum. pose proof (sum_list_nonneg a P1). pose proof (sum_list_nonneg b P3). lia. }
  pose proof (bucket_of_cases d Hi) as B. destruct (bucket_of d) as [[r i] |]; [| done]. tauto.
Qed.

(** C17: A percentile of latencies of at least 1 microsecond is read from the right bucket.
    With [num] the product of [total] and the percentile, cut off: 0 gives 0; otherwise it is
    the bucket before which there are fewer than [num] latencies, and with which at least
    [num], and the microseconds that are returned lie within it, exactly, whatever the
    rounding of the interpolation; when there are not [num] latencies below 100 seconds, it is
    100 seconds. *)
Theorem percentile_in_bucket h ds percentile num :
  tally h ds -> Forall (fun d => 1 <= d <= INT_MAX) ds -> size ds <= INT_MAX ->
  to_int (fmul (double (size ds)) percentile) = Ret num -> 0 <= num ->
  exists p, HIST_get_percentile h percentile = Ret p /\
    if num =? 0 then p = 0
    else if num <=? size ds - hits None ds then
      exists r i d, 10 <= i < 100 /\ upto (place_of r i) ds < num <= upto (place_of r i + 1) ds /\
        i * scale r <= 10 * p <= (i + 1) * scale r /\ d ∈ ds /\ bucket_of d = Some (r, i)
    else p = 100000000.
Proof.
  intros T Hds Hs Hn H0. unfold HIST_get_percentile. rewrite (tally_total h ds T), Hn, bind_Ret. destruct (Z.eqb_spec num 0) as [-> | Hne]; [by exists 0 |].
  pose proof (to_int_int _ _ Hn) as Hi.
  assert (Forall (fun d => 0 <= d <= INT_MAX) ds) as Hds0 by (eapply Forall_impl; [exact Hds | cbn; lia]).
  pose proof (upto_0 ds Hds0) as U0. pose proof (upto_all ds Hds0) as Ua. unfold is_int in Hi. rewrite scales_rows.
  destruct (search_rows_spec h ds num T Hds Hs ltac:(lia) (unit_usec :: larger_rows) 0 0 eq_refl) as [(r & i & p & E & F) | (E & L)];
    change (100 * Z.of_nat 0) with 0 in *; rewrite ?U0 in *; [lia | |]; rewrite E.
  - exists p. split; [done |]. destruct F as (F1 & F2 & F3 & _ & d & Fd & Fb). rewrite (proj2 (Z.leb_le _ _)); [by exists r, i, d |].
    pose proof (row_index_le r). pose proof (upto_mono (place_of r i + 1) 800 ds ltac:(unfold place_of; lia)). lia.
  - exists 100000000. split; [done |]. by rewrite (proj2 (Z.leb_gt _ _)) by lia.
Qed.

(** C18: Transactions end in the order in which they began.  When never more than
    [max_outstanding] are under way, and none is ended that did not begin, every
    [HIST_timestamp_stop_add] adds the time from the oldest [HIST_timestamp_start] that has
    not been ended, and the histogram tallies just these latencies; with nothing under way
    the program exits with -1; and so it does when one transaction more was begun than was
    allowed for, since the full ring looks empty: after [HIST_new], whose ring has one place,
    no transaction can be ended. *)
Theorem oldest_transaction_ends keep max h0 ops l q :
  0 <= max < INT_MAX -> HIST_new_n max true true = Ret h0 -> Forall (fun o => proper (stamp_time o)) ops ->
  transactions max [] ops = Some (l, q) -> Forall (fun d => 0 <= d) l -> size l <= INT_MAX -> sum_list l <= INT_MAX ->
  exists h, run keep h0 ops = Ret h /\ tally h l /\ count h = size q /\
    (q = [] -> forall t, HIST_timestamp_stop_add keep h t = Exit (-1)) /\
    (size q = max -> forall s t, exists h', HIST_timestamp_start h s = Ret h' /\ HIST_timestamp_stop_add keep h' t = Exit (-1)).
Proof.
  intros Hm Hn Ho Ht Hp Hs Hsum.
  destruct (run_transactions keep max ops h0 [] [] l q (ring_new max h0 Hm Hn) ltac:(unfold size; cbn; lia) (tally_new max h0 Hn) ltac:(done) Ho Ht Hp Hs Hsum)
    as (h & E & T & R & Hq).
  exists h. split_and!; [done | done | apply R | |].
  - intros -> t. apply (empty_ring keep h (max + 1) [] t R). by left.
  - intros Hf s t. destruct (start_ring h (max + 1) q s R ltac:(lia)) as (h' & E' & R' & _). exists h'. split; [done |].
    apply (empty_ring keep h' (max + 1) (q ++ [s]) t R'). right. rewrite size_snoc. lia.
Qed.

(** Where the histogram is undefined.  A latency below 0, which a clock that is set back
    gives, is counted in [ridiculous] and then, for want of an [else], at a negative index;
    and a percentile that falls among latencies of 0 microseconds divides by zero: their
    interpolated 0 is taken for "not found", and the next bucket is empty. *)
Theorem histogram_undefined keep h d ds percentile num :
  tally h ds -> Forall (fun d => 0 <= d <= INT_MAX) ds -> size ds <= INT_MAX ->
  (INT_MIN <= d < 0 -> HIST_add keep h d = Undef) /\
  (to_int (fmul (double (size ds)) percentile) = Ret num -> 1 <= num <= hits (Some (unit_usec, 0)) ds ->
   HIST_get_percentile h percentile = Undef).
Proof.
  intros T Hds Hs. split; [apply negative_latency |]. intros Hn Hz. unfold HIST_get_percentile. rewrite (tally_total h ds T), Hn, bind_Ret.
  rewrite (proj2 (Z.eqb_neq num 0)) by lia. by apply (zero_percentile h ds).
Qed.

(** ** At work *)
Definition sample : cres histogram := h ← HIST_new_n 1 true true; HIST_adds true h [3; 12; 12345; 20; 99999999].

Lemma latencies_recorded_witness :
  exists h0 h, HIST_new_n 1 true true = Ret h0 /\ HIST_adds true h0 [3; 12; 12345; 20; 99999999] = Ret h /\ hits (Some (ten_msec, 12)) [3; 12; 12345; 20; 99999999] = 1 /\
    ridiculous h = 1.
Proof.
  destruct (HIST_new_n 1 true true) as [h0 | | |] eqn:E; try by vm_compute in E.
  destruct (latencies_recorded true 1 [3; 12; 12345; 20; 99999999] h0 E ltac:(repeat constructor; done) ltac:(done) ltac:(done)) as (h & Eh & T & _).
  exists h0, h. split_and!; [done | exact Eh | by vm_compute | rewrite (tally_rest _ _ T); by vm_compute].
Defined.

Lemma percentile_in_bucket_witness :
  exists h p, sample = Ret h /\ HIST_get_percentile h (fdiv (double 1) (double 2)) = Ret p.
Proof.
  unfold sample. destruct (HIST_new_n 1 true true) as [h0 | | |] eqn:E; try by vm_compute in E. rewrite bind_Ret.
  destruct (HIST_adds_tally true h0 [] [3; 12; 12345; 20; 99999999] (tally_new 1 h0 E) ltac:(repeat constructor; done) ltac:(done) ltac:(done)) as (h & Eh & T).
  destruct (percentile_in_bucket h [3; 12; 12345; 20; 99999999] (fdiv (double 1) (double 2)) 2 T ltac:(repeat constructor; done) ltac:(done)
    ltac:(by vm_compute) ltac:(done)) as (p & Ep & _).
  exists h, p. split; [exact Eh | exact Ep].
Defined.

Lemma oldest_transaction_ends_witness :
  exists h0 h, HIST_new_n 2 true true = Ret h0 /\
    run true h0 [Start (Timeval 1 999990); Start (Timeval 2 0); Stop (Timeval 2 5); Stop (Timeval 2 30)] = Ret h /\ tally h [15; 30].
Proof.
  destruct (HIST_new_n 2 true true) as [h0 | | |] eqn:E; try by vm_compute in E.
  destruct (oldest_transaction_ends true 2 h0 [Start (Timeval 1 999990); Start (Timeval 2 0); Stop (Timeval 2 5); Stop (Timeval 2 30)] [15; 30] []
    ltac:(done) E ltac:(repeat constructor; done) ltac:(by vm_compute) ltac:(repeat constructor; done) ltac:(done) ltac:(done)) as (h & Eh & T & _).
  exists h0, h. split_and!; [done | exact Eh | exact T].
Defined.

Lemma histogram_undefined_witness :
  exists h, (h0 ← HIST_new_n 1 true true; HIST_adds true h0 [0; 0; 0; 7]) = Ret h /\
    HIST_get_percentile h (fdiv (double 1) (double 2)) = Undef /\ HIST_add true h (-1) = Undef.
Proof.
  destruct (HIST_new_n 1 true true) as [h0 | | |] eqn:E; try by vm_compute in E. rewrite bind_Ret.
  destruct (HIST_adds_tally true h0 [] [0; 0; 0; 7] (tally_new 1 h0 E) ltac:(repeat constructor; done) ltac:(done) ltac:(done)) as (h & Eh & T).
  destruct (histogram_undefined true h (-1) [0; 0; 0; 7] (fdiv (double 1) (double 2)) 2 T ltac:(repeat constructor; done) ltac:(done)) as [A B].
  exists h. split_and!; [exact Eh | apply B; [by vm_compute | by vm_compute] | by apply A].
Defined.
End NetHistTheorems.
